(* ===== verification/_CoqProject ===== *)
-Q . S2P
Prelude.v
Doubles.v
Dijkstra.v
MemoryStream.v
TrafficMsg.v
NetXml.v
TrafficServer.v
ServerFacts.v
ServerProps.v
ServerRun.v
VehicleApp.v
VehicleLife.v
VehicleReRoute.v
System.v
Demo.v
Family.v
LteCommon.v
LteBinder.v
BinderProps.v
ConnectionsTable.v
Pdcp.v
PdcpProps.v
PdcpDemo.v
MacQueue.v
TTimer.v
HarqTx.v
HarqTxBuffer.v
HarqRx.v
HarqTxFacts.v
HarqTxProps.v
HarqTxRun.v
HarqTxChoice.v
HarqLink.v
HarqDemo.v
HarqSource.v
RlcUm.v
RlcUmProps.v
MacBase.v
LcgScheduler.v
LcgProps.v
MacUe.v
MacUeRac.v
MacUeUplink.v
MacUeDemo.v
Allocation.v
AllocationProps.v
CircularList.v
TbsTables.v
Amc.v
SchedulerEnb.v
Drr.v
SchedulerEnbProps.v
SchedulerEnbUl.v
SchedulerEnbUlProps.v
SchedulerEnbDl.v
MaxCi.v
MaxCiProps.v
SchedulerDemo.v
MacEnb.v
MacUplink.v
MacUplinkDemo.v
RlcWindow.v
RlcWindowFacts.v
RlcWindowProps.v
RlcReorder.v
RlcEndToEnd.v
RlcAm.v
RlcAmFacts.v
RlcAmRx.v
RlcAmRxFacts.v
RlcAmLink.v
RlcAmDemo.v
RlcUmLayer.v
Stack.v
X2Msg.v
X2Props.v
IP2lte.v
EnbHandover.v
HandoverDemo.v
X2Handover.v
