(* ===== verification/Prelude.v ===== *)
(** * V2N rerouting over SimuLTE: a verification development

    The program is a simulation of cars that are rerouted over an LTE network: a server
    that knows the traffic computes routes (src/simulte/src/apps/TrafficApp/), vehicles report
    to it and follow its routes, and their packets cross the LTE stack of SimuLTE
    (src/simulte/src/).  INET, Veins and OMNeT++ are frameworks it is built on.

    ** Parts and files

    Packets go down from the application through IP, PDCP, RLC and MAC of one node and up
    again through those of the other; the files follow that order.

    - Common: Prelude (outcomes of C++ code, machine integers, vectors, lists), Doubles
      ([double] as IEEE-754 numbers), Family (maps of independent machines).
    - Traffic server, TrafficServer.cc: NetXml (network file, which the vehicle reads, too),
      Dijkstra, TrafficServer (its state and handlers), ServerFacts (well-formed states,
      cost model), ServerProps (each handler), ServerRun (runs of handlers).
    - Vehicles, VehicleApp.cc and apps/VehicleReRoute/VehicleReRouteApp.cc: VehicleApp (with its handlers' lemmas),
      VehicleLife (life cycle), VehicleReRoute.
    - Messages: MemoryStream (INET's byte streams), TrafficMsg (TrafficMsg.msg and its
      serializers).  System composes server, wire and vehicle; Demo has their concrete runs.
    - Identifiers: LteCommon (common/LteCommon.cc, LteControlInfo.msg), LteBinder
      (corenetwork/binder/LteBinder.cc), BinderProps.
    - IP interface, corenetwork/lteip/IP2lte.cc: IP2lte (with the UE's theorems), EnbHandover (the base
      station), HandoverDemo.
    - PDCP/RRC, stack/pdcp_rrc/: ConnectionsTable, Pdcp, PdcpProps, PdcpDemo.
    - RLC unacknowledged mode, stack/rlc/um/: RlcUm (UmTxEntity and reassembly), RlcUmProps,
      TTimer (common/timer/), RlcWindow (UmRxEntity), RlcWindowFacts, RlcWindowProps, RlcReorder,
      RlcEndToEnd, RlcUmLayer (LteRlcUm).  Stack composes PDCP and RLC.
    - RLC acknowledged mode, stack/rlc/am/: RlcAm (AmTxQueue and the PDUs), RlcAmFacts (its window against
      the plan of PDUs), RlcAmRx (AmRxQueue and LteRlcAm), RlcAmRxFacts, RlcAmLink (two nodes and the
      channels between them), RlcAmDemo (an array, runs, and what fails).
    - MAC, stack/mac/: MacQueue (LteMacBuffer, LteMacQueue); H-ARQ (buffer/harq/): HarqTx, HarqTxBuffer,
      HarqRx, HarqTxFacts, HarqTxProps, HarqTxRun, HarqTxChoice, HarqLink (both sides and a channel),
      HarqSource, HarqDemo; the UE (LteMacUe, LcgScheduler, LteSchedulerUeUl): MacBase (LteMacBase),
      LcgScheduler, LcgProps, MacUe, MacUeRac, MacUeUplink, MacUeDemo; the eNB (LteMacEnb): MacEnb;
      its resource blocks (allocator/LteAllocationModule): Allocation, AllocationProps; MacUplink
      composes UE, H-ARQ and eNB, MacUplinkDemo runs it.
    - Schedulers of the eNB: CircularList (common/Circular.h); TbsTables, Amc (amc/LteMcs.cc and the
      block sizes of amc/LteAmc.cc); SchedulerEnb, SchedulerEnbProps (scheduler/LteSchedulerEnb.cc: the
      grant of one connection), SchedulerEnbUl, SchedulerEnbUlProps (LteSchedulerEnbUl.cc: a whole
      uplink TTI), SchedulerEnbDl (LteSchedulerEnbDl.cc: a whole downlink TTI, with the bands of
      amc/AmcPilotAuto.cc); the disciplines: Drr (scheduling_modules/LteDrr.cc), MaxCi, MaxCiProps
      (scheduler/LteScheduler.h, the queue of scores, LteMaxCi.cc and LtePf.cc); SchedulerDemo runs them.
    - Between base stations, x2/, stack/handoverManager/ and epc/gtp/GtpUserX2.cc: X2Msg, X2Props (messages
      and their serializer), X2Handover (a handover over the tunnel).

    ** How the model corresponds to the code

    A class is a Record with the members its methods read or write, under their names (a
    prefix where two classes share one); a method is a Definition from the state to a
    [result] of the new state and what the method answers or sends.  [Throw] is an
    exception or [cRuntimeError], [UB] behaviour the C++ standard leaves undefined
    (a null pointer, an index out of range).  What a method hands to other modules or to the
    kernel is a list of effects.  Integers are [Z], reduced to their width where the code
    computes with them ([uint8], [uint16], [uint32], [int32]); signed overflow of a counter
    is [UB].  Times are raw [simtime_t] values in picoseconds.  [std::map] is
    [gmap], visited in ascending order of its keys ([ascending], [ascending_pairs]);
    a [std::list] or queue is a list.  Assertions are enabled.

    Loops without a structural measure have fuel that is proved or seen to be enough: the
    search of [Dijkstra] has one turn for each entry that can enter the queue; loops that
    empty a list have the list or its length ([turns]) as fuel; counted loops have
    their count; [addPdus] has the window as fuel; probing the table of connections has [TABLE_SIZE] rounds, after which the
    code repeats a probe, so that running out of fuel is an endless loop of the code
    ([probing_terminates], [pdcp_full_table_hangs]); [sendGrants] has a turn for each entry of
    the schedule ([grants_complete]); deficit round robin has three visits per connection
    ([drr_schedule_terminates]); serving a queue of scores has its length.  Exhausted fuel is [UB], and the theorems exclude it.

    Parameters stand for code that is not in the repository or that is not modelled: the answers
    of TraCI and of the kernel, [std::exp] of the decay of edge weights, the identifiers
    OMNeT++ gives modules and packets, uninitialised memory ([junk]).  [CArray] is the
    interface of the kernel's array of pointers and [CArrayAdd] of its [add] and [size], with instances on
    finite maps; [SimTimeDbl] is the conversion of times to seconds;
    [ConnMapLaws] is what PDCP relies on of the table of connections; [EnbScheduler] is
    what the MAC layer of the eNB asks its schedulers and the modulation.  [Amc] is what the
    transmission parameters of a UE depend on (the feedback that chooses them is not modelled),
    [Cell] the configuration of a cell; [GrantLaws] is what a discipline relies on of a grant, which
    [enb_grant_laws] discharges.  Random draws and noise are functions of the number of the draw.

    ** What is shown

    - Server: every handler keeps the server well formed and fails on no input
      ([server_run_safe]); every route sent is a cheapest one under the current
      weights ([server_route_optimal]), those with the report it answers, and reaches the driver
      ([route_reaches_driver]); reports change exactly the edge reported, the vehicle that reports
      and, when a route is found, the record of its last route ([report_effect]), and are forgotten
      ([traffic_forgotten]); a route of more than 64 edges loses its destination
      ([long_route_loses_destination]).
    - Vehicle: its life cycle ([vehicle_life], [departure_cleans_up]); server and vehicle number
      edges alike ([edge_numbering_agrees], [parseNetXml_wf]); messages survive the wire
      ([report_roundtrip]); the test application reroutes once ([reroutes_once]).
    - Identifiers: distinct and of the right type ([registered_ids_distinct]);
      unregistration leaves nothing behind ([unregister_forgets]).
    - IP and PDCP: nothing is lost or overtaken during a handover ([ue_hold_in_order],
      [enb_hold_in_order]), nor across X2 when the first data gate of the X2 manager is that of the handover manager
      ([handover_lossless]); everything forwarded is lost when it is that of the CoMP manager
      ([forwarded_to_comp], [x2_dispatch]); X2 messages survive the wire, and what is decoded is what
      arrived, block states unchecked ([x2_roundtrip], [x2_decoded_complete],
      [handover_command_indeterminate]); packets are numbered by connection and restored by
      the peer ([pdcp_numbering], [pdcp_roundtrip]).
    - RLC: what is sent is cut and put together again ([um_lossless_delivery],
      [grant_filled]); the window hands on each PDU at most once and in order, and none that
      is in the window is lost ([rx_in_order_once], [rx_no_pdu_lost], [um_end_to_end]); with
      PDCP, [stack_end_to_end].  In acknowledged mode, with a receiver's window of at least
      twice the transmitter's, nothing fails while no PDU is given up; a ledger ([ledger]) computes from the
      offers and the moves of the window what has entered it, and that is delivered at most once and
      whole, and, when of one PDU, delivered or waiting for its acknowledgement ([am_link]);
      [am_sdu_dropped] shows what is lost, and the runs [stuck_sdu], [equal_windows_fail],
      [lost_first_pdu_fails] and [given_up_sdu_fails] what fails otherwise.
    - MAC: H-ARQ never fails under the main loop, numbers the packets of a PDU without a gap and sends
      none too often ([harq_tx_safe]), and delivers ([harq_delivers]); a grant is shared as a short reference says and is never exceeded
      ([lcg_matches_reference], [requests_fit]), except for [sdu_request_underflow]; random access is
      periodic ([rac_requests_periodic]); the eNB makes a grant for each connection,
      of the bytes its blocks carry ([grants_complete], [second_codeword_no_bytes]); no resource block is given twice
      ([no_negative_space], [removal_keeps_bytes]); SDUs cross the uplink ([uplink_mac_delivers]).
    - Schedulers: a whole uplink TTI ends, schedules only blocks the allocator gave and leaves a state
      in which the next can start ([uplink_tti]); a whole downlink TTI ends, takes only blocks of the cell
      and sends each UE one PDU again or new data ([downlink_tti]), and a retransmission is served exactly
      if the free blocks carry it ([downlink_rtx_served]); they build on what each discipline shows against the
      interface of a grant: deficit round robin terminates ([drr_schedule_terminates]), the queue of
      scores is served from the best down and none is skipped ([max_ci_best_first]), the rates follow what
      was granted by the smoothing formula ([pf_rates_follow]); the
      number of blocks asked for is the least one that carries the bytes ([req_rbs_least]); the circular
      list is a ring with a beginning to rewind to ([circular_list_is_ring]).  What fails: [drr_forgets_active], [drr_deficit_wraps],
      [high_cqi_out_of_range], [more_blocks_fewer_bits], [rac_block_lost], [gone_ue_breaks_rtx]; in the downlink
      [two_codewords_lose_process], [rtx_on_wrong_band], [gone_ue_skips_next], [busy_ue_eligible].

    Theorems about what fails are stated with the inputs that make it fail.

    ** Not modelled

    - Statistics, logging, signals and the ownership calls of OMNeT++ ([take], [drop]), as no
      code modelled reads what they change; packet lengths have no bound.
    - The physical layer and the channel (random and floating point): H-ARQ is proved for
      every sequence of decoding results.
    - Of adaptive modulation the feedback and the pilot, which choose the parameters of a UE from
      channel measurements; of the schedulers the retransmissions of D2D links, statistics, and the disciplines other than deficit round robin,
      maximum C/I and proportional fair; of [LteMacEnb::handleSelfMessage] the order of these runs.
    - RLC transparent mode, and [AmRxQueue::discard], which nothing calls; the D2D variants of H-ARQ and MAC; EPC and GTP but for
      [GtpUserX2]; CoMP managers but for their messages.
    - INET and Veins, vendored frameworks, but for the byte streams and the address text. *)

From stdpp Require Export base list gmap strings sets.
From Stdlib Require Export ZArith Lia.
From Stdlib Require Import Ascii.

#[global] Open Scope Z_scope.

(** ** Outcomes of C++ code

    [Throw] is a [cRuntimeError] (or a standard exception) carrying its message,
    [UB] an execution the C++ standard leaves undefined: an out-of-range
    [operator[]], a dereferenced null pointer. *)
Inductive result (A : Type) : Type :=
| Ok (a : A)
| Throw (msg : string)
| UB.
Arguments Ok {A} a.
Arguments Throw {A} msg.
Arguments UB {A}.

Definition rbind {A B} (m : result A) (k : A -> result B) : result B :=
  match m with
  | Ok a => k a
  | Throw e => Throw e
  | UB => UB
  end.

Definition of_option {A} (o : option A) : result A :=
  match o with Some a => Ok a | None => UB end.

Declare Scope cpp_scope.
Delimit Scope cpp_scope with cpp.
Notation "'let!' x ':=' m 'in' k" := (rbind m (fun x => k))
  (at level 10, x pattern, m at level 100, k at level 200)
  : cpp_scope.
#[global] Open Scope cpp_scope.

(** [try { ... } catch (...) { h }]. *)
Definition catch {A} (m : result A) (h : result A) : result A :=
  match m with Throw _ => h | _ => m end.

(** ** Functional update of record fields

    [r <| p := v |>] is [r] with field [p] set to [v].  The setter is found from the
    eta-expansion of the record by abstracting the field. *)
Class Eta (R : Type) := eta : R -> R.
Class Setter {R T} (proj : R -> T) := set : (T -> T) -> R -> R.
Arguments set {R T} proj {_} / _ _.

Ltac find_setter :=
  match goal with
  | |- @Setter ?R ?T ?p =>
      let f := fresh in let r := fresh in intros f r;
      let i := constr:(_ : Eta R) in
      let e := eval hnf in (i r) in
      let e' := eval pattern (p r) in e in
      match e' with ?g _ => exact (g (f (p r))) end
  end.
#[export] Hint Extern 1 (Setter _) => find_setter : typeclass_instances.

Notation "r <| p := v |>" := (set p (fun _ => v) r)
  (at level 1, p at level 9, left associativity) : cpp_scope.

Lemma rbind_Ok_inv {A B} (m : result A) (k : A -> result B) b :
  rbind m k = Ok b -> exists a, m = Ok a /\ k a = Ok b.
Proof. destruct m; simpl; intros; try discriminate; eauto. Qed.

(** ** Machine integers *)

Definition wrap (w : Z) (z : Z) : Z := z mod 2 ^ w.
Definition swrap (w : Z) (z : Z) : Z :=
  (z + 2 ^ (w - 1)) mod 2 ^ w - 2 ^ (w - 1).

Abbreviation uint8 := (wrap 8).
Abbreviation uint32 := (wrap 32).
Abbreviation uint64 := (wrap 64).
Abbreviation int32 := (swrap 32).

Definition is_uint (w z : Z) : Prop := 0 <= z < 2 ^ w.
Definition is_sint (w z : Z) : Prop := - 2 ^ (w - 1) <= z < 2 ^ (w - 1).

Lemma wrap_range w z : 0 <= w -> is_uint w (wrap w z).
Proof. intros. apply Z.mod_pos_bound. lia. Qed.

Lemma wrap_small w z : is_uint w z -> wrap w z = z.
Proof. intros. by apply Z.mod_small. Qed.

Lemma pow2_half w : 1 <= w -> 2 ^ w = 2 * 2 ^ (w - 1).
Proof. intros. rewrite <- Z.pow_succ_r by lia. f_equal; lia. Qed.

Lemma swrap_range w z : 1 <= w -> is_sint w (swrap w z).
Proof.
  intros Hw. unfold is_sint, swrap.
  pose proof (Z.mod_pos_bound (z + 2 ^ (w - 1)) (2 ^ w)).
  rewrite (pow2_half w) in * by lia.
  assert (0 < 2 ^ (w - 1)) by (apply Z.pow_pos_nonneg; lia). lia.
Qed.

Lemma swrap_small w z : 1 <= w -> is_sint w z -> swrap w z = z.
Proof.
  unfold is_sint, swrap. intros Hw Hz.
  rewrite Z.mod_small; [lia|]. rewrite (pow2_half w) by lia. lia.
Qed.

(** [x++] on an [int]; overflow is undefined. *)
Definition incr (z : Z) : result Z := if z <? 2 ^ 31 - 1 then Ok (z + 1) else UB.

Lemma incr_ok n z : z <= n -> n < 2 ^ 31 - 1 -> incr z = Ok (z + 1).
Proof. intros. unfold incr. by rewrite (proj2 (Z.ltb_lt _ _)) by lia. Qed.

(** A sum over a list, and an unsigned accumulator that adds it up. *)
Definition sumZ {A} (f : A -> Z) (l : list A) : Z := foldr (fun x n => f x + n) 0 l.

Lemma sumZ_ext {A} (f g : A -> Z) l : (forall x, f x = g x) -> sumZ f l = sumZ g l.
Proof. intros E. induction l as [|x l IH]; simpl; by rewrite ?E, ?IH. Qed.

Lemma fold_left_wrap {A} w (f : A -> Z) l a :
  0 <= w -> is_uint w a -> fold_left (fun acc x => wrap w (acc + f x)) l a = wrap w (a + sumZ f l).
Proof.
  intros Hw. revert a. induction l as [|x l IH]; intros a Ha; simpl.
  - rewrite Z.add_0_r. symmetry. by apply wrap_small.
  - rewrite IH by (by apply wrap_range). unfold wrap.
    rewrite Z.add_mod_idemp_l by (apply Z.pow_nonzero; lia). f_equal. lia.
Qed.

(** A signed value cast to unsigned and back is unchanged. *)
Lemma swrap_wrap w z : 1 <= w -> is_sint w z -> swrap w (wrap w z) = z.
Proof.
  intros Hw Hz. rewrite <- (swrap_small w z) at 2 by done.
  unfold swrap, wrap. by rewrite Z.add_mod_idemp_l by (apply Z.pow_nonzero; lia).
Qed.

(** ** std::vector: lookup and update by a (signed) index *)

Definition vget {A} (l : list A) (i : Z) : option A :=
  if 0 <=? i then l !! Z.to_nat i else None.

Definition vset {A} (l : list A) (i : Z) (x : A) : option (list A) :=
  if (0 <=? i) && (i <? Z.of_nat (length l))
  then Some (<[Z.to_nat i := x]> l) else None.

Abbreviation vsize l := (Z.of_nat (length l)).

Section Vectors.
Context {A : Type}.
Implicit Types (l : list A) (i j : Z) (x y : A).

Lemma vget_Some_bounds l i x : vget l i = Some x -> 0 <= i < vsize l.
Proof.
  unfold vget. case (Z.leb_spec 0 i); [|done]. intros ? Hl%lookup_lt_Some. lia.
Qed.

Lemma vget_is_Some l i : 0 <= i < vsize l -> exists x, vget l i = Some x.
Proof.
  unfold vget. intros Hi. rewrite (proj2 (Z.leb_le 0 i)) by lia.
  apply lookup_lt_is_Some. lia.
Qed.

Lemma vset_is_Some l i x : 0 <= i < vsize l -> exists l', vset l i x = Some l'.
Proof.
  unfold vset. intros Hi.
  rewrite (proj2 (Z.leb_le 0 i)), (proj2 (Z.ltb_lt i _)) by lia. simpl; eauto.
Qed.

Lemma vset_inv l i x l' :
  vset l i x = Some l' -> 0 <= i < vsize l /\ l' = <[Z.to_nat i := x]> l.
Proof.
  unfold vset. destruct (Z.leb_spec 0 i), (Z.ltb_spec i (vsize l)); simpl;
    intros; simplify_eq; auto.
Qed.

Lemma vset_size l i x l' : vset l i x = Some l' -> length l' = length l.
Proof. intros [_ ->]%vset_inv. apply length_insert. Qed.

Lemma vget_vset_eq l i x l' : vset l i x = Some l' -> vget l' i = Some x.
Proof.
  intros [? ->]%vset_inv. unfold vget. rewrite (proj2 (Z.leb_le 0 i)) by lia.
  apply list_lookup_insert_eq. lia.
Qed.

Lemma vget_vset_ne l i j x l' :
  vset l i x = Some l' -> i <> j -> vget l' j = vget l j.
Proof.
  intros [? ->]%vset_inv ?. unfold vget. case (Z.leb_spec 0 j); [|done].
  intros. apply list_lookup_insert_ne. lia.
Qed.

Lemma vget_vset l i j x l' :
  vset l i x = Some l' ->
  vget l' j = if decide (i = j) then Some x else vget l j.
Proof.
  intros H. case_decide; subst; eauto using vget_vset_eq, vget_vset_ne.
Qed.

Lemma vget_replicate n x i y :
  vget (replicate n x) i = Some y -> y = x.
Proof. unfold vget. case (0 <=? i); [|done]. by intros [-> _]%lookup_replicate. Qed.

Lemma vget_Forall (P : A -> Prop) l i x : Forall P l -> vget l i = Some x -> P x.
Proof.
  unfold vget. case (0 <=? i); [|done]. intros HP H.
  eapply Forall_lookup_1; eauto.
Qed.

Lemma vset_Forall (P : A -> Prop) l i x l' :
  Forall P l -> P x -> vset l i x = Some l' -> Forall P l'.
Proof. intros ? ? [? ->]%vset_inv. by apply Forall_insert. Qed.
End Vectors.

(** ** Counting *)

Section Count.
Context {A : Type} (f : A -> bool).

Definition count (l : list A) : Z := foldr (fun x n => Z.b2z (f x) + n) 0 l.

Lemma count_cons x l : count (x :: l) = Z.b2z (f x) + count l.
Proof. done. Qed.

Lemma count_bounds l : 0 <= count l <= vsize l.
Proof. induction l as [|x l IH]; simpl; [lia|]. destruct (f x); simpl; lia. Qed.

Lemma count_insert l i x y :
  l !! i = Some x ->
  count (<[i := y]> l) = count l - Z.b2z (f x) + Z.b2z (f y).
Proof.
  revert i; induction l as [|z l IH]; intros [|i] Hi; simplify_eq/=; [lia|].
  rewrite (IH _ Hi). lia.
Qed.

Lemma count_0 l : count l = 0 <-> forall i x, l !! i = Some x -> f x = false.
Proof.
  induction l as [|x l IH]; simpl.
  - split; [|done]. intros _ i x Hx. by rewrite lookup_nil in Hx.
  - pose proof (count_bounds l). split.
    + intros Hc [|i] y Hy; simpl in Hy; simplify_eq; destruct (f _) eqn:E; simpl in *;
        try lia; try done; by apply (proj1 IH ltac:(lia) i).
    + intros Hall. rewrite (Hall O x eq_refl). simpl.
      apply IH. intros i y. apply (Hall (S i)).
Qed.

Lemma count_full l : count l = vsize l <-> forall i x, l !! i = Some x -> f x = true.
Proof.
  induction l as [|x l IH]; simpl.
  - split; [|done]. intros _ i x Hx. by rewrite lookup_nil in Hx.
  - pose proof (count_bounds l). split.
    + intros Hc [|i] y Hy; simpl in Hy; simplify_eq; destruct (f _) eqn:E; simpl in *;
        try lia; try done; by apply (proj1 IH ltac:(lia) i).
    + intros Hall. rewrite (Hall O x eq_refl). simpl.
      assert (count l = vsize l) by (apply IH; intros i y; apply (Hall (S i))). lia.
Qed.
End Count.

Lemma Forall2_impl_elem {A B} (P Q : A -> B -> Prop) l k :
  (forall x y, x ∈ l -> P x y -> Q x y) -> Forall2 P l k -> Forall2 Q l k.
Proof.
  intros HPQ. induction 1 as [|x y l k Hxy _ IH]; constructor.
  - apply HPQ; [left|done].
  - apply IH. intros. apply HPQ; [by right|done].
Qed.

(** The least number with a decidable property. *)
Lemma least_nat (P : nat -> Prop) `{!forall n, Decision (P n)} n :
  P n -> exists d, (d <= n)%nat /\ P d /\ forall d', (d' < d)%nat -> ~ P d'.
Proof.
  induction n as [n IH] using lt_wf_ind. intros Hn.
  destruct (decide (Exists P (seq 0 n))) as [Hex|Hno].
  - apply Exists_exists in Hex as (k & Hk%elem_of_seq & HPk).
    destruct (IH k ltac:(lia) HPk) as (d & Hd & HPd & Hmin). exists d. split; [lia|done].
  - exists n. split; [lia|]. split; [done|]. intros d Hd HPd. apply Hno, Exists_exists.
    exists d. split; [apply elem_of_seq; lia|done].
Qed.

(** ** Hint databases and tactics of the development *)

Create HintDb cpp.
#[export] Hint Resolve wrap_range swrap_range : cpp.

(** Destructs the scrutinee of the [match]/[if] the goal or a hypothesis is stuck on,
    keeping the equation. *)
Ltac break_match :=
  match goal with
  | |- context [match ?x with _ => _ end] => destruct x eqn:?
  end.
Ltac break_match_hyp :=
  match goal with
  | H : context [match ?x with _ => _ end] |- _ => destruct x eqn:?
  end.

(** Turns boolean comparisons in the context into arithmetic facts. *)
Ltac zify_bool :=
  repeat match goal with
  | H : (_ <? _) = true |- _ => apply Z.ltb_lt in H
  | H : (_ <? _) = false |- _ => apply Z.ltb_ge in H
  | H : (_ <=? _) = true |- _ => apply Z.leb_le in H
  | H : (_ <=? _) = false |- _ => apply Z.leb_gt in H
  | H : (_ =? _) = true |- _ => apply Z.eqb_eq in H
  | H : (_ =? _) = false |- _ => apply Z.eqb_neq in H
  | H : _ && _ = true |- _ => apply andb_true_iff in H; destruct H
  | H : _ || _ = false |- _ => apply orb_false_iff in H; destruct H
  end.

(** Inverts a successful run of monadic code, one bind at a time. *)
Ltac inv_ok :=
  repeat match goal with
  | H : rbind _ _ = Ok _ |- _ =>
      let a := fresh "v" in let E := fresh "E" in
      apply rbind_Ok_inv in H; destruct H as (a & E & H)
  | H : of_option ?o = Ok _ |- _ =>
      destruct o eqn:?; simpl in H; [|discriminate]
  | H : Ok _ = Ok _ |- _ => injection H as H
  end.

(** ** Reflexive transitive closure of a step relation *)

Section Star.
Context {S : Type} (R : S -> S -> Prop).

Inductive star : S -> S -> Prop :=
| star_refl s : star s s
| star_step s1 s2 s3 : R s1 s2 -> star s2 s3 -> star s1 s3.

(** An invariant of every step is an invariant of every reachable state. *)
Lemma star_invariant (I : S -> Prop) :
  (forall s s', I s -> R s s' -> I s') -> forall s s', star s s' -> I s -> I s'.
Proof. intros HI s s' Hs. induction Hs; eauto. Qed.
End Star.
