(* ===== verification/Doubles.v ===== *)
(** * IEEE-754 doubles

    The C++ [double] of the traffic applications, as the standard library's
    executable specification of binary64 ([SpecFloat] with 53 bits of precision
    and maximal exponent 1024; a NaN carries no payload).  Besides the operations
    with the names the other files use, this file proves what their theorems need
    of round-to-nearest-even: an addition of non-negative doubles is monotone and
    never decreases, results are well formed, and a product is the rounding of the
    exact product. *)

From S2P Require Import Prelude.
From Stdlib Require Export SpecFloat.

Abbreviation float := spec_float.

(** ** The operations of the C++ code *)

Definition fadd : float -> float -> float := SFadd 53 1024.
Definition fsub : float -> float -> float := SFsub 53 1024.
Definition fmul : float -> float -> float := SFmul 53 1024.
Definition fdiv : float -> float -> float := SFdiv 53 1024.
Definition fopp : float -> float := SFopp.

(** [a < b], [a <= b], [a == b]; all false when an operand is a NaN. *)
Definition fltb (a b : float) : bool := SFltb a b.
Definition fleb (a b : float) : bool := SFleb a b.
Definition feqb (a b : float) : bool := SFeqb a b.

(** [std::min] and [std::max]: the first argument unless the second is
    strictly better. *)
Definition fmin (a b : float) : float := if fltb b a then b else a.
Definition fmax (a b : float) : float := if fltb a b then b else a.

(** Conversion of an integer, and truncation towards zero ([(int)x], undefined
    outside the range of [int] and for a NaN). *)
Definition of_int (n : Z) : float := binary_normalize 53 1024 n 0 false.

Definition trunc (x : float) : option Z :=
  match x with
  | S754_zero _ => Some 0
  | S754_finite s m e =>
      let a := if 0 <=? e then Zpos m * 2 ^ e else Zpos m / 2 ^ (- e) in
      Some (if s then - a else a)
  | _ => None
  end.

Definition to_int (x : float) : result Z :=
  match trunc x with
  | Some z => if (- 2 ^ 31 <=? z) && (z <? 2 ^ 31) then Ok z else UB
  | None => UB
  end.

Definition f0 : float := S754_zero false.
Definition finf : float := S754_infinity false.

(** Decimal literals of the sources, as the compiler rounds them: [p / q]
    correctly rounded. *)
Definition flit (p q : positive) : float :=
  let '(m, e, l) := SFdiv_core_binary 53 1024 (Zpos p) 0 (Zpos q) 0 in
  binary_round_aux 53 1024 false m e l.

Example flit_0_3 : flit 3 10 = S754_finite false 5404319552844595 (-54).
Proof. reflexivity. Qed.
Example flit_0_92 : flit 92 100 = S754_finite false 8286623314361713 (-53).
Proof. reflexivity. Qed.

(** ** Well-formed and non-negative doubles *)

Definition fvalid (x : float) : Prop := valid_binary 53 1024 x = true.

Definition fnonneg (x : float) : Prop :=
  fvalid x /\
  match x with
  | S754_zero _ | S754_infinity false | S754_finite false _ _ => True
  | _ => False
  end.

(** 2^1024 in units of 2^-2148. *)
Definition vinf : Z := 2 ^ 3172.
Lemma vinf_eq : vinf = 2 ^ 3172.
Proof. reflexivity. Qed.
Lemma vinf_pos : 0 < vinf.
Proof. reflexivity. Qed.
#[global] Opaque vinf.

(** The value of a non-negative double in units of 2^-2148 (the square of the
    smallest subnormal); infinity counts as 2^1024. *)
Definition fval (x : float) : Z :=
  match x with
  | S754_finite false m e => Zpos m * 2 ^ (e + 2148)
  | S754_infinity false => vinf
  | _ => 0
  end.

(** ** Rounding to nearest even, on integers *)

Section Rne.
(** [rne v n] is [v / 2^n] rounded to the nearest integer, ties to even. *)
Definition rne (v n : Z) : Z :=
  let q := v / 2 ^ n in
  let r := v mod 2 ^ n in
  match 2 * r ?= 2 ^ n with
  | Lt => q
  | Eq => if Z.even q then q else q + 1
  | Gt => q + 1
  end.

Lemma rne_bounds v n : v / 2 ^ n <= rne v n <= v / 2 ^ n + 1.
Proof. unfold rne. destruct (_ ?= _); [destruct (Z.even _)|..]; lia. Qed.

Lemma rne_mono v w n : 0 <= n -> v <= w -> rne v n <= rne w n.
Proof.
  intros Hn Hvw. assert (Hp : 0 < 2 ^ n) by (apply Z.pow_pos_nonneg; lia).
  pose proof (Z.div_le_mono v w _ Hp Hvw) as Hq.
  destruct (Z.eq_dec (v / 2 ^ n) (w / 2 ^ n)) as [E|E].
  - pose proof (Z.div_mod v (2 ^ n)) as Dv. pose proof (Z.div_mod w (2 ^ n)) as Dw.
    assert (v mod 2 ^ n <= w mod 2 ^ n) by (rewrite E in Dv; lia).
    unfold rne. rewrite E. clear Dv Dw.
    destruct (Z.compare_spec (2 * (v mod 2 ^ n)) (2 ^ n)),
             (Z.compare_spec (2 * (w mod 2 ^ n)) (2 ^ n));
      destruct (Z.even (w / 2 ^ n)); lia.
  - pose proof (rne_bounds v n). pose proof (rne_bounds w n). lia.
Qed.

Lemma rne_exact v n k : 0 <= n -> v = k * 2 ^ n -> rne v n = k.
Proof.
  intros Hn ->. unfold rne.
  rewrite Z.mod_mul, Z.div_mul by (apply Z.pow_nonzero; lia).
  assert (0 < 2 ^ n) by (apply Z.pow_pos_nonneg; lia).
  by rewrite Z.mul_0_r, (proj2 (Z.compare_lt_iff 0 _)) by lia.
Qed.

Lemma rne_scale v n k : 0 <= n -> 0 <= k -> rne (v * 2 ^ k) (n + k) = rne v n.
Proof.
  intros Hn Hk. unfold rne. rewrite Z.pow_add_r by lia.
  assert (0 < 2 ^ k) by (apply Z.pow_pos_nonneg; lia).
  assert (0 < 2 ^ n) by (apply Z.pow_pos_nonneg; lia).
  rewrite Z.div_mul_cancel_r, Z.mul_mod_distr_r by lia.
  replace (2 * (v mod 2 ^ n * 2 ^ k)) with (2 * (v mod 2 ^ n) * 2 ^ k) by lia.
  rewrite <- Zmult_compare_compat_r by lia. reflexivity.
Qed.
End Rne.

(** ** Rounding a value to 53 significant bits above the subnormal unit *)

Definition nbits (v : Z) : Z := Z.log2 v + 1.
Definition quantum (v : Z) : Z := Z.max (nbits v - 53) 1074.
Definition RN (v : Z) : Z := rne v (quantum v) * 2 ^ quantum v.
Definition cap (v : Z) : Z := Z.min v vinf.

Lemma quantum_pos v : 1074 <= quantum v.
Proof. unfold quantum. lia. Qed.

Lemma nbits_spec v : 0 < v -> 2 ^ (nbits v - 1) <= v < 2 ^ nbits v.
Proof.
  intros. unfold nbits. replace (Z.log2 v + 1 - 1) with (Z.log2 v) by lia.
  rewrite Z.add_1_r. by apply Z.log2_spec.
Qed.

Lemma nbits_mono v w : v <= w -> nbits v <= nbits w.
Proof. intros. unfold nbits. pose proof (Z.log2_le_mono v w). lia. Qed.

Lemma nbits_nonneg v : 1 <= nbits v.
Proof. unfold nbits. pose proof (Z.log2_nonneg v). lia. Qed.

Lemma RN_upper v : 0 <= v -> RN v <= 2 ^ Z.max (nbits v) (quantum v).
Proof.
  intros Hv. unfold RN. pose proof (quantum_pos v). pose proof (nbits_nonneg v).
  set (s := quantum v) in *. set (t := Z.max (nbits v) s).
  assert (Ht : 2 ^ t = 2 ^ (t - s) * 2 ^ s)
    by (rewrite <- Z.pow_add_r by lia; f_equal; lia).
  rewrite Ht. apply Z.mul_le_mono_nonneg_r; [lia|].
  assert (v < 2 ^ t).
  { destruct (Z.eq_dec v 0) as [->|].
    - apply Z.pow_pos_nonneg; lia.
    - eapply Z.lt_le_trans; [apply nbits_spec; lia|]. apply Z.pow_le_mono_r; lia. }
  assert (v / 2 ^ s < 2 ^ (t - s)).
  { apply Z.div_lt_upper_bound; [apply Z.pow_pos_nonneg; lia|]. lia. }
  pose proof (rne_bounds v s). lia.
Qed.

Lemma RN_lower v : 53 + 1074 < nbits v -> 2 ^ (nbits v - 1) <= RN v.
Proof.
  intros Hb. assert (0 < v).
  { unfold nbits in Hb. destruct (Z_lt_le_dec 0 v); [done|].
    rewrite Z.log2_nonpos in Hb by lia. lia. }
  unfold RN. assert (Hs : quantum v = nbits v - 53) by (unfold quantum; lia).
  rewrite Hs. pose proof (rne_bounds v (nbits v - 53)).
  assert (2 ^ 52 <= v / 2 ^ (nbits v - 53)).
  { apply Z.div_le_lower_bound; [apply Z.pow_pos_nonneg; lia|].
    rewrite <- Z.pow_add_r by lia. replace (nbits v - 53 + 52) with (nbits v - 1) by lia.
    by apply nbits_spec. }
  replace (nbits v - 1) with (52 + (nbits v - 53)) by lia.
  rewrite Z.pow_add_r by lia. apply Z.mul_le_mono_nonneg_r; lia.
Qed.

(** Rounding preserves the order. *)
Lemma RN_mono v w : 0 <= v -> v <= w -> RN v <= RN w.
Proof.
  intros Hv Hvw. pose proof (nbits_mono v w Hvw).
  destruct (Z.eq_dec (quantum v) (quantum w)) as [E|E].
  - unfold RN. rewrite E. apply Z.mul_le_mono_nonneg_r; [lia|].
    apply rne_mono; [pose proof (quantum_pos w); lia|done].
  - assert (nbits v < nbits w /\ 53 + 1074 < nbits w /\ quantum v <= nbits w - 1)
      as (? & ? & ?) by (unfold quantum in *; lia).
    etransitivity; [apply RN_upper; lia|].
    etransitivity; [|apply RN_lower; lia]. apply Z.pow_le_mono_r; lia.
Qed.

(** A value that needs no rounding is unchanged. *)
Lemma RN_exact v k s : quantum v <= s -> v = k * 2 ^ s -> RN v = v.
Proof.
  intros Hs ->. unfold RN. pose proof (quantum_pos (k * 2 ^ s)).
  set (q := quantum (k * 2 ^ s)) in *.
  assert (E : k * 2 ^ s = k * 2 ^ (s - q) * 2 ^ q).
  { rewrite <- Z.mul_assoc, <- Z.pow_add_r by lia. do 2 f_equal. lia. }
  rewrite E at 1. erewrite rne_exact; [|lia|reflexivity]. done.
Qed.

Lemma nbits_mul_pow m k : 0 < m -> 0 <= k -> nbits (m * 2 ^ k) = nbits m + k.
Proof. intros. unfold nbits. rewrite Z.log2_mul_pow2 by lia. lia. Qed.

Lemma RN_small_mantissa m s : 0 <= m < 2 ^ 53 -> 1074 <= s -> RN (m * 2 ^ s) = m * 2 ^ s.
Proof.
  intros Hm Hs. eapply RN_exact; [|reflexivity].
  destruct (Z.eq_dec m 0) as [->|]; [rewrite Z.mul_0_l; unfold quantum, nbits; simpl; lia|].
  unfold quantum. rewrite nbits_mul_pow by lia.
  assert (Z.log2 m < 53) by (apply Z.log2_lt_pow2; lia). unfold nbits. lia.
Qed.

Lemma RN_pow2 k : 1074 <= k -> RN (2 ^ k) = 2 ^ k.
Proof. intros. rewrite <- (Z.mul_1_l (2 ^ k)). apply RN_small_mantissa; lia. Qed.

Lemma RN_nonneg v : 0 <= v -> 0 <= RN v.
Proof. intros. etransitivity; [|apply (RN_mono 0); lia]. by compute. Qed.

(** ** The rounding of [SpecFloat] is [RN] *)

Section Shift.
Lemma shr_1_m mrs : 0 <= shr_m mrs -> shr_m (shr_1 mrs) = shr_m mrs / 2.
Proof.
  destruct mrs as [[|[p|p|]|p] r s]; simpl; intros; try lia; try reflexivity.
  - rewrite Pos2Z.inj_xI, Z.mul_comm, Z.div_add_l by lia. by rewrite Z.add_0_r.
  - by rewrite Pos2Z.inj_xO, Z.mul_comm, Z.div_mul by lia.
Qed.

(** One step of the shift, on a record that holds [v / 2^n] with its round and
    sticky bits. *)
Definition shr_repr (v n : Z) (mrs : shr_record) : Prop :=
  shr_m mrs = v / 2 ^ n /\ loc_of_shr_record mrs =
    if v mod 2 ^ n =? 0 then loc_Exact
    else loc_Inexact (2 * (v mod 2 ^ n) ?= 2 ^ n).

Lemma shr_repr_0 v : shr_repr v 0 (Build_shr_record v false false).
Proof. split; simpl; by rewrite ?Z.div_1_r, ?Z.mod_1_r. Qed.

Lemma shr_repr_step v n mrs :
  0 <= v -> 0 <= n -> shr_repr v n mrs -> shr_repr v (n + 1) (shr_1 mrs).
Proof.
  intros Hv Hn [Hm Hl]. assert (Hp : 0 < 2 ^ n) by (apply Z.pow_pos_nonneg; lia).
  pose proof (Z.div_mod v (2 ^ n) ltac:(lia)) as Hd.
  pose proof (Z.mod_pos_bound v (2 ^ n) Hp) as Hb.
  assert (0 <= v / 2 ^ n) by (apply Z.div_pos; lia).
  set (q := v / 2 ^ n) in *. set (r := v mod 2 ^ n) in *.
  assert (E : v mod 2 ^ (n + 1) = (q mod 2) * 2 ^ n + r /\ v / 2 ^ (n + 1) = q / 2).
  { rewrite Z.pow_add_r, Z.pow_1_r by lia.
    pose proof (Z.div_mod q 2 ltac:(lia)). pose proof (Z.mod_pos_bound q 2 ltac:(lia)).
    split.
    - symmetry. apply (Z.mod_unique_pos _ _ (q / 2)); nia.
    - symmetry. apply (Z.div_unique_pos _ _ _ ((q mod 2) * 2 ^ n + r)); nia. }
  destruct E as [E1 E2]. unfold shr_repr. rewrite E1, E2. split.
  { rewrite shr_1_m by lia. by rewrite Hm. }
  rewrite Z.pow_add_r, Z.pow_1_r by lia.
  destruct mrs as [m b s]. simpl in Hm. subst m.
  assert (Hq : (q mod 2 = 0 /\ loc_of_shr_record (shr_1 (Build_shr_record q b s))
                  = loc_of_shr_record (Build_shr_record 0 false (b || s))) \/
               (q mod 2 = 1 /\ loc_of_shr_record (shr_1 (Build_shr_record q b s))
                  = loc_of_shr_record (Build_shr_record 0 true (b || s)))).
  { clearbody q. destruct q as [|[p|p|]|p]; simpl; try lia; auto.
    - right. split; [|by destruct b, s].
      rewrite Pos2Z.inj_xI, Z.mul_comm, Z.add_comm, Z.mod_add by lia. done.
    - left. split; [|by destruct b, s].
      by rewrite Pos2Z.inj_xO, Z.mul_comm, Z.mod_mul by lia. }
  assert (Hbs : (b || s = false /\ r = 0) \/ (b || s = true /\ 0 < r)).
  { destruct (Z.eqb_spec r 0), b, s; simpl in Hl |- *; try discriminate; auto; lia. }
  destruct Hq as [[-> ->]|[-> ->]], Hbs as [[-> ->]|[-> ?]];
    rewrite ?Z.mul_0_l, ?Z.mul_1_l, ?Z.add_0_r, ?Z.add_0_l; cbn [loc_of_shr_record];
    [done|..]; (rewrite (proj2 (Z.eqb_neq _ 0)) by lia); f_equal; symmetry.
  - apply Z.compare_lt_iff. lia.
  - apply Z.compare_eq_iff. lia.
  - apply Z.compare_gt_iff. lia.
Qed.

Lemma iter_pos_iter {A} (f : A -> A) n x : iter_pos f n x = Pos.iter f x n.
Proof.
  revert x. induction n; intros x; simpl; rewrite ?IHn; try done.
  - by rewrite <- !Pos.iter_swap.
Qed.

Lemma shr_iter_repr v n :
  0 <= v -> shr_repr v (Zpos n) (iter_pos shr_1 n (Build_shr_record v false false)).
Proof.
  intros Hv. rewrite iter_pos_iter. induction n using Pos.peano_ind.
  - apply (shr_repr_step v 0); [done..|]. apply shr_repr_0.
  - rewrite Pos.iter_succ, Pos2Z.inj_succ. apply shr_repr_step; [lia..|done].
Qed.

Lemma shr_iter_m n mrs :
  0 <= shr_m mrs -> shr_m (iter_pos shr_1 n mrs) = shr_m mrs / 2 ^ Zpos n.
Proof.
  intros Hm. rewrite iter_pos_iter. induction n using Pos.peano_ind.
  - by apply shr_1_m.
  - rewrite Pos.iter_succ, Pos2Z.inj_succ, shr_1_m, IHn.
    + rewrite Z.pow_succ_r, Z.mul_comm, Z.div_div; try lia.
    + rewrite IHn. apply Z.div_pos; lia.
Qed.

Lemma round_repr v n mrs :
  0 <= n -> shr_repr v n mrs ->
  round_nearest_even (shr_m mrs) (loc_of_shr_record mrs) = rne v n.
Proof.
  intros Hn [-> ->]. unfold rne.
  assert (0 < 2 ^ n) by (apply Z.pow_pos_nonneg; lia).
  destruct (Z.eqb_spec (v mod 2 ^ n) 0) as [->|?]; cbn [round_nearest_even].
  - rewrite Z.mul_0_r, (proj2 (Z.compare_lt_iff 0 _)) by lia. done.
  - destruct (_ ?= _); done.
Qed.
End Shift.

(** *** Digits and canonical exponents *)

Abbreviation fexp64 := (fexp 53 1024).

Lemma digits2_nbits p : Zpos (digits2_pos p) = nbits (Zpos p).
Proof.
  unfold nbits. induction p; cbn [digits2_pos]; [..|done].
  - rewrite Pos2Z.inj_succ, IHp, Pos2Z.inj_xI, Z.log2_succ_double by lia. lia.
  - rewrite Pos2Z.inj_succ, IHp, Pos2Z.inj_xO, Z.log2_double by lia. lia.
Qed.

Lemma fexp64_eq e : fexp64 e = Z.max (e - 53) (-1074).
Proof. reflexivity. Qed.

Lemma bounded_iff m e :
  bounded 53 1024 m e = true <->
  Z.max (nbits (Zpos m) + e - 53) (-1074) = e /\ e <= 971.
Proof.
  unfold bounded, canonical_mantissa. rewrite andb_true_iff, Z.eqb_eq, Z.leb_le,
    digits2_nbits, fexp64_eq. simpl. lia.
Qed.

Lemma nbits_unique v k : 0 <= k -> 2 ^ k <= v < 2 ^ (k + 1) -> nbits v = k + 1.
Proof. intros. unfold nbits. rewrite (Z.log2_unique v k); lia. Qed.

Lemma nbits_le v k : 1 <= k -> v < 2 ^ k -> nbits v <= k.
Proof.
  intros. unfold nbits. destruct (Z_lt_le_dec 0 v).
  - assert (Z.log2 v < k) by (apply Z.log2_lt_pow2; lia). lia.
  - rewrite Z.log2_nonpos by lia. lia.
Qed.

Lemma nbits_ge v k : 2 ^ k <= v -> 0 <= k -> k + 1 <= nbits v.
Proof. intros. unfold nbits. assert (k <= Z.log2 v) by (apply Z.log2_le_pow2; lia). lia. Qed.

(** The second normalisation of [binary_round_aux], on a mantissa of at most
    53 bits plus a carry. *)
Definition finish (sx : bool) (m2 f : Z) : float :=
  let '(mrs, e) := shr_fexp 53 1024 m2 f loc_Exact in
  match shr_m mrs with
  | Z0 => S754_zero sx
  | Zpos m => if e <=? 971 then S754_finite sx m e else S754_infinity sx
  | _ => S754_nan
  end.

Lemma binary_round_aux_finish sx m e l :
  binary_round_aux 53 1024 sx m e l =
  let '(mrs, f) := shr_fexp 53 1024 m e l in
  finish sx (round_nearest_even (shr_m mrs) (loc_of_shr_record mrs)) f.
Proof. reflexivity. Qed.

Definition fsign_ok (sx : bool) (x : float) : Prop :=
  match x with
  | S754_zero s | S754_infinity s | S754_finite s _ _ => s = sx
  | S754_nan => False
  end.

Definition fabs_val (x : float) : Z := fval (SFabs x).

Lemma finish_small sx m f :
  0 <= m < 2 ^ 53 -> -1074 <= f -> (f = -1074 \/ 2 ^ 52 <= m) ->
  fvalid (finish sx m f) /\ fsign_ok sx (finish sx m f) /\
  fabs_val (finish sx m f) = cap (m * 2 ^ (f + 2148)).
Proof.
  intros Hm Hf Hor. unfold finish, shr_fexp. rewrite fexp64_eq.
  assert (Hd : Zdigits2 m <= 53).
  { destruct m; simpl; try lia. rewrite digits2_nbits. apply nbits_le; lia. }
  assert (Hs : shr (shr_record_of_loc m loc_Exact) f
                 (Z.max (Zdigits2 m + f - 53) (-1074) - f) = (Build_shr_record m false false, f)).
  { unfold shr. destruct (Z.max _ _ - f) eqn:E; try done; lia. }
  rewrite Hs. cbn [shr_m]. destruct m as [|m|m]; [by repeat split| |lia].
  assert (Hn : nbits (Zpos m) <= 53) by (apply nbits_le; lia).
  case (Z.leb_spec f 971); intros Hle.
  - repeat split.
    + apply bounded_iff. split; [|done]. destruct Hor as [->|?]; [lia|].
      assert (53 <= nbits (Zpos m)) by (apply (nbits_ge _ 52); lia). lia.
    + unfold fabs_val, cap. simpl. rewrite Z.min_l; [done|]. rewrite vinf_eq.
      transitivity (2 ^ 53 * 2 ^ (f + 2148)); [apply Z.mul_le_mono_nonneg_r; lia|].
      rewrite <- Z.pow_add_r by lia. apply Z.pow_le_mono_r; lia.
  - repeat split. unfold fabs_val, cap. cbn [SFabs fval]. rewrite Z.min_r; [done|]. rewrite vinf_eq.
    transitivity (2 ^ 52 * 2 ^ (f + 2148)); [|apply Z.mul_le_mono_nonneg_r; lia].
    rewrite <- Z.pow_add_r by lia. apply Z.pow_le_mono_r; lia.
Qed.

Lemma finish_carry sx f :
  -1074 <= f ->
  fvalid (finish sx (2 ^ 53) f) /\ fsign_ok sx (finish sx (2 ^ 53) f) /\
  fabs_val (finish sx (2 ^ 53) f) = cap (2 ^ 53 * 2 ^ (f + 2148)).
Proof.
  intros Hf.
  assert (E : finish sx (2 ^ 53) f = finish sx (2 ^ 52) (f + 1)).
  { unfold finish, shr_fexp. rewrite !fexp64_eq.
    replace (Z.max (Zdigits2 (2 ^ 53) + f - 53) (-1074) - f) with 1 by (simpl; lia).
    replace (Z.max (Zdigits2 (2 ^ 52) + (f + 1) - 53) (-1074) - (f + 1)) with 0 by (simpl; lia).
    reflexivity. }
  rewrite E. replace (2 ^ 53 * 2 ^ (f + 2148)) with (2 ^ 52 * 2 ^ (f + 1 + 2148)).
  - apply finish_small; lia.
  - rewrite <- !Z.pow_add_r by lia. f_equal. lia.
Qed.

Lemma finish_spec sx m f :
  0 <= m <= 2 ^ 53 -> -1074 <= f -> (f = -1074 \/ 2 ^ 52 <= m) ->
  fvalid (finish sx m f) /\ fsign_ok sx (finish sx m f) /\
  fabs_val (finish sx m f) = cap (m * 2 ^ (f + 2148)).
Proof.
  intros. destruct (Z.eq_dec m (2 ^ 53)) as [->|].
  - by apply finish_carry.
  - apply finish_small; lia.
Qed.

Lemma rne_fits m n :
  0 <= n -> 0 <= m -> nbits m <= n + 53 -> 0 <= rne m n <= 2 ^ 53.
Proof.
  intros Hn Hm Hb. pose proof (rne_bounds m n).
  assert (0 <= m / 2 ^ n) by (apply Z.div_pos; [|apply Z.pow_pos_nonneg]; lia).
  assert (m / 2 ^ n < 2 ^ 53); [|lia].
  apply Z.div_lt_upper_bound; [apply Z.pow_pos_nonneg; lia|].
  rewrite <- Z.pow_add_r by lia.
  destruct (Z.eq_dec m 0) as [->|]; [apply Z.pow_pos_nonneg; lia|].
  eapply Z.lt_le_trans; [apply nbits_spec; lia|]. apply Z.pow_le_mono_r; lia.
Qed.

Lemma div_full m n :
  0 <= n -> 0 < m -> nbits m = n + 53 -> 2 ^ 52 <= m / 2 ^ n.
Proof.
  intros. apply Z.div_le_lower_bound; [apply Z.pow_pos_nonneg; lia|].
  rewrite <- Z.pow_add_r by lia. replace (n + 52) with (nbits m - 1) by lia.
  by apply nbits_spec.
Qed.

Lemma Zdigits2_nbits m : 0 < m -> Zdigits2 m = nbits m.
Proof. destruct m; intros; try lia. apply digits2_nbits. Qed.

(** Whatever was lost before, the rounding gives a well-formed double of the
    requested sign. *)
Lemma round_aux_wf sx m e l :
  0 <= m -> e <= Z.max (Zdigits2 m + e - 53) (-1074) ->
  fvalid (binary_round_aux 53 1024 sx m e l) /\
  fsign_ok sx (binary_round_aux 53 1024 sx m e l).
Proof.
  intros Hm0 He. rewrite binary_round_aux_finish. unfold shr_fexp. rewrite fexp64_eq.
  set (f := Z.max (Zdigits2 m + e - 53) (-1074)) in *.
  set (mrs := shr_record_of_loc m l).
  assert (Hm : shr_m mrs = m) by (by destruct l as [|[]]).
  assert (Hsh : exists mrs' , shr mrs e (f - e) = (mrs', f) /\
                  shr_m mrs' = m / 2 ^ (f - e)).
  { unfold shr. destruct (f - e) as [|k|k] eqn:E; [..|lia].
    - exists mrs. rewrite Z.div_1_r, Hm. split; [f_equal|]; lia.
    - eexists. split; [f_equal; lia|]. rewrite shr_iter_m, Hm by lia. done. }
  destruct Hsh as (mrs' & -> & Hm'). cbn iota beta.
  set (m2 := round_nearest_even (shr_m mrs') (loc_of_shr_record mrs')).
  assert (Hm2 : shr_m mrs' <= m2 <= shr_m mrs' + 1).
  { unfold m2. destruct (loc_of_shr_record mrs') as [|[]]; simpl;
      try destruct (Z.even _); lia. }
  destruct (Z.eq_dec m 0) as [->|Hnz].
  { simpl in f. rewrite Z.div_0_l in Hm' by (apply Z.pow_nonzero; lia).
    destruct (finish_spec sx m2 f) as (? & ? & ?); [lia..|done]. }
  assert (Hz : Zdigits2 m = nbits m) by (apply Zdigits2_nbits; lia).
  assert (nbits m <= f - e + 53) by lia.
  assert (Hq : 0 <= m / 2 ^ (f - e) < 2 ^ 53).
  { split; [apply Z.div_pos; [|apply Z.pow_pos_nonneg]; lia|].
    apply Z.div_lt_upper_bound; [apply Z.pow_pos_nonneg; lia|].
    rewrite <- Z.pow_add_r by lia.
    eapply Z.lt_le_trans; [apply nbits_spec; lia|]. apply Z.pow_le_mono_r; lia. }
  destruct (finish_spec sx m2 f) as (? & ? & ?); [lia..| |done].
  destruct (Z.eq_dec f (-1074)) as [|Hne]; [by left|right].
  pose proof (div_full m (f - e)). lia.
Qed.

(** Rounding an exact [m * 2^e] is [RN], in units of 2^-2148. *)
Lemma round_aux_exact sx m e :
  -2148 <= e <= Z.max (nbits (Zpos m) + e - 53) (-1074) ->
  fabs_val (binary_round_aux 53 1024 sx (Zpos m) e loc_Exact) =
  cap (RN (Zpos m * 2 ^ (e + 2148))).
Proof.
  intros He. rewrite binary_round_aux_finish. unfold shr_fexp.
  rewrite fexp64_eq. cbn [Zdigits2 shr_record_of_loc]. rewrite digits2_nbits.
  set (f := Z.max (nbits (Zpos m) + e - 53) (-1074)) in *.
  assert (Hsh : exists mrs', shr (Build_shr_record (Zpos m) false false) e (f - e) = (mrs', f) /\
                  round_nearest_even (shr_m mrs') (loc_of_shr_record mrs') = rne (Zpos m) (f - e)).
  { unfold shr. destruct (f - e) as [|k|k] eqn:E; [..|lia].
    - eexists. split; [f_equal; lia|]. apply round_repr; [done|]. apply shr_repr_0.
    - eexists. split; [f_equal; lia|]. apply round_repr; [lia|]. by apply shr_iter_repr. }
  destruct Hsh as (mrs' & -> & ->). cbn iota beta.
  pose proof (nbits_nonneg (Zpos m)).
  destruct (finish_spec sx (rne (Zpos m) (f - e)) f) as (_ & _ & ->).
  - apply rne_fits; lia.
  - lia.
  - destruct (Z.eq_dec f (-1074)) as [|Hne]; [by left|right].
    pose proof (rne_bounds (Zpos m) (f - e)). pose proof (div_full (Zpos m) (f - e)). lia.
  - unfold RN, quantum. rewrite nbits_mul_pow by lia.
    replace (Z.max (nbits (Zpos m) + (e + 2148) - 53) 1074) with (f - e + (e + 2148)) by lia.
    rewrite rne_scale by lia. do 3 f_equal. lia.
Qed.

(** *** [binary_round], for any mantissa and exponent *)

Lemma shl_align_spec m e e' :
  let '(m', e'') := shl_align m e e' in
  e'' = Z.min e e' /\ Zpos m' = Zpos m * 2 ^ (e - e'').
Proof.
  unfold shl_align. destruct (e' - e) as [|k|k] eqn:E.
  - replace (e - e) with 0 by lia. lia.
  - replace (e - e) with 0 by lia. lia.
  - split; [lia|]. replace (e - e') with (Zpos k) by lia.
    clear E. induction k using Pos.peano_ind; [simpl; lia|].
    rewrite Pos.iter_succ, Pos2Z.inj_xO, IHk, Pos2Z.inj_succ, Z.pow_succ_r; lia.
Qed.

Lemma binary_round_spec sx m e :
  -2148 <= e ->
  let x := binary_round 53 1024 sx m e in
  fvalid x /\ fsign_ok sx x /\ fabs_val x = cap (RN (Zpos m * 2 ^ (e + 2148))).
Proof.
  intros He x. unfold x, binary_round. rewrite fexp64_eq, digits2_nbits.
  pose proof (shl_align_spec m e (Z.max (nbits (Zpos m) + e - 53) (-1074))) as Hs.
  destruct (shl_align _ _ _) as [m' e'']. destruct Hs as [-> Hm'].
  set (g := Z.max (nbits (Zpos m) + e - 53) (-1074)) in *.
  assert (Hn : nbits (Zpos m') = nbits (Zpos m) + (e - Z.min e g)).
  { rewrite Hm'. apply nbits_mul_pow; lia. }
  assert (Z.min e g <= Z.max (nbits (Zpos m') + Z.min e g - 53) (-1074)) by lia.
  destruct (round_aux_wf sx (Zpos m') (Z.min e g) loc_Exact) as [? ?];
    [lia|cbn [Zdigits2]; rewrite digits2_nbits; lia|].
  split; [done|]. split; [done|]. rewrite round_aux_exact by lia.
  do 2 f_equal. rewrite Hm', <- Z.mul_assoc, <- Z.pow_add_r by lia. f_equal. f_equal. lia.
Qed.

(** ** Well-formedness of every operation's result *)

Lemma fvalid_exp s m e : fvalid (S754_finite s m e) -> -1074 <= e <= 971.
Proof. intros [? ?]%bounded_iff. lia. Qed.

Lemma fvalid_mantissa s m e : fvalid (S754_finite s m e) -> Zpos m < 2 ^ 53.
Proof.
  intros [? ?]%bounded_iff. pose proof (nbits_spec (Zpos m) ltac:(lia)).
  eapply Z.lt_le_trans; [apply nbits_spec; lia|]. apply Z.pow_le_mono_r; lia.
Qed.

Lemma binary_normalize_valid m e :
  -2148 <= e -> fvalid (binary_normalize 53 1024 m e false).
Proof. intros. destruct m; simpl; [done|..]; by apply binary_round_spec. Qed.

Lemma of_int_valid n : fvalid (of_int n).
Proof. by apply binary_normalize_valid. Qed.

Lemma fadd_valid x y : fvalid x -> fvalid y -> fvalid (fadd x y).
Proof.
  destruct x as [[]|[]| |s m e], y as [[]|[]| |s' m' e']; intros Hx Hy; try done.
  apply binary_normalize_valid.
  pose proof (fvalid_exp _ _ _ Hx). pose proof (fvalid_exp _ _ _ Hy). lia.
Qed.

Lemma fsub_valid x y : fvalid x -> fvalid y -> fvalid (fsub x y).
Proof.
  destruct x as [[]|[]| |s m e], y as [[]|[]| |s' m' e']; intros Hx Hy; try done.
  apply binary_normalize_valid.
  pose proof (fvalid_exp _ _ _ Hx). pose proof (fvalid_exp _ _ _ Hy). lia.
Qed.

Lemma nbits_mul_ge a b : 0 < a -> 0 < b -> nbits a + nbits b - 1 <= nbits (a * b).
Proof. intros. unfold nbits. pose proof (Z.log2_mul_below a b). lia. Qed.

Lemma mul_exp_ok s m e s' m' e' :
  fvalid (S754_finite s m e) -> fvalid (S754_finite s' m' e') ->
  -2148 <= e + e' <= Z.max (nbits (Zpos (m * m')) + (e + e') - 53) (-1074).
Proof.
  intros [? ?]%bounded_iff [? ?]%bounded_iff.
  pose proof (nbits_mul_ge (Zpos m) (Zpos m')). pose proof (nbits_nonneg (Zpos m)).
  pose proof (nbits_nonneg (Zpos m')). rewrite Pos2Z.inj_mul. lia.
Qed.

Lemma fmul_valid x y : fvalid x -> fvalid y -> fvalid (fmul x y).
Proof.
  destruct x as [[]|[]| |s m e], y as [[]|[]| |s' m' e']; intros Hx Hy; try done;
  (apply round_aux_wf; [lia|]; cbn [Zdigits2]; rewrite digits2_nbits;
   eapply mul_exp_ok; eauto).
Qed.

Lemma div_core_ok m e m' e' :
  let '(q, ez, _) := SFdiv_core_binary 53 1024 (Zpos m) e (Zpos m') e' in
  0 <= q /\ ez <= Z.max (Zdigits2 q + ez - 53) (-1074).
Proof.
  unfold SFdiv_core_binary. rewrite fexp64_eq. cbn [Zdigits2]. rewrite !digits2_nbits.
  set (d := nbits (Zpos m)). set (d' := nbits (Zpos m')).
  set (ez := Z.min _ (e - e')). set (s := e - e' - ez). cbv zeta.
  assert (Hs : 0 <= s) by lia.
  assert (Hm' : match s with 0 => Zpos m | Zpos _ => Z.shiftl (Zpos m) s | Zneg _ => 0 end
                = Zpos m * 2 ^ s).
  { destruct s eqn:E; [lia| |lia]. by rewrite Z.shiftl_mul_pow2 by lia. }
  rewrite Hm'. pose proof (nbits_nonneg (Zpos m')). pose proof (nbits_nonneg (Zpos m)).
  pose proof (nbits_spec (Zpos m) ltac:(lia)) as Hb.
  pose proof (nbits_spec (Zpos m') ltac:(lia)) as Hb'.
  fold d in Hb. fold d' in Hb'.
  assert (Hnn : 0 <= Zpos m * 2 ^ s / Zpos m') by (apply Z.div_pos; lia).
  assert (Hq : 0 <= d - 1 + s - d' -> 2 ^ (d - 1 + s - d') <= Zpos m * 2 ^ s / Zpos m').
  { intros Hx. apply Z.div_le_lower_bound; [lia|].
    transitivity (2 ^ d' * 2 ^ (d - 1 + s - d')); [apply Z.mul_le_mono_nonneg_r; lia|].
    rewrite <- Z.pow_add_r by lia. replace (d' + (d - 1 + s - d')) with (d - 1 + s) by lia.
    rewrite Z.pow_add_r by lia. apply Z.mul_le_mono_nonneg_r; lia. }
  destruct (Z.div_eucl (Zpos m * 2 ^ s) (Zpos m')) as [q r] eqn:E.
  assert (Hqe : Zpos m * 2 ^ s / Zpos m' = q) by (unfold Z.div; by rewrite E).
  rewrite Hqe in *. split; [done|].
  destruct (Z_le_dec 0 (d - 1 + s - d')).
  - assert (0 < 2 ^ (d - 1 + s - d')) by (apply Z.pow_pos_nonneg; lia).
    specialize (Hq ltac:(done)). rewrite Zdigits2_nbits by lia. pose proof (nbits_ge q (d - 1 + s - d')). lia.
  - lia.
Qed.

Lemma fdiv_valid x y : fvalid x -> fvalid y -> fvalid (fdiv x y).
Proof.
  destruct x as [[]|[]| |s m e], y as [[]|[]| |s' m' e']; intros Hx Hy; try done;
  (unfold fdiv, SFdiv; pose proof (div_core_ok m e m' e') as Hd;
   destruct (SFdiv_core_binary _ _ _ _ _ _) as [[q ez] l];
   apply round_aux_wf; apply Hd).
Qed.

#[export] Hint Resolve of_int_valid fadd_valid fsub_valid fmul_valid fdiv_valid : cpp.

(** ** Non-negative doubles *)

Lemma fnonneg_valid x : fnonneg x -> fvalid x.
Proof. by intros [? _]. Qed.

Lemma fval_nonneg x : 0 <= fval x.
Proof.
  pose proof vinf_pos.
  destruct x as [|[]| |[] m e]; cbn [fval]; try lia.
Qed.

Lemma RN_fval x : fvalid x -> RN (fval x) = fval x.
Proof.
  intros Hx.
  destruct x as [|[]| |[] m e]; cbn [fval]; [done|done| |done|done|].
  { rewrite vinf_eq. by apply RN_pow2. }
  pose proof (fvalid_exp _ _ _ Hx). pose proof (fvalid_mantissa _ _ _ Hx).
  apply RN_small_mantissa; lia.
Qed.

Lemma finite_lt_inf s m e : fvalid (S754_finite s m e) -> Zpos m * 2 ^ (e + 2148) < vinf.
Proof.
  intros Hx. rewrite vinf_eq. pose proof (fvalid_exp _ _ _ Hx). pose proof (fvalid_mantissa _ _ _ Hx).
  eapply Z.lt_le_trans; [apply Z.mul_lt_mono_pos_r; [apply Z.pow_pos_nonneg|]; eauto; lia|].
  rewrite <- Z.pow_add_r by lia. apply Z.pow_le_mono_r; lia.
Qed.

Lemma fval_le_inf x : fvalid x -> fval x <= vinf.
Proof.
  intros Hx. destruct x as [|[]| |[] m e]; cbn [fval]; pose proof vinf_pos; try lia.
  pose proof (finite_lt_inf _ _ _ Hx). lia.
Qed.

Lemma cap_fval x : fvalid x -> cap (fval x) = fval x.
Proof. intros. apply Z.min_l. by apply fval_le_inf. Qed.

Lemma cap_mono v w : v <= w -> cap v <= cap w.
Proof. unfold cap. lia. Qed.

(** The order of the doubles is the order of their values. *)
Lemma fcompare_val x y :
  fnonneg x -> fnonneg y -> SFcompare x y = Some (fval x ?= fval y).
Proof.
  intros [Hx Hx'] [Hy Hy'].
  destruct x as [s|[]| |[] m e], y as [s'|[]| |[] m' e']; try done; cbn [SFcompare fval];
    f_equal; symmetry.
  - apply Z.compare_lt_iff. pose proof (fvalid_exp _ _ _ Hy).
    apply Z.mul_pos_pos; [|apply Z.pow_pos_nonneg]; lia.
  - apply Z.compare_gt_iff. by apply (finite_lt_inf _ _ _ Hy).
  - apply Z.compare_gt_iff. pose proof (fvalid_exp _ _ _ Hx).
    apply Z.mul_pos_pos; [|apply Z.pow_pos_nonneg]; lia.
  - apply Z.compare_lt_iff. by apply (finite_lt_inf _ _ _ Hx).
  - pose proof (fvalid_mantissa _ _ _ Hx). pose proof (fvalid_mantissa _ _ _ Hy).
    apply bounded_iff in Hx as [Hx ?]. apply bounded_iff in Hy as [Hy ?].
    assert (Hstrict : forall m e m' e', -1074 <= e -> e < e' -> Zpos m < 2 ^ 53 ->
      Z.max (nbits (Zpos m') + e' - 53) (-1074) = e' ->
      Zpos m * 2 ^ (e + 2148) < Zpos m' * 2 ^ (e' + 2148)).
    { clear. intros m e m' e' He Hlt Hm Hm'.
      assert (2 ^ 52 <= Zpos m').
      { pose proof (nbits_spec (Zpos m') ltac:(lia)) as [Hb _].
        replace (nbits (Zpos m') - 1) with 52 in Hb by lia. done. }
      assert (Hp : 2 * 2 ^ (e + 2148) <= 2 ^ (e' + 2148)).
      { rewrite <- Z.pow_succ_r by lia. apply Z.pow_le_mono_r; lia. }
      assert (0 < 2 ^ (e + 2148)) by (apply Z.pow_pos_nonneg; lia). nia. }
    destruct (Z.compare_spec e e') as [->|Hlt|Hgt].
    + fold (Pos.compare m m'). rewrite <- Zmult_compare_compat_r; [done|].
      apply Z.lt_gt, Z.pow_pos_nonneg; lia.
    + apply Z.compare_lt_iff. apply Hstrict; try done; lia.
    + apply Z.compare_gt_iff. apply Hstrict; try done; lia.
Qed.

Lemma fltb_val x y : fnonneg x -> fnonneg y -> fltb x y = (fval x <? fval y).
Proof. intros. unfold fltb, SFltb, Z.ltb. by rewrite fcompare_val. Qed.

Lemma feqb_val x y : fnonneg x -> fnonneg y -> feqb x y = (fval x =? fval y).
Proof.
  intros. unfold feqb, SFeqb. rewrite fcompare_val by done.
  destruct (Z.compare_spec (fval x) (fval y)); symmetry;
    [apply Z.eqb_eq|apply Z.eqb_neq..]; lia.
Qed.

Lemma fleb_val x y : fnonneg x -> fnonneg y -> fleb x y = (fval x <=? fval y).
Proof. intros. unfold fleb, SFleb, Z.leb. rewrite fcompare_val by done. by destruct (_ ?= _). Qed.

Lemma RN_inf v : vinf <= v -> vinf <= RN v.
Proof.
  intros. pose proof vinf_pos.
  transitivity (RN vinf); [by rewrite vinf_eq, RN_pow2 by lia|apply RN_mono; lia].
Qed.

Lemma cap_RN_inf v : vinf <= v -> cap (RN v) = vinf.
Proof. intros. apply Z.min_r. by apply RN_inf. Qed.

Lemma fsign_false x : fvalid x -> fsign_ok false x -> fnonneg x /\ fabs_val x = fval x.
Proof. destruct x as [[]|[]| |[] m e]; simpl; intros; done. Qed.

(** *** Addition: the rounding of the exact sum *)
Lemma fadd_nonneg x y :
  fnonneg x -> fnonneg y ->
  fnonneg (fadd x y) /\ fval (fadd x y) = cap (RN (fval x + fval y)).
Proof.
  intros Hx Hy.
  assert (Hx0 := fnonneg_valid _ Hx). assert (Hy0 := fnonneg_valid _ Hy).
  assert (Ezl : forall v, fvalid v -> cap (RN (0 + fval v)) = fval v).
  { intros. by rewrite Z.add_0_l, RN_fval, cap_fval. }
  assert (Ezr : forall v, fvalid v -> cap (RN (fval v + 0)) = fval v).
  { intros. by rewrite Z.add_0_r, RN_fval, cap_fval. }
  destruct Hx as [_ Hx], Hy as [_ Hy].
  destruct x as [s|[]| |[] m e], y as [s'|[]| |[] m' e']; try contradiction.
  - by destruct s, s'.
  - split; [done|]. symmetry. by apply (Ezl finf).
  - split; [done|]. symmetry. by apply (Ezl (S754_finite false m' e')).
  - split; [done|]. symmetry. by apply (Ezr finf).
  - split; [done|]. symmetry. apply cap_RN_inf. pose proof vinf_pos. cbn [fval]. lia.
  - split; [done|]. symmetry. apply cap_RN_inf.
    pose proof (fval_nonneg (S754_finite false m' e')). cbn [fval] in *. lia.
  - split; [done|]. symmetry. by apply (Ezr (S754_finite false m e)).
  - split; [done|]. symmetry. apply cap_RN_inf.
    pose proof (fval_nonneg (S754_finite false m e)). cbn [fval] in *. lia.
  - pose proof (fvalid_exp _ _ _ Hx0). pose proof (fvalid_exp _ _ _ Hy0).
    unfold fadd, SFadd. cbn [cond_Zopp].
    pose proof (shl_align_spec m e (Z.min e e')) as Ha.
    pose proof (shl_align_spec m' e' (Z.min e e')) as Hb.
    destruct (shl_align m e _) as [a ea], (shl_align m' e' _) as [b eb].
    destruct Ha as [-> Ha], Hb as [-> Hb]. cbn [fst].
    destruct (binary_round_spec false (a + b) (Z.min e e')) as (Hv & Hs & E); [lia|].
    destruct (fsign_false _ Hv Hs) as [? E'].
    split; [done|].
    change (fval (binary_round 53 1024 false (a + b) (Z.min e e')) =
      cap (RN (Zpos m * 2 ^ (e + 2148) + Zpos m' * 2 ^ (e' + 2148)))).
    rewrite <- E', E. do 2 f_equal. rewrite Pos2Z.inj_add, Ha, Hb. cbn [fval].
    rewrite Z.mul_add_distr_r, <- !Z.mul_assoc, <- !Z.pow_add_r by lia.
    f_equal; do 2 f_equal; lia.
Qed.

Lemma fnonneg_add x y : fnonneg x -> fnonneg y -> fnonneg (fadd x y).
Proof. intros. by apply fadd_nonneg. Qed.

Lemma fval_add x y : fnonneg x -> fnonneg y -> fval (fadd x y) = cap (RN (fval x + fval y)).
Proof. intros. by apply fadd_nonneg. Qed.

(** Adding a non-negative double never decreases. *)
Lemma fadd_incr x w : fnonneg x -> fnonneg w -> fval x <= fval (fadd x w).
Proof.
  intros Hx Hw. rewrite fval_add by done.
  rewrite <- (cap_fval x), <- (RN_fval x) at 1 by (by apply fnonneg_valid).
  apply cap_mono, RN_mono; pose proof (fval_nonneg x); pose proof (fval_nonneg w); lia.
Qed.

(** Addition is monotone in its first argument. *)
Lemma fadd_mono_l x y w :
  fnonneg x -> fnonneg y -> fnonneg w -> fval x <= fval y ->
  fval (fadd x w) <= fval (fadd y w).
Proof.
  intros. rewrite !fval_add by done.
  apply cap_mono, RN_mono; pose proof (fval_nonneg x); pose proof (fval_nonneg w); lia.
Qed.

(** *** Multiplication: the rounding of the exact product *)
Definition fzero (x : float) : Prop := match x with S754_zero _ => True | _ => False end.
Definition ffinite (x : float) : Prop :=
  match x with S754_zero _ | S754_finite _ _ _ => True | _ => False end.

Lemma fmul_nonneg x y :
  fnonneg x -> fnonneg y -> (ffinite x \/ ~ fzero y) -> (ffinite y \/ ~ fzero x) ->
  fnonneg (fmul x y).
Proof.
  intros [Hx Hx'] [Hy Hy'] H1 H2.
  destruct x as [s|[]| |[] m e], y as [s'|[]| |[] m' e']; try contradiction; cbn [ffinite fzero] in *;
    try tauto; try (split; [done|exact I]).
  destruct (round_aux_wf false (Zpos (m * m')) (e + e') loc_Exact) as [? ?].
  - lia.
  - cbn [Zdigits2]. rewrite digits2_nbits. eapply mul_exp_ok; eauto.
  - by apply fsign_false.
Qed.

Lemma fval_mul x y w :
  fnonneg x -> fnonneg y -> ffinite x -> ffinite y ->
  fval x * fval y = w * 2 ^ 2148 ->
  fval (fmul x y) = cap (RN w).
Proof.
  intros [Hx Hx'] [Hy Hy'] H1 H2 Hw.
  assert (Hz : fval x * fval y = 0 -> 0 = cap (RN w)) by (intros; replace w with 0 by lia; done).
  destruct x as [s|[]| |[] m e], y as [s'|[]| |[] m' e']; try contradiction; cbn [fval] in Hw, Hz;
    try (apply Hz; lia).
  destruct (round_aux_wf false (Zpos (m * m')) (e + e') loc_Exact) as [Hv Hs].
  - lia.
  - cbn [Zdigits2]. rewrite digits2_nbits. eapply mul_exp_ok; eauto.
  - unfold fmul, SFmul. cbn [xorb]. destruct (fsign_false _ Hv Hs) as [? <-].
    rewrite round_aux_exact by (eapply mul_exp_ok; eauto).
    do 2 f_equal. rewrite Pos2Z.inj_mul.
    pose proof (fvalid_exp _ _ _ Hx). pose proof (fvalid_exp _ _ _ Hy).
    apply (Z.mul_cancel_r _ _ (2 ^ 2148)); [by apply Z.pow_nonzero|]. rewrite <- Hw.
    transitivity (Zpos m * Zpos m' * (2 ^ (e + e' + 2148) * 2 ^ 2148)); [lia|].
    rewrite <- Z.pow_add_r by lia.
    replace (e + e' + 2148 + 2148) with ((e + 2148) + (e' + 2148)) by lia.
    rewrite Z.pow_add_r by lia. lia.
Qed.

(** *** Integers *)
Lemma of_int_nonneg n :
  0 <= n -> fnonneg (of_int n) /\ fval (of_int n) = cap (RN (n * 2 ^ 2148)).
Proof.
  intros Hn. destruct n as [|n|n]; [done| |lia].
  destruct (binary_round_spec false n 0) as (Hv & Hs & E); [lia|].
  destruct (fsign_false _ Hv Hs) as [? E']. split; [done|].
  unfold of_int. cbn [binary_normalize]. by rewrite <- E', E.
Qed.

Lemma fval_of_int n : 0 <= n < 2 ^ 53 -> fval (of_int n) = n * 2 ^ 2148.
Proof.
  intros. destruct (of_int_nonneg n) as [? ->]; [lia|].
  rewrite RN_small_mantissa by lia. apply Z.min_l. rewrite vinf_eq.
  transitivity (2 ^ 53 * 2 ^ 2148); [apply Z.mul_le_mono_nonneg_r; lia|].
  rewrite <- Z.pow_add_r by lia. apply Z.pow_le_mono_r; lia.
Qed.

Lemma trunc_val x :
  fnonneg x -> ffinite x -> trunc x = Some (fval x / 2 ^ 2148).
Proof.
  intros [Hx Hx'] Hf. destruct x as [s|[]| |[] m e]; try contradiction; cbn [trunc fval]; [done|].
  pose proof (fvalid_exp _ _ _ Hx). f_equal.
  case (Z.leb_spec 0 e); intros.
  - rewrite Z.pow_add_r, Z.mul_assoc, Z.div_mul by (try apply Z.pow_nonzero; lia). done.
  - replace (2 ^ 2148) with (2 ^ (- e) * 2 ^ (e + 2148))
      by (rewrite <- Z.pow_add_r by lia; f_equal; lia).
    rewrite Z.div_mul_cancel_r by (apply Z.pow_nonzero; lia). done.
Qed.

Lemma fval_lt_inf_finite x : fnonneg x -> fval x < vinf -> ffinite x.
Proof.
  intros [_ Hx]. destruct x as [|[]| |]; cbn [ffinite fval]; intros; try contradiction;
    [exact I|lia|exact I].
Qed.

(** *** Division and subtraction *)
Lemma fdiv_nonneg x y :
  fnonneg x -> fnonneg y -> ffinite x \/ ffinite y -> ~ fzero y ->
  fnonneg (fdiv x y).
Proof.
  intros [Hx Hx'] [Hy Hy'] H1 H2.
  destruct x as [s|[]| |[] m e], y as [s'|[]| |[] m' e']; try contradiction; cbn [ffinite fzero] in *;
    try tauto; try (split; [done|exact I]).
  unfold fdiv, SFdiv. cbn [xorb]. pose proof (div_core_ok m e m' e') as Hd.
  destruct (SFdiv_core_binary _ _ _ _ _ _) as [[q ez] l].
  destruct (round_aux_wf false q ez l) as [? ?]; [apply Hd..|]. by apply fsign_false.
Qed.

Lemma fsub_nonneg x y :
  fnonneg x -> fnonneg y -> ffinite y -> fval y <= fval x -> fnonneg (fsub x y).
Proof.
  intros Hx Hy Hf Hle.
  assert (Hv : fvalid (fsub x y)) by (apply fsub_valid; by apply fnonneg_valid).
  destruct Hx as [Hx Hx'], Hy as [Hy Hy'].
  destruct x as [s|[]| |[] m e], y as [s'|[]| |[] m' e']; try contradiction; cbn [fval] in Hle;
    try (split; [done|exact I]).
  - by destruct s, s'.
  - pose proof (fvalid_exp _ _ _ Hy).
    assert (0 < 2 ^ (e' + 2148)) by (apply Z.pow_pos_nonneg; lia). nia.
  - pose proof (fvalid_exp _ _ _ Hx). pose proof (fvalid_exp _ _ _ Hy).
    unfold fsub, SFsub in *. cbn [cond_Zopp] in *.
    pose proof (shl_align_spec m e (Z.min e e')) as Ha.
    pose proof (shl_align_spec m' e' (Z.min e e')) as Hb.
    destruct (shl_align m e _) as [a ea], (shl_align m' e' _) as [b eb].
    destruct Ha as [-> Ha], Hb as [-> Hb]. cbn [fst] in *.
    assert (Zpos b <= Zpos a).
    { rewrite Ha, Hb. apply (Z.mul_le_mono_pos_r _ _ (2 ^ (Z.min e e' + 2148)));
        [apply Z.pow_pos_nonneg; lia|].
      rewrite <- !Z.mul_assoc, <- !Z.pow_add_r by lia.
      replace (e - Z.min e (Z.min e e') + (Z.min e e' + 2148)) with (e + 2148) by lia.
      replace (e' - Z.min e' (Z.min e e') + (Z.min e e' + 2148)) with (e' + 2148) by lia.
      done. }
    destruct (Zpos a - Zpos b) as [|d|d] eqn:E; [done| |lia].
    destruct (binary_round_spec false d (Z.min e e')) as (? & Hs & _); [lia|].
    by apply fsign_false.
Qed.

#[export] Hint Resolve fnonneg_valid fnonneg_add fval_nonneg : cpp.

(** ** Signed results: absolute values *)

Definition fnan (x : float) : Prop := x = S754_nan.

Lemma fabs_nonneg x : fvalid x -> ~ fnan x -> fnonneg (SFabs x) /\ fval (SFabs x) = fabs_val x.
Proof. destruct x as [[]|[]| |[] m e]; intros Hx Hn; try (by destruct Hn); done. Qed.

Lemma finish_abs sx m f : SFabs (finish sx m f) = finish false m f.
Proof.
  unfold finish. destruct (shr_fexp _ _ _ _ _) as [mrs e].
  destruct (shr_m mrs); [done| |done]. by destruct (_ <=? _).
Qed.

Lemma round_aux_abs sx m e l :
  SFabs (binary_round_aux 53 1024 sx m e l) = binary_round_aux 53 1024 false m e l.
Proof.
  rewrite !binary_round_aux_finish. destruct (shr_fexp _ _ _ _ _). apply finish_abs.
Qed.

Lemma round_abs sx m e : SFabs (binary_round 53 1024 sx m e) = binary_round 53 1024 false m e.
Proof. unfold binary_round. destruct (shl_align _ _ _). apply round_aux_abs. Qed.

Lemma fmul_abs x y : SFabs (fmul x y) = fmul (SFabs x) (SFabs y).
Proof.
  destruct x as [[]|[]| |[] m e], y as [[]|[]| |[] m' e']; try reflexivity; apply round_aux_abs.
Qed.

(** The magnitude of a difference of finite doubles is the rounding of the exact
    magnitude. *)
Lemma fsub_abs x y :
  fnonneg x -> fnonneg y -> ffinite x -> ffinite y ->
  fvalid (fsub x y) /\ ~ fnan (fsub x y) /\
  fabs_val (fsub x y) = cap (RN (Z.abs (fval x - fval y))).
Proof.
  intros Hx Hy Hfx Hfy.
  assert (Hv : fvalid (fsub x y)) by (apply fsub_valid; by apply fnonneg_valid).
  split; [done|]. destruct Hx as [Hx Hx'], Hy as [Hy Hy'].
  assert (E1 := RN_fval _ Hx). assert (E2 := RN_fval _ Hy).
  assert (E3 := cap_fval _ Hx). assert (E4 := cap_fval _ Hy).
  destruct x as [s|[]| |[] m e], y as [s'|[]| |[] m' e']; try contradiction.
  - destruct s, s'; split; try done; unfold fnan; discriminate.
  - split; [unfold fnan; discriminate|]. cbn [fval] in *.
    rewrite Z.sub_0_l, Z.abs_opp, Z.abs_eq, E2, E4; [done|].
    by apply (fval_nonneg (S754_finite false m' e')).
  - split; [unfold fnan; discriminate|]. cbn [fval] in *.
    rewrite Z.sub_0_r, Z.abs_eq, E1, E3; [done|].
    by apply (fval_nonneg (S754_finite false m e)).
  - clear E1 E2 E3 E4.
    pose proof (fvalid_exp _ _ _ Hx). pose proof (fvalid_exp _ _ _ Hy).
    unfold fsub, SFsub in *. cbn [cond_Zopp] in *.
    pose proof (shl_align_spec m e (Z.min e e')) as Ha.
    pose proof (shl_align_spec m' e' (Z.min e e')) as Hb.
    destruct (shl_align m e _) as [a ea], (shl_align m' e' _) as [b eb].
    destruct Ha as [-> Ha], Hb as [-> Hb]. cbn [fst] in *.
    assert (E : fval (S754_finite false m e) - fval (S754_finite false m' e') =
                (Zpos a - Zpos b) * 2 ^ (Z.min e e' + 2148)).
    { cbn [fval]. rewrite Ha, Hb, Z.mul_sub_distr_r, <- !Z.mul_assoc, <- !Z.pow_add_r by lia.
      f_equal; f_equal; f_equal; lia. }
    rewrite E, Z.abs_mul, (Z.abs_eq (2 ^ _)) by (apply Z.pow_nonneg; lia).
    destruct (Zpos a - Zpos b) as [|d|d] eqn:Ed; cbn [binary_normalize Z.abs].
    + split; [unfold fnan; discriminate|done].
    + destruct (binary_round_spec false d (Z.min e e')) as (_ & Hs & ->); [lia|].
      split; [|done]. intros Hn. unfold fnan in Hn. by rewrite Hn in Hs.
    + destruct (binary_round_spec true d (Z.min e e')) as (_ & Hs & ->); [lia|].
      split; [|done]. intros Hn. unfold fnan in Hn. by rewrite Hn in Hs.
Qed.

(** The difference itself, when it is not negative. *)
Lemma fval_sub x y :
  fnonneg x -> fnonneg y -> ffinite x -> ffinite y -> fval y <= fval x ->
  fval (fsub x y) = cap (RN (fval x - fval y)).
Proof.
  intros Hx Hy Hfx Hfy Hle. destruct (fsub_abs x y) as (_ & _ & E); [done..|].
  rewrite Z.abs_eq in E by lia. rewrite <- E. symmetry.
  destruct (fsub_nonneg x y) as [_ Hs]; [done..|].
  unfold fabs_val. by destruct (fsub x y) as [|[]| |[]].
Qed.

(** [1 + x] for a small [x] of either sign. *)
Lemma fadd_opp x y : fadd x (SFopp y) = fsub x y.
Proof.
  destruct x as [[]|[]| |[] m e], y as [[]|[]| |[] m' e']; try reflexivity;
    unfold fadd, fsub, SFadd, SFsub, SFopp; cbn [cond_Zopp negb];
    rewrite ?Z.opp_involutive, ?Z.sub_opp_r; reflexivity.
Qed.

Definition fone : float := flit 1 1.

Lemma fval_one : fval fone = 2 ^ 2148.
Proof. vm_compute. reflexivity. Qed.

Lemma fone_nonneg : fnonneg fone /\ ffinite fone.
Proof. by vm_compute. Qed.

Lemma one_plus_small x :
  fvalid x -> ~ fnan x -> fabs_val x <= 2 ^ 2146 ->
  fnonneg (fadd fone x) /\ ffinite (fadd fone x) /\ ~ fzero (fadd fone x) /\
  cap (RN (2 ^ 2148 - fabs_val x)) <= fval (fadd fone x) <= cap (RN (2 ^ 2148 + fabs_val x)).
Proof.
  intros Hx Hn Hle. destruct (fabs_nonneg x Hx Hn) as [Ha Eabs].
  destruct fone_nonneg as [H1 F1]. pose proof (fval_nonneg (SFabs x)) as Hge.
  rewrite Eabs in Hge.
  assert (Hbig : 2 ^ 2146 < vinf) by (rewrite vinf_eq; by apply Z.pow_lt_mono_r).
  assert (Fa : ffinite (SFabs x)) by (apply fval_lt_inf_finite; [done|]; rewrite Eabs; lia).
  assert (Hlo : RN (2 ^ 2148 - fabs_val x) <= RN (2 ^ 2148 + fabs_val x)).
  { apply RN_mono; pose proof (Z.pow_le_mono_r 2 2146 2148); lia. }
  assert (Hup : RN (2 ^ 2148 + fabs_val x) <= 2 ^ 2149).
  { rewrite <- (RN_pow2 2149) by lia. apply RN_mono; [lia|].
    change (2 ^ 2149) with (2 ^ 2148 + 2 ^ 2148).
    pose proof (Z.pow_le_mono_r 2 2146 2148). lia. }
  assert (Hpos : 2 ^ 2147 <= RN (2 ^ 2148 - fabs_val x)).
  { rewrite <- (RN_pow2 2147) by lia. apply RN_mono; [lia|].
    change (2 ^ 2148) with (2 ^ 2147 + 2 ^ 2147).
    pose proof (Z.pow_le_mono_r 2 2146 2147). lia. }
  assert (Hvinf : 2 ^ 2149 < vinf) by (rewrite vinf_eq; by apply Z.pow_lt_mono_r).
  assert (Hsum : fnonneg (fadd fone x) /\
    (fval (fadd fone x) = cap (RN (2 ^ 2148 + fabs_val x)) \/
     fval (fadd fone x) = cap (RN (2 ^ 2148 - fabs_val x)))).
  { destruct (Z_le_dec (fabs_val x) (2 ^ 2148)) as [Hl|Hl];
      [|pose proof (Z.pow_le_mono_r 2 2146 2148); lia].
    assert (x = SFabs x \/ x = SFopp (SFabs x)) as [E|E].
    { destruct x as [[]|[]| |[]]; auto. }
    - split; [rewrite E; by apply fnonneg_add|]. left.
      rewrite E, fval_add, fval_one by done. by rewrite Eabs, <- E.
    - rewrite E, fadd_opp. split; [apply fsub_nonneg; try done; by rewrite fval_one, Eabs|].
      right. rewrite <- E. rewrite fval_sub by (try done; by rewrite fval_one, Eabs).
      by rewrite fval_one, Eabs. }
  destruct Hsum as [Hnn Hval]. unfold cap in *.
  assert (2 ^ 2147 <= fval (fadd fone x) <= 2 ^ 2149) by lia.
  split; [done|]. split; [apply fval_lt_inf_finite; [done|lia]|]. split; [|lia].
  assert (0 < 2 ^ 2147) by (by apply Z.pow_pos_nonneg).
  assert (Hz : fzero (fadd fone x) -> fval (fadd fone x) = 0).
  { clear. generalize (fadd fone x). by intros []. }
  intros Hzero. rewrite (Hz Hzero) in *. lia.
Qed.

(** *** Division of an integer by 2^24 is exact *)
Definition f2p24 : float := flit 16777216 1.

Lemma fval_div_2p24 k :
  0 <= k < 2 ^ 24 ->
  fnonneg (fdiv (of_int k) f2p24) /\ fval (fdiv (of_int k) f2p24) = k * 2 ^ 2124.
Proof.
  intros Hk. destruct (Z.eq_dec k 0) as [->|Hk0]; [done|].
  destruct (of_int_nonneg k) as [Hnn _]; [lia|].
  assert (Hval : fval (of_int k) = k * 2 ^ 2148) by (apply fval_of_int; lia).
  change f2p24 with (S754_finite false (2 ^ 52)%positive (-28)).
  assert (Hn : fnonneg (fdiv (of_int k) (S754_finite false (2 ^ 52)%positive (-28)))).
  { apply fdiv_nonneg; [done|done|right; done|intros []]. }
  split; [done|]. destruct Hnn as [Hv Hs].
  destruct (of_int k) as [|[]| |[] m e]; try contradiction; cbn [fval] in Hval.
  - exfalso. assert (0 < 2 ^ 2148) by (by apply Z.pow_pos_nonneg). nia.
  - exfalso. assert (k * 2 ^ 2148 < vinf); [|lia]. rewrite vinf_eq.
    change 3172 with (1024 + 2148). rewrite Z.pow_add_r by lia.
    apply Z.mul_lt_mono_pos_r; [by apply Z.pow_pos_nonneg|].
    transitivity (2 ^ 24); [lia|]. by apply Z.pow_lt_mono_r.
  - pose proof (fvalid_exp _ _ _ Hv). apply bounded_iff in Hv as [Hc _].
    assert (Hnb : nbits (Zpos m) = 53).
    { assert (nbits (Zpos m * 2 ^ (e + 2148)) = nbits (k * 2 ^ 2148)) by (f_equal; done).
      rewrite !nbits_mul_pow in * by lia. pose proof (nbits_nonneg k).
      pose proof (nbits_nonneg (Zpos m)). lia. }
    unfold fdiv, SFdiv, SFdiv_core_binary. cbn [Zdigits2 xorb]. rewrite !digits2_nbits, Hnb.
    change (nbits (Zpos (2 ^ 52))) with 53. rewrite fexp64_eq.
    replace (Z.min (Z.max (53 + e - (53 + -28) - 53) (-1074)) (e - -28)) with (e - 25).
    2: { assert (e >= -1000); [|lia].
         assert (nbits (Zpos m * 2 ^ (e + 2148)) = nbits (k * 2 ^ 2148)) as En by (f_equal; done).
         rewrite !nbits_mul_pow in En by lia. pose proof (nbits_nonneg k). lia. }
    replace (e - -28 - (e - 25)) with 53 by lia.
    replace (Z.shiftl (Zpos m) 53) with (Zpos (2 * m) * Zpos (2 ^ 52)).
    2: { rewrite Z.shiftl_mul_pow2 by lia. rewrite Pos2Z.inj_mul. change (Zpos (2 ^ 52)) with (2 ^ 52).
         change (2 ^ 53) with (2 * 2 ^ 52). lia. }
    destruct (Z.div_eucl _ _) as [q r] eqn:Eq.
    assert (q = Zpos (2 * m) /\ r = 0) as [-> ->].
    { pose proof (Z_div_mod (Zpos (2 * m) * Zpos (2 ^ 52)) (Zpos (2 ^ 52)) ltac:(done)) as Hd.
      rewrite Eq in Hd. destruct Hd as [Hd1 Hd2].
      change (Zpos (2 ^ 52)) with (2 ^ 52) in *.
      assert (q = Zpos (2 * m)) by nia. subst. split; [done|nia]. }
    change (new_location (Zpos (2 ^ 52)) 0) with loc_Exact.
    assert (En : nbits (Zpos m * 2 ^ (e + 2148)) = nbits (k * 2 ^ 2148)) by (f_equal; done).
    rewrite !nbits_mul_pow in En by lia. pose proof (nbits_nonneg k).
    assert (Hn2 : nbits (Zpos (2 * m)) = 54).
    { rewrite Pos2Z.inj_mul, Z.mul_comm. change 2 with (2 ^ 1) at 1.
      rewrite nbits_mul_pow by lia. lia. }
    destruct (round_aux_wf false (Zpos (2 * m)) (e - 25) loc_Exact) as [Hv' Hs'].
    { lia. } { cbn [Zdigits2]. rewrite digits2_nbits. lia. }
    destruct (fsign_false _ Hv' Hs') as [_ <-]. rewrite round_aux_exact by lia.
    assert (E : Zpos (2 * m) * 2 ^ (e - 25 + 2148) = k * 2 ^ 2124).
    { apply (Z.mul_cancel_r _ _ (2 ^ 24)); [by apply Z.pow_nonzero|].
      rewrite <- !Z.mul_assoc, <- !Z.pow_add_r by lia. change (2124 + 24) with 2148.
      rewrite <- Hval, Pos2Z.inj_mul.
      replace (e + 2148) with (1 + (e - 25 + 2148 + 24) - 0 - 0 + 0) by lia.
      replace (1 + (e - 25 + 2148 + 24) - 0 - 0 + 0) with (1 + (e - 25 + 2148 + 24)) by lia.
      rewrite (Z.pow_add_r 2 1) by lia. lia. }
    rewrite E, RN_small_mantissa by lia. apply Z.min_l. rewrite vinf_eq.
    transitivity (2 ^ 24 * 2 ^ 2124); [apply Z.mul_le_mono_nonneg_r; lia|].
    rewrite <- Z.pow_add_r by lia. by apply Z.pow_le_mono_r.
Qed.

(** *** Order facts about products and positive doubles *)

Lemma fval_multiple x : fvalid x -> ffinite x -> exists k, fval x = k * 2 ^ 1074.
Proof.
  intros Hx Hf. destruct x as [|s| |[] m e]; try contradiction; try (by exists 0).
  pose proof (fvalid_exp _ _ _ Hx). exists (Zpos m * 2 ^ (e + 1074)). cbn [fval].
  rewrite <- Z.mul_assoc, <- Z.pow_add_r by lia. do 2 f_equal. lia.
Qed.

Lemma fval_mul_ex x y :
  fnonneg x -> fnonneg y -> ffinite x -> ffinite y ->
  exists w, fval x * fval y = w * 2 ^ 2148 /\ fval (fmul x y) = cap (RN w).
Proof.
  intros Hx Hy Hfx Hfy.
  destruct (fval_multiple x) as [a Ha]; [by apply fnonneg_valid|done|].
  destruct (fval_multiple y) as [b Hb]; [by apply fnonneg_valid|done|].
  exists (a * b). assert (E : fval x * fval y = a * b * 2 ^ 2148).
  { rewrite Ha, Hb. change (2 ^ 2148) with (2 ^ 1074 * 2 ^ 1074). ring. }
  split; [done|]. by apply fval_mul.
Qed.

(** Multiplying by a double of at most one does not increase. *)
Lemma fval_mul_le x y :
  fnonneg x -> fnonneg y -> ffinite x -> ffinite y -> fval x <= 2 ^ 2148 ->
  fval (fmul x y) <= fval y.
Proof.
  intros Hx Hy Hfx Hfy Hle. destruct (fval_mul_ex x y) as (w & Hw & ->); [done..|].
  pose proof (fval_nonneg x). pose proof (fval_nonneg y).
  assert (0 < 2 ^ 2148) by (by apply Z.pow_pos_nonneg).
  assert (0 <= w <= fval y) by nia.
  rewrite <- (cap_fval y), <- (RN_fval y) by (by apply fnonneg_valid).
  apply cap_mono, RN_mono; lia.
Qed.

Lemma fpos_spec x : fvalid x -> fltb f0 x = true -> fnonneg x /\ ~ fzero x.
Proof. destruct x as [[]|[]| |[] m e]; intros Hx H; try discriminate; split; try done; tauto. Qed.

Lemma ffinite_fval x : fnonneg x -> ffinite x -> fval x < vinf.
Proof.
  intros [Hx Hs] Hf. destruct x as [|[]| |[] m e]; try contradiction; cbn [fval].
  - apply vinf_pos.
  - by eapply finite_lt_inf.
Qed.

Lemma fmin_nonneg x y : fnonneg x -> fnonneg y -> fnonneg (fmin x y) /\ fval (fmin x y) <= fval y.
Proof. intros. unfold fmin. rewrite fltb_val by done. destruct (Z.ltb_spec (fval y) (fval x)); auto with lia. Qed.

Lemma fmax_nonneg x y :
  fnonneg x -> fnonneg y -> fnonneg (fmax x y) /\ fval (fmax x y) = Z.max (fval x) (fval y).
Proof.
  intros. unfold fmax. rewrite fltb_val by done.
  destruct (Z.ltb_spec (fval x) (fval y)); split; try done; lia.
Qed.

Lemma fzero_fval x : fzero x -> fval x = 0.
Proof. by destruct x. Qed.

Lemma fval_pos_nonzero x : 0 < fval x -> ~ fzero x.
Proof. intros ? Hz%fzero_fval. lia. Qed.

(** A negative constant times a non-negative double is not positive. *)
Lemma fmul_neg_nonpos m e x :
  fvalid (S754_finite true m e) -> fnonneg x ->
  fleb (fmul (S754_finite true m e) x) f0 = true.
Proof.
  intros Hc [Hx Hs]. destruct x as [[]|[]| |[] m' e']; try contradiction; try reflexivity.
  unfold fmul, SFmul. cbn [xorb].
  destruct (round_aux_wf true (Zpos (m * m')) (e + e') loc_Exact) as [_ Hsg].
  - lia.
  - cbn [Zdigits2]. rewrite digits2_nbits. eapply mul_exp_ok; eauto.
  - destruct (binary_round_aux _ _ _ _ _ _); simpl in Hsg; subst; done.
Qed.
