(* ===== verification/Dijkstra.v ===== *)
(** * Shortest routes: [TrafficServer::dijkstra]

    The server's route search (src/simulte/src/apps/TrafficApp/TrafficServer.cc)
    with its vectors [dist], [prev], [visited] and its priority queue, over an
    adjacency list and a weight of entering an edge.  The theorems of the search
    are stated for walks whose cost is accumulated in doubles, exactly as the loop
    accumulates it: the returned route is a simple path of the road graph and no
    walk is cheaper; the loops stop within the fuel computed here. *)

From S2P Require Import Prelude Doubles.

(** ** The priority queue

    [std::priority_queue<pair<double,int>, ..., greater<>>]: [top] is a smallest
    pair in the lexicographic order, and [pop] removes it.  Equal pairs cannot be
    told apart, so any smallest element will do. *)
Abbreviation PII := (float * Z)%type.

Definition pair_ltb (a b : PII) : bool :=
  fltb a.1 b.1 || (negb (fltb b.1 a.1) && (a.2 <? b.2)).

Fixpoint pop_min (q : list PII) : option (PII * list PII) :=
  match q with
  | [] => None
  | x :: q' =>
      match pop_min q' with
      | None => Some (x, [])
      | Some (y, r) => if pair_ltb y x then Some (y, x :: r) else Some (x, q')
      end
  end.

(** ** The search *)

Record search := Search {
  dist : list float;
  prev : list Z;
  visited : list bool;
  pq : list PII
}.

Section Dijkstra.
Context (N : Z) (adjacency : list (list Z)) (weight : Z -> result float).

(** The body of [for (int v : adjacency[u])]. *)
Definition relax (u : Z) (s : search) (v : Z) : result search :=
  let! seen := of_option (vget (visited s) v) in
  if seen : bool then Ok s else
  let! w := weight v in
  let! du := of_option (vget (dist s) u) in
  let! dv := of_option (vget (dist s) v) in
  if fltb (fadd du w) dv then
    let! dist' := of_option (vset (dist s) v (fadd du w)) in
    let! prev' := of_option (vset (prev s) v u) in
    Ok (Search dist' prev' (visited s) ((fadd du w, v) :: pq s))
  else Ok s.

Fixpoint relax_all (u : Z) (s : search) (vs : list Z) : result search :=
  match vs with
  | [] => Ok s
  | v :: vs' => let! s' := relax u s v in relax_all u s' vs'
  end.

(** [while (!pq.empty())], left early when the destination is settled. *)
Fixpoint search_loop (fuel : nat) (dstEdge : Z) (s : search) : result search :=
  match pop_min (pq s) with
  | None => Ok s
  | Some ((_, u), rest) =>
      match fuel with
      | O => Throw "out of fuel"
      | S fuel' =>
          let s := Search (dist s) (prev s) (visited s) rest in
          let! seen := of_option (vget (visited s) u) in
          if seen : bool then search_loop fuel' dstEdge s else
          let! vis' := of_option (vset (visited s) u true) in
          let s := Search (dist s) (prev s) vis' (pq s) in
          if u =? dstEdge then Ok s else
          let! nb := of_option (vget adjacency u) in
          let! s' := relax_all u s nb in
          search_loop fuel' dstEdge s'
      end
  end.

(** [for (int at = dstEdge; at != -1; at = prev[at]) path.push_back(at);] *)
Fixpoint backtrack (fuel : nat) (prev : list Z) (at_ : Z) : result (list Z) :=
  if at_ =? -1 then Ok [] else
  match fuel with
  | O => Throw "out of fuel"
  | S fuel' =>
      let! p := of_option (vget prev at_) in
      let! rest := backtrack fuel' prev p in
      Ok (at_ :: rest)
  end.

(** Every iteration pops one entry, and an edge's neighbours are pushed at most
    once, when it is settled: one iteration for the source and one per
    adjacency entry.  The chain of predecessors is a simple path. *)
Definition search_fuel : nat := S (sum_list_with length adjacency).
Definition path_fuel : nat := S (Z.to_nat N).

Definition dijkstra (srcEdge dstEdge : Z) : result (list Z) :=
  let n := Z.to_nat N in
  let dist0 := replicate n finf in
  let prev0 := replicate n (-1) in
  let visited0 := replicate n false in
  let! dist1 := of_option (vset dist0 srcEdge f0) in
  let! s := search_loop search_fuel dstEdge
              (Search dist1 prev0 visited0 [(f0, srcEdge)]) in
  let! d := of_option (vget (dist s) dstEdge) in
  if feqb d finf then Ok [] else
  let! path := backtrack path_fuel (prev s) dstEdge in
  Ok (rev path).
End Dijkstra.

(** ** Walks and their cost *)

Section Walks.
Context (adjacency : list (list Z)) (w : Z -> float) (src : Z).

Definition arc (u v : Z) : Prop := exists nb, vget adjacency u = Some nb /\ v ∈ nb.

(** [walk p v c]: the edges [p], last first, lead from [src] to [v]; [c] is the
    cost of entering them one after the other. *)
Inductive walk : list Z -> Z -> float -> Prop :=
| walk_src : walk [src] src f0
| walk_step p u c v : walk p u c -> arc u v -> walk (v :: p) v (fadd c (w v)).

(** The same for a route in travel order, as an executable cost. *)
Definition route_cost (p : list Z) : float :=
  fold_left (fun c v => fadd c (w v)) (tail p) f0.

Fixpoint connected (p : list Z) : Prop :=
  match p with
  | u :: ((v :: _) as p') => arc u v /\ connected p'
  | _ => True
  end.

Definition route_from_to (p : list Z) (dst : Z) : Prop :=
  head p = Some src /\ last p = Some dst /\ connected p.
End Walks.

Lemma connected_snoc adjacency p u v :
  last p = Some u ->
  connected adjacency (p ++ [v]) <-> connected adjacency p /\ arc adjacency u v.
Proof.
  induction p as [|x p IH]; intros Hl; [done|].
  destruct p as [|y p]; simpl in *.
  - simplify_eq. tauto.
  - rewrite IH by done. tauto.
Qed.

Lemma walk_of_route adjacency w src p dst :
  route_from_to adjacency src p dst <-> walk adjacency w src (rev p) dst (route_cost w p).
Proof.
  unfold route_from_to. split.
  - revert dst. induction p as [|v p IH] using rev_ind; intros dst (Hh & Hl & Hc); [done|].
    rewrite last_snoc in Hl. injection Hl as ->. rewrite rev_app_distr. simpl.
    destruct p as [|u0 p']; [simpl in *; simplify_eq; constructor|].
    set (p := u0 :: p') in *.
    assert (Hu : exists u, last p = Some u) by (apply last_is_Some; done).
    destruct Hu as [u Hu].
    replace (route_cost w (p ++ [dst])) with (fadd (route_cost w p) (w dst))
      by (unfold route_cost; subst p; simpl; by rewrite fold_left_app).
    assert (Hc' : connected adjacency p /\ arc adjacency u dst) by (by apply (connected_snoc _ _ u)).
    apply walk_step with u; [|apply Hc'].
    apply IH. split; [|split]; [by subst p|done|apply Hc'].
  - remember (rev p) as q eqn:Eq. remember (route_cost w p) as c eqn:Ec. clear Ec.
    intros Hw. revert p Eq. induction Hw as [|q u c v Hw IH Ha]; intros p Eq.
    + destruct p as [|? p]; [done|]. apply (f_equal (@rev Z)) in Eq.
      rewrite rev_involutive in Eq. simpl in Eq. simplify_eq. done.
    + apply (f_equal (@rev Z)) in Eq. rewrite rev_involutive in Eq. simpl in Eq. subst p.
      destruct (IH (rev q)) as (Hh & Hl & Hc); [by rewrite rev_involutive|].
      split; [|split].
      * destruct (rev q); [done|]. done.
      * by rewrite last_snoc.
      * by apply (connected_snoc _ _ u).
Qed.

(** ** The queue holds its smallest entry *)

Definition pair_ok (e : PII) : Prop := fnonneg e.1.

Lemma pop_min_None q : pop_min q = None -> q = [].
Proof. destruct q as [|x q]; simpl; [done|]. repeat case_match; done. Qed.

Lemma pop_min_perm q e r : pop_min q = Some (e, r) -> q ≡ₚ e :: r.
Proof.
  revert e r. induction q as [|x q IH]; intros e r; simpl; [done|].
  destruct (pop_min q) as [[y r']|] eqn:E.
  - destruct (pair_ltb y x); intros; simplify_eq; [|done].
    rewrite (IH _ _ eq_refl). apply Permutation_swap.
  - intros; simplify_eq. by apply pop_min_None in E as ->.
Qed.

Lemma pair_ltb_le a b :
  pair_ok a -> pair_ok b ->
  if pair_ltb a b then fval a.1 <= fval b.1 else fval b.1 <= fval a.1.
Proof.
  intros. unfold pair_ltb. rewrite !fltb_val by done.
  destruct (Z.ltb_spec (fval a.1) (fval b.1)), (Z.ltb_spec (fval b.1) (fval a.1));
    simpl; try case_match; lia.
Qed.

Lemma pop_min_least q e r :
  Forall pair_ok q -> pop_min q = Some (e, r) -> Forall (fun x => fval e.1 <= fval x.1) q.
Proof.
  revert e r. induction q as [|x q IH]; intros e r Hq; simpl; [done|].
  apply Forall_cons in Hq as [Hx Hq].
  destruct (pop_min q) as [[y r']|] eqn:E.
  - specialize (IH _ _ Hq eq_refl).
    assert (Hy : pair_ok y).
    { apply pop_min_perm in E. rewrite E in Hq. by apply Forall_cons in Hq as [? _]. }
    pose proof (pair_ltb_le y x Hy Hx).
    destruct (pair_ltb y x); intros; simplify_eq; constructor; try done.
    eapply Forall_impl; [exact IH|]. simpl. lia.
  - intros; simplify_eq. apply pop_min_None in E as ->. repeat constructor. lia.
Qed.

Lemma walk_cost adjacency w src q v c :
  walk adjacency w src q v c -> c = route_cost w (rev q).
Proof.
  induction 1 as [|q u c v Hw IH Ha]; [done|]. simpl. unfold route_cost in *.
  assert (rev q <> []).
  { intros Hr%(f_equal (@rev Z)). rewrite rev_involutive in Hr. by destruct Hw. }
  destruct (rev q) as [|x p]; [done|]. simpl in *. by rewrite fold_left_app, IH.
Qed.

(** ** The invariant of the search *)

Section Correctness.
Context (N : Z) (adjacency : list (list Z)) (weight : Z -> result float) (w : Z -> float).
Context (src : Z).
Hypothesis adj_size : vsize adjacency = N.
Hypothesis adj_range : forall u v, arc adjacency u v -> 0 <= v < N.
Hypothesis weight_ok : forall v, 0 <= v < N -> weight v = Ok (w v).
Hypothesis w_nonneg : forall v, 0 <= v < N -> fnonneg (w v).
Hypothesis src_range : 0 <= src < N.

Local Abbreviation walk := (walk adjacency w src).
Local Abbreviation arc := (arc adjacency).

(** The entry of [dist] for an edge. *)
Definition D (s : search) (v : Z) : float := default finf (vget (dist s) v).

(** The edges whose outgoing arcs have been relaxed, and the arcs of the edge
    being relaxed, are [E]. *)
Record inv (s : search) (settled : list Z) (E : Z -> Z -> Prop) : Prop := {
  inv_dist_size : vsize (dist s) = N;
  inv_prev_size : vsize (prev s) = N;
  inv_vis_size : vsize (visited s) = N;
  inv_dist_ok : Forall fnonneg (dist s);
  inv_settled : forall v, vget (visited s) v = Some true <-> v ∈ settled;
  inv_nodup : NoDup settled;
  inv_src : D s src = f0;
  inv_src_prev : vget (prev s) src = Some (-1);
  inv_pq_ok : Forall (fun e => fnonneg e.1 /\ 0 <= e.2 < N /\
    fval (D s e.2) <= fval e.1 < vinf) (pq s);
  inv_pq_complete : forall v, 0 <= v < N -> v ∉ settled -> fval (D s v) < vinf ->
    (D s v, v) ∈ pq s;
  inv_pq_order : forall x e, x ∈ settled -> e ∈ pq s -> fval (D s x) <= fval e.1;
  inv_optimal : forall x q c, x ∈ settled -> walk q x c -> fval (D s x) <= fval c;
  inv_relaxed : forall x v, E x v -> fval (D s v) <= fval (fadd (D s x) (w v));
  inv_prev : forall v, 0 <= v < N -> v <> src -> fval (D s v) < vinf ->
    exists u, vget (prev s) v = Some u /\ u ∈ settled /\ arc u v /\
              D s v = fadd (D s u) (w v);
  inv_prev_order : forall v l1 l2, settled = l1 ++ v :: l2 -> v <> src ->
    exists u, vget (prev s) v = Some u /\ u ∈ l2;
  inv_settled_finite : forall v, v ∈ settled -> fval (D s v) < vinf;
  inv_last_max : forall x u, head settled = Some u -> x ∈ settled ->
    fval (D s x) <= fval (D s u)
}.

Lemma inv_weaken s settled (E E' : Z -> Z -> Prop) :
  (forall x y, E' x y -> E x y) -> inv s settled E -> inv s settled E'.
Proof. intros HE []. split; eauto. Qed.

Definition all_arcs (settled : list Z) (u v : Z) : Prop := u ∈ settled /\ arc u v.

Lemma D_nonneg s settled E v : inv s settled E -> fnonneg (D s v).
Proof.
  intros H. unfold D. destruct (vget (dist s) v) eqn:Ev; [|done].
  eapply vget_Forall; [apply H|done].
Qed.

Lemma D_get s settled E v : inv s settled E -> 0 <= v < N -> vget (dist s) v = Some (D s v).
Proof.
  intros H Hv. unfold D. destruct (vget_is_Some (dist s) v) as [d Hd].
  { rewrite (inv_dist_size _ _ _ H). done. }
  by rewrite Hd.
Qed.

Lemma walk_range q v c : walk q v c -> 0 <= v < N.
Proof. destruct 1; eauto. Qed.

Lemma walk_cost_nonneg q v c : walk q v c -> fnonneg c.
Proof.
  induction 1; [done|]. apply fnonneg_add; [done|]. apply w_nonneg. eauto.
Qed.

Lemma settled_range s settled E v : inv s settled E -> v ∈ settled -> 0 <= v < N.
Proof.
  intros H Hv%(inv_settled _ _ _ H)%vget_Some_bounds.
  by rewrite (inv_vis_size _ _ _ H) in Hv.
Qed.

(** Every walk to an unsettled edge crosses an unsettled edge whose tentative
    distance is at most the cost of the walk. *)
Lemma frontier s settled q v c :
  inv s settled (all_arcs settled) -> walk q v c -> v ∉ settled ->
  exists y, 0 <= y < N /\ (y ∉ settled) /\ fval (D s y) <= fval c.
Proof.
  intros H Hw. induction Hw as [|q u c v Hw IH Ha]; intros Hv.
  - exists src. rewrite (inv_src _ _ _ H). done.
  - assert (Hr : 0 <= v < N) by eauto.
    assert (Hc := walk_cost_nonneg _ _ _ Hw). assert (Hwv := w_nonneg v Hr).
    destruct (decide (u ∈ settled)) as [Hu|Hu].
    + exists v. split; [done|]. split; [done|].
      etransitivity; [apply (inv_relaxed _ _ _ H u v); done|].
      apply fadd_mono_l; [by eapply D_nonneg|done..|].
      eapply inv_optimal; eauto.
    + destruct (IH Hu) as (y & ? & ? & ?). exists y. split; [done|]. split; [done|].
      etransitivity; [done|]. by apply fadd_incr.
Qed.

Lemma least_is_optimal s settled u q c :
  inv s settled (all_arcs settled) -> u ∉ settled ->
  (forall y, 0 <= y < N -> y ∉ settled -> fval (D s u) <= fval (D s y)) ->
  walk q u c -> fval (D s u) <= fval c.
Proof.
  intros H Hu Hmin Hw. destruct (frontier s settled q u c) as (y & ? & ? & ?); auto.
  etransitivity; [by apply Hmin|done].
Qed.

(** *** Relaxing the arcs of the edge just settled *)

(** Lowering the distance of an unsettled edge to that of its extension of [u]. *)
Lemma improve_inv s settled u v (E : Z -> Z -> Prop) d' p' :
  inv s settled E -> (forall x y, E x y -> x ∈ settled) ->
  head settled = Some u -> u ∈ settled -> arc u v -> v ∉ settled ->
  fval (fadd (D s u) (w v)) < fval (D s v) ->
  vset (dist s) v (fadd (D s u) (w v)) = Some d' ->
  vset (prev s) v u = Some p' ->
  inv (Search d' p' (visited s) ((fadd (D s u) (w v), v) :: pq s)) settled
      (fun x y => E x y \/ (x = u /\ y = v)).
Proof.
  intros H HE Hhd Hu Ha Huns Hlt Hd' Hp'. set (s' := Search _ _ _ _).
  assert (Hv : 0 <= v < N) by eauto.
  assert (HDu := D_nonneg _ _ _ u H). assert (HDv := D_nonneg _ _ _ v H).
  assert (Hwv := w_nonneg v Hv).
  assert (HDn : fnonneg (fadd (D s u) (w v))) by auto with cpp.
  assert (Heq : forall x, D s' x = if decide (v = x) then fadd (D s u) (w v) else D s x).
  { intros x. unfold D. simpl. rewrite (vget_vset _ _ _ _ _ Hd'). by case_decide. }
  assert (Hset : forall x, x ∈ settled -> D s' x = D s x).
  { intros x Hx. rewrite Heq, decide_False; [done|congruence]. }
  assert (Hle : forall x, fval (D s' x) <= fval (D s x)).
  { intros x. rewrite Heq. case_decide; subst; lia. }
  assert (Hsrc : v <> src).
  { intros ->. rewrite (inv_src _ _ _ H) in Hlt. pose proof (fval_nonneg (fadd (D s u) (w src))).
    simpl in Hlt. lia. }
  assert (HDu' := inv_settled_finite _ _ _ H u Hu).
  assert (HDvi : fval (D s v) <= vinf) by (apply fval_le_inf; auto with cpp).
  pose proof (fadd_incr _ _ HDu Hwv) as Hinc.
  destruct H as [Hds Hps Hvs Hdo Hst Hnd Hs0 Hsp Hpo Hpc Hpord Hop Hre Hpr Hpro Hfin Hmax].
  split; simpl; try done.
  - by rewrite (vset_size _ _ _ _ Hd').
  - by rewrite (vset_size _ _ _ _ Hp').
  - eapply vset_Forall; eauto.
  - rewrite Heq, decide_False; done.
  - by rewrite (vget_vset_ne _ _ _ _ _ Hp' Hsrc).
  - constructor; simpl.
    + split; [done|]. split; [done|]. rewrite Heq, decide_True by done. lia.
    + eapply Forall_impl; [exact Hpo|]. intros e (? & ? & ?). split; [done|].
      split; [done|]. specialize (Hle e.2). lia.
  - intros x Hx Hxs. rewrite Heq. case_decide as Hvx; subst; intros; [by left|].
    right. by apply Hpc.
  - intros x e Hx He. rewrite Hset by done. apply elem_of_cons in He as [->|He]; [|auto].
    simpl. etransitivity; [by eapply Hmax|done].
  - intros x q c Hx Hw. rewrite Hset by done. eauto.
  - intros x y [Hxy|[-> ->]].
    + rewrite (Hset x) by eauto. etransitivity; [apply Hle|]. auto.
    + rewrite (Hset u) by done. rewrite Heq, decide_True; done || lia.
  - intros x Hx Hxs. rewrite Heq, (vget_vset _ _ _ _ _ Hp'). case_decide as Hvx; subst.
    + intros _. exists u. by rewrite Hset.
    + intros Hf. destruct (Hpr x) as (u' & ? & ? & ? & ?); auto.
      exists u'. by rewrite Hset.
  - intros x l1 l2 -> Hxs. destruct (Hpro x l1 l2) as (u' & ? & ?); auto.
    exists u'. rewrite (vget_vset_ne _ _ _ _ _ Hp'); [done|].
    intros ->. apply Huns. apply elem_of_app. right. by left.
  - intros x Hx. rewrite Hset by done. auto.
  - intros x u' Hu' Hx. rewrite Hset by done. rewrite Hset; [eauto|].
    destruct settled; simplify_eq/=. by left.
Qed.

Lemma relax_inv s settled u v (E : Z -> Z -> Prop) :
  inv s settled E -> (forall x y, E x y -> x ∈ settled) ->
  head settled = Some u -> arc u v ->
  exists s', relax weight u s v = Ok s' /\
    inv s' settled (fun x y => E x y \/ (x = u /\ y = v)) /\
    visited s' = visited s /\ (length (pq s') <= S (length (pq s)))%nat.
Proof.
  intros H HE Hhd Ha. assert (Hv : 0 <= v < N) by eauto.
  assert (Hu : u ∈ settled) by (destruct settled; simplify_eq/=; by left).
  assert (Hur := settled_range _ _ _ _ H Hu).
  assert (HDu := D_nonneg _ _ _ u H). assert (HDv := D_nonneg _ _ _ v H).
  assert (Hwv := w_nonneg v Hv).
  destruct (vget_is_Some (visited s) v) as [seen Hseen].
  { by rewrite (inv_vis_size _ _ _ H). }
  unfold relax. rewrite Hseen, weight_ok by done.
  rewrite (D_get _ _ _ u H Hur), (D_get _ _ _ v H Hv). cbn [of_option rbind].
  assert (Hsame : fval (D s v) <= fval (fadd (D s u) (w v)) ->
    inv s settled (fun x y => E x y \/ (x = u /\ y = v))).
  { intros Hle. destruct H; split; try done. intros x y [Hx|[-> ->]]; auto. }
  destruct seen.
  { exists s. split; [done|]. split; [|split; [done|lia]]. apply Hsame.
    etransitivity; [|by apply fadd_incr]. apply (inv_settled _ _ _ H) in Hseen.
    eapply inv_last_max; eauto. }
  rewrite fltb_val by (auto with cpp).
  destruct (Z.ltb_spec (fval (fadd (D s u) (w v))) (fval (D s v))) as [Hlt|Hge].
  2: { exists s. split; [done|]. split; [by apply Hsame|]. split; [done|lia]. }
  destruct (vset_is_Some (dist s) v (fadd (D s u) (w v))) as [d' Hd'].
  { by rewrite (inv_dist_size _ _ _ H). }
  destruct (vset_is_Some (prev s) v u) as [p' Hp'].
  { by rewrite (inv_prev_size _ _ _ H). }
  rewrite Hd', Hp'. cbn [of_option rbind].
  eexists. split; [done|]. split; [|split; [done|simpl; lia]].
  assert (Huns : v ∉ settled) by (rewrite <- (inv_settled _ _ _ H), Hseen; done).
  by apply (improve_inv s settled u v E d' p').
Qed.

Lemma relax_all_inv s settled u vs (E : Z -> Z -> Prop) :
  inv s settled E -> (forall x y, E x y -> x ∈ settled) ->
  head settled = Some u -> u ∈ settled -> (forall v, v ∈ vs -> arc u v) ->
  exists s', relax_all weight u s vs = Ok s' /\
    inv s' settled (fun x y => E x y \/ (x = u /\ y ∈ vs)) /\
    visited s' = visited s /\ (length (pq s') <= length vs + length (pq s))%nat.
Proof.
  intros H HE Hhd Hu Hvs. revert s E H HE. induction vs as [|v vs IH]; intros s E H HE; simpl.
  - exists s. split; [done|]. split; [|split; [done|lia]].
    eapply inv_weaken; [|exact H]. intros x y [?|[_ ?%elem_of_nil]]; done.
  - destruct (relax_inv s settled u v E) as (s1 & -> & H1 & Hv1 & Hl1); auto.
    { apply Hvs. by left. }
    simpl. destruct (IH ltac:(intros; apply Hvs; by right) s1 _ H1) as (s' & -> & H' & Hv' & Hl').
    { intros x y [?|[-> ->]]; eauto. }
    exists s'. split; [done|]. split; [|split; [congruence|lia]].
    eapply inv_weaken; [|exact H']. intros x y [?|[-> Hy]]; [tauto|].
    apply elem_of_cons in Hy as [->|]; tauto.
Qed.

(** *** Popping an entry *)

Lemma pop_inv s settled d u rest :
  inv s settled (all_arcs settled) -> pop_min (pq s) = Some ((d, u), rest) ->
  pq s ≡ₚ (d, u) :: rest /\ 0 <= u < N /\ fval (D s u) <= fval d < vinf /\
  (forall e, e ∈ pq s -> fval d <= fval e.1) /\
  (forall x, x ∈ settled -> fval (D s x) <= fval d).
Proof.
  intros H Hp. pose proof (pop_min_perm _ _ _ Hp) as Hperm.
  assert (Hin : (d, u) ∈ pq s) by (rewrite Hperm; by left).
  pose proof (inv_pq_ok _ _ _ H) as Hok.
  pose proof (proj1 (Forall_forall _ _) Hok _ Hin) as (_ & ? & ?).
  split; [done|]. split; [done|]. split; [done|]. split.
  - apply pop_min_least in Hp.
    + intros e He. exact (proj1 (Forall_forall _ _) Hp _ He).
    + eapply Forall_impl; [exact Hok|]. by intros e [? _].
  - intros x Hx. apply (inv_pq_order _ _ _ H x (d, u) Hx Hin).
Qed.

(** An entry of a settled edge is stale. *)
Lemma skip_inv s settled d u rest :
  inv s settled (all_arcs settled) -> pop_min (pq s) = Some ((d, u), rest) -> u ∈ settled ->
  inv (Search (dist s) (prev s) (visited s) rest) settled (all_arcs settled).
Proof.
  intros H Hp Hu. destruct (pop_inv _ _ _ _ _ H Hp) as (Hperm & _ & _ & _).
  destruct H as [Hds Hps Hvs Hdo Hst Hnd Hs0 Hsp Hpo Hpc Hpord Hop Hre Hpr Hpro Hfin Hmax].
  split; simpl; try done.
  - rewrite Hperm in Hpo. by apply Forall_cons in Hpo as [_ ?].
  - intros v Hv Hvs' Hf. specialize (Hpc v Hv Hvs' Hf). rewrite Hperm in Hpc.
    apply elem_of_cons in Hpc as [E|]; [|done]. by simplify_eq.
  - intros x e Hx He. apply Hpord; [done|]. rewrite Hperm. by right.
Qed.

Lemma settle_inv s settled d u rest vis' :
  inv s settled (all_arcs settled) -> pop_min (pq s) = Some ((d, u), rest) -> u ∉ settled ->
  vset (visited s) u true = Some vis' ->
  inv (Search (dist s) (prev s) vis' rest) (u :: settled) (all_arcs settled).
Proof.
  intros H Hp Hu Hvis. destruct (pop_inv _ _ _ _ _ H Hp) as (Hperm & Hur & HD & Hleast & Hset).
  assert (Hin : forall y, 0 <= y < N -> y ∉ settled -> fval d <= fval (D s y)).
  { intros y Hy Hys. destruct (Z_lt_le_dec (fval (D s y)) vinf) as [Hf|]; [|lia].
    apply (Hleast (D s y, y)). by apply (inv_pq_complete _ _ _ H). }
  assert (Hmin : forall q c, walk q u c -> fval (D s u) <= fval c).
  { intros q c. eapply least_is_optimal; eauto. intros y Hy Hys. specialize (Hin y Hy Hys). lia. }
  specialize (Hin u Hur Hu).
  destruct H as [Hds Hps Hvs Hdo Hst Hnd Hs0 Hsp Hpo Hpc Hpord Hop Hre Hpr Hpro Hfin Hmax].
  split; simpl; try done.
  - by rewrite (vset_size _ _ _ _ Hvis).
  - intros v. rewrite (vget_vset _ _ _ _ _ Hvis), elem_of_cons, <- Hst.
    case_decide; subst; [tauto|]. split; [tauto|]. intros [?|?]; congruence.
  - by constructor.
  - rewrite Hperm in Hpo. by apply Forall_cons in Hpo as [_ ?].
  - intros v Hv [Hvu Hvs']%not_elem_of_cons Hf. specialize (Hpc v Hv Hvs' Hf).
    rewrite Hperm in Hpc. apply elem_of_cons in Hpc as [E|]; [|done]. simplify_eq.
  - intros x e Hx He. assert (He' : e ∈ pq s) by (rewrite Hperm; by right).
    apply elem_of_cons in Hx as [->|Hx]; [|by apply Hpord].
    specialize (Hleast e He'). unfold D in *. simpl. lia.
  - intros x q c [->|Hx]%elem_of_cons Hw; [by eapply Hmin|]. by eapply Hop.
  - intros v Hv Hvs' Hf. destruct (Hpr v Hv Hvs' Hf) as (u' & ? & ? & ? & ?).
    exists u'. split; [done|]. split; [by right|]. done.
  - intros v l1 l2 E Hvs'. destruct l1 as [|x l1]; simplify_eq/=.
    + destruct (Hpr v) as (u' & ? & ? & _); [done..| |eauto]. lia.
    + eauto.
  - intros v [->|Hv]%elem_of_cons; [|by apply Hfin]. unfold D in *. simpl. lia.
  - intros x u' [= <-] [->|Hx]%elem_of_cons; [done|]. specialize (Hset x Hx).
    unfold D in *. simpl. lia.
Qed.
(** *** Termination: what is still to be popped *)

(** The adjacency entries of the edges not settled yet. *)
Fixpoint pending (vis : list bool) (adj : list (list Z)) : nat :=
  match vis, adj with
  | b :: vis, a :: adj => (if b : bool then 0 else length a) + pending vis adj
  | _, _ => 0
  end.

Lemma pending_settle vis adj i a :
  vis !! i = Some false -> adj !! i = Some a ->
  pending vis adj = (length a + pending (<[i := true]> vis) adj)%nat.
Proof.
  revert adj i. induction vis as [|b vis IH]; intros adj i; [done|].
  destruct adj as [|a' adj]; [done|]. destruct i as [|i]; simpl; intros.
  - simplify_eq. lia.
  - rewrite (IH adj i); [lia|done..].
Qed.

Lemma pending_initial n adj :
  (pending (replicate n false) adj <= sum_list_with length adj)%nat.
Proof. revert n. induction adj; intros [|n]; simpl; try lia. specialize (IHadj n). lia. Qed.

Definition finished (dst : Z) (s : search) (settled : list Z) : Prop :=
  (exists E, inv s settled E) /\
  (dst ∈ settled \/ ((dst ∉ settled) /\ forall y, 0 <= y < N -> y ∉ settled -> vinf <= fval (D s y))) /\
  forall q c, walk q dst c -> fval (D s dst) <= fval c.

Lemma drained_finished dst s settled :
  0 <= dst < N -> inv s settled (all_arcs settled) -> dst ∉ settled ->
  pop_min (pq s) = None -> finished dst s settled.
Proof.
  intros Hdst H Hd Hq%pop_min_None.
  assert (Hinf : forall y, 0 <= y < N -> y ∉ settled -> vinf <= fval (D s y)).
  { intros y Hy Hys. destruct (Z_lt_le_dec (fval (D s y)) vinf) as [Hf|]; [|done].
    pose proof (inv_pq_complete _ _ _ H y Hy Hys Hf) as He. rewrite Hq in He.
    by apply elem_of_nil in He. }
  split; [eauto|]. split; [by right|].
  intros q c. eapply least_is_optimal; eauto. intros y Hy Hys.
  etransitivity; [|by apply Hinf]. apply fval_le_inf, fnonneg_valid. by eapply D_nonneg.
Qed.

Lemma search_loop_finishes dst fuel s settled :
  0 <= dst < N -> inv s settled (all_arcs settled) -> dst ∉ settled ->
  (length (pq s) + pending (visited s) adjacency <= fuel)%nat ->
  exists s' settled', search_loop adjacency weight fuel dst s = Ok s' /\
    finished dst s' settled'.
Proof.
  intros Hdst. revert s settled. induction fuel as [|fuel IH]; intros s settled H Hd Hfuel;
    simpl; destruct (pop_min (pq s)) as [[[d u] rest]|] eqn:Hp.
  - apply pop_min_perm, Permutation_length in Hp. simpl in Hp. lia.
  - exists s, settled. split; [done|]. by apply drained_finished.
  - destruct (pop_inv _ _ _ _ _ H Hp) as (Hperm & Hur & _).
    apply Permutation_length in Hperm. simpl in Hperm.
    destruct (vget_is_Some (visited s) u) as [seen Hseen].
    { by rewrite (inv_vis_size _ _ _ H). }
    rewrite Hseen. cbn [of_option rbind]. destruct seen.
    { apply (inv_settled _ _ _ H) in Hseen as Hu.
      apply (IH _ settled); [by apply skip_inv with d u|done|]. simpl. lia. }
    assert (Hu : u ∉ settled) by (rewrite <- (inv_settled _ _ _ H), Hseen; done).
    destruct (vset_is_Some (visited s) u true) as [vis' Hvis].
    { by rewrite (inv_vis_size _ _ _ H). }
    rewrite Hvis. cbn [of_option rbind].
    pose proof (settle_inv _ _ _ _ _ _ H Hp Hu Hvis) as H1.
    destruct (Z.eqb_spec u dst) as [->|Hne].
    { eexists _, (dst :: settled). split; [done|]. split; [eauto|]. split; [left; by left|].
      intros q c. eapply inv_optimal; [exact H1|by left]. }
    destruct (vget_is_Some adjacency u) as [nb Hnb]; [lia|].
    rewrite Hnb. cbn [of_option rbind].
    destruct (relax_all_inv _ _ u nb _ H1) as (s2 & -> & H2 & Hv2 & Hl2); simpl; try done.
    { intros x y [? _]. by right. }
    { by left. }
    { intros v Hv. by exists nb. }
    apply (IH s2 (u :: settled)).
    + eapply inv_weaken; [|exact H2]. intros x y [[->|Hx]%elem_of_cons (nb' & ? & ?)].
      * right. split; [done|]. congruence.
      * left. split; [done|]. by exists nb'.
    + rewrite not_elem_of_cons. split; [congruence|done].
    + rewrite Hv2. simpl. pose proof (vset_inv _ _ _ _ Hvis) as [_ ->].
      unfold vget in Hseen, Hnb. rewrite (proj2 (Z.leb_le 0 u)) in Hseen, Hnb by lia.
      rewrite (pending_settle _ _ _ _ Hseen Hnb) in Hfuel.
      simpl in Hl2. lia.
  - exists s, settled. split; [done|]. by apply drained_finished.
Qed.

(** *** The chain of predecessors *)

Lemma settled_length s settled E : inv s settled E -> (length settled <= Z.to_nat N)%nat.
Proof.
  intros H. rewrite <- (length_seqZ 0 N). apply submseteq_length, NoDup_submseteq.
  - apply H.
  - intros v Hv. apply elem_of_seqZ. pose proof (settled_range _ _ _ _ H Hv). lia.
Qed.

Lemma backtrack_walk s settled E fuel v l1 l2 :
  inv s settled E -> settled = l1 ++ v :: l2 -> (S (length l2) < fuel)%nat ->
  exists q, backtrack fuel (prev s) v = Ok q /\ walk q v (D s v) /\
    NoDup q /\ (forall x, x ∈ q -> x ∈ v :: l2).
Proof.
  intros H. revert v l1 l2. induction fuel as [|fuel IH]; intros v l1 l2 Hs Hf; [lia|].
  assert (Hv : v ∈ settled) by (subst; apply elem_of_app; right; by left).
  assert (Hr := settled_range _ _ _ _ H Hv). simpl.
  rewrite (proj2 (Z.eqb_neq v (-1))) by lia.
  destruct (Z.eq_dec v src) as [->|Hne].
  { rewrite (inv_src_prev _ _ _ H). cbn [of_option rbind].
    destruct fuel as [|fuel]; [lia|]. simpl. exists [src].
    split; [done|]. rewrite (inv_src _ _ _ H). split; [constructor|].
    split; [apply NoDup_singleton|]. intros x ->%list_elem_of_singleton. by left. }
  destruct (inv_prev_order _ _ _ H v l1 l2 Hs Hne) as (u & Hu & Hul).
  destruct (inv_prev _ _ _ H v Hr Hne (inv_settled_finite _ _ _ H v Hv))
    as (u' & Hu' & _ & Ha & HD).
  assert (u' = u) as -> by congruence. rewrite Hu. cbn [of_option rbind].
  apply list_elem_of_split in Hul as (a & b & ->).
  destruct (IH u (l1 ++ v :: a) b) as (q & -> & Hq & Hnd & Hsub).
  { rewrite Hs. by rewrite <- app_assoc. }
  { rewrite length_app in Hf. simpl in Hf. lia. }
  simpl. exists (v :: q). split; [done|]. split; [rewrite HD; by apply walk_step with u|].
  pose proof (inv_nodup _ _ _ H) as Hns. rewrite Hs in Hns.
  apply NoDup_app in Hns as (_ & _ & Hns). apply NoDup_cons in Hns as [Hnv _].
  split.
  - constructor; [|done]. intros Hq'. apply Hnv, elem_of_app. right. by apply Hsub.
  - intros x [->|Hx]%elem_of_cons; [by left|]. right. apply elem_of_app. right. by apply Hsub.
Qed.

Definition initial_search : search :=
  Search (<[Z.to_nat src := f0]> (replicate (Z.to_nat N) finf)) (replicate (Z.to_nat N) (-1))
    (replicate (Z.to_nat N) false) [(f0, src)].

Lemma initial_inv : inv initial_search [] (all_arcs []).
Proof.
  assert (HD : forall v, D initial_search v = if decide (v = src) then f0 else finf).
  { intros v. unfold D, initial_search, vget. cbn [dist].
    destruct (Z.leb_spec 0 v); case_decide; subst; try lia; simpl; try done.
    - rewrite list_lookup_insert_eq; [done|]. rewrite length_replicate. lia.
    - rewrite list_lookup_insert_ne by lia.
      destruct (replicate _ _ !! _) eqn:E; [|done].
      by apply lookup_replicate in E as [-> _]. }
  split; simpl; rewrite ?length_insert, ?length_replicate; try lia; try done.
  - apply Forall_insert; [|done]. apply Forall_replicate. done.
  - intros v. rewrite elem_of_nil. split; [|done]. by intros ?%vget_replicate.
  - constructor.
  - by rewrite HD, decide_True.
  - destruct (vget_is_Some (replicate (Z.to_nat N) (-1)) src) as [x Hx].
    + rewrite length_replicate. lia.
    + rewrite Hx. by apply vget_replicate in Hx as ->.
  - constructor; [|done]. simpl. rewrite HD, decide_True by done. pose proof vinf_pos.
    split; [done|]. split; [done|]. simpl. lia.
  - intros v Hv _. rewrite HD. case_decide; subst; [intros; by left|]. intros Hf. simpl in Hf. lia.
  - intros x e Hx. by apply elem_of_nil in Hx.
  - intros x q c Hx. by apply elem_of_nil in Hx.
  - intros x v [Hx _]. by apply elem_of_nil in Hx.
  - intros v Hv Hne. rewrite HD, decide_False by done. intros Hf. simpl in Hf. lia.
  - intros v l1 l2 E. by destruct l1.
  - intros v Hv. by apply elem_of_nil in Hv.
Qed.
(** *** The whole search *)

(** The route is a simple path from the source to the destination that no route
    beats; the empty route is returned only when every route has infinite cost. *)
Lemma dijkstra_spec dst :
  0 <= dst < N ->
  exists p, dijkstra N adjacency weight src dst = Ok p /\
    (forall q, route_from_to adjacency src q dst ->
       p = [] /\ fval (route_cost w q) = vinf \/
       p <> [] /\ fval (route_cost w p) <= fval (route_cost w q)) /\
    (p <> [] -> route_from_to adjacency src p dst /\ NoDup p /\
                fval (route_cost w p) < vinf).
Proof.
  intros Hdst. unfold dijkstra.
  assert (vset (replicate (Z.to_nat N) finf) src f0 = Some (dist initial_search)) as ->.
  { unfold vset, initial_search. rewrite length_replicate.
    rewrite (proj2 (Z.leb_le 0 src)), (proj2 (Z.ltb_lt src _)) by lia. done. }
  cbn [of_option rbind]. fold initial_search.
  destruct (search_loop_finishes dst (search_fuel adjacency) initial_search [])
    as (s & settled & Hs & (E & H) & Hor & Hopt); [done|apply initial_inv|apply not_elem_of_nil| |].
  { simpl. unfold search_fuel. pose proof (pending_initial (Z.to_nat N) adjacency). lia. }
  change (Search (dist initial_search) _ _ _) with initial_search. rewrite Hs. cbn [rbind].
  rewrite (D_get _ _ _ dst H Hdst). cbn [of_option rbind].
  assert (HD := D_nonneg _ _ _ dst H).
  assert (Hfeq : feqb (D s dst) finf = bool_decide (vinf <= fval (D s dst))).
  { rewrite feqb_val by done. assert (fval (D s dst) <= vinf)
      by (apply fval_le_inf; auto with cpp). cbn [fval finf].
    destruct (Z.eqb_spec (fval (D s dst)) vinf); symmetry;
      [apply bool_decide_eq_true|apply bool_decide_eq_false]; lia. }
  rewrite Hfeq. case_bool_decide as Hinf.
  - exists []. split; [done|]. split; [|done]. intros q Hq. left. split; [done|].
    apply walk_of_route with (w := w) in Hq as Hw. specialize (Hopt _ _ Hw).
    apply walk_cost_nonneg in Hw as Hc. pose proof (fval_le_inf _ (fnonneg_valid _ Hc)). lia.
  - destruct Hor as [Hd|[Hd Hu]]; [|specialize (Hu dst Hdst Hd); lia].
    apply list_elem_of_split in Hd as (l1 & l2 & ->).
    pose proof (settled_length _ _ _ H) as Hlen. rewrite length_app in Hlen. simpl in Hlen.
    destruct (backtrack_walk s _ E (path_fuel N) dst l1 l2 H eq_refl) as (q & -> & Hq & Hnd & _).
    { unfold path_fuel. lia. }
    simpl. exists (rev q). split; [done|].
    pose proof (walk_cost _ _ _ _ _ _ Hq) as Hc. split.
    + intros q' Hq'. right. split.
      { intros Hr%(f_equal (@rev Z)). rewrite rev_involutive in Hr. by destruct Hq. }
      apply walk_of_route with (w := w) in Hq'. specialize (Hopt _ _ Hq'). by rewrite <- Hc.
    + intros _. split; [|split].
      * apply (walk_of_route _ w). by rewrite rev_involutive, <- Hc.
      * by rewrite <- Permutation_rev.
      * rewrite <- Hc. lia.
Qed.
End Correctness.
