(* ===== verification/MemoryStream.v ===== *)
(** * Byte streams of the packet serializers

    [inet::MemoryOutputStream] and [inet::MemoryInputStream]
    (src/inet/src/inet/common/): the byte and big-endian word operations the
    traffic message serializers use, with the bit position kept as the code keeps
    it.  Reading back what was written gives the value modulo the word size. *)

From S2P Require Import Prelude.

(** [data] holds the bytes, [length] the number of bits. *)
Record MemoryOutputStream := OStream { o_data : list Z; o_length : Z }.

Record MemoryInputStream := IStream {
  i_data : list Z;
  i_length : Z;
  i_position : Z;
  i_isReadBeyondEnd : bool
}.

Definition empty_ostream : MemoryOutputStream := OStream [] 0.
Definition istream_of (data : list Z) : MemoryInputStream :=
  IStream data (8 * vsize data) 0 false.

(** ** Writing *)

Definition o_isByteAligned (s : MemoryOutputStream) : bool := o_length s mod 8 =? 0.

Definition writeByte (s : MemoryOutputStream) (value : Z) : MemoryOutputStream :=
  if o_isByteAligned s then
    OStream (o_data s ++ [uint8 value]) (o_length s + 8)
  else
    let l1 := o_length s mod 8 in
    let l2 := 8 - l1 in
    let back := default 0 (last (o_data s)) in
    let back' := uint8 (Z.lor back (Z.shiftr (Z.land (uint8 value) (Z.shiftl 255 l2)) l2)) in
    let next := uint8 (Z.shiftl (Z.land (uint8 value) (Z.shiftr 255 l1)) l1) in
    OStream (removelast (o_data s) ++ [back'; next]) (o_length s + 8).

Definition writeUint16Be (s : MemoryOutputStream) (value : Z) : MemoryOutputStream :=
  let s := writeByte s (uint8 (Z.shiftr value 8)) in
  writeByte s (uint8 (Z.shiftr value 0)).

Definition writeUint32Be (s : MemoryOutputStream) (value : Z) : MemoryOutputStream :=
  let s := writeByte s (uint8 (Z.shiftr value 24)) in
  let s := writeByte s (uint8 (Z.shiftr value 16)) in
  let s := writeByte s (uint8 (Z.shiftr value 8)) in
  writeByte s (uint8 (Z.shiftr value 0)).

Definition writeUint64Be (s : MemoryOutputStream) (value : Z) : MemoryOutputStream :=
  let s := writeByte s (uint8 (Z.shiftr value 56)) in
  let s := writeByte s (uint8 (Z.shiftr value 48)) in
  let s := writeByte s (uint8 (Z.shiftr value 40)) in
  let s := writeByte s (uint8 (Z.shiftr value 32)) in
  let s := writeByte s (uint8 (Z.shiftr value 24)) in
  let s := writeByte s (uint8 (Z.shiftr value 16)) in
  let s := writeByte s (uint8 (Z.shiftr value 8)) in
  writeByte s (uint8 (Z.shiftr value 0)).

(** ** Reading *)

Definition i_isByteAligned (s : MemoryInputStream) : bool := i_position s mod 8 =? 0.

Definition readByte (s : MemoryInputStream) : result (Z * MemoryInputStream) :=
  if i_length s <? i_position s + 8 then
    Ok (0, IStream (i_data s) (i_length s) (i_length s) true)
  else
    let! r :=
      (if i_isByteAligned s then of_option (vget (i_data s) (i_position s / 8))
       else
         let l1 := i_position s mod 8 in
         let l2 := 8 - l1 in
         let! a := of_option (vget (i_data s) ((i_position s - l1) / 8)) in
         let! b := of_option (vget (i_data s) ((i_position s + l2) / 8)) in
         Ok (uint8 (Z.lor (uint8 (Z.shiftl a l1)) (Z.shiftr b l2)))) in
    Ok (r, IStream (i_data s) (i_length s) (i_position s + 8) (i_isReadBeyondEnd s)).

(** [value |= static_cast<uintN_t>(readByte()) << shift], for each shift in turn. *)
Fixpoint read_shifts (s : MemoryInputStream) (value : Z) (shifts : list Z)
    : result (Z * MemoryInputStream) :=
  match shifts with
  | [] => Ok (value, s)
  | sh :: shifts' =>
      let! (b, s') := readByte s in
      read_shifts s' (Z.lor value (Z.shiftl b sh)) shifts'
  end.

Definition readUint16Be (s : MemoryInputStream) : result (Z * MemoryInputStream) :=
  read_shifts s 0 [8; 0].

Definition readUint32Be (s : MemoryInputStream) : result (Z * MemoryInputStream) :=
  read_shifts s 0 [24; 16; 8; 0].

Definition readUint64Be (s : MemoryInputStream) : result (Z * MemoryInputStream) :=
  read_shifts s 0 [56; 48; 40; 32; 24; 16; 8; 0].

(** ** Byte-aligned streams *)

Definition o_aligned (s : MemoryOutputStream) : Prop := o_length s = 8 * vsize (o_data s).

(** The big-endian bytes of [v] at the given shifts. *)
Definition be_bytes (shifts : list Z) (v : Z) : list Z :=
  map (fun sh => uint8 (Z.shiftr v sh)) shifts.

Definition append (s : MemoryOutputStream) (bs : list Z) : MemoryOutputStream :=
  OStream (o_data s ++ bs) (o_length s + 8 * vsize bs).

Lemma append_aligned s bs : o_aligned s -> o_aligned (append s bs).
Proof. unfold o_aligned, append. simpl. rewrite length_app. lia. Qed.

Lemma append_append s a b : append (append s a) b = append s (a ++ b).
Proof. unfold append. simpl. rewrite length_app, <- app_assoc. f_equal. lia. Qed.

Lemma writeByte_aligned s v : o_aligned s -> writeByte s v = append s [uint8 v].
Proof.
  unfold o_aligned, writeByte, o_isByteAligned, append. intros ->.
  rewrite (Z.mul_comm 8), Z.mod_mul by lia. simpl. f_equal.
Qed.

Lemma writeByte_keeps_aligned s v : o_aligned s -> o_aligned (writeByte s v).
Proof. intros. rewrite writeByte_aligned by done. by apply append_aligned. Qed.

Lemma wrap_wrap w z : 0 <= w -> wrap w (wrap w z) = wrap w z.
Proof. intros. apply Z.mod_mod. apply Z.pow_nonzero; lia. Qed.

Lemma writeUint16Be_aligned s v :
  o_aligned s -> writeUint16Be s v = append s (be_bytes [8; 0] v).
Proof.
  intros. unfold writeUint16Be.
  rewrite !writeByte_aligned by (repeat apply writeByte_keeps_aligned; auto).
  by rewrite !append_append, !wrap_wrap by lia.
Qed.

Lemma writeUint32Be_aligned s v :
  o_aligned s -> writeUint32Be s v = append s (be_bytes [24; 16; 8; 0] v).
Proof.
  intros. unfold writeUint32Be.
  rewrite !writeByte_aligned by (repeat apply writeByte_keeps_aligned; auto).
  by rewrite !append_append, !wrap_wrap by lia.
Qed.

Lemma writeUint64Be_aligned s v :
  o_aligned s -> writeUint64Be s v = append s (be_bytes [56; 48; 40; 32; 24; 16; 8; 0] v).
Proof.
  intros. unfold writeUint64Be.
  rewrite !writeByte_aligned by (repeat apply writeByte_keeps_aligned; auto).
  by rewrite !append_append, !wrap_wrap by lia.
Qed.

(** An input stream whose unread bytes are [rest]. *)
Definition i_reads (s : MemoryInputStream) (rest : list Z) : Prop :=
  exists pre, i_data s = pre ++ rest /\ i_length s = 8 * vsize (i_data s) /\
              i_position s = 8 * vsize pre.

Lemma istream_of_reads data : i_reads (istream_of data) data.
Proof. by exists []. Qed.

Lemma readByte_reads s b rest :
  i_reads s (b :: rest) ->
  exists s', readByte s = Ok (b, s') /\ i_reads s' rest /\
             i_isReadBeyondEnd s' = i_isReadBeyondEnd s.
Proof.
  intros (pre & Hd & Hl & Hp). unfold readByte.
  rewrite Hd, length_app in Hl. simpl in Hl. rewrite Hl, Hp.
  case (Z.ltb_spec); [lia|]. intros _. unfold i_isByteAligned. rewrite Hp.
  rewrite (Z.mul_comm 8), Z.mod_mul, Z.div_mul, Hd by lia. simpl.
  unfold vget. rewrite (proj2 (Z.leb_le 0 _)) by lia.
  rewrite Nat2Z.id, lookup_app_r, Nat.sub_diag by done. simpl.
  eexists. split; [done|]. split; [|done]. exists (pre ++ [b]). simpl.
  rewrite <- app_assoc, !length_app. simpl. split; [done|]. lia.
Qed.

Lemma read_shifts_reads s acc shifts v rest :
  i_reads s (be_bytes shifts v ++ rest) ->
  exists s', read_shifts s acc shifts =
      Ok (fold_left (fun a sh => Z.lor a (Z.shiftl (uint8 (Z.shiftr v sh)) sh)) shifts acc, s') /\
    i_reads s' rest /\ i_isReadBeyondEnd s' = i_isReadBeyondEnd s.
Proof.
  revert s acc. induction shifts as [|sh shifts IH]; intros s acc Hs; simpl; [by exists s|].
  destruct (readByte_reads _ _ _ Hs) as (s1 & -> & H1 & E1). simpl.
  destruct (IH s1 (Z.lor acc (Z.shiftl (uint8 (Z.shiftr v sh)) sh)) H1) as (s' & -> & H' & E').
  exists s'. split; [done|]. split; [done|congruence].
Qed.

(** The byte at shift [sh] contributes bits [sh .. sh+7] of [v]. *)
Lemma byte_bits v sh n :
  0 <= sh -> 0 <= n ->
  Z.testbit (Z.shiftl (uint8 (Z.shiftr v sh)) sh) n =
  (sh <=? n) && (n <? sh + 8) && Z.testbit v n.
Proof.
  intros. rewrite Z.shiftl_spec by done. unfold wrap.
  destruct (Z.leb_spec sh n); simpl.
  - destruct (Z.ltb_spec n (sh + 8)); simpl.
    + rewrite Z.mod_pow2_bits_low, Z.shiftr_spec by lia. f_equal. lia.
    + by rewrite Z.mod_pow2_bits_high by lia.
  - apply Z.testbit_neg_r. lia.
Qed.

Lemma wrap_bits w v n :
  0 <= w -> 0 <= n -> Z.testbit (wrap w v) n = (n <? w) && Z.testbit v n.
Proof.
  intros. unfold wrap. destruct (Z.ltb_spec n w); simpl.
  - by apply Z.mod_pow2_bits_low.
  - apply Z.mod_pow2_bits_high. lia.
Qed.

Lemma join32 v :
  fold_left (fun a sh => Z.lor a (Z.shiftl (uint8 (Z.shiftr v sh)) sh)) [24; 16; 8; 0] 0
  = uint32 v.
Proof.
  apply Z.bits_inj'. intros n Hn. cbn [fold_left].
  rewrite !Z.lor_spec, !byte_bits, wrap_bits, Z.bits_0 by lia.
  destruct (Z.testbit v n); lia.
Qed.

Lemma join64 v :
  fold_left (fun a sh => Z.lor a (Z.shiftl (uint8 (Z.shiftr v sh)) sh))
    [56; 48; 40; 32; 24; 16; 8; 0] 0 = uint64 v.
Proof.
  apply Z.bits_inj'. intros n Hn. cbn [fold_left].
  rewrite !Z.lor_spec, !byte_bits, wrap_bits, Z.bits_0 by lia.
  destruct (Z.testbit v n); lia.
Qed.

Lemma readUint32Be_reads s v rest :
  i_reads s (be_bytes [24; 16; 8; 0] v ++ rest) ->
  exists s', readUint32Be s = Ok (uint32 v, s') /\ i_reads s' rest /\
             i_isReadBeyondEnd s' = i_isReadBeyondEnd s.
Proof. intros H. rewrite <- join32. by apply read_shifts_reads. Qed.

Lemma readUint64Be_reads s v rest :
  i_reads s (be_bytes [56; 48; 40; 32; 24; 16; 8; 0] v ++ rest) ->
  exists s', readUint64Be s = Ok (uint64 v, s') /\ i_reads s' rest /\
             i_isReadBeyondEnd s' = i_isReadBeyondEnd s.
Proof. intros H. rewrite <- join64. by apply read_shifts_reads. Qed.

Lemma join16 v :
  fold_left (fun a sh => Z.lor a (Z.shiftl (uint8 (Z.shiftr v sh)) sh)) [8; 0] 0 = wrap 16 v.
Proof.
  apply Z.bits_inj'. intros n Hn. cbn [fold_left].
  rewrite !Z.lor_spec, !byte_bits, wrap_bits, Z.bits_0 by lia.
  destruct (Z.testbit v n); lia.
Qed.

Lemma readUint16Be_reads s v rest :
  i_reads s (be_bytes [8; 0] v ++ rest) ->
  exists s', readUint16Be s = Ok (wrap 16 v, s') /\ i_reads s' rest /\
             i_isReadBeyondEnd s' = i_isReadBeyondEnd s.
Proof. intros H. rewrite <- join16. by apply read_shifts_reads. Qed.

(** ** Whatever is read fits its type *)

Definition i_bytes (s : MemoryInputStream) : Prop := Forall (is_uint 8) (i_data s).

Lemma lor_uint w a b : 0 <= w -> is_uint w a -> is_uint w b -> is_uint w (Z.lor a b).
Proof.
  intros Hw Ha Hb. rewrite <- (wrap_small w a), <- (wrap_small w b) by done.
  replace (Z.lor (wrap w a) (wrap w b)) with (wrap w (Z.lor a b)); [by apply wrap_range|].
  apply Z.bits_inj'. intros n Hn. rewrite Z.lor_spec, !wrap_bits, Z.lor_spec by done.
  by destruct (n <? w).
Qed.

Lemma shiftl_uint w b sh : 0 <= sh -> sh + 8 <= w -> is_uint 8 b -> is_uint w (Z.shiftl b sh).
Proof.
  intros Hsh Hw [H1 H2]. rewrite Z.shiftl_mul_pow2 by done. unfold is_uint.
  assert (2 ^ (sh + 8) <= 2 ^ w) by (apply Z.pow_le_mono_r; lia). rewrite Z.pow_add_r in * by lia.
  pose proof (Z.pow_pos_nonneg 2 sh). nia.
Qed.

Lemma readByte_range s b s' :
  i_bytes s -> readByte s = Ok (b, s') -> is_uint 8 b /\ i_bytes s'.
Proof.
  intros Hs. unfold readByte. destruct (_ <? _); [intros [= <- <-]; split; [done|exact Hs]|].
  destruct (i_isByteAligned s); intros (r & Hr & [= -> <-])%rbind_Ok_inv; (split; [|exact Hs]).
  - destruct (vget (i_data s) (i_position s / 8)) as [x|] eqn:E; [|done]. injection Hr as <-.
    by eapply vget_Forall.
  - apply rbind_Ok_inv in Hr as (a & _ & Hr). apply rbind_Ok_inv in Hr as (c & _ & [= <-]). by apply wrap_range.
Qed.

Lemma read_shifts_range w s acc shifts v s' :
  0 <= w -> Forall (fun sh => 0 <= sh /\ sh + 8 <= w) shifts -> i_bytes s -> is_uint w acc ->
  read_shifts s acc shifts = Ok (v, s') -> is_uint w v /\ i_bytes s'.
Proof.
  intros Hw Hsh. revert s acc. induction Hsh as [|sh shifts [H1 H2] _ IH]; intros s acc Hs Ha; cbn [read_shifts].
  - by intros [= <- <-].
  - intros ([b s1] & Hb & Hr)%rbind_Ok_inv. destruct (readByte_range _ _ _ Hs Hb) as [Hb' Hs1].
    apply (IH s1 _ Hs1) in Hr; [done|]. apply lor_uint; [done..|]. by apply shiftl_uint.
Qed.

Lemma readUint16Be_range s v s' : i_bytes s -> readUint16Be s = Ok (v, s') -> is_uint 16 v /\ i_bytes s'.
Proof. intros Hs. apply read_shifts_range; [lia|repeat constructor; lia|done|split; lia]. Qed.

Lemma readUint32Be_range s v s' : i_bytes s -> readUint32Be s = Ok (v, s') -> is_uint 32 v /\ i_bytes s'.
Proof. intros Hs. apply read_shifts_range; [lia|repeat constructor; lia|done|split; lia]. Qed.

(** ** What was read is what was there

    A reader that did not run past the end consumed the bytes of the value it returned. *)

Lemma readByte_consumes s rest b s' :
  i_reads s rest -> readByte s = Ok (b, s') ->
  exists rest', i_reads s' rest' /\
    (i_isReadBeyondEnd s' = false -> i_isReadBeyondEnd s = false /\ rest = b :: rest').
Proof.
  intros Hs Hb. destruct rest as [|c rest].
  - destruct Hs as (pre & Hd & Hl & Hp). rewrite app_nil_r in Hd. unfold readByte in Hb.
    rewrite (proj2 (Z.ltb_lt _ _)) in Hb by (rewrite Hl, Hd; lia). injection Hb as <- <-.
    exists []. split; [|done]. exists pre. cbn. rewrite app_nil_r. split; [done|]. split; [done|]. by rewrite Hl, Hd.
  - destruct (readByte_reads _ _ _ Hs) as (s1 & E & H1 & E1). rewrite Hb in E. injection E as <- <-.
    exists rest. split; [done|]. intros E. split; [congruence|done].
Qed.

Lemma byte_high b m : is_uint 8 b -> m < 0 \/ 8 <= m -> Z.testbit b m = false.
Proof.
  intros Hb [Hm|Hm]; [by apply Z.testbit_neg_r|]. rewrite <- (wrap_small 8 b Hb), wrap_bits by lia.
  by rewrite (proj2 (Z.ltb_ge _ _)).
Qed.

(** Picks a byte out of a value joined from bytes. *)
Ltac pick_byte :=
  apply Z.bits_inj'; intros n Hn; rewrite wrap_bits, Z.shiftr_spec, !Z.lor_spec, !Z.shiftl_spec, Z.bits_0 by lia;
  destruct (Z.ltb_spec n 8); cbn [andb orb];
  repeat match goal with |- context [Z.testbit ?b (n + ?k)] => rewrite (byte_high b (n + k)) by (done || lia) end;
  repeat match goal with |- context [Z.testbit ?b (n + ?k - ?j)] =>
    first [rewrite (byte_high b (n + k - j)) by (done || lia)|replace (n + k - j) with n by lia] end;
  rewrite ?orb_false_r; cbn [orb]; rewrite ?orb_false_r; try reflexivity; symmetry; apply byte_high; (done || lia).

Lemma split32 a b c d :
  is_uint 8 a -> is_uint 8 b -> is_uint 8 c -> is_uint 8 d ->
  be_bytes [24; 16; 8; 0]
    (Z.lor (Z.lor (Z.lor (Z.lor 0 (Z.shiftl a 24)) (Z.shiftl b 16)) (Z.shiftl c 8)) (Z.shiftl d 0)) = [a; b; c; d].
Proof. intros Ha Hb Hc Hd. unfold be_bytes. cbn [map]. repeat f_equal; pick_byte. Qed.

Lemma split16 a b :
  is_uint 8 a -> is_uint 8 b -> be_bytes [8; 0] (Z.lor (Z.lor 0 (Z.shiftl a 8)) (Z.shiftl b 0)) = [a; b].
Proof. intros Ha Hb. unfold be_bytes. cbn [map]. repeat f_equal; pick_byte. Qed.

Lemma read_shifts_consumes shifts : forall s acc v rest s',
  i_bytes s -> i_reads s rest -> read_shifts s acc shifts = Ok (v, s') ->
  exists rest' bs, i_reads s' rest' /\ i_bytes s' /\ Forall (is_uint 8) bs /\ length bs = length shifts /\
    v = foldl (fun acc p => Z.lor acc (Z.shiftl p.1 p.2)) acc (zip bs shifts) /\
    (i_isReadBeyondEnd s' = false -> i_isReadBeyondEnd s = false /\ rest = bs ++ rest').
Proof.
  induction shifts as [|sh shifts IH]; intros s acc v rest s' Hi Hs; cbn [read_shifts].
  - intros [= <- <-]. by exists rest, [].
  - intros ([b s1] & Hb & Hr)%rbind_Ok_inv. destruct (readByte_range _ _ _ Hi Hb) as [Hb' Hi1].
    destruct (readByte_consumes _ _ _ _ Hs Hb) as (rest1 & H1 & E1).
    destruct (IH _ _ _ _ _ Hi1 H1 Hr) as (rest' & bs & H' & Hi' & Hf & Hl & -> & E').
    exists rest', (b :: bs). split_and!; try done; [by constructor|cbn; lia|].
    intros Hend. destruct (E' Hend) as [Ha ->]. destruct (E1 Ha) as [? ->]. done.
Qed.

Lemma readUint32Be_consumes s rest v s' :
  i_bytes s -> i_reads s rest -> readUint32Be s = Ok (v, s') ->
  exists rest', i_reads s' rest' /\ i_bytes s' /\
    (i_isReadBeyondEnd s' = false -> i_isReadBeyondEnd s = false /\ rest = be_bytes [24; 16; 8; 0] v ++ rest').
Proof.
  intros Hi Hs Hr. destruct (read_shifts_consumes _ _ _ _ _ _ Hi Hs Hr) as (rest' & bs & H' & Hi' & Hf & Hl & -> & E).
  exists rest'. split_and!; [done..|]. destruct bs as [|a [|b [|c [|d [|]]]]]; try done.
  apply Forall_cons in Hf as [Ha [Hb [Hc [Hd _]%Forall_cons]%Forall_cons]%Forall_cons].
  cbn [zip zip_with foldl fst snd] in *. by rewrite split32.
Qed.

Lemma readUint16Be_consumes s rest v s' :
  i_bytes s -> i_reads s rest -> readUint16Be s = Ok (v, s') ->
  exists rest', i_reads s' rest' /\ i_bytes s' /\
    (i_isReadBeyondEnd s' = false -> i_isReadBeyondEnd s = false /\ rest = be_bytes [8; 0] v ++ rest').
Proof.
  intros Hi Hs Hr. destruct (read_shifts_consumes _ _ _ _ _ _ Hi Hs Hr) as (rest' & bs & H' & Hi' & Hf & Hl & -> & E).
  exists rest'. split_and!; [done..|]. destruct bs as [|a [|b [|]]]; try done.
  apply Forall_cons in Hf as [Ha [Hb _]%Forall_cons]. cbn [zip zip_with foldl fst snd] in *. by rewrite split16.
Qed.
