(* ===== verification/TrafficMsg.v ===== *)
(** * The messages of the rerouting protocol and their wire format

    [VehicleReportMsg] and [ServerRouteMsg] (TrafficMsg.msg) with the serializers of
    src/simulte/src/apps/TrafficApp/TrafficMsgSerializer.cc: a report is 36 bytes, a
    route 260 bytes, and decoding an encoded message gives the message back. *)

From S2P Require Import Prelude Doubles MemoryStream.

Record VehicleReportMsg := {
  edgeIndex : Z;
  destEdgeIndex : Z;
  speed : float;
  timestamp : float;
  realTravelTime : float;
  laneChangeCount : Z;
  report_chunkLength : Z
}.

(** [routeEdges] is the 64-entry array of the message class. *)
Record ServerRouteMsg := {
  routeLength : Z;
  routeEdges : list Z;
  route_chunkLength : Z
}.

Definition ROUTE_SLOTS : Z := 64.

(** The generated setter of an array field checks its index. *)
Definition setRouteEdges (edges : list Z) (i v : Z) : result (list Z) :=
  match vset edges i v with
  | Some l => Ok l
  | None => Throw "Array of size 64 indexed by i"
  end.

Definition getRouteEdges (m : ServerRouteMsg) (i : Z) : result Z :=
  match vget (routeEdges m) i with
  | Some v => Ok v
  | None => Throw "Array of size 64 indexed by i"
  end.

(** ** A double as the 64 bits of its representation *)

Definition double_bits (x : float) : Z :=
  let sign (s : bool) := if s then 2 ^ 63 else 0 in
  match x with
  | S754_zero s => sign s
  | S754_infinity s => sign s + 2047 * 2 ^ 52
  | S754_nan => 2047 * 2 ^ 52 + 2 ^ 51
  | S754_finite s m e =>
      if Zpos m <? 2 ^ 52 then sign s + Zpos m
      else sign s + (e + 1075) * 2 ^ 52 + (Zpos m - 2 ^ 52)
  end.

Definition bits_double (b : Z) : float :=
  let s := 2 ^ 63 <=? b in
  let ex := (b / 2 ^ 52) mod 2 ^ 11 in
  let m := b mod 2 ^ 52 in
  if ex =? 2047 then (if m =? 0 then S754_infinity s else S754_nan)
  else if ex =? 0 then
    match m with Zpos p => S754_finite s p (-1074) | _ => S754_zero s end
  else
    match m + 2 ^ 52 with Zpos p => S754_finite s p (ex - 1075) | _ => S754_zero s end.

(** [memcpy] between a [double] and a [uint64_t]. *)
Definition writeDouble (stream : MemoryOutputStream) (val : float) : MemoryOutputStream :=
  writeUint64Be stream (double_bits val).

Definition readDouble (stream : MemoryInputStream) : result (float * MemoryInputStream) :=
  let! (bits, stream) := readUint64Be stream in
  Ok (bits_double bits, stream).

(** ** VehicleReportMsgSerializer *)

Definition serialize_report (stream : MemoryOutputStream) (msg : VehicleReportMsg)
    : MemoryOutputStream :=
  let stream := writeUint32Be stream (uint32 (edgeIndex msg)) in
  let stream := writeUint32Be stream (uint32 (destEdgeIndex msg)) in
  let stream := writeDouble stream (speed msg) in
  let stream := writeDouble stream (timestamp msg) in
  let stream := writeDouble stream (realTravelTime msg) in
  writeUint32Be stream (uint32 (laneChangeCount msg)).

Definition deserialize_report (stream : MemoryInputStream)
    : result (VehicleReportMsg * MemoryInputStream) :=
  let! (e, stream) := readUint32Be stream in
  let! (d, stream) := readUint32Be stream in
  let! (sp, stream) := readDouble stream in
  let! (ts, stream) := readDouble stream in
  let! (rt, stream) := readDouble stream in
  let! (lc, stream) := readUint32Be stream in
  Ok ({| edgeIndex := int32 e; destEdgeIndex := int32 d; speed := sp; timestamp := ts;
         realTravelTime := rt; laneChangeCount := int32 lc; report_chunkLength := 36 |},
      stream).

(** ** ServerRouteMsgSerializer *)

Fixpoint write_edges (stream : MemoryOutputStream) (msg : ServerRouteMsg) (idxs : list Z)
    : result MemoryOutputStream :=
  match idxs with
  | [] => Ok stream
  | i :: idxs' =>
      let! e := getRouteEdges msg i in
      write_edges (writeUint32Be stream (uint32 e)) msg idxs'
  end.

Definition serialize_route (stream : MemoryOutputStream) (msg : ServerRouteMsg)
    : result MemoryOutputStream :=
  let stream := writeUint32Be stream (uint32 (routeLength msg)) in
  write_edges stream msg (seqZ 0 ROUTE_SLOTS).

Fixpoint read_edges (stream : MemoryInputStream) (edges : list Z) (idxs : list Z)
    : result (list Z * MemoryInputStream) :=
  match idxs with
  | [] => Ok (edges, stream)
  | i :: idxs' =>
      let! (e, stream) := readUint32Be stream in
      let! edges := setRouteEdges edges i (int32 e) in
      read_edges stream edges idxs'
  end.

Definition deserialize_route (stream : MemoryInputStream)
    : result (ServerRouteMsg * MemoryInputStream) :=
  let! (len, stream) := readUint32Be stream in
  let! (edges, stream) := read_edges stream (replicate 64 0) (seqZ 0 ROUTE_SLOTS) in
  Ok ({| routeLength := int32 len; routeEdges := edges; route_chunkLength := 260 |}, stream).

(** ** Well-formed messages: the field types of the message classes *)

Record report_wf (m : VehicleReportMsg) : Prop := {
  wf_edge : is_sint 32 (edgeIndex m);
  wf_dest : is_sint 32 (destEdgeIndex m);
  wf_speed : fvalid (speed m);
  wf_timestamp : fvalid (timestamp m);
  wf_rtt : fvalid (realTravelTime m);
  wf_lane : is_sint 32 (laneChangeCount m);
  wf_report_length : report_chunkLength m = 36
}.

Record route_wf (m : ServerRouteMsg) : Prop := {
  wf_length : is_sint 32 (routeLength m);
  wf_slots : vsize (routeEdges m) = ROUTE_SLOTS;
  wf_edges : Forall (is_sint 32) (routeEdges m);
  wf_route_length : route_chunkLength m = 260
}.

(** ** Doubles survive the wire *)

Lemma double_bits_range x : fvalid x -> is_uint 64 (double_bits x).
Proof.
  intros Hx. unfold is_uint. destruct x as [[]|[]| |s m e]; simpl; try lia.
  pose proof (fvalid_exp _ _ _ Hx). pose proof (fvalid_mantissa _ _ _ Hx).
  destruct s; case_match eqn:E; zify_bool; lia.
Qed.

Lemma bits_fields (s : bool) ex m :
  0 <= ex < 2 ^ 11 -> 0 <= m < 2 ^ 52 ->
  let b := (if s then 2 ^ 63 else 0) + ex * 2 ^ 52 + m in
  (2 ^ 63 <=? b) = s /\ (b / 2 ^ 52) mod 2 ^ 11 = ex /\ b mod 2 ^ 52 = m.
Proof.
  intros Hex Hm b.
  assert (Hb : b = ((if s then 2 ^ 11 else 0) + ex) * 2 ^ 52 + m) by (unfold b; destruct s; lia).
  split; [|split].
  - unfold b. destruct s; [apply Z.leb_le|apply Z.leb_gt]; lia.
  - rewrite Hb, Z.div_add_l, Z.div_small, Z.add_0_r by lia.
    destruct s; [|by rewrite Z.mod_small].
    rewrite Z.add_comm, <- (Z.mul_1_l (2 ^ 11)) at 1. rewrite Z.mod_add, Z.mod_small; lia.
  - rewrite Hb, Z.add_comm, Z.mod_add, Z.mod_small; lia.
Qed.

Lemma bits_double_bits x : fvalid x -> bits_double (double_bits x) = x.
Proof.
  intros Hx. destruct x as [[]|[]| |s m e]; try reflexivity.
  pose proof (fvalid_exp _ _ _ Hx). pose proof (fvalid_mantissa _ _ _ Hx).
  unfold double_bits, bits_double. case (Z.ltb_spec (Zpos m) (2 ^ 52)); intros Hm.
  - destruct (bits_fields s 0 (Zpos m)) as (E1 & E2 & E3); [lia..|].
    rewrite Z.mul_0_l, Z.add_0_r in E1, E2, E3. rewrite E1, E2, E3. simpl.
    apply bounded_iff in Hx as [Hc _]. f_equal.
    assert (nbits (Zpos m) <= 52) by (apply nbits_le; lia). lia.
  - destruct (bits_fields s (e + 1075) (Zpos m - 2 ^ 52)) as (E1 & E2 & E3); [lia..|].
    rewrite E1, E2, E3.
    rewrite (proj2 (Z.eqb_neq _ 2047)), (proj2 (Z.eqb_neq _ 0)) by lia.
    replace (Zpos m - 2 ^ 52 + 2 ^ 52) with (Zpos m) by lia. f_equal. lia.
Qed.

(** ** Round trips *)

Definition shifts32 : list Z := [24; 16; 8; 0].
Definition shifts64 : list Z := [56; 48; 40; 32; 24; 16; 8; 0].

Lemma read_int s v rest :
  is_sint 32 v -> i_reads s (be_bytes shifts32 (uint32 v) ++ rest) ->
  exists u s', readUint32Be s = Ok (u, s') /\ int32 u = v /\ i_reads s' rest /\
    i_isReadBeyondEnd s' = i_isReadBeyondEnd s.
Proof.
  intros Hv Hs. destruct (readUint32Be_reads _ _ _ Hs) as (s' & -> & ? & ?).
  exists (uint32 (uint32 v)), s'. split; [done|]. split; [|done].
  rewrite wrap_wrap by lia. by apply swrap_wrap.
Qed.

Lemma read_double s x rest :
  fvalid x -> i_reads s (be_bytes shifts64 (double_bits x) ++ rest) ->
  exists s', readDouble s = Ok (x, s') /\ i_reads s' rest /\
    i_isReadBeyondEnd s' = i_isReadBeyondEnd s.
Proof.
  intros Hx Hs. unfold readDouble.
  destruct (readUint64Be_reads _ _ _ Hs) as (s' & -> & ? & ?). simpl. exists s'.
  rewrite wrap_small by (by apply double_bits_range). by rewrite bits_double_bits.
Qed.

Definition report_bytes (m : VehicleReportMsg) : list Z :=
  be_bytes shifts32 (uint32 (edgeIndex m)) ++
  be_bytes shifts32 (uint32 (destEdgeIndex m)) ++
  be_bytes shifts64 (double_bits (speed m)) ++
  be_bytes shifts64 (double_bits (timestamp m)) ++
  be_bytes shifts64 (double_bits (realTravelTime m)) ++
  be_bytes shifts32 (uint32 (laneChangeCount m)).


Ltac write_aligned :=
  repeat first
    [ rewrite (writeUint32Be_aligned (append _ _)) by (auto using append_aligned)
    | rewrite (writeUint64Be_aligned (append _ _)) by (auto using append_aligned)
    | rewrite append_append ].

Lemma serialize_report_bytes s m :
  o_aligned s -> serialize_report s m = append s (report_bytes m).
Proof.
  intros. unfold serialize_report, writeDouble, report_bytes.
  rewrite (writeUint32Be_aligned s) by done. write_aligned. by rewrite <- !app_assoc.
Qed.

Lemma deserialize_report_bytes s m rest :
  report_wf m -> i_reads s (report_bytes m ++ rest) ->
  exists s', deserialize_report s = Ok (m, s') /\ i_reads s' rest /\
    i_isReadBeyondEnd s' = i_isReadBeyondEnd s.
Proof.
  intros [] Hs. unfold report_bytes in Hs. rewrite <- !app_assoc in Hs. unfold deserialize_report.
  destruct (read_int _ _ _ wf_edge0 Hs) as (? & s1 & -> & E1 & H1 & B1). simpl.
  destruct (read_int _ _ _ wf_dest0 H1) as (? & s2 & -> & E2 & H2 & B2). simpl.
  destruct (read_double _ _ _ wf_speed0 H2) as (s3 & -> & H3 & B3). simpl.
  destruct (read_double _ _ _ wf_timestamp0 H3) as (s4 & -> & H4 & B4). simpl.
  destruct (read_double _ _ _ wf_rtt0 H4) as (s5 & -> & H5 & B5). simpl.
  destruct (read_int _ _ _ wf_lane0 H5) as (? & s6 & -> & E6 & H6 & B6). simpl.
  exists s6. split; [|split; [done|congruence]].
  destruct m; simpl in *. congruence.
Qed.

Definition edges_bytes (es : list Z) : list Z :=
  concat (map (fun e => be_bytes shifts32 (uint32 e)) es).

Lemma write_edges_bytes m k n s :
  o_aligned s -> (k + n = length (routeEdges m))%nat ->
  write_edges s m (seqZ (Z.of_nat k) (Z.of_nat n)) =
  Ok (append s (edges_bytes (drop k (routeEdges m)))).
Proof.
  revert k s. induction n as [|n IH]; intros k s Hs Hl.
  - rewrite drop_ge by lia. simpl. unfold append. rewrite app_nil_r. destruct s. simpl.
    do 2 f_equal. lia.
  - rewrite seqZ_cons by lia. simpl. unfold getRouteEdges, vget.
    rewrite (proj2 (Z.leb_le 0 _)), Nat2Z.id by lia.
    destruct (lookup_lt_is_Some_2 (routeEdges m) k) as [e He]; [lia|].
    rewrite He. simpl. rewrite writeUint32Be_aligned by done.
    replace (Z.succ (Z.of_nat k)) with (Z.of_nat (S k)) by lia.
    replace (Z.pred (Z.of_nat (S n))) with (Z.of_nat n) by lia.
    rewrite IH by (auto using append_aligned; lia).
    rewrite append_append. by rewrite (drop_S _ e k) by done.
Qed.

Lemma read_edges_bytes s es acc k :
  Forall (is_sint 32) es -> vsize acc = Z.of_nat k + vsize es ->
  i_reads s (edges_bytes es) ->
  exists s', read_edges s acc (seqZ (Z.of_nat k) (vsize es)) = Ok (take k acc ++ es, s') /\
    i_reads s' [] /\ i_isReadBeyondEnd s' = i_isReadBeyondEnd s.
Proof.
  revert s acc k. induction es as [|e es IH]; intros s acc k Hes Hlen Hs.
  - exists s. simpl. rewrite app_nil_r, take_ge by (simpl in Hlen; lia). done.
  - apply Forall_cons in Hes as [He Hes]. rewrite seqZ_cons by (simpl; lia). simpl in Hlen.
    destruct (read_int _ _ _ He Hs) as (u & s1 & Hr & E1 & H1 & B1).
    cbn [read_edges]. rewrite Hr. cbn [rbind]. rewrite E1. unfold setRouteEdges.
    destruct (vset_is_Some acc (Z.of_nat k) e) as [acc' Hacc]; [lia|].
    rewrite Hacc. cbn [rbind].
    replace (Z.succ (Z.of_nat k)) with (Z.of_nat (S k)) by lia.
    replace (Z.pred (vsize (e :: es))) with (vsize es) by (simpl; lia).
    apply vset_inv in Hacc as [? ->]. rewrite Nat2Z.id in *.
    destruct (IH s1 (<[k := e]> acc) (S k) Hes) as (s' & -> & ? & ?); auto.
    { rewrite length_insert. lia. }
    exists s'. split; [|split; [done|congruence]]. do 2 f_equal.
    erewrite take_S_r by (apply list_lookup_insert_eq; lia).
    by rewrite take_insert_ge, <- app_assoc by lia.
Qed.

Lemma edges_bytes_length es : length (edges_bytes es) = (4 * length es)%nat.
Proof.
  induction es as [|e es IH]; [done|]. unfold edges_bytes in *. cbn [map concat].
  rewrite length_app, IH. simpl. lia.
Qed.

(** ** The properties of the wire format *)

(** Encoding a well-formed vehicle report and decoding the bytes gives the
    report back, without reading past the end; the encoding is exactly the 36
    bytes the application declares as the chunk length. *)
Theorem report_roundtrip (m : VehicleReportMsg) :
  report_wf m ->
  let out := serialize_report empty_ostream m in
  vsize (o_data out) = report_chunkLength m /\
  exists s, deserialize_report (istream_of (o_data out)) = Ok (m, s) /\
            i_isReadBeyondEnd s = false.
Proof.
  intros Hm out. unfold out. rewrite serialize_report_bytes by done. simpl. split.
  - by rewrite (wf_report_length _ Hm).
  - destruct (deserialize_report_bytes (istream_of (report_bytes m)) m []) as (s & -> & _ & ?).
    + done.
    + rewrite app_nil_r. apply istream_of_reads.
    + by exists s.
Qed.

Lemma route_over_wire (m : ServerRouteMsg) :
  route_wf m ->
  exists out, serialize_route empty_ostream m = Ok out /\
    vsize (o_data out) = route_chunkLength m /\
    exists s, deserialize_route (istream_of (o_data out)) = Ok (m, s) /\
              i_isReadBeyondEnd s = false.
Proof.
  intros []. unfold serialize_route, ROUTE_SLOTS in *.
  assert (o_aligned empty_ostream) by done. rewrite writeUint32Be_aligned by done.
  rewrite (write_edges_bytes m 0 64) by (auto using append_aligned; lia).
  rewrite append_append, drop_0. eexists. split; [done|]. simpl.
  set (bytes := _ :: _). split.
  { unfold bytes. simpl. rewrite edges_bytes_length. lia. }
  unfold deserialize_route.
  destruct (read_int (istream_of bytes) (routeLength m) (edges_bytes (routeEdges m)))
    as (u & s1 & -> & E1 & H1 & B1); [done|apply istream_of_reads|]. cbn [rbind].
  destruct (read_edges_bytes s1 (routeEdges m) (replicate 64 0) 0)
    as (s2 & Hr & H2 & B2); [done| |done|].
  { rewrite length_replicate. lia. }
  unfold ROUTE_SLOTS. rewrite wf_slots0 in Hr. change (Z.of_nat 0) with 0 in Hr. rewrite Hr.
  simpl. exists s2. split; [|by rewrite B2, B1].
  clear -E1 wf_route_length0. destruct m. cbn in E1, wf_route_length0 |- *. congruence.
Qed.

(** The same for the 64-slot route message and its 260 bytes. *)
Theorem route_roundtrip (m : ServerRouteMsg) :
  route_wf m ->
  exists out, serialize_route empty_ostream m = Ok out /\
    vsize (o_data out) = route_chunkLength m /\
    exists s, deserialize_route (istream_of (o_data out)) = Ok (m, s) /\
              i_isReadBeyondEnd s = false.
Proof. apply route_over_wire. Qed.
