(* ===== verification/NetXml.v ===== *)
(** * Reading the road network

    [TrafficServer::parseNetXml] and [VehicleApp::parseEdgeIndex] read the same
    SUMO network file line by line, each with its own copy of [getAttr].  The
    numbering of the edges is the protocol's vocabulary: the theorem of this file is
    that server and vehicles number the edges alike. *)

From S2P Require Import Prelude Doubles.
From stdpp Require Import sorting.
From Stdlib Require Import Ascii.
#[local] Open Scope Z_scope.

(** ** Strings as the C++ code handles them *)

Definition QUOTE : ascii := ascii_of_nat 34.
Definition quote_str : string := String QUOTE EmptyString.

(** [std::string::find(pat, pos)]; [None] is [npos]. *)
Definition find (s pat : string) (pos : nat) : option nat := String.index pos pat s.

Definition contains (s pat : string) : bool :=
  match find s pat 0 with Some _ => true | None => false end.

(** [s[0] == c] on a string that may be empty. *)
Definition starts_with (c : ascii) (s : string) : bool :=
  match s with String a _ => bool_decide (a = c) | EmptyString => false end.

Definition is_empty (s : string) : bool :=
  match s with EmptyString => true | _ => false end.

(** [static std::string getAttr(line, attr)] of both applications. *)
Definition getAttr (line attr : string) : string :=
  let search := (attr +:+ "=" +:+ quote_str)%string in
  match find line search 0 with
  | None => ""
  | Some pos =>
      let pos := (pos + String.length search)%nat in
      match find line quote_str pos with
      | None => ""
      | Some end_ => String.substring pos (end_ - pos) line
      end
  end.

(** ** [std::stod], on the decimal grammar

    Leading white space, a sign, digits with an optional point, an optional
    exponent; the rest of the string is ignored.  No conversion and overflow or
    underflow throw.  (The hexadecimal, "inf" and "nan" forms do not occur in a
    network file and are not modelled.) *)

Definition digit_of (c : ascii) : option Z :=
  let n := Z.of_nat (nat_of_ascii c) in
  if (48 <=? n) && (n <=? 57) then Some (n - 48) else None.

Definition is_space (c : ascii) : bool :=
  let n := nat_of_ascii c in
  Nat.eqb n 32 || (Nat.leb 9 n && Nat.leb n 13).

Fixpoint skip_space (s : string) : string :=
  match s with
  | String c s' => if is_space c then skip_space s' else s
  | EmptyString => s
  end.

(** The digits at the head of [s] appended to [acc], how many there were, and the rest. *)
Fixpoint read_digits (acc : Z) (n : Z) (s : string) : Z * Z * string :=
  match s with
  | String c s' =>
      match digit_of c with
      | Some d => read_digits (10 * acc + d) (n + 1) s'
      | None => (acc, n, s)
      end
  | EmptyString => (acc, n, s)
  end.

Definition read_sign (s : string) : bool * string :=
  match s with
  | String c s' =>
      if bool_decide (c = "-"%char) then (true, s')
      else if bool_decide (c = "+"%char) then (false, s') else (false, s)
  | EmptyString => (false, s)
  end.

Definition read_exponent (s : string) : Z :=
  match s with
  | String c s' =>
      if bool_decide (c = "e"%char) || bool_decide (c = "E"%char) then
        let (neg, s') := read_sign s' in
        let '(e, n, _) := read_digits 0 0 s' in
        if n =? 0 then 0 else if neg then - e else e
      else 0
  | EmptyString => 0
  end.

(** [m * 10^k] correctly rounded. *)
Definition decimal (neg : bool) (m k : Z) : float :=
  match m with
  | Zpos p =>
      match k with
      | Zneg j =>
          let '(q, e, l) := SFdiv_core_binary 53 1024 m 0 (10 ^ Zpos j) 0 in
          binary_round_aux 53 1024 neg q e l
      | _ => match m * 10 ^ k with Zpos q => binary_round 53 1024 neg q 0 | _ => S754_nan end
      end
  | _ => S754_zero neg
  end.

Definition stod (str : string) : result float :=
  let (neg, s) := read_sign (skip_space str) in
  let '(m, n1, s1) := read_digits 0 0 s in
  let '(m, n, nfrac, s2) :=
    match s1 with
    | String c s' =>
        if bool_decide (c = "."%char) then
          let '(m', n', s'') := read_digits m n1 s' in (m', n', n' - n1, s'')
        else (m, n1, 0, s1)
    | EmptyString => (m, n1, 0, s1)
    end in
  if n =? 0 then Throw "stod: no conversion" else
  match decimal neg m (read_exponent s2 - nfrac) with
  | S754_finite sg p e =>
      if nbits (Zpos p) <? 53 then Throw "stod: out of range" else Ok (S754_finite sg p e)
  | S754_zero sg => if m =? 0 then Ok (S754_zero sg) else Throw "stod: out of range"
  | _ => Throw "stod: out of range"
  end.

(** ** The server's road network *)

Record EdgeData := {
  ed_id : string;
  ed_index : Z;
  ed_length : float;
  ed_speedLimit : float;
  ed_baseTravelTime : float
}.

Record EdgeTraffic := {
  vehicleCount : Z;
  avgSpeed : float;
  lastUpdate : float;
  realTravelTime_ : float;
  realTTCount : Z
}.

(** The members of [TrafficServer] that [parseNetXml] fills. *)
Record RoadNet := {
  edges : list EdgeData;
  edgeNameToIdx : gmap string Z;
  adjacency : list (list Z);
  traffic : list EdgeTraffic
}.

Definition new_edge (id : string) : EdgeData :=
  {| ed_id := id; ed_index := -1; ed_length := f0; ed_speedLimit := flit 139 10;
     ed_baseTravelTime := flit 10 1 |}.

Definition new_traffic : EdgeTraffic :=
  {| vehicleCount := 0; avgSpeed := flit 139 10; lastUpdate := f0;
     realTravelTime_ := f0; realTTCount := 0 |}.

Definition empty_net : RoadNet :=
  {| edges := []; edgeNameToIdx := ∅; adjacency := []; traffic := [] |}.

(** [func == "internal" || (!id.empty() && id[0] == ':')] *)
Definition internal_edge (id func : string) : bool :=
  bool_decide (func = "internal") || (negb (is_empty id) && starts_with ":" id).

(** The lane's length and speed, for the first edge of that id still without them. *)
Fixpoint set_lane (currentEdgeId : string) (length speed : float) (es : list EdgeData)
    : list EdgeData :=
  match es with
  | [] => []
  | ed :: es' =>
      if bool_decide (ed_id ed = currentEdgeId) && feqb (ed_length ed) f0 then
        {| ed_id := ed_id ed; ed_index := ed_index ed; ed_length := length;
           ed_speedLimit := speed;
           ed_baseTravelTime := if fltb f0 speed then fdiv length speed else flit 9999 1 |} :: es'
      else ed :: set_lane currentEdgeId length speed es'
  end.

(** The loop variables of the first pass. *)
Record pass1 := Pass1 {
  p_edges : list EdgeData;
  p_names : gmap string Z;
  p_current : string;
  p_inEdge : bool
}.

Definition parse_edge_line (st : pass1) (line : string) : result pass1 :=
  if contains line "<edge id=" then
    let id := getAttr line "id" in
    let func := getAttr line "function" in
    if internal_edge id func then Ok (Pass1 (p_edges st) (p_names st) (p_current st) false)
    else
      match p_names st !! id with
      | None => Ok (Pass1 (p_edges st ++ [new_edge id]) (<[id := -1]> (p_names st)) id true)
      | Some _ => Ok (Pass1 (p_edges st) (p_names st) id true)
      end
  else if p_inEdge st && contains line "<lane id=" then
    let lengthStr := getAttr line "length" in
    let speedStr := getAttr line "speed" in
    if negb (is_empty lengthStr) && negb (is_empty speedStr) then
      let! length := stod lengthStr in
      let! speed := stod speedStr in
      Ok (Pass1 (set_lane (p_current st) length speed (p_edges st)) (p_names st) (p_current st) false)
    else Ok (Pass1 (p_edges st) (p_names st) (p_current st) false)
  else if contains line "</edge>" then
    Ok (Pass1 (p_edges st) (p_names st) (p_current st) false)
  else Ok st.

Fixpoint parse_edges (st : pass1) (lines : list string) : result pass1 :=
  match lines with
  | [] => Ok st
  | line :: lines' => let! st' := parse_edge_line st line in parse_edges st' lines'
  end.

(** [std::sort] by id; the ids are distinct. *)
Definition edge_le (a b : EdgeData) : Prop := String.le (ed_id a) (ed_id b).
#[export] Instance edge_le_dec : RelDecision edge_le := fun a b => decide (String.le (ed_id a) (ed_id b)).

Definition set_index (i : nat) (ed : EdgeData) : EdgeData :=
  {| ed_id := ed_id ed; ed_index := Z.of_nat i; ed_length := ed_length ed;
     ed_speedLimit := ed_speedLimit ed; ed_baseTravelTime := ed_baseTravelTime ed |}.

(** [for i: m[ids[i]] = i], used by the server and by the vehicles. *)
Definition number_ids (m : gmap string Z) (ids : list string) : gmap string Z :=
  foldl (fun m p => <[p.2 := Z.of_nat p.1]> m) m (imap pair ids).

Definition resize {A} (l : list A) (n : nat) (x : A) : list A :=
  take n l ++ replicate (n - length l) x.

(** The second pass: [<connection>] lines, turn-arounds excepted. *)
Definition parse_connection_line (names : gmap string Z) (adj : list (list Z)) (line : string)
    : result (list (list Z)) :=
  if negb (contains line "<connection from=") then Ok adj else
  if bool_decide (getAttr line "dir" = "t") then Ok adj else
  let fromEdge := getAttr line "from" in
  let toEdge := getAttr line "to" in
  if is_empty fromEdge || is_empty toEdge then Ok adj else
  if starts_with ":" fromEdge || starts_with ":" toEdge then Ok adj else
  match names !! fromEdge, names !! toEdge with
  | Some fromIdx, Some toIdx =>
      let! neighbors := of_option (vget adj fromIdx) in
      if bool_decide (toIdx ∈ neighbors) then Ok adj
      else of_option (vset adj fromIdx (neighbors ++ [toIdx]))
  | _, _ => Ok adj
  end.

Fixpoint parse_connections (names : gmap string Z) (adj : list (list Z)) (lines : list string)
    : result (list (list Z)) :=
  match lines with
  | [] => Ok adj
  | line :: lines' =>
      let! adj' := parse_connection_line names adj line in
      parse_connections names adj' lines'
  end.

(** [file] is the list of lines, or [None] when it cannot be opened. *)
Definition parseNetXml (net : RoadNet) (file : option (list string)) : result RoadNet :=
  match file with
  | None => Ok net
  | Some lines =>
      let! st := parse_edges (Pass1 (edges net) (edgeNameToIdx net) "" false) lines in
      let es := imap set_index (merge_sort edge_le (p_edges st)) in
      let names := number_ids ∅ (map ed_id es) in
      let! adj := parse_connections names (resize (adjacency net) (length es) []) lines in
      Ok {| edges := es; edgeNameToIdx := names; adjacency := adj;
            traffic := resize (traffic net) (length es) new_traffic |}
  end.

(** ** The vehicle's edge table: [VehicleApp::parseEdgeIndex] *)

Definition edge_id_of_line (line : string) : option string :=
  if negb (contains line "<edge id=") then None else
  let id := getAttr line "id" in
  let func := getAttr line "function" in
  if internal_edge id func then None else Some id.

Record EdgeTable := {
  indexToEdge : list string;
  edgeToIndex : gmap string Z
}.

Definition empty_table : EdgeTable := {| indexToEdge := []; edgeToIndex := ∅ |}.

Definition parseEdgeIndex (t : EdgeTable) (file : option (list string)) : EdgeTable :=
  match file with
  | None => t
  | Some lines =>
      let edgeIds := merge_sort String.le (omap edge_id_of_line lines) in
      {| indexToEdge := edgeIds; edgeToIndex := number_ids (edgeToIndex t) edgeIds |}
  end.

Example stod_speed : stod "13.89" = Ok (flit 1389 100).
Proof. vm_compute. reflexivity. Qed.

(** ** The first pass collects the ids of the file *)

Definition ids (es : list EdgeData) : list string := map ed_id es.

Definition file_ids (lines : list string) : list string := omap edge_id_of_line lines.

Lemma set_lane_ids c l s es : ids (set_lane c l s es) = ids es.
Proof. induction es as [|ed es IH]; simpl; [done|]. case_match; simpl; f_equal; done. Qed.

(** The ids already registered are exactly those of the edges. *)
Definition names_ok (st : pass1) : Prop :=
  forall id, is_Some (p_names st !! id) <-> id ∈ ids (p_edges st).

Lemma parse_edge_line_ids st line st' :
  parse_edge_line st line = Ok st' -> names_ok st ->
  names_ok st' /\
  ids (p_edges st') = ids (p_edges st) ++
    match edge_id_of_line line with
    | Some id => if decide (id ∈ ids (p_edges st)) then [] else [id]
    | None => []
    end.
Proof.
  intros Hp Hn. unfold parse_edge_line in Hp. unfold edge_id_of_line.
  destruct (contains line "<edge id="); simpl in *.
  - destruct (internal_edge _ _); simpl in *; [simplify_eq/=; by rewrite app_nil_r|].
    destruct (p_names st !! getAttr line "id") eqn:E; simplify_eq/=.
    + rewrite decide_True by (apply Hn; eauto). by rewrite app_nil_r.
    + assert (getAttr line "id" ∉ ids (p_edges st)) by (intros [? ?]%Hn; congruence).
      rewrite decide_False by done. unfold ids. rewrite map_app. split; [|done].
      intros id. simpl. unfold ids. rewrite map_app, elem_of_app, <- (Hn id). simpl.
      rewrite list_elem_of_singleton, lookup_insert_is_Some'. split; intros [?|?]; auto.
  - rewrite app_nil_r.
    destruct (p_inEdge st && _).
    + destruct (negb _ && negb _); [|simplify_eq/=; done].
      destruct (stod _); simplify_eq/=. destruct (stod _); simplify_eq/=.
      unfold names_ok. simpl. by rewrite set_lane_ids.
    + destruct (contains _ _); simplify_eq/=; done.
Qed.

Lemma parse_edges_ids lines st st' :
  parse_edges st lines = Ok st' -> names_ok st ->
  NoDup (ids (p_edges st) ++ file_ids lines) ->
  ids (p_edges st') = ids (p_edges st) ++ file_ids lines.
Proof.
  revert st. induction lines as [|line lines IH]; intros st Hp Hn Hnd; simpl in *.
  - simplify_eq. by rewrite app_nil_r.
  - inv_ok. destruct (parse_edge_line_ids _ _ _ E Hn) as [Hn' Hids].
    unfold file_ids in *. simpl in *. destruct (edge_id_of_line line) as [id|]; simpl in *.
    + rewrite decide_False in Hids.
      2: { apply NoDup_app in Hnd as (_ & Hx & _). intros Hin. apply (Hx id Hin). by left. }
      rewrite cons_middle, app_assoc in Hnd. rewrite <- Hids in Hnd.
      rewrite (IH _ Hp Hn' Hnd), Hids, <- app_assoc. done.
    + rewrite app_nil_r in Hids. rewrite <- Hids. apply IH; [done..|]. by rewrite Hids.
Qed.

(** ** Sorting by id *)

#[export] Instance edge_le_trans : Transitive edge_le.
Proof. intros a b c. unfold edge_le. by etransitivity. Qed.
#[export] Instance edge_le_total : Total edge_le.
Proof. intros a b. unfold edge_le. apply (total String.le). Qed.

Lemma StronglySorted_map {A B} (f : A -> B) (R : A -> A -> Prop) (S : B -> B -> Prop) l :
  (forall x y, R x y -> S (f x) (f y)) -> StronglySorted R l -> StronglySorted S (map f l).
Proof.
  intros HRS. induction 1 as [|x l Hl IH Hx]; simpl; constructor; [done|].
  apply Forall_map. eapply Forall_impl; eauto.
Qed.

Lemma sort_edges_ids es : ids (merge_sort edge_le es) = merge_sort String.le (ids es).
Proof.
  apply (StronglySorted_unique String.le).
  - eapply StronglySorted_map; [|apply (StronglySorted_merge_sort edge_le); apply _]. done.
  - apply (StronglySorted_merge_sort String.le).
  - transitivity (ids es); [apply Permutation_map, merge_sort_Permutation|].
    symmetry. apply merge_sort_Permutation.
Qed.

Lemma set_index_ids es : ids (imap set_index es) = ids es.
Proof.
  unfold ids. apply list_eq. intros i.
  rewrite !list_lookup_fmap, list_lookup_imap. by destruct (es !! i).
Qed.

(** ** Numbering *)

Lemma number_ids_snoc m l x :
  number_ids m (l ++ [x]) = <[x := vsize l]> (number_ids m l).
Proof. unfold number_ids. rewrite imap_app, foldl_app. simpl. by rewrite Nat.add_0_r. Qed.

Lemma number_ids_lookup l id i :
  NoDup l -> number_ids ∅ l !! id = Some i <-> vget l i = Some id.
Proof.
  revert i. induction l as [|x l IH] using rev_ind; intros i Hnd.
  - unfold number_ids, vget. simpl. rewrite lookup_empty. by case_match.
  - apply NoDup_app in Hnd as (Hnd & Hx & _). rewrite number_ids_snoc.
    assert (Hxl : x ∉ l) by (intros ?; apply (Hx x); [done|by left]).
    destruct (decide (id = x)) as [->|Hne].
    + rewrite lookup_insert_eq. unfold vget. split.
      * intros [= <-]. rewrite (proj2 (Z.leb_le 0 _)), Nat2Z.id by lia.
        by rewrite lookup_app_r, Nat.sub_diag by done.
      * destruct (Z.leb_spec 0 i); [|done]. intros [Hi|[Hle Hi]]%lookup_app_Some.
        -- exfalso. apply Hxl. by eapply list_elem_of_lookup_2.
        -- apply list_lookup_singleton_Some in Hi as [Hi _]. f_equal. lia.
    + rewrite lookup_insert_ne by done. rewrite (IH i Hnd). unfold vget.
      destruct (Z.leb_spec 0 i); [|done]. rewrite lookup_app. destruct (l !! Z.to_nat i); [done|].
      split; [done|]. intros Hi. destruct (Z.to_nat i - length l)%nat; simpl in Hi; [|done].
      congruence.
Qed.

(** ** The network the server builds is well formed *)

Record net_wf (net : RoadNet) : Prop := {
  net_traffic_size : length (traffic net) = length (edges net);
  net_adj_size : length (adjacency net) = length (edges net);
  net_adj_range : Forall (fun nb => NoDup nb /\ Forall (fun v => 0 <= v < vsize (edges net)) nb)
    (adjacency net);
  net_names : forall id i, edgeNameToIdx net !! id = Some i <-> vget (ids (edges net)) i = Some id;
  net_nodup : NoDup (ids (edges net));
  net_index : forall i ed, vget (edges net) i = Some ed -> ed_index ed = i
}.

Lemma parse_edges_nodup lines st st' :
  parse_edges st lines = Ok st' -> names_ok st -> NoDup (ids (p_edges st)) ->
  NoDup (ids (p_edges st')).
Proof.
  revert st. induction lines as [|line lines IH]; intros st Hp Hn Hnd; simpl in *; [by simplify_eq|].
  inv_ok. destruct (parse_edge_line_ids _ _ _ E Hn) as [Hn' Hids].
  apply (IH _ Hp Hn'). rewrite Hids. destruct (edge_id_of_line line); [|by rewrite app_nil_r].
  case_decide; [by rewrite app_nil_r|]. apply NoDup_app. split; [done|].
  split; [|apply NoDup_singleton]. intros x Hx ->%list_elem_of_singleton. done.
Qed.

(** One connection line adds at most the arc it names. *)
Definition line_arc (names : gmap string Z) (line : string) (i j : Z) : Prop :=
  contains line "<connection from=" = true /\ getAttr line "dir" <> "t" /\
  is_empty (getAttr line "from") = false /\ is_empty (getAttr line "to") = false /\
  starts_with ":" (getAttr line "from") = false /\ starts_with ":" (getAttr line "to") = false /\
  names !! getAttr line "from" = Some i /\ names !! getAttr line "to" = Some j.

Definition adj_arc (adj : list (list Z)) (i j : Z) : Prop :=
  exists nb, vget adj i = Some nb /\ j ∈ nb.

Definition adj_ok (n : Z) (adj : list (list Z)) : Prop :=
  vsize adj = n /\ Forall (fun nb => NoDup nb /\ Forall (fun v => 0 <= v < n) nb) adj.

Definition names_range (names : gmap string Z) (n : Z) : Prop :=
  forall id i, names !! id = Some i -> 0 <= i < n.

Lemma parse_connection_line_spec names n adj line :
  names_range names n -> adj_ok n adj ->
  exists adj', parse_connection_line names adj line = Ok adj' /\ adj_ok n adj' /\
    forall i j, adj_arc adj' i j <-> adj_arc adj i j \/ line_arc names line i j.
Proof.
  intros Hr [Hs Hok].
  assert (Hskip : (forall i j, ~ line_arc names line i j) ->
    exists adj', Ok adj = Ok adj' /\ adj_ok n adj' /\
      forall i j, adj_arc adj' i j <-> adj_arc adj i j \/ line_arc names line i j).
  { intros Hno. exists adj. split; [done|]. split; [done|]. intros i j. specialize (Hno i j). tauto. }
  unfold parse_connection_line.
  destruct (contains line _) eqn:E1; [|by apply Hskip; intros ?? (? & _); congruence].
  case_bool_decide as E2; [by apply Hskip; intros ?? (_ & ? & _)|].
  destruct (is_empty (getAttr line "from")) eqn:E3;
    [by apply Hskip; intros ?? (_ & _ & ? & _); congruence|].
  destruct (is_empty (getAttr line "to")) eqn:E4;
    [by apply Hskip; intros ?? (_ & _ & _ & ? & _); congruence|].
  destruct (starts_with _ (getAttr line "from")) eqn:E5;
    [by apply Hskip; intros ?? (_ & _ & _ & _ & ? & _); congruence|].
  destruct (starts_with _ (getAttr line "to")) eqn:E6;
    [by apply Hskip; intros ?? (_ & _ & _ & _ & _ & ? & _); congruence|].
  simpl.
  destruct (names !! getAttr line "from") as [f|] eqn:E7;
    [|by apply Hskip; intros ?? (_ & _ & _ & _ & _ & _ & ? & _); congruence].
  destruct (names !! getAttr line "to") as [t|] eqn:E8;
    [|by apply Hskip; intros ?? (_ & _ & _ & _ & _ & _ & _ & ?); congruence].
  assert (Hline : forall i j, line_arc names line i j <-> i = f /\ j = t).
  { intros i j. unfold line_arc. rewrite E7, E8. split; [|by intros [-> ->]].
    intros (_ & _ & _ & _ & _ & _ & ? & ?). by simplify_eq. }
  pose proof (Hr _ _ E7). pose proof (Hr _ _ E8).
  destruct (vget_is_Some adj f) as [nb Hnb]; [lia|]. rewrite Hnb. cbn [of_option rbind].
  pose proof (vget_Forall _ _ _ _ Hok Hnb) as [Hnd Hnr].
  case_bool_decide as Hin.
  - exists adj. split; [done|]. split; [done|]. intros i j. rewrite Hline.
    split; [auto|]. intros [?|[-> ->]]; [done|]. by exists nb.
  - destruct (vset_is_Some adj f (nb ++ [t])) as [adj' Hadj]; [lia|]. rewrite Hadj.
    exists adj'. split; [done|]. split.
    + split; [by rewrite (vset_size _ _ _ _ Hadj)|].
      eapply vset_Forall; [exact Hok| |exact Hadj]. split.
      * apply NoDup_app. split; [done|]. split; [|apply NoDup_singleton].
        by intros x ? ->%list_elem_of_singleton.
      * apply Forall_app. auto.
    + intros i j. rewrite Hline. unfold adj_arc.
      rewrite (vget_vset _ _ i _ _ Hadj). case_decide as Hfi; subst.
      * rewrite Hnb. split.
        -- intros (? & [= <-] & [?|?%list_elem_of_singleton]%elem_of_app); eauto.
        -- intros [(? & [= <-] & ?)|[_ ->]]; eexists; (split; [done|]);
             apply elem_of_app; [by left|right; by left].
      * split; [by left|]. intros [?|[? _]]; [done|congruence].
Qed.

Lemma parse_connections_spec names n lines adj :
  names_range names n -> adj_ok n adj ->
  exists adj', parse_connections names adj lines = Ok adj' /\ adj_ok n adj' /\
    forall i j, adj_arc adj' i j <->
      adj_arc adj i j \/ exists line, line ∈ lines /\ line_arc names line i j.
Proof.
  intros Hr. revert adj. induction lines as [|line lines IH]; intros adj Hok; simpl.
  - exists adj. split; [done|]. split; [done|]. intros i j. split; [auto|].
    intros [?|(? & ?%elem_of_nil & _)]; done.
  - destruct (parse_connection_line_spec names n adj line Hr Hok) as (adj1 & -> & H1 & E1).
    simpl. destruct (IH adj1 H1) as (adj' & -> & H' & E').
    exists adj'. split; [done|]. split; [done|]. intros i j. rewrite E', E1.
    setoid_rewrite elem_of_cons. split.
    + intros [[?|?]|(l & ? & ?)]; eauto.
    + intros [?|(l & [->|?] & ?)]; eauto.
Qed.

Lemma number_ids_range l :
  NoDup l -> names_range (number_ids ∅ l) (vsize l).
Proof. intros Hnd id i Hi. apply number_ids_lookup, vget_Some_bounds in Hi; done. Qed.

Lemma ids_length es : length (ids es) = length es.
Proof. apply length_map. Qed.

Definition file_net (net : RoadNet) (file : option (list string)) : Prop :=
  parseNetXml empty_net file = Ok net.

(** What a successful parse returns, in one place. *)
Lemma parseNetXml_spec lines net :
  file_net net (Some lines) ->
  exists st, parse_edges (Pass1 [] ∅ "" false) lines = Ok st /\
    ids (edges net) = merge_sort String.le (ids (p_edges st)) /\
    NoDup (ids (edges net)) /\
    edgeNameToIdx net = number_ids ∅ (ids (edges net)) /\
    adj_ok (vsize (edges net)) (adjacency net) /\
    traffic net = replicate (length (edges net)) new_traffic /\
    (forall i ed, vget (edges net) i = Some ed -> ed_index ed = i) /\
    (forall i j, adj_arc (adjacency net) i j <->
       exists line, line ∈ lines /\ line_arc (edgeNameToIdx net) line i j).
Proof.
  unfold file_net, parseNetXml. intros H. inv_ok. exists v. split; [done|].
  assert (Hnd : NoDup (ids (p_edges v))).
  { eapply parse_edges_nodup; [exact E| |constructor]. intros id. simpl.
    rewrite lookup_empty, elem_of_nil. split; [by intros []|done]. }
  set (es := imap set_index _) in *.
  assert (Hids : ids es = merge_sort String.le (ids (p_edges v))).
  { unfold es. by rewrite set_index_ids, sort_edges_ids. }
  assert (Hnd' : NoDup (ids es)) by (rewrite Hids, merge_sort_Permutation; done).
  destruct (parse_connections_spec (number_ids ∅ (ids es)) (vsize es) lines
              (resize [] (length es) [])) as (adj & Hadj & Hok & Harcs).
  - rewrite <- ids_length. by apply number_ids_range.
  - unfold resize. rewrite take_nil, Nat.sub_0_r. simpl. split; [by rewrite length_replicate|].
    apply Forall_replicate. split; constructor.
  - unfold ids in Hadj. cbn [adjacency empty_net] in E0. rewrite Hadj in E0. injection E0 as <-. subst net. simpl.
    split; [done|]. split; [done|]. split; [done|]. split; [done|].
    split; [unfold resize; by rewrite take_nil, Nat.sub_0_r|]. split.
    + intros i ed Hi. unfold vget in Hi. destruct (Z.leb_spec 0 i); [|done].
      unfold es in Hi. rewrite list_lookup_imap in Hi.
      destruct (merge_sort _ _ !! _); simplify_eq/=. lia.
    + intros i j. rewrite Harcs. split; [|auto]. intros [(nb & Hnb & Hj)|?]; [|done].
      unfold resize in Hnb. rewrite take_nil in Hnb. apply vget_replicate in Hnb as ->.
      by apply elem_of_nil in Hj.
Qed.

Lemma file_net_wf (file : option (list string)) (net : RoadNet) :
  file_net net file ->
  net_wf net /\ traffic net = replicate (length (edges net)) new_traffic /\
  match file with
  | None => edges net = []
  | Some lines => forall i j, adj_arc (adjacency net) i j <->
      exists line, line ∈ lines /\ line_arc (edgeNameToIdx net) line i j
  end.
Proof.
  destruct file as [lines|]; intros H.
  - destruct (parseNetXml_spec _ _ H) as (st & _ & _ & Hnd & Hnames & [Has Haf] & Htr & Hix & Harc).
    split; [|done]. split; try done.
    + by rewrite Htr, length_replicate.
    + lia.
    + intros id i. rewrite Hnames. by apply number_ids_lookup.
  - unfold file_net in H. simpl in H. simplify_eq. split; [|done].
    split; simpl; try done; try constructor.
    + by rewrite lookup_empty.
    + unfold vget. intros. by case_match.
    + unfold vget. intros. by case_match.
Qed.

(** C34. Whatever network file the server reads, if parsing succeeds the tables are
    consistent: the traffic and adjacency vectors have one entry per edge, the
    name map is the inverse of the numbering, neighbour lists are duplicate-free
    and in range, and there is an arc exactly where a [<connection>] line that is
    not a turn-around names two known edges. *)
Theorem parseNetXml_wf (file : option (list string)) (net : RoadNet) :
  file_net net file ->
  net_wf net /\
  match file with
  | None => edges net = []
  | Some lines => forall i j, adj_arc (adjacency net) i j <->
      exists line, line ∈ lines /\ line_arc (edgeNameToIdx net) line i j
  end.
Proof. intros H. destruct (file_net_wf _ _ H) as (? & _ & ?). done. Qed.

Lemma numbering_agrees (lines : list string) (net : RoadNet) :
  file_net net (Some lines) -> NoDup (file_ids lines) ->
  let t := parseEdgeIndex empty_table (Some lines) in
  ids (edges net) = indexToEdge t /\ edgeNameToIdx net = edgeToIndex t.
Proof.
  intros H Hnd. destruct (parseNetXml_spec _ _ H) as (st & Hst & Hids & _ & Hnames & _).
  apply parse_edges_ids in Hst; simpl in *.
  - unfold file_ids in Hst. rewrite Hst in Hids. rewrite Hnames, Hids. done.
  - intros id. simpl. rewrite lookup_empty, elem_of_nil. split; [by intros []|done].
  - done.
Qed.

(** C33. Server and vehicles number the edges alike: on a file whose edge ids are
    distinct, index [i] means the same edge in the server's [edges] and in the
    vehicle's [indexToEdge], and both name maps are the same map.  The indices of
    the protocol messages therefore mean the same roads at both ends. *)
Theorem edge_numbering_agrees (lines : list string) (net : RoadNet) :
  file_net net (Some lines) -> NoDup (file_ids lines) ->
  let t := parseEdgeIndex empty_table (Some lines) in
  ids (edges net) = indexToEdge t /\ edgeNameToIdx net = edgeToIndex t.
Proof. apply numbering_agrees. Qed.
