(* ===== verification/ServerFacts.v ===== *)
(** * The rerouting server: well-formed states and the cost model

    The invariant of [TrafficServer], that every handler keeps it, and what the
    cost model guarantees: weights are non-negative doubles, so the search of
    Dijkstra.v returns a cheapest route. *)

From S2P Require Import Prelude Doubles Dijkstra TrafficMsg NetXml TrafficServer.

(** ** The noise multiplier *)

Lemma noise_index h : 0 <= Z.land h 16777215 < 2 ^ 24.
Proof.
  change 16777215 with (Z.ones 24). rewrite Z.land_ones by lia.
  by apply Z.mod_pos_bound.
Qed.

Lemma half_val : fnonneg (flit 5 10) /\ ffinite (flit 5 10) /\ fval (flit 5 10) = 2 ^ 2147.
Proof. vm_compute. auto. Qed.
Lemma two_val : fnonneg (flit 2 1) /\ ffinite (flit 2 1) /\ fval (flit 2 1) = 2 ^ 2149 /\
  SFabs (flit 2 1) = flit 2 1.
Proof. vm_compute. auto. Qed.
Lemma amp_val : fnonneg NOISE_AMPLITUDE /\ ffinite NOISE_AMPLITUDE /\ fval NOISE_AMPLITUDE <= 2 ^ 2146 /\
  SFabs NOISE_AMPLITUDE = NOISE_AMPLITUDE.
Proof. split; [done|]. split; [done|]. split; [by vm_compute|done]. Qed.

(** The deviation of the noise from one, in magnitude, is at most the amplitude. *)
Lemma noise_deviation k :
  0 <= k < 2 ^ 24 ->
  let x := fmul (fmul (fsub (fdiv (of_int k) f2p24) (flit 5 10)) (flit 2 1)) NOISE_AMPLITUDE in
  fvalid x /\ ~ fnan x /\ fabs_val x <= fval NOISE_AMPLITUDE.
Proof.
  intros Hk x. destruct (fval_div_2p24 k Hk) as [Hr Er].
  destruct half_val as (Hh & Fh & Eh), two_val as (H2 & F2 & E2 & A2), amp_val as (Ha & Fa & _ & Aa).
  unfold x. clear x. generalize dependent NOISE_AMPLITUDE. generalize dependent (flit 2 1).
  generalize dependent (flit 5 10). intros h Hh Fh Eh t H2 F2 E2 A2 a Ha Fa Aa.
  assert (Hkb : k * 2 ^ 2124 <= 2 ^ 2148).
  { change (2 ^ 2148) with (2 ^ 24 * 2 ^ 2124). apply Z.mul_le_mono_nonneg_r; lia. }
  assert (Hvi : 2 ^ 2148 < vinf) by (rewrite vinf_eq; by apply Z.pow_lt_mono_r).
  assert (Fr : ffinite (fdiv (of_int k) f2p24)) by (apply fval_lt_inf_finite; [done|lia]).
  set (r := fdiv (of_int k) f2p24) in *.
  destruct (fsub_abs r h) as (Vd & Nd & Ed); [done..|].
  set (d := fsub r h) in *. clearbody d r.
  destruct (fabs_nonneg d Vd Nd) as [Hd Ed']. rewrite Ed in Ed'.
  assert (Hdle : fval (SFabs d) <= 2 ^ 2147).
  { rewrite Ed', Er, Eh. etransitivity; [apply Z.le_min_l|].
    transitivity (RN (2 ^ 2147)); [|by rewrite RN_pow2]. apply RN_mono; [lia|].
    change (2 ^ 2148) with (2 ^ 2147 + 2 ^ 2147) in Hkb.
    assert (0 <= k * 2 ^ 2124) by (apply Z.mul_nonneg_nonneg; [lia|by apply Z.pow_nonneg]). lia. }
  assert (Fd : ffinite (SFabs d)).
  { apply fval_lt_inf_finite; [done|]. assert (2 ^ 2147 < 2 ^ 2148) by (by apply Z.pow_lt_mono_r).
    lia. }
  assert (Hm : fnonneg (fmul (SFabs d) t)).
  { apply fmul_nonneg; [assumption|assumption|by left|by left]. }
  assert (Em : fval (fmul (SFabs d) t) <= 2 ^ 2148).
  { rewrite (fval_mul _ _ (2 * fval (SFabs d)) Hd H2 Fd F2).
    - etransitivity; [apply Z.le_min_l|]. rewrite <- (RN_pow2 2148) by lia.
      apply RN_mono; [pose proof (fval_nonneg (SFabs d)); lia|].
      change (2 ^ 2148) with (2 * 2 ^ 2147). lia.
    - rewrite E2. change (2 ^ 2149) with (2 * 2 ^ 2148). ring. }
  assert (Fm : ffinite (fmul (SFabs d) t)) by (apply fval_lt_inf_finite; [done|lia]).
  set (x := fmul (fmul d t) a).
  assert (Hx : SFabs x = fmul (fmul (SFabs d) t) a).
  { unfold x. by rewrite !fmul_abs, A2, Aa. }
  assert (Hxn : fnonneg (SFabs x)) by (rewrite Hx; apply fmul_nonneg; [assumption|assumption|by left|by left]).
  split; [unfold x; auto with cpp|].
  split; [intros Hn; rewrite Hn in Hxn; by destruct Hxn|].
  unfold fabs_val. rewrite Hx. by apply fval_mul_le.
Qed.

Lemma edge_noise_bounds edgeIdx seed :
  let n := edge_noise edgeIdx seed in
  fnonneg n /\ ffinite n /\ ~ fzero n /\
  fleb (fsub fone NOISE_AMPLITUDE) n = true /\ fleb n (fadd fone NOISE_AMPLITUDE) = true.
Proof.
  intros n. unfold n, edge_noise.
  destruct (noise_deviation (Z.land (noise_hash edgeIdx seed) 16777215)) as (Hv & Hn & Hle);
    [apply noise_index|].
  set (x := fmul _ _) in *. destruct amp_val as (Ha & Fa & Hamp & _).
  destruct (one_plus_small x Hv Hn) as (H1 & H2 & H3 & Hlo & Hup); [lia|].
  destruct fone_nonneg as [Ho Fo].
  assert (Hab : 0 <= fabs_val x) by (apply fval_nonneg).
  split; [done|]. split; [done|]. split; [done|]. split.
  - rewrite fleb_val; [|apply fsub_nonneg; try done; rewrite fval_one;
      pose proof (Z.pow_le_mono_r 2 2146 2148); lia|done].
    apply Z.leb_le. etransitivity; [|exact Hlo].
    rewrite fval_sub by (try done; rewrite fval_one; pose proof (Z.pow_le_mono_r 2 2146 2148); lia).
    rewrite fval_one. apply cap_mono, RN_mono; pose proof (Z.pow_le_mono_r 2 2146 2148); lia.
  - rewrite fleb_val by (done || by apply fnonneg_add). apply Z.leb_le. etransitivity; [exact Hup|].
    rewrite fval_add, fval_one by done. apply cap_mono, RN_mono; lia.
Qed.

(** ** Well-formed servers *)

Record edge_ok (ed : EdgeData) : Prop := {
  ok_length : fnonneg (ed_length ed);
  ok_speed : fnonneg (ed_speedLimit ed) /\ ffinite (ed_speedLimit ed);
  ok_base : fnonneg (ed_baseTravelTime ed) /\ ~ fzero (ed_baseTravelTime ed)
}.

Definition is_count (n : Z) : Prop := 0 <= n < 2 ^ 31.

(** [now] bounds the time stamps already taken. *)
Record traffic_ok (now : float) (tr : EdgeTraffic) : Prop := {
  ok_vc : is_count (vehicleCount tr);
  ok_tc : is_count (realTTCount tr);
  ok_avg : fvalid (avgSpeed tr);
  ok_last : fnonneg (lastUpdate tr) /\ ffinite (lastUpdate tr) /\ fval (lastUpdate tr) <= fval now;
  ok_rt : fvalid (realTravelTime_ tr)
}.

Lemma new_traffic_ok : traffic_ok f0 new_traffic.
Proof. by split. Qed.

Definition time_ok (now : float) : Prop := fnonneg now /\ ffinite now.

(** [exp] of a double that is not positive lies between zero and one. *)
Definition exp_ok (cexp : float -> float) : Prop :=
  forall x, fvalid x -> fleb x f0 = true -> fnonneg (cexp x) /\ fval (cexp x) <= fval fone.

Record server_ok (now : float) (s : TrafficServer) : Prop := {
  ok_net : net_wf (net s);
  ok_edges : Forall edge_ok (edges (net s));
  ok_traffic : Forall (traffic_ok now) (traffic (net s));
  ok_K : fnonneg (K (params s)) /\ ffinite (K (params s));
  ok_interval : fnonneg (rerouteInterval (params s)) /\ ffinite (rerouteInterval (params s));
  ok_sent : map_Forall (fun _ t => time_ok t /\ fval t <= fval now) (lastRouteSent s);
  ok_count : 0 <= rerouteCountThisSecond s <= MAX_REROUTES_PER_SEC
}.

(** Time passes: the invariant refers to [now] as an upper bound only. *)
Lemma traffic_ok_later now now' tr : fval now <= fval now' -> traffic_ok now tr -> traffic_ok now' tr.
Proof. intros Hle []. split; try done. intuition lia. Qed.

Lemma server_ok_later now now' s : fval now <= fval now' -> server_ok now s -> server_ok now' s.
Proof.
  intros Hle []. split; try done.
  - eapply Forall_impl; [done|]. intros tr. by apply traffic_ok_later.
  - intros k t Hk. destruct (ok_sent0 k t Hk). split; [done|lia].
Qed.

(** New traffic of the right size is all that a report or a decay changes in the
    network. *)
Lemma server_ok_traffic now s t :
  server_ok now s -> Forall (traffic_ok now) t -> length t = length (traffic (net s)) ->
  server_ok now (with_traffic s t).
Proof.
  intros [Hn He Ht HK Hi Hl Hc] Hts Hlen. split; simpl; try assumption.
  destruct Hn. split; simpl; try assumption. congruence.
Qed.

Lemma server_ok_vehicle now s k v : server_ok now s -> server_ok now (with_vehicle s k v).
Proof. intros []. split; assumption. Qed.

Lemma server_ok_count now s c :
  server_ok now s -> 0 <= c <= MAX_REROUTES_PER_SEC -> server_ok now (with_count s c).
Proof. intros [] ?. split; assumption. Qed.

Lemma server_ok_route now s k e : time_ok now -> server_ok now s -> server_ok now (with_route s k now e).
Proof.
  intros Hn []. split; try assumption. simpl. apply map_Forall_insert_2; [|assumption].
  split; [assumption|lia].
Qed.

Section CostModel.
Context (cexp : float -> float) (Hexp : exp_ok cexp).

Lemma thr_fone_fin x : fnonneg x -> fval x <= fval fone -> ffinite x.
Proof.
  intros Hx Hle. apply fval_lt_inf_finite; [done|].
  destruct fone_nonneg as [H1 F1]. pose proof (ffinite_fval fone H1 F1). lia.
Qed.

Lemma speed_congestion_ok ed tr now :
  edge_ok ed -> traffic_ok now tr ->
  let r := if fltb f0 (ed_speedLimit ed) && fltb f0 (avgSpeed tr)
           then fmin (fdiv (avgSpeed tr) (ed_speedLimit ed)) fone else fone in
  fnonneg (fsub fone r) /\ fval (fsub fone r) <= fval fone.
Proof.
  intros He Ht r. destruct fone_nonneg as [H1 F1].
  assert (Hr : fnonneg r /\ fval r <= fval fone).
  { unfold r. destruct (fltb f0 (ed_speedLimit ed)) eqn:E1; [|done].
    destruct (fltb f0 (avgSpeed tr)) eqn:E2; [|done].
    destruct (fpos_spec _ (fnonneg_valid _ (proj1 (ok_speed _ He))) E1) as [? Hz].
    destruct (fpos_spec _ (ok_avg _ _ Ht) E2) as [? _].
    apply fmin_nonneg; [|done]. apply fdiv_nonneg; try done. right. apply He. }
  destruct Hr as [Hr Hle]. assert (Fr := thr_fone_fin r Hr Hle). clearbody r.
  split; [by apply fsub_nonneg|]. rewrite fval_sub by done.
  etransitivity; [|apply Z.eq_le_incl, (cap_fval fone); by apply fnonneg_valid].
  rewrite <- (RN_fval fone) at 2 by (by apply fnonneg_valid).
  apply cap_mono, RN_mono; pose proof (fval_nonneg r); lia.
Qed.

Lemma density_ok ed tr now :
  edge_ok ed -> traffic_ok now tr ->
  let d := if fltb f0 (ed_length ed) then fdiv (of_int (vehicleCount tr)) (ed_length ed) else f0 in
  fnonneg (fmin (fdiv d DENSITY_REF) fone) /\ fval (fmin (fdiv d DENSITY_REF) fone) <= fval fone.
Proof.
  intros He Ht d. destruct fone_nonneg as [H1 F1].
  assert (Hd : fnonneg d).
  { unfold d. destruct (fltb f0 (ed_length ed)) eqn:E1; [|done].
    destruct (fpos_spec _ (fnonneg_valid _ (ok_length _ He)) E1) as [? Hz].
    destruct (ok_vc _ _ Ht) as [Hc1 Hc2]. destruct (of_int_nonneg (vehicleCount tr)) as [Hn _]; [lia|].
    apply fdiv_nonneg; try done. left. apply fval_lt_inf_finite; [done|].
    rewrite fval_of_int, vinf_eq by lia.
    apply Z.lt_le_trans with (2 ^ 31 * 2 ^ 2148); [|rewrite <- Z.pow_add_r by lia; by apply Z.pow_le_mono_r].
    apply Z.mul_lt_mono_pos_r; [by apply Z.pow_pos_nonneg|done]. }
  clearbody d. apply fmin_nonneg; [|done].
  apply fdiv_nonneg; [done|done|right; done|by intros []].
Qed.

Lemma aoi_decay_ok tr now :
  traffic_ok now tr -> time_ok now ->
  let a := cexp (fmul (fopp (flit 1 10)) (fsub now (lastUpdate tr))) in
  fnonneg a /\ fval a <= fval fone.
Proof.
  intros Ht [Hn Fn] a. destruct (ok_last _ _ Ht) as (Hl & Fl & Hle).
  assert (Hd : fnonneg (fsub now (lastUpdate tr))) by (by apply fsub_nonneg).
  apply Hexp.
  - apply fmul_valid; [done|]. by apply fnonneg_valid.
  - by apply fmul_neg_nonpos.
Qed.

Lemma congestion_ok ed tr now :
  edge_ok ed -> traffic_ok now tr -> time_ok now ->
  fnonneg (congestion cexp ed tr now) /\ fval (congestion cexp ed tr now) <= fval fone.
Proof.
  intros He Ht Hn. unfold congestion.
  destruct (speed_congestion_ok ed tr now He Ht) as [H1 L1].
  destruct (density_ok ed tr now He Ht) as [H2 L2].
  destruct (aoi_decay_ok tr now Ht Hn) as [H3 L3].
  destruct (fmax_nonneg _ _ H1 H2) as [H4 E4].
  assert (L4 := Z.max_lub _ _ _ L1 L2). rewrite <- E4 in L4.
  set (m := fmax _ _) in *. set (a := cexp _) in *. clearbody m a.
  assert (Fm := thr_fone_fin _ H4 L4). assert (Fa := thr_fone_fin _ H3 L3).
  split; [apply fmul_nonneg; [assumption|assumption|by left|by left]|].
  transitivity (fval a); [|done]. apply fval_mul_le; assumption.
Qed.

Lemma baseTT_ok ed tr now :
  edge_ok ed -> traffic_ok now tr -> fnonneg (baseTT ed tr) /\ ~ fzero (baseTT ed tr).
Proof.
  intros He Ht. unfold baseTT. destruct (_ <? _); [|apply He]. simpl.
  destruct (fltb f0 (realTravelTime_ tr)) eqn:E; [|apply He].
  apply fpos_spec; [apply Ht|done].
Qed.

(** Every weight of a well-formed server is a non-negative double. *)
Lemma getEdgeWeight_ok s now i seed :
  server_ok now s -> time_ok now -> 0 <= i < vsize (edges (net s)) ->
  exists w, getEdgeWeight cexp s now i seed = Ok w /\ fnonneg w.
Proof.
  intros Hs Hn Hi. unfold getEdgeWeight.
  destruct (vget_is_Some (edges (net s)) i Hi) as [ed Hed].
  destruct (vget_is_Some (traffic (net s)) i) as [tr Htr].
  { by rewrite (net_traffic_size _ (ok_net _ _ Hs)). }
  rewrite Hed, Htr. cbn [of_option rbind].
  assert (He := vget_Forall _ _ _ _ (ok_edges _ _ Hs) Hed).
  assert (Ht := vget_Forall _ _ _ _ (ok_traffic _ _ Hs) Htr).
  destruct (congestion_ok ed tr now He Ht Hn) as [Hc Lc].
  destruct (baseTT_ok ed tr now He Ht) as [Hb Zb].
  destruct (ok_K _ _ Hs) as [HK FK]. destruct fone_nonneg as [H1 F1].
  set (c := congestion cexp ed tr now) in *. set (b := baseTT ed tr) in *. clearbody b c.
  destruct (fltb c CONGESTION_THR); [by exists b|].
  eexists. split; [done|]. destruct (edge_noise_bounds i seed) as (Hn1 & Fn1 & Zn1 & _).
  assert (Fc := thr_fone_fin c Hc Lc).
  assert (HcK : fnonneg (fmul c (K (params s))))
    by (apply fmul_nonneg; [assumption|assumption|by left|by left]).
  assert (Hf : fnonneg (fadd fone (fmul c (K (params s))))) by (by apply fnonneg_add).
  assert (Zf : ~ fzero (fadd fone (fmul c (K (params s))))).
  { apply fval_pos_nonzero. eapply Z.lt_le_trans; [|by apply fadd_incr].
    rewrite fval_one. by apply Z.pow_pos_nonneg. }
  apply fmul_nonneg; [|assumption|by right|by left].
  apply fmul_nonneg; [assumption|assumption|by right|by right].
Qed.
End CostModel.
