(* ===== verification/ServerProps.v ===== *)
(** * The rerouting server: its properties

    Every handler succeeds and keeps the server well formed; the route sent is a
    cheapest one; reports with bad indices or outlying travel times are ignored as
    intended; the decay forgets; hysteresis and stagger limit bound the commands. *)

From S2P Require Import Prelude Doubles Dijkstra TrafficMsg NetXml TrafficServer ServerFacts.

(** ** Decay of a counter *)

Lemma decay_mult_val : fnonneg DECAY_MULT /\ ffinite DECAY_MULT /\
  fval DECAY_MULT = 8286623314361713 * 2 ^ 2095.
Proof. split; [done|]. split; [done|]. vm_compute. reflexivity. Qed.

Lemma of_int_finite n : 0 <= n < 2 ^ 53 -> fnonneg (of_int n) /\ ffinite (of_int n).
Proof.
  intros Hn. destruct (of_int_nonneg n) as [Hnn _]; [lia|]. split; [done|].
  apply fval_lt_inf_finite; [done|]. rewrite fval_of_int, vinf_eq by lia.
  apply Z.lt_le_trans with (2 ^ 53 * 2 ^ 2148).
  - apply Z.mul_lt_mono_pos_r; [by apply Z.pow_pos_nonneg|lia].
  - rewrite <- Z.pow_add_r by lia. by apply Z.pow_le_mono_r.
Qed.

(** Truncating the product with 0.92 loses at least a sixteenth. *)
Lemma decay_int n :
  is_count n ->
  exists m, to_int (fmul (of_int n) DECAY_MULT) = Ok m /\ 0 <= m /\ 16 * m <= 15 * n.
Proof.
  intros [Hn0 Hn]. destruct decay_mult_val as (Hd & Fd & Ed).
  destruct (of_int_finite n) as [Hi Fi]; [lia|].
  assert (E : fval (fmul (of_int n) DECAY_MULT) =
              cap (RN (n * (8286623314361713 * 2 ^ 2095)))).
  { apply fval_mul; try assumption. rewrite fval_of_int, Ed by lia. ring. }
  assert (Hnn : fnonneg (fmul (of_int n) DECAY_MULT))
    by (apply fmul_nonneg; [assumption|assumption|by left|by left]).
  set (p := fmul (of_int n) DECAY_MULT) in *. clearbody p.
  assert (Hup : RN (n * (8286623314361713 * 2 ^ 2095)) <= n * 15 * 2 ^ 2144).
  { rewrite <- (RN_small_mantissa (n * 15) 2144) by lia.
    apply RN_mono; [apply Z.mul_nonneg_nonneg; [lia|done]|].
    rewrite <- Z.mul_assoc. apply Z.mul_le_mono_nonneg_l; [lia|]. by vm_compute. }
  assert (Hval : 0 <= fval p <= n * 15 * 2 ^ 2144).
  { split; [apply fval_nonneg|]. rewrite E. unfold cap. lia. }
  assert (Hq : 0 <= fval p / 2 ^ 2148 /\ 16 * (fval p / 2 ^ 2148) <= 15 * n).
  { assert (Hp : 0 < 2 ^ 2144) by (by apply Z.pow_pos_nonneg).
    change (2 ^ 2148) with (16 * 2 ^ 2144). generalize dependent (2 ^ 2144). intros P _ Hval HP.
    split; [apply Z.div_pos; lia|].
    pose proof (Z.mul_div_le (fval p) (16 * P) ltac:(lia)). nia. }
  exists (fval p / 2 ^ 2148). split; [|done]. unfold to_int.
  rewrite trunc_val; [|done|].
  - rewrite (proj2 (Z.leb_le _ _)), (proj2 (Z.ltb_lt _ _)) by lia. done.
  - apply fval_lt_inf_finite; [done|]. rewrite vinf_eq.
    apply Z.le_lt_trans with (2 ^ 35 * 2 ^ 2144).
    + etransitivity; [apply Hval|]. apply Z.mul_le_mono_nonneg_r; [done|lia].
    + rewrite <- Z.pow_add_r by lia. by apply Z.pow_lt_mono_r.
Qed.

Lemma ewma_valid a b : fvalid a -> fvalid b -> fvalid (ewma a b).
Proof. intros. unfold ewma. apply fadd_valid; apply fmul_valid; done. Qed.

Lemma decay_one_spec now ed tr :
  traffic_ok now tr -> (forall e, ed = Some e -> edge_ok e) ->
  exists tr', decay_one ed tr = Ok tr' /\ traffic_ok now tr' /\
    16 * vehicleCount tr' <= 15 * vehicleCount tr /\
    16 * realTTCount tr' <= 15 * realTTCount tr /\
    lastUpdate tr' = lastUpdate tr /\
    (vehicleCount tr' <> 0 -> avgSpeed tr' = avgSpeed tr) /\
    (realTTCount tr' = 0 -> realTravelTime_ tr' = f0).
Proof.
  intros Ht He. unfold decay_one.
  destruct (decay_int (vehicleCount tr) (ok_vc _ _ Ht)) as (v & -> & Hv0 & Hv).
  destruct (decay_int (realTTCount tr) (ok_tc _ _ Ht)) as (c & -> & Hc0 & Hc).
  cbn [rbind]. eexists. split; [done|].
  destruct (ok_vc _ _ Ht), (ok_tc _ _ Ht). split; [split|]; simpl.
  - split; lia.
  - split; lia.
  - destruct (v =? 0); [|apply Ht]. apply ewma_valid; [apply Ht|].
    destruct ed as [e|]; [|done]. destruct (fltb f0 (ed_speedLimit e)); [|done].
    apply fnonneg_valid, He. done.
  - apply Ht.
  - destruct (c =? 0); [done|apply Ht].
  - split; [done|]. split; [done|]. split; [done|].
    split; intros; destruct (Z.eqb_spec v 0), (Z.eqb_spec c 0); done.
Qed.

(** One decay of the whole table. *)
Definition decayed (tr tr' : EdgeTraffic) : Prop :=
  16 * vehicleCount tr' <= 15 * vehicleCount tr /\
  16 * realTTCount tr' <= 15 * realTTCount tr /\
  lastUpdate tr' = lastUpdate tr /\
  (vehicleCount tr' <> 0 -> avgSpeed tr' = avgSpeed tr) /\
  (realTTCount tr' = 0 -> realTravelTime_ tr' = f0).

Lemma decay_from_spec now es i trs :
  Forall edge_ok es -> Forall (traffic_ok now) trs ->
  exists trs', decay_from es i trs = Ok trs' /\ Forall (traffic_ok now) trs' /\
    Forall2 decayed trs trs'.
Proof.
  intros He. revert i. induction trs as [|tr trs IH]; intros i Ht; simpl.
  - exists []. auto.
  - apply Forall_cons in Ht as [Ht Hts].
    destruct (decay_one_spec now (es !! i) tr Ht) as (tr' & -> & Ht' & Hd).
    { intros e Hi. by eapply Forall_lookup_1. }
    cbn [rbind]. destruct (IH (S i) Hts) as (trs' & -> & Hts' & Hds). cbn [rbind].
    exists (tr' :: trs'). split; [done|]. split; constructor; done.
Qed.

Lemma decay_ok now s :
  server_ok now s ->
  exists s', decayEdgeInfo s = Ok s' /\ server_ok now s' /\
    Forall2 decayed (traffic (net s)) (traffic (net s')) /\
    s' = with_traffic s (traffic (net s')).
Proof.
  intros Hs. unfold decayEdgeInfo.
  destruct (decay_from_spec now (edges (net s)) 0 (traffic (net s))) as (t & -> & Ht & Hd);
    [apply Hs..|].
  cbn [rbind]. eexists. split; [done|]. simpl. split; [|done].
  apply server_ok_traffic; [assumption..|]. exact (eq_sym (Forall2_length _ _ _ Hd)).
Qed.

(** ** The route search of a well-formed server *)

Section Handlers.
Context (cexp : float -> float) (Hexp : exp_ok cexp).

(** The weight of entering an edge, as a function. *)
Definition weight_of (s : TrafficServer) (now : float) (seed v : Z) : float :=
  match getEdgeWeight cexp s now v seed with Ok w => w | _ => finf end.

(** [p] is a cheapest route from [src] to [dst]; empty when none has a finite
    cost. *)
Definition best_route (s : TrafficServer) (now : float) (seed src dst : Z) (p : list Z) : Prop :=
  let cost q := fval (route_cost (weight_of s now seed) q) in
  let adj := adjacency (net s) in
  (forall q, route_from_to adj src q dst ->
     p = [] /\ cost q = vinf \/ p <> [] /\ cost p <= cost q) /\
  (p <> [] -> route_from_to adj src p dst /\ NoDup p /\ cost p < vinf).

Lemma net_arc_range n u v : net_wf n -> arc (adjacency n) u v -> 0 <= v < vsize (edges n).
Proof.
  intros Hn (nb & Hnb & Hv).
  destruct (vget_Forall _ _ _ _ (net_adj_range _ Hn) Hnb) as [_ Hr].
  by eapply Forall_forall in Hr.
Qed.

Lemma server_dijkstra_ok s now seed src dst :
  server_ok now s -> time_ok now ->
  0 <= src < vsize (edges (net s)) -> 0 <= dst < vsize (edges (net s)) ->
  exists p, server_dijkstra cexp s now src dst seed = Ok p /\ best_route s now seed src dst p.
Proof.
  intros Hs Hn Hsrc Hdst. unfold server_dijkstra, best_route.
  assert (Hw : forall v, 0 <= v < vsize (edges (net s)) ->
    getEdgeWeight cexp s now v seed = Ok (weight_of s now seed v) /\
    fnonneg (weight_of s now seed v)).
  { intros v Hv. unfold weight_of.
    destruct (getEdgeWeight_ok cexp Hexp s now v seed Hs Hn Hv) as (w & -> & Hw). done. }
  apply dijkstra_spec; try assumption.
  - by rewrite (net_adj_size _ (ok_net _ _ Hs)).
  - intros u v. apply net_arc_range, Hs.
  - intros v Hv. apply Hw, Hv.
  - intros v Hv. apply Hw, Hv.
Qed.

(** A route between different edges has at least two edges. *)
Lemma route_two adj src dst p : route_from_to adj src p dst -> src <> dst -> 2 <= vsize p.
Proof.
  intros (Hh & Hl & _) Hne. destruct p as [|a [|b p]]; simpl in *; [done|congruence|lia].
Qed.

(** ** When a vehicle is due for a route *)

Definition due (s : TrafficServer) (key : string) (now : float) : bool :=
  isFirstReport s key || timeElapsed s key now.

Lemma sinceLast_ok s key now :
  server_ok now s -> time_ok now -> fnonneg (sinceLast s key now).
Proof.
  intros Hs [Hn Fn]. unfold sinceLast. destruct (lastRouteSent s !! key) as [t|] eqn:E; [|done].
  destruct (ok_sent _ _ Hs key t E) as [[Ht Ft] Hle]. by apply fsub_nonneg.
Qed.

Lemma interval_times_one x : fnonneg x -> ffinite x -> fval (fmul x HYSTERESIS_RATIO) = fval x.
Proof.
  intros Hx Fx. change HYSTERESIS_RATIO with fone. destruct fone_nonneg as [H1 F1].
  rewrite (fval_mul _ _ (fval x)); [|done..|by rewrite fval_one].
  rewrite RN_fval, cap_fval by (by apply fnonneg_valid). done.
Qed.

(** With the ratio at one, a change of edge adds nothing to the elapsed time. *)
Lemma edgeChanged_elapsed s key now edge :
  server_ok now s -> time_ok now ->
  edgeChanged s key now edge = true -> timeElapsed s key now = true.
Proof.
  intros Hs Hn. unfold edgeChanged, timeElapsed. rewrite !andb_true_iff. intros [[-> _] Hle].
  split; [done|]. destruct (ok_interval _ _ Hs) as [Hi Fi]. pose proof (sinceLast_ok s key now Hs Hn).
  assert (fnonneg (fmul (rerouteInterval (params s)) HYSTERESIS_RATIO)).
  { change HYSTERESIS_RATIO with fone. destruct fone_nonneg.
    apply fmul_nonneg; [assumption|assumption|by left|by left]. }
  rewrite fleb_val in Hle by assumption. rewrite fleb_val by assumption.
  by rewrite interval_times_one in Hle.
Qed.

Lemma due_spec s key now edge :
  server_ok now s -> time_ok now ->
  isFirstReport s key || timeElapsed s key now || edgeChanged s key now edge = due s key now.
Proof.
  intros Hs Hn. unfold due. destruct (edgeChanged s key now edge) eqn:E; [|by rewrite orb_false_r].
  by rewrite (edgeChanged_elapsed _ _ _ _ Hs Hn E), !orb_true_r.
Qed.

(** ** The decision, case by case *)

Inductive decides (s : TrafficServer) (key : string) (now : float) (edge dest : Z) :
    TrafficServer * list effect -> Prop :=
| decides_wait : due s key now = false -> decides s key now edge dest (s, [])
| decides_limit :
    due s key now = true -> MAX_REROUTES_PER_SEC <= rerouteCountThisSecond s ->
    decides s key now edge dest (s, [])
| decides_no_route :
    due s key now = true -> rerouteCountThisSecond s < MAX_REROUTES_PER_SEC ->
    best_route s now (hashVehicleKey key) edge dest [] ->
    decides s key now edge dest (s, [])
| decides_short route :
    due s key now = true -> rerouteCountThisSecond s < MAX_REROUTES_PER_SEC ->
    route <> [] -> best_route s now (hashVehicleKey key) edge dest route ->
    fltb (route_distance (edges (net s)) f0 route) (minRouteDistance (params s)) = true ->
    decides s key now edge dest (with_route s key now edge, [])
| decides_send route :
    due s key now = true -> rerouteCountThisSecond s < MAX_REROUTES_PER_SEC ->
    route <> [] -> best_route s now (hashVehicleKey key) edge dest route ->
    fltb (route_distance (edges (net s)) f0 route) (minRouteDistance (params s)) = false ->
    decides s key now edge dest
      (with_count (with_route s key now edge) (rerouteCountThisSecond s + 1),
       sendRoute s key route).

Lemma decide_route_decides s key now edge dest :
  server_ok now s -> time_ok now -> edge <> dest ->
  0 <= edge < vsize (edges (net s)) -> 0 <= dest < vsize (edges (net s)) ->
  exists out, decide_route cexp s key now edge dest = Ok out /\ decides s key now edge dest out.
Proof.
  intros Hs Hn Hne He Hd. unfold decide_route. rewrite due_spec by done.
  destruct (due s key now) eqn:Hdue; [|eexists; split; [done|by apply decides_wait]].
  destruct (Z.leb_spec MAX_REROUTES_PER_SEC (rerouteCountThisSecond s)) as [Hc|Hc];
    [eexists; split; [done|by apply decides_limit]|].
  destruct (server_dijkstra_ok s now (hashVehicleKey key) edge dest) as (p & -> & Hp); [done..|].
  cbn [rbind]. destruct (decide (p = [])) as [->|Hp0]; [eexists; split; [done|by apply decides_no_route]|].
  rewrite bool_decide_eq_false_2 by done.
  destruct (proj2 Hp Hp0) as [Hr _]. apply route_two in Hr; [|done].
  rewrite (proj2 (Z.leb_le 2 _) Hr). cbn [negb andb].
  destruct (fltb _ _) eqn:Hm; [eexists; split; [done|by eapply decides_short]|].
  simpl. unfold incr. pose proof (ok_count _ _ Hs). unfold MAX_REROUTES_PER_SEC in *.
  rewrite (proj2 (Z.ltb_lt _ (2 ^ 31 - 1))) by lia. cbn [rbind].
  eexists. split; [done|by eapply decides_send].
Qed.

Lemma decides_ok s key now edge dest out :
  server_ok now s -> time_ok now -> decides s key now edge dest out ->
  server_ok now out.1 /\ net out.1 = net s /\ vehicleMap out.1 = vehicleMap s.
Proof.
  intros Hs Hn Hd. pose proof (ok_count _ _ Hs).
  destruct Hd; (split; [|done]); simpl; try assumption.
  - by apply server_ok_route.
  - apply server_ok_count; [by apply server_ok_route|lia].
Qed.
End Handlers.

(** ** A report, and the run of the server *)

Definition report_ok (r : VehicleReportMsg) : Prop :=
  fvalid (speed r) /\ fvalid (realTravelTime r).

(** Both indices of a report name edges. *)
Definition known (s : TrafficServer) (r : VehicleReportMsg) : Prop :=
  0 <= edgeIndex r < vsize (edges (net s)) /\ 0 <= destEdgeIndex r < vsize (edges (net s)).

(** The counters of an edge after at most [n] messages. *)
Definition counts_le (n : Z) (s : TrafficServer) : Prop :=
  Forall (fun tr => vehicleCount tr <= n /\ realTTCount tr <= n) (traffic (net s)).

(** The travel time of a report is taken into account: more than half a second and
    at most five times the free-flow time of the edge. *)
Definition plausible (ed : EdgeData) (tt : float) : bool :=
  fltb REAL_TT_MIN_SEC tt && fleb tt (fmul (ed_baseTravelTime ed) REAL_TT_MAX_RATIO).

(** The value a vehicle reports when it cannot read a travel time is ignored. *)
Lemma unreadable_time_ignored ed : plausible ed (fopp fone) = false.
Proof. by vm_compute. Qed.

(** The traffic of an edge after a report. *)
Definition absorbed (ed : EdgeData) (tr : EdgeTraffic) (r : VehicleReportMsg) (now : float)
    (tr' : EdgeTraffic) : Prop :=
  vehicleCount tr' = vehicleCount tr + 1 /\ lastUpdate tr' = now /\
  avgSpeed tr' = (if vehicleCount tr =? 0 then speed r else ewma (avgSpeed tr) (speed r)) /\
  if plausible ed (realTravelTime r)
  then realTTCount tr' = realTTCount tr + 1 /\
       realTravelTime_ tr' = if realTTCount tr =? 0 then realTravelTime r
                             else ewma (realTravelTime_ tr) (realTravelTime r)
  else realTTCount tr' = realTTCount tr /\ realTravelTime_ tr' = realTravelTime_ tr.

Lemma update_ok ed tr r now n :
  traffic_ok now tr -> report_ok r -> time_ok now ->
  vehicleCount tr <= n -> realTTCount tr <= n -> n < 2 ^ 31 - 1 ->
  exists tr', (let! tr1 := update_speed tr (speed r) now in
               update_realTT ed tr1 (realTravelTime r)) = Ok tr' /\
    traffic_ok now tr' /\ absorbed ed tr r now tr'.
Proof.
  intros Ht [Hs Hr] [Hn Fn] Hv Hc Hlt. unfold update_speed, update_realTT, absorbed, plausible.
  rewrite (incr_ok n) by assumption. cbn [rbind]. cbn [realTTCount].
  destruct (ok_vc _ _ Ht), (ok_tc _ _ Ht).
  assert (Ha : fvalid (if vehicleCount tr =? 0 then speed r else ewma (avgSpeed tr) (speed r)))
    by (destruct (_ =? _); [assumption|apply ewma_valid; [apply Ht|assumption]]).
  assert (Hlast : fnonneg now /\ ffinite now /\ fval now <= fval now) by (split_and!; [done..|lia]).
  destruct (fltb REAL_TT_MIN_SEC _); [destruct (fleb _ _)|]; cbn [andb];
    [rewrite (incr_ok n) by assumption; cbn [rbind]|..];
    (eexists; split; [reflexivity|]); (split; [split; simpl|by simpl]);
    try assumption; try (split; lia); try apply Ht.
  destruct (realTTCount tr =? 0); [exact Hr|apply ewma_valid; [apply (ok_rt _ _ Ht)|exact Hr]].
Qed.

(** The state after the bookkeeping of a report, before the route decision. *)
Definition booked (s : TrafficServer) (addr : L3Address) (port : Z) (r : VehicleReportMsg)
    (tr' : EdgeTraffic) : TrafficServer :=
  with_vehicle (with_traffic s (<[Z.to_nat (edgeIndex r) := tr']> (traffic (net s))))
    (L3Address_str addr)
    {| ve_address := addr; ve_port := port; currentEdge := edgeIndex r;
       destEdge := destEdgeIndex r |}.

Section Reports.
Context (cexp : float -> float) (Hexp : exp_ok cexp).

(** Everything a report can do. *)
Inductive reported (s : TrafficServer) (now : float) (addr : L3Address) (port : Z)
    (r : VehicleReportMsg) : TrafficServer * list effect -> Prop :=
| reported_unknown : ~ known s r -> reported s now addr port r (s, [])
| reported_arrived ed tr tr' :
    known s r -> edgeIndex r = destEdgeIndex r ->
    vget (edges (net s)) (edgeIndex r) = Some ed ->
    vget (traffic (net s)) (edgeIndex r) = Some tr -> absorbed ed tr r now tr' ->
    reported s now addr port r (booked s addr port r tr', [])
| reported_decides ed tr tr' out :
    known s r -> edgeIndex r <> destEdgeIndex r ->
    vget (edges (net s)) (edgeIndex r) = Some ed ->
    vget (traffic (net s)) (edgeIndex r) = Some tr -> absorbed ed tr r now tr' ->
    server_ok now (booked s addr port r tr') ->
    decides cexp (booked s addr port r tr') (L3Address_str addr) now
      (edgeIndex r) (destEdgeIndex r) out ->
    reported s now addr port r out.

Lemma booked_ok s now addr port r tr' :
  server_ok now s -> traffic_ok now tr' -> server_ok now (booked s addr port r tr').
Proof.
  intros Hs Ht. apply server_ok_vehicle, server_ok_traffic; [assumption| |apply length_insert].
  apply Forall_insert; [apply Hs|assumption].
Qed.

Lemma booked_counts s addr port r ed tr tr' now n :
  counts_le n s -> vget (traffic (net s)) (edgeIndex r) = Some tr -> absorbed ed tr r now tr' ->
  counts_le (n + 1) (booked s addr port r tr').
Proof.
  intros Hc Htr (Hv & _ & _ & Hr). unfold counts_le. simpl.
  destruct (vget_Forall _ _ _ _ Hc Htr) as [? ?]. apply Forall_insert.
  - eapply Forall_impl; [exact Hc|]. intros ? [? ?]. lia.
  - destruct (plausible _ _), Hr; lia.
Qed.

Lemma socketDataArrived_reported s now addr port r n :
  server_ok now s -> time_ok now -> report_ok r -> counts_le n s -> n < 2 ^ 31 - 1 ->
  exists out, socketDataArrived cexp s now addr port r = Ok out /\
    reported s now addr port r out /\ server_ok now out.1 /\ counts_le (n + 1) out.1.
Proof.
  intros Hs Hn Hr Hc Hlt. unfold socketDataArrived.
  destruct (_ || _ || _ || _) eqn:Hk.
  { exists (s, []). split; [done|]. split; [apply reported_unknown|].
    - intros [? ?]. rewrite !orb_true_iff, !Z.ltb_lt, !Z.leb_le in Hk. lia.
    - split; [assumption|]. eapply Forall_impl; [exact Hc|]. simpl. lia. }
  zify_bool. assert (Hkn : known s r) by (unfold known; lia).
  destruct (vget_is_Some (traffic (net s)) (edgeIndex r)) as [tr Htr].
  { rewrite (net_traffic_size _ (ok_net _ _ Hs)). apply Hkn. }
  destruct (vget_is_Some (edges (net s)) (edgeIndex r)) as [ed Hed]; [apply Hkn|].
  destruct (vget_Forall _ _ _ _ Hc Htr) as [Hv Ht].
  destruct (update_ok ed tr r now n) as (tr' & Hup & Ht' & Ha);
    [by eapply vget_Forall, Htr; apply Hs|assumption..|].
  rewrite Htr, Hed. cbn [of_option rbind].
  destruct (update_speed _ _ _) as [tr1| |]; try discriminate. cbn [rbind] in Hup |- *.
  rewrite Hup. cbn [rbind]. unfold vset.
  rewrite (proj2 (Z.leb_le 0 _)), (proj2 (Z.ltb_lt _ (vsize (traffic _))))
    by (apply vget_Some_bounds in Htr; lia). cbn [andb of_option rbind].
  fold (booked s addr port r tr').
  assert (Hb := booked_ok s now addr port r tr' Hs Ht').
  assert (Hbc := booked_counts s addr port r ed tr tr' now n Hc Htr Ha).
  case (Z.eqb_spec (edgeIndex r) (destEdgeIndex r)); intros Heq.
  - eexists. split; [done|]. split; [by eapply reported_arrived|done].
  - destruct (decide_route_decides cexp Hexp (booked s addr port r tr') (L3Address_str addr) now
      (edgeIndex r) (destEdgeIndex r)) as (out & Hout & Hd); [assumption..|apply Hkn|apply Hkn|].
    exists out. split; [exact Hout|]. destruct (decides_ok cexp _ _ _ _ _ _ Hb Hn Hd) as (? & Hnet & _).
    split; [by eapply reported_decides|]. split; [assumption|]. unfold counts_le. by rewrite Hnet.
Qed.
End Reports.
