(* ===== verification/ServerRun.v ===== *)
(** * The rerouting server: runs

    Sequences of messages handled by [TrafficServer], from any well-formed state:
    nothing faults, the invariant is kept, a route goes to the vehicle that
    reported and is a cheapest one, the number of routes per second and the time
    between two routes of a vehicle are limited, and the traffic data is forgotten
    when reports stop. *)

From S2P Require Import Prelude Doubles Dijkstra TrafficMsg NetXml TrafficServer ServerFacts ServerProps.

(** ** Events *)

Definition msg_ok (m : message) : Prop :=
  match m with PacketMsg _ _ r => report_ok r | TimerMsg _ => True end.

(** Events at non-decreasing times, from [t] on. *)
Fixpoint timed (t : float) (evs : list (float * message)) : Prop :=
  match evs with
  | [] => True
  | (now, m) :: evs' => time_ok now /\ fval t <= fval now /\ msg_ok m /\ timed now evs'
  end.

Fixpoint end_time (t : float) (evs : list (float * message)) : float :=
  match evs with [] => t | (now, _) :: evs' => end_time now evs' end.

Lemma timed_end t evs : timed t evs -> fval t <= fval (end_time t evs).
Proof.
  revert t. induction evs as [|[now m] evs IH]; intros t; simpl; [lia|].
  intros (_ & ? & _ & H). apply IH in H. lia.
Qed.

Lemma timed_app t evs1 evs2 :
  timed t (evs1 ++ evs2) -> timed t evs1 /\ timed (end_time t evs1) evs2.
Proof.
  revert t. induction evs1 as [|[now m] evs1 IH]; intros t; simpl; [done|].
  intros (? & ? & ? & H). apply IH in H as [? ?]. done.
Qed.

(** No counter can overflow while [evs] are handled: every message adds at most
    one to a counter, and all are at most [n] before. *)
Definition capacity (s : TrafficServer) (evs : list (float * message)) : Prop :=
  exists n, 0 <= n /\ counts_le n s /\ n + vsize evs <= 2 ^ 31 - 1.

Lemma fresh_counts s k : traffic (net s) = replicate k new_traffic -> counts_le 0 s.
Proof. intros E. unfold counts_le. rewrite E. by apply Forall_replicate. Qed.

Definition is_send (e : effect) : bool :=
  match e with SendTo _ _ _ => true | ScheduleAfter _ _ => false end.
Definition sends (es : list effect) : Z := vsize (List.filter is_send es).

Lemma sends_app es1 es2 : sends (es1 ++ es2) = sends es1 + sends es2.
Proof. unfold sends. rewrite List.filter_app, length_app. lia. Qed.

Lemma route_message_edge route i :
  0 <= i < routeLength (route_message route) ->
  vget (routeEdges (route_message route)) i = vget route i.
Proof.
  unfold route_message. cbn [routeLength routeEdges]. intros Hi. unfold vget at 1. rewrite (proj2 (Z.leb_le 0 i)) by lia.
  match goal with |- context [map ?f ?l] => change (map f l) with (f <$> l) end.
  rewrite list_lookup_fmap, lookup_seqZ_lt by lia. cbn [fmap option_fmap option_map].
  rewrite Z.add_0_l, Z2Nat.id, (proj2 (Z.ltb_lt _ _)) by lia.
  by destruct (vget_is_Some route i) as [x ->]; [lia|].
Qed.

Section Runs.
Context (cexp : float -> float) (Hexp : exp_ok cexp).

(** Everything one message can do. *)
Inductive handles (s : TrafficServer) (now : float) : message -> TrafficServer * list effect -> Prop :=
| handles_decay s' :
    Forall2 decayed (traffic (net s)) (traffic (net s')) ->
    s' = with_traffic s (traffic (net s')) ->
    handles s now (TimerMsg decayTimer) (s', [ScheduleAfter (decayInterval (params s')) decayTimer])
| handles_reset :
    handles s now (TimerMsg rerouteCounterResetTimer)
      (with_count s 0, [ScheduleAfter fone rerouteCounterResetTimer])
| handles_report addr port r out :
    reported cexp s now addr port r out -> handles s now (PacketMsg addr port r) out.

Lemma decayed_counts n ts ts' :
  0 <= n -> Forall2 decayed ts ts' ->
  Forall (fun tr => vehicleCount tr <= n /\ realTTCount tr <= n) ts ->
  Forall (fun tr => vehicleCount tr <= n + 1 /\ realTTCount tr <= n + 1) ts'.
Proof.
  intros Hn Hd. induction Hd as [|tr tr' ts ts' (? & ? & _) Hd IH]; intros Hc; [constructor|].
  apply Forall_cons in Hc as [[? ?] ?]. constructor; [lia|auto].
Qed.

Lemma handleMessage_handles s t now m n :
  server_ok t s -> fval t <= fval now -> time_ok now -> msg_ok m ->
  counts_le n s -> 0 <= n < 2 ^ 31 - 1 ->
  exists out, handleMessage cexp s now m = Ok out /\ handles s now m out /\
    server_ok now out.1 /\ counts_le (n + 1) out.1.
Proof.
  intros Hs Ht Hn Hm Hc Hlt. apply (server_ok_later _ now) in Hs; [|exact Ht].
  destruct m as [[]|addr port r]; simpl.
  - destruct (decay_ok now s Hs) as (s' & -> & Hs' & Hd & E). cbn [rbind].
    eexists. split; [done|]. split; [by apply handles_decay|]. split; [assumption|].
    apply (decayed_counts n _ _ (proj1 Hlt) Hd), Hc.
  - eexists. split; [done|]. split; [apply handles_reset|].
    split; [by apply server_ok_count|]. eapply Forall_impl; [exact Hc|]. simpl. lia.
  - destruct (socketDataArrived_reported cexp Hexp s now addr port r n)
      as (out & -> & Hr & ? & ?); [done..|lia|].
    exists out. split; [done|]. split; [by apply handles_report|done].
Qed.

(** A run as the sequence of what its messages do. *)
Inductive runs : float -> TrafficServer -> list (float * message) -> TrafficServer ->
    list (list effect) -> Prop :=
| runs_nil t s : server_ok t s -> runs t s [] s []
| runs_cons t s now m evs s1 e s2 es :
    server_ok t s -> fval t <= fval now -> time_ok now ->
    handles s now m (s1, e) -> runs now s1 evs s2 es ->
    runs t s ((now, m) :: evs) s2 (e :: es).

Lemma runs_start t s evs s' es : runs t s evs s' es -> server_ok t s.
Proof. by intros []. Qed.

Lemma runs_end t s evs s' es : runs t s evs s' es -> server_ok (end_time t evs) s'.
Proof. induction 1; auto. Qed.

Lemma run_runs t s evs n :
  server_ok t s -> timed t evs -> counts_le n s -> 0 <= n ->
  n + vsize evs <= 2 ^ 31 - 1 ->
  exists s' es, run cexp s evs = Ok (s', es) /\ runs t s evs s' es /\
    counts_le (n + vsize evs) s'.
Proof.
  revert t s n. induction evs as [|[now m] evs IH]; intros t s n Hs Ht Hc Hn Hlt; simpl.
  - exists s, []. split; [done|]. split; [by apply runs_nil|]. by rewrite Z.add_0_r.
  - destruct Ht as (Hnow & Hle & Hm & Ht). simpl in Hlt.
    destruct (handleMessage_handles s t now m n) as ([s1 e] & -> & Hh & Hs1 & Hc1); [done..|lia|].
    cbn [rbind]. destruct (IH now s1 (n + 1)) as (s' & es & -> & Hr & Hc'); [done..|lia|lia|].
    cbn [rbind]. exists s', (e :: es). split; [done|]. split; [by eapply runs_cons|].
    by replace (n + Z.of_nat (S (length evs))) with (n + 1 + vsize evs) by lia.
Qed.

Lemma run_app s evs1 evs2 :
  run cexp s (evs1 ++ evs2) =
  let! (s1, es1) := run cexp s evs1 in
  let! (s2, es2) := run cexp s1 evs2 in Ok (s2, es1 ++ es2).
Proof.
  revert s. induction evs1 as [|[now m] evs1 IH]; intros s; simpl.
  - by destruct (run cexp s evs2) as [[]| |].
  - destruct (handleMessage _ _ _ _) as [[s1 e]| |]; [|done..]. cbn [rbind]. rewrite IH.
    destruct (run cexp s1 evs1) as [[s2 es]| |]; [|done..]. cbn [rbind].
    by destruct (run cexp s2 evs2) as [[]| |].
Qed.

(** ** What one message sends *)

Lemma sends_booked s addr port r tr' route :
  sendRoute (booked s addr port r tr') (L3Address_str addr) route =
  [SendTo (route_message route) addr port].
Proof. unfold sendRoute. simpl. by rewrite lookup_insert_eq. Qed.

Lemma handles_count s now m s' e :
  handles s now m (s', e) -> m <> TimerMsg rerouteCounterResetTimer ->
  rerouteCountThisSecond s' = rerouteCountThisSecond s + sends e.
Proof.
  intros Hh Hm. inversion Hh as [? ? E| |? ? ? ? Hr]; subst; [|done|].
  - rewrite E. simpl. unfold sends. simpl. lia.
  - inversion Hr as [| |? ? ? ? ? ? ? ? ? ? Hd]; subst; try (unfold sends; simpl; lia).
    inversion Hd; subst; rewrite ?sends_booked; unfold sends; simpl; lia.
Qed.

(** A packet answers the report just handled, is due, and carries the start of a
    cheapest route. *)
Lemma handles_send s now m s' e x a p :
  handles s now m (s', e) -> SendTo x a p ∈ e ->
  exists r s1 route, m = PacketMsg a p r /\ e = [SendTo x a p] /\ known s r /\
    (exists tr', s1 = booked s a p r tr') /\
    route <> [] /\ x = route_message route /\
    best_route cexp s1 now (hashVehicleKey (L3Address_str a)) (edgeIndex r) (destEdgeIndex r) route /\
    due s (L3Address_str a) now = true /\ lastRouteSent s' !! L3Address_str a = Some now.
Proof.
  intros Hh Hx. inversion Hh as [? ? E| |? ? ? ? Hr]; subst.
  - apply list_elem_of_singleton in Hx. done.
  - apply list_elem_of_singleton in Hx. done.
  - inversion Hr as [| |? ? ? ? ? ? ? ? ? ? Hd]; subst; try (by apply elem_of_nil in Hx).
    inversion Hd as [| | | |route ? ? ? Hbest]; subst; try (by apply elem_of_nil in Hx).
    rewrite sends_booked in Hx. apply list_elem_of_singleton in Hx. simplify_eq.
    rewrite sends_booked. eexists _, _, route. split_and!; try reflexivity; try eassumption.
    + by eexists.
    + simpl. by rewrite lookup_insert_eq.
Qed.
(** ** Limits on sending *)

Lemma run_count t s evs s' es :
  runs t s evs s' es ->
  Forall (fun ev => ev.2 <> TimerMsg rerouteCounterResetTimer) evs ->
  rerouteCountThisSecond s' = rerouteCountThisSecond s + sends (concat es).
Proof.
  induction 1 as [|t s now m evs s1 e s2 es Hs Ht Hn Hh Hr IH]; intros Hev.
  - unfold sends. simpl. lia.
  - apply Forall_cons in Hev as [Hm Hev]. simpl. rewrite sends_app.
    rewrite IH, (handles_count _ _ _ _ _ Hh) by done. lia.
Qed.

(** The time of the last route to a vehicle only moves forward. *)
Lemma handles_lastRoute s now m s' e key t0 :
  handles s now m (s', e) -> server_ok now s -> lastRouteSent s !! key = Some t0 ->
  exists t1, lastRouteSent s' !! key = Some t1 /\ fval t0 <= fval t1.
Proof.
  intros Hh Hs Hk. pose proof (proj2 (ok_sent _ _ Hs key t0 Hk)) as Hle.
  assert (Hsame : exists t1, lastRouteSent s !! key = Some t1 /\ fval t0 <= fval t1)
    by (exists t0; split; [done|lia]).
  assert (Hnew : forall k, exists t1, <[k:=now]> (lastRouteSent s) !! key = Some t1 /\ fval t0 <= fval t1).
  { intros k. destruct (decide (k = key)) as [->|]; [rewrite lookup_insert_eq; eauto|].
    by rewrite lookup_insert_ne. }
  inversion Hh as [? ? E| |? ? ? ? Hr]; subst; simpl; [by rewrite E|assumption|].
  inversion Hr as [| |? ? ? ? ? ? ? ? ? ? Hd]; subst; [assumption..|].
  inversion Hd; subst; simpl; auto.
Qed.

Lemma runs_lastRoute t s evs s' es key t0 :
  runs t s evs s' es -> lastRouteSent s !! key = Some t0 ->
  exists t1, lastRouteSent s' !! key = Some t1 /\ fval t0 <= fval t1.
Proof.
  intros Hr. revert t0. induction Hr as [|t s now m evs s1 e s2 es Hs Ht Hn Hh Hr IH];
    intros t0 Hk; [exists t0; split; [done|lia]|].
  destruct (handles_lastRoute _ _ _ _ _ _ _ Hh (server_ok_later _ _ _ Ht Hs) Hk) as (t1 & Hk1 & ?).
  destruct (IH _ Hk1) as (t2 & ? & ?). exists t2. split; [done|lia].
Qed.

Lemma due_interval s key now t :
  server_ok now s -> time_ok now -> due s key now = true -> lastRouteSent s !! key = Some t ->
  fval (rerouteInterval (params s)) <= fval (fsub now t).
Proof.
  intros Hs Hn Hd Hk. unfold due, isFirstReport, timeElapsed, isFirstReport in Hd.
  rewrite Hk, bool_decide_eq_false_2 in Hd by done. simpl in Hd.
  pose proof (sinceLast_ok s key now Hs Hn) as Hsl. unfold sinceLast in *. rewrite Hk in *.
  destruct (ok_interval _ _ Hs). rewrite fleb_val in Hd by done. lia.
Qed.

Lemma fsub_anti now t0 t1 :
  time_ok now -> time_ok t0 -> time_ok t1 -> fval t0 <= fval t1 -> fval t1 <= fval now ->
  fval (fsub now t1) <= fval (fsub now t0).
Proof.
  intros [] [] [] ? ?. rewrite !fval_sub by (assumption || lia).
  apply cap_mono, RN_mono; lia.
Qed.

Lemma handles_params s now m s' e : handles s now m (s', e) -> params s' = params s.
Proof.
  intros Hh. inversion Hh as [? ? E| |? ? ? ? Hr]; subst; simpl; [by rewrite E|done|].
  inversion Hr as [| |? ? ? ? ? ? ? ? ? ? Hd]; subst; [done..|]. by inversion Hd; subst.
Qed.

Lemma runs_params t s evs s' es : runs t s evs s' es -> params s' = params s.
Proof.
  induction 1 as [|t s now m evs s1 e s2 es Hs Ht Hn Hh Hr IH]; [done|].
  rewrite IH. by eapply handles_params.
Qed.

(** ** Forgetting *)

(** [k] decays and no reports have left at most 15^k/16^k of [c]. *)
Definition faded (c k : Z) (tr : EdgeTraffic) : Prop :=
  16 ^ k * vehicleCount tr <= 15 ^ k * c /\ 16 ^ k * realTTCount tr <= 15 ^ k * c /\
  (0 < k -> realTTCount tr = 0 -> realTravelTime_ tr = f0).

Lemma decayed_faded c k tr tr' : 0 <= k -> decayed tr tr' -> faded c k tr -> faded c (k + 1) tr'.
Proof.
  intros Hk (Hv & Hc & _ & _ & Hz) (Fv & Fc & _). unfold faded.
  rewrite !Z.pow_add_r by lia. assert (0 < 16 ^ k) by (by apply Z.pow_pos_nonneg).
  split_and!; [nia|nia|auto].
Qed.

Lemma shrink_zero a b c d M n :
  a * M < d -> 0 < c <= b -> 0 <= a * M -> 0 <= n -> d * b * n <= a * c * M -> n = 0.
Proof.
  intros Hd Hc Ha Hn Hle. destruct (Z.eq_dec n 0); [done|exfalso].
  assert (d * b * 1 <= d * b * n) by (apply Z.mul_le_mono_nonneg_l; nia).
  assert (a * M * c < d * c) by (apply Z.mul_lt_mono_pos_r; lia). nia.
Qed.

Lemma faded_zero k n : 334 <= k -> 0 <= n -> 16 ^ k * n <= 15 ^ k * 2 ^ 31 -> n = 0.
Proof.
  intros Hk Hn Hle. replace k with (334 + (k - 334)) in Hle by lia.
  rewrite !Z.pow_add_r in Hle by lia.
  apply (shrink_zero (15 ^ 334) (16 ^ (k - 334)) (15 ^ (k - 334)) (16 ^ 334) (2 ^ 31));
    [by vm_compute| |by vm_compute|assumption|assumption].
  split; [apply Z.pow_pos_nonneg; lia|apply Z.pow_le_mono_l; lia].
Qed.

Definition is_decay (ev : float * message) : bool :=
  match ev.2 with TimerMsg decayTimer => true | _ => false end.
Definition is_timer (ev : float * message) : bool :=
  match ev.2 with TimerMsg _ => true | PacketMsg _ _ _ => false end.
Definition decays (evs : list (float * message)) : Z := vsize (List.filter is_decay evs).

(** Timers alone need no room for counting. *)
Lemma timers_run t s evs :
  server_ok t s -> timed t evs -> Forall (fun ev => is_timer ev = true) evs ->
  exists s' es, run cexp s evs = Ok (s', es) /\ runs t s evs s' es.
Proof.
  revert t s. induction evs as [|[now m] evs IH]; intros t s Hs Ht Hev; simpl.
  - exists s, []. split; [done|]. by apply runs_nil.
  - destruct Ht as (Hnow & Hle & _ & Ht). apply Forall_cons in Hev as [Hm Hev].
    apply (server_ok_later _ now) in Hs as Hs1; [|exact Hle].
    destruct m as [[]|]; [| |done]; simpl.
    + destruct (decay_ok now s Hs1) as (s1 & -> & Hs' & Hd & E). cbn [rbind].
      destruct (IH now s1) as (s' & es & -> & Hr); [done..|]. cbn [rbind].
      eexists _, _. split; [done|]. eapply runs_cons; [done..| |exact Hr]. by apply handles_decay.
    + destruct (IH now (with_count s 0)) as (s' & es & -> & Hr); [by apply server_ok_count|done..|].
      cbn [rbind]. eexists _, _. split; [done|].
      eapply runs_cons; [done..| |exact Hr]. by apply handles_reset.
Qed.

Lemma runs_faded t s evs s' es c k :
  runs t s evs s' es -> Forall (fun ev => is_timer ev = true) evs -> 0 <= k ->
  Forall (faded c k) (traffic (net s)) -> Forall (faded c (k + decays evs)) (traffic (net s')).
Proof.
  intros Hr. revert k. induction Hr as [|t s now m evs s1 e s2 es Hs Ht Hn Hh Hr IH]; intros k Hev Hk Hf.
  - unfold decays. simpl. by rewrite Z.add_0_r.
  - apply Forall_cons in Hev as [Hm Hev].
    inversion Hh as [? Hd E| |]; subst; unfold decays; cbn [List.filter is_decay snd]; [..|done].
    + replace (k + Z.of_nat _) with (k + 1 + decays evs) by (unfold decays; simpl; lia).
      apply IH; [done|lia|]. clear -Hd Hf Hk. induction Hd; [constructor|].
      apply Forall_cons in Hf as [? ?]. constructor; [|auto]. by eapply decayed_faded.
    + by apply IH.
Qed.
End Runs.

(** ** Properties of the server *)

Section Properties.
Context (cexp : float -> float).

(** C2. The server's route is a cheapest one.  For a well-formed server and two
    edges of the network, [dijkstra] returns (without faulting and within its
    fuel) either a simple route of the road graph from the reported edge to the
    destination that no other route undercuts, costs being accumulated in
    doubles exactly as the search does under [getEdgeWeight] and the vehicle's
    noise, or nothing, and then every route has infinite cost. *)
Theorem server_route_optimal (s : TrafficServer) (now : float) (seed src dst : Z) :
  exp_ok cexp -> server_ok now s -> time_ok now ->
  0 <= src < vsize (edges (net s)) -> 0 <= dst < vsize (edges (net s)) ->
  exists p, server_dijkstra cexp s now src dst seed = Ok p /\
    best_route cexp s now seed src dst p.
Proof. intros. by apply server_dijkstra_ok. Qed.

(** C6. The server never faults.  Started on a network file it can parse, with
    sensible edge data and parameters, it handles any sequence of reports
    (whatever their indices and values) and timers, as long as there are fewer
    than 2^31 of them: no exception, no out-of-range access, no signed overflow;
    and the invariant [server_ok] holds at the end. *)
Theorem server_run_safe (p : ServerParams) (file : option (list string)) (n : RoadNet)
    (evs : list (float * message)) :
  exp_ok cexp -> file_net n file -> Forall edge_ok (edges n) ->
  fnonneg (K p) /\ ffinite (K p) ->
  fnonneg (rerouteInterval p) /\ ffinite (rerouteInterval p) ->
  timed f0 evs -> vsize evs < 2 ^ 31 ->
  exists s0 eff s es, initialize p file = Ok (s0, eff) /\
    run cexp s0 evs = Ok (s, es) /\ server_ok (end_time f0 evs) s.
Proof.
  intros He Hf Hed HK Hi Ht Hlt. unfold initialize. rewrite Hf. cbn [rbind].
  destruct (file_net_wf _ _ Hf) as (Hwf & Htr & _).
  set (s0 := Build_TrafficServer _ _ _ _ _ _).
  destruct (run_runs cexp He f0 s0 evs 0) as (s & es & Hr & Hrs & _).
  - split; try done; simpl.
    rewrite Htr. apply Forall_replicate, new_traffic_ok.
  - assumption.
  - exact (fresh_counts s0 _ Htr).
  - lia.
  - lia.
  - exists s0. eexists. exists s, es. split; [done|]. split; [assumption|].
    by eapply runs_end.
Qed.

(** Every packet the server sends answers the report it is handling: it goes
    back to the reporting address and port, the report's indices are known
    edges, and it carries the first 64 edges of a cheapest route from the
    reported edge to the reported destination under the traffic data that
    includes this report. *)
Theorem route_answers_report (s s' : TrafficServer) (now t : float) (m : message)
    (e : list effect) (x : ServerRouteMsg) (a : L3Address) (p : Z) :
  exp_ok cexp -> server_ok t s -> fval t <= fval now -> time_ok now -> msg_ok m ->
  capacity s [(now, m)] -> handleMessage cexp s now m = Ok (s', e) -> SendTo x a p ∈ e ->
  exists r s1 route, m = PacketMsg a p r /\ e = [SendTo x a p] /\ known s r /\
    (exists tr', s1 = booked s a p r tr') /\
    routeLength x = Z.min (vsize route) 64 /\
    (forall i, 0 <= i < routeLength x -> vget (routeEdges x) i = vget route i) /\
    best_route cexp s1 now (hashVehicleKey (L3Address_str a)) (edgeIndex r) (destEdgeIndex r) route.
Proof.
  intros He Hs Ht Hn Hm (n & H0 & Hc & Hlt) Hh Hx. simpl in Hlt.
  destruct (handleMessage_handles cexp He s t now m n) as (out & Hout & Hd & _); [assumption..|lia|].
  rewrite Hh in Hout. injection Hout as <-.
  destruct (handles_send cexp _ _ _ _ _ _ _ _ Hd Hx)
    as (r & s1 & route & ? & ? & ? & Hb & _ & -> & Hbest & _).
  exists r, s1, route. do 3 (split; [assumption|]). split; [exact Hb|]. split; [done|].
  split; [|exact Hbest].
  intros i Hi. by apply route_message_edge.
Qed.

(** The stagger limit: from any well-formed state and over any sequence of
    messages without a counter reset (the one-second timer), the server sends at
    most eight routes, counting those already sent since the last reset. *)
Theorem stagger_limit (s s' : TrafficServer) (t : float) (evs : list (float * message))
    (es : list (list effect)) :
  exp_ok cexp -> server_ok t s -> timed t evs -> capacity s evs ->
  Forall (fun ev => ev.2 <> TimerMsg rerouteCounterResetTimer) evs ->
  run cexp s evs = Ok (s', es) ->
  rerouteCountThisSecond s + sends (concat es) <= 8.
Proof.
  intros He Hs Ht (n & Hn & Hc & Hlt) Hev Hrun.
  destruct (run_runs cexp He t s evs n) as (s1 & es1 & Hr & Hrs & _); [assumption..|].
  rewrite Hrun in Hr. injection Hr as <- <-. rewrite <- (run_count cexp _ _ _ _ _ Hrs Hev).
  apply (ok_count _ _ (runs_end cexp _ _ _ _ _ Hrs)).
Qed.

(** Two routes sent to the same vehicle address are at least
    [rerouteInterval] seconds apart (as doubles), whatever happens in between. *)
Theorem route_spacing (s s1 s2 s3 : TrafficServer) (t t1 t2 : float) (m1 m2 : message)
    (evs : list (float * message)) (e1 e2 : list effect) (es : list (list effect))
    (x1 x2 : ServerRouteMsg) (a : L3Address) (p1 p2 : Z) :
  let all := (t1, m1) :: evs ++ [(t2, m2)] in
  exp_ok cexp -> server_ok t s -> capacity s all -> timed t all ->
  handleMessage cexp s t1 m1 = Ok (s1, e1) -> SendTo x1 a p1 ∈ e1 ->
  run cexp s1 evs = Ok (s2, es) ->
  handleMessage cexp s2 t2 m2 = Ok (s3, e2) -> SendTo x2 a p2 ∈ e2 ->
  fleb (rerouteInterval (params s)) (fsub t2 t1) = true.
Proof.
  intros all He Hs (n & Hn & Hc & Hlt) (Hn1 & Ht1 & Hm1 & Ht) H1 Hx1 H2 H3 Hx2.
  unfold all in Hlt. simpl in Hlt. rewrite length_app in Hlt. simpl in Hlt.
  apply timed_app in Ht as [Ht (Hn2 & Ht2 & Hm2 & _)].
  destruct (handleMessage_handles cexp He s t t1 m1 n) as (? & Ho & Hh1 & Hs1 & Hc1); [done..|lia|].
  rewrite H1 in Ho. injection Ho as <-.
  destruct (run_runs cexp He t1 s1 evs (n + 1)) as (? & ? & Ho & Hr & Hc2); [done..|lia|lia|].
  rewrite H2 in Ho. injection Ho as <- <-. pose proof (runs_end cexp _ _ _ _ _ Hr) as Hs2.
  destruct (handleMessage_handles cexp He s2 (end_time t1 evs) t2 m2 (n + 1 + vsize evs))
    as (? & Ho & Hh2 & _); [done..|lia|].
  rewrite H3 in Ho. injection Ho as <-.
  apply (server_ok_later _ t2) in Hs2; [|exact Ht2].
  destruct (handles_send cexp _ _ _ _ _ _ _ _ Hh1 Hx1) as (_ & _ & _ & _ & _ & _ & _ & _ & _ & _ & _ & Hl).
  destruct (handles_send cexp _ _ _ _ _ _ _ _ Hh2 Hx2) as (_ & _ & _ & _ & _ & _ & _ & _ & _ & _ & Hd & _).
  destruct (runs_lastRoute cexp _ _ _ _ _ _ _ Hr Hl) as (t' & Hl' & Hle).
  destruct (ok_sent _ _ Hs2 _ _ Hl') as [Ht' Hle'].
  apply (due_interval _ _ _ _ Hs2 Hn2 Hd) in Hl'.
  rewrite (runs_params cexp _ _ _ _ _ Hr), (handles_params cexp _ _ _ _ _ Hh1) in Hl'.
  destruct (ok_interval _ _ Hs), Hn1, Hn2, Ht'.
  rewrite fleb_val; [|assumption|apply fsub_nonneg; (assumption || lia)].
  apply Z.leb_le. etransitivity; [exact Hl'|]. by apply fsub_anti; [split..| |].
Qed.

(** Stale traffic is forgotten: after 334 decays without a report, whatever
    happened before, every edge counts no vehicle and no measured travel time,
    and its cost is again based on the free-flow time. *)
Theorem traffic_forgotten (s s' : TrafficServer) (t : float) (evs : list (float * message))
    (es : list (list effect)) :
  server_ok t s -> timed t evs ->
  Forall (fun ev => is_timer ev = true) evs -> 334 <= decays evs ->
  run cexp s evs = Ok (s', es) ->
  Forall (fun tr => vehicleCount tr = 0 /\ realTTCount tr = 0 /\ realTravelTime_ tr = f0 /\
                    forall ed, baseTT ed tr = ed_baseTravelTime ed) (traffic (net s')).
Proof.
  intros Hs Ht Hev Hk Hrun.
  destruct (timers_run cexp t s evs Hs Ht Hev) as (? & ? & Ho & Hr).
  rewrite Hrun in Ho. injection Ho as <- <-.
  pose proof (ok_traffic _ _ (runs_end cexp _ _ _ _ _ Hr)) as Hok.
  assert (Hf : Forall (faded (2 ^ 31) 0) (traffic (net s))).
  { eapply Forall_impl; [exact (ok_traffic _ _ Hs)|]. intros tr [[] [] _ _ _].
    unfold faded. simpl. split_and!; lia. }
  apply (runs_faded cexp _ _ _ _ _ _ _ Hr Hev (Z.le_refl 0)) in Hf.
  rewrite Forall_forall in Hf, Hok |- *. intros tr Htr. specialize (Hf tr Htr).
  destruct (Hok tr Htr) as [[Hv _] [Hc _] _ _ _]. destruct Hf as (Fv & Fc & Fz).
  rewrite Z.add_0_l in *. apply faded_zero in Fv, Fc; [|lia..].
  rewrite Fv, Fc, Fz by lia. split_and!; [done..|]. intros ed. unfold baseTT. by rewrite Fc.
Qed.

(** What the server remembers about the route of a vehicle, by the outcome of the
    decision: nothing new, or the time and the edge of a new route, counted only
    when it is long enough to be sent. *)
Definition route_kept (s s' : TrafficServer) (e : list effect) : Prop :=
  lastRouteSent s' = lastRouteSent s /\ lastRouteEdge s' = lastRouteEdge s /\
  rerouteCountThisSecond s' = rerouteCountThisSecond s /\ e = [].

Definition route_noted (s s' : TrafficServer) (now : float) (a : L3Address) (p : Z)
    (r : VehicleReportMsg) (route : list Z) (e : list effect) : Prop :=
  lastRouteSent s' = <[L3Address_str a := now]> (lastRouteSent s) /\
  lastRouteEdge s' = <[L3Address_str a := edgeIndex r]> (lastRouteEdge s) /\
  if fltb (route_distance (edges (net s)) f0 route) (minRouteDistance (params s))
  then rerouteCountThisSecond s' = rerouteCountThisSecond s /\ e = []
  else rerouteCountThisSecond s' = rerouteCountThisSecond s + 1 /\
       e = [SendTo (route_message route) a p].

Definition route_bookkeeping (s s' : TrafficServer) (now : float) (a : L3Address) (p : Z)
    (r : VehicleReportMsg) (e : list effect) : Prop :=
  let best := best_route cexp s' now (hashVehicleKey (L3Address_str a))
                (edgeIndex r) (destEdgeIndex r) in
  if (edgeIndex r =? destEdgeIndex r) || negb (due s (L3Address_str a) now) ||
     (8 <=? rerouteCountThisSecond s)
  then route_kept s s' e
  else best [] /\ route_kept s s' e \/
       exists route, route <> [] /\ best route /\ route_noted s s' now a p r route e.

Lemma reported_bookkeeping s now a p r s' e :
  known s r -> reported cexp s now a p r (s', e) -> route_bookkeeping s s' now a p r e.
Proof.
  intros Hk Hrep. unfold route_bookkeeping.
  inversion Hrep as [|? ? ? _ Heq|? ? tr' ? _ Hne _ _ _ Hb Hd]; subst; [done|..].
  { by rewrite (proj2 (Z.eqb_eq _ _) Heq). }
  rewrite (proj2 (Z.eqb_neq _ _) Hne). cbn [orb].
  inversion Hd as [Hdue|Hdue Hc|Hdue Hc Hbest|route Hdue Hc Hr Hbest Hm|route Hdue Hc Hr Hbest Hm]; subst;
    change (due (booked s a p r tr')) with (due s) in Hdue; rewrite Hdue; cbn [negb orb];
    [done|unfold MAX_REROUTES_PER_SEC in Hc; simpl in Hc..].
  - by rewrite (proj2 (Z.leb_le _ _) Hc).
  - rewrite (proj2 (Z.leb_gt _ _) Hc). by left.
  - rewrite (proj2 (Z.leb_gt _ _) Hc). right. exists route. do 2 (split; [done|]).
    unfold route_noted. simpl in Hm. by rewrite Hm.
  - rewrite (proj2 (Z.leb_gt _ _) Hc). right. exists route. do 2 (split; [done|]).
    unfold route_noted. simpl in Hm. by rewrite Hm, sends_booked.
Qed.

Lemma reported_stored s now a p r s' e :
  time_ok now -> known s r -> reported cexp s now a p r (s', e) ->
  exists ed tr tr',
    vget (edges (net s)) (edgeIndex r) = Some ed /\
    vget (traffic (net s)) (edgeIndex r) = Some tr /\ absorbed ed tr r now tr' /\
    traffic (net s') = <[Z.to_nat (edgeIndex r) := tr']> (traffic (net s)) /\
    edges (net s') = edges (net s) /\ adjacency (net s') = adjacency (net s) /\
    params s' = params s /\
    vehicleMap s' = <[L3Address_str a :=
      {| ve_address := a; ve_port := p; currentEdge := edgeIndex r; destEdge := destEdgeIndex r |}]>
      (vehicleMap s).
Proof.
  intros Hn Hk Hrep.
  inversion Hrep as [|ed tr tr' ? ? Hed Htr Habs|ed tr tr' ? ? ? Hed Htr Habs Hb Hd]; subst; [done|..].
  - exists ed, tr, tr'. by split_and!.
  - exists ed, tr, tr'. by inversion Hd; subst; split_and!.
Qed.

(** C35. What a report changes: a report with an unknown edge index changes nothing
    and triggers nothing.  Any other updates the counters, the smoothed speed and
    the time stamp of its own edge, takes its travel time into account only when
    it is plausible, and leaves the traffic of all other edges, the roads and the
    parameters as they were; the vehicle is stored under its address with its port,
    its edge and its destination, and no other vehicle is touched; the time and the
    edge of its last route and the count of this second stay as they were when the
    vehicle has arrived, is not due, the second's eight routes are used up or there
    is no route, and otherwise record a cheapest route, which is counted and sent
    unless it is too short. *)
Theorem report_effect (s s' : TrafficServer) (now t : float) (a : L3Address) (p : Z)
    (r : VehicleReportMsg) (e : list effect) :
  exp_ok cexp -> server_ok t s -> fval t <= fval now -> time_ok now -> report_ok r ->
  capacity s [(now, PacketMsg a p r)] ->
  handleMessage cexp s now (PacketMsg a p r) = Ok (s', e) ->
  (~ known s r -> s' = s /\ e = []) /\
  (known s r -> exists ed tr tr',
     vget (edges (net s)) (edgeIndex r) = Some ed /\
     vget (traffic (net s)) (edgeIndex r) = Some tr /\ absorbed ed tr r now tr' /\
     traffic (net s') = <[Z.to_nat (edgeIndex r) := tr']> (traffic (net s)) /\
     edges (net s') = edges (net s) /\ adjacency (net s') = adjacency (net s) /\
     params s' = params s /\
     vehicleMap s' = <[L3Address_str a :=
       {| ve_address := a; ve_port := p; currentEdge := edgeIndex r; destEdge := destEdgeIndex r |}]>
       (vehicleMap s)) /\
  (known s r -> route_bookkeeping s s' now a p r e).
Proof.
  intros He Hs Ht Hn Hm (n & H0 & Hc & Hlt) Hh. simpl in Hlt.
  destruct (handleMessage_handles cexp He s t now (PacketMsg a p r) n) as (out & Hout & Hd & _);
    [assumption..|lia|].
  rewrite Hh in Hout. injection Hout as <-.
  inversion Hd as [| |? ? ? ? Hrep]; subst.
  split; [|split].
  - intros Hk. by inversion Hrep.
  - intros Hk. by apply (reported_stored s now a p r s' e).
  - intros Hk. by apply reported_bookkeeping.
Qed.
End Properties.

(** ** A small scenario, for concrete instances *)

Definition demo_lines : list string :=
  let q s := quote_str +:+ s +:+ quote_str in
  let edge id := "<edge id=" +:+ q id +:+ ">" in
  let lane id len := "<lane id=" +:+ q id +:+ " speed=" +:+ q "13.9" +:+ " length=" +:+ q len +:+ "/>" in
  let conn a b := "<connection from=" +:+ q a +:+ " to=" +:+ q b +:+ " dir=" +:+ q "s" +:+ "/>" in
  [edge "A"; lane "A_0" "400.0"; "</edge>"; edge "B"; lane "B_0" "500.0"; "</edge>";
   edge "C"; lane "C_0" "200.0"; "</edge>"; edge "D"; lane "D_0" "300.0"; "</edge>";
   conn "A" "B"; conn "B" "D"; conn "A" "C"; conn "C" "D"].

Definition demo_net : RoadNet :=
  match parseNetXml empty_net (Some demo_lines) with Ok n => n | _ => empty_net end.

Definition demo_params : ServerParams :=
  {| listenPort := 5000; vehicleBasePort := 6000; K := flit 15 10; speedLimit := flit 139 10;
     normalTravelTime := flit 10 1; decayInterval := flit 5 1; rerouteInterval := flit 30 1;
     minRouteDistance := flit 50 1 |}.

Definition fresh_server (n : RoadNet) : TrafficServer :=
  {| net := n; vehicleMap := ∅; lastRouteSent := ∅; lastRouteEdge := ∅;
     params := demo_params; rerouteCountThisSecond := 0 |}.
Definition demo_server : TrafficServer := fresh_server demo_net.

(** [exp] instantiated by the constant one, the value without ageing. *)
Definition demo_exp (_ : float) : float := fone.

Definition demo_report : VehicleReportMsg :=
  {| edgeIndex := 0; destEdgeIndex := 3; speed := flit 5 1; timestamp := fone;
     realTravelTime := flit 20 1; laneChangeCount := 0; report_chunkLength := 36 |}.

Lemma demo_exp_ok : exp_ok demo_exp.
Proof. intros x _ _. unfold demo_exp. exact (conj (proj1 fone_nonneg) (Z.le_refl _)). Qed.

Lemma demo_file : file_net demo_net (Some demo_lines).
Proof. vm_compute. reflexivity. Qed.

Definition edge_checked (ed : EdgeData) : Prop :=
  fnonneg (ed_length ed) /\ (fnonneg (ed_speedLimit ed) /\ ffinite (ed_speedLimit ed)) /\
  (fnonneg (ed_baseTravelTime ed) /\ feqb (ed_baseTravelTime ed) f0 = false).

Lemma edges_checked es : Forall edge_checked es -> Forall edge_ok es.
Proof.
  intros H. eapply Forall_impl; [exact H|]. intros ed (? & ? & ? & Hz). split; [done..|].
  split; [done|]. intros Hf. by destruct (ed_baseTravelTime ed).
Qed.

Lemma demo_edges_ok : Forall edge_ok (edges demo_net).
Proof. apply edges_checked. vm_compute. repeat constructor. Qed.

Lemma demo_params_ok :
  (fnonneg (K demo_params) /\ ffinite (K demo_params)) /\
  (fnonneg (rerouteInterval demo_params) /\ ffinite (rerouteInterval demo_params)).
Proof. vm_compute. auto. Qed.

Lemma fresh_server_ok n f :
  file_net n f -> Forall edge_ok (edges n) ->
  server_ok f0 (fresh_server n) /\ counts_le 0 (fresh_server n).
Proof.
  intros Hf He. destruct (file_net_wf _ _ Hf) as (Hwf & Htr & _).
  destruct demo_params_ok as [HK Hi]. split; [|exact (fresh_counts (fresh_server n) _ Htr)].
  split; [exact Hwf|exact He| |exact HK|exact Hi|apply map_Forall_empty|].
  - cbn [net fresh_server]. rewrite Htr. apply Forall_replicate, new_traffic_ok.
  - unfold MAX_REROUTES_PER_SEC. cbn [rerouteCountThisSecond fresh_server]. lia.
Qed.

Lemma demo_server_ok : server_ok f0 demo_server.
Proof. exact (proj1 (fresh_server_ok _ _ demo_file demo_edges_ok)). Qed.

Lemma demo_capacity evs : vsize evs < 2 ^ 31 - 1 -> capacity demo_server evs.
Proof.
  intros Hl. exists 0. split; [apply Z.le_refl|].
  split; [exact (proj2 (fresh_server_ok _ _ demo_file demo_edges_ok))|lia].
Qed.

Lemma demo_size : vsize (edges (net demo_server)) = 4.
Proof. vm_compute. reflexivity. Qed.

(** The vehicle at 10.0.0.1 reports from A, bound for D, at one second and at forty
    seconds; in between the counter is reset. *)
Definition demo_addr : L3Address := L3_IPv4 167772161.
Definition demo_packet : message := PacketMsg demo_addr 6000 demo_report.
Definition demo_route : effect := SendTo (route_message [0; 2; 3]) demo_addr 6000.
Definition after (s : TrafficServer) (now : float) (m : message) : TrafficServer :=
  match handleMessage demo_exp s now m with Ok (s', _) => s' | _ => s end.
Definition demo_server1 : TrafficServer := after demo_server (flit 1 1) demo_packet.
Definition demo_server2 : TrafficServer :=
  after demo_server1 (flit 2 1) (TimerMsg rerouteCounterResetTimer).
Definition demo_server3 : TrafficServer := after demo_server2 (flit 40 1) demo_packet.

Lemma demo_step1 :
  handleMessage demo_exp demo_server (flit 1 1) demo_packet = Ok (demo_server1, [demo_route]).
Proof. vm_compute. reflexivity. Qed.
Lemma demo_step3 :
  handleMessage demo_exp demo_server2 (flit 40 1) demo_packet = Ok (demo_server3, [demo_route]).
Proof. vm_compute. reflexivity. Qed.
Lemma demo_step2 :
  run demo_exp demo_server1 [(flit 2 1, TimerMsg rerouteCounterResetTimer)] =
  Ok (demo_server2, [[ScheduleAfter fone rerouteCounterResetTimer]]).
Proof. vm_compute. reflexivity. Qed.

Lemma flit_time_ok n : In n [1; 2; 40]%positive -> time_ok (flit n 1).
Proof. simpl. intros [<-|[<-|[<-|[]]]]; vm_compute; auto. Qed.
Lemma f0_time_ok : time_ok f0.
Proof. vm_compute. auto. Qed.
Lemma flit_le a b : fnonneg a -> fnonneg b -> fleb a b = true -> fval a <= fval b.
Proof. intros Ha Hb H. rewrite fleb_val in H by assumption. by apply Z.leb_le. Qed.
Lemma demo_report_ok : report_ok demo_report.
Proof. vm_compute. auto. Qed.

Lemma demo_timed :
  timed f0 [(flit 1 1, demo_packet); (flit 2 1, TimerMsg rerouteCounterResetTimer);
            (flit 40 1, demo_packet)].
Proof.
  assert (H0 := flit_time_ok 1). assert (H1 := flit_time_ok 2). assert (H2 := flit_time_ok 40).
  cbn [In] in *. cbn [timed]. 
  repeat match goal with |- _ /\ _ => split end; try exact I; try exact demo_report_ok; try tauto;
    apply flit_le; try (vm_compute; tauto); try (vm_compute; reflexivity).
Qed.

Lemma server_route_optimal_witness :
  exists p, server_dijkstra demo_exp demo_server f0 0 3 7 = Ok p /\
    best_route demo_exp demo_server f0 7 0 3 p.
Proof.
  apply (server_route_optimal demo_exp demo_server f0 7 0 3).
  - exact demo_exp_ok.
  - exact demo_server_ok.
  - exact f0_time_ok.
  - rewrite demo_size. lia.
  - rewrite demo_size. lia.
Defined.

Lemma server_run_safe_witness :
  exists s0 eff s es, initialize demo_params (Some demo_lines) = Ok (s0, eff) /\
    run demo_exp s0 [(flit 1 1, demo_packet); (flit 2 1, TimerMsg rerouteCounterResetTimer);
            (flit 40 1, demo_packet)] = Ok (s, es) /\
    server_ok (flit 40 1) s.
Proof.
  apply (server_run_safe demo_exp demo_params (Some demo_lines) demo_net _ demo_exp_ok
    demo_file demo_edges_ok (ok_K _ _ demo_server_ok) (ok_interval _ _ demo_server_ok) demo_timed).
  vm_compute. reflexivity.
Defined.

Lemma route_answers_report_witness :
  exists r s1 route, demo_packet = PacketMsg demo_addr 6000 r /\ [demo_route] = [demo_route] /\
    known demo_server r /\
    (exists tr', s1 = booked demo_server demo_addr 6000 r tr') /\
    3 = Z.min (vsize route) 64 /\
    (forall i, 0 <= i < 3 -> vget (routeEdges (route_message [0; 2; 3])) i = vget route i) /\
    best_route demo_exp s1 (flit 1 1) (hashVehicleKey (L3Address_str demo_addr))
      (edgeIndex r) (destEdgeIndex r) route.
Proof.
  refine (route_answers_report demo_exp demo_server demo_server1 (flit 1 1) f0 demo_packet
    [demo_route] (route_message [0; 2; 3]) demo_addr 6000 demo_exp_ok demo_server_ok
    (proj1 (proj2 demo_timed)) (proj1 demo_timed) demo_report_ok _ demo_step1 _).
  - apply demo_capacity. reflexivity.
  - apply list_elem_of_singleton. reflexivity.
Defined.

Lemma stagger_limit_witness :
  rerouteCountThisSecond demo_server + sends (concat [[demo_route]]) <= 8.
Proof.
  refine (stagger_limit demo_exp demo_server demo_server1 f0 [(flit 1 1, demo_packet)] [[demo_route]]
    demo_exp_ok demo_server_ok _ _ _ _).
  - exact (conj (proj1 demo_timed) (conj (proj1 (proj2 demo_timed)) (conj demo_report_ok I))).
  - apply demo_capacity. reflexivity.
  - repeat constructor. discriminate.
  - cbn [run]. rewrite demo_step1. reflexivity.
Defined.

Lemma route_spacing_witness :
  fleb (rerouteInterval (params demo_server)) (fsub (flit 40 1) (flit 1 1)) = true.
Proof.
  refine (route_spacing demo_exp demo_server demo_server1 demo_server2 demo_server3 f0
    (flit 1 1) (flit 40 1) demo_packet demo_packet [(flit 2 1, TimerMsg rerouteCounterResetTimer)]
    [demo_route] [demo_route] [[ScheduleAfter fone rerouteCounterResetTimer]]
    (route_message [0; 2; 3]) (route_message [0; 2; 3]) demo_addr 6000 6000
    demo_exp_ok demo_server_ok _ demo_timed demo_step1 _ demo_step2 demo_step3 _).
  - apply demo_capacity. reflexivity.
  - apply list_elem_of_singleton. reflexivity.
  - apply list_elem_of_singleton. reflexivity.
Defined.

(** 334 decays at time zero. *)
Definition demo_decays : list (float * message) := replicate 334 (f0, TimerMsg decayTimer).

Lemma demo_decays_run :
  exists s' es, run demo_exp demo_server demo_decays = Ok (s', es) /\ timed f0 demo_decays /\
    Forall (fun ev => is_timer ev = true) demo_decays.
Proof.
  assert (Ht : timed f0 demo_decays).
  { unfold demo_decays. generalize 334%nat. intros k. induction k as [|k IHn]; [exact I|].
    exact (conj f0_time_ok (conj (Z.le_refl _) (conj I IHn))). }
  assert (Hf : Forall (fun ev => is_timer ev = true) demo_decays) by (by apply Forall_replicate).
  destruct (timers_run demo_exp f0 demo_server demo_decays demo_server_ok Ht Hf) as (s' & es & H & _).
  exact (ex_intro _ s' (ex_intro _ es (conj H (conj Ht Hf)))).
Qed.

Lemma traffic_forgotten_witness :
  exists s', Forall (fun tr => vehicleCount tr = 0 /\ realTTCount tr = 0 /\ realTravelTime_ tr = f0 /\
                      forall ed, baseTT ed tr = ed_baseTravelTime ed) (traffic (net s')).
Proof.
  destruct demo_decays_run as (s' & es & Hr & Ht & Hf). exists s'.
  refine (traffic_forgotten demo_exp demo_server s' f0 demo_decays es demo_server_ok Ht Hf _ Hr).
  vm_compute. discriminate.
Defined.

Lemma report_effect_witness :
  (~ known demo_server demo_report -> demo_server1 = demo_server /\ [demo_route] = []) /\
  (known demo_server demo_report -> exists ed tr tr',
     vget (edges (net demo_server)) 0 = Some ed /\
     vget (traffic (net demo_server)) 0 = Some tr /\ absorbed ed tr demo_report (flit 1 1) tr' /\
     traffic (net demo_server1) = <[0%nat := tr']> (traffic (net demo_server)) /\
     edges (net demo_server1) = edges (net demo_server) /\
     adjacency (net demo_server1) = adjacency (net demo_server) /\
     params demo_server1 = params demo_server /\
     vehicleMap demo_server1 = <[L3Address_str demo_addr :=
       {| ve_address := demo_addr; ve_port := 6000; currentEdge := 0; destEdge := 3 |}]>
       (vehicleMap demo_server)) /\
  (known demo_server demo_report ->
     route_bookkeeping demo_exp demo_server demo_server1 (flit 1 1) demo_addr 6000 demo_report
       [demo_route]).
Proof.
  refine (report_effect demo_exp demo_server demo_server1 (flit 1 1) f0 demo_addr 6000 demo_report
    [demo_route] demo_exp_ok demo_server_ok (proj1 (proj2 demo_timed)) (proj1 demo_timed)
    demo_report_ok _ demo_step1).
  apply demo_capacity. reflexivity.
Defined.
