(* ===== verification/VehicleApp.v ===== *)
(** * The vehicle application

    [VehicleApp] (src/simulte/src/apps/TrafficApp/VehicleApp.cc): periodic reports
    to the server, application of the routes it sends, statistics, and the shut-down
    of a vehicle that has left the road traffic simulation.

    SUMO is reached through TraCI.  During one event simulated time stands still, so
    what the queries answer is a record [TraCI]; a query that fails throws.  Commands
    to SUMO, packets, timers and the other modules that are called are effects. *)

From S2P Require Import Prelude Doubles TrafficMsg NetXml TrafficServer.
From Stdlib Require Import Ascii.
#[local] Open Scope Z_scope.

Record TraCI := {
  (** [mobility != nullptr]; [mgr != nullptr] and the manager's map holds the vehicle *)
  mobility_present : bool;
  managed : bool;
  getExternalId : result string;
  getRoadId : result string;
  getSpeed : result float;
  getLaneId : result string;
  getPlannedRoadIds : result (list string);
  getCurrentTravelTime : string -> result float;
  changeVehicleRoute : list string -> result bool;
  changeTarget : string -> result unit;
  (** the host module; the node id of the [LteMacBase] in its [lteNic], when all of
      host, NIC and MAC are found; [getBinder() != nullptr] *)
  host_present : bool;
  mac_node : option Z;
  binder_present : bool
}.

Record VehicleParams := {
  reportInterval : float;
  serverPort : Z;
  localPort : Z;
  penetrationRate : float;
  fullName : string;
  resolvedServerAddr : L3Address
}.

Record VehicleApp := {
  vparams : VehicleParams;
  isEquipped : bool;
  table : EdgeTable;
  lastLaneID : string;
  laneChangeCounter : Z;
  statsInitialized : bool;
  statsWritten : bool;
  lteShutdown : bool;
  deleteSelfMsg : bool;
  deleteScheduled : bool;
  departTime : float;
  departEdge : string;
  lastEdge : string;
  routesReceived : Z;
  routesApplied : Z;
  routesFallback : Z;
  lastDestEdge : string;
  (** state kept by the kernel: [reportTimer->isScheduled()], module deleted *)
  reportScheduled : bool;
  deleted : bool
}.

#[export] Instance vehicle_eta : Eta VehicleApp := fun s =>
  {| vparams := vparams s; isEquipped := isEquipped s; table := table s;
     lastLaneID := lastLaneID s; laneChangeCounter := laneChangeCounter s;
     statsInitialized := statsInitialized s; statsWritten := statsWritten s;
     lteShutdown := lteShutdown s; deleteSelfMsg := deleteSelfMsg s;
     deleteScheduled := deleteScheduled s; departTime := departTime s;
     departEdge := departEdge s; lastEdge := lastEdge s; routesReceived := routesReceived s;
     routesApplied := routesApplied s; routesFallback := routesFallback s;
     lastDestEdge := lastDestEdge s; reportScheduled := reportScheduled s;
     deleted := deleted s |}.

(** A row of the statistics file, before formatting. *)
Record StatsRow := {
  row_vehId : string; row_sumoId : string; row_isEquipped : bool;
  row_departTime : float; row_arrivalTime : float; row_duration : float;
  row_received : Z; row_applied : Z; row_fallback : Z; row_laneChanges : Z;
  row_departEdge : string; row_destEdge : string
}.

Inductive veffect :=
| SendReport (msg : VehicleReportMsg) (addr : L3Address) (port : Z)
| ChangeRoute (route : list string)
| ChangeTarget (edge : string)
| AppendRow (row : StatsRow)
| UnregisterNode (nodeId : Z)
| StopTtiTick
| ScheduleReport (delay : float)
| CancelReport
| ScheduleDeleteSelf
| CloseSocket
| DeleteModule.

(** ** [initialize], the application-layer stage; [coin] is [uniform(0, 1)] *)

Definition vinitialize (p : VehicleParams) (netXmlFile : option (list string)) (coin : float)
    : VehicleApp * list veffect :=
  ({| vparams := p;
      isEquipped := if fleb fone (penetrationRate p) then true else fltb coin (penetrationRate p);
      table := parseEdgeIndex empty_table netXmlFile;
      lastLaneID := ""; laneChangeCounter := 0; statsInitialized := false; statsWritten := false;
      lteShutdown := false; deleteSelfMsg := false; deleteScheduled := false;
      departTime := fopp fone; departEdge := ""; lastEdge := "";
      routesReceived := 0; routesApplied := 0; routesFallback := 0; lastDestEdge := "";
      reportScheduled := true; deleted := false |},
   [ScheduleReport (reportInterval p)]).

(** ** Helpers *)

Definition real_edge (edgeId : string) : bool := negb (is_empty edgeId || starts_with ":" edgeId).

(** [std::string::find_last_of] for one character. *)
Fixpoint find_last_of (s : string) (c : ascii) : option nat :=
  match s with
  | EmptyString => None
  | String d s' =>
      match find_last_of s' c with
      | Some n => Some (S n)
      | None => if Ascii.eqb d c then Some 0%nat else None
      end
  end.

Definition readRealTravelTime (env : TraCI) (edgeId : string) : result float :=
  catch (getCurrentTravelTime env edgeId) (Ok (fopp fone)).

Definition tryInitStats (s : VehicleApp) (env : TraCI) (now : float) : result VehicleApp :=
  if statsInitialized s then Ok s else
  catch
    (let! edgeId := getRoadId env in
     if negb (real_edge edgeId) then Ok s else
     Ok (s <| departTime := now |> <| departEdge := edgeId |> <| lastEdge := edgeId |>
           <| statsInitialized := true |>))
    (Ok s).

Definition updateLastEdge (s : VehicleApp) (env : TraCI) : result VehicleApp :=
  if statsInitialized s then
    catch
      (let! edgeId := getRoadId env in
       if real_edge edgeId then Ok (s <| lastEdge := edgeId |>) else Ok s)
      (Ok s)
  else Ok s.

(** Two lane ids on the same edge: equal up to the last underscore. *)
Definition same_edge_lanes (last cur : string) : bool :=
  match find_last_of last "_", find_last_of cur "_" with
  | Some l, Some c => bool_decide (String.substring 0 l last = String.substring 0 c cur)
  | _, _ => false
  end.

Definition countLaneChange (s : VehicleApp) (env : TraCI) : result VehicleApp :=
  catch
    (let! currentLaneID := getLaneId env in
     let! n :=
       if negb (is_empty (lastLaneID s)) && negb (bool_decide (currentLaneID = lastLaneID s))
          && same_edge_lanes (lastLaneID s) currentLaneID
       then incr (laneChangeCounter s) else Ok (laneChangeCounter s) in
     Ok (s <| laneChangeCounter := n |> <| lastLaneID := currentLaneID |>))
    (Ok s).

Definition writeStatsRow (s : VehicleApp) (env : TraCI) (now : float)
    : result (VehicleApp * list veffect) :=
  if negb (statsInitialized s) then Ok (s, []) else
  if statsWritten s then Ok (s, []) else
  let! sumoId := catch (if mobility_present env then getExternalId env else Ok EmptyString)
                   (Ok EmptyString) in
  Ok (s <| statsWritten := true |>,
      [AppendRow
         {| row_vehId := fullName (vparams s); row_sumoId := sumoId;
            row_isEquipped := isEquipped s; row_departTime := departTime s;
            row_arrivalTime := now; row_duration := fsub now (departTime s);
            row_received := routesReceived s; row_applied := routesApplied s;
            row_fallback := routesFallback s; row_laneChanges := laneChangeCounter s;
            row_departEdge := departEdge s; row_destEdge := lastEdge s |}]).

Definition shutdownLteStack (s : VehicleApp) (env : TraCI) : VehicleApp * list veffect :=
  if lteShutdown s then (s, []) else
  let s := s <| lteShutdown := true |> in
  match mac_node env with
  | None => (s, [])
  | Some nid =>
      let e1 := if negb (nid =? 0) && binder_present env then [UnregisterNode nid] else [] in
      let e2 := e1 ++ [StopTtiTick] in
      if deleteScheduled s then (s, e2) else
      let s := s <| deleteScheduled := true |> in
      let e3 := if reportScheduled s then e2 ++ [CancelReport] else e2 in
      (s <| reportScheduled := false |> <| deleteSelfMsg := true |>, e3 ++ [ScheduleDeleteSelf])
  end.

(** ** [sendReport] *)

Definition destIndex (s : VehicleApp) (planned : list string) : Z :=
  match last planned with
  | Some destEdge => default (-1) (edgeToIndex (table s) !! destEdge)
  | None => -1
  end.

Definition sendReport (s : VehicleApp) (env : TraCI) (now : float)
    : result (VehicleApp * list veffect) :=
  if negb (mobility_present env) then Ok (s <| isEquipped := false |>, []) else
  if negb (managed env) then
    let! (s, e1) := writeStatsRow s env now in
    let (s, e2) := shutdownLteStack s env in
    Ok (s <| isEquipped := false |>, e1 ++ e2)
  else
  let! s := tryInitStats s env now in
  let! s := updateLastEdge s env in
  if negb (isEquipped s) then Ok (s, []) else
  let! edgeId := getRoadId env in
  let! speed := getSpeed env in
  if negb (real_edge edgeId) then Ok (s, []) else
  let! s := countLaneChange s env in
  match edgeToIndex (table s) !! edgeId with
  | None => Ok (s, [])
  | Some edgeIdx =>
      let! planned := getPlannedRoadIds env in
      let destIdx := destIndex s planned in
      if destIdx <? 0 then Ok (s, []) else
      let! destEdge := of_option (vget (indexToEdge (table s)) destIdx) in
      let s := s <| lastDestEdge := destEdge |> in
      let! realTT := readRealTravelTime env edgeId in
      let report :=
        {| edgeIndex := edgeIdx; destEdgeIndex := destIdx; speed := speed; timestamp := now;
           realTravelTime := realTT; laneChangeCount := laneChangeCounter s;
           report_chunkLength := 36 |} in
      Ok (s, [SendReport report (resolvedServerAddr (vparams s)) (serverPort (vparams s))])
  end.

(** ** [socketDataArrived] *)

(** The loop that turns indices into edge names; [None] is the early return. *)
Fixpoint route_names (t : EdgeTable) (msg : ServerRouteMsg) (idxs : list Z)
    : result (option (list string)) :=
  match idxs with
  | [] => Ok (Some [])
  | i :: idxs' =>
      let! idx := getRouteEdges msg i in
      if (idx <? 0) || (vsize (indexToEdge t) <=? idx) then Ok None else
      let! name := of_option (vget (indexToEdge t) idx) in
      let! rest := route_names t msg idxs' in
      Ok (option_map (cons name) rest)
  end.

(** The part of the route from the current edge on; [found] is the flag of the loop. *)
Fixpoint trim (found : bool) (currentEdge : string) (edgeList : list string) : bool * list string :=
  match edgeList with
  | [] => (found, [])
  | e :: es =>
      let found := if decide (e = currentEdge) then true else found in
      let (f, t) := trim found currentEdge es in
      (f, if found then e :: t else t)
  end.

(** [changeTarget] as the last resort; an exception leaves the counter alone. *)
Definition fallback (s : VehicleApp) (env : TraCI) (target : string)
    : result (VehicleApp * list veffect) :=
  let! s := catch (let! _ := changeTarget env target in
                   let! n := incr (routesFallback s) in
                   Ok (s <| routesFallback := n |>)) (Ok s) in
  Ok (s, [ChangeTarget target]).

Definition vsocketDataArrived (s : VehicleApp) (env : TraCI) (routeMsg : ServerRouteMsg)
    : result (VehicleApp * list veffect) :=
  if negb (isEquipped s) then Ok (s, []) else
  let routeLen := routeLength routeMsg in
  if (routeLen <=? 0) || (64 <? routeLen) then Ok (s, []) else
  let! n := incr (routesReceived s) in
  let s := s <| routesReceived := n |> in
  let! names := route_names (table s) routeMsg (seqZ 0 routeLen) in
  match names with
  | None => Ok (s, [])
  | Some edgeList =>
      let! currentEdge := getRoadId env in
      let (found, trimmedRoute) := trim false currentEdge edgeList in
      if negb found || (vsize trimmedRoute <? 2) then
        match last edgeList with
        | Some targetEdge => fallback s env targetEdge
        | None => Ok (s, [])
        end
      else
        let! ok := changeVehicleRoute env trimmedRoute in
        if ok : bool then
          let! n := incr (routesApplied s) in
          Ok (s <| routesApplied := n |>, [ChangeRoute trimmedRoute])
        else
          let! targetEdge := of_option (last trimmedRoute) in
          let! (s, e) := fallback s env targetEdge in
          Ok (s, ChangeRoute trimmedRoute :: e)
  end.

(** ** [finish] and [handleMessage] *)

Definition vfinish (s : VehicleApp) (env : TraCI) (now : float)
    : result (VehicleApp * list veffect) :=
  let! (s, e) := writeStatsRow s env now in
  let e := if reportScheduled s then e ++ [CancelReport] else e in
  Ok (s <| reportScheduled := false |> <| deleteSelfMsg := false |>, e ++ [CloseSocket]).

Inductive vmessage :=
| DeleteSelf
| ReportTimer
| RoutePacket (msg : ServerRouteMsg).

Definition vhandleMessage (s : VehicleApp) (env : TraCI) (now : float) (msg : vmessage)
    : result (VehicleApp * list veffect) :=
  match msg with
  | DeleteSelf =>
      let s := s <| deleteSelfMsg := false |> in
      if host_present env then
        let! (s, e) := vfinish s env now in
        Ok (s <| deleted := true |>, e ++ [DeleteModule])
      else Ok (s, [])
  | ReportTimer =>
      let! (s, e) := sendReport (s <| reportScheduled := false |>) env now in
      if deleteScheduled s then Ok (s, e)
      else Ok (s <| reportScheduled := true |>, e ++ [ScheduleReport (reportInterval (vparams s))])
  | RoutePacket m => vsocketDataArrived s env m
  end.

(** ** The shared statistics file: [writeCsvHeader], [appendCsvRow] *)

Inductive csv_line := CsvHeader | CsvRow (row : StatsRow) | CsvOther (text : string).

(** The static flag, the lines of the file, and whether it can be opened. *)
Record CsvFile := {
  csvHeaderWritten : bool;
  csv_lines : list csv_line;
  csv_opens : bool
}.

#[export] Instance csv_eta : Eta CsvFile := fun f =>
  {| csvHeaderWritten := csvHeaderWritten f; csv_lines := csv_lines f; csv_opens := csv_opens f |}.

Definition writeCsvHeader (f : CsvFile) : CsvFile :=
  if csv_opens f then f <| csv_lines := csv_lines f ++ [CsvHeader] |> else f.

Definition appendCsvRow (f : CsvFile) (row : StatsRow) : CsvFile :=
  let f :=
    if csvHeaderWritten f then f else
    let exists_ := csv_opens f && negb (bool_decide (length (csv_lines f) = 0%nat)) in
    let f := if exists_ then f else writeCsvHeader f in
    f <| csvHeaderWritten := true |> in
  if csv_opens f then f <| csv_lines := csv_lines f ++ [CsvRow row] |> else f.

(** ** The vehicle application: properties

    What a route message makes a vehicle do, what its reports say, and its life
    cycle: statistics written exactly once, silence and clean-up after departure,
    one header in the shared statistics file. *)

(** ** Applying a route *)

Lemma trim_true cur l : trim true cur l = (true, l).
Proof.
  induction l as [|e l IH]; [done|]. simpl. destruct (decide (e = cur)); by rewrite IH.
Qed.

Lemma trim_found cur pre post :
  cur ∉ pre -> trim false cur (pre ++ cur :: post) = (true, cur :: post).
Proof.
  induction pre as [|e pre IH]; intros Hn; simpl.
  - rewrite decide_True by done. by rewrite trim_true.
  - rewrite not_elem_of_cons in Hn. destruct Hn as [He Hn].
    rewrite decide_False by congruence. by rewrite (IH Hn).
Qed.

Lemma trim_absent cur l : cur ∉ l -> trim false cur l = (false, []).
Proof.
  induction l as [|e l IH]; intros Hn; simpl; [done|].
  rewrite not_elem_of_cons in Hn. destruct Hn as [He Hn].
  rewrite decide_False by congruence. by rewrite (IH Hn).
Qed.

(** The edges named by the slots [i..] of a message. *)
Definition names_of (t : EdgeTable) (msg : ServerRouteMsg) (i : Z) (l : list string) : Prop :=
  forall k name, l !! k = Some name ->
    exists idx, vget (routeEdges msg) (i + Z.of_nat k) = Some idx /\
      vget (indexToEdge t) idx = Some name.

Lemma names_of_cons t msg i name l :
  names_of t msg i (name :: l) ->
  (exists idx, vget (routeEdges msg) i = Some idx /\ vget (indexToEdge t) idx = Some name) /\
  names_of t msg (i + 1) l.
Proof.
  intros H. split.
  - destruct (H 0%nat name eq_refl) as (idx & Hi & Hn). rewrite Z.add_0_r in Hi. eauto.
  - intros k n Hk. destruct (H (S k) n Hk) as (idx & Hi & Hn). exists idx.
    by replace (i + 1 + Z.of_nat k) with (i + Z.of_nat (S k)) by lia.
Qed.

Lemma getRouteEdges_ok msg i idx : vget (routeEdges msg) i = Some idx -> getRouteEdges msg i = Ok idx.
Proof. unfold getRouteEdges. by intros ->. Qed.

Lemma route_names_ok t msg i l :
  names_of t msg i l -> route_names t msg (seqZ i (vsize l)) = Ok (Some l).
Proof.
  revert i. induction l as [|name l IH]; intros i Hl; [done|].
  apply names_of_cons in Hl as [(idx & Hi & Hn) Hl].
  rewrite seqZ_cons by (simpl; lia). cbn [route_names].
  rewrite (getRouteEdges_ok _ _ _ Hi). cbn [rbind].
  pose proof (vget_Some_bounds _ _ _ Hn).
  rewrite (proj2 (Z.ltb_ge _ _)), (proj2 (Z.leb_gt _ _)) by lia. cbn [orb].
  rewrite Hn. cbn [of_option rbind]. replace (Z.pred (vsize (name :: l))) with (vsize l) by (simpl; lia).
  by rewrite <- Z.add_1_r, (IH _ Hl).
Qed.

Section Routes.
Context (s : VehicleApp) (env : TraCI) (msg : ServerRouteMsg) (route : list string) (cur : string).
Hypothesis equipped : isEquipped s = true.
Hypothesis length_ok : routeLength msg = vsize route /\ 0 < vsize route <= 64.
Hypothesis names_ok : names_of (table s) msg 0 route.
Hypothesis road_ok : getRoadId env = Ok cur.
Hypothesis counters_ok : routesReceived s < 2 ^ 31 - 1 /\ routesApplied s < 2 ^ 31 - 1 /\
  routesFallback s < 2 ^ 31 - 1.

Lemma route_arrives :
  vsocketDataArrived s env msg =
  let s1 := s <| routesReceived := routesReceived s + 1 |> in
  let (found, trimmed) := trim false cur route in
  if negb found || (vsize trimmed <? 2) then
    match last route with Some target => fallback s1 env target | None => Ok (s1, []) end
  else
    let! ok := changeVehicleRoute env trimmed in
    if ok : bool then
      let! n := incr (routesApplied s1) in
      Ok (s1 <| routesApplied := n |>, [ChangeRoute trimmed])
    else
      let! target := of_option (last trimmed) in
      let! (s2, e) := fallback s1 env target in
      Ok (s2, ChangeRoute trimmed :: e).
Proof.
  destruct length_ok as [HL Hlen]. unfold vsocketDataArrived. rewrite equipped. cbn [negb].
  rewrite HL, (proj2 (Z.leb_gt _ _)), (proj2 (Z.ltb_ge _ _)) by lia. cbn [orb].
  rewrite (incr_ok (routesReceived s)) by lia. cbn [rbind].
  change (table (s <| routesReceived := routesReceived s + 1 |>)) with (table s). rewrite (route_names_ok _ _ _ _ names_ok). cbn [rbind].
  by rewrite road_ok.
Qed.
End Routes.

Lemma writeStatsRow_total s env now :
  getExternalId env <> UB -> exists s' e, writeStatsRow s env now = Ok (s', e).
Proof.
  intros Hid. unfold writeStatsRow. destruct (statsInitialized s), (statsWritten s); simpl; eauto.
  destruct (mobility_present env); simpl; [|eauto]. destruct (getExternalId env); simpl; eauto; done.
Qed.

(** A route that passes through the vehicle's current edge, with at least one
    edge after it, is applied from there: the vehicle asks SUMO for exactly the
    part from its current edge to the end of the message; when SUMO accepts, the
    route counts as received and applied and nothing else is commanded. *)
Theorem route_applied_from_current_edge (s : VehicleApp) (env : TraCI) (msg : ServerRouteMsg)
    (pre post : list string) (cur : string) :
  isEquipped s = true -> 
  routeLength msg = vsize (pre ++ cur :: post) -> vsize (pre ++ cur :: post) <= 64 ->
  names_of (table s) msg 0 (pre ++ cur :: post) -> cur ∉ pre -> post <> [] ->
  getRoadId env = Ok cur -> changeVehicleRoute env (cur :: post) = Ok true ->
  routesReceived s < 2 ^ 31 - 1 -> routesApplied s < 2 ^ 31 - 1 -> routesFallback s < 2 ^ 31 - 1 ->
  vsocketDataArrived s env msg =
  Ok (s <| routesReceived := routesReceived s + 1 |> <| routesApplied := routesApplied s + 1 |>,
      [ChangeRoute (cur :: post)]).
Proof.
  intros He HL Hlen Hnames Hpre Hpost Hroad Hok H1 H2 H3.
  assert (0 < vsize (pre ++ cur :: post)) by (rewrite length_app; simpl; lia).
  rewrite (route_arrives s env msg _ cur He) by (done || (split_and!; (done || lia))).
  cbv zeta. rewrite trim_found by done. destruct post as [|b post]; [done|].
  rewrite (proj2 (Z.ltb_ge _ _)) by (simpl; lia). cbn [negb orb]. rewrite Hok. cbn [rbind].
  simpl. by rewrite (incr_ok (routesApplied s)) by lia.
Qed.

(** A route that does not contain the current edge is not applied: the vehicle
    only asks SUMO for a new way to the last edge of the message, and counts a
    fallback exactly if SUMO takes the command. *)
Theorem route_off_path_falls_back (s : VehicleApp) (env : TraCI) (msg : ServerRouteMsg)
    (route : list string) (cur target : string) :
  isEquipped s = true -> routeLength msg = vsize route -> vsize route <= 64 ->
  names_of (table s) msg 0 route -> last route = Some target -> cur ∉ route ->
  getRoadId env = Ok cur -> changeTarget env target <> UB ->
  routesReceived s < 2 ^ 31 - 1 -> routesApplied s < 2 ^ 31 - 1 -> routesFallback s < 2 ^ 31 - 1 ->
  let taken := match changeTarget env target with Ok _ => 1 | _ => 0 end in
  vsocketDataArrived s env msg =
  Ok (s <| routesReceived := routesReceived s + 1 |> <| routesFallback := routesFallback s + taken |>,
      [ChangeTarget target]).
Proof.
  intros He HL Hlen Hnames Hlast Hcur Hroad Hub H1 H2 H3 taken.
  assert (0 < vsize route) by (destruct route; [done|simpl; lia]).
  rewrite (route_arrives s env msg _ cur He) by (done || (split_and!; (done || lia))).
  cbv zeta. rewrite trim_absent by done. cbn [negb orb]. rewrite Hlast.
  unfold fallback, taken. destruct (changeTarget env target) as [[]| |]; [|simpl|done].
  - simpl. by rewrite (incr_ok (routesFallback s)) by lia.
  - rewrite Z.add_0_r. by destruct s.
Qed.

(** A packet that arrives after the vehicle has left SUMO but before the next
    report timer still queries TraCI, unlike [sendReport], which asks the manager
    first: when the query for the unknown vehicle fails, so does the handler. *)
Theorem route_after_departure_queries (s : VehicleApp) (env : TraCI) (now : float)
    (msg : ServerRouteMsg) (route : list string) (e : string) :
  isEquipped s = true -> managed env = false -> mobility_present env = true ->
  routeLength msg = vsize route -> 0 < vsize route <= 64 -> names_of (table s) msg 0 route ->
  routesReceived s < 2 ^ 31 - 1 -> getRoadId env = Throw e ->
  vhandleMessage s env now (RoutePacket msg) = Throw e /\
  (getExternalId env <> UB -> exists s' es, vhandleMessage s env now ReportTimer = Ok (s', es)).
Proof.
  intros He Hm Hp HL Hlen Hnames H1 Hroad. split.
  - simpl. unfold vsocketDataArrived. rewrite He. cbn [negb].
    rewrite HL, (proj2 (Z.leb_gt _ _)), (proj2 (Z.ltb_ge _ _)) by lia. cbn [orb].
    rewrite (incr_ok (routesReceived s)) by lia. cbn [rbind].
    change (table (s <| routesReceived := routesReceived s + 1 |>)) with (table s). rewrite (route_names_ok _ _ _ _ Hnames). cbn [rbind].
    by rewrite Hroad.
  - intros Hid. cbn [vhandleMessage]. unfold sendReport. rewrite Hp, Hm. cbn [negb].
    destruct (writeStatsRow_total (s <| reportScheduled := false |>) env now Hid) as (s1 & e1 & ->).
    cbn [rbind]. destruct (shutdownLteStack s1 env) as [s2 e2]. cbn [rbind].
    destruct (deleteScheduled _); eauto.
Qed.
