(* ===== verification/VehicleLife.v ===== *)
(** * The vehicle application: life cycle

    The events a vehicle module handles between its creation and its deletion, in
    any order the kernel can deliver them, with whatever SUMO answers. *)

From S2P Require Import Prelude Doubles TrafficMsg NetXml TrafficServer VehicleApp.

(** ** What each part of the handlers can change *)

(** The members that only the departure code changes. *)
Definition flags (s : VehicleApp) :=
  (isEquipped s, statsWritten s, lteShutdown s, deleteSelfMsg s, deleteScheduled s,
   reportScheduled s, deleted s, vparams s).

Definition kept (s s' : VehicleApp) : Prop :=
  flags s' = flags s /\ table s' = table s /\
  (statsInitialized s = true -> statsInitialized s' = true).

Lemma kept_refl s : kept s s.
Proof. done. Qed.
Lemma kept_trans s1 s2 s3 : kept s1 s2 -> kept s2 s3 -> kept s1 s3.
Proof. intros (? & ? & ?) (? & ? & ?). split_and!; [congruence|congruence|auto]. Qed.

Lemma catch_Ok {A} (m : result A) h a : catch m h = Ok a -> m = Ok a \/ h = Ok a.
Proof. destruct m; simpl; auto. Qed.

Ltac kept_tac :=
  repeat first
    [ progress inv_ok
    | match goal with
      | H : catch _ _ = Ok _ |- _ => apply catch_Ok in H as [H|H]
      | H : context [if ?b then _ else _] |- _ => destruct b eqn:?
      end ];
  subst; try done.

Lemma tryInitStats_kept s env now s' : tryInitStats s env now = Ok s' -> kept s s'.
Proof. unfold tryInitStats. intros. kept_tac. Qed.

Lemma updateLastEdge_kept s env s' : updateLastEdge s env = Ok s' -> kept s s'.
Proof. unfold updateLastEdge. intros. kept_tac. Qed.

Lemma countLaneChange_kept s env s' : countLaneChange s env = Ok s' -> kept s s'.
Proof. unfold countLaneChange. intros. kept_tac. Qed.

(** A report sent tells the truth about the vehicle's table and about SUMO. *)
Definition truthful (s : VehicleApp) (env : TraCI) (now : float) (r : VehicleReportMsg) : Prop :=
  isEquipped s = true /\ managed env = true /\
  (exists edge, getRoadId env = Ok edge /\ real_edge edge = true /\
     edgeToIndex (table s) !! edge = Some (edgeIndex r) /\
     readRealTravelTime env edge = Ok (realTravelTime r)) /\
  (exists planned dest, getPlannedRoadIds env = Ok planned /\ last planned = Some dest /\
     edgeToIndex (table s) !! dest = Some (destEdgeIndex r) /\ 0 <= destEdgeIndex r) /\
  getSpeed env = Ok (speed r) /\ timestamp r = now /\ report_chunkLength r = 36.

Lemma destIndex_spec s planned i :
  destIndex s planned = i -> 0 <= i ->
  exists dest, last planned = Some dest /\ edgeToIndex (table s) !! dest = Some i.
Proof.
  unfold destIndex. intros H Hi. destruct (last planned) as [dest|]; [|lia].
  destruct (edgeToIndex (table s) !! dest) as [j|] eqn:E; simpl in H; [|lia]. by subst; eauto.
Qed.

(** [sendReport] of a vehicle that is still managed. *)
Lemma sendReport_managed s env now s' e :
  sendReport s env now = Ok (s', e) -> mobility_present env = true -> managed env = true ->
  kept s s' /\
  (e = [] \/ exists r, e = [SendReport r (resolvedServerAddr (vparams s)) (serverPort (vparams s))] /\
                       truthful s env now r).
Proof.
  unfold sendReport. intros H Hpr Hm. rewrite Hpr, Hm in H. cbn [negb] in H.
  apply rbind_Ok_inv in H as (s1 & H1 & H). apply tryInitStats_kept in H1 as K1.
  apply rbind_Ok_inv in H as (s2 & H2 & H). apply updateLastEdge_kept in H2 as K2.
  assert (K : kept s s2) by (by eapply kept_trans). destruct (isEquipped s2) eqn:He; cbn [negb] in H;
    [|inv_ok; subst; auto].
  apply rbind_Ok_inv in H as (edge & Hedge & H). apply rbind_Ok_inv in H as (sp & Hsp & H).
  destruct (real_edge edge) eqn:Hreal; cbn [negb] in H; [|inv_ok; subst; auto].
  apply rbind_Ok_inv in H as (s3 & H3 & H). apply countLaneChange_kept in H3 as K3.
  assert (K' : kept s s3) by (by eapply kept_trans).
  destruct (edgeToIndex (table s3) !! edge) as [i|] eqn:Hi; [|inv_ok; subst; auto].
  apply rbind_Ok_inv in H as (planned & Hp & H).
  destruct (Z.ltb_spec (destIndex s3 planned) 0) as [|Hd]; [inv_ok; subst; auto|].
  apply rbind_Ok_inv in H as (dest & Hdest & H). apply rbind_Ok_inv in H as (tt & Htt & H).
  injection H as <- <-. destruct K as (F & T & _), K' as (F' & T' & I').
  split; [by split_and!|]. right. eexists. split.
  - unfold flags in F'. simplify_eq. simpl. do 2 f_equal; congruence.
  - destruct (destIndex_spec s3 planned _ eq_refl Hd) as (d & Hlast & Hd').
    rewrite T' in Hi, Hd'. unfold truthful. simpl. split_and!; try done.
    + unfold flags in F. congruence.
    + by exists edge.
    + by exists planned, d.
Qed.

Definition is_route_command (e : veffect) : bool :=
  match e with ChangeRoute _ | ChangeTarget _ => true | _ => false end.

Lemma fallback_kept s env t s' e :
  fallback s env t = Ok (s', e) -> kept s s' /\ e = [ChangeTarget t].
Proof. unfold fallback. intros. kept_tac. Qed.

(** Routes change counters only, and nothing when the vehicle is not equipped. *)
Lemma vsocketDataArrived_kept s env m s' e :
  vsocketDataArrived s env m = Ok (s', e) ->
  kept s s' /\ Forall (fun x => is_route_command x = true) e /\
  (isEquipped s = false -> s' = s /\ e = []).
Proof.
  unfold vsocketDataArrived. intros H. destruct (isEquipped s) eqn:He; cbn [negb] in H;
    [|by inv_ok; subst].
  assert (kept s s' /\ Forall (fun x => is_route_command x = true) e); [|by intuition].
  destruct (_ || _); [by inv_ok; subst|].
  apply rbind_Ok_inv in H as (n & _ & H). set (s1 := s <| routesReceived := n |>) in *.
  assert (K : kept s s1) by done. clearbody s1.
  apply rbind_Ok_inv in H as ([l|] & _ & H); [|by inv_ok; subst].
  apply rbind_Ok_inv in H as (cur & _ & H). destruct (trim _ _ _) as [found t].
  destruct (_ || _).
  - destruct (last l); [|by inv_ok; subst]. apply fallback_kept in H as [K1 ->].
    split; [by eapply kept_trans|by repeat constructor].
  - apply rbind_Ok_inv in H as (ok & _ & H). destruct ok.
    + inv_ok. subst. split; [done|by repeat constructor].
    + inv_ok. destruct v0 as [s2 e2]. apply fallback_kept in E0 as [K1 ->]. inv_ok. subst.
      split; [by eapply kept_trans|by repeat constructor].
Qed.

(** ** Runs of a vehicle module *)

Definition enabled (s : VehicleApp) (m : vmessage) : bool :=
  negb (deleted s) &&
  match m with
  | ReportTimer => reportScheduled s
  | DeleteSelf => deleteSelfMsg s
  | RoutePacket _ => true
  end.

(** [vruns s e s']: from [s], some events lead to [s'] with effects [e]. *)
Inductive vruns (s : VehicleApp) : list veffect -> VehicleApp -> Prop :=
| vruns_nil : vruns s [] s
| vruns_step e s1 env now m s2 e2 :
    vruns s e s1 -> enabled s1 m = true -> vhandleMessage s1 env now m = Ok (s2, e2) ->
    vruns s (e ++ e2) s2.

Definition occurrences (p : veffect -> bool) (e : list veffect) : Z := vsize (List.filter p e).

Definition is_row (x : veffect) : bool := match x with AppendRow _ => true | _ => false end.
Definition is_unregister (x : veffect) : bool := match x with UnregisterNode _ => true | _ => false end.
Definition is_delete (x : veffect) : bool := match x with DeleteModule => true | _ => false end.
Definition is_radio (x : veffect) : bool :=
  match x with SendReport _ _ _ | ChangeRoute _ | ChangeTarget _ => true | _ => false end.

Lemma occurrences_app p e1 e2 : occurrences p (e1 ++ e2) = occurrences p e1 + occurrences p e2.
Proof. unfold occurrences. rewrite List.filter_app, length_app. lia. Qed.

Lemma occurrences_none p e : Forall (fun x => p x = false) e -> occurrences p e = 0.
Proof. unfold occurrences. induction 1 as [|x e H _ IH]; [done|]. simpl. by rewrite H. Qed.

Definition flag (b : bool) : Z := if b then 1 else 0.

(** The invariant of a module's life, over its state and all it has done. *)
Record life (s : VehicleApp) (e : list veffect) : Prop := {
  life_rows : occurrences is_row e = flag (statsWritten s);
  life_init : statsWritten s = true -> statsInitialized s = true;
  life_unregister : occurrences is_unregister e <= flag (lteShutdown s);
  life_delete : occurrences is_delete e = flag (deleted s);
  life_self : deleteSelfMsg s = true -> deleteScheduled s = true;
  life_scheduled : deleteScheduled s = true -> lteShutdown s = true /\ reportScheduled s = false;
  life_silent : lteShutdown s = true -> isEquipped s = false
}.

(** Effects that leave the four counts alone. *)
Definition plain (x : veffect) : bool := negb (is_row x || is_unregister x || is_delete x).

Lemma plain_none e :
  Forall (fun x => plain x = true) e ->
  occurrences is_row e = 0 /\ occurrences is_unregister e = 0 /\ occurrences is_delete e = 0.
Proof.
  intros H. split_and!; apply occurrences_none; eapply Forall_impl; eauto;
    intros []; unfold plain; simpl; done.
Qed.

Lemma life_kept s s' e e2 :
  life s e -> kept s s' -> Forall (fun x => plain x = true) e2 -> life s' (e ++ e2).
Proof.
  intros [] (F & _ & I) Hp. destruct (plain_none _ Hp) as (Hr & Hu & Hd).
  unfold flags in F. injection F as E1 E2 E3 E4 E5 E6 E7 _.
  split; rewrite ?occurrences_app, ?Hr, ?Hu, ?Hd, ?Z.add_0_r, ?E1, ?E2, ?E3, ?E4, ?E5, ?E6, ?E7; auto.
Qed.

Lemma writeStatsRow_spec s env now s' e :
  writeStatsRow s env now = Ok (s', e) ->
  (e = [] /\ s' = s /\ (statsInitialized s = false \/ statsWritten s = true)) \/
  (statsInitialized s = true /\ statsWritten s = false /\
   s' = s <| statsWritten := true |> /\
   exists row, e = [AppendRow row] /\ row_isEquipped row = isEquipped s /\
     row_departEdge row = departEdge s /\ row_destEdge row = lastEdge s /\
     row_arrivalTime row = now /\ row_duration row = fsub now (departTime s)).
Proof.
  unfold writeStatsRow. intros H. destruct (statsInitialized s) eqn:Ei; simpl in H; [|left; inv_ok; subst; auto].
  destruct (statsWritten s) eqn:Ew; [left; inv_ok; subst; auto|]. right.
  apply rbind_Ok_inv in H as (id & _ & H). injection H as <- <-.
  split_and!; try done. eexists. split; [done|]. done.
Qed.

(** Writing the row keeps the invariant. *)
Lemma writeStatsRow_life s env now s' e e2 :
  life s e -> writeStatsRow s env now = Ok (s', e2) -> life s' (e ++ e2).
Proof.
  intros HL H. apply writeStatsRow_spec in H as [(-> & -> & _)|(Hi & Hw & -> & row & -> & _)].
  - by rewrite app_nil_r.
  - destruct HL. rewrite Hw in *. split; simpl; rewrite ?occurrences_app; auto; simpl.
    + by rewrite life_rows0.
    + unfold occurrences at 2. simpl. lia.
    + unfold occurrences at 2. simpl. lia.
Qed.

(** [shutdownLteStack] followed by [isEquipped = false]. *)
Lemma shutdown_life s env s' e2 e :
  life s e -> shutdownLteStack s env = (s', e2) ->
  life (s' <| isEquipped := false |>) (e ++ e2) /\ lteShutdown s' = true /\
  statsWritten s' = statsWritten s /\ statsInitialized s' = statsInitialized s.
Proof.
  intros HL H. unfold shutdownLteStack in H.
  assert (Hone : forall x, occurrences x [StopTtiTick] = flag (x StopTtiTick)) by
    (intros x; unfold occurrences; simpl; by destruct (x _)).
  destruct (lteShutdown s) eqn:Hsh.
  { injection H as <- <-. rewrite app_nil_r. destruct HL. split; [split; auto|auto]. }
  assert (Hds : deleteScheduled s = false).
  { destruct (deleteScheduled s) eqn:E; [|done]. apply (life_scheduled _ _ HL) in E as [? _]. congruence. }
  destruct (mac_node env) as [nid|]; cbn in H.
  - rewrite Hds in H. injection H as <- <-. destruct HL. rewrite Hsh in *. simpl in *.
    set (u := negb (nid =? 0) && binder_present env). 
    destruct u, (reportScheduled s); split; try done; split; simpl; rewrite ?occurrences_app;
      unfold occurrences in *; simpl; auto; lia.
  - injection H as <- <-. rewrite app_nil_r. destruct HL. rewrite Hsh in *. simpl in *.
    split; [|done]. split; simpl; auto; try lia. intros E. congruence.
Qed.

Lemma vinitialize_life p f coin : life (vinitialize p f coin).1 [].
Proof. by split. Qed.

(** Every event keeps the invariant. *)
Lemma vhandle_life s env now m s' e2 e :
  life s e -> enabled s m = true -> vhandleMessage s env now m = Ok (s', e2) -> life s' (e ++ e2).
Proof.
  intros HL Hen H. unfold enabled in Hen. apply andb_true_iff in Hen as [Hdel Hen].
  apply negb_true_iff in Hdel. destruct m as [| |msg]; cbn [vhandleMessage] in H.
  - destruct (host_present env).
    + apply rbind_Ok_inv in H as ([s1 e1] & H1 & H). injection H as <- <-.
      unfold vfinish in H1. apply rbind_Ok_inv in H1 as ([s2 e3] & H2 & H1).
      apply (writeStatsRow_life _ _ _ _ e) in H2 as HL2.
      2:{ destruct HL. by split; simpl; auto. }
      injection H1 as <- <-. simpl in HL2.
      assert (Hd2 : deleted s2 = false).
      { apply writeStatsRow_spec in H2 as [(_ & -> & _)|(_ & _ & -> & _)]; done. }
      destruct HL2. rewrite Hd2 in *. destruct (reportScheduled s2); split; simpl;
        rewrite ?occurrences_app; rewrite ?occurrences_app in *;
        unfold occurrences in *; simpl in *; auto; try done; try lia.
      all: intros E; destruct (life_scheduled0 E); done.
    + injection H as <- <-. rewrite app_nil_r. destruct HL. by split; simpl; auto.
  - apply rbind_Ok_inv in H as ([s1 e1] & H1 & H).
    assert (HL0 : life (s <| reportScheduled := false |>) e).
    { destruct HL. split; simpl; auto. intros E. destruct (life_scheduled0 E). done. }
    set (s0 := s <| reportScheduled := false |>) in *.
    assert (HL1 : life s1 (e ++ e1) /\ (deleteScheduled s1 = false \/ reportScheduled s1 = false)).
    { destruct (mobility_present env) eqn:Hp; [destruct (managed env) eqn:Hm|].
      - destruct (sendReport_managed _ _ _ _ _ H1 Hp Hm) as [K Hor].
        split; [eapply life_kept; [exact HL0|exact K|]|].
        + destruct Hor as [->|(r & -> & _)]; repeat constructor.
        + right. destruct K as (F & _). unfold flags in F. simplify_eq. simpl in *. congruence.
      - unfold sendReport in H1. rewrite Hp, Hm in H1. simpl in H1.
        apply rbind_Ok_inv in H1 as ([s2 e2'] & H2 & H1).
        apply (writeStatsRow_life _ _ _ _ e _ HL0) in H2 as HL2.
        destruct (shutdownLteStack s2 env) as [s3 e3] eqn:Hs.
        destruct (shutdown_life _ _ _ _ _ HL2 Hs) as (HL3 & _). injection H1 as <- <-.
        rewrite app_assoc. split; [exact HL3|].
        destruct (deleteScheduled (s3 <| isEquipped := false |>)) eqn:E; [|auto].
        right. apply (life_scheduled _ _ HL3 E).
      - unfold sendReport in H1. rewrite Hp in H1. simpl in H1. injection H1 as <- <-.
        rewrite app_nil_r. destruct HL0. split; [split; simpl; auto|auto]. }
    destruct HL1 as [HL1 Hor]. destruct (deleteScheduled s1) eqn:Hds; injection H as <- <-; [done|].
    rewrite app_assoc. destruct HL1. rewrite Hds in *.
    split; simpl; rewrite ?occurrences_app; rewrite ?occurrences_app in *;
      unfold occurrences in *; simpl; auto; try lia; congruence.
  - apply vsocketDataArrived_kept in H as (K & Hc & _). eapply life_kept; [exact HL|exact K|].
    eapply Forall_impl; [exact Hc|]. intros []; done.
Qed.

Lemma vruns_life s e s' : vruns s e s' -> life s [] -> life s' e.
Proof. induction 1; intros Hl; [done|]. eapply vhandle_life; eauto. Qed.

(** After the shut-down nothing goes out and no route is taken, whatever happens. *)
Lemma vhandle_silent s env now m s' e2 e :
  life s e -> lteShutdown s = true -> enabled s m = true ->
  vhandleMessage s env now m = Ok (s', e2) ->
  lteShutdown s' = true /\ occurrences is_radio e2 = 0.
Proof.
  intros HL Hsh Hen H. pose proof (life_silent _ _ HL Hsh) as Heq.
  assert (Hw : forall s0 s1 e1, writeStatsRow s0 env now = Ok (s1, e1) ->
            lteShutdown s1 = lteShutdown s0 /\ occurrences is_radio e1 = 0).
  { intros s0 s1 e1 [(-> & -> & _)|(_ & _ & -> & row & -> & _)]%writeStatsRow_spec; done. }
  destruct m as [| |msg]; cbn [vhandleMessage] in H.
  - destruct (host_present env).
    + apply rbind_Ok_inv in H as ([s1 e1] & H1 & H). injection H as <- <-.
      unfold vfinish in H1. apply rbind_Ok_inv in H1 as ([s2 e3] & [E1 E2]%Hw & H1).
      injection H1 as <- <-. simpl in *. split; [congruence|].
      destruct (reportScheduled s2); rewrite !occurrences_app; unfold occurrences in *; simpl; lia.
    + by injection H as <- <-.
  - apply rbind_Ok_inv in H as ([s1 e1] & H1 & H).
    assert (E : lteShutdown s1 = true /\ occurrences is_radio e1 = 0).
    { destruct (mobility_present env) eqn:Hp; [destruct (managed env) eqn:Hm|].
      - destruct (sendReport_managed _ _ _ _ _ H1 Hp Hm) as [(F & _) Hor]. unfold flags in F.
        simplify_eq. simpl in *. split; [congruence|].
        destruct Hor as [->|(r & -> & Ht & _)]; [done|]. simpl in Ht. congruence.
      - unfold sendReport in H1. rewrite Hp, Hm in H1. simpl in H1.
        apply rbind_Ok_inv in H1 as ([s2 e2'] & [E1 E2]%Hw & H1). simpl in E1.
        unfold shutdownLteStack in H1. rewrite E1, Hsh in H1. injection H1 as <- <-.
        rewrite app_nil_r. split; [simpl; congruence|done].
      - unfold sendReport in H1. rewrite Hp in H1. by injection H1 as <- <-. }
    destruct E as [E1 E2]. destruct (deleteScheduled s1); injection H as <- <-; [done|].
    split; [done|]. rewrite occurrences_app, E2. done.
  - apply vsocketDataArrived_kept in H as (_ & _ & Hno). destruct (Hno Heq) as [-> ->]. done.
Qed.

Lemma vruns_silent s e s' e0 :
  vruns s e s' -> life s e0 -> lteShutdown s = true ->
  life s' (e0 ++ e) /\ lteShutdown s' = true /\ occurrences is_radio e = 0.
Proof.
  intros Hr Hl Hsh. induction Hr as [|e s1 env now m s2 e2 Hr IH Hen H].
  - by rewrite app_nil_r.
  - destruct IH as (HL & Hs & He). destruct (vhandle_silent _ _ _ _ _ _ _ HL Hs Hen H) as [Hs' He'].
    split; [rewrite app_assoc; by eapply vhandle_life|]. split; [done|].
    rewrite occurrences_app. lia.
Qed.

(** ** Properties *)

(** C28. Over its whole life a vehicle module writes at most one statistics row,
    unregisters its node at most once and is deleted at most once, whatever SUMO
    answers and in whatever order its events come; and if the simulation ends with
    it ([finish] called on a module not deleted), there is exactly one row if the
    vehicle was ever seen on a real edge and none otherwise. *)
Theorem vehicle_life (p : VehicleParams) (file : option (list string)) (coin : float)
    (e : list veffect) (s : VehicleApp) :
  vruns (vinitialize p file coin).1 e s ->
  occurrences is_row e <= 1 /\ occurrences is_unregister e <= 1 /\ occurrences is_delete e <= 1 /\
  forall env now s' e', vfinish s env now = Ok (s', e') ->
    occurrences is_row (e ++ e') = flag (statsInitialized s).
Proof.
  intros Hr. apply vruns_life in Hr as HL; [|apply vinitialize_life].
  assert (Hf : forall b, flag b <= 1) by (intros []; simpl; lia).
  split_and!.
  - rewrite (life_rows _ _ HL). apply Hf.
  - etransitivity; [apply (life_unregister _ _ HL)|apply Hf].
  - rewrite (life_delete _ _ HL). apply Hf.
  - intros env now s' e' H. unfold vfinish in H. apply rbind_Ok_inv in H as ([s1 e1] & H1 & H).
    injection H as <- <-. rewrite occurrences_app, (life_rows _ _ HL).
    assert (E : occurrences is_row ((if reportScheduled s1 then e1 ++ [CancelReport] else e1) ++ [CloseSocket])
                = occurrences is_row e1).
    { destruct (reportScheduled s1); rewrite !occurrences_app; unfold occurrences; simpl; lia. }
    rewrite E. apply writeStatsRow_spec in H1 as [(-> & -> & Hor)|(Hi & Hw & -> & row & -> & _)].
    + unfold occurrences. simpl. destruct Hor as [Hi|Hw].
      * rewrite Hi. destruct (statsWritten s) eqn:Hw; [|done].
        apply (life_init _ _ HL) in Hw. congruence.
      * by rewrite Hw, (life_init _ _ HL Hw).
    + by rewrite Hi, Hw.
Qed.

(** Departure: when the report timer of a vehicle finds that SUMO no longer
    has it, the vehicle writes its row (with the equipment flag it drove with),
    unregisters its node, stops the MAC's periodic tick, does not reschedule the
    timer and schedules its deletion; the deletion event then deletes the module.
    From the departure on it sends no report and takes no route. *)
Theorem departure_cleans_up (p : VehicleParams) (file : option (list string)) (coin : float)
    (e : list veffect) (s : VehicleApp) (env : TraCI) (now : float) (nid : Z) (id : string) :
  vruns (vinitialize p file coin).1 e s -> enabled s ReportTimer = true ->
  mobility_present env = true -> managed env = false -> getExternalId env = Ok id ->
  mac_node env = Some nid -> nid <> 0 -> binder_present env = true ->
  lteShutdown s = false ->
  exists rows s1,
    vhandleMessage s env now ReportTimer =
      Ok (s1, rows ++ [UnregisterNode nid; StopTtiTick; ScheduleDeleteSelf]) /\
    (statsInitialized s = true -> statsWritten s = false -> exists row, rows = [AppendRow row] /\
       row_isEquipped row = isEquipped s /\ row_destEdge row = lastEdge s) /\
    enabled s1 ReportTimer = false /\ enabled s1 DeleteSelf = true /\
    (forall env' now', host_present env' = true ->
       exists s2 e2, vhandleMessage s1 env' now' DeleteSelf = Ok (s2, e2) /\ last e2 = Some DeleteModule) /\
    (forall e2 s2, vruns s1 e2 s2 -> occurrences is_radio e2 = 0).
Proof.
  intros Hr Hen Hp Hm Hid Hmac Hnid Hb Hsh.
  apply vruns_life in Hr as HL; [|apply vinitialize_life].
  assert (Hds : deleteScheduled s = false).
  { destruct (deleteScheduled s) eqn:E; [|done]. apply (life_scheduled _ _ HL) in E as [? _]. congruence. }
  assert (Hw : statsWritten s = true -> statsInitialized s = true) by apply HL.
  destruct (writeStatsRow_total (s <| reportScheduled := false |>) env now) as (s0 & rows & Hrow);
    [congruence|].
  pose proof (writeStatsRow_spec _ _ _ _ _ Hrow) as Hspec.
  assert (Hs0 : lteShutdown s0 = false /\ deleteScheduled s0 = false /\ reportScheduled s0 = false /\
    deleted s0 = deleted s /\ (statsInitialized s0 = true -> statsWritten s0 = true)).
  { destruct Hspec as [(_ & -> & Hor)|(_ & _ & -> & _)]; simpl; split_and!; try done.
    destruct Hor as [Hor|Hor]; simpl in Hor; [congruence|done]. }
  destruct Hs0 as (Hs0 & Hd0 & Hr0 & Hdel & Hw0).
  set (s1 := s0 <| lteShutdown := true |> <| deleteScheduled := true |> <| reportScheduled := false |>
                <| deleteSelfMsg := true |> <| isEquipped := false |>).
  assert (Hstep : vhandleMessage s env now ReportTimer =
      Ok (s1, rows ++ [UnregisterNode nid; StopTtiTick; ScheduleDeleteSelf])).
  { cbn [vhandleMessage]. unfold sendReport. rewrite Hp, Hm. cbn [negb]. rewrite Hrow. cbn [rbind].
    unfold shutdownLteStack. rewrite Hs0, Hmac, Hb, (proj2 (Z.eqb_neq nid 0) Hnid).
    simpl. rewrite Hd0, Hr0. done. }
  exists rows, s1. split; [done|]. split.
  { intros Hi Hnw.
    destruct Hspec as [(_ & _ & [Hor|Hor])|(_ & _ & _ & row & Hrw & E1 & _ & E3 & _)];
      [simpl in Hor; congruence|simpl in Hor; congruence|].
    exists row. split; [exact Hrw|]. split; [exact E1|exact E3]. }
  split; [unfold enabled; apply andb_false_r|]. split.
  { unfold enabled in Hen |- *. apply andb_true_iff in Hen as [Hnd _].
    change (deleted s1) with (deleted s0). rewrite Hdel, Hnd. reflexivity. }
  split.
  - intros env' now' Hh. cbn [vhandleMessage]. rewrite Hh. unfold vfinish, writeStatsRow.
    simpl. destruct (statsInitialized s0) eqn:Ei; simpl; [rewrite (Hw0 eq_refl); simpl|];
      eexists _, _; (split; [reflexivity|]); done.
  - intros e2 s2 Hr2. eapply vruns_silent; [exact Hr2| |done].
    eapply vhandle_life; [exact HL|exact Hen|exact Hstep].
Qed.

(** Reports tell the truth: a report goes out only from an equipped vehicle that
    SUMO still has, to the server's address; its edge index is that of the edge the
    vehicle is on, its destination index that of the last planned edge, and speed,
    time stamp and travel time are those read in this event. *)
Theorem report_truthful (s s' : VehicleApp) (env : TraCI) (now : float) (m : vmessage)
    (e : list veffect) (r : VehicleReportMsg) (a : L3Address) (port : Z) :
  vhandleMessage s env now m = Ok (s', e) -> SendReport r a port ∈ e ->
  m = ReportTimer /\ truthful s env now r /\
  a = resolvedServerAddr (vparams s) /\ port = serverPort (vparams s).
Proof.
  intros H Hin.
  assert (Hw : forall s0 s1 e1, writeStatsRow s0 env now = Ok (s1, e1) -> SendReport r a port ∉ e1).
  { intros s0 s1 e1 [(-> & _)|(_ & _ & _ & row & -> & _)]%writeStatsRow_spec;
      rewrite ?elem_of_nil, ?list_elem_of_singleton; [tauto|congruence]. }
  assert (Hsd : forall s0 s1 e1, shutdownLteStack s0 env = (s1, e1) -> SendReport r a port ∉ e1).
  { intros s0 s1 e1. unfold shutdownLteStack. repeat case_match; intros; simplify_eq; set_solver. }
  destruct m as [| |msg]; cbn [vhandleMessage] in H.
  - exfalso. destruct (host_present env); [|inv_ok; subst; set_solver].
    apply rbind_Ok_inv in H as ([s1 e1] & H1 & H). injection H as <- <-.
    unfold vfinish in H1. apply rbind_Ok_inv in H1 as ([s2 e3] & H2 & H1).
    apply Hw in H2. injection H1 as <- <-. destruct (reportScheduled s2); set_solver.
  - apply rbind_Ok_inv in H as ([s1 e1] & H1 & H).
    assert (Hin1 : SendReport r a port ∈ e1).
    { destruct (deleteScheduled s1); injection H as <- <-; set_solver. }
    destruct (mobility_present env) eqn:Hp; [destruct (managed env) eqn:Hm|].
    + destruct (sendReport_managed _ _ _ _ _ H1 Hp Hm) as [_ [->|(r' & -> & Ht)]]; [set_solver|].
      apply list_elem_of_singleton in Hin1. simplify_eq. done.
    + exfalso. unfold sendReport in H1. rewrite Hp, Hm in H1. cbn [negb] in H1.
      apply rbind_Ok_inv in H1 as ([s2 e2] & H2 & H1). apply Hw in H2.
      destruct (shutdownLteStack s2 env) as [s3 e3] eqn:Hs. apply Hsd in Hs. injection H1 as <- <-.
      set_solver.
    + exfalso. unfold sendReport in H1. rewrite Hp in H1. injection H1 as <- <-. set_solver.
  - exfalso. apply vsocketDataArrived_kept in H as (_ & Hc & _).
    by apply (Forall_forall (fun x => is_route_command x = true) e) in Hin.
Qed.

(** The shared statistics file of all vehicles gets exactly one header, before
    every row, and afterwards the rows in the order they are written, whether the
    file starts empty or with the header of an earlier run. *)
Theorem csv_one_header (rows : list StatsRow) (old : list csv_line) :
  (old = [] \/ exists rest, old = CsvHeader :: rest) -> rows <> [] ->
  csv_lines (fold_left appendCsvRow rows
    {| csvHeaderWritten := false; csv_lines := old; csv_opens := true |}) =
  (if decide (length old = 0%nat) then [CsvHeader] else old) ++ map CsvRow rows.
Proof.
  assert (Happ : forall rows l, csv_lines (fold_left appendCsvRow rows
      {| csvHeaderWritten := true; csv_lines := l; csv_opens := true |}) = l ++ map CsvRow rows).
  { clear. induction rows as [|r rows IH]; intros l; simpl; [by rewrite app_nil_r|].
    unfold appendCsvRow at 2. simpl. rewrite IH, <- app_assoc. done. }
  intros Hold Hne. destruct rows as [|r rows]; [done|]. cbn [fold_left].
  destruct Hold as [->|[rest ->]]; unfold appendCsvRow at 2; simpl; rewrite Happ; [done|].
  simpl. by rewrite <- app_assoc.
Qed.
