(* ===== verification/VehicleReRoute.v ===== *)
(** * The re-routing test application

    [VehicleReRouteApp] (src/simulte/src/apps/VehicleReRoute/VehicleReRouteApp.cc): a
    vehicle looks at its edge at intervals; on the edge it watches it exercises one
    command of the TraCI interface, chosen when it is compiled, and stops looking.  It
    acts once, where it first finds itself on the edge, and stops when it has left. *)

From S2P Require Import Prelude Doubles.
From S2P Require Import TrafficMsg NetXml TrafficServer VehicleApp.
#[local] Open Scope Z_scope.

(** TraCI, with the two commands the vehicle application does not use; travel times are
    in picoseconds. *)
Record ReRouteTraCI := {
  traci : TraCI;
  newRoute : string -> result unit;
  changeRoute : string -> Z -> result unit
}.

(** The [REROUTE_MODE_] macros. *)
Inductive RerouteMode :=
| MODE_NEW_ROUTE | MODE_CHANGE_ROUTE | MODE_CHANGE_VEHICLE | MODE_CHANGE_TARGET | MODE_GET_PLANNED.

(** The one the header defines. *)
Definition active_mode : RerouteMode := MODE_GET_PLANNED.

Record VehicleReRouteApp := {
  rerouteDone : bool;
  checkInterval : float;
  targetEdgeId : string;
  watchEdgeId : string;
  artificialTravelTime : Z;
  (** state kept by the kernel: [timerCheck->isScheduled()] *)
  timerScheduled : bool
}.

#[export] Instance reroute_eta : Eta VehicleReRouteApp := fun s =>
  {| rerouteDone := rerouteDone s; checkInterval := checkInterval s; targetEdgeId := targetEdgeId s;
     watchEdgeId := watchEdgeId s; artificialTravelTime := artificialTravelTime s;
     timerScheduled := timerScheduled s |}.

(** Commands, lines of the log with an edge, a route, and a route with its success. *)
Inductive reffect :=
| NewRoute (edge : string)
| SlowDown (edge : string) (travelTime : Z)
| SetRoute (route : list string)
| SetTarget (edge : string)
| LogEdge (what edge : string)
| LogRoute (what : string) (route : list string)
| LogSize (what : string) (size : Z) (route : list string)
| ScheduleCheck (delay : float)
| CancelCheck.

(** [initialize], the application-layer stage. *)
Definition reroute_initialize (interval : float) (target watch : string) (travelTime : Z)
    : VehicleReRouteApp * list reffect :=
  ({| rerouteDone := false; checkInterval := interval; targetEdgeId := target; watchEdgeId := watch;
      artificialTravelTime := travelTime; timerScheduled := true |},
   [ScheduleCheck interval; LogEdge "initialized" watch]).

(** ** The five commands; each reads the edge before, all but the last, and the route after *)

Definition doReroute_newRoute (s : VehicleReRouteApp) (env : ReRouteTraCI) : result (list reffect) :=
  let! edge := getRoadId (traci env) in
  let! _ := newRoute env (targetEdgeId s) in
  let! planned := getPlannedRoadIds (traci env) in
  Ok [LogEdge "newRoute() before" edge; NewRoute (targetEdgeId s); LogRoute "newRoute() after" planned].

Definition doReroute_changeRoute (s : VehicleReRouteApp) (env : ReRouteTraCI) : result (list reffect) :=
  let! edge := getRoadId (traci env) in
  let! _ := changeRoute env (targetEdgeId s) (artificialTravelTime s) in
  let! planned := getPlannedRoadIds (traci env) in
  Ok [LogEdge "changeRoute() before" edge; SlowDown (targetEdgeId s) (artificialTravelTime s);
      LogRoute "changeRoute() after" planned].

Definition newEdges : list string := ["826449813"; "23639695"; "23639778"; "5170334#0"].

Definition doReroute_changeVehicleRoute (s : VehicleReRouteApp) (env : ReRouteTraCI) : result (list reffect) :=
  let! edge := getRoadId (traci env) in
  let! success := changeVehicleRoute (traci env) newEdges in
  let! planned := getPlannedRoadIds (traci env) in
  Ok [LogEdge "changeVehicleRoute() before" edge; SetRoute newEdges;
      LogRoute (if success then "changeVehicleRoute() success" else "changeVehicleRoute() failure") planned].

Definition doReroute_changeTarget (s : VehicleReRouteApp) (env : ReRouteTraCI) : result (list reffect) :=
  let! edge := getRoadId (traci env) in
  let! _ := changeTarget (traci env) (targetEdgeId s) in
  let! planned := getPlannedRoadIds (traci env) in
  Ok [LogEdge "changeTarget() before" edge; SetTarget (targetEdgeId s); LogRoute "changeTarget() after" planned].

Definition doReroute_getPlannedOnly (s : VehicleReRouteApp) (env : ReRouteTraCI) : result (list reffect) :=
  let! planned := getPlannedRoadIds (traci env) in
  Ok [LogSize "getPlannedRoadIds()" (vsize planned) planned].

Definition doReroute (mode : RerouteMode) : VehicleReRouteApp -> ReRouteTraCI -> result (list reffect) :=
  match mode with
  | MODE_NEW_ROUTE => doReroute_newRoute
  | MODE_CHANGE_ROUTE => doReroute_changeRoute
  | MODE_CHANGE_VEHICLE => doReroute_changeVehicleRoute
  | MODE_CHANGE_TARGET => doReroute_changeTarget
  | MODE_GET_PLANNED => doReroute_getPlannedOnly
  end.

(** ** [handleMessage] *)

(** [getVehicle()] goes through [mobility]; asking the manager for the vehicle needs its
    identifier. *)
Definition reroute_handleMessage (mode : RerouteMode) (s : VehicleReRouteApp) (env : ReRouteTraCI) (isTimer : bool)
    : result (VehicleReRouteApp * list reffect) :=
  if negb isTimer then Ok (s, []) else
  let s := s <| timerScheduled := false |> in
  if mobility_present (traci env) && negb (managed (traci env)) then Ok (s, []) else
  let again := Ok (s <| timerScheduled := true |>, [ScheduleCheck (checkInterval s)]) in
  if rerouteDone s then again else
  if negb (mobility_present (traci env)) then UB else
  let! currentEdge := getRoadId (traci env) in
  if decide (currentEdge = watchEdgeId s)
  then
    let! effs := doReroute mode s env in
    Ok (s <| rerouteDone := true |>, LogEdge "EDGE MATCH" currentEdge :: effs)
  else again.

Definition reroute_finish (s : VehicleReRouteApp) : VehicleReRouteApp * list reffect :=
  (s <| timerScheduled := false |>, [CancelCheck]).

(** The timer, as long as it is scheduled, with what TraCI answers at each check. *)
Fixpoint checks (mode : RerouteMode) (s : VehicleReRouteApp) (envs : list ReRouteTraCI)
    : result (VehicleReRouteApp * list (list reffect)) :=
  match envs with
  | [] => Ok (s, [])
  | env :: envs' =>
      if timerScheduled s then
        let! (s, e) := reroute_handleMessage mode s env true in
        let! (s, es) := checks mode s envs' in
        Ok (s, e :: es)
      else Ok (s, [])
  end.

(** ** Properties *)

(** The vehicle drives, on an edge other than [watch]. *)
Definition elsewhere (watch : string) (env : ReRouteTraCI) : Prop :=
  mobility_present (traci env) = true /\ managed (traci env) = true /\
  exists edge, getRoadId (traci env) = Ok edge /\ edge <> watch.

Definition on_edge (watch : string) (env : ReRouteTraCI) : Prop :=
  mobility_present (traci env) = true /\ managed (traci env) = true /\ getRoadId (traci env) = Ok watch.

Definition gone (env : ReRouteTraCI) : Prop :=
  mobility_present (traci env) = true /\ managed (traci env) = false.

Definition waiting (s : VehicleReRouteApp) : Prop := rerouteDone s = false /\ timerScheduled s = true.

Lemma check_elsewhere mode s env :
  waiting s -> elsewhere (watchEdgeId s) env ->
  reroute_handleMessage mode s env true = Ok (s, [ScheduleCheck (checkInterval s)]).
Proof.
  intros [Hd Ht] (Hm & Hg & edge & He & Hne). unfold reroute_handleMessage. cbn. rewrite Hm, Hg. cbn.
  rewrite Hd, He. cbn. rewrite decide_False by done. destruct s. cbn in *. by subst.
Qed.

Lemma checks_elsewhere mode s pre envs :
  waiting s -> Forall (elsewhere (watchEdgeId s)) pre ->
  checks mode s (pre ++ envs) =
  (let! (s', es) := checks mode s envs in
   Ok (s', replicate (length pre) [ScheduleCheck (checkInterval s)] ++ es)).
Proof.
  intros Hw. induction 1 as [|env pre He _ IH]; cbn [app checks length replicate].
  - by destruct (checks mode s envs) as [[? ?]| |].
  - rewrite (proj2 Hw), (check_elsewhere mode s env Hw He). cbn [rbind]. rewrite IH.
    by destruct (checks mode s envs) as [[? ?]| |].
Qed.

Lemma checks_stopped mode s envs : timerScheduled s = false -> checks mode s envs = Ok (s, []).
Proof. intros Hs. destruct envs; [done|]. cbn. by rewrite Hs. Qed.

Lemma checks_last mode s s' env post e :
  timerScheduled s = true -> reroute_handleMessage mode s env true = Ok (s', e) -> timerScheduled s' = false ->
  checks mode s (env :: post) = Ok (s', [e]).
Proof. intros Hs Hh Hs'. cbn [checks]. rewrite Hs, Hh. cbn [rbind]. by rewrite checks_stopped. Qed.

Lemma doReroute_timer mode s env : doReroute mode (s <| timerScheduled := false |>) env = doReroute mode s env.
Proof. by destruct mode. Qed.

(** The vehicle acts once, at the first check that finds it on the edge it watches,
    and looks no more; one that leaves before has never acted.  Until then every check
    only plans the next. *)
Theorem reroutes_once (mode : RerouteMode) (interval : float) (travelTime : Z) (target watch : string)
    (pre post : list ReRouteTraCI) (env : ReRouteTraCI) :
  let s0 := (reroute_initialize interval target watch travelTime).1 in
  Forall (elsewhere watch) pre ->
  (forall effs, on_edge watch env -> doReroute mode s0 env = Ok effs ->
     checks mode s0 (pre ++ env :: post) =
       Ok (s0 <| rerouteDone := true |> <| timerScheduled := false |>,
           replicate (length pre) [ScheduleCheck interval] ++ [LogEdge "EDGE MATCH" watch :: effs])) /\
  (gone env ->
     checks mode s0 (pre ++ env :: post) =
       Ok (s0 <| timerScheduled := false |>, replicate (length pre) [ScheduleCheck interval] ++ [[]])).
Proof.
  intros s0 Hpre. assert (Hw : waiting s0) by done.
  split; [intros effs (Hm & Hg & He) Hd|intros [Hm Hg]]; rewrite (checks_elsewhere mode s0 pre _ Hw Hpre).
  - rewrite (checks_last mode s0 (s0 <| rerouteDone := true |> <| timerScheduled := false |>) env _
      (LogEdge "EDGE MATCH" watch :: effs)); [done|done| |done].
    unfold reroute_handleMessage. rewrite Hm, Hg. cbn [negb andb]. cbn. rewrite He. cbn [rbind].
    rewrite decide_True by done.
    rewrite <- (doReroute_timer mode s0 env) in Hd. cbn in Hd. by rewrite Hd.
  - rewrite (checks_last mode s0 (s0 <| timerScheduled := false |>) env _ []); [done|done| |done].
    unfold reroute_handleMessage. by rewrite Hm, Hg.
Qed.

(** A vehicle on a given edge. *)
Definition demo_traci (edge : string) (driving : bool) : ReRouteTraCI :=
  {| traci := {| mobility_present := true; managed := driving; getExternalId := Ok "1000003.0"; getRoadId := Ok edge;
                 getSpeed := Throw "not asked"; getLaneId := Throw "not asked";
                 getPlannedRoadIds := Ok [edge; "5170334#0"]; getCurrentTravelTime := fun _ => Throw "not asked";
                 changeVehicleRoute := fun _ => Ok true; changeTarget := fun _ => Ok tt; host_present := true;
                 mac_node := None; binder_present := true |};
     newRoute := fun _ => Ok tt; changeRoute := fun _ _ => Ok tt |}.

Lemma reroutes_once_witness :
  let s0 := (reroute_initialize fone "5170334#0" "826449813" (3600 * 10 ^ 12)).1 in
  checks active_mode s0 [demo_traci "a" true; demo_traci "826449813" true; demo_traci "826449813" true] =
    Ok (s0 <| rerouteDone := true |> <| timerScheduled := false |>,
        [[ScheduleCheck fone]; [LogEdge "EDGE MATCH" "826449813";
          LogSize "getPlannedRoadIds()" 2 ["826449813"; "5170334#0"]]]) /\
  checks MODE_NEW_ROUTE s0 [demo_traci "a" true; demo_traci "a" false; demo_traci "826449813" true] =
    Ok (s0 <| timerScheduled := false |>, [[ScheduleCheck fone]; []]).
Proof.
  assert (He : Forall (elsewhere "826449813") [demo_traci "a" true])
    by (apply Forall_singleton; split; [done|]; split; [done|]; by exists "a").
  split.
  - apply (proj1 (reroutes_once active_mode fone (3600 * 10 ^ 12) "5170334#0" "826449813" [demo_traci "a" true]
      [demo_traci "826449813" true] (demo_traci "826449813" true) He)); [by repeat split|reflexivity].
  - apply (proj2 (reroutes_once MODE_NEW_ROUTE fone (3600 * 10 ^ 12) "5170334#0" "826449813" [demo_traci "a" true]
      [demo_traci "826449813" true] (demo_traci "a" false) He)). by split.
Defined.
