(* ===== verification/System.v ===== *)
(** * Server, wire and vehicle together

    A route computed by the server, encoded, decoded and handled by the vehicle
    application: what the driver is finally told, for routes that fit into the 64
    slots of the message and for those that do not. *)

From S2P Require Import Prelude Doubles Dijkstra MemoryStream TrafficMsg NetXml TrafficServer.
From S2P Require Import ServerFacts ServerProps ServerRun VehicleApp.

(** ** The network data of the server never changes *)

Definition same_roads (s s' : TrafficServer) : Prop :=
  edges (net s') = edges (net s) /\ adjacency (net s') = adjacency (net s).

Lemma handles_roads cexp s now m s' e : handles cexp s now m (s', e) -> same_roads s s'.
Proof.
  intros Hh. inversion Hh as [? ? E| |? ? ? ? Hr]; subst; [by rewrite E|done|].
  inversion Hr as [| |? ? ? ? ? ? ? ? ? ? Hd]; subst; [done..|]. by inversion Hd; subst.
Qed.

Lemma runs_roads cexp t s evs s' es : runs cexp t s evs s' es -> same_roads s s'.
Proof.
  induction 1 as [|t s now m evs s1 e s2 es _ _ _ Hh _ [IH1 IH2]]; [done|].
  apply handles_roads in Hh as [? ?]. split; congruence.
Qed.

(** ** The message of a route *)

Definition route_names_in (n : RoadNet) (route : list Z) : list string :=
  omap (fun i => ed_id <$> vget (edges n) i) route.

Lemma route_range n src route dst :
  net_wf n -> 0 <= src < vsize (edges n) -> route_from_to (adjacency n) src route dst ->
  Forall (fun i => 0 <= i < vsize (edges n)) route.
Proof.
  intros Hn Hsrc (Hh & _ & Hc). revert src Hsrc Hh Hc.
  induction route as [|u route IH]; intros src Hsrc Hh Hc; [constructor|].
  injection Hh as ->. constructor; [done|]. destruct route as [|v route]; [constructor|].
  destruct Hc as [Ha Hc]. apply (IH v); [|done|done]. by eapply net_arc_range.
Qed.

Lemma route_message_wf n route :
  Forall (fun i => 0 <= i < vsize (edges n)) route -> vsize (edges n) < 2 ^ 31 ->
  route_wf (route_message route).
Proof.
  intros Hr Hn. unfold route_message. split; simpl; unfold is_uint, is_sint.
  - lia.
  - done.
  - change (Forall (fun v => - 2 ^ 31 <= v < 2 ^ 31)
      (map (fun i => if i <? Z.min (vsize route) 64 then default (-1) (vget route i) else -1) (seqZ 0 64))).
    apply Forall_fmap, Forall_true. intros i. simpl. destruct (_ <? _); [|lia].
    destruct (vget route i) as [v|] eqn:E; simpl; [|lia].
    pose proof (vget_Forall _ _ _ _ Hr E). simpl in *. lia.
  - done.
Qed.

Lemma edges_ids n i ed : vget (edges n) i = Some ed -> vget (ids (edges n)) i = Some (ed_id ed).
Proof.
  unfold vget, ids. destruct (0 <=? i); [|done]. intros H.
  change (map ed_id ?l) with (ed_id <$> l). by rewrite list_lookup_fmap, H.
Qed.

Lemma route_names_map n route :
  Forall (fun i => 0 <= i < vsize (edges n)) route ->
  length (route_names_in n route) = length route /\
  forall k i, route !! k = Some i ->
    exists ed, vget (edges n) i = Some ed /\ route_names_in n route !! k = Some (ed_id ed).
Proof.
  induction 1 as [|i route Hi Hr [IHl IH]]; [done|].
  destruct (vget_is_Some _ _ Hi) as [ed Hed]. unfold route_names_in in *. simpl. rewrite Hed. simpl.
  split; [f_equal; exact IHl|].
  intros [|k] j Hk; [injection Hk as <-; by exists ed|exact (IH k j Hk)].
Qed.

(** What the vehicle reads from the message of a route: the names of its first 64
    edges. *)
Lemma route_message_names n t route :
  Forall (fun i => 0 <= i < vsize (edges n)) route -> indexToEdge t = ids (edges n) ->
  names_of t (route_message route) 0 (take 64 (route_names_in n route)).
Proof.
  intros Hr Ht k name Hk. apply lookup_take_Some in Hk as [Hk Hlt].
  destruct (route_names_map n route Hr) as [Hlen Hnames].
  destruct (lookup_lt_is_Some_2 route k) as [i Hi].
  { rewrite <- Hlen. by eapply lookup_lt_Some. }
  destruct (Hnames k i Hi) as (ed & Hed & Hk'). simplify_eq. exists i. split.
  - rewrite route_message_edge.
    + unfold vget. rewrite (proj2 (Z.leb_le 0 _)) by lia. by rewrite Z.add_0_l, Nat2Z.id.
    + simpl. apply lookup_lt_Some in Hi. lia.
  - rewrite Ht. by apply edges_ids.
Qed.

Lemma last_names n route dst :
  Forall (fun i => 0 <= i < vsize (edges n)) route -> last route = Some dst ->
  exists ed, vget (edges n) dst = Some ed /\ last (route_names_in n route) = Some (ed_id ed).
Proof.
  intros Hr Hl. destruct (route_names_map n route Hr) as [Hlen Hnames].
  rewrite last_lookup in Hl. destruct (Hnames _ _ Hl) as (ed & ? & Hk).
  exists ed. split; [done|]. by rewrite last_lookup, Hlen.
Qed.

Lemma take_two {A} (l : list A) x y k :
  l !! 0%nat = Some x -> l !! 1%nat = Some y ->
  exists post, take (S (S k)) l = x :: post /\ post <> [].
Proof. destruct l as [|a [|b l]]; intros; simplify_eq/=. by eexists. Qed.

(** A server started on a network file, after any run. *)
Section Deployed.
Context (cexp : float -> float) (p : ServerParams) (lines : list string) (n : RoadNet).
Context (evs : list (float * message)) (s0 s s' : TrafficServer) (eff : list effect).
Context (es : list (list effect)) (now : float) (a : L3Address) (port : Z) (r : VehicleReportMsg).
Context (x : ServerRouteMsg).
Hypothesis Hexp : exp_ok cexp.
Hypothesis Hfile : file_net n (Some lines).
Hypothesis Hdistinct : NoDup (file_ids lines).
Hypothesis Hedges : Forall edge_ok (edges n).
Hypothesis Hsize : vsize (edges n) < 2 ^ 31.
Hypothesis HK : fnonneg (K p) /\ ffinite (K p).
Hypothesis Hinterval : fnonneg (rerouteInterval p) /\ ffinite (rerouteInterval p).
Hypothesis Hinit : initialize p (Some lines) = Ok (s0, eff).
Hypothesis Htimed : timed f0 (evs ++ [(now, PacketMsg a port r)]).
Hypothesis Hshort : vsize evs < 2 ^ 31 - 1.
Hypothesis Hrun : run cexp s0 evs = Ok (s, es).
Hypothesis Hsent : handleMessage cexp s now (PacketMsg a port r) = Ok (s', [SendTo x a port]).

Lemma deployed_start : net s0 = n /\ server_ok f0 s0 /\ counts_le 0 s0.
Proof.
  unfold initialize in Hinit. rewrite Hfile in Hinit. cbn [rbind] in Hinit.
  injection Hinit as <- <-. destruct (file_net_wf _ _ Hfile) as (Hwf & Htr & _).
  split; [done|]. split; [|apply (fresh_counts _ (length (edges n))); exact Htr].
  split; try done; simpl. rewrite Htr. apply Forall_replicate, new_traffic_ok.
Qed.

Lemma deployed_params : params s0 = p.
Proof.
  unfold initialize in Hinit. rewrite Hfile in Hinit. cbn [rbind] in Hinit.
  by injection Hinit as <- <-.
Qed.

(** The packet carries a cheapest route over the roads of the file, for the traffic
    the server holds after this report and nothing else. *)
Lemma deployed_route :
  exists route ed tr tr', x = route_message route /\ route <> [] /\
    vget (edges n) (edgeIndex r) = Some ed /\
    vget (traffic (net s)) (edgeIndex r) = Some tr /\ absorbed ed tr r now tr' /\
    traffic (net s') = <[Z.to_nat (edgeIndex r) := tr']> (traffic (net s)) /\
    adjacency (net s') = adjacency n /\ edges (net s') = edges n /\ params s' = p /\
    best_route cexp s' now (hashVehicleKey (L3Address_str a)) (edgeIndex r) (destEdgeIndex r) route /\
    0 <= edgeIndex r < vsize (edges n) /\ edgeIndex r <> destEdgeIndex r.
Proof.
  destruct deployed_start as (Hn & Hs0 & Hc0). apply timed_app in Htimed as [Ht (Hnow & Hle & Hm & _)].
  destruct (run_runs cexp Hexp f0 s0 evs 0) as (? & ? & Ho & Hr & Hc); [done..|lia|].
  rewrite Hrun in Ho. injection Ho as <- <-.
  pose proof (runs_end cexp _ _ _ _ _ Hr) as Hs. destruct (runs_roads _ _ _ _ _ _ Hr) as [Ee Ea].
  pose proof (runs_params cexp _ _ _ _ _ Hr) as Ep. rewrite deployed_params in Ep.
  destruct (handleMessage_handles cexp Hexp s (end_time f0 evs) now (PacketMsg a port r) (0 + vsize evs))
    as (? & Ho & Hh & _); [done..|lia|].
  rewrite Hsent in Ho. injection Ho as <-.
  inversion Hh as [| |? ? ? ? Hrep]; subst.
  inversion Hrep as [| |ed tr tr' ? Hk ? Hed Htr Habs _ Hd]; subst.
  inversion Hd as [| | | |route ? ? Hne Hbest]; subst.
  rewrite sends_booked in *. simplify_eq.
  exists route, ed, tr, tr'. do 2 (split; [done|]). rewrite <- Ee. do 3 (split; [done|]).
  split; [reflexivity|]. split; [exact Ea|]. do 2 (split; [done|]).
  split; [exact Hbest|]. split; [apply Hk|done].
Qed.

(** A vehicle with the same file that is still on the edge it reported. *)
Context (v : VehicleApp) (env : TraCI) (ed : EdgeData).
Hypothesis Hequipped : isEquipped v = true.
Hypothesis Htable : table v = parseEdgeIndex empty_table (Some lines).
Hypothesis Hed : vget (edges n) (edgeIndex r) = Some ed.
Hypothesis Hroad : getRoadId env = Ok (ed_id ed).
Hypothesis Haccept : forall l, changeVehicleRoute env l = Ok true.
Hypothesis Hcounters : routesReceived v < 2 ^ 31 - 1 /\ routesApplied v < 2 ^ 31 - 1 /\
  routesFallback v < 2 ^ 31 - 1.

Definition applied (v : VehicleApp) : VehicleApp :=
  v <| routesReceived := routesReceived v + 1 |> <| routesApplied := routesApplied v + 1 |>.

(** What the server stored of the report before it searched, and the route it sent. *)
Definition answered (route : list Z) : Prop :=
  exists tr tr', vget (traffic (net s)) (edgeIndex r) = Some tr /\ absorbed ed tr r now tr' /\
    traffic (net s') = <[Z.to_nat (edgeIndex r) := tr']> (traffic (net s)) /\
    adjacency (net s') = adjacency n /\ edges (net s') = edges n /\ params s' = p /\
    best_route cexp s' now (hashVehicleKey (L3Address_str a)) (edgeIndex r) (destEdgeIndex r) route /\
    x = route_message route.

(** What reaches the vehicle and what it does with it. *)
Lemma deployed_delivery :
  exists route out st, answered route /\
    route_from_to (adjacency n) (edgeIndex r) route (destEdgeIndex r) /\ NoDup route /\
    Forall (fun i => 0 <= i < vsize (edges n)) route /\
    serialize_route empty_ostream x = Ok out /\
    deserialize_route (istream_of (o_data out)) = Ok (x, st) /\
    vsocketDataArrived v env x = Ok (applied v, [ChangeRoute (take 64 (route_names_in n route))]).
Proof.
  destruct deployed_route as (route & ed0 & tr & tr' & Ex & Hne & Hed0 & Htr & Habs & Et & Ea & Ee & Ep
    & Hbest & Hsrc & Hdiff).
  rewrite Hed in Hed0. injection Hed0 as <-.
  destruct (proj2 Hbest Hne) as (Hr & Hnd & _). rewrite Ea in Hr.
  destruct (file_net_wf _ _ Hfile) as (Hwf & _).
  pose proof (route_range _ _ _ _ Hwf Hsrc Hr) as Hrange.
  destruct (route_over_wire x) as (out & Hser & _ & st & Hdes & _).
  { rewrite Ex. by eapply route_message_wf. }
  exists route, out, st. split; [exists tr, tr'; by split_and!|]. do 5 (split; [assumption|]).
  pose proof (route_two _ _ _ _ Hr Hdiff) as Htwo.
  destruct (numbering_agrees lines n Hfile Hdistinct) as [Hids _].
  assert (Hnames : names_of (table v) x 0 (take 64 (route_names_in n route))).
  { rewrite Ex. apply route_message_names; [done|]. by rewrite Htable. }
  destruct (route_names_map n route Hrange) as [Hlen Hmap].
  assert (Htake : exists post, take 64 (route_names_in n route) = ed_id ed :: post /\ post <> []).
  { destruct Hr as (Hh & _ & _). destruct route as [|i [|j route]]; [done|simpl in Htwo; lia|].
    injection Hh as ->. destruct (Hmap 0%nat _ eq_refl) as (ed' & Hed' & H0).
    destruct (Hmap 1%nat _ eq_refl) as (ed1 & _ & H1).
    rewrite Hed in Hed'. injection Hed' as <-. exact (take_two _ _ _ 62 H0 H1). }
  destruct Htake as (post & Htake & Hpost).
  assert (Hl : routeLength x = vsize (take 64 (route_names_in n route))).
  { rewrite Ex, length_take, Hlen. unfold route_message. cbn [routeLength]. lia. }
  rewrite Htake in Hnames, Hl |- *.
  assert (Hlen64 : 0 < vsize (ed_id ed :: post) <= 64).
  { rewrite <- Htake, length_take, Hlen. lia. }
  rewrite (route_arrives v env x (ed_id ed :: post) (ed_id ed) Hequipped (conj Hl Hlen64) Hnames
             Hroad Hcounters).
  cbv zeta. pose proof (trim_found (ed_id ed) [] post (not_elem_of_nil _)) as Htrim.
  cbn [app] in Htrim. rewrite Htrim.
  rewrite (proj2 (Z.ltb_ge _ _)) by (destruct post; [done|simpl; lia]). cbn [negb orb].
  rewrite Haccept. cbn [rbind].
  change (routesApplied (v <| routesReceived := routesReceived v + 1 |>)) with (routesApplied v).
  by rewrite (incr_ok (routesApplied v)) by lia.
Qed.

(** C1. End to end: the server stores the report in the traffic record of its edge
    and in no other, and the packet it sends carries a cheapest route for exactly
    the traffic it then holds, on the roads of the network file; the packet survives
    the wire; and when the vehicle is still on the edge it reported and the route
    has at most 64 edges, the vehicle asks SUMO for the names of that route, which
    starts at the vehicle's edge and ends at its destination. *)
Theorem route_reaches_driver :
  exists tr tr' route out st,
    vget (traffic (net s)) (edgeIndex r) = Some tr /\ absorbed ed tr r now tr' /\
    traffic (net s') = <[Z.to_nat (edgeIndex r) := tr']> (traffic (net s)) /\
    adjacency (net s') = adjacency n /\ edges (net s') = edges n /\ params s' = p /\
    best_route cexp s' now (hashVehicleKey (L3Address_str a)) (edgeIndex r) (destEdgeIndex r) route /\
    x = route_message route /\
    serialize_route empty_ostream x = Ok out /\
    deserialize_route (istream_of (o_data out)) = Ok (x, st) /\
    (vsize route <= 64 ->
     vsocketDataArrived v env x = Ok (applied v, [ChangeRoute (route_names_in n route)]) /\
     head (route_names_in n route) = Some (ed_id ed) /\
     exists dest, vget (edges n) (destEdgeIndex r) = Some dest /\
       last (route_names_in n route) = Some (ed_id dest)).
Proof.
  destruct deployed_delivery as (route & out & st & (tr & tr' & Hans) & Hr & _ & Hrange & Hser & Hdes & Hv).
  exists tr, tr', route, out, st. destruct Hans as (?&?&?&?&?&?&?&?).
  do 10 (split; [assumption|]). intros Hle.
  destruct (route_names_map n route Hrange) as [Hlen Hmap].
  rewrite take_ge in Hv by lia. split; [done|]. destruct Hr as (Hh & Hl & _).
  split; [|by apply last_names]. destruct route as [|i route]; [done|]. injection Hh as ->.
  destruct (Hmap 0%nat _ eq_refl) as (ed' & Hed' & Hn0). rewrite Hed in Hed'. injection Hed' as <-.
  rewrite head_lookup. exact Hn0.
Qed.

(** C39. Long routes lose their destination: when every route to the destination
    has more than 64 edges, the vehicle is told to drive the first 64 edges of one
    and is left with the 64th as its destination, which is not the one it asked
    for. *)
Theorem long_route_loses_destination :
  (forall q, route_from_to (adjacency n) (edgeIndex r) q (destEdgeIndex r) -> 64 < vsize q) ->
  exists l last_edge dest,
    vsocketDataArrived v env x = Ok (applied v, [ChangeRoute l]) /\
    last l = Some (ed_id last_edge) /\
    vget (edges n) (destEdgeIndex r) = Some dest /\ ed_id last_edge <> ed_id dest.
Proof.
  intros Hfar. destruct deployed_delivery
    as (route & out & st & _ & Hr & Hnd & Hrange & _ & _ & Hv).
  pose proof (Hfar _ Hr) as Hlong.
  destruct (route_names_map n route Hrange) as [Hlen Hmap].
  destruct (lookup_lt_is_Some_2 route 63%nat) as [i Hi]; [lia|].
  destruct (Hmap _ _ Hi) as (le & Hle & Hname). destruct Hr as (_ & Hl & _).
  destruct (last_names n route _ Hrange Hl) as (dest & Hdest & _).
  exists (take 64 (route_names_in n route)), le, dest. split; [done|]. split.
  { rewrite last_lookup, length_take, Hlen. replace (Nat.pred (64 `min` length route))%nat with 63%nat by lia.
    by rewrite lookup_take_lt by lia. }
  split; [done|]. intros Heq. destruct (file_net_wf _ _ Hfile) as (Hwf & _).
  apply edges_ids in Hle, Hdest. rewrite Heq in Hle.
  assert (i = destEdgeIndex r).
  { unfold vget in Hle, Hdest. destruct (Z.leb_spec 0 i), (Z.leb_spec 0 (destEdgeIndex r)); try done.
    pose proof (NoDup_lookup _ _ _ _ (net_nodup _ Hwf) Hle Hdest). lia. }
  subst i. rewrite last_lookup in Hl. pose proof (NoDup_lookup _ _ _ _ Hnd Hi Hl). lia.
Qed.
End Deployed.

(** ** The demonstration scenario, with a vehicle *)

Definition demo_vparams : VehicleParams :=
  {| reportInterval := flit 1 1; serverPort := 5000; localPort := 6000; penetrationRate := fone;
     fullName := "car[0]"; resolvedServerAddr := L3_IPv4 167772162 |}.
Definition demo_vehicle : VehicleApp := (vinitialize demo_vparams (Some demo_lines) f0).1.

Definition demo_env : TraCI :=
  {| mobility_present := true; managed := true; getExternalId := Ok "v0"; getRoadId := Ok "A";
     getSpeed := Ok (flit 5 1); getLaneId := Ok "A_0"; getPlannedRoadIds := Ok ["A"; "B"; "D"];
     getCurrentTravelTime := fun _ => Ok (flit 20 1); changeVehicleRoute := fun _ => Ok true;
     changeTarget := fun _ => Ok tt; host_present := true; mac_node := Some 1025;
     binder_present := true |}.

Definition demo_edge : EdgeData := default (new_edge EmptyString) (vget (edges demo_net) 0).

Lemma demo_init :
  initialize demo_params (Some demo_lines) =
  Ok (demo_server, [ScheduleAfter (decayInterval demo_params) decayTimer;
                    ScheduleAfter fone rerouteCounterResetTimer]).
Proof. unfold initialize. rewrite demo_file. reflexivity. Qed.

Lemma demo_distinct : NoDup (file_ids demo_lines).
Proof. apply (bool_decide_unpack _). vm_compute. exact I. Qed.

Lemma demo_small : vsize (edges demo_net) < 2 ^ 31.
Proof. vm_compute. reflexivity. Qed.

Lemma demo_timed1 : timed f0 ([] ++ [(flit 1 1, PacketMsg demo_addr 6000 demo_report)]).
Proof.
  exact (conj (proj1 demo_timed) (conj (proj1 (proj2 demo_timed)) (conj demo_report_ok I))).
Qed.

Lemma route_reaches_driver_witness :
  exists tr tr' route out st,
    vget (traffic (net demo_server)) 0 = Some tr /\ absorbed demo_edge tr demo_report (flit 1 1) tr' /\
    traffic (net demo_server1) = <[0%nat := tr']> (traffic (net demo_server)) /\
    adjacency (net demo_server1) = adjacency demo_net /\
    edges (net demo_server1) = edges demo_net /\ params demo_server1 = demo_params /\
    best_route demo_exp demo_server1 (flit 1 1) (hashVehicleKey (L3Address_str demo_addr)) 0 3 route /\
    route_message [0; 2; 3] = route_message route /\
    serialize_route empty_ostream (route_message [0; 2; 3]) = Ok out /\
    deserialize_route (istream_of (o_data out)) = Ok (route_message [0; 2; 3], st) /\
    (vsize route <= 64 ->
     vsocketDataArrived demo_vehicle demo_env (route_message [0; 2; 3]) =
       Ok (applied demo_vehicle, [ChangeRoute (route_names_in demo_net route)]) /\
     head (route_names_in demo_net route) = Some (ed_id demo_edge) /\
     exists dest, vget (edges demo_net) 3 = Some dest /\
       last (route_names_in demo_net route) = Some (ed_id dest)).
Proof.
  refine (route_reaches_driver demo_exp demo_params demo_lines demo_net [] demo_server demo_server
    demo_server1 _ [] (flit 1 1) demo_addr 6000 demo_report (route_message [0; 2; 3])
    demo_exp_ok demo_file demo_distinct demo_edges_ok demo_small
    (proj1 demo_params_ok) (proj2 demo_params_ok) demo_init demo_timed1 _ eq_refl
    demo_step1 demo_vehicle demo_env demo_edge _ eq_refl _ _ (fun _ => eq_refl) _);
    vm_compute; auto.
Defined.

(** A road of 70 edges in a row; the vehicle is on the first and wants to reach the
    last. *)
Definition chain_id (i : Z) : string := "E" +:+ dec (100 + i).
Definition chain_lines : list string :=
  let q s := quote_str +:+ s +:+ quote_str in
  let edge id := "<edge id=" +:+ q id +:+ ">" in
  let lane id := "<lane id=" +:+ q id +:+ " speed=" +:+ q "13.9" +:+ " length=" +:+ q "100.0" +:+ "/>" in
  let conn a b := "<connection from=" +:+ q a +:+ " to=" +:+ q b +:+ " dir=" +:+ q "s" +:+ "/>" in
  flat_map (fun i => [edge (chain_id i); lane (chain_id i)]) (seqZ 0 70) ++
  map (fun i => conn (chain_id i) (chain_id (i + 1))) (seqZ 0 69).

Definition chain_net : RoadNet :=
  Eval vm_compute in match parseNetXml empty_net (Some chain_lines) with Ok n => n | _ => empty_net end.

Lemma chain_file : file_net chain_net (Some chain_lines).
Proof. vm_compute. reflexivity. Qed.

Lemma chain_edges_ok : Forall edge_ok (edges chain_net).
Proof. apply edges_checked. vm_compute. repeat constructor. Qed.

Lemma chain_distinct : NoDup (file_ids chain_lines).
Proof. apply (bool_decide_unpack _). vm_compute. exact I. Qed.

Definition chain_server : TrafficServer := fresh_server chain_net.
Definition chain_report : VehicleReportMsg :=
  {| edgeIndex := 0; destEdgeIndex := 69; speed := flit 5 1; timestamp := fone;
     realTravelTime := flit 20 1; laneChangeCount := 0; report_chunkLength := 36 |}.
Definition chain_route : ServerRouteMsg := route_message (seqZ 0 70).
Definition chain_server1 : TrafficServer :=
  after chain_server (flit 1 1) (PacketMsg demo_addr 6000 chain_report).
Definition chain_vehicle : VehicleApp := (vinitialize demo_vparams (Some chain_lines) f0).1.
Definition chain_env : TraCI :=
  {| mobility_present := true; managed := true; getExternalId := Ok "v0"; getRoadId := Ok "E100";
     getSpeed := Ok (flit 5 1); getLaneId := Ok "E100_0"; getPlannedRoadIds := Ok ["E100"; "E169"];
     getCurrentTravelTime := fun _ => Ok (flit 20 1); changeVehicleRoute := fun _ => Ok true;
     changeTarget := fun _ => Ok tt; host_present := true; mac_node := Some 1025;
     binder_present := true |}.
Definition chain_edge : EdgeData := default (new_edge EmptyString) (vget (edges chain_net) 0).

Lemma chain_step :
  handleMessage demo_exp chain_server (flit 1 1) (PacketMsg demo_addr 6000 chain_report) =
  Ok (chain_server1, [SendTo chain_route demo_addr 6000]).
Proof. vm_compute. reflexivity. Qed.

Lemma chain_init :
  initialize demo_params (Some chain_lines) =
  Ok (chain_server, [ScheduleAfter (decayInterval demo_params) decayTimer;
                     ScheduleAfter fone rerouteCounterResetTimer]).
Proof. unfold initialize. rewrite chain_file. reflexivity. Qed.

Lemma chain_small : vsize (edges chain_net) < 2 ^ 31.
Proof. vm_compute. reflexivity. Qed.

Lemma chain_timed : timed f0 ([] ++ [(flit 1 1, PacketMsg demo_addr 6000 chain_report)]).
Proof.
  refine (conj (proj1 demo_timed) (conj (proj1 (proj2 demo_timed)) (conj _ I))).
  vm_compute. auto.
Qed.

(** Every arc of the chain leads to the next edge. *)
Lemma chain_arcs u v : arc (adjacency chain_net) u v -> v = u + 1.
Proof.
  assert (H : Forall (fun p => Forall (fun v => v = p.1 + 1) p.2)
    (zip (seqZ 0 70) (adjacency chain_net))) by (vm_compute; repeat constructor).
  intros (nb & Hnb & Hv). pose proof (vget_Some_bounds _ _ _ Hnb) as Hu.
  change (vsize (adjacency chain_net)) with 70 in Hu. unfold vget in Hnb.
  rewrite (proj2 (Z.leb_le 0 u)) in Hnb by lia.
  assert (Hz : zip (seqZ 0 70) (adjacency chain_net) !! Z.to_nat u = Some (u, nb)).
  { apply lookup_zip_Some. split; [|exact Hnb]. apply lookup_seqZ. lia. }
  apply (Forall_lookup_1 _ _ _ _ H) in Hz. simpl in Hz. by eapply Forall_forall in Hz.
Qed.

Lemma chain_length adj u q d :
  (forall u v, arc adj u v -> v = u + 1) -> route_from_to adj u q d -> vsize q = d - u + 1.
Proof.
  intros Harc. revert u. induction q as [|a q IH]; intros u (Hh & Hl & Hc); [done|].
  injection Hh as ->. destruct q as [|b q]; [injection Hl as ->; simpl; lia|].
  destruct Hc as [Ha Hc]. rewrite (Harc _ _ Ha) in *.
  specialize (IH (u + 1) (conj eq_refl (conj Hl Hc))). simpl in *. lia.
Qed.

Lemma long_route_loses_destination_witness :
  exists l last_edge dest,
    vsocketDataArrived chain_vehicle chain_env chain_route = Ok (applied chain_vehicle, [ChangeRoute l]) /\
    last l = Some (ed_id last_edge) /\
    vget (edges chain_net) 69 = Some dest /\ ed_id last_edge <> ed_id dest.
Proof.
  refine (long_route_loses_destination demo_exp demo_params chain_lines chain_net [] chain_server
    chain_server chain_server1 _ [] (flit 1 1) demo_addr 6000 chain_report chain_route
    demo_exp_ok chain_file chain_distinct chain_edges_ok chain_small
    (proj1 demo_params_ok) (proj2 demo_params_ok) chain_init chain_timed _ eq_refl
    chain_step chain_vehicle chain_env chain_edge _ eq_refl _ _ (fun _ => eq_refl) _ _);
    [vm_compute; auto..|].
  intros q Hq. rewrite (chain_length _ _ _ _ chain_arcs Hq). reflexivity.
Defined.
