(* ===== verification/Demo.v ===== *)
(** * Concrete instances

    The properties of the message formats, of the network file and of the vehicle at
    the demonstration scenario of ServerRun.v and System.v. *)

From S2P Require Import Prelude Doubles MemoryStream TrafficMsg NetXml TrafficServer ServerRun.
From S2P Require Import VehicleApp VehicleLife System.

Definition demo_route_msg : ServerRouteMsg := route_message [0; 2; 3].

Lemma report_roundtrip_witness :
  let out := serialize_report empty_ostream demo_report in
  vsize (o_data out) = 36 /\
  exists s, deserialize_report (istream_of (o_data out)) = Ok (demo_report, s) /\
            i_isReadBeyondEnd s = false.
Proof.
  apply (report_roundtrip demo_report). split; vm_compute; (reflexivity || (split; congruence) || auto).
Defined.

Lemma route_roundtrip_witness :
  exists out, serialize_route empty_ostream demo_route_msg = Ok out /\
    vsize (o_data out) = 260 /\
    exists s, deserialize_route (istream_of (o_data out)) = Ok (demo_route_msg, s) /\
              i_isReadBeyondEnd s = false.
Proof.
  apply (route_roundtrip demo_route_msg).
  split; [split; vm_compute; congruence|reflexivity| |reflexivity].
  assert (H : Forall (fun z => -2 <= z < 100) (routeEdges demo_route_msg))
    by (apply (bool_decide_unpack _); vm_compute; exact I).
  eapply Forall_impl; [exact H|]. intros z Hz. cbn beta in Hz. change (- 2147483648 <= z < 2147483648). lia.
Defined.

Lemma parseNetXml_wf_witness :
  net_wf demo_net /\
  (forall i j, adj_arc (adjacency demo_net) i j <->
     exists line, line ∈ demo_lines /\ line_arc (edgeNameToIdx demo_net) line i j).
Proof. exact (parseNetXml_wf (Some demo_lines) demo_net demo_file). Defined.

Lemma edge_numbering_agrees_witness :
  let t := parseEdgeIndex empty_table (Some demo_lines) in
  ids (edges demo_net) = indexToEdge t /\ edgeNameToIdx demo_net = edgeToIndex t.
Proof. exact (edge_numbering_agrees demo_lines demo_net demo_file demo_distinct). Defined.

(** The vehicle on the edge it reported takes the route [A; C; D]. *)
Lemma demo_names : names_of (table demo_vehicle) demo_route_msg 0 ["A"; "C"; "D"].
Proof.
  intros [|[|[|k]]] name H; simpl in H; simplify_eq; eexists; (split; vm_compute; reflexivity).
Qed.

Lemma route_applied_from_current_edge_witness :
  vsocketDataArrived demo_vehicle demo_env demo_route_msg =
  Ok (applied demo_vehicle, [ChangeRoute ["A"; "C"; "D"]]).
Proof.
  refine (route_applied_from_current_edge demo_vehicle demo_env demo_route_msg [] ["C"; "D"] "A"
    _ _ _ demo_names (not_elem_of_nil _) _ _ _ _ _ _);
    [vm_compute; reflexivity|reflexivity|discriminate|discriminate|reflexivity..].
Defined.

(** On another road it falls back; after its departure the query throws. *)
Definition elsewhere_env : TraCI :=
  {| mobility_present := true; managed := true; getExternalId := Ok "v0"; getRoadId := Ok "B";
     getSpeed := Ok (flit 5 1); getLaneId := Ok "B_0"; getPlannedRoadIds := Ok ["B"; "D"];
     getCurrentTravelTime := fun _ => Ok (flit 20 1); changeVehicleRoute := fun _ => Ok true;
     changeTarget := fun _ => Ok tt; host_present := true; mac_node := Some 1025;
     binder_present := true |}.

Lemma route_off_path_falls_back_witness :
  vsocketDataArrived demo_vehicle elsewhere_env demo_route_msg =
  Ok (demo_vehicle <| routesReceived := 1 |> <| routesFallback := 1 |>, [ChangeTarget "D"]).
Proof.
  refine (route_off_path_falls_back demo_vehicle elsewhere_env demo_route_msg ["A"; "C"; "D"] "B" "D"
    _ _ _ demo_names _ _ _ _ _ _ _);
    [vm_compute; reflexivity|reflexivity|discriminate|reflexivity| |reflexivity|discriminate|reflexivity..].
  apply (bool_decide_unpack _). vm_compute. exact I.
Defined.

Definition departed_env : TraCI :=
  {| mobility_present := true; managed := false; getExternalId := Ok "v0";
     getRoadId := Throw "TraCI: vehicle v0 is not known"; getSpeed := Throw "TraCI";
     getLaneId := Throw "TraCI"; getPlannedRoadIds := Throw "TraCI";
     getCurrentTravelTime := fun _ => Throw "TraCI"; changeVehicleRoute := fun _ => Throw "TraCI";
     changeTarget := fun _ => Throw "TraCI"; host_present := true; mac_node := Some 1025;
     binder_present := true |}.

Lemma route_after_departure_queries_witness :
  vhandleMessage demo_vehicle departed_env fone (RoutePacket demo_route_msg) =
    Throw "TraCI: vehicle v0 is not known" /\
  (getExternalId departed_env <> UB ->
   exists s' es, vhandleMessage demo_vehicle departed_env fone ReportTimer = Ok (s', es)).
Proof.
  refine (route_after_departure_queries demo_vehicle departed_env fone demo_route_msg ["A"; "C"; "D"]
    _ _ eq_refl eq_refl _ _ demo_names _ _);
    [vm_compute; reflexivity|reflexivity|split; [reflexivity|discriminate]|reflexivity..].
Defined.

(** A short life: one report sent, one report timer that finds the vehicle gone. *)
Definition vafter (s : VehicleApp) (env : TraCI) (now : float) (m : vmessage) : VehicleApp * list veffect :=
  match vhandleMessage s env now m with Ok r => r | _ => (s, []) end.
Definition demo_vehicle1 : VehicleApp := (vafter demo_vehicle demo_env fone ReportTimer).1.
Definition demo_vehicle2 : VehicleApp := (vafter demo_vehicle1 departed_env (flit 2 1) ReportTimer).1.
Definition demo_sent : list veffect :=
  [SendReport demo_report (L3_IPv4 167772162) 5000; ScheduleReport (flit 1 1)].

Lemma demo_report_step : vhandleMessage demo_vehicle demo_env fone ReportTimer = Ok (demo_vehicle1, demo_sent).
Proof. vm_compute. reflexivity. Qed.

Lemma demo_life : vruns demo_vehicle demo_sent demo_vehicle1.
Proof.
  refine (vruns_step demo_vehicle [] demo_vehicle demo_env fone ReportTimer demo_vehicle1 demo_sent
            (vruns_nil _) _ demo_report_step).
  vm_compute. reflexivity.
Qed.

Lemma vehicle_life_witness :
  occurrences is_row demo_sent <= 1 /\ occurrences is_unregister demo_sent <= 1 /\
  occurrences is_delete demo_sent <= 1 /\
  forall env now s' e', vfinish demo_vehicle1 env now = Ok (s', e') ->
    occurrences is_row (demo_sent ++ e') = 1.
Proof. exact (vehicle_life demo_vparams (Some demo_lines) f0 demo_sent demo_vehicle1 demo_life). Defined.

Lemma departure_cleans_up_witness :
  exists rows s1,
    vhandleMessage demo_vehicle1 departed_env (flit 2 1) ReportTimer =
      Ok (s1, rows ++ [UnregisterNode 1025; StopTtiTick; ScheduleDeleteSelf]) /\
    (statsInitialized demo_vehicle1 = true -> statsWritten demo_vehicle1 = false ->
       exists row, rows = [AppendRow row] /\
         row_isEquipped row = isEquipped demo_vehicle1 /\ row_destEdge row = lastEdge demo_vehicle1) /\
    enabled s1 ReportTimer = false /\ enabled s1 DeleteSelf = true /\
    (forall env' now', host_present env' = true ->
       exists s2 e2, vhandleMessage s1 env' now' DeleteSelf = Ok (s2, e2) /\ last e2 = Some DeleteModule) /\
    (forall e2 s2, vruns s1 e2 s2 -> occurrences is_radio e2 = 0).
Proof.
  refine (departure_cleans_up demo_vparams (Some demo_lines) f0 demo_sent demo_vehicle1 departed_env
    (flit 2 1) 1025 "v0" demo_life _ eq_refl eq_refl eq_refl eq_refl _ eq_refl _);
    [vm_compute; reflexivity|discriminate|vm_compute; reflexivity].
Defined.

Lemma report_truthful_witness :
  ReportTimer = ReportTimer /\ truthful demo_vehicle demo_env fone demo_report /\
  L3_IPv4 167772162 = resolvedServerAddr (vparams demo_vehicle) /\
  5000 = serverPort (vparams demo_vehicle).
Proof.
  refine (report_truthful demo_vehicle demo_vehicle1 demo_env fone ReportTimer demo_sent demo_report
    _ _ demo_report_step _). by left.
Defined.

Definition demo_row : StatsRow :=
  {| row_vehId := "car[0]"; row_sumoId := "v0"; row_isEquipped := true; row_departTime := fone;
     row_arrivalTime := flit 2 1; row_duration := fone; row_received := 0; row_applied := 0;
     row_fallback := 0; row_laneChanges := 0; row_departEdge := "A"; row_destEdge := "A" |}.

Lemma csv_one_header_witness :
  csv_lines (fold_left appendCsvRow [demo_row; demo_row]
    {| csvHeaderWritten := false; csv_lines := []; csv_opens := true |}) =
  [CsvHeader; CsvRow demo_row; CsvRow demo_row].
Proof. apply (csv_one_header [demo_row; demo_row] []); [by left|discriminate]. Defined.
