(* ===== verification/Family.v ===== *)
(** * Families of independent machines

    A map from identifiers to the states of machines of one kind, each created in its
    initial state when it is first addressed: the entities of an RLC layer, one per
    connection.  A run of the family is, for each identifier, the run of that machine
    alone on the events addressed to it; and the family runs without error when each
    machine does. *)

From S2P Require Import Prelude.

(** What concerns the identifier [c]. *)
Definition at_id {X} (c : Z) (l : list (Z * X)) : list X :=
  omap (fun p => if decide (p.1 = c) then Some p.2 else None) l.

Lemma at_id_app {X} c (l1 l2 : list (Z * X)) : at_id c (l1 ++ l2) = at_id c l1 ++ at_id c l2.
Proof. apply omap_app. Qed.

Lemma at_id_same {X} c (l : list X) : at_id c (map (pair c) l) = l.
Proof. induction l as [|x l IH]; [done|]. unfold at_id in *. cbn. rewrite decide_True by done. by f_equal. Qed.

Lemma at_id_other {X} c c' (l : list X) : c' <> c -> at_id c (map (pair c') l) = [].
Proof. intros Hne. induction l as [|x l IH]; [done|]. unfold at_id in *. cbn. by rewrite decide_False. Qed.

Lemma elem_of_at_id {X} c (x : X) l : x ∈ at_id c l <-> (c, x) ∈ l.
Proof.
  unfold at_id. rewrite list_elem_of_omap. split.
  - intros ([c' y] & Hin & E). cbn in E. case_decide; [|done]. injection E as ->. by subst.
  - intros Hin. exists (c, x). split; [done|]. cbn. by rewrite decide_True.
Qed.

Lemma at_id_length {X} c (l : list (Z * X)) : (length (at_id c l) <= length l)%nat.
Proof. unfold at_id. induction l as [|p l IH]; [done|]. cbn. case_decide; cbn; lia. Qed.

Section Machine.
Context {S E O : Type} (step : S -> E -> result (S * list O)).

Fixpoint run_machine (s : S) (evs : list E) : result (S * list O) :=
  match evs with
  | [] => Ok (s, [])
  | ev :: evs' =>
      let! (s, out) := step s ev in
      let! (s, outs) := run_machine s evs' in
      Ok (s, out ++ outs)
  end.

(** The machine [c] of the map, in its initial state when it does not exist yet. *)
Context (init : S).
Definition machine (m : gmap Z S) (c : Z) : S := default init (m !! c).

(** [m'] differs from [m] in machine [c] only, which is [s]. *)
Definition machine_set (m m' : gmap Z S) (c : Z) (s : S) : Prop :=
  machine m' c = s /\ forall c', c' <> c -> machine m' c' = machine m c'.

Lemma machine_insert m c s : machine_set m (<[c := s]> m) c s.
Proof.
  unfold machine_set, machine. split; [by rewrite lookup_insert_eq|]. intros c' Hne. by rewrite lookup_insert_ne.
Qed.

(** ** A program that runs a family *)

(** Its state, the map in it, and the machine and event each of its own events stands
    for. *)
Context {T F : Type} (fstep : T -> F -> result (T * list (Z * O))) (family : T -> gmap Z S).
Context (route : F -> Z * E) (inv : T -> Prop) (good : F -> Prop).

(** One event is one event of one machine. *)
Hypothesis routed : forall t f s' out, inv t -> good f -> step (machine (family t) (route f).1) (route f).2 = Ok (s', out) ->
  exists t', fstep t f = Ok (t', map (pair (route f).1) out) /\ inv t' /\
    machine_set (family t) (family t') (route f).1 s'.

Fixpoint run_family (t : T) (fs : list F) : result (T * list (Z * O)) :=
  match fs with
  | [] => Ok (t, [])
  | f :: fs' =>
      let! (t, out) := fstep t f in
      let! (t, outs) := run_family t fs' in
      Ok (t, out ++ outs)
  end.

Lemma family_runs t fs :
  inv t -> Forall good fs -> (forall c, exists r, run_machine (machine (family t) c) (at_id c (map route fs)) = Ok r) ->
  exists t' outs, run_family t fs = Ok (t', outs) /\ inv t' /\
    forall c, run_machine (machine (family t) c) (at_id c (map route fs)) =
              Ok (machine (family t') c, at_id c outs).
Proof.
  revert t. induction fs as [|f fs IH]; intros t Hinv Hgood Hall; [exists t, []; by split|].
  apply Forall_cons in Hgood as [Hg Hgood].
  destruct (route f) as [c ev] eqn:Ef.
  assert (Hat : forall c', at_id c' (map route (f :: fs)) =
    if decide (c = c') then ev :: at_id c' (map route fs) else at_id c' (map route fs)).
  { intros c'. unfold at_id. cbn. rewrite Ef. cbn. by case_decide. }
  destruct (Hall c) as [[s2 o2] Hrun]. rewrite Hat, decide_True in Hrun by done. cbn [run_machine] in Hrun.
  apply rbind_Ok_inv in Hrun as ([s1 out] & Hstep & Hrun).
  destruct (routed t f s1 out Hinv Hg) as (t1 & Hf & Hinv1 & Hc & Ho); [by rewrite Ef|]. rewrite Ef in Hf, Hc, Ho. cbn in Hf, Hc, Ho.
  assert (Hshift : forall c', run_machine (machine (family t) c') (at_id c' (map route (f :: fs))) =
    let! (s, outs) := run_machine (machine (family t1) c') (at_id c' (map route fs)) in
    Ok (s, (if decide (c = c') then out else []) ++ outs)).
  { intros c'. rewrite Hat. case_decide as Hcc.
    - subst c'. cbn [run_machine]. rewrite Hstep. cbn [rbind]. by rewrite Hc.
    - rewrite (Ho c') by done. destruct (run_machine (machine (family t) c') _) as [[? ?]| |]; reflexivity. }
  destruct (IH t1 Hinv1 Hgood) as (t2 & outs & Hr & Hinv2 & Hm).
  { intros c'. destruct (Hall c') as [r Hr]. rewrite Hshift in Hr.
    destruct (run_machine (machine (family t1) c') _) as [r'| |]; [by exists r'|done..]. }
  exists t2, (map (pair c) out ++ outs). cbn [run_family]. rewrite Hf. cbn [rbind]. rewrite Hr.
  split; [done|]. split; [done|]. intros c'. rewrite Hshift, Hm. cbn [rbind]. rewrite at_id_app.
  case_decide as Hcc; [subst; by rewrite at_id_same|by rewrite at_id_other].
Qed.
End Machine.
