(* ===== verification/LteCommon.v ===== *)
(** * Identifiers and control information of the LTE stack

    Node and connection identifiers, traffic directions and [FlowControlInfo], the
    control information a packet carries from the IP interface to the MAC
    (src/simulte/src/common/LteCommon.cc, LteCommonEnum.msg, LteControlInfo.msg).
    A connection identifier packs a node and a logical identifier into 32 bits: for
    16-bit parts the packing is injective. *)

From S2P Require Import Prelude.

Abbreviation uint16 := (wrap 16).

Inductive Direction : Type := DL | UL | D2D | D2D_MULTI | UNKNOWN_DIRECTION.

#[export] Instance direction_eq_dec : EqDecision Direction.
Proof. solve_decision. Defined.

(** The numbers of the enumerators. *)
Definition dir_code (d : Direction) : Z :=
  match d with DL => 0 | UL => 1 | D2D => 2 | D2D_MULTI => 3 | UNKNOWN_DIRECTION => 4 end.

(** [LteNodeType]. *)
Inductive LteNodeType : Type := INTERNET | ENODEB | RELAY | UE | UNKNOWN_NODE_TYPE.

#[export] Instance nodetype_eq_dec : EqDecision LteNodeType.
Proof. solve_decision. Defined.

Definition ENB_MIN_ID : Z := 1.
Definition ENB_MAX_ID : Z := 255.
Definition RELAY_MIN_ID : Z := 257.
Definition RELAY_MAX_ID : Z := 1023.
Definition UE_MIN_ID : Z := 1025.
Definition UE_MAX_ID : Z := 65535.

Definition getNodeTypeById (id : Z) : LteNodeType :=
  if (ENB_MIN_ID <=? id) && (id <=? ENB_MAX_ID) then ENODEB
  else if (RELAY_MIN_ID <=? id) && (id <=? RELAY_MAX_ID) then RELAY
  else if (UE_MIN_ID <=? id) && (id <=? UE_MAX_ID) then UE
  else UNKNOWN_NODE_TYPE.

(** [LteRlcType]; the member that holds it is an [unsigned short]. *)
Definition TM : Z := 0.
Definition UM : Z := 1.
Definition AM : Z := 2.

Inductive ApplicationType : Type := VOIP | VOD | WEB | CBR | FTP | GAMING | FULLBUFFER | UNKNOWN_APP.
Inductive LteTrafficClass : Type :=
  CONVERSATIONAL | STREAMING | INTERACTIVE | BACKGROUND | UNKNOWN_TRAFFIC_TYPE.

(** [FlowControlInfo] with the members of its base [LteControlInfo]. *)
Record FlowControlInfo := {
  fi_sourceId : Z;
  fi_destId : Z;
  fi_direction : Direction;
  fi_d2dTxPeerId : Z;
  fi_d2dRxPeerId : Z;
  fi_application : ApplicationType;
  fi_traffic : LteTrafficClass;
  fi_rlcType : Z;
  fi_lcid : Z;
  fi_multicastGroupId : Z;
  fi_srcAddr : Z;
  fi_dstAddr : Z;
  fi_srcPort : Z;
  fi_dstPort : Z;
  fi_sequenceNumber : Z;
  fi_headerSize : Z
}.

#[export] Instance flowinfo_eta : Eta FlowControlInfo := fun i =>
  {| fi_sourceId := fi_sourceId i; fi_destId := fi_destId i; fi_direction := fi_direction i;
     fi_d2dTxPeerId := fi_d2dTxPeerId i; fi_d2dRxPeerId := fi_d2dRxPeerId i;
     fi_application := fi_application i; fi_traffic := fi_traffic i; fi_rlcType := fi_rlcType i;
     fi_lcid := fi_lcid i; fi_multicastGroupId := fi_multicastGroupId i;
     fi_srcAddr := fi_srcAddr i; fi_dstAddr := fi_dstAddr i; fi_srcPort := fi_srcPort i;
     fi_dstPort := fi_dstPort i; fi_sequenceNumber := fi_sequenceNumber i;
     fi_headerSize := fi_headerSize i |}.

Definition RLC_HEADER_AM : Z := 2.

(** ** Connection identifiers *)

Definition idToMacCid (nodeId lcid : Z) : Z := uint32 (Z.lor (Z.shiftl nodeId 16) lcid).
Definition MacCidToNodeId (cid : Z) : Z := uint16 (Z.shiftr cid 16).
Definition MacCidToLcid (cid : Z) : Z := uint16 cid.

(** The UE of a connection, which names it at the transmitter. *)
Definition ctrlInfoToUeId (info : FlowControlInfo) : result Z :=
  match fi_direction info with
  | DL | D2D => Ok (fi_destId info)
  | UL | D2D_MULTI => Ok (fi_sourceId info)
  | UNKNOWN_DIRECTION => Throw "ctrlInfoToMacCid - unknown direction"
  end.

Definition ctrlInfoToMacCid (info : FlowControlInfo) : result Z :=
  let lcid := fi_lcid info in
  match fi_direction info with
  | DL | D2D => Ok (idToMacCid (fi_destId info) lcid)
  | UL | D2D_MULTI => Ok (idToMacCid (fi_sourceId info) lcid)
  | UNKNOWN_DIRECTION => Throw "ctrlInfoToMacCid(): unknown direction"
  end.

(** A new [FlowControlInfo]. *)
Definition new_FlowControlInfo : FlowControlInfo :=
  {| fi_sourceId := 0; fi_destId := 0; fi_direction := DL; fi_d2dTxPeerId := 0; fi_d2dRxPeerId := 0;
     fi_application := VOIP; fi_traffic := CONVERSATIONAL; fi_rlcType := TM; fi_lcid := 0;
     fi_multicastGroupId := -1; fi_srcAddr := 0; fi_dstAddr := 0; fi_srcPort := 0; fi_dstPort := 0;
     fi_sequenceNumber := 0; fi_headerSize := 0 |}.

Definition isMulticastConnection (info : FlowControlInfo) : bool := 0 <=? fi_multicastGroupId info.

(** ** Packing and unpacking *)

Lemma lor_shift n l : is_uint 16 l -> Z.lor (Z.shiftl n 16) l = n * 2 ^ 16 + l.
Proof.
  unfold is_uint. intros Hl. rewrite <- Z.shiftl_mul_pow2, <- Z.add_lor_land by lia.
  assert (Z.land (Z.shiftl n 16) l = 0) as ->; [|lia].
  apply Z.bits_inj_0. intros i. rewrite Z.land_spec.
  destruct (Z_lt_ge_dec i 0); [by rewrite Z.testbit_neg_r|].
  destruct (Z_lt_ge_dec i 16).
  - by rewrite Z.shiftl_spec_low.
  - rewrite (Z.bits_above_log2 l i); [by rewrite andb_false_r|lia|].
    destruct (Z.eq_dec l 0) as [->|]; [cbn; lia|].
    apply Z.log2_lt_pow2; [lia|]. assert (2 ^ 16 <= 2 ^ i) by (apply Z.pow_le_mono_r; lia). lia.
Qed.

Lemma MacCidToNodeId_id n l : is_uint 16 n -> is_uint 16 l -> MacCidToNodeId (idToMacCid n l) = n.
Proof.
  intros Hn Hl. unfold MacCidToNodeId, idToMacCid. rewrite lor_shift by done.
  rewrite (wrap_small 32) by (unfold is_uint in *; lia). rewrite Z.shiftr_div_pow2 by lia.
  rewrite Z.div_add_l, (Z.div_small l) by (unfold is_uint in *; lia). rewrite Z.add_0_r. by apply wrap_small.
Qed.

Lemma MacCidToLcid_id n l : is_uint 16 l -> MacCidToLcid (idToMacCid n l) = l.
Proof.
  intros Hl. unfold MacCidToLcid, idToMacCid, wrap. rewrite lor_shift by done.
  change (2 ^ 32) with (2 ^ 16 * 2 ^ 16). rewrite Z.rem_mul_r by lia.
  rewrite (Z.mul_comm (2 ^ 16)), Z.mod_add by lia. rewrite Z.mod_mod by lia.
  rewrite Z.add_comm, Z.mod_add by lia. by apply Z.mod_small.
Qed.

Lemma idToMacCid_inj n l n' l' :
  is_uint 16 n -> is_uint 16 l -> is_uint 16 n' -> is_uint 16 l' ->
  idToMacCid n l = idToMacCid n' l' -> n = n' /\ l = l'.
Proof.
  intros. split; [rewrite <- (MacCidToNodeId_id n l), <- (MacCidToNodeId_id n' l')
                 |rewrite <- (MacCidToLcid_id n l), <- (MacCidToLcid_id n' l')]; congruence.
Qed.
