(* ===== verification/LteBinder.v ===== *)
(** * The binder

    [LteBinder] (src/simulte/src/corenetwork/binder/LteBinder.cc): the registry shared
    by all nodes of the network.  It hands out node identifiers, maps addresses and
    identifiers to nodes and their MAC modules, knows the serving node of every UE and
    which pairs of UEs may talk directly, and takes a node out again.

    Modules belong to OMNeT++: what a path of submodules leads to is the parameter
    [macModule].  The lists of node descriptions used only for interference ([ueList_],
    [enbList_], external cells) are left out. *)

From S2P Require Import Prelude.
From S2P Require Import LteCommon.
From stdpp Require Import sorting.
#[local] Open Scope Z_scope.

Inductive LteD2DMode : Type := IM | DM.

#[export] Instance d2dmode_eq_dec : EqDecision LteD2DMode.
Proof. solve_decision. Defined.

(** A MAC module: what the binder asks of it. *)
Record LteMacRef := {
  mac_ptr : Z;
  mac_isEnb : bool;
  mac_hasAmc : bool;
  mac_isD2DCapable : bool;
  mac_d2dInitialMode : bool
}.

Record UeAllocationInfo := {
  alloc_nodeId : Z;
  alloc_cellId : Z;
  alloc_phy : Z;
  alloc_dir : Direction
}.

Record LteBinder := {
  numBands_ : Z;
  macNodeIdToIPAddress_ : gmap Z Z;
  macNodeIdToModuleName_ : gmap Z string;
  macNodeIdToModule_ : gmap Z LteMacRef;
  nextHop_ : list Z;
  nodeIds_ : gmap Z Z;
  counterEnb : Z;
  counterRelay : Z;
  counterUe : Z;
  dMap_ : gmap Z (gmap Z bool);
  ulPrev : list (list UeAllocationInfo);
  ulCurr : list (list UeAllocationInfo);
  lastUpdateUplinkTransmissionInfo_ : Z;
  x2ListeningPorts_ : gmap Z (list Z);
  x2PeerAddress_ : gmap Z (gmap Z Z);
  d2dPeeringMap_ : gmap Z (gmap Z LteD2DMode);
  multicastGroupMap_ : gmap Z (gset Z);
  multicastTransmitterSet_ : gset Z;
  ueHandoverTriggered_ : gset Z
}.

#[export] Instance binder_eta : Eta LteBinder := fun b =>
  {| numBands_ := numBands_ b; macNodeIdToIPAddress_ := macNodeIdToIPAddress_ b;
     macNodeIdToModuleName_ := macNodeIdToModuleName_ b; macNodeIdToModule_ := macNodeIdToModule_ b;
     nextHop_ := nextHop_ b; nodeIds_ := nodeIds_ b; counterEnb := counterEnb b;
     counterRelay := counterRelay b; counterUe := counterUe b; dMap_ := dMap_ b;
     ulPrev := ulPrev b; ulCurr := ulCurr b;
     lastUpdateUplinkTransmissionInfo_ := lastUpdateUplinkTransmissionInfo_ b;
     x2ListeningPorts_ := x2ListeningPorts_ b; x2PeerAddress_ := x2PeerAddress_ b; d2dPeeringMap_ := d2dPeeringMap_ b;
     multicastGroupMap_ := multicastGroupMap_ b;
     multicastTransmitterSet_ := multicastTransmitterSet_ b;
     ueHandoverTriggered_ := ueHandoverTriggered_ b |}.

(** The constructor, and [initialize] for the number of bands. *)
Definition new_LteBinder (numBands : Z) : LteBinder :=
  {| numBands_ := numBands; macNodeIdToIPAddress_ := ∅; macNodeIdToModuleName_ := ∅;
     macNodeIdToModule_ := ∅; nextHop_ := []; nodeIds_ := ∅;
     counterEnb := ENB_MIN_ID; counterRelay := RELAY_MIN_ID; counterUe := UE_MIN_ID;
     dMap_ := ∅; ulPrev := []; ulCurr := []; lastUpdateUplinkTransmissionInfo_ := 0;
     x2ListeningPorts_ := ∅; x2PeerAddress_ := ∅; d2dPeeringMap_ := ∅; multicastGroupMap_ := ∅;
     multicastTransmitterSet_ := ∅; ueHandoverTriggered_ := ∅ |}.

(** What the binder does to other modules. *)
Inductive binder_effect :=
| SetMacNodeIdPar (omnetId macNodeId : Z)
| SetMacCellIdPar (omnetId macNodeId : Z)
| DetachUser (mac id : Z) (dir : Direction)
| DeleteQueues (mac id : Z)
| UnregisterHarqBufferRx (mac id : Z).

(** ** Next hops *)

(** [m[k]] of a map of maps, default-constructed when missing. *)
Definition row {A} (m : gmap Z (gmap Z A)) (k : Z) : gmap Z A := default ∅ (m !! k).

(** [nextHop_.resize(slaveId + 1)] when needed, then the assignment. *)
Definition grow (l : list Z) (i : Z) : list Z :=
  if vsize l <=? i then l ++ replicate (Z.to_nat (i + 1 - vsize l)) 0 else l.

Definition registerNextHop (b : LteBinder) (masterId slaveId : Z) : LteBinder :=
  let b := if negb (masterId =? slaveId)
           then b <| dMap_ := <[masterId := <[slaveId := true]> (row (dMap_ b) masterId)]> (dMap_ b) |>
           else b in
  b <| nextHop_ := <[Z.to_nat slaveId := masterId]> (grow (nextHop_ b) slaveId) |>.

Definition unregisterNextHop (b : LteBinder) (masterId slaveId : Z) : LteBinder :=
  let b := b <| dMap_ := <[masterId := <[slaveId := false]> (row (dMap_ b) masterId)]> (dMap_ b) |> in
  if vsize (nextHop_ b) <=? slaveId then b
  else b <| nextHop_ := <[Z.to_nat slaveId := 0]> (nextHop_ b) |>.

Definition getNextHop (b : LteBinder) (slaveId : Z) : result Z :=
  match vget (nextHop_ b) slaveId with
  | Some m => Ok m
  | None => Throw "LteBinder::getNextHop(): bad slave id"
  end.

(** [dMap_[localId]], which it creates. *)
Definition getDeployedUes (b : LteBinder) (localId : Z) : gmap Z bool * LteBinder :=
  (row (dMap_ b) localId, b <| dMap_ := <[localId := row (dMap_ b) localId]> (dMap_ b) |>).

(** ** Registration *)

Definition registerNode (b : LteBinder) (omnetId : Z) (type : LteNodeType) (masterId : Z)
    : Z * LteBinder * list binder_effect :=
  let (macNodeId, b) :=
    match type with
    | UE => (counterUe b, b <| counterUe := uint16 (counterUe b + 1) |>)
    | RELAY => (counterRelay b, b <| counterRelay := uint16 (counterRelay b + 1) |>)
    | ENODEB => (counterEnb b, b <| counterEnb := uint16 (counterEnb b + 1) |>)
    | _ => (uint16 (-1), b)
    end in
  let b := b <| nodeIds_ := <[macNodeId := omnetId]> (nodeIds_ b) |> in
  match type with
  | RELAY | UE => (macNodeId, registerNextHop b masterId macNodeId, [SetMacNodeIdPar omnetId macNodeId])
  | ENODEB => (macNodeId, registerNextHop b macNodeId macNodeId,
               [SetMacNodeIdPar omnetId macNodeId; SetMacCellIdPar omnetId macNodeId])
  | _ => (macNodeId, b, [SetMacNodeIdPar omnetId macNodeId])
  end.

Definition getOmnetId (b : LteBinder) (nodeId : Z) : Z := default 0 (nodeIds_ b !! nodeId).

Definition getMacNodeId (b : LteBinder) (address : Z) : Z := default 0 (macNodeIdToIPAddress_ b !! address).
Definition setMacNodeId (b : LteBinder) (address nodeId : Z) : LteBinder :=
  b <| macNodeIdToIPAddress_ := <[address := nodeId]> (macNodeIdToIPAddress_ b) |>.

Definition registerName (b : LteBinder) (nodeId : Z) (moduleName : string) : LteBinder :=
  b <| macNodeIdToModuleName_ := <[nodeId := moduleName]> (macNodeIdToModuleName_ b) |>.
Definition getModuleNameByMacNodeId (b : LteBinder) (nodeId : Z) : result string :=
  match macNodeIdToModuleName_ b !! nodeId with
  | Some s => Ok s
  | None => Throw "LteBinder::getModuleNameByMacNodeId - node ID not found"
  end.

(** The keys of a [std::map], in the order an iteration meets them. *)
Definition ascending {A} (m : gmap Z A) : list Z := merge_sort Z.le (elements (dom m)).

Lemma elem_of_ascending {A} (m : gmap Z A) n : n ∈ ascending m <-> is_Some (m !! n).
Proof. unfold ascending. by rewrite merge_sort_Permutation, elem_of_elements, elem_of_dom. Qed.

Definition getMacNodeIdFromOmnetId (b : LteBinder) (id : Z) : Z :=
  default 0 (list_find (fun n => getOmnetId b n = id) (ascending (nodeIds_ b)) ≫= fun p => Some p.2).

Section Modules.
(** [getModule(id)->getSubmodule("lteNic")->getSubmodule("mac")]. *)
Variable macModule : Z -> result (option LteMacRef).

Definition getMacByMacNodeId (b : LteBinder) (nodeId : Z) : result (option LteMacRef) :=
  let id := getOmnetId b nodeId in if id =? 0 then Ok None else macModule id.

(** [getMacFromMacNodeId], with its cache. *)
Definition getMacFromMacNodeId (b : LteBinder) (id : Z) : result (option LteMacRef * LteBinder) :=
  if id =? 0 then Ok (None, b)
  else match macNodeIdToModule_ b !! id with
       | Some mac => Ok (Some mac, b)
       | None =>
           let! mac := getMacByMacNodeId b id in
           match mac with
           | Some mac => Ok (Some mac, b <| macNodeIdToModule_ := <[id := mac]> (macNodeIdToModule_ b) |>)
           | None => Throw "check_and_cast(): Cannot cast nullptr"
           end
       end.

(** ** Taking a node out *)

(** The first loop: every base station forgets [id]; what its calls throw is
    swallowed. *)
Fixpoint detach_all (b : LteBinder) (id : Z) (nodes : list Z) : result (LteBinder * list binder_effect) :=
  match nodes with
  | [] => Ok (b, [])
  | n :: nodes' =>
      let! (mac, b) := getMacFromMacNodeId b n in
      let! (b, eff) := detach_all b id nodes' in
      match mac with
      | Some mac =>
          if mac_isEnb mac then
            Ok (b, (if mac_hasAmc mac then [DetachUser (mac_ptr mac) id UL; DetachUser (mac_ptr mac) id DL;
                                            DetachUser (mac_ptr mac) id D2D] else [])
                   ++ [DeleteQueues (mac_ptr mac) id] ++ eff)
          else Ok (b, eff)
      | None => Ok (b, eff)
      end
  end.

(** The loop over the receive buffers calls a method of the MAC it is given, which
    must not be null. *)
Fixpoint unregister_harq (b : LteBinder) (id : Z) (nodes : list Z) : result (LteBinder * list binder_effect) :=
  match nodes with
  | [] => Ok (b, [])
  | n :: nodes' =>
      let! (mac, b) := getMacFromMacNodeId b n in
      let! mac := of_option mac in
      let! (b, eff) := unregister_harq b id nodes' in
      Ok (b, UnregisterHarqBufferRx (mac_ptr mac) id :: eff)
  end.

Definition drop_allocations (id : Z) (bands : list (list UeAllocationInfo)) : list (list UeAllocationInfo) :=
  map (List.filter (fun ue => negb (alloc_nodeId ue =? id))) bands.

Definition unregisterNode (b : LteBinder) (id : Z) : result (LteBinder * list binder_effect) :=
  let! (b, e1) := detach_all b id (ascending (nodeIds_ b)) in
  let b := b <| macNodeIdToIPAddress_ := filter (fun p => p.2 <> id) (macNodeIdToIPAddress_ b) |> in
  let! (b, e2) := unregister_harq b id (ascending (nodeIds_ b)) in
  let b := b <| macNodeIdToModuleName_ := delete id (macNodeIdToModuleName_ b) |> in
  let b := b <| macNodeIdToModule_ := delete id (macNodeIdToModule_ b) |> in
  let b := b <| nodeIds_ := delete id (nodeIds_ b) |> in
  Ok (b <| ulPrev := drop_allocations id (ulPrev b) |> <| ulCurr := drop_allocations id (ulCurr b) |>,
      e1 ++ e2).

(** ** Direct communication between UEs *)

Definition peering (b : LteBinder) (src dst : Z) : option LteD2DMode := row (d2dPeeringMap_ b) src !! dst.

Definition ue_id (b : LteBinder) (id : Z) : bool := (UE_MIN_ID <=? id) && (id <? counterUe b).

Definition set_peering (b : LteBinder) (src dst : Z) (mode : LteD2DMode) : LteBinder :=
  b <| d2dPeeringMap_ := <[src := <[dst := mode]> (row (d2dPeeringMap_ b) src)]> (d2dPeeringMap_ b) |>.

(** [nextHop_[i]] without a bounds check. *)
Definition hop (b : LteBinder) (i : Z) : result Z := of_option (vget (nextHop_ b) i).

Definition checkD2DCapability (b : LteBinder) (src dst : Z) : result (bool * LteBinder) :=
  if negb (ue_id b src) || negb (ue_id b dst)
  then Throw "LteBinder::checkD2DCapability - Node Id not valid."
  else match peering b src dst with
       | Some _ => Ok (true, b)
       | None =>
           let! (dstMac, b) := getMacFromMacNodeId b dst in
           let! dstMac := of_option dstMac in
           if mac_isD2DCapable dstMac then
             let! hs := hop b src in
             let! hd := hop b dst in
             if hs =? hd then
               let! (srcMac, b) := getMacFromMacNodeId b src in
               let! srcMac := of_option srcMac in
               Ok (true, set_peering b src dst (if mac_d2dInitialMode srcMac then DM else IM))
             else Ok (true, set_peering b src dst IM)
           else Ok (false, b)
       end.
End Modules.

Definition getD2DCapability (b : LteBinder) (src dst : Z) : bool :=
  if negb (ue_id b src) || negb (ue_id b dst) then false
  else match peering b src dst with Some _ => true | None => false end.

(** [d2dPeeringMap_[src][dst]] creates a missing entry, with the mode 0. *)
Definition getD2DMode (b : LteBinder) (src dst : Z) : result (LteD2DMode * LteBinder) :=
  if negb (ue_id b src) || negb (ue_id b dst)
  then Throw "LteBinder::getD2DMode - Node Id not valid."
  else match peering b src dst with
       | Some mode => Ok (mode, b)
       | None => Ok (IM, set_peering b src dst IM)
       end.

Definition isFrequencyReuseEnabled (b : LteBinder) (nodeId : Z) : bool :=
  match d2dPeeringMap_ b !! nodeId with
  | None => false
  | Some peers => negb (bool_decide (peers = ∅)) && bool_decide (map_Forall (fun _ mode => mode <> IM) peers)
  end.

(** ** Multicast, handover, X2 *)

Definition registerMulticastGroup (b : LteBinder) (nodeId groupId : Z) : LteBinder :=
  b <| multicastGroupMap_ :=
         <[nodeId := {[uint32 groupId]} ∪ default ∅ (multicastGroupMap_ b !! nodeId)]> (multicastGroupMap_ b) |>.

Definition isInMulticastGroup (b : LteBinder) (nodeId groupId : Z) : bool :=
  match multicastGroupMap_ b !! nodeId with
  | None => false
  | Some groups => bool_decide (uint32 groupId ∈ groups)
  end.

Definition addD2DMulticastTransmitter (b : LteBinder) (nodeId : Z) : LteBinder :=
  b <| multicastTransmitterSet_ := {[nodeId]} ∪ multicastTransmitterSet_ b |>.

Definition addUeHandoverTriggered (b : LteBinder) (nodeId : Z) : LteBinder :=
  b <| ueHandoverTriggered_ := {[nodeId]} ∪ ueHandoverTriggered_ b |>.
Definition hasUeHandoverTriggered (b : LteBinder) (nodeId : Z) : bool :=
  bool_decide (nodeId ∈ ueHandoverTriggered_ b).
Definition removeUeHandoverTriggered (b : LteBinder) (nodeId : Z) : LteBinder :=
  b <| ueHandoverTriggered_ := ueHandoverTriggered_ b ∖ {[nodeId]} |>.

Definition registerX2Port (b : LteBinder) (nodeId port : Z) : LteBinder :=
  b <| x2ListeningPorts_ := <[nodeId := default [] (x2ListeningPorts_ b !! nodeId) ++ [port]]> (x2ListeningPorts_ b) |>.

(** [front()] of an empty list is undefined. *)
Definition getX2Port (b : LteBinder) (nodeId : Z) : result (Z * LteBinder) :=
  match x2ListeningPorts_ b !! nodeId with
  | None => Throw "LteBinder::getX2Port - No ports available"
  | Some [] => UB
  | Some (port :: ports) => Ok (port, b <| x2ListeningPorts_ := <[nodeId := ports]> (x2ListeningPorts_ b) |>)
  end.

(** X2 identifiers share the table of the MAC identifiers. *)
Definition getX2NodeId (b : LteBinder) (address : Z) : Z := getMacNodeId b address.
Definition setX2NodeId (b : LteBinder) (address nodeId : Z) : LteBinder := setMacNodeId b address nodeId.

(** [x2PeerAddress_[srcId][destId]], which creates missing entries; the unspecified
    address is 0. *)
Definition getX2PeerAddress (b : LteBinder) (srcId destId : Z) : Z * LteBinder :=
  let addr := default 0 (row (x2PeerAddress_ b) srcId !! destId) in
  (addr, b <| x2PeerAddress_ := <[srcId := <[destId := addr]> (row (x2PeerAddress_ b) srcId)]> (x2PeerAddress_ b) |>).

(** [insert] keeps an entry that is there. *)
Definition setX2PeerAddress (b : LteBinder) (srcId destId interfAddr : Z) : LteBinder :=
  let r := row (x2PeerAddress_ b) srcId in
  let addr := default interfAddr (r !! destId) in
  b <| x2PeerAddress_ := <[srcId := <[destId := addr]> r]> (x2PeerAddress_ b) |>.

(** ** Uplink allocations *)

Definition initAndResetUlTransmissionInfo (b : LteBinder) (NOW : Z) : LteBinder :=
  b <| ulPrev := ulCurr b |> <| ulCurr := replicate (Z.to_nat (numBands_ b)) [] |>
    <| lastUpdateUplinkTransmissionInfo_ := NOW |>.

(** [rbMap[antenna]], in the order of the bands. *)
Fixpoint store_bands (ul : list (list UeAllocationInfo)) (info : UeAllocationInfo) (blocks : list (Z * Z))
    : result (list (list UeAllocationInfo)) :=
  match blocks with
  | [] => Ok ul
  | (band, n) :: blocks' =>
      if 0 <? n then
        let! l := of_option (vget ul band) in
        let! ul := of_option (vset ul band (l ++ [info])) in
        store_bands ul info blocks'
      else store_bands ul info blocks'
  end.

Definition storeUlTransmissionMap (b : LteBinder) (blocks : list (Z * Z)) (info : UeAllocationInfo)
    : result LteBinder :=
  let! ul := store_bands (ulCurr b) info blocks in Ok (b <| ulCurr := ul |>).

Definition getUlTransmissionMap (b : LteBinder) (current : bool) (band : Z) : result (list UeAllocationInfo) :=
  of_option (vget (if current then ulCurr b else ulPrev b) band).

(** A [Cqi] is 16 bits wide; of an empty vector the division is undefined. *)
Definition meanCqi (bandCqi : list Z) : result Z :=
  let sum := foldl (fun mean c => uint16 (mean + c)) 0 bandCqi in
  match bandCqi with
  | [] => UB
  | _ => let mean := sum / vsize bandCqi in Ok (if mean =? 0 then 1 else mean)
  end.
