(* ===== verification/BinderProps.v ===== *)
(** * The binder: properties

    The identifiers it hands out are distinct and tell the type of their node, as long
    as no type runs out of them; and a node that is taken out is forgotten everywhere
    but in the tables of next hops and of UE pairs. *)

From S2P Require Import Prelude.
From S2P Require Import LteCommon.
From S2P Require Import LteBinder.
From stdpp Require Import sorting.
#[local] Open Scope Z_scope.

(** ** Registration *)

Record registration := { r_omnet : Z; r_type : LteNodeType; r_master : Z }.

Fixpoint register_all (b : LteBinder) (regs : list registration) : list Z * LteBinder :=
  match regs with
  | [] => ([], b)
  | r :: regs' =>
      let '(id, b, _) := registerNode b (r_omnet r) (r_type r) (r_master r) in
      let (ids, b) := register_all b regs' in (id :: ids, b)
  end.

Definition counter_of (b : LteBinder) (t : LteNodeType) : Z :=
  match t with ENODEB => counterEnb b | RELAY => counterRelay b | UE => counterUe b | _ => 0 end.

Definition first_id (t : LteNodeType) : Z :=
  match t with ENODEB => ENB_MIN_ID | RELAY => RELAY_MIN_ID | UE => UE_MIN_ID | _ => 0 end.
Definition last_id (t : LteNodeType) : Z :=
  match t with ENODEB => ENB_MAX_ID | RELAY => RELAY_MAX_ID | UE => UE_MAX_ID | _ => -1 end.

Definition node_type (t : LteNodeType) : Prop := t = ENODEB \/ t = RELAY \/ t = UE.

Definition is_type (t : LteNodeType) (r : registration) : bool := bool_decide (r_type r = t).

Lemma getNodeTypeById_range t id :
  node_type t -> first_id t <= id <= last_id t -> getNodeTypeById id = t.
Proof.
  unfold getNodeTypeById.
  intros [->|[->| ->]] Hid; cbn [first_id last_id] in Hid;
    unfold ENB_MIN_ID, ENB_MAX_ID, RELAY_MIN_ID, RELAY_MAX_ID, UE_MIN_ID, UE_MAX_ID in *;
    repeat match goal with |- context [?a <=? ?b] => destruct (Z.leb_spec a b); try lia end; done.
Qed.

(** The master of a node in the table of next hops. *)
Definition hop_of (id : Z) (r : registration) : Z :=
  match r_type r with ENODEB => id | _ => r_master r end.

Lemma grow_length l i : 0 <= i -> i < vsize (grow l i) /\ vsize l <= vsize (grow l i).
Proof.
  intros Hi. unfold grow. case (Z.leb_spec (vsize l) i); intros; [|lia].
  rewrite length_app, length_replicate. lia.
Qed.

Lemma grow_lookup l i j x : vget l j = Some x -> vget (grow l i) j = Some x.
Proof.
  unfold grow, vget. destruct (0 <=? j); [|done]. intros Hl. case (vsize l <=? i); [|done].
  by apply lookup_app_l_Some.
Qed.

Lemma registerNextHop_hop b m s : 0 <= s -> getNextHop (registerNextHop b m s) s = Ok m.
Proof.
  intros Hs. destruct (grow_length (nextHop_ b) s Hs) as [Hlt _].
  assert (E : vget (nextHop_ (registerNextHop b m s)) s = Some m).
  { unfold registerNextHop. destruct (negb _); cbn [nextHop_ set]; unfold vget;
      rewrite (proj2 (Z.leb_le 0 s)) by lia; apply list_lookup_insert_eq; lia. }
  unfold getNextHop. by rewrite E.
Qed.

Lemma registerNextHop_hop_ne b m s n x :
  0 <= s -> n <> s -> getNextHop b n = Ok x -> getNextHop (registerNextHop b m s) n = Ok x.
Proof.
  intros Hs Hne. unfold getNextHop. destruct (vget (nextHop_ b) n) as [y|] eqn:E; [|done].
  intros [= ->].
  assert (E' : vget (nextHop_ (registerNextHop b m s)) n = Some x); [|by rewrite E'].
  pose proof (vget_Some_bounds _ _ _ E) as Hb.
  pose proof (grow_lookup _ s _ _ E) as Hg.
  unfold registerNextHop. destruct (negb _); cbn [nextHop_ set]; unfold vget in *;
    rewrite (proj2 (Z.leb_le 0 n)) in * by lia; rewrite list_lookup_insert_ne by lia; done.
Qed.

(** What one registration does. *)
Lemma registerNode_spec b omnet t master :
  node_type t -> 0 <= counter_of b t < 2 ^ 16 ->
  exists b' eff, registerNode b omnet t master = (counter_of b t, b', eff) /\
    counter_of b' t = uint16 (counter_of b t + 1) /\
    (forall t', t' <> t -> counter_of b' t' = counter_of b t') /\
    getOmnetId b' (counter_of b t) = omnet /\
    getNextHop b' (counter_of b t) = Ok (match t with ENODEB => counter_of b t | _ => master end) /\
    (forall n, n <> counter_of b t -> getOmnetId b' n = getOmnetId b n /\
       forall x, getNextHop b n = Ok x -> getNextHop b' n = Ok x).
Proof.
  assert (Hids : forall (c : LteBinder) m s, nodeIds_ (registerNextHop c m s) = nodeIds_ c /\
    forall t, counter_of (registerNextHop c m s) t = counter_of c t).
  { intros c m s. unfold registerNextHop. destruct (negb _); split; try done; by intros []. }
  intros Ht Hc. unfold registerNode, getOmnetId.
  destruct Ht as [->|[->| ->]]; cbn [counter_of] in Hc; eexists _, _; (split; [reflexivity|]);
    (split; [exact (proj2 (Hids _ _ _) _)|]);
    (split; [intros [] Hn; (contradiction || exact (proj2 (Hids _ _ _) _))|]);
    cbn [counter_of];
    (split; [rewrite (proj1 (Hids _ _ _)); cbn [nodeIds_ set]; by rewrite lookup_insert_eq|]);
    (split; [apply registerNextHop_hop; lia|]); intros n Hn;
    (split; [rewrite (proj1 (Hids _ _ _)); cbn [nodeIds_ set]; by rewrite lookup_insert_ne|]);
    intros x Hx; (apply registerNextHop_hop_ne; [lia|done|exact Hx]).
Qed.

(** ** A sequence of registrations *)

Definition room (b : LteBinder) (regs : list registration) : Prop :=
  forall t, node_type t -> counter_of b t + count (is_type t) regs <= last_id t + 1 /\
    counter_of b t + count (is_type t) regs < 2 ^ 16.

Definition fresh_for (b : LteBinder) (id : Z) : Prop :=
  forall t, node_type t -> first_id t <= id <= last_id t -> counter_of b t <= id.

Lemma first_last t : node_type t -> 0 < first_id t <= last_id t /\ last_id t < 2 ^ 16.
Proof. by intros [->|[->| ->]]. Qed.

(** Ranges of different types do not meet. *)
Lemma ranges_disjoint t t' id :
  node_type t -> node_type t' -> first_id t <= id <= last_id t -> first_id t' <= id <= last_id t' -> t = t'.
Proof. intros Ht Ht' H1%getNodeTypeById_range H2%getNodeTypeById_range; congruence. Qed.

Lemma register_all_spec regs b :
  Forall (fun r => node_type (r_type r)) regs -> room b regs ->
  (forall t, node_type t -> first_id t <= counter_of b t) ->
  exists ids b', register_all b regs = (ids, b') /\ NoDup ids /\
    Forall (fresh_for b) ids /\
    Forall2 (fun id r => first_id (r_type r) <= id <= last_id (r_type r) /\
      getOmnetId b' id = r_omnet r /\ getNextHop b' id = Ok (hop_of id r)) ids regs /\
    (forall n, n ∉ ids -> getOmnetId b' n = getOmnetId b n /\
       forall x, getNextHop b n = Ok x -> getNextHop b' n = Ok x).
Proof.
  revert b. induction regs as [|r regs IH]; intros b Hty Hroom Hmin; cbn [register_all].
  { exists [], b. repeat (split; [by constructor|]). done. }
  apply Forall_cons in Hty as [Ht Hty]. set (t := r_type r) in *.
  pose proof (Hroom t Ht) as Hr. rewrite count_cons in Hr.
  pose proof (count_bounds (is_type t) regs). pose proof (first_last t Ht). pose proof (Hmin t Ht).
  assert (Eis : is_type t r = true) by (by apply bool_decide_eq_true_2).
  rewrite Eis in Hr. cbn [Z.b2z] in Hr.
  destruct (registerNode_spec b (r_omnet r) t (r_master r) Ht) as (b1 & eff & -> & Hc & Hco & Hom & Hhop & Hoth);
    [lia|]. rewrite wrap_small in Hc by (unfold is_uint; lia).
  destruct (IH b1 Hty) as (ids & b2 & -> & Hnd & Hfr & Hall & Hkeep).
  { intros t' Ht'. destruct (decide (t' = t)) as [->|Hne]; [lia|].
    rewrite Hco by done. specialize (Hroom t' Ht'). rewrite count_cons in Hroom.
    assert (E : is_type t' r = false) by (by apply bool_decide_eq_false_2; intros E; apply Hne).
    rewrite E in Hroom. exact Hroom. }
  { intros t' Ht'. destruct (decide (t' = t)) as [->|Hne]; [lia|]. rewrite Hco by done. by apply Hmin. }
  assert (Hid : first_id t <= counter_of b t <= last_id t) by lia.
  assert (Hnew : counter_of b t ∉ ids).
  { intros Hin. rewrite Forall_forall in Hfr. specialize (Hfr _ Hin t Ht Hid). lia. }
  exists (counter_of b t :: ids), b2. split; [done|]. split; [by constructor|]. split; [|split].
  - constructor.
    + intros t' Ht' Hin. by rewrite (ranges_disjoint t' t _ Ht' Ht Hin Hid).
    + eapply Forall_impl; [exact Hfr|]. intros id Hf t' Ht' Hin. specialize (Hf t' Ht' Hin).
      destruct (decide (t' = t)) as [->|Hne]; [lia|]. by rewrite <- Hco.
  - constructor; [|exact Hall]. split; [done|].
    destruct (Hkeep _ Hnew) as [-> Hx]. split; [done|]. apply Hx. rewrite Hhop. unfold hop_of. fold t. by destruct t.
  - intros n Hn. apply not_elem_of_cons in Hn as [Hn1 Hn2]. destruct (Hkeep n Hn2) as [-> Hx].
    destruct (Hoth n Hn1) as [-> Hy]. split; [done|]. intros x Hg. by apply Hx, Hy.
Qed.

(** C30. Node identifiers: registering any sequence of base stations, relays and UEs, no
    more of a type than it has identifiers, gives pairwise distinct identifiers, each
    telling the type of its node; each leads to its own module, and to its master as
    the next hop (a base station is its own). *)
Theorem registered_ids_distinct (numBands : Z) (regs : list registration) :
  Forall (fun r => node_type (r_type r)) regs ->
  count (is_type ENODEB) regs <= 255 -> count (is_type RELAY) regs <= 767 ->
  count (is_type UE) regs <= 64510 ->
  exists ids b, register_all (new_LteBinder numBands) regs = (ids, b) /\ NoDup ids /\
    Forall2 (fun id r => getNodeTypeById id = r_type r /\ getOmnetId b id = r_omnet r /\
      getNextHop b id = Ok (hop_of id r)) ids regs.
Proof.
  intros Hty He Hr Hu.
  destruct (register_all_spec regs (new_LteBinder numBands) Hty) as (ids & b & Hrun & Hnd & _ & Hall & _).
  - intros t [->|[->| ->]]; cbn; unfold ENB_MIN_ID, ENB_MAX_ID, RELAY_MIN_ID, RELAY_MAX_ID, UE_MIN_ID, UE_MAX_ID; lia.
  - by intros t [->|[->| ->]].
  - exists ids, b. split; [done|]. split; [done|]. clear -Hty Hall.
    induction Hall as [|id r ids regs [Hid Hrest] _ IH]; [constructor|].
    apply Forall_cons in Hty as [Ht Hty]. constructor; [|by apply IH]. split; [|done].
    by apply getNodeTypeById_range.
Qed.

(** ** Taking a node out *)

Section Unregister.
Context (macModule : Z -> result (option LteMacRef)).

(** The MAC of a node, from the cache or from its module. *)
Definition mac_of (b : LteBinder) (n : Z) (mac : LteMacRef) : Prop :=
  n <> 0 /\ (macNodeIdToModule_ b !! n = Some mac \/
             macNodeIdToModule_ b !! n = None /\ getMacByMacNodeId macModule b n = Ok (Some mac)).

Definition resolvable (b : LteBinder) : Prop :=
  forall n, is_Some (nodeIds_ b !! n) -> exists mac, mac_of b n mac.

(** Two binders that differ in what the cache has learned. *)
Record cached (b b' : LteBinder) : Prop := {
  ca_same : b' = b <| macNodeIdToModule_ := macNodeIdToModule_ b' |>;
  ca_mac n mac : mac_of b n mac -> mac_of b' n mac
}.

Lemma cached_refl b : cached b b.
Proof. split; [by destruct b|done]. Qed.

Lemma cached_trans b1 b2 b3 : cached b1 b2 -> cached b2 b3 -> cached b1 b3.
Proof. intros [E1 H1] [E2 H2]. split; [|by auto]. rewrite E2, E1. done. Qed.

Lemma cached_ids b b' : cached b b' -> nodeIds_ b' = nodeIds_ b.
Proof. intros [-> _]. done. Qed.

Lemma getMac_spec b n mac :
  mac_of b n mac -> exists b', getMacFromMacNodeId macModule b n = Ok (Some mac, b') /\ cached b b'.
Proof.
  intros [Hn Hm]. unfold getMacFromMacNodeId. rewrite (proj2 (Z.eqb_neq n 0)) by done.
  destruct Hm as [E|[E Em]]; rewrite E; [exists b; split; [done|apply cached_refl]|].
  rewrite Em. cbn [rbind]. eexists. split; [done|]. split; [done|]. intros n' mac' [Hn' Hm'].
  split; [done|]. cbn [macNodeIdToModule_ set]. destruct (decide (n' = n)) as [->|Hne].
  - left. rewrite lookup_insert_eq. destruct Hm' as [?|[_ ?]]; congruence.
  - rewrite lookup_insert_ne by done. exact Hm'.
Qed.

(** What the first loop makes the MAC of a base station do. *)
Definition detach_calls (id : Z) (mac : LteMacRef) : list binder_effect :=
  if mac_isEnb mac then
    (if mac_hasAmc mac then map (DetachUser (mac_ptr mac) id) [UL; DL; D2D] else [])
    ++ [DeleteQueues (mac_ptr mac) id]
  else [].

Lemma detach_all_spec id nodes b :
  (forall n, n ∈ nodes -> exists mac, mac_of b n mac) ->
  exists b' macs, detach_all macModule b id nodes = Ok (b', concat (map (detach_calls id) macs)) /\
    cached b b' /\ Forall2 (mac_of b) nodes macs.
Proof.
  revert b. induction nodes as [|n nodes IH]; intros b Hall; cbn [detach_all].
  { exists b, []. split; [done|]. split; [apply cached_refl|constructor]. }
  destruct (Hall n) as [mac Hmac]; [by left|].
  destruct (getMac_spec b n mac Hmac) as (b1 & -> & Hc1). cbn [rbind].
  destruct (IH b1) as (b2 & macs & -> & Hc2 & Hf).
  { intros n' Hn'. destruct (Hall n') as [mac' Hm]; [by right|]. exists mac'. by apply Hc1. }
  exists b2, (mac :: macs). cbn [rbind map concat]. split; [|split; [by eapply cached_trans|]].
  - destruct (mac_isEnb mac) eqn:E; unfold detach_calls at 2; rewrite E; [|done]. by rewrite <- app_assoc.
  - constructor; [done|]. refine (Forall2_impl_elem _ _ _ _ _ Hf). intros x y Hx Hxy.
    destruct (Hall x) as [mac' Hm]; [by right|].
    destruct Hxy as [_ [E|[E Em]]]; destruct (ca_mac _ _ Hc1 x mac' Hm) as [_ [E'|[E' Em']]]; congruence.
Qed.

Lemma unregister_harq_spec id nodes b :
  (forall n, n ∈ nodes -> exists mac, mac_of b n mac) ->
  exists b' macs,
    unregister_harq macModule b id nodes = Ok (b', map (fun mac => UnregisterHarqBufferRx (mac_ptr mac) id) macs) /\
    cached b b' /\ Forall2 (mac_of b) nodes macs.
Proof.
  revert b. induction nodes as [|n nodes IH]; intros b Hall; cbn [unregister_harq].
  { exists b, []. split; [done|]. split; [apply cached_refl|constructor]. }
  destruct (Hall n) as [mac Hmac]; [by left|].
  destruct (getMac_spec b n mac Hmac) as (b1 & -> & Hc1). cbn [rbind of_option].
  destruct (IH b1) as (b2 & macs & -> & Hc2 & Hf).
  { intros n' Hn'. destruct (Hall n') as [mac' Hm]; [by right|]. exists mac'. by apply Hc1. }
  exists b2, (mac :: macs). cbn [rbind map]. split; [done|]. split; [by eapply cached_trans|].
  constructor; [done|]. refine (Forall2_impl_elem _ _ _ _ _ Hf). intros x y Hx Hxy.
  destruct (Hall x) as [mac' Hm]; [by right|].
  destruct Hxy as [_ [E|[E Em]]]; destruct (ca_mac _ _ Hc1 x mac' Hm) as [_ [E'|[E' Em']]]; congruence.
Qed.

Lemma mac_of_fun b n mac mac' : mac_of b n mac -> mac_of b n mac' -> mac = mac'.
Proof. intros [_ [?|[? ?]]] [_ [?|[? ?]]]; congruence. Qed.

(** [mac_of] reads two tables, at one node. *)
Lemma mac_of_ext b b' n mac :
  macNodeIdToModule_ b' !! n = macNodeIdToModule_ b !! n -> nodeIds_ b' !! n = nodeIds_ b !! n ->
  mac_of b n mac -> mac_of b' n mac.
Proof.
  intros Em Ei [Hn Hm]. split; [done|]. unfold getMacByMacNodeId, getOmnetId in *. by rewrite Em, Ei.
Qed.

Definition allocated (id : Z) (bands : list (list UeAllocationInfo)) : Prop :=
  exists ues ue, ues ∈ bands /\ ue ∈ ues /\ alloc_nodeId ue = id.

Lemma drop_allocations_none id bands : ~ allocated id (drop_allocations id bands).
Proof.
  intros (ues & ue & [old [-> _]]%list_elem_of_fmap & Hue & Hid).
  apply list_elem_of_In, filter_In in Hue as [_ Hue]. apply negb_true_iff, Z.eqb_neq in Hue. done.
Qed.

(** The two loops, with what they leave alone. *)
Lemma unregister_loops b id :
  resolvable b ->
  exists b' macs1 macs2, unregisterNode macModule b id =
      Ok (b', concat (map (detach_calls id) macs1) ++
              map (fun mac => UnregisterHarqBufferRx (mac_ptr mac) id) macs2) /\
    Forall2 (mac_of b) (ascending (nodeIds_ b)) macs1 /\
    Forall2 (mac_of b) (ascending (nodeIds_ b)) macs2 /\
    (forall n mac, n <> id -> mac_of b n mac -> mac_of b' n mac) /\
    b' = b <| macNodeIdToIPAddress_ := filter (fun p => p.2 <> id) (macNodeIdToIPAddress_ b) |>
           <| macNodeIdToModuleName_ := delete id (macNodeIdToModuleName_ b) |>
           <| macNodeIdToModule_ := delete id (macNodeIdToModule_ b') |>
           <| nodeIds_ := delete id (nodeIds_ b) |>
           <| ulPrev := drop_allocations id (ulPrev b) |> <| ulCurr := drop_allocations id (ulCurr b) |>.
Proof.
  intros Hres. unfold unregisterNode.
  assert (Hall : forall n, n ∈ ascending (nodeIds_ b) -> exists mac, mac_of b n mac).
  { intros n Hn%elem_of_ascending. by apply Hres. }
  destruct (detach_all_spec id (ascending (nodeIds_ b)) b Hall) as (b1 & macs1 & -> & Hc1 & Hf1).
  cbn [rbind]. pose proof (cached_ids _ _ Hc1) as Hids.
  set (ip := filter _ _). set (b2 := b1 <| macNodeIdToIPAddress_ := ip |>).
  assert (Hmac2 : forall n mac, mac_of b n mac -> mac_of b2 n mac).
  { intros n mac Hm. by apply (mac_of_ext b1), (ca_mac _ _ Hc1). }
  destruct (unregister_harq_spec id (ascending (nodeIds_ b2)) b2) as (b3 & macs2 & -> & Hc3 & Hf2).
  { intros n Hn. destruct (Hall n) as [mac Hm]; [|by exists mac; apply Hmac2].
    change (nodeIds_ b2) with (nodeIds_ b1) in Hn. by rewrite Hids in Hn. }
  cbn [rbind]. eexists _, macs1, macs2. split; [done|]. split; [done|]. split; [|split].
  - unfold b2 in Hf2 at 2. cbn [nodeIds_ set] in Hf2. rewrite Hids in Hf2.
    refine (Forall2_impl_elem _ _ _ _ _ Hf2). intros x y Hx Hxy.
    destruct (Hall x Hx) as [mac Hm]. by rewrite (mac_of_fun b2 x y mac Hxy (Hmac2 _ _ Hm)).
  - intros n mac Hne Hm. apply Hmac2, (ca_mac _ _ Hc3) in Hm.
    apply (mac_of_ext b3); [apply lookup_delete_ne; congruence|apply lookup_delete_ne; congruence|done].
  - pose proof (ca_same _ _ Hc1) as E1. pose proof (ca_same _ _ Hc3) as E3. unfold b2, ip in E3.
    rewrite E3, E1. cbn. f_equal. by rewrite delete_delete_eq.
Qed.

(** A node that is taken out is forgotten: when every registered node has its MAC
    module, [unregisterNode] succeeds, no address, module or uplink allocation leads to
    the node any more, and asking for its MAC raises an error; all other nodes keep
    their addresses and modules.  Every base station is told to detach it in all three
    directions and to delete its queues, and every node to let go of its H-ARQ buffer.
    The tables of next hops and of UE pairs are left as they are. *)
Theorem unregister_forgets b id :
  id <> 0 -> resolvable b ->
  exists b' eff, unregisterNode macModule b id = Ok (b', eff) /\
    (getOmnetId b' id = 0 /\ (forall addr, getMacNodeId b' addr <> id) /\
     ~ allocated id (ulPrev b') /\ ~ allocated id (ulCurr b') /\
     getMacFromMacNodeId macModule b' id = Throw "check_and_cast(): Cannot cast nullptr") /\
    (forall n, n <> id -> getOmnetId b' n = getOmnetId b n) /\
    (forall addr, getMacNodeId b addr <> id -> getMacNodeId b' addr = getMacNodeId b addr) /\
    (forall n mac, is_Some (nodeIds_ b !! n) -> mac_of b n mac ->
       UnregisterHarqBufferRx (mac_ptr mac) id ∈ eff /\
       (mac_isEnb mac = true -> DeleteQueues (mac_ptr mac) id ∈ eff /\
          (mac_hasAmc mac = true -> forall dir, dir ∈ [UL; DL; D2D] -> DetachUser (mac_ptr mac) id dir ∈ eff))) /\
    resolvable b' /\ nextHop_ b' = nextHop_ b /\ d2dPeeringMap_ b' = d2dPeeringMap_ b.
Proof.
  intros Hid Hres. destruct (unregister_loops b id Hres) as (b' & m1 & m2 & Hrun & Hf1 & Hf2 & Hmac & E).
  eexists b', _. split; [exact Hrun|]. split; [|split; [|split; [|split; [|split; [|by rewrite E]]]]].
  - split; [|split; [|split; [|split]]].
    + rewrite E. unfold getOmnetId. cbn. by rewrite lookup_delete_eq.
    + intros addr. rewrite E. unfold getMacNodeId. cbn.
      destruct (filter _ _ !! addr) as [n|] eqn:Ea; [|cbn; lia].
      apply map_lookup_filter_Some in Ea as [_ Hn]. cbn in *. done.
    + rewrite E. apply drop_allocations_none.
    + rewrite E. apply drop_allocations_none.
    + assert (Em : macNodeIdToModule_ b' !! id = None) by (rewrite E; apply lookup_delete_eq).
      unfold getMacFromMacNodeId, getMacByMacNodeId. rewrite (proj2 (Z.eqb_neq id 0)), Em by done.
      assert (getOmnetId b' id = 0) as -> by (rewrite E; unfold getOmnetId; cbn; by rewrite lookup_delete_eq).
      done.
  - intros n Hn. rewrite E. unfold getOmnetId. cbn. by rewrite lookup_delete_ne by congruence.
  - intros addr Ha. rewrite E. unfold getMacNodeId in *. cbn.
    destruct (macNodeIdToIPAddress_ b !! addr) as [n|] eqn:Ea; cbn in Ha.
    + by rewrite (map_lookup_filter_Some_2 _ _ _ _ Ea).
    + by rewrite map_lookup_filter_None_2 by (by left).
  - intros n mac Hn Hm. apply elem_of_ascending in Hn. apply list_elem_of_lookup in Hn as [i Hi].
    destruct (Forall2_lookup_l _ _ _ _ _ Hf1 Hi) as (x1 & Hx1 & Hxm1).
    destruct (Forall2_lookup_l _ _ _ _ _ Hf2 Hi) as (x2 & Hx2 & Hxm2).
    rewrite (mac_of_fun b n x1 mac Hxm1 Hm) in Hx1. rewrite (mac_of_fun b n x2 mac Hxm2 Hm) in Hx2.
    apply list_elem_of_lookup_2 in Hx1, Hx2.
    assert (Hin : forall e, e ∈ detach_calls id mac -> e ∈ concat (map (detach_calls id) m1)).
    { intros e He. apply list_elem_of_In, in_concat. exists (detach_calls id mac).
      split; [by apply in_map, list_elem_of_In|by apply list_elem_of_In]. }
    split; [|intros He; split; [|intros Ha dir Hd]]; apply elem_of_app.
    + right. apply list_elem_of_fmap. by exists mac.
    + left. apply Hin. unfold detach_calls. rewrite He. apply elem_of_app. right. by left.
    + left. apply Hin. unfold detach_calls. rewrite He, Ha. apply elem_of_app. left.
      apply list_elem_of_fmap. by exists dir.
  - intros n Hn. rewrite E in Hn. cbn [nodeIds_ set] in Hn. destruct (decide (n = id)) as [->|Hne].
    + cbn in Hn. rewrite lookup_delete_eq in Hn. by destruct Hn.
    + cbn in Hn. rewrite lookup_delete_ne in Hn by done. destruct (Hres n Hn) as [mac Hm].
      exists mac. by apply Hmac.
Qed.
End Unregister.

(** ** Concrete networks *)

Definition demo_regs : list registration :=
  [{| r_omnet := 10; r_type := ENODEB; r_master := 0 |}; {| r_omnet := 20; r_type := UE; r_master := 1 |};
   {| r_omnet := 30; r_type := UE; r_master := 1 |}].

Lemma registered_ids_distinct_witness :
  exists ids b, register_all (new_LteBinder 6) demo_regs = (ids, b) /\ NoDup ids /\
    Forall2 (fun id r => getNodeTypeById id = r_type r /\ getOmnetId b id = r_omnet r /\
      getNextHop b id = Ok (hop_of id r)) ids demo_regs.
Proof.
  apply (registered_ids_distinct 6 demo_regs); [|by vm_compute..].
  repeat (apply Forall_cons; split; [first [by left|by right; left|by right; right]|]). by apply Forall_nil.
Defined.

(** The modules of [demo_regs], and the registry after two addresses and an allocation
    are known. *)
Definition demo_modules (omnetId : Z) : result (option LteMacRef) :=
  Ok (Some {| mac_ptr := 100 * omnetId; mac_isEnb := omnetId =? 10; mac_hasAmc := omnetId =? 10;
              mac_isD2DCapable := false; mac_d2dInitialMode := false |}).

Definition demo_binder : LteBinder :=
  setMacNodeId (setMacNodeId
    ((register_all (new_LteBinder 1) demo_regs).2
       <| ulCurr := [[{| alloc_nodeId := 1025; alloc_cellId := 1; alloc_phy := 0; alloc_dir := UL |}]] |>)
    7 1025) 8 1026.

Lemma demo_resolvable : resolvable demo_modules demo_binder.
Proof.
  intros n Hn. apply elem_of_ascending in Hn.
  change (ascending (nodeIds_ demo_binder)) with [1; 1025; 1026] in Hn.
  eexists. split; [|right; split].
  - intros ->. repeat (apply elem_of_cons in Hn as [Hn|Hn]; [discriminate Hn|]). by apply not_elem_of_nil in Hn.
  - apply lookup_empty.
  - repeat (apply elem_of_cons in Hn as [->|Hn]; [reflexivity|]). by apply not_elem_of_nil in Hn.
Qed.

Lemma unregister_forgets_witness :
  exists b' eff, unregisterNode demo_modules demo_binder 1025 = Ok (b', eff) /\
    (getOmnetId b' 1025 = 0 /\ (forall addr, getMacNodeId b' addr <> 1025) /\
     ~ allocated 1025 (ulPrev b') /\ ~ allocated 1025 (ulCurr b') /\
     getMacFromMacNodeId demo_modules b' 1025 = Throw "check_and_cast(): Cannot cast nullptr") /\
    (forall n, n <> 1025 -> getOmnetId b' n = getOmnetId demo_binder n) /\
    (forall addr, getMacNodeId demo_binder addr <> 1025 -> getMacNodeId b' addr = getMacNodeId demo_binder addr) /\
    (forall n mac, is_Some (nodeIds_ demo_binder !! n) -> mac_of demo_modules demo_binder n mac ->
       UnregisterHarqBufferRx (mac_ptr mac) 1025 ∈ eff /\
       (mac_isEnb mac = true -> DeleteQueues (mac_ptr mac) 1025 ∈ eff /\
          (mac_hasAmc mac = true -> forall dir, dir ∈ [UL; DL; D2D] -> DetachUser (mac_ptr mac) 1025 dir ∈ eff))) /\
    resolvable demo_modules b' /\ nextHop_ b' = nextHop_ demo_binder /\ d2dPeeringMap_ b' = d2dPeeringMap_ demo_binder.
Proof. exact (unregister_forgets demo_modules demo_binder 1025 ltac:(discriminate) demo_resolvable). Defined.

(** After 64511 UEs the counter is back at 0, the identifier that stands for no node. *)
Example ue_ids_run_out b : counterUe b = 65535 ->
  (registerNode b 0 UE 1).1.1 = 65535 /\ counterUe ((registerNode b 0 UE 1).1.2) = 0.
Proof.
  intros E. unfold registerNode. rewrite E. split; [done|].
  unfold registerNextHop. by destruct (negb _).
Qed.
