(* ===== verification/ConnectionsTable.v ===== *)
(** * The table of connections

    [ConnectionsTable] (src/simulte/src/stack/pdcp_rrc/ConnectionsTable.cc): a hash
    table of TABLE_SIZE entries with linear probing, which gives a connection its LCID.
    An entry is free when its LCID is 0xFFFF; nothing is ever removed.  The two pairs
    of operations, with and without a direction, differ in the hash and in the members
    compared; a table is used with one of them.

    The table refines a finite map from connections to LCIDs as long as it is not
    full; in a full table the search for an absent connection never ends. *)

From S2P Require Import Prelude.
From S2P Require Import LteCommon.
#[local] Open Scope Z_scope.

Definition TABLE_SIZE : Z := 2048.
Definition NO_LCID : Z := 65535.

Record entry_ := {
  srcAddr_ : Z;
  dstAddr_ : Z;
  srcPort_ : Z;
  dstPort_ : Z;
  dir_ : Z;
  lcid_ : Z
}.

#[export] Instance entry_eta : Eta entry_ := fun e =>
  {| srcAddr_ := srcAddr_ e; dstAddr_ := dstAddr_ e; srcPort_ := srcPort_ e;
     dstPort_ := dstPort_ e; dir_ := dir_ e; lcid_ := lcid_ e |}.

Definition ConnectionsTable : Type := list entry_.

(** [memset(ht_, 0xFF, ...)]. *)
Definition new_ConnectionsTable : ConnectionsTable :=
  replicate (Z.to_nat TABLE_SIZE)
    {| srcAddr_ := 2 ^ 32 - 1; dstAddr_ := 2 ^ 32 - 1; srcPort_ := 2 ^ 16 - 1;
       dstPort_ := 2 ^ 16 - 1; dir_ := 2 ^ 16 - 1; lcid_ := 2 ^ 16 - 1 |}.

Definition hash_func (srcAddr dstAddr srcPort dstPort : Z) : Z :=
  Z.lor (Z.lor (Z.lor srcPort dstPort) srcAddr) dstAddr mod TABLE_SIZE.

Definition hash_func_dir (srcAddr dstAddr srcPort dstPort dir : Z) : Z :=
  Z.lor (Z.lor (Z.lor (Z.lor srcPort dstPort) srcAddr) dstAddr) dir mod TABLE_SIZE.

Definition next_index (i : Z) : Z := (i + 1) mod TABLE_SIZE.

(** The [while (1)] of [find_entry], [fuel] rounds of it: [UB] is a loop that has not
    ended after them. *)
Fixpoint find_loop (fuel : nat) (same : entry_ -> bool) (ht : ConnectionsTable) (hashIndex : Z) : result Z :=
  match fuel with
  | O => UB
  | S fuel' =>
      let! e := of_option (vget ht hashIndex) in
      if lcid_ e =? NO_LCID then Ok NO_LCID
      else if same e then Ok (lcid_ e)
      else find_loop fuel' same ht (next_index hashIndex)
  end.

(** TABLE_SIZE rounds visit every entry; a search that has not ended then goes round
    for ever, which [pdcp_full_table_hangs] proves. *)
Definition rounds : nat := Z.to_nat TABLE_SIZE.

Definition same_flow (srcAddr dstAddr srcPort dstPort : Z) (e : entry_) : bool :=
  (srcAddr_ e =? srcAddr) && (dstAddr_ e =? dstAddr) && (srcPort_ e =? srcPort) && (dstPort_ e =? dstPort).

Definition find_entry (ht : ConnectionsTable) (srcAddr dstAddr srcPort dstPort : Z) : result Z :=
  find_loop rounds (same_flow srcAddr dstAddr srcPort dstPort) ht (hash_func srcAddr dstAddr srcPort dstPort).

Definition find_entry_dir (ht : ConnectionsTable) (srcAddr dstAddr srcPort dstPort dir : Z) : result Z :=
  find_loop rounds (fun e => same_flow srcAddr dstAddr srcPort dstPort e && (dir_ e =? dir)) ht
    (hash_func_dir srcAddr dstAddr srcPort dstPort dir).

(** The loop of [create_entry] to the first free entry. *)
Fixpoint free_loop (fuel : nat) (ht : ConnectionsTable) (hashIndex : Z) : result Z :=
  match fuel with
  | O => UB
  | S fuel' =>
      let! e := of_option (vget ht hashIndex) in
      if negb (lcid_ e =? NO_LCID) then free_loop fuel' ht (next_index hashIndex) else Ok hashIndex
  end.

(** Assignments to the members of [ht_[i]]. *)
Definition update_entry (ht : ConnectionsTable) (i : Z) (f : entry_ -> entry_) : result ConnectionsTable :=
  let! e := of_option (vget ht i) in of_option (vset ht i (f e)).

Definition create_entry (ht : ConnectionsTable) (srcAddr dstAddr srcPort dstPort lcid : Z)
    : result ConnectionsTable :=
  let! i := free_loop rounds ht (hash_func srcAddr dstAddr srcPort dstPort) in
  update_entry ht i (fun e =>
    e <| srcAddr_ := srcAddr |> <| dstAddr_ := dstAddr |> <| srcPort_ := srcPort |>
      <| dstPort_ := dstPort |> <| lcid_ := lcid |>).

Definition create_entry_dir (ht : ConnectionsTable) (srcAddr dstAddr srcPort dstPort dir lcid : Z)
    : result ConnectionsTable :=
  let! i := free_loop rounds ht (hash_func_dir srcAddr dstAddr srcPort dstPort dir) in
  update_entry ht i (fun e =>
    e <| srcAddr_ := srcAddr |> <| dstAddr_ := dstAddr |> <| srcPort_ := srcPort |>
      <| dstPort_ := dstPort |> <| dir_ := dir |> <| lcid_ := lcid |>).

(** ** The table of connections refines a finite map

    What ConnectionsTable.v stores, as a map from connections to LCIDs: every
    connection of the map is on the probe path of its hash, before the first free
    entry.  The facts are proved once, for any hash, comparison and update that fit
    together, and hold for both pairs of operations. *)

#[local] Open Scope Z_scope.

(** A connection; without a direction, the one [memset] left in the entry. *)
Record Conn := { c_src : Z; c_dst : Z; c_sport : Z; c_dport : Z; c_dir : Z }.

#[export] Instance conn_eq_dec : EqDecision Conn.
Proof. solve_decision. Defined.

#[export] Instance conn_countable : Countable Conn.
Proof.
  refine (inj_countable' (fun k => (c_src k, c_dst k, c_sport k, c_dport k, c_dir k))
    (fun '(a, b, c, d, e) => {| c_src := a; c_dst := b; c_sport := c; c_dport := d; c_dir := e |}) _).
  by intros [].
Defined.

Definition key_of (e : entry_) : Conn :=
  {| c_src := srcAddr_ e; c_dst := dstAddr_ e; c_sport := srcPort_ e; c_dport := dstPort_ e;
     c_dir := dir_ e |}.

Definition used (e : entry_) : bool := negb (lcid_ e =? NO_LCID).

Lemma used_true e : used e = true <-> lcid_ e <> NO_LCID.
Proof. unfold used. rewrite negb_true_iff. apply Z.eqb_neq. Qed.

(** The entry [d] steps after [i] on the ring. *)
Definition at_step (i : Z) (d : nat) : Z := (i + Z.of_nat d) mod TABLE_SIZE.

Lemma at_step_range i d : 0 <= at_step i d < TABLE_SIZE.
Proof. apply Z.mod_pos_bound. reflexivity. Qed.

Lemma at_step_next i d : at_step (next_index i) d = at_step i (S d).
Proof.
  unfold at_step, next_index. rewrite Zplus_mod_idemp_l. f_equal. lia.
Qed.

Lemma at_step_0 i : 0 <= i < TABLE_SIZE -> at_step i 0 = i.
Proof. intros. unfold at_step. rewrite Z.add_0_r. by apply Z.mod_small. Qed.

(** Every index is reached within one turn. *)
Lemma at_step_reaches i j :
  0 <= i < TABLE_SIZE -> 0 <= j < TABLE_SIZE -> exists d, (d < rounds)%nat /\ at_step i d = j.
Proof.
  intros Hi Hj. exists (Z.to_nat ((j - i) mod TABLE_SIZE)).
  pose proof (Z.mod_pos_bound (j - i) TABLE_SIZE eq_refl). unfold rounds. split; [lia|].
  unfold at_step. rewrite Z2Nat.id, Zplus_mod_idemp_r by lia.
  replace (i + (j - i)) with j by lia. by apply Z.mod_small.
Qed.

(** ** The loops *)

Definition passed (stop : entry_ -> bool) (ht : ConnectionsTable) (i : Z) (d : nat) : Prop :=
  forall d', (d' < d)%nat -> exists e, vget ht (at_step i d') = Some e /\ stop e = false.

Lemma passed_next stop ht i d : passed stop ht i (S d) -> passed stop ht (next_index i) d.
Proof. intros Hp d' Hd. rewrite at_step_next. apply Hp. lia. Qed.

Definition find_stop (same : entry_ -> bool) (e : entry_) : bool := (lcid_ e =? NO_LCID) || same e.

Lemma find_loop_reach same ht d i fuel e :
  0 <= i < TABLE_SIZE -> passed (find_stop same) ht i d ->
  vget ht (at_step i d) = Some e -> find_stop same e = true -> (d < fuel)%nat ->
  find_loop fuel same ht i = Ok (lcid_ e).
Proof.
  revert i fuel. induction d as [|d IH]; intros i [|fuel] Hi Hp He Hs Hf; try lia; cbn [find_loop].
  - rewrite at_step_0 in He by done. rewrite He. cbn [of_option rbind].
    case (Z.eqb_spec (lcid_ e) NO_LCID) as [->|Hn]; [done|].
    apply orb_true_iff in Hs as [Hs%Z.eqb_eq|Hs]; [done|]. by rewrite Hs.
  - destruct (Hp O) as (e0 & He0 & Hs0); [lia|]. rewrite at_step_0 in He0 by done. rewrite He0.
    cbn [of_option rbind]. apply orb_false_iff in Hs0 as [-> ->].
    apply IH; [apply at_step_range with (d := 1%nat)|by apply passed_next|by rewrite at_step_next|done|lia].
Qed.

Lemma find_loop_never same ht i fuel :
  0 <= i < TABLE_SIZE -> passed (find_stop same) ht i fuel -> find_loop fuel same ht i = UB.
Proof.
  revert i. induction fuel as [|fuel IH]; intros i Hi Hp; [done|]. cbn [find_loop].
  destruct (Hp O) as (e0 & He0 & Hs0); [lia|]. rewrite at_step_0 in He0 by done. rewrite He0.
  cbn [of_option rbind]. apply orb_false_iff in Hs0 as [-> ->].
  apply IH; [apply at_step_range with (d := 1%nat)|by apply passed_next].
Qed.

Lemma free_loop_reach ht d i fuel e :
  0 <= i < TABLE_SIZE -> passed (fun e => negb (used e)) ht i d ->
  vget ht (at_step i d) = Some e -> used e = false -> (d < fuel)%nat ->
  free_loop fuel ht i = Ok (at_step i d).
Proof.
  revert i fuel. induction d as [|d IH]; intros i [|fuel] Hi Hp He Hs Hf; try lia; cbn [free_loop].
  - rewrite at_step_0 in He |- * by done. rewrite He. cbn [of_option rbind].
    unfold used in Hs. by rewrite Hs.
  - destruct (Hp O) as (e0 & He0 & Hs0); [lia|]. rewrite at_step_0 in He0 by done. rewrite He0.
    cbn [of_option rbind]. apply negb_false_iff in Hs0. unfold used in Hs0. rewrite Hs0.
    rewrite <- at_step_next.
    apply IH; [apply at_step_range with (d := 1%nat)|by apply passed_next|by rewrite at_step_next|done|lia].
Qed.

(** The first entry of the probe path with a decidable property. *)
Lemma first_step (p : entry_ -> bool) ht i j e :
  vsize ht = TABLE_SIZE -> 0 <= i < TABLE_SIZE -> vget ht j = Some e -> p e = true ->
  exists d e', (d < rounds)%nat /\ vget ht (at_step i d) = Some e' /\ p e' = true /\ passed p ht i d.
Proof.
  intros Hlen Hi Hj Hp. pose proof (vget_Some_bounds _ _ _ Hj) as Hjr. rewrite Hlen in Hjr.
  destruct (at_step_reaches i j Hi Hjr) as (n & Hn & <-).
  destruct (least_nat (fun d => from_option p false (vget ht (at_step i d)) = true) n)
    as (d & Hd & Hpd & Hmin); [by rewrite Hj|].
  destruct (vget ht (at_step i d)) as [e'|] eqn:Ed; [|done].
  exists d, e'. split; [lia|]. split; [done|]. split; [done|]. intros d' Hd'.
  destruct (vget_is_Some ht (at_step i d')) as [x Hx]; [rewrite Hlen; apply at_step_range|].
  exists x. split; [done|]. specialize (Hmin d' Hd'). rewrite Hx in Hmin. simpl in Hmin. by destruct (p x).
Qed.

(** ** The map of a table *)

Section Refinement.
Context (hash : Conn -> Z) (same : Conn -> entry_ -> bool) (put : Conn -> Z -> entry_ -> entry_).
Context (blank : entry_ -> Prop) (kdom : Conn -> Prop).
(** [blank] holds of every entry, free or not, and [kdom] of the connections used. *)
Hypothesis hash_range : forall k, 0 <= hash k < TABLE_SIZE.
Hypothesis same_key : forall k e, kdom k -> blank e -> same k e = bool_decide (key_of e = k).
Hypothesis put_key : forall k l e, kdom k -> blank e -> key_of (put k l e) = k.
Hypothesis put_lcid : forall k l e, lcid_ (put k l e) = l.
Hypothesis put_blank : forall k l e, kdom k -> blank e -> blank (put k l e).

Abbreviation find k := (find_loop rounds (same k)).

Record represents (ht : ConnectionsTable) (m : gmap Conn Z) : Prop := {
  rp_length : vsize ht = TABLE_SIZE;
  rp_blank : Forall blank ht;
  rp_dom : forall k l, m !! k = Some l -> kdom k /\ l <> NO_LCID;
  rp_entries : forall i e, vget ht i = Some e -> used e = true -> m !! key_of e = Some (lcid_ e);
  rp_path : forall k l, m !! k = Some l -> exists d e, (d < rounds)%nat /\
      vget ht (at_step (hash k) d) = Some e /\ key_of e = k /\ lcid_ e = l /\
      passed (find_stop (same k)) ht (hash k) d;
  rp_size : count used ht = Z.of_nat (size m)
}.

Lemma find_present ht m k l :
  represents ht m -> m !! k = Some l -> find k ht (hash k) = Ok l.
Proof.
  intros Hr Hk. destruct (rp_path _ _ Hr k l Hk) as (d & e & Hd & He & Hke & <- & Hp).
  eapply find_loop_reach; [apply hash_range|done|done| |done].
  unfold find_stop. rewrite same_key, bool_decide_eq_true_2; [by rewrite orb_true_r|done| |].
  - by destruct (rp_dom _ _ Hr _ _ Hk).
  - by eapply vget_Forall; [apply (rp_blank _ _ Hr)|].
Qed.

(** Absent connections stop the search at a free entry, if there is one. *)
Lemma absent_used ht m k i e :
  represents ht m -> kdom k -> m !! k = None -> vget ht i = Some e -> find_stop (same k) e = negb (used e).
Proof.
  intros Hr Hd Hk He. unfold find_stop, used. rewrite negb_involutive.
  destruct (lcid_ e =? NO_LCID) eqn:El; [done|]. cbn.
  rewrite same_key; [|done|by eapply vget_Forall; [apply (rp_blank _ _ Hr)|]].
  apply bool_decide_eq_false_2. intros <-. rewrite (rp_entries _ _ Hr i e He) in Hk; [done|].
  unfold used. by rewrite El.
Qed.

Lemma free_entry ht m :
  represents ht m -> Z.of_nat (size m) < TABLE_SIZE -> exists j e, vget ht j = Some e /\ used e = false.
Proof.
  intros Hr Hs. destruct (decide (Exists (fun e => used e = false) ht)) as [Hex|Hno].
  - apply Exists_exists in Hex as (e & [i Hi]%list_elem_of_lookup & Hu). exists (Z.of_nat i), e.
    split; [|done]. unfold vget. by rewrite (proj2 (Z.leb_le 0 (Z.of_nat i))), Nat2Z.id by lia.
  - exfalso. assert (count used ht = vsize ht); [|rewrite (rp_length _ _ Hr), (rp_size _ _ Hr) in *; lia].
    apply count_full. intros i e He. apply not_false_is_true. intros Hf. apply Hno, Exists_exists.
    exists e. split; [by eapply list_elem_of_lookup_2|done].
Qed.

Lemma find_absent ht m k :
  represents ht m -> kdom k -> m !! k = None -> Z.of_nat (size m) < TABLE_SIZE ->
  find k ht (hash k) = Ok NO_LCID.
Proof.
  intros Hr Hd Hk Hs. destruct (free_entry ht m Hr Hs) as (j & e & He & Hu).
  destruct (first_step (find_stop (same k)) ht (hash k) j e) as (d & e' & Hlt & He' & Hst & Hp);
    [by apply Hr|apply hash_range|done|by erewrite absent_used, Hu|].
  erewrite find_loop_reach by (try done; apply hash_range).
  rewrite (absent_used ht m k _ e' Hr Hd Hk He') in Hst.
  unfold used in Hst. by rewrite negb_involutive, Z.eqb_eq in Hst; rewrite Hst.
Qed.

(** In a full table the search for an absent connection never ends. *)
Lemma find_full_never ht m k fuel :
  represents ht m -> kdom k -> m !! k = None -> Z.of_nat (size m) = TABLE_SIZE ->
  find_loop fuel (same k) ht (hash k) = UB.
Proof.
  intros Hr Hd Hk Hs. apply find_loop_never; [apply hash_range|]. intros d _.
  destruct (vget_is_Some ht (at_step (hash k) d)) as [e He]; [rewrite (rp_length _ _ Hr); apply at_step_range|].
  exists e. split; [done|]. rewrite (absent_used ht m k _ e Hr Hd Hk He). apply negb_false_iff.
  assert (Hc : count used ht = vsize ht) by (rewrite (rp_length _ _ Hr), (rp_size _ _ Hr); done).
  rewrite count_full in Hc. unfold vget in He. destruct (0 <=? _); [|done]. by eapply Hc.
Qed.

Definition create (ht : ConnectionsTable) (k : Conn) (l : Z) : result ConnectionsTable :=
  let! i := free_loop rounds ht (hash k) in update_entry ht i (put k l).

(** A new entry leaves the probe paths of the others as they are: it takes the place of
    a free entry, which none of them contains. *)
Lemma put_path ht m k l i e0 ht' k' l' :
  represents ht m -> kdom k -> vget ht i = Some e0 -> used e0 = false -> k' <> k ->
  vset ht i (put k l e0) = Some ht' -> m !! k' = Some l' ->
  exists d e, (d < rounds)%nat /\ vget ht' (at_step (hash k') d) = Some e /\ key_of e = k' /\
    lcid_ e = l' /\ passed (find_stop (same k')) ht' (hash k') d.
Proof.
  intros Hr Hd He0 Hu Hne Hset Hk'.
  destruct (rp_path _ _ Hr k' l' Hk') as (d & e & Hlt & He & Hke & Hle & Hp).
  destruct (rp_dom _ _ Hr k' l' Hk') as [Hd' Hl'].
  assert (Hused : forall x, used x = false -> find_stop (same k') x = true).
  { intros x Hx. unfold used in Hx. apply negb_false_iff in Hx. unfold find_stop. by rewrite Hx. }
  exists d, e. split; [done|]. split; [|split; [done|split; [done|]]].
  - rewrite (vget_vset_ne _ _ _ _ _ Hset); [done|]. intros ->. rewrite He in He0. injection He0 as ->.
    rewrite <- Hle in Hl'. apply Hl'. unfold used in Hu. by apply negb_false_iff, Z.eqb_eq in Hu.
  - intros d' Hlt'. destruct (Hp d' Hlt') as (x & Hx & Hs). exists x. split; [|done].
    rewrite (vget_vset_ne _ _ _ _ _ Hset); [done|]. intros ->. rewrite Hx in He0. injection He0 as ->.
    by rewrite Hused in Hs.
Qed.

Lemma create_spec ht m k l :
  represents ht m -> kdom k -> m !! k = None -> l <> NO_LCID -> Z.of_nat (size m) < TABLE_SIZE ->
  exists ht', create ht k l = Ok ht' /\ represents ht' (<[k := l]> m).
Proof.
  intros Hr Hd Hk Hl Hs. destruct (free_entry ht m Hr Hs) as (j & x & Hx & Hux).
  destruct (first_step (fun e => negb (used e)) ht (hash k) j x) as (d & e & Hlt & He & Hu & Hp);
    [by apply Hr|apply hash_range|done|by rewrite Hux|]. apply negb_true_iff in Hu.
  pose proof (vget_Some_bounds _ _ _ He) as Hi. set (i := at_step (hash k) d) in *.
  assert (Hbe : blank e) by (by eapply vget_Forall; [apply (rp_blank _ _ Hr)|]).
  destruct (vset_is_Some ht i (put k l e) Hi) as [ht' Hset].
  exists ht'. split.
  { unfold create. rewrite (free_loop_reach ht d (hash k) rounds e) by (done || apply hash_range).
    cbn [rbind]. unfold update_entry. fold i. rewrite He. cbn [of_option rbind]. by rewrite Hset. }
  split.
  - by rewrite (vset_size _ _ _ _ Hset), (rp_length _ _ Hr).
  - eapply vset_Forall; [apply (rp_blank _ _ Hr)|by apply put_blank|done].
  - intros k' l' [[<- <-]|[_ Hk']]%lookup_insert_Some; [done|by apply (rp_dom _ _ Hr)].
  - intros i' e'. rewrite (vget_vset _ _ i' _ _ Hset). case_decide as Hii.
    + intros [= <-] _. rewrite put_key, put_lcid by done. apply lookup_insert_eq.
    + intros He' Hu'. pose proof (rp_entries _ _ Hr i' e' He' Hu') as Hm.
      rewrite lookup_insert_ne; [done|]. intros E. rewrite <- E in Hm. congruence.
  - intros k' l' [[<- <-]|[Hne Hk']]%lookup_insert_Some.
    + exists d, (put k l e). split; [done|]. fold i. rewrite (vget_vset_eq _ _ _ _ Hset).
      split; [done|]. split; [by apply put_key|]. split; [by apply put_lcid|].
      intros d' Hd'. destruct (Hp d' Hd') as (y & Hy & Huy). exists y. split.
      * rewrite (vget_vset_ne _ _ _ _ _ Hset); [done|]. fold i in Hy. intros E. rewrite <- E in Hy.
        rewrite He in Hy. injection Hy as ->. by rewrite Hu in Huy.
      * by rewrite (absent_used ht m k _ y Hr Hd Hk Hy).
    + by eapply (put_path ht m k l i e).
  - destruct (vset_inv _ _ _ _ Hset) as [_ ->].
    assert (Hlk : ht !! Z.to_nat i = Some e).
    { unfold vget in He. destruct (0 <=? i); [done|done]. }
    rewrite (count_insert used ht _ e _ Hlk), map_size_insert_None, (rp_size _ _ Hr), Hu by done.
    assert (used (put k l e) = true) as -> by (apply used_true; by rewrite put_lcid).
    cbn. lia.
Qed.

Lemma new_represents :
  Forall blank new_ConnectionsTable -> represents new_ConnectionsTable ∅.
Proof.
  intros Hb. split; [done|done|by intros k l| |by intros k l|].
  - intros i e He%vget_replicate. by subst e.
  - rewrite map_size_empty. apply count_0. intros i e [-> _]%lookup_replicate. done.
Qed.
End Refinement.

Arguments represents _ _ _ _ ht m : clear implicits.

(** ** The two pairs of operations *)

(** A table used with one pair of operations, on connections; [cm_search] is the loop of
    [cm_find] with any number of rounds. *)
Class ConnMap := {
  cm_search : nat -> ConnectionsTable -> Conn -> result Z;
  cm_find : ConnectionsTable -> Conn -> result Z;
  cm_create : ConnectionsTable -> Conn -> Z -> result ConnectionsTable
}.

(** What the table promises to its clients: it is a map, while it is not full; when it
    is, looking for an absent connection does not end. *)
Class ConnMapLaws (M : ConnMap) := {
  cm_dom : Conn -> Prop;
  cm_rep : ConnectionsTable -> gmap Conn Z -> Prop;
  cm_new : cm_rep new_ConnectionsTable ∅;
  cm_find_present ht m k l : cm_rep ht m -> m !! k = Some l -> cm_find ht k = Ok l;
  cm_find_absent ht m k : cm_rep ht m -> cm_dom k -> m !! k = None ->
    Z.of_nat (size m) < TABLE_SIZE -> cm_find ht k = Ok NO_LCID;
  cm_find_search ht k : cm_find ht k = cm_search rounds ht k;
  cm_search_full ht m k fuel : cm_rep ht m -> cm_dom k -> m !! k = None ->
    Z.of_nat (size m) = TABLE_SIZE -> cm_search fuel ht k = UB;
  cm_create_new ht m k l : cm_rep ht m -> cm_dom k -> m !! k = None -> l <> NO_LCID ->
    Z.of_nat (size m) < TABLE_SIZE -> exists ht', cm_create ht k l = Ok ht' /\ cm_rep ht' (<[k := l]> m)
}.

(** Without a direction, the member keeps the value of [memset]. *)
Definition no_dir : Z := 2 ^ 16 - 1.
Definition flow_blank (e : entry_) : Prop := dir_ e = no_dir.
Definition flow_dom (k : Conn) : Prop := c_dir k = no_dir.
Definition flow_hash (k : Conn) : Z := hash_func (c_src k) (c_dst k) (c_sport k) (c_dport k).
Definition flow_same (k : Conn) : entry_ -> bool := same_flow (c_src k) (c_dst k) (c_sport k) (c_dport k).
Definition flow_put (k : Conn) (l : Z) (e : entry_) : entry_ :=
  {| srcAddr_ := c_src k; dstAddr_ := c_dst k; srcPort_ := c_sport k; dstPort_ := c_dport k;
     dir_ := dir_ e; lcid_ := l |}.

Definition dir_hash (k : Conn) : Z := hash_func_dir (c_src k) (c_dst k) (c_sport k) (c_dport k) (c_dir k).
Definition dir_same (k : Conn) (e : entry_) : bool := flow_same k e && (dir_ e =? c_dir k).
Definition dir_put (k : Conn) (l : Z) (e : entry_) : entry_ :=
  {| srcAddr_ := c_src k; dstAddr_ := c_dst k; srcPort_ := c_sport k; dstPort_ := c_dport k;
     dir_ := c_dir k; lcid_ := l |}.

#[export] Instance by_flow : ConnMap := {
  cm_search fuel ht k := find_loop fuel (flow_same k) ht (flow_hash k);
  cm_find ht k := find_entry ht (c_src k) (c_dst k) (c_sport k) (c_dport k);
  cm_create ht k l := create_entry ht (c_src k) (c_dst k) (c_sport k) (c_dport k) l
}.

Definition by_direction : ConnMap := {|
  cm_search fuel ht k := find_loop fuel (dir_same k) ht (dir_hash k);
  cm_find ht k := find_entry_dir ht (c_src k) (c_dst k) (c_sport k) (c_dport k) (c_dir k);
  cm_create ht k l := create_entry_dir ht (c_src k) (c_dst k) (c_sport k) (c_dport k) (c_dir k) l
|}.

Lemma same_flow_spec k e : flow_same k e = true <->
  srcAddr_ e = c_src k /\ dstAddr_ e = c_dst k /\ srcPort_ e = c_sport k /\ dstPort_ e = c_dport k.
Proof. unfold flow_same, same_flow. rewrite !andb_true_iff, !Z.eqb_eq. tauto. Qed.

Lemma flow_same_key k e : flow_dom k -> flow_blank e -> flow_same k e = bool_decide (key_of e = k).
Proof.
  intros Hk He. apply eq_bool_prop_intro. rewrite bool_decide_spec, Is_true_true, same_flow_spec.
  destruct k. unfold flow_dom, flow_blank, key_of in *. cbn in *. split.
  - intros (-> & -> & -> & ->). congruence.
  - by intros [= -> -> -> -> _].
Qed.

Lemma dir_same_key k e : dir_same k e = bool_decide (key_of e = k).
Proof.
  apply eq_bool_prop_intro. unfold dir_same.
  rewrite bool_decide_spec, Is_true_true, andb_true_iff, same_flow_spec, Z.eqb_eq.
  destruct k. unfold key_of. cbn. split.
  - by intros [(-> & -> & -> & ->) ->].
  - by intros [= -> -> -> -> ->].
Qed.

Lemma hash_mod_range z : 0 <= z mod TABLE_SIZE < TABLE_SIZE.
Proof. by apply Z.mod_pos_bound. Qed.

#[local] Opaque rounds.

#[export] Instance by_flow_laws : ConnMapLaws by_flow.
Proof.
  assert (Hput : forall k l e, flow_dom k -> flow_blank e -> key_of (flow_put k l e) = k).
  { intros [] l e Hk He. unfold flow_dom, flow_blank, key_of in *. cbn in *. congruence. }
  pose proof (fun k => hash_mod_range (Z.lor (Z.lor (Z.lor (c_sport k) (c_dport k)) (c_src k)) (c_dst k))) as Hh.
  refine {| cm_dom := flow_dom; cm_rep := represents flow_hash flow_same flow_blank flow_dom |}.
  - apply new_represents. by apply Forall_replicate.
  - exact (find_present flow_hash flow_same flow_blank flow_dom Hh flow_same_key).
  - exact (find_absent flow_hash flow_same flow_blank flow_dom Hh flow_same_key).
  - reflexivity.
  - exact (find_full_never flow_hash flow_same flow_blank flow_dom Hh flow_same_key).
  - by apply (create_spec flow_hash flow_same flow_put flow_blank flow_dom Hh flow_same_key Hput).
Defined.

#[export] Instance by_direction_laws : ConnMapLaws by_direction.
Proof.
  assert (Hput : forall k l e, True -> True -> key_of (dir_put k l e) = k) by (by intros []).
  pose proof (fun k => hash_mod_range (Z.lor (Z.lor (Z.lor (Z.lor (c_sport k) (c_dport k)) (c_src k)) (c_dst k)) (c_dir k))) as Hh.
  assert (Hs : forall k e, True -> True -> dir_same k e = bool_decide (key_of e = k)) by (intros; apply dir_same_key).
  refine {| cm_dom := fun _ => True; cm_rep := represents dir_hash dir_same (fun _ => True) (fun _ => True) |}.
  - apply new_represents. by apply Forall_true.
  - exact (find_present dir_hash dir_same _ _ Hh Hs).
  - exact (find_absent dir_hash dir_same _ _ Hh Hs).
  - reflexivity.
  - exact (find_full_never dir_hash dir_same _ _ Hh Hs).
  - by apply (create_spec dir_hash dir_same dir_put _ _ Hh Hs Hput).
Defined.

(** ** Termination of the searches *)

Lemma existsb_ext {A} (f g : A -> bool) l : (forall x, f x = g x) -> existsb f l = existsb g l.
Proof. intros H. induction l as [|x l IH]; [done|]. cbn. by rewrite H, IH. Qed.

Lemma vget_elem_of {A} (l : list A) (x : A) : x ∈ l <-> exists i, vget l i = Some x.
Proof.
  rewrite list_elem_of_lookup. split.
  - intros [i Hi]. exists (Z.of_nat i). unfold vget. rewrite (proj2 (Z.leb_le 0 _)) by lia. by rewrite Nat2Z.id.
  - intros [i Hi]. unfold vget in Hi. destruct (0 <=? i); [by eexists|done].
Qed.

(** A search of one turn round the table ends at the entry it stops at, with every
    larger number of rounds the same; when no entry stops it, no number is enough. *)
Lemma turn_ends (stop : entry_ -> bool) ht i :
  vsize ht = TABLE_SIZE -> 0 <= i < TABLE_SIZE -> existsb stop ht = true ->
  exists d e, (d < rounds)%nat /\ vget ht (at_step i d) = Some e /\ stop e = true /\ passed stop ht i d.
Proof.
  intros Hlen Hi Hex. apply existsb_exists in Hex as (e & He & Hs).
  apply list_elem_of_In, vget_elem_of in He as [j Hj]. by apply (first_step stop ht i j e).
Qed.

Lemma turn_never (stop : entry_ -> bool) ht i fuel :
  vsize ht = TABLE_SIZE -> 0 <= i < TABLE_SIZE -> existsb stop ht = false -> passed stop ht i fuel.
Proof.
  intros Hlen Hi Hex d _.
  destruct (vget_is_Some ht (at_step i d)) as [e He]; [rewrite Hlen; apply at_step_range|].
  exists e. split; [done|]. destruct (stop e) eqn:Es; [|done].
  assert (Ht : existsb stop ht = true) by (apply existsb_exists; exists e; split; [|done];
    by apply list_elem_of_In, vget_elem_of; eexists). congruence.
Qed.

Lemma free_loop_never ht i fuel :
  0 <= i < TABLE_SIZE -> passed (fun e => negb (used e)) ht i fuel -> free_loop fuel ht i = UB.
Proof.
  revert i. induction fuel as [|fuel IH]; intros i Hi Hp; [done|]. cbn [free_loop].
  destruct (Hp O) as (e0 & He0 & Hs0); [lia|]. rewrite at_step_0 in He0 by done. rewrite He0.
  cbn [of_option rbind]. apply negb_false_iff in Hs0. unfold used in Hs0. rewrite Hs0.
  apply IH; [apply at_step_range with (d := 1%nat)|by apply passed_next].
Qed.

(** The two probing loops end exactly when the table has an entry that stops them,
    for the search a free or matching one, for the insertion a free one; then TABLE_SIZE
    rounds are enough, and otherwise no number of rounds is. *)
Theorem probing_terminates (same : entry_ -> bool) (ht : ConnectionsTable) (i : Z) :
  vsize ht = TABLE_SIZE -> 0 <= i < TABLE_SIZE ->
  (if existsb (fun e => (lcid_ e =? NO_LCID) || same e) ht
   then exists lcid, forall fuel, (rounds <= fuel)%nat -> find_loop fuel same ht i = Ok lcid
   else forall fuel, find_loop fuel same ht i = UB) /\
  (if existsb (fun e => lcid_ e =? NO_LCID) ht
   then exists j, forall fuel, (rounds <= fuel)%nat -> free_loop fuel ht i = Ok j
   else forall fuel, free_loop fuel ht i = UB).
Proof.
  intros Hlen Hi. split.
  - change (fun e => (lcid_ e =? NO_LCID) || same e) with (find_stop same).
    destruct (existsb (find_stop same) ht) eqn:Hex.
    + destruct (turn_ends _ _ _ Hlen Hi Hex) as (d & e & Hd & He & Hs & Hp). exists (lcid_ e).
      intros fuel Hf. apply (find_loop_reach same ht d); [done..|lia].
    + intros fuel. apply find_loop_never; [done|by apply turn_never].
  - assert (Hu : forall e, (lcid_ e =? NO_LCID) = negb (used e)) by (intros e; unfold used; by rewrite negb_involutive).
    rewrite (existsb_ext (fun e => lcid_ e =? NO_LCID) (fun e => negb (used e)) ht Hu).
    destruct (existsb _ ht) eqn:Hex.
    + destruct (turn_ends _ _ _ Hlen Hi Hex) as (d & e & Hd & He & Hs%negb_true_iff & Hp). exists (at_step i d).
      intros fuel Hf. apply (free_loop_reach ht d i fuel e); [done..|lia].
    + intros fuel. apply free_loop_never; [done|by apply turn_never].
Qed.

Lemma probing_terminates_witness :
  (exists lcid, forall fuel, (rounds <= fuel)%nat -> find_loop fuel (same_flow 1 2 3 4) new_ConnectionsTable 5 = Ok lcid) /\
  (exists j, forall fuel, (rounds <= fuel)%nat -> free_loop fuel new_ConnectionsTable 5 = Ok j).
Proof.
  refine (probing_terminates (same_flow 1 2 3 4) new_ConnectionsTable 5 _ _); [by vm_compute|unfold TABLE_SIZE; lia].
Defined.
