(* ===== verification/Pdcp.v ===== *)
(** * The PDCP/RRC layer

    [LtePdcpRrcBase] and its classes (src/simulte/src/stack/pdcp_rrc/layer/): header
    compression, the connection identifier and the sequence number of each packet, its
    destination and direction, and the way up.  The classes differ in the functions
    they override, so the class of the module is part of the state; the D2D classes
    have a [fromDataPort] of their own.

    A packet is the list of its chunks; asking for a chunk of a type that is not at the
    front is an error (INET does not convert chunks unless told to).  Signals and
    logging are left out. *)

From S2P Require Import Prelude.
From S2P Require Import LteCommon.
From S2P Require Import LteBinder.
From S2P Require Import ConnectionsTable.
#[local] Open Scope Z_scope.

(** ** Packets *)

Inductive Chunk : Type :=
| ChIpv4 (protocolId headerLength chunkLength : Z)
| ChTcp (headerLength chunkLength : Z)
| ChUdp (chunkLength : Z)
| ChRohc (origSizeTransportHeader origSizeIpHeader chunkLength : Z)
| ChPdcp (chunkLength : Z)
| ChData (chunkLength : Z).

Definition chunk_length (c : Chunk) : Z :=
  match c with
  | ChIpv4 _ _ n | ChTcp _ n | ChUdp n | ChRohc _ _ n | ChPdcp n | ChData n => n
  end.

Inductive PacketProtocol : Type := IPV4 | PDCP.

Record DataPacket := {
  pkt_name : string;
  pkt_chunks : list Chunk;
  flow_tag : option FlowControlInfo;
  control_info : option FlowControlInfo;
  protocol_tag : option PacketProtocol
}.

#[export] Instance datapacket_eta : Eta DataPacket := fun p =>
  {| pkt_name := pkt_name p; pkt_chunks := pkt_chunks p; flow_tag := flow_tag p;
     control_info := control_info p; protocol_tag := protocol_tag p |}.

Definition packet_bytes (p : DataPacket) : Z := foldr Z.add 0 (map chunk_length (pkt_chunks p)).

Definition no_conversion : string := "Implicit chunk serialization is disabled".

(** [removeAtFront<T>], with the members the code reads. *)
Definition remove_ipv4 (l : list Chunk) : result (Z * Z * list Chunk) :=
  match l with ChIpv4 proto hl _ :: l => Ok (proto, hl, l) | _ => Throw no_conversion end.
Definition remove_tcp (l : list Chunk) : result (Z * list Chunk) :=
  match l with ChTcp hl _ :: l => Ok (hl, l) | _ => Throw no_conversion end.
Definition remove_udp (l : list Chunk) : result (list Chunk) :=
  match l with ChUdp _ :: l => Ok l | _ => Throw no_conversion end.
Definition remove_rohc (l : list Chunk) : result (Z * Z * list Chunk) :=
  match l with ChRohc t i _ :: l => Ok (t, i, l) | _ => Throw no_conversion end.
Definition remove_pdcp (l : list Chunk) : result (list Chunk) :=
  match l with ChPdcp _ :: l => Ok l | _ => Throw no_conversion end.

Definition IP_PROT_TCP : Z := 6.
Definition IP_PROT_UDP : Z := 17.
Definition UDP_HEADER_LENGTH : Z := 8.

(** ** The module *)

Inductive PdcpClass : Type :=
| LtePdcpRrcUe
| LtePdcpRrcEnb
| LtePdcpRrcRelayEnb
| LtePdcpRrcRelayUe (destId_ : Z)
| LtePdcpRrcUeD2D
| LtePdcpRrcEnbD2D.

Record LtePdcpRrc := {
  pdcp_class : PdcpClass;
  headerCompressedSize_ : Z;
  conversationalRlc : Z;
  streamingRlc : Z;
  interactiveRlc : Z;
  backgroundRlc : Z;
  nodeId_ : Z;
  nextLcid_ : Z;
  ht_ : ConnectionsTable;
  entities_ : gmap Z Z
}.

#[export] Instance pdcp_eta : Eta LtePdcpRrc := fun p =>
  {| pdcp_class := pdcp_class p; headerCompressedSize_ := headerCompressedSize_ p;
     conversationalRlc := conversationalRlc p; streamingRlc := streamingRlc p;
     interactiveRlc := interactiveRlc p; backgroundRlc := backgroundRlc p; nodeId_ := nodeId_ p;
     nextLcid_ := nextLcid_ p; ht_ := ht_ p; entities_ := entities_ p |}.

Definition HEADER_COMPRESSION_DISABLED : Z := -1.
Definition MIN_COMPRESSED_HEADER_SIZE : Z := 3.

(** The constructor ([lcid_] is [nextLcid_] here), and [initialize]. *)
Definition new_LtePdcpRrc (class : PdcpClass) (size conv stream inter back nodeId : Z) : result LtePdcpRrc :=
  if negb (size =? HEADER_COMPRESSION_DISABLED) && (size <? MIN_COMPRESSED_HEADER_SIZE)
  then Throw "Size of compressed header must not be less than 3"
  else Ok {| pdcp_class := class; headerCompressedSize_ := size; conversationalRlc := conv;
             streamingRlc := stream; interactiveRlc := inter; backgroundRlc := back;
             nodeId_ := nodeId; nextLcid_ := 1; ht_ := new_ConnectionsTable; entities_ := ∅ |}.

(** ** Header compression *)

Definition isCompressionEnabled (p : LtePdcpRrc) : bool :=
  negb (headerCompressedSize_ p =? HEADER_COMPRESSION_DISABLED).

Definition headerCompress (p : LtePdcpRrc) (l : list Chunk) : result (list Chunk) :=
  if isCompressionEnabled p then
    let! (transportProtocol, ipLength, l) := remove_ipv4 l in
    let! (origTransport, compressed, l) :=
      if transportProtocol =? IP_PROT_TCP then
        let! (hl, l) := remove_tcp l in Ok (hl, 1, ChTcp hl 1 :: l)
      else if transportProtocol =? IP_PROT_UDP then
        let! l := remove_udp l in Ok (UDP_HEADER_LENGTH, 1, ChUdp 1 :: l)
      else Ok (0, 0, l) in
    Ok (ChRohc origTransport ipLength (headerCompressedSize_ p - compressed - 1)
          :: ChIpv4 transportProtocol ipLength 1 :: l)
  else Ok l.

Definition headerDecompress (p : LtePdcpRrc) (l : list Chunk) : result (list Chunk) :=
  if isCompressionEnabled p then
    let! (origTransport, origIp, l) := remove_rohc l in
    let! (transportProtocol, ipLength, l) := remove_ipv4 l in
    let! l :=
      if transportProtocol =? IP_PROT_TCP then
        let! (hl, l) := remove_tcp l in Ok (ChTcp hl origTransport :: l)
      else if transportProtocol =? IP_PROT_UDP then
        let! l := remove_udp l in Ok (ChUdp origTransport :: l)
      else Ok l in
    Ok (ChIpv4 transportProtocol ipLength origIp :: l)
  else Ok l.

(** ** Direction and destination *)

(** [getDirection()]; the relays do not know one. *)
Definition getDirection (p : LtePdcpRrc) : Direction :=
  match pdcp_class p with
  | LtePdcpRrcUe | LtePdcpRrcUeD2D => UL
  | LtePdcpRrcEnb | LtePdcpRrcEnbD2D => DL
  | LtePdcpRrcRelayEnb | LtePdcpRrcRelayUe _ => UNKNOWN_DIRECTION
  end.

(** [getDirection(destId)] of [LtePdcpRrcUeD2D].  The mode is only read when the pair
    has an entry, so reading it does not change the binder. *)
Definition getDirectionTo (b : LteBinder) (p : LtePdcpRrc) (destId : Z) : result Direction :=
  if getD2DCapability b (nodeId_ p) destId then
    let! (mode, _) := getD2DMode b (nodeId_ p) destId in
    Ok (match mode with DM => D2D | IM => UL end)
  else Ok UL.

Definition getDestId (b : LteBinder) (p : LtePdcpRrc) (info : FlowControlInfo) : result Z :=
  match pdcp_class p with
  | LtePdcpRrcUe => getNextHop b (nodeId_ p)
  | LtePdcpRrcEnb | LtePdcpRrcEnbD2D =>
      let destId := getMacNodeId b (fi_dstAddr info) in
      let! master := getNextHop b destId in
      Ok (if negb (master =? nodeId_ p) then master else destId)
  | LtePdcpRrcRelayEnb => Ok (getMacNodeId b (fi_dstAddr info))
  | LtePdcpRrcRelayUe destId => Ok destId
  | LtePdcpRrcUeD2D =>
      let destId := getMacNodeId b (fi_dstAddr info) in
      if destId =? 0 then getNextHop b (nodeId_ p)
      else
        let! dir := getDirectionTo b p destId in
        if bool_decide (dir = UL) then getNextHop b (nodeId_ p) else Ok destId
  end.

Definition setTrafficInformation (p : LtePdcpRrc) (name : string) (info : FlowControlInfo) : FlowControlInfo :=
  let '(app, traffic, rlc) :=
    if String.eqb name "VoIP" then (VOIP, CONVERSATIONAL, conversationalRlc p)
    else if String.eqb name "gaming" then (GAMING, INTERACTIVE, interactiveRlc p)
    else if String.eqb name "VoDPacket" || String.eqb name "VoDFinishPacket"
         then (VOD, STREAMING, streamingRlc p)
    else (CBR, BACKGROUND, backgroundRlc p) in
  info <| fi_application := app |> <| fi_traffic := traffic |> <| fi_rlcType := uint16 rlc |>
       <| fi_direction := getDirection p |>.

(** ** Connection identifiers and sequence numbers *)

Definition flow_key (info : FlowControlInfo) : Conn :=
  {| c_src := fi_srcAddr info; c_dst := fi_dstAddr info; c_sport := fi_srcPort info;
     c_dport := fi_dstPort info; c_dir := no_dir |}.

Definition dir_key (info : FlowControlInfo) : Conn :=
  {| c_src := fi_srcAddr info; c_dst := fi_dstAddr info; c_sport := fi_srcPort info;
     c_dport := fi_dstPort info; c_dir := dir_code (fi_direction info) |}.

(** The LCID of the connection, a new one if it has none. *)
Definition request_cid (M : ConnMap) (p : LtePdcpRrc) (k : Conn) : result (Z * LtePdcpRrc) :=
  let! mylcid := cm_find (ht_ p) k in
  if mylcid =? NO_LCID then
    let mylcid := nextLcid_ p in
    let! ht := cm_create (ht_ p) k mylcid in
    Ok (mylcid, p <| nextLcid_ := uint16 (mylcid + 1) |> <| ht_ := ht |>)
  else Ok (mylcid, p).

(** [getEntity], a new entity starting from 0, and its [nextSequenceNumber]. *)
Definition getEntity (p : LtePdcpRrc) (lcid : Z) : Z := default 0 (entities_ p !! lcid).
Definition nextSequenceNumber (p : LtePdcpRrc) (lcid : Z) : Z * LtePdcpRrc :=
  let sno := getEntity p lcid in
  (sno, p <| entities_ := <[lcid := uint32 (sno + 1)]> (entities_ p) |>).

(** ** The way down *)

Inductive Sap : Type := UM_SAP | AM_SAP | TM_SAP | DATA_PORT | EUTRAN_SAP.

Definition PDCP_HEADER_UM : Z := 1.
Definition PDCP_HEADER_AM : Z := 2.

(** The header length and the gate for the RLC type. *)
Definition rlc_sap (rlcType : Z) : result (Z * Sap) :=
  if rlcType =? UM then Ok (PDCP_HEADER_UM, UM_SAP)
  else if rlcType =? AM then Ok (PDCP_HEADER_AM, AM_SAP)
  else if rlcType =? TM then Ok (1, TM_SAP)
  else Throw "fromDataport(): invalid RlcType".

(** [getTag] of a packet without the tag is an error. *)
Definition getFlowTag (pkt : DataPacket) : result FlowControlInfo :=
  match flow_tag pkt with Some info => Ok info | None => Throw "Tag 'FlowControlInfo' is absent" end.

(** The PDCP header, the tags, and the gate. *)
Definition pdcp_send (pkt : DataPacket) (l : list Chunk) (info : FlowControlInfo) : result (Sap * DataPacket) :=
  let! (headerLength, gate) := rlc_sap (fi_rlcType info) in
  Ok (gate, pkt <| pkt_chunks := ChPdcp headerLength :: l |> <| flow_tag := Some info |>
                <| protocol_tag := Some PDCP |>).

(** [LtePdcpRrcBase::fromDataPort]. *)
Definition fromDataPort_base (b : LteBinder) (p : LtePdcpRrc) (pkt : DataPacket)
    : result (LtePdcpRrc * (Sap * DataPacket)) :=
  let! info := getFlowTag pkt in
  let info := setTrafficInformation p (pkt_name pkt) info in
  let! dest := getDestId b p info in
  let info := info <| fi_destId := dest |> in
  let! l := headerCompress p (pkt_chunks pkt) in
  let! (mylcid, p) := request_cid by_flow p (flow_key info) in
  let (sno, p) := nextSequenceNumber p mylcid in
  let info := info <| fi_sequenceNumber := sno |> <| fi_lcid := mylcid |> <| fi_sourceId := nodeId_ p |> in
  let! dest := getDestId b p info in
  let! out := pdcp_send pkt l (info <| fi_destId := dest |>) in
  Ok (p, out).

(** [LtePdcpRrcEnbD2D::fromDataPort]. *)
Definition fromDataPort_EnbD2D (b : LteBinder) (p : LtePdcpRrc) (pkt : DataPacket)
    : result (LtePdcpRrc * (Sap * DataPacket)) :=
  let! info := getFlowTag pkt in
  let info := setTrafficInformation p (pkt_name pkt) info in
  let! l := headerCompress p (pkt_chunks pkt) in
  let srcId := getMacNodeId b (fi_srcAddr info) in
  let destId := getMacNodeId b (fi_dstAddr info) in
  let info := info <| fi_direction := getDirection p |> in
  let info :=
    if bool_decide (getNodeTypeById srcId = UE) && bool_decide (getNodeTypeById destId = UE)
       && getD2DCapability b srcId destId
    then info <| fi_d2dTxPeerId := srcId |> <| fi_d2dRxPeerId := destId |>
    else info <| fi_d2dTxPeerId := 0 |> <| fi_d2dRxPeerId := 0 |> in
  let! (mylcid, p) := request_cid by_direction p (dir_key info) in
  let (sno, p) := nextSequenceNumber p mylcid in
  let info := info <| fi_sequenceNumber := sno |> <| fi_lcid := mylcid |> <| fi_sourceId := nodeId_ p |> in
  let! dest := getDestId b p info in
  let! out := pdcp_send pkt l (info <| fi_destId := dest |>) in
  Ok (p, out).

(** [Ipv4Address::isMulticast]. *)
Definition isMulticast (address : Z) : bool := Z.land address 4026531840 =? 3758096384.

Section D2D.
Variable macModule : Z -> result (option LteMacRef).

(** [LtePdcpRrcUeD2D::fromDataPort]; it changes the binder. *)
Definition fromDataPort_UeD2D (b : LteBinder) (p : LtePdcpRrc) (pkt : DataPacket)
    : result (LteBinder * LtePdcpRrc * (Sap * DataPacket)) :=
  let! info := getFlowTag pkt in
  let info := setTrafficInformation p (pkt_name pkt) info in
  let! l := headerCompress p (pkt_chunks pkt) in
  let destAddr := fi_dstAddr info in
  let! (b, info) :=
    if isMulticast destAddr then
      let b := addD2DMulticastTransmitter b (nodeId_ p) in
      let mask := uint32 (Z.lnot (uint32 (Z.shiftl 255 28))) in
      let groupId := Z.land destAddr mask in
      Ok (b, info <| fi_direction := D2D_MULTI |> <| fi_multicastGroupId := int32 groupId |>
                  <| fi_destId := nodeId_ p |>)
    else
      let destId := getMacNodeId b destAddr in
      let! (b, info) :=
        if negb (destId =? 0) then
          let! (capable, b) := checkD2DCapability macModule b (nodeId_ p) destId in
          let info := if capable : bool
                      then info <| fi_d2dTxPeerId := nodeId_ p |> <| fi_d2dRxPeerId := destId |>
                      else info <| fi_d2dTxPeerId := 0 |> <| fi_d2dRxPeerId := 0 |> in
          let! dir := getDirectionTo b p destId in
          Ok (b, info <| fi_direction := dir |>)
        else Ok (b, info <| fi_direction := UL |> <| fi_d2dTxPeerId := 0 |> <| fi_d2dRxPeerId := 0 |>) in
      let! dest := getDestId b p info in
      Ok (b, info <| fi_destId := dest |>) in
  let! (mylcid, p) := request_cid by_direction p (dir_key info) in
  let (sno, p) := nextSequenceNumber p mylcid in
  let info := info <| fi_sequenceNumber := sno |> <| fi_lcid := mylcid |> <| fi_sourceId := nodeId_ p |> in
  let! out := pdcp_send pkt l info in
  Ok (b, p, out).

Definition fromDataPort (b : LteBinder) (p : LtePdcpRrc) (pkt : DataPacket)
    : result (LteBinder * LtePdcpRrc * (Sap * DataPacket)) :=
  match pdcp_class p with
  | LtePdcpRrcUeD2D => fromDataPort_UeD2D b p pkt
  | LtePdcpRrcEnbD2D => let! (p, out) := fromDataPort_EnbD2D b p pkt in Ok (b, p, out)
  | _ => let! (p, out) := fromDataPort_base b p pkt in Ok (b, p, out)
  end.
End D2D.

(** [fromEutranRrcSap]: control traffic on a fixed LCID. *)
Definition fromEutranRrcSap (p : LtePdcpRrc) (pkt : DataPacket) : Sap * DataPacket :=
  (TM_SAP,
   pkt <| control_info := Some {| fi_sourceId := nodeId_ p; fi_destId := 0; fi_direction := DL;
     fi_d2dTxPeerId := 0; fi_d2dRxPeerId := 0; fi_application := VOIP; fi_traffic := CONVERSATIONAL;
     fi_rlcType := TM; fi_lcid := 1000; fi_multicastGroupId := -1; fi_srcAddr := 0; fi_dstAddr := 0;
     fi_srcPort := 0; fi_dstPort := 0; fi_sequenceNumber := 0; fi_headerSize := 0 |} |>).

(** ** The way up *)

(** [handleControlInfo]: the relays keep the information with the packet. *)
Definition handleControlInfo (p : LtePdcpRrc) (pkt : DataPacket) (info : FlowControlInfo) : DataPacket :=
  match pdcp_class p with
  | LtePdcpRrcRelayEnb | LtePdcpRrcRelayUe _ => pkt <| control_info := Some info |>
  | _ => pkt
  end.

Definition toDataPort (p : LtePdcpRrc) (pkt : DataPacket) : result (Sap * DataPacket) :=
  let! l := remove_pdcp (pkt_chunks pkt) in
  let! info := getFlowTag pkt in
  let! l := headerDecompress p l in
  let pkt := handleControlInfo p (pkt <| pkt_chunks := l |> <| flow_tag := None |>) info in
  Ok (DATA_PORT, pkt <| protocol_tag := Some IPV4 |>).
