(* ===== verification/PdcpProps.v ===== *)
(** * The PDCP/RRC layer: properties

    Header compression is undone by the peer and has the configured size; every
    connection has an identifier of its own and its packets are numbered
    consecutively, for as many connections as the table holds; with one more, the
    layer hangs. *)

From S2P Require Import Prelude.
From S2P Require Import LteCommon.
From S2P Require Import LteBinder.
From S2P Require Import ConnectionsTable.
From S2P Require Import Pdcp.
#[local] Open Scope Z_scope.

(** ** Header compression *)

Definition bytes (l : list Chunk) : Z := foldr Z.add 0 (map chunk_length l).

Lemma bytes_cons c l : bytes (c :: l) = chunk_length c + bytes l.
Proof. done. Qed.

(** An IPv4 datagram as the stack builds it: the header chunks are as long as the
    headers say. *)
Inductive ip_datagram : list Chunk -> Prop :=
| dg_tcp hl thl payload : ip_datagram (ChIpv4 IP_PROT_TCP hl hl :: ChTcp thl thl :: payload)
| dg_udp hl payload : ip_datagram (ChIpv4 IP_PROT_UDP hl hl :: ChUdp UDP_HEADER_LENGTH :: payload)
| dg_other proto hl payload : proto <> IP_PROT_TCP -> proto <> IP_PROT_UDP ->
    ip_datagram (ChIpv4 proto hl hl :: payload).

(** What the compressed size replaces: the IP header, and a TCP or UDP header. *)
Definition header_bytes (l : list Chunk) : Z :=
  match l with
  | ChIpv4 proto _ n :: rest =>
      if (proto =? IP_PROT_TCP) || (proto =? IP_PROT_UDP) then n + from_option chunk_length 0 (head rest) else n
  | _ => 0
  end.

Lemma compress_datagram p l :
  ip_datagram l -> exists l', headerCompress p l = Ok l' /\
    forall q, isCompressionEnabled q = isCompressionEnabled p -> headerDecompress q l' = Ok l.
Proof.
  intros Hl. unfold headerCompress, headerDecompress.
  destruct (isCompressionEnabled p); [|exists l; split; [done|]; by intros q ->].
  destruct Hl as [hl thl pl|hl pl|proto hl pl Ht Hu]; cbn.
  - eexists. split; [done|]. by intros q ->.
  - eexists. split; [done|]. by intros q ->.
  - rewrite (proj2 (Z.eqb_neq _ _) Ht), (proj2 (Z.eqb_neq _ _) Hu). eexists. split; [done|].
    intros q ->. cbn. by rewrite (proj2 (Z.eqb_neq _ _) Ht), (proj2 (Z.eqb_neq _ _) Hu).
Qed.

Lemma compress_size p l l' :
  ip_datagram l -> isCompressionEnabled p = true -> headerCompress p l = Ok l' ->
  bytes l' = headerCompressedSize_ p + (bytes l - header_bytes l).
Proof.
  intros Hl He. unfold headerCompress. rewrite He.
  destruct Hl as [hl thl pl|hl pl|proto hl pl Ht Hu].
  - intros [= <-]. unfold bytes, header_bytes. cbn -[Z.add Z.sub]. lia.
  - intros [= <-]. unfold bytes, header_bytes. cbn -[Z.add Z.sub]. lia.
  - unfold header_bytes. cbn.
    rewrite (proj2 (Z.eqb_neq _ _) Ht), (proj2 (Z.eqb_neq _ _) Hu). cbn. intros [= <-].
    unfold bytes. cbn -[Z.add Z.sub]. lia.
Qed.

(** ** Identifiers and sequence numbers *)

Definition times (k : Conn) (past : list Conn) : Z := count (fun k' => bool_decide (k' = k)) past.

Lemma times_snoc k k' past : times k (past ++ [k']) = times k past + Z.b2z (bool_decide (k' = k)).
Proof. unfold times, count. induction past as [|x past IH]; cbn [foldr app]; [cbn; lia|]. rewrite IH. lia. Qed.

(** The members that sending leaves alone. *)
Definition config (p : LtePdcpRrc) :=
  (pdcp_class p, headerCompressedSize_ p,
   (conversationalRlc p, streamingRlc p, interactiveRlc p, backgroundRlc p), nodeId_ p).

Section Numbering.
Context {M : ConnMap} {L : ConnMapLaws M}.
Implicit Types (p : LtePdcpRrc) (k : Conn) (past : list Conn) (m : gmap Conn Z).

(** The connections seen so far have the identifiers [m], counted from 1, and an entity
    that has counted their packets. *)
Record numbered p past m : Prop := {
  nb_rep : cm_rep (ht_ p) m;
  nb_dom k : is_Some (m !! k) <-> k ∈ past;
  nb_next : nextLcid_ p = Z.of_nat (size m) + 1;
  nb_range k l : m !! k = Some l -> 1 <= l <= Z.of_nat (size m);
  nb_inj k k' l : m !! k = Some l -> m !! k' = Some l -> k = k';
  nb_sno k l : m !! k = Some l -> entities_ p !! l = Some (uint32 (times k past));
  nb_new l : Z.of_nat (size m) < l -> entities_ p !! l = None
}.

Lemma nextSequenceNumber_config p l : config (nextSequenceNumber p l).2 = config p.
Proof. done. Qed.

Lemma uint32_incr z : uint32 (uint32 z + 1) = uint32 (z + 1).
Proof. unfold wrap. by rewrite Zplus_mod_idemp_l. Qed.

(** A packet of a known connection. *)
Lemma old_connection p past m k l :
  numbered p past m -> m !! k = Some l -> Z.of_nat (size m) <= TABLE_SIZE ->
  request_cid M p k = Ok (l, p) /\ (nextSequenceNumber p l).1 = uint32 (times k past) /\
  numbered (nextSequenceNumber p l).2 (past ++ [k]) m.
Proof.
  intros Hn Hk Hs. pose proof (nb_range _ _ _ Hn k l Hk) as Hl.
  assert (Hin : k ∈ past) by (apply (nb_dom _ _ _ Hn); eauto).
  split; [|split].
  - unfold request_cid. rewrite (cm_find_present _ _ _ _ (nb_rep _ _ _ Hn) Hk). cbn [rbind].
    by rewrite (proj2 (Z.eqb_neq l NO_LCID)) by (unfold NO_LCID, TABLE_SIZE in *; lia).
  - unfold nextSequenceNumber, getEntity. by rewrite (nb_sno _ _ _ Hn k l Hk).
  - split; try apply Hn.
    + intros k'. rewrite (nb_dom _ _ _ Hn k'), elem_of_app, list_elem_of_singleton. naive_solver.
    + intros k' l' Hk'. cbn. rewrite times_snoc. destruct (decide (k = k')) as [->|Hne].
      * assert (l' = l) as -> by congruence. unfold getEntity. rewrite lookup_insert_eq, (nb_sno _ _ _ Hn k' l Hk).
        cbn. by rewrite uint32_incr, bool_decide_eq_true_2.
      * rewrite lookup_insert_ne, bool_decide_eq_false_2, Z.add_0_r by
          (done || intros ->; by apply Hne, (nb_inj _ _ _ Hn k k' l')).
        by apply (nb_sno _ _ _ Hn).
    + intros l' Hl'. cbn. rewrite lookup_insert_ne by lia. by apply (nb_new _ _ _ Hn).
Qed.

(** The first packet of a connection. *)
Lemma new_connection p past m k :
  numbered p past m -> cm_dom k -> m !! k = None -> Z.of_nat (size m) < TABLE_SIZE ->
  exists p1, request_cid M p k = Ok (Z.of_nat (size m) + 1, p1) /\ config p1 = config p /\
    (nextSequenceNumber p1 (Z.of_nat (size m) + 1)).1 = 0 /\
    numbered (nextSequenceNumber p1 (Z.of_nat (size m) + 1)).2 (past ++ [k])
      (<[k := Z.of_nat (size m) + 1]> m).
Proof.
  intros Hn Hd Hk Hs. set (l := Z.of_nat (size m) + 1).
  assert (Hl : l <> NO_LCID) by (unfold l, NO_LCID, TABLE_SIZE in *; lia).
  assert (Hnot : k ∉ past) by (intros Hin; apply (nb_dom _ _ _ Hn) in Hin as [x Hx]; congruence).
  destruct (cm_create_new _ _ k l (nb_rep _ _ _ Hn) Hd Hk Hl Hs) as (ht' & Hc & Hr).
  exists (p <| nextLcid_ := uint16 (l + 1) |> <| ht_ := ht' |>).
  assert (Ent : entities_ p !! l = None) by (apply (nb_new _ _ _ Hn); lia).
  split; [|split; [done|split]].
  - unfold request_cid. rewrite (cm_find_absent _ _ _ (nb_rep _ _ _ Hn) Hd Hk Hs). cbn [rbind].
    rewrite Z.eqb_refl, (nb_next _ _ _ Hn). fold l. by rewrite Hc.
  - unfold nextSequenceNumber, getEntity. cbn. by rewrite Ent.
  - assert (Esz : size (<[k := l]> m) = S (size m)) by (by apply map_size_insert_None).
    assert (Hlt : forall k' l', m !! k' = Some l' -> l' < l).
    { intros k' l' Hk'. pose proof (nb_range _ _ _ Hn k' l' Hk'). lia. }
    split; cbn.
    + exact Hr.
    + intros k'. rewrite lookup_insert_is_Some', (nb_dom _ _ _ Hn k'), elem_of_app, list_elem_of_singleton.
      naive_solver.
    + rewrite Esz, wrap_small; [lia|]. unfold is_uint, TABLE_SIZE in *. lia.
    + rewrite Esz. intros k' l' [[<- <-]|[_ Hk']]%lookup_insert_Some; [lia|].
      pose proof (nb_range _ _ _ Hn k' l' Hk'). lia.
    + intros k1 k2 l' [[<- <-]|[_ H1]]%lookup_insert_Some [[<- E]|[_ H2]]%lookup_insert_Some;
        [done|apply Hlt in H2; lia|apply Hlt in H1; lia|by eapply (nb_inj _ _ _ Hn)].
    + unfold getEntity. cbn. rewrite Ent. intros k' l'.
      intros [[<- <-]|[Hne Hk']]%lookup_insert_Some; rewrite times_snoc.
      * rewrite lookup_insert_eq, bool_decide_eq_true_2 by done. do 2 f_equal.
        assert (times k past = 0) as ->; [|done]. apply count_0. intros i x Hx.
        apply bool_decide_eq_false_2. intros ->. by apply Hnot, list_elem_of_lookup; exists i.
      * rewrite lookup_insert_ne, bool_decide_eq_false_2, Z.add_0_r by
          (done || (apply Hlt in Hk'; lia)). by apply (nb_sno _ _ _ Hn).
    + rewrite Esz. intros l' Hl'. rewrite lookup_insert_ne by lia. apply (nb_new _ _ _ Hn). lia.
Qed.

(** Either way the packet gets the identifier of its connection and the number of
    packets before it. *)
Lemma number_packet p past m k :
  numbered p past m -> cm_dom k -> k ∈ past /\ Z.of_nat (size m) <= TABLE_SIZE \/ Z.of_nat (size m) < TABLE_SIZE ->
  exists p1 l m', request_cid M p k = Ok (l, p1) /\ config p1 = config p /\
    (nextSequenceNumber p1 l).1 = uint32 (times k past) /\
    numbered (nextSequenceNumber p1 l).2 (past ++ [k]) m' /\ m ⊆ m' /\ m' !! k = Some l.
Proof.
  intros Hn Hd Hs. destruct (m !! k) as [l|] eqn:Ek.
  - destruct (old_connection p past m k l Hn Ek) as (H1 & H2 & H3); [lia|].
    exists p, l, m. by repeat (split; [done|]).
  - assert (Hnot : k ∉ past) by (intros Hin; apply (nb_dom _ _ _ Hn) in Hin as [x Hx]; congruence).
    destruct (new_connection p past m k Hn Hd Ek) as (p1 & H1 & H2 & H3 & H4); [tauto|].
    exists p1, (Z.of_nat (size m) + 1), (<[k := Z.of_nat (size m) + 1]> m).
    split; [done|]. split; [done|]. split; [|split; [done|split; [by apply insert_subseteq|apply lookup_insert_eq]]].
    rewrite H3. assert (times k past = 0) as ->; [|done]. apply count_0. intros i x Hx.
    apply bool_decide_eq_false_2. intros ->. by apply Hnot, list_elem_of_lookup; exists i.
Qed.

Lemma new_numbered p :
  ht_ p = new_ConnectionsTable -> nextLcid_ p = 1 -> entities_ p = ∅ -> numbered p [] ∅.
Proof.
  intros Eh El Ee. split.
  - rewrite Eh. apply cm_new.
  - intros k. rewrite lookup_empty. split; [by intros []|by intros ?%not_elem_of_nil].
  - by rewrite El, map_size_empty.
  - by intros k l.
  - by intros k k' l.
  - by intros k l.
  - intros l _. by rewrite Ee.
Qed.
End Numbering.
Arguments numbered M {L} p past m.

(** ** Sending *)

(** The connection a packet belongs to, for the classes that do not change the binder. *)
Definition conn_map (p : LtePdcpRrc) : ConnMap :=
  match pdcp_class p with LtePdcpRrcEnbD2D => by_direction | _ => by_flow end.
Definition conn_key (p : LtePdcpRrc) (info : FlowControlInfo) : Conn :=
  match pdcp_class p with
  | LtePdcpRrcEnbD2D => dir_key (info <| fi_direction := DL |>)
  | _ => flow_key info
  end.

#[export] Instance conn_map_laws p : ConnMapLaws (conn_map p).
Proof. unfold conn_map. destruct (pdcp_class p); apply _. Defined.

Lemma conn_key_dom p info : cm_dom (ConnMapLaws := conn_map_laws p) (conn_key p info).
Proof. unfold conn_map_laws, conn_map, conn_key. by destruct (pdcp_class p). Qed.

(** The parameters name one of the three RLC modes. *)
Definition rlc_params (p : LtePdcpRrc) : Prop :=
  0 <= conversationalRlc p <= 2 /\ 0 <= streamingRlc p <= 2 /\ 0 <= interactiveRlc p <= 2 /\
  0 <= backgroundRlc p <= 2.

(** A packet the layer can send: a datagram with its tag, to a destination the binder
    can resolve. *)
Record sendable (b : LteBinder) (p : LtePdcpRrc) (pkt : DataPacket) (info : FlowControlInfo) : Prop := {
  sd_tag : flow_tag pkt = Some info;
  sd_datagram : ip_datagram (pkt_chunks pkt);
  sd_dest info' : fi_dstAddr info' = fi_dstAddr info -> exists d, getDestId b p info' = Ok d
}.

Lemma rlc_sap_valid t : 0 <= t <= 2 -> exists n gate, rlc_sap t = Ok (n, gate) /\ 1 <= n <= 2.
Proof.
  intros Ht. unfold rlc_sap, UM, AM, TM.
  destruct (Z.eqb_spec t 1) as [->|]; [exists 1, UM_SAP; split; [done|lia]|].
  destruct (Z.eqb_spec t 2) as [->|]; [exists 2, AM_SAP; split; [done|lia]|].
  destruct (Z.eqb_spec t 0) as [->|]; [exists 1, TM_SAP; split; [done|lia]|]. lia.
Qed.

Lemma setTraffic_spec p name info :
  rlc_params p ->
  let i := setTrafficInformation p name info in
  0 <= fi_rlcType i <= 2 /\ fi_direction i = getDirection p /\ flow_key i = flow_key info /\
  fi_srcAddr i = fi_srcAddr info /\ fi_dstAddr i = fi_dstAddr info /\ fi_srcPort i = fi_srcPort info /\
  fi_dstPort i = fi_dstPort info /\
  fi_rlcType i ∈ [conversationalRlc p; streamingRlc p; interactiveRlc p; backgroundRlc p].
Proof.
  intros (H1 & H2 & H3 & H4). unfold setTrafficInformation.
  destruct (String.eqb name "VoIP"); [|destruct (String.eqb name "gaming"); [|destruct (_ || _)]];
    cbn; rewrite wrap_small by (unfold is_uint; lia); (split; [lia|]); repeat (split; [done|]);
    rewrite !elem_of_cons; auto.
Qed.

(** What a packet of the connection [k] carries when it leaves. *)
Record leaves (b : LteBinder) (p : LtePdcpRrc) (pkt : DataPacket) (k : Conn) (lcid sno : Z)
    (out : Sap * DataPacket) (info : FlowControlInfo) : Prop := {
  lv_tag : flow_tag (out.2) = Some info;
  lv_lcid : fi_lcid info = lcid;
  lv_sno : fi_sequenceNumber info = sno;
  lv_source : fi_sourceId info = nodeId_ p;
  lv_dest : getDestId b p info = Ok (fi_destId info);
  lv_key : conn_key p info = k;
  lv_direction : fi_direction info = getDirection p;
  lv_gate : exists n, rlc_sap (fi_rlcType info) = Ok (n, out.1);
  lv_rlc : fi_rlcType info ∈ [conversationalRlc p; streamingRlc p; interactiveRlc p; backgroundRlc p];
  lv_chunks : exists l n, pkt_chunks (out.2) = ChPdcp n :: l /\ 1 <= n <= 2 /\
                headerCompress p (pkt_chunks pkt) = Ok l
}.

(** The destination depends on the address only, the connection on addresses and ports. *)
Lemma getDestId_addr b p i i' : fi_dstAddr i = fi_dstAddr i' -> getDestId b p i = getDestId b p i'.
Proof. intros E. unfold getDestId. by rewrite E. Qed.

Lemma conn_key_flow p i i' : flow_key i = flow_key i' -> conn_key p i = conn_key p i'.
Proof.
  unfold conn_key, flow_key, dir_key. intros E. injection E as E1 E2 E3 E4. destruct (pdcp_class p); cbn; congruence.
Qed.

Lemma config_class p p' : config p' = config p -> pdcp_class p' = pdcp_class p.
Proof. by intros [= -> _ _ _]. Qed.

Lemma config_node p p' : config p' = config p -> nodeId_ p' = nodeId_ p.
Proof. by intros [= _ _ _ _ _ _ ->]. Qed.

Lemma config_dest b p p' info : config p' = config p -> getDestId b p' info = getDestId b p info.
Proof.
  intros Hc. unfold getDestId, getDirectionTo. by rewrite (config_class p p' Hc), (config_node p p' Hc).
Qed.

Lemma pdcp_send_spec pkt l info :
  0 <= fi_rlcType info <= 2 ->
  exists gate n, pdcp_send pkt l info =
      Ok (gate, pkt <| pkt_chunks := ChPdcp n :: l |> <| flow_tag := Some info |> <| protocol_tag := Some PDCP |>) /\
    1 <= n <= 2 /\ rlc_sap (fi_rlcType info) = Ok (n, gate).
Proof.
  intros Ht. unfold pdcp_send. destruct (rlc_sap_valid _ Ht) as (n & gate & E & Hn). rewrite E. by exists gate, n.
Qed.

(** One packet, given its connection identifier. *)
Lemma fromDataPort_spec macModule b p pkt info lcid p1 :
  pdcp_class p <> LtePdcpRrcUeD2D -> rlc_params p -> sendable b p pkt info ->
  request_cid (conn_map p) p (conn_key p info) = Ok (lcid, p1) -> config p1 = config p ->
  exists out tag, fromDataPort macModule b p pkt = Ok (b, (nextSequenceNumber p1 lcid).2, out) /\
    leaves b p pkt (conn_key p info) lcid (nextSequenceNumber p1 lcid).1 out tag.
Proof.
  intros Hcl Hrlc [Htag Hdg Hdest] Hcid Hcfg.
  destruct (setTraffic_spec p (pkt_name pkt) info Hrlc) as (Hrt & Hdir & Hkey & Hsa & Hda & Hsp & Hdp & Hin).
  remember (setTrafficInformation p (pkt_name pkt) info) as i eqn:Ei.
  destruct (compress_datagram p _ Hdg) as (l & Hl & _).
  set (sno := (nextSequenceNumber p1 lcid).1).
  assert (Hbase : pdcp_class p <> LtePdcpRrcEnbD2D ->
    exists out tag, fromDataPort_base b p pkt = Ok ((nextSequenceNumber p1 lcid).2, out) /\
      leaves b p pkt (conn_key p info) lcid sno out tag).
  { intros Hne. unfold fromDataPort_base, getFlowTag. rewrite Htag. cbn [rbind]. rewrite <- Ei.
    destruct (Hdest i Hda) as [d ->]. cbn [rbind]. rewrite Hl. cbn [rbind].
    assert (Ek : flow_key (i <| fi_destId := d |>) = conn_key p info).
    { unfold conn_key. destruct (pdcp_class p); try done; exact Hkey. }
    rewrite Ek. assert (by_flow = conn_map p) as -> by (unfold conn_map; by destruct (pdcp_class p)).
    rewrite Hcid. cbn [rbind]. unfold nextSequenceNumber at 1. cbn iota zeta.
    set (i2 := i <| fi_destId := d |> <| fi_sequenceNumber := _ |> <| fi_lcid := lcid |> <| fi_sourceId := _ |>).
    change (p1 <| entities_ := _ |>) with (nextSequenceNumber p1 lcid).2 in *.
    rewrite (config_dest b p (nextSequenceNumber p1 lcid).2) by exact Hcfg.
    destruct (Hdest i2 Hda) as [d2 Hd2]. rewrite Hd2. cbn [rbind].
    match goal with |- context [pdcp_send pkt l ?x] =>
      destruct (pdcp_send_spec pkt l x Hrt) as (gate & n & -> & Hn & Hg) end. cbn [rbind].
    eexists _, (i2 <| fi_destId := d2 |>). split; [done|].
    split; try done; [exact (config_node p p1 Hcfg)|by apply conn_key_flow| |by exists l, n].
    by exists n. }
  unfold fromDataPort. destruct (pdcp_class p) eqn:Ecl; try done;
    try (destruct Hbase as (out & tag & -> & Ho); [done|]; by exists out, tag).
  unfold fromDataPort_EnbD2D, getFlowTag. rewrite Htag. cbn [rbind]. rewrite <- Ei. rewrite Hl. cbn [rbind].
  set (srcId := getMacNodeId b (fi_srcAddr i)). set (destId := getMacNodeId b (fi_dstAddr i)).
  match goal with |- context [if ?c then ?x else ?y] => set (i1 := if c then x else y) end.
  assert (H1 : fi_rlcType i1 = fi_rlcType i /\ fi_direction i1 = getDirection p /\
               fi_dstAddr i1 = fi_dstAddr i /\ dir_key i1 = conn_key p info).
  { assert (Hd : getDirection p = DL) by (unfold getDirection; by rewrite Ecl).
    unfold i1, conn_key, dir_key. rewrite Ecl, Hd. destruct (_ && _); cbn;
      (split; [done|]; split; [done|]; split; [done|]); cbn; by rewrite Hsa, Hda, Hsp, Hdp. }
  destruct H1 as (Hr1 & Hd1 & Ha1 & Ek). rewrite Ek.
  assert (by_direction = conn_map p) as -> by (unfold conn_map; by rewrite Ecl).
  rewrite Hcid. cbn [rbind]. unfold nextSequenceNumber at 1. cbn iota zeta.
  set (i2 := i1 <| fi_sequenceNumber := _ |> <| fi_lcid := lcid |> <| fi_sourceId := _ |>).
  change (p1 <| entities_ := _ |>) with (nextSequenceNumber p1 lcid).2 in *.
  rewrite (config_dest b p (nextSequenceNumber p1 lcid).2) by exact Hcfg.
  destruct (Hdest i2) as [d2 Hd2]; [cbn; congruence|]. rewrite Hd2. cbn [rbind].
  match goal with |- context [pdcp_send pkt l ?x] =>
    destruct (pdcp_send_spec pkt l x) as (gate & n & -> & Hn & Hg); [cbn; lia|] end. cbn [rbind].
  eexists _, (i2 <| fi_destId := d2 |>). split; [done|].
  split; try done; [exact (config_node p p1 Hcfg)| |by exists n|cbn; by rewrite Hr1|by exists l, n].
  apply conn_key_flow. transitivity (flow_key i1); [done|]. unfold i1. destruct (_ && _); exact Hkey.
Qed.

(** Whatever it does, a packet that leaves has been compressed and tagged. *)
Lemma pdcp_send_inv pkt l info g out :
  pdcp_send pkt l info = Ok (g, out) ->
  exists n, rlc_sap (fi_rlcType info) = Ok (n, g) /\ pkt_chunks out = ChPdcp n :: l /\
    flow_tag out = Some info /\ 1 <= n.
Proof.
  unfold pdcp_send. destruct (rlc_sap (fi_rlcType info)) as [[n g']| |] eqn:E; [|done..].
  intros [= <- <-]. exists n. split; [done|]. split; [done|]. split; [done|].
  unfold rlc_sap, PDCP_HEADER_UM, PDCP_HEADER_AM in E.
  repeat (destruct (_ =? _) in E; [injection E as <- _; lia|]). done.
Qed.

(** The packet [out] is [pkt], compressed and tagged, on the gate of its RLC type. *)
Definition sent (p : LtePdcpRrc) (pkt : DataPacket) (g : Sap) (out : DataPacket) : Prop :=
  exists info l n, headerCompress p (pkt_chunks pkt) = Ok l /\ pkt_chunks out = ChPdcp n :: l /\
    flow_tag out = Some info /\ rlc_sap (fi_rlcType info) = Ok (n, g) /\ 1 <= n.

Lemma sent_intro p pkt l info g out :
  headerCompress p (pkt_chunks pkt) = Ok l -> pdcp_send pkt l info = Ok (g, out) -> sent p pkt g out.
Proof.
  intros Hl Hs. destruct (pdcp_send_inv _ _ _ _ _ Hs) as (n & H1 & H2 & H3 & H4). by exists info, l, n.
Qed.

Lemma base_sent b p pkt p' g out : fromDataPort_base b p pkt = Ok (p', (g, out)) -> sent p pkt g out.
Proof.
  unfold fromDataPort_base. intros (info & _ & H)%rbind_Ok_inv. cbn zeta in H.
  apply rbind_Ok_inv in H as (d & _ & H). apply rbind_Ok_inv in H as (l & Hl & H).
  apply rbind_Ok_inv in H as ([cid p1] & _ & H). unfold nextSequenceNumber in H. cbn iota zeta in H.
  apply rbind_Ok_inv in H as (d2 & _ & H). apply rbind_Ok_inv in H as (o & Ho & [= _ ->]).
  by eapply sent_intro.
Qed.

Lemma EnbD2D_sent b p pkt p' g out : fromDataPort_EnbD2D b p pkt = Ok (p', (g, out)) -> sent p pkt g out.
Proof.
  unfold fromDataPort_EnbD2D. intros (info & _ & H)%rbind_Ok_inv. cbn zeta in H.
  apply rbind_Ok_inv in H as (l & Hl & H).
  apply rbind_Ok_inv in H as ([cid p1] & _ & H). unfold nextSequenceNumber in H. cbn iota zeta in H.
  apply rbind_Ok_inv in H as (d2 & _ & H). apply rbind_Ok_inv in H as (o & Ho & [= _ ->]).
  by eapply sent_intro.
Qed.

Lemma UeD2D_sent macModule b p pkt b' p' g out :
  fromDataPort_UeD2D macModule b p pkt = Ok (b', p', (g, out)) -> sent p pkt g out.
Proof.
  unfold fromDataPort_UeD2D. intros (info & _ & H)%rbind_Ok_inv. cbn zeta in H.
  apply rbind_Ok_inv in H as (l & Hl & H). apply rbind_Ok_inv in H as ([b1 i1] & _ & H).
  apply rbind_Ok_inv in H as ([cid p1] & _ & H). unfold nextSequenceNumber in H. cbn iota zeta in H.
  apply rbind_Ok_inv in H as (o & Ho & [= _ _ ->]). by eapply sent_intro.
Qed.

Lemma fromDataPort_sent macModule b p pkt b' p' g out :
  fromDataPort macModule b p pkt = Ok (b', p', (g, out)) -> sent p pkt g out.
Proof.
  unfold fromDataPort. intros H. destruct (pdcp_class p); try (by eapply UeD2D_sent);
    apply rbind_Ok_inv in H as ([p1 out1] & H & [= _ _ ->]); first [by eapply base_sent|by eapply EnbD2D_sent].
Qed.

(** ** The properties *)

(** C27. Over the air and back: what any class of the layer makes of an IP datagram, a
    peer with the same compression setting turns into the same datagram, without the
    control tag.  Compressed, the packet is its payload, the configured header size and
    the PDCP header of one or two bytes. *)
Theorem pdcp_roundtrip macModule b p pkt b' p' g out q :
  ip_datagram (pkt_chunks pkt) -> fromDataPort macModule b p pkt = Ok (b', p', (g, out)) ->
  isCompressionEnabled q = isCompressionEnabled p ->
  exists up, toDataPort q out = Ok (DATA_PORT, up) /\ pkt_chunks up = pkt_chunks pkt /\
    flow_tag up = None /\ protocol_tag up = Some IPV4 /\
    exists n, 1 <= n <= 2 /\
      packet_bytes out = n + (if isCompressionEnabled p
                              then headerCompressedSize_ p + (packet_bytes pkt - header_bytes (pkt_chunks pkt))
                              else packet_bytes pkt).
Proof.
  intros Hdg Hrun Hq. destruct (fromDataPort_sent _ _ _ _ _ _ _ _ Hrun) as (info & l & n & Hl & Hc & Ht & Hg & Hn).
  destruct (compress_datagram p _ Hdg) as (l' & Hl' & Hback). rewrite Hl in Hl'. injection Hl' as <-.
  unfold toDataPort. rewrite Hc. cbn [remove_pdcp rbind]. unfold getFlowTag. rewrite Ht. cbn [rbind].
  rewrite (Hback q Hq). cbn [rbind]. eexists. split; [done|].
  split; [unfold handleControlInfo; by destruct (pdcp_class q)|].
  split; [unfold handleControlInfo; by destruct (pdcp_class q)|]. split; [done|].
  exists n. split.
  - unfold rlc_sap, PDCP_HEADER_UM, PDCP_HEADER_AM in Hg.
    repeat (destruct (_ =? _) in Hg; [injection Hg as <- _; lia|]). done.
  - unfold packet_bytes. rewrite Hc. cbn [map foldr chunk_length]. f_equal. fold (bytes l).
    destruct (isCompressionEnabled p) eqn:E; [exact (compress_size p _ l Hdg E Hl)|].
    unfold headerCompress in Hl. rewrite E in Hl. by injection Hl as <-.
Qed.

Section Run.
Context (macModule : Z -> result (option LteMacRef)).

Fixpoint run_down (b : LteBinder) (p : LtePdcpRrc) (pkts : list DataPacket)
    : result (LteBinder * LtePdcpRrc * list (Sap * DataPacket)) :=
  match pkts with
  | [] => Ok (b, p, [])
  | pkt :: pkts' =>
      let! (b, p, out) := fromDataPort macModule b p pkt in
      let! (b, p, outs) := run_down b p pkts' in
      Ok (b, p, out :: outs)
  end.

(** The connection of a packet. *)
Definition pkt_key (p : LtePdcpRrc) (pkt : DataPacket) : option Conn := conn_key p <$> flow_tag pkt.

Definition distinct (keys : list Conn) : nat := size (list_to_set keys : gset Conn).

Lemma numbered_size {M : ConnMap} {L : ConnMapLaws M} p past m : numbered M p past m -> size m = distinct past.
Proof.
  intros Hn. unfold distinct. rewrite <- size_dom. f_equal. apply set_eq. intros k.
  by rewrite elem_of_dom, (nb_dom _ _ _ Hn), elem_of_list_to_set.
Qed.

Lemma distinct_mono past past' :
  past `sublist_of` past' -> (distinct past <= distinct past')%nat.
Proof.
  intros Hs. unfold distinct. apply subseteq_size. intros x. rewrite !elem_of_list_to_set. intros Hx. by eapply elem_of_sublist.
Qed.

Lemma distinct_snoc past k : k ∉ past -> distinct (past ++ [k]) = S (distinct past).
Proof.
  intros Hk. unfold distinct. rewrite list_to_set_app_L, list_to_set_singleton, size_union, size_singleton; [lia|].
  rewrite disjoint_singleton_r, elem_of_list_to_set. done.
Qed.

Lemma sendable_config b p p' pkt info : config p' = config p -> sendable b p pkt info -> sendable b p' pkt info.
Proof.
  intros Hc [H1 H2 H3]. split; [done|done|]. intros i Hi. rewrite (config_dest b p p' i Hc). by apply H3.
Qed.

Lemma config_rlc p p' : config p' = config p -> rlc_params p -> rlc_params p'.
Proof. unfold rlc_params. by intros [= _ _ -> -> -> -> _]. Qed.

Lemma config_key p p' info : config p' = config p -> conn_key p' info = conn_key p info.
Proof. intros Hc. unfold conn_key. by rewrite (config_class p p' Hc). Qed.

Lemma config_map p p' : config p' = config p -> conn_map p' = conn_map p.
Proof. intros Hc. unfold conn_map. by rewrite (config_class p p' Hc). Qed.

Lemma config_leaves b p p' pkt k lcid sno out tag :
  config p' = config p -> leaves b p' pkt k lcid sno out tag -> leaves b p pkt k lcid sno out tag.
Proof.
  intros Hc [H1 H2 H3 H4 H5 H6 H7 H8 H9 H10]. pose proof Hc as [= E1 E2 E3 E4 E5 E6 E7].
  unfold headerCompress, isCompressionEnabled, getDirection in *.
  rewrite (config_dest b p p' tag Hc) in H5. rewrite (config_key p p' tag Hc) in H6.
  rewrite E1 in H7. rewrite E3, E4, E5, E6 in H9. rewrite E2 in H10. rewrite E7 in H4. by split.
Qed.

(** The run from any state whose connections are numbered. *)
Lemma run_down_spec M {L : ConnMapLaws M} b pkts keys p past m :
  conn_map p = M -> (forall info, cm_dom (conn_key p info)) ->
  pdcp_class p <> LtePdcpRrcUeD2D -> rlc_params p -> numbered M p past m ->
  Forall2 (fun pkt k => exists info, sendable b p pkt info /\ conn_key p info = k) pkts keys ->
  Z.of_nat (distinct (past ++ keys)) <= TABLE_SIZE ->
  exists p' outs m', run_down b p pkts = Ok (b, p', outs) /\ config p' = config p /\
    numbered M p' (past ++ keys) m' /\ m ⊆ m' /\ length outs = length pkts /\
    forall i pkt k out, pkts !! i = Some pkt -> keys !! i = Some k -> outs !! i = Some out ->
      exists lcid tag, m' !! k = Some lcid /\ leaves b p pkt k lcid (uint32 (times k (past ++ take i keys))) out tag.
Proof.
  intros HM Hdom Hcl. revert p keys past m HM Hdom Hcl.
  induction pkts as [|pkt pkts IH]; intros p keys past m HM Hdom Hcl Hrlc Hn Hall Hsz.
  { apply Forall2_nil_inv_l in Hall as ->. rewrite app_nil_r in *. exists p, [], m. by repeat (split; [done|]). }
  apply Forall2_cons_inv_l in Hall as (k & keys' & (info & Hsend & Hk) & Hall' & ->).
  assert (Hroom : k ∈ past /\ Z.of_nat (size m) <= TABLE_SIZE \/ Z.of_nat (size m) < TABLE_SIZE).
  { rewrite (numbered_size p past m Hn). destruct (decide (k ∈ past)) as [Hin|Hnot].
    - left. split; [done|]. assert (distinct past <= distinct (past ++ k :: keys'))%nat; [|lia].
      apply distinct_mono. by apply sublist_inserts_r.
    - right. assert (distinct (past ++ [k]) <= distinct (past ++ k :: keys'))%nat.
      { apply distinct_mono. apply sublist_app; [done|]. apply sublist_skip, sublist_nil_l. }
      rewrite distinct_snoc in *; [lia|done]. }
  destruct (number_packet p past m k Hn ltac:(rewrite <- Hk; apply Hdom) Hroom)
    as (p1 & cid & m1 & Hcid & Hc1 & Hsno & Hn1 & Hm1 & Hl).
  rewrite <- HM, <- Hk in Hcid.
  destruct (fromDataPort_spec macModule b p pkt info cid p1 Hcl Hrlc Hsend Hcid Hc1) as (out & tag & Hrun & Hlv).
  set (p2 := (nextSequenceNumber p1 cid).2) in *.
  assert (Hc2 : config p2 = config p) by exact Hc1.
  destruct (IH p2 keys' (past ++ [k]) m1) as (p' & outs & m' & Hr & Hc' & Hn' & Hm' & Hlen & Hout).
  - by rewrite (config_map p p2 Hc2).
  - intros i. rewrite (config_key p p2 i Hc2). apply Hdom.
  - by rewrite (config_class p p2 Hc2).
  - by apply (config_rlc p).
  - done.
  - eapply Forall2_impl; [exact Hall'|]. intros x y (i & Hs & Hy). exists i.
    split; [by apply (sendable_config b p)|by rewrite (config_key p p2 i Hc2)].
  - by rewrite <- app_assoc.
  - exists p', (out :: outs), m'. cbn [run_down]. rewrite Hrun. cbn [rbind]. rewrite Hr. cbn [rbind].
    split; [done|]. split; [congruence|]. rewrite <- app_assoc in Hn'. split; [exact Hn'|].
    split; [by etransitivity|]. split; [by cbn; f_equal|].
    intros [|i] pkt0 k0 out0 Hp Hk0 Ho; cbn in Hp, Hk0, Ho.
    + injection Hp as <-. injection Hk0 as <-. injection Ho as <-. exists cid, tag.
      split; [by eapply lookup_weaken|]. cbn. rewrite app_nil_r. rewrite <- Hsno, <- Hk. exact Hlv.
    + destruct (Hout i pkt0 k0 out0 Hp Hk0 Ho) as (lc & tag0 & Hlc & Hlv0). exists lc, tag0. split; [done|].
      cbn [take]. rewrite <- app_assoc in Hlv0. by apply (config_leaves b p p2).
Qed.
End Run.

(** Without an identifier for its connection a packet does not leave. *)
Lemma fromDataPort_stuck macModule b p pkt info :
  pdcp_class p <> LtePdcpRrcUeD2D -> rlc_params p -> sendable b p pkt info ->
  request_cid (conn_map p) p (conn_key p info) = UB -> fromDataPort macModule b p pkt = UB.
Proof.
  intros Hcl Hrlc [Htag Hdg Hdest] Hcid.
  destruct (setTraffic_spec p (pkt_name pkt) info Hrlc) as (Hrt & Hdir & Hkey & Hsa & Hda & Hsp & Hdp & Hin).
  remember (setTrafficInformation p (pkt_name pkt) info) as i eqn:Ei.
  destruct (compress_datagram p _ Hdg) as (l & Hl & _).
  assert (Hbase : pdcp_class p <> LtePdcpRrcEnbD2D -> fromDataPort_base b p pkt = UB).
  { intros Hne. unfold fromDataPort_base, getFlowTag. rewrite Htag. cbn [rbind]. rewrite <- Ei.
    destruct (Hdest i Hda) as [d ->]. cbn [rbind]. rewrite Hl. cbn [rbind].
    assert (Ek : flow_key (i <| fi_destId := d |>) = conn_key p info).
    { unfold conn_key. destruct (pdcp_class p); try done; exact Hkey. }
    rewrite Ek. assert (by_flow = conn_map p) as -> by (unfold conn_map; by destruct (pdcp_class p)).
    by rewrite Hcid. }
  unfold fromDataPort. destruct (pdcp_class p) eqn:Ecl; try done; try (by rewrite Hbase).
  unfold fromDataPort_EnbD2D, getFlowTag. rewrite Htag. cbn [rbind]. rewrite <- Ei, Hl. cbn [rbind].
  match goal with |- context [dir_key ?x] => assert (E : dir_key x = conn_key p info) end.
  { assert (Hd : getDirection p = DL) by (unfold getDirection; by rewrite Ecl).
    unfold conn_key, dir_key. rewrite Ecl, Hd. destruct (_ && _); cbn; by rewrite Hsa, Hda, Hsp, Hdp. }
  rewrite E. assert (by_direction = conn_map p) as -> by (unfold conn_map; by rewrite Ecl).
  by rewrite Hcid.
Qed.

Section Properties.
Context (macModule : Z -> result (option LteMacRef)) (b : LteBinder).
Context (class : PdcpClass) (size conv stream inter back node : Z) (p : LtePdcpRrc).
Hypothesis Hnew : new_LtePdcpRrc class size conv stream inter back node = Ok p.
Hypothesis Hclass : class <> LtePdcpRrcUeD2D.
Hypothesis Hrlc : rlc_params p.

Lemma new_pdcp_numbered : pdcp_class p = class /\ numbered (conn_map p) p [] ∅.
Proof.
  unfold new_LtePdcpRrc in Hnew. destruct (_ && _); [done|]. injection Hnew as <-.
  split; [done|]. by apply new_numbered.
Qed.

(** C19. Connections and numbers: for packets of at most as many connections as the
    table has entries, every packet is sent; it carries the identifier of its
    connection, which no other connection has, and the number of earlier packets of the
    same connection as its sequence number. *)
Theorem pdcp_numbering (pkts : list DataPacket) (keys : list Conn) :
  Forall2 (fun pkt k => exists info, sendable b p pkt info /\ conn_key p info = k) pkts keys ->
  Z.of_nat (distinct keys) <= TABLE_SIZE ->
  exists p' outs, run_down macModule b p pkts = Ok (b, p', outs) /\ length outs = length pkts /\
    exists lcid_of : Conn -> Z,
      (forall k k', k ∈ keys -> k' ∈ keys -> lcid_of k = lcid_of k' -> k = k') /\
      (forall k, k ∈ keys -> 1 <= lcid_of k <= Z.of_nat (distinct keys)) /\
      forall i pkt k out, pkts !! i = Some pkt -> keys !! i = Some k -> outs !! i = Some out ->
        exists tag, leaves b p pkt k (lcid_of k) (uint32 (times k (take i keys))) out tag.
Proof.
  intros Hall Hsz. destruct new_pdcp_numbered as [Hcl Hn].
  destruct (run_down_spec macModule (conn_map p) b pkts keys p [] ∅) as (p' & outs & m & Hr & _ & Hn' & _ & Hlen & Hout);
    [done|intros; apply conn_key_dom|congruence|done|done|done|done|].
  exists p', outs. split; [done|]. split; [done|]. exists (fun k => default 0 (m !! k)).
  assert (Hin : forall k, k ∈ keys -> exists l, m !! k = Some l) by (intros k Hk; by apply (nb_dom _ _ _ Hn')).
  split; [|split].
  - intros k k' [l Hl]%Hin [l' Hl']%Hin. rewrite Hl, Hl'. cbn. intros ->. by eapply (nb_inj _ _ _ Hn').
  - intros k [l Hl]%Hin. rewrite Hl. cbn. rewrite <- (numbered_size p' keys m Hn').
    by apply (nb_range _ _ _ Hn' k).
  - intros i pkt k out H1 H2 H3. destruct (Hout i pkt k out H1 H2 H3) as (l & tag & -> & Hlv). by exists tag.
Qed.

(** The table hangs when it is full: once as many connections as it has entries are
    known, the first packet of any other connection is never sent; the search of the
    table does not end, as no number of rounds is enough. *)
Theorem pdcp_full_table_hangs (pkts : list DataPacket) (keys : list Conn) pkt info :
  Forall2 (fun pkt k => exists info, sendable b p pkt info /\ conn_key p info = k) pkts keys ->
  Z.of_nat (distinct keys) = TABLE_SIZE -> sendable b p pkt info -> conn_key p info ∉ keys ->
  exists p' outs, run_down macModule b p pkts = Ok (b, p', outs) /\ fromDataPort macModule b p' pkt = UB /\
    forall fuel, cm_search (ConnMap := conn_map p) fuel (ht_ p') (conn_key p info) = UB.
Proof.
  intros Hall Hsz Hsend Hnot. destruct new_pdcp_numbered as [Hcl Hn].
  destruct (run_down_spec macModule (conn_map p) b pkts keys p [] ∅) as (p' & outs & m & Hr & Hc & Hn' & _);
    [done|intros; apply conn_key_dom|congruence|done|done|done|by cbn [app]; rewrite Hsz|].
  exists p', outs. split; [done|].
  assert (Hfull : forall fuel, cm_search (ConnMap := conn_map p) fuel (ht_ p') (conn_key p info) = UB).
  { intros fuel. apply (cm_search_full _ m); [apply (nb_rep _ _ _ Hn')|apply conn_key_dom| |].
    - apply eq_None_not_Some. intros Hs. by apply (nb_dom _ _ _ Hn') in Hs.
    - by rewrite (numbered_size p' keys m Hn'). }
  split; [|exact Hfull].
  apply (fromDataPort_stuck macModule b p' pkt info);
    [rewrite (config_class p p' Hc); congruence|by apply (config_rlc p)|by apply (sendable_config b p)|].
  rewrite (config_map p p' Hc), (config_key p p' info Hc). unfold request_cid.
  by rewrite cm_find_search, Hfull.
Qed.
End Properties.
