(* ===== verification/PdcpDemo.v ===== *)
(** * The PDCP/RRC layer at concrete inputs

    A UE with header compression to 3 bytes whose packets come from UDP ports of its
    own, and the registry that knows its base station. *)

From S2P Require Import Prelude.
From S2P Require Import LteCommon.
From S2P Require Import LteBinder.
From S2P Require Import BinderProps.
From S2P Require Import ConnectionsTable.
From S2P Require Import Pdcp.
From S2P Require Import PdcpProps.
#[local] Open Scope Z_scope.

Definition demo_info (port : Z) : FlowControlInfo :=
  {| fi_sourceId := 0; fi_destId := 0; fi_direction := DL; fi_d2dTxPeerId := 0; fi_d2dRxPeerId := 0;
     fi_application := UNKNOWN_APP; fi_traffic := UNKNOWN_TRAFFIC_TYPE; fi_rlcType := 0; fi_lcid := 0;
     fi_multicastGroupId := -1; fi_srcAddr := 7; fi_dstAddr := 9; fi_srcPort := port; fi_dstPort := 80;
     fi_sequenceNumber := 0; fi_headerSize := 28 |}.

(** 72 bytes of payload behind the IP and UDP headers. *)
Definition udp_packet (port : Z) : DataPacket :=
  {| pkt_name := "report"; pkt_chunks := [ChIpv4 IP_PROT_UDP 20 20; ChUdp 8; ChData 72];
     flow_tag := Some (demo_info port); control_info := None; protocol_tag := Some IPV4 |}.

Definition demo_pdcp : LtePdcpRrc :=
  {| pdcp_class := LtePdcpRrcUe; headerCompressedSize_ := 3; conversationalRlc := UM; streamingRlc := UM;
     interactiveRlc := UM; backgroundRlc := UM; nodeId_ := 1025; nextLcid_ := 1;
     ht_ := new_ConnectionsTable; entities_ := ∅ |}.

Lemma demo_new : new_LtePdcpRrc LtePdcpRrcUe 3 1 1 1 1 1025 = Ok demo_pdcp.
Proof. reflexivity. Qed.

Lemma demo_rlc : rlc_params demo_pdcp.
Proof. unfold rlc_params. cbn. unfold UM. lia. Qed.

Lemma udp_sendable port : sendable demo_binder demo_pdcp (udp_packet port) (demo_info port).
Proof.
  split; [done|apply dg_udp|]. intros info' _. exists 1. reflexivity.
Qed.

Lemma udp_packets ports :
  Forall2 (fun pkt k => exists info, sendable demo_binder demo_pdcp pkt info /\ conn_key demo_pdcp info = k)
    (map udp_packet ports) (map (fun port => flow_key (demo_info port)) ports).
Proof.
  induction ports as [|port ports IH]; [constructor|]. cbn. constructor; [|done].
  exists (demo_info port). split; [apply udp_sendable|done].
Qed.

(** 3 bytes of compressed headers and 1 byte of PDCP instead of 28. *)
Definition demo_sent : option (LteBinder * LtePdcpRrc * (Sap * DataPacket)) :=
  match fromDataPort demo_modules demo_binder demo_pdcp (udp_packet 5) with Ok r => Some r | _ => None end.

Example demo_pdcp_size : (fun r => (r.2.1, packet_bytes r.2.2)) <$> demo_sent = Some (UM_SAP, 76).
Proof. vm_compute. reflexivity. Qed.

Lemma demo_leaves :
  exists p' g out, fromDataPort demo_modules demo_binder demo_pdcp (udp_packet 5) = Ok (demo_binder, p', (g, out)).
Proof.
  pose proof (proj2 (new_pdcp_numbered LtePdcpRrcUe 3 1 1 1 1 1025 demo_pdcp demo_new demo_rlc)) as Hn.
  destruct (number_packet demo_pdcp [] ∅ (conn_key demo_pdcp (demo_info 5)) Hn) as (p1 & l & m' & Hcid & Hc & _);
    [apply conn_key_dom|right; by rewrite map_size_empty|].
  destruct (fromDataPort_spec demo_modules demo_binder demo_pdcp (udp_packet 5) (demo_info 5) l p1) as ([g out] & tag & Hrun & _);
    [discriminate|apply demo_rlc|apply udp_sendable|exact Hcid|exact Hc|]. by eexists _, g, out.
Qed.

Lemma pdcp_roundtrip_witness :
  exists p' g out,
    fromDataPort demo_modules demo_binder demo_pdcp (udp_packet 5) = Ok (demo_binder, p', (g, out)) /\
    exists up, toDataPort demo_pdcp out = Ok (DATA_PORT, up) /\ pkt_chunks up = pkt_chunks (udp_packet 5) /\
      flow_tag up = None /\ protocol_tag up = Some IPV4 /\
      exists n, 1 <= n <= 2 /\
        packet_bytes out = n + (if isCompressionEnabled demo_pdcp
                                then headerCompressedSize_ demo_pdcp + (packet_bytes (udp_packet 5)
                                       - header_bytes (pkt_chunks (udp_packet 5)))
                                else packet_bytes (udp_packet 5)).
Proof.
  destruct demo_leaves as (p' & g & out & Hrun). exists p', g, out. split; [exact Hrun|].
  exact (pdcp_roundtrip demo_modules demo_binder demo_pdcp (udp_packet 5) demo_binder p' g out demo_pdcp
    (dg_udp 20 [ChData 72]) Hrun eq_refl).
Defined.

Lemma pdcp_numbering_witness :
  exists p' outs, run_down demo_modules demo_binder demo_pdcp (map udp_packet [5; 6; 5]) = Ok (demo_binder, p', outs) /\
    length outs = 3%nat /\
    exists lcid_of : Conn -> Z,
      (forall k k', k ∈ map (fun port => flow_key (demo_info port)) [5; 6; 5] ->
         k' ∈ map (fun port => flow_key (demo_info port)) [5; 6; 5] -> lcid_of k = lcid_of k' -> k = k') /\
      (forall k, k ∈ map (fun port => flow_key (demo_info port)) [5; 6; 5] ->
         1 <= lcid_of k <= Z.of_nat (distinct (map (fun port => flow_key (demo_info port)) [5; 6; 5]))) /\
      forall i pkt k out, map udp_packet [5; 6; 5] !! i = Some pkt ->
        map (fun port => flow_key (demo_info port)) [5; 6; 5] !! i = Some k -> outs !! i = Some out ->
        exists tag, leaves demo_binder demo_pdcp pkt k (lcid_of k)
          (uint32 (times k (take i (map (fun port => flow_key (demo_info port)) [5; 6; 5])))) out tag.
Proof.
  apply (pdcp_numbering demo_modules demo_binder LtePdcpRrcUe 3 1 1 1 1 1025 demo_pdcp demo_new
    ltac:(discriminate) demo_rlc); [apply udp_packets|vm_compute; discriminate].
Defined.

(** Ports 0 to 2047 fill the table. *)
Definition all_ports : list Z := seqZ 0 TABLE_SIZE.

Lemma all_ports_distinct : Z.of_nat (distinct (map (fun port => flow_key (demo_info port)) all_ports)) = TABLE_SIZE.
Proof.
  unfold distinct. rewrite size_list_to_set.
  - by rewrite length_map; unfold all_ports; rewrite length_seqZ.
  - apply NoDup_fmap_2; [|apply NoDup_seqZ]. by intros x y [= ->].
Qed.

Lemma pdcp_full_table_hangs_witness :
  exists p' outs,
    run_down demo_modules demo_binder demo_pdcp (map udp_packet all_ports) = Ok (demo_binder, p', outs) /\
    fromDataPort demo_modules demo_binder p' (udp_packet 5000) = UB /\
    forall fuel, cm_search (ConnMap := conn_map demo_pdcp) fuel (ht_ p') (conn_key demo_pdcp (demo_info 5000)) = UB.
Proof.
  refine (pdcp_full_table_hangs demo_modules demo_binder LtePdcpRrcUe 3 1 1 1 1 1025 demo_pdcp demo_new
    ltac:(discriminate) demo_rlc (map udp_packet all_ports) _ (udp_packet 5000) (demo_info 5000)
    (udp_packets all_ports) all_ports_distinct (udp_sendable 5000) _).
  intros (port & E & Hin)%list_elem_of_fmap. injection E as <-. apply elem_of_seqZ in Hin.
  unfold TABLE_SIZE in Hin. lia.
Defined.
