(* ===== verification/MacQueue.v ===== *)
(** * The queues of the MAC layer

    [LteMacBuffer] (virtual buffers of packet sizes and time stamps) and
    [LteMacQueue] (the real packet queue with its size limit and the handling of AM
    fragments), src/simulte/src/stack/mac/buffer/.  Simulation times are raw
    64-bit [simtime_t] values. *)

From S2P Require Import Prelude.

(** ** LteMacBuffer *)

(** [std::pair<unsigned int, simtime_t>]: size in bytes and arrival time. *)
Abbreviation PacketInfo := (Z * Z)%type.

Record LteMacBuffer := {
  processed_ : Z;
  queueOccupancy_ : Z;
  queueLength_ : Z;
  Queue_ : list PacketInfo
}.

#[export] Instance macbuffer_eta : Eta LteMacBuffer := fun b =>
  {| processed_ := processed_ b; queueOccupancy_ := queueOccupancy_ b;
     queueLength_ := queueLength_ b; Queue_ := Queue_ b |}.

Definition new_LteMacBuffer : LteMacBuffer :=
  {| processed_ := 0; queueOccupancy_ := 0; queueLength_ := 0; Queue_ := [] |}.

(** The copy leaves [processed_] of the target alone. *)
Definition buffer_assign (b queue : LteMacBuffer) : LteMacBuffer :=
  b <| queueOccupancy_ := queueOccupancy_ queue |> <| queueLength_ := queueLength_ queue |>
    <| Queue_ := Queue_ queue |>.

Definition buffer_pushBack (b : LteMacBuffer) (pkt : PacketInfo) : result LteMacBuffer :=
  let! n := incr (queueLength_ b) in
  Ok (b <| queueLength_ := n |> <| queueOccupancy_ := uint32 (queueOccupancy_ b + pkt.1) |>
        <| Queue_ := Queue_ b ++ [pkt] |>).

Definition buffer_pushFront (b : LteMacBuffer) (pkt : PacketInfo) : result LteMacBuffer :=
  let! n := incr (queueLength_ b) in
  Ok (b <| queueLength_ := n |> <| queueOccupancy_ := uint32 (queueOccupancy_ b + pkt.1) |>
        <| Queue_ := pkt :: Queue_ b |>).

Definition buffer_popFront (b : LteMacBuffer) : result (PacketInfo * LteMacBuffer) :=
  if queueLength_ b <=? 0 then Throw "Packet queue empty" else
  let! pkt := of_option (head (Queue_ b)) in
  Ok (pkt, b <| Queue_ := tail (Queue_ b) |> <| processed_ := uint32 (processed_ b + 1) |>
             <| queueLength_ := queueLength_ b - 1 |>
             <| queueOccupancy_ := uint32 (queueOccupancy_ b - pkt.1) |>).

Definition buffer_popBack (b : LteMacBuffer) : result (PacketInfo * LteMacBuffer) :=
  if queueLength_ b <=? 0 then Throw "Packet queue empty" else
  let! pkt := of_option (last (Queue_ b)) in
  Ok (pkt, b <| Queue_ := removelast (Queue_ b) |> <| queueLength_ := queueLength_ b - 1 |>
             <| queueOccupancy_ := uint32 (queueOccupancy_ b - pkt.1) |>).

Definition buffer_front (b : LteMacBuffer) : result PacketInfo :=
  if queueLength_ b <=? 0 then Throw "Packet queue empty" else of_option (head (Queue_ b)).

Definition buffer_back (b : LteMacBuffer) : result PacketInfo :=
  if queueLength_ b <=? 0 then Throw "Packet queue empty" else of_option (last (Queue_ b)).

Definition buffer_getHolTimestamp (b : LteMacBuffer) : result Z :=
  if queueLength_ b <=? 0 then Throw "Packet queue empty" else
  let! pkt := of_option (head (Queue_ b)) in Ok pkt.2.

Definition buffer_setProcessed (b : LteMacBuffer) (i : Z) : LteMacBuffer := b <| processed_ := i |>.

Definition buffer_isEmpty (b : LteMacBuffer) : bool := queueLength_ b =? 0.

(** *** The buffer keeps the accounts of a plain list *)

Definition total (l : list PacketInfo) : Z := foldr (fun p n => p.1 + n) 0 l.

(** The abstraction: the cached fields are those of the list. *)
Definition represents (b : LteMacBuffer) (l : list PacketInfo) : Prop :=
  Queue_ b = l /\ queueLength_ b = vsize l /\ queueOccupancy_ b = uint32 (total l).

Lemma total_app l1 l2 : total (l1 ++ l2) = total l1 + total l2.
Proof. induction l1; simpl; lia. Qed.

Lemma wrap_add w a b : wrap w (wrap w a + b) = wrap w (a + b).
Proof. apply Zplus_mod_idemp_l. Qed.

Lemma wrap_sub w a b : wrap w (wrap w a - b) = wrap w (a - b).
Proof. apply Zminus_mod_idemp_l. Qed.

(** The operations on buffers and what they are on lists. *)
Inductive buffer_op := PushBack (p : PacketInfo) | PushFront (p : PacketInfo) | PopFront | PopBack.

Definition buffer_step (b : LteMacBuffer) (op : buffer_op) : result (option PacketInfo * LteMacBuffer) :=
  match op with
  | PushBack p => let! b := buffer_pushBack b p in Ok (None, b)
  | PushFront p => let! b := buffer_pushFront b p in Ok (None, b)
  | PopFront => let! (p, b) := buffer_popFront b in Ok (Some p, b)
  | PopBack => let! (p, b) := buffer_popBack b in Ok (Some p, b)
  end.

Definition list_step (l : list PacketInfo) (op : buffer_op) : option (option PacketInfo * list PacketInfo) :=
  match op with
  | PushBack p => Some (None, l ++ [p])
  | PushFront p => Some (None, p :: l)
  | PopFront => match l with [] => None | p :: l' => Some (Some p, l') end
  | PopBack => match last l with None => None | Some p => Some (Some p, removelast l) end
  end.

Lemma last_split (l : list PacketInfo) p : last l = Some p -> l = removelast l ++ [p].
Proof.
  intros H. assert (l <> []) by (by intros ->). rewrite (app_removelast_last p) at 1 by done.
  do 2 f_equal. destruct (exists_last H0) as (l' & x & ->).
  rewrite last_snoc in H. injection H as ->. by rewrite List.last_last.
Qed.

(** The virtual MAC buffer refines a plain double-ended list: from any buffer
    that represents a list, pushing and popping at either end give the packet and
    represent the list that the same operation gives on lists; popping throws
    exactly when the list is empty.  The cached length and the cached byte count
    (modulo 2^32) are therefore always those of the packets in the buffer. *)
Theorem mac_buffer_refines_list (b : LteMacBuffer) (l : list PacketInfo) (op : buffer_op) :
  represents b l -> vsize l < 2 ^ 31 - 1 ->
  match list_step l op with
  | Some (p, l') => exists b', buffer_step b op = Ok (p, b') /\ represents b' l'
  | None => buffer_step b op = Throw "Packet queue empty"
  end.
Proof.
  intros (HQ & HL & HO) Hlt. destruct op as [p|p| |]; simpl.
  - unfold buffer_pushBack. rewrite (incr_ok (vsize l)) by lia. simpl. eexists. split; [done|].
    split; simpl; [by rewrite HQ|]. rewrite HO, HL, length_app, total_app, wrap_add. simpl.
    split; [lia|f_equal; lia].
  - unfold buffer_pushFront. rewrite (incr_ok (vsize l)) by lia. simpl. eexists. split; [done|].
    split; simpl; [by rewrite HQ|]. rewrite HO, HL, wrap_add. split; [lia|f_equal; lia].
  - unfold buffer_popFront. rewrite HL, HQ. destruct l as [|p l]; [done|].
    rewrite (proj2 (Z.leb_gt _ _)) by (simpl; lia). simpl. eexists. split; [done|].
    split; simpl; [done|]. rewrite HO, wrap_sub. simpl. split; [lia|f_equal; lia].
  - unfold buffer_popBack. rewrite HL, HQ. destruct (last l) as [p|] eqn:El.
    + apply last_split in El.
      assert (Ht : total l = total (removelast l) + p.1) by (rewrite El at 1; rewrite total_app; simpl; lia).
      assert (Hn : vsize l = vsize (removelast l) + 1) by (rewrite El at 1; rewrite length_app; simpl; lia).
      rewrite (proj2 (Z.leb_gt _ _)) by lia. simpl. eexists. split; [done|]. split; simpl; [done|].
      rewrite HO, wrap_sub, Ht. split; [lia|f_equal; lia].
    + by apply last_None in El as ->.
Qed.

(** ** LteMacQueue *)

(** The AM header fields of a packet whose front chunk is an [LteRlcAmPdu]. *)
Record AmInfo := {
  totalFragments : Z;
  snoFragment : Z;
  snoMainPacket : Z;
  lastSn : Z
}.

(** [mp_id] stands for the packet itself, with its contents and tags. *)
Record MacPacket := {
  mp_id : Z;
  bitLength : Z;
  pkt_timestamp : Z;
  am_pdu : option AmInfo
}.

Record LteMacQueue := {
  packets : list MacPacket;
  queueSize_ : Z;
  lastUnenqueueableMainSno : Z
}.

#[export] Instance macqueue_eta : Eta LteMacQueue := fun q =>
  {| packets := packets q; queueSize_ := queueSize_ q;
     lastUnenqueueableMainSno := lastUnenqueueableMainSno q |}.

Definition UINT_MAX : Z := 2 ^ 32 - 1.

Definition new_LteMacQueue (queueSize : Z) : LteMacQueue :=
  {| packets := []; queueSize_ := queueSize; lastUnenqueueableMainSno := UINT_MAX |}.

(** [getByteLength] of a packet and of the queue: bits rounded up to bytes. *)
Definition bytes_of_bits (bits : Z) : Z := Z.shiftr (bits + 7) 3.
Definition byteLength (p : MacPacket) : Z := bytes_of_bits (bitLength p).
Definition queue_bits (l : list MacPacket) : Z := foldr (fun p n => bitLength p + n) 0 l.
Definition getByteLength (q : LteMacQueue) : Z := bytes_of_bits (queue_bits (packets q)).

(** The verdict, and the queue with the remembered main packet. *)
Definition isEnqueueablePacket (q : LteMacQueue) (pkt : MacPacket) : bool * LteMacQueue :=
  if queueSize_ q =? 0 then (true, q) else
  let plain := (byteLength pkt + getByteLength q <? queueSize_ q, q) in
  match am_pdu pkt with
  | Some pdu =>
      if 1 <? totalFragments pdu then
        let remainingFrags := int32 (uint32 (lastSn pdu - snoFragment pdu + 1)) in
        let allFragsWillFit := remainingFrags * byteLength pkt + getByteLength q <? queueSize_ q in
        let enqueable :=
          negb (snoMainPacket pdu =? lastUnenqueueableMainSno q) && allFragsWillFit in
        (enqueable, if enqueable then q else q <| lastUnenqueueableMainSno := snoMainPacket pdu |>)
      else plain
  | None => plain
  end.

Definition queue_pushBack (q : LteMacQueue) (pkt : MacPacket) : bool * LteMacQueue :=
  let (ok, q) := isEnqueueablePacket q pkt in
  if ok then (true, q <| packets := packets q ++ [pkt] |>) else (false, q).

(** [insertBefore(front(), pkt)]: on an empty queue [front()] is null; what the
    kernel's [cQueue::insertBefore] does then is the parameter [null_position]. *)
Definition queue_pushFront (null_position : result (bool * LteMacQueue)) (q : LteMacQueue)
    (pkt : MacPacket) : result (bool * LteMacQueue) :=
  let (ok, q) := isEnqueueablePacket q pkt in
  if ok then
    match packets q with
    | [] => null_position
    | _ :: _ => Ok (true, q <| packets := pkt :: packets q |>)
    end
  else Ok (false, q).

Definition queue_popFront (q : LteMacQueue) : option MacPacket * LteMacQueue :=
  match packets q with
  | [] => (None, q)
  | p :: ps => (Some p, q <| packets := ps |>)
  end.

Definition queue_popBack (q : LteMacQueue) : option MacPacket * LteMacQueue :=
  match last (packets q) with
  | None => (None, q)
  | Some p => (Some p, q <| packets := removelast (packets q) |>)
  end.

Definition queue_getHolTimestamp (q : LteMacQueue) : Z :=
  match packets q with [] => 0 | p :: _ => pkt_timestamp p end.

(** *** Bounds *)

(** The fragment numbers of an AM header are in order. *)
Definition am_wf (p : MacPacket) : Prop :=
  0 <= bitLength p /\
  match am_pdu p with
  | Some a => 0 <= snoFragment a <= lastSn a /\ lastSn a < 2 ^ 31 - 1
  | None => True
  end.

Lemma bytes_mono a b : a <= b -> bytes_of_bits a <= bytes_of_bits b.
Proof. intros. unfold bytes_of_bits. rewrite !Z.shiftr_div_pow2 by lia. apply Z.div_le_mono; lia. Qed.

Lemma bytes_add a b : bytes_of_bits (a + b) <= bytes_of_bits a + bytes_of_bits b.
Proof.
  unfold bytes_of_bits. rewrite !Z.shiftr_div_pow2 by lia. change (2 ^ 3) with 8.
  pose proof (Z.div_mod (a + 7) 8). pose proof (Z.div_mod (b + 7) 8).
  pose proof (Z.mod_pos_bound (a + 7) 8). pose proof (Z.mod_pos_bound (b + 7) 8).
  pose proof (Z.div_mod (a + b + 7) 8). pose proof (Z.mod_pos_bound (a + b + 7) 8). lia.
Qed.

Lemma bytes_whole n : bytes_of_bits (8 * n) = n.
Proof.
  unfold bytes_of_bits. rewrite Z.shiftr_div_pow2 by lia. change (2 ^ 3) with 8.
  rewrite Z.mul_comm, Z.add_comm, Z.div_add by lia. done.
Qed.

Lemma queue_bits_app l1 l2 : queue_bits (l1 ++ l2) = queue_bits l1 + queue_bits l2.
Proof. induction l1; simpl; lia. Qed.

Lemma remaining_frags a :
  0 <= snoFragment a <= lastSn a -> lastSn a < 2 ^ 31 - 1 ->
  int32 (uint32 (lastSn a - snoFragment a + 1)) = lastSn a - snoFragment a + 1.
Proof. intros. rewrite swrap_wrap; [done|lia|]. unfold is_sint. lia. Qed.

(** An accepted packet fits: strictly below the limit. *)
Lemma accepted_fits q p q' :
  queueSize_ q <> 0 -> am_wf p -> isEnqueueablePacket q p = (true, q') ->
  q' = q /\ byteLength p + getByteLength q < queueSize_ q.
Proof.
  intros Hs [Hb Ha]. unfold isEnqueueablePacket. rewrite (proj2 (Z.eqb_neq _ _) Hs).
  assert (0 <= byteLength p) by (apply (bytes_mono 0); lia).
  assert (Hplain : (byteLength p + getByteLength q <? queueSize_ q, q) = (true, q') ->
    q' = q /\ byteLength p + getByteLength q < queueSize_ q) by (intros; simplify_eq; zify_bool; done).
  destruct (am_pdu p) as [a|]; [|exact Hplain]. destruct (1 <? totalFragments a); [|exact Hplain].
  destruct Ha as [Ha1 Ha2]. rewrite remaining_frags by done.
  destruct (negb _ && _) eqn:E; [|done]. intros. simplify_eq. zify_bool.
  split; [done|]. nia.
Qed.

Inductive queue_op := QPushBack (p : MacPacket) | QPushFront (p : MacPacket) | QPopFront | QPopBack.

Definition queue_step (null_position : result (bool * LteMacQueue)) (q : LteMacQueue)
    (op : queue_op) : result LteMacQueue :=
  match op with
  | QPushBack p => Ok (queue_pushBack q p).2
  | QPushFront p => let! (_, q) := queue_pushFront null_position q p in Ok q
  | QPopFront => Ok (queue_popFront q).2
  | QPopBack => Ok (queue_popBack q).2
  end.

Definition queue_within (q : LteMacQueue) : Prop :=
  Forall (fun p => 0 <= bitLength p) (packets q) /\
  (packets q = [] \/ getByteLength q < queueSize_ q).

Definition op_wf (op : queue_op) : Prop :=
  match op with QPushBack p | QPushFront p => am_wf p | _ => True end.

Lemma queue_bits_nonneg l : Forall (fun p => 0 <= bitLength p) l -> 0 <= queue_bits l.
Proof. induction 1; simpl in *; lia. Qed.

Lemma enqueueable_same q p ok q' :
  isEnqueueablePacket q p = (ok, q') -> packets q' = packets q /\ queueSize_ q' = queueSize_ q.
Proof.
  unfold isEnqueueablePacket. repeat case_match; intros; simplify_eq; done.
Qed.

(** The byte limit of the MAC queue: with a limit set, no sequence of pushes
    (with ordered AM fragment numbers) and pops makes the queue reach it; the
    occupancy stays strictly below [queueSize]. *)
Theorem mac_queue_bounded (null_position : result (bool * LteMacQueue)) (q q' : LteMacQueue)
    (op : queue_op) :
  (forall r, null_position <> Ok r) ->
  0 < queueSize_ q -> queue_within q -> op_wf op -> queue_step null_position q op = Ok q' ->
  queue_within q' /\ queueSize_ q' = queueSize_ q.
Proof.
  intros Hnull Hs [Hb Hw] Hop H.
  assert (Hpush : forall p l, am_wf p -> byteLength p + getByteLength q < queueSize_ q ->
    l ≡ₚ p :: packets q -> queue_within (q <| packets := l |>)).
  { intros p l [Hp _] Hfit Hperm.
    assert (Forall (fun p => 0 <= bitLength p) l) by (rewrite Hperm; by constructor).
    split; [done|]. right. unfold getByteLength. simpl.
    assert (E : queue_bits l = bitLength p + queue_bits (packets q)).
    { clear -Hperm. transitivity (queue_bits (p :: packets q)); [|done].
      induction Hperm; simpl; lia. }
    rewrite E. pose proof (bytes_add (bitLength p) (queue_bits (packets q))).
    unfold byteLength, getByteLength in *. lia. }
  assert (Hpop : forall l p, packets q ≡ₚ p :: l -> queue_within (q <| packets := l |>)).
  { intros l p Hperm. rewrite Hperm in Hb. apply Forall_cons in Hb as [Hp Hb]. split; [done|].
    right. unfold getByteLength in *. simpl. destruct Hw as [Hw|Hw].
    { rewrite Hw in Hperm. by apply Permutation_nil_cons in Hperm. }
    eapply Z.le_lt_trans; [|exact Hw]. apply bytes_mono.
    assert (E : queue_bits (packets q) = bitLength p + queue_bits l).
    { clear -Hperm. transitivity (queue_bits (p :: l)); [|done]. induction Hperm; simpl; lia. }
    lia. }
  destruct op as [p|p| |]; simpl in H, Hop.
  - injection H as <-. unfold queue_pushBack.
    destruct (isEnqueueablePacket q p) as [[] q1] eqn:E.
    + apply accepted_fits in E as [-> Hfit]; [|lia|done]. simpl. split; [|done].
      apply (Hpush p); [done..|]. by rewrite Permutation_app_comm.
    + apply enqueueable_same in E as [E1 E2]. simpl. unfold queue_within, getByteLength.
      by rewrite E1, E2.
  - unfold queue_pushFront in H. destruct (isEnqueueablePacket q p) as [[] q1] eqn:E.
    + apply accepted_fits in E as [-> Hfit]; [|lia|done].
      destruct (packets q) as [|p0 l] eqn:El; [destruct null_position as [[]| |]; try done; by edestruct Hnull|].
      simpl in H. injection H as <-. split; [|done]. by apply (Hpush p).
    + simpl in H. injection H as <-. apply enqueueable_same in E as [E1 E2].
      unfold queue_within, getByteLength. by rewrite E1, E2.
  - injection H as <-. unfold queue_popFront. destruct (packets q) as [|p l] eqn:El; simpl.
    + split; [|done]. split; [by rewrite El|by left].
    + split; [|done]. by eapply Hpop.
  - injection H as <-. unfold queue_popBack. destruct (last (packets q)) as [p|] eqn:El; simpl.
    + split; [|done]. apply (Hpop _ p).
      apply last_Some in El as [l El]. rewrite El, List.removelast_last.
      by rewrite Permutation_app_comm.
    + apply last_None in El. split; [|done]. split; [by rewrite El|by left].
Qed.

(** *** All fragments or none *)

Definition push_all (q : LteMacQueue) (l : list MacPacket) : list bool * LteMacQueue :=
  fold_left (fun st p => let (ok, q') := queue_pushBack st.2 p in (st.1 ++ [ok], q')) l ([], q).

(** The fragments [k..last] of one AM packet, each of [n] whole bytes. *)
Inductive fragments_from (main tot lst n : Z) : Z -> list MacPacket -> Prop :=
| frags_nil : fragments_from main tot lst n (lst + 1) []
| frags_cons k t l :
    k <= lst -> fragments_from main tot lst n (k + 1) l ->
    fragments_from main tot lst n k
      ({| mp_id := 0; bitLength := 8 * n; pkt_timestamp := t;
          am_pdu := Some {| totalFragments := tot; snoFragment := k; snoMainPacket := main;
                            lastSn := lst |} |} :: l).

Lemma push_all_app acc q l :
  fold_left (fun st p => let (ok, q') := queue_pushBack st.2 p in (st.1 ++ [ok], q')) l (acc, q) =
  (acc ++ (push_all q l).1, (push_all q l).2).
Proof.
  unfold push_all. revert acc q. induction l as [|p l IH]; intros acc q; simpl; [by rewrite app_nil_r|].
  destruct (queue_pushBack q p) as [ok q1]. rewrite (IH (acc ++ [ok])), (IH [ok]). simpl.
  by rewrite <- app_assoc.
Qed.

Lemma push_all_cons q p l :
  push_all q (p :: l) = ((queue_pushBack q p).1 :: (push_all (queue_pushBack q p).2 l).1,
                         (push_all (queue_pushBack q p).2 l).2).
Proof.
  unfold push_all at 1. simpl. destruct (queue_pushBack q p) as [ok q1]. simpl.
  by rewrite push_all_app.
Qed.

(** The verdict on one fragment, for a queue of whole bytes. *)
Lemma fragment_verdict q main tot lst n k t :
  0 < queueSize_ q -> 1 < tot -> 0 <= k <= lst -> lst < 2 ^ 31 - 1 ->
  let p := {| mp_id := 0; bitLength := 8 * n; pkt_timestamp := t;
              am_pdu := Some {| totalFragments := tot; snoFragment := k; snoMainPacket := main;
                                lastSn := lst |} |} in
  let ok := negb (main =? lastUnenqueueableMainSno q) &&
            ((lst - k + 1) * n + getByteLength q <? queueSize_ q) in
  queue_pushBack q p =
  (ok, if ok then q <| packets := packets q ++ [p] |>
       else q <| lastUnenqueueableMainSno := main |>).
Proof.
  intros Hs Ht Hk Hl p ok. unfold queue_pushBack, isEnqueueablePacket. simpl.
  rewrite (proj2 (Z.eqb_neq (queueSize_ q) 0)), (proj2 (Z.ltb_lt 1 tot)) by lia.
  pose proof (remaining_frags (Build_AmInfo tot k main lst) Hk Hl) as E. simpl in E. rewrite E.
  unfold byteLength. simpl. rewrite bytes_whole. fold ok. by destruct ok.
Qed.

Lemma fragments_rejected q main tot lst n k l :
  0 < queueSize_ q -> 1 < tot -> 0 <= k -> lst < 2 ^ 31 - 1 ->
  fragments_from main tot lst n k l -> lastUnenqueueableMainSno q = main ->
  Forall (fun ok => ok = false) (push_all q l).1.
Proof.
  intros Hs Ht Hk Hl Hf. revert q Hs Hk. induction Hf as [|k t l Hkl Hf IH]; intros q Hs Hk Hq;
    [constructor|].
  rewrite push_all_cons, fragment_verdict by lia. rewrite Hq, Z.eqb_refl. simpl.
  constructor; [done|]. apply IH; [done|lia|done].
Qed.

Lemma fragments_accepted q main tot lst n k l B :
  0 < queueSize_ q -> 1 < tot -> 0 <= k -> lst < 2 ^ 31 - 1 -> queue_bits (packets q) = 8 * B ->
  fragments_from main tot lst n k l -> lastUnenqueueableMainSno q <> main ->
  (lst - k + 1) * n + B < queueSize_ q ->
  Forall (fun ok => ok = true) (push_all q l).1 /\ packets (push_all q l).2 = packets q ++ l.
Proof.
  intros Hs Ht Hk Hl HB Hf. revert q B Hs Hk HB.
  induction Hf as [|k t l Hkl Hf IH]; intros q B Hs Hk HB Hq Hfit.
  - split; [constructor|by rewrite app_nil_r].
  - rewrite push_all_cons, fragment_verdict by lia.
    unfold getByteLength. rewrite HB, bytes_whole, (proj2 (Z.eqb_neq _ _)), (proj2 (Z.ltb_lt _ _)) by (lia || done).
    simpl. set (p := Build_MacPacket _ _ _ _).
    destruct (IH (q <| packets := packets q ++ [p] |>) (B + n)) as [H1 H2]; [done|lia| |done|simpl; lia|].
    + simpl. rewrite queue_bits_app, HB. simpl. lia.
    + split; [by constructor|]. etransitivity; [exact H2|]. simpl. by rewrite <- app_assoc.
Qed.

(** AM fragments are taken all or none: when the remaining fragments of one
    packet, equally long, are pushed one after the other into a queue of whole
    bytes, then either all of them are queued, in order, or every one of them is
    rejected. *)
Theorem am_fragments_all_or_none (q : LteMacQueue) (main tot lst n k B : Z) (l : list MacPacket) :
  0 < queueSize_ q -> 1 < tot -> 0 <= k -> lst < 2 ^ 31 - 1 ->
  queue_bits (packets q) = 8 * B -> fragments_from main tot lst n k l ->
  (Forall (fun ok => ok = true) (push_all q l).1 /\ packets (push_all q l).2 = packets q ++ l) \/
  Forall (fun ok => ok = false) (push_all q l).1.
Proof.
  intros Hs Ht Hk Hl HB Hf. destruct (Z.eq_dec (lastUnenqueueableMainSno q) main) as [Hq|Hq].
  - right. by eapply fragments_rejected.
  - destruct (Z_lt_le_dec ((lst - k + 1) * n + B) (queueSize_ q)) as [Hfit|Hfit].
    + left. by eapply fragments_accepted.
    + right. inversion Hf as [|k' t l' Hkl Hf']; subst; [constructor|].
      rewrite push_all_cons, fragment_verdict by lia. unfold getByteLength.
      rewrite HB, bytes_whole, (proj2 (Z.ltb_ge _ _)) by done. rewrite andb_false_r. simpl.
      constructor; [done|]. by apply (fragments_rejected _ main tot lst n (k + 1)); [|lia|lia|lia|..].
Qed.

(** Concrete instances. *)

Lemma mac_buffer_refines_list_witness :
  exists b', buffer_step {| processed_ := 0; queueOccupancy_ := 30; queueLength_ := 2;
                            Queue_ := [(10, 5); (20, 6)] |} PopBack = Ok (Some (20, 6), b') /\
             represents b' [(10, 5)].
Proof.
  refine (mac_buffer_refines_list _ [(10, 5); (20, 6)] PopBack _ _); [|reflexivity].
  repeat split; reflexivity.
Defined.

Definition demo_queue : LteMacQueue :=
  {| packets := [{| mp_id := 1; bitLength := 80; pkt_timestamp := 1; am_pdu := None |}];
     queueSize_ := 100; lastUnenqueueableMainSno := UINT_MAX |}.
Definition demo_fragment (k : Z) : MacPacket :=
  {| mp_id := 0; bitLength := 8 * 20; pkt_timestamp := 2;
     am_pdu := Some {| totalFragments := 3; snoFragment := k; snoMainPacket := 7; lastSn := 2 |} |}.

Lemma mac_queue_bounded_witness :
  queue_within (queue_pushBack demo_queue (demo_fragment 0)).2 /\
  queueSize_ (queue_pushBack demo_queue (demo_fragment 0)).2 = 100.
Proof.
  refine (mac_queue_bounded UB demo_queue _ (QPushBack (demo_fragment 0)) _ _ _ _ eq_refl).
  - intros r H. discriminate H.
  - reflexivity.
  - split; [repeat constructor; discriminate|right; reflexivity].
  - vm_compute. repeat split; discriminate.
Defined.

Lemma am_fragments_all_or_none_witness :
  let l := [demo_fragment 0; demo_fragment 1; demo_fragment 2] in
  (Forall (fun ok => ok = true) (push_all demo_queue l).1 /\
   packets (push_all demo_queue l).2 = packets demo_queue ++ l) \/
  Forall (fun ok => ok = false) (push_all demo_queue l).1.
Proof.
  refine (am_fragments_all_or_none demo_queue 7 3 2 20 0 10 _ _ _ _ _ eq_refl _);
    [reflexivity|reflexivity|discriminate|reflexivity|].
  repeat (apply frags_cons; [discriminate|]). apply frags_nil.
Defined.
