(* ===== verification/TTimer.v ===== *)
(** * Timers

    [TTimer] and [TMultiTimer] (src/simulte/src/common/timer/TTimer.cc): the single
    timer of the RLC and the timer that multiplexes many events onto one scheduled
    message.  Times are raw [simtime_t] values; the message [intr_] that the module
    has scheduled in the kernel is part of the state. *)

From S2P Require Import Prelude.
From Stdlib Require Import Sorted.
#[local] Open Scope Z_scope.

(** ** TTimer *)

Record TTimer := {
  busy_ : bool;
  start_ : Z;
  expire_ : Z;
  intr_at : option Z  (** arrival time of the scheduled message, if any *)
}.

Definition new_TTimer : TTimer := {| busy_ := false; start_ := 0; expire_ := 0; intr_at := None |}.

Definition timer_start (t : TTimer) (NOW delay : Z) : TTimer :=
  if busy_ t then t else
  {| busy_ := true; start_ := NOW; expire_ := NOW + delay; intr_at := Some (delay + NOW) |}.

Definition timer_stop (t : TTimer) : TTimer :=
  {| busy_ := false; start_ := start_ t; expire_ := expire_ t;
     intr_at := if busy_ t then None else intr_at t |}.

(** [handle] is called when the message has arrived. *)
Definition timer_handle (t : TTimer) : TTimer :=
  {| busy_ := false; start_ := start_ t; expire_ := expire_ t; intr_at := intr_at t |}.

Definition elapsed (t : TTimer) (NOW : Z) : Z := NOW - start_ t.
Definition remaining (t : TTimer) (NOW : Z) : Z := expire_ t - NOW.

(** ** TMultiTimer *)

Record TMultiTimer := {
  mbusy : bool;
  directList_ : list (Z * Z);     (** expiry time and event, in the order of the multimap *)
  reverseList_ : gmap Z (Z * Z);  (** event to its element of the direct list *)
  intr_ : option (Z * Z)          (** arrival time and event of the scheduled message *)
}.

Definition new_TMultiTimer : TMultiTimer :=
  {| mbusy := false; directList_ := []; reverseList_ := ∅; intr_ := None |}.

(** [multimap::insert]: after the elements with an equal key. *)
Fixpoint minsert (x : Z * Z) (l : list (Z * Z)) : list (Z * Z) :=
  match l with
  | [] => [x]
  | y :: l' => if x.1 <? y.1 then x :: l else y :: minsert x l'
  end.

(** [multimap::erase] of the element of an event. *)
Definition merase (event : Z) (l : list (Z * Z)) : list (Z * Z) :=
  List.filter (fun x => negb (x.2 =? event)) l.

Definition multi_add (m : TMultiTimer) (NOW time event : Z) : result TMultiTimer :=
  let! remaining :=
    if mbusy m then let! it := of_option (head (directList_ m)) in Ok (it.1 - NOW) else Ok 1 in
  let direct := minsert (NOW + time, event) (directList_ m) in
  match reverseList_ m !! event with
  | Some _ => Throw "TMultiTimer::add(): element already exists"
  | None =>
      Ok {| mbusy := true; directList_ := direct;
            reverseList_ := <[event := (NOW + time, event)]> (reverseList_ m);
            intr_ := if negb (mbusy m) || (time <? remaining) then Some (time + NOW, event)
                     else intr_ m |}
  end.

Definition multi_busy (m : TMultiTimer) (event : Z) : bool :=
  match reverseList_ m !! event with Some _ => true | None => false end.

(** [handle]: the scheduled message has arrived (its argument is not used). *)
Definition multi_handle (m : TMultiTimer) (event : Z) : result TMultiTimer :=
  match directList_ m with
  | [] => Throw "TMultiTimer::handle(): The list is empty"
  | (_, element) :: direct =>
      Ok {| mbusy := match direct with [] => false | _ => mbusy m end;
            directList_ := direct;
            reverseList_ := delete element (reverseList_ m);
            intr_ := match direct with [] => None | (time, e) :: _ => Some (time, e) end |}
  end.

Definition multi_remove (m : TMultiTimer) (event : Z) : result TMultiTimer :=
  match reverseList_ m !! event with
  | None => Throw "TMultiTimer::remove(): element not found"
  | Some dIt =>
      let direct := merase event (directList_ m) in
      let is_first := match directList_ m with x :: _ => x.2 =? dIt.2 | [] => false end in
      Ok {| mbusy := if is_first then match direct with [] => false | _ => mbusy m end else mbusy m;
            directList_ := direct;
            reverseList_ := delete event (reverseList_ m);
            intr_ := if is_first then match direct with [] => None | (time, e) :: _ => Some (time, e) end
                     else intr_ m |}
  end.

(** ** Invariants *)

(** The kernel holds a message exactly while the timer is busy. *)
Definition timer_ok (t : TTimer) : Prop :=
  intr_at t = if busy_ t then Some (expire_ t) else None.

(** What [handle] finds: the message has been delivered. *)
Definition fired (t : TTimer) : TTimer :=
  {| busy_ := busy_ t; start_ := start_ t; expire_ := expire_ t; intr_at := None |}.

Inductive timer_op := TStart (delay : Z) | TStop | THandle.
Definition timer_step (t : TTimer) (NOW : Z) (op : timer_op) : TTimer :=
  match op with
  | TStart d => timer_start t NOW d
  | TStop => timer_stop t
  | THandle => timer_handle (fired t)
  end.

(** The single timer keeps exactly one message scheduled while it is busy, at
    its expiry time, and none while it is idle; starting a busy timer changes
    nothing. *)
Theorem timer_one_message (t : TTimer) (NOW : Z) (op : timer_op) :
  timer_ok t ->
  timer_ok (timer_step t NOW op) /\
  (busy_ t = true -> forall d, timer_step t NOW (TStart d) = t) /\
  (busy_ t = false -> forall d, intr_at (timer_step t NOW (TStart d)) = Some (NOW + d)).
Proof.
  unfold timer_ok. intros H. split_and!.
  - destruct op; simpl; unfold timer_start; destruct (busy_ t) eqn:E; simpl; rewrite ?E; auto.
    f_equal. lia.
  - intros E d. simpl. unfold timer_start. by rewrite E.
  - intros E d. simpl. unfold timer_start. rewrite E. simpl. f_equal. lia.
Qed.

Record multi_ok (m : TMultiTimer) : Prop := {
  mo_busy : mbusy m = negb (bool_decide (length (directList_ m) = 0%nat));
  mo_sorted : Sorted (fun x y => x.1 <= y.1) (directList_ m);
  mo_events : NoDup (map snd (directList_ m));
  mo_reverse : forall e x, reverseList_ m !! e = Some x <-> x ∈ directList_ m /\ x.2 = e;
  mo_intr : intr_ m = head (directList_ m)
}.

Lemma minsert_perm x l : minsert x l ≡ₚ x :: l.
Proof.
  induction l as [|y l IH]; simpl; [done|]. destruct (_ <? _); [done|].
  rewrite IH. apply Permutation_swap.
Qed.

Lemma minsert_sorted x l :
  Sorted (fun x y : Z * Z => x.1 <= y.1) l -> Sorted (fun x y => x.1 <= y.1) (minsert x l).
Proof.
  induction 1 as [|y l Hs IH Hh]; simpl; [repeat constructor|].
  destruct (Z.ltb_spec x.1 y.1).
  - constructor; [by constructor|]. constructor. lia.
  - constructor; [done|]. destruct l as [|z l]; simpl; [constructor; lia|].
    destruct (x.1 <? z.1); constructor; [lia|]. by inversion Hh.
Qed.

Lemma minsert_head x l :
  Sorted (fun x y : Z * Z => x.1 <= y.1) l ->
  head (minsert x l) = match l with [] => Some x | y :: _ => if x.1 <? y.1 then Some x else Some y end.
Proof. destruct l; simpl; [done|]. by destruct (_ <? _). Qed.

Lemma merase_spec event l x : x ∈ merase event l <-> x ∈ l /\ x.2 <> event.
Proof.
  unfold merase. rewrite !list_elem_of_In, filter_In. rewrite negb_true_iff, Z.eqb_neq. done.
Qed.

Lemma merase_sorted event l :
  Sorted (fun x y : Z * Z => x.1 <= y.1) l -> Sorted (fun x y => x.1 <= y.1) (merase event l).
Proof.
  intros Hs. apply StronglySorted_Sorted. apply Sorted_StronglySorted in Hs.
  2:{ intros a b c; lia. }
  unfold merase. induction Hs as [|x l Hs IH Hf]; simpl; [constructor|].
  destruct (negb _); [|done]. constructor; [done|].
  rewrite List.Forall_forall in Hf |- *. intros y [Hy _]%filter_In. auto.
Qed.

Lemma merase_nodup event l : NoDup (map snd l) -> NoDup (map snd (merase event l)).
Proof.
  induction l as [|x l IH]; simpl; intros H; [done|]. apply NoDup_cons in H as [Hx H].
  destruct (negb _); [|auto]. simpl. apply NoDup_cons. split; [|auto].
  intros Hin. apply Hx. rewrite list_elem_of_In in Hin |- *. apply in_map_iff in Hin as (y & E & Hy).
  apply filter_In in Hy as [Hy _]. apply in_map_iff. eauto.
Qed.

Inductive multi_op := MAdd (time event : Z) | MHandle | MRemove (event : Z).

(** An operation at time [NOW]; [MHandle] is the delivery of the scheduled message,
    which has then left the kernel. *)
Definition multi_step (m : TMultiTimer) (NOW : Z) (op : multi_op) : result TMultiTimer :=
  match op with
  | MAdd time event => multi_add m NOW time event
  | MHandle => multi_handle m (default 0 (snd <$> intr_ m))
  | MRemove event => multi_remove m event
  end.

Lemma nodup_event (l : list (Z * Z)) x y :
  NoDup (map snd l) -> x ∈ l -> y ∈ l -> x.2 = y.2 -> x = y.
Proof.
  induction l as [|z l IH]; simpl; intros Hnd Hx Hy E; [by apply elem_of_nil in Hx|].
  apply NoDup_cons in Hnd as [Hz Hnd].
  assert (Hin : forall w, w ∈ l -> w.2 ∈ map snd l).
  { intros w Hw. apply list_elem_of_In in Hw. by apply list_elem_of_In, in_map. }
  apply elem_of_cons in Hx as [->|Hx], Hy as [->|Hy]; auto.
  - exfalso. apply Hz. rewrite E. auto.
  - exfalso. apply Hz. rewrite <- E. auto.
Qed.

Lemma multi_add_ok m NOW time event :
  multi_ok m -> reverseList_ m !! event = None ->
  exists m', multi_add m NOW time event = Ok m' /\ multi_ok m' /\
    directList_ m' ≡ₚ (NOW + time, event) :: directList_ m.
Proof.
  intros [Hb Hs Hn Hr Hi] He. unfold multi_add. rewrite He.
  assert (Hrem : exists rem, (if mbusy m then let! it := of_option (head (directList_ m)) in Ok (it.1 - NOW)
                  else Ok 1) = Ok rem /\
    (negb (mbusy m) || (time <? rem)) =
      match directList_ m with [] => true | y :: _ => NOW + time <? y.1 end).
  { rewrite Hb. destruct (directList_ m) as [|y l]; simpl; [by exists 1|].
    eexists. split; [done|]. destruct (Z.ltb_spec time (y.1 - NOW)), (Z.ltb_spec (NOW + time) y.1); lia. }
  destruct Hrem as (rem & -> & Hrem). cbn [rbind]. eexists. split; [done|].
  split; [|apply minsert_perm]. rewrite Hrem. split; simpl.
  - pose proof (minsert_perm (NOW + time, event) (directList_ m)) as Hp.
    apply Permutation_length in Hp. rewrite Hp. done.
  - by apply minsert_sorted.
  - rewrite minsert_perm. simpl. apply NoDup_cons. split; [|done].
    intros Hin. rewrite list_elem_of_In in Hin. apply in_map_iff in Hin as (x & E & Hx).
    apply list_elem_of_In in Hx. assert (reverseList_ m !! event = Some x) by (by apply Hr). congruence.
  - intros e x. rewrite minsert_perm, elem_of_cons. destruct (decide (e = event)) as [->|Hne].
    + rewrite lookup_insert_eq. split; [intros [= <-]; auto|].
      intros [[->|Hx] E]; [done|]. exfalso.
      assert (reverseList_ m !! event = Some x) by (by apply Hr). congruence.
    + rewrite lookup_insert_ne by done. rewrite Hr. split; [tauto|].
      intros [[->|Hx] E]; [simpl in E; congruence|done].
  - rewrite minsert_head, Hi, (Z.add_comm time NOW) by done.
    destruct (directList_ m) as [|y l]; simpl; [done|]. by destruct (_ <? _).
Qed.

Lemma multi_handle_ok m event x l :
  multi_ok m -> directList_ m = x :: l ->
  exists m', multi_handle m event = Ok m' /\ multi_ok m' /\ directList_ m' = l.
Proof.
  intros [Hb Hs Hn Hr Hi] E. unfold multi_handle. rewrite E in *. destruct x as [t e].
  eexists. split; [done|]. split; [|done]. simpl in Hn. apply NoDup_cons in Hn as [Hx Hn].
  split; simpl.
  - by destruct l.
  - by apply Sorted_inv in Hs as [].
  - done.
  - intros e' x. destruct (decide (e' = e)) as [->|Hne].
    + rewrite lookup_delete_eq. split; [done|]. intros [Hl E']. exfalso. apply Hx.
      apply list_elem_of_In in Hl. apply list_elem_of_In, in_map_iff. eauto.
    + rewrite lookup_delete_ne by done. rewrite Hr, elem_of_cons. split; [|tauto].
      intros [[->|Hl] E']; [simpl in E'; congruence|done].
  - by destruct l as [|[]].
Qed.

Lemma merase_head event x l :
  x.2 <> event -> merase event (x :: l) = x :: merase event l.
Proof. intros H. unfold merase. simpl. by rewrite (proj2 (Z.eqb_neq _ _) H). Qed.

Lemma multi_remove_ok m event :
  multi_ok m -> reverseList_ m !! event <> None ->
  exists m', multi_remove m event = Ok m' /\ multi_ok m' /\
    forall x, x ∈ directList_ m' <-> x ∈ directList_ m /\ x.2 <> event.
Proof.
  intros [Hb Hs Hn Hr Hi] He. unfold multi_remove.
  destruct (reverseList_ m !! event) as [d|] eqn:Hd; [|done].
  apply Hr in Hd as [Hd Ed]. eexists. split; [done|].
  split; [|intros x; apply merase_spec].
  destruct (directList_ m) as [|y l] eqn:El; [by apply elem_of_nil in Hd|].
  destruct (Z.eqb_spec y.2 d.2) as [E|E]; split; cbn [mbusy directList_ reverseList_ intr_].
  - rewrite Hb. unfold merase. simpl. rewrite E, Ed, Z.eqb_refl. simpl.
    by destruct (List.filter _ l).
  - apply (merase_sorted event (y :: l)). done.
  - apply (merase_nodup event (y :: l)). done.
  - intros e x. rewrite merase_spec. destruct (decide (e = event)) as [->|Hne].
    + rewrite lookup_delete_eq. split; [done|tauto].
    + rewrite lookup_delete_ne by done. rewrite Hr. split; [|tauto]. intros [? <-]. tauto.
  - by destruct (merase event (y :: l)) as [|[]].
  - rewrite merase_head by congruence. by rewrite Hb.
  - apply (merase_sorted event (y :: l)). done.
  - apply (merase_nodup event (y :: l)). done.
  - intros e x. rewrite merase_spec. destruct (decide (e = event)) as [->|Hne].
    + rewrite lookup_delete_eq. split; [done|tauto].
    + rewrite lookup_delete_ne by done. rewrite Hr. split; [|tauto]. intros [? <-]. tauto.
  - rewrite merase_head by congruence. by rewrite Hi.
Qed.

(** The multi-timer: whatever is added, removed and delivered, the pending
    events are distinct and sorted by time, the module has exactly one message
    scheduled while there are any, and it is the message of the earliest one; so
    each delivery removes the event it was scheduled for.  Adding an event that is
    pending and removing one that is not throw; nothing else does. *)
Theorem multi_timer_earliest_first (m : TMultiTimer) (NOW : Z) (op : multi_op) :
  multi_ok m ->
  match op with
  | MAdd time event =>
      if multi_busy m event then exists e, multi_step m NOW op = Throw e
      else exists m', multi_step m NOW op = Ok m' /\ multi_ok m' /\
             directList_ m' ≡ₚ (NOW + time, event) :: directList_ m
  | MHandle =>
      match intr_ m with
      | None => exists e, multi_step m NOW op = Throw e
      | Some x => exists m', multi_step m NOW op = Ok m' /\ multi_ok m' /\
          directList_ m = x :: directList_ m' /\ Forall (fun y => x.1 <= y.1) (directList_ m)
      end
  | MRemove event =>
      if multi_busy m event
      then exists m', multi_step m NOW op = Ok m' /\ multi_ok m' /\
             forall x, x ∈ directList_ m' <-> x ∈ directList_ m /\ x.2 <> event
      else exists e, multi_step m NOW op = Throw e
  end.
Proof.
  intros Hm. destruct op as [time event| |event]; unfold multi_busy; simpl.
  - destruct (reverseList_ m !! event) eqn:E; [|by apply multi_add_ok].
    unfold multi_add. rewrite E. destruct Hm as [Hb _ _ Hr _]. rewrite Hb.
    apply Hr in E as [E _]. destruct (directList_ m); [by apply elem_of_nil in E|]. simpl. eauto.
  - rewrite (mo_intr _ Hm). destruct (directList_ m) as [|x l] eqn:E; simpl.
    + unfold multi_handle. rewrite E. eauto.
    + destruct (multi_handle_ok m x.2 x l Hm E) as (m' & H1 & H2 & H3).
      exists m'. split; [done|]. split; [done|]. split; [by rewrite H3|].
      pose proof (mo_sorted _ Hm) as Hs. rewrite E in Hs.
      apply Sorted_StronglySorted in Hs; [|intros a b c; lia].
      constructor; [lia|]. inversion Hs as [|? ? _ Hf]; subst.
      rewrite List.Forall_forall in Hf. apply Forall_forall. intros y Hy%list_elem_of_In. auto.
  - destruct (reverseList_ m !! event) eqn:E.
    + apply multi_remove_ok; [done|congruence].
    + unfold multi_remove. rewrite E. eauto.
Qed.

Lemma timer_one_message_witness :
  timer_ok (timer_step new_TTimer 5 (TStart 10)) /\
  (busy_ new_TTimer = true -> forall d, timer_step new_TTimer 5 (TStart d) = new_TTimer) /\
  (busy_ new_TTimer = false -> forall d, intr_at (timer_step new_TTimer 5 (TStart d)) = Some (5 + d)).
Proof. apply (timer_one_message new_TTimer 5 (TStart 10)). reflexivity. Defined.

Definition demo_multi : TMultiTimer :=
  {| mbusy := true; directList_ := [(10, 1); (20, 2)];
     reverseList_ := {[1 := (10, 1); 2 := (20, 2)]}; intr_ := Some (10, 1) |}.

Lemma demo_multi_ok : multi_ok demo_multi.
Proof.
  split; [reflexivity| | | |reflexivity].
  { simpl. do 2 (constructor; [|repeat constructor; simpl; lia]). constructor. }
  { simpl. apply NoDup_cons. split; [set_solver|apply NoDup_singleton]. }
  intros e x. simpl. rewrite !elem_of_cons, elem_of_nil.
  destruct (decide (e = 1)) as [->|H1]; [rewrite lookup_insert_eq|rewrite lookup_insert_ne by done].
  - split; [intros [= <-]; auto|]. intros [[->|[->|[]]] E]; done.
  - destruct (decide (e = 2)) as [->|H2].
    + rewrite lookup_singleton_eq. split; [intros [= <-]; auto|]. intros [[->|[->|[]]] E]; done.
    + rewrite lookup_singleton_ne by done. split; [done|]. intros [[->|[->|[]]] E]; simpl in E; congruence.
Qed.

Lemma multi_timer_earliest_first_witness :
  exists m', multi_step demo_multi 10 MHandle = Ok m' /\ multi_ok m' /\
    directList_ demo_multi = (10, 1) :: directList_ m' /\
    Forall (fun y => 10 <= y.1) (directList_ demo_multi).
Proof. exact (multi_timer_earliest_first demo_multi 10 MHandle demo_multi_ok). Defined.
