(* ===== verification/HarqTx.v ===== *)
(** * The transmitting side of H-ARQ

    src/simulte/src/stack/mac/buffer/harq/: [LteHarqUnitTx] holds one MAC PDU and its
    state, [LteHarqProcessTx] the units of the codewords, [LteHarqBufferTx] the
    processes of one destination; src/simulte/src/stack/mac/packet/LteMacPdu.h is the
    PDU.  Units are owned by their process and processes by their buffer, and a packet
    given to a unit is reachable through that unit only, so they are held by value.
    Simulation times are raw [simtime_t] values in picoseconds.  The signals emitted
    for statistics and the ownership calls ([take], [drop]) change no state the code
    reads and are left out; packet lengths are not bounded. *)

From S2P Require Import Prelude.
From S2P Require Import LteCommon.
From Stdlib Require Import SpecFloat.
#[local] Open Scope Z_scope.

Definition MAX_CODEWORDS : Z := 2.
Definition HARQ_NONE : Z := 255.

(** [simtime_t(1)] and [TTI] in picoseconds. *)
Definition SECOND : Z := 10 ^ 12.
Definition TTI : Z := 10 ^ 9.

(** ** The MAC PDU *)

(** A queued RLC PDU. *)
Record Sdu := { sdu_id : Z; sdu_bytes : Z }.

Inductive MacControlElement : Type :=
| MacCe (timestamp : spec_float)
| MacBsr (timestamp : spec_float) (size : Z).

(** [macPduId_] is the member [getId] returns; nothing assigns it but the copy
    constructor, so it is whatever the object was created with.  [macPduId] is the field
    of the generated base class. *)
Record LteMacPdu := {
  sduList_ : list Sdu;
  ceList_ : list MacControlElement;
  macPduLength_ : Z;
  headerLength : Z;
  macPduId_ : Z;
  macPduId : Z;
  chunkLength : Z
}.

#[export] Instance macpdu_eta : Eta LteMacPdu := fun p =>
  {| sduList_ := sduList_ p; ceList_ := ceList_ p; macPduLength_ := macPduLength_ p;
     headerLength := headerLength p; macPduId_ := macPduId_ p; macPduId := macPduId p;
     chunkLength := chunkLength p |}.

Definition getId (p : LteMacPdu) : Z := macPduId_ p.

Definition pdu_getByteLength (p : LteMacPdu) : Z := macPduLength_ p + headerLength p.
Definition pdu_getBitLength (p : LteMacPdu) : Z := pdu_getByteLength p * 8.

Definition setChunkLength (p : LteMacPdu) : LteMacPdu :=
  p <| chunkLength := pdu_getBitLength p |>.

Definition mac_pushSdu (p : LteMacPdu) (pkt : Sdu) : LteMacPdu :=
  setChunkLength (p <| macPduLength_ := macPduLength_ p + sdu_bytes pkt |>
                    <| sduList_ := sduList_ p ++ [pkt] |>).

(** [cQueue::pop] raises an error on an empty queue. *)
Definition mac_popSdu (p : LteMacPdu) : result (Sdu * LteMacPdu) :=
  match sduList_ p with
  | [] => Throw "pop(): Queue empty"
  | pkt :: rest =>
      Ok (pkt, setChunkLength (p <| sduList_ := rest |>
                                 <| macPduLength_ := macPduLength_ p - sdu_bytes pkt |>))
  end.

Definition hasSdu (p : LteMacPdu) : bool :=
  match sduList_ p with [] => false | _ => true end.

Definition pushCe (p : LteMacPdu) (ce : MacControlElement) : LteMacPdu :=
  p <| ceList_ := ceList_ p ++ [ce] |>.

(** [std::list::front] of an empty list is undefined. *)
Definition popCe (p : LteMacPdu) : result (MacControlElement * LteMacPdu) :=
  match ceList_ p with
  | [] => UB
  | ce :: rest => Ok (ce, p <| ceList_ := rest |>)
  end.

Definition hasCe (p : LteMacPdu) : bool :=
  match ceList_ p with [] => false | _ => true end.

Definition setHeaderLength (p : LteMacPdu) (n : Z) : LteMacPdu :=
  setChunkLength (p <| headerLength := uint32 n |>).

(** ** Packets *)

(** The fields of [UserControlInfo] the H-ARQ code uses. *)
Record UserControlInfo := {
  acid : Z;
  cw : Z;
  txNumber : Z;
  ndi : bool;
  direction : Direction;
  sourceId : Z;
  destId : Z;
  deciderResult : bool
}.

#[export] Instance info_eta : Eta UserControlInfo := fun i =>
  {| acid := acid i; cw := cw i; txNumber := txNumber i; ndi := ndi i;
     direction := direction i; sourceId := sourceId i; destId := destId i;
     deciderResult := deciderResult i |}.

(** A packet carries its MAC PDU as its front chunk, except while the code has taken the
    chunk out to change it. *)
Record Packet := { front : option LteMacPdu; tag : UserControlInfo }.

#[export] Instance packet_eta : Eta Packet := fun p => {| front := front p; tag := tag p |}.

(** INET raises an error when the chunk asked for is not there. *)
Definition peekAtFront (p : Packet) : result LteMacPdu :=
  match front p with Some pdu => Ok pdu | None => Throw "Packet: no chunk" end.

Definition removeAtFront (p : Packet) : result (LteMacPdu * Packet) :=
  let! pdu := peekAtFront p in Ok (pdu, p <| front := None |>).

Definition insertAtFront (p : Packet) (pdu : LteMacPdu) : Packet := p <| front := Some pdu |>.

Definition pkt_getByteLength (p : Packet) : Z :=
  match front p with Some pdu => (chunkLength pdu + 7) / 8 | None => 0 end.

(** ** LteHarqUnitTx *)

Inductive TxHarqPduStatus : Type :=
| TXHARQ_PDU_BUFFERED
| TXHARQ_PDU_WAITING
| TXHARQ_PDU_EMPTY
| TXHARQ_PDU_SELECTED.

#[export] Instance txstatus_eq_dec : EqDecision TxHarqPduStatus.
Proof. solve_decision. Defined.

Inductive HarqAcknowledgment : Type := HARQNACK | HARQACK.

Record LteHarqUnitTx := {
  pdu_ : option Packet;
  pduId_ : Z;
  pduLength_ : Z;
  unit_acid_ : Z;
  cw_ : Z;
  transmissions_ : Z;
  status_ : TxHarqPduStatus;
  txTime_ : Z;
  maxHarqRtx_ : Z
}.

#[export] Instance unit_eta : Eta LteHarqUnitTx := fun u =>
  {| pdu_ := pdu_ u; pduId_ := pduId_ u; pduLength_ := pduLength_ u;
     unit_acid_ := unit_acid_ u; cw_ := cw_ u; transmissions_ := transmissions_ u;
     status_ := status_ u; txTime_ := txTime_ u; maxHarqRtx_ := maxHarqRtx_ u |}.

(** [pduLength_] is not initialised: [len] is what the memory held. *)
Definition new_LteHarqUnitTx (acid cw maxHarqRtx len : Z) : LteHarqUnitTx :=
  {| pdu_ := None; pduId_ := -1; pduLength_ := len; unit_acid_ := acid; cw_ := cw;
     transmissions_ := 0; status_ := TXHARQ_PDU_EMPTY; txTime_ := 0;
     maxHarqRtx_ := maxHarqRtx |}.

Definition unit_isEmpty (u : LteHarqUnitTx) : bool :=
  bool_decide (status_ u = TXHARQ_PDU_EMPTY).
Definition unit_isReady (u : LteHarqUnitTx) : bool :=
  bool_decide (status_ u = TXHARQ_PDU_BUFFERED).
Definition unit_isMarked (u : LteHarqUnitTx) : bool :=
  bool_decide (status_ u = TXHARQ_PDU_SELECTED).

Definition resetUnit (u : LteHarqUnitTx) : LteHarqUnitTx :=
  u <| transmissions_ := 0 |> <| pduId_ := -1 |> <| pdu_ := None |>
    <| status_ := TXHARQ_PDU_EMPTY |> <| pduLength_ := 0 |>.

Definition unit_insertPdu (u : LteHarqUnitTx) (pkt : option Packet) : result LteHarqUnitTx :=
  match pkt with
  | None => Throw "Trying to insert NULL macPdu pointer in harq unit"
  | Some pkt =>
      if negb (unit_isEmpty u) then Throw "Trying to insert macPdu in already busy harq unit" else
      let! (pdu, pkt) := removeAtFront pkt in
      let pkt := insertAtFront pkt (pdu <| macPduId := getId pdu |>) in
      if negb (cw_ u =? cw (tag pkt)) then Throw "mismatch in cw settings" else
      Ok (u <| pduId_ := getId pdu |> <| transmissions_ := 0 |>
            <| status_ := TXHARQ_PDU_SELECTED |> <| pduLength_ := pkt_getByteLength pkt |>
            <| pdu_ := Some (pkt <| tag := (tag pkt) <| acid := unit_acid_ u |>
                                                     <| cw := uint8 (cw_ u) |> |>) |>)
  end.

Definition unit_markSelected (u : LteHarqUnitTx) : result LteHarqUnitTx :=
  if negb (unit_isReady u) then Throw "trying to select for transmission an empty buffer" else
  Ok (u <| status_ := TXHARQ_PDU_SELECTED |>).

(** The packet returned is a copy of the one kept, control information included. *)
Definition unit_extractPdu (NOW : Z) (u : LteHarqUnitTx) : result (Packet * LteHarqUnitTx) :=
  if negb (unit_isMarked u) then Throw "Trying to extract macPdu from not selected H-ARQ unit" else
  let n := uint8 (transmissions_ u + 1) in
  let! pkt := of_option (pdu_ u) in
  let pkt := pkt <| tag := (tag pkt) <| txNumber := n |> <| ndi := n =? 1 |> |> in
  Ok (pkt, u <| txTime_ := NOW |> <| transmissions_ := n |>
             <| status_ := TXHARQ_PDU_WAITING |> <| pdu_ := Some pkt |>).

(** The third branch of the code's test on the acknowledgment, an unknown value, has no
    inhabitant here. *)
Definition unit_pduFeedback (u : LteHarqUnitTx) (a : HarqAcknowledgment)
    : result (bool * LteHarqUnitTx) :=
  let! pkt := of_option (pdu_ u) in
  let dir := direction (tag pkt) in
  if negb (bool_decide (status_ u = TXHARQ_PDU_WAITING)) then
    Throw "Feedback sent to an H-ARQ unit not waiting for it" else
  let out :=
    match a with
    | HARQACK => (true, resetUnit u)
    | HARQNACK =>
        if transmissions_ u =? uint32 (maxHarqRtx_ u + 1) then (true, resetUnit u)
        else (false, u <| status_ := TXHARQ_PDU_BUFFERED |>)
    end in
  match dir with
  | DL | UL => Ok out
  | _ => Throw "LteHarqUnitTx::pduFeedback(): unknown direction"
  end.

Definition unit_selfNack (NOW : Z) (u : LteHarqUnitTx) : result (bool * LteHarqUnitTx) :=
  if bool_decide (status_ u = TXHARQ_PDU_WAITING) then
    Throw "LteHarqUnitTx::selfNack(): Trying to send self NACK to a unit waiting for feedback" else
  if negb (bool_decide (status_ u = TXHARQ_PDU_BUFFERED)) then
    Throw "LteHarqUnitTx::selfNack(): Trying to send self NACK to an idle or selected unit" else
  unit_pduFeedback (u <| transmissions_ := uint8 (transmissions_ u + 1) |> <| txTime_ := NOW |>)
    HARQNACK.

Definition unit_dropPdu (u : LteHarqUnitTx) : result LteHarqUnitTx :=
  if negb (bool_decide (status_ u = TXHARQ_PDU_BUFFERED)) then
    Throw "LteHarqUnitTx::dropPdu(): H-ARQ TX unit: cannot drop pdu if state is not BUFFERED" else
  Ok (resetUnit u).

Definition unit_forceDropUnit (u : LteHarqUnitTx) : LteHarqUnitTx :=
  resetUnit (if unit_isReady u || unit_isMarked u || bool_decide (status_ u = TXHARQ_PDU_WAITING)
             then u <| pdu_ := None |> else u).

Definition unit_getPdu (u : LteHarqUnitTx) : result Packet :=
  let! pkt := of_option (pdu_ u) in
  let! _ := peekAtFront pkt in Ok pkt.

(** ** LteHarqProcessTx *)

Record LteHarqProcessTx := {
  units_ : list LteHarqUnitTx;
  numProcesses_ : Z;
  numHarqUnits_ : Z;
  proc_acid_ : Z;
  numEmptyUnits_ : Z;
  numSelected_ : Z;
  dropped_ : bool
}.

#[export] Instance proctx_eta : Eta LteHarqProcessTx := fun p =>
  {| units_ := units_ p; numProcesses_ := numProcesses_ p; numHarqUnits_ := numHarqUnits_ p;
     proc_acid_ := proc_acid_ p; numEmptyUnits_ := numEmptyUnits_ p;
     numSelected_ := numSelected_ p; dropped_ := dropped_ p |}.

Fixpoint new_units (n : nat) (i acid maxHarqRtx len : Z) : list LteHarqUnitTx :=
  match n with
  | O => []
  | S n => new_LteHarqUnitTx acid i maxHarqRtx len :: new_units n (i + 1) acid maxHarqRtx len
  end.

Definition new_LteHarqProcessTx (acid numUnits numProcesses maxHarqRtx len : Z)
    : LteHarqProcessTx :=
  {| units_ := new_units (Z.to_nat numUnits) 0 acid maxHarqRtx len;
     numProcesses_ := numProcesses; numHarqUnits_ := uint8 numUnits; proc_acid_ := acid;
     numEmptyUnits_ := uint8 numUnits; numSelected_ := 0; dropped_ := false |}.

(** [( *units_)[cw]] read, and replaced by its new state. *)
Definition unit_at (p : LteHarqProcessTx) (cw : Z) : result LteHarqUnitTx :=
  of_option (vget (units_ p) cw).
Definition set_unit (p : LteHarqProcessTx) (cw : Z) (u : LteHarqUnitTx)
    : result LteHarqProcessTx :=
  let! us := of_option (vset (units_ p) cw u) in Ok (p <| units_ := us |>).

(** The counters are an [unsigned char] and an [unsigned int]. *)
Definition add_empty (p : LteHarqProcessTx) (n : Z) : LteHarqProcessTx :=
  p <| numEmptyUnits_ := uint8 (numEmptyUnits_ p + n) |>.
Definition add_selected (p : LteHarqProcessTx) (n : Z) : LteHarqProcessTx :=
  p <| numSelected_ := uint32 (numSelected_ p + n) |>.

Definition proc_isEmpty (p : LteHarqProcessTx) : bool := numEmptyUnits_ p =? numHarqUnits_ p.

Definition proc_insertPdu (p : LteHarqProcessTx) (pkt : Packet) (cw : Z)
    : result LteHarqProcessTx :=
  let! _ := peekAtFront pkt in
  let p := add_selected (add_empty p (-1)) 1 in
  let! u := unit_at p cw in
  let! u := unit_insertPdu u (Some pkt) in
  let! p := set_unit p cw u in
  Ok (p <| dropped_ := false |>).

Definition proc_markSelected (p : LteHarqProcessTx) (cw : Z) : result LteHarqProcessTx :=
  if numSelected_ p =? numHarqUnits_ p then
    Throw "H-ARQ TX process: cannot select another unit because they are all already selected" else
  let p := add_selected p 1 in
  let! u := unit_at p cw in
  let! u := unit_markSelected u in
  set_unit p cw u.

Definition proc_extractPdu (NOW : Z) (p : LteHarqProcessTx) (cw : Z)
    : result (Packet * LteHarqProcessTx) :=
  if numSelected_ p =? 0 then Throw "H-ARQ TX process: cannot extract pdu: numSelected = 0 " else
  let p := add_selected p (-1) in
  let! u := unit_at p cw in
  let! (pkt, u) := unit_extractPdu NOW u in
  let! p := set_unit p cw u in
  let! _ := peekAtFront pkt in
  Ok (pkt, p).

(** What [pduFeedback] and [selfNack] do with the answer of the unit. *)
Definition unit_reset (p : LteHarqProcessTx) (reset : bool) : bool * LteHarqProcessTx :=
  let p := if reset then add_empty p 1 else p in (proc_isEmpty p, p).

Definition proc_pduFeedback (p : LteHarqProcessTx) (fb : HarqAcknowledgment) (cw : Z)
    : result (bool * LteHarqProcessTx) :=
  let! u := unit_at p cw in
  let! (reset, u) := unit_pduFeedback u fb in
  let! p := set_unit p cw u in
  Ok (unit_reset p reset).

Definition proc_selfNack (NOW : Z) (p : LteHarqProcessTx) (cw : Z)
    : result (bool * LteHarqProcessTx) :=
  let! u := unit_at p cw in
  let! (reset, u) := unit_selfNack NOW u in
  let! p := set_unit p cw u in
  Ok (unit_reset p reset).

(** The loops [for (i = 0; i < numHarqUnits_; i++)]: [n] iterations are left at [i]. *)
Fixpoint has_ready_from (us : list LteHarqUnitTx) (n : nat) (i : Z) : result bool :=
  match n with
  | O => Ok false
  | S n => let! u := of_option (vget us i) in
           if unit_isReady u then Ok true else has_ready_from us n (i + 1)
  end.

Definition hasReadyUnits (p : LteHarqProcessTx) : result bool :=
  has_ready_from (units_ p) (Z.to_nat (numHarqUnits_ p)) 0.

Fixpoint oldest_from (us : list LteHarqUnitTx) (n : nat) (i oldestTxTime : Z) : result Z :=
  match n with
  | O => Ok oldestTxTime
  | S n => let! u := of_option (vget us i) in
           oldest_from us n (i + 1)
             (if unit_isReady u && (txTime_ u <? oldestTxTime) then txTime_ u else oldestTxTime)
  end.

Definition getOldestUnitTxTime (NOW : Z) (p : LteHarqProcessTx) : result Z :=
  oldest_from (units_ p) (Z.to_nat (numHarqUnits_ p)) 0 (NOW + SECOND).

Fixpoint ids_from (f : LteHarqUnitTx -> bool) (us : list LteHarqUnitTx) (n : nat) (i : Z)
    : result (list Z) :=
  match n with
  | O => Ok []
  | S n => let! u := of_option (vget us i) in
           let! ul := ids_from f us n (i + 1) in
           Ok (if f u then i :: ul else ul)
  end.

Definition readyUnitsIds (p : LteHarqProcessTx) : result (list Z) :=
  ids_from unit_isReady (units_ p) (Z.to_nat (numHarqUnits_ p)) 0.
Definition emptyUnitsIds (p : LteHarqProcessTx) : result (list Z) :=
  ids_from unit_isEmpty (units_ p) (Z.to_nat (numHarqUnits_ p)) 0.
Definition selectedUnitsIds (p : LteHarqProcessTx) : result (list Z) :=
  ids_from unit_isMarked (units_ p) (Z.to_nat (numHarqUnits_ p)) 0.

Definition proc_getPdu (p : LteHarqProcessTx) (cw : Z) : result Packet :=
  let! u := unit_at p cw in
  let! pkt := unit_getPdu u in
  let! _ := peekAtFront pkt in unit_getPdu u.

Definition getPduId (p : LteHarqProcessTx) (cw : Z) : result Z :=
  let! u := unit_at p cw in Ok (pduId_ u).

Fixpoint force_drop_from (us : list LteHarqUnitTx) (n : nat) (i : Z)
    : result (list LteHarqUnitTx) :=
  match n with
  | O => Ok us
  | S n => let! u := of_option (vget us i) in
           let! us := of_option (vset us i (unit_forceDropUnit u)) in
           force_drop_from us n (i + 1)
  end.

Definition proc_forceDropProcess (p : LteHarqProcessTx) : result LteHarqProcessTx :=
  let! us := force_drop_from (units_ p) (Z.to_nat (numHarqUnits_ p)) 0 in
  Ok (p <| units_ := us |> <| numEmptyUnits_ := numHarqUnits_ p |> <| numSelected_ := 0 |>
        <| dropped_ := true |>).

Definition proc_forceDropUnit (p : LteHarqProcessTx) (cw : Z) : result (bool * LteHarqProcessTx) :=
  let! u := unit_at p cw in
  let p := if unit_isMarked u then add_selected p (-1) else p in
  let! p := set_unit p cw (unit_forceDropUnit u) in
  let p := add_empty p 1 in
  Ok (proc_isEmpty p, p).

Definition proc_dropPdu (p : LteHarqProcessTx) (cw : Z) : result LteHarqProcessTx :=
  let! u := unit_at p cw in
  let! u := unit_dropPdu u in
  let! p := set_unit p cw u in
  Ok (add_empty p 1).

Definition getUnitStatus (p : LteHarqProcessTx) (cw : Z) : result TxHarqPduStatus :=
  let! u := unit_at p cw in Ok (status_ u).
Definition isUnitEmpty (p : LteHarqProcessTx) (cw : Z) : result bool :=
  let! u := unit_at p cw in Ok (unit_isEmpty u).
Definition getPduLength (p : LteHarqProcessTx) (cw : Z) : result Z :=
  let! u := unit_at p cw in Ok (pduLength_ u).

Fixpoint process_status_from (p : LteHarqProcessTx) (n : nat) (j : Z)
    : result (list (Z * TxHarqPduStatus)) :=
  match n with
  | O => Ok []
  | S n => let! s := getUnitStatus p j in
           let! ret := process_status_from p n (j + 1) in
           Ok ((uint8 j, s) :: ret)
  end.

Definition getProcessStatus (p : LteHarqProcessTx) : result (list (Z * TxHarqPduStatus)) :=
  process_status_from p (Z.to_nat (numHarqUnits_ p)) 0.
