(* ===== verification/HarqTxBuffer.v ===== *)
(** * LteHarqBufferTx

    The H-ARQ processes towards one destination
    (src/simulte/src/stack/mac/buffer/harq/LteHarqBufferTx.cc): choice of a process for
    a new transmission or a retransmission, insertion, selection with concatenation
    when there are fewer transport blocks than codewords, sending and feedback. *)

From S2P Require Import Prelude.
From S2P Require Import HarqTx.
#[local] Open Scope Z_scope.

(** [UnitList]: a process and codewords of it. *)
Abbreviation UnitList := (Z * list Z)%type.

Record LteHarqBufferTx := {
  processes_ : list LteHarqProcessTx;
  numProc_ : Z;
  numEmptyProc_ : Z;
  selectedAcid_ : Z;
  nodeId_ : Z
}.

#[export] Instance buftx_eta : Eta LteHarqBufferTx := fun b =>
  {| processes_ := processes_ b; numProc_ := numProc_ b; numEmptyProc_ := numEmptyProc_ b;
     selectedAcid_ := selectedAcid_ b; nodeId_ := nodeId_ b |}.

Fixpoint new_processes (n : nat) (i numProc maxHarqRtx len : Z) : list LteHarqProcessTx :=
  match n with
  | O => []
  | S n => new_LteHarqProcessTx (uint8 i) MAX_CODEWORDS numProc maxHarqRtx len
           :: new_processes n (i + 1) numProc maxHarqRtx len
  end.

Definition new_LteHarqBufferTx (numProc nodeId maxHarqRtx len : Z) : LteHarqBufferTx :=
  {| processes_ := new_processes (Z.to_nat numProc) 0 numProc maxHarqRtx len;
     numProc_ := numProc; numEmptyProc_ := numProc; selectedAcid_ := HARQ_NONE;
     nodeId_ := nodeId |}.

Definition proc_at (b : LteHarqBufferTx) (acid : Z) : result LteHarqProcessTx :=
  of_option (vget (processes_ b) acid).
Definition set_proc (b : LteHarqBufferTx) (acid : Z) (p : LteHarqProcessTx)
    : result LteHarqBufferTx :=
  let! ps := of_option (vset (processes_ b) acid p) in Ok (b <| processes_ := ps |>).

Definition add_empty_proc (b : LteHarqBufferTx) (n : Z) : LteHarqBufferTx :=
  b <| numEmptyProc_ := uint32 (numEmptyProc_ b + n) |>.

(** ** Choosing a process *)

Fixpoint first_ready_from (NOW : Z) (ps : list LteHarqProcessTx) (n : nat)
    (i oldestProcessAcid oldestTxTime : Z) : result Z :=
  match n with
  | O => Ok oldestProcessAcid
  | S n =>
      let! p := of_option (vget ps i) in
      let! ready := hasReadyUnits p in
      if ready then
        let! currentTxTime := getOldestUnitTxTime NOW p in
        if currentTxTime <? oldestTxTime
        then first_ready_from NOW ps n (i + 1) (uint8 i) currentTxTime
        else first_ready_from NOW ps n (i + 1) oldestProcessAcid oldestTxTime
      else first_ready_from NOW ps n (i + 1) oldestProcessAcid oldestTxTime
  end.

Definition firstReadyForRtx (NOW : Z) (b : LteHarqBufferTx) : result UnitList :=
  let! acid :=
    first_ready_from NOW (processes_ b) (Z.to_nat (numProc_ b)) 0 HARQ_NONE (NOW + SECOND) in
  if acid =? HARQ_NONE then Ok (acid, []) else
  let! p := proc_at b acid in
  let! ul := readyUnitsIds p in Ok (acid, ul).

Fixpoint first_empty_from (ps : list LteHarqProcessTx) (n : nat) (i : Z) : result Z :=
  match n with
  | O => Ok HARQ_NONE
  | S n => let! p := of_option (vget ps i) in
           if proc_isEmpty p then Ok (uint8 i) else first_empty_from ps n (i + 1)
  end.

Definition getEmptyUnits (b : LteHarqBufferTx) (acid : Z) : result UnitList :=
  let! p := proc_at b acid in
  let! ul := emptyUnitsIds p in Ok (acid, ul).

Definition firstAvailable (b : LteHarqBufferTx) : result UnitList :=
  let! acid :=
    if selectedAcid_ b =? HARQ_NONE
    then first_empty_from (processes_ b) (Z.to_nat (numProc_ b)) 0
    else Ok (selectedAcid_ b) in
  if acid =? HARQ_NONE then Ok (acid, []) else getEmptyUnits b acid.

Definition pduLength (b : LteHarqBufferTx) (acid cw : Z) : result Z :=
  let! p := proc_at b acid in getPduLength p cw.

(** ** Selecting units for retransmission *)

(** [while (guestPdu->hasSdu()) basePdu->pushSdu(guestPdu->popSdu())]: as many turns as
    the guest has SDUs. *)
Fixpoint move_sdus (fuel : list Sdu) (basePdu guestPdu : LteMacPdu)
    : result (LteMacPdu * LteMacPdu) :=
  match fuel with
  | [] => Ok (basePdu, guestPdu)
  | _ :: fuel =>
      let! (pkt, guestPdu) := mac_popSdu guestPdu in
      move_sdus fuel (mac_pushSdu basePdu pkt) guestPdu
  end.

Fixpoint move_ces (fuel : list MacControlElement) (basePdu guestPdu : LteMacPdu)
    : result (LteMacPdu * LteMacPdu) :=
  match fuel with
  | [] => Ok (basePdu, guestPdu)
  | _ :: fuel =>
      let! (ce, guestPdu) := popCe guestPdu in
      move_ces fuel (pushCe basePdu ce) guestPdu
  end.

(** The code changes the packet of a unit through the pointer [getPdu] returns. *)
Definition set_pkt (p : LteHarqProcessTx) (cw : Z) (pkt : Packet) : result LteHarqProcessTx :=
  let! u := unit_at p cw in set_unit p cw (u <| pdu_ := Some pkt |>).

Fixpoint concat_units (p : LteHarqProcessTx) (basePdu : LteMacPdu) (cwList : list Z)
    : result (LteHarqProcessTx * LteMacPdu) :=
  match cwList with
  | [] => Ok (p, basePdu)
  | cw :: cwList =>
      let! pkt2 := proc_getPdu p cw in
      let! (guestPdu, pkt2) := removeAtFront pkt2 in
      let! (basePdu, guestPdu) := move_sdus (sduList_ guestPdu) basePdu guestPdu in
      let! (basePdu, guestPdu) := move_ces (ceList_ guestPdu) basePdu guestPdu in
      let! p := set_pkt p cw (insertAtFront pkt2 guestPdu) in
      let! p := proc_dropPdu p cw in
      concat_units p basePdu cwList
  end.

Fixpoint mark_units (p : LteHarqProcessTx) (cwList : list Z) : result LteHarqProcessTx :=
  match cwList with
  | [] => Ok p
  | cw :: cwList => let! p := proc_markSelected p cw in mark_units p cwList
  end.

(** Fewer transport blocks than codewords: the contents of the other units go into the
    first, the others are dropped. *)
Definition mark_jumbo (p : LteHarqProcessTx) (cwList : list Z) : result LteHarqProcessTx :=
  match cwList with
  | [] => UB
  | cw :: cwList =>
      let! pkt := proc_getPdu p cw in
      let! (basePdu, pkt) := removeAtFront pkt in
      let! p := set_pkt p cw pkt in
      let! (p, basePdu) := concat_units p basePdu cwList in
      let! p := set_pkt p cw (insertAtFront pkt basePdu) in
      proc_markSelected p cw
  end.

Definition buf_markSelected (b : LteHarqBufferTx) (unitIds : UnitList) (availableTbs : Z)
    : result LteHarqBufferTx :=
  if bool_decide (unitIds.2 = []) then Ok b else
  if availableTbs =? 0 then Ok b else
  let acid := unitIds.1 in
  let! p := proc_at b acid in
  let! p := if availableTbs <? vsize unitIds.2 then mark_jumbo p unitIds.2
            else mark_units p unitIds.2 in
  let! b := set_proc b acid p in
  Ok (b <| selectedAcid_ := acid |>).

(** ** Insertion, sending, feedback *)

Definition buf_insertPdu (b : LteHarqBufferTx) (acid cw : Z) (pkt : Packet)
    : result LteHarqBufferTx :=
  let! _ := peekAtFront pkt in
  let! p := proc_at b acid in
  if (selectedAcid_ b =? HARQ_NONE) && negb (proc_isEmpty p) then
    Throw "H-ARQ TX buffer: new process selected for tx is not completely empty" else
  let! empty := isUnitEmpty p cw in
  if negb empty then Throw "LteHarqBufferTx::insertPdu(): unit is not empty" else
  let b := add_empty_proc (b <| selectedAcid_ := acid |>) (-1) in
  let! p := proc_insertPdu p pkt cw in
  set_proc b acid p.

Fixpoint send_units (NOW : Z) (p : LteHarqProcessTx) (ul : list Z)
    : result (list Packet * LteHarqProcessTx) :=
  match ul with
  | [] => Ok ([], p)
  | cw :: ul =>
      let! (pkt, p) := proc_extractPdu NOW p cw in
      let! _ := peekAtFront pkt in
      let! (sent, p) := send_units NOW p ul in
      Ok (pkt :: sent, p)
  end.

(** The packets are the ones given to [sendLowerPackets], in order. *)
Definition sendSelectedDown (NOW : Z) (b : LteHarqBufferTx)
    : result (list Packet * LteHarqBufferTx) :=
  if selectedAcid_ b =? HARQ_NONE then Ok ([], b) else
  let! p := proc_at b (selectedAcid_ b) in
  let! ul := selectedUnitsIds p in
  let! (sent, p) := send_units NOW p ul in
  let! b := set_proc b (selectedAcid_ b) p in
  Ok (sent, b <| selectedAcid_ := HARQ_NONE |>).

(** [LteHarqFeedback], in a packet of its own. *)
Record LteHarqFeedback := {
  fb_acid : Z;
  fb_cw : Z;
  fb_result : bool;
  fbMacPduId : Z
}.

Definition receiveHarqFeedback (b : LteHarqBufferTx) (fbpkt : LteHarqFeedback)
    : result LteHarqBufferTx :=
  let harqResult := if fb_result fbpkt then HARQACK else HARQNACK in
  let cw := fb_cw fbpkt in
  let acid := fb_acid fbpkt in
  let! p := proc_at b acid in
  let! unitPduId := getPduId p cw in
  if dropped_ p then Ok b else
  if negb (fbMacPduId fbpkt =? unitPduId) then
    Throw "H-ARQ TX: fb is not for the pdu in this unit, maybe the addressed one was dropped" else
  let! (reset, p) := proc_pduFeedback p harqResult cw in
  let! b := set_proc b acid p in
  Ok (if reset then add_empty_proc b 1 else b).

(** ** Dropping *)

Fixpoint drop_units (p : LteHarqProcessTx) (ul : list Z) : result LteHarqProcessTx :=
  match ul with
  | [] => Ok p
  | cw :: ul => let! p := proc_dropPdu p cw in drop_units p ul
  end.

Definition buf_dropProcess (b : LteHarqBufferTx) (acid : Z) : result LteHarqBufferTx :=
  let! p := proc_at b acid in
  let! ul := readyUnitsIds p in
  let! p := drop_units p ul in
  let! b := set_proc b acid p in
  Ok (add_empty_proc b 1).

Fixpoint nack_units (NOW : Z) (p : LteHarqProcessTx) (ul : list Z) (reset : bool)
    : result (bool * LteHarqProcessTx) :=
  match ul with
  | [] => Ok (reset, p)
  | cw :: ul => let! (reset, p) := proc_selfNack NOW p cw in nack_units NOW p ul reset
  end.

(** The codeword argument is not used: every ready unit of the process is nacked. *)
Definition buf_selfNack (NOW : Z) (b : LteHarqBufferTx) (acid cw : Z) : result LteHarqBufferTx :=
  let! p := proc_at b acid in
  let! ul := readyUnitsIds p in
  let! (reset, p) := nack_units NOW p ul false in
  let! b := set_proc b acid p in
  Ok (if reset then add_empty_proc b 1 else b).

Definition unselect (b : LteHarqBufferTx) (acid : Z) : LteHarqBufferTx :=
  if acid =? selectedAcid_ b then b <| selectedAcid_ := HARQ_NONE |> else b.

Definition buf_forceDropProcess (b : LteHarqBufferTx) (acid : Z) : result LteHarqBufferTx :=
  let! p := proc_at b acid in
  let! p := proc_forceDropProcess p in
  let! b := set_proc b acid p in
  Ok (add_empty_proc (unselect b acid) 1).

Definition buf_forceDropUnit (b : LteHarqBufferTx) (acid cw : Z) : result LteHarqBufferTx :=
  let! p := proc_at b acid in
  let! (reset, p) := proc_forceDropUnit p cw in
  let! b := set_proc b acid p in
  Ok (if reset then add_empty_proc (unselect b acid) 1 else b).

(** ** Observers *)

Fixpoint buffer_status_from (ps : list LteHarqProcessTx) (n : nat) (i : Z)
    : result (list (list (Z * TxHarqPduStatus))) :=
  match n with
  | O => Ok []
  | S n => let! p := of_option (vget ps i) in
           let! vus := getProcessStatus p in
           let! bs := buffer_status_from ps n (i + 1) in
           Ok (vus :: bs)
  end.

Definition getBufferStatus (b : LteHarqBufferTx) : result (list (list (Z * TxHarqPduStatus))) :=
  buffer_status_from (processes_ b) (Z.to_nat (numProc_ b)) 0.

Definition getProcess (b : LteHarqBufferTx) (acid : Z) : result LteHarqProcessTx :=
  match vget (processes_ b) acid with
  | Some p => Ok p
  | None => Throw "LteHarqBufferTx::getProcess(): acid out of bounds"
  end.

Definition getSelectedProcess (b : LteHarqBufferTx) : result LteHarqProcessTx :=
  getProcess b (selectedAcid_ b).

Definition isInUnitList (acid cw : Z) (unitIds : UnitList) : bool :=
  if negb (acid =? unitIds.1) then false else existsb (fun it => cw =? it) unitIds.2.
