(* ===== verification/HarqRx.v ===== *)
(** * The receiving side of H-ARQ

    src/simulte/src/stack/mac/buffer/harq/: [LteHarqProcessRx] keeps, for each codeword
    of a process, the PDU received, its evaluation and its state; [LteHarqBufferRx] the
    processes of one sender.  The packets are owned by the process that holds them.
    Throughput and delay statistics are left out; what [extractCorrectPdus] hands up and
    the feedback it sends are results. *)

From S2P Require Import Prelude.
From S2P Require Import HarqTx.
From S2P Require Import HarqTxBuffer.
#[local] Open Scope Z_scope.

(** [HARQ_FB_EVALUATION_INTERVAL]. *)
Definition FB_INTERVAL : Z := 3 * TTI.

Inductive RxHarqPduStatus : Type :=
| RXHARQ_PDU_EMPTY
| RXHARQ_PDU_EVALUATING
| RXHARQ_PDU_CORRECT
| RXHARQ_PDU_CORRUPTED.

#[export] Instance rxstatus_eq_dec : EqDecision RxHarqPduStatus.
Proof. solve_decision. Defined.

Record LteHarqProcessRx := {
  rx_pdu_ : list (option Packet);
  rx_status_ : list RxHarqPduStatus;
  rxTime_ : list Z;
  result_ : list bool;
  rx_acid_ : Z;
  rx_transmissions_ : Z;
  rx_maxHarqRtx_ : Z
}.

#[export] Instance procrx_eta : Eta LteHarqProcessRx := fun p =>
  {| rx_pdu_ := rx_pdu_ p; rx_status_ := rx_status_ p; rxTime_ := rxTime_ p;
     result_ := result_ p; rx_acid_ := rx_acid_ p; rx_transmissions_ := rx_transmissions_ p;
     rx_maxHarqRtx_ := rx_maxHarqRtx_ p |}.

(** [maxHarqRtx_] is an [unsigned char] here. *)
Definition new_LteHarqProcessRx (acid maxHarqRtx : Z) : LteHarqProcessRx :=
  let n := Z.to_nat MAX_CODEWORDS in
  {| rx_pdu_ := replicate n None; rx_status_ := replicate n RXHARQ_PDU_EMPTY;
     rxTime_ := replicate n 0; result_ := replicate n false; rx_acid_ := acid;
     rx_transmissions_ := 0; rx_maxHarqRtx_ := uint8 maxHarqRtx |}.

(** [std::vector::at]: an exception out of range. *)
Definition vec_at {A} (v : list A) (i : Z) : result A :=
  match vget v i with Some x => Ok x | None => Throw "vector::at" end.
Definition vec_set {A} (v : list A) (i : Z) (x : A) : result (list A) :=
  match vset v i x with Some v => Ok v | None => Throw "vector::at" end.

Definition rx_getUnitStatus (p : LteHarqProcessRx) (cw : Z) : result RxHarqPduStatus :=
  vec_at (rx_status_ p) cw.

Definition rx_set_status (p : LteHarqProcessRx) (cw : Z) (s : RxHarqPduStatus)
    : result LteHarqProcessRx :=
  let! v := vec_set (rx_status_ p) cw s in Ok (p <| rx_status_ := v |>).
Definition rx_set_pdu (p : LteHarqProcessRx) (cw : Z) (pkt : option Packet)
    : result LteHarqProcessRx :=
  let! v := vec_set (rx_pdu_ p) cw pkt in Ok (p <| rx_pdu_ := v |>).
Definition rx_set_time (p : LteHarqProcessRx) (cw t : Z) : result LteHarqProcessRx :=
  let! v := vec_set (rxTime_ p) cw t in Ok (p <| rxTime_ := v |>).
Definition rx_set_result (p : LteHarqProcessRx) (cw : Z) (r : bool) : result LteHarqProcessRx :=
  let! v := vec_set (result_ p) cw r in Ok (p <| result_ := v |>).

Definition rx_insertPdu (NOW : Z) (p : LteHarqProcessRx) (cw : Z) (pkt : Packet)
    : result LteHarqProcessRx :=
  let! _ := peekAtFront pkt in
  let ndi := ndi (tag pkt) in
  let! st := rx_getUnitStatus p cw in
  if ndi && negb (bool_decide (st = RXHARQ_PDU_EMPTY)) then
    Throw "New data arriving in busy harq process -- this should not happen" else
  if negb ndi && negb (bool_decide (st = RXHARQ_PDU_EMPTY))
     && negb (bool_decide (st = RXHARQ_PDU_CORRUPTED)) then
    Throw "Trying to insert macPdu in non-empty rx harq process" else
  let! p := rx_set_pdu p cw (Some pkt) in
  let! p := rx_set_result p cw (deciderResult (tag pkt)) in
  let! p := rx_set_status p cw RXHARQ_PDU_EVALUATING in
  let! p := rx_set_time p cw NOW in
  Ok (p <| rx_transmissions_ := uint8 (rx_transmissions_ p + 1) |>).

Definition isEvaluated (NOW : Z) (p : LteHarqProcessRx) (cw : Z) : result bool :=
  let! st := rx_getUnitStatus p cw in
  if bool_decide (st = RXHARQ_PDU_EVALUATING) then
    let! t := vec_at (rxTime_ p) cw in Ok (FB_INTERVAL <=? NOW - t)
  else Ok false.

Definition isCorrect (p : LteHarqProcessRx) (cw : Z) : result bool :=
  let! st := rx_getUnitStatus p cw in Ok (bool_decide (st = RXHARQ_PDU_CORRECT)).

Definition purgeCorruptedPdu (p : LteHarqProcessRx) (cw : Z) : result LteHarqProcessRx :=
  rx_set_pdu p cw None.

Definition resetCodeword (p : LteHarqProcessRx) (cw : Z) : result LteHarqProcessRx :=
  let! p := rx_set_pdu p cw None in
  let! p := rx_set_status p cw RXHARQ_PDU_EMPTY in
  let! p := rx_set_time p cw 0 in
  let! p := rx_set_result p cw false in
  Ok (p <| rx_transmissions_ := 0 |>).

(** A feedback packet: the chunk and the addresses of its control information. *)
Record FeedbackPkt := { fb_chunk : LteHarqFeedback; fb_source : Z; fb_dest : Z }.

Definition createFeedback (NOW : Z) (p : LteHarqProcessRx) (cw : Z)
    : result (FeedbackPkt * LteHarqProcessRx) :=
  let! ev := isEvaluated NOW p cw in
  if negb ev then Throw "Cannot send feedback for a pdu not in EVALUATING state" else
  let! slot := vec_at (rx_pdu_ p) cw in
  let! pkt := of_option slot in
  let! pdu := peekAtFront pkt in
  let! r := vec_at (result_ p) cw in
  let fb := {| fb_chunk := {| fb_acid := rx_acid_ p; fb_cw := uint8 cw; fb_result := r;
                              fbMacPduId := macPduId pdu |};
               fb_source := destId (tag pkt); fb_dest := sourceId (tag pkt) |} in
  let! p :=
    if negb r then
      let! p := rx_set_status p cw RXHARQ_PDU_CORRUPTED in
      if rx_transmissions_ p =? rx_maxHarqRtx_ p + 1 then
        let! p := purgeCorruptedPdu p cw in resetCodeword p cw
      else Ok p
    else rx_set_status p cw RXHARQ_PDU_CORRECT in
  Ok (fb, p).

Definition rx_extractPdu (p : LteHarqProcessRx) (cw : Z) : result (Packet * LteHarqProcessRx) :=
  let! c := isCorrect p cw in
  if negb c then Throw "Cannot extract pdu if the state is not CORRECT" else
  let! slot := vec_at (rx_pdu_ p) cw in
  let! pkt := of_option slot in
  let! _ := peekAtFront pkt in
  let! p := rx_set_pdu p cw None in
  let! p := resetCodeword p cw in
  Ok (pkt, p).

Definition rx_getByteLength (p : LteHarqProcessRx) (cw : Z) : result Z :=
  let! slot := vec_at (rx_pdu_ p) cw in
  Ok (match slot with Some pkt => pkt_getByteLength pkt | None => 0 end).

Fixpoint rx_status_from (p : LteHarqProcessRx) (n : nat) (j : Z)
    : result (list (Z * RxHarqPduStatus)) :=
  match n with
  | O => Ok []
  | S n => let! s := rx_getUnitStatus p j in
           let! ret := rx_status_from p n (j + 1) in
           Ok ((uint8 j, s) :: ret)
  end.

Definition rx_getProcessStatus (p : LteHarqProcessRx) : result (list (Z * RxHarqPduStatus)) :=
  rx_status_from p (Z.to_nat MAX_CODEWORDS) 0.

(** ** LteHarqBufferRx *)

Record LteHarqBufferRx := {
  numHarqProcesses_ : Z;
  rx_nodeId_ : Z;
  rx_processes_ : list LteHarqProcessRx;
  isMulticast_ : bool;
  totalRcvdBytes_ : Z
}.

#[export] Instance bufrx_eta : Eta LteHarqBufferRx := fun b =>
  {| numHarqProcesses_ := numHarqProcesses_ b; rx_nodeId_ := rx_nodeId_ b;
     rx_processes_ := rx_processes_ b; isMulticast_ := isMulticast_ b;
     totalRcvdBytes_ := totalRcvdBytes_ b |}.

Fixpoint new_rx_processes (n : nat) (i maxHarqRtx : Z) : list LteHarqProcessRx :=
  match n with
  | O => []
  | S n => new_LteHarqProcessRx (uint8 i) maxHarqRtx :: new_rx_processes n (i + 1) maxHarqRtx
  end.

Definition new_LteHarqBufferRx (num nodeId maxHarqRtx : Z) : LteHarqBufferRx :=
  {| numHarqProcesses_ := num; rx_nodeId_ := nodeId;
     rx_processes_ := new_rx_processes (Z.to_nat num) 0 maxHarqRtx;
     isMulticast_ := false; totalRcvdBytes_ := 0 |}.

Definition rx_proc_at (b : LteHarqBufferRx) (i : Z) : result LteHarqProcessRx :=
  of_option (vget (rx_processes_ b) i).
Definition rx_set_proc (b : LteHarqBufferRx) (i : Z) (p : LteHarqProcessRx)
    : result LteHarqBufferRx :=
  let! ps := of_option (vset (rx_processes_ b) i p) in Ok (b <| rx_processes_ := ps |>).

(** [LteMacBase::resetHarq_]: when the H-ARQ processes of a node were last aborted. *)
Definition isHarqReset (NOW : Z) (resetHarq : gmap Z Z) (srcId : Z) : bool :=
  match resetHarq !! srcId with Some t => t =? NOW | None => false end.

Definition rxbuf_insertPdu (NOW : Z) (resetHarq : gmap Z Z) (b : LteHarqBufferRx) (cw : Z)
    (pkt : Packet) : result LteHarqBufferRx :=
  let! _ := peekAtFront pkt in
  if isHarqReset NOW resetHarq (sourceId (tag pkt)) then Ok b else
  let acid := acid (tag pkt) in
  let! p := rx_proc_at b acid in
  let! p := rx_insertPdu NOW p cw pkt in
  rx_set_proc b acid p.

(** The nested loops over processes and codewords: [body] is run for every codeword of
    every process, in order. *)
Fixpoint for_codewords {S} (body : Z -> Z -> S -> result S) (n : nat) (i cw : Z) (s : S)
    : result S :=
  match n with
  | O => Ok s
  | S n => let! s := body i cw s in for_codewords body n i (cw + 1) s
  end.

Fixpoint for_processes {S} (body : Z -> Z -> S -> result S) (n : nat) (i : Z) (s : S)
    : result S :=
  match n with
  | O => Ok s
  | S n => let! s := for_codewords body (Z.to_nat MAX_CODEWORDS) i 0 s in
           for_processes body n (i + 1) s
  end.

Definition feedback_one (NOW : Z) (i cw : Z) (s : list FeedbackPkt * LteHarqBufferRx)
    : result (list FeedbackPkt * LteHarqBufferRx) :=
  let! p := rx_proc_at s.2 i in
  let! ev := isEvaluated NOW p cw in
  if ev then
    let! (pkt, p) := createFeedback NOW p cw in
    let! b := rx_set_proc s.2 i p in
    Ok (s.1 ++ [pkt], b)
  else Ok s.

(** The packets are those given to [sendLowerPackets]. *)
Definition sendFeedback (NOW : Z) (b : LteHarqBufferRx)
    : result (list FeedbackPkt * LteHarqBufferRx) :=
  for_processes (feedback_one NOW) (Z.to_nat (numHarqProcesses_ b)) 0 ([], b).

Definition purge_one (i cw : Z) (s : Z * LteHarqBufferRx) : result (Z * LteHarqBufferRx) :=
  let! p := rx_proc_at s.2 i in
  let! st := rx_getUnitStatus p cw in
  if bool_decide (st = RXHARQ_PDU_CORRUPTED) then
    let! p := purgeCorruptedPdu p cw in
    let! p := resetCodeword p cw in
    let! b := rx_set_proc s.2 i p in
    Ok (uint32 (s.1 + 1), b)
  else Ok s.

Definition purgeCorruptedPdus (b : LteHarqBufferRx) : result (Z * LteHarqBufferRx) :=
  for_processes purge_one (Z.to_nat (numHarqProcesses_ b)) 0 (0, b).

Definition extract_one (i cw : Z) (s : list Packet * LteHarqBufferRx)
    : result (list Packet * LteHarqBufferRx) :=
  let! p := rx_proc_at s.2 i in
  let! c := isCorrect p cw in
  if c then
    let! (pkt, p) := rx_extractPdu p cw in
    let! _ := peekAtFront pkt in
    let! b := rx_set_proc s.2 i p in
    Ok (s.1 ++ [pkt],
        b <| totalRcvdBytes_ := uint32 (totalRcvdBytes_ b + uint32 (pkt_getByteLength pkt)) |>)
  else Ok s.

(** The feedback sent, the packets handed up, the new state. *)
Definition extractCorrectPdus (NOW : Z) (b : LteHarqBufferRx)
    : result (list FeedbackPkt * list Packet * LteHarqBufferRx) :=
  let! (fbs, b) := sendFeedback NOW b in
  let! (ret, b) := for_processes extract_one (Z.to_nat (numHarqProcesses_ b)) 0 ([], b) in
  Ok (fbs, ret, b).

Fixpoint rx_buffer_status_from (ps : list LteHarqProcessRx) (n : nat) (i : Z)
    : result (list (list (Z * RxHarqPduStatus))) :=
  match n with
  | O => Ok []
  | S n => let! p := of_option (vget ps i) in
           let! vus := rx_getProcessStatus p in
           let! bs := rx_buffer_status_from ps n (i + 1) in
           Ok (vus :: bs)
  end.

Definition rx_getBufferStatus (b : LteHarqBufferRx) : result (list (list (Z * RxHarqPduStatus))) :=
  rx_buffer_status_from (rx_processes_ b) (Z.to_nat (numHarqProcesses_ b)) 0.
