(* ===== verification/HarqTxFacts.v ===== *)
(** * Units and processes of the transmitting side

    What a unit holds in each of its states, the counters of a process as counts over
    its units, and the specification of each operation on an acceptable input. *)

From S2P Require Import Prelude.
From S2P Require Import LteCommon.
From S2P Require Import HarqTx.
#[local] Open Scope Z_scope.

(** ** What a unit holds *)

Definition routable (d : Direction) : Prop := d = DL \/ d = UL.

Definition addressed (a c : Z) (pkt : Packet) : Prop :=
  acid (tag pkt) = a /\ cw (tag pkt) = c /\ routable (direction (tag pkt)).

(** The packet of a unit has the PDU as its chunk. *)
Definition carries (u : LteHarqUnitTx) (pdu : LteMacPdu) : Prop :=
  exists pkt, pdu_ u = Some pkt /\ front pkt = Some pdu.

(** Transmissions made so far, by state, with [m] retransmissions allowed. *)
Definition tx_bounds (m : Z) (s : TxHarqPduStatus) (t : Z) : Prop :=
  match s with
  | TXHARQ_PDU_EMPTY => t = 0
  | TXHARQ_PDU_SELECTED => 0 <= t <= m
  | TXHARQ_PDU_WAITING => 1 <= t <= m + 1
  | TXHARQ_PDU_BUFFERED => 1 <= t <= m
  end.

(** The chunk length agrees with the contents. *)
Definition measured (pdu : LteMacPdu) : Prop := chunkLength pdu = pdu_getBitLength pdu.

Definition holds (a c : Z) (u : LteHarqUnitTx) : Prop :=
  exists pkt pdu, pdu_ u = Some pkt /\ front pkt = Some pdu /\ addressed a c pkt /\
                  macPduId pdu = pduId_ u /\ measured pdu.

Record unit_ok (m a c : Z) (u : LteHarqUnitTx) : Prop := {
  ok_acid : unit_acid_ u = a;
  ok_cw : cw_ u = c;
  ok_max : maxHarqRtx_ u = m;
  ok_tx : tx_bounds m (status_ u) (transmissions_ u);
  ok_pdu : if unit_isEmpty u then pdu_ u = None /\ pduId_ u = -1 else holds a c u
}.

(** A packet the MAC may insert at a codeword. *)
Definition insertable (c : Z) (pkt : Packet) (pdu : LteMacPdu) : Prop :=
  front pkt = Some pdu /\ cw (tag pkt) = c /\ routable (direction (tag pkt)) /\ measured pdu.

(** The PDU as it is stored: stamped with its identifier. *)
Definition stamped (pdu : LteMacPdu) : LteMacPdu := pdu <| macPduId := getId pdu |>.

Section Units.
Context (m a c : Z) (Hm : 0 <= m < 255) (Hc : 0 <= c < MAX_CODEWORDS).
Implicit Types (u : LteHarqUnitTx) (pdu : LteMacPdu).

Lemma unit_ok_holds u :
  unit_ok m a c u -> status_ u <> TXHARQ_PDU_EMPTY -> holds a c u.
Proof.
  intros Hu Hs. pose proof (ok_pdu _ _ _ _ Hu) as Hp.
  unfold unit_isEmpty in Hp. by rewrite bool_decide_eq_false_2 in Hp.
Qed.

Lemma reset_ok u : unit_ok m a c u -> unit_ok m a c (resetUnit u).
Proof. intros []. by constructor. Qed.

Lemma unit_insert_spec u pkt pdu :
  unit_ok m a c u -> status_ u = TXHARQ_PDU_EMPTY -> insertable c pkt pdu ->
  exists u', unit_insertPdu u (Some pkt) = Ok u' /\ unit_ok m a c u' /\
             status_ u' = TXHARQ_PDU_SELECTED /\ transmissions_ u' = 0 /\
             carries u' (stamped pdu).
Proof.
  intros [Ha Hcw Hmx Ht Hp] Hs (Hf & Hpc & Hd & Hme). destruct pkt as [fr tg]. simpl in *.
  subst fr. unfold unit_insertPdu, unit_isEmpty. rewrite Hs. cbn -[wrap].
  rewrite Hcw, Hpc, Z.eqb_refl. cbn -[wrap]. eexists. split; [reflexivity|].
  split; [|split; [done|split; [done|by eexists]]].
  constructor; cbn -[wrap]; try done; [lia|].
  eexists _, _. split; [done|]. split; [done|]. split; [|done]. split; [done|].
  split; [|done]. cbn -[wrap]. apply wrap_small. unfold is_uint, MAX_CODEWORDS in *. lia.
Qed.

Lemma unit_mark_spec u pdu :
  unit_ok m a c u -> status_ u = TXHARQ_PDU_BUFFERED -> carries u pdu ->
  exists u', unit_markSelected u = Ok u' /\ unit_ok m a c u' /\
             status_ u' = TXHARQ_PDU_SELECTED /\ transmissions_ u' = transmissions_ u /\
             carries u' pdu.
Proof.
  intros Hu Hs Hcar. pose proof (unit_ok_holds _ Hu) as Hh. rewrite Hs in Hh.
  destruct Hu as [Ha Hcw Hmx Ht Hp]. unfold unit_markSelected, unit_isReady. rewrite Hs.
  cbn. eexists. split; [reflexivity|]. rewrite Hs in Ht. simpl in Ht.
  split; [constructor; cbn; try done; try lia; by apply Hh|done].
Qed.

(** A unit sends a copy of what it keeps. *)
Lemma unit_extract_spec NOW u pdu :
  unit_ok m a c u -> status_ u = TXHARQ_PDU_SELECTED -> carries u pdu ->
  exists pkt u', unit_extractPdu NOW u = Ok (pkt, u') /\ unit_ok m a c u' /\
    status_ u' = TXHARQ_PDU_WAITING /\ transmissions_ u' = transmissions_ u + 1 /\
    carries u' pdu /\ front pkt = Some pdu /\ addressed a c pkt /\
    txNumber (tag pkt) = transmissions_ u + 1 /\
    ndi (tag pkt) = (transmissions_ u =? 0) /\ pduId_ u' = pduId_ u.
Proof.
  intros Hu Hs Hcar.
  destruct (unit_ok_holds _ Hu) as (pkt & pdu' & Hp & Hf & (? & ? & ?) & Hid & Hme); [congruence|].
  destruct Hcar as (pkt' & Hp' & Hf'). rewrite Hp in Hp'. injection Hp' as <-.
  rewrite Hf in Hf'. injection Hf' as <-.
  destruct Hu as [Ha Hcw Hmx Ht _]. rewrite Hs in Ht. simpl in Ht.
  unfold unit_extractPdu, unit_isMarked. rewrite Hs, Hp. cbn -[wrap].
  rewrite (wrap_small 8 (transmissions_ u + 1)) by (unfold is_uint; lia).
  eexists _, _. split; [reflexivity|]. split; [|repeat split; cbn; try done; [by eexists|]].
  - constructor; cbn; try done; [lia|]. eexists _, _. by repeat split.
  - destruct (Z.eqb_spec (transmissions_ u + 1) 1), (Z.eqb_spec (transmissions_ u) 0);
      done || lia.
Qed.

(** Whether feedback ends the work on a PDU. *)
Definition ends (m t : Z) (fb : HarqAcknowledgment) : bool :=
  match fb with HARQACK => true | HARQNACK => t =? m + 1 end.

Lemma unit_feedback_spec u pdu fb :
  unit_ok m a c u -> status_ u = TXHARQ_PDU_WAITING -> carries u pdu ->
  exists u', unit_pduFeedback u fb = Ok (ends m (transmissions_ u) fb, u') /\
    unit_ok m a c u' /\
    (if ends m (transmissions_ u) fb then status_ u' = TXHARQ_PDU_EMPTY
     else status_ u' = TXHARQ_PDU_BUFFERED /\ transmissions_ u' = transmissions_ u /\
          carries u' pdu).
Proof.
  intros Hu Hs Hcar.
  destruct (unit_ok_holds _ Hu) as (pkt & pdu' & Hp & Hf & (? & ? & Hd) & Hid & Hme); [congruence|].
  pose proof Hu as [Ha Hcw Hmx Ht _]. rewrite Hs in Ht. simpl in Ht.
  assert (Hdir : forall out : bool * LteHarqUnitTx,
    match direction (tag pkt) with DL | UL => Ok out | _ => Throw
      "LteHarqUnitTx::pduFeedback(): unknown direction" end = Ok out)
    by (by destruct Hd as [-> | ->]).
  unfold unit_pduFeedback. rewrite Hp, Hs. cbn -[wrap]. rewrite Hdir, Hmx.
  rewrite (wrap_small 32 (m + 1)) by (unfold is_uint; lia).
  destruct fb; cbn -[resetUnit]; [destruct (Z.eqb_spec (transmissions_ u) (m + 1))|].
  - eexists. by split; [|split; [apply reset_ok|]].
  - eexists. split; [done|]. split; [|done].
    constructor; cbn; try done; [lia|]. eexists _, _. by repeat split.
  - eexists. by split; [|split; [apply reset_ok|]].
Qed.

Lemma unit_drop_spec u :
  unit_ok m a c u -> status_ u = TXHARQ_PDU_BUFFERED ->
  unit_dropPdu u = Ok (resetUnit u).
Proof. intros _ Hs. unfold unit_dropPdu. by rewrite Hs. Qed.

Lemma unit_forceDrop_eq u : unit_forceDropUnit u = resetUnit u.
Proof. unfold unit_forceDropUnit. by destruct (_ || _). Qed.

(** A unit that holds a PDU hands out its packet. *)
Lemma unit_getPdu_spec u :
  unit_ok m a c u -> status_ u <> TXHARQ_PDU_EMPTY ->
  exists pkt pdu, unit_getPdu u = Ok pkt /\ pdu_ u = Some pkt /\ front pkt = Some pdu.
Proof.
  intros Hu Hs. destruct (unit_ok_holds _ Hu Hs) as (pkt & pdu & Hp & Hf & _).
  exists pkt, pdu. unfold unit_getPdu, peekAtFront. rewrite Hp. simpl. by rewrite Hf.
Qed.

Lemma holds_carries u : unit_ok m a c u -> status_ u <> TXHARQ_PDU_EMPTY -> exists pdu, carries u pdu.
Proof.
  intros Hu Hs. destruct (unit_ok_holds _ Hu Hs) as (pkt & pdu & Hp & Hf & _).
  by exists pdu, pkt.
Qed.
End Units.

(** ** Processes *)

Record proc_ok (m a : Z) (p : LteHarqProcessTx) : Prop := {
  ok_len : vsize (units_ p) = MAX_CODEWORDS;
  ok_num : numHarqUnits_ p = MAX_CODEWORDS;
  ok_pacid : proc_acid_ p = a;
  ok_units : forall c u, vget (units_ p) c = Some u -> unit_ok m a c u;
  ok_empty : numEmptyUnits_ p = count unit_isEmpty (units_ p);
  ok_selected : numSelected_ p = count unit_isMarked (units_ p)
}.

(** The process with the unit of codeword [c] replaced and its counters adjusted. *)
Definition put (p : LteHarqProcessTx) (c : Z) (u : LteHarqUnitTx) (d : bool) : LteHarqProcessTx :=
  let us := <[Z.to_nat c := u]> (units_ p) in
  {| units_ := us; numProcesses_ := numProcesses_ p; numHarqUnits_ := numHarqUnits_ p;
     proc_acid_ := proc_acid_ p; numEmptyUnits_ := count unit_isEmpty us;
     numSelected_ := count unit_isMarked us; dropped_ := d |}.

Lemma unit_at_inv p c u : unit_at p c = Ok u <-> vget (units_ p) c = Some u.
Proof. unfold unit_at. destruct (vget _ _); simpl; split; congruence. Qed.

Section Processes.
Context (m a : Z) (Hm : 0 <= m < 255).
Implicit Types (p : LteHarqProcessTx) (u : LteHarqUnitTx).

Lemma unit_at_ok p c u : proc_ok m a p -> unit_at p c = Ok u -> unit_ok m a c u.
Proof. intros Hp Hu%unit_at_inv. by eapply ok_units. Qed.

Lemma unit_at_bounds p c u :
  proc_ok m a p -> unit_at p c = Ok u -> 0 <= c < MAX_CODEWORDS.
Proof. intros Hp Hu%unit_at_inv%vget_Some_bounds. by rewrite (ok_len _ _ _ Hp) in Hu. Qed.

Lemma unit_at_is_Ok p c :
  proc_ok m a p -> 0 <= c < MAX_CODEWORDS -> exists u, unit_at p c = Ok u.
Proof.
  intros Hp Hc. destruct (vget_is_Some (units_ p) c) as [u Hu].
  - by rewrite (ok_len _ _ _ Hp).
  - exists u. by apply unit_at_inv.
Qed.

Lemma unit_at_lookup p c u : unit_at p c = Ok u -> units_ p !! Z.to_nat c = Some u.
Proof. rewrite unit_at_inv. unfold vget. by destruct (0 <=? c). Qed.

Lemma set_unit_put p c u u' :
  unit_at p c = Ok u ->
  exists p1, set_unit p c u' = Ok p1 /\ p1 = p <| units_ := <[Z.to_nat c := u']> (units_ p) |>.
Proof.
  intros Hu%unit_at_inv%vget_Some_bounds. unfold set_unit.
  destruct (vset_is_Some (units_ p) c u') as [us Hus]; [done|].
  rewrite Hus. apply vset_inv in Hus as [_ ->]. by eexists.
Qed.

Lemma put_ok p c u u' d :
  proc_ok m a p -> unit_at p c = Ok u -> unit_ok m a c u' -> proc_ok m a (put p c u' d).
Proof.
  intros Hp Hu Hu'. pose proof (unit_at_bounds _ _ _ Hp Hu) as Hb.
  pose proof (unit_at_lookup _ _ _ Hu) as Hl. destruct Hp as [Hlen Hn Ha Hus He Hs].
  constructor; simpl; try done; [by rewrite length_insert|].
  intros j v. unfold vget. destruct (Z.leb_spec 0 j); [|done].
  rewrite list_lookup_insert_Some. intros [(Hj & <- & _)|[_ Hv]].
  - by replace j with c by lia.
  - apply Hus. unfold vget. by rewrite (proj2 (Z.leb_le 0 j)).
Qed.

Lemma unit_at_put p c u u' d j :
  proc_ok m a p -> unit_at p c = Ok u ->
  unit_at (put p c u' d) j = if decide (c = j) then Ok u' else unit_at p j.
Proof.
  intros Hp Hu. pose proof (unit_at_bounds _ _ _ Hp Hu) as Hb.
  pose proof (unit_at_lookup _ _ _ Hu) as Hl. unfold unit_at, vget. simpl.
  destruct (decide (c = j)) as [<-|Hne].
  - rewrite (proj2 (Z.leb_le 0 c)) by lia. rewrite list_lookup_insert_eq; [done|].
    by eapply lookup_lt_Some.
  - destruct (Z.leb_spec 0 j); [|done]. rewrite list_lookup_insert_ne; [done|lia].
Qed.

(** The counters after replacing one unit. *)
Lemma put_counts p c u u' d :
  proc_ok m a p -> unit_at p c = Ok u ->
  numEmptyUnits_ (put p c u' d)
    = numEmptyUnits_ p - Z.b2z (unit_isEmpty u) + Z.b2z (unit_isEmpty u') /\
  numSelected_ (put p c u' d)
    = numSelected_ p - Z.b2z (unit_isMarked u) + Z.b2z (unit_isMarked u') /\
  0 <= numEmptyUnits_ (put p c u' d) <= MAX_CODEWORDS /\
  0 <= numSelected_ (put p c u' d) <= MAX_CODEWORDS.
Proof.
  intros Hp Hl%unit_at_lookup. destruct Hp as [Hlen ? ? ? He Hs]. simpl.
  rewrite He, Hs, <- !(count_insert _ _ _ _ u' Hl). split_and!; try done;
    match goal with |- _ <= count ?f ?l => pose proof (count_bounds f l)
               | |- count ?f ?l <= _ => pose proof (count_bounds f l) end;
    rewrite length_insert in *; lia.
Qed.

Lemma put_intro p c u u' d e s us :
  proc_ok m a p -> unit_at p c = Ok u ->
  us = <[Z.to_nat c := u']> (units_ p) ->
  (let n := numEmptyUnits_ p + Z.b2z (unit_isEmpty u') - Z.b2z (unit_isEmpty u) in
   e = n \/ e = wrap 8 n) ->
  (let n := numSelected_ p + Z.b2z (unit_isMarked u') - Z.b2z (unit_isMarked u) in
   s = n \/ s = wrap 32 n) ->
  {| units_ := us; numProcesses_ := numProcesses_ p; numHarqUnits_ := numHarqUnits_ p;
     proc_acid_ := proc_acid_ p; numEmptyUnits_ := e; numSelected_ := s; dropped_ := d |}
  = put p c u' d.
Proof.
  intros Hp Hu -> He Hs. destruct (put_counts p c u u' d Hp Hu) as (H1 & H2 & H3 & H4).
  unfold put at 1. unfold MAX_CODEWORDS in *. simpl in *.
  f_equal; [destruct He as [->| ->] | destruct Hs as [->| ->]];
    rewrite ?wrap_small; unfold is_uint; lia.
Qed.
End Processes.

(** The codewords whose unit satisfies [f], in order. *)
Definition where_ (f : LteHarqUnitTx -> bool) (us : list LteHarqUnitTx) : list Z :=
  List.filter (fun c => match vget us c with Some u => f u | None => false end) [0; 1].

Lemma where_spec f us c :
  c ∈ where_ f us <->
  0 <= c < MAX_CODEWORDS /\ exists u, vget us c = Some u /\ f u = true.
Proof.
  unfold where_, MAX_CODEWORDS. rewrite list_elem_of_In, filter_In. simpl.
  destruct (vget us c) as [u|] eqn:E; (split; [intros [Hc Hf]|intros (Hc & v & ? & Hf)]);
    simplify_eq; (split; [lia|eauto]).
Qed.

Lemma where_NoDup f us : NoDup (where_ f us).
Proof.
  apply NoDup_ListNoDup, List.NoDup_filter, NoDup_ListNoDup. repeat constructor; set_solver.
Qed.

(** ** Operations of a process *)

Section ProcessOps.
Context (m a : Z) (Hm : 0 <= m < 255).
Implicit Types (p : LteHarqProcessTx) (u : LteHarqUnitTx) (pdu : LteMacPdu).

Lemma marked_status u : unit_isMarked u = true <-> status_ u = TXHARQ_PDU_SELECTED.
Proof. apply bool_decide_eq_true. Qed.
Lemma empty_status u : unit_isEmpty u = true <-> status_ u = TXHARQ_PDU_EMPTY.
Proof. apply bool_decide_eq_true. Qed.

Lemma some_unmarked p c u :
  proc_ok m a p -> unit_at p c = Ok u -> status_ u <> TXHARQ_PDU_SELECTED ->
  numSelected_ p <> numHarqUnits_ p.
Proof.
  intros Hp Hu%unit_at_lookup Hs E. apply Hs, marked_status.
  rewrite (ok_selected _ _ _ Hp), (ok_num _ _ _ Hp), <- (ok_len _ _ _ Hp) in E.
  by eapply (proj1 (count_full _ _) E).
Qed.

Lemma some_marked p c u :
  proc_ok m a p -> unit_at p c = Ok u -> status_ u = TXHARQ_PDU_SELECTED ->
  numSelected_ p <> 0.
Proof.
  intros Hp Hu%unit_at_lookup Hs%marked_status E. rewrite (ok_selected _ _ _ Hp) in E.
  by rewrite (proj1 (count_0 _ _) E _ _ Hu) in Hs.
Qed.

Lemma none_marked p c u :
  proc_ok m a p -> numSelected_ p = 0 -> unit_at p c = Ok u ->
  status_ u <> TXHARQ_PDU_SELECTED.
Proof. intros Hp E Hu Hs. by apply (some_marked p c u). Qed.

(** The cached count answers the question [isEmpty] asks. *)
Lemma proc_isEmpty_spec p :
  proc_ok m a p ->
  proc_isEmpty p = true <->
  (forall c u, unit_at p c = Ok u -> status_ u = TXHARQ_PDU_EMPTY).
Proof.
  intros Hp. unfold proc_isEmpty.
  rewrite Z.eqb_eq, (ok_empty _ _ _ Hp), (ok_num _ _ _ Hp), <- (ok_len _ _ _ Hp), count_full.
  split.
  - intros Hall c u Hu%unit_at_lookup. eapply empty_status, Hall, Hu.
  - intros Hall i u Hu. apply empty_status, (Hall (Z.of_nat i)), unit_at_inv.
    unfold vget. rewrite (proj2 (Z.leb_le 0 _)) by lia. by rewrite Nat2Z.id.
Qed.

(** Recognises the new state of a process as a [put], given the old and the new status. *)
Ltac recognise_put Hp Hu Hs Hs' :=
  cbn -[put wrap]; eapply (put_intro _ _ _ _ _ _ _ _ _ _ Hp Hu eq_refl);
  unfold unit_isEmpty, unit_isMarked; rewrite Hs, Hs';
  repeat (case_bool_decide; try congruence); cbn -[wrap];
  first [left; lia | right; f_equal; lia].

Lemma proc_insert_spec p c u pkt pdu :
  proc_ok m a p -> unit_at p c = Ok u -> status_ u = TXHARQ_PDU_EMPTY ->
  insertable c pkt pdu ->
  exists u', proc_insertPdu p pkt c = Ok (put p c u' false) /\ unit_ok m a c u' /\
    status_ u' = TXHARQ_PDU_SELECTED /\ transmissions_ u' = 0 /\ carries u' (stamped pdu).
Proof.
  intros Hp Hu Hs Hin.
  destruct (unit_insert_spec m a c Hm (unit_at_bounds _ _ _ _ _ Hp Hu) u pkt pdu)
    as (u' & E & Hu' & Hs' & Ht & Hc'); [by eapply unit_at_ok|done..|].
  exists u'. split; [|done]. destruct Hin as (Hf & _).
  unfold proc_insertPdu, peekAtFront. rewrite Hf. cbn -[put wrap unit_at set_unit unit_insertPdu].
  destruct (set_unit_put (add_selected (add_empty p (-1)) 1) c u u') as (p1 & E1 & ->); [done|].
  change (unit_at (add_selected (add_empty p (-1)) 1) c) with (unit_at p c).
  rewrite Hu. cbn -[put wrap set_unit unit_insertPdu]. rewrite E. cbn -[put wrap set_unit].
  rewrite E1. cbn -[put wrap]. f_equal.
  recognise_put Hp Hu Hs Hs'.
Qed.

Lemma proc_mark_spec p c u pdu :
  proc_ok m a p -> unit_at p c = Ok u -> status_ u = TXHARQ_PDU_BUFFERED -> carries u pdu ->
  exists u', proc_markSelected p c = Ok (put p c u' (dropped_ p)) /\ unit_ok m a c u' /\
    status_ u' = TXHARQ_PDU_SELECTED /\ transmissions_ u' = transmissions_ u /\ carries u' pdu.
Proof.
  intros Hp Hu Hs Hcar.
  destruct (unit_mark_spec m a c u pdu) as (u' & E & Hu' & Hs' & Ht & Hc');
    [by eapply unit_at_ok|done..|].
  exists u'. split; [|done]. unfold proc_markSelected.
  rewrite (proj2 (Z.eqb_neq _ _)) by (apply (some_unmarked p c u Hp Hu); congruence).
  destruct (set_unit_put (add_selected p 1) c u u') as (p1 & E1 & ->); [done|].
  change (unit_at (add_selected p 1) c) with (unit_at p c).
  rewrite Hu. cbn -[put wrap set_unit unit_markSelected]. rewrite E. cbn -[put wrap set_unit].
  rewrite E1. f_equal. cbn -[put wrap]. recognise_put Hp Hu Hs Hs'.
Qed.

Lemma proc_extract_spec NOW p c u pdu :
  proc_ok m a p -> unit_at p c = Ok u -> status_ u = TXHARQ_PDU_SELECTED -> carries u pdu ->
  exists pkt u', proc_extractPdu NOW p c = Ok (pkt, put p c u' (dropped_ p)) /\
    unit_ok m a c u' /\ status_ u' = TXHARQ_PDU_WAITING /\
    transmissions_ u' = transmissions_ u + 1 /\ carries u' pdu /\ front pkt = Some pdu /\
    addressed a c pkt /\ txNumber (tag pkt) = transmissions_ u + 1 /\
    ndi (tag pkt) = (transmissions_ u =? 0) /\ pduId_ u' = pduId_ u.
Proof.
  intros Hp Hu Hs Hcar.
  destruct (unit_extract_spec m a c Hm NOW u pdu)
    as (pkt & u' & E & Hu' & Hs' & Ht & Hc' & Hf & Hrest); [by eapply unit_at_ok|done..|].
  exists pkt, u'. split; [|done]. unfold proc_extractPdu.
  rewrite (proj2 (Z.eqb_neq _ _)) by (by apply (some_marked p c u Hp Hu)).
  destruct (set_unit_put (add_selected p (-1)) c u u') as (p1 & E1 & ->); [done|].
  change (unit_at (add_selected p (-1)) c) with (unit_at p c).
  rewrite Hu. cbn -[put wrap set_unit unit_extractPdu]. rewrite E. cbn -[put wrap set_unit].
  rewrite E1. cbn -[put wrap]. unfold peekAtFront. rewrite Hf. cbn -[put wrap].
  do 2 f_equal. recognise_put Hp Hu Hs Hs'.
Qed.

Lemma proc_feedback_spec p c u pdu fb :
  proc_ok m a p -> unit_at p c = Ok u -> status_ u = TXHARQ_PDU_WAITING -> carries u pdu ->
  exists u', proc_pduFeedback p fb c
      = Ok (proc_isEmpty (put p c u' (dropped_ p)), put p c u' (dropped_ p)) /\
    unit_ok m a c u' /\
    (if ends m (transmissions_ u) fb then status_ u' = TXHARQ_PDU_EMPTY
     else status_ u' = TXHARQ_PDU_BUFFERED /\ transmissions_ u' = transmissions_ u /\
          carries u' pdu).
Proof.
  intros Hp Hu Hs Hcar.
  destruct (unit_feedback_spec m a c Hm u pdu fb) as (u' & E & Hu' & Hs');
    [by eapply unit_at_ok|done..|].
  exists u'. split; [|done]. unfold proc_pduFeedback.
  destruct (set_unit_put p c u u') as (p1 & E1 & ->); [done|].
  rewrite Hu. cbn -[put wrap set_unit unit_pduFeedback]. rewrite E. cbn -[put wrap set_unit].
  rewrite E1. cbn -[put wrap unit_reset]. f_equal. unfold unit_reset.
  match goal with |- (_, ?q) = _ => assert (q = put p c u' (dropped_ p)) as -> end; [|done].
  destruct (ends _ _ _); [|destruct Hs' as (Hs' & _)]; recognise_put Hp Hu Hs Hs'.
Qed.

Lemma proc_drop_spec p c u :
  proc_ok m a p -> unit_at p c = Ok u -> status_ u = TXHARQ_PDU_BUFFERED ->
  proc_dropPdu p c = Ok (put p c (resetUnit u) (dropped_ p)).
Proof.
  intros Hp Hu Hs. unfold proc_dropPdu.
  destruct (set_unit_put p c u (resetUnit u)) as (p1 & E1 & ->); [done|].
  rewrite Hu. cbn -[put wrap set_unit unit_dropPdu].
  rewrite (unit_drop_spec m a c) by eauto using unit_at_ok.
  cbn -[put wrap set_unit]. rewrite E1. cbn -[put wrap]. f_equal.
  assert (Hs' : status_ (resetUnit u) = TXHARQ_PDU_EMPTY) by done.
  recognise_put Hp Hu Hs Hs'.
Qed.

(** *** The units of a process *)

Lemma two_units p : proc_ok m a p -> exists u0 u1, units_ p = [u0; u1].
Proof.
  intros Hp. pose proof (ok_len _ _ _ Hp) as Hl. unfold MAX_CODEWORDS in Hl.
  destruct (units_ p) as [|u0 [|u1 [|]]]; simpl in Hl; try lia. by eexists _, _.
Qed.

Lemma ids_where f p :
  proc_ok m a p ->
  ids_from f (units_ p) (Z.to_nat (numHarqUnits_ p)) 0 = Ok (where_ f (units_ p)).
Proof.
  intros Hp. rewrite (ok_num _ _ _ Hp). destruct (two_units p Hp) as (u0 & u1 & ->).
  unfold where_. cbn. destruct (f u0), (f u1); reflexivity.
Qed.

Lemma ready_where p : proc_ok m a p -> readyUnitsIds p = Ok (where_ unit_isReady (units_ p)).
Proof. apply ids_where. Qed.
Lemma empty_where p : proc_ok m a p -> emptyUnitsIds p = Ok (where_ unit_isEmpty (units_ p)).
Proof. apply ids_where. Qed.
Lemma selected_where p :
  proc_ok m a p -> selectedUnitsIds p = Ok (where_ unit_isMarked (units_ p)).
Proof. apply ids_where. Qed.

Lemma forceDrop_spec p :
  proc_ok m a p ->
  exists p', proc_forceDropProcess p = Ok p' /\ proc_ok m a p' /\
    dropped_ p' = true /\ numSelected_ p' = 0 /\ proc_isEmpty p' = true.
Proof.
  intros Hp. unfold proc_forceDropProcess. rewrite (ok_num _ _ _ Hp).
  destruct (two_units p Hp) as (u0 & u1 & E). rewrite E.
  change (force_drop_from [u0; u1] (Z.to_nat MAX_CODEWORDS) 0)
    with (Ok [unit_forceDropUnit u0; unit_forceDropUnit u1]).
  rewrite !unit_forceDrop_eq. cbn -[resetUnit]. eexists. split; [reflexivity|].
  split_and!; [|done|done|by unfold proc_isEmpty; cbn; rewrite (ok_num _ _ _ Hp)].
  destruct Hp as [Hlen Hn Ha Hus He Hs]. rewrite E in *.
  constructor; try done. cbn -[resetUnit]. intros j v. unfold vget. destruct (Z.leb_spec 0 j); [|done].
  intros Hv.
  assert (exists u, vget [u0; u1] j = Some u /\ v = resetUnit u) as (u & Hu & ->).
  { unfold vget. rewrite (proj2 (Z.leb_le 0 j)) by done.
    destruct (Z.to_nat j) as [|[|]]; simplify_eq/=; eauto. }
  by apply reset_ok, Hus.
Qed.
End ProcessOps.
