(* ===== verification/HarqTxProps.v ===== *)
(** * The H-ARQ transmit buffer stays consistent

    The invariant of [LteHarqBufferTx], the specification of its operations under it,
    and the safety of every sequence of operations the MAC may make. *)

From S2P Require Import Prelude.
From S2P Require Import HarqTx.
From S2P Require Import HarqTxBuffer.
From S2P Require Import HarqTxFacts.
#[local] Open Scope Z_scope.

Record buf_ok (m : Z) (b : LteHarqBufferTx) : Prop := {
  ok_count : 0 <= numProc_ b <= HARQ_NONE;
  ok_plen : vsize (processes_ b) = numProc_ b;
  ok_procs : forall a p, vget (processes_ b) a = Some p -> proc_ok m a p;
  ok_sel : selectedAcid_ b = HARQ_NONE \/ 0 <= selectedAcid_ b < numProc_ b;
  ok_only : forall a p, vget (processes_ b) a = Some p -> a <> selectedAcid_ b ->
            numSelected_ p = 0
}.

(** The buffer with one process, the selection and the counter replaced. *)
Definition bput (b : LteHarqBufferTx) (a : Z) (p : LteHarqProcessTx) (sel n : Z)
    : LteHarqBufferTx :=
  {| processes_ := <[Z.to_nat a := p]> (processes_ b); numProc_ := numProc_ b;
     numEmptyProc_ := n; selectedAcid_ := sel; nodeId_ := nodeId_ b |}.

Lemma proc_at_inv b a p : proc_at b a = Ok p <-> vget (processes_ b) a = Some p.
Proof. unfold proc_at. destruct (vget _ _); simpl; split; congruence. Qed.

Lemma set_proc_eq b a p0 p :
  proc_at b a = Ok p0 ->
  set_proc b a p = Ok (b <| processes_ := <[Z.to_nat a := p]> (processes_ b) |>).
Proof.
  intros Hp%proc_at_inv%vget_Some_bounds. unfold set_proc.
  destruct (vset_is_Some (processes_ b) a p) as [ps E]; [done|].
  rewrite E. by apply vset_inv in E as [_ ->].
Qed.

Section Buffer.
Context (m : Z) (Hm : 0 <= m < 255).
Implicit Types (b : LteHarqBufferTx) (p : LteHarqProcessTx).

Lemma proc_at_ok b a p : buf_ok m b -> proc_at b a = Ok p -> proc_ok m a p.
Proof. intros Hb Hp%proc_at_inv. by eapply ok_procs. Qed.

Lemma proc_at_bounds b a p : buf_ok m b -> proc_at b a = Ok p -> 0 <= a < numProc_ b.
Proof. intros Hb Hp%proc_at_inv%vget_Some_bounds. by rewrite (ok_plen _ _ Hb) in Hp. Qed.

Lemma proc_at_is_Ok b a : buf_ok m b -> 0 <= a < numProc_ b -> exists p, proc_at b a = Ok p.
Proof.
  intros Hb Ha. destruct (vget_is_Some (processes_ b) a) as [p Hp].
  - by rewrite (ok_plen _ _ Hb).
  - exists p. by apply proc_at_inv.
Qed.

Lemma proc_at_bput b a p0 p sel n i :
  proc_at b a = Ok p0 ->
  proc_at (bput b a p sel n) i = if decide (a = i) then Ok p else proc_at b i.
Proof.
  intros Hp%proc_at_inv%vget_Some_bounds. unfold proc_at, vget. simpl.
  destruct (decide (a = i)) as [<-|Hne].
  - rewrite (proj2 (Z.leb_le 0 a)) by lia. rewrite list_lookup_insert_eq; [done|lia].
  - destruct (Z.leb_spec 0 i); [|done]. rewrite list_lookup_insert_ne; [done|lia].
Qed.

(** The selection may move to [sel] when nothing stays selected elsewhere. *)
Lemma bput_ok b a p0 p sel n :
  buf_ok m b -> proc_at b a = Ok p0 -> proc_ok m a p ->
  sel = HARQ_NONE \/ sel = a ->
  (selectedAcid_ b = HARQ_NONE \/ selectedAcid_ b = a) ->
  (sel <> a -> numSelected_ p = 0) ->
  buf_ok m (bput b a p sel n).
Proof.
  intros Hb H0 Hp Hsel Hold Hz. pose proof (proc_at_bounds _ _ _ Hb H0) as Ha.
  assert (Hat : forall i q, vget (processes_ (bput b a p sel n)) i = Some q ->
    (i = a /\ q = p) \/ (i <> a /\ vget (processes_ b) i = Some q)).
  { intros i q. rewrite <- proc_at_inv, (proc_at_bput _ _ p0) by done.
    destruct (decide (a = i)) as [<-|]; intros E; [left; by injection E|right].
    split; [done|by apply proc_at_inv]. }
  pose proof (ok_count _ _ Hb). unfold HARQ_NONE in *. constructor; simpl; try done.
  - by rewrite length_insert, (ok_plen _ _ Hb).
  - intros i q [(-> & ->)|(_ & Hq)]%Hat; [done|by eapply ok_procs].
  - destruct Hsel as [->| ->]; [by left|by right].
  - intros i q [(-> & ->)|(Hne & Hq)]%Hat Hi; [by apply Hz; intros ->|].
    apply (ok_only _ _ Hb i q Hq). unfold HARQ_NONE.
    pose proof (vget_Some_bounds _ _ _ Hq). pose proof (ok_plen _ _ Hb). lia.
Qed.

(** A change inside one process that leaves no new selection keeps the invariant. *)
Lemma bput_same b a p0 p n :
  buf_ok m b -> proc_at b a = Ok p0 -> proc_ok m a p ->
  (numSelected_ p0 = 0 -> numSelected_ p = 0) ->
  buf_ok m (bput b a p (selectedAcid_ b) n).
Proof.
  intros Hb H0 Hp Hz. pose proof (proc_at_bounds _ _ _ Hb H0) as Ha.
  assert (Hat : forall i q, vget (processes_ (bput b a p (selectedAcid_ b) n)) i = Some q ->
    (i = a /\ q = p) \/ (i <> a /\ vget (processes_ b) i = Some q)).
  { intros i q. rewrite <- proc_at_inv, (proc_at_bput _ _ p0) by done.
    destruct (decide (a = i)) as [<-|]; intros E; [left; by injection E|right].
    split; [done|by apply proc_at_inv]. }
  constructor; simpl.
  - apply (ok_count _ _ Hb).
  - by rewrite length_insert, (ok_plen _ _ Hb).
  - intros i q [(-> & ->)|(_ & Hq)]%Hat; [done|by eapply ok_procs].
  - apply (ok_sel _ _ Hb).
  - intros i q [(-> & ->)|(Hne & Hq)]%Hat Hi; [|by apply (ok_only _ _ Hb i q)].
    apply Hz, (ok_only _ _ Hb a p0); [by apply proc_at_inv|done].
Qed.
End Buffer.

(** ** A new buffer *)

Lemma new_units_lookup n i acid m len c u :
  vget (new_units n i acid m len) c = Some u ->
  u = new_LteHarqUnitTx acid (i + c) m len.
Proof.
  unfold vget. destruct (Z.leb_spec 0 c) as [Hc|]; [|done].
  rewrite <- (Z2Nat.id c) at 2 by done. generalize (Z.to_nat c) as k. clear c Hc.
  revert i; induction n as [|n IH]; intros i [|k]; simpl; try done.
  - intros E. injection E as <-. f_equal. lia.
  - intros E%IH. rewrite E. f_equal. lia.
Qed.

Lemma new_unit_ok m a c len : 0 <= m < 255 -> unit_ok m a c (new_LteHarqUnitTx a c m len).
Proof. by constructor. Qed.

Lemma new_proc_ok m a n len :
  0 <= m < 255 -> proc_ok m a (new_LteHarqProcessTx a MAX_CODEWORDS n m len).
Proof.
  intros Hm. constructor; try done.
  intros c u Hu%new_units_lookup. subst. by apply new_unit_ok.
Qed.

Lemma new_processes_lookup n i num m len a p :
  0 <= i -> i + Z.of_nat n <= HARQ_NONE ->
  vget (new_processes n i num m len) a = Some p ->
  p = new_LteHarqProcessTx (i + a) MAX_CODEWORDS num m len.
Proof.
  unfold vget. destruct (Z.leb_spec 0 a) as [Ha|]; [|done].
  rewrite <- (Z2Nat.id a) at 2 by done. generalize (Z.to_nat a) as k. clear a Ha.
  revert i; induction n as [|n IH]; intros i [|k] Hi Hn; simpl; try done.
  - intros E. injection E as <-. rewrite wrap_small; [f_equal; lia|].
    unfold is_uint, HARQ_NONE in *. lia.
  - intros E%IH; [rewrite E; f_equal|..]; lia.
Qed.

Lemma new_processes_length n i num m len : length (new_processes n i num m len) = n.
Proof. revert i; induction n; intros; simpl; auto. Qed.

Lemma new_buf_ok m num node len :
  0 <= m < 255 -> 0 <= num <= HARQ_NONE -> buf_ok m (new_LteHarqBufferTx num node m len).
Proof.
  intros Hm Hn. constructor; simpl.
  - done.
  - rewrite new_processes_length. lia.
  - intros a p Hp%new_processes_lookup; [|lia..]. subst. by apply new_proc_ok.
  - by left.
  - intros a p Hp%new_processes_lookup; [|lia..]. by subst.
Qed.

(** ** Concatenation of PDUs *)

Definition sdu_total (l : list Sdu) : Z := foldr (fun s n => sdu_bytes s + n) 0 l.

(** [base] with the contents of [guest] after its own. *)
Definition merged (base guest : LteMacPdu) : LteMacPdu :=
  {| sduList_ := sduList_ base ++ sduList_ guest; ceList_ := ceList_ base ++ ceList_ guest;
     macPduLength_ := macPduLength_ base + sdu_total (sduList_ guest);
     headerLength := headerLength base; macPduId_ := macPduId_ base; macPduId := macPduId base;
     chunkLength := (macPduLength_ base + sdu_total (sduList_ guest) + headerLength base) * 8 |}.

Lemma move_sdus_merged guest base :
  measured base ->
  exists guest', move_sdus (sduList_ guest) base guest
    = Ok (merged base (guest <| ceList_ := [] |>), guest') /\ ceList_ guest' = ceList_ guest.
Proof.
  destruct guest as [l ces n h i j k]. unfold measured, merged. cbn [sduList_ ceList_ set].
  revert base n k; induction l as [|s l IH]; intros [bl bc bn bh bi bj bk] n k Hb; cbn in *.
  - eexists (Build_LteMacPdu _ _ _ _ _ _ _). split; [|reflexivity].
    rewrite Hb, !app_nil_r, !Z.add_0_r. reflexivity.
  - unfold mac_pushSdu, setChunkLength, pdu_getBitLength, pdu_getByteLength. cbn.
    edestruct (IH {| sduList_ := bl ++ [s]; ceList_ := bc; macPduLength_ := bn + sdu_bytes s;
                     headerLength := bh; macPduId_ := bi; macPduId := bj;
                     chunkLength := (bn + sdu_bytes s + bh) * 8 |}) as (g & E & Hc); [done|].
    exists g. split; [|done]. cbn in E. rewrite E. rewrite !app_nil_r, <- !app_assoc. simpl.
    fold (sdu_total l). rewrite !Z.add_assoc. reflexivity.
Qed.

Lemma move_ces_merged guest base :
  exists guest', move_ces (ceList_ guest) base guest
    = Ok (base <| ceList_ := ceList_ base ++ ceList_ guest |>, guest').
Proof.
  destruct guest as [l ces n h i j k]. cbn [ceList_].
  revert base; induction ces as [|ce ces IH]; intros base; cbn.
  - eexists. rewrite app_nil_r. by destruct base.
  - destruct (IH (pushCe base ce)) as [g E]. exists g. rewrite E. cbn.
    by rewrite <- app_assoc.
Qed.

(** ** Selection *)

Section Select.
Context (m a : Z) (Hm : 0 <= m < 255).
Implicit Types (p : LteHarqProcessTx) (u : LteHarqUnitTx).

(** The unit of [c] went from ready to selected and holds what it held. *)
Definition promoted (u u' : LteHarqUnitTx) : Prop :=
  status_ u' = TXHARQ_PDU_SELECTED /\ transmissions_ u' = transmissions_ u /\
  (forall pdu, carries u pdu -> carries u' pdu).

Lemma mark_units_spec l p :
  proc_ok m a p -> NoDup l ->
  (forall c, c ∈ l -> exists u, unit_at p c = Ok u /\ status_ u = TXHARQ_PDU_BUFFERED) ->
  exists p', mark_units p l = Ok p' /\ proc_ok m a p' /\ dropped_ p' = dropped_ p /\
    (forall c u, c ∈ l -> unit_at p c = Ok u -> exists u', unit_at p' c = Ok u' /\ promoted u u') /\
    (forall c, c ∉ l -> unit_at p' c = unit_at p c).
Proof.
  revert p; induction l as [|c l IH]; intros p Hp Hnd Hl; simpl.
  { exists p. split_and!; try done; set_solver. }
  apply NoDup_cons in Hnd as [Hc Hnd].
  destruct (Hl c) as (u & Hu & Hs); [left|].
  destruct (holds_carries m a c u) as [pdu Hpdu]; [by eauto using unit_at_ok|congruence|].
  destruct (proc_mark_spec m a p c u pdu) as (u' & E & Hu' & Hs' & Ht & Hc'); try done.
  rewrite E. simpl.
  destruct (IH (put p c u' (dropped_ p))) as (p' & E' & Hp' & Hd & Hin & Hout).
  - by eapply put_ok.
  - done.
  - intros j Hj. destruct (Hl j) as (v & Hv & Hvs); [by right|].
    exists v. rewrite (unit_at_put _ _ _ _ _ _ _ _ Hp Hu), decide_False; [done|set_solver].
  - exists p'. split_and!; [done|done|done|..].
    + intros j v Hj Hv. destruct (decide (j = c)) as [->|Hne].
      * rewrite Hu in Hv. injection Hv as <-. exists u'.
        rewrite Hout, (unit_at_put _ _ _ _ _ _ _ _ Hp Hu), decide_True by done.
        split; [done|]. split; [done|]. split; [done|].
        intros q Hq. destruct Hq as (pk & E1 & E2), Hpdu as (pk' & E3 & E4). by simplify_eq.
      * apply Hin; [set_solver|].
        by rewrite (unit_at_put _ _ _ _ _ _ _ _ Hp Hu), decide_False.
    + intros j Hj. rewrite Hout by set_solver.
      rewrite (unit_at_put _ _ _ _ _ _ _ _ Hp Hu), decide_False; [done|set_solver].
Qed.

(** The ready codewords are ready. *)
Lemma ready_in p c :
  c ∈ where_ unit_isReady (units_ p) <->
  0 <= c < MAX_CODEWORDS /\ exists u, unit_at p c = Ok u /\ status_ u = TXHARQ_PDU_BUFFERED.
Proof.
  rewrite where_spec. unfold unit_isReady. setoid_rewrite bool_decide_eq_true.
  by setoid_rewrite unit_at_inv.
Qed.

Lemma marked_in p c :
  c ∈ where_ unit_isMarked (units_ p) <->
  0 <= c < MAX_CODEWORDS /\ exists u, unit_at p c = Ok u /\ status_ u = TXHARQ_PDU_SELECTED.
Proof.
  rewrite where_spec. unfold unit_isMarked. setoid_rewrite bool_decide_eq_true.
  by setoid_rewrite unit_at_inv.
Qed.

(** *** Sending *)

(** What goes down for a unit. *)
Definition sent_for (u : LteHarqUnitTx) (c : Z) (pkt : Packet) : Prop :=
  (exists pdu, carries u pdu /\ front pkt = Some pdu) /\ addressed a c pkt /\
  txNumber (tag pkt) = transmissions_ u + 1 /\ 1 <= txNumber (tag pkt) <= m + 1 /\
  ndi (tag pkt) = (txNumber (tag pkt) =? 1).

Definition awaiting (u u' : LteHarqUnitTx) : Prop :=
  status_ u' = TXHARQ_PDU_WAITING /\ transmissions_ u' = transmissions_ u + 1 /\
  pduId_ u' = pduId_ u /\ (forall pdu, carries u pdu -> carries u' pdu).

Lemma send_units_spec NOW l p :
  proc_ok m a p -> NoDup l ->
  (forall c, c ∈ l -> exists u, unit_at p c = Ok u /\ status_ u = TXHARQ_PDU_SELECTED) ->
  exists sent p', send_units NOW p l = Ok (sent, p') /\ proc_ok m a p' /\
    dropped_ p' = dropped_ p /\
    Forall2 (fun c pkt => exists u, unit_at p c = Ok u /\ sent_for u c pkt) l sent /\
    (forall c u, c ∈ l -> unit_at p c = Ok u -> exists u', unit_at p' c = Ok u' /\ awaiting u u') /\
    (forall c, c ∉ l -> unit_at p' c = unit_at p c).
Proof.
  revert p; induction l as [|c l IH]; intros p Hp Hnd Hl; simpl.
  { exists [], p. split_and!; try done; set_solver. }
  apply NoDup_cons in Hnd as [Hc Hnd].
  destruct (Hl c) as (u & Hu & Hs); [left|].
  destruct (holds_carries m a c u) as [pdu Hpdu]; [by eauto using unit_at_ok|congruence|].
  destruct (proc_extract_spec m a Hm NOW p c u pdu)
    as (pkt & u' & E & Hu' & Hs' & Ht & Hc' & Hf & Had & Hn & Hi & Hid); try done.
  rewrite E. cbn -[put]. unfold peekAtFront at 1. rewrite Hf. cbn -[put].
  pose proof (fun j => unit_at_put m a p c u u' (dropped_ p) j Hp Hu) as Hput.
  destruct (IH (put p c u' (dropped_ p))) as (sent & p' & E' & Hp' & Hd & Hall & Hin & Hout).
  - by eapply put_ok.
  - done.
  - intros j Hj. destruct (Hl j) as (v & Hv & Hvs); [by right|].
    exists v. rewrite Hput, decide_False; [done|set_solver].
  - rewrite E'. exists (pkt :: sent), p'. split_and!; [done|done|done|..].
    + constructor.
      * exists u. split; [done|]. split; [by exists pdu|]. split; [done|].
        pose proof (ok_tx _ _ _ _ (unit_at_ok _ _ _ _ _ Hp Hu)) as Hb. rewrite Hs in Hb.
        simpl in Hb. split; [done|]. split; [lia|]. rewrite Hi, Hn.
        destruct (Z.eqb_spec (transmissions_ u) 0), (Z.eqb_spec (transmissions_ u + 1) 1);
          done || lia.
      * eapply Forall2_impl_elem; [|exact Hall]. intros j pkt' Hj (v & Hv & Hvp).
        exists v. split; [|done]. rewrite Hput, decide_False in Hv; [done|set_solver].
    + intros j v Hj Hv. destruct (decide (j = c)) as [->|Hne].
      * rewrite Hu in Hv. injection Hv as <-. exists u'.
        rewrite Hout, Hput, decide_True by done.
        split; [done|]. split; [done|]. split; [done|]. split; [done|].
        intros q Hq. destruct Hq as (pk & E1 & E2), Hpdu as (pk' & E3 & E4). by simplify_eq.
      * apply Hin; [set_solver|]. by rewrite Hput, decide_False.
    + intros j Hj. rewrite Hout by set_solver.
      rewrite Hput, decide_False; [done|set_solver].
Qed.

(** *** Concatenation when there is one transport block for two codewords *)

Lemma merged_measured base guest : measured (merged base guest).
Proof. reflexivity. Qed.

Lemma proc_getPdu_eq p c u pkt pdu :
  unit_at p c = Ok u -> pdu_ u = Some pkt -> front pkt = Some pdu -> proc_getPdu p c = Ok pkt.
Proof.
  intros Hu Hk Hf. unfold proc_getPdu, unit_getPdu, peekAtFront. rewrite Hu. cbn.
  rewrite Hk. cbn. by rewrite Hf; cbn; rewrite Hf.
Qed.

Lemma removeAtFront_eq pkt pdu :
  front pkt = Some pdu -> removeAtFront pkt = Ok (pdu, pkt <| front := None |>).
Proof. intros Hf. unfold removeAtFront, peekAtFront. by rewrite Hf. Qed.

Lemma set_pkt_eq p c u pkt :
  unit_at p c = Ok u ->
  set_pkt p c pkt
    = Ok (p <| units_ := <[Z.to_nat c := u <| pdu_ := Some pkt |>]> (units_ p) |>).
Proof.
  intros Hu. unfold set_pkt. rewrite Hu. cbn [rbind].
  by destruct (set_unit_put p c u (u <| pdu_ := Some pkt |>)) as (? & -> & ->).
Qed.

Lemma mark_jumbo_spec p u0 u1 pdu0 pdu1 :
  proc_ok m a p -> unit_at p 0 = Ok u0 -> unit_at p 1 = Ok u1 ->
  status_ u0 = TXHARQ_PDU_BUFFERED -> status_ u1 = TXHARQ_PDU_BUFFERED ->
  carries u0 pdu0 -> carries u1 pdu1 ->
  exists p' u', mark_jumbo p [0; 1] = Ok p' /\ proc_ok m a p' /\
    unit_at p' 0 = Ok u' /\ status_ u' = TXHARQ_PDU_SELECTED /\
    transmissions_ u' = transmissions_ u0 /\ pduLength_ u' = pduLength_ u0 /\
    carries u' (merged pdu0 pdu1) /\ unit_at p' 1 = Ok (resetUnit u1).
Proof.
  intros Hp Hu0 Hu1 Hs0 Hs1 (pkt0 & Hk0 & Hf0) (pkt1 & Hk1 & Hf1).
  pose proof (unit_at_ok _ _ _ _ _ Hp Hu0) as Hok0.
  pose proof (unit_at_ok _ _ _ _ _ Hp Hu1) as Hok1.
  destruct (unit_ok_holds _ _ _ _ Hok0) as (q0 & d0 & Hq0 & Hd0 & Had0 & Hid0 & Hme0);
    [congruence|].
  assert (q0 = pkt0) as -> by congruence. assert (d0 = pdu0) as -> by congruence.
  destruct (move_sdus_merged pdu1 pdu0 Hme0) as (g & Emv & Hg).
  destruct (move_ces_merged g (merged pdu0 (pdu1 <| ceList_ := [] |>))) as (g' & Ece).
  assert (Hmg : (merged pdu0 (pdu1 <| ceList_ := [] |>))
     <| ceList_ := ceList_ (merged pdu0 (pdu1 <| ceList_ := [] |>)) ++ ceList_ g |>
     = merged pdu0 pdu1) by (rewrite Hg; unfold merged; cbn; by rewrite app_nil_r).
  rewrite Hmg in Ece.
  destruct (two_units m a p Hp) as (v0 & v1 & Hus).
  assert (v0 = u0) as -> by (unfold unit_at in Hu0; rewrite Hus in Hu0; by injection Hu0).
  assert (v1 = u1) as -> by (unfold unit_at in Hu1; rewrite Hus in Hu1; by injection Hu1).
  pose proof (reset_ok m a 1 u1 Hok1) as Hr1.
  set (uf := u0 <| pdu_ := Some (insertAtFront (pkt0 <| front := None |>) (merged pdu0 pdu1)) |>
                <| status_ := TXHARQ_PDU_SELECTED |>).
  assert (Huf : unit_ok m a 0 uf).
  { destruct Hok0 as [Ha0 Hc0 Hx0 Ht0 _]. rewrite Hs0 in Ht0. simpl in Ht0.
    constructor; try done; simpl; [lia|]. eexists _, _. by split_and!. }
  set (d := dropped_ p). set (p1 := put p 0 uf d).
  assert (Hp1 : proc_ok m a p1) by (by eapply put_ok).
  assert (H10 : unit_at p1 0 = Ok uf) by (unfold p1; by erewrite unit_at_put).
  assert (H11 : unit_at p1 1 = Ok u1) by (unfold p1; by erewrite unit_at_put).
  exists (put p1 1 (resetUnit u1) d), uf. split_and!; try done.
  2: by eapply put_ok.
  2: by erewrite unit_at_put.
  2: by eexists.
  2: by erewrite unit_at_put.
  assert (Hsel : numSelected_ p <> numHarqUnits_ p)
    by (apply (some_unmarked m a p 0 u0 Hp Hu0); congruence).
  assert (numEmptyUnits_ p = 0 /\ numSelected_ p = 0) as [He Hs].
  { rewrite (ok_empty _ _ _ Hp), (ok_selected _ _ _ Hp), Hus.
    unfold count, unit_isEmpty, unit_isMarked. simpl. by rewrite Hs0, Hs1. }
  unfold mark_jumbo. rewrite (proc_getPdu_eq p 0 u0 pkt0 pdu0) by done. cbn [rbind].
  rewrite (removeAtFront_eq _ pdu0) by done. cbn [rbind].
  rewrite (set_pkt_eq _ _ u0) by done. rewrite Hus. cbn [rbind concat_units].
  set (a0 := u0 <| pdu_ := Some _ |>). change (<[Z.to_nat 0:=a0]> [u0; u1]) with [a0; u1].
  rewrite (proc_getPdu_eq _ 1 u1 pkt1 pdu1) by done. cbn [rbind].
  rewrite (removeAtFront_eq _ pdu1) by done. cbn [rbind].
  rewrite Emv. cbn [rbind]. rewrite Ece. cbn [rbind].
  rewrite (set_pkt_eq _ _ u1) by done. cbn [rbind].
  set (k1 := insertAtFront _ g').
  change (units_ (p <| units_ := [a0; u1] |>)) with [a0; u1].
  change (<[Z.to_nat 1:=u1 <| pdu_ := Some k1 |>]> [a0; u1]) with [a0; u1 <| pdu_ := Some k1 |>].
  unfold proc_dropPdu at 1.
  change (unit_at _ 1) with (Ok (u1 <| pdu_ := Some k1 |>)). cbn [rbind].
  unfold unit_dropPdu at 1. change (status_ (u1 <| pdu_ := Some k1 |>)) with (status_ u1).
  rewrite Hs1. cbn [bool_decide negb rbind].
  rewrite bool_decide_eq_true_2 by done. cbn [negb rbind].
  change (resetUnit (u1 <| pdu_ := Some k1 |>)) with (resetUnit u1).
  change (set_unit _ 1 (resetUnit u1)) with (Ok (p <| units_ := [a0; resetUnit u1] |>)).
  cbn [rbind]. rewrite (set_pkt_eq _ _ a0) by done. cbn [rbind].
  change (insertAtFront (pkt0 <| front := None |>) (merged pdu0 pdu1))
    with (insertAtFront pkt0 (merged pdu0 pdu1)) in *.
  set (k0 := insertAtFront _ (merged pdu0 pdu1)).
  change (<[Z.to_nat 0 := a0 <| pdu_ := Some k0 |>]> _)
    with [u0 <| pdu_ := Some k0 |>; resetUnit u1].
  unfold proc_markSelected.
  change (numSelected_ _ =? numHarqUnits_ _) with (numSelected_ p =? numHarqUnits_ p).
  rewrite (proj2 (Z.eqb_neq _ _) Hsel).
  change (unit_at _ 0) with (Ok (u0 <| pdu_ := Some k0 |>)). cbn [rbind].
  unfold unit_markSelected, unit_isReady.
  change (status_ (u0 <| pdu_ := Some k0 |>)) with (status_ u0). rewrite Hs0.
  rewrite bool_decide_eq_true_2 by done. cbn [negb rbind].
  change (set_unit _ 0 _)
    with (Ok ((add_selected (add_empty p 1) 1) <| units_ := [uf; resetUnit u1] |>)).
  unfold p1, d, put. cbn -[wrap resetUnit]. rewrite Hus, He, Hs.
  reflexivity.
Qed.

(** *** Dropping *)

Lemma drop_units_spec l p :
  proc_ok m a p -> NoDup l ->
  (forall c, c ∈ l -> exists u, unit_at p c = Ok u /\ status_ u = TXHARQ_PDU_BUFFERED) ->
  exists p', drop_units p l = Ok p' /\ proc_ok m a p' /\ dropped_ p' = dropped_ p /\
    (forall c u, c ∈ l -> unit_at p c = Ok u -> unit_at p' c = Ok (resetUnit u)) /\
    (forall c, c ∉ l -> unit_at p' c = unit_at p c).
Proof.
  revert p; induction l as [|c l IH]; intros p Hp Hnd Hl; simpl.
  { exists p. split_and!; try done; set_solver. }
  apply NoDup_cons in Hnd as [Hc Hnd].
  destruct (Hl c) as (u & Hu & Hs); [left|].
  rewrite (proc_drop_spec m a p c u) by done. cbn -[put resetUnit].
  pose proof (fun j => unit_at_put m a p c u (resetUnit u) (dropped_ p) j Hp Hu) as Hput.
  destruct (IH (put p c (resetUnit u) (dropped_ p))) as (p' & E' & Hp' & Hd & Hin & Hout).
  - eapply put_ok; [done..|]. by eapply reset_ok, unit_at_ok.
  - done.
  - intros j Hj. destruct (Hl j) as (v & Hv & Hvs); [by right|].
    exists v. rewrite Hput, decide_False; [done|set_solver].
  - exists p'. split_and!; [done|done|done|..].
    + intros j v Hj Hv. destruct (decide (j = c)) as [->|Hne].
      * rewrite Hu in Hv. injection Hv as <-. by rewrite Hout, Hput, decide_True by done.
      * apply Hin; [set_solver|]. by rewrite Hput, decide_False.
    + intros j Hj. rewrite Hout by set_solver. rewrite Hput, decide_False; [done|set_solver].
Qed.

(** A process with no marked unit has nothing selected. *)
Lemma unmarked_none p :
  proc_ok m a p ->
  (forall c u, unit_at p c = Ok u -> status_ u <> TXHARQ_PDU_SELECTED) -> numSelected_ p = 0.
Proof.
  intros Hp Hall. rewrite (ok_selected _ _ _ Hp). apply count_0. intros i u Hi.
  apply not_true_is_false. intros Hs%marked_status. apply (Hall (Z.of_nat i) u); [|done].
  apply unit_at_inv. unfold vget. rewrite (proj2 (Z.leb_le 0 _)) by lia. by rewrite Nat2Z.id.
Qed.
End Select.
