(* ===== verification/HarqTxRun.v ===== *)
(** * Every use the MAC makes of the H-ARQ transmit buffer is safe

    The operations in the order the MAC main loop may call them, what it must respect,
    and the theorem that then no operation fails, the invariant is kept, and over the whole
    run the packets of a PDU are numbered without a gap. *)

From S2P Require Import Prelude.
From S2P Require Import HarqTx.
From S2P Require Import HarqTxBuffer.
From S2P Require Import HarqTxFacts.
From S2P Require Import HarqTxProps.
#[local] Open Scope Z_scope.

Inductive tx_op : Type :=
| TInsert (acid cw : Z) (pkt : Packet)
| TRetx (acid tbs : Z)
| TSend
| TFeedback (fb : LteHarqFeedback)
| TDrop (acid : Z)
| TForceDrop (acid : Z).

(** The main loop of [LteMacUe] looks for units to retransmit in the current process and
    selects them; [tbs] is the number of layers granted. *)
Definition mac_retransmit (b : LteHarqBufferTx) (currentHarq tbs : Z)
    : result LteHarqBufferTx :=
  let! p := getProcess b currentHarq in
  let! retx := hasReadyUnits p in
  let! cwListRetx := readyUnitsIds p in
  if retx then buf_markSelected b (currentHarq, cwListRetx) (uint8 tbs) else Ok b.

Definition tx_exec (NOW : Z) (b : LteHarqBufferTx) (op : tx_op)
    : result (list Packet * LteHarqBufferTx) :=
  match op with
  | TInsert acid cw pkt => let! b := buf_insertPdu b acid cw pkt in Ok ([], b)
  | TRetx acid tbs => let! b := mac_retransmit b acid tbs in Ok ([], b)
  | TSend => sendSelectedDown NOW b
  | TFeedback fb => let! b := receiveHarqFeedback b fb in Ok ([], b)
  | TDrop acid => let! b := buf_dropProcess b acid in Ok ([], b)
  | TForceDrop acid => let! b := buf_forceDropProcess b acid in Ok ([], b)
  end.

(** One process is used at a time: an empty one for new data, or the one already selected;
    feedback is for a unit that waits for it, unless its process was dropped. *)
Definition allowed (b : LteHarqBufferTx) (op : tx_op) : Prop :=
  match op with
  | TInsert a c pkt =>
      (exists pdu, insertable c pkt pdu) /\ 0 <= c < MAX_CODEWORDS /\
      exists p, proc_at b a = Ok p /\
        (selectedAcid_ b = HARQ_NONE /\ proc_isEmpty p = true \/
         selectedAcid_ b = a /\ isUnitEmpty p c = Ok true)
  | TRetx a tbs =>
      (exists p, proc_at b a = Ok p) /\ 0 <= tbs < 256 /\
      (selectedAcid_ b = HARQ_NONE \/ selectedAcid_ b = a)
  | TSend => True
  | TFeedback fb =>
      exists p u, proc_at b (fb_acid fb) = Ok p /\ unit_at p (fb_cw fb) = Ok u /\
        (dropped_ p = true \/ status_ u = TXHARQ_PDU_WAITING /\ fbMacPduId fb = pduId_ u)
  | TDrop a | TForceDrop a => exists p, proc_at b a = Ok p
  end.

(** The numbering of what is sent. *)
Definition numbered (m : Z) (pkt : Packet) : Prop :=
  1 <= txNumber (tag pkt) <= m + 1 /\ ndi (tag pkt) = (txNumber (tag pkt) =? 1).

(** ** Counting transmissions

    What happens at a buffer, seen from outside: a PDU is inserted at a codeword of a
    process, a packet goes down. *)
Inductive tx_event : Type :=
| Inserted (acid cw : Z)
| Sent (pkt : Packet).

Definition op_events (op : tx_op) (sent : list Packet) : list tx_event :=
  match op with
  | TInsert a c _ => [Inserted a c]
  | _ => map Sent sent
  end.

(** The packets that went down for codeword [c] of process [a] since a PDU was last
    inserted there. *)
Definition attempts (a c : Z) (trace : list tx_event) : Z :=
  fold_left (fun n e =>
    match e with
    | Inserted a' c' => if bool_decide (a' = a /\ c' = c) then 0 else n
    | Sent pkt => if bool_decide (acid (tag pkt) = a /\ cw (tag pkt) = c) then n + 1 else n
    end) trace 0.

(** A packet is numbered by the attempts it follows, the first one is marked as new data,
    and there are at most [m] retransmissions. *)
Definition rightly_numbered (m : Z) (past : list tx_event) (pkt : Packet) : Prop :=
  let n := attempts (acid (tag pkt)) (cw (tag pkt)) past in
  txNumber (tag pkt) = n + 1 /\ n + 1 <= m + 1 /\ ndi (tag pkt) = (n =? 0).

Definition all_numbered (m : Z) (past evs : list tx_event) : Prop :=
  forall before pkt after, evs = before ++ Sent pkt :: after -> rightly_numbered m (past ++ before) pkt.

(** The units that hold a PDU know how often it was sent. *)
Definition tallies (b : LteHarqBufferTx) (past : list tx_event) : Prop :=
  forall a c p u, proc_at b a = Ok p -> unit_at p c = Ok u -> status_ u <> TXHARQ_PDU_EMPTY ->
    transmissions_ u = attempts a c past.

(** Units lose their PDU or keep their count. *)
Definition kept (p p' : LteHarqProcessTx) : Prop :=
  forall c u', unit_at p' c = Ok u' -> status_ u' <> TXHARQ_PDU_EMPTY ->
    exists u, unit_at p c = Ok u /\ status_ u <> TXHARQ_PDU_EMPTY /\ transmissions_ u' = transmissions_ u.

Definition steady (b b' : LteHarqBufferTx) : Prop := forall past, tallies b past -> tallies b' past.

Lemma kept_same p : kept p p.
Proof. intros c u Hu Hs. by exists u. Qed.

Lemma steady_refl b : steady b b.
Proof. by intros past. Qed.

Lemma steady_bput b a p p' sel n : proc_at b a = Ok p -> kept p p' -> steady b (bput b a p' sel n).
Proof.
  intros Hp Hk past Ht i c q u Hq Hu Hs. rewrite (proc_at_bput _ _ p) in Hq by done.
  destruct (decide (a = i)) as [<-|]; [|by apply (Ht i c q u)].
  injection Hq as <-. destruct (Hk c u Hu Hs) as (v & Hv & Hvs & ->). by apply (Ht a c p v).
Qed.

Lemma attempts_app a c past evs :
  attempts a c (past ++ evs) =
  fold_left (fun n e =>
    match e with
    | Inserted a' c' => if bool_decide (a' = a /\ c' = c) then 0 else n
    | Sent pkt => if bool_decide (acid (tag pkt) = a /\ cw (tag pkt) = c) then n + 1 else n
    end) evs (attempts a c past).
Proof. apply fold_left_app. Qed.

(** One packet for each codeword of [l]. *)
Lemma attempts_sent a l sent : forall past i j,
  NoDup l -> Forall2 (fun c pkt => addressed a c pkt) l sent ->
  attempts i j (past ++ map Sent sent) = attempts i j past + (if bool_decide (i = a /\ j ∈ l) then 1 else 0).
Proof.
  intros past i j Hnd Hall. revert past Hnd. induction Hall as [|c pkt l sent (Ha & Hc & _) _ IH]; intros past Hnd; cbn [map].
  - rewrite app_nil_r, bool_decide_eq_false_2; [lia|]. intros [_ Hj]. by apply elem_of_nil in Hj.
  - apply NoDup_cons in Hnd as [Hni Hnd]. rewrite cons_middle, app_assoc, IH by done. rewrite attempts_app. cbn [fold_left].
    rewrite Ha, Hc. assert (Hl : forall k, k ∈ l -> k <> c) by (by intros k Hk ->).
    repeat case_bool_decide; try lia; exfalso; rewrite ?elem_of_cons in *;
      first [intuition congruence|naive_solver].
Qed.

Section Run.
Context (m : Z) (Hm : 0 <= m < 255).
Implicit Types (b : LteHarqBufferTx) (p : LteHarqProcessTx).

Lemma empty_unit p a c u :
  proc_ok m a p -> unit_at p c = Ok u ->
  proc_isEmpty p = true \/ isUnitEmpty p c = Ok true -> status_ u = TXHARQ_PDU_EMPTY.
Proof.
  intros Hp Hu [He|He].
  - by eapply (proj1 (proc_isEmpty_spec m a p Hp) He).
  - unfold isUnitEmpty in He. rewrite Hu in He. injection He as He. by apply empty_status.
Qed.

Lemma buf_insert_spec b a c pkt :
  buf_ok m b -> allowed b (TInsert a c pkt) ->
  exists p u', proc_at b a = Ok p /\
    buf_insertPdu b a c pkt
      = Ok (bput b a (put p c u' false) a (wrap 32 (numEmptyProc_ b - 1))) /\
    unit_ok m a c u' /\ status_ u' = TXHARQ_PDU_SELECTED /\ transmissions_ u' = 0 /\
    (forall pdu, insertable c pkt pdu -> carries u' (stamped pdu)) /\
    buf_ok m (bput b a (put p c u' false) a (wrap 32 (numEmptyProc_ b - 1))).
Proof.
  intros Hb ((pdu & Hins) & Hc & p & Hp & Hcase).
  pose proof (proc_at_ok m _ _ _ Hb Hp) as Hpok.
  destruct (unit_at_is_Ok m a p c Hpok Hc) as [u Hu].
  assert (Hs : status_ u = TXHARQ_PDU_EMPTY)
    by (eapply empty_unit; [done..|]; destruct Hcase as [[]|[]]; auto).
  destruct (proc_insert_spec m a Hm p c u pkt pdu) as (u' & E & Hu' & Hs' & Ht & Hcar); try done.
  exists p, u'. split; [done|].
  assert (Hok : buf_ok m (bput b a (put p c u' false) a (wrap 32 (numEmptyProc_ b - 1)))).
  { eapply bput_ok; try done; [by eapply put_ok|by right|]. destruct Hcase as [[]|[]]; auto. }
  split_and!; try done.
  - unfold buf_insertPdu, peekAtFront. destruct Hins as (Hf & _). rewrite Hf, Hp. cbn [rbind].
    assert ((selectedAcid_ b =? HARQ_NONE) && negb (proc_isEmpty p) = false) as ->.
    { destruct Hcase as [[_ ->]|[-> _]]; [by rewrite andb_false_r|].
      pose proof (proc_at_bounds m _ _ _ Hb Hp). pose proof (ok_count _ _ Hb).
      by rewrite (proj2 (Z.eqb_neq _ _)) by lia. }
    unfold isUnitEmpty. rewrite Hu. cbn [rbind]. unfold unit_isEmpty. rewrite Hs.
    rewrite bool_decide_eq_true_2 by done. cbn [negb rbind]. rewrite E. cbn [rbind].
    by rewrite (set_proc_eq _ a p).
  - intros q Hq. destruct Hins as (Hf & _), Hq as (Hf' & _). by simplify_eq.
Qed.

Lemma where_full p :
  1 < vsize (where_ unit_isReady (units_ p)) -> where_ unit_isReady (units_ p) = [0; 1].
Proof. unfold where_, List.filter. repeat case_match; simpl; intros; try done; lia. Qed.

Lemma ready_spec p a :
  proc_ok m a p ->
  hasReadyUnits p = Ok (negb (bool_decide (where_ unit_isReady (units_ p) = []))).
Proof.
  intros Hp. unfold hasReadyUnits. rewrite (ok_num _ _ _ Hp).
  destruct (two_units m a p Hp) as (u0 & u1 & ->).
  change (where_ unit_isReady [u0; u1])
    with (let l := if unit_isReady u1 then [1] else [] in if unit_isReady u0 then 0 :: l else l).
  change (has_ready_from _ _ _)
    with (if unit_isReady u0 then Ok true else if unit_isReady u1 then Ok true else Ok false).
  by destruct (unit_isReady u0), (unit_isReady u1).
Qed.

(** Selection of every ready unit: in place, or concatenated into the first one. *)
Lemma retransmit_ok b a tbs :
  buf_ok m b -> allowed b (TRetx a tbs) ->
  exists b', mac_retransmit b a tbs = Ok b' /\ buf_ok m b' /\ steady b b'.
Proof.
  intros Hb ((p & Hp) & Ht & Hsel). pose proof (proc_at_ok m _ _ _ Hb Hp) as Hpok.
  unfold mac_retransmit, getProcess. rewrite (proj1 (proc_at_inv _ _ _) Hp). cbn [rbind].
  rewrite (ready_spec p a), (ready_where m a) by done. cbn [rbind].
  set (l := where_ unit_isReady (units_ p)).
  destruct (bool_decide (l = [])) eqn:El; [exists b; auto using steady_refl|]. cbn [negb].
  unfold buf_markSelected. cbn [fst snd]. rewrite El, wrap_small by (unfold is_uint; lia).
  destruct (Z.eqb_spec tbs 0) as [|Hne]; [exists b; auto using steady_refl|]. rewrite Hp. cbn [rbind].
  assert (Hl : forall c, c ∈ l -> exists u, unit_at p c = Ok u /\ status_ u = TXHARQ_PDU_BUFFERED)
    by (intros c Hc%ready_in; apply Hc).
  assert (Hdone : forall q, proc_ok m a q -> kept p q -> exists b',
    (let! b := set_proc b a q in Ok (b <| selectedAcid_ := a |>)) = Ok b' /\ buf_ok m b' /\ steady b b').
  { intros q Hq Hkq. rewrite (set_proc_eq _ _ p) by done. eexists. split; [reflexivity|].
    split; [apply (bput_ok m b a p q a (numEmptyProc_ b)); auto; done|].
    by apply (steady_bput b a p q a (numEmptyProc_ b)). }
  destruct (Z.ltb_spec tbs (vsize l)) as [Hlt|_].
  - assert (l = [0; 1]) as Hl01 by (apply where_full; subst l; lia). rewrite Hl01 in *.
    destruct (Hl 0) as (u0 & Hu0 & Hs0); [set_solver|].
    destruct (Hl 1) as (u1 & Hu1 & Hs1); [set_solver|].
    destruct (holds_carries m a 0 u0) as [pdu0 Hc0]; [by eauto using unit_at_ok|congruence|].
    destruct (holds_carries m a 1 u1) as [pdu1 Hc1]; [by eauto using unit_at_ok|congruence|].
    destruct (mark_jumbo_spec m a p u0 u1 pdu0 pdu1) as (p' & u' & -> & Hp' & Hu' & _ & Ht' & _ & _ & Hr'); try done.
    apply Hdone; [done|]. intros c v Hv Hvs. pose proof (unit_at_bounds _ _ _ _ _ Hp' Hv) as Hc. unfold MAX_CODEWORDS in Hc.
    assert (c = 0 \/ c = 1) as [->| ->] by lia; [|rewrite Hr' in Hv; by injection Hv as <-].
    rewrite Hu' in Hv. injection Hv as <-. exists u0. split; [done|]. split; [congruence|done].
  - destruct (mark_units_spec m a Hm l p) as (p' & -> & Hp' & _ & Hin & Hout); [done|apply where_NoDup|done|].
    apply Hdone; [done|]. intros c v Hv Hvs. destruct (decide (c ∈ l)) as [Hc|Hc]; [|rewrite Hout in Hv by done; by exists v].
    destruct (Hl c Hc) as (u & Hu & Hs). destruct (Hin c u Hc Hu) as (u' & Hu' & _ & Ht' & _).
    rewrite Hu' in Hv. injection Hv as <-. exists u. split; [done|]. split; [congruence|done].
Qed.

Lemma bput_self b a p :
  proc_at b a = Ok p -> processes_ b = <[Z.to_nat a := p]> (processes_ b).
Proof.
  intros Hp%proc_at_inv. symmetry. apply list_insert_id. unfold vget in Hp.
  by destruct (0 <=? a).
Qed.

(** The numbers of what a process sends, and the counts it is left with. *)
Lemma send_tallies b a p p' l sent sel n past :
  proc_ok m a p -> proc_at b a = Ok p -> NoDup l ->
  Forall2 (fun c pkt => exists u, unit_at p c = Ok u /\ sent_for m a u c pkt) l sent ->
  (forall c u, c ∈ l -> unit_at p c = Ok u -> exists u', unit_at p' c = Ok u' /\ awaiting u u') ->
  (forall c, c ∉ l -> unit_at p' c = unit_at p c) ->
  (forall c, c ∈ l -> exists u, unit_at p c = Ok u /\ status_ u = TXHARQ_PDU_SELECTED) ->
  tallies b past ->
  all_numbered m past (map Sent sent) /\ tallies (bput b a p' sel n) (past ++ map Sent sent).
Proof.
  intros Hpok Hp Hnd Hall Hin Hout Hsel Ht.
  assert (Hadd : forall l sent, Forall2 (fun c pkt => exists u, unit_at p c = Ok u /\ sent_for m a u c pkt) l sent ->
    Forall2 (fun c pkt => addressed a c pkt) l sent).
  { intros k ps H. eapply Forall2_impl; [exact H|]. intros c pkt (u & _ & _ & Had & _). exact Had. }
  split.
  - intros before pkt after E. apply map_eq_app in E as (s1 & s2 & -> & <- & E).
    destruct s2 as [|pkt' s2]; [done|]. injection E as -> _.
    apply Forall2_app_inv_r in Hall as (l1 & l2 & Hl1 & Hl2 & ->). apply Forall2_cons_inv_r in Hl2 as (c & l2' & Hc & _ & ->).
    apply Hadd in Hl1.
    apply NoDup_app in Hnd as (Hnd & Hdis & _). destruct Hc as (u & Hu & _ & (Ha & Hcw & _) & Hn & Hr & Hi).
    unfold rightly_numbered. rewrite Ha, Hcw, (attempts_sent a l1 s1) by done.
    rewrite bool_decide_eq_false_2 by (intros [_ Hc]; apply (Hdis c Hc); set_solver). rewrite Z.add_0_r.
    destruct (Hsel c ltac:(set_solver)) as (u' & Hu' & Hs'). rewrite Hu in Hu'. injection Hu' as <-.
    rewrite <- (Ht a c p u Hp Hu ltac:(congruence)). split; [done|]. split; [lia|]. rewrite Hi, Hn.
    apply eq_bool_prop_intro. rewrite !Is_true_true, !Z.eqb_eq. lia.
  - intros i c q u Hq Hu Hs. rewrite (proc_at_bput _ _ p) in Hq by done. rewrite (attempts_sent a l sent) by auto.
    destruct (decide (a = i)) as [<-|Hne]; [injection Hq as <-|rewrite bool_decide_eq_false_2, Z.add_0_r by (intros [? _]; congruence); by apply (Ht i c q u)].
    destruct (decide (c ∈ l)) as [Hc|Hc].
    + rewrite bool_decide_eq_true_2 by done. destruct (Hsel c Hc) as (v & Hv & Hvs).
      destruct (Hin c v Hc Hv) as (v' & Hv' & _ & Ht' & _). rewrite Hv' in Hu. injection Hu as <-.
      rewrite Ht'. f_equal. by apply (Ht a c p v); [..|congruence].
    + rewrite bool_decide_eq_false_2, Z.add_0_r by (by intros [_ ?]). rewrite Hout in Hu by done. by apply (Ht a c p u).
Qed.

(** What a process sends and how it is left. *)
Lemma send_spec NOW b :
  buf_ok m b ->
  exists sent b', sendSelectedDown NOW b = Ok (sent, b') /\ buf_ok m b' /\
    selectedAcid_ b' = HARQ_NONE /\ Forall (numbered m) sent /\
    forall past, tallies b past -> all_numbered m past (map Sent sent) /\ tallies b' (past ++ map Sent sent).
Proof.
  intros Hb. unfold sendSelectedDown.
  destruct (Z.eqb_spec (selectedAcid_ b) HARQ_NONE) as [Hs|Hs].
  { exists [], b. split_and!; [done..|constructor|]. intros past Ht. cbn. rewrite app_nil_r. split; [|done]. by intros [|? ?]. }
  destruct (ok_sel _ _ Hb) as [|Ha]; [done|].
  destruct (proc_at_is_Ok m _ _ Hb Ha) as [p Hp]. rewrite Hp. cbn [rbind].
  pose proof (proc_at_ok m _ _ _ Hb Hp) as Hpok.
  rewrite (selected_where m (selectedAcid_ b)) by done. cbn [rbind].
  destruct (send_units_spec m (selectedAcid_ b) Hm NOW (where_ unit_isMarked (units_ p)) p)
    as (sent & p' & E & Hp' & _ & Hall & Hin & Hout); [done|apply where_NoDup| |].
  { intros c Hc%marked_in. apply Hc. }
  rewrite E. cbn [rbind]. rewrite (set_proc_eq _ _ p) by done.
  eexists sent, _. split; [reflexivity|]. split; [|split; [done|split]].
  - apply (bput_ok m b (selectedAcid_ b) p p' HARQ_NONE (numEmptyProc_ b)); auto. intros _.
    apply (unmarked_none m (selectedAcid_ b)); [done|]. intros c u Hu Hmk.
    destruct (decide (c ∈ where_ unit_isMarked (units_ p))) as [Hc|Hc].
    + apply marked_in in Hc as Hc'. destruct Hc' as (_ & v & Hv & _).
      destruct (Hin c v Hc Hv) as (v' & Hv' & (Hw & _)). congruence.
    + rewrite Hout in Hu by done. apply Hc, marked_in. split; [|by exists u].
      exact (unit_at_bounds _ _ _ _ _ Hpok Hu).
  - apply Forall_forall. intros pkt Hpkt.
    apply list_elem_of_lookup in Hpkt as [i Hi].
    destruct (Forall2_lookup_r _ _ _ _ _ Hall Hi) as (c & _ & u & _ & Hsf).
    destruct Hsf as (_ & _ & Hn & Hr & Hnd). by split.
  - intros past Ht.
    apply (send_tallies b (selectedAcid_ b) p p' (where_ unit_isMarked (units_ p)) sent HARQ_NONE (numEmptyProc_ b)); try done;
      [apply where_NoDup|]. intros c Hc%marked_in. apply Hc.
Qed.

Lemma feedback_ok b fb :
  buf_ok m b -> allowed b (TFeedback fb) ->
  exists b', receiveHarqFeedback b fb = Ok b' /\ buf_ok m b' /\ steady b b'.
Proof.
  intros Hb (p & u & Hp & Hu & Hcase). pose proof (proc_at_ok m _ _ _ Hb Hp) as Hpok.
  unfold receiveHarqFeedback, getPduId. rewrite Hp. cbn [rbind]. rewrite Hu. cbn [rbind].
  destruct (dropped_ p) eqn:Ed; [exists b; auto using steady_refl|].
  destruct Hcase as [|(Hs & ->)]; [done|]. rewrite Z.eqb_refl. cbn [negb].
  destruct (holds_carries m (fb_acid fb) (fb_cw fb) u) as [pdu Hpdu];
    [by eauto using unit_at_ok|congruence|].
  set (ack := if fb_result fb then HARQACK else HARQNACK).
  destruct (proc_feedback_spec m (fb_acid fb) Hm p (fb_cw fb) u pdu ack)
    as (u' & E & Hu' & Hs'); try done.
  rewrite E. cbn [rbind]. rewrite (set_proc_eq _ _ p) by done. cbn [rbind].
  set (q := put p (fb_cw fb) u' (dropped_ p)) in *.
  assert (Hok : forall n, buf_ok m (bput b (fb_acid fb) q (selectedAcid_ b) n)).
  { intros n. eapply bput_same; [done|done|by eapply put_ok|]. intros Hz.
    destruct (put_counts m (fb_acid fb) p (fb_cw fb) u u' (dropped_ p) Hpok Hu) as (_ & Hc & _).
    subst q. rewrite Hc, Hz. unfold unit_isMarked. rewrite Hs.
    rewrite (bool_decide_eq_false_2 (TXHARQ_PDU_WAITING = _)) by done.
    rewrite bool_decide_eq_false_2; [done|].
    destruct (ends _ _ _); [|destruct Hs' as [Hs' _]]; congruence. }
  assert (Hkq : kept p q).
  { intros c v Hv Hvs. subst q. rewrite (unit_at_put m (fb_acid fb) p (fb_cw fb) u) in Hv by done.
    destruct (decide (fb_cw fb = c)) as [<-|]; [|by exists v]. injection Hv as <-. exists u. split; [done|].
    destruct (ends _ _ _); [done|]. split; [congruence|apply Hs']. }
  destruct (proc_isEmpty q); (eexists; split; [reflexivity|]; split; [apply Hok|by apply (steady_bput b (fb_acid fb) p)]).
Qed.

Lemma drop_ok b a :
  buf_ok m b -> allowed b (TDrop a) -> exists b', buf_dropProcess b a = Ok b' /\ buf_ok m b' /\ steady b b'.
Proof.
  intros Hb (p & Hp). pose proof (proc_at_ok m _ _ _ Hb Hp) as Hpok.
  unfold buf_dropProcess. rewrite Hp. cbn [rbind]. rewrite (ready_where m a) by done.
  cbn [rbind].
  destruct (drop_units_spec m a Hm (where_ unit_isReady (units_ p)) p)
    as (p' & E & Hp' & _ & Hin & Hout); [done|apply where_NoDup| |].
  { intros c Hc%ready_in. apply Hc. }
  rewrite E. cbn [rbind]. rewrite (set_proc_eq _ _ p) by done. eexists. split; [reflexivity|].
  split; [|apply (steady_bput b a p); [done|]; intros c v Hv Hvs;
    destruct (decide (c ∈ where_ unit_isReady (units_ p))) as [Hc|Hc]; [|rewrite Hout in Hv by done; by exists v];
    apply ready_in in Hc as Hc'; destruct Hc' as (_ & u & Hu & _); rewrite (Hin c u Hc Hu) in Hv; by injection Hv as <-].
  apply (bput_same m b a p p' (wrap 32 (numEmptyProc_ b + 1))); try done.
  intros Hz. apply (unmarked_none m a); [done|]. intros c u Hu Hmk.
  destruct (decide (c ∈ where_ unit_isReady (units_ p))) as [Hc|Hc].
  - apply ready_in in Hc as Hc'. destruct Hc' as (_ & v & Hv & _).
    rewrite (Hin c v Hc Hv) in Hu. injection Hu as <-. done.
  - rewrite Hout in Hu by done. by eapply (none_marked m a p c u).
Qed.

Lemma force_drop_ok b a :
  buf_ok m b -> allowed b (TForceDrop a) ->
  exists b', buf_forceDropProcess b a = Ok b' /\ buf_ok m b' /\ steady b b'.
Proof.
  intros Hb (p & Hp). pose proof (proc_at_ok m _ _ _ Hb Hp) as Hpok.
  unfold buf_forceDropProcess. rewrite Hp. cbn [rbind].
  destruct (forceDrop_spec m a p Hpok) as (p' & E & Hp' & _ & Hz & He).
  assert (Hk : kept p p') by (intros c v Hv Hvs; by destruct Hvs; apply (proj1 (proc_isEmpty_spec m a p' Hp') He c v)).
  rewrite E. cbn [rbind]. rewrite (set_proc_eq _ _ p) by done. cbn [rbind].
  eexists. split; [reflexivity|]. unfold unselect. simpl.
  destruct (Z.eqb_spec a (selectedAcid_ b)) as [Heq|Hne].
  - split; [apply (bput_ok m b a p p' HARQ_NONE (wrap 32 (numEmptyProc_ b + 1))); auto|by apply (steady_bput b a p)].
  - split; [by apply (bput_same m b a p p' (wrap 32 (numEmptyProc_ b + 1)))|by apply (steady_bput b a p)].
Qed.

Lemma step_ok NOW b op :
  buf_ok m b -> allowed b op ->
  exists sent b', tx_exec NOW b op = Ok (sent, b') /\ buf_ok m b' /\ Forall (numbered m) sent /\
    forall past, tallies b past -> all_numbered m past (op_events op sent) /\ tallies b' (past ++ op_events op sent).
Proof.
  assert (forall op (r : result LteHarqBufferTx), op_events op [] = [] -> (exists b', r = Ok b' /\ buf_ok m b' /\ steady b b') ->
    exists sent b', (let! b := r in Ok ([], b)) = Ok (sent, b') /\ buf_ok m b' /\ Forall (numbered m) sent /\
      forall past, tallies b past -> all_numbered m past (op_events op sent) /\ tallies b' (past ++ op_events op sent)) as Hlift.
  { intros o r Ho (b' & -> & Hb' & Hst). exists [], b'. split_and!; [done..|constructor|]. intros past Ht. rewrite Ho, app_nil_r.
    split; [by intros [|? ?]|by apply Hst]. }
  intros Hb Ha. destruct op as [a c pkt| | | | |]; cbn [tx_exec].
  - destruct (buf_insert_spec _ _ _ _ Hb Ha) as (p & u' & Hp & E & _ & _ & Hz & _ & Hok). rewrite E. cbn [rbind].
    eexists [], _. split_and!; [done|done|constructor|]. intros past Ht. split; [by intros [|? [|? ?]]|].
    pose proof (proc_at_ok m _ _ _ Hb Hp) as Hpok. destruct (unit_at_is_Ok m a p c Hpok (proj1 (proj2 Ha))) as [u Hu].
    intros i j q v Hq Hv Hs. rewrite attempts_app. cbn [fold_left op_events]. rewrite (proc_at_bput _ _ p) in Hq by done.
    destruct (decide (a = i)) as [<-|Hne]; [|rewrite bool_decide_eq_false_2 by (intros [? _]; congruence); by apply (Ht i j q v)].
    injection Hq as <-. rewrite (unit_at_put m a p c u) in Hv by done. destruct (decide (c = j)) as [<-|Hne].
    + injection Hv as <-. by rewrite bool_decide_eq_true_2.
    + rewrite bool_decide_eq_false_2 by (intros [_ ?]; congruence). by apply (Ht a j p v).
  - by apply (Hlift (TRetx acid tbs)), retransmit_ok.
  - destruct (send_spec NOW b Hb) as (sent & b' & E & Hb' & _ & Hall & Ht). by exists sent, b'.
  - by apply (Hlift (TFeedback fb)), feedback_ok.
  - by apply (Hlift (TDrop acid)), drop_ok.
  - by apply (Hlift (TForceDrop acid)), force_drop_ok.
Qed.
End Run.

(** ** Runs *)

Fixpoint tx_run (ops : list (Z * tx_op)) (b : LteHarqBufferTx)
    : result (list Packet * LteHarqBufferTx) :=
  match ops with
  | [] => Ok ([], b)
  | (NOW, op) :: ops =>
      let! (sent, b) := tx_exec NOW b op in
      let! (later, b) := tx_run ops b in
      Ok (sent ++ later, b)
  end.

(** The insertions and the packets of a run, in order. *)
Fixpoint tx_trace (ops : list (Z * tx_op)) (b : LteHarqBufferTx) : list tx_event :=
  match ops with
  | [] => []
  | (NOW, op) :: ops =>
      match tx_exec NOW b op with
      | Ok (sent, b) => op_events op sent ++ tx_trace ops b
      | _ => []
      end
  end.

(** Each operation is allowed in the state the earlier ones lead to. *)
Fixpoint well_used (ops : list (Z * tx_op)) (b : LteHarqBufferTx) : Prop :=
  match ops with
  | [] => True
  | (NOW, op) :: ops =>
      allowed b op /\ forall sent b', tx_exec NOW b op = Ok (sent, b') -> well_used ops b'
  end.

Lemma all_numbered_app m past evs evs' :
  all_numbered m past evs -> all_numbered m (past ++ evs) evs' -> all_numbered m past (evs ++ evs').
Proof.
  intros H1 H2 before pkt after E.
  apply app_eq_inv in E as [(k & E1 & E2)|(k & E1 & E2)].
  - destruct k as [|e k].
    + rewrite app_nil_r in E1. subst before. rewrite app_nil_l in E2. specialize (H2 [] pkt after (eq_sym E2)).
      by rewrite app_nil_r in H2.
    + injection E2 as <- _. by apply (H1 before pkt k).
  - subst before. rewrite app_assoc. by apply (H2 k pkt after).
Qed.

Lemma run_ok m ops b :
  0 <= m < 255 -> buf_ok m b -> well_used ops b ->
  exists sent b', tx_run ops b = Ok (sent, b') /\ buf_ok m b' /\ Forall (numbered m) sent /\
    forall past, tallies b past -> all_numbered m past (tx_trace ops b).
Proof.
  intros Hm. revert b; induction ops as [|[NOW op] ops IH]; intros b Hb; cbn [tx_run tx_trace well_used].
  { intros _. exists [], b. split_and!; [done..|constructor|]. by intros past _ [|? ?]. }
  intros [Ha Hw]. destruct (step_ok m Hm NOW b op Hb Ha) as (sent & b1 & E & Hb1 & Hs & Hc).
  rewrite E. cbn [rbind]. destruct (IH b1 Hb1 (Hw _ _ E)) as (later & b2 & E2 & Hb2 & Hl & Hc2).
  rewrite E2. cbn [rbind]. eexists _, _. split; [reflexivity|]. split; [done|]. split; [by apply Forall_app|].
  intros past Ht. destruct (Hc past Ht) as [Hc1 Ht1]. by apply all_numbered_app; [|apply Hc2].
Qed.

(** Nothing was sent for the units of a new buffer. *)
Lemma new_tallies m num node len : 0 <= num <= HARQ_NONE -> tallies (new_LteHarqBufferTx num node m len) [].
Proof.
  intros Hn a c p u Hp%proc_at_inv Hu%unit_at_inv Hs. apply new_processes_lookup in Hp; [|lia..]. subst p.
  apply new_units_lookup in Hu. by subst u.
Qed.

(** C22. The transmit buffer is safe: from a new buffer of [num] processes with [m]
    retransmissions, any sequence of insertions, retransmissions, transmissions, feedback
    and drops the MAC may make runs without error, the counters of every process stay the
    numbers of empty and selected units, and only the selected process has selected units.
    Over the whole run every packet is numbered by the packets sent before it for the PDU
    of its process and codeword, from 1 without a gap; no PDU is sent more than [m + 1]
    times, and exactly its first packet carries the new data indicator. *)
Theorem harq_tx_safe m num node len ops :
  0 <= m < 255 -> 0 <= num <= HARQ_NONE ->
  well_used ops (new_LteHarqBufferTx num node m len) ->
  exists sent b', tx_run ops (new_LteHarqBufferTx num node m len) = Ok (sent, b') /\ buf_ok m b' /\
    forall before pkt after,
      tx_trace ops (new_LteHarqBufferTx num node m len) = before ++ Sent pkt :: after ->
      let earlier := attempts (acid (tag pkt)) (cw (tag pkt)) before in
      txNumber (tag pkt) = earlier + 1 /\ earlier <= m /\ ndi (tag pkt) = (earlier =? 0).
Proof.
  intros Hm Hn Hw. destruct (run_ok m ops _ Hm (new_buf_ok m num node len Hm Hn) Hw) as (sent & b' & E & Hb & _ & Hc).
  exists sent, b'. split; [done|]. split; [done|]. intros before pkt after Et.
  pose proof (Hc [] (new_tallies m num node len Hn) before pkt after Et) as Hr. unfold rightly_numbered in Hr. cbv zeta in Hr |- *.
  rewrite app_nil_l in Hr. destruct Hr as (H1 & H2 & H3). split_and!; [done|lia|done].
Qed.
