(* ===== verification/HarqTxChoice.v ===== *)
(** * Retransmission: which process, and two codewords in one block

    The choice of the process whose PDU has waited longest, the concatenation of two
    PDUs when one transport block is granted, and the negative acknowledgment to oneself,
    which cannot succeed. *)

From S2P Require Import Prelude.
From S2P Require Import HarqTx.
From S2P Require Import HarqTxBuffer.
From S2P Require Import HarqTxFacts.
From S2P Require Import HarqTxProps.
From S2P Require Import HarqTxRun.
#[local] Open Scope Z_scope.

(** Unit [c] of process [a] is ready and holds [u]. *)
Definition ready_at (b : LteHarqBufferTx) (a c : Z) (u : LteHarqUnitTx) : Prop :=
  exists p, proc_at b a = Ok p /\ unit_at p c = Ok u /\ status_ u = TXHARQ_PDU_BUFFERED.

Section Oldest.
Context (m : Z).
Implicit Types (b : LteHarqBufferTx) (p : LteHarqProcessTx).

(** [t] is the least transmission time of the ready units of [p] below [t0], or [t0]. *)
Definition oldest_below (p : LteHarqProcessTx) (t0 t : Z) : Prop :=
  t <= t0 /\
  (forall c u, unit_at p c = Ok u -> status_ u = TXHARQ_PDU_BUFFERED -> t <= txTime_ u) /\
  (t = t0 \/ exists c u, unit_at p c = Ok u /\ status_ u = TXHARQ_PDU_BUFFERED /\ t = txTime_ u).

Lemma unit_at_two p u0 u1 c u :
  units_ p = [u0; u1] -> unit_at p c = Ok u -> (c = 0 /\ u = u0) \/ (c = 1 /\ u = u1).
Proof.
  intros Hus Hu%unit_at_inv. pose proof (vget_Some_bounds _ _ _ Hu) as Hb.
  rewrite Hus in *. simpl in Hb. assert (c = 0 \/ c = 1) as [-> | ->] by lia.
  - left. by injection Hu.
  - right. by injection Hu.
Qed.

Lemma oldest_spec NOW p a :
  proc_ok m a p -> exists t, getOldestUnitTxTime NOW p = Ok t /\ oldest_below p (NOW + SECOND) t.
Proof.
  intros Hp. unfold getOldestUnitTxTime. rewrite (ok_num _ _ _ Hp).
  destruct (two_units m a p Hp) as (u0 & u1 & Hus). rewrite Hus.
  set (t0 := NOW + SECOND).
  set (t1 := if unit_isReady u0 && (txTime_ u0 <? t0) then txTime_ u0 else t0).
  set (t2 := if unit_isReady u1 && (txTime_ u1 <? t1) then txTime_ u1 else t1).
  change (oldest_from _ _ _ _) with (Ok t2). exists t2. split; [done|].
  assert (H0 : unit_at p 0 = Ok u0) by (unfold unit_at; by rewrite Hus).
  assert (H1 : unit_at p 1 = Ok u1) by (unfold unit_at; by rewrite Hus).
  unfold oldest_below, t2, t1, unit_isReady. split_and!.
  - repeat case_bool_decide; simpl; repeat case_match; zify_bool; lia.
  - intros c u Hu Hs. destruct (unit_at_two _ _ _ _ _ Hus Hu) as [[-> ->]|[-> ->]];
      rewrite (bool_decide_eq_true_2 _ Hs); simpl; repeat case_match; zify_bool; lia.
  - case_bool_decide as E0; case_bool_decide as E1; simpl; repeat case_match; eauto 8.
Qed.

(** The state of the loop over the processes: [best] is the process chosen so far among the
    first [i] and [t] its oldest transmission time. *)
Definition chosen (b : LteHarqBufferTx) (t0 i best t : Z) : Prop :=
  (best = HARQ_NONE /\ t = t0 /\ forall a c u, a < i -> ~ ready_at b a c u) \/
  ((exists c u, ready_at b best c u /\ t = txTime_ u) /\ best < i /\
   forall a c u, a < i -> ready_at b a c u -> t <= txTime_ u).

Lemma hasReady_true p a :
  proc_ok m a p ->
  hasReadyUnits p = Ok true /\
    (exists c u, unit_at p c = Ok u /\ status_ u = TXHARQ_PDU_BUFFERED) \/
  hasReadyUnits p = Ok false /\
    (forall c u, unit_at p c = Ok u -> status_ u <> TXHARQ_PDU_BUFFERED).
Proof.
  intros Hp. rewrite (ready_spec m p a Hp).
  case_bool_decide as E; [right|left]; (split; [done|]).
  - intros c u Hu Hs.
    assert (c ∈ where_ unit_isReady (units_ p)) as Hc; [|by rewrite E in Hc; set_solver].
    apply ready_in. split; [|by exists u].
    apply unit_at_inv, vget_Some_bounds in Hu. by rewrite (ok_len _ _ _ Hp) in Hu.
  - destruct (where_ unit_isReady (units_ p)) as [|c l] eqn:El; [done|].
    assert (c ∈ where_ unit_isReady (units_ p)) as Hc by (rewrite El; left).
    apply ready_in in Hc as (_ & u & Hu & Hs). by exists c, u.
Qed.

Lemma first_ready_loop NOW b n i best t :
  buf_ok m b ->
  (forall a c u, ready_at b a c u -> txTime_ u < NOW + SECOND) ->
  0 <= i -> i + Z.of_nat n = numProc_ b -> chosen b (NOW + SECOND) i best t ->
  exists best' t', first_ready_from NOW (processes_ b) n i best t = Ok best' /\
    chosen b (NOW + SECOND) (numProc_ b) best' t'.
Proof.
  intros Hb Htime. revert i best t; induction n as [|n IH]; intros i best t Hi Hn Hch; simpl.
  { exists best, t. split; [done|]. by replace (numProc_ b) with i by lia. }
  destruct (proc_at_is_Ok m b i Hb) as [p Hp]; [lia|].
  pose proof (proc_at_ok m _ _ _ Hb Hp) as Hpok. fold (proc_at b i). rewrite Hp. cbn [rbind].
  pose proof (ok_count _ _ Hb) as Hcount. unfold HARQ_NONE in Hcount.
  assert (Hsplit : forall a c u, a < i + 1 -> ready_at b a c u ->
    a < i \/ (a = i /\ unit_at p c = Ok u /\ status_ u = TXHARQ_PDU_BUFFERED)).
  { intros a c u Ha (q & Hq & Hu & Hs). destruct (decide (a = i)) as [->|]; [right|left; lia].
    rewrite Hp in Hq. by injection Hq as <-. }
  destruct (hasReady_true p i Hpok) as [(-> & c & u & Hu & Hs)|(-> & Hno)]; cbn [rbind].
  - destruct (oldest_spec NOW p i Hpok) as (t1 & -> & (Hle & Hmin & Hex)). cbn [rbind].
    assert (Hri : ready_at b i c u) by (by exists p).
    assert (exists c1 u1, ready_at b i c1 u1 /\ t1 = txTime_ u1) as (c1 & u1 & Hr1 & Ht1).
    { destruct Hex as [->|(c1 & u1 & Hu1 & Hs1 & ->)].
      - pose proof (Htime _ _ _ Hri). pose proof (Hmin _ _ Hu Hs). lia.
      - exists c1, u1. split; [by exists p|done]. }
    destruct (Z.ltb_spec t1 t) as [Hlt|Hge].
    + apply IH; [lia..|]. right. rewrite wrap_small by (unfold is_uint; lia).
      split; [by eauto|]. split; [lia|]. intros a c' u' Ha Hr.
      destruct (Hsplit a c' u' Ha Hr) as [Ha'|(-> & Hu' & Hs')]; [|by eauto].
      destruct Hch as [(_ & _ & Hnone)|(_ & _ & Hall)]; [by edestruct Hnone|].
      pose proof (Hall _ _ _ Ha' Hr). lia.
    + apply IH; [lia..|]. destruct Hch as [(_ & -> & _)|(Hb1 & Hb2 & Hall)].
      { pose proof (Htime _ _ _ Hr1). lia. }
      right. split; [done|]. split; [lia|]. intros a c' u' Ha Hr.
      destruct (Hsplit a c' u' Ha Hr) as [Ha'|(-> & Hu' & Hs')]; [by eauto|].
      pose proof (Hmin _ _ Hu' Hs'). lia.
  - apply IH; [lia..|]. destruct Hch as [(-> & -> & Hnone)|(Hb1 & Hb2 & Hall)].
    + left. split; [done|]. split; [done|]. intros a c u Ha Hr.
      destruct (Hsplit a c u Ha Hr) as [Ha'|(-> & Hu & Hs)]; [by eapply Hnone|by eapply Hno].
    + right. split; [done|]. split; [lia|]. intros a c u Ha Hr.
      destruct (Hsplit a c u Ha Hr) as [Ha'|(-> & Hu & Hs)]; [by eauto|by edestruct Hno].
Qed.

(** The process offered for retransmission is the one whose PDU has waited longest since it
    was last sent, with exactly its ready codewords; none is offered only when no unit is
    ready. *)
Theorem first_ready_oldest NOW b :
  buf_ok m b ->
  (forall a c u, ready_at b a c u -> txTime_ u < NOW + SECOND) ->
  (firstReadyForRtx NOW b = Ok (HARQ_NONE, []) /\ forall a c u, ~ ready_at b a c u) \/
  (exists a ul c u, firstReadyForRtx NOW b = Ok (a, ul) /\ a <> HARQ_NONE /\
     (forall c', c' ∈ ul <-> exists u', ready_at b a c' u') /\
     ready_at b a c u /\ forall a' c' u', ready_at b a' c' u' -> txTime_ u <= txTime_ u').
Proof.
  intros Hb Htime. pose proof (ok_count _ _ Hb) as Hcount.
  assert (Hin : forall a c u, ready_at b a c u -> 0 <= a < numProc_ b)
    by (intros a c u (p & Hp & _); by eapply proc_at_bounds).
  destruct (first_ready_loop NOW b (Z.to_nat (numProc_ b)) 0 HARQ_NONE (NOW + SECOND))
    as (best & t & E & Hch); try done; [lia| |].
  { left. split_and!; try done. intros a c u Ha Hr. pose proof (Hin _ _ _ Hr). lia. }
  unfold firstReadyForRtx. rewrite E. cbn [rbind].
  destruct Hch as [(-> & _ & Hno)|((c & u & Hr & ->) & Hlt & Hall)].
  - left. split; [done|]. intros a c u Hr. apply (Hno a c u); [|done].
    by apply (Hin _ _ _ Hr).
  - right. pose proof (Hin _ _ _ Hr) as Hb1. unfold HARQ_NONE in *.
    rewrite (proj2 (Z.eqb_neq best 255)) by lia.
    pose proof Hr as (p & Hp & Hu & Hs). rewrite Hp. cbn [rbind].
    pose proof (proc_at_ok m _ _ _ Hb Hp) as Hpok.
    rewrite (ready_where m best) by done. cbn [rbind].
    eexists best, _, c, u. split; [reflexivity|]. split; [lia|]. split; [|split; [done|]].
    + intros c'. rewrite ready_in. split.
      * intros (_ & u' & Hu' & Hs'). by exists u', p.
      * intros (u' & q & Hq & Hu' & Hs'). rewrite Hp in Hq. injection Hq as <-.
        split; [exact (unit_at_bounds _ _ _ _ _ Hpok Hu')|by exists u'].
    + intros a' c' u' Hr'. apply (Hall a' c' u'); [|done]. by apply (Hin _ _ _ Hr').
Qed.
End Oldest.

(** ** Two codewords, one transport block *)

(** With one layer granted and both codewords of the process waiting to be retransmitted,
    the next transmission is a single packet with the SDUs and control elements of both
    PDUs in order; nothing is lost, the unit of the second codeword is free again, and the
    length on record for the first is still that of its own PDU. *)
Theorem harq_concat_lossless m NOW b a p u0 u1 pdu0 pdu1 :
  0 <= m < 255 -> buf_ok m b ->
  selectedAcid_ b = HARQ_NONE \/ selectedAcid_ b = a ->
  proc_at b a = Ok p ->
  unit_at p 0 = Ok u0 -> status_ u0 = TXHARQ_PDU_BUFFERED -> carries u0 pdu0 ->
  unit_at p 1 = Ok u1 -> status_ u1 = TXHARQ_PDU_BUFFERED -> carries u1 pdu1 ->
  exists b1 b2 pkt pdu,
    mac_retransmit b a 1 = Ok b1 /\ sendSelectedDown NOW b1 = Ok ([pkt], b2) /\
    front pkt = Some pdu /\
    sduList_ pdu = sduList_ pdu0 ++ sduList_ pdu1 /\
    ceList_ pdu = ceList_ pdu0 ++ ceList_ pdu1 /\
    pdu_getByteLength pdu = pdu_getByteLength pdu0 + sdu_total (sduList_ pdu1) /\
    pduLength b1 a 0 = Ok (pduLength_ u0) /\
    (exists q, proc_at b2 a = Ok q /\ isUnitEmpty q 1 = Ok true).
Proof.
  intros Hm Hb Hsel Hp Hu0 Hs0 Hc0 Hu1 Hs1 Hc1.
  pose proof (proc_at_ok m _ _ _ Hb Hp) as Hpok.
  pose proof (proc_at_bounds m _ _ _ Hb Hp) as Ha. pose proof (ok_count _ _ Hb) as Hn.
  destruct (mark_jumbo_spec m a p u0 u1 pdu0 pdu1)
    as (p' & u' & E & Hp' & Hu' & Hs' & Ht' & Hl' & Hc' & Hr'); try done.
  assert (Hw : where_ unit_isReady (units_ p) = [0; 1]).
  { unfold where_. simpl. rewrite (proj1 (unit_at_inv _ _ _) Hu0),
      (proj1 (unit_at_inv _ _ _) Hu1). unfold unit_isReady. by rewrite Hs0, Hs1. }
  set (b1 := bput b a p' a (numEmptyProc_ b)).
  assert (Hb1 : buf_ok m b1) by (apply (bput_ok m b a p); auto; done).
  assert (Hp1 : proc_at b1 a = Ok p')
    by (unfold b1; by rewrite (proc_at_bput _ _ p), decide_True).
  assert (E1 : mac_retransmit b a 1 = Ok b1).
  { unfold mac_retransmit, getProcess. rewrite (proj1 (proc_at_inv _ _ _) Hp). cbn [rbind].
    rewrite (ready_spec m p a), (ready_where m a), Hw by done. cbn [rbind].
    unfold buf_markSelected. cbn [fst snd negb]. rewrite bool_decide_eq_false_2 by done.
    change (uint8 1 =? 0) with false. change (uint8 1 <? vsize [0; 1]) with true.
    cbn [negb]. rewrite Hp. cbn [rbind]. rewrite E. cbn [rbind].
    by rewrite (set_proc_eq _ _ p). }
  assert (Hwm : where_ unit_isMarked (units_ p') = [0]).
  { unfold where_. simpl. rewrite (proj1 (unit_at_inv _ _ _) Hu'),
      (proj1 (unit_at_inv _ _ _) Hr'). unfold unit_isMarked. by rewrite Hs'. }
  destruct (send_units_spec m a Hm NOW [0] p') as (sent & q & Es & Hq & _ & Hall & Hin & Hout);
    [done|repeat constructor; set_solver| |].
  { intros c ->%list_elem_of_singleton. by exists u'. }
  apply Forall2_cons_inv_l in Hall as (pkt & sent' & (v & Hv & Hsf) & Hnil & ->).
  apply Forall2_nil_inv_l in Hnil as ->.
  rewrite Hu' in Hv. injection Hv as <-.
  destruct Hsf as ((pdu & Hcar & Hf) & _).
  assert (pdu = merged pdu0 pdu1) as ->.
  { destruct Hcar as (k1 & E2 & E3), Hc' as (k2 & E4 & E5). by simplify_eq. }
  exists b1, (bput b1 a q HARQ_NONE (numEmptyProc_ b)), pkt, (merged pdu0 pdu1).
  split; [done|]. split.
  { unfold sendSelectedDown. change (selectedAcid_ b1) with a.
    rewrite (proj2 (Z.eqb_neq a HARQ_NONE)) by lia. rewrite Hp1. cbn [rbind].
    rewrite (selected_where m a), Hwm by done. cbn [rbind]. rewrite Es. cbn [rbind].
    by rewrite (set_proc_eq _ _ p'). }
  split_and!; try done.
  - unfold merged, pdu_getByteLength. simpl. lia.
  - unfold pduLength, getPduLength. rewrite Hp1. cbn [rbind]. rewrite Hu'. simpl. by rewrite Hl'.
  - exists q. split; [by rewrite (proc_at_bput _ _ p'), decide_True|].
    unfold isUnitEmpty. rewrite Hout, Hr' by set_solver. done.
Qed.

(** ** The acknowledgment to oneself *)

(** [selfNack] on a process with a ready unit always ends the simulation: the unit it nacks
    is ready, and feedback is only accepted by a unit that waits for it. *)
Theorem self_nack_fails m NOW b a c c' u :
  buf_ok m b -> ready_at b a c' u ->
  buf_selfNack NOW b a c = Throw "Feedback sent to an H-ARQ unit not waiting for it".
Proof.
  intros Hb (p & Hp & Hu & Hs). pose proof (proc_at_ok m _ _ _ Hb Hp) as Hpok.
  unfold buf_selfNack. rewrite Hp. cbn [rbind]. rewrite (ready_where m a) by done. cbn [rbind].
  destruct (where_ unit_isReady (units_ p)) as [|d l] eqn:El.
  { assert (c' ∈ where_ unit_isReady (units_ p)) as Hc; [|rewrite El in Hc; set_solver].
    apply ready_in. split; [exact (unit_at_bounds _ _ _ _ _ Hpok Hu)|by exists u]. }
  assert (d ∈ where_ unit_isReady (units_ p)) as Hd by (rewrite El; left).
  apply ready_in in Hd as (_ & v & Hv & Hvs). cbn [nack_units].
  unfold proc_selfNack. rewrite Hv. cbn [rbind]. unfold unit_selfNack. rewrite Hvs.
  rewrite bool_decide_eq_false_2, bool_decide_eq_true_2 by done. cbn [negb].
  destruct (unit_ok_holds m a d v) as (pkt & pdu & Hk & _);
    [exact (unit_at_ok _ _ _ _ _ Hpok Hv)|congruence|].
  unfold unit_pduFeedback. cbn -[wrap]. rewrite Hk. cbn -[wrap]. by rewrite Hvs.
Qed.
