(* ===== verification/HarqLink.v ===== *)
(** * The H-ARQ protocol end to end

    The transmit buffer of one node and the receive buffer of the other, with a channel
    that decodes or corrupts each transmission.  One exchange of a PDU consists of
    attempts; each is [LteMacBase::fromPhy] on both sides and the H-ARQ part of the two
    MAC main loops. *)

From S2P Require Import Prelude.
From S2P Require Import LteCommon.
From S2P Require Import HarqTx.
From S2P Require Import HarqTxBuffer.
From S2P Require Import HarqRx.
From S2P Require Import HarqTxFacts.
From S2P Require Import HarqTxProps.
From S2P Require Import HarqTxRun.
#[local] Open Scope Z_scope.

(** ** The exchange *)

(** When an attempt is sent, arrives and is answered, and whether it was decoded. *)
Record Attempt := { t_send : Z; t_arrive : Z; t_answer : Z; decoded : bool }.

Definition timed (x : Attempt) : Prop := FB_INTERVAL <= t_answer x - t_arrive x.

(** The decider's verdict is written to the control information of the packet received. *)
Definition received (x : Attempt) (pkt : Packet) : Packet :=
  pkt <| tag := (tag pkt) <| deciderResult := decoded x |> |>.

(** The H-ARQ branches of [LteMacBase::fromPhy]: a data packet goes to the receive buffer
    of its source, under its codeword, a feedback packet to the transmit buffer. *)
Fixpoint fromPhy_data (x : Attempt) (resetHarq : gmap Z Z) (r : LteHarqBufferRx)
    (pkts : list Packet) : result LteHarqBufferRx :=
  match pkts with
  | [] => Ok r
  | pkt :: pkts =>
      let! r := rxbuf_insertPdu (t_arrive x) resetHarq r (cw (tag pkt)) (received x pkt) in
      fromPhy_data x resetHarq r pkts
  end.

Fixpoint fromPhy_feedback (b : LteHarqBufferTx) (fbs : list FeedbackPkt)
    : result LteHarqBufferTx :=
  match fbs with
  | [] => Ok b
  | fb :: fbs => let! b := receiveHarqFeedback b (fb_chunk fb) in fromPhy_feedback b fbs
  end.

(** One attempt.  The receiver purges corrupted PDUs at the end of its loop when it is a UE;
    the loop of the eNB that should do so never runs. *)
Definition attempt (purge : bool) (x : Attempt) (b : LteHarqBufferTx) (r : LteHarqBufferRx)
    : result (list Packet * LteHarqBufferTx * LteHarqBufferRx) :=
  let! (sent, b) := sendSelectedDown (t_send x) b in
  let! r := fromPhy_data x ∅ r sent in
  let! (fbs, up, r) := extractCorrectPdus (t_answer x) r in
  let! r := if purge then let! (_, r) := purgeCorruptedPdus r in Ok r else Ok r in
  let! b := fromPhy_feedback b fbs in
  Ok (up, b, r).

(** Attempts until the process is empty, with [layers] granted for each retransmission. *)
Fixpoint exchange (purge : bool) (layers a : Z) (atts : list Attempt) (b : LteHarqBufferTx)
    (r : LteHarqBufferRx) : result (list Packet * LteHarqBufferTx * LteHarqBufferRx) :=
  match atts with
  | [] => Ok ([], b, r)
  | x :: atts =>
      let! (up, b, r) := attempt purge x b r in
      let! p := proc_at b a in
      if proc_isEmpty p then Ok (up, b, r) else
      let! b := mac_retransmit b a layers in
      let! (later, b, r) := exchange purge layers a atts b r in
      Ok (up ++ later, b, r)
  end.

(** ** The receiving process *)

Definition rx_idle (m a : Z) : LteHarqProcessRx := new_LteHarqProcessRx a m.

(** A process with a PDU on its first codeword. *)
Definition rx_with (m a n t : Z) (pkt : Packet) (s : RxHarqPduStatus) (d : bool)
    : LteHarqProcessRx :=
  {| rx_pdu_ := [Some pkt; None]; rx_status_ := [s; RXHARQ_PDU_EMPTY]; rxTime_ := [t; 0];
     result_ := [d; false]; rx_acid_ := a; rx_transmissions_ := n; rx_maxHarqRtx_ := m |}.

(** After [k] corrupted attempts. *)
Definition failed (m a : Z) (purge : bool) (k : Z) (p : LteHarqProcessRx) : Prop :=
  if purge || (k =? 0) then p = rx_idle m a
  else exists pkt t, p = rx_with m a k t pkt RXHARQ_PDU_CORRUPTED false.

Definition seen (purge : bool) (k : Z) : Z := if purge then 0 else k.

Lemma rx_idle_eq m a : 0 <= m < 255 ->
  rx_idle m a = {| rx_pdu_ := [None; None]; rx_status_ := [RXHARQ_PDU_EMPTY; RXHARQ_PDU_EMPTY];
    rxTime_ := [0; 0]; result_ := [false; false]; rx_acid_ := a; rx_transmissions_ := 0;
    rx_maxHarqRtx_ := m |}.
Proof.
  intros. unfold rx_idle, new_LteHarqProcessRx.
  rewrite wrap_small by (unfold is_uint; lia). reflexivity.
Qed.

Section Receiver.
Context (m : Z) (Hm : 0 <= m < 255).

Lemma rx_insert_spec a purge k p t pkt pdu :
  failed m a purge k p -> 0 <= k <= m -> ndi (tag pkt) = (k =? 0) -> front pkt = Some pdu ->
  rx_insertPdu t p 0 pkt
    = Ok (rx_with m a (seen purge k + 1) t pkt RXHARQ_PDU_EVALUATING (deciderResult (tag pkt))).
Proof.
  intros Hf Hk Hn Hfr. unfold rx_insertPdu, peekAtFront. rewrite Hfr, Hn. cbn [rbind].
  unfold failed, seen in *. destruct purge; simpl in Hf.
  - subst p. rewrite rx_idle_eq by done. by destruct (k =? 0).
  - destruct (Z.eqb_spec k 0) as [->|Hne].
    + subst p. by rewrite rx_idle_eq.
    + destruct Hf as (pkt0 & t0 & ->).
      rewrite <- (wrap_small 8 (k + 1)) by (unfold is_uint; lia). reflexivity.
Qed.

(** The answer to a PDU under evaluation. *)
Definition answer (a : Z) (d : bool) (pkt : Packet) (pdu : LteMacPdu) : FeedbackPkt :=
  {| fb_chunk := {| fb_acid := a; fb_cw := 0; fb_result := d; fbMacPduId := macPduId pdu |};
     fb_source := destId (tag pkt); fb_dest := sourceId (tag pkt) |}.

(** What is left of it. *)
Definition answered (a n t : Z) (pkt : Packet) (d : bool) : LteHarqProcessRx :=
  if d then rx_with m a n t pkt RXHARQ_PDU_CORRECT true
  else if n =? m + 1 then rx_idle m a else rx_with m a n t pkt RXHARQ_PDU_CORRUPTED false.

Lemma isEvaluated_with T a n t pkt d :
  FB_INTERVAL <= T - t ->
  isEvaluated T (rx_with m a n t pkt RXHARQ_PDU_EVALUATING d) 0 = Ok true.
Proof.
  intros HT. unfold isEvaluated. simpl. by rewrite (proj2 (Z.leb_le _ _)).
Qed.

Lemma createFeedback_spec T a n t pkt pdu d :
  FB_INTERVAL <= T - t -> front pkt = Some pdu ->
  createFeedback T (rx_with m a n t pkt RXHARQ_PDU_EVALUATING d) 0
    = Ok (answer a d pkt pdu, answered a n t pkt d).
Proof.
  intros HT Hf. unfold createFeedback. rewrite isEvaluated_with by done.
  cbn [negb rbind]. change (vec_at (rx_pdu_ _) 0) with (Ok (Some pkt)). cbn [rbind of_option].
  unfold peekAtFront. rewrite Hf. cbn [rbind]. change (vec_at (result_ _) 0) with (Ok d).
  cbn [rbind]. unfold answered. destruct d; [reflexivity|]. cbn [negb].
  change (rx_set_status _ 0 RXHARQ_PDU_CORRUPTED)
    with (Ok (rx_with m a n t pkt RXHARQ_PDU_CORRUPTED false)). cbn [rbind].
  change (rx_transmissions_ _ =? _) with (n =? m + 1).
  destruct (n =? m + 1); [|reflexivity]. rewrite rx_idle_eq by done. reflexivity.
Qed.

(** ** The receiving buffer *)

Definition rxput (r : LteHarqBufferRx) (a : Z) (p : LteHarqProcessRx) : LteHarqBufferRx :=
  r <| rx_processes_ := <[Z.to_nat a := p]> (rx_processes_ r) |>.

(** All processes but [a] are idle. *)
Record quiet (a : Z) (r : LteHarqBufferRx) : Prop := {
  q_len : vsize (rx_processes_ r) = numHarqProcesses_ r;
  q_a : 0 <= a < numHarqProcesses_ r;
  q_idle : forall i p, i <> a -> vget (rx_processes_ r) i = Some p -> p = rx_idle m i
}.

Lemma rxput_quiet a r p : quiet a r -> quiet a (rxput r a p).
Proof.
  intros [Hl Ha Hi]. constructor; simpl; [by rewrite length_insert|done|].
  intros i q Hne. unfold vget. destruct (Z.leb_spec 0 i); [|done].
  rewrite list_lookup_insert_ne by lia. intros Hq. apply (Hi i q Hne).
  unfold vget. by rewrite (proj2 (Z.leb_le 0 i)).
Qed.

Lemma quiet_bytes a r n : quiet a r -> quiet a (r <| totalRcvdBytes_ := n |>).
Proof. by intros [? ? ?]. Qed.

Lemma rx_proc_at_put a r p : quiet a r -> rx_proc_at (rxput r a p) a = Ok p.
Proof.
  intros [Hl Ha _]. unfold rx_proc_at, vget. simpl. rewrite (proj2 (Z.leb_le 0 a)) by lia.
  rewrite list_lookup_insert_eq; [done|lia].
Qed.

Lemma rx_set_proc_put a r p : quiet a r -> rx_set_proc r a p = Ok (rxput r a p).
Proof.
  intros [Hl Ha _]. unfold rx_set_proc.
  destruct (vset_is_Some (rx_processes_ r) a p) as [ps E]; [lia|].
  rewrite E. by apply vset_inv in E as [_ ->].
Qed.

Lemma rxput_twice a r p q : rxput (rxput r a p) a q = rxput r a q.
Proof. unfold rxput. simpl. by rewrite list_insert_insert_eq. Qed.

Lemma rx_proc_at_other a r i :
  quiet a r -> i <> a -> 0 <= i < numHarqProcesses_ r -> rx_proc_at r i = Ok (rx_idle m i).
Proof.
  intros [Hl _ Hidle] Hne Hi. unfold rx_proc_at.
  destruct (vget_is_Some (rx_processes_ r) i) as [p Hp]; [lia|].
  rewrite Hp. by rewrite (Hidle i p Hne Hp).
Qed.

(** A loop over all codewords that does nothing on idle processes only acts on [a]. *)
Lemma for_processes_one {X} (body : Z -> Z -> X * LteHarqBufferRx -> result (X * LteHarqBufferRx))
    a n i x r x' r' :
  (forall j c y s, (c = 0 \/ c = 1) -> rx_proc_at s j = Ok (rx_idle m j) ->
     body j c (y, s) = Ok (y, s)) ->
  quiet a r -> quiet a r' ->
  numHarqProcesses_ r' = numHarqProcesses_ r ->
  0 <= i <= a -> a < i + Z.of_nat n <= numHarqProcesses_ r ->
  (let! s := body a 0 (x, r) in body a 1 s) = Ok (x', r') ->
  for_processes body n i (x, r) = Ok (x', r').
Proof.
  intros Hid Hq Hq' Hnum Hi Hn Hbody.
  assert (Hskip : forall k j y s, quiet a s -> 0 <= j -> (j + Z.of_nat k <= a \/ a < j) ->
    j + Z.of_nat k <= numHarqProcesses_ s ->
    for_processes body k j (y, s) = Ok (y, s)).
  { induction k as [|k IH]; intros j y s Hs Hj Ha Hk; [done|]. cbn [for_processes].
    change (Z.to_nat MAX_CODEWORDS) with 2%nat. cbn [for_codewords].
    assert (rx_proc_at s j = Ok (rx_idle m j)) as Hjs
      by (apply (rx_proc_at_other a); [done|lia|lia]).
    rewrite (Hid j 0 y s) by auto. cbn [rbind]. rewrite (Hid j (0 + 1) y s) by auto.
    cbn [rbind]. apply IH; [done|lia..]. }
  assert (Hsplit : forall d k j, 0 <= j -> j + Z.of_nat d = a -> (d < k)%nat ->
    j + Z.of_nat k <= numHarqProcesses_ r ->
    for_processes body k j (x, r) = Ok (x', r')).
  { induction d as [|d IH]; intros [|k] j Hj Hd Hk Hb; try lia; cbn [for_processes];
      change (Z.to_nat MAX_CODEWORDS) with 2%nat; cbn [for_codewords].
    - assert (j = a) as -> by lia. change (0 + 1) with 1.
      destruct (body a 0 (x, r)) as [s|e|]; cbn [rbind] in *; try discriminate.
      rewrite Hbody. cbn [rbind]. apply Hskip; [done|lia..].
    - assert (rx_proc_at r j = Ok (rx_idle m j)) as Hjs
        by (apply (rx_proc_at_other a); [done|lia|lia]).
      rewrite (Hid j 0 x r) by auto. cbn [rbind]. rewrite (Hid j (0 + 1) x r) by auto.
      cbn [rbind]. apply IH; lia. }
  apply (Hsplit (Z.to_nat (a - i))); lia.
Qed.

Lemma idle_status i c : c = 0 \/ c = 1 -> rx_getUnitStatus (rx_idle m i) c = Ok RXHARQ_PDU_EMPTY.
Proof. by intros [-> | ->]. Qed.

(** The second codeword is empty whatever the first does. *)
Lemma second_status n a t pkt s d :
  rx_getUnitStatus (rx_with m a n t pkt s d) 1 = Ok RXHARQ_PDU_EMPTY.
Proof. done. Qed.

Lemma feedback_idle T j c y s :
  c = 0 \/ c = 1 -> rx_proc_at s j = Ok (rx_idle m j) -> feedback_one T j c (y, s) = Ok (y, s).
Proof.
  intros Hc Hs. unfold feedback_one, isEvaluated. cbn [fst snd]. rewrite Hs. cbn [rbind].
  by rewrite idle_status.
Qed.

Lemma extract_idle j c y s :
  c = 0 \/ c = 1 -> rx_proc_at s j = Ok (rx_idle m j) -> extract_one j c (y, s) = Ok (y, s).
Proof.
  intros Hc Hs. unfold extract_one, isCorrect. cbn [fst snd]. rewrite Hs. cbn [rbind].
  by rewrite idle_status.
Qed.

Lemma purge_idle j c y s :
  c = 0 \/ c = 1 -> rx_proc_at s j = Ok (rx_idle m j) -> purge_one j c (y, s) = Ok (y, s).
Proof.
  intros Hc Hs. unfold purge_one. cbn [fst snd]. rewrite Hs. cbn [rbind].
  by rewrite idle_status.
Qed.

Lemma answered_second T a n t pkt d :
  isEvaluated T (answered a n t pkt d) 1 = Ok false.
Proof. unfold answered. destruct d; [done|]. by destruct (n =? m + 1). Qed.

Lemma quiet_loop {X} (body : Z -> Z -> X * LteHarqBufferRx -> result (X * LteHarqBufferRx))
    a r x x' r' :
  (forall j c y s, (c = 0 \/ c = 1) -> rx_proc_at s j = Ok (rx_idle m j) ->
     body j c (y, s) = Ok (y, s)) ->
  quiet a r -> quiet a r' -> numHarqProcesses_ r' = numHarqProcesses_ r ->
  (let! s := body a 0 (x, r) in body a 1 s) = Ok (x', r') ->
  for_processes body (Z.to_nat (numHarqProcesses_ r)) 0 (x, r) = Ok (x', r').
Proof.
  intros Hid Hq Hq' Hnum Hb. pose proof (q_a _ _ Hq).
  apply (for_processes_one body a _ 0 x r x' r'); try done; lia.
Qed.

Lemma sendFeedback_spec T a r n t pkt pdu d :
  quiet a r -> rx_proc_at r a = Ok (rx_with m a n t pkt RXHARQ_PDU_EVALUATING d) ->
  FB_INTERVAL <= T - t -> front pkt = Some pdu ->
  sendFeedback T r = Ok ([answer a d pkt pdu], rxput r a (answered a n t pkt d)).
Proof.
  intros Hq Hp HT Hf. apply (quiet_loop _ a).
  - intros. by apply feedback_idle.
  - done.
  - by apply rxput_quiet.
  - done.
  - unfold feedback_one at 1. cbn [fst snd]. rewrite Hp. cbn [rbind].
    rewrite isEvaluated_with by done. cbn [rbind].
    rewrite (createFeedback_spec T a n t pkt pdu d) by done. cbn [rbind].
    rewrite (rx_set_proc_put a) by done. cbn [rbind app].
    unfold feedback_one. cbn [fst snd]. rewrite rx_proc_at_put by done. cbn [rbind].
    by rewrite answered_second.
Qed.

Lemma isCorrect_answered a n t pkt d : isCorrect (answered a n t pkt d) 0 = Ok d.
Proof. unfold answered. destruct d; [done|]. by destruct (n =? m + 1). Qed.

Lemma isCorrect_second a n t pkt d : isCorrect (answered a n t pkt d) 1 = Ok false.
Proof. unfold answered. destruct d; [done|]. by destruct (n =? m + 1). Qed.

Lemma rx_extract_with a n t pkt pdu :
  front pkt = Some pdu ->
  rx_extractPdu (rx_with m a n t pkt RXHARQ_PDU_CORRECT true) 0 = Ok (pkt, rx_idle m a).
Proof.
  intros Hf. unfold rx_extractPdu. change (isCorrect _ 0) with (Ok true). cbn [negb rbind].
  change (vec_at (rx_pdu_ _) 0) with (Ok (Some pkt)). cbn [rbind of_option].
  unfold peekAtFront. rewrite Hf. cbn [rbind]. rewrite rx_idle_eq by done. reflexivity.
Qed.

(** The receiver answers, and hands the PDU up when it was decoded. *)
Lemma extract_spec T a r n t pkt pdu d :
  quiet a r -> rx_proc_at r a = Ok (rx_with m a n t pkt RXHARQ_PDU_EVALUATING d) ->
  FB_INTERVAL <= T - t -> front pkt = Some pdu ->
  exists r', extractCorrectPdus T r = Ok ([answer a d pkt pdu], if d then [pkt] else [], r') /\
    quiet a r' /\
    rx_proc_at r' a = Ok (if d then rx_idle m a else answered a n t pkt false).
Proof.
  intros Hq Hp HT Hf. unfold extractCorrectPdus.
  rewrite (sendFeedback_spec T a r n t pkt pdu d) by done. cbn [rbind].
  set (r1 := rxput r a (answered a n t pkt d)).
  assert (Hq1 : quiet a r1) by (by apply rxput_quiet).
  assert (Hp1 : rx_proc_at r1 a = Ok (answered a n t pkt d)) by (by apply rx_proc_at_put).
  destruct d.
  - set (r2 := (rxput r1 a (rx_idle m a))
      <| totalRcvdBytes_ := uint32 (totalRcvdBytes_ r1 + uint32 (pkt_getByteLength pkt)) |>).
    assert (Hq2 : quiet a r2) by (by apply quiet_bytes, rxput_quiet).
    exists r2. split; [|split; [done|by apply rx_proc_at_put]].
    rewrite (quiet_loop extract_one a r1 [] [pkt] r2); try done.
    + intros. by apply extract_idle.
    + unfold extract_one at 1. cbn [fst snd]. rewrite Hp1. cbn [rbind].
      rewrite isCorrect_answered. cbn [rbind].
      change (answered a n t pkt true) with (rx_with m a n t pkt RXHARQ_PDU_CORRECT true).
      rewrite (rx_extract_with a n t pkt pdu) by done. cbn [rbind].
      unfold peekAtFront. rewrite Hf. cbn [rbind]. rewrite (rx_set_proc_put a) by done.
      cbn [rbind app]. fold r2. apply extract_idle; [auto|by apply rx_proc_at_put].
  - exists r1. split; [|done].
    rewrite (quiet_loop extract_one a r1 [] [] r1); try done.
    + intros. by apply extract_idle.
    + unfold extract_one at 1. cbn [fst snd]. rewrite Hp1. cbn [rbind].
      rewrite isCorrect_answered. cbn [rbind]. unfold extract_one. cbn [fst snd].
      rewrite Hp1. cbn [rbind]. by rewrite isCorrect_second.
Qed.

(** Purging leaves the process idle. *)
Lemma purge_spec a r n t pkt :
  quiet a r ->
  rx_proc_at r a = Ok (rx_idle m a) \/
  rx_proc_at r a = Ok (rx_with m a n t pkt RXHARQ_PDU_CORRUPTED false) ->
  exists k r', purgeCorruptedPdus r = Ok (k, r') /\ quiet a r' /\
    rx_proc_at r' a = Ok (rx_idle m a).
Proof.
  intros Hq Hp. unfold purgeCorruptedPdus. destruct Hp as [Hp|Hp].
  - exists 0, r. split; [|done]. apply (quiet_loop _ a); try done.
    + intros. by apply purge_idle.
    + rewrite purge_idle by auto. cbn [rbind]. apply purge_idle; auto.
  - exists (uint32 (0 + 1)), (rxput r a (rx_idle m a)).
    split; [|split; [by apply rxput_quiet|by apply rx_proc_at_put]].
    apply (quiet_loop _ a); [|done|by apply rxput_quiet|done|].
    + intros. by apply purge_idle.
    + unfold purge_one at 1. cbn [fst snd]. rewrite Hp. cbn [rbind].
      change (rx_getUnitStatus _ 0) with (Ok RXHARQ_PDU_CORRUPTED). cbn [rbind].
      rewrite bool_decide_eq_true_2 by done. cbn [rbind].
      assert (forall X (f : LteHarqProcessRx -> result X),
        (let! p := purgeCorruptedPdu (rx_with m a n t pkt RXHARQ_PDU_CORRUPTED false) 0 in
         let! p := resetCodeword p 0 in f p) = f (rx_idle m a)) as ->
        by (intros; by rewrite rx_idle_eq).
      rewrite (rx_set_proc_put a) by done. cbn [rbind fst].
      apply purge_idle; [auto|by apply rx_proc_at_put].
Qed.
End Receiver.

(** ** The transmitting process *)

(** Process [a] works on [pdu] at its first codeword, in state [st] after [k] transmissions. *)
Definition tx_at (m a : Z) (st : TxHarqPduStatus) (k : Z) (pdu : LteMacPdu)
    (b : LteHarqBufferTx) : Prop :=
  buf_ok m b /\
  selectedAcid_ b = (if decide (st = TXHARQ_PDU_SELECTED) then a else HARQ_NONE) /\
  exists p u v, proc_at b a = Ok p /\ dropped_ p = false /\
    unit_at p 0 = Ok u /\ status_ u = st /\ transmissions_ u = k /\ carries u pdu /\
    unit_at p 1 = Ok v /\ status_ v = TXHARQ_PDU_EMPTY.

(** The process is empty and nothing is selected. *)
Definition tx_done (m a : Z) (b : LteHarqBufferTx) : Prop :=
  buf_ok m b /\ selectedAcid_ b = HARQ_NONE /\
  exists p, proc_at b a = Ok p /\ proc_isEmpty p = true.

(** The other processes are as before. *)
Definition same_but (a : Z) (b b' : LteHarqBufferTx) : Prop :=
  forall i, i <> a -> proc_at b' i = proc_at b i.

Lemma same_but_trans a b1 b2 b3 : same_but a b1 b2 -> same_but a b2 b3 -> same_but a b1 b3.
Proof. intros H1 H2 i Hi. by rewrite H2, H1. Qed.

Lemma bput_same_but b a p0 p sel n : proc_at b a = Ok p0 -> same_but a b (bput b a p sel n).
Proof. intros Hp i Hi. by rewrite (proc_at_bput _ _ p0), decide_False. Qed.

Section Sender.
Context (m a : Z) (Hm : 0 <= m < 255).

Lemma carries_eq u pdu1 pdu2 : carries u pdu1 -> carries u pdu2 -> pdu1 = pdu2.
Proof. intros (k1 & E1 & E2) (k2 & E3 & E4). by simplify_eq. Qed.

Lemma where_first f p u v :
  unit_at p 0 = Ok u -> unit_at p 1 = Ok v -> f u = true -> f v = false ->
  where_ f (units_ p) = [0].
Proof.
  intros Hu Hv Hfu Hfv. unfold where_. simpl.
  rewrite (proj1 (unit_at_inv _ _ _) Hu), (proj1 (unit_at_inv _ _ _) Hv). by rewrite Hfu, Hfv.
Qed.

Lemma sel_range b : buf_ok m b -> (exists p, proc_at b a = Ok p) -> a <> HARQ_NONE.
Proof.
  intros Hb (p & Hp). pose proof (proc_at_bounds m _ _ _ Hb Hp). pose proof (ok_count _ _ Hb).
  lia.
Qed.

Lemma insert_at b p pkt pdu :
  buf_ok m b -> selectedAcid_ b = HARQ_NONE -> proc_at b a = Ok p -> proc_isEmpty p = true ->
  insertable 0 pkt pdu ->
  exists b', buf_insertPdu b a 0 pkt = Ok b' /\
    tx_at m a TXHARQ_PDU_SELECTED 0 (stamped pdu) b' /\ same_but a b b'.
Proof.
  intros Hb Hs Hp He Hins. pose proof (proc_at_ok m _ _ _ Hb Hp) as Hpok.
  destruct (buf_insert_spec m Hm b a 0 pkt Hb) as (p' & u' & Hp' & E & Hu' & Hst & Ht & Hc & Hok).
  { split; [by exists pdu|]. split; [unfold MAX_CODEWORDS; lia|]. exists p. auto. }
  rewrite Hp in Hp'. injection Hp' as <-.
  destruct (unit_at_is_Ok m a p 0 Hpok) as [u Hu]; [unfold MAX_CODEWORDS; lia|].
  destruct (unit_at_is_Ok m a p 1 Hpok) as [v Hv]; [unfold MAX_CODEWORDS; lia|].
  eexists. split; [exact E|]. split; [|by eapply bput_same_but].
  split; [done|]. split; [by rewrite decide_True|].
  exists (put p 0 u' false), u', v.
  rewrite (proc_at_bput _ _ p), decide_True by done.
  rewrite !(unit_at_put m a p 0 u) by done. rewrite decide_True, decide_False by done.
  split_and!; try done; [by apply Hc|].
  by eapply (proj1 (proc_isEmpty_spec m a p Hpok) He).
Qed.

Lemma send_at NOW k pdu b :
  tx_at m a TXHARQ_PDU_SELECTED k pdu b ->
  exists pkt b', sendSelectedDown NOW b = Ok ([pkt], b') /\
    tx_at m a TXHARQ_PDU_WAITING (k + 1) pdu b' /\ same_but a b b' /\ 0 <= k <= m /\
    front pkt = Some pdu /\ addressed a 0 pkt /\ txNumber (tag pkt) = k + 1 /\
    ndi (tag pkt) = (k =? 0).
Proof.
  intros (Hb & Hsel & p & u & v & Hp & Hd & Hu & Hs & Ht & Hc & Hv & Hvs).
  rewrite decide_True in Hsel by done.
  pose proof (proc_at_ok m _ _ _ Hb Hp) as Hpok.
  assert (Hw : where_ unit_isMarked (units_ p) = [0]).
  { apply (where_first _ p u v); try done; unfold unit_isMarked; by rewrite ?Hs, ?Hvs. }
  destruct (send_units_spec m a Hm NOW [0] p) as (sent & q & Es & Hq & Hdq & Hall & Hin & Hout);
    [done|repeat constructor; set_solver| |].
  { intros c ->%list_elem_of_singleton. by exists u. }
  apply Forall2_cons_inv_l in Hall as (pkt & sent' & (u1 & Hu1 & Hsf) & Hnil & ->).
  apply Forall2_nil_inv_l in Hnil as ->. rewrite Hu in Hu1. injection Hu1 as <-.
  destruct (Hin 0 u) as (u' & Hu' & (Hws & Hwt & _ & Hwc)); [set_solver|done|].
  destruct Hsf as ((pdu' & Hcar & Hf) & Had & Hn & Hr & Hnd).
  assert (pdu' = pdu) as -> by (by eapply carries_eq).
  exists pkt, (bput b a q HARQ_NONE (numEmptyProc_ b)). rewrite <- Ht in *. split_and!; try done.
  - unfold sendSelectedDown. rewrite Hsel.
    rewrite (proj2 (Z.eqb_neq a HARQ_NONE)) by (apply (sel_range b); eauto).
    rewrite Hp. cbn [rbind]. rewrite (selected_where m a), Hw by done. cbn [rbind].
    rewrite Es. cbn [rbind]. by rewrite (set_proc_eq _ _ p).
  - split; [|split; [by rewrite decide_False|]].
    + apply (bput_ok m b a p); auto. intros _. apply (unmarked_none m a); [done|].
      intros c w Hw' Hws'. destruct (decide (c = 0)) as [->|Hc0]; [congruence|].
      rewrite Hout in Hw' by set_solver.
      assert (c ∈ where_ unit_isMarked (units_ p)) as Hc'; [|rewrite Hw in Hc'; set_solver].
      apply marked_in. split; [exact (unit_at_bounds _ _ _ _ _ Hpok Hw')|by exists w].
    + exists q, u', v. rewrite (proc_at_bput _ _ p), decide_True by done.
      split_and!; try done; [congruence|auto|]. rewrite Hout; [done|set_solver].
  - by eapply bput_same_but.
  - lia.
  - lia.
  - rewrite Hnd, Hn.
    destruct (Z.eqb_spec (transmissions_ u + 1) 1), (Z.eqb_spec (transmissions_ u) 0); done || lia.
Qed.

Lemma feedback_at k pdu b fb d :
  tx_at m a TXHARQ_PDU_WAITING k pdu b ->
  fb = {| fb_acid := a; fb_cw := 0; fb_result := d; fbMacPduId := macPduId pdu |} ->
  exists b', receiveHarqFeedback b fb = Ok b' /\ same_but a b b' /\
    (if d || (k =? m + 1) then tx_done m a b'
     else tx_at m a TXHARQ_PDU_BUFFERED k pdu b' /\
          (exists p, proc_at b' a = Ok p /\ proc_isEmpty p = false)).
Proof.
  intros (Hb & Hsel & p & u & v & Hp & Hd & Hu & Hs & Ht & Hc & Hv & Hvs) ->.
  rewrite decide_False in Hsel by done.
  pose proof (proc_at_ok m _ _ _ Hb Hp) as Hpok.
  destruct (unit_ok_holds m a 0 u) as (pkt & pdu' & Hk & Hf & _ & Hid & _);
    [exact (unit_at_ok _ _ _ _ _ Hpok Hu)|congruence|].
  assert (pdu' = pdu) as -> by (eapply carries_eq; [by exists pkt|done]).
  set (ack := if d then HARQACK else HARQNACK).
  assert (Hends : ends m (transmissions_ u) ack = d || (k =? m + 1))
    by (rewrite Ht; by destruct d).
  destruct (proc_feedback_spec m a Hm p 0 u pdu ack) as (u' & E & Hu' & Hs'); try done.
  rewrite Hends in Hs'. set (q := put p 0 u' (dropped_ p)) in *.
  assert (Hqok : proc_ok m a q) by (by eapply put_ok).
  assert (Hq0 : unit_at q 0 = Ok u') by (unfold q; by erewrite unit_at_put).
  assert (Hq1 : unit_at q 1 = Ok v) by (unfold q; by erewrite unit_at_put).
  set (b' := bput b a q HARQ_NONE
    (if proc_isEmpty q then wrap 32 (numEmptyProc_ b + 1) else numEmptyProc_ b)).
  exists b'. assert (Hst : status_ u' <> TXHARQ_PDU_SELECTED)
    by (destruct (d || _); [|destruct Hs' as [Hs' _]]; congruence).
  assert (Hb' : buf_ok m b').
  { apply (bput_ok m b a p); auto. intros _. apply (unmarked_none m a); [done|].
    intros c w Hw. destruct (two_units m a q Hqok) as (w0 & w1 & Hus).
    assert (c = 0 \/ c = 1) as [-> | ->]; [|congruence|congruence].
    pose proof (unit_at_bounds _ _ _ _ _ Hqok Hw). unfold MAX_CODEWORDS in *. lia. }
  assert (Hpa : proc_at b' a = Ok q)
    by (unfold b'; by rewrite (proc_at_bput _ _ p), decide_True).
  split; [|split; [by eapply bput_same_but|]].
  - unfold receiveHarqFeedback, getPduId. cbn [fb_acid fb_cw fb_result fbMacPduId].
    rewrite Hp. cbn [rbind]. rewrite Hu. cbn [rbind]. rewrite Hd, Hid, Z.eqb_refl. cbn [negb].
    fold ack. rewrite E. cbn [rbind]. rewrite (set_proc_eq _ _ p) by done. cbn [rbind].
    unfold b', bput. rewrite <- Hsel. fold q. by destruct (proc_isEmpty q).
  - destruct (d || (k =? m + 1)).
    + split; [done|]. split; [done|]. exists q. split; [done|].
      apply (proc_isEmpty_spec m a q Hqok). intros c w Hw.
      assert (c = 0 \/ c = 1) as [-> | ->]; [|congruence|congruence].
      pose proof (unit_at_bounds _ _ _ _ _ Hqok Hw). unfold MAX_CODEWORDS in *. lia.
    + destruct Hs' as (Hs' & Ht' & Hc'). split.
      * split; [done|]. split; [by rewrite decide_False|]. exists q, u', v. by split_and!; auto; congruence.
      * exists q. split; [done|]. apply not_true_is_false. intros He.
        pose proof (proj1 (proc_isEmpty_spec m a q Hqok) He 0 u' Hq0). congruence.
Qed.

Lemma retransmit_at layers k pdu b :
  1 <= layers < 256 -> tx_at m a TXHARQ_PDU_BUFFERED k pdu b ->
  exists b', mac_retransmit b a layers = Ok b' /\ tx_at m a TXHARQ_PDU_SELECTED k pdu b' /\
    same_but a b b'.
Proof.
  intros Hlay (Hb & Hsel & p & u & v & Hp & Hd & Hu & Hs & Ht & Hc & Hv & Hvs).
  rewrite decide_False in Hsel by done.
  pose proof (proc_at_ok m _ _ _ Hb Hp) as Hpok.
  assert (Hw : where_ unit_isReady (units_ p) = [0]).
  { apply (where_first _ p u v); try done; unfold unit_isReady; by rewrite ?Hs, ?Hvs. }
  destruct (mark_units_spec m a Hm [0] p) as (q & E & Hq & Hdq & Hin & Hout);
    [done|repeat constructor; set_solver| |].
  { intros c ->%list_elem_of_singleton. by exists u. }
  destruct (Hin 0 u) as (u' & Hu' & Hs' & Ht' & Hc'); [set_solver|done|].
  exists (bput b a q a (numEmptyProc_ b)). split_and!.
  - unfold mac_retransmit, getProcess. rewrite (proj1 (proc_at_inv _ _ _) Hp). cbn [rbind].
    rewrite (ready_spec m p a), (ready_where m a), Hw by done. cbn [rbind].
    unfold buf_markSelected. cbn [fst snd]. rewrite bool_decide_eq_false_2 by done.
    rewrite wrap_small by (unfold is_uint; lia).
    rewrite (proj2 (Z.eqb_neq layers 0)), (proj2 (Z.ltb_ge layers (vsize [0]))) by (simpl; lia).
    cbn [negb]. rewrite Hp. cbn [rbind]. rewrite E. cbn [rbind]. by rewrite (set_proc_eq _ _ p).
  - split; [apply (bput_ok m b a p); auto; done|]. split; [by rewrite decide_True|].
    exists q, u', v. rewrite (proc_at_bput _ _ p), decide_True by done.
    split_and!; try done; [congruence..|by apply Hc'|]. rewrite Hout; [done|set_solver].
  - by eapply bput_same_but.
Qed.
End Sender.

(** ** The exchange delivers *)

Section Link.
Context (m a layers : Z) (Hm : 0 <= m < 255) (Hlay : 1 <= layers < 256) (purge : bool).

(** The packet handed up: the PDU inserted, with its place in the sequence of attempts. *)
Definition delivered (pdu : LteMacPdu) (k : Z) (up : list Packet) : Prop :=
  exists pkt, up = [pkt] /\ front pkt = Some pdu /\ txNumber (tag pkt) = k + 1 /\
    acid (tag pkt) = a /\ deciderResult (tag pkt) = true.

Lemma attempt_spec x k pdu b r p :
  tx_at m a TXHARQ_PDU_SELECTED k pdu b -> quiet m a r ->
  rx_proc_at r a = Ok p -> failed m a purge k p -> timed x ->
  exists up b' r' p', attempt purge x b r = Ok (up, b', r') /\
    same_but a b b' /\ quiet m a r' /\ rx_proc_at r' a = Ok p' /\ 0 <= k <= m /\
    (if decoded x then delivered pdu k up else up = []) /\
    (if decoded x || (k =? m) then tx_done m a b' /\ p' = rx_idle m a
     else tx_at m a TXHARQ_PDU_BUFFERED (k + 1) pdu b' /\
          (exists q, proc_at b' a = Ok q /\ proc_isEmpty q = false) /\
          failed m a purge (k + 1) p').
Proof.
  intros Htx Hq Hp Hf Hx.
  destruct (send_at m a Hm (t_send x) k pdu b Htx)
    as (pkt & b1 & E1 & Htx1 & Hsb1 & Hk & Hfr & (Ha & Hcw & _) & Hn & Hnd).
  set (got := received x pkt). assert (Hfg : front got = Some pdu) by done.
  pose proof (rx_insert_spec m Hm a purge k p (t_arrive x) got pdu Hf Hk Hnd Hfg) as Eins.
  set (n := seen purge k + 1) in *.
  set (r1 := rxput r a (rx_with m a n (t_arrive x) got RXHARQ_PDU_EVALUATING (decoded x))).
  assert (E2 : fromPhy_data x ∅ r [pkt] = Ok r1).
  { cbn [fromPhy_data]. unfold rxbuf_insertPdu, isHarqReset, peekAtFront. fold got.
    rewrite Hfg. cbn [rbind]. rewrite lookup_empty.
    change (acid (tag got)) with (acid (tag pkt)). rewrite Ha, Hcw, Hp. cbn [rbind].
    rewrite Eins. cbn [rbind]. by rewrite (rx_set_proc_put m a). }
  assert (Hq1 : quiet m a r1) by (by apply rxput_quiet).
  assert (Hp1 : rx_proc_at r1 a = Ok (rx_with m a n (t_arrive x) got RXHARQ_PDU_EVALUATING (decoded x)))
    by (by apply (rx_proc_at_put m)).
  destruct (extract_spec m Hm (t_answer x) a r1 n (t_arrive x) got pdu (decoded x))
    as (r2 & E3 & Hq2 & Hp2); try done.
  assert (exists r3, (if purge then let! (_, r) := purgeCorruptedPdus r2 in Ok r else Ok r2) = Ok r3 /\
    quiet m a r3 /\
    rx_proc_at r3 a = Ok (if decoded x || purge then rx_idle m a
                          else answered m a n (t_arrive x) got false)) as (r3 & E4 & Hq3 & Hp3).
  { destruct purge; [|exists r2; by rewrite orb_false_r].
    destruct (purge_spec m Hm a r2 n (t_arrive x) got) as (j & r3 & E & Hq3 & Hp3); [done| |].
    - destruct (decoded x); [by left|]. rewrite Hp2. unfold answered.
      destruct (n =? m + 1); auto.
    - exists r3. rewrite E. cbn [rbind]. by rewrite orb_true_r. }
  destruct (feedback_at m a Hm (k + 1) pdu b1 (fb_chunk (answer a (decoded x) got pdu)) (decoded x))
    as (b2 & E5 & Hsb2 & Hcase); [done|done|].
  exists (if decoded x then [got] else []), b2, r3. eexists.
  split; [|split; [by eapply same_but_trans|split; [done|split; [exact Hp3|split; [done|split]]]]].
  - unfold attempt. rewrite E1. cbn [rbind]. rewrite E2. cbn [rbind]. rewrite E3. cbn [rbind].
    rewrite E4. cbn [rbind fromPhy_feedback]. rewrite E5. by destruct (decoded x).
  - destruct (decoded x) eqn:Ed; [|done]. exists got. by split_and!.
  - replace (k + 1 =? m + 1) with (k =? m) in Hcase
      by (destruct (Z.eqb_spec k m), (Z.eqb_spec (k + 1) (m + 1)); done || lia).
    destruct (decoded x); cbn [orb] in *; [done|]. unfold answered, failed, n, seen.
    destruct (Z.eqb_spec k m) as [->|Hne].
    + split; [done|]. destruct purge; [done|]. by rewrite Z.eqb_refl.
    + destruct Hcase as [Htx2 Hne2]. split; [done|]. split; [done|].
      destruct purge; [done|]. rewrite (proj2 (Z.eqb_neq (k + 1) (m + 1))) by lia.
      rewrite (proj2 (Z.eqb_neq (k + 1) 0)) by lia. cbn [orb]. by exists got, (t_arrive x).
Qed.

(** The first attempt that is decoded, among those the limit allows. *)
Definition first_decoded (atts : list Attempt) : option (nat * Attempt) :=
  list_find (fun x => decoded x = true) atts.

Lemma exchange_spec atts k pdu b r p :
  tx_at m a TXHARQ_PDU_SELECTED k pdu b -> quiet m a r ->
  rx_proc_at r a = Ok p -> failed m a purge k p ->
  Forall timed atts -> m + 1 - k <= vsize atts ->
  exists up b' r', exchange purge layers a atts b r = Ok (up, b', r') /\
    same_but a b b' /\ tx_done m a b' /\ quiet m a r' /\ rx_proc_at r' a = Ok (rx_idle m a) /\
    match first_decoded (take (Z.to_nat (m + 1 - k)) atts) with
    | Some (j, _) => delivered pdu (k + Z.of_nat j) up
    | None => up = []
    end.
Proof.
  revert k b r p; induction atts as [|x atts IH]; intros k b r p Htx Hq Hp Hf Hx Hlen.
  { destruct (send_at m a Hm 0 k pdu b Htx) as (? & ? & _ & _ & _ & Hk & _). simpl in Hlen. lia. }
  apply Forall_cons in Hx as [Hx Hxs].
  destruct (attempt_spec x k pdu b r p) as (up & b1 & r1 & p1 & E & Hsb & Hq1 & Hp1 & Hk & Hup & Hcase);
    try done.
  cbn [exchange]. rewrite E. cbn [rbind].
  replace (Z.to_nat (m + 1 - k)) with (S (Z.to_nat (m + 1 - (k + 1)))) by lia.
  unfold first_decoded. cbn [take list_find].
  destruct (decoded x || (k =? m)) eqn:Ed.
  - destruct Hcase as [Hdone ->]. pose proof Hdone as (_ & _ & q & Hqa & Hqe).
    rewrite Hqa. cbn [rbind]. rewrite Hqe. exists up, b1, r1. split_and!; try done.
    case_decide as Hd; [by rewrite Hd, Z.add_0_r in *|].
    apply not_true_is_false in Hd. rewrite Hd in *. cbn [orb] in Ed.
    apply Z.eqb_eq in Ed as ->. replace (Z.to_nat (m + 1 - (m + 1))) with 0%nat by lia. done.
  - apply orb_false_iff in Ed as [Ed Hkm]. apply Z.eqb_neq in Hkm. rewrite Ed in *.
    rewrite decide_False by done. subst up.
    destruct Hcase as (Htx1 & (q & Hqa & Hqe) & Hf1). rewrite Hqa. cbn [rbind]. rewrite Hqe.
    destruct (retransmit_at m a Hm layers (k + 1) pdu b1 Hlay Htx1) as (b2 & E2 & Htx2 & Hsb2).
    rewrite E2. cbn [rbind].
    destruct (IH (k + 1) b2 r1 p1 Htx2 Hq1 Hp1 Hf1 Hxs) as (up & b3 & r3 & E3 & Hsb3 & Hd & Hq3 & Hp3 & Hm3);
      [simpl in Hlen; lia|].
    rewrite E3. cbn [rbind app]. exists up, b3, r3.
    split; [done|]. split; [by eauto using same_but_trans|]. split; [done|].
    split; [done|]. split; [done|]. unfold first_decoded in Hm3.
    destruct (list_find _ _) as [[j y]|]; cbn; [|done].
    by replace (k + Z.of_nat (S j)) with (k + 1 + Z.of_nat j) by lia.
Qed.
End Link.

(** The receiver is at rest. *)
Definition at_rest (m a : Z) (r : LteHarqBufferRx) : Prop :=
  quiet m a r /\ rx_proc_at r a = Ok (rx_idle m a).

Lemma new_rx_lookup n i m a p :
  0 <= i -> i + Z.of_nat n <= 256 ->
  vget (new_rx_processes n i m) a = Some p -> p = rx_idle m (i + a).
Proof.
  unfold vget. destruct (Z.leb_spec 0 a) as [Ha|]; [|done].
  rewrite <- (Z2Nat.id a) at 2 by done. generalize (Z.to_nat a) as k. clear a Ha.
  revert i; induction n as [|n IH]; intros i [|k] Hi Hn; simpl; try done.
  - intros E. injection E as <-. unfold rx_idle. rewrite wrap_small; [f_equal; lia|].
    unfold is_uint. lia.
  - intros E%IH; [rewrite E; f_equal|..]; lia.
Qed.

Lemma new_rx_length n i m : length (new_rx_processes n i m) = n.
Proof. revert i; induction n; intros; simpl; auto. Qed.

(** A new receive buffer is at rest. *)
Lemma new_at_rest num node m a :
  0 <= a < num -> num <= 256 -> at_rest m a (new_LteHarqBufferRx num node m).
Proof.
  intros Ha Hn.
  assert (Hlen : vsize (new_rx_processes (Z.to_nat num) 0 m) = num)
    by (rewrite new_rx_length; lia).
  split; [constructor; simpl; try done|].
  - intros i p _ Hp%new_rx_lookup; [done|lia..].
  - unfold rx_proc_at. simpl. destruct (vget_is_Some (new_rx_processes (Z.to_nat num) 0 m) a)
      as [p Hp]; [lia|]. rewrite Hp. apply new_rx_lookup in Hp as ->; [done|lia..].
Qed.

(** C9. H-ARQ end to end.  A PDU inserted into an empty process of a consistent transmit buffer,
    the receiver at rest, is handed up by the receiver exactly once when one of the first
    [m + 1] attempts is decoded, unchanged and numbered with that attempt, and not at all
    otherwise.  No step fails, the exchange ends after at most [m + 1] attempts, and then
    the process is empty, the receiver at rest and every other process untouched, so that
    the next PDU can follow.  This holds for the receiver that purges corrupted PDUs (UE) and
    the one that keeps them (eNB). *)
Theorem harq_delivers m a layers purge b r p pkt pdu atts :
  0 <= m < 255 -> 1 <= layers < 256 -> buf_ok m b -> selectedAcid_ b = HARQ_NONE ->
  proc_at b a = Ok p -> proc_isEmpty p = true -> insertable 0 pkt pdu ->
  at_rest m a r -> Forall timed atts -> m + 1 <= vsize atts ->
  exists b1 up b2 r2,
    buf_insertPdu b a 0 pkt = Ok b1 /\ exchange purge layers a atts b1 r = Ok (up, b2, r2) /\
    tx_done m a b2 /\ at_rest m a r2 /\ same_but a b b2 /\
    match first_decoded (take (Z.to_nat (m + 1)) atts) with
    | Some (j, _) => delivered a (stamped pdu) (Z.of_nat j) up
    | None => up = []
    end.
Proof.
  intros Hm Hlay Hb Hs Hp He Hins [Hq Hr] Hx Hlen.
  destruct (insert_at m a Hm b p pkt pdu) as (b1 & E1 & Htx & Hsb); try done.
  destruct (exchange_spec m a layers Hm Hlay purge atts 0 (stamped pdu) b1 r (rx_idle m a))
    as (up & b2 & r2 & E2 & Hsb2 & Hd & Hq2 & Hr2 & Hup); try done.
  - unfold failed. by rewrite orb_true_r.
  - by rewrite Z.sub_0_r.
  - exists b1, up, b2, r2. rewrite Z.sub_0_r in Hup. split_and!; try done.
    by eapply same_but_trans.
Qed.

(** ** Two codewords *)

(** A PDU, its packet for a codeword and process, and failed attempts 8 TTIs apart. *)
Definition demo_pdu (id : Z) : LteMacPdu :=
  setHeaderLength (mac_pushSdu {| sduList_ := []; ceList_ := []; macPduLength_ := 0;
    headerLength := 0; macPduId_ := id; macPduId := 0; chunkLength := 0 |}
    {| sdu_id := id; sdu_bytes := 100 |}) 2.

Definition demo_pkt (c id : Z) : Packet :=
  {| front := Some (demo_pdu id);
     tag := {| acid := 0; cw := c; txNumber := 0; ndi := true; direction := UL;
               sourceId := 1025; destId := 1; deciderResult := false |} |}.

Definition demo_attempt (k : Z) (d : bool) : Attempt :=
  {| t_send := 8 * k * TTI; t_arrive := (8 * k + 1) * TTI; t_answer := (8 * k + 4) * TTI;
     decoded := d |}.

Definition demo_tx (m : Z) : LteHarqBufferTx := new_LteHarqBufferTx 8 1 m 0.
Definition demo_rx (m : Z) : LteHarqBufferRx := new_LteHarqBufferRx 8 1025 m.

(** Both codewords of process 0 filled, then exchanged over four corrupted attempts with two
    layers and a receiver that does not purge; then new PDUs in both codewords, sent once. *)
Definition two_codewords_run : result (list Packet * LteHarqBufferTx * LteHarqBufferRx) :=
  let! b := buf_insertPdu (demo_tx 3) 0 0 (demo_pkt 0 10) in
  let! b := buf_insertPdu b 0 1 (demo_pkt 1 11) in
  let! (up, b, r) := exchange false 2 0
    (map (fun k => demo_attempt k false) [0; 1; 2; 3]) b (demo_rx 3) in
  let! b := buf_insertPdu b 0 0 (demo_pkt 0 12) in
  let! b := buf_insertPdu b 0 1 (demo_pkt 1 13) in
  attempt false (demo_attempt 4 true) b r.

(** With two codewords the receiver loses count: it has one transmission counter per
    process, advanced by either codeword and cleared by either, so after the transmitter has
    given up both PDUs the receiver still holds the second one, and the first new PDU on
    that codeword ends the simulation. *)
Theorem two_codewords_block :
  two_codewords_run = Throw "New data arriving in busy harq process -- this should not happen".
Proof. by vm_compute. Qed.
