(* ===== verification/HarqDemo.v ===== *)
(** * H-ARQ at concrete inputs

    Runs of the transmit buffer and of the whole exchange that meet the hypotheses of the
    H-ARQ theorems. *)

From S2P Require Import Prelude.
From S2P Require Import LteCommon.
From S2P Require Import HarqTx.
From S2P Require Import HarqTxBuffer.
From S2P Require Import HarqRx.
From S2P Require Import HarqTxFacts.
From S2P Require Import HarqTxProps.
From S2P Require Import HarqTxRun.
From S2P Require Import HarqTxChoice.
From S2P Require Import HarqLink.
#[local] Open Scope Z_scope.

(** Both codewords of process 0 sent and refused. *)
Definition refused (acid cw id : Z) : LteHarqFeedback :=
  {| fb_acid := acid; fb_cw := cw; fb_result := false; fbMacPduId := id |}.

Definition two_refused : list (Z * tx_op) :=
  [(0, TInsert 0 0 (demo_pkt 0 10)); (0, TInsert 0 1 (demo_pkt 1 11)); (0, TSend);
   (4 * TTI, TFeedback (refused 0 0 10)); (4 * TTI, TFeedback (refused 0 1 11))].

(** Then process 1 too, later. *)
Definition three_refused : list (Z * tx_op) :=
  two_refused ++
  [(5 * TTI, TInsert 1 0 (demo_pkt 0 12)); (5 * TTI, TSend);
   (9 * TTI, TFeedback (refused 1 0 12))].

(** Retransmission, a process dropped by force and one given up. *)
Definition busy_ops : list (Z * tx_op) :=
  three_refused ++
  [(10 * TTI, TRetx 0 1); (10 * TTI, TSend); (11 * TTI, TDrop 1);
   (12 * TTI, TForceDrop 0); (14 * TTI, TFeedback (refused 0 0 10))].

Definition after (ops : list (Z * tx_op)) : LteHarqBufferTx :=
  match tx_run ops (demo_tx 3) with Ok (_, b) => b | _ => demo_tx 3 end.

(** ** [allowed] decided *)

Definition insertableb (c : Z) (pkt : Packet) : bool :=
  match front pkt with
  | Some pdu => (cw (tag pkt) =? c)
                && match direction (tag pkt) with DL | UL => true | _ => false end
                && (chunkLength pdu =? pdu_getBitLength pdu)
  | None => false
  end.

Definition allowedb (b : LteHarqBufferTx) (op : tx_op) : bool :=
  match op with
  | TInsert a c pkt =>
      insertableb c pkt && (0 <=? c) && (c <? MAX_CODEWORDS) &&
      match proc_at b a with
      | Ok p => if selectedAcid_ b =? HARQ_NONE then proc_isEmpty p
                else (selectedAcid_ b =? a) &&
                     match isUnitEmpty p c with Ok true => true | _ => false end
      | _ => false
      end
  | TRetx a tbs =>
      match proc_at b a with Ok _ => true | _ => false end && (0 <=? tbs) && (tbs <? 256) &&
      ((selectedAcid_ b =? HARQ_NONE) || (selectedAcid_ b =? a))
  | TSend => true
  | TFeedback fb =>
      match proc_at b (fb_acid fb) with
      | Ok p => match unit_at p (fb_cw fb) with
                | Ok u => dropped_ p || bool_decide (status_ u = TXHARQ_PDU_WAITING) &&
                                        (fbMacPduId fb =? pduId_ u)
                | _ => false
                end
      | _ => false
      end
  | TDrop a | TForceDrop a => match proc_at b a with Ok _ => true | _ => false end
  end.

Lemma insertableb_sound c pkt : insertableb c pkt = true -> exists pdu, insertable c pkt pdu.
Proof.
  unfold insertableb. destruct (front pkt) as [pdu|] eqn:Hf; [|done].
  intros Hb. zify_bool. exists pdu. split_and!; try done.
  unfold routable. by destruct (direction _); auto.
Qed.

Lemma allowedb_sound b op : allowedb b op = true -> allowed b op.
Proof.
  destruct op as [a c pkt|a tbs| |fb|a|a]; cbn [allowedb allowed]; intros Hb; zify_bool; try done;
    try (destruct (proc_at b a) as [p| |] eqn:Hp; try done; by eexists).
  - split; [by apply insertableb_sound|]. split; [done|].
    destruct (proc_at b a) as [p| |] eqn:Hp; try done. exists p. split; [done|].
    destruct (Z.eqb_spec (selectedAcid_ b) HARQ_NONE); [by left|right]. zify_bool.
    split; [done|]. by destruct (isUnitEmpty p c) as [[|]| |].
  - destruct (proc_at b a) as [p| |] eqn:Hp; try done. split; [by eexists|]. split; [done|].
    match goal with E : _ || _ = true |- _ => apply orb_true_iff in E as [E|E]; zify_bool end; auto.
  - destruct (proc_at b (fb_acid fb)) as [p| |] eqn:Hp; try done.
    destruct (unit_at p (fb_cw fb)) as [u| |] eqn:Hu; try done. exists p, u.
    split; [done|]. split; [done|]. apply orb_true_iff in Hb as [Hb|Hb]; [by left|right].
    zify_bool. split; [|done]. by eapply bool_decide_eq_true.
Qed.

Fixpoint well_usedb (ops : list (Z * tx_op)) (b : LteHarqBufferTx) : bool :=
  match ops with
  | [] => true
  | (NOW, op) :: ops =>
      allowedb b op && match tx_exec NOW b op with Ok (_, b) => well_usedb ops b | _ => true end
  end.

Lemma well_usedb_sound ops b : well_usedb ops b = true -> well_used ops b.
Proof.
  revert b; induction ops as [|[NOW op] ops IH]; intros b; cbn [well_usedb well_used]; [done|].
  intros [Ha Hw]%andb_true_iff. split; [by apply allowedb_sound|].
  intros sent b' E. rewrite E in Hw. by apply IH.
Qed.

Lemma after_ok ops :
  well_usedb ops (demo_tx 3) = true -> buf_ok 3 (after ops).
Proof.
  intros Hw%well_usedb_sound. unfold after.
  destruct (run_ok 3 ops (demo_tx 3)) as (sent & b' & -> & Hb & _); [lia| |done|done].
  apply new_buf_ok; unfold HARQ_NONE; lia.
Qed.

(** ** Witnesses *)

Lemma harq_tx_safe_witness :
  exists sent b', tx_run busy_ops (demo_tx 3) = Ok (sent, b') /\ buf_ok 3 b' /\
    forall before pkt after, tx_trace busy_ops (demo_tx 3) = before ++ Sent pkt :: after ->
      let earlier := attempts (acid (tag pkt)) (cw (tag pkt)) before in
      txNumber (tag pkt) = earlier + 1 /\ earlier <= 3 /\ ndi (tag pkt) = (earlier =? 0).
Proof.
  apply (harq_tx_safe 3 8 1 0 busy_ops); [lia|unfold HARQ_NONE; lia|].
  apply well_usedb_sound. vm_compute. reflexivity.
Defined.

(** The times of all units of a buffer of eight processes lie in a range. *)
Definition times_in (lo hi : Z) (b : LteHarqBufferTx) : bool :=
  forallb (fun a => match proc_at b a with
    | Ok p => forallb (fun u => (lo <=? txTime_ u) && (txTime_ u <=? hi)) (units_ p)
    | _ => true end) (seqZ 0 (numProc_ b)).

Lemma times_in_spec m lo hi b a c u :
  buf_ok m b -> times_in lo hi b = true -> ready_at b a c u -> lo <= txTime_ u <= hi.
Proof.
  intros Hb Hall (p & Hp & Hu & _). unfold times_in in Hall.
  pose proof (proc_at_bounds m _ _ _ Hb Hp) as Ha. rewrite forallb_forall in Hall.
  specialize (Hall a). rewrite Hp in Hall.
  assert (In a (seqZ 0 (numProc_ b))) as Hin by (apply list_elem_of_In, elem_of_seqZ; lia).
  specialize (Hall Hin). rewrite forallb_forall in Hall. specialize (Hall u).
  apply unit_at_lookup, list_elem_of_lookup_2, list_elem_of_In in Hu. apply Hall in Hu.
  zify_bool. lia.
Qed.

Lemma first_ready_oldest_witness :
  let b := after three_refused in
  firstReadyForRtx (10 * TTI) b = Ok (0, [0; 1]) /\
  ((firstReadyForRtx (10 * TTI) b = Ok (HARQ_NONE, []) /\ forall a c u, ~ ready_at b a c u) \/
   (exists a ul c u, firstReadyForRtx (10 * TTI) b = Ok (a, ul) /\ a <> HARQ_NONE /\
     (forall c', c' ∈ ul <-> exists u', ready_at b a c' u') /\
     ready_at b a c u /\ forall a' c' u', ready_at b a' c' u' -> txTime_ u <= txTime_ u')).
Proof.
  intros b. assert (Hb : buf_ok 3 b) by (apply after_ok; vm_compute; reflexivity).
  split; [vm_compute; reflexivity|].
  apply (first_ready_oldest 3 (10 * TTI) b Hb). intros a c u Hr.
  pose proof (times_in_spec 3 0 (9 * TTI) b a c u Hb ltac:(vm_compute; reflexivity) Hr).
  unfold SECOND, TTI in *. lia.
Defined.

Lemma harq_concat_lossless_witness :
  exists b1 b2 pkt pdu,
    mac_retransmit (after two_refused) 0 1 = Ok b1 /\
    sendSelectedDown (10 * TTI) b1 = Ok ([pkt], b2) /\ front pkt = Some pdu /\
    map sdu_id (sduList_ pdu) = [10; 11] /\ pdu_getByteLength pdu = 202.
Proof.
  edestruct (harq_concat_lossless 3 (10 * TTI) (after two_refused) 0)
    as (b1 & b2 & pkt & pdu & E1 & E2 & Hf & Hs & _ & Hl & _);
    [lia|apply after_ok; vm_compute; reflexivity|left; vm_compute; reflexivity
    |vm_compute; reflexivity|vm_compute; reflexivity|vm_compute; reflexivity
    |eexists; split; vm_compute; reflexivity
    |vm_compute; reflexivity|vm_compute; reflexivity|eexists; split; vm_compute; reflexivity|].
  exists b1, b2, pkt, pdu. split; [exact E1|]. split; [exact E2|]. split; [exact Hf|].
  rewrite Hs, Hl. split; vm_compute; reflexivity.
Defined.

Lemma self_nack_fails_witness :
  buf_selfNack (10 * TTI) (after two_refused) 0 0
    = Throw "Feedback sent to an H-ARQ unit not waiting for it".
Proof.
  eapply (self_nack_fails 3 (10 * TTI) (after two_refused) 0 0 1).
  - apply after_ok. vm_compute. reflexivity.
  - eexists. split; [vm_compute; reflexivity|]. split; vm_compute; reflexivity.
Defined.

(** Two corrupted attempts, then a decoded one. *)
Definition demo_attempts : list Attempt :=
  [demo_attempt 0 false; demo_attempt 1 false; demo_attempt 2 true; demo_attempt 3 false].

Lemma harq_delivers_witness :
  exists b1 up b2 r2,
    buf_insertPdu (demo_tx 3) 5 0 (demo_pkt 0 10) = Ok b1 /\
    exchange false 1 5 demo_attempts b1 (demo_rx 3) = Ok (up, b2, r2) /\
    tx_done 3 5 b2 /\ at_rest 3 5 r2 /\ same_but 5 (demo_tx 3) b2 /\
    delivered 5 (stamped (demo_pdu 10)) 2 up.
Proof.
  apply (harq_delivers 3 5 1 false (demo_tx 3) (demo_rx 3)
    (new_LteHarqProcessTx 5 MAX_CODEWORDS 8 3 0) (demo_pkt 0 10) (demo_pdu 10) demo_attempts).
  - lia.
  - lia.
  - apply new_buf_ok; unfold HARQ_NONE; lia.
  - reflexivity.
  - reflexivity.
  - reflexivity.
  - split_and!; [reflexivity|reflexivity|by right|reflexivity].
  - apply new_at_rest; lia.
  - repeat apply Forall_cons_2; [..|apply Forall_nil_2]; vm_compute; discriminate.
  - simpl. lia.
Defined.

(** Both codewords of process 0 sent and accepted: every process is empty again, but the
    buffer counts seven empty processes of eight. *)
Definition two_accepted : list (Z * tx_op) :=
  [(0, TInsert 0 0 (demo_pkt 0 10)); (0, TInsert 0 1 (demo_pkt 1 11)); (0, TSend);
   (4 * TTI, TFeedback {| fb_acid := 0; fb_cw := 0; fb_result := true; fbMacPduId := 10 |});
   (4 * TTI, TFeedback {| fb_acid := 0; fb_cw := 1; fb_result := true; fbMacPduId := 11 |})].

Lemma empty_counter_drifts :
  well_usedb two_accepted (demo_tx 3) = true /\
  forallb proc_isEmpty (processes_ (after two_accepted)) = true /\
  numEmptyProc_ (after two_accepted) = 7.
Proof. by vm_compute. Qed.
