(* ===== verification/HarqSource.v ===== *)
(** * H-ARQ does not change the sender of a packet

    When every packet in the buffers names a node as its source, so does every packet the
    exchange hands up, and this stays so.  The proofs go through the operations with a
    postcondition of the error monad. *)

From S2P Require Import Prelude.
From S2P Require Import LteCommon.
From S2P Require Import HarqTx.
From S2P Require Import HarqTxBuffer.
From S2P Require Import HarqRx.
From S2P Require Import HarqTxRun.
From S2P Require Import HarqLink.
#[local] Open Scope Z_scope.

(** ** Postconditions *)

Definition post {A} (m : result A) (Q : A -> Prop) : Prop := forall a, m = Ok a -> Q a.

Lemma post_ok {A} (a : A) (Q : A -> Prop) : Q a -> post (Ok a) Q.
Proof. intros H b [= <-]. done. Qed.

Lemma post_throw {A} e (Q : A -> Prop) : post (Throw e) Q.
Proof. done. Qed.

Lemma post_ub {A} (Q : A -> Prop) : post UB Q.
Proof. done. Qed.

Lemma post_bind {A B} (m : result A) (k : A -> result B) (Q : A -> Prop) (R : B -> Prop) :
  post m Q -> (forall a, Q a -> post (k a) R) -> post (rbind m k) R.
Proof. intros Hm Hk b Hb. apply rbind_Ok_inv in Hb as (a & Ha & Hb). exact (Hk a (Hm a Ha) b Hb). Qed.

Lemma post_any {A B} (m : result A) (k : A -> result B) (R : B -> Prop) :
  (forall a, post (k a) R) -> post (rbind m k) R.
Proof. intros Hk. apply (post_bind m k (fun _ => True)); [done|]. intros a _. apply Hk. Qed.

Lemma post_of_option {A} (o : option A) (Q : A -> Prop) : (forall a, o = Some a -> Q a) -> post (of_option o) Q.
Proof. destruct o as [x|]; intros H b; [|done]. intros [= <-]. by apply H. Qed.

(** The ends of the branches. *)
Ltac by_post :=
  lazymatch goal with
  | |- post (Throw _) _ => apply post_throw
  | |- post UB _ => apply post_ub
  | |- post (Ok _) _ => apply post_ok; done
  end.

Section Source.
Variable n : Z.

Definition pkt_from (p : Packet) : Prop := sourceId (tag p) = n.
Definition slot_from (o : option Packet) : Prop := forall p, o = Some p -> pkt_from p.
Definition unit_from (u : LteHarqUnitTx) : Prop := slot_from (pdu_ u).
Definition proc_from (p : LteHarqProcessTx) : Prop := Forall unit_from (units_ p).
Definition tx_from (b : LteHarqBufferTx) : Prop := Forall proc_from (processes_ b).
Definition rxproc_from (p : LteHarqProcessRx) : Prop := Forall slot_from (rx_pdu_ p).
Definition rx_from (b : LteHarqBufferRx) : Prop := Forall rxproc_from (rx_processes_ b).

Lemma slot_none : slot_from None.
Proof. done. Qed.

Lemma slot_some p : pkt_from p -> slot_from (Some p).
Proof. intros H q [= <-]. done. Qed.

Lemma post_vget {A} (P : A -> Prop) l i : Forall P l -> post (of_option (vget l i)) P.
Proof.
  intros H. apply post_of_option. intros a Ha. apply vget_Some_bounds in Ha as Hb.
  unfold vget in Ha. rewrite (proj2 (Z.leb_le 0 i)) in Ha by lia. by eapply Forall_lookup_1.
Qed.

Lemma post_vset {A} (P : A -> Prop) l i x : Forall P l -> P x -> post (of_option (vset l i x)) (Forall P).
Proof. intros H Hx. apply post_of_option. intros a Ha. by eapply vset_Forall. Qed.

Lemma post_unit p c : proc_from p -> post (unit_at p c) unit_from.
Proof. apply post_vget. Qed.

Lemma post_set_unit p c u : proc_from p -> unit_from u -> post (set_unit p c u) proc_from.
Proof. intros Hp Hu. unfold set_unit. eapply post_bind; [by apply post_vset|]. intros us Hus. by apply post_ok. Qed.

Lemma post_proc b a : tx_from b -> post (proc_at b a) proc_from.
Proof. apply post_vget. Qed.

Lemma post_set_proc b a p : tx_from b -> proc_from p -> post (set_proc b a p) tx_from.
Proof. intros Hb Hp. unfold set_proc. eapply post_bind; [by apply post_vset|]. intros ps Hps. by apply post_ok. Qed.

Lemma post_pdu u : unit_from u -> post (of_option (pdu_ u)) pkt_from.
Proof. intros Hu. by apply post_of_option. Qed.

(** ** The transmit buffer *)

Lemma post_extract NOW p c : proc_from p -> post (proc_extractPdu NOW p c) (fun r => pkt_from r.1 /\ proc_from r.2).
Proof.
  intros Hp. unfold proc_extractPdu, unit_extractPdu. case_match; [apply post_throw|].
  eapply post_bind; [by apply post_unit|]. intros u Hu. apply (post_bind _ _ (fun r => pkt_from r.1 /\ unit_from r.2)).
  - case_match; [apply post_throw|]. eapply post_bind; [by apply post_pdu|]. intros pkt Hk.
    apply post_ok. split; [exact Hk|]. by apply slot_some.
  - intros [pkt u'] [Hk Hu']. eapply post_bind; [by apply post_set_unit|]. intros p' Hp'.
    apply post_any. intros w. by apply post_ok.
Qed.

Lemma post_send_units NOW p ul : proc_from p ->
  post (send_units NOW p ul) (fun r => Forall pkt_from r.1 /\ proc_from r.2).
Proof.
  revert p. induction ul as [|c ul IH]; intros p Hp; cbn [send_units]; [by apply post_ok|].
  eapply post_bind; [by apply post_extract|]. intros [pkt p'] [Hk Hp']. apply post_any. intros w.
  eapply post_bind; [by apply IH|]. intros [sent q] [Hs Hq]. apply post_ok. by split; [constructor|].
Qed.

Lemma post_send NOW b : tx_from b -> post (sendSelectedDown NOW b) (fun r => Forall pkt_from r.1 /\ tx_from r.2).
Proof.
  intros Hb. unfold sendSelectedDown. case_match; [by apply post_ok|].
  eapply post_bind; [by apply post_proc|]. intros p Hp. apply post_any. intros ul.
  eapply post_bind; [by apply post_send_units|]. intros [sent p'] [Hs Hp'].
  eapply post_bind; [by apply post_set_proc|]. intros b' Hb'. by apply post_ok.
Qed.

Lemma reset_from u : unit_from (resetUnit u).
Proof. done. Qed.

Lemma post_feedback b fb : tx_from b -> post (receiveHarqFeedback b fb) tx_from.
Proof.
  intros Hb. unfold receiveHarqFeedback. eapply post_bind; [by apply post_proc|]. intros p Hp.
  apply post_any. intros id. case_match; [by apply post_ok|]. case_match; [apply post_throw|].
  apply (post_bind _ _ (fun r => proc_from r.2)).
  - unfold proc_pduFeedback, unit_pduFeedback. eapply post_bind; [by apply post_unit|]. intros u Hu.
    apply (post_bind _ _ (fun r => unit_from r.2)).
    + apply post_any. intros pkt. repeat case_match; by_post.
    + intros [reset u'] Hu'. eapply post_bind; [by apply post_set_unit|]. intros p' Hp'. apply post_ok.
      unfold unit_reset. by destruct reset.
  - intros [reset p'] Hp'. eapply post_bind; [by apply post_set_proc|]. intros b' Hb'. apply post_ok. by destruct reset.
Qed.

Lemma post_mark p c : proc_from p -> post (proc_markSelected p c) proc_from.
Proof.
  intros Hp. unfold proc_markSelected, unit_markSelected. case_match; [apply post_throw|].
  eapply post_bind; [by apply post_unit|]. intros u Hu. apply (post_bind _ _ unit_from).
  - case_match; by_post.
  - intros u' Hu'. by apply post_set_unit.
Qed.

Lemma post_mark_units p ul : proc_from p -> post (mark_units p ul) proc_from.
Proof.
  revert p. induction ul as [|c ul IH]; intros p Hp; cbn [mark_units]; [by apply post_ok|].
  eapply post_bind; [by apply post_mark|]. exact IH.
Qed.

Lemma post_getPdu p c : proc_from p -> post (proc_getPdu p c) pkt_from.
Proof.
  intros Hp. unfold proc_getPdu, unit_getPdu. eapply post_bind; [by apply post_unit|]. intros u Hu.
  apply post_any. intros pkt0. apply post_any. intros pdu0. eapply post_bind; [by apply post_pdu|]. intros pkt Hk.
  apply post_any. intros w. by apply post_ok.
Qed.

Lemma post_remove pkt : pkt_from pkt -> post (removeAtFront pkt) (fun r => pkt_from r.2).
Proof. intros Hk. unfold removeAtFront. apply post_any. intros pdu. by apply post_ok. Qed.

Lemma post_set_pkt p c pkt : proc_from p -> pkt_from pkt -> post (set_pkt p c pkt) proc_from.
Proof. intros Hp Hk. unfold set_pkt. apply post_any. intros u. apply post_set_unit; [done|by apply slot_some]. Qed.

Lemma post_concat p base ul : proc_from p -> post (concat_units p base ul) (fun r => proc_from r.1).
Proof.
  revert p base. induction ul as [|c ul IH]; intros p base Hp; cbn [concat_units]; [by apply post_ok|].
  eapply post_bind; [by apply post_getPdu|]. intros pkt Hk. eapply post_bind; [by apply post_remove|].
  intros [guest pkt2] Hk2. apply post_any. intros [base1 guest1]. apply post_any. intros [base2 guest2].
  eapply post_bind; [by apply post_set_pkt|]. intros p1 Hp1. apply (post_bind _ _ proc_from); [|by intros; apply IH].
  unfold proc_dropPdu, unit_dropPdu. apply post_any. intros u. apply (post_bind _ _ unit_from).
  - case_match; by_post.
  - intros u' Hu'. eapply post_bind; [by apply post_set_unit|]. intros p2 Hp2. by apply post_ok.
Qed.

Lemma post_jumbo p ul : proc_from p -> post (mark_jumbo p ul) proc_from.
Proof.
  intros Hp. destruct ul as [|c ul]; [apply post_ub|]. cbn [mark_jumbo].
  eapply post_bind; [by apply post_getPdu|]. intros pkt Hk. eapply post_bind; [by apply post_remove|].
  intros [base pkt'] Hk'. eapply post_bind; [by apply post_set_pkt|]. intros p1 Hp1.
  eapply post_bind; [by apply post_concat|]. intros [p2 base2] Hp2. eapply post_bind; [by apply post_set_pkt|].
  intros p3 Hp3. by apply post_mark.
Qed.

Lemma post_retransmit b a layers : tx_from b -> post (mac_retransmit b a layers) tx_from.
Proof.
  intros Hb. unfold mac_retransmit. apply post_any. intros q. apply post_any. intros ready.
  apply post_any. intros ul. case_match; [|by apply post_ok].
  unfold buf_markSelected. do 2 (case_match; [by apply post_ok|]). eapply post_bind; [by apply post_proc|]. intros p Hp.
    apply (post_bind _ _ proc_from); [case_match; [by apply post_jumbo|by apply post_mark_units]|].
    intros p' Hp'. eapply post_bind; [by apply post_set_proc|]. intros b' Hb'. by apply post_ok.
Qed.

Lemma post_insert b a c pkt : tx_from b -> pkt_from pkt -> post (buf_insertPdu b a c pkt) tx_from.
Proof.
  intros Hb Hk. unfold buf_insertPdu. apply post_any. intros pdu. eapply post_bind; [by apply post_proc|]. intros p Hp.
  case_match; [apply post_throw|]. apply post_any. intros empty. case_match; [apply post_throw|].
  apply (post_bind _ _ proc_from); [|by intros p' Hp'; apply post_set_proc].
  unfold proc_insertPdu, unit_insertPdu. apply post_any. intros pdu'. apply post_any. intros u.
  apply (post_bind _ _ unit_from).
  - case_match; [apply post_throw|]. eapply post_bind; [by apply post_remove|]. intros [pdu2 pkt2] Hk2.
    case_match; [apply post_throw|]. apply post_ok. by apply slot_some.
  - intros u' Hu'. eapply post_bind; [by apply post_set_unit|]. intros p' Hp'. by apply post_ok.
Qed.

(** ** The receive buffer *)

Lemma post_vec_set {A} (P : A -> Prop) l i x : Forall P l -> P x -> post (vec_set l i x) (Forall P).
Proof. intros H Hx. unfold vec_set. case_match; [|apply post_throw]. apply post_ok. by eapply vset_Forall. Qed.

Lemma post_vec_at {A} (P : A -> Prop) l i : Forall P l -> post (vec_at l i) P.
Proof. intros H. unfold vec_at. pose proof (post_vget P l i H) as Hp. case_match; [|apply post_throw]. apply post_ok. by apply Hp. Qed.

Lemma post_rx_proc b i : rx_from b -> post (rx_proc_at b i) rxproc_from.
Proof. apply post_vget. Qed.

Lemma post_rx_set_proc b i p : rx_from b -> rxproc_from p -> post (rx_set_proc b i p) rx_from.
Proof. intros Hb Hp. unfold rx_set_proc. eapply post_bind; [by apply post_vset|]. intros ps Hps. by apply post_ok. Qed.

Lemma post_rx_pdu p c o : rxproc_from p -> slot_from o -> post (rx_set_pdu p c o) rxproc_from.
Proof. intros Hp Ho. unfold rx_set_pdu. eapply post_bind; [by apply post_vec_set|]. intros v Hv. by apply post_ok. Qed.

Lemma post_rx_status p c s : rxproc_from p -> post (rx_set_status p c s) rxproc_from.
Proof. intros Hp. unfold rx_set_status. apply post_any. intros v. by apply post_ok. Qed.

Lemma post_rx_reset p c : rxproc_from p -> post (resetCodeword p c) rxproc_from.
Proof.
  intros Hp. unfold resetCodeword. eapply post_bind; [by apply post_rx_pdu|]. intros p1 Hp1.
  eapply post_bind; [by apply post_rx_status|]. intros p2 Hp2. unfold rx_set_time, rx_set_result.
  apply (post_bind _ _ rxproc_from); [apply post_any; intros v; by apply post_ok|]. intros p3 Hp3.
  apply (post_bind _ _ rxproc_from); [apply post_any; intros v; by apply post_ok|]. intros p4 Hp4. by apply post_ok.
Qed.

Lemma post_rx_insert NOW reset b c pkt : rx_from b -> pkt_from pkt -> post (rxbuf_insertPdu NOW reset b c pkt) rx_from.
Proof.
  intros Hb Hk. unfold rxbuf_insertPdu. apply post_any. intros pdu. case_match; [by apply post_ok|].
  eapply post_bind; [by apply post_rx_proc|]. intros p Hp.
  apply (post_bind _ _ rxproc_from); [|by intros p' Hp'; apply post_rx_set_proc].
  unfold rx_insertPdu. apply post_any. intros pdu'. apply post_any. intros st. do 2 (case_match; [apply post_throw|]).
  eapply post_bind; [by apply post_rx_pdu, slot_some|]. intros p1 Hp1. unfold rx_set_time, rx_set_result.
  apply (post_bind _ _ rxproc_from); [apply post_any; intros v; by apply post_ok|]. intros p2 Hp2.
  eapply post_bind; [by apply post_rx_status|]. intros p3 Hp3.
  apply (post_bind _ _ rxproc_from); [apply post_any; intros v; by apply post_ok|]. intros p4 Hp4. by apply post_ok.
Qed.

Lemma post_loops {S} (body : Z -> Z -> S -> result S) (Q : S -> Prop) k i s :
  (forall i c s, Q s -> post (body i c s) Q) -> Q s -> post (for_processes body k i s) Q.
Proof.
  intros Hb. assert (Hc : forall m i c s, Q s -> post (for_codewords body m i c s) Q).
  { induction m as [|m IH]; intros j c t Ht; cbn [for_codewords]; [by apply post_ok|].
    eapply post_bind; [by apply Hb|]. intros t' Ht'. by apply IH. }
  revert i s. induction k as [|k IH]; intros i s Hs; cbn [for_processes]; [by apply post_ok|].
  eapply post_bind; [by apply Hc|]. intros s' Hs'. by apply IH.
Qed.

Lemma post_feedback_one NOW i c s : rx_from s.2 -> post (feedback_one NOW i c s) (fun s => rx_from s.2).
Proof.
  intros Hs. unfold feedback_one. eapply post_bind; [by apply post_rx_proc|]. intros p Hp. apply post_any. intros ev.
  case_match; [|by apply post_ok]. apply (post_bind _ _ (fun r => rxproc_from r.2)).
  - unfold createFeedback. apply post_any. intros ev'. case_match; [apply post_throw|].
    do 4 (apply post_any; intros ?). apply (post_bind _ _ rxproc_from); [|by intros p' Hp'; apply post_ok].
    case_match; [|by apply post_rx_status]. eapply post_bind; [by apply post_rx_status|]. intros p1 Hp1.
    case_match; [|by apply post_ok]. unfold purgeCorruptedPdu. eapply post_bind; [by apply post_rx_pdu|].
    intros p2 Hp2. by apply post_rx_reset.
  - intros [pkt p'] Hp'. eapply post_bind; [by apply post_rx_set_proc|]. intros b' Hb'. by apply post_ok.
Qed.

Lemma post_extract_one i c s : Forall pkt_from s.1 /\ rx_from s.2 ->
  post (extract_one i c s) (fun s => Forall pkt_from s.1 /\ rx_from s.2).
Proof.
  intros [Hk Hs]. unfold extract_one. eapply post_bind; [by apply post_rx_proc|]. intros p Hp. apply post_any. intros cor.
  case_match; [|by apply post_ok]. apply (post_bind _ _ (fun r => pkt_from r.1 /\ rxproc_from r.2)).
  - unfold rx_extractPdu. apply post_any. intros cor'. case_match; [apply post_throw|].
    eapply post_bind; [by apply post_vec_at|]. intros slot Hslot. eapply post_bind; [by apply post_of_option|].
    intros pkt Hpkt. apply post_any. intros w. eapply post_bind; [by apply post_rx_pdu|]. intros p1 Hp1.
    eapply post_bind; [by apply post_rx_reset|]. intros p2 Hp2. by apply post_ok.
  - intros [pkt p'] [Hpkt Hp']. apply post_any. intros w. eapply post_bind; [by apply post_rx_set_proc|]. intros b' Hb'.
    apply post_ok. split; [|done]. by apply Forall_app_2; [|constructor].
Qed.

Lemma post_extract_all NOW b : rx_from b ->
  post (extractCorrectPdus NOW b) (fun r => Forall pkt_from r.1.2 /\ rx_from r.2).
Proof.
  intros Hb. unfold extractCorrectPdus, sendFeedback.
  eapply post_bind; [apply (post_loops _ (fun s => rx_from s.2)); [apply post_feedback_one|exact Hb]|].
  intros [fbs b1] Hb1. eapply post_bind.
  { apply (post_loops _ (fun s => Forall pkt_from s.1 /\ rx_from s.2)); [apply post_extract_one|]. by split. }
  intros [ret b2] [Hr Hb2]. by apply post_ok.
Qed.

Lemma post_purge b : rx_from b -> post (purgeCorruptedPdus b) (fun r => rx_from r.2).
Proof.
  intros Hb. unfold purgeCorruptedPdus. apply (post_loops _ (fun s => rx_from s.2)); [|exact Hb].
  intros i c s Hs. unfold purge_one. eapply post_bind; [by apply post_rx_proc|]. intros p Hp. apply post_any. intros st.
  case_match; [|by apply post_ok]. unfold purgeCorruptedPdu. eapply post_bind; [by apply post_rx_pdu|]. intros p1 Hp1.
  eapply post_bind; [by apply post_rx_reset|]. intros p2 Hp2. eapply post_bind; [by apply post_rx_set_proc|].
  intros b' Hb'. by apply post_ok.
Qed.

(** ** The exchange *)

Definition link_from (r : list Packet * LteHarqBufferTx * LteHarqBufferRx) : Prop :=
  Forall pkt_from r.1.1 /\ tx_from r.1.2 /\ rx_from r.2.

Lemma post_attempt purge x b r : tx_from b -> rx_from r -> post (attempt purge x b r) link_from.
Proof.
  intros Hb Hr. unfold attempt. eapply post_bind; [by apply post_send|]. intros [sent b1] [Hs Hb1]. cbn [fst snd] in Hs, Hb1.
  apply (post_bind _ _ rx_from).
  { clear Hb1. revert r Hr. induction Hs as [|pkt sent Hk _ IH]; intros r Hr; cbn [fromPhy_data]; [by apply post_ok|].
    eapply post_bind; [by apply post_rx_insert|]. exact IH. }
  intros r1 Hr1. eapply post_bind; [by apply post_extract_all|]. intros [[fbs up] r2] [Hu Hr2].
  apply (post_bind _ _ rx_from).
  { case_match; [|by apply post_ok]. eapply post_bind; [by apply post_purge|]. intros [k r3] Hr3. by apply post_ok. }
  intros r3 Hr3. apply (post_bind _ _ tx_from); [|by intros b2 Hb2; apply post_ok].
  clear -Hb1. revert b1 Hb1. induction fbs as [|fb fbs IH]; intros b1 Hb1; cbn [fromPhy_feedback]; [by apply post_ok|].
  eapply post_bind; [by apply post_feedback|]. exact IH.
Qed.

Lemma post_exchange purge layers a atts b r : tx_from b -> rx_from r -> post (exchange purge layers a atts b r) link_from.
Proof.
  revert b r. induction atts as [|x atts IH]; intros b r Hb Hr; cbn [exchange]; [by apply post_ok|].
  eapply post_bind; [by apply post_attempt|]. intros [[up b1] r1] (Hu & Hb1 & Hr1). apply post_any. intros p.
  case_match; [by apply post_ok|]. eapply post_bind; [by apply post_retransmit|]. intros b2 Hb2.
  eapply post_bind; [by apply IH|]. intros [[later b3] r3] (Hl & Hb3 & Hr3). apply post_ok.
  split; [by apply Forall_app_2|by split].
Qed.
End Source.
