(* ===== verification/RlcUm.v ===== *)
(** * RLC unacknowledged mode: segmentation and reassembly

    [UmTxEntity] (src/simulte/src/stack/rlc/um/entity/UmTxEntity.cc) cuts and
    concatenates SDUs into PDUs of the size the MAC asks for; [UmRxEntity]'s
    [reassemble] puts them together again.  The reordering window in front of it is
    in RlcWindow.v.

    An SDU is its packet's address, the fields of its [LteRlcSdu] header and the
    byte length of the packet; a PDU carries packets with the number of bytes of
    each that it stands for. *)

From S2P Require Import Prelude.

Record RlcSdu := {
  sdu_ptr : Z;
  snoMainPacket : Z;
  lengthMainPacket : Z;
  sdu_bytes : Z
}.

#[export] Instance rlcsdu_eq_dec : EqDecision RlcSdu.
Proof. solve_decision. Defined.

(** [LteRlcUmDataPdu]: sequence number, framing info, SDUs with their sizes. *)
Record UmPdu := {
  pduSequenceNumber : Z;
  framingInfo : Z;
  sduList : list (RlcSdu * Z);
  chunkBytes : Z
}.

Definition RLC_HEADER_UM : Z := 2.

(** [pushSdu], [popSdu] and [getNumSdu] of the PDU. *)
Definition pushSdu (l : list (RlcSdu * Z)) (pkt : RlcSdu) (size : Z) : list (RlcSdu * Z) :=
  l ++ [(pkt, size)].
Definition getNumSdu (pdu : UmPdu) : Z := vsize (sduList pdu).

(** ** UmTxEntity *)

Record UmTxEntity := {
  sduQueue_ : list RlcSdu;
  fragmentInfo : option (RlcSdu * Z);
  firstIsFragment_ : bool;
  notifyEmptyBuffer_ : bool;
  holdingDownstreamInPackets_ : bool;
  sduHoldingQueue_ : list RlcSdu;
  queueSize_ : Z;
  queueLength_ : Z;
  sno_ : Z
}.

#[export] Instance umtx_eta : Eta UmTxEntity := fun t =>
  {| sduQueue_ := sduQueue_ t; fragmentInfo := fragmentInfo t;
     firstIsFragment_ := firstIsFragment_ t; notifyEmptyBuffer_ := notifyEmptyBuffer_ t;
     holdingDownstreamInPackets_ := holdingDownstreamInPackets_ t;
     sduHoldingQueue_ := sduHoldingQueue_ t; queueSize_ := queueSize_ t;
     queueLength_ := queueLength_ t; sno_ := sno_ t |}.

Definition new_UmTxEntity (queueSize : Z) : UmTxEntity :=
  {| sduQueue_ := []; fragmentInfo := None; firstIsFragment_ := false; notifyEmptyBuffer_ := false;
     holdingDownstreamInPackets_ := false; sduHoldingQueue_ := []; queueSize_ := queueSize;
     queueLength_ := 0; sno_ := 0 |}.

(** What the entity does to the rest of the stack. *)
Inductive umtx_effect :=
| SendPdu (pdu : UmPdu)
| SendNoData
| NotifyNewData (sdu : RlcSdu)
| DropOverflow (sdu : RlcSdu)
| ResumeDownstream.

Definition tx_enque (t : UmTxEntity) (pkt : RlcSdu) : bool * UmTxEntity :=
  if (queueSize_ t =? 0) || (queueLength_ t + sdu_bytes pkt <? queueSize_ t) then
    (true, t <| sduQueue_ := sduQueue_ t ++ [pkt] |>
             <| queueLength_ := uint32 (queueLength_ t + sdu_bytes pkt) |>)
  else (false, t).

(** The loop of [rlcPduMake]; every round but the last takes an SDU off the queue. *)
Record fill_state := {
  f_queue : list RlcSdu;
  f_frag : option (RlcSdu * Z);
  f_len : Z;
  f_queueLength : Z;
  f_first : bool;
  f_endFrag : bool;
  f_sdus : list (RlcSdu * Z)
}.

Fixpoint fill (queue : list RlcSdu) (frag : option (RlcSdu * Z)) (pduLength len queueLength : Z)
    (first : bool) (sdus : list (RlcSdu * Z)) : result fill_state :=
  let done_ := Ok {| f_queue := queue; f_frag := frag; f_len := len; f_queueLength := queueLength;
                     f_first := first; f_endFrag := false; f_sdus := sdus |} in
  match queue with
  | [] => done_
  | pkt :: rest =>
      if pduLength <=? 0 then done_ else
      let! sduLength :=
        match frag with
        | Some (fpkt, size) =>
            if sdu_ptr fpkt =? sdu_ptr pkt then Ok size else Throw "Packets are different"
        | None => Ok (int32 (lengthMainPacket pkt))
        end in
      if sduLength <=? pduLength then
        fill rest None (pduLength - sduLength) (len + sduLength)
             (uint32 (queueLength - sdu_bytes pkt)) false (pushSdu sdus pkt sduLength)
      else
        let! frag :=
          match frag with
          | Some (fpkt, size) =>
              if size - pduLength <? 0 then Throw "Fragmentation error"
              else Ok (Some (fpkt, size - pduLength))
          | None => Ok (Some (pkt, sduLength - pduLength))
          end in
        (* the loop ends: pduLength is now 0 *)
        Ok {| f_queue := queue; f_frag := frag; f_len := len + pduLength;
              f_queueLength := queueLength; f_first := true; f_endFrag := true;
              f_sdus := pushSdu sdus pkt pduLength |}
  end.

Definition framing (startFrag endFrag : bool) : Z :=
  let fi := 0 in
  let fi := if endFrag then Z.lor fi 1 else fi in
  if startFrag then Z.lor fi 2 else fi.

Definition rlcPduMake (t : UmTxEntity) (pduLength : Z) : result (UmTxEntity * list umtx_effect) :=
  let pduLength := int32 (pduLength - RLC_HEADER_UM) in
  let startFrag := firstIsFragment_ t in
  let! f := fill (sduQueue_ t) (fragmentInfo t) pduLength 0 (queueLength_ t) startFrag [] in
  let t := t <| sduQueue_ := f_queue f |> <| fragmentInfo := f_frag f |>
             <| queueLength_ := f_queueLength f |> <| firstIsFragment_ := f_first f |> in
  let (t, out) :=
    if f_len f =? 0 then (t, SendNoData)
    else
      (t <| sno_ := uint32 (sno_ t + 1) |>,
       SendPdu {| pduSequenceNumber := sno_ t; framingInfo := framing startFrag (f_endFrag f);
                  sduList := f_sdus f; chunkBytes := RLC_HEADER_UM + f_len f |}) in
  if notifyEmptyBuffer_ t && bool_decide (sduQueue_ t = []) then
    Ok (t <| notifyEmptyBuffer_ := false |>, [out; ResumeDownstream])
  else Ok (t, [out]).

(** [back()] of an empty queue is null, and [remove] of it is undefined here. *)
Definition removeDataFromQueue (t : UmTxEntity) : result UmTxEntity :=
  match last (sduQueue_ t) with
  | None => UB
  | Some pkt =>
      Ok (t <| sduQueue_ := removelast (sduQueue_ t) |>
            <| queueLength_ := uint32 (queueLength_ t - sdu_bytes pkt) |>)
  end.

Definition clearQueue (t : UmTxEntity) : UmTxEntity :=
  t <| sduQueue_ := [] |> <| fragmentInfo := None |> <| queueLength_ := 0 |>
    <| firstIsFragment_ := false |>.

Definition enqueHoldingPackets (t : UmTxEntity) (pkt : RlcSdu) : UmTxEntity :=
  t <| sduHoldingQueue_ := sduHoldingQueue_ t ++ [pkt] |>.

Fixpoint resume_all (t : UmTxEntity) (held : list RlcSdu) : UmTxEntity * list umtx_effect :=
  match held with
  | [] => (t, [])
  | pkt :: held' =>
      let t := t <| sduHoldingQueue_ := held' |> in
      let (ok, t) := tx_enque t pkt in
      let (t', e) := resume_all t held' in
      (t', (if ok then NotifyNewData pkt else DropOverflow pkt) :: e)
  end.

Definition tx_resumeDownstreamInPackets (t : UmTxEntity) : UmTxEntity * list umtx_effect :=
  resume_all (t <| holdingDownstreamInPackets_ := false |>) (sduHoldingQueue_ t).

(** [ownerIsEnb] is [getNodeTypeById(ownerNodeId_) == ENODEB]; [emptying] is the
    answer of [isEmptyingTxBuffer]. *)
Definition tx_rlcHandleD2DModeSwitch (t : UmTxEntity) (ownerIsEnb emptying oldConnection clearBuffer : bool)
    : UmTxEntity :=
  if oldConnection then
    if ownerIsEnb then t
    else if clearBuffer then clearQueue t
    else if bool_decide (sduQueue_ t = []) then t else t <| notifyEmptyBuffer_ := true |>
  else
    let t := t <| sno_ := 0 |> in
    if negb clearBuffer && emptying then t <| holdingDownstreamInPackets_ := true |> else t.

(** [LteRlcUm::handleUpperMessage], from the SDU on. *)
Definition handleUpperMessage (t : UmTxEntity) (pkt : RlcSdu) : UmTxEntity * list umtx_effect :=
  if holdingDownstreamInPackets_ t then (enqueHoldingPackets t pkt, [])
  else
    let (ok, t) := tx_enque t pkt in
    if ok then (t, [NotifyNewData pkt]) else (t, [DropOverflow pkt]).

(** ** UmRxEntity: reassembly *)

(** The SDU waiting for its missing portion, and the bytes of it received. *)
Abbreviation buffered_sdu := (option (RlcSdu * Z)).

Definition wrong_size : string := "UmRxEntity::reassemble(): failed reassembly, wrong size".
Definition bad_fi : string := "UmRxEntity::reassemble(): FI field was not valid".

(** A whole SDU: delivered, and what waited is dropped. *)
Definition whole_sdu (pkt : RlcSdu) (size : Z) : result (buffered_sdu * list RlcSdu) :=
  if negb (size =? lengthMainPacket pkt) then Throw wrong_size else Ok (None, [pkt]).

(** The first part of an SDU: it now waits. *)
Definition first_part (pkt : RlcSdu) (size : Z) : result (buffered_sdu * list RlcSdu) :=
  Ok (Some (pkt, size), []).

(** The last part: completes what waits if it is the same SDU and nothing between is
    missing. *)
Definition last_part (ignoreFragment : bool) (b : buffered_sdu) (pkt : RlcSdu) (size : Z)
    : result (buffered_sdu * list RlcSdu) :=
  match b with
  | Some (bpkt, bsize) =>
      if negb (snoMainPacket pkt =? snoMainPacket bpkt) || ignoreFragment then Ok (None, []) else
      let reassembledLength := uint32 (bsize + size) in
      if reassembledLength <? lengthMainPacket pkt then Ok (None, [])
      else if lengthMainPacket pkt <? reassembledLength then Throw wrong_size
      else Ok (None, [pkt])
  | None => Ok (None, [])
  end.

(** A middle part: added to what waits if it is the same SDU. *)
Definition mid_part (b : buffered_sdu) (pkt : RlcSdu) (size : Z)
    : result (buffered_sdu * list RlcSdu) :=
  match b with
  | Some (bpkt, bsize) =>
      if negb (snoMainPacket pkt =? snoMainPacket bpkt) then Ok (None, [])
      else Ok (Some (bpkt, bsize + size), [])
  | None => Ok (None, [])
  end.

(** One SDU of a PDU: [first]/[last_] tell its place, [fi] is the framing info. *)
Definition reassemble_sdu (first last_ : bool) (fi : Z) (ignoreFragment : bool) (b : buffered_sdu)
    (pkt : RlcSdu) (size : Z) : result (buffered_sdu * list RlcSdu) :=
  if first then
    if last_ then
      match fi with
      | 0 => whole_sdu pkt size
      | 1 => first_part pkt size
      | 2 => last_part ignoreFragment b pkt size
      | 3 => mid_part b pkt size
      | _ => Throw bad_fi
      end
    else
      match fi with
      | 0 | 1 => whole_sdu pkt size
      | 2 | 3 => last_part ignoreFragment b pkt size
      | _ => Throw bad_fi
      end
  else if last_ then
    match fi with
    | 0 | 2 => whole_sdu pkt size
    | 1 | 3 => first_part pkt size
    | _ => Throw bad_fi
    end
  else whole_sdu pkt size.

(** Effects of the receiver: a delivery to PDCP, [n] loss samples for SDUs or for
    PDUs. *)
Inductive umrx_effect :=
| Deliver (sdu : RlcSdu)
| SduLoss (n : Z)
| PduLoss (n : Z).

(** The reassembly part of the entity's state. *)
Record UmReassembly := {
  buffered_ : buffered_sdu;
  lastSnoDelivered_ : Z;
  lastPduReassembled_ : Z;
  resetFlag_ : bool
}.

#[export] Instance umreassembly_eta : Eta UmReassembly := fun r =>
  {| buffered_ := buffered_ r; lastSnoDelivered_ := lastSnoDelivered_ r;
     lastPduReassembled_ := lastPduReassembled_ r; resetFlag_ := resetFlag_ r |}.

Definition new_UmReassembly : UmReassembly :=
  {| buffered_ := None; lastSnoDelivered_ := 0; lastPduReassembled_ := 0; resetFlag_ := false |}.

(** Rounds of [while (sno > last + 1) ...; last++]. *)
Definition missing (sno last : Z) : Z :=
  if uint32 (last + 1) <? sno then sno - uint32 (last + 1) else 0.

Definition toPdcp (r : UmReassembly) (sdu : RlcSdu) : UmReassembly * list umrx_effect :=
  (r <| lastSnoDelivered_ := snoMainPacket sdu |>,
   [SduLoss (missing (snoMainPacket sdu) (lastSnoDelivered_ r)); Deliver sdu]).

Fixpoint toPdcp_all (r : UmReassembly) (sdus : list RlcSdu) : UmReassembly * list umrx_effect :=
  match sdus with
  | [] => (r, [])
  | s :: ss =>
      let (r, e1) := toPdcp r s in
      let (r, e2) := toPdcp_all r ss in
      (r, e1 ++ e2)
  end.

(** The loop over the SDUs of a PDU, from index [i]. *)
Fixpoint reassemble_loop (i numSdu fi : Z) (r : UmReassembly) (sdus : list (RlcSdu * Z))
    : result (UmReassembly * list umrx_effect) :=
  match sdus with
  | [] => Ok (r, [])
  | (pkt, size) :: rest =>
      let ignoreFragment := (i =? 0) && resetFlag_ r in
      let r := if ignoreFragment
               then r <| lastSnoDelivered_ := uint32 (snoMainPacket pkt - 1) |> <| resetFlag_ := false |>
               else r in
      let! (b, out) := reassemble_sdu (i =? 0) (i =? numSdu - 1) fi ignoreFragment (buffered_ r) pkt size in
      let (r, e1) := toPdcp_all (r <| buffered_ := b |>) out in
      let! (r, e2) := reassemble_loop (i + 1) numSdu fi r rest in
      Ok (r, e1 ++ e2)
  end.

Definition reassemble_pdu (r : UmReassembly) (pdu : UmPdu) : result (UmReassembly * list umrx_effect) :=
  let pduSno := pduSequenceNumber pdu in
  let r := if resetFlag_ r then r <| lastPduReassembled_ := uint32 (pduSno - 1) |> else r in
  let! (r, e) := reassemble_loop 0 (getNumSdu pdu) (framingInfo pdu) r (sduList pdu) in
  Ok (r <| lastPduReassembled_ := pduSno |>,
      e ++ [PduLoss (missing pduSno (lastPduReassembled_ r))]).
