(* ===== verification/RlcUmProps.v ===== *)
(** * RLC unacknowledged mode: what is sent arrives

    The segmentation of [UmTxEntity] and the reassembly of [UmRxEntity] fit
    together: without losses the receiver delivers exactly the SDUs that were
    queued, in order; with losses it delivers some of them, whole and in order, and
    never fails. *)

From S2P Require Import Prelude RlcUm.

(** ** Well-formed transmitters *)

Definition sdu_ok (s : RlcSdu) : Prop := 0 < lengthMainPacket s < 2 ^ 31.

(** The bytes of the head of the queue that are still to be sent. *)
Definition head_left (t : UmTxEntity) (s : RlcSdu) : Z :=
  match fragmentInfo t with Some (_, rem) => rem | None => lengthMainPacket s end.

Record tx_ok (t : UmTxEntity) : Prop := {
  tx_sdus : Forall sdu_ok (sduQueue_ t);
  tx_frag : match fragmentInfo t with
            | None => firstIsFragment_ t = false
            | Some (p, rem) =>
                firstIsFragment_ t = true /\ head (sduQueue_ t) = Some p /\
                0 < rem < lengthMainPacket p
            end
}.

Lemma new_tx_ok n : tx_ok (new_UmTxEntity n).
Proof. split; [constructor|done]. Qed.

Lemma tx_enque_ok t s : tx_ok t -> sdu_ok s -> tx_ok (tx_enque t s).2.
Proof.
  intros [Hs Hf] Hok. unfold tx_enque. destruct (_ || _); [|done]. split; simpl.
  - apply Forall_app. auto.
  - destruct (fragmentInfo t) as [[p rem]|]; [|done]. destruct Hf as (? & Hh & ?).
    destruct (sduQueue_ t); [done|]. auto.
Qed.

(** ** What one grant takes off the queue

    [cut left queue n l queue' left' endFrag]: with [left] bytes of its head still to
    be sent (all of them if [None]), [n] bytes of the queue are the portions [l],
    after which [queue'] remains, with [left'] bytes of its head; [endFrag] tells
    that the last portion is not the end of its SDU. *)
Inductive cut : option Z -> list RlcSdu -> Z -> list (RlcSdu * Z) -> list RlcSdu -> option Z -> bool -> Prop :=
| cut_empty n : cut None [] n [] [] None false
| cut_full left q n : n <= 0 -> cut left q n [] q left false
| cut_whole left s q n l q' left' e :
    0 < n -> default (lengthMainPacket s) left <= n ->
    cut None q (n - default (lengthMainPacket s) left) l q' left' e ->
    cut left (s :: q) n ((s, default (lengthMainPacket s) left) :: l) q' left' e
| cut_part left s q n :
    0 < n -> n < default (lengthMainPacket s) left ->
    cut left (s :: q) n [(s, n)] (s :: q) (Some (default (lengthMainPacket s) left - n)) true.

Definition left_of (frag : option (RlcSdu * Z)) : option Z := snd <$> frag.

Definition frag_ok (frag : option (RlcSdu * Z)) (queue : list RlcSdu) : Prop :=
  match frag with
  | None => True
  | Some (p, rem) => head queue = Some p /\ 0 < rem < lengthMainPacket p
  end.

Definition bytes (l : list (RlcSdu * Z)) : Z := foldr (fun x a => x.2 + a) 0 l.

Lemma sdu_int32 s : sdu_ok s -> int32 (lengthMainPacket s) = lengthMainPacket s.
Proof. intros [? ?]. apply swrap_small; [lia|]. unfold is_sint. lia. Qed.

(** The loop computes the cut. *)
Lemma fill_cut queue frag n len ql first sdus :
  Forall sdu_ok queue -> frag_ok frag queue ->
  exists f l, fill queue frag n len ql first sdus = Ok f /\
    cut (left_of frag) queue n l (f_queue f) (left_of (f_frag f)) (f_endFrag f) /\
    f_sdus f = sdus ++ l /\ frag_ok (f_frag f) (f_queue f) /\ f_len f = len + bytes l /\
    f_first f = (if bool_decide (l = []) then first else f_endFrag f).
Proof.
  intros Hq. revert frag n len ql first sdus.
  induction Hq as [|s queue Hs Hq IH]; intros frag n len ql first sdus Hf; cbn [fill].
  - eexists _, []. split; [done|]. simpl. destruct frag as [[p rem]|]; [by destruct Hf as [? _]|].
    split; [apply cut_empty|]. rewrite app_nil_r. split_and!; (done || lia).
  - destruct (Z.leb_spec n 0) as [Hn|Hn].
    { eexists _, []. split; [done|]. simpl. split; [by apply cut_full|]. rewrite app_nil_r.
      split_and!; (done || lia). }
    assert (Hlen : (let! sduLength := match frag with
        | Some (fpkt, size) => if sdu_ptr fpkt =? sdu_ptr s then Ok size else Throw "Packets are different"
        | None => Ok (int32 (lengthMainPacket s)) end in Ok sduLength) =
      Ok (default (lengthMainPacket s) (left_of frag)) /\
      0 < default (lengthMainPacket s) (left_of frag)).
    { destruct frag as [[p rem]|]; simpl in *.
      - destruct Hf as [[= ->] ?]. rewrite Z.eqb_refl. split; [done|lia].
      - rewrite sdu_int32 by done. destruct Hs. split; [done|lia]. }
    destruct Hlen as [Hlen Hpos]. set (d := default _ _) in *.
    destruct (match frag with Some _ => _ | None => _ end) as [d'| |]; simplify_eq/=.
    destruct (Z.leb_spec d n) as [Hd|Hd].
    + destruct (IH None (n - d) (len + d) (uint32 (ql - sdu_bytes s)) false (pushSdu sdus s d) I)
        as (f & l & -> & Hc & Hl & Hfr & Hlen & Hfi).
      exists f, ((s, d) :: l). split; [done|]. split; [by apply cut_whole|].
      split; [rewrite Hl; unfold pushSdu; by rewrite <- app_assoc|]. split; [done|].
      split; [rewrite Hlen; simpl; lia|].
      rewrite Hfi, (bool_decide_eq_false_2 ((s, d) :: l = [])) by done.
      case_bool_decide; [|done]. subst l. by inversion Hc.
    + assert (Hfrag : exists p, match frag with
          | Some (fpkt, size) => if size - n <? 0 then Throw "Fragmentation error" else Ok (Some (fpkt, size - n))
          | None => Ok (Some (s, d - n)) end = Ok (Some (p, d - n)) /\ p = s /\ d <= lengthMainPacket s).
      { unfold d in *. destruct frag as [[p rem]|]; simpl in *.
        - destruct Hf as [[= ->] ?]. rewrite (proj2 (Z.ltb_ge _ _)) by lia. exists p. split_and!; (done || lia).
        - exists s. split_and!; (done || lia). }
      destruct Hfrag as (p & -> & -> & Hle). cbn [rbind]. eexists _, [(s, n)]. split; [done|]. simpl.
      split; [by apply cut_part|]. split_and!; (done || lia).
Qed.

(** The SDUs finished by a cut, and the shape of its end. *)
Lemma cut_popped left q n l q' left' e :
  cut left q n l q' left' e ->
  exists popped, q = popped ++ q' /\
    (left' = left /\ q' = q /\ l = [] \/ left' <> None /\ e = true /\ l <> [] \/ left' = None /\ e = false).
Proof.
  induction 1 as [n|left q n Hn|left s q n l q' left' e Hn Hle Hc (popped & -> & IH)|left s q n Hn Hlt].
  - exists []. auto.
  - exists []. auto.
  - exists (s :: popped). split; [done|]. right.
    destruct IH as [(-> & _ & ->)|[(? & ? & _)|?]]; [right|by left|by right].
    split; [done|]. by inversion Hc.
  - exists []. split; [done|]. right. left. done.
Qed.

(** ** Reassembly of the portions *)

Definition delivered (e : list umrx_effect) : list RlcSdu :=
  omap (fun x => match x with Deliver s => Some s | _ => None end) e.

Lemma delivered_app e1 e2 : delivered (e1 ++ e2) = delivered e1 ++ delivered e2.
Proof. apply omap_app. Qed.

Lemma delivered_loss e n : delivered (e ++ [PduLoss n]) = delivered e.
Proof. rewrite delivered_app. simpl. apply app_nil_r. Qed.

Lemma toPdcp_all_spec r sdus :
  exists r' e, toPdcp_all r sdus = (r', e) /\ delivered e = sdus /\
    buffered_ r' = buffered_ r /\ resetFlag_ r' = resetFlag_ r.
Proof.
  revert r. induction sdus as [|s sdus IH]; intros r; [by exists r, []|].
  cbn [toPdcp_all toPdcp].
  destruct (IH (r <| lastSnoDelivered_ := snoMainPacket s |>)) as (r' & e & -> & He & Hb & Hf).
  eexists _, _. split; [done|]. simpl. by rewrite He.
Qed.

(** The buffered portion is exactly what was sent of the SDU at the head. *)
Definition waits (left : option Z) (q : list RlcSdu) (b : buffered_sdu) : Prop :=
  match left with
  | None => True
  | Some rem => exists p b', head q = Some p /\ b = Some (b', lengthMainPacket p - rem) /\
                  snoMainPacket b' = snoMainPacket p
  end.

(** The buffered portion, if any, belongs to the head and is no longer than what was
    sent of it, or to an SDU whose number is not in [q] any more. *)
Definition compatible (left : option Z) (q : list RlcSdu) (b : buffered_sdu) : Prop :=
  match b with
  | None => True
  | Some (b', sz) =>
      snoMainPacket b' ∉ map snoMainPacket q \/
      exists p rem, left = Some rem /\ head q = Some p /\ snoMainPacket b' = snoMainPacket p /\
        0 <= sz <= lengthMainPacket p - rem
  end.

Definition end_bit (fi : Z) (e : bool) : Prop := fi = (if e then 1 else 0) \/ fi = (if e then 3 else 2).

(** The portions after the first one. *)
Lemma reassemble_rest q n l q' left' e i num fi r :
  cut None q n l q' left' e -> Forall sdu_ok q -> end_bit fi e ->
  1 <= i -> i + vsize l = num ->
  exists r' eff, reassemble_loop i num fi r l = Ok (r', eff) /\ resetFlag_ r' = resetFlag_ r /\
    q = delivered eff ++ q' /\
    (l = [] /\ r' = r \/ left' = None /\ buffered_ r' = None \/
     exists s m, left' = Some m /\ head q' = Some s /\ buffered_ r' = Some (s, lengthMainPacket s - m) /\
       0 < m < lengthMainPacket s).
Proof.
  intros Hc. remember None as left eqn:El. revert El i r.
  induction Hc as [n|left q n Hn|left s q n l q' left' e Hn Hle Hc IH|left s q n Hn Hlt];
    intros El i r Hq Hfi Hi Hnum; cbn [reassemble_loop]; try subst left.
  - exists r, []. split_and!; auto.
  - exists r, []. split_and!; auto.
  - apply Forall_cons in Hq as [Hs Hq]. simpl in Hnum.
    change (default (lengthMainPacket s) None) with (lengthMainPacket s) in *.
    rewrite (proj2 (Z.eqb_neq i 0)) by lia. cbn [andb].
    assert (Hw : reassemble_sdu false (i =? num - 1) fi false (buffered_ r) s (lengthMainPacket s) =
                 Ok (None, [s])).
    { unfold reassemble_sdu, whole_sdu. rewrite Z.eqb_refl. cbn [negb].
      destruct (Z.eqb_spec i (num - 1)); [|done].
      assert (l = []) as -> by (destruct l; [done|simpl in Hnum; lia]).
      assert (e = false) as -> by (by inversion Hc). destruct Hfi as [->| ->]; done. }
    rewrite Hw. cbn [rbind].
    destruct (toPdcp_all_spec (r <| buffered_ := None |>) [s]) as (r1 & e1 & -> & He1 & Hb1 & Hf1).
    destruct (IH eq_refl (i + 1) r1) as (r2 & e2 & -> & Hf2 & Hq2 & Hor); [done|done|lia|simpl in *; lia|].
    cbn [rbind]. exists r2, (e1 ++ e2). split; [done|]. split; [by rewrite Hf2, Hf1|].
    split; [by rewrite delivered_app, He1, <- app_assoc, <- Hq2|].
    destruct Hor as [[-> ->]|Hor]; [|by right]. right. left. split; [by inversion Hc|done].
  - apply Forall_cons in Hq as [Hs Hq]. simpl in Hnum, Hlt.
    rewrite (proj2 (Z.eqb_neq i 0)), (proj2 (Z.eqb_eq i (num - 1))) by lia. cbn [andb].
    assert (Hw : reassemble_sdu false true fi false (buffered_ r) s n = Ok (Some (s, n), [])).
    { destruct Hfi as [->| ->]; done. }
    rewrite Hw. simpl. eexists _, []. split; [done|]. split; [done|]. split; [done|].
    right. right. exists s, (lengthMainPacket s - n). split_and!; try done; [|lia..].
    simpl. do 2 f_equal. lia.
Qed.

Lemma framing_bits left e :
  framing left e = (if left then if e then 3 else 2 else if e then 1 else 0).
Proof. by destruct left, e. Qed.

(** A last portion completes its SDU only if all of it is there, and never fails. *)
Lemma last_part_compatible left q b s rem :
  head q = Some s -> left = Some rem -> 0 < rem < lengthMainPacket s -> sdu_ok s ->
  compatible left q b ->
  exists out, last_part false b s rem = Ok (None, out) /\ (out = [] \/ out = [s]) /\
    (waits left q b -> out = [s]).
Proof.
  intros Hh -> Hrem Hs Hc. unfold last_part. destruct b as [[b' sz]|].
  2:{ exists []. split; [done|]. split; [by left|]. intros (p & b' & _ & E & _). done. }
  rewrite orb_false_r. destruct (Z.eqb_spec (snoMainPacket s) (snoMainPacket b')) as [E|E]; cbn [negb].
  - destruct Hc as [Hn|(p & rem' & [= <-] & Hp & Hsno & Hsz)].
    { exfalso. apply Hn. rewrite <- E. destruct q; [done|]. injection Hh as ->. simpl. apply elem_of_cons. by left. }
    assert (p = s) as -> by congruence.
    assert (Hr : uint32 (sz + rem) = sz + rem).
    { apply wrap_small. unfold is_uint. destruct Hs. lia. }
    rewrite Hr. destruct (Z.ltb_spec (sz + rem) (lengthMainPacket s)).
    + exists []. split; [done|]. split; [by left|]. intros (p & b2 & Hp' & [= -> ->] & _).
      assert (p = s) as -> by congruence. lia.
    + rewrite (proj2 (Z.ltb_ge _ _)) by lia. exists [s]. split; [done|]. split; [by right|done].
  - exists []. split; [done|]. split; [by left|]. intros (p & b2 & Hp' & [= -> ->] & Hsno).
    assert (p = s) as -> by congruence. congruence.
Qed.

(** What the receiver holds after the portions of a cut. *)
Definition holds (left : option Z) (q : list RlcSdu) (b : buffered_sdu) : Prop :=
  b = None \/ exists s m b' sz, left = Some m /\ head q = Some s /\ b = Some (b', sz) /\
    snoMainPacket b' = snoMainPacket s /\ 0 <= sz <= lengthMainPacket s - m.

Lemma holds_compatible left q b : holds left q b -> compatible left q b.
Proof.
  intros [->|(s & m & b' & sz & ? & ? & -> & ? & ?)]; [done|]. right. by exists s, m.
Qed.

Lemma reassemble_cut left q n l q' left' e r :
  cut left q n l q' left' e -> Forall sdu_ok q ->
  match left with Some rem => exists p, head q = Some p /\ 0 < rem < lengthMainPacket p | None => True end ->
  l <> [] -> resetFlag_ r = false -> compatible left q (buffered_ r) ->
  exists r' eff popped,
    reassemble_loop 0 (vsize l) (framing (bool_decide (left <> None)) e) r l = Ok (r', eff) /\
    resetFlag_ r' = false /\ q = popped ++ q' /\
    (delivered eff = popped \/ exists s, popped = s :: delivered eff) /\
    (waits left q (buffered_ r) -> delivered eff = popped /\ waits left' q' (buffered_ r')) /\
    holds left' q' (buffered_ r').
Proof.
  intros Hc Hq Hleft Hl Hreset Hcomp.
  inversion Hc as [| |left0 s q0 n0 l0 q'0 left'0 e0 Hn Hle Hc0|left0 s q0 n0 Hn Hlt]; subst; try done.
  - (* the first portion ends its SDU *)
    set (d := default (lengthMainPacket s) left) in *. apply Forall_cons in Hq as [Hs Hq].
    set (fi := framing _ _).
    assert (Hfi : end_bit fi e).
    { unfold fi. rewrite framing_bits. unfold end_bit. destruct (bool_decide _), e; auto. }
    assert (Hfirst : exists out,
      reassemble_sdu true (0 =? vsize ((s, d) :: l0) - 1) fi false (buffered_ r) s d = Ok (None, out) /\
      (out = [] \/ out = [s]) /\ (waits left (s :: q0) (buffered_ r) -> out = [s])).
    { destruct left as [rem|].
      - destruct Hleft as (p & [= <-] & Hrem).
        destruct (last_part_compatible (Some rem) (s :: q0) (buffered_ r) s rem)
          as (out & Hout & Hor & Hw); [done..|].
        exists out. split; [|done]. rewrite <- Hout. unfold fi. rewrite framing_bits. cbn [bool_decide].
        unfold reassemble_sdu. rewrite bool_decide_eq_true_2 by done.
        destruct (Z.eqb_spec 0 (vsize ((s, d) :: l0) - 1)); [|by destruct e].
        assert (e = false) as ->; [|done]. destruct l0; [by inversion Hc0|simpl in *; lia].
      - exists [s]. split; [|auto]. unfold fi. rewrite framing_bits.
        rewrite bool_decide_eq_false_2 by auto.
        assert (Hw : whole_sdu s d = Ok (None, [s])).
        { unfold whole_sdu, d. simpl. by rewrite Z.eqb_refl. }
        unfold reassemble_sdu. destruct (Z.eqb_spec 0 (vsize ((s, d) :: l0) - 1)); [|by destruct e].
        assert (e = false) as ->; [|done]. destruct l0; [by inversion Hc0|simpl in *; lia]. }
    destruct Hfirst as (out & Hfirst & Hout & Hwait). cbn [reassemble_loop].
    rewrite Hreset, andb_false_r. rewrite Z.eqb_refl. rewrite Hfirst. cbn [rbind].
    destruct (toPdcp_all_spec (r <| buffered_ := None |>) out) as (r1 & e1 & -> & He1 & Hb1 & Hf1).
    change (0 + 1) with 1.
    destruct (reassemble_rest q0 (n - d) l0 q' left' e 1 (vsize ((s, d) :: l0)) fi r1)
      as (r2 & e2 & -> & Hf2 & Hq2 & Hor); [done..|lia|simpl; lia|].
    cbn [rbind]. exists r2, (e1 ++ e2), (s :: delivered e2). split; [done|].
    split; [by rewrite Hf2, Hf1|]. split; [simpl; by rewrite <- Hq2|].
    rewrite delivered_app, He1.
    assert (Hb2 : holds left' q' (buffered_ r2) /\ waits left' q' (buffered_ r2)).
    { destruct Hor as [[-> ->]|[[-> ->]|(p & m & -> & Hh & -> & Hm)]].
      - assert (left' = None) as -> by (by inversion Hc0). rewrite Hb1. split; [by left|done].
      - split; [by left|done].
      - split; [|by exists p, p]. right. exists p, m, p, (lengthMainPacket p - m). split_and!; (done || lia). }
    destruct Hb2 as [Hh2 Hw2]. split; [|split; [|done]].
    + destruct Hout as [->| ->]; [right; by exists s|by left].
    + intros Hw. rewrite (Hwait Hw). done.
  - (* the only portion is part of an SDU *)
    set (d := default (lengthMainPacket s) left) in *. apply Forall_cons in Hq as [Hs Hq].
    cbn [reassemble_loop length]. rewrite Hreset, andb_false_r, framing_bits.
    change (Z.of_nat 1 - 1) with 0. rewrite Z.eqb_refl.
    destruct left as [rem|].
    + rewrite bool_decide_eq_true_2 by done. unfold reassemble_sdu, mid_part.
      destruct Hleft as (p & [= <-] & Hrem). simpl in d. subst d.
      destruct (buffered_ r) as [[b' sz]|] eqn:Eb.
      * destruct (Z.eqb_spec (snoMainPacket s) (snoMainPacket b')) as [E|E]; cbn [negb rbind toPdcp_all].
        -- destruct Hcomp as [Hno|(p & rem' & [= <-] & [= <-] & Hsno & Hsz)].
           { exfalso. apply Hno. rewrite <- E. simpl. apply elem_of_cons. by left. }
           eexists _, _, []. split; [done|]. split; [done|]. split; [done|]. split; [by left|].
           cbn [buffered_ set]. split.
           ++ intros (p & b2 & [= <-] & [= -> ->] & _). split; [done|]. exists s, b2.
              split; [done|]. split; [|done]. do 2 f_equal. lia.
           ++ right. exists s, (rem - n), b', (sz + n). split_and!; (done || lia).
        -- eexists _, _, []. split; [done|]. split; [done|]. split; [done|]. split; [by left|].
           split; [|by left]. intros (p & b2 & [= <-] & [= -> ->] & Hsno). congruence.
      * cbn [rbind toPdcp_all]. eexists _, _, []. split; [done|]. split; [done|]. split; [done|].
        split; [by left|]. split; [|by left]. intros (p & b2 & _ & [=] & _).
    + rewrite bool_decide_eq_false_2 by auto. cbn [reassemble_sdu first_part rbind toPdcp_all].
      simpl in d. subst d. eexists _, _, []. split; [done|]. split; [done|]. split; [done|].
      split; [by left|]. cbn [buffered_ set]. split.
      * intros _. split; [done|]. exists s, s. split; [done|]. split; [|done]. do 2 f_equal. lia.
      * right. exists s, (lengthMainPacket s - n), s, n. split_and!; (done || lia).
Qed.

(** ** One grant *)

Lemma cut_bytes left q n l q' left' e :
  cut left q n l q' left' e -> Forall sdu_ok q ->
  match left with Some rem => 0 < rem | None => True end -> 0 <= bytes l /\ (l <> [] -> 0 < bytes l).
Proof.
  induction 1 as [n|left q n Hn|left s q n l q' left' e Hn Hle Hc IH|left s q n Hn Hlt]; intros Hq Hleft;
    simpl; try (split; [lia|done]).
  - apply Forall_cons in Hq as [[Hs _] Hq]. destruct (IH Hq I) as [? _].
    assert (0 < default (lengthMainPacket s) left) by (by destruct left). split; lia.
  - split; lia.
Qed.

Definition pdu_of (effs : list umtx_effect) : option UmPdu :=
  match effs with SendPdu pdu :: _ => Some pdu | _ => None end.

Lemma tx_left_ok t :
  tx_ok t -> frag_ok (fragmentInfo t) (sduQueue_ t) /\
    firstIsFragment_ t = bool_decide (left_of (fragmentInfo t) <> None) /\
    match left_of (fragmentInfo t) with
    | Some rem => exists p, head (sduQueue_ t) = Some p /\ 0 < rem < lengthMainPacket p
    | None => True
    end.
Proof.
  intros [_ Hf]. destruct (fragmentInfo t) as [[p rem]|]; simpl in *.
  - destruct Hf as (-> & Hh & ?). split; [done|]. split; [done|by exists p].
  - done.
Qed.

(** A grant never fails; it sends nothing exactly when it takes nothing off the
    queue, and otherwise a PDU with the portions it took and the framing info that
    describes their ends. *)
Lemma rlcPduMake_spec t n :
  tx_ok t ->
  exists t' effs l e, rlcPduMake t n = Ok (t', effs) /\ tx_ok t' /\
    cut (left_of (fragmentInfo t)) (sduQueue_ t) (int32 (n - RLC_HEADER_UM)) l
        (sduQueue_ t') (left_of (fragmentInfo t')) e /\
    sno_ t' = (if bool_decide (l = []) then sno_ t else uint32 (sno_ t + 1)) /\
    pdu_of effs =
      if bool_decide (l = []) then None
      else Some {| pduSequenceNumber := sno_ t;
                   framingInfo := framing (bool_decide (left_of (fragmentInfo t) <> None)) e;
                   sduList := l; chunkBytes := RLC_HEADER_UM + bytes l |}.
Proof.
  intros Ht. destruct (tx_left_ok t Ht) as (Hfrag & Hfirst & Hleft).
  destruct (fill_cut (sduQueue_ t) (fragmentInfo t) (int32 (n - RLC_HEADER_UM)) 0 (queueLength_ t)
    (firstIsFragment_ t) [] (tx_sdus _ Ht) Hfrag) as (f & l & Hfill & Hc & Hl & Hf & Hlen & Hfi).
  unfold rlcPduMake. rewrite Hfill. cbn [rbind]. rewrite Hlen, Z.add_0_l.
  destruct (cut_popped _ _ _ _ _ _ _ Hc) as (popped & Hq & Hor).
  destruct (cut_bytes _ _ _ _ _ _ _ Hc (tx_sdus _ Ht)) as [_ Hpos].
  { destruct (left_of (fragmentInfo t)); [by destruct Hleft as (? & _ & ? & _)|done]. }
  assert (Hok : forall t', sduQueue_ t' = f_queue f -> fragmentInfo t' = f_frag f ->
    firstIsFragment_ t' = f_first f -> tx_ok t').
  { intros t' E1 E2 E3. split; rewrite ?E1, ?E2, ?E3.
    - pose proof (tx_sdus _ Ht) as Hs. rewrite Hq in Hs. by apply Forall_app in Hs as [_ Hs].
    - rewrite Hfi. destruct (f_frag f) as [[p rem]|]; simpl in *.
      + split; [|done]. case_bool_decide as El.
        * destruct Hor as [(El' & _ & _)|[(_ & _ & ?)|[? _]]]; [|done|done].
          rewrite Hfirst, <- El'. by rewrite bool_decide_eq_true_2.
        * by destruct Hor as [(_ & _ & ?)|[(_ & ? & _)|[? _]]].
      + case_bool_decide as El.
        * destruct Hor as [(El' & _ & _)|[(? & _ & _)|[_ _]]]; [|done|].
          -- rewrite Hfirst, <- El'. by rewrite bool_decide_eq_false_2 by auto.
          -- subst l. rewrite Hfirst. apply bool_decide_eq_false_2. intros Hn. apply Hn.
             inversion Hc; congruence.
        * by destruct Hor as [(_ & _ & ?)|[(? & _ & _)|[_ ?]]]. }
  rewrite Hl. cbn [app]. destruct (decide (l = [])) as [->|Hne].
  - cbn [bytes foldr]. change (0 =? 0) with true. cbn iota beta.
    destruct (_ && _); eexists _, _, [], _; (split; [reflexivity|]);
      (split; [by apply Hok|]); (split; [exact Hc|]); done.
  - rewrite (proj2 (Z.eqb_neq (bytes l) 0)) by (specialize (Hpos Hne); lia).
    rewrite Hfirst.
    destruct (_ && _); eexists _, _, l, _; (split; [reflexivity|]);
      (split; [by apply Hok|]); (split; [exact Hc|]);
      by rewrite (bool_decide_eq_false_2 (l = [])) by done.
Qed.

Lemma cut_fits left q n l q' left' e :
  cut left q n l q' left' e -> 0 <= n ->
  bytes l <= n /\ (bytes l < n -> q' = []) /\ (l = [] -> n <= 0 \/ q = []).
Proof.
  induction 1 as [n|left q n Hn|left s q n l q' left' e Hn Hle Hc IH|left s q n Hn Hlt]; intros H0; simpl.
  - split_and!; auto; lia.
  - split_and!; auto; lia.
  - destruct IH as (? & ? & _); [lia|]. split; [lia|]. split; [|done]. intros. apply H1. lia.
  - split; [lia|]. split; [lia|done].
Qed.

(** ** A transmitter and its receiver *)

(** A new SDU from PDCP, or a grant of [n] bytes whose PDU is received or [lost]. *)
Inductive um_event := EvSdu (s : RlcSdu) | EvGrant (n : Z) (lost : bool).

(** The two entities, the SDUs accepted into the queue so far, and those delivered. *)
Record um_link := {
  link_tx : UmTxEntity;
  link_rx : UmReassembly;
  accepted : list RlcSdu;
  received : list RlcSdu
}.

Definition new_link (queueSize : Z) : um_link :=
  {| link_tx := new_UmTxEntity queueSize; link_rx := new_UmReassembly; accepted := []; received := [] |}.

Definition um_step (st : um_link) (ev : um_event) : result um_link :=
  match ev with
  | EvSdu s =>
      let (ok, t) := tx_enque (link_tx st) s in
      Ok {| link_tx := t; link_rx := link_rx st;
            accepted := if ok then accepted st ++ [s] else accepted st; received := received st |}
  | EvGrant n lost =>
      let! (t, effs) := rlcPduMake (link_tx st) n in
      match pdu_of effs with
      | Some pdu =>
          if lost : bool
          then Ok {| link_tx := t; link_rx := link_rx st; accepted := accepted st; received := received st |}
          else
            let! (r, e) := reassemble_pdu (link_rx st) pdu in
            Ok {| link_tx := t; link_rx := r; accepted := accepted st;
                  received := received st ++ delivered e |}
      | None => Ok {| link_tx := t; link_rx := link_rx st; accepted := accepted st; received := received st |}
      end
  end.

Fixpoint um_run (st : um_link) (evs : list um_event) : result um_link :=
  match evs with
  | [] => Ok st
  | ev :: evs' => let! st := um_step st ev in um_run st evs'
  end.

Definition event_sdus (evs : list um_event) : list RlcSdu :=
  omap (fun ev => match ev with EvSdu s => Some s | EvGrant _ _ => None end) evs.
Definition sno_fresh (b : buffered_sdu) (snos : list Z) : Prop :=
  match b with Some (b', _) => snoMainPacket b' ∉ snos | None => True end.

(** Losing the PDU of a cut leaves the receiver compatible. *)
Lemma compatible_lost left q n l q' left' e b :
  cut left q n l q' left' e -> NoDup (map snoMainPacket q) -> compatible left q b ->
  compatible left' q' b.
Proof.
  intros Hc Hnd Hb. destruct b as [[b' sz]|]; [|done].
  assert (Hsub : forall x, x ∉ map snoMainPacket q -> x ∉ map snoMainPacket q').
  { destruct (cut_popped _ _ _ _ _ _ _ Hc) as (popped & -> & _). intros x Hx Hin. apply Hx.
    rewrite map_app. apply elem_of_app. by right. }
  destruct Hb as [Hb|(p & rem & -> & Hh & Hsno & Hsz)]; [left; by apply Hsub|].
  inversion Hc as [|left0 q0 n0 Hn|left0 s q0 n0 l0 q'0 left'0 e0 Hn Hle Hc0|left0 s q0 n0 Hn Hlt]; subst.
  - right. by exists p, rem.
  - left. injection Hh as ->. simpl in Hnd. apply NoDup_cons in Hnd as [Hp _].
    destruct (cut_popped _ _ _ _ _ _ _ Hc0) as (popped & -> & _). rewrite Hsno. intros Hin. apply Hp.
    rewrite map_app. apply elem_of_app. by right.
  - right. injection Hh as ->. exists p. simpl in *. eexists. split_and!; (done || lia).
Qed.

Record link_ok (st : um_link) : Prop := {
  lo_tx : tx_ok (link_tx st);
  lo_reset : resetFlag_ (link_rx st) = false
}.

(** A received PDU, for the whole entity. *)
Lemma reassemble_pdu_cut t n l q' left' e r sno cb :
  tx_ok t -> cut (left_of (fragmentInfo t)) (sduQueue_ t) n l q' left' e -> l <> [] ->
  resetFlag_ r = false -> compatible (left_of (fragmentInfo t)) (sduQueue_ t) (buffered_ r) ->
  exists r' eff popped,
    reassemble_pdu r {| pduSequenceNumber := sno;
                        framingInfo := framing (bool_decide (left_of (fragmentInfo t) <> None)) e;
                        sduList := l; chunkBytes := cb |} = Ok (r', eff) /\
    resetFlag_ r' = false /\ sduQueue_ t = popped ++ q' /\
    (delivered eff = popped \/ exists s, popped = s :: delivered eff) /\
    (waits (left_of (fragmentInfo t)) (sduQueue_ t) (buffered_ r) ->
       delivered eff = popped /\ waits left' q' (buffered_ r')) /\
    holds left' q' (buffered_ r').
Proof.
  intros Ht Hc Hl Hr Hcomp. destruct (tx_left_ok t Ht) as (_ & _ & Hleft).
  destruct (reassemble_cut _ _ _ _ _ _ _ _ Hc (tx_sdus _ Ht) Hleft Hl Hr Hcomp)
    as (r' & eff & popped & Hrun & Hreset & Hq & Hd & Hw & Hh).
  unfold reassemble_pdu, getNumSdu. cbn [framingInfo sduList pduSequenceNumber]. rewrite Hr, Hrun.
  cbn [rbind]. eexists _, _, popped. split; [done|]. by rewrite delivered_loss.
Qed.

(** *** No loss *)

Definition in_step (st : um_link) : Prop :=
  link_ok st /\ accepted st = received st ++ sduQueue_ (link_tx st) /\
  waits (left_of (fragmentInfo (link_tx st))) (sduQueue_ (link_tx st)) (buffered_ (link_rx st)) /\
  holds (left_of (fragmentInfo (link_tx st))) (sduQueue_ (link_tx st)) (buffered_ (link_rx st)).

Lemma tx_enque_cases t s :
  tx_enque t s = (false, t) \/
  exists t', tx_enque t s = (true, t') /\ sduQueue_ t' = sduQueue_ t ++ [s] /\
    fragmentInfo t' = fragmentInfo t.
Proof. unfold tx_enque. destruct (_ || _); [right|by left]. eexists. split; [done|done]. Qed.

Lemma head_app {A} (q : list A) x p : head q = Some p -> head (q ++ [x]) = Some p.
Proof. by destruct q. Qed.

Definition lossless (ev : um_event) : Prop :=
  match ev with EvSdu s => sdu_ok s | EvGrant _ lost => lost = false end.

(** With all SDU numbers distinct, losses or not. *)
Definition lossy_inv (future : list Z) (st : um_link) : Prop :=
  link_ok st /\
  (exists popped, accepted st = popped ++ sduQueue_ (link_tx st) /\ received st `sublist_of` popped) /\
  compatible (left_of (fragmentInfo (link_tx st))) (sduQueue_ (link_tx st)) (buffered_ (link_rx st)) /\
  sno_fresh (buffered_ (link_rx st)) future /\
  NoDup (map snoMainPacket (sduQueue_ (link_tx st)) ++ future).

Lemma holds_fresh left q b future :
  holds left q b -> NoDup (map snoMainPacket q ++ future) -> sno_fresh b future.
Proof.
  intros [->|(s & m & b' & sz & _ & Hh & -> & Hsno & _)] Hnd; [done|]. simpl. rewrite Hsno.
  apply NoDup_app in Hnd as (_ & Hnd & _). apply Hnd. destruct q; [done|]. injection Hh as ->.
  apply elem_of_cons. by left.
Qed.

Lemma lossy_step future st ev :
  lossy_inv (match ev with EvSdu s => snoMainPacket s :: future | _ => future end) st ->
  match ev with EvSdu s => sdu_ok s | _ => True end ->
  exists st', um_step st ev = Ok st' /\ lossy_inv future st'.
Proof.
  intros ([Ht Hr] & (popped & Hacc & Hsub) & Hcomp & Hfresh & Hnd) Hev.
  destruct ev as [s|n lost]; simpl.
  - pose proof (tx_enque_ok _ s Ht Hev) as Ht'.
    apply NoDup_app in Hnd as (Hq & Hdis & [Hs Hfut]%NoDup_cons).
    assert (Hf : sno_fresh (buffered_ (link_rx st)) future).
    { destruct (buffered_ (link_rx st)) as [[b' sz]|]; [|done]. simpl in *.
      rewrite not_elem_of_cons in Hfresh. tauto. }
    destruct (tx_enque_cases (link_tx st) s) as [E|(t' & E & Eq & Ef)]; rewrite E in *.
    + eexists. split; [done|]. split; [done|]. split; [by exists popped|]. simpl. split; [done|].
      split; [done|]. apply NoDup_app. split; [done|]. split; [|done].
      intros x Hx Hin. apply (Hdis x Hx). apply elem_of_cons. by right.
    + eexists. split; [done|]. split; [done|]. simpl.
      split; [exists popped; rewrite Eq, Hacc; by rewrite <- app_assoc|]. rewrite Eq, Ef.
      split; [|split; [done|]].
      * destruct (buffered_ (link_rx st)) as [[b' sz]|]; [|done]. simpl in *.
        rewrite not_elem_of_cons in Hfresh. destruct Hcomp as [Hno|(p & rem & El & Hh & ?)].
        -- left. rewrite map_app, not_elem_of_app. simpl. split; [done|].
           rewrite list_elem_of_singleton. tauto.
        -- right. exists p, rem. split; [done|]. split; [by apply head_app|done].
      * rewrite map_app, <- app_assoc. simpl. apply NoDup_app. split; [done|]. split; [done|].
        by apply NoDup_cons.
  - destruct (rlcPduMake_spec (link_tx st) n Ht)
      as (t' & effs & l & e & -> & Ht' & Hc & _ & Hpdu). cbn [rbind]. rewrite Hpdu.
    pose proof (cut_popped _ _ _ _ _ _ _ Hc) as (pq & Hq & _).
    pose proof Hnd as Hnd0. rewrite Hq, map_app, <- app_assoc in Hnd. apply NoDup_app in Hnd as (_ & _ & Hnd).
    assert (Hlost : compatible (left_of (fragmentInfo t')) (sduQueue_ t') (buffered_ (link_rx st))).
    { eapply compatible_lost; [exact Hc| |exact Hcomp]. by apply NoDup_app in Hnd0 as (? & _). }
    assert (Hkeep : lossy_inv future {| link_tx := t'; link_rx := link_rx st; accepted := accepted st;
                                        received := received st |}).
    { split; [done|]. split; [|done]. exists (popped ++ pq). simpl.
      rewrite Hacc, Hq, <- app_assoc. split; [done|]. by apply sublist_inserts_r. }
    case_bool_decide as El; [by eexists|]. destruct lost; [by eexists|].
    destruct (reassemble_pdu_cut _ _ _ _ _ _ (link_rx st) (sno_ (link_tx st)) (RLC_HEADER_UM + bytes l)
      Ht Hc El Hr Hcomp) as (r' & eff & pp & -> & Hreset & Hpp & Hd & _ & Hh).
    cbn [rbind]. eexists. split; [done|].
    assert (pp = pq) as -> by (rewrite Hq in Hpp; by apply app_inv_tail in Hpp).
    split; [done|]. simpl. split; [|split; [by apply holds_compatible|split; [by eapply holds_fresh|done]]].
    exists (popped ++ pq). rewrite Hacc, Hq, <- app_assoc. split; [done|].
    apply sublist_app; [done|]. destruct Hd as [->|[s' ->]]; [done|by apply sublist_cons].
Qed.

Lemma lossless_step st ev :
  in_step st -> lossless ev -> exists st', um_step st ev = Ok st' /\ in_step st'.
Proof.
  intros ([Ht Hr] & Hacc & Hw & Hh) Hev. destruct ev as [s|n lost]; simpl in Hev |- *.
  - pose proof (tx_enque_ok _ s Ht Hev) as Ht'.
    destruct (tx_enque_cases (link_tx st) s) as [E|(t' & E & Eq & Ef)]; rewrite E in *; [by eexists|].
    eexists. split; [done|]. split; [done|]. simpl. rewrite Eq, Ef, Hacc.
    split; [by rewrite <- app_assoc|]. split.
    + destruct (left_of (fragmentInfo (link_tx st))) as [rem|]; [|done].
      destruct Hw as (p & b' & Hp & ?). exists p, b'. split; [by apply head_app|done].
    + destruct Hh as [->|(p & m & b' & sz & ? & Hp & ?)]; [by left|]. right. exists p, m, b', sz.
      split; [done|]. split; [by apply head_app|done].
  - subst lost. destruct (rlcPduMake_spec (link_tx st) n Ht)
      as (t' & effs & l & e & -> & Ht' & Hc & _ & Hpdu). cbn [rbind]. rewrite Hpdu.
    case_bool_decide as El.
    + eexists. split; [done|]. destruct (cut_popped _ _ _ _ _ _ _ Hc) as (pq & Hq & Hor).
      subst l. assert (left_of (fragmentInfo t') = left_of (fragmentInfo (link_tx st)) /\
        sduQueue_ t' = sduQueue_ (link_tx st)) as [El Eq] by (inversion Hc; split; congruence).
      split; [done|]. simpl. by rewrite El, Eq.
    + destruct (reassemble_pdu_cut _ _ _ _ _ _ (link_rx st) (sno_ (link_tx st)) (RLC_HEADER_UM + bytes l)
        Ht Hc El Hr (holds_compatible _ _ _ Hh)) as (r' & eff & pp & -> & Hreset & Hpp & _ & Hd & Hh').
      destruct (Hd Hw) as [E Hw']. cbn [rbind]. eexists. split; [done|]. split; [done|]. simpl.
      rewrite E, Hacc, Hpp, <- app_assoc. done.
Qed.

(** Every lossy run ends well. *)
Lemma um_lossy_run (queueSize : Z) (evs : list um_event) :
  Forall sdu_ok (event_sdus evs) -> NoDup (map snoMainPacket (event_sdus evs)) ->
  exists st popped, um_run (new_link queueSize) evs = Ok st /\
    accepted st = popped ++ sduQueue_ (link_tx st) /\ received st `sublist_of` popped.
Proof.
  intros Hok Hnd.
  assert (H : forall st, lossy_inv (map snoMainPacket (event_sdus evs)) st ->
    exists st', um_run st evs = Ok st' /\ lossy_inv [] st').
  { clear Hnd. revert Hok. induction evs as [|ev evs IH]; intros Hok st Hst; cbn [um_run]; [by eexists|].
    destruct (lossy_step (map snoMainPacket (event_sdus evs)) st ev) as (st1 & -> & Hst1).
    - by destruct ev.
    - destruct ev; [|done]. by apply Forall_cons in Hok as [? _].
    - cbn [rbind]. apply IH; [|done]. destruct ev; [|done]. by apply Forall_cons in Hok as [_ ?]. }
  destruct (H (new_link queueSize)) as (st & Hrun & _ & (popped & ? & ?) & _).
  - split; [split; [apply new_tx_ok|done]|]. split; [by exists []|]. done.
  - by exists st, popped.
Qed.

(** ** Properties *)

(** C26. Segmentation and reassembly are inverse to each other: whatever SDUs come
    from PDCP and whatever sizes the MAC grants, as long as every PDU arrives, in
    order, neither side fails and the SDUs delivered so far, followed by those still
    in the queue, are exactly the SDUs accepted into the queue, in their order. *)
Theorem um_lossless_delivery (queueSize : Z) (evs : list um_event) :
  Forall lossless evs ->
  exists st, um_run (new_link queueSize) evs = Ok st /\
    accepted st = received st ++ sduQueue_ (link_tx st).
Proof.
  intros Hev.
  assert (H : forall st, in_step st -> exists st', um_run st evs = Ok st' /\ in_step st').
  { induction Hev as [|ev evs Hev Hevs IH]; intros st Hst; simpl; [by eexists|].
    destruct (lossless_step st ev Hst Hev) as (st1 & -> & Hst1). cbn [rbind]. by apply IH. }
  destruct (H (new_link queueSize)) as (st & Hrun & _ & Hacc & _).
  - split; [split; [apply new_tx_ok|done]|]. split; [done|]. split; [done|by left].
  - by exists st.
Qed.

(** Losing PDUs loses SDUs, never corrupts them: for SDUs with distinct numbers,
    whatever is granted and whichever PDUs are lost, the receiver never fails, and
    what it delivers is a subsequence of the SDUs taken off the queue: no SDU is
    delivered twice, out of order or before all of it was sent. *)
Theorem um_lossy_delivery (queueSize : Z) (evs : list um_event) :
  Forall sdu_ok (event_sdus evs) -> NoDup (map snoMainPacket (event_sdus evs)) ->
  exists st popped, um_run (new_link queueSize) evs = Ok st /\
    accepted st = popped ++ sduQueue_ (link_tx st) /\ received st `sublist_of` popped.
Proof. apply um_lossy_run. Qed.

(** A grant is filled: [rlcPduMake] never fails on a well-formed entity, and
    the PDU it makes fits the grant, carries as many bytes as fit or as there are,
    and its framing info says whether it starts and ends inside an SDU; a grant not
    larger than the header, or an empty queue, sends no PDU and uses no sequence
    number. *)
Theorem grant_filled (t : UmTxEntity) (n : Z) :
  tx_ok t -> 0 <= n < 2 ^ 31 ->
  exists t' effs, rlcPduMake t n = Ok (t', effs) /\ tx_ok t' /\
    match pdu_of effs with
    | None => sno_ t' = sno_ t /\ sduQueue_ t' = sduQueue_ t /\
              (n <= RLC_HEADER_UM \/ sduQueue_ t = [])
    | Some pdu =>
        pduSequenceNumber pdu = sno_ t /\
        chunkBytes pdu = RLC_HEADER_UM + bytes (sduList pdu) /\ chunkBytes pdu <= n /\
        (chunkBytes pdu < n -> sduQueue_ t' = []) /\
        (Z.testbit (framingInfo pdu) 1 = true <-> fragmentInfo t <> None) /\
        (Z.testbit (framingInfo pdu) 0 = true <-> fragmentInfo t' <> None)
    end.
Proof.
  intros Ht Hn. destruct (rlcPduMake_spec t n Ht) as (t' & effs & l & e & Hrun & Ht' & Hc & Hsno & Hpdu).
  exists t', effs. split; [done|]. split; [done|]. rewrite Hpdu.
  assert (Hi : int32 (n - RLC_HEADER_UM) = n - RLC_HEADER_UM).
  { apply swrap_small; [lia|]. unfold is_sint, RLC_HEADER_UM. lia. }
  rewrite Hi in Hc. pose proof (cut_popped _ _ _ _ _ _ _ Hc) as (pq & _ & Hor).
  case_bool_decide as El.
  - subst l. split; [done|]. split; [by inversion Hc|].
    destruct (Z_le_gt_dec n RLC_HEADER_UM); [by left|right].
    destruct (cut_fits _ _ _ _ _ _ _ Hc) as (_ & _ & Hnil); [lia|].
    destruct (Hnil eq_refl); [lia|done].
  - assert (0 <= n - RLC_HEADER_UM).
    { destruct (Z_le_gt_dec 0 (n - RLC_HEADER_UM)); [done|]. exfalso. apply El. inversion Hc; (done || lia). }
    destruct (cut_fits _ _ _ _ _ _ _ Hc) as (Hle & Hfull & _); [done|].
    cbn [pduSequenceNumber chunkBytes framingInfo sduList]. split; [done|]. split; [done|].
    split; [lia|]. split; [intros; apply Hfull; lia|]. rewrite framing_bits.
    assert (Hleft : left_of (fragmentInfo t) <> None <-> fragmentInfo t <> None)
      by (by destruct (fragmentInfo t)).
    assert (Hleft' : left_of (fragmentInfo t') <> None <-> fragmentInfo t' <> None)
      by (by destruct (fragmentInfo t')).
    split; [rewrite <- Hleft|rewrite <- Hleft'].
    + case_bool_decide; destruct e; simpl; split; congruence.
    + destruct Hor as [(_ & _ & ?)|[(Hn' & -> & _)|[Hn' ->]]]; [done| |]; case_bool_decide; simpl;
        split; intros; congruence.
Qed.

(** Concrete instances: three SDUs of 100, 40 and 60 bytes. *)
Definition demo_sdu (i len : Z) : RlcSdu :=
  {| sdu_ptr := i; snoMainPacket := i; lengthMainPacket := len; sdu_bytes := len + 1 |}.
Definition demo_events (l1 l2 l3 : bool) : list um_event :=
  [EvSdu (demo_sdu 0 100); EvSdu (demo_sdu 1 40); EvGrant 62 l1; EvGrant 2 false; EvSdu (demo_sdu 2 60);
   EvGrant 82 l2; EvGrant 1000 l3].

Lemma um_lossless_delivery_witness :
  exists st, um_run (new_link 0) (demo_events false false false) = Ok st /\
    accepted st = received st ++ sduQueue_ (link_tx st).
Proof.
  apply (um_lossless_delivery 0 (demo_events false false false)).
  repeat constructor.
Defined.

Lemma um_lossy_delivery_witness :
  exists st popped, um_run (new_link 0) (demo_events false true false) = Ok st /\
    accepted st = popped ++ sduQueue_ (link_tx st) /\ received st `sublist_of` popped.
Proof.
  apply (um_lossy_delivery 0 (demo_events false true false)).
  - repeat constructor.
  - apply (bool_decide_unpack _). vm_compute. exact I.
Defined.

Lemma grant_filled_witness :
  exists t' effs, rlcPduMake (tx_enque (new_UmTxEntity 0) (demo_sdu 0 100)).2 62 = Ok (t', effs) /\ tx_ok t' /\
    match pdu_of effs with
    | None => sno_ t' = 0 /\ sduQueue_ t' = [demo_sdu 0 100] /\ (62 <= RLC_HEADER_UM \/ [demo_sdu 0 100] = [])
    | Some pdu =>
        pduSequenceNumber pdu = 0 /\
        chunkBytes pdu = RLC_HEADER_UM + bytes (sduList pdu) /\ chunkBytes pdu <= 62 /\
        (chunkBytes pdu < 62 -> sduQueue_ t' = []) /\
        (Z.testbit (framingInfo pdu) 1 = true <-> None <> @None (RlcSdu * Z)) /\
        (Z.testbit (framingInfo pdu) 0 = true <-> fragmentInfo t' <> None)
    end.
Proof.
  refine (grant_filled (tx_enque (new_UmTxEntity 0) (demo_sdu 0 100)).2 62 _ _).
  - apply tx_enque_ok; [apply new_tx_ok|]. split; reflexivity.
  - split; [discriminate|reflexivity].
Defined.

(** What the demonstration delivers. *)
Example demo_delivers :
  (received <$> match um_run (new_link 0) (demo_events false false false) with Ok s => Some s | _ => None end)
    = Some [demo_sdu 0 100; demo_sdu 1 40; demo_sdu 2 60] /\
  (received <$> match um_run (new_link 0) (demo_events false true false) with Ok s => Some s | _ => None end)
    = Some [demo_sdu 2 60].
Proof. split; vm_compute; reflexivity. Qed.
