(* ===== verification/MacBase.v ===== *)
(** * The part of the MAC layer UE and eNB share

    The H-ARQ branches of [LteMacBase::fromPhy] and [LteMacBase::deleteQueues]
    (src/simulte/src/stack/mac/layer/LteMacBase.cc).  The buffers of D2D connections, which
    are another class, are not modelled; only they reset H-ARQ processes. *)

From S2P Require Import Prelude.
From S2P Require Import LteCommon.
From S2P Require Import LteBinder.
From S2P Require Import HarqTx.
From S2P Require Import HarqTxBuffer.
From S2P Require Import HarqRx.
#[local] Open Scope Z_scope.

Definition ENB_TX_HARQ_PROCESSES : Z := 8.
Definition ENB_RX_HARQ_PROCESSES : Z := 8.

(** H-ARQ feedback from [src]: a buffer must exist, unless a handover deleted it. *)
Definition fromPhy_harq (binder : LteBinder) (nodeId src : Z) (fb : LteHarqFeedback) (tx : gmap Z LteHarqBufferTx)
    : result (gmap Z LteHarqBufferTx) :=
  match tx !! src with
  | None =>
      if hasUeHandoverTriggered binder nodeId || hasUeHandoverTriggered binder src then Ok tx
      else Throw "Mac::fromPhy(): Received feedback for an unexisting H-ARQ tx buffer"
  | Some b => let! b := receiveHarqFeedback b fb in Ok (<[src := b]> tx)
  end.

(** A data packet of the uplink or the downlink. *)
Definition fromPhy_pdu (NOW maxHarqRtx : Z) (pkt : Packet) (rx : gmap Z LteHarqBufferRx) : result (gmap Z LteHarqBufferRx) :=
  let src := sourceId (tag pkt) in
  let! _ := peekAtFront pkt in
  let hrb := default (new_LteHarqBufferRx ENB_RX_HARQ_PROCESSES src maxHarqRtx) (rx !! src) in
  let! hrb := rxbuf_insertPdu NOW ∅ hrb (cw (tag pkt)) pkt in
  Ok (<[src := hrb]> rx).

(** The entries of a map over connections that are not of the node. *)
Definition not_of_node {A} (nodeId : Z) (m : gmap Z A) : gmap Z A :=
  filter (fun p => MacCidToNodeId p.1 <> nodeId) m.
