(* ===== verification/LcgScheduler.v ===== *)
(** * Scheduling of the uplink grant on a UE

    [LcgScheduler] (src/simulte/src/stack/mac/scheduler/LcgScheduler.cc) shares the bytes
    of a codeword among the connections of the UE by traffic class, [LteSchedulerUeUl]
    (LteSchedulerUeUl.cc) does so for each codeword of a grant.  Both work on the virtual
    buffers of [LteMacUe].

    The bucket of the first phase is computed and never used, and the second phase is
    never entered (the test for it is inside the loop it would follow), so both are left
    out, with [lastExecutionTime_], which only the bucket reads. *)

From S2P Require Import Prelude.
From S2P Require Import LteCommon.
From S2P Require Import RlcUm.
From S2P Require Import MacQueue.
#[local] Open Scope Z_scope.

Definition MAC_HEADER : Z := 2.

(** What the MAC layer of a UE keeps of its connections: virtual buffers, descriptors, and
    the connections of each traffic class in the order they were entered ([lcgMap_], whose
    pointers are those of [macBuffers_]). *)
Record MacConnections := {
  macBuffers_ : gmap Z LteMacBuffer;
  connDesc_ : gmap Z FlowControlInfo;
  lcgMap_ : list (LteTrafficClass * Z)
}.

#[export] Instance macconnections_eta : Eta MacConnections := fun c =>
  {| macBuffers_ := macBuffers_ c; connDesc_ := connDesc_ c; lcgMap_ := lcgMap_ c |}.

Definition new_MacConnections : MacConnections := {| macBuffers_ := ∅; connDesc_ := ∅; lcgMap_ := [] |}.

#[export] Instance trafficclass_eq_dec : EqDecision LteTrafficClass.
Proof. solve_decision. Defined.

(** ** LcgScheduler *)

Record StatusElem := {
  occupancy_ : Z;
  sentData_ : Z;
  sentSdus_ : Z
}.

#[export] Instance statuselem_eta : Eta StatusElem := fun e =>
  {| occupancy_ := occupancy_ e; sentData_ := sentData_ e; sentSdus_ := sentSdus_ e |}.

Record LcgScheduler := {
  scheduleList_ : gmap Z Z;
  scheduledBytesList_ : gmap Z Z;
  statusMap_ : gmap Z StatusElem
}.

#[export] Instance lcgscheduler_eta : Eta LcgScheduler := fun s =>
  {| scheduleList_ := scheduleList_ s; scheduledBytesList_ := scheduledBytesList_ s; statusMap_ := statusMap_ s |}.

Definition new_LcgScheduler : LcgScheduler :=
  {| scheduleList_ := ∅; scheduledBytesList_ := ∅; statusMap_ := ∅ |}.

(** The variables of [schedule]: the members it changes, [availableBytes], [firstSdu]. *)
Record LcgRun := {
  lr_sched : LcgScheduler;
  lr_buffers : gmap Z LteMacBuffer;
  lr_available : Z;
  lr_firstSdu : bool
}.

#[export] Instance lcgrun_eta : Eta LcgRun := fun r =>
  {| lr_sched := lr_sched r; lr_buffers := lr_buffers r; lr_available := lr_available r; lr_firstSdu := lr_firstSdu r |}.

Definition rlc_header (connDesc : FlowControlInfo) : Z :=
  if fi_rlcType connDesc =? UM then RLC_HEADER_UM
  else if fi_rlcType connDesc =? AM then RLC_HEADER_AM else 0.

Definition mac_header (firstSdu : bool) : Z := if firstSdu then MAC_HEADER else 0.

(** [alloc]: an [int] from which unsigned constants are subtracted. *)
Definition payload (firstSdu : bool) (connDesc : FlowControlInfo) (bytes : Z) : Z :=
  int32 (int32 (int32 bytes - mac_header firstSdu) - rlc_header connDesc).

(** [while (!vQueue->isEmpty()) vQueue->popFront()]; each turn takes a packet. *)
Fixpoint pop_all (fuel : nat) (vQueue : LteMacBuffer) : result LteMacBuffer :=
  match fuel with
  | O => UB
  | S fuel' =>
      if buffer_isEmpty vQueue then Ok vQueue
      else let! (_, vQueue) := buffer_popFront vQueue in pop_all fuel' vQueue
  end.

(** [while (alloc > 0)]; each turn takes a packet, and the last one may put the rest of
    it back. *)
Fixpoint pop_bytes (fuel : nat) (vQueue : LteMacBuffer) (alloc : Z) : result LteMacBuffer :=
  match fuel with
  | O => UB
  | S fuel' =>
      if 0 <? alloc then
        let! (newPktInfo, vQueue) := buffer_popFront vQueue in
        if alloc <? newPktInfo.1
        then let! vQueue := buffer_pushFront vQueue (newPktInfo.1 - alloc, newPktInfo.2) in
             pop_bytes fuel' vQueue 0
        else pop_bytes fuel' vQueue (alloc - newPktInfo.1)
      else Ok vQueue
  end.

(** One turn more than there are packets. *)
Definition turns (vQueue : LteMacBuffer) : nat := S (length (Queue_ vQueue)).

(** The service of a connection: its buffer, its status, the bytes left, [firstSdu]. *)
Definition serve_bytes (connDesc : FlowControlInfo) (vQueue : LteMacBuffer) (elem : StatusElem)
    (available : Z) (firstSdu : bool) (toServe : Z) : result (LteMacBuffer * StatusElem * Z * bool) :=
  if (0 <? available) && (0 <? toServe) then
    if toServe <=? available then
      let! (_, vQueue) := buffer_popFront vQueue in
      let elem := elem <| occupancy_ := queueOccupancy_ vQueue |>
                       <| sentData_ := uint32 (sentData_ elem + toServe) |> in
      let alloc := payload firstSdu connDesc toServe in
      let elem := if 0 <? alloc then elem <| sentSdus_ := uint32 (sentSdus_ elem + 1) |> else elem in
      let! vQueue := pop_all (turns vQueue) vQueue in
      Ok (vQueue, elem, available - toServe, false)
    else
      let elem := elem <| occupancy_ := queueOccupancy_ vQueue |>
                       <| sentData_ := uint32 (sentData_ elem + available) |> in
      let alloc := payload firstSdu connDesc available in
      let elem := if 0 <? alloc then elem <| sentSdus_ := uint32 (sentSdus_ elem + 1) |> else elem in
      let! vQueue := pop_bytes (S (turns vQueue)) vQueue alloc in
      Ok (vQueue, elem, 0, false)
  else Ok (vQueue, elem, available, firstSdu).

(** What a connection that was looked at leaves in the lists. *)
Definition record_service (s : LcgScheduler) (cid : Z) (elem : StatusElem) : LcgScheduler :=
  s <| statusMap_ := <[cid := elem]> (statusMap_ s) |>
    <| scheduleList_ := match scheduleList_ s !! cid with
                        | Some _ => scheduleList_ s
                        | None => <[cid := sentSdus_ elem]> (scheduleList_ s)
                        end |>
    <| scheduledBytesList_ := match scheduledBytesList_ s !! cid with
                              | Some n => <[cid := uint32 (n + sentData_ elem)]> (scheduledBytesList_ s)
                              | None => <[cid := sentData_ elem]> (scheduledBytesList_ s)
                              end |>.

(** The body of the inner loop. *)
Definition serve (descs : gmap Z FlowControlInfo) (grantDir : Direction) (cid : Z) (r : LcgRun) : result LcgRun :=
  let! vQueue := of_option (lr_buffers r !! cid) in
  let queueLength := queueOccupancy_ vQueue in
  match descs !! cid with
  | None => Throw "map::at"
  | Some connDesc =>
      if negb (bool_decide (fi_direction connDesc = grantDir)) then Ok r else
      if queueLength =? 0 then Ok r else
      let toServe := uint32 (uint32 (queueLength + rlc_header connDesc) + mac_header (lr_firstSdu r)) in
      let elem := default {| occupancy_ := uint32 (queueLength_ vQueue); sentData_ := 0; sentSdus_ := 0 |}
                    (statusMap_ (lr_sched r) !! cid) in
      let! (vQueue, elem, available, firstSdu) :=
        serve_bytes connDesc vQueue elem (lr_available r) (lr_firstSdu r) toServe in
      Ok {| lr_sched := record_service (lr_sched r) cid elem; lr_buffers := <[cid := vQueue]> (lr_buffers r);
            lr_available := available; lr_firstSdu := firstSdu |}
  end.

Fixpoint serve_all (descs : gmap Z FlowControlInfo) (grantDir : Direction) (cids : list Z) (r : LcgRun) : result LcgRun :=
  match cids with
  | [] => Ok r
  | cid :: cids' => let! r := serve descs grantDir cid r in serve_all descs grantDir cids' r
  end.

(** The classes below [UNKNOWN_TRAFFIC_TYPE], and the connections in the order served. *)
Definition traffic_classes : list LteTrafficClass := [CONVERSATIONAL; STREAMING; INTERACTIVE; BACKGROUND].

Definition of_class (lcgMap : list (LteTrafficClass * Z)) (t : LteTrafficClass) : list Z :=
  map snd (filter (fun p => p.1 = t) lcgMap).

Definition service_order (lcgMap : list (LteTrafficClass * Z)) : list Z :=
  concat (map (of_class lcgMap) traffic_classes).

Definition lcg_schedule (c : MacConnections) (availableBytes : Z) (grantDir : Direction)
    : result (LcgScheduler * MacConnections) :=
  match lcgMap_ c with
  | [] => Ok (new_LcgScheduler, c)
  | _ =>
      let! r := serve_all (connDesc_ c) grantDir (service_order (lcgMap_ c))
        {| lr_sched := new_LcgScheduler; lr_buffers := macBuffers_ c; lr_available := availableBytes; lr_firstSdu := true |} in
      Ok (lr_sched r, c <| macBuffers_ := lr_buffers r |>)
  end.

(** ** LteSchedulerUeUl *)

(** [LteSchedulingGrant]; [g_layers] is the number of layers of its transmission
    parameters. *)
Record LteSchedulingGrant := {
  g_direction : Direction;
  g_codewords : Z;
  grantedCwBytes : list Z;
  totalGrantedBlocks : Z;
  g_periodic : bool;
  g_period : Z;
  g_expiration : Z;
  g_layers : Z
}.

Definition getGrantedCwBytes (g : LteSchedulingGrant) (cw : Z) : result Z :=
  match vget (grantedCwBytes g) cw with Some n => Ok n | None => Throw "vector::at" end.

(** The scheduled bytes are never cleared. *)
Record LteSchedulerUeUl := {
  ul_scheduleList_ : gmap (Z * Z) Z;
  ul_scheduledBytesList_ : gmap (Z * Z) Z
}.

Definition new_LteSchedulerUeUl : LteSchedulerUeUl := {| ul_scheduleList_ := ∅; ul_scheduledBytesList_ := ∅ |}.

(** The entries of one codeword go over those that are there. *)
Definition for_cw (m : gmap Z Z) (cw : Z) : gmap (Z * Z) Z := kmap (fun cid => (cid, cw)) m.

Fixpoint schedule_cws (n : nat) (grant : LteSchedulingGrant) (cw : Z) (s : LteSchedulerUeUl) (c : MacConnections)
    : result (LteSchedulerUeUl * MacConnections) :=
  match n with
  | O => Ok (s, c)
  | S n' =>
      let! availableBytes := getGrantedCwBytes grant cw in
      let! (l, c) := lcg_schedule c availableBytes (g_direction grant) in
      let s := if decide (scheduleList_ l = ∅) then s
               else {| ul_scheduleList_ := for_cw (scheduleList_ l) cw ∪ ul_scheduleList_ s;
                       ul_scheduledBytesList_ := for_cw (scheduledBytesList_ l) cw ∪ ul_scheduledBytesList_ s |} in
      schedule_cws n' grant (cw + 1) s c
  end.

Definition ul_schedule (s : LteSchedulerUeUl) (grant : LteSchedulingGrant) (c : MacConnections)
    : result (LteSchedulerUeUl * MacConnections) :=
  schedule_cws (Z.to_nat (g_codewords grant)) grant 0
    {| ul_scheduleList_ := ∅; ul_scheduledBytesList_ := ul_scheduledBytesList_ s |} c.
