(* ===== verification/LcgProps.v ===== *)
(** * Scheduling of the uplink grant: properties

    The scheduler computes a short reference function of the backlogs: connections are
    served by traffic class, each gets what it needs with its headers or what is left,
    and the virtual buffers lose exactly the payload.  The grant is never exceeded, and
    either it is used up or every backlog is served. *)

From stdpp Require Import sorting.
From S2P Require Import Prelude.
From S2P Require Import LteCommon.
From S2P Require Import RlcUm.
From S2P Require Import MacQueue.
From S2P Require Import LcgScheduler.
#[local] Open Scope Z_scope.

(** ** Virtual buffers *)

(** A buffer of [n] bytes. *)
Record holds (b : LteMacBuffer) (l : list PacketInfo) : Prop := {
  ho_rep : represents b l;
  ho_sizes : Forall (fun p => 0 <= p.1) l;
  ho_count : vsize l < 2 ^ 31 - 1;
  ho_bytes : total l < 2 ^ 31 - 8
}.

Lemma total_nonneg l : Forall (fun p => 0 <= p.1) l -> 0 <= total l.
Proof. induction 1 as [|p l Hp _ IH]; [done|]. change (total (p :: l)) with (p.1 + total l). lia. Qed.

Lemma holds_occupancy b l : holds b l -> queueOccupancy_ b = total l /\ 0 <= total l.
Proof.
  intros [(_ & _ & Ho) Hs _ Hb]. pose proof (total_nonneg l Hs). split; [|done].
  rewrite Ho. apply wrap_small. unfold is_uint. lia.
Qed.

Lemma holds_popFront b p l : holds b (p :: l) -> exists b', buffer_popFront b = Ok (p, b') /\ holds b' l.
Proof.
  intros [(HQ & HL & HO) Hs Hc Hb]. unfold buffer_popFront. rewrite HL, HQ.
  rewrite (proj2 (Z.leb_gt _ _)) by (cbn [length]; lia). cbn [head of_option rbind].
  apply Forall_cons in Hs as [Hp Hs]. cbn [length] in Hc. change (total (p :: l)) with (p.1 + total l) in Hb.
  eexists. split; [done|]. split; [|done|lia|lia].
  split; [done|]. split.
  - change (vsize (p :: l) - 1 = vsize l). rewrite length_cons. lia.
  - change (uint32 (queueOccupancy_ b - p.1) = uint32 (total l)). rewrite HO, wrap_sub.
    change (total (p :: l)) with (p.1 + total l). f_equal. lia.
Qed.

Lemma holds_pushFront b p l : holds b l -> 0 <= p.1 -> vsize l + 1 < 2 ^ 31 - 1 -> p.1 + total l < 2 ^ 31 - 8 ->
  exists b', buffer_pushFront b p = Ok b' /\ holds b' (p :: l).
Proof.
  intros [(HQ & HL & HO) Hs Hc Hb] Hp Hc' Hb'. unfold buffer_pushFront. rewrite (incr_ok (vsize l)) by lia.
  cbn [rbind]. eexists. split; [done|]. split; [|by constructor|rewrite length_cons; lia|change (p.1 + total l < 2 ^ 31 - 8); lia].
  split; [cbn; by rewrite HQ|]. split.
  - change (queueLength_ b + 1 = vsize (p :: l)). rewrite HL, length_cons. lia.
  - change (uint32 (queueOccupancy_ b + p.1) = uint32 (p.1 + total l)). rewrite HO, wrap_add. f_equal. lia.
Qed.

Lemma pop_all_spec fuel b l : holds b l -> (length l < fuel)%nat -> exists b', pop_all fuel b = Ok b' /\ holds b' [].
Proof.
  revert b l. induction fuel as [|fuel IH]; intros b l Hb Hf; [lia|]. cbn [pop_all].
  unfold buffer_isEmpty. rewrite (proj1 (proj2 (ho_rep _ _ Hb))). destruct l as [|p l].
  - rewrite Z.eqb_refl. by eexists.
  - rewrite (proj2 (Z.eqb_neq _ _)) by (cbn [length]; lia).
    destruct (holds_popFront b p l Hb) as (b1 & -> & Hb1). cbn [rbind]. apply (IH b1 l Hb1). cbn in Hf. lia.
Qed.

(** Taking [n] bytes from the front, the packet at the border being cut. *)
Lemma pop_bytes_spec fuel b l n : holds b l -> n <= total l -> (S (length l) < fuel)%nat ->
  exists b' l', pop_bytes fuel b n = Ok b' /\ holds b' l' /\ total l' = total l - Z.max 0 n.
Proof.
  revert b l n. induction fuel as [|fuel IH]; intros b l n Hb Hn Hf; [lia|]. cbn [pop_bytes].
  destruct (Z.ltb_spec 0 n) as [H0|H0].
  2: { exists b, l. split; [done|]. split; [done|lia]. }
  destruct l as [|p l]; [cbn in Hn; lia|]. destruct (holds_popFront b p l Hb) as (b1 & -> & Hb1). cbn [rbind].
  destruct Hb as [_ Hs Hc Ht]. apply Forall_cons in Hs as [Hp Hs]. change (total (p :: l)) with (p.1 + total l) in Hn, Ht |- *.
  cbn [length] in Hc, Hf. destruct (Z.ltb_spec n p.1) as [H1|H1].
  - destruct (holds_pushFront b1 (p.1 - n, p.2) l Hb1) as (b2 & -> & Hb2); [cbn; lia|lia|cbn; lia|]. cbn [rbind].
    exists b2, ((p.1 - n, p.2) :: l). split; [by destruct fuel; [lia|]|]. split; [done|].
    change (total ((p.1 - n, p.2) :: l)) with (p.1 - n + total l). lia.
  - destruct (IH b1 l (n - p.1) Hb1) as (b' & l' & E & Hb' & Ht'); [lia|lia|].
    exists b', l'. split; [done|]. split; [done|]. lia.
Qed.

(** ** One connection *)

(** The bytes of headers: two of RLC, acknowledged or not, and two of the MAC layer on the
    first SDU of the PDU. *)
Definition headers (first : bool) (d : FlowControlInfo) : Z :=
  (if bool_decide (fi_rlcType d = UM \/ fi_rlcType d = AM) then 2 else 0) + (if first then 2 else 0).

Lemma headers_spec first d : headers first d = rlc_header d + mac_header first.
Proof.
  unfold headers, rlc_header, mac_header, MAC_HEADER, RLC_HEADER_UM, RLC_HEADER_AM. f_equal.
  case_bool_decide as Hd; destruct (Z.eqb_spec (fi_rlcType d) UM), (Z.eqb_spec (fi_rlcType d) AM); tauto.
Qed.

Lemma rlc_header_range d : rlc_header d = 0 \/ rlc_header d = 2.
Proof. unfold rlc_header, RLC_HEADER_UM, RLC_HEADER_AM. repeat case_match; lia. Qed.

Lemma mac_header_range first : mac_header first = 0 \/ mac_header first = 2.
Proof. destruct first; unfold mac_header, MAC_HEADER; lia. Qed.

Lemma int32_small z : - 2 ^ 31 <= z < 2 ^ 31 -> int32 z = z.
Proof. intros. apply swrap_small; [lia|]. unfold is_sint. lia. Qed.

Lemma payload_exact first d n : 0 <= n < 2 ^ 31 -> payload first d n = n - headers first d.
Proof.
  intros Hn. unfold payload. rewrite headers_spec. pose proof (rlc_header_range d). pose proof (mac_header_range first).
  rewrite (int32_small n), (int32_small (n - _)), int32_small by lia. lia.
Qed.

(** What a connection with [backlog] bytes is given. *)
Definition share (available : Z) (first : bool) (d : FlowControlInfo) (backlog : Z) : Z :=
  if backlog =? 0 then 0 else Z.min available (backlog + headers first d).

Definition still_first (available : Z) (first : bool) (backlog : Z) : bool :=
  if (backlog =? 0) || (available =? 0) then first else false.

(** [serve_bytes] on a connection that was not served before. *)
Lemma serve_bytes_spec d b l available first occ :
  holds b l -> 0 < total l -> 0 <= available < 2 ^ 31 ->
  let s := share available first d (total l) in
  exists b' l' occ', serve_bytes d b {| occupancy_ := occ; sentData_ := 0; sentSdus_ := 0 |} available first
      (uint32 (uint32 (total l + rlc_header d) + mac_header first)) =
    Ok (b', {| occupancy_ := occ'; sentData_ := s; sentSdus_ := Z.b2z (0 <? s - headers first d) |},
        available - s, still_first available first (total l)) /\
    holds b' l' /\ total l' = total l - Z.max 0 (s - headers first d).
Proof.
  intros Hb Ht Ha. unfold share, still_first. pose proof (rlc_header_range d) as Hr. pose proof (mac_header_range first) as Hm.
  pose proof (ho_bytes _ _ Hb) as Hbb. rewrite (proj2 (Z.eqb_neq (total l) 0)) by lia. cbn [orb].
  rewrite (wrap_small 32 (total l + rlc_header d)), (wrap_small 32 (_ + mac_header first)) by (unfold is_uint; lia).
  rewrite headers_spec, Z.add_assoc. unfold serve_bytes. destruct (Z.ltb_spec 0 available) as [H0|H0].
  2: { rewrite (proj2 (Z.eqb_eq available 0)), Z.min_l by lia. cbn [andb]. exists b, l, occ.
       rewrite (proj2 (Z.ltb_ge _ _)) by lia. assert (available = 0) as -> by lia. cbn [Z.b2z].
       split; [done|]. split; [done|lia]. }
  rewrite (proj2 (Z.eqb_neq available 0)) by lia.
  rewrite (proj2 (Z.ltb_lt 0 (_ + mac_header first))) by lia. cbn [andb].
  destruct (Z.leb_spec (total l + rlc_header d + mac_header first) available) as [Hle|Hgt].
  - destruct l as [|p l]; [cbn in Ht; lia|]. destruct (holds_popFront b p l Hb) as (b1 & -> & Hb1). cbn [rbind].
    destruct (pop_all_spec (turns b1) b1 l Hb1) as (b2 & -> & Hb2).
    { unfold turns. rewrite (proj1 (ho_rep _ _ Hb1)). lia. }
    cbn [rbind]. rewrite payload_exact, headers_spec by lia. rewrite Z.min_r by lia.
    rewrite (proj2 (Z.ltb_lt 0 (_ - (rlc_header d + mac_header first)))) by lia.
    eexists b2, [], _. split; [|split; [done|change (total []) with 0; lia]].
    clear Hb. remember (total (p :: l)) as n eqn:En. unfold set; cbn. do 5 f_equal. apply wrap_small. unfold is_uint. lia.
  - rewrite payload_exact, headers_spec, Z.min_l by lia.
    destruct (pop_bytes_spec (S (turns b)) b l (available - (rlc_header d + mac_header first)) Hb)
      as (b' & l' & -> & Hb' & Ht'); [lia|unfold turns; rewrite (proj1 (ho_rep _ _ Hb)); lia|].
    cbn [rbind]. exists b', l', (queueOccupancy_ b). rewrite Z.sub_diag. split; [|done].
    destruct (0 <? available - _); unfold set; cbn; by rewrite Z.add_0_l, (wrap_small 32 available) by (unfold is_uint; lia).
Qed.

(** ** All connections *)

(** A connection: its identifier, descriptor and the packets of its virtual buffer. *)
Record conn := { c_cid : Z; c_desc : FlowControlInfo; c_packets : list PacketInfo }.

(** The bytes a grant in direction [dir] could carry. *)
Definition backlog (dir : Direction) (k : conn) : Z :=
  if bool_decide (fi_direction (c_desc k) = dir) then total (c_packets k) else 0.

(** The reference: the bytes granted to each connection, and the payload among them. *)
Fixpoint shares (dir : Direction) (available : Z) (first : bool) (ks : list conn) : list (Z * Z) :=
  match ks with
  | [] => []
  | k :: ks' =>
      let n := backlog dir k in
      let s := share available first (c_desc k) n in
      (s, if n =? 0 then 0 else Z.max 0 (s - headers first (c_desc k)))
      :: shares dir (available - s) (still_first available first n) ks'
  end.

Definition present (descs : gmap Z FlowControlInfo) (buffers : gmap Z LteMacBuffer) (k : conn) : Prop :=
  descs !! c_cid k = Some (c_desc k) /\ exists b, buffers !! c_cid k = Some b /\ holds b (c_packets k).

(** [k] was served with [s]: what the lists say of it and what its buffer lost. *)
Definition served (dir : Direction) (sched : LcgScheduler) (buffers : gmap Z LteMacBuffer) (k : conn) (s : Z * Z) : Prop :=
  (exists b l, buffers !! c_cid k = Some b /\ holds b l /\ total l = total (c_packets k) - s.2) /\
  if backlog dir k =? 0
  then scheduleList_ sched !! c_cid k = None /\ scheduledBytesList_ sched !! c_cid k = None
  else scheduleList_ sched !! c_cid k = Some (Z.b2z (0 <? s.2)) /\ scheduledBytesList_ sched !! c_cid k = Some s.1.

Definition unseen (sched : LcgScheduler) (cid : Z) : Prop :=
  scheduleList_ sched !! cid = None /\ scheduledBytesList_ sched !! cid = None /\ statusMap_ sched !! cid = None.

(** What holds of the identifiers not served. *)
Definition others_same (cids : list Z) (r r' : LcgRun) : Prop :=
  forall cid, cid ∉ cids ->
    lr_buffers r' !! cid = lr_buffers r !! cid /\
    scheduleList_ (lr_sched r') !! cid = scheduleList_ (lr_sched r) !! cid /\
    scheduledBytesList_ (lr_sched r') !! cid = scheduledBytesList_ (lr_sched r) !! cid /\
    statusMap_ (lr_sched r') !! cid = statusMap_ (lr_sched r) !! cid.

Lemma share_range available first d n : 0 <= available -> 0 <= n -> 0 <= share available first d n <= available.
Proof.
  intros Ha Hn. unfold share. rewrite headers_spec. pose proof (rlc_header_range d). pose proof (mac_header_range first).
  case_match; zify_bool; lia.
Qed.

Lemma serve_spec descs dir k r :
  present descs (lr_buffers r) k -> unseen (lr_sched r) (c_cid k) -> 0 <= lr_available r < 2 ^ 31 ->
  let n := backlog dir k in
  let s := share (lr_available r) (lr_firstSdu r) (c_desc k) n in
  exists r', serve descs dir (c_cid k) r = Ok r' /\
    served dir (lr_sched r') (lr_buffers r') k
      (s, if n =? 0 then 0 else Z.max 0 (s - headers (lr_firstSdu r) (c_desc k))) /\
    lr_available r' = lr_available r - s /\ lr_firstSdu r' = still_first (lr_available r) (lr_firstSdu r) n /\
    others_same [c_cid k] r r'.
Proof.
  intros (Hd & b & Hb & Hh) (U1 & U2 & U3) Ha. destruct (holds_occupancy _ _ Hh) as [Ho Hn].
  unfold serve. rewrite Hb. cbn [of_option rbind]. rewrite Hd, Ho. unfold served, backlog, share, still_first.
  case_bool_decide as Edir; cbn [negb]; [destruct (Z.eqb_spec (total (c_packets k)) 0) as [E0|E0]|].
  - exists r. split; [done|]. split; [|by rewrite Z.sub_0_r]. rewrite E0. split; [|done].
    exists b, (c_packets k). split; [done|]. split; [done|cbn; lia].
  - rewrite U3. cbn [default].
    destruct (serve_bytes_spec (c_desc k) b (c_packets k) (lr_available r) (lr_firstSdu r) (uint32 (queueLength_ b)) Hh)
      as (b' & l' & occ' & -> & Hh' & Ht'); [lia|done|]. cbn [rbind].
    unfold share, still_first in Ht' |- *. rewrite (proj2 (Z.eqb_neq _ _) E0) in Ht' |- *.
    eexists. split; [done|]. unfold record_service. rewrite U1, U2. cbn.
    split; [split; [exists b', l'; by rewrite lookup_insert_eq|]|].
    + rewrite !lookup_insert_eq. split; [|done]. do 2 f_equal.
      destruct (Z.ltb_spec 0 (Z.min (lr_available r) (total (c_packets k) + headers (lr_firstSdu r) (c_desc k))
        - headers (lr_firstSdu r) (c_desc k))); symmetry; [apply Z.ltb_lt|apply Z.ltb_ge]; lia.
    + split; [done|]. split; [done|]. intros cid Hc%not_elem_of_cons. cbn. rewrite !lookup_insert_ne by (intros <-; tauto).
      done.
  - exists r. split; [done|]. rewrite Z.eqb_refl, !Z.sub_0_r. split; [|done]. split; [|done].
    exists b, (c_packets k). split; [done|]. by split.
Qed.

Lemma others_served dir r r' k s :
  others_same [c_cid k] r r' -> forall k', c_cid k' <> c_cid k ->
  served dir (lr_sched r) (lr_buffers r) k' s -> served dir (lr_sched r') (lr_buffers r') k' s.
Proof.
  intros Ho k' Hne. destruct (Ho (c_cid k')) as (E1 & E2 & E3 & _); [by apply not_elem_of_cons; split; [|apply not_elem_of_nil]|].
  unfold served. by rewrite E1, E2, E3.
Qed.

Lemma serve_all_spec descs dir ks r :
  NoDup (map c_cid ks) -> Forall (present descs (lr_buffers r)) ks -> Forall (fun k => unseen (lr_sched r) (c_cid k)) ks ->
  0 <= lr_available r < 2 ^ 31 ->
  exists r', serve_all descs dir (map c_cid ks) r = Ok r' /\
    Forall2 (served dir (lr_sched r') (lr_buffers r')) ks (shares dir (lr_available r) (lr_firstSdu r) ks) /\
    others_same (map c_cid ks) r r'.
Proof.
  revert r. induction ks as [|k ks IH]; intros r Hnd Hp Hu Ha; cbn [map serve_all shares].
  { exists r. split; [done|]. split; [constructor|by intros cid]. }
  apply NoDup_cons in Hnd as [Hnk Hnd]. apply Forall_cons in Hp as [Hk Hp]. apply Forall_cons in Hu as [Huk Hu].
  pose proof (serve_spec descs dir k r Hk Huk Ha) as Hs. cbv zeta in Hs. destruct Hs as (r1 & -> & Hs & Ea & Ef & Ho).
  cbn [rbind]. rewrite <- Ea, <- Ef.
  assert (Hin : forall k', k' ∈ ks -> c_cid k' <> c_cid k) by (intros k' Hk' E; apply Hnk; rewrite <- E; by apply list_elem_of_fmap_2).
  assert (Hother : forall k', k' ∈ ks -> c_cid k' ∉ [c_cid k])
    by (intros k' Hk'; apply not_elem_of_cons; split; [by apply Hin|apply not_elem_of_nil]).
  assert (Hbl : 0 <= backlog dir k).
  { unfold backlog. case_bool_decide; [|done]. destruct Hk as (_ & b & _ & Hh). by apply (holds_occupancy b). }
  destruct (IH r1 Hnd) as (r' & -> & Hall & Ho').
  - rewrite Forall_forall in Hp |- *. intros k' Hk'. destruct (Hp k' Hk') as (Hd & b & Hb & Hh).
    split; [done|]. exists b. split; [|done]. by rewrite (proj1 (Ho _ (Hother k' Hk'))).
  - rewrite Forall_forall in Hu |- *. intros k' Hk'. destruct (Ho _ (Hother k' Hk')) as (_ & E2 & E3 & E4).
    unfold unseen. rewrite E2, E3, E4. exact (Hu k' Hk').
  - rewrite Ea. pose proof (share_range (lr_available r) (lr_firstSdu r) (c_desc k) (backlog dir k)). lia.
  - exists r'. split; [done|]. split.
    + constructor; [|done]. destruct (Ho' (c_cid k) Hnk) as (E1 & E2 & E3 & _).
      unfold served in Hs |- *. by rewrite E1, E2, E3.
    + intros cid Hc%not_elem_of_cons. destruct (Ho cid) as (E1 & E2 & E3 & E4);
        [apply not_elem_of_cons; split; [apply Hc|apply not_elem_of_nil]|].
      destruct (Ho' cid (proj2 Hc)) as (F1 & F2 & F3 & F4). by rewrite F1, F2, F3, F4.
Qed.

(** The priority of a traffic class, conversational traffic first; connections without a
    class are not served. *)
Definition priority (t : LteTrafficClass) : option Z :=
  match t with
  | CONVERSATIONAL => Some 0 | STREAMING => Some 1 | INTERACTIVE => Some 2 | BACKGROUND => Some 3
  | UNKNOWN_TRAFFIC_TYPE => None
  end.

Definition not_after (p q : LteTrafficClass * Z) : Prop :=
  exists i j, priority p.1 = Some i /\ priority q.1 = Some j /\ i <= j.

(** The entries of [lcgMap] in the order of their priorities, those of a class as they were
    entered. *)
Record by_priority (lcgMap ps : list (LteTrafficClass * Z)) : Prop := {
  bp_sorted : StronglySorted not_after ps;
  bp_classes : forall t, filter (fun p => p.1 = t) ps = if priority t then filter (fun p => p.1 = t) lcgMap else []
}.

(** What is left of a sorted list when a first class is taken out. *)
Lemma split_class t ps :
  StronglySorted not_after ps ->
  (forall p i, p ∈ ps -> priority p.1 = Some i -> exists j, priority t = Some j /\ j <= i) ->
  ps = filter (fun p => p.1 = t) ps ++ filter (fun p => p.1 <> t) ps.
Proof.
  induction 1 as [|p ps Hs IH Hp]; intros Hmin; [done|]. destruct (decide (p.1 = t)) as [E|E].
  - rewrite filter_cons_True, (filter_cons_False (fun p => p.1 <> t)) by (done || congruence). cbn. f_equal. apply IH.
    intros q i Hq. apply Hmin. by right.
  - assert (Hn : Forall (fun q => q.1 <> t) ps).
    { eapply Forall_impl; [exact Hp|]. intros q (i & j & Hi & Hj & Hle) <-.
      destruct (Hmin p i (list_elem_of_here _ _) Hi) as (k & Hk & Hki). rewrite Hj in Hk. injection Hk as <-.
      apply E. assert (i = j) as -> by lia. clear -Hi Hj. by destruct (p.1), (q.1); cbn in *; simplify_eq. }
    rewrite filter_cons_False, filter_cons_True by done.
    assert (Hnil : filter (fun p => p.1 = t) ps = []).
    { clear -Hn. induction Hn as [|q l Hq _ IHl]; [done|]. by rewrite filter_cons_False. }
    assert (Hall : filter (fun p => p.1 <> t) ps = ps).
    { clear -Hn. induction Hn as [|q l Hq _ IHl]; [done|]. by rewrite filter_cons_True, IHl. }
    by rewrite Hnil, Hall.
Qed.

Lemma sorted_rest t ps : StronglySorted not_after ps -> StronglySorted not_after (filter (fun p => p.1 <> t) ps).
Proof.
  induction 1 as [|p ps Hs IH Hp]; [constructor|]. rewrite filter_cons. destruct (decide _); [|done].
  constructor; [done|]. rewrite Forall_forall in Hp |- *. intros q [_ Hq]%list_elem_of_filter. by apply Hp.
Qed.

(** Each class in turn. *)
Lemma sorted_classes ts : forall ps,
  StronglySorted not_after ps -> Forall (fun p => p.1 ∈ ts) ps -> Forall (fun t => is_Some (priority t)) ts ->
  StronglySorted (fun t t' => forall i j, priority t = Some i -> priority t' = Some j -> i < j) ts ->
  ps = concat (map (fun t => filter (fun p => p.1 = t) ps) ts).
Proof.
  induction ts as [|t ts IH]; intros ps Hs Hin Hp Hts.
  { destruct ps as [|p ps]; [done|]. apply Forall_cons in Hin as [Hin _]. by apply elem_of_nil in Hin. }
  apply StronglySorted_inv in Hts as [Hts Hlt]. apply Forall_cons in Hp as [[k Hk] Hp]. cbn [map concat].
  assert (Hmin : forall p i, p ∈ ps -> priority p.1 = Some i -> exists j, priority t = Some j /\ j <= i).
  { intros p i Hpin Hi. exists k. split; [done|]. rewrite Forall_forall in Hin. rewrite Forall_forall in Hlt. specialize (Hin p Hpin).
    apply elem_of_cons in Hin as [E|Hin]; [rewrite E, Hk in Hi; injection Hi as <-; lia|].
    pose proof (Hlt _ Hin k i Hk Hi). lia. }
  pose proof (split_class t ps Hs Hmin) as E. set (rest := filter (fun p => p.1 <> t) ps) in E.
  assert (Hr : rest = concat (map (fun t => filter (fun p => p.1 = t) rest) ts)).
  { apply IH; [by apply sorted_rest| |done|done]. apply Forall_forall. intros q [Hqt Hq]%list_elem_of_filter.
    rewrite Forall_forall in Hin. by destruct (proj1 (elem_of_cons _ _ _) (Hin q Hq)). }
  rewrite E at 1. f_equal. rewrite Hr. f_equal. apply map_ext_in. intros t' Ht'%list_elem_of_In. unfold rest.
  assert (Hne : t' <> t).
  { intros ->. rewrite Forall_forall in Hlt. pose proof (Hlt t Ht' k k Hk Hk). lia. }
  clear -Hne. induction ps as [|q ps IHps]; [done|]. rewrite !(filter_cons _ q). destruct (decide (q.1 <> t)) as [Hq|Hq].
  - rewrite filter_cons. destruct (decide (q.1 = t')); by rewrite IHps.
  - rewrite decide_False by (intros E'; apply Hq; congruence). done.
Qed.

Lemma by_priority_order lcgMap ps : by_priority lcgMap ps -> service_order lcgMap = map snd ps.
Proof.
  intros [Hs Hc]. rewrite (sorted_classes traffic_classes ps Hs).
  - unfold service_order, of_class, traffic_classes. cbn [map concat].
    rewrite !Hc. cbn [priority]. by rewrite !map_app, !app_nil_r.
  - apply Forall_forall. intros p Hp. pose proof (Hc UNKNOWN_TRAFFIC_TYPE) as Hu. cbn in Hu.
    assert (Hne : p.1 <> UNKNOWN_TRAFFIC_TYPE).
    { intros E. assert (Hin : p ∈ filter (fun p => p.1 = UNKNOWN_TRAFFIC_TYPE) ps) by (by apply list_elem_of_filter).
      rewrite Hu in Hin. by apply elem_of_nil in Hin. }
    unfold traffic_classes. destruct (p.1); set_solver.
  - unfold traffic_classes. repeat constructor; by eexists.
  - unfold traffic_classes. repeat constructor; intros i j [= <-] [= <-]; lia.
Qed.

(** The connections of a MAC layer, in the order in which they are to be served. *)
Record ready (c : MacConnections) (ks : list conn) : Prop := {
  rd_order : exists ps, by_priority (lcgMap_ c) ps /\ map snd ps = map c_cid ks;
  rd_distinct : NoDup (map c_cid ks);
  rd_present : Forall (present (connDesc_ c) (macBuffers_ c)) ks
}.

Lemma lcg_schedule_spec c ks dir available :
  ready c ks -> 0 <= available < 2 ^ 31 ->
  exists s c', lcg_schedule c available dir = Ok (s, c') /\
    Forall2 (served dir s (macBuffers_ c')) ks (shares dir available true ks) /\
    connDesc_ c' = connDesc_ c /\ lcgMap_ c' = lcgMap_ c /\
    (forall cid, cid ∉ map c_cid ks -> macBuffers_ c' !! cid = macBuffers_ c !! cid /\ scheduleList_ s !! cid = None).
Proof.
  intros [(ps & Hps & Ho) Hd Hp] Ha. rewrite <- (by_priority_order _ _ Hps) in Ho. unfold lcg_schedule. destruct (lcgMap_ c) as [|p l] eqn:El.
  - destruct ks as [|k ks]; [|done]. exists new_LcgScheduler, c. by repeat split.
  - rewrite Ho. set (r0 := {| lr_sched := new_LcgScheduler; lr_buffers := macBuffers_ c; lr_available := available; lr_firstSdu := true |}).
    destruct (serve_all_spec (connDesc_ c) dir ks r0 Hd Hp) as (r & -> & Hall & Hsame); [|done|].
    + apply Forall_true. by repeat split.
    + eexists _, _. split; [done|]. split; [exact Hall|]. split; [done|]. split; [done|].
      intros cid Hc. destruct (Hsame cid Hc) as (E1 & E2 & _). split; [exact E1|exact E2].
Qed.

(** *** The reference respects the grant *)

Definition given (ss : list (Z * Z)) : Z := foldr (fun s n => s.1 + n) 0 ss.

(** A share within the rules, for a connection and whether the grant was used up. *)
Definition fair (dir : Direction) (all : bool) (k : conn) (s : Z * Z) : Prop :=
  0 <= s.2 <= s.1 /\ (backlog dir k = 0 -> s.1 = 0) /\ (all = true -> s.2 = backlog dir k).

Lemma shares_fair dir available first ks :
  0 <= available -> Forall (fun k => 0 <= backlog dir k) ks ->
  0 <= given (shares dir available first ks) <= available /\
  Forall2 (fair dir (given (shares dir available first ks) <? available)) ks (shares dir available first ks).
Proof.
  intros Ha Hks. revert available first Ha. induction Hks as [|k ks Hk _ IH]; intros available first Ha; cbn [shares given foldr].
  { split; [lia|constructor]. }
  pose proof (share_range available first (c_desc k) (backlog dir k) Ha Hk) as Hs.
  destruct (IH (available - share available first (c_desc k) (backlog dir k)) (still_first available first (backlog dir k)))
    as (I1 & I2); [lia|].
  fold (given (shares dir (available - share available first (c_desc k) (backlog dir k))
    (still_first available first (backlog dir k)) ks)).
  set (g := given _) in *. cbn [fst]. split; [lia|].
  replace (share available first (c_desc k) (backlog dir k) + g <? available)
    with (g <? available - share available first (c_desc k) (backlog dir k)) by (apply eq_bool_prop_intro; rewrite !Is_true_true, !Z.ltb_lt; lia).
  constructor; [|done]. unfold fair. cbn [fst snd]. unfold share in *. rewrite headers_spec in *.
  pose proof (rlc_header_range (c_desc k)). pose proof (mac_header_range first).
  destruct (Z.eqb_spec (backlog dir k) 0) as [E|E]; [by rewrite E|].
  split; [lia|]. split; [done|]. rewrite Z.ltb_lt. lia.
Qed.

Lemma backlog_nonneg dir descs buffers k : present descs buffers k -> 0 <= backlog dir k.
Proof.
  intros (_ & b & _ & Hh). unfold backlog. case_bool_decide; [|done]. by apply (holds_occupancy b).
Qed.

(** C20. The scheduler computes the reference: the connections are served in the order of the
    priorities of their traffic classes (conversational, streaming, interactive,
    background), within a class as they were entered; each is given what it needs with its
    headers (two bytes of RLC and, for the first SDU, two of MAC), or what is left; its
    virtual buffer loses the payload, and the lists tell the bytes and whether there is
    an SDU; connections without a backlog in the direction of the grant are not listed. *)
Theorem lcg_matches_reference (c : MacConnections) (ks : list conn) (dir : Direction) (available : Z) :
  ready c ks -> 0 <= available < 2 ^ 31 ->
  exists s c', lcg_schedule c available dir = Ok (s, c') /\
    Forall2 (served dir s (macBuffers_ c')) ks (shares dir available true ks) /\
    (forall cid, cid ∉ map c_cid ks -> macBuffers_ c' !! cid = macBuffers_ c !! cid /\ scheduleList_ s !! cid = None).
Proof.
  intros Hr Ha. destruct (lcg_schedule_spec c ks dir available Hr Ha) as (s & c' & H & H1 & _ & _ & H2).
  by exists s, c'.
Qed.

Lemma given_listed dir s buffers ks ss all :
  Forall2 (served dir s buffers) ks ss -> Forall2 (fair dir all) ks ss ->
  foldr (fun k n => default 0 (scheduledBytesList_ s !! c_cid k) + n) 0 ks = given ss /\
  forall k, k ∈ ks -> exists b l, buffers !! c_cid k = Some b /\ holds b l /\
    total (c_packets k) - default 0 (scheduledBytesList_ s !! c_cid k) <= total l <= total (c_packets k) /\
    (all = true -> fi_direction (c_desc k) = dir -> total l = 0).
Proof.
  induction 1 as [|k p ks ss Hs Hall IH]; intros Hf; [split; [done|by intros k Hk%not_elem_of_nil]|].
  apply Forall2_cons in Hf as [(F1 & F2 & F3) Hf]. destruct (IH Hf) as [IHg IHk].
  destruct Hs as [(b & l & Hb & Hh & Ht) Hl].
  assert (El : default 0 (scheduledBytesList_ s !! c_cid k) = p.1).
  { destruct (Z.eqb_spec (backlog dir k) 0) as [E|E]; destruct Hl as [_ ->]; [symmetry; by apply F2|done]. }
  split; [cbn; by rewrite El, IHg|]. intros k' [->|Hk']%elem_of_cons; [|by apply IHk].
  exists b, l. rewrite El. split; [done|]. split; [done|]. split; [lia|].
  intros Ha Hd. rewrite Ht, (F3 Ha). unfold backlog. rewrite bool_decide_eq_true_2 by done. lia.
Qed.

(** The connections together are never given more than the grant, their payload never
    exceeds what they are given, and unless the grant is used up every backlog in its
    direction is served completely. *)
Theorem grant_respected (c : MacConnections) (ks : list conn) (dir : Direction) (available : Z) :
  ready c ks -> 0 <= available < 2 ^ 31 ->
  exists s c', lcg_schedule c available dir = Ok (s, c') /\
    let given := foldr (fun k n => default 0 (scheduledBytesList_ s !! c_cid k) + n) 0 ks in
    0 <= given <= available /\
    forall k, k ∈ ks -> exists b l, macBuffers_ c' !! c_cid k = Some b /\ holds b l /\
      total (c_packets k) - default 0 (scheduledBytesList_ s !! c_cid k) <= total l <= total (c_packets k) /\
      (given < available -> fi_direction (c_desc k) = dir -> total l = 0).
Proof.
  intros Hr Ha. destruct (lcg_schedule_spec c ks dir available Hr Ha) as (s & c' & H & Hall & _).
  exists s, c'. split; [done|].
  destruct (shares_fair dir available true ks) as (S1 & S2); [lia| |].
  { eapply Forall_impl; [apply Hr|]. intros k. apply backlog_nonneg. }
  destruct (given_listed _ _ _ _ _ _ Hall S2) as [Eg Hk]. cbv zeta. rewrite Eg. split; [done|].
  intros k Hin. destruct (Hk k Hin) as (b & l & Hb & Hh & Ht & Hd). exists b, l. rewrite <- Z.ltb_lt. done.
Qed.
