(* ===== verification/MacUe.v ===== *)
(** * The MAC layer of a UE

    [LteMacUe] with its base [LteMacBase] (src/simulte/src/stack/mac/layer/): data from
    RLC is announced to virtual buffers; a grant is shared among the connections, the
    SDUs are requested from RLC and put into a PDU, with a buffer status report, for the
    current H-ARQ process; without a grant the UE asks for one by random access; what
    H-ARQ receives goes up.

    A packet is known by its identifier: what it contains and the [FlowControlInfo] tag
    on it are functions of that.  Members the constructors leave uninitialised have the
    value [junk].  Overflow statistics, signals and the settings of the transmission
    ([UserTxParams]) are left out. *)

From stdpp Require Import sorting.
From Stdlib Require Import SpecFloat.
From S2P Require Import Prelude.
From S2P Require Import LteCommon.
From S2P Require Import LteBinder.
From S2P Require Import MacQueue.
From S2P Require Import LcgScheduler.
From S2P Require Import HarqTx.
From S2P Require Import HarqTxBuffer.
From S2P Require Import HarqRx.
From S2P Require Import HarqTxRun.
From S2P Require Import MacBase.
#[local] Open Scope Z_scope.

Definition UE_TX_HARQ_PROCESSES : Z := 8.

Record LteMacUe := {
  ue_nodeId_ : Z;
  ue_cellId_ : Z;
  macQueueSize_ : Z;
  harqProcesses_ : Z;
  ue_maxHarqRtx : Z;
  mbuf_ : gmap Z LteMacQueue;
  conns_ : MacConnections;
  connDescIn_ : gmap Z FlowControlInfo;
  harqTxBuffers_ : gmap Z LteHarqBufferTx;
  harqRxBuffers_ : gmap Z LteHarqBufferRx;
  lcgScheduler_ : LteSchedulerUeUl;
  schedulingGrant_ : option LteSchedulingGrant;
  firstTx : bool;
  currentHarq_ : Z;
  periodCounter_ : Z;
  expirationCounter_ : Z;
  requestedSdus_ : Z;
  racRequested_ : bool;
  racBackoffTimer_ : Z;
  maxRacTryouts_ : Z;
  currentRacTry_ : Z;
  raRespTimer_ : Z;
  raRespWinStart_ : Z;
  bsrTriggered_ : bool
}.

#[export] Instance macue_eta : Eta LteMacUe := fun s =>
  {| ue_nodeId_ := ue_nodeId_ s; ue_cellId_ := ue_cellId_ s; macQueueSize_ := macQueueSize_ s;
     harqProcesses_ := harqProcesses_ s; ue_maxHarqRtx := ue_maxHarqRtx s; mbuf_ := mbuf_ s; conns_ := conns_ s;
     connDescIn_ := connDescIn_ s; harqTxBuffers_ := harqTxBuffers_ s; harqRxBuffers_ := harqRxBuffers_ s;
     lcgScheduler_ := lcgScheduler_ s; schedulingGrant_ := schedulingGrant_ s; firstTx := firstTx s;
     currentHarq_ := currentHarq_ s; periodCounter_ := periodCounter_ s; expirationCounter_ := expirationCounter_ s;
     requestedSdus_ := requestedSdus_ s; racRequested_ := racRequested_ s; racBackoffTimer_ := racBackoffTimer_ s;
     maxRacTryouts_ := maxRacTryouts_ s; currentRacTry_ := currentRacTry_ s; raRespTimer_ := raRespTimer_ s;
     raRespWinStart_ := raRespWinStart_ s; bsrTriggered_ := bsrTriggered_ s |}.

(** The constructor, and the parameters [initialize] reads. *)
Definition new_LteMacUe (nodeId cellId queueSize harqProcesses maxHarqRtx : Z) : LteMacUe :=
  {| ue_nodeId_ := nodeId; ue_cellId_ := cellId; macQueueSize_ := queueSize; harqProcesses_ := harqProcesses;
     ue_maxHarqRtx := maxHarqRtx; mbuf_ := ∅; conns_ := new_MacConnections; connDescIn_ := ∅;
     harqTxBuffers_ := ∅; harqRxBuffers_ := ∅; lcgScheduler_ := new_LteSchedulerUeUl; schedulingGrant_ := None;
     firstTx := false; currentHarq_ := 0; periodCounter_ := 0; expirationCounter_ := 0; requestedSdus_ := 0;
     racRequested_ := false; racBackoffTimer_ := 0; maxRacTryouts_ := 0; currentRacTry_ := 0; raRespTimer_ := 0;
     raRespWinStart_ := 3; bsrTriggered_ := false |}.

Inductive mac_effect :=
| SduRequest (ueId lcid sduSize : Z) (info : FlowControlInfo)
| SduToRlc (sdu : Sdu)
| RacToPhy (source dest : Z)
| PduToPhy (pkt : Packet)
| FeedbackToPhy (fb : FeedbackPkt)
| ScheduleFlush.

(** The keys of a [std::map] over pairs, in order. *)
Definition pair_le (p q : Z * Z) : Prop := p.1 < q.1 \/ (p.1 = q.1 /\ p.2 <= q.2).

#[export] Instance pair_le_dec : RelDecision pair_le.
Proof. intros p q. unfold pair_le. apply _. Defined.

Definition ascending_pairs {A} (m : gmap (Z * Z) A) : list (Z * Z) := merge_sort pair_le (elements (dom m)).

Section Environment.
(** The tag of a packet; uninitialised memory; whether the MAC module of a node is found;
    [simtime_t::dbl] of the current time. *)
Variable flow_of : Z -> FlowControlInfo.
Variable junk : Z.
Variable mac_found : Z -> bool.
Variable time_dbl : Z -> spec_float.

(** ** From RLC *)

(** A packet from RLC: [Some n] announces [n] bytes of new data. *)
Record UpperPacket := { up_packet : MacPacket; up_newData : option Z }.

(** An announcement goes to the virtual buffer of the connection. *)
Definition announce (c : MacConnections) (cid : Z) (info : FlowControlInfo) (vpkt : PacketInfo) : result MacConnections :=
  match macBuffers_ c !! cid with
  | None =>
      let! vqueue := buffer_pushBack new_LteMacBuffer vpkt in
      Ok (c <| macBuffers_ := <[cid := vqueue]> (macBuffers_ c) |> <| connDesc_ := <[cid := info]> (connDesc_ c) |>
            <| lcgMap_ := lcgMap_ c ++ [(fi_traffic info, cid)] |>)
  | Some vqueue =>
      let! vqueue := buffer_pushBack vqueue vpkt in
      Ok (c <| macBuffers_ := <[cid := vqueue]> (macBuffers_ c) |>)
  end.

(** [bufferizePacket]; the answer of the first push into a new queue is not looked at. *)
Definition ue_bufferizePacket (NOW : Z) (s : LteMacUe) (p : UpperPacket) : result (bool * LteMacUe) :=
  let pkt := up_packet p in
  if bitLength pkt <=? 1 then Ok (false, s) else
  let pkt := {| mp_id := mp_id pkt; bitLength := bitLength pkt; pkt_timestamp := NOW; am_pdu := am_pdu pkt |} in
  let lteInfo := flow_of (mp_id pkt) in
  let! cid := ctrlInfoToMacCid lteInfo in
  match up_newData p with
  | Some bytes =>
      let! c := announce (conns_ s) cid lteInfo (int32 (uint32 bytes), NOW) in Ok (true, s <| conns_ := c |>)
  | None =>
      match mbuf_ s !! cid with
      | None =>
          let (_, q) := queue_pushBack (new_LteMacQueue (macQueueSize_ s)) pkt in
          Ok (true, s <| mbuf_ := <[cid := q]> (mbuf_ s) |>)
      | Some q =>
          let (fits, q) := queue_pushBack q pkt in
          Ok (fits, s <| mbuf_ := <[cid := q]> (mbuf_ s) |>)
      end
  end.

(** ** Requests to RLC *)

(** One request for each entry of the schedule list; [firstSdu] is the request the MAC
    header is taken from. *)
Fixpoint request_sdus (bytes : gmap (Z * Z) Z) (cwBytes : list Z) (descs : gmap Z FlowControlInfo) (firstSdu : bool)
    (entries : list (Z * Z)) : result (list mac_effect) :=
  match entries with
  | [] => Ok []
  | (cid, cw) :: entries' =>
      let! sduSize := of_option (bytes !! (cid, cw)) in
      let sduSize := uint32 (sduSize - mac_header firstSdu) in
      let! _ := of_option (vget cwBytes cw) in
      let! effs := request_sdus bytes cwBytes descs false entries' in
      Ok (SduRequest (MacCidToNodeId cid) (MacCidToLcid cid) sduSize (default new_FlowControlInfo (descs !! cid)) :: effs)
  end.

(** [connDesc_[destCid]] creates a missing descriptor. *)
Definition touch_descriptors (c : MacConnections) (entries : list (Z * Z)) : MacConnections :=
  c <| connDesc_ := fold_left (fun m e => <[e.1 := default new_FlowControlInfo (m !! e.1)]> m) entries (connDesc_ c) |>.

Definition macSduRequest (s : LteMacUe) (grant : LteSchedulingGrant) : result (Z * LteMacUe * list mac_effect) :=
  let entries := ascending_pairs (ul_scheduleList_ (lcgScheduler_ s)) in
  let! effs := request_sdus (ul_scheduledBytesList_ (lcgScheduler_ s)) (grantedCwBytes grant) (connDesc_ (conns_ s)) true entries in
  Ok (vsize entries, s <| conns_ := touch_descriptors (conns_ s) entries |>, effs).

(** ** PDUs *)

Definition new_pdu : LteMacPdu :=
  setHeaderLength {| sduList_ := []; ceList_ := []; macPduLength_ := 0; headerLength := 0; macPduId_ := junk;
                     macPduId := 0; chunkLength := 0 |} MAC_HEADER.

(** The codeword of the tag is not set. *)
Definition new_packet (nodeId cellId : Z) : Packet :=
  {| front := Some new_pdu;
     tag := {| acid := 0; cw := 0; txNumber := 0; ndi := true; direction := UL; sourceId := nodeId; destId := cellId;
               deciderResult := false |} |}.

Definition sdu_of (pkt : MacPacket) : Sdu := {| sdu_id := mp_id pkt; sdu_bytes := byteLength pkt |}.

(** [while (sduPerCid > 0)]; an empty queue ends it. *)
Fixpoint take_sdus (n : nat) (q : LteMacQueue) (pdu : LteMacPdu) : LteMacQueue * LteMacPdu :=
  match n with
  | O => (q, pdu)
  | S n' =>
      match queue_popFront q with
      | (None, q) => (q, pdu)
      | (Some pkt, q) => take_sdus n' q (mac_pushSdu pdu (sdu_of pkt))
      end
  end.

(** The loop over the schedule list: the queues, the PDU of each codeword, the bytes in
    the virtual buffers.  A new PDU takes its settings from the grant. *)
Fixpoint fill_pdus (s : LteMacUe) (entries : list (Z * Z)) (mbuf : gmap Z LteMacQueue) (pdus : gmap Z Packet) (size : Z)
    : result (gmap Z LteMacQueue * gmap Z Packet * Z) :=
  match entries with
  | [] => Ok (mbuf, pdus, size)
  | (cid, cw) :: entries' =>
      let sduPerCid := default 0 (ul_scheduleList_ (lcgScheduler_ s) !! (cid, cw)) in
      if (sduPerCid =? 0) && negb (bsrTriggered_ s) then fill_pdus s entries' mbuf pdus size else
      let! macPkt :=
        match pdus !! cw, schedulingGrant_ s with
        | Some macPkt, _ => Ok macPkt
        | None, Some _ => Ok (new_packet (ue_nodeId_ s) (ue_cellId_ s))
        | None, None => UB
        end in
      let! (mbuf, macPkt) :=
        if 0 <? sduPerCid then
          match mbuf !! cid with
          | None => Throw "Unable to find mac buffer for cid"
          | Some q =>
              let! (header, macPkt) := removeAtFront macPkt in
              let (q, header) := take_sdus (Z.to_nat sduPerCid) q header in
              Ok (<[cid := q]> mbuf, insertAtFront macPkt header)
          end
        else Ok (mbuf, macPkt) in
      let! vbuf := of_option (macBuffers_ (conns_ s) !! cid) in
      fill_pdus s entries' mbuf (<[cw := macPkt]> pdus) (size + queueOccupancy_ vbuf)
  end.

(** The loop over the PDUs: each goes to the current process of the buffer of the cell, or
    is dropped when no unit of it is empty.  The first one carries the report. *)
Fixpoint store_pdus (NOW size : Z) (s : LteMacUe) (pdus : list (Z * Packet)) : result LteMacUe :=
  match pdus with
  | [] => Ok s
  | (cw, macPkt) :: pdus' =>
      let destId := ue_cellId_ s in
      let! txBuf :=
        match harqTxBuffers_ s !! destId with
        | Some b => Ok b
        | None => if mac_found destId
                  then Ok (new_LteHarqBufferTx ENB_TX_HARQ_PROCESSES destId (ue_maxHarqRtx s) junk)
                  else UB
        end in
      let s := s <| harqTxBuffers_ := <[destId := txBuf]> (harqTxBuffers_ s) |> in
      let! txList := getEmptyUnits txBuf (currentHarq_ s) in
      let! (header, macPkt) := removeAtFront macPkt in
      let header := if bsrTriggered_ s then pushCe header (MacBsr (time_dbl NOW) (int32 size)) else header in
      let s := s <| bsrTriggered_ := false |> in
      let macPkt := insertAtFront macPkt header in
      let! s :=
        match txList.2 with
        | [] => Ok s
        | _ =>
            let! txBuf := buf_insertPdu txBuf txList.1 cw macPkt in
            Ok (s <| harqTxBuffers_ := <[destId := txBuf]> (harqTxBuffers_ s) |>)
        end in
      store_pdus NOW size s pdus'
  end.

Definition macPduMake (NOW : Z) (s : LteMacUe) : result LteMacUe :=
  let! (mbuf, pdus, size) := fill_pdus s (ascending_pairs (ul_scheduleList_ (lcgScheduler_ s))) (mbuf_ s) ∅ 0 in
  store_pdus NOW size (s <| mbuf_ := mbuf |>)
    (omap (fun cw => pkt ← pdus !! cw; Some (cw, pkt)) (ascending pdus)).

Definition next_harq (s : LteMacUe) : LteMacUe :=
  s <| currentHarq_ := uint8 (Z.rem (currentHarq_ s + 1) (harqProcesses_ s)) |>.

(** [ASSERT] throws. *)
Definition ue_handleUpperMessage (NOW : Z) (s : LteMacUe) (p : UpperPacket) : result LteMacUe :=
  let! (_, s) := ue_bufferizePacket NOW s p in
  match up_newData p with
  | Some _ => Ok s
  | None =>
      let s := s <| requestedSdus_ := requestedSdus_ s - 1 |> in
      if requestedSdus_ s <? 0 then Throw "ASSERT: Condition 'requestedSdus_ >= 0' does not hold"
      else if requestedSdus_ s =? 0 then let! s := macPduMake NOW s in Ok (next_harq s)
      else Ok s
  end.

(** ** To RLC *)

(** The loop of [macPduUnmake]; it takes an SDU in each turn. *)
Fixpoint unmake_sdus (sdus : list Sdu) (descs : gmap Z FlowControlInfo) : gmap Z FlowControlInfo * list mac_effect :=
  match sdus with
  | [] => (descs, [])
  | sdu :: sdus' =>
      let lteInfo := flow_of (sdu_id sdu) in
      let cid := idToMacCid (fi_sourceId lteInfo) (fi_lcid lteInfo) in
      let descs := match descs !! cid with Some _ => descs | None => <[cid := lteInfo]> descs end in
      let (descs, effs) := unmake_sdus sdus' descs in
      (descs, SduToRlc sdu :: effs)
  end.

Definition ue_macPduUnmake (s : LteMacUe) (pkt : Packet) : result (LteMacUe * list mac_effect) :=
  let! (pdu, _) := removeAtFront pkt in
  let (descs, effs) := unmake_sdus (sduList_ pdu) (connDescIn_ s) in
  Ok (s <| connDescIn_ := descs |>, effs).

Fixpoint unmake_all (s : LteMacUe) (pkts : list Packet) : result (LteMacUe * list mac_effect) :=
  match pkts with
  | [] => Ok (s, [])
  | pkt :: pkts' =>
      let! (s, e) := ue_macPduUnmake s pkt in
      let! (s, es) := unmake_all s pkts' in
      Ok (s, e ++ es)
  end.

(** ** Random access and grants *)

Definition backlogged (c : MacConnections) : bool :=
  bool_decide (map_Exists (fun _ b => buffer_isEmpty b = false) (macBuffers_ c)).

Definition checkRAC (s : LteMacUe) : LteMacUe * list mac_effect :=
  if 0 <? racBackoffTimer_ s then (s <| racBackoffTimer_ := racBackoffTimer_ s - 1 |>, []) else
  if 0 <? raRespTimer_ s then (s <| raRespTimer_ := raRespTimer_ s - 1 |>, []) else
  if racRequested_ s then (s <| racRequested_ := false |>, []) else
  let trigger := backlogged (conns_ s) in
  let s := s <| racRequested_ := trigger |> in
  if trigger then (s <| raRespTimer_ := raRespWinStart_ s |>, [RacToPhy (ue_nodeId_ s) (ue_cellId_ s)])
  else (s, []).

(** [draw] is the back-off drawn after a failure. *)
Definition macHandleRac (s : LteMacUe) (success : bool) (draw : Z) : LteMacUe :=
  if success then s <| bsrTriggered_ := true |> <| currentRacTry_ := 0 |> <| racBackoffTimer_ := 0 |>
  else
    let s := s <| currentRacTry_ := uint32 (currentRacTry_ s + 1) |> in
    if maxRacTryouts_ s <=? currentRacTry_ s then s <| currentRacTry_ := 0 |> <| racBackoffTimer_ := 0 |>
    else s <| racBackoffTimer_ := uint32 draw |>.

(** The first codeword's bytes are read for the log. *)
Definition macHandleGrant (s : LteMacUe) (grant : LteSchedulingGrant) : result LteMacUe :=
  let s := s <| schedulingGrant_ := Some grant |> in
  let s := if g_periodic grant then s <| periodCounter_ := g_period grant |> <| expirationCounter_ := g_expiration grant |>
           else s in
  let! _ := getGrantedCwBytes grant 0 in
  Ok (s <| racRequested_ := false |>).

(** ** The main loop *)

(** The received PDUs of all senders go up. *)
Fixpoint extract_all (NOW : Z) (s : LteMacUe) (srcs : list Z) : result (LteMacUe * list mac_effect) :=
  match srcs with
  | [] => Ok (s, [])
  | src :: srcs' =>
      let! b := of_option (harqRxBuffers_ s !! src) in
      let! (fbs, pkts, b) := extractCorrectPdus NOW b in
      let! (s, e) := unmake_all (s <| harqRxBuffers_ := <[src := b]> (harqRxBuffers_ s) |>) pkts in
      let! (s, es) := extract_all NOW s srcs' in
      Ok (s, map FeedbackToPhy fbs ++ e ++ es)
  end.

Fixpoint purge_all (s : LteMacUe) (srcs : list Z) : result LteMacUe :=
  match srcs with
  | [] => Ok s
  | src :: srcs' =>
      let! b := of_option (harqRxBuffers_ s !! src) in
      let! (_, b) := purgeCorruptedPdus b in
      purge_all (s <| harqRxBuffers_ := <[src := b]> (harqRxBuffers_ s) |>) srcs'
  end.

(** Retransmissions are selected in every buffer; the answer is that of the last one. *)
Fixpoint retransmit_all (s : LteMacUe) (layers : Z) (dests : list Z) (retx : bool) : result (bool * LteMacUe) :=
  match dests with
  | [] => Ok (retx, s)
  | dest :: dests' =>
      let! b := of_option (harqTxBuffers_ s !! dest) in
      let! p := getProcess b (currentHarq_ s) in
      let! retx := hasReadyUnits p in
      let! b := mac_retransmit b (currentHarq_ s) layers in
      retransmit_all (s <| harqTxBuffers_ := <[dest := b]> (harqTxBuffers_ s) |>) layers dests' retx
  end.

(** What is done with a grant. *)
Definition use_grant (NOW : Z) (s : LteMacUe) (grant : LteSchedulingGrant) : result (LteMacUe * list mac_effect) :=
  let s := if firstTx s then s else s <| firstTx := true |> <| currentHarq_ := UE_TX_HARQ_PROCESSES - 2 |> in
  let! (retx, s) := retransmit_all s (g_layers grant) (ascending (harqTxBuffers_ s)) false in
  let! (s, effs) :=
    if retx then Ok (s, [])
    else
      let! (l, c) := ul_schedule (lcgScheduler_ s) grant (conns_ s) in
      let! (n, s, effs) := macSduRequest (s <| lcgScheduler_ := l |> <| conns_ := c |>) grant in
      let s := s <| requestedSdus_ := n |> in
      if n =? 0 then let! s := macPduMake NOW s in Ok (s, effs) else Ok (s, effs) in
  Ok (s, effs ++ [ScheduleFlush]).

(** The counters of a periodic grant are unsigned.  [None]: the loop ends here. *)
Definition check_grant (s : LteMacUe) : option (LteMacUe * list mac_effect) * LteMacUe :=
  match schedulingGrant_ s with
  | None => (Some (checkRAC s), s)
  | Some grant =>
      if g_periodic grant then
        let s := s <| expirationCounter_ := uint32 (expirationCounter_ s - 1) |> in
        if expirationCounter_ s <? 0 then (Some (checkRAC (s <| schedulingGrant_ := None |>)), s)
        else
          let s := s <| periodCounter_ := uint32 (periodCounter_ s - 1) |> in
          if 0 <? periodCounter_ s then (None, s)
          else (Some (s <| periodCounter_ := g_period grant |>, []), s)
      else (Some (s, []), s)
  end.

Definition ue_handleSelfMessage (NOW : Z) (s : LteMacUe) : result (LteMacUe * list mac_effect) :=
  let! (s, up) := extract_all NOW s (ascending (harqRxBuffers_ s)) in
  match check_grant s with
  | (None, s) => Ok (s, up)
  | (Some (s, rac), _) =>
      let s := s <| requestedSdus_ := 0 |> in
      let! (s, effs) := match schedulingGrant_ s with None => Ok (s, []) | Some grant => use_grant NOW s grant end in
      let! s := purge_all s (ascending (harqRxBuffers_ s)) in
      Ok (if requestedSdus_ s =? 0 then next_harq s else s, up ++ rac ++ effs)
  end.

(** [updateUserTxParam] reads the grant for every PDU sent. *)
Fixpoint flush_all (NOW : Z) (s : LteMacUe) (dests : list Z) : result (LteMacUe * list mac_effect) :=
  match dests with
  | [] => Ok (s, [])
  | dest :: dests' =>
      let! b := of_option (harqTxBuffers_ s !! dest) in
      let! (pkts, b) := sendSelectedDown NOW b in
      let! _ := match pkts, schedulingGrant_ s with _ :: _, None => UB | _, _ => Ok tt end in
      let! (s, es) := flush_all NOW (s <| harqTxBuffers_ := <[dest := b]> (harqTxBuffers_ s) |>) dests' in
      Ok (s, map PduToPhy pkts ++ es)
  end.

Definition flushHarqBuffers (NOW : Z) (s : LteMacUe) : result (LteMacUe * list mac_effect) :=
  let! (s, effs) := flush_all NOW s (ascending (harqTxBuffers_ s)) in
  let s := match schedulingGrant_ s with
           | Some grant => if g_periodic grant then s else s <| schedulingGrant_ := None |>
           | None => s
           end in
  Ok (s, effs).

(** ** Handover *)

Definition ue_doHandover (s : LteMacUe) (targetEnb : Z) : LteMacUe := s <| ue_cellId_ := targetEnb |>.

Definition ue_deleteQueues (s : LteMacUe) : LteMacUe :=
  s <| mbuf_ := ∅ |> <| conns_ := new_MacConnections |> <| harqTxBuffers_ := ∅ |> <| harqRxBuffers_ := ∅ |>.

(** ** From PHY *)

Inductive PhyPacket :=
| HarqPkt (src : Z) (fb : LteHarqFeedback)
| FeedbackToMac
| GrantPkt (grant : LteSchedulingGrant)
| DataPkt (pkt : Packet)
| RacPkt (success : bool)
| UnknownPkt.

(** [fromPhy]; channel feedback is ignored, [draw] is the back-off a failed random access
    draws. *)
Definition ue_fromPhy (binder : LteBinder) (NOW draw : Z) (s : LteMacUe) (p : PhyPacket) : result LteMacUe :=
  match p with
  | HarqPkt src fb =>
      let! tx := fromPhy_harq binder (ue_nodeId_ s) src fb (harqTxBuffers_ s) in Ok (s <| harqTxBuffers_ := tx |>)
  | FeedbackToMac => Ok s
  | GrantPkt grant => macHandleGrant s grant
  | DataPkt pkt =>
      let! rx := fromPhy_pdu NOW (ue_maxHarqRtx s) pkt (harqRxBuffers_ s) in Ok (s <| harqRxBuffers_ := rx |>)
  | RacPkt success => Ok (macHandleRac s success draw)
  | UnknownPkt => Throw "Unknown packet type"
  end.

(** The backlogged connections, of which the highest is the first and the lowest the last. *)
Definition backlogged_flows (c : MacConnections) : list Z :=
  filter (fun cid => match macBuffers_ c !! cid with Some b => negb (buffer_isEmpty b) | None => false end = true)
    (ascending (macBuffers_ c)).

Definition getHighestBackloggedFlow (c : MacConnections) : option Z := head (backlogged_flows c).
Definition getLowestBackloggedFlow (c : MacConnections) : option Z := last (backlogged_flows c).
End Environment.
