(* ===== verification/MacUeRac.v ===== *)
(** * Random access of the UE

    Without a grant and with data to send, the UE asks for a grant by random access, waits
    for [raRespWinStart_] TTIs and one more, and asks again: the requests leave exactly at
    the TTIs of a periodic schedule. *)

From Stdlib Require Import SpecFloat.
From S2P Require Import Prelude.
From S2P Require Import LteCommon.
From S2P Require Import LteBinder.
From S2P Require Import MacQueue.
From S2P Require Import LcgScheduler.
From S2P Require Import HarqTx.
From S2P Require Import HarqTxBuffer.
From S2P Require Import HarqRx.
From S2P Require Import MacUe.
#[local] Open Scope Z_scope.

Section Rac.
Variable flow_of : Z -> FlowControlInfo.
Variable junk : Z.
Variable mac_found : Z -> bool.
Variable time_dbl : Z -> spec_float.

Abbreviation loop := (ue_handleSelfMessage flow_of junk mac_found time_dbl).

(** Nothing is received and nothing waits to be answered. *)
Definition silent (s : LteMacUe) : Prop :=
  forall NOW src b, harqRxBuffers_ s !! src = Some b ->
    extractCorrectPdus NOW b = Ok ([], [], b) /\ purgeCorruptedPdus b = Ok (0, b).

Definition idle (s : LteMacUe) : Prop := silent s /\ schedulingGrant_ s = None.

Lemma extract_all_silent NOW s srcs :
  silent s -> Forall (fun src => is_Some (harqRxBuffers_ s !! src)) srcs -> extract_all flow_of NOW s srcs = Ok (s, []).
Proof.
  intros Hs. induction 1 as [|src srcs [b Hb] _ IH]; [done|]. cbn [extract_all]. rewrite Hb. cbn [of_option rbind].
  rewrite (proj1 (Hs NOW src b Hb)). cbn [rbind unmake_all].
  rewrite insert_id by done. assert (E : s <| harqRxBuffers_ := harqRxBuffers_ s |> = s) by (by destruct s).
  rewrite E, IH. done.
Qed.

Lemma purge_all_silent s srcs :
  silent s -> Forall (fun src => is_Some (harqRxBuffers_ s !! src)) srcs -> purge_all s srcs = Ok s.
Proof.
  intros Hs. induction 1 as [|src srcs [b Hb] _ IH]; [done|]. cbn [purge_all]. rewrite Hb. cbn [of_option rbind].
  rewrite (proj2 (Hs 0 src b Hb)). cbn [rbind].
  rewrite insert_id by done. assert (E : s <| harqRxBuffers_ := harqRxBuffers_ s |> = s) by (by destruct s).
  by rewrite E.
Qed.

Lemma ascending_present {A} (m : gmap Z A) : Forall (fun k => is_Some (m !! k)) (ascending m).
Proof. apply Forall_forall. intros k Hk. by apply elem_of_ascending. Qed.

(** A TTI without a grant. *)
Lemma idle_tti NOW s :
  idle s -> loop NOW s = Ok (next_harq ((checkRAC s).1 <| requestedSdus_ := 0 |>), (checkRAC s).2).
Proof.
  intros [Hs Hg]. unfold ue_handleSelfMessage.
  rewrite (extract_all_silent NOW s) by (done || apply ascending_present). cbn [rbind].
  unfold check_grant. rewrite Hg. destruct (checkRAC s) as [s1 rac] eqn:Er.
  assert (E : schedulingGrant_ s1 = None /\ harqRxBuffers_ s1 = harqRxBuffers_ s).
  { unfold checkRAC in Er. repeat case_match; by injection Er as <- <-. }
  destruct E as [E1 E2]. cbn [set]. unfold set. cbn. rewrite E1. cbn [rbind].
  rewrite purge_all_silent; [|intros NOW' src b; cbn; rewrite E2; apply Hs|cbn; apply ascending_present].
  cbn. by rewrite !app_nil_r.
Qed.

Fixpoint ttis (s : LteMacUe) (nows : list Z) : result (LteMacUe * list (list mac_effect)) :=
  match nows with
  | [] => Ok (s, [])
  | NOW :: nows' =>
      let! (s, e) := loop NOW s in
      let! (s, es) := ttis s nows' in
      Ok (s, e :: es)
  end.

(** Whether a request is due [i] TTIs from now. *)
Definition rac_due (s : LteMacUe) (i : Z) : bool :=
  let t0 := racBackoffTimer_ s + raRespTimer_ s + Z.b2z (racRequested_ s) in
  (t0 <=? i) && ((i - t0) mod (raRespWinStart_ s + 2) =? 0).

(** One check: a timer runs down, the flag is cleared, or a request leaves. *)
Record counting (s s' : LteMacUe) : Prop := {
  co_idle : idle s -> idle s';
  co_conns : conns_ s' = conns_ s;
  co_window : raRespWinStart_ s' = raRespWinStart_ s;
  co_nonneg : 0 <= racBackoffTimer_ s -> 0 <= raRespTimer_ s -> 0 <= raRespWinStart_ s ->
              0 <= racBackoffTimer_ s' /\ 0 <= raRespTimer_ s';
  co_from : ue_nodeId_ s' = ue_nodeId_ s /\ ue_cellId_ s' = ue_cellId_ s
}.

Lemma checkRAC_counting s : counting s (next_harq ((checkRAC s).1 <| requestedSdus_ := 0 |>)).
Proof.
  unfold checkRAC, next_harq. destruct (Z.ltb_spec 0 (racBackoffTimer_ s)); [by split; cbn; [|..|lia|]|].
  destruct (Z.ltb_spec 0 (raRespTimer_ s)); [by split; cbn; [|..|lia|]|].
  destruct (racRequested_ s); [by split|]. destruct (backlogged (conns_ s)); by split.
Qed.

Definition due (t0 period i : Z) : bool := (t0 <=? i) && ((i - t0) mod period =? 0).

Lemma due_pred t0 period i : 0 < t0 -> 0 <= i -> due t0 period (i + 1) = due (t0 - 1) period i.
Proof.
  intros Ht Hi. unfold due. replace (i + 1 - t0) with (i - (t0 - 1)) by lia. f_equal.
  apply eq_bool_prop_intro. rewrite !Is_true_true, !Z.leb_le. lia.
Qed.

Lemma due_again period i : 1 < period -> 0 <= i -> due 0 period (i + 1) = due (period - 1) period i.
Proof.
  intros Hp Hi. unfold due. rewrite (proj2 (Z.leb_le 0 (i + 1))) by lia. cbn [andb]. rewrite Z.sub_0_r.
  destruct (Z.leb_spec (period - 1) i) as [H|H]; cbn [andb].
  - f_equal. replace (i + 1) with (i - (period - 1) + 1 * period) by lia. by rewrite Z.mod_add by lia.
  - rewrite Z.mod_small by lia. apply Z.eqb_neq. lia.
Qed.

Lemma rac_due_is s i : rac_due s i = due (racBackoffTimer_ s + raRespTimer_ s + Z.b2z (racRequested_ s)) (raRespWinStart_ s + 2) i.
Proof. done. Qed.

Definition request (s : LteMacUe) (now : bool) : list mac_effect :=
  if now then [RacToPhy (ue_nodeId_ s) (ue_cellId_ s)] else [].

Lemma checkRAC_due s :
  backlogged (conns_ s) = true -> 0 <= racBackoffTimer_ s -> 0 <= raRespTimer_ s -> 0 <= raRespWinStart_ s ->
  (checkRAC s).2 = request s (rac_due s 0) /\
  forall i, 0 <= i -> rac_due (next_harq ((checkRAC s).1 <| requestedSdus_ := 0 |>)) i = rac_due s (i + 1).
Proof.
  intros Hb H1 H2 H3. rewrite rac_due_is. unfold checkRAC.
  destruct (Z.ltb_spec 0 (racBackoffTimer_ s)) as [L1|L1].
  - split; [unfold due; by rewrite (proj2 (Z.leb_gt _ _)) by (destruct (racRequested_ s); cbn; lia)|].
    intros i Hi. rewrite !rac_due_is, due_pred by (destruct (racRequested_ s); cbn; lia). cbn. f_equal. lia.
  - destruct (Z.ltb_spec 0 (raRespTimer_ s)) as [L2|L2].
    + split; [unfold due; by rewrite (proj2 (Z.leb_gt _ _)) by (destruct (racRequested_ s); cbn; lia)|].
      intros i Hi. rewrite !rac_due_is, due_pred by (destruct (racRequested_ s); cbn; lia). cbn. f_equal. lia.
    + assert (E1 : racBackoffTimer_ s = 0) by lia. assert (E2 : raRespTimer_ s = 0) by lia.
      destruct (racRequested_ s) eqn:Er; cbn [Z.b2z]; rewrite E1, E2.
      * split; [done|]. intros i Hi. rewrite !rac_due_is, Er, E1, E2, due_pred by (cbn; lia). cbn. f_equal. lia.
      * rewrite Hb. split; [done|]. intros i Hi. rewrite !rac_due_is, Er, E1, E2. cbn [Z.b2z Z.add].
        rewrite due_again by lia. cbn. rewrite E1. f_equal; lia.
Qed.

(** C29. Without a grant and with data to send, from whatever the timers and the flag say,
    the main loop asks for a grant exactly at the TTIs of a periodic schedule: first when
    the timers have run out and the flag is cleared, then every [raRespWinStart_] + 2. *)
Theorem rac_requests_periodic (s : LteMacUe) (nows : list Z) :
  idle s -> backlogged (conns_ s) = true ->
  0 <= racBackoffTimer_ s -> 0 <= raRespTimer_ s -> 0 <= raRespWinStart_ s ->
  exists s', ttis s nows =
    Ok (s', map (fun i => request s (rac_due s i)) (seqZ 0 (vsize nows))).
Proof.
  revert s. induction nows as [|NOW nows IH]; intros s Hi Hb H1 H2 H3; [by exists s|].
  cbn [ttis]. rewrite (idle_tti NOW s Hi). cbn [rbind].
  pose proof (checkRAC_counting s) as [C1 C2 C3 C4 [C5 C6]].
  destruct (checkRAC_due s Hb H1 H2 H3) as [Hnow Hnext].
  set (s1 := next_harq _) in *. destruct (C4 H1 H2 H3) as [P1 P2].
  destruct (IH s1 (C1 Hi)) as [s' E]; [by rewrite C2|done|done|by rewrite C3|].
  rewrite E. cbn [rbind]. exists s'. rewrite Hnow.
  rewrite (seqZ_cons 0 (vsize (NOW :: nows))) by (cbn [length]; lia). cbn [map]. do 3 f_equal.
  replace (Z.pred _) with (vsize nows) by (cbn [length]; lia). change (Z.succ 0) with (1 + 0).
  rewrite <- (fmap_add_seqZ 1 0), <- list_fmap_compose. apply list_fmap_ext. intros j i Hj. cbn.
  apply lookup_seqZ in Hj as [-> Hj]. unfold request. rewrite C5, C6, Hnext by lia.
  by rewrite (Z.add_comm _ 1).
Qed.
End Rac.

(** *** A UE with announced data *)

Definition rac_info (class : LteTrafficClass) (lcid : Z) : FlowControlInfo :=
  new_FlowControlInfo <| fi_direction := UL |> <| fi_sourceId := 1025 |> <| fi_lcid := lcid |>
    <| fi_traffic := class |> <| fi_rlcType := UM |>.

Definition rac_demo : LteMacUe :=
  match ue_handleUpperMessage (fun _ => rac_info CONVERSATIONAL 1) 0 (fun _ => true) (fun _ => S754_zero false) 0
    (new_LteMacUe 1025 1 0 8 3) {| up_packet := {| mp_id := 0; bitLength := 16; pkt_timestamp := 0; am_pdu := None |};
                                   up_newData := Some 100 |} with
  | Ok s => s
  | _ => new_LteMacUe 1025 1 0 8 3
  end.

Lemma rac_requests_periodic_witness :
  exists s', ttis (fun _ => rac_info CONVERSATIONAL 1) 0 (fun _ => true) (fun _ => S754_zero false) rac_demo
    (map (Z.mul TTI) (seqZ 1 12)) =
    Ok (s', map (fun i => request rac_demo (rac_due rac_demo i)) (seqZ 0 12)) /\
    map (fun i => rac_due rac_demo i) (seqZ 0 12) =
      [true; false; false; false; false; true; false; false; false; false; true; false].
Proof.
  destruct (rac_requests_periodic (fun _ => rac_info CONVERSATIONAL 1) 0 (fun _ => true) (fun _ => S754_zero false)
    rac_demo (map (Z.mul TTI) (seqZ 1 12))) as [s' H].
  - split; [|reflexivity]. intros NOW src b Hb. vm_compute in Hb. discriminate Hb.
  - vm_compute. reflexivity.
  - vm_compute. discriminate.
  - vm_compute. discriminate.
  - vm_compute. discriminate.
  - exists s'. split; [exact H|vm_compute; reflexivity].
Defined.
