(* ===== verification/MacUeUplink.v ===== *)
(** * A grant in the MAC layer of a UE

    What the MAC layer asks of RLC for a grant: the requests are those of the reference
    shares, in the order of the connection identifiers, the first one less the MAC header.
    They fit into the grant, unless the first one was given less than the header. *)

From stdpp Require Import sorting.
From Stdlib Require Import SpecFloat.
From S2P Require Import Prelude.
From S2P Require Import LteCommon.
From S2P Require Import LteBinder.
From S2P Require Import RlcUm.
From S2P Require Import MacQueue.
From S2P Require Import LcgScheduler.
From S2P Require Import LcgProps.
From S2P Require Import MacUe.
#[local] Open Scope Z_scope.

(** ** Sorting *)

#[export] Instance pair_le_trans : Transitive pair_le.
Proof. intros p q r. unfold pair_le. lia. Qed.

#[export] Instance pair_le_total : Total pair_le.
Proof. intros p q. unfold pair_le. lia. Qed.

#[export] Instance pair_le_antisymm : AntiSymm (=) pair_le.
Proof. intros [a b] [c d]. unfold pair_le. cbn. intros. f_equal; lia. Qed.

(** The keys of a map are known by its elements, in order. *)
Lemma ascending_pairs_unique {A} (m : gmap (Z * Z) A) l :
  StronglySorted pair_le l -> NoDup l -> (forall p, p ∈ l <-> is_Some (m !! p)) -> ascending_pairs m = l.
Proof.
  intros Hs Hn Hm. apply (StronglySorted_unique pair_le); [apply StronglySorted_merge_sort; apply _|done|].
  unfold ascending_pairs. rewrite merge_sort_Permutation. apply NoDup_Permutation; [apply NoDup_elements|done|].
  intros p. by rewrite elem_of_elements, elem_of_dom, Hm.
Qed.

(** ** The demands of a grant *)

Definition demand_le (p q : conn * Z) : Prop := c_cid p.1 <= c_cid q.1.

#[export] Instance demand_le_dec : RelDecision demand_le.
Proof. intros p q. unfold demand_le. apply _. Defined.

#[export] Instance demand_le_trans : Transitive demand_le.
Proof. intros p q r. unfold demand_le. lia. Qed.

#[export] Instance demand_le_total : Total demand_le.
Proof. intros p q. unfold demand_le. lia. Qed.

(** The connections with a backlog and what each was given, by identifier. *)
Definition demands (dir : Direction) (available : Z) (ks : list conn) : list (conn * Z) :=
  merge_sort demand_le
    (filter (fun p => backlog dir p.1 <> 0) (zip ks (map fst (shares dir available true ks)))).

Fixpoint requests (first : bool) (ds : list (conn * Z)) : list mac_effect :=
  match ds with
  | [] => []
  | (k, n) :: ds' =>
      SduRequest (MacCidToNodeId (c_cid k)) (MacCidToLcid (c_cid k)) (uint32 (n - mac_header first)) (c_desc k)
      :: requests false ds'
  end.

Definition key (p : conn * Z) : Z * Z := (c_cid p.1, 0).

Lemma shares_length dir available first ks : length (shares dir available first ks) = length ks.
Proof. revert available first. induction ks as [|k ks IH]; intros; cbn; [done|by rewrite IH]. Qed.

Lemma demands_elem dir available ks k n :
  (k, n) ∈ demands dir available ks <->
  backlog dir k <> 0 /\ exists i s, ks !! i = Some k /\ shares dir available true ks !! i = Some s /\ n = s.1.
Proof.
  unfold demands. rewrite merge_sort_Permutation, list_elem_of_filter. cbn. f_equiv.
  rewrite list_elem_of_lookup. f_equiv. intros i. rewrite lookup_zip_with_Some. setoid_rewrite list_lookup_fmap_Some.
  naive_solver.
Qed.

Lemma demands_sublist dir available ks : map (fun p => c_cid p.1) (demands dir available ks) ⊆+ map c_cid ks.
Proof.
  unfold demands. rewrite merge_sort_Permutation.
  transitivity (map (fun p => c_cid p.1) (zip ks (map fst (shares dir available true ks)))).
  - apply fmap_submseteq. apply sublist_submseteq. apply sublist_filter.
  - rewrite <- (fst_zip ks (map fst (shares dir available true ks))) at 3 by (rewrite length_map, shares_length; done).
    by rewrite map_map.
Qed.

Lemma demands_keys {A} (dir : Direction) (available : Z) (ks : list conn) (m : gmap (Z * Z) A) :
  NoDup (map c_cid ks) ->
  (forall cid cw, is_Some (m !! (cid, cw)) <-> cw = 0 /\ exists n k, (k, n) ∈ demands dir available ks /\ c_cid k = cid) ->
  ascending_pairs m = map key (demands dir available ks).
Proof.
  intros Hnd Hm. apply ascending_pairs_unique.
  - unfold demands. generalize (StronglySorted_merge_sort demand_le
      (filter (fun p => backlog dir p.1 <> 0) (zip ks (map fst (shares dir available true ks))))).
    induction 1 as [|p l _ IH Hp]; cbn [map]; constructor; [done|]. rewrite Forall_map. eapply Forall_impl; [exact Hp|].
    intros q Hq. unfold demand_le in Hq. unfold pair_le, key. cbn. lia.
  - apply (NoDup_fmap_1 fst). rewrite <- list_fmap_compose. destruct (submseteq_Permutation _ _ (demands_sublist dir available ks)) as [k Hk].
    rewrite Hk in Hnd. by apply NoDup_app in Hnd as [? _].
  - intros [cid cw]. rewrite Hm, list_elem_of_fmap. unfold key. split.
    + intros ([k n] & E & Hin). injection E as Hcid Hcw. subst cid cw. split; [done|]. by exists n, k.
    + intros (Hcw & n & k & Hin & Hcid). subst cid cw. by exists (k, n).
Qed.

(** ** The requests *)

Lemma elem_zip {A B} (l : list A) (l' : list B) i x y : l !! i = Some x -> l' !! i = Some y -> (x, y) ∈ zip l l'.
Proof. intros Hx Hy. apply list_elem_of_lookup. exists i. rewrite lookup_zip_with, Hx. cbn. by rewrite Hy. Qed.

(** What the lists of the scheduler say is what the demands say. *)
Lemma served_listed dir available c c' ks s :
  ready c ks -> Forall2 (served dir s (macBuffers_ c')) ks (shares dir available true ks) ->
  (forall cid, cid ∉ map c_cid ks -> scheduleList_ s !! cid = None) ->
  (forall cid, is_Some (scheduleList_ s !! cid) <-> exists n k, (k, n) ∈ demands dir available ks /\ c_cid k = cid) /\
  (forall k n, (k, n) ∈ demands dir available ks -> scheduledBytesList_ s !! c_cid k = Some n).
Proof.
  intros Hr Hall Hother. split.
  - intros cid. split.
    + intros [x Hx]. destruct (decide (cid ∈ map c_cid ks)) as [Hin|Hn]; [|by rewrite Hother in Hx].
      apply list_elem_of_fmap in Hin as (k & -> & Hk). apply list_elem_of_lookup in Hk as [i Hi].
      destruct (Forall2_lookup_l _ _ _ _ _ Hall Hi) as (sh & Hsh & _ & Hs). exists sh.1, k. split; [|done].
      apply demands_elem. split; [|by exists i, sh]. destruct (Z.eqb_spec (backlog dir k) 0); [|done].
      rewrite (proj1 Hs) in Hx. done.
    + intros (n & k & (Hb & i & sh & Hi & Hsh & ->)%demands_elem & <-).
      destruct (Forall2_lookup_l _ _ _ _ _ Hall Hi) as (sh' & Hsh' & _ & Hs).
      rewrite (proj2 (Z.eqb_neq _ _) Hb) in Hs. destruct Hs as [-> _]. by eexists.
  - intros k n (Hb & i & sh & Hi & Hsh & ->)%demands_elem.
    destruct (Forall2_lookup_lr _ _ _ _ _ _ Hall Hi Hsh) as [_ Hs].
    rewrite (proj2 (Z.eqb_neq _ _) Hb) in Hs. apply Hs.
Qed.

Lemma request_sdus_spec bytes cwBytes descs first ds :
  (forall p, p ∈ ds -> bytes !! key p = Some p.2 /\ descs !! c_cid p.1 = Some (c_desc p.1)) ->
  is_Some (vget cwBytes 0) ->
  request_sdus bytes cwBytes descs first (map key ds) = Ok (requests first ds).
Proof.
  intros Hd [w Hw]. revert first Hd. induction ds as [|[k n] ds IH]; intros first Hd; [done|]. cbn [map request_sdus requests].
  destruct (Hd (k, n)) as [Hb Hc]; [by left|]. unfold key at 1. unfold key in Hb. cbn [fst snd] in Hb, Hc |- *.
  rewrite Hb. cbn [of_option rbind]. rewrite Hw. cbn [of_option rbind]. rewrite IH by (intros p Hp; apply Hd; by right).
  cbn [rbind]. by rewrite Hc.
Qed.

Lemma for_cw_lookup (m : gmap Z Z) cid : for_cw m 0 !! (cid, 0) = m !! cid.
Proof. unfold for_cw. apply (lookup_kmap (fun cid => (cid, 0))). Qed.

Lemma for_cw_other (m : gmap Z Z) cid cw : is_Some (for_cw m 0 !! (cid, cw)) -> cw = 0 /\ is_Some (m !! cid).
Proof.
  intros [x Hx]. unfold for_cw in Hx. apply (lookup_kmap_Some (fun cid => (cid, 0))) in Hx as (c & E & Hx).
  injection E as -> ->. split; [done|by eexists].
Qed.

(** A grant for one codeword. *)
Record one_codeword (g : LteSchedulingGrant) (available : Z) : Prop := {
  oc_count : g_codewords g = 1;
  oc_bytes : vget (grantedCwBytes g) 0 = Some available;
  oc_range : 0 <= available < 2 ^ 31
}.

(** The part of the main loop that shares a grant and asks for the SDUs. *)
Definition share_grant (s : LteMacUe) (grant : LteSchedulingGrant) : result (Z * LteMacUe * list mac_effect) :=
  let! (l, c) := ul_schedule (lcgScheduler_ s) grant (conns_ s) in
  macSduRequest (s <| lcgScheduler_ := l |> <| conns_ := c |>) grant.

Lemma macSduRequest_spec s grant ds :
  ascending_pairs (ul_scheduleList_ (lcgScheduler_ s)) = map key ds ->
  (forall p, p ∈ ds -> ul_scheduledBytesList_ (lcgScheduler_ s) !! key p = Some p.2 /\
                       connDesc_ (conns_ s) !! c_cid p.1 = Some (c_desc p.1)) ->
  is_Some (vget (grantedCwBytes grant) 0) ->
  exists s', macSduRequest s grant = Ok (vsize ds, s', requests true ds).
Proof.
  intros Ha Hd Hw. unfold macSduRequest. rewrite Ha, request_sdus_spec by done. cbn [rbind]. rewrite length_map. by eexists.
Qed.

Lemma share_grant_spec s grant available ks :
  one_codeword grant available -> ready (conns_ s) ks ->
  exists s', share_grant s grant =
    Ok (vsize (demands (g_direction grant) available ks), s', requests true (demands (g_direction grant) available ks)).
Proof.
  intros [Hc1 Hc2 Hc3] Hr. unfold share_grant, ul_schedule. rewrite Hc1. change (Z.to_nat 1) with 1%nat. cbn [schedule_cws].
  unfold getGrantedCwBytes. rewrite Hc2. cbn [rbind].
  destruct (lcg_schedule_spec _ ks (g_direction grant) available Hr Hc3) as (l & c' & -> & Hall & Hd & _ & Ho).
  cbn [rbind]. destruct (served_listed _ _ _ c' _ l Hr Hall (fun cid H => proj2 (Ho cid H))) as [Hl Hb].
  set (D := demands _ _ _) in *. case_decide as E; cbn [rbind].
  - assert (HD : D = []).
    { destruct D as [|[k n] D]; [done|]. destruct (proj2 (Hl (c_cid k))) as [x Hx]; [exists n, k; by split; [left|]|].
      by rewrite E, lookup_empty in Hx. }
    rewrite HD. apply (macSduRequest_spec _ _ []); [reflexivity|by intros p Hp%elem_of_nil|by eexists].
  - apply macSduRequest_spec; [|intros [k n] Hin; unfold key; cbn; split|by eexists].
    + cbn. rewrite (right_id_L ∅ (∪)). apply demands_keys; [apply Hr|].
      intros cid cw. unfold D in Hl. rewrite <- Hl. split; [apply for_cw_other|]. intros [-> H]. by rewrite for_cw_lookup.
    + apply lookup_union_Some_l. rewrite for_cw_lookup. by apply Hb.
    + rewrite Hd. apply demands_elem in Hin as (_ & i & sh & Hi & _). by apply (Forall_lookup_1 _ _ i k (rd_present _ _ Hr)).
Qed.

(** ** The requests fit into the grant *)

Definition asked (effs : list mac_effect) : Z :=
  foldr (fun e n => match e with SduRequest _ _ size _ => size + n | _ => n end) 0 effs.

Definition demanded (ds : list (conn * Z)) : Z := foldr (fun p n => p.2 + n) 0 ds.

#[export] Instance demanded_perm : Proper ((≡ₚ) ==> (=)) demanded.
Proof. intros l l' H. unfold demanded. apply (foldr_permutation_proper _ _ _); [|done]. intros; lia. Qed.

Lemma demanded_zip dir all ks ss :
  Forall2 (fair dir all) ks ss -> demanded (filter (fun p => backlog dir p.1 <> 0) (zip ks (map fst ss))) = given ss.
Proof.
  induction 1 as [|k s ks ss (F1 & F2 & _) _ IH]; [done|]. cbn [map zip_with zip]. rewrite filter_cons. cbn [fst].
  change (given (s :: ss)) with (s.1 + given ss). rewrite <- IH. case_decide as E; [done|].
  rewrite (F2 ltac:(lia)). lia.
Qed.

Lemma fair_shares dir available c ks : ready c ks -> 0 <= available ->
  0 <= given (shares dir available true ks) <= available /\
  Forall2 (fair dir (given (shares dir available true ks) <? available)) ks (shares dir available true ks).
Proof.
  intros Hr Ha. apply shares_fair; [done|]. eapply Forall_impl; [apply Hr|]. intros k. apply backlog_nonneg.
Qed.

Lemma demanded_given dir available c ks :
  ready c ks -> 0 <= available -> demanded (demands dir available ks) = given (shares dir available true ks).
Proof.
  intros Hr Ha. unfold demands. rewrite merge_sort_Permutation.
  eapply demanded_zip, (proj2 (fair_shares dir available c ks Hr Ha)).
Qed.

Lemma given_cons s ss : given (s :: ss) = s.1 + given ss.
Proof. done. Qed.

Lemma given_nonneg dir all ks ss : Forall2 (fair dir all) ks ss -> 0 <= given ss.
Proof. induction 1 as [|k s ks ss (F1 & _) _ IH]; [done|]. rewrite given_cons. lia. Qed.

Lemma given_each dir all ks ss s : Forall2 (fair dir all) ks ss -> s ∈ ss -> 0 <= s.1 <= given ss.
Proof.
  induction 1 as [|k s' ks ss (F1 & _) Hf IH]; [by intros ?%elem_of_nil|]. rewrite given_cons.
  pose proof (given_nonneg _ _ _ _ Hf). intros [->|Hs]%elem_of_cons; [lia|]. specialize (IH Hs). lia.
Qed.

Lemma demands_range dir available c ks p :
  ready c ks -> 0 <= available < 2 ^ 31 -> p ∈ demands dir available ks -> 0 <= p.2 <= available.
Proof.
  intros Hr Ha. destruct p as [k n]. intros (_ & i & s & _ & Hs & ->)%demands_elem.
  destruct (fair_shares dir available c ks Hr) as [Hg Hf]; [lia|].
  pose proof (given_each _ _ _ _ s Hf (list_elem_of_lookup_2 _ _ _ Hs)). cbn. lia.
Qed.

Lemma asked_rest ds : Forall (fun p => 0 <= p.2 < 2 ^ 31) ds -> asked (requests false ds) = demanded ds.
Proof.
  induction 1 as [|[k n] ds Hn _ IH]; [done|].
  change (asked (requests false ((k, n) :: ds))) with (uint32 (n - 0) + asked (requests false ds)).
  change (demanded ((k, n) :: ds)) with (n + demanded ds). cbn [snd] in Hn.
  rewrite IH, Z.sub_0_r, (wrap_small 32 n); [done|]. unfold is_uint. lia.
Qed.

(** C21. For a grant of one codeword the MAC layer asks RLC for the shares of the backlogged
    connections, by identifier; when the first one was given a MAC header, the requests
    with the header take exactly what the connections were given, which fits. *)
Theorem requests_fit (s : LteMacUe) (grant : LteSchedulingGrant) (available : Z) (ks : list conn) :
  one_codeword grant available -> ready (conns_ s) ks ->
  exists s' effs, share_grant s grant = Ok (vsize (demands (g_direction grant) available ks), s', effs) /\
    effs = requests true (demands (g_direction grant) available ks) /\
    forall k n ds, demands (g_direction grant) available ks = (k, n) :: ds -> MAC_HEADER <= n ->
      MAC_HEADER + asked effs = given (shares (g_direction grant) available true ks) /\
      MAC_HEADER + asked effs <= available.
Proof.
  intros Hg Hr. destruct (share_grant_spec s grant available ks Hg Hr) as [s' E]. destruct Hg as [_ _ Ha].
  eexists s', _. split; [exact E|]. split; [done|]. intros k n ds Hd Hn.
  rewrite <- (demanded_given (g_direction grant) available _ _ Hr ltac:(lia)), Hd.
  assert (Hrange : forall p, p ∈ (k, n) :: ds -> 0 <= p.2 <= available) by (rewrite <- Hd; intros p; by apply (demands_range _ _ _ _ _ Hr)).
  change (demanded ((k, n) :: ds)) with (n + demanded ds).
  change (asked (requests true ((k, n) :: ds))) with (uint32 (n - MAC_HEADER) + asked (requests false ds)).
  pose proof (Hrange (k, n) ltac:(left)) as Hkn. cbn [snd] in Hkn. unfold MAC_HEADER in Hn |- *.
  rewrite asked_rest, wrap_small; [|unfold is_uint; lia|].
  - pose proof (proj1 (fair_shares (g_direction grant) available _ ks Hr ltac:(lia))) as Hgiv.
    rewrite <- (demanded_given (g_direction grant) available _ _ Hr ltac:(lia)), Hd in Hgiv. change (demanded ((k, n) :: ds)) with (n + demanded ds) in Hgiv. lia.
  - apply Forall_forall. intros p Hp. pose proof (Hrange p ltac:(by right)). lia.
Qed.

Lemma share_exhausted available first d n :
  0 <= available <= n -> 0 < n -> share available first d n = available.
Proof.
  intros Ha Hn. unfold share. rewrite headers_spec. pose proof (rlc_header_range d). pose proof (mac_header_range first).
  rewrite (proj2 (Z.eqb_neq n 0)) by lia. lia.
Qed.

Lemma demands_exhausted dir available k1 k2 :
  c_cid k2 < c_cid k1 -> 0 < available <= backlog dir k1 -> 0 < backlog dir k2 ->
  demands dir available [k1; k2] = [(k2, 0); (k1, available)].
Proof.
  intros Hlt H1 H2. unfold demands. cbn [shares map zip zip_with fst].
  rewrite (share_exhausted available), Z.sub_diag, (share_exhausted 0) by lia.
  rewrite filter_cons_True, filter_cons_True by (cbn [fst]; lia). rewrite filter_nil.
  unfold merge_sort. cbn. by rewrite decide_False by (unfold demand_le; cbn; lia).
Qed.

(** C40. When a connection of higher priority uses up the grant, one with a lower identifier
    is still listed, with 0 bytes, and as it comes first the MAC header is taken from it:
    RLC is asked for 2^32 - 2 bytes, and the other connection for the whole grant. *)
Theorem sdu_request_underflow (s : LteMacUe) (grant : LteSchedulingGrant) (available : Z) (k1 k2 : conn) :
  one_codeword grant available -> ready (conns_ s) [k1; k2] -> c_cid k2 < c_cid k1 ->
  0 < available <= backlog (g_direction grant) k1 -> backlog (g_direction grant) k2 <> 0 ->
  exists s', share_grant s grant = Ok (2, s',
    [SduRequest (MacCidToNodeId (c_cid k2)) (MacCidToLcid (c_cid k2)) (2 ^ 32 - 2) (c_desc k2);
     SduRequest (MacCidToNodeId (c_cid k1)) (MacCidToLcid (c_cid k1)) available (c_desc k1)]).
Proof.
  intros Hg Hr Hlt Hk1 Hk2. destruct (share_grant_spec s grant available [k1; k2] Hg Hr) as [s' E].
  destruct Hg as [_ _ Ha].
  rewrite demands_exhausted in E by (try done; pose proof (backlog_nonneg (g_direction grant) _ _ k2 (Forall_lookup_1 _ _ 1 k2 (rd_present _ _ Hr) eq_refl)); lia).
  exists s'. rewrite E. cbn [requests]. rewrite Z.sub_0_r, (wrap_small 32 available) by (unfold is_uint; lia).
  reflexivity.
Qed.
