(* ===== verification/MacUeDemo.v ===== *)
(** * The MAC layer of a UE: an example

    Two connections with announced data: the one with the lower identifier is of the
    background class, the other one conversational. *)

From Stdlib Require Import SpecFloat.
From S2P Require Import Prelude.
From S2P Require Import LteCommon.
From S2P Require Import LteBinder.
From S2P Require Import RlcUm.
From S2P Require Import MacQueue.
From S2P Require Import LcgScheduler.
From S2P Require Import LcgProps.
From S2P Require Import MacUe.
From S2P Require Import MacUeUplink.
#[local] Open Scope Z_scope.

Definition uplink_info (lcid : Z) (class : LteTrafficClass) : FlowControlInfo :=
  new_FlowControlInfo <| fi_direction := UL |> <| fi_sourceId := 1025 |> <| fi_lcid := lcid |>
    <| fi_traffic := class |> <| fi_rlcType := UM |>.

Definition slow : conn :=
  {| c_cid := idToMacCid 1025 1; c_desc := uplink_info 1 BACKGROUND; c_packets := [(100, 0); (50, 0)] |}.
Definition quick : conn :=
  {| c_cid := idToMacCid 1025 2; c_desc := uplink_info 2 CONVERSATIONAL; c_packets := [(30, 0)] |}.

(** The announcements of [k] in turn. *)
Fixpoint announce_all (c : MacConnections) (k : conn) (packets : list PacketInfo) : result MacConnections :=
  match packets with
  | [] => Ok c
  | p :: packets' => let! c := announce c (c_cid k) (c_desc k) p in announce_all c k packets'
  end.

Definition uplink_connections : MacConnections :=
  match (let! c := announce_all new_MacConnections slow (c_packets slow) in announce_all c quick (c_packets quick)) with
  | Ok c => c
  | _ => new_MacConnections
  end.

Definition uplink_ue : LteMacUe := (new_LteMacUe 1025 1 0 8 3) <| conns_ := uplink_connections |>.

Definition uplink_grant (bytes : Z) : LteSchedulingGrant :=
  {| g_direction := UL; g_codewords := 1; grantedCwBytes := [bytes]; totalGrantedBlocks := 6;
     g_periodic := false; g_period := 0; g_expiration := 0; g_layers := 1 |}.

Lemma present_in (b : LteMacBuffer) (k : conn) descs buffers :
  descs !! c_cid k = Some (c_desc k) -> buffers !! c_cid k = Some b -> represents b (c_packets k) ->
  forallb (fun p => 0 <=? p.1) (c_packets k) = true -> vsize (c_packets k) < 1000 -> total (c_packets k) < 1000 ->
  present descs buffers k.
Proof.
  intros Hd Hb Hr Hs Hc Ht. split; [done|]. exists b. split; [done|]. split; [done| |lia|lia].
  apply Forall_forall. intros p Hp. rewrite forallb_forall in Hs. apply Z.leb_le, Hs. by apply list_elem_of_In.
Qed.

Lemma uplink_ready : ready uplink_connections [quick; slow].
Proof.
  split; [|by apply (bool_decide_unpack _); vm_compute|].
  { exists [(CONVERSATIONAL, c_cid quick); (BACKGROUND, c_cid slow)]. split; [split|reflexivity].
    - repeat constructor. eexists _, _. by split_and!.
    - by intros []. }
  apply Forall_cons_2; [|apply Forall_cons_2; [|constructor]];
    (eapply present_in; [reflexivity|reflexivity|by vm_compute|reflexivity|reflexivity|reflexivity]).
Qed.

(** 60 bytes: the conversational connection gets its 30 bytes with the headers, the other
    one the 26 bytes left, 24 of them payload. *)
Lemma lcg_matches_reference_witness :
  shares UL 60 true [quick; slow] = [(34, 30); (26, 24)] /\
  exists s c', lcg_schedule uplink_connections 60 UL = Ok (s, c') /\
    Forall2 (served UL s (macBuffers_ c')) [quick; slow] (shares UL 60 true [quick; slow]) /\
    (forall cid, cid ∉ map c_cid [quick; slow] ->
      macBuffers_ c' !! cid = macBuffers_ uplink_connections !! cid /\ scheduleList_ s !! cid = None).
Proof.
  split; [reflexivity|]. apply (lcg_matches_reference uplink_connections [quick; slow] UL 60 uplink_ready). lia.
Defined.

Lemma grant_respected_witness :
  exists s c', lcg_schedule uplink_connections 60 UL = Ok (s, c') /\
    let given := foldr (fun k n => default 0 (scheduledBytesList_ s !! c_cid k) + n) 0 [quick; slow] in
    0 <= given <= 60 /\
    forall k, k ∈ [quick; slow] -> exists b l, macBuffers_ c' !! c_cid k = Some b /\ holds b l /\
      total (c_packets k) - default 0 (scheduledBytesList_ s !! c_cid k) <= total l <= total (c_packets k) /\
      (given < 60 -> fi_direction (c_desc k) = UL -> total l = 0).
Proof.
  apply (grant_respected uplink_connections [quick; slow] UL 60 uplink_ready). lia.
Defined.

Lemma requests_fit_witness :
  map snd (demands UL 60 [quick; slow]) = [26; 34] /\
  exists s' effs, share_grant uplink_ue (uplink_grant 60) = Ok (vsize (demands UL 60 [quick; slow]), s', effs) /\
    effs = requests true (demands UL 60 [quick; slow]) /\
    forall k n ds, demands UL 60 [quick; slow] = (k, n) :: ds -> MAC_HEADER <= n ->
      MAC_HEADER + asked effs = given (shares UL 60 true [quick; slow]) /\ MAC_HEADER + asked effs <= 60.
Proof.
  split; [reflexivity|]. apply (requests_fit uplink_ue (uplink_grant 60) 60 [quick; slow]); [|exact uplink_ready].
  split; [reflexivity|reflexivity|lia].
Defined.

Lemma sdu_request_underflow_witness :
  exists s', share_grant uplink_ue (uplink_grant 20) = Ok (2, s',
    [SduRequest 1025 1 4294967294 (uplink_info 1 BACKGROUND); SduRequest 1025 2 20 (uplink_info 2 CONVERSATIONAL)]).
Proof.
  apply (sdu_request_underflow uplink_ue (uplink_grant 20) 20 quick slow).
  - split; [reflexivity|reflexivity|lia].
  - exact uplink_ready.
  - vm_compute. reflexivity.
  - vm_compute. split; [reflexivity|discriminate].
  - vm_compute. discriminate.
Defined.
