(* ===== verification/Allocation.v ===== *)
(** * Allocation of resource blocks

    [LteAllocationModule] (src/simulte/src/stack/mac/allocator/): which blocks of the OFDMA
    space the scheduler of an eNB has given to which UE in this TTI, by plane (the main one
    and the one of MU-MIMO peers), antenna and band, and the same by UE.

    An entry of an inner map that is read before it is written is created by the code with
    zeros, and the maps are only looked up: a missing entry reads as zeros.  For the map of
    UEs, which [at] is used on, the creation is modelled.  [freeRbsMatrix_] and
    [currentAntenna_] are never read and left out. *)

From stdpp Require Import sorting.
From S2P Require Import Prelude.
From S2P Require Import LteCommon.
#[local] Open Scope Z_scope.

Definition MAIN_PLANE : Z := 0.
Definition MU_MIMO_PLANE : Z := 1.
Definition MACRO : Z := 0.

(** The element of a list of requests. *)
Record AllocationElem := { ae_resourceBlocks : Z; ae_bytes : Z }.

Record AllocatedRbsPerUeInfo := {
  allocatedBlocks_ : Z;
  allocatedBytes_ : Z;
  muMimoEnabled_ : bool;
  secondaryUser_ : bool;
  peerId_ : Z;
  ue_ueAllocatedRbsMap_ : gmap (Z * Z) Z;
  allocationMap_ : gmap (Z * Z) (list AllocationElem);
  antennaAllocatedRbs_ : gmap Z Z;
  availableAntennaSet_ : gset Z
}.

#[export] Instance ueinfo_eta : Eta AllocatedRbsPerUeInfo := fun u =>
  {| allocatedBlocks_ := allocatedBlocks_ u; allocatedBytes_ := allocatedBytes_ u; muMimoEnabled_ := muMimoEnabled_ u;
     secondaryUser_ := secondaryUser_ u; peerId_ := peerId_ u; ue_ueAllocatedRbsMap_ := ue_ueAllocatedRbsMap_ u;
     allocationMap_ := allocationMap_ u; antennaAllocatedRbs_ := antennaAllocatedRbs_ u;
     availableAntennaSet_ := availableAntennaSet_ u |}.

Definition new_UeInfo : AllocatedRbsPerUeInfo :=
  {| allocatedBlocks_ := 0; allocatedBytes_ := 0; muMimoEnabled_ := false; secondaryUser_ := false; peerId_ := 0;
     ue_ueAllocatedRbsMap_ := ∅; allocationMap_ := ∅; antennaAllocatedRbs_ := ∅; availableAntennaSet_ := {[MACRO]} |}.

Record AllocatedRbsPerBandInfo := {
  ueAllocatedRbsMap_ : gmap Z Z;
  ueAllocatedBytesMap_ : gmap Z Z;
  allocated_ : Z
}.

#[export] Instance bandinfo_eta : Eta AllocatedRbsPerBandInfo := fun b =>
  {| ueAllocatedRbsMap_ := ueAllocatedRbsMap_ b; ueAllocatedBytesMap_ := ueAllocatedBytesMap_ b; allocated_ := allocated_ b |}.

Definition new_BandInfo : AllocatedRbsPerBandInfo :=
  {| ueAllocatedRbsMap_ := ∅; ueAllocatedBytesMap_ := ∅; allocated_ := 0 |}.

(** One antenna of a plane: its entries of the three matrices. *)
Record Antenna := {
  totalRbs : Z;
  allocatedRbs : Z;
  perBand : gmap Z AllocatedRbsPerBandInfo
}.

#[export] Instance antenna_eta : Eta Antenna := fun a =>
  {| totalRbs := totalRbs a; allocatedRbs := allocatedRbs a; perBand := perBand a |}.

(** What a resized vector is filled with. *)
Definition no_antenna : Antenna := {| totalRbs := 0; allocatedRbs := 0; perBand := ∅ |}.

Record LteAllocationModule := {
  bands_ : Z;
  planes_ : list (list Antenna);
  allocatedRbsUe_ : gmap Z AllocatedRbsPerUeInfo;
  prevAllocatedRbsPerBand_ : list (list (gmap Z AllocatedRbsPerBandInfo))
}.

#[export] Instance allocation_eta : Eta LteAllocationModule := fun s =>
  {| bands_ := bands_ s; planes_ := planes_ s; allocatedRbsUe_ := allocatedRbsUe_ s;
     prevAllocatedRbsPerBand_ := prevAllocatedRbsPerBand_ s |}.

Definition new_LteAllocationModule : LteAllocationModule :=
  {| bands_ := 0; planes_ := []; allocatedRbsUe_ := ∅; prevAllocatedRbsPerBand_ := [] |}.

Definition initAndReset (s : LteAllocationModule) (resourceBlocks bands : Z) : LteAllocationModule :=
  {| bands_ := bands;
     planes_ := [[{| totalRbs := resourceBlocks; allocatedRbs := 0; perBand := ∅ |}]];
     allocatedRbsUe_ := ∅;
     prevAllocatedRbsPerBand_ := map (map perBand) (planes_ s) |}.

(** ** Access *)

(** The matrices at a plane and antenna, out of range undefined. *)
Definition antenna_at (s : LteAllocationModule) (plane antenna : Z) : result Antenna :=
  let! p := of_option (vget (planes_ s) plane) in of_option (vget p antenna).

Definition set_antenna (s : LteAllocationModule) (plane antenna : Z) (a : Antenna) : result LteAllocationModule :=
  let! p := of_option (vget (planes_ s) plane) in
  let! p := of_option (vset p antenna a) in
  let! ps := of_option (vset (planes_ s) plane p) in
  Ok (s <| planes_ := ps |>).

Definition band_of (a : Antenna) (band : Z) : AllocatedRbsPerBandInfo := default new_BandInfo (perBand a !! band).

(** [allocatedRbsUe_[nodeId]]. *)
Definition ueInfo (s : LteAllocationModule) (nodeId : Z) : AllocatedRbsPerUeInfo :=
  default new_UeInfo (allocatedRbsUe_ s !! nodeId).

Definition touch_ue (s : LteAllocationModule) (nodeId : Z) : LteAllocationModule :=
  s <| allocatedRbsUe_ := <[nodeId := ueInfo s nodeId]> (allocatedRbsUe_ s) |>.

Definition set_ue (s : LteAllocationModule) (nodeId : Z) (u : AllocatedRbsPerUeInfo) : LteAllocationModule :=
  s <| allocatedRbsUe_ := <[nodeId := u]> (allocatedRbsUe_ s) |>.

(** [allocatedRbsUe_.at(nodeId)]. *)
Definition ue_at (s : LteAllocationModule) (nodeId : Z) : result AllocatedRbsPerUeInfo :=
  match allocatedRbsUe_ s !! nodeId with Some u => Ok u | None => Throw "map::at" end.

Definition antennas_of (u : AllocatedRbsPerUeInfo) : list Z := merge_sort Z.le (elements (availableAntennaSet_ u)).

(** ** MU-MIMO *)

Definition configureOFDMplane (s : LteAllocationModule) (plane : Z) : result LteAllocationModule :=
  if vsize (planes_ s) <? plane + 1 then
    let missing := replicate (Z.to_nat (plane - vsize (planes_ s))) [] in
    let s := s <| planes_ := planes_ s ++ missing ++ [[no_antenna]] |> in
    let! main := antenna_at s MAIN_PLANE MACRO in
    set_antenna s plane MACRO (no_antenna <| totalRbs := totalRbs main |>)
  else Ok s.

(** The loop adds the antennas up to [antenna], each with the blocks of the first one. *)
Definition setRemoteAntenna (s : LteAllocationModule) (plane antenna : Z) : result LteAllocationModule :=
  match vget (planes_ s) plane with
  | None => Throw "vector::at"
  | Some p =>
      let missing := Z.to_nat (antenna + 1 - vsize p) in
      match missing, p with
      | O, _ => Ok s
      | _, [] =>
          let! ps := of_option (vset (planes_ s) plane (replicate missing no_antenna)) in Ok (s <| planes_ := ps |>)
      | _, macro :: _ =>
          let! ps := of_option (vset (planes_ s) plane (p ++ replicate missing (no_antenna <| totalRbs := totalRbs macro |>))) in
          Ok (s <| planes_ := ps |>)
      end
  end.

Fixpoint set_antennas (s : LteAllocationModule) (plane : Z) (antennas : list Z) : result LteAllocationModule :=
  match antennas with
  | [] => Ok s
  | a :: antennas' => let! s := setRemoteAntenna s plane a in set_antennas s plane antennas'
  end.

Definition configureMuMimoPeering (s : LteAllocationModule) (nodeId peer : Z) : result (bool * LteAllocationModule) :=
  let s := touch_ue s nodeId in
  if muMimoEnabled_ (ueInfo s nodeId) then Ok (false, s) else
  let s := touch_ue s peer in
  if muMimoEnabled_ (ueInfo s peer) then Ok (false, s) else
  let s := set_ue s nodeId ((ueInfo s nodeId) <| muMimoEnabled_ := true |>) in
  let s := set_ue s peer ((ueInfo s peer) <| muMimoEnabled_ := true |>) in
  let s := set_ue s nodeId ((ueInfo s nodeId) <| peerId_ := peer |>) in
  let s := set_ue s peer ((ueInfo s peer) <| peerId_ := nodeId |>) in
  let s := set_ue s nodeId ((ueInfo s nodeId) <| secondaryUser_ := false |>) in
  let s := set_ue s peer ((ueInfo s peer) <| secondaryUser_ := true |>) in
  let! u := ue_at s nodeId in
  let peerAntennas := availableAntennaSet_ u in
  let s := set_ue s peer ((ueInfo s peer) <| availableAntennaSet_ := peerAntennas |>) in
  let! s := configureOFDMplane s MU_MIMO_PLANE in
  let! s := set_antennas s MU_MIMO_PLANE (antennas_of u) in
  Ok (true, s).

Definition plane_of (u : AllocatedRbsPerUeInfo) : Z := if secondaryUser_ u then MU_MIMO_PLANE else MAIN_PLANE.

Definition getOFDMPlane (s : LteAllocationModule) (nodeId : Z) : Z * LteAllocationModule :=
  (plane_of (ueInfo s nodeId), touch_ue s nodeId).

Definition getMuMimoPeer (s : LteAllocationModule) (nodeId : Z) : Z :=
  match allocatedRbsUe_ s !! nodeId with
  | Some u => if muMimoEnabled_ u then peerId_ u else nodeId
  | None => nodeId
  end.

(** ** Status *)

(** The value of an [int] expression. *)
Definition int_of (z : Z) : result Z := if (- 2 ^ 31 <=? z) && (z <? 2 ^ 31) then Ok z else UB.

(** The sums are [int]s to which unsigned numbers are added. *)
Definition computeTotalRbs (s : LteAllocationModule) : result Z :=
  let resourceBlocks := fold_left (fun n a => int32 (uint32 (n + totalRbs a))) (concat (planes_ s)) 0 in
  let allocatedBlocks := fold_left (fun n a => int32 (uint32 (n + allocatedRbs a))) (concat (planes_ s)) 0 in
  let! available := int_of (resourceBlocks - allocatedBlocks) in
  if available <? 0 then Throw "LteAllocator::checkOFDMspace(): Negative OFDM space" else Ok available.

(** On one antenna; the division by the number of bands fails when there is none. *)
Definition availableBlocks_on (s : LteAllocationModule) (nodeId antenna band : Z) : result (Z * LteAllocationModule) :=
  let (plane, s) := getOFDMPlane s nodeId in
  let! a := antenna_at s plane antenna in
  if bands_ s =? 0 then UB else
  let blocksPerBand := totalRbs a / bands_ s in
  let allocatedBlocks := allocated_ (band_of a band) in
  Ok (if allocatedBlocks <=? blocksPerBand then blocksPerBand - allocatedBlocks else 0, s).

Fixpoint sum_available (s : LteAllocationModule) (nodeId band : Z) (antennas : list Z) (available : Z)
    : result (Z * LteAllocationModule) :=
  match antennas with
  | [] => Ok (available, s)
  | a :: antennas' =>
      let! (n, s) := availableBlocks_on s nodeId a band in
      sum_available s nodeId band antennas' (uint32 (available + n))
  end.

(** On all antennas of the UE; the plane is not used. *)
Definition availableBlocks (s : LteAllocationModule) (nodeId band : Z) : result (Z * LteAllocationModule) :=
  let! u := ue_at s nodeId in sum_available s nodeId band (antennas_of u) 0.

Definition getAllocatedBlocks (s : LteAllocationModule) (plane antenna band : Z) : result Z :=
  let! a := antenna_at s plane antenna in Ok (allocated_ (band_of a band)).

Definition getInterferringBlocks (s : LteAllocationModule) (plane antenna band : Z) : result Z :=
  match prevAllocatedRbsPerBand_ s with
  | [] => Ok 1000
  | _ =>
      let! p := of_option (vget (prevAllocatedRbsPerBand_ s) plane) in
      let! m := of_option (vget p antenna) in
      Ok (allocated_ (default new_BandInfo (m !! band)))
  end.

Definition getBlocks (s : LteAllocationModule) (antenna band nodeId : Z) : result (Z * LteAllocationModule) :=
  let (plane, s) := getOFDMPlane s nodeId in
  let! a := antenna_at s plane antenna in
  Ok (default 0 (ueAllocatedRbsMap_ (band_of a band) !! nodeId), s).

Definition alloc_getBytes (s : LteAllocationModule) (antenna band nodeId : Z) : result (Z * LteAllocationModule) :=
  let (plane, s) := getOFDMPlane s nodeId in
  let! a := antenna_at s plane antenna in
  Ok (default 0 (ueAllocatedBytesMap_ (band_of a band) !! nodeId), s).

Definition getBlocks_ue (s : LteAllocationModule) (nodeId : Z) : Z * LteAllocationModule :=
  (allocatedBlocks_ (ueInfo s nodeId), touch_ue s nodeId).

Definition getBlocks_plane (s : LteAllocationModule) (plane antenna : Z) : result Z :=
  let! a := antenna_at s plane antenna in Ok (allocatedRbs a).

(** ** Allocation *)

(** What a granted request adds to the entry of its band, of its antenna, of its UE. *)
Definition band_add (i : AllocatedRbsPerBandInfo) (nodeId blocks bytes : Z) : AllocatedRbsPerBandInfo :=
  {| ueAllocatedRbsMap_ := <[nodeId := uint32 (default 0 (ueAllocatedRbsMap_ i !! nodeId) + blocks)]> (ueAllocatedRbsMap_ i);
     ueAllocatedBytesMap_ := <[nodeId := uint32 (default 0 (ueAllocatedBytesMap_ i !! nodeId) + bytes)]> (ueAllocatedBytesMap_ i);
     allocated_ := uint32 (allocated_ i + blocks) |}.

Definition antenna_add (a : Antenna) (band nodeId blocks bytes : Z) : Antenna :=
  a <| perBand := <[band := band_add (band_of a band) nodeId blocks bytes]> (perBand a) |>
    <| allocatedRbs := uint32 (allocatedRbs a + blocks) |>.

Definition ue_add (u : AllocatedRbsPerUeInfo) (antenna band blocks bytes : Z) : AllocatedRbsPerUeInfo :=
  u <| ue_ueAllocatedRbsMap_ := <[(antenna, band) := uint32 (default 0 (ue_ueAllocatedRbsMap_ u !! (antenna, band)) + blocks)]> (ue_ueAllocatedRbsMap_ u) |>
    <| allocatedBlocks_ := uint32 (allocatedBlocks_ u + blocks) |>
    <| allocatedBytes_ := uint32 (allocatedBytes_ u + bytes) |>
    <| antennaAllocatedRbs_ := <[antenna := uint32 (default 0 (antennaAllocatedRbs_ u !! antenna) + blocks)]> (antennaAllocatedRbs_ u) |>
    <| allocationMap_ := <[(antenna, band) := default [] (allocationMap_ u !! (antenna, band)) ++
                                              [{| ae_resourceBlocks := blocks; ae_bytes := bytes |}]]> (allocationMap_ u) |>.

Definition addBlocks_on (s : LteAllocationModule) (antenna band nodeId blocks bytes : Z) : result (bool * LteAllocationModule) :=
  if bands_ s <=? band then Throw "LteAllocator::addBlocks(): Invalid band" else
  let (plane, s) := getOFDMPlane s nodeId in
  let! (available, s) := availableBlocks_on s nodeId antenna band in
  let! rest := int_of (int32 available - int32 blocks) in
  if rest <? 0 then Ok (false, s) else
  if bytes =? 0 then Ok (false, s) else
  let! a := antenna_at s plane antenna in
  let! s := set_antenna s plane antenna (antenna_add a band nodeId blocks bytes) in
  Ok (true, set_ue s nodeId (ue_add (ueInfo s nodeId) antenna band blocks bytes)).

Fixpoint add_first (s : LteAllocationModule) (antennas : list Z) (band nodeId blocks bytes : Z)
    : result (bool * LteAllocationModule) :=
  match antennas with
  | [] => Ok (false, s)
  | a :: antennas' =>
      let! (ret, s) := addBlocks_on s a band nodeId blocks bytes in
      if ret : bool then Ok (true, s) else add_first s antennas' band nodeId blocks bytes
  end.

(** On the first antenna of the UE that can take the request. *)
Definition addBlocks (s : LteAllocationModule) (band nodeId blocks bytes : Z) : result (bool * LteAllocationModule) :=
  let! u := ue_at s nodeId in add_first s (antennas_of u) band nodeId blocks bytes.

(** What a removal leaves: the bytes of the band and the blocks of the antenna stay, the
    bytes of the UE are those of no band. *)
Definition antenna_remove (a : Antenna) (band nodeId toDrain : Z) : Antenna :=
  let i := band_of a band in
  a <| perBand := <[band := i <| allocated_ := uint32 (allocated_ i - toDrain) |>
                              <| ueAllocatedRbsMap_ := <[nodeId := 0]> (ueAllocatedRbsMap_ i) |>]> (perBand a) |>
    <| allocatedRbs := uint32 (allocatedRbs a - toDrain) |>.

Definition ue_remove (u : AllocatedRbsPerUeInfo) (antenna band toDrain : Z) : AllocatedRbsPerUeInfo :=
  u <| allocatedBlocks_ := uint32 (allocatedBlocks_ u - toDrain) |>
    <| ue_ueAllocatedRbsMap_ := <[(antenna, band) := 0]> (ue_ueAllocatedRbsMap_ u) |>
    <| allocatedBytes_ := 0 |>
    <| allocationMap_ := <[(antenna, band) := []]> (allocationMap_ u) |>.

Definition removeBlocks (s : LteAllocationModule) (antenna band nodeId : Z) : result (Z * LteAllocationModule) :=
  if bands_ s <=? band then Ok (0, s) else
  let (plane, s) := getOFDMPlane s nodeId in
  let! a := antenna_at s plane antenna in
  let toDrain := default 0 (ueAllocatedRbsMap_ (band_of a band) !! nodeId) in
  if toDrain =? 0 then Ok (toDrain, s) else
  let! s := set_antenna s plane antenna (antenna_remove a band nodeId toDrain) in
  Ok (toDrain, set_ue s nodeId (ue_remove (ueInfo s nodeId) antenna band toDrain)).

(** [for (Band b = 0; b < bands_; ++b)] on every antenna. *)
Fixpoint occupy_bands (s : LteAllocationModule) (antenna nodeId : Z) (bands : list Z) (rbMap : gmap (Z * Z) Z) (blocks : Z)
    : result (gmap (Z * Z) Z * Z * LteAllocationModule) :=
  match bands with
  | [] => Ok (rbMap, blocks, s)
  | b :: bands' =>
      let! (n, s) := getBlocks s antenna b nodeId in
      occupy_bands s antenna nodeId bands' (<[(antenna, b) := n]> rbMap) (uint32 (blocks + n))
  end.

Fixpoint occupy_antennas (s : LteAllocationModule) (nodeId : Z) (antennas : list Z) (rbMap : gmap (Z * Z) Z) (blocks : Z)
    : result (gmap (Z * Z) Z * Z * LteAllocationModule) :=
  match antennas with
  | [] => Ok (rbMap, blocks, s)
  | a :: antennas' =>
      let! (rbMap, blocks, s) := occupy_bands s a nodeId (seqZ 0 (bands_ s)) rbMap blocks in
      occupy_antennas s nodeId antennas' rbMap blocks
  end.

Definition rbOccupation (s : LteAllocationModule) (nodeId : Z) (rbMap : gmap (Z * Z) Z)
    : result (gmap (Z * Z) Z * Z * LteAllocationModule) :=
  let! u := ue_at s nodeId in occupy_antennas s nodeId (antennas_of u) rbMap 0.
