(* ===== verification/AllocationProps.v ===== *)
(** * Allocation of resource blocks: properties

    The books of the module are kept: the blocks of a band are those of its UEs and fit into
    the band, the blocks of an antenna are those of its bands and fit into the antenna, and
    a UE has the blocks the bands say it has.  So the blocks left are never negative.  What
    a removal leaves behind is stated, too. *)

From S2P Require Import Prelude.
From S2P Require Import LteCommon.
From S2P Require Import Allocation.
#[local] Open Scope Z_scope.

(** ** Sums over maps *)

Section Sums.
Context {K A : Type} `{Countable K}.
Implicit Types (m : gmap K A) (f : A -> Z).

Definition sum_map (f : A -> Z) (m : gmap K A) : Z := map_fold (fun _ x n => f x + n) 0 m.

Lemma sum_map_empty f : sum_map f (∅ : gmap K A) = 0.
Proof. apply map_fold_empty. Qed.

Lemma sum_map_fresh f m k x : m !! k = None -> sum_map f (<[k := x]> m) = f x + sum_map f m.
Proof. intros Hk. refine (map_fold_insert_L (fun _ x n => f x + n) 0 k x m _ Hk). intros; cbn; lia. Qed.

Lemma sum_map_insert f m k x : sum_map f (<[k := x]> m) = sum_map f m + f x - default 0 (f <$> m !! k).
Proof.
  destruct (m !! k) as [y|] eqn:E; cbn.
  - rewrite <- (insert_delete_id m k y E) at 2. rewrite <- insert_delete_eq.
    rewrite !sum_map_fresh by apply lookup_delete_eq. lia.
  - rewrite sum_map_fresh by done. lia.
Qed.

Lemma sum_map_nonneg f m : map_Forall (fun _ x => 0 <= f x) m -> 0 <= sum_map f m.
Proof.
  induction m as [|k x m Hk IH] using map_ind; [by rewrite sum_map_empty|].
  intros Hm. apply map_Forall_insert in Hm as [Hx Hm]; [|done]. rewrite sum_map_fresh by done. specialize (IH Hm). lia.
Qed.

Lemma sum_map_lookup f m k x : map_Forall (fun _ x => 0 <= f x) m -> m !! k = Some x -> f x <= sum_map f m.
Proof.
  intros Hm Hk. rewrite <- (insert_delete_id m k x Hk), sum_map_fresh by apply lookup_delete_eq.
  assert (0 <= sum_map f (delete k m)) by (by apply sum_map_nonneg, map_Forall_delete). lia.
Qed.

Lemma sum_map_bound f m q : map_Forall (fun _ x => f x <= q) m -> sum_map f m <= Z.of_nat (size m) * q.
Proof.
  induction m as [|k x m Hk IH] using map_ind; [by rewrite sum_map_empty, map_size_empty|].
  intros Hm. apply map_Forall_insert in Hm as [Hx Hm]; [|done].
  rewrite sum_map_fresh, map_size_insert_None by done. specialize (IH Hm). lia.
Qed.
End Sums.

Lemma size_range {A} (m : gmap Z A) n : 0 <= n -> map_Forall (fun k _ => 0 <= k < n) m -> Z.of_nat (size m) <= n.
Proof.
  intros Hn Hm. assert (dom m ⊆ list_to_set (seqZ 0 n)).
  { intros k [x Hx]%elem_of_dom. apply elem_of_list_to_set, elem_of_seqZ. specialize (Hm k x Hx). cbn in Hm. lia. }
  rewrite <- size_dom. apply subseteq_size in H. pose proof (NoDup_seqZ 0 n) as Hd.
  rewrite (size_list_to_set (C := gset Z)), length_seqZ in H by done. lia.
Qed.

(** ** The books *)

Definition total_ues (m : gmap Z Z) : Z := sum_map id m.

Record band_ok (limit : Z) (i : AllocatedRbsPerBandInfo) : Prop := {
  bo_nonneg : map_Forall (fun _ n => 0 <= n) (ueAllocatedRbsMap_ i);
  bo_sum : allocated_ i = total_ues (ueAllocatedRbsMap_ i);
  bo_limit : allocated_ i <= limit
}.

Record antenna_ok (bands : Z) (a : Antenna) : Prop := {
  ao_total : 0 <= totalRbs a < 2 ^ 31;
  ao_bands : map_Forall (fun b i => 0 <= b < bands /\ band_ok (totalRbs a / bands) i) (perBand a);
  ao_sum : allocatedRbs a = sum_map allocated_ (perBand a)
}.

Lemma band_ok_nonneg limit i : band_ok limit i -> 0 <= allocated_ i.
Proof. intros [H1 H2 _]. rewrite H2. by apply sum_map_nonneg. Qed.

(** The blocks of an antenna fit into it. *)
Lemma antenna_fits bands a : 0 < bands -> antenna_ok bands a -> 0 <= allocatedRbs a <= totalRbs a.
Proof.
  intros Hb [Ht Hbands Hs]. rewrite Hs. split.
  - apply sum_map_nonneg. intros b i Hi. by destruct (Hbands b i Hi) as [_ ?%band_ok_nonneg].
  - pose proof (sum_map_bound allocated_ (perBand a) (totalRbs a / bands)) as H1.
    assert (H2 : Z.of_nat (size (perBand a)) <= bands).
    { apply size_range; [lia|]. intros b i Hi. by destruct (Hbands b i Hi). }
    pose proof (Z.mul_div_le (totalRbs a) bands Hb). pose proof (Z.div_pos (totalRbs a) bands ltac:(lia) Hb).
    enough (sum_map allocated_ (perBand a) <= Z.of_nat (size (perBand a)) * (totalRbs a / bands)) by nia.
    apply H1. intros b i Hi. destruct (Hbands b i Hi) as [_ [_ _ Hl]]. exact Hl.
Qed.

Lemma band_of_ok bands a band : 0 < bands -> antenna_ok bands a -> band_ok (totalRbs a / bands) (band_of a band).
Proof.
  intros Hb [Ht Hbands _]. unfold band_of. destruct (perBand a !! band) as [i|] eqn:E.
  - by destruct (Hbands band i E).
  - split; [apply map_Forall_empty|done|cbn; apply Z.div_pos; lia].
Qed.

(** *** A request and a removal *)

Lemma band_add_ok limit i nodeId blocks bytes :
  band_ok limit i -> 0 <= blocks -> allocated_ i + blocks <= limit -> limit < 2 ^ 31 ->
  band_ok limit (band_add i nodeId blocks bytes) /\
  allocated_ (band_add i nodeId blocks bytes) = allocated_ i + blocks /\
  ueAllocatedRbsMap_ (band_add i nodeId blocks bytes) =
    <[nodeId := default 0 (ueAllocatedRbsMap_ i !! nodeId) + blocks]> (ueAllocatedRbsMap_ i).
Proof.
  intros Hi Hb Hl Hlim. pose proof (band_ok_nonneg _ _ Hi) as H0. destruct Hi as [H1 H2 H3].
  assert (Hn : 0 <= default 0 (ueAllocatedRbsMap_ i !! nodeId) <= allocated_ i).
  { destruct (ueAllocatedRbsMap_ i !! nodeId) as [n|] eqn:E; [|cbn; lia]. split; [exact (H1 _ _ E)|].
    rewrite H2. exact (sum_map_lookup id _ _ _ H1 E). }
  assert (E : ueAllocatedRbsMap_ (band_add i nodeId blocks bytes) =
    <[nodeId := default 0 (ueAllocatedRbsMap_ i !! nodeId) + blocks]> (ueAllocatedRbsMap_ i)).
  { cbn. f_equal. apply wrap_small. unfold is_uint. lia. }
  assert (Ea : allocated_ (band_add i nodeId blocks bytes) = allocated_ i + blocks)
    by (cbn; apply wrap_small; unfold is_uint; lia).
  split; [|done]. split; rewrite ?E, ?Ea; [|unfold total_ues; rewrite sum_map_insert|lia].
  - by apply map_Forall_insert_2; [lia|].
  - rewrite H2. unfold total_ues. by destruct (ueAllocatedRbsMap_ i !! nodeId); cbn; unfold id; lia.
Qed.

Lemma antenna_add_ok bands a band nodeId blocks bytes :
  0 < bands -> antenna_ok bands a -> 0 <= band < bands -> 0 <= blocks ->
  allocated_ (band_of a band) + blocks <= totalRbs a / bands ->
  antenna_ok bands (antenna_add a band nodeId blocks bytes).
Proof.
  intros Hb Ha Hband H0 Hfit. pose proof (band_of_ok bands a band Hb Ha) as Hi. destruct Ha as [Ht Hbands Hs].
  pose proof (Z.div_le_upper_bound (totalRbs a) bands (totalRbs a) Hb ltac:(nia)).
  destruct (band_add_ok _ _ nodeId blocks bytes Hi H0 Hfit) as (Hok & Ea & _); [lia|].
  assert (Hnew : map_Forall (fun b i => 0 <= b < bands /\ band_ok (totalRbs a / bands) i)
    (<[band := band_add (band_of a band) nodeId blocks bytes]> (perBand a))) by (by apply map_Forall_insert_2).
  assert (Hsum : sum_map allocated_ (<[band := band_add (band_of a band) nodeId blocks bytes]> (perBand a)) = allocatedRbs a + blocks).
  { rewrite sum_map_insert, Ea, Hs. unfold band_of. destruct (perBand a !! band); cbn; lia. }
  split; [done|exact Hnew|]. change (uint32 (allocatedRbs a + blocks) = sum_map allocated_ (<[band := band_add (band_of a band) nodeId blocks bytes]> (perBand a))).
  rewrite Hsum. apply wrap_small.
  pose proof (antenna_fits bands {| totalRbs := totalRbs a; allocatedRbs := allocatedRbs a + blocks;
    perBand := <[band := band_add (band_of a band) nodeId blocks bytes]> (perBand a) |} Hb) as Hf.
  cbn in Hf. unfold is_uint. enough (0 <= allocatedRbs a + blocks <= totalRbs a) by lia. apply Hf. by split.
Qed.

Lemma band_remove_ok limit i nodeId :
  band_ok limit i -> limit < 2 ^ 31 ->
  let n := default 0 (ueAllocatedRbsMap_ i !! nodeId) in
  let i' := i <| allocated_ := uint32 (allocated_ i - n) |> <| ueAllocatedRbsMap_ := <[nodeId := 0]> (ueAllocatedRbsMap_ i) |> in
  band_ok limit i' /\ allocated_ i' = allocated_ i - n /\ 0 <= n.
Proof.
  intros Hi Hlim n i'. pose proof (band_ok_nonneg _ _ Hi) as H0. destruct Hi as [H1 H2 H3].
  assert (Hn : 0 <= n <= allocated_ i).
  { unfold n. destruct (ueAllocatedRbsMap_ i !! nodeId) as [k|] eqn:E; [|cbn; lia]. split; [exact (H1 _ _ E)|].
    rewrite H2. exact (sum_map_lookup id _ _ _ H1 E). }
  assert (Ea : allocated_ i' = allocated_ i - n) by (cbn; apply wrap_small; unfold is_uint; lia).
  split; [|split; [done|lia]]. split; rewrite ?Ea; [|unfold total_ues; cbn; rewrite sum_map_insert|lia].
  - by apply map_Forall_insert_2; [lia|].
  - rewrite H2. unfold total_ues, n. by destruct (ueAllocatedRbsMap_ i !! nodeId); cbn; unfold id; lia.
Qed.

Lemma antenna_remove_ok bands a band nodeId :
  0 < bands -> antenna_ok bands a -> default 0 (ueAllocatedRbsMap_ (band_of a band) !! nodeId) <> 0 ->
  antenna_ok bands (antenna_remove a band nodeId (default 0 (ueAllocatedRbsMap_ (band_of a band) !! nodeId))).
Proof.
  intros Hb Ha Hne. pose proof (antenna_fits _ _ Hb Ha) as Hfits. pose proof (band_of_ok bands a band Hb Ha) as Hi.
  destruct Ha as [Ht Hbands Hs]. pose proof (Z.div_le_upper_bound (totalRbs a) bands (totalRbs a) Hb ltac:(nia)).
  destruct (band_remove_ok _ _ nodeId Hi ltac:(lia)) as (Hok & Ea & Hn). revert Hne Hok Ea Hn.
  set (n := default 0 (ueAllocatedRbsMap_ (band_of a band) !! nodeId)). set (i' := (band_of a band) <| allocated_ := _ |> <| ueAllocatedRbsMap_ := _ |>).
  intros Hne Hok Ea Hn. destruct (perBand a !! band) as [i|] eqn:E; [|by unfold n, band_of in Hne; rewrite E in Hne].
  assert (Hnew : map_Forall (fun b i => 0 <= b < bands /\ band_ok (totalRbs a / bands) i) (<[band := i']> (perBand a))).
  { apply map_Forall_insert_2; [split; [by destruct (Hbands band i E)|exact Hok]|done]. }
  assert (Hsum : sum_map allocated_ (<[band := i']> (perBand a)) = allocatedRbs a - n).
  { rewrite sum_map_insert, Ea, Hs. unfold band_of. rewrite E; cbn; lia. }
  split; [done|exact Hnew|]. change (uint32 (allocatedRbs a - n) = sum_map allocated_ (<[band := i']> (perBand a))).
  rewrite Hsum. apply wrap_small. unfold is_uint.
  enough (0 <= sum_map allocated_ (<[band := i']> (perBand a))) by lia. apply sum_map_nonneg.
  intros b j Hj. by destruct (Hnew b j Hj) as [_ ?%band_ok_nonneg].
Qed.

(** ** The module *)

Definition books_ok (s : LteAllocationModule) : Prop :=
  0 < bands_ s /\ Forall (Forall (antenna_ok (bands_ s))) (planes_ s).

Lemma books_touch s nodeId : books_ok s -> books_ok (touch_ue s nodeId).
Proof. done. Qed.

Lemma books_set_ue s nodeId u : books_ok s -> books_ok (set_ue s nodeId u).
Proof. done. Qed.

Lemma new_antenna_ok bands t : 0 < bands -> 0 <= t < 2 ^ 31 -> antenna_ok bands (no_antenna <| totalRbs := t |>).
Proof. intros Hb Ht. split; [done|apply map_Forall_empty|by rewrite (sum_map_empty (K := Z) allocated_)]. Qed.

Lemma antenna_at_ok s plane antenna a : books_ok s -> antenna_at s plane antenna = Ok a -> antenna_ok (bands_ s) a.
Proof.
  intros [_ Hp] E. unfold antenna_at in E. inv_ok. subst.
  eapply (vget_Forall _ _ antenna); [|eassumption]. eapply (vget_Forall (Forall (antenna_ok (bands_ s)))); eauto.
Qed.

Lemma set_antenna_ok s plane antenna a s' :
  books_ok s -> antenna_ok (bands_ s) a -> set_antenna s plane antenna a = Ok s' ->
  books_ok s' /\ s' = s <| planes_ := planes_ s' |>.
Proof.
  intros [Hb Hp] Ha E. unfold set_antenna in E. inv_ok. subst. split; [|done]. split; [done|]. cbn.
  eapply (vset_Forall (Forall _)); [done| |eassumption]. eapply (vset_Forall _ _ antenna a); [|done|eassumption].
  eapply (vget_Forall (Forall (antenna_ok (bands_ s)))); eauto.
Qed.

Lemma initAndReset_ok s resourceBlocks bands :
  0 < bands -> 0 <= resourceBlocks < 2 ^ 31 -> books_ok (initAndReset s resourceBlocks bands).
Proof.
  intros Hb Hr. split; [done|]. apply Forall_singleton, Forall_singleton. exact (new_antenna_ok bands resourceBlocks Hb Hr).
Qed.

Lemma configureOFDMplane_ok s plane s' : books_ok s -> configureOFDMplane s plane = Ok s' -> books_ok s'.
Proof.
  intros [Hb Hp] E. unfold configureOFDMplane in E. break_match_hyp; [|by inv_ok; subst].
  apply rbind_Ok_inv in E as (main & Em & E).
  match type of Em with antenna_at ?t _ _ = _ => assert (Ht : books_ok t) end.
  { split; [done|]. apply Forall_app. split; [done|]. apply Forall_app. split; [by apply Forall_replicate|].
    apply Forall_singleton, Forall_singleton. exact (new_antenna_ok _ 0 Hb ltac:(lia)). }
  pose proof (antenna_at_ok _ _ _ _ Ht Em) as [Hm _ _].
  eapply set_antenna_ok in E as [H _]; [exact H|exact Ht|by apply new_antenna_ok].
Qed.

Lemma setRemoteAntenna_ok s plane antenna s' : books_ok s -> setRemoteAntenna s plane antenna = Ok s' -> books_ok s'.
Proof.
  intros [Hb Hp] E. unfold setRemoteAntenna in E. destruct (vget (planes_ s) plane) as [p|] eqn:Ep; [|done].
  pose proof (vget_Forall (Forall _) _ _ _ Hp Ep) as Hpl.
  destruct (Z.to_nat (antenna + 1 - vsize p)) as [|n]; [by destruct p; inv_ok; subst|].
  destruct p as [|macro p]; inv_ok; subst; (split; [done|]); cbn -[replicate]; (eapply (vset_Forall (Forall _)); [eassumption| |eassumption]).
  - apply Forall_replicate. exact (new_antenna_ok _ 0 Hb ltac:(lia)).
  - apply Forall_app. split; [done|]. apply Forall_replicate. apply Forall_cons in Hpl as [[Hm _ _] _]. by apply new_antenna_ok.
Qed.

Lemma set_antennas_ok l plane : forall s s', books_ok s -> set_antennas s plane l = Ok s' -> books_ok s'.
Proof.
  induction l as [|a l IH]; intros s s' Hs E; cbn in E; [by injection E as <-|].
  apply rbind_Ok_inv in E as (s1 & E1 & E). eauto using setRemoteAntenna_ok.
Qed.

Lemma configureMuMimoPeering_ok s nodeId peer ok s' :
  books_ok s -> configureMuMimoPeering s nodeId peer = Ok (ok, s') -> books_ok s'.
Proof.
  intros Hs E. unfold configureMuMimoPeering in E. break_match_hyp; [by injection E as _ <-|].
  break_match_hyp; [by injection E as _ <-|]. apply rbind_Ok_inv in E as (u & _ & E).
  apply rbind_Ok_inv in E as (s1 & E1 & E). apply rbind_Ok_inv in E as (s2 & E2 & E). injection E as _ <-.
  eapply set_antennas_ok; [|exact E2]. eapply configureOFDMplane_ok; [|exact E1]. exact Hs.
Qed.

(** What is available on a band of an antenna, and when a request is granted. *)
Lemma availableBlocks_on_spec s nodeId antenna band n s' :
  availableBlocks_on s nodeId antenna band = Ok (n, s') ->
  s' = touch_ue s nodeId /\ exists a, antenna_at s (plane_of (ueInfo s nodeId)) antenna = Ok a /\
    n = Z.max 0 (totalRbs a / bands_ s - allocated_ (band_of a band)).
Proof.
  unfold availableBlocks_on. cbn. intros E. apply rbind_Ok_inv in E as (a & Ea & E).
  destruct (bands_ s =? 0); [done|]. injection E as <- <-. split; [done|]. exists a. split; [exact Ea|].
  destruct (Z.leb_spec (allocated_ (band_of a band)) (totalRbs a / bands_ s)); lia.
Qed.

Lemma ueInfo_touch s nodeId k : ueInfo (touch_ue s nodeId) k = ueInfo s k.
Proof.
  unfold ueInfo, touch_ue; cbn. destruct (decide (nodeId = k)) as [->|Hk].
  - by rewrite lookup_insert_eq.
  - by rewrite lookup_insert_ne.
Qed.

Lemma touch_touch s nodeId : touch_ue (touch_ue s nodeId) nodeId = touch_ue s nodeId.
Proof. unfold touch_ue at 1. rewrite ueInfo_touch. unfold touch_ue; cbn. by rewrite insert_insert_eq. Qed.

Lemma addBlocks_on_spec s antenna band nodeId blocks bytes r s' :
  books_ok s -> 0 <= blocks < 2 ^ 31 -> addBlocks_on s antenna band nodeId blocks bytes = Ok (r, s') ->
  band < bands_ s /\ exists a, antenna_at s (plane_of (ueInfo s nodeId)) antenna = Ok a /\
  if r then blocks <= totalRbs a / bands_ s - allocated_ (band_of a band) /\
    exists s1, set_antenna (touch_ue s nodeId) (plane_of (ueInfo s nodeId)) antenna (antenna_add a band nodeId blocks bytes) = Ok s1 /\
    s' = set_ue s1 nodeId (ue_add (ueInfo s1 nodeId) antenna band blocks bytes)
  else s' = touch_ue s nodeId.
Proof.
  intros Hs Hbl E. unfold addBlocks_on in E. destruct (Z.leb_spec (bands_ s) band); [done|]. split; [done|].
  cbn in E. apply rbind_Ok_inv in E as ([n s1] & E1 & E). apply availableBlocks_on_spec in E1 as (-> & a & Ea & ->).
  rewrite ueInfo_touch, touch_touch in *. exists a. split; [exact Ea|]. cbn in E.
  pose proof (antenna_at_ok _ _ _ _ Hs Ea) as Ha. pose proof (band_of_ok _ _ band (proj1 Hs) Ha) as Hi.
  pose proof (band_ok_nonneg _ _ Hi). destruct Hi as [_ _ Hl].
  destruct Ha as [Ht _ _]. pose proof (Z.div_le_upper_bound (totalRbs a) (bands_ s) (totalRbs a) (proj1 Hs) ltac:(destruct Hs; nia)).
  pose proof (Z.div_pos (totalRbs a) (bands_ s) ltac:(lia) (proj1 Hs)).
  rewrite !swrap_small in E by (unfold is_sint; lia). apply rbind_Ok_inv in E as (rest & Er & E).
  unfold int_of in Er. destruct (_ && _) in Er; [|done]. injection Er as <-.
  match type of E with (if ?b then _ else _) = _ => destruct b eqn:Hr end; [by injection E as <- <-|].
  destruct (bytes =? 0); [by injection E as <- <-|]. zify_bool.
  apply rbind_Ok_inv in E as (a1 & Ea1 & E). rewrite (Ea : antenna_at (touch_ue s nodeId) _ _ = _) in Ea1. injection Ea1 as <-.
  apply rbind_Ok_inv in E as (s2 & E2 & E). injection E as <- <-. cbn. split; [lia|by exists s2].
Qed.

Lemma addBlocks_on_ok s antenna band nodeId blocks bytes r s' :
  books_ok s -> 0 <= band -> 0 <= blocks < 2 ^ 31 -> addBlocks_on s antenna band nodeId blocks bytes = Ok (r, s') -> books_ok s'.
Proof.
  intros Hs Hb Hbl E. apply addBlocks_on_spec in E as (Hband & a & Ea & E); [|done..].
  destruct r; [|by subst]. destruct E as (Hfit & s1 & E1 & ->). apply books_set_ue.
  eapply set_antenna_ok in E1 as [H _]; [exact H|exact Hs|]. apply antenna_add_ok; [apply Hs| |done|lia|cbn; lia].
  exact (antenna_at_ok _ _ _ _ Hs Ea).
Qed.

Lemma addBlocks_ok s band nodeId blocks bytes r s' :
  books_ok s -> 0 <= band -> 0 <= blocks < 2 ^ 31 -> addBlocks s band nodeId blocks bytes = Ok (r, s') -> books_ok s'.
Proof.
  intros Hs Hb Hbl E. unfold addBlocks in E. apply rbind_Ok_inv in E as (u & _ & E). revert s Hs E.
  induction (antennas_of u) as [|a l IH]; intros s Hs E; cbn in E; [by injection E as _ <-|].
  apply rbind_Ok_inv in E as ([r1 s1] & E1 & E). pose proof (addBlocks_on_ok _ _ _ _ _ _ _ _ Hs Hb Hbl E1).
  destruct r1; [by injection E as _ <-|]. eauto.
Qed.

Lemma removeBlocks_ok s antenna band nodeId n s' : books_ok s -> removeBlocks s antenna band nodeId = Ok (n, s') -> books_ok s'.
Proof.
  intros Hs E. unfold removeBlocks in E. destruct (bands_ s <=? band); [by injection E as _ <-|]. cbn in E.
  apply rbind_Ok_inv in E as (a & Ea & E). break_match_hyp; [by injection E as _ <-|]. zify_bool.
  apply rbind_Ok_inv in E as (s1 & E1 & E). injection E as _ <-. apply books_set_ue.
  eapply set_antenna_ok in E1 as [H _]; [exact H|exact Hs|]. apply antenna_remove_ok; [apply Hs| |done].
  exact (antenna_at_ok _ _ _ _ Hs Ea).
Qed.

Lemma availableBlocks_ok s nodeId band n s' : books_ok s -> availableBlocks s nodeId band = Ok (n, s') -> books_ok s'.
Proof.
  intros Hs E. unfold availableBlocks in E. apply rbind_Ok_inv in E as (u & _ & E). revert s Hs E. generalize 0.
  induction (antennas_of u) as [|a l IH]; intros m s Hs E; cbn in E; [by injection E as _ <-|].
  apply rbind_Ok_inv in E as ([k s1] & E1 & E). apply availableBlocks_on_spec in E1 as [-> _]. exact (IH _ (touch_ue s nodeId) Hs E).
Qed.

(** The calls of a scheduler in a TTI, by what they return. *)
Inductive alloc_step : LteAllocationModule -> LteAllocationModule -> Prop :=
| as_add s s' band nodeId blocks bytes r :
    0 <= band -> 0 <= blocks < 2 ^ 31 -> addBlocks s band nodeId blocks bytes = Ok (r, s') -> alloc_step s s'
| as_add_on s s' antenna band nodeId blocks bytes r :
    0 <= band -> 0 <= blocks < 2 ^ 31 -> addBlocks_on s antenna band nodeId blocks bytes = Ok (r, s') -> alloc_step s s'
| as_remove s s' antenna band nodeId n : removeBlocks s antenna band nodeId = Ok (n, s') -> alloc_step s s'
| as_peer s s' nodeId peer r : configureMuMimoPeering s nodeId peer = Ok (r, s') -> alloc_step s s'
| as_available s s' nodeId band n : availableBlocks s nodeId band = Ok (n, s') -> alloc_step s s'
| as_plane s nodeId : alloc_step s (snd (getOFDMPlane s nodeId)).

Lemma alloc_step_ok s s' : books_ok s -> alloc_step s s' -> books_ok s'.
Proof.
  intros Hs H. destruct H as [s s' band nodeId blocks bytes r ? ? E|s s' antenna band nodeId blocks bytes r ? ? E|s s' ???? E
    |s s' ??? E|s s' ??? E|s nodeId].
  - exact (addBlocks_ok _ _ _ _ _ _ _ Hs ltac:(done) ltac:(done) E).
  - exact (addBlocks_on_ok _ _ _ _ _ _ _ _ Hs ltac:(done) ltac:(done) E).
  - exact (removeBlocks_ok _ _ _ _ _ _ Hs E).
  - exact (configureMuMimoPeering_ok _ _ _ _ _ Hs E).
  - exact (availableBlocks_ok _ _ _ _ _ Hs E).
  - exact Hs.
Qed.

Definition all_antennas (s : LteAllocationModule) : list Antenna := concat (planes_ s).
Definition total_blocks (s : LteAllocationModule) : Z := foldr (fun a n => totalRbs a + n) 0 (all_antennas s).
Definition given_blocks (s : LteAllocationModule) : Z := foldr (fun a n => allocatedRbs a + n) 0 (all_antennas s).

Lemma int_sum (f : Antenna -> Z) l : Forall (fun a => 0 <= f a) l -> forall n, 0 <= n ->
  n + foldr (fun a n => f a + n) 0 l < 2 ^ 31 ->
  fold_left (fun n a => int32 (uint32 (n + f a))) l n = n + foldr (fun a n => f a + n) 0 l.
Proof.
  induction 1 as [|a l Ha Hl IH]; intros n Hn Hb; cbn -[Z.pow] in *; [lia|].
  assert (0 <= foldr (fun a n => f a + n) 0 l) by (clear - Hl; induction Hl; cbn; lia).
  rewrite (wrap_small 32), (swrap_small 32) by (unfold is_uint, is_sint; lia). rewrite IH; lia.
Qed.

Lemma all_antennas_ok s : books_ok s -> Forall (antenna_ok (bands_ s)) (all_antennas s).
Proof. intros [_ H]. by apply Forall_concat. Qed.

Lemma given_le_total s : books_ok s -> 0 <= given_blocks s <= total_blocks s.
Proof.
  intros Hs. pose proof (all_antennas_ok s Hs) as H. unfold given_blocks, total_blocks. destruct Hs as [Hb _].
  induction H as [|a l Ha Hl IH]; cbn; [lia|]. pose proof (antenna_fits _ _ Hb Ha). lia.
Qed.

(** C25. In a TTI the books are kept: whatever requests, removals, queries and MU-MIMO peerings
    follow the reset, no band is given more blocks than it has, the blocks of a band are the
    sum of those of its UEs, and [computeTotalRbs] finds the blocks that are left and never
    reports a negative OFDM space, as long as the number of all blocks is an [int]. *)
Theorem no_negative_space s0 resourceBlocks bands s :
  0 < bands -> 0 <= resourceBlocks < 2 ^ 31 -> star alloc_step (initAndReset s0 resourceBlocks bands) s ->
  (forall plane antenna a band, antenna_at s plane antenna = Ok a ->
     0 <= allocated_ (band_of a band) <= totalRbs a / bands_ s /\
     allocated_ (band_of a band) = total_ues (ueAllocatedRbsMap_ (band_of a band)) /\
     allocatedRbs a = sum_map allocated_ (perBand a)) /\
  (total_blocks s < 2 ^ 31 -> computeTotalRbs s = Ok (total_blocks s - given_blocks s) /\ 0 <= total_blocks s - given_blocks s).
Proof.
  intros Hb Hr Hstar. assert (Hs : books_ok s).
  { eapply (star_invariant _ books_ok); [apply alloc_step_ok|exact Hstar|by apply initAndReset_ok]. }
  split.
  - intros plane antenna a band Ea. pose proof (antenna_at_ok _ _ _ _ Hs Ea) as Ha.
    pose proof (band_of_ok _ _ band (proj1 Hs) Ha) as Hi. pose proof (band_ok_nonneg _ _ Hi). destruct Hi, Ha. by split_and!.
  - intros Ht. pose proof (given_le_total s Hs). pose proof (all_antennas_ok s Hs) as Hall. split; [|lia].
    unfold computeTotalRbs, total_blocks, given_blocks, all_antennas in *. rewrite !int_sum; try lia.
    + unfold int_of. rewrite !Z.add_0_l. rewrite (proj2 (Z.leb_le _ _)), (proj2 (Z.ltb_lt _ _)) by lia. cbn.
      by rewrite (proj2 (Z.ltb_ge _ _)) by lia.
    + eapply Forall_impl; [exact Hall|]. intros a Ha. pose proof (antenna_fits _ _ (proj1 Hs) Ha). lia.
    + eapply Forall_impl; [exact Hall|]. intros a Ha. pose proof (antenna_fits _ _ (proj1 Hs) Ha). lia.
Qed.

Lemma set_antenna_at s plane antenna a s' :
  set_antenna s plane antenna a = Ok s' -> antenna_at s' plane antenna = Ok a /\ allocatedRbsUe_ s' = allocatedRbsUe_ s /\ bands_ s' = bands_ s.
Proof.
  intros E. unfold set_antenna in E. inv_ok. subst. split; [|done]. unfold antenna_at; cbn.
  by erewrite vget_vset_eq by eassumption; cbn; erewrite vget_vset_eq by eassumption.
Qed.

Lemma ueInfo_set s nodeId u : ueInfo (set_ue s nodeId u) nodeId = u.
Proof. unfold ueInfo, set_ue; cbn. by rewrite lookup_insert_eq. Qed.

Lemma touch_set s nodeId u : touch_ue (set_ue s nodeId u) nodeId = set_ue s nodeId u.
Proof. unfold touch_ue. rewrite ueInfo_set. unfold set_ue; cbn. by rewrite insert_insert_eq. Qed.

Lemma availableBlocks_on_ok s nodeId antenna band a :
  books_ok s -> antenna_at s (plane_of (ueInfo s nodeId)) antenna = Ok a ->
  availableBlocks_on s nodeId antenna band = Ok (totalRbs a / bands_ s - allocated_ (band_of a band), touch_ue s nodeId).
Proof.
  intros Hs Ea. unfold availableBlocks_on; cbn.
  rewrite (Ea : antenna_at (touch_ue s nodeId) _ _ = _); cbn. rewrite (proj2 (Z.eqb_neq _ _)) by (destruct Hs; lia).
  destruct (band_of_ok _ _ band (proj1 Hs) (antenna_at_ok _ _ _ _ Hs Ea)) as [_ _ Hl]. by rewrite (proj2 (Z.leb_le _ _)).
Qed.

Lemma band_of_remove a band nodeId n :
  band_of (antenna_remove a band nodeId n) band =
  (band_of a band) <| allocated_ := uint32 (allocated_ (band_of a band) - n) |>
                   <| ueAllocatedRbsMap_ := <[nodeId := 0]> (ueAllocatedRbsMap_ (band_of a band)) |>.
Proof. unfold band_of at 1; cbn. by rewrite lookup_insert_eq. Qed.

(** A removal that finds blocks: the antenna and the UE it leaves. *)
Lemma removeBlocks_spec s antenna band nodeId n s' :
  removeBlocks s antenna band nodeId = Ok (n, s') -> n <> 0 ->
  exists a, antenna_at s (plane_of (ueInfo s nodeId)) antenna = Ok a /\ n = default 0 (ueAllocatedRbsMap_ (band_of a band) !! nodeId) /\
    antenna_at s' (plane_of (ueInfo s nodeId)) antenna = Ok (antenna_remove a band nodeId n) /\
    ueInfo s' nodeId = ue_remove (ueInfo s nodeId) antenna band n /\ touch_ue s' nodeId = s' /\ bands_ s' = bands_ s.
Proof.
  intros E Hn. unfold removeBlocks in E. destruct (bands_ s <=? band); [by injection E as <- _|]. cbn in E.
  apply rbind_Ok_inv in E as (a & Ea & E). break_match_hyp; [zify_bool; by injection E as <- _|].
  apply rbind_Ok_inv in E as (s1 & E1 & E). injection E as <- <-.
  apply set_antenna_at in E1 as (Ea1 & Eu & Eb). exists a. rewrite ueInfo_set, touch_set. split_and!; try done.
  unfold ueInfo at 1. rewrite Eu. change (default new_UeInfo _) with (ueInfo (touch_ue s nodeId) nodeId). by rewrite ueInfo_touch.
Qed.

(** A removal takes back the blocks and not the bytes: after it the UE has no block on the
    band and the band has as many blocks more to give, but [getBytes] still returns the bytes
    of the removed blocks, the UE has no byte left on any other band, and the count of its
    blocks per antenna is the old one. *)
Theorem removal_keeps_bytes s antenna band nodeId n s' :
  books_ok s -> removeBlocks s antenna band nodeId = Ok (n, s') -> n <> 0 ->
  exists free bytes,
    getBlocks s antenna band nodeId = Ok (n, touch_ue s nodeId) /\ getBlocks s' antenna band nodeId = Ok (0, s') /\
    availableBlocks_on s nodeId antenna band = Ok (free, touch_ue s nodeId) /\
    availableBlocks_on s' nodeId antenna band = Ok (free + n, s') /\
    alloc_getBytes s antenna band nodeId = Ok (bytes, touch_ue s nodeId) /\ alloc_getBytes s' antenna band nodeId = Ok (bytes, s') /\
    allocatedBytes_ (ueInfo s' nodeId) = 0 /\
    antennaAllocatedRbs_ (ueInfo s' nodeId) = antennaAllocatedRbs_ (ueInfo s nodeId).
Proof.
  intros Hs E Hn. pose proof (removeBlocks_ok _ _ _ _ _ _ Hs E) as Hs'.
  apply removeBlocks_spec in E as (a & Ea & En & Ea' & Eu & Et & Eb); [|done].
  pose proof (antenna_at_ok _ _ _ _ Hs Ea) as Ha. pose proof (band_of_ok _ _ band (proj1 Hs) Ha) as Hi.
  assert (Hq : totalRbs a / bands_ s < 2 ^ 31).
  { pose proof (Z.div_le_upper_bound (totalRbs a) (bands_ s) (totalRbs a) (proj1 Hs)) as Hd. destruct Ha, Hs. nia. }
  destruct (band_remove_ok _ _ nodeId Hi Hq) as (_ & Hall & _). rewrite <- En in Hall.
  assert (Ep : plane_of (ueInfo s' nodeId) = plane_of (ueInfo s nodeId)) by by rewrite Eu.
  pose proof (Ea : antenna_at (touch_ue s nodeId) _ _ = _) as Ea0.
  exists (totalRbs a / bands_ s - allocated_ (band_of a band)), (default 0 (ueAllocatedBytesMap_ (band_of a band) !! nodeId)).
  rewrite (availableBlocks_on_ok s nodeId antenna band a) by done.
  rewrite (availableBlocks_on_ok s' nodeId antenna band _ Hs' ltac:(rewrite Ep; exact Ea')).
  unfold getBlocks, alloc_getBytes; cbn [getOFDMPlane]. rewrite Et, Ep, Ea', Ea0, Eb, Eu; cbn [rbind].
  rewrite band_of_remove, Hall; cbn. rewrite lookup_insert_eq, En. split_and!; try done. do 2 f_equal. lia.
Qed.

(** ** A TTI of 10 blocks in two bands *)

Definition demo_tti : LteAllocationModule := snd (getOFDMPlane (initAndReset new_LteAllocationModule 10 2) 1025).

Definition demo_granted : LteAllocationModule :=
  match addBlocks demo_tti 0 1025 3 100 with Ok (_, s) => s | _ => demo_tti end.

Lemma demo_tti_step : star alloc_step (initAndReset new_LteAllocationModule 10 2) demo_granted.
Proof.
  eapply star_step; [apply (as_plane _ 1025)|]. eapply star_step; [|apply star_refl].
  apply (as_add _ _ 0 1025 3 100 true); [lia|lia|]. vm_compute. reflexivity.
Qed.

Lemma no_negative_space_witness : computeTotalRbs demo_granted = Ok 7.
Proof.
  destruct (no_negative_space new_LteAllocationModule 10 2 demo_granted) as [_ H]; [lia|lia|apply demo_tti_step|].
  destruct H as [-> _]; vm_compute; reflexivity.
Defined.

Lemma demo_granted_ok : books_ok demo_granted.
Proof. exact (star_invariant _ books_ok alloc_step_ok _ _ demo_tti_step (initAndReset_ok _ 10 2 ltac:(lia) ltac:(lia))). Qed.

Definition demo_removed : LteAllocationModule :=
  match removeBlocks demo_granted 0 0 1025 with Ok (_, s) => s | _ => demo_granted end.

Lemma removal_keeps_bytes_witness :
  fst (default (0, demo_tti) match alloc_getBytes demo_removed 0 0 1025 with Ok r => Some r | _ => None end) = 100.
Proof.
  destruct (removal_keeps_bytes demo_granted 0 0 1025 3 demo_removed) as (free & bytes & _ & _ & _ & _ & H1 & H2 & _);
    [apply demo_granted_ok|vm_compute; reflexivity|lia|].
  rewrite H2. vm_compute in H1. injection H1 as <-. reflexivity.
Defined.
