(* ===== verification/CircularList.v ===== *)
(** * Circular lists

    [CircularList] (src/simulte/src/common/Circular.h): a [std::list] with a pointer to the
    current element, which the deficit round-robin scheduler goes around on.  The pointer is
    a position; on an empty list it is not used before an insertion sets it.  The abstract
    view is the ring: the elements in the order in which [move] reaches them. *)

From S2P Require Import Prelude.
#[local] Open Scope Z_scope.

(** The code keeps [size_] along with the list. *)
Record CircularList (T : Type) := {
  list_ : list T;
  cur_ : nat;
  size_ : Z
}.
Arguments list_ {T}.
Arguments cur_ {T}.
Arguments size_ {T}.
Arguments Build_CircularList {T}.

Section Circular.
Context {T : Type} `{EqDecision T}.
Implicit Types (c : CircularList T) (t : T).

Definition new_CircularList : CircularList T := {| list_ := []; cur_ := 0; size_ := 0 |}.

Definition circ_empty c : bool := size_ c =? 0.

Definition circ_clear c : CircularList T := {| list_ := []; cur_ := cur_ c; size_ := 0 |}.

(** [std::find]; the position of the end when the element is not there. *)
Fixpoint position (l : list T) (t : T) : nat :=
  match l with
  | [] => 0
  | x :: l' => if decide (x = t) then 0%nat else S (position l' t)
  end.

Definition circ_find c t : bool :=
  if size_ c =? 0 then false else (position (list_ c) t <? length (list_ c))%nat.

(** Before the current element. *)
Definition circ_insert c t : CircularList T :=
  if size_ c =? 0 then {| list_ := list_ c ++ [t]; cur_ := 0; size_ := uint32 (size_ c + 1) |}
  else {| list_ := take (cur_ c) (list_ c) ++ t :: drop (cur_ c) (list_ c); cur_ := S (cur_ c); size_ := uint32 (size_ c + 1) |}.

(** [if (cur_ == list_.end()) cur_ = list_.begin()]. *)
Definition wrapped (l : list T) (i : nat) : nat := if decide (i = length l) then 0%nat else i.

Definition circ_erase c : CircularList T :=
  if size_ c =? 0 then c else
  let next := wrapped (list_ c) (S (cur_ c)) in
  {| list_ := delete (cur_ c) (list_ c); cur_ := if decide (next = 0%nat) then 0%nat else pred next; size_ := uint32 (size_ c - 1) |}.

(** An element that is not there is looked for at the end of the list, which [std::list::erase]
    must not be called with. *)
Definition circ_eraseElem c t : result (CircularList T) :=
  if size_ c =? 0 then Ok c else
  let it := position (list_ c) t in
  if decide (cur_ c = length (list_ c)) then Ok c else
  if (length (list_ c) <=? it)%nat then UB else
  let next := if decide (cur_ c = it) then wrapped (list_ c) (S (cur_ c)) else cur_ c in
  Ok {| list_ := delete it (list_ c); cur_ := if (it <? next)%nat then pred next else next; size_ := uint32 (size_ c - 1) |}.

Definition circ_rewind c : CircularList T := {| list_ := list_ c; cur_ := 0; size_ := size_ c |}.

Definition circ_move c : CircularList T :=
  if 0 <? size_ c then {| list_ := list_ c; cur_ := wrapped (list_ c) (S (cur_ c)); size_ := size_ c |} else c.

(** Asserts that there is an element. *)
Definition circ_current c : result T :=
  if 0 <? size_ c then of_option (list_ c !! cur_ c) else Throw "size_ > 0".

(** After the current element. *)
Definition circ_insertFront c t : CircularList T :=
  if size_ c =? 0 then {| list_ := list_ c ++ [t]; cur_ := 0; size_ := uint32 (size_ c + 1) |}
  else {| list_ := take (S (cur_ c)) (list_ c) ++ t :: drop (S (cur_ c)) (list_ c); cur_ := cur_ c; size_ := uint32 (size_ c + 1) |}.

(** ** The ring *)

Definition ring c : list T := drop (cur_ c) (list_ c) ++ take (cur_ c) (list_ c).

Record circ_ok c : Prop := {
  co_size : size_ c = vsize (list_ c);
  co_bound : size_ c < 2 ^ 32 - 1;
  co_cur : list_ c <> [] -> (cur_ c < length (list_ c))%nat
}.

Lemma ring_length c : length (ring c) = length (list_ c).
Proof. unfold ring. rewrite length_app, length_drop, length_take. lia. Qed.

Lemma ring_Permutation c : ring c ≡ₚ list_ c.
Proof. unfold ring. rewrite Permutation_app_comm. by rewrite take_drop. Qed.

Lemma circ_ok_new : circ_ok new_CircularList.
Proof. by split. Qed.

Lemma circ_nonempty c : circ_ok c -> circ_empty c = false -> exists x, list_ c !! cur_ c = Some x /\ 0 < size_ c.
Proof.
  intros [Hs _ Hc] E. unfold circ_empty in E. zify_bool. destruct (list_ c) as [|y l] eqn:El; [cbn in Hs; lia|].
  destruct (lookup_lt_is_Some_2 (y :: l) (cur_ c)) as [x Hx]; [by apply Hc|]. exists x. cbn in Hs. split; [done|lia].
Qed.

Lemma circ_empty_ring c : circ_ok c -> circ_empty c = true -> ring c = [].
Proof.
  intros [Hs _ _] E. unfold circ_empty in E. zify_bool. apply length_zero_iff_nil. rewrite ring_length. lia.
Qed.

(** The ring of a list that is not empty. *)
Lemma ring_cur c x : list_ c !! cur_ c = Some x -> ring c = x :: drop (S (cur_ c)) (list_ c) ++ take (cur_ c) (list_ c).
Proof. intros E. unfold ring. by rewrite (drop_S _ x). Qed.

Lemma circ_current_spec c : circ_ok c -> circ_empty c = false -> exists x l, ring c = x :: l /\ circ_current c = Ok x.
Proof.
  intros Hc E. destruct (circ_nonempty c Hc E) as (x & Hx & Hs). eexists x, _. rewrite (ring_cur c x Hx). split; [done|].
  unfold circ_current. by rewrite (proj2 (Z.ltb_lt _ _)), Hx.
Qed.

Lemma circ_move_spec c x l : circ_ok c -> ring c = x :: l -> circ_ok (circ_move c) /\ ring (circ_move c) = l ++ [x].
Proof.
  intros Hc Hr. assert (E : circ_empty c = false).
  { destruct (circ_empty c) eqn:E; [|done]. by rewrite (circ_empty_ring c Hc E) in Hr. }
  destruct (circ_nonempty c Hc E) as (y & Hy & Hs). pose proof (lookup_lt_Some _ _ _ Hy) as Hlt.
  rewrite (ring_cur c y Hy) in Hr. injection Hr as -> <-. unfold circ_move. rewrite (proj2 (Z.ltb_lt _ _)) by done.
  destruct Hc as [H1 H2 H3]. unfold wrapped. case_decide as Hw; (split; [split; cbn; [done..|lia]|]); unfold ring; cbn.
  - rewrite (drop_ge (list_ c) (S (cur_ c))), drop_0, app_nil_r by lia. cbn [app].
    by rewrite <- (take_S_r _ _ x), take_ge by (done || lia).
  - by rewrite (take_S_r _ _ x), app_assoc.
Qed.

Lemma circ_erase_spec c x l : circ_ok c -> ring c = x :: l -> circ_ok (circ_erase c) /\ ring (circ_erase c) = l.
Proof.
  intros Hc Hr. assert (E : circ_empty c = false).
  { destruct (circ_empty c) eqn:E; [|done]. by rewrite (circ_empty_ring c Hc E) in Hr. }
  destruct (circ_nonempty c Hc E) as (y & Hy & Hs). pose proof (lookup_lt_Some _ _ _ Hy) as Hlt.
  rewrite (ring_cur c y Hy) in Hr. injection Hr as -> <-. unfold circ_erase. rewrite (proj2 (Z.eqb_neq _ _)) by lia.
  destruct Hc as [H1 H2 H3]. assert (Hsz : uint32 (size_ c - 1) = size_ c - 1) by (apply wrap_small; unfold is_uint; lia).
  pose proof (length_delete (list_ c) (cur_ c) ltac:(eauto)) as Hl. unfold wrapped. destruct (decide (S (cur_ c) = length (list_ c))) as [Hw|Hw].
  - rewrite decide_True by done. split.
    { split; cbn; [rewrite Hsz, Hl; lia|lia|]. intros Hne. by destruct (delete (cur_ c) (list_ c)); [done|cbn; lia]. }
    unfold ring; cbn [list_ cur_]. rewrite drop_0, app_nil_r, delete_take_drop, !drop_ge, app_nil_r by lia. done.
  - rewrite decide_False by done. split; [split; cbn; [rewrite Hsz, Hl; lia|lia|intros _; rewrite Hl; lia]|].
    unfold ring; cbn. rewrite delete_take_drop, drop_app_length', take_app_length' by (rewrite length_take; lia). done.
Qed.

Lemma circ_insert_spec c t : circ_ok c -> size_ c < 2 ^ 32 - 2 -> circ_ok (circ_insert c t) /\ ring (circ_insert c t) = ring c ++ [t].
Proof.
  intros Hc Hb. assert (Hsz : uint32 (size_ c + 1) = size_ c + 1) by (apply wrap_small; unfold is_uint; destruct Hc; lia).
  unfold circ_insert. destruct (size_ c =? 0) eqn:E.
  - pose proof (circ_empty_ring c Hc E) as Hr. zify_bool. destruct Hc as [H1 _ _].
    destruct (list_ c) eqn:El; [|cbn in H1; lia]. split; [split; cbn; rewrite ?Hsz; (lia || done)|]. by rewrite Hr.
  - destruct (circ_nonempty c Hc E) as (x & Hx & Hs). pose proof (lookup_lt_Some _ _ _ Hx) as Hlt. destruct Hc as [H1 H2 H3].
    assert (Hl : length (take (cur_ c) (list_ c)) = cur_ c) by (rewrite length_take; lia).
    split; [split; cbn; rewrite ?Hsz, ?length_app, ?Hl; cbn; rewrite ?length_drop; (lia || intros _; lia)|].
    unfold ring; cbn. rewrite cons_middle, app_assoc, drop_app_length', take_app_length' by (rewrite length_app, Hl; cbn; lia).
    by rewrite app_assoc.
Qed.

Lemma circ_insertFront_spec c t x l :
  circ_ok c -> size_ c < 2 ^ 32 - 2 -> ring c = x :: l ->
  circ_ok (circ_insertFront c t) /\ ring (circ_insertFront c t) = x :: t :: l.
Proof.
  intros Hc Hb Hr. assert (Hsz : uint32 (size_ c + 1) = size_ c + 1) by (apply wrap_small; unfold is_uint; destruct Hc; lia).
  assert (E : circ_empty c = false) by (destruct (circ_empty c) eqn:E; [by rewrite (circ_empty_ring c Hc E) in Hr|done]).
  destruct (circ_nonempty c Hc E) as (y & Hy & Hs). pose proof (lookup_lt_Some _ _ _ Hy) as Hlt.
  rewrite (ring_cur c y Hy) in Hr. injection Hr as -> <-. unfold circ_insertFront. unfold circ_empty in E. rewrite E.
  destruct Hc as [H1 H2 H3]. split.
  - split; cbn -[take drop]; rewrite ?Hsz, ?length_app; cbn; rewrite ?length_take, ?length_drop; (lia || intros _; lia).
  - unfold ring; cbn [list_ cur_]. rewrite (take_S_r _ _ x) by done. rewrite <- app_assoc.
    assert (Hl : length (take (cur_ c) (list_ c)) = cur_ c) by (rewrite length_take; lia).
    by rewrite drop_app_length', take_app_length' by done.
Qed.

(** *** Removal of an element *)

Lemma position_in l t : t ∈ l -> l !! position l t = Some t /\ t ∉ take (position l t) l.
Proof.
  induction l as [|x l IH]; intros Ht; cbn; [by apply elem_of_nil in Ht|].
  destruct (decide (x = t)) as [->|Hx]; [by split; [|apply not_elem_of_nil]|]. apply elem_of_cons in Ht as [->|Ht]; [done|].
  destruct (IH Ht) as [H1 H2]. split; [done|]. cbn. by rewrite not_elem_of_cons.
Qed.

Lemma position_out l t : t ∉ l -> position l t = length l.
Proof.
  induction l as [|x l IH]; intros Ht; cbn; [done|]. apply not_elem_of_cons in Ht as [Hx Ht].
  rewrite decide_False by congruence. by rewrite IH.
Qed.

Definition without (t : T) (l : list T) : list T := filter (.≠ t) l.

Lemma without_not_in t l : t ∉ l -> without t l = l.
Proof.
  induction l as [|x l IH]; intros Ht; [done|]. apply not_elem_of_cons in Ht as [Hx Ht]. unfold without in *.
  by rewrite filter_cons_True, IH by congruence.
Qed.

Lemma delete_without l t : NoDup l -> t ∈ l -> delete (position l t) l = without t l.
Proof.
  intros Hd Ht. destruct (position_in l t Ht) as [H1 H2]. rewrite delete_take_drop. pose proof (take_drop_middle l _ t H1) as E.
  revert E H2. generalize (take (position l t) l) (drop (S (position l t)) l). intros a b <- Ha.
  apply NoDup_app in Hd as (_ & _ & Hd). apply NoDup_cons in Hd as [Hb _].
  unfold without. rewrite filter_app, filter_cons_False by auto. fold (without t a) (without t b). by rewrite !without_not_in.
Qed.

(** The position of the current element in what is left. *)
Lemma length_without_take l t i :
  NoDup l -> t ∈ l -> (i <= length l)%nat ->
  length (without t (take i l)) = if (position l t <? i)%nat then pred i else i.
Proof.
  intros Hd Ht Hi. destruct (position_in l t Ht) as [H1 H2]. destruct (Nat.ltb_spec (position l t) i) as [Hlt|Hge].
  - assert (Hit : t ∈ take i l) by (apply list_elem_of_lookup; exists (position l t); by rewrite lookup_take_lt).
    rewrite <- (delete_without (take i l) t) by (done || by eapply sublist_NoDup, sublist_take).
    rewrite length_delete, length_take; [lia|]. by destruct (position_in (take i l) t Hit) as [-> _].
  - rewrite without_not_in, length_take; [lia|]. intros Hit. apply H2.
    apply list_elem_of_lookup in Hit as [k Hk]. apply lookup_take_Some in Hk as [Hk Hki].
    apply list_elem_of_lookup. exists k. by rewrite lookup_take_lt by lia.
Qed.

Lemma without_app t l1 l2 : without t (l1 ++ l2) = without t l1 ++ without t l2.
Proof. apply filter_app. Qed.

Lemma without_cons t l : without t (t :: l) = without t l.
Proof. apply filter_cons_False. auto. Qed.

Lemma without_split t l i : without t l = without t (take i l) ++ without t (drop i l).
Proof. by rewrite <- without_app, take_drop. Qed.

Lemma circ_eraseElem_spec c t :
  circ_ok c -> NoDup (list_ c) -> t ∈ list_ c ->
  exists c', circ_eraseElem c t = Ok c' /\ circ_ok c' /\ ring c' = without t (ring c).
Proof.
  intros Hc Hd Ht. assert (Hne : list_ c <> []) by (by intros ->%elem_of_nil_inv || (intros E; rewrite E in Ht; by apply elem_of_nil in Ht)).
  destruct (position_in _ _ Ht) as [Hp _]. pose proof (lookup_lt_Some _ _ _ Hp) as Hlt. destruct Hc as [H1 H2 H3]. specialize (H3 Hne).
  unfold circ_eraseElem. rewrite (proj2 (Z.eqb_neq _ _)) by lia. rewrite decide_False by lia.
  rewrite (proj2 (Nat.leb_gt _ _)) by done.
  assert (Hsz : uint32 (size_ c - 1) = size_ c - 1) by (apply wrap_small; unfold is_uint; lia).
  pose proof (length_delete (list_ c) (position (list_ c) t) ltac:(eauto)) as Hl.
  remember (if decide (cur_ c = position (list_ c) t) then wrapped (list_ c) (S (cur_ c)) else cur_ c) as next eqn:En.
  assert (Hn : (next < length (list_ c))%nat) by (subst next; unfold wrapped; repeat case_decide; lia).
  eexists; split; [reflexivity|]. split; [split; cbn [list_ cur_ size_]; [rewrite Hsz, Hl; lia|rewrite Hsz; lia|]|].
  - intros Hne'. rewrite Hl. assert (Hz : (length (list_ c) - 1)%nat <> 0%nat) by (rewrite <- Hl; by destruct (delete _ (list_ c))).
    destruct (Nat.ltb_spec (position (list_ c) t) next); [lia|]. subst next. unfold wrapped in *. repeat case_decide; lia.
  - unfold ring; cbn [list_ cur_]. rewrite delete_without by done. rewrite <- (length_without_take (list_ c) t next) by (done || lia).
    rewrite (without_split t (list_ c) next), drop_app_length, take_app_length, <- without_app.
    subst next. unfold wrapped. destruct (decide (cur_ c = _)) as [Hcur|]; [|done].
    rewrite <- Hcur in Hp. rewrite (drop_S _ t (cur_ c)), (without_app t (t :: _)), without_cons by done.
    case_decide as Hw; [|by rewrite (take_S_r _ _ t), !without_app, without_cons, app_nil_r by done].
    rewrite drop_0, (drop_ge (list_ c) (S (cur_ c))) by lia. cbn [take app]. rewrite app_nil_r.
    rewrite <- (take_drop (cur_ c) (list_ c)) at 1. rewrite (drop_S _ t), drop_ge, without_app, without_cons by (done || lia).
    by rewrite !app_nil_r.
Qed.
(** *** Refinement *)

Inductive circ_op :=
| CInsert (t : T)
| CInsertFront (t : T)
| CErase
| CEraseElem (t : T)
| CMove
| CRewind
| CClear.

Definition circ_step c (op : circ_op) : result (CircularList T) :=
  match op with
  | CInsert t => Ok (circ_insert c t)
  | CInsertFront t => Ok (circ_insertFront c t)
  | CErase => Ok (circ_erase c)
  | CEraseElem t => circ_eraseElem c t
  | CMove => Ok (circ_move c)
  | CRewind => Ok (circ_rewind c)
  | CClear => Ok (circ_clear c)
  end.

(** Where a round stands: what is behind the current element since the beginning of the
    round, and what is ahead of it, itself first.  A round with nothing ahead starts anew. *)
Definition lap c : list T * list T := (take (cur_ c) (list_ c), drop (cur_ c) (list_ c)).

Definition restart (z : list T * list T) : list T * list T :=
  match z with (behind, []) => ([], behind) | _ => z end.

Definition lap_step (z : list T * list T) (op : circ_op) : list T * list T :=
  let (behind, ahead) := z in
  match op, ahead with
  | CInsert t, [] | CInsertFront t, [] => ([], [t])
  | CInsert t, _ => (behind ++ [t], ahead)
  | CInsertFront t, x :: ahead' => (behind, x :: t :: ahead')
  | CErase, _ => restart (behind, tail ahead)
  | CEraseElem t, _ => restart (without t behind, without t ahead)
  | CMove, x :: ahead' => restart (behind ++ [x], ahead')
  | CMove, [] => z
  | CRewind, _ => ([], behind ++ ahead)
  | CClear, _ => ([], [])
  end.

(** On rings: the head is the current element.  Where a round begins is not a matter of the
    ring. *)
Definition ring_step (r : list T) (op : circ_op) : option (list T) :=
  match op, r with
  | CInsert t, _ => Some (r ++ [t])
  | CInsertFront t, x :: r' => Some (x :: t :: r')
  | CInsertFront t, [] => Some [t]
  | CErase, _ => Some (tail r)
  | CEraseElem t, _ => Some (without t r)
  | CMove, x :: r' => Some (r' ++ [x])
  | CMove, [] => Some []
  | CRewind, _ => None
  | CClear, _ => Some []
  end.

Lemma ring_lap c : ring c = (lap c).2 ++ (lap c).1.
Proof. done. Qed.

Lemma lap_intro c b a : list_ c = b ++ a -> cur_ c = length b -> lap c = (b, a).
Proof. unfold lap. intros -> ->. by rewrite take_app_length, drop_app_length. Qed.

Lemma ring_nil c : circ_ok c -> ring c = [] -> list_ c = [] /\ size_ c = 0.
Proof.
  intros [Hs _ _] Hr. assert (E : list_ c = []) by (apply length_zero_iff_nil; by rewrite <- ring_length, Hr).
  rewrite E in Hs. done.
Qed.

(** A list is empty, or has a current element. *)
Lemma lap_cases c :
  circ_ok c ->
  (list_ c = [] /\ size_ c = 0 /\ lap c = ([], [])) \/
  exists b x a, list_ c = b ++ x :: a /\ cur_ c = length b /\ 0 < size_ c /\ lap c = (b, x :: a).
Proof.
  intros Hc. destruct (circ_empty c) eqn:E.
  - left. destruct (ring_nil c Hc (circ_empty_ring c Hc E)) as [El Es]. unfold lap. by rewrite El, take_nil, drop_nil.
  - right. destruct (circ_nonempty c Hc E) as (x & Hx & Hs). pose proof (lookup_lt_Some _ _ _ Hx).
    assert (El : list_ c = take (cur_ c) (list_ c) ++ x :: drop (S (cur_ c)) (list_ c)) by (by rewrite take_drop_middle).
    assert (Hl : cur_ c = length (take (cur_ c) (list_ c))) by (rewrite length_take; lia).
    eexists _, x, _. do 3 (split; [eassumption|]). by apply lap_intro.
Qed.

Lemma wrapped_lap b x (a : list T) : wrapped (b ++ x :: a) (S (length b)) = match a with [] => 0%nat | _ => S (length b) end.
Proof. unfold wrapped. rewrite length_app. destruct a; cbn; case_decide; lia. Qed.

Lemma circ_move_lap c : circ_ok c -> lap (circ_move c) = lap_step (lap c) CMove.
Proof.
  intros Hc. destruct (lap_cases c Hc) as [(El & Es & ->)|(b & x & a & El & Ec & Es & ->)]; unfold circ_move.
  - rewrite Es. cbn. unfold lap. by rewrite El, take_nil, drop_nil.
  - rewrite (proj2 (Z.ltb_lt _ _)), El, Ec, wrapped_lap by done. destruct a; apply lap_intro; cbn [list_ cur_]; by rewrite ?length_app, ?Nat.add_1_r, <- ?app_assoc.
Qed.

Lemma circ_erase_lap c : circ_ok c -> lap (circ_erase c) = lap_step (lap c) CErase.
Proof.
  intros Hc. destruct (lap_cases c Hc) as [(El & Es & E)|(b & x & a & El & Ec & Es & E)]; rewrite E; unfold circ_erase.
  - by rewrite Es.
  - rewrite (proj2 (Z.eqb_neq _ _)), El, Ec, wrapped_lap by lia.
    assert (Ed : delete (length b) (b ++ x :: a) = b ++ a) by (by rewrite delete_middle). rewrite Ed.
    destruct a; apply lap_intro; cbn [list_ cur_]; by rewrite ?app_nil_r.
Qed.

Lemma circ_insert_lap c t : circ_ok c -> lap (circ_insert c t) = lap_step (lap c) (CInsert t).
Proof.
  intros Hc. destruct (lap_cases c Hc) as [(El & Es & ->)|(b & x & a & El & Ec & Es & ->)]; unfold circ_insert.
  - rewrite Es, El. by apply lap_intro.
  - rewrite (proj2 (Z.eqb_neq _ _)), El, Ec, take_app_length, drop_app_length by lia.
    apply lap_intro; cbn; [by rewrite <- app_assoc|rewrite length_app; cbn; lia].
Qed.

Lemma circ_insertFront_lap c t : circ_ok c -> lap (circ_insertFront c t) = lap_step (lap c) (CInsertFront t).
Proof.
  intros Hc. destruct (lap_cases c Hc) as [(El & Es & ->)|(b & x & a & El & Ec & Es & ->)]; unfold circ_insertFront.
  - rewrite Es, El. by apply lap_intro.
  - rewrite (proj2 (Z.eqb_neq _ _)), El, Ec by lia. rewrite (cons_middle x b a), app_assoc.
    rewrite take_app_length', drop_app_length' by (rewrite length_app; cbn; lia).
    apply lap_intro; cbn; [by rewrite <- app_assoc|done].
Qed.

Lemma circ_eraseElem_lap c c' t :
  circ_ok c -> NoDup (list_ c) -> t ∈ list_ c -> circ_eraseElem c t = Ok c' -> lap c' = lap_step (lap c) (CEraseElem t).
Proof.
  intros Hc Hd Ht E. destruct (lap_cases c Hc) as [(El & _)|(b & x & a & El & Ec & Es & ->)]; [rewrite El in Ht; by apply elem_of_nil in Ht|].
  destruct (position_in _ _ Ht) as [Hp _]. pose proof (lookup_lt_Some _ _ _ Hp) as Hlt.
  assert (Hcur : (length b < length (b ++ x :: a))%nat) by (rewrite length_app; cbn; lia).
  unfold circ_eraseElem in E. rewrite (proj2 (Z.eqb_neq _ _)), El, Ec in E by lia. rewrite El in Hd, Ht, Hp, Hlt.
  rewrite decide_False, (proj2 (Nat.leb_gt _ _)) in E by lia. set (next := if decide _ then _ else _) in E.
  assert (Hn : (next <= length (b ++ x :: a))%nat) by (unfold next, wrapped; repeat case_decide; lia).
  injection E as <-. rewrite <- (length_without_take _ t next) by done. rewrite delete_without by done.
  rewrite (without_split t (b ++ x :: a) next). etransitivity; [by apply lap_intro|]. unfold next. cbn [lap_step].
  destruct (decide (length b = _)) as [Eb|Nb].
  - rewrite <- Eb in Hp. rewrite list_lookup_middle in Hp by done. injection Hp as ->. rewrite wrapped_lap, without_cons.
    apply NoDup_app in Hd as (_ & _ & Hd). apply NoDup_cons in Hd as [Hni _]. destruct a as [|y a].
    + rewrite take_0, drop_0, without_app, without_cons. cbn. by rewrite app_nil_r.
    + rewrite (cons_middle t b), app_assoc, take_app_length', drop_app_length' by (rewrite length_app; cbn; lia).
      by rewrite without_app, without_cons, app_nil_r, (without_not_in t (y :: a)).
  - assert (x <> t). { intros ->. apply Nb. eapply NoDup_lookup; [exact Hd|by apply list_lookup_middle|exact Hp]. }
    rewrite take_app_length, drop_app_length. unfold without. by rewrite (filter_cons_True _ x).
Qed.

(** C18. A circular list is a ring of which the current element is the head, and a round of
    it has a beginning.  On the ring, insertion puts an element at the end (or behind the
    head), [erase] drops the head, [move] turns it by one, [eraseElem] takes the element out
    and leaves the others in their order, and [clear] leaves nothing; [rewind] goes back to
    the beginning of the round, with all the elements passed since then ahead again, where
    the round begins anew when [move] or a removal passes its last element.  An element that
    is not in a list that is not empty is not looked for safely. *)
Theorem circular_list_is_ring c op :
  circ_ok c -> NoDup (list_ c) -> size_ c < 2 ^ 32 - 2 ->
  (exists c', circ_step c op = Ok c' /\ circ_ok c' /\ lap c' = lap_step (lap c) op /\
     forall r, ring_step (ring c) op = Some r -> ring c' = r) \/
  (exists t, op = CEraseElem t /\ (t ∉ ring c) /\ ring c <> [] /\ circ_step c op = UB).
Proof.
  intros Hc Hd Hb. destruct op as [t|t| |t| | |]; cbn [circ_step].
  - left. eexists. do 2 (split; [done || by apply circ_insert_spec|]). split; [by apply circ_insert_lap|].
    intros r E. injection E as <-. by apply circ_insert_spec.
  - left. eexists. split; [done|]. assert (Hspec : circ_ok (circ_insertFront c t) /\ forall r, ring_step (ring c) (CInsertFront t) = Some r -> ring (circ_insertFront c t) = r).
    { destruct (ring c) as [|x l] eqn:Hr.
      - destruct (ring_nil c Hc Hr) as [_ Hs]. destruct (circ_insert_spec c t Hc Hb) as [H1 H2]. rewrite Hr in H2.
        unfold circ_insert, circ_insertFront in *. rewrite Hs in *. split; [done|]. intros r E. by injection E as <-.
      - destruct (circ_insertFront_spec c t x l Hc Hb Hr) as [H1 H2]. split; [done|]. intros r E. by injection E as <-. }
    destruct Hspec as [H1 H2]. by split; [|split; [apply circ_insertFront_lap|]].
  - left. eexists. split; [done|]. rewrite circ_erase_lap by done. destruct (ring c) as [|x l] eqn:Hr.
    + destruct (ring_nil c Hc Hr) as [_ Hs]. unfold circ_erase. rewrite Hs. do 2 (split; [done|]). intros r E. by injection E as <-.
    + destruct (circ_erase_spec c x l Hc Hr) as [H1 H2]. do 2 (split; [done|]). intros r E. by injection E as <-.
  - destruct (ring c) as [|x l] eqn:Hr.
    + left. destruct (ring_nil c Hc Hr) as [El Hs]. exists c. unfold circ_eraseElem, lap. rewrite Hs, El, take_nil, drop_nil.
      do 3 (split; [done|]). intros r E. by injection E as <-.
    + rewrite <- Hr. destruct (decide (t ∈ list_ c)) as [Ht|Ht].
      * left. destruct (circ_eraseElem_spec c t Hc Hd Ht) as (c' & E & H1 & H2). exists c'. do 2 (split; [done|]).
        split; [by apply circ_eraseElem_lap|]. intros r Er. injection Er as <-. exact H2.
      * right. exists t. split; [done|]. split; [intros Hin; apply Ht; by rewrite <- (ring_Permutation c)|]. split; [by rewrite Hr|]. destruct Hc as [H1 H2 H3].
        assert (Hne : list_ c <> []) by (intros E; unfold ring in Hr; rewrite E, drop_nil, take_nil in Hr; done).
        specialize (H3 Hne). unfold circ_eraseElem. rewrite (proj2 (Z.eqb_neq _ _)) by lia.
        rewrite decide_False by lia. by rewrite position_out, Nat.leb_refl.
  - left. eexists. split; [done|]. rewrite circ_move_lap by done. destruct (ring c) as [|x l] eqn:Hr.
    + destruct (ring_nil c Hc Hr) as [_ Hs]. unfold circ_move. rewrite Hs. do 2 (split; [done|]). intros r E. by injection E as <-.
    + destruct (circ_move_spec c x l Hc Hr) as [H1 H2]. do 2 (split; [done|]). intros r E. by injection E as <-.
  - left. eexists. split; [done|]. destruct Hc as [H1 H2 H3]. split; [split; cbn; [done..|]; intros Hne; specialize (H3 Hne); lia|].
    split; [|done]. cbn. rewrite take_drop. unfold lap. cbn. done.
  - left. eexists. split; [done|]. split; [by split|]. unfold lap, ring. cbn. rewrite take_nil, drop_nil. split; [done|].
    intros r E. by injection E as <-.
Qed.
End Circular.

(** Three connections: the first is current, then the second, which is taken out; with the
    third current, the list is rewound. *)
Definition demo_ring : CircularList Z := circ_move (circ_insert (circ_insert (circ_insert new_CircularList 1) 2) 3).

Lemma circular_list_is_ring_witness :
  circ_eraseElem demo_ring 2 = Ok {| list_ := [3; 1]; cur_ := 0; size_ := 2 |} /\ ring demo_ring = [2; 3; 1] /\
  lap demo_ring = ([], [2; 3; 1]) /\ lap (circ_rewind (circ_move demo_ring)) = ([], [2; 3; 1]).
Proof.
  assert (Hok : circ_ok demo_ring) by (split; vm_compute; [reflexivity|reflexivity|intros _; lia]).
  assert (Hd : NoDup (list_ demo_ring)) by (apply (bool_decide_unpack (NoDup (list_ demo_ring))); vm_compute; exact I).
  destruct (circular_list_is_ring demo_ring (CEraseElem 2) Hok Hd eq_refl) as [(c' & E & _)|(t & Et & Ht & _)].
  - cbn [circ_step] in E. rewrite E. vm_compute in E. injection E as <-. repeat split; reflexivity.
  - injection Et as <-. exfalso. apply Ht. apply (bool_decide_unpack (2 ∈ ring demo_ring)). vm_compute. exact I.
Defined.
