(* ===== verification/Amc.v ===== *)
(** * Adaptive modulation and coding

    What the schedulers of an eNB ask [LteAmc] (src/simulte/src/stack/mac/amc/): the transmission
    parameters of a UE and the bytes and blocks they make of each other.  The pilot, which
    chooses the parameters of a UE from its feedback and keeps them for the TTI, and the
    scaled thresholds of the table of modulation and coding schemes are a parameter. *)

From S2P Require Import Prelude.
From S2P Require Import LteCommon.
From S2P Require Import LteBinder.
From S2P Require Import Doubles.
From S2P Require Import TbsTables.
#[local] Open Scope Z_scope.

Inductive LteMod := QPSK | QAM16 | QAM64.

Inductive TxMode :=
| SINGLE_ANTENNA_PORT0 | SINGLE_ANTENNA_PORT5 | TRANSMIT_DIVERSITY | OL_SPATIAL_MULTIPLEXING
| CL_SPATIAL_MULTIPLEXING | MULTI_USER | UNKNOWN_TX_MODE.

#[export] Instance txmode_dec : EqDecision TxMode.
Proof. solve_decision. Defined.

#[export] Instance ltemod_dec : EqDecision LteMod.
Proof. solve_decision. Defined.

Definition NOSIGNALCQI : Z := 0.
Definition MAXCQI : Z := 15.
Definition NORANK : Z := 1.

(** The precoding index is not asked for. *)
Record UserTxParams := {
  txMode_ : TxMode;
  ri_ : Z;
  cqiVector_ : list Z;
  allowedBands_ : list Z;
  isValid_ : bool;
  antennaSet_ : list Z
}.

#[export] Instance usertxparams_eta : Eta UserTxParams := fun u =>
  {| txMode_ := txMode_ u; ri_ := ri_ u; cqiVector_ := cqiVector_ u; allowedBands_ := allowedBands_ u;
     isValid_ := isValid_ u; antennaSet_ := antennaSet_ u |}.

(** [restoreDefaultValues], also the parameters of a UE that is gone. *)
Definition new_UserTxParams : UserTxParams :=
  {| txMode_ := SINGLE_ANTENNA_PORT0; ri_ := NORANK; cqiVector_ := [NOSIGNALCQI]; allowedBands_ := [];
     isValid_ := false; antennaSet_ := [0] |}.

(** ** Modulation *)

Definition cqiTable : list (LteMod * float) :=
  [(QPSK, f0); (QPSK, flit 78 1); (QPSK, flit 120 1); (QPSK, flit 193 1); (QPSK, flit 308 1); (QPSK, flit 449 1);
   (QPSK, flit 602 1); (QAM16, flit 378 1); (QAM16, flit 490 1); (QAM16, flit 616 1); (QAM64, flit 466 1);
   (QAM64, flit 567 1); (QAM64, flit 666 1); (QAM64, flit 772 1); (QAM64, flit 873 1); (QAM64, flit 948 1)].

(** Modulation, index of the transport block size and threshold. *)
Definition McsTable : list (LteMod * Z * float) :=
  [(QPSK, 0, flit 8608 100); (QPSK, 1, flit 11280 100); (QPSK, 2, flit 13865 100); (QPSK, 3, flit 17948 100);
   (QPSK, 4, flit 21996 100); (QPSK, 5, flit 26986 100); (QPSK, 6, flit 31955 100); (QPSK, 7, flit 37448 100);
   (QPSK, 8, flit 42859 100); (QPSK, 9, flit 48337 100);
   (QAM16, 9, flit 24169 100); (QAM16, 10, flit 26880 100); (QAM16, 11, flit 30855 100); (QAM16, 12, flit 34913 100);
   (QAM16, 13, flit 39342 100); (QAM16, 14, flit 43791 100); (QAM16, 15, flit 46867 100);
   (QAM64, 15, flit 31245 100); (QAM64, 16, flit 33166 100); (QAM64, 17, flit 36766 100); (QAM64, 18, flit 40341 100);
   (QAM64, 19, flit 43855 100); (QAM64, 20, flit 47385 100); (QAM64, 21, flit 51128 100); (QAM64, 22, flit 54929 100);
   (QAM64, 23, flit 58351 100); (QAM64, 24, flit 62136 100); (QAM64, 25, flit 64643 100); (QAM64, 26, flit 74952 100)].

Definition rescale (table : list (LteMod * Z * float)) (scale : float) : result (list (LteMod * Z * float)) :=
  if fleb scale f0 then Throw "Bad Rescaling value" else
  Ok (map (fun e => (e.1, fmul e.2 (fdiv (flit 168 1) scale))) table).

(** An invalid index counts as QPSK, one that is too high is cut to the highest. *)
Definition getCwModulation (u : UserTxParams) (cw : Z) : result LteMod :=
  match vget (cqiVector_ u) cw with
  | None => Ok QPSK
  | Some cqi => if MAXCQI <? cqi then Ok QPSK else let! e := of_option (vget cqiTable cqi) in Ok e.1
  end.

Definition cwMapping (txMode : TxMode) (ri antennaPorts : Z) : list Z :=
  if ri <=? 1 then [1] else
  match txMode with
  | SINGLE_ANTENNA_PORT0 | SINGLE_ANTENNA_PORT5 | MULTI_USER | UNKNOWN_TX_MODE => [1]
  | TRANSMIT_DIVERSITY => [uint8 antennaPorts]
  | OL_SPATIAL_MULTIPLEXING | CL_SPATIAL_MULTIPLEXING =>
      let usedRi := if antennaPorts <? ri then antennaPorts else ri in
      if usedRi =? 2 then [1; 1] else if usedRi =? 3 then [1; 2] else if usedRi =? 4 then [2; 2] else if usedRi =? 8 then [4; 4] else []
  end.

Definition getLayers (u : UserTxParams) : list Z := cwMapping (txMode_ u) (ri_ u) (ri_ u).

(** A row out of the range of its table is undefined. *)
Definition itbs2tbs (m : LteMod) (txMode : TxMode) (layers itbs : Z) : result (list Z) :=
  let table := fun qpsk qam16 qam64 => match m with QPSK => qpsk | QAM16 => qam16 | QAM64 => qam64 end in
  if (layers =? 1) || negb (bool_decide (txMode = OL_SPATIAL_MULTIPLEXING) || bool_decide (txMode = CL_SPATIAL_MULTIPLEXING))
  then of_option (vget (table itbs2tbs_qpsk_1 itbs2tbs_16qam_1 itbs2tbs_64qam_1) itbs)
  else if layers =? 2 then of_option (vget (table itbs2tbs_qpsk_2 itbs2tbs_16qam_2 itbs2tbs_64qam_2) itbs)
  else if layers =? 4 then of_option (vget (table itbs2tbs_qpsk_4 itbs2tbs_16qam_4 itbs2tbs_64qam_4) itbs)
  else Throw "Illegal number of layers in LteAmc::itbs2tbs()".

(** Up from [i]: until the rate is under a threshold. *)
Fixpoint search_mcs (rate : float) (entries : list (LteMod * Z * float)) (iTbs : Z) : Z :=
  match entries with
  | [] => iTbs
  | (_, i, threshold) :: entries' => if fleb threshold rate then search_mcs rate entries' i else iTbs
  end.

(** ** The questions *)

(** The binder, the modules that exist, the pilot and the two tables that are used; the node
    of the eNB. *)
Class Amc := {
  amc_binder : LteBinder;
  amc_module : Z -> bool;
  amc_node : Z;
  pilot : Z -> Direction -> result UserTxParams;
  dlMcsTable_ : list (LteMod * Z * float);
  ulMcsTable_ : list (LteMod * Z * float)
}.

Section Modulation.
Context `{Amc}.

Definition amc_getNextHop (dst : Z) : result Z :=
  let! nh := getNextHop amc_binder dst in Ok (if nh =? amc_node then dst else nh).

Definition computeTxParams (id : Z) (dir : Direction) : result UserTxParams :=
  if (getOmnetId amc_binder id =? 0) || negb (amc_module (getOmnetId amc_binder id)) then Ok new_UserTxParams else
  let! nh := amc_getNextHop id in pilot nh dir.

Definition getItbsPerCqi (cqi : Z) (dir : Direction) : result Z :=
  let! mcsTable :=
    match dir with
    | DL => Ok dlMcsTable_
    | UL | D2D | D2D_MULTI => Ok ulMcsTable_
    | UNKNOWN_DIRECTION => Throw "LteAmc::getItbsPerCqi(): Unrecognized direction"
    end in
  let cqi := if 15 <? cqi then 15 else cqi in
  let! entry := of_option (vget cqiTable cqi) in
  let '(min, max) := match entry.1 with QPSK => (0, 9) | QAM16 => (10, 16) | QAM64 => (17, 28) end in
  let! elem := of_option (vget mcsTable min) in
  Ok (search_mcs entry.2 (take (Z.to_nat (max - min + 1)) (drop (Z.to_nat min) mcsTable)) elem.1.2).

(** Where the rows of a modulation begin. *)
Definition first_itbs (m : LteMod) : Z := match m with QPSK => 0 | QAM16 => 9 | QAM64 => 15 end.

(** The row of a codeword. *)
Definition tbs_row (info : UserTxParams) (cw cqi layers : Z) (dir : Direction) : result (list Z) :=
  let! iTbs := getItbsPerCqi cqi dir in
  let! m := getCwModulation info cw in
  itbs2tbs m (txMode_ info) layers (uint8 (uint32 (iTbs - first_itbs m))).

(** [for(j = 0; j < 110; ++j) if(tbsVect[j] >= bytes*8) break;]. *)
Fixpoint first_fit (row : list Z) (bits : Z) : Z :=
  match row with
  | [] => 0
  | n :: row' => if bits <=? n then 0 else 1 + first_fit row' bits
  end.

Definition computeReqRbs (id b cw bytes : Z) (dir : Direction) : result Z :=
  if bytes =? 0 then Ok 0 else
  let! info := computeTxParams id dir in
  if negb (isValid_ info) then Ok 0 else
  match vget (getLayers info) cw, vget (cqiVector_ info) cw with
  | Some layers, Some cqi => let! row := tbs_row info cw cqi layers dir in Ok (first_fit row (uint32 (bytes * 8)) + 1)
  | _, _ => Throw "vector::at"
  end.

Definition computeBitsOnNRbs (id b cw blocks : Z) (dir : Direction) : result Z :=
  if 110 <? blocks then Throw "LteAmc::blocks2bits(): Too many blocks" else
  if blocks =? 0 then Ok 0 else
  let! info := computeTxParams id dir in
  if negb (isValid_ info) then Ok 0 else
  match vget (cqiVector_ info) cw with
  | None => Throw "vector::at"
  | Some cqi =>
      if cqi =? 0 then Ok 0 else
      match vget (getLayers info) cw with
      | None => Throw "vector::at"
      | Some layers => let! row := tbs_row info cw cqi layers dir in of_option (vget row (blocks - 1))
      end
  end.

Definition amc_computeBytesOnNRbs (id b cw blocks : Z) (dir : Direction) : result Z :=
  let! bits := computeBitsOnNRbs id b cw blocks dir in Ok (bits / 8).

(** On all codewords. *)
Fixpoint bits_on_cws (info : UserTxParams) (blocks : Z) (dir : Direction) (cws : list Z) (bits : Z) : result Z :=
  match cws with
  | [] => Ok bits
  | cw :: cws' =>
      match vget (cqiVector_ info) cw with
      | None => Throw "vector::at"
      | Some cqi =>
          if cqi =? 0 then bits_on_cws info blocks dir cws' bits else
          match vget (getLayers info) cw with
          | None => Throw "vector::at"
          | Some layers =>
              let! row := tbs_row info cw cqi layers dir in
              let! n := of_option (vget row (blocks - 1)) in
              bits_on_cws info blocks dir cws' (uint32 (bits + n))
          end
      end
  end.

Definition computeBytesOnAll (id b blocks : Z) (dir : Direction) : result Z :=
  if 110 <? blocks then Throw "LteAmc::computeBitsOnNRbs(): Too many blocks" else
  if blocks =? 0 then Ok 0 else
  let! info := computeTxParams id dir in
  if negb (isValid_ info) then Ok 0 else
  let! bits := bits_on_cws info blocks dir (seqZ 0 (vsize (getLayers info))) 0 in Ok (bits / 8).
End Modulation.

(** ** Adaptive modulation and coding: properties

    Blocks and bytes: [computeReqRbs] is the least number of blocks that carries the bytes,
    and never more than what was offered; the tables are read in their range. *)

#[local] Open Scope Z_scope.

(** ** The search in a row *)

Lemma first_fit_range row bits : 0 <= first_fit row bits <= vsize row.
Proof. induction row as [|n row IH]; cbn -[Z.of_nat]; [lia|]. case_match; lia. Qed.

Lemma first_fit_least row bits j n : vget row j = Some n -> bits <= n -> first_fit row bits <= j.
Proof.
  revert j. induction row as [|m row IH]; intros j Hj Hn; pose proof (vget_Some_bounds _ _ _ Hj); cbn -[Z.of_nat] in *; [lia|].
  destruct (Z.leb_spec bits m); [lia|]. destruct (decide (j = 0)) as [->|].
  - unfold vget in Hj. cbn in Hj. injection Hj as ->. lia.
  - enough (first_fit row bits <= j - 1) by lia. apply IH; [|done]. unfold vget in *.
    rewrite (proj2 (Z.leb_le 0 j)) in Hj by lia. rewrite (proj2 (Z.leb_le 0 (j - 1))) by lia.
    by replace (Z.to_nat j) with (S (Z.to_nat (j - 1))) in Hj by lia.
Qed.

Lemma first_fit_fits row bits j : first_fit row bits = j -> j < vsize row -> exists n, vget row j = Some n /\ bits <= n.
Proof.
  revert j. induction row as [|m row IH]; intros j Hj Hl; cbn -[Z.of_nat] in *; [lia|].
  destruct (Z.leb_spec bits m); [subst; by exists m|].
  destruct (IH (j - 1)) as (n & Hn & Hb); [lia|lia|]. exists n. split; [|done]. pose proof (vget_Some_bounds _ _ _ Hn).
  unfold vget in *. rewrite (proj2 (Z.leb_le 0 (j - 1))) in Hn by lia. rewrite (proj2 (Z.leb_le 0 j)) by lia.
  by replace (Z.to_nat j) with (S (Z.to_nat (j - 1))) by lia.
Qed.

(** ** The tables *)

Definition tbs_tables : list (list (list Z)) :=
  [itbs2tbs_qpsk_1; itbs2tbs_16qam_1; itbs2tbs_64qam_1; itbs2tbs_qpsk_2; itbs2tbs_16qam_2; itbs2tbs_64qam_2;
   itbs2tbs_qpsk_4; itbs2tbs_16qam_4; itbs2tbs_64qam_4].

(** 110 positive entries. *)
Definition row_ok (row : list Z) : Prop := length row = 110%nat /\ Forall (fun n => 0 < n < 2 ^ 20) row.

Lemma tables_ok : Forall (Forall row_ok) tbs_tables.
Proof. apply (bool_decide_unpack _). vm_compute. exact I. Qed.

(** The rows a modulation has. *)
Definition rows_of (m : LteMod) : Z := match m with QPSK => 10 | QAM16 => 7 | QAM64 => 12 end.

Lemma itbs2tbs_ok m txMode layers itbs :
  layers ∈ [1; 2; 4] -> 0 <= itbs < rows_of m -> exists row, itbs2tbs m txMode layers itbs = Ok row /\ row_ok row.
Proof.
  intros Hl Hi. assert (Hone : forall t, Forall row_ok t -> vsize t = rows_of m ->
    exists row, of_option (vget t itbs) = Ok row /\ row_ok row).
  { intros t Ht Hs. destruct (vget_is_Some t itbs) as [row Hrow]; [lia|]. exists row. rewrite Hrow. split; [done|].
    exact (vget_Forall _ _ _ _ Ht Hrow). }
  pose proof tables_ok as Hall. unfold tbs_tables in Hall. rewrite !Forall_cons in Hall. destruct_and? Hall.
  unfold itbs2tbs. case_match; [destruct m; by apply Hone|].
  repeat (apply elem_of_cons in Hl as [->|Hl]); [done|destruct m; by apply Hone|destruct m; by apply Hone|by apply elem_of_nil in Hl].
Qed.

(** ** The index of a quality *)

Section Questions.
Context `{Amc}.

(** The thresholds of the tables are scaled, the rest is not. *)
Definition scaled (table : list (LteMod * Z * float)) : Prop := table.*1 = McsTable.*1.

Lemma search_mcs_in rate entries i : search_mcs rate entries i = i \/ search_mcs rate entries i ∈ (entries.*1).*2.
Proof.
  revert i. induction entries as [|[[m k] t] entries IH]; intros i; cbn; [by left|].
  destruct (fleb t rate); [|by left]. right. destruct (IH k) as [->|Hin]; [by left|by right].
Qed.

Lemma quality_itbs cqi dir m r :
  scaled dlMcsTable_ -> scaled ulMcsTable_ -> dir <> UNKNOWN_DIRECTION -> 0 <= cqi <= 15 -> vget cqiTable cqi = Some (m, r) ->
  exists i, getItbsPerCqi cqi dir = Ok i /\ first_itbs m <= i < first_itbs m + rows_of m.
Proof.
  intros Hdl Hul Hdir Hcqi Hr. unfold getItbsPerCqi.
  assert (Ht : exists table, scaled table /\ match dir with
    | DL => Ok dlMcsTable_ | UL | D2D | D2D_MULTI => Ok ulMcsTable_
    | UNKNOWN_DIRECTION => Throw "LteAmc::getItbsPerCqi(): Unrecognized direction" end = Ok table)
    by (destruct dir; [exists dlMcsTable_|exists ulMcsTable_|exists ulMcsTable_|exists ulMcsTable_|]; done).
  destruct Ht as (table & Hs & ->). cbn [rbind]. rewrite (proj2 (Z.ltb_ge _ _)) by lia. rewrite Hr. cbn [of_option rbind fst snd].
  unfold scaled in Hs.
  set (range := match m with QPSK => (0, 9) | QAM16 => (10, 16) | QAM64 => (17, 28) end).
  assert (Hsearch : forall lo hi, (lo, hi) = range -> exists i,
    (let! elem := of_option (vget table lo) in
     Ok (search_mcs r (take (Z.to_nat (hi - lo + 1)) (drop (Z.to_nat lo) table)) elem.1.2)) = Ok i /\
    first_itbs m <= i < first_itbs m + rows_of m).
  { intros lo hi Hrange. destruct (vget_is_Some table lo) as [e He].
    { rewrite <- (length_fmap fst), Hs. unfold range in Hrange. destruct m; injection Hrange as -> ->; vm_compute; done. }
    rewrite He. cbn [of_option rbind]. eexists; split; [reflexivity|].
    assert (Hin : search_mcs r (take (Z.to_nat (hi - lo + 1)) (drop (Z.to_nat lo) table)) e.1.2 ∈
      (take (Z.to_nat (hi - lo + 1)) (drop (Z.to_nat lo) (McsTable.*1))).*2).
    { rewrite <- Hs. rewrite <- fmap_drop, <- fmap_take. destruct (search_mcs_in r (take (Z.to_nat (hi - lo + 1)) (drop (Z.to_nat lo) table)) e.1.2) as [->|Hin]; [|done].
      unfold vget in He. destruct (0 <=? lo); [|done]. apply list_elem_of_fmap. exists e.1. split; [done|]. apply list_elem_of_fmap. exists e. split; [done|].
      rewrite (drop_S table e) by done. destruct (Z.to_nat (hi - lo + 1)) eqn:En; [unfold range in Hrange; destruct m; injection Hrange as -> ->; done|]. by left. }
    revert Hin. unfold range in Hrange. generalize (search_mcs r (take (Z.to_nat (hi - lo + 1)) (drop (Z.to_nat lo) table)) e.1.2).
    intros i Hin. destruct m; injection Hrange as -> ->; vm_compute in Hin; cbn; clear - Hin;
      repeat (apply elem_of_cons in Hin as [->|Hin]; [lia|]); by apply elem_of_nil in Hin. }
  destruct m; apply Hsearch; reflexivity.
Qed.
(** The parameters of a UE that is in range on a codeword. *)
Record good_params (info : UserTxParams) (cw cqi layers : Z) : Prop := {
  gp_valid : isValid_ info = true;
  gp_cqi : vget (cqiVector_ info) cw = Some cqi;
  gp_cqi_range : 0 < cqi <= 15;
  gp_layers : vget (getLayers info) cw = Some layers;
  gp_layers_in : layers ∈ [1; 2; 4]
}.

Lemma cqi_entry cqi : 0 <= cqi <= 15 -> exists m r, vget cqiTable cqi = Some (m, r).
Proof. intros Hc. destruct (vget_is_Some cqiTable cqi) as [[m r] E]; [cbn; lia|]. by exists m, r. Qed.

Context (Hdl : scaled dlMcsTable_) (Hul : scaled ulMcsTable_).

Lemma tbs_row_ok info cw cqi layers dir :
  good_params info cw cqi layers -> dir <> UNKNOWN_DIRECTION ->
  exists row, tbs_row info cw cqi layers dir = Ok row /\ row_ok row.
Proof.
  intros [_ Hc Hr _ Hl] Hdir. destruct (cqi_entry cqi) as (m & r & Hm); [lia|].
  destruct (quality_itbs cqi dir m r Hdl Hul Hdir) as (i & Ei & Hi); [lia|done|].
  unfold tbs_row. rewrite Ei; cbn [rbind]. unfold getCwModulation. rewrite Hc, (proj2 (Z.ltb_ge _ _)) by (unfold MAXCQI; lia).
  rewrite Hm; cbn [of_option rbind fst]. rewrite (wrap_small 32), (wrap_small 8) by (unfold is_uint; destruct m; cbn in Hi |- *; lia).
  apply itbs2tbs_ok; [done|]. lia.
Qed.

Lemma bits_on_row id b cw n dir info cqi layers row :
  computeTxParams id dir = Ok info -> good_params info cw cqi layers -> tbs_row info cw cqi layers dir = Ok row -> row_ok row ->
  0 < n <= 110 -> exists bits, vget row (n - 1) = Some bits /\ amc_computeBytesOnNRbs id b cw n dir = Ok (bits / 8).
Proof.
  intros Hi [Hv Hc Hr Hl _] Hrow [Hlen _] Hn. destruct (vget_is_Some row (n - 1)) as [bits Hb]; [lia|]. exists bits. split; [done|].
  unfold amc_computeBytesOnNRbs, computeBitsOnNRbs. rewrite (proj2 (Z.ltb_ge _ _)), (proj2 (Z.eqb_neq n 0)) by lia. rewrite Hi; cbn [rbind].
  rewrite Hv, Hc; cbn [negb]. rewrite (proj2 (Z.eqb_neq _ _)) by lia. rewrite Hl, Hrow; cbn [rbind]. by rewrite Hb.
Qed.

(** As many blocks as are needed. *)
Lemma req_rbs_spec id b cw bytes dir info cqi layers :
  computeTxParams id dir = Ok info -> good_params info cw cqi layers -> dir <> UNKNOWN_DIRECTION -> 0 < bytes < 2 ^ 29 ->
  exists k, computeReqRbs id b cw bytes dir = Ok k /\ 1 <= k <= 111 /\
    (k <= 110 -> exists carried, amc_computeBytesOnNRbs id b cw k dir = Ok carried /\ bytes <= carried) /\
    (forall n, 0 < n <= 110 -> exists carried, amc_computeBytesOnNRbs id b cw n dir = Ok carried /\ (bytes <= carried -> k <= n)).
Proof.
  intros Hi Hg Hdir Hb. destruct (tbs_row_ok info cw cqi layers dir Hg Hdir) as (row & Hrow & Hok).
  pose proof Hok as [Hlen _]. exists (first_fit row (bytes * 8) + 1). pose proof (first_fit_range row (bytes * 8)). split_and!.
  - unfold computeReqRbs. rewrite (proj2 (Z.eqb_neq _ _)) by lia. rewrite Hi; cbn [rbind]. destruct Hg as [-> -> _ -> _]; cbn [negb].
    rewrite Hrow; cbn [rbind]. by rewrite (wrap_small 32) by (unfold is_uint; lia).
  - lia.
  - lia.
  - intros Hk. assert (Hk' : 0 < first_fit row (bytes * 8) + 1 <= 110) by lia.
    destruct (bits_on_row id b cw _ dir _ _ _ _ Hi Hg Hrow Hok Hk') as (bits & Hbits & ->).
    eexists; split; [reflexivity|]. destruct (first_fit_fits row (bytes * 8) _ eq_refl) as (n & Hn & Hle); [lia|].
    rewrite Z.add_simpl_r, Hn in Hbits. injection Hbits as <-. apply Z.div_le_lower_bound; lia.
  - intros n Hn. destruct (bits_on_row id b cw n dir _ _ _ _ Hi Hg Hrow Hok Hn) as (bits & Hbits & ->).
    eexists; split; [reflexivity|]. intros Hle. pose proof (Z.mul_div_le bits 8).
    pose proof (first_fit_least row (bytes * 8) (n - 1) bits Hbits). lia.
Qed.

(** C16. For a UE in range [computeReqRbs] is the least number of resource blocks that carries
    the bytes: as many blocks carry them, whatever number of blocks carries them is no less,
    and if not even 110 blocks do, the answer is 111; no table is read out of its range. *)
Theorem req_rbs_least id b cw bytes dir info cqi layers :
  computeTxParams id dir = Ok info -> good_params info cw cqi layers -> dir <> UNKNOWN_DIRECTION -> 0 < bytes < 2 ^ 29 ->
  exists k, computeReqRbs id b cw bytes dir = Ok k /\ 1 <= k <= 111 /\
    (k <= 110 -> exists carried, amc_computeBytesOnNRbs id b cw k dir = Ok carried /\ bytes <= carried) /\
    (forall n, 0 < n <= 110 -> exists carried, amc_computeBytesOnNRbs id b cw n dir = Ok carried /\ (bytes <= carried -> k <= n)).
Proof. apply req_rbs_spec. Qed.

(** A quality index above 15 is cut to 15 where the index of the block size is chosen and
    taken for QPSK where the table is chosen: the table of QPSK is read behind its last row. *)
Lemma high_cqi_out_of_range id b cw bytes dir info cqi :
  computeTxParams id dir = Ok info -> isValid_ info = true -> dir <> UNKNOWN_DIRECTION -> 0 < bytes ->
  vget (cqiVector_ info) cw = Some cqi -> 15 < cqi -> vget (getLayers info) cw = Some 1 ->
  computeReqRbs id b cw bytes dir = UB /\ (forall n, 0 < n <= 110 -> amc_computeBytesOnNRbs id b cw n dir = UB).
Proof.
  intros Hi Hv Hdir Hb Hc Hcqi Hl. assert (Hrow : tbs_row info cw cqi 1 dir = UB).
  { destruct (quality_itbs 15 dir QAM64 (flit 948 1) Hdl Hul Hdir) as (i & Ei & Hr); [lia|done|].
    assert (Ecqi : getItbsPerCqi cqi dir = Ok i) by (rewrite <- Ei; unfold getItbsPerCqi; by rewrite (proj2 (Z.ltb_lt 15 cqi)) by lia).
    unfold tbs_row. rewrite Ecqi; cbn [rbind]. unfold getCwModulation. rewrite Hc, (proj2 (Z.ltb_lt _ _)) by (unfold MAXCQI; lia).
    cbn [rbind first_itbs]. cbn in Hr. rewrite Z.sub_0_r, (wrap_small 32), (wrap_small 8) by (unfold is_uint; cbn; lia). unfold itbs2tbs; cbn [Z.eqb Pos.eqb orb].
    destruct (vget itbs2tbs_qpsk_1 i) as [row|] eqn:E; [|done]. apply vget_Some_bounds in E. change (vsize itbs2tbs_qpsk_1) with 10 in E. lia. }
  split.
  - unfold computeReqRbs. rewrite (proj2 (Z.eqb_neq _ _)) by lia. rewrite Hi; cbn [rbind]. by rewrite Hv, Hl, Hc, Hrow.
  - intros n Hn. unfold amc_computeBytesOnNRbs, computeBitsOnNRbs. rewrite (proj2 (Z.ltb_ge _ _)), (proj2 (Z.eqb_neq n 0)) by lia.
    rewrite Hi; cbn [rbind]. rewrite Hv, Hc; cbn [negb]. rewrite (proj2 (Z.eqb_neq _ _)) by lia. by rewrite Hl, Hrow.
Qed.
End Questions.

(** In the tables of two layers 57 blocks carry fewer bits than 56. *)
Lemma more_blocks_fewer_bits :
  exists row, itbs2tbs QPSK CL_SPATIAL_MULTIPLEXING 2 5 = Ok row /\ vget row 55 = Some 9936 /\ vget row 56 = Some 9912.
Proof. eexists. split; [reflexivity|]. vm_compute. done. Qed.
