(* ===== verification/SchedulerEnb.v ===== *)
(** * The schedulers of an eNB

    [LteSchedulerEnb] (src/simulte/src/stack/mac/scheduler/LteSchedulerEnb.cc): granting a
    connection the resource blocks of a TTI.  The virtual buffers belong to the MAC layer
    and are passed in and out; whether a codeword is free ([checkEligibility]) is asked of
    the scheduler of the direction, the order in which connections are granted is the
    discipline's. *)

From S2P Require Import Prelude.
From S2P Require Import LteCommon.
From S2P Require Import LteBinder.
From S2P Require Import RlcUm.
From S2P Require Import MacQueue.
From S2P Require Import LcgScheduler.
From S2P Require Import HarqTx.
From S2P Require Import Allocation.
From S2P Require Import Amc.
#[local] Open Scope Z_scope.

Definition D2D_SHORT_BSR : Z := 1.
Definition D2D_MULTI_SHORT_BSR : Z := 2.

(** Limits by codeword: -1 is none, -2 skips the band. *)
Record BandLimit := { band_ : Z; limit_ : list Z }.

Definition new_BandLimit (b : Z) : BandLimit := {| band_ := b; limit_ := replicate (Z.to_nat MAX_CODEWORDS) (-1) |}.

Record LteSchedulerEnb := {
  se_direction_ : Direction;
  resourceBlocks_ : Z;
  allocator_ : LteAllocationModule;
  se_scheduleList_ : gmap (Z * Z) Z;
  allocatedCws_ : gmap Z Z;
  emptyBandLim_ : list BandLimit
}.

#[export] Instance schedulerenb_eta : Eta LteSchedulerEnb := fun s =>
  {| se_direction_ := se_direction_ s; resourceBlocks_ := resourceBlocks_ s; allocator_ := allocator_ s;
     se_scheduleList_ := se_scheduleList_ s; allocatedCws_ := allocatedCws_ s; emptyBandLim_ := emptyBandLim_ s |}.

(** [initialize]. *)
Definition new_LteSchedulerEnb (dir : Direction) : LteSchedulerEnb :=
  {| se_direction_ := dir; resourceBlocks_ := 0; allocator_ := new_LteAllocationModule; se_scheduleList_ := ∅;
     allocatedCws_ := ∅; emptyBandLim_ := [] |}.

(** What a discipline learns of a connection besides the bytes. *)
Record Flags := { terminate : bool; active : bool; eligible : bool }.

#[export] Instance flags_eta : Eta Flags := fun f =>
  {| terminate := terminate f; active := active f; eligible := eligible f |}.

Definition new_Flags : Flags := {| terminate := false; active := true; eligible := true |}.

(** The cell: its bands and whether it pairs users, and with whom. *)
Class Cell := {
  cell_numBands : Z;
  cell_muMimo : bool;
  computeMuMimoPairing : Z -> Direction -> Z
}.

Section Scheduler.
Context `{Amc} `{Cell}.

(** The number of codewords is set to one. *)
Definition numCodewords : Z := 1.

Definition all_bands : list BandLimit :=
  map (fun b => {| band_ := b; limit_ := limit_ (new_BandLimit b) ++ replicate (Z.to_nat numCodewords) (-1) |}) (seqZ 0 cell_numBands).

Definition used_cws (s : LteSchedulerEnb) (nodeId : Z) : Z := default 0 (allocatedCws_ s !! nodeId).

(** [vector::at]. *)
Definition vat {A} (l : list A) (i : Z) : result A :=
  match vget l i with Some x => Ok x | None => Throw "vector::at" end.

Definition limit_at (bandLim : list BandLimit) (i cw : Z) : result Z := let! e := vat bandLim i in vat (limit_ e) cw.

Definition set_limit (bandLim : list BandLimit) (i cw n : Z) : result (list BandLimit) :=
  let! e := vat bandLim i in
  match vset (limit_ e) cw n with
  | None => Throw "vector::at"
  | Some l => of_option (vset bandLim i {| band_ := band_ e; limit_ := l |})
  end.

(** The space of a UE on a band, in bytes; [limit] in blocks. *)
Definition availableBytes (s : LteSchedulerEnb) (id antenna b cw : Z) (dir : Direction) (limit : Z) : result (Z * LteSchedulerEnb) :=
  let! (n, a) := availableBlocks_on (allocator_ s) id antenna b in
  let blocks := int32 n in
  if (blocks <? limit) && negb (limit =? -1) then Throw "LteSchedulerEnb::availableBytes signaled limit inconsistency with available space" else
  let blocks := if negb (limit =? -1) then (if limit <? blocks then limit else blocks) else blocks in
  let! bytes := amc_computeBytesOnNRbs id b cw (uint32 blocks) dir in
  Ok (bytes, s <| allocator_ := a |>).

(** ** A grant *)

(** The registers of the loop over the bands. *)
Record GrantLoop := {
  gl_sched : LteSchedulerEnb;
  gl_bandLim : list BandLimit;
  gl_toServe : Z;
  gl_cwBytes : Z;
  gl_cwBlocks : Z;
  gl_stop : bool
}.

#[export] Instance grantloop_eta : Eta GrantLoop := fun g =>
  {| gl_sched := gl_sched g; gl_bandLim := gl_bandLim g; gl_toServe := gl_toServe g; gl_cwBytes := gl_cwBytes g;
     gl_cwBlocks := gl_cwBlocks g; gl_stop := gl_stop g |}.

(** The bytes and blocks a band offers: those of the first codeword, if it is allocated. *)
Definition band_space (s : LteSchedulerEnb) (nodeId antenna b cw : Z) (dir : Direction) (limit : Z) (limitBl : bool)
    : result (Z * Z * LteSchedulerEnb) :=
  if negb (used_cws s nodeId =? 0) then
    let! (n, a) := getBlocks (allocator_ s) antenna b nodeId in
    let b1 := int32 n in
    let blocks := uint32 (if limitBl then (if limit <? b1 then limit else b1) else b1) in
    let! bytes := amc_computeBytesOnNRbs nodeId b cw blocks dir in
    Ok (bytes, blocks, s <| allocator_ := a |>)
  else
    let! (bytes, s) := availableBytes s nodeId antenna b cw dir (if limitBl then limit else -1) in
    let! (blocks, a) := availableBlocks_on (allocator_ s) nodeId antenna b in
    Ok (bytes, blocks, s <| allocator_ := a |>).

(** [limit_.at(cw) -= uBlocks], if it is a limit. *)
Definition lower_limit (bandLim : list BandLimit) (i cw uBlocks : Z) : result (list BandLimit) :=
  let! limit := limit_at bandLim i cw in
  if (0 <? uBlocks) && (0 <? limit) then
    let limit := int32 (uint32 (limit - uBlocks)) in
    let! bandLim := set_limit bandLim i cw limit in
    if limit <? 0 then Throw "Limit decreasing error during booked resources allocation" else Ok bandLim
  else Ok bandLim.

(** The bytes and blocks are booked: on the first codeword with the allocator, in the limit
    and in what is left to serve. *)
Definition book_band (nodeId antenna b cw i uBytes uBlocks : Z) (g : GrantLoop) : result GrantLoop :=
  let! g :=
    if used_cws (gl_sched g) nodeId =? 0 then
      let! (_, a) := addBlocks_on (allocator_ (gl_sched g)) antenna b nodeId uBlocks uBytes in
      Ok (g <| gl_sched := (gl_sched g) <| allocator_ := a |> |> <| gl_cwBlocks := uint32 (gl_cwBlocks g + uBlocks) |>
            <| gl_cwBytes := uint32 (gl_cwBytes g + uBytes) |>)
    else Ok g in
  let! bandLim := lower_limit (gl_bandLim g) i cw uBlocks in
  let toServe := if gl_toServe g <? uBytes then 0 else gl_toServe g - uBytes in
  Ok (g <| gl_bandLim := bandLim |> <| gl_toServe := toServe |> <| gl_stop := toServe =? 0 |>).

(** One turn; [gl_stop] when all bytes are booked. *)
Definition grant_band (nodeId antenna cw queueLength : Z) (dir : Direction) (limitBl : bool) (i : Z) (g : GrantLoop) : result GrantLoop :=
  let! e := vat (gl_bandLim g) i in
  let b := band_ e in
  let! limit := vat (limit_ e) cw in
  if limit =? -2 then Ok g else
  let! (bytes, blocks, s) := band_space (gl_sched g) nodeId antenna b cw dir limit limitBl in
  let g := g <| gl_sched := s |> in
  if bytes =? 0 then let! bandLim := set_limit (gl_bandLim g) i cw (-2) in Ok (g <| gl_bandLim := bandLim |>) else
  let bytes := if negb limitBl && (0 <=? limit) && (limit <? int32 bytes) then uint32 limit else bytes in
  let uBytes := if queueLength <? bytes then queueLength else bytes in
  let! uBlocks := computeReqRbs nodeId b cw uBytes dir in
  book_band nodeId antenna b cw i uBytes uBlocks g.

Fixpoint grant_bands (nodeId antenna cw queueLength : Z) (dir : Direction) (limitBl : bool) (idxs : list Z) (g : GrantLoop) : result GrantLoop :=
  match idxs with
  | [] => Ok g
  | i :: idxs' =>
      let! g := grant_band nodeId antenna cw queueLength dir limitBl i g in
      if gl_stop g then Ok g else grant_bands nodeId antenna cw queueLength dir limitBl idxs' g
  end.

(** [while (!conn->isEmpty() && consumedBytes > 0)]: each turn takes a packet out or ends
    with a part of one. *)
Fixpoint consume (fuel : nat) (conn : LteMacBuffer) (consumedBytes : Z) : result LteMacBuffer :=
  if buffer_isEmpty conn || (consumedBytes <=? 0) then Ok conn else
  match fuel with
  | O => UB
  | S fuel =>
      let! p := buffer_front conn in
      if p.1 <=? consumedBytes then
        let! (_, conn) := buffer_popFront conn in
        consume fuel conn (consumedBytes - p.1)
      else
        let! (p, conn) := buffer_popFront conn in
        let! conn := buffer_pushFront conn (p.1 - consumedBytes, p.2) in
        consume fuel conn 0
  end.

(** The state of a call: the scheduler, the buffer of the connection, the limits and flags,
    the length of the queue and the bytes granted so far. *)
Record GrantState := {
  gs_sched : LteSchedulerEnb;
  gs_conn : LteMacBuffer;
  gs_bandLim : list BandLimit;
  gs_flags : Flags;
  gs_queueLength : Z;
  gs_total : Z
}.

(** The loop over the codewords, from the first free one. *)
Fixpoint grant_codewords (cid nodeId antenna : Z) (dir : Direction) (limitBl : bool) (cws : list Z) (g : GrantState) : result GrantState :=
  match cws with
  | [] => Ok g
  | cw :: cws' =>
      let queueLength := uint32 (gs_queueLength g + (MAC_HEADER + RLC_HEADER_UM)) in
      let start := {| gl_sched := gs_sched g; gl_bandLim := gs_bandLim g; gl_toServe := queueLength; gl_cwBytes := 0;
                      gl_cwBlocks := 0; gl_stop := false |} in
      let! l := grant_bands nodeId antenna cw queueLength dir limitBl (seqZ 0 (vsize (gs_bandLim g))) start in
      let flags := if gl_stop l then (gs_flags g) <| active := false |> else gs_flags g in
      let consumedBytes := uint32 (gl_cwBytes l - (MAC_HEADER + RLC_HEADER_UM)) in
      let! conn := consume (S (length (Queue_ (gs_conn g)))) (gs_conn g) consumedBytes in
      let s := gl_sched l in
      let '(s, flags, stop) :=
        if 0 <? gl_cwBytes l then
          let used := uint32 (used_cws s nodeId + 1) in
          let served := match dir with DL => 1 | _ => gl_cwBlocks l end in
          let s := s <| allocatedCws_ := <[nodeId := used]> (allocatedCws_ s) |>
                     <| se_scheduleList_ := <[(cid, cw) := uint32 (default 0 (se_scheduleList_ s !! (cid, cw)) + served)]> (se_scheduleList_ s) |> in
          if used =? MAX_CODEWORDS then (s, flags <| eligible := false |>, true) else (s, flags, gl_stop l)
        else (s, flags <| eligible := false |>, true) in
      let g := {| gs_sched := s; gs_conn := conn; gs_bandLim := gl_bandLim l; gs_flags := flags; gs_queueLength := queueLength;
                  gs_total := uint32 (gs_total g + gl_cwBytes l) |} in
      if stop : bool then Ok g else grant_codewords cid nodeId antenna dir limitBl cws' g
  end.

Definition grant_direction (dir : Direction) (flowId : Z) : Direction :=
  match dir with
  | UL => if flowId =? D2D_MULTI_SHORT_BSR then D2D_MULTI else if flowId =? D2D_SHORT_BSR then D2D else UL
  | _ => dir
  end.

(** Registers a pair of users, if there is one. *)
Definition pair_users (s : LteSchedulerEnb) (txParams : UserTxParams) (nodeId : Z) (dir : Direction) : result LteSchedulerEnb :=
  if cell_muMimo && bool_decide (txMode_ txParams = MULTI_USER) then
    let peer := computeMuMimoPairing nodeId dir in
    if negb (peer =? nodeId) then let! (_, a) := configureMuMimoPeering (allocator_ s) nodeId peer in Ok (s <| allocator_ := a |>)
    else Ok s
  else Ok s.

Definition is_spatial (m : TxMode) : bool := bool_decide (m = OL_SPATIAL_MULTIPLEXING) || bool_decide (m = CL_SPATIAL_MULTIPLEXING).

(** [scheduleGrant]: the bytes granted, the flags, the limits and the buffers.  The size of
    the request is not read.  A null pointer to limits is [None]. *)
Definition scheduleGrant (checkEligibility : Z -> Z -> result (bool * Z)) (s : LteSchedulerEnb) (bufs : gmap Z LteMacBuffer)
    (cid bytes : Z) (flags : Flags) (bandLim : option (list BandLimit)) (antenna : Z) (limitBl : bool)
    : result (Z * Flags * option (list BandLimit) * LteSchedulerEnb * gmap Z LteMacBuffer) :=
  let nodeId := MacCidToNodeId cid in
  let flowId := MacCidToLcid cid in
  if getOmnetId amc_binder nodeId =? 0
  then Ok (0, {| terminate := true; active := false; eligible := false |}, bandLim, s, bufs) else
  let dir := grant_direction (se_direction_ s) flowId in
  let! txParams := computeTxParams nodeId dir in
  let '(limits, s) :=
    match bandLim with
    | Some l => (l, s)
    | None => let s := match emptyBandLim_ s with [] => s <| emptyBandLim_ := all_bands |> | _ => s end in (emptyBandLim_ s, s)
    end in
  let back := fun l => match bandLim with Some _ => Some l | None => None end in
  let! s := pair_users s txParams nodeId dir in
  let (plane, a) := getOFDMPlane (allocator_ s) nodeId in
  let! a := setRemoteAntenna a plane antenna in
  let s := s <| allocator_ := a |> in
  let cwAlreadyAllocated := used_cws s nodeId in
  let! total := computeTotalRbs a in
  if (total =? 0) && ((negb (is_spatial (txMode_ txParams)) || (cwAlreadyAllocated =? 0)) &&
                      (negb (bool_decide (txMode_ txParams = MULTI_USER)) || negb (plane =? MU_MIMO_PLANE)))
  then Ok (0, flags <| terminate := true |>, back limits, s, bufs) else
  if 0 <? cwAlreadyAllocated then Ok (0, flags <| terminate := true |>, back limits, s, bufs) else
  let! (free, cw) := checkEligibility nodeId 0 in
  if negb free || (numCodewords <=? cw) then Ok (0, flags <| eligible := false |>, back limits, s, bufs) else
  match bufs !! cid with
  | None => Throw "map::at"
  | Some conn =>
      let queueLength := queueOccupancy_ conn in
      if queueLength =? 0 then Ok (0, flags <| active := false |>, back limits, s, bufs) else
      let! g := grant_codewords cid nodeId antenna dir limitBl (seqZ cw (numCodewords - cw))
        {| gs_sched := s; gs_conn := conn; gs_bandLim := limits; gs_flags := flags; gs_queueLength := queueLength; gs_total := 0 |} in
      Ok (gs_total g, gs_flags g, back (gs_bandLim g), gs_sched g, <[cid := gs_conn g]> bufs)
  end.

(** As the disciplines call it: all bands, the main antenna. *)
Definition requestGrant (checkEligibility : Z -> Z -> result (bool * Z)) (st : LteSchedulerEnb * gmap Z LteMacBuffer) (cid bytes : Z)
    : result (Z * Flags * (LteSchedulerEnb * gmap Z LteMacBuffer)) :=
  let! (n, f, _, s, bufs) := scheduleGrant checkEligibility st.1 st.2 cid bytes new_Flags None MACRO false in
  Ok (n, f, (s, bufs)).

(** ** A TTI *)

Definition initAndResetAllocator (s : LteSchedulerEnb) : LteSchedulerEnb :=
  s <| allocator_ := initAndReset (allocator_ s) (resourceBlocks_ s) cell_numBands |>.

(** Structures cleared for a new schedule. *)
Definition clear_schedule (s : LteSchedulerEnb) : LteSchedulerEnb :=
  initAndResetAllocator (s <| se_scheduleList_ := ∅ |> <| allocatedCws_ := ∅ |>).
End Scheduler.
