(* ===== verification/Drr.v ===== *)
(** * Deficit round robin

    [LteDrr] (src/simulte/src/stack/mac/scheduling_modules/LteDrr.cc), one of the disciplines of an eNB,
    over a circular list of the active connections.  The scheduler it asks for grants is an
    argument: a state and a function from a connection and its deficit to the bytes granted
    and the flags. *)

From stdpp Require Import sorting.
From S2P Require Import Prelude.
From S2P Require Import LteCommon.
From S2P Require Import LteBinder.
From S2P Require Import MacQueue.
From S2P Require Import Amc.
From S2P Require Import CircularList.
From S2P Require Import SchedulerEnb.
#[local] Open Scope Z_scope.

Record DrrDesc := {
  quantum_ : Z;
  deficit_ : Z;
  dd_active_ : bool;
  dd_eligible_ : bool
}.

#[export] Instance drrdesc_eta : Eta DrrDesc := fun d =>
  {| quantum_ := quantum_ d; deficit_ := deficit_ d; dd_active_ := dd_active_ d; dd_eligible_ := dd_eligible_ d |}.

Definition new_DrrDesc : DrrDesc := {| quantum_ := 0; deficit_ := 0; dd_active_ := false; dd_eligible_ := false |}.

Record LteDrr := {
  activeConnectionSet_ : gset Z;
  activeConnectionTempSet_ : gset Z;
  activeList_ : CircularList Z;
  activeTempList_ : CircularList Z;
  drrMap_ : gmap Z DrrDesc;
  drrTempMap_ : gmap Z DrrDesc
}.

#[export] Instance drr_eta : Eta LteDrr := fun d =>
  {| activeConnectionSet_ := activeConnectionSet_ d; activeConnectionTempSet_ := activeConnectionTempSet_ d;
     activeList_ := activeList_ d; activeTempList_ := activeTempList_ d; drrMap_ := drrMap_ d; drrTempMap_ := drrTempMap_ d |}.

Definition new_LteDrr : LteDrr :=
  {| activeConnectionSet_ := ∅; activeConnectionTempSet_ := ∅; activeList_ := new_CircularList;
     activeTempList_ := new_CircularList; drrMap_ := ∅; drrTempMap_ := ∅ |}.

(** The connections of a [std::set], in order. *)
Definition in_order (X : gset Z) : list Z := merge_sort Z.le (elements X).

(** [drrMap_[cid]]. *)
Definition desc_of (m : gmap Z DrrDesc) (cid : Z) : DrrDesc := default new_DrrDesc (m !! cid).

Section Discipline.
Context {S : Type}.
Variable grant : S -> Z -> Z -> result (Z * Flags * S).
Variable binder : LteBinder.

(** [activeTempList_.erase(); activeConnectionTempSet_.erase(cid)]. *)
Definition drop_current (d : LteDrr) (cid : Z) : LteDrr :=
  d <| activeTempList_ := circ_erase (activeTempList_ d) |>
    <| activeConnectionTempSet_ := activeConnectionTempSet_ d ∖ {[cid]} |>.

Definition put_desc (d : LteDrr) (cid : Z) (desc : DrrDesc) : LteDrr := d <| drrTempMap_ := <[cid := desc]> (drrTempMap_ d) |>.

Definition move_on (d : LteDrr) : LteDrr := d <| activeTempList_ := circ_move (activeTempList_ d) |>.

(** What a grant of [scheduled] bytes does to the current connection.  The difference that is
    checked is unsigned. *)
Definition drr_update (d : LteDrr) (cid : Z) (desc : DrrDesc) (scheduled : Z) (flags : Flags) : result LteDrr :=
  if uint32 (deficit_ desc - scheduled) <? 0 then Throw "LteDrr::execSchedule unexpected deficit value" else
  let desc := desc <| deficit_ := uint32 (deficit_ desc - scheduled) |> in
  let desc := if negb (eligible flags) || negb (active flags) then desc <| dd_eligible_ := false |> else desc in
  if negb (active flags) then
    Ok (drop_current (put_desc d cid (desc <| deficit_ := 0 |> <| dd_active_ := false |>)) cid)
  else if terminate flags && (quantum_ desc <=? deficit_ desc) then
    Ok (put_desc d cid (desc <| deficit_ := uint32 (deficit_ desc - quantum_ desc) |>))
  else Ok (move_on (put_desc d cid desc)).

(** The loop of [prepareSchedule], with the number of eligible connections. *)
Fixpoint drr_loop (fuel : nat) (d : LteDrr) (eligibles : Z) (s : S) : result (LteDrr * S) :=
  if circ_empty (activeTempList_ d) || (eligibles <=? 0) then Ok (d, s) else
  match fuel with
  | O => UB
  | Datatypes.S fuel =>
      let! cid := circ_current (activeTempList_ d) in
      if getOmnetId binder (MacCidToNodeId cid) =? 0 then drr_loop fuel (drop_current d cid) eligibles s else
      let desc := desc_of (drrTempMap_ d) cid in
      if negb (dd_eligible_ desc) then drr_loop fuel (move_on (put_desc d cid desc)) (eligibles - 1) s else
      let desc := desc <| deficit_ := uint32 (deficit_ desc + quantum_ desc) |> in
      let! (scheduled, flags, s) := grant s cid (deficit_ desc) in
      let! d := drr_update d cid desc scheduled flags in
      let eligibles := if negb (eligible flags) || negb (active flags) then eligibles - 1 else eligibles in
      if terminate flags then Ok (d, s) else drr_loop fuel d eligibles s
  end.

(** A connection is visited at most three times: to be dropped or found not eligible, to be
    granted a codeword, and to be found busy. *)
Definition drr_fuel (d : LteDrr) : nat := 3 * length (list_ (activeList_ d)).

Definition drr_prepareSchedule (d : LteDrr) (s : S) : result (LteDrr * S) :=
  let d := d <| activeTempList_ := activeList_ d |> <| drrTempMap_ := drrMap_ d |> in
  drr_loop (drr_fuel d) d (size_ (activeTempList_ d)) s.

Definition drr_commitSchedule (d : LteDrr) : LteDrr :=
  d <| activeList_ := activeTempList_ d |> <| activeConnectionSet_ := activeConnectionTempSet_ d |> <| drrMap_ := drrTempMap_ d |>.

Definition drr_schedule (d : LteDrr) (s : S) : result (LteDrr * S) :=
  let! (d, s) := drr_prepareSchedule d s in Ok (drr_commitSchedule d, s).
End Discipline.

(** ** Connections *)

Section Connections.
Context `{Amc}.

Fixpoint null_cqi (cqis : list Z) (codewords : nat) : result bool :=
  match codewords with
  | O => Ok false
  | Datatypes.S n =>
      match cqis with
      | [] => UB
      | cqi :: cqis' => let! r := null_cqi cqis' n in Ok ((cqi =? 0) || r)
      end
  end.

(** The quantum of every connection is [ceil(500 / 500 * 160)]. *)
Definition drr_info (d : LteDrr) (dir : Direction) (allocatedCws : Z -> Z) (cid : Z) : result LteDrr :=
  let nodeId := MacCidToNodeId cid in
  let! info := computeTxParams nodeId dir in
  let codeword := vsize (getLayers info) in
  let! null := null_cqi (cqiVector_ info) (length (getLayers info)) in
  let eligible := negb (allocatedCws nodeId =? codeword) && negb null in
  let desc := desc_of (drrMap_ d) cid in
  Ok (d <| drrMap_ := <[cid := desc <| quantum_ := 160 |> <| dd_eligible_ := eligible |>]> (drrMap_ d) |>).

Fixpoint drr_infos (d : LteDrr) (dir : Direction) (allocatedCws : Z -> Z) (cids : list Z) : result LteDrr :=
  match cids with
  | [] => Ok d
  | cid :: cids' => let! d := drr_info d dir allocatedCws cid in drr_infos d dir allocatedCws cids'
  end.

Definition drr_updateSchedulingInfo (d : LteDrr) (dir : Direction) (allocatedCws : Z -> Z) (conn : gmap Z LteMacBuffer) : result LteDrr :=
  match dir with
  | DL | UL => drr_infos d dir allocatedCws (ascending conn)
  | _ => Throw "LteDrr::updateSchedulingInfo invalid direction"
  end.

Definition drr_notifyActiveConnection (d : LteDrr) (cid : Z) : LteDrr :=
  let d := d <| activeConnectionSet_ := {[cid]} ∪ activeConnectionSet_ d |> in
  let d := if circ_find (activeList_ d) cid then d else
    d <| activeList_ := circ_insert (activeList_ d) cid |>
      <| drrMap_ := <[cid := (desc_of (drrMap_ d) cid) <| dd_active_ := true |>]> (drrMap_ d) |> in
  d <| drrMap_ := <[cid := (desc_of (drrMap_ d) cid) <| dd_eligible_ := true |>]> (drrMap_ d) |>.

Definition drr_removeActiveConnection (d : LteDrr) (cid : Z) : result LteDrr :=
  let! l := circ_eraseElem (activeList_ d) cid in
  Ok (d <| activeList_ := l |> <| activeConnectionSet_ := activeConnectionSet_ d ∖ {[cid]} |>).

(** [LteSchedulerEnb::removeActiveConnections]: over a copy of the set of active connections. *)
Fixpoint drr_remove_all (d : LteDrr) (nodeId : Z) (cids : list Z) : result LteDrr :=
  match cids with
  | [] => Ok d
  | cid :: cids' =>
      let! d := if MacCidToNodeId cid =? nodeId then drr_removeActiveConnection d cid else Ok d in
      drr_remove_all d nodeId cids'
  end.

Definition drr_removeActiveConnections (d : LteDrr) (nodeId : Z) : result LteDrr :=
  drr_remove_all d nodeId (in_order (activeConnectionSet_ d)).
End Connections.

(** ** Deficit round robin: properties

    The loop ends whatever the connections are, given what a scheduler promises of its
    grants ([GrantLaws]); what it does to the set of active connections and to a deficit. *)

#[local] Open Scope Z_scope.

(** What a discipline relies on of its scheduler: on the states of [inv] and the connections of
    [known] a grant is made; a node that has a codeword in this TTI is [busy] and stays so,
    a busy node ends the TTI, and a connection that may be granted more is one of a node
    that has become busy. *)
Class GrantLaws {S : Type} (grant : S -> Z -> Z -> result (Z * Flags * S)) (inv : S -> Prop) (known : Z -> Prop) (busy : S -> Z -> bool) := {
  grant_law s cid bytes : inv s -> known cid -> exists n f s',
    grant s cid bytes = Ok (n, f, s') /\ inv s' /\
    (busy s (MacCidToNodeId cid) = true -> terminate f = true) /\
    (terminate f = false -> active f = true -> eligible f = true -> busy s' (MacCidToNodeId cid) = true) /\
    (forall k, busy s k = true -> busy s' k = true)
}.

Section Laws.
Context {S : Type} (grant : S -> Z -> Z -> result (Z * Flags * S)) (inv : S -> Prop) (known : Z -> Prop) (busy : S -> Z -> bool).
Context `{!GrantLaws grant inv known busy}.
Variable binder : LteBinder.

(** The connections of nodes that are not busy. *)
Definition idle (s : S) (l : list Z) : nat := length (filter (fun cid => busy s (MacCidToNodeId cid) = false) l).

Lemma idle_length s l : (idle s l <= length l)%nat.
Proof. apply length_filter. Qed.

Lemma idle_cons s x l : idle s (x :: l) = ((if busy s (MacCidToNodeId x) then 0 else 1) + idle s l)%nat.
Proof.
  unfold idle. destruct (busy s (MacCidToNodeId x)) eqn:E; [rewrite filter_cons_False by (by rewrite E)|rewrite filter_cons_True by done]; done.
Qed.

Lemma idle_app s l1 l2 : idle s (l1 ++ l2) = (idle s l1 + idle s l2)%nat.
Proof. unfold idle. by rewrite filter_app, length_app. Qed.

Lemma idle_turn s x l : idle s (l ++ [x]) = idle s (x :: l).
Proof. rewrite idle_app, !idle_cons. change (idle s []) with 0%nat. lia. Qed.

Lemma idle_mono s s' l : (forall k, busy s k = true -> busy s' k = true) -> (idle s' l <= idle s l)%nat.
Proof.
  intros Hk. induction l as [|x l IH]; [done|]. rewrite !idle_cons. destruct (busy s (MacCidToNodeId x)) eqn:E; [rewrite (Hk _ E); lia|].
  destruct (busy s' _); lia.
Qed.

Lemma idle_booked s s' x l :
  (forall k, busy s k = true -> busy s' k = true) -> busy s (MacCidToNodeId x) = false -> busy s' (MacCidToNodeId x) = true ->
  (idle s' (x :: l) < idle s (x :: l))%nat.
Proof. intros Hk H1 H2. pose proof (idle_mono s s' l Hk). rewrite !idle_cons, H1, H2. lia. Qed.

(** ** A turn *)

Lemma drr_update_ok d cid desc scheduled flags :
  exists d', drr_update d cid desc scheduled flags = Ok d' /\
    activeTempList_ d' = (if active flags then (if terminate flags && (quantum_ desc <=? uint32 (deficit_ desc - scheduled))
                          then activeTempList_ d else circ_move (activeTempList_ d)) else circ_erase (activeTempList_ d)).
Proof.
  pose proof (wrap_range 32 (deficit_ desc - scheduled) ltac:(lia)) as Hw. unfold drr_update.
  rewrite (proj2 (Z.ltb_ge _ _)) by (destruct Hw; lia).
  destruct (active flags), (eligible flags), (terminate flags); cbn; try (eexists; split; reflexivity);
    destruct (quantum_ desc <=? _); eexists; split; reflexivity.
Qed.

Definition temp_ring (d : LteDrr) : list Z := ring (activeTempList_ d).

(** The loop ends, and keeps what the scheduler keeps. *)
Lemma drr_loop_ok fuel : forall d eligibles s,
  circ_ok (activeTempList_ d) -> Forall known (temp_ring d) -> inv s -> 0 <= eligibles ->
  (length (temp_ring d) + Z.to_nat eligibles + idle s (temp_ring d) <= fuel)%nat ->
  exists d' s', drr_loop grant binder fuel d eligibles s = Ok (d', s') /\ inv s' /\ circ_ok (activeTempList_ d') /\ Forall known (temp_ring d').
Proof.
  induction fuel as [|fuel IH]; intros d eligibles s Hc Hk Hs He Hf; cbn [drr_loop].
  { destruct (circ_empty (activeTempList_ d)) eqn:E; [by exists d, s|]. exfalso.
    destruct (circ_current_spec _ Hc E) as (x & l & Hr & _). unfold temp_ring in Hf. rewrite Hr in Hf. cbn in Hf. lia. }
  destruct (circ_empty (activeTempList_ d)) eqn:E; [by exists d, s|]. destruct (Z.leb_spec eligibles 0) as [|Hpos]; [by exists d, s|]. cbn [orb].
  destruct (circ_current_spec _ Hc E) as (x & l & Hr & ->). cbn [rbind].
  unfold temp_ring in *. rewrite Hr in *. apply Forall_cons in Hk as [Hx Hl].
  destruct (circ_erase_spec _ _ _ Hc Hr) as [Hec Her]. destruct (circ_move_spec _ _ _ Hc Hr) as [Hmc Hmr].
  cbn [length] in Hf. assert (Hlx : Forall known (l ++ [x])) by (apply Forall_app; by repeat constructor).
  pose proof (idle_cons s x l) as Hidle. destruct (getOmnetId binder (MacCidToNodeId x) =? 0).
  { apply IH; cbn [activeTempList_ drop_current set]; rewrite ?Her; try done. lia. }
  destruct (negb (dd_eligible_ (desc_of (drrTempMap_ d) x))).
  { apply IH; cbn; rewrite ?Hmr; try done; [lia|]. rewrite idle_turn, length_app; cbn [length]. lia. }
  set (desc := (desc_of (drrTempMap_ d) x) <| deficit_ := _ |>).
  destruct (grant_law s x (deficit_ desc) Hs Hx) as (n & f & s' & -> & Hs' & Hbusy & Hbooks & Hkeeps). cbn [rbind].
  destruct (drr_update_ok d x desc n f) as (d' & -> & Hd'). cbn [rbind].
  pose proof (idle_mono s s' (x :: l) Hkeeps) as Hmono.
  destruct (active f) eqn:Ea; cbn [negb orb].
  - destruct (terminate f) eqn:Et.
    + exists d', s'. cbn [andb] in Hd'. split; [done|]. split; [done|].
      rewrite Hd'. destruct (quantum_ desc <=? _); rewrite ?Hr, ?Hmr; split; try done. by constructor.
    + cbn [andb] in Hd'. destruct (eligible f) eqn:Ee; cbn [negb orb].
      * apply IH; rewrite ?Hd', ?Hmr; try done. rewrite idle_turn, length_app; cbn [length].
        assert (Hb : busy s (MacCidToNodeId x) = false).
        { destruct (busy s (MacCidToNodeId x)) eqn:Eb; [discriminate (Hbusy eq_refl)|done]. }
        pose proof (idle_booked s s' x l Hkeeps Hb (Hbooks eq_refl eq_refl eq_refl)). lia.
      * apply IH; rewrite ?Hd', ?Hmr; try done; [lia|]. rewrite idle_turn, length_app; cbn [length]. lia.
  - rewrite orb_true_r. destruct (terminate f).
    + exists d', s'. split_and!; [done|done|by rewrite Hd'|by rewrite Hd', Her].
    + apply IH; rewrite ?Hd', ?Her; try done; [lia|]. pose proof (idle_cons s' x l). lia.
Qed.

Lemma drr_schedule_ok d s :
  circ_ok (activeList_ d) -> Forall known (ring (activeList_ d)) -> inv s ->
  exists d' s', drr_schedule grant binder d s = Ok (d', s') /\ inv s' /\ circ_ok (activeList_ d') /\ Forall known (ring (activeList_ d')).
Proof.
  intros Hc Hk Hs. unfold drr_schedule, drr_prepareSchedule.
  edestruct (drr_loop_ok (drr_fuel d) (d <| activeTempList_ := activeList_ d |> <| drrTempMap_ := drrMap_ d |>) (size_ (activeList_ d)) s)
    as (d' & s' & E & Hs' & Hc' & Hk'); [exact Hc|exact Hk|exact Hs|destruct Hc; lia| |].
  - unfold temp_ring, drr_fuel; cbn [activeTempList_ set]. pose proof (idle_length s (ring (activeList_ d))). rewrite ring_length in *.
    destruct Hc as [-> _ _]. change (ring _) with (ring (activeList_ d)). lia.
  - cbn [activeTempList_ activeList_] in E |- *. eexists _, s'. cbn in E |- *. rewrite E. split; [reflexivity|]. done.
Qed.
(** C15. [LteDrr::schedule] ends: with the number of connections the loop starts with as its
    only bound (three visits to each), it grants, moves on and drops connections until none
    is left, none is eligible or a grant ends it, whatever the order, the deficits and the
    flags of the connections are; the scheduler's state stays good and so does the list. *)
Theorem drr_schedule_terminates d s :
  circ_ok (activeList_ d) -> Forall known (ring (activeList_ d)) -> inv s ->
  exists d' s', drr_schedule grant binder d s = Ok (d', s') /\ inv s' /\ circ_ok (activeList_ d') /\ Forall known (ring (activeList_ d')).
Proof. apply drr_schedule_ok. Qed.
End Laws.

(** ** What goes wrong *)

Section Faults.
Context {S : Type} (grant : S -> Z -> Z -> result (Z * Flags * S)).
Variable binder : LteBinder.

Lemma drr_update_temp d cid desc n f d' :
  drr_update d cid desc n f = Ok d' -> activeConnectionTempSet_ d = ∅ -> activeConnectionTempSet_ d' = ∅.
Proof.
  unfold drr_update. intros E H0. case_match; [done|]. destruct (active f); cbn in E; [case_match|]; injection E as <-; cbn; set_solver.
Qed.

Lemma drr_loop_temp fuel : forall d eligibles s d' s',
  drr_loop grant binder fuel d eligibles s = Ok (d', s') -> activeConnectionTempSet_ d = ∅ -> activeConnectionTempSet_ d' = ∅.
Proof.
  induction fuel as [|fuel IH]; intros d eligibles s d' s' E H0; cbn [drr_loop] in E; (case_match; [by injection E as <- _|]); [done|].
  apply rbind_Ok_inv in E as (cid & _ & E). destruct (getOmnetId binder (MacCidToNodeId cid) =? 0); [eapply IH; [exact E|cbn; set_solver]|].
  destruct (negb (dd_eligible_ (desc_of (drrTempMap_ d) cid))); [by eapply IH; [exact E|]|].
  apply rbind_Ok_inv in E as ([[n f] s1] & _ & E). apply rbind_Ok_inv in E as (d1 & Ed & E).
  pose proof (drr_update_temp _ _ _ _ _ _ Ed H0). case_match; [by injection E as <- _|]. by eapply IH; [exact E|].
Qed.

(** [activeConnectionTempSet_] is never given the active connections, as in the other
    disciplines: each [schedule] leaves the set of active connections empty, whatever
    connections are in the list, and [removeActiveConnections], which goes over that set when
    a UE leaves the cell, takes none of them out of the list. *)
Theorem drr_forgets_active d s d' s' :
  activeConnectionTempSet_ d = ∅ -> drr_schedule grant binder d s = Ok (d', s') ->
  activeConnectionSet_ d' = ∅ /\ activeConnectionTempSet_ d' = ∅ /\ forall nodeId, drr_removeActiveConnections d' nodeId = Ok d'.
Proof.
  intros H0 E. unfold drr_schedule in E. apply rbind_Ok_inv in E as ([d1 s1] & E1 & E). injection E as <- <-.
  apply drr_loop_temp in E1; [|done]. split; [done|]. split; [done|]. intros nodeId.
  unfold drr_removeActiveConnections, in_order. cbn [drr_commitSchedule activeConnectionSet_ set]. cbn. by rewrite E1, elements_empty.
Qed.

(** The check of the deficit compares an unsigned number with 0: a grant larger than the
    deficit, and the size of a request is not read, leaves a deficit of almost 4 GB. *)
Lemma drr_deficit_wraps d cid desc n f :
  is_uint 32 (deficit_ desc) -> is_uint 32 n -> deficit_ desc < n -> active f = true -> terminate f = false ->
  exists d', drr_update d cid desc n f = Ok d' /\ deficit_ (desc_of (drrTempMap_ d') cid) = 2 ^ 32 + deficit_ desc - n.
Proof.
  intros Hd Hn Hlt Ha Ht. assert (E : uint32 (deficit_ desc - n) = 2 ^ 32 + deficit_ desc - n).
  { unfold is_uint in *. unfold wrap. rewrite <- (Z.mod_add _ 1) by lia. rewrite Z.mod_small; lia. }
  unfold drr_update. rewrite E, Ha, Ht. unfold is_uint in *. rewrite (proj2 (Z.ltb_ge _ _)) by lia. cbn.
  eexists; split; [reflexivity|]. unfold desc_of. cbn. rewrite lookup_insert_eq. by destruct (eligible f).
Qed.
End Faults.
