(* ===== verification/SchedulerEnbProps.v ===== *)
(** * The schedulers of an eNB: properties

    A grant on the main plane keeps the books of the allocator and never takes more than a
    band has; it keeps the virtual buffers; and it gives a discipline what it relies on. *)

From S2P Require Import Prelude.
From S2P Require Import LteCommon.
From S2P Require Import LteBinder.
From S2P Require Import RlcUm.
From S2P Require Import MacQueue.
From S2P Require Import LcgScheduler.
From S2P Require Import LcgProps.
From S2P Require Import HarqTx.
From S2P Require Import Doubles.
From S2P Require Import Allocation.
From S2P Require Import AllocationProps.
From S2P Require Import TbsTables.
From S2P Require Import Amc.
From S2P Require Import SchedulerEnb.
From S2P Require Import Drr.
#[local] Open Scope Z_scope.

Lemma wrap_add_r w a b : wrap w (a + wrap w b) = wrap w (a + b).
Proof. apply Zplus_mod_idemp_r. Qed.

Lemma wrap_twice w a : wrap w a = wrap w (wrap w a).
Proof. symmetry. apply Zmod_mod. Qed.

(** ** Taking bytes out of a virtual buffer *)

Lemma consume_spec fuel b l n :
  holds b l -> (length l <= fuel)%nat -> 0 <= n ->
  exists b' l', consume fuel b n = Ok b' /\ holds b' l' /\ total l' = Z.max 0 (total l - n) /\ (total l < n -> l' = []).
Proof.
  revert b l n. induction fuel as [|fuel IH]; intros b l n Hb Hf Hn; cbn [consume].
  - destruct l; [|cbn in Hf; lia]. unfold buffer_isEmpty. rewrite (proj1 (proj2 (ho_rep _ _ Hb))). cbn.
    exists b, []. split_and!; [done|done|cbn; lia|done].
  - pose proof (total_nonneg l (ho_sizes _ _ Hb)) as Ht. unfold buffer_isEmpty. rewrite (proj1 (proj2 (ho_rep _ _ Hb))).
    destruct l as [|p l]; [cbn; exists b, []; split_and!; [done|done|cbn; lia|done]|].
    rewrite (proj2 (Z.eqb_neq _ _)) by (cbn [length]; lia). cbn [orb].
    destruct (Z.leb_spec n 0); [exists b, (p :: l); split_and!; [done|done|lia|lia]|].
    unfold buffer_front. rewrite (proj1 (ho_rep _ _ Hb)), (proj1 (proj2 (ho_rep _ _ Hb))).
    rewrite (proj2 (Z.leb_gt _ _)) by (cbn [length]; lia). cbn [head of_option rbind].
    destruct (holds_popFront b p l Hb) as (b1 & -> & Hb1). cbn [rbind].
    change (total (p :: l)) with (p.1 + total l) in *. pose proof (ho_sizes _ _ Hb) as Hs. apply Forall_cons in Hs as [Hp Hs].
    cbn [length] in Hf. destruct (Z.leb_spec p.1 n).
    + destruct (IH b1 l (n - p.1) Hb1) as (b' & l' & E & Hb' & Ht' & He); [lia|lia|]. exists b', l'. split_and!; [done|done|lia|].
      intros. apply He. lia.
    + pose proof (ho_count _ _ Hb). pose proof (ho_bytes _ _ Hb) as Hbound. change (total (p :: l)) with (p.1 + total l) in Hbound. cbn [length] in *.
      destruct (holds_pushFront b1 (p.1 - n, p.2) l Hb1) as (b2 & -> & Hb2); [cbn; lia|lia|cbn; lia|]. cbn [rbind].
      exists b2, ((p.1 - n, p.2) :: l). pose proof (total_nonneg l Hs). split_and!.
      * destruct fuel; cbn [consume]; by rewrite orb_true_r.
      * done.
      * change (total ((p.1 - n, p.2) :: l)) with (p.1 - n + total l). lia.
      * lia.
Qed.

(** ** The setting: one plane with one antenna *)

Section Grants.
Context `{Amc} `{Cell}.
Context (Hdl : scaled dlMcsTable_) (Hul : scaled ulMcsTable_).
Context (Hmimo : cell_muMimo = false).

(** A UE is gone, out of range, or in range. *)
Definition tx_ok (nodeId : Z) (dir : Direction) : Prop :=
  exists info, computeTxParams nodeId dir = Ok info /\
    (isValid_ info = false \/ vget (cqiVector_ info) 0 = Some 0 \/ exists cqi layers, good_params info 0 cqi layers).

(** The main antenna. *)
Record alloc_ok (a : LteAllocationModule) (macro : Antenna) : Prop := {
  al_books : books_ok a;
  al_bands : bands_ a = cell_numBands;
  al_planes : planes_ a = [[macro]];
  al_narrow : totalRbs macro / cell_numBands <= 110;
  al_primary : forall k, secondaryUser_ (ueInfo a k) = false
}.

Definition free (macro : Antenna) (b : Z) : Z := totalRbs macro / cell_numBands - allocated_ (band_of macro b).

Lemma al_plane a macro k : alloc_ok a macro -> plane_of (ueInfo a k) = MAIN_PLANE.
Proof. intros Ha. unfold plane_of. by rewrite (al_primary _ _ Ha). Qed.

Lemma al_antenna a macro : alloc_ok a macro -> antenna_at a MAIN_PLANE MACRO = Ok macro.
Proof. intros Ha. unfold antenna_at. by rewrite (al_planes _ _ Ha). Qed.

Lemma al_touch a macro k : alloc_ok a macro -> alloc_ok (touch_ue a k) macro.
Proof. intros [H1 H2 H3 H4 H5]. split; try done. intros k'. by rewrite ueInfo_touch. Qed.

Lemma free_range a macro b : alloc_ok a macro -> 0 <= free macro b <= 110.
Proof.
  intros Ha. pose proof (antenna_at_ok _ _ _ _ (al_books _ _ Ha) (al_antenna _ _ Ha)) as Hm.
  pose proof (band_of_ok _ _ b (proj1 (al_books _ _ Ha)) Hm) as Hi. pose proof (band_ok_nonneg _ _ Hi).
  rewrite (al_bands _ _ Ha) in Hi. destruct Hi as [_ _ Hl]. pose proof (al_narrow _ _ Ha). unfold free. lia.
Qed.

Lemma al_available a macro k b :
  alloc_ok a macro -> availableBlocks_on a k MACRO b = Ok (free macro b, touch_ue a k).
Proof.
  intros Ha. unfold free. rewrite <- (al_bands _ _ Ha). apply availableBlocks_on_ok; [apply Ha|].
  rewrite (al_plane _ _ _ Ha). by apply al_antenna.
Qed.

Lemma al_total a macro : alloc_ok a macro -> computeTotalRbs a = Ok (totalRbs macro - allocatedRbs macro) /\ 0 <= totalRbs macro - allocatedRbs macro.
Proof.
  intros Ha. pose proof (al_books _ _ Ha) as Hb. pose proof (antenna_at_ok _ _ _ _ Hb (al_antenna _ _ Ha)) as Hm.
  pose proof (antenna_fits _ _ (proj1 Hb) Hm) as Hf. destruct Hm as [Ht _ _]. split; [|lia].
  unfold computeTotalRbs. rewrite (al_planes _ _ Ha). cbn [concat app fold_left]. rewrite !Z.add_0_l.
  rewrite !(wrap_small 32), !swrap_small by (unfold is_uint, is_sint; lia). unfold int_of.
  rewrite (proj2 (Z.leb_le _ _)), (proj2 (Z.ltb_lt _ (2 ^ 31))) by lia. cbn [andb rbind]. by rewrite (proj2 (Z.ltb_ge _ _)) by lia.
Qed.

(** A request that fits is granted. *)
Lemma al_add a macro k b blocks bytes :
  alloc_ok a macro -> 0 <= b < cell_numBands -> 0 <= blocks <= free macro b -> 0 < bytes ->
  exists a', addBlocks_on a MACRO b k blocks bytes = Ok (true, a') /\ alloc_ok a' (antenna_add macro b k blocks bytes).
Proof.
  intros Ha Hb Hbl Hby. pose proof (free_range a macro b Ha) as Hfree.
  destruct (set_antenna (touch_ue a k) MAIN_PLANE MACRO (antenna_add macro b k blocks bytes)) as [s1| |] eqn:Es;
    unfold set_antenna in Es; cbn in Es; rewrite (al_planes _ _ Ha) in Es; [|done|done].
  injection Es as <-. eexists. split.
  - unfold addBlocks_on. rewrite (al_bands _ _ Ha), (proj2 (Z.leb_gt _ _)) by lia. cbn [getOFDMPlane].
    rewrite (al_available _ _ k b (al_touch _ _ k Ha)). cbn [rbind]. rewrite !swrap_small by (unfold is_sint; lia).
    unfold int_of. rewrite (proj2 (Z.leb_le _ _)), (proj2 (Z.ltb_lt _ (2 ^ 31))) by lia. cbn [andb rbind].
    rewrite (proj2 (Z.ltb_ge _ _)), (proj2 (Z.eqb_neq _ _)) by lia. rewrite (al_plane _ _ _ Ha).
    rewrite (al_antenna _ _ (al_touch _ _ k (al_touch _ _ k Ha))). cbn [rbind]. rewrite touch_touch. unfold set_antenna; cbn.
    rewrite (al_planes _ _ Ha). reflexivity.
  - pose proof (al_books _ _ Ha) as Hbooks. pose proof (antenna_at_ok _ _ _ _ Hbooks (al_antenna _ _ Ha)) as Hm.
    assert (Hnew : antenna_ok (bands_ a) (antenna_add macro b k blocks bytes)).
    { apply antenna_add_ok; [apply Hbooks|done|rewrite (al_bands _ _ Ha); lia|lia|]. unfold free in *. rewrite (al_bands _ _ Ha). lia. }
    split; cbn.
    + split; [apply Hbooks|]. exact (proj2 (Forall_singleton _ [_]) (proj2 (Forall_singleton _ _) Hnew)).
    + apply Ha.
    + done.
    + apply Ha.
    + intros k'. unfold ueInfo; cbn. destruct (decide (k' = k)) as [->|Hne].
      * rewrite lookup_insert_eq. cbn. apply (al_primary _ _ (al_touch _ _ k Ha)).
      * rewrite lookup_insert_ne by done. apply (al_primary _ _ (al_touch _ _ k Ha)).
Qed.

Lemma al_given a macro : alloc_ok a macro -> 0 <= allocatedRbs macro <= totalRbs macro /\ totalRbs macro < 2 ^ 31.
Proof.
  intros Ha. pose proof (al_books _ _ Ha) as Hb. pose proof (antenna_at_ok _ _ _ _ Hb (al_antenna _ _ Ha)) as Hm.
  split; [exact (antenna_fits _ _ (proj1 Hb) Hm)|]. destruct Hm. lia.
Qed.

Lemma al_add_given a macro k b blocks bytes a' :
  alloc_ok a macro -> 0 <= blocks <= free macro b -> alloc_ok a' (antenna_add macro b k blocks bytes) ->
  allocatedRbs (antenna_add macro b k blocks bytes) = allocatedRbs macro + blocks.
Proof.
  intros Ha Hb Ha'. pose proof (al_given _ _ Ha). pose proof (al_given _ _ Ha') as Hg. pose proof (free_range _ _ b Ha). cbn in *.
  apply wrap_small. unfold is_uint. lia.
Qed.

(** The bytes of the blocks a band has left, and the blocks of those bytes. *)
Lemma bytes_on nodeId b n dir :
  tx_ok nodeId dir -> dir <> UNKNOWN_DIRECTION -> 0 <= n <= 110 ->
  exists carried, amc_computeBytesOnNRbs nodeId b 0 n dir = Ok carried /\ 0 <= carried < 2 ^ 17 /\
    (forall bytes, 0 < bytes <= carried -> exists k, computeReqRbs nodeId b 0 bytes dir = Ok k /\ 1 <= k <= n).
Proof.
  intros (info & Hi & Hcase) Hdir Hn. destruct (decide (n = 0)) as [->|Hn0].
  { exists 0. split; [reflexivity|]. split; [lia|]. intros; lia. }
  assert (Hnone : amc_computeBytesOnNRbs nodeId b 0 n dir = Ok 0 -> exists carried, amc_computeBytesOnNRbs nodeId b 0 n dir = Ok carried /\
    0 <= carried < 2 ^ 17 /\ (forall bytes, 0 < bytes <= carried -> exists k, computeReqRbs nodeId b 0 bytes dir = Ok k /\ 1 <= k <= n)).
  { intros E. exists 0. split; [done|]. split; [lia|]. intros; lia. }
  destruct Hcase as [Hv|[Hc|(cqi & layers & Hg)]].
  - apply Hnone. unfold amc_computeBytesOnNRbs, computeBitsOnNRbs. rewrite (proj2 (Z.ltb_ge _ _)), (proj2 (Z.eqb_neq n 0)) by lia.
    rewrite Hi; cbn [rbind]. by rewrite Hv.
  - apply Hnone. unfold amc_computeBytesOnNRbs, computeBitsOnNRbs. rewrite (proj2 (Z.ltb_ge _ _)), (proj2 (Z.eqb_neq n 0)) by lia.
    rewrite Hi; cbn [rbind]. rewrite Hc. by destruct (isValid_ info).
  - destruct (tbs_row_ok Hdl Hul info 0 cqi layers dir Hg Hdir) as (row & Hrow & Hok).
    destruct (bits_on_row nodeId b 0 n dir _ _ _ _ Hi Hg Hrow Hok) as (bits & Hbits & ->); [lia|].
    pose proof (vget_Forall _ _ _ _ (proj2 Hok) Hbits) as Hbr. cbn in Hbr. eexists; split; [reflexivity|].
    assert (0 <= bits / 8 < 2 ^ 17) by (split; [apply Z.div_pos; lia|apply Z.div_lt_upper_bound; lia]). split; [done|].
    intros bytes Hb. exists (first_fit row (bytes * 8) + 1). pose proof (first_fit_range row (bytes * 8)). split.
    + unfold computeReqRbs. rewrite (proj2 (Z.eqb_neq _ _)) by lia. rewrite Hi; cbn [rbind]. destruct Hg as [-> -> _ -> _]; cbn [negb].
      rewrite Hrow; cbn [rbind]. by rewrite (wrap_small 32) by (unfold is_uint; lia).
    + pose proof (Z.mul_div_le bits 8). pose proof (first_fit_least row (bytes * 8) (n - 1) bits Hbits). lia.
Qed.

(** *** Bands *)

Definition open_limit (e : BandLimit) : Prop :=
  0 <= band_ e < cell_numBands /\ (vget (limit_ e) 0 = Some (-1) \/ vget (limit_ e) 0 = Some (-2)).

Lemma set_limit_skip l i :
  Forall open_limit l -> 0 <= i < vsize l -> exists l', set_limit l i 0 (-2) = Ok l' /\ Forall open_limit l' /\ length l' = length l.
Proof.
  intros Hl Hi. destruct (vget_is_Some l i Hi) as [e He]. pose proof (vget_Forall _ _ _ _ Hl He) as [Hb Hlim].
  unfold set_limit, vat. rewrite He. cbn [rbind].
  assert (Hz : 0 <= 0 < vsize (limit_ e)) by (destruct Hlim as [Hlim|Hlim]; by apply vget_Some_bounds in Hlim).
  destruct (vset_is_Some (limit_ e) 0 (-2) Hz) as [m Hm]. rewrite Hm.
  destruct (vset_is_Some l i {| band_ := band_ e; limit_ := m |} Hi) as [l' Hl']. rewrite Hl'. exists l'. split; [done|].
  split; [|exact (vset_size _ _ _ _ Hl')]. eapply vset_Forall; [exact Hl| |exact Hl']. split; [done|]. right. exact (vget_vset_eq _ _ _ _ Hm).
Qed.

(** What a turn does: [blocks] more blocks for [bytes] bytes. *)
Record booked (g g' : GrantLoop) (macro macro' : Antenna) (blocks bytes : Z) : Prop := {
  bk_sched : gl_sched g' = (gl_sched g) <| allocator_ := allocator_ (gl_sched g') |>;
  bk_alloc : alloc_ok (allocator_ (gl_sched g')) macro';
  bk_total : totalRbs macro' = totalRbs macro;
  bk_given : allocatedRbs macro' = allocatedRbs macro + blocks;
  bk_nonneg : 0 <= blocks /\ 0 <= bytes;
  bk_both : 0 < blocks <-> 0 < bytes;
  bk_bytes : gl_cwBytes g' = uint32 (gl_cwBytes g + bytes);
  bk_blocks : gl_cwBlocks g' = uint32 (gl_cwBlocks g + blocks);
  bk_open : Forall open_limit (gl_bandLim g');
  bk_length : length (gl_bandLim g') = length (gl_bandLim g)
}.

Lemma booked_trans g1 g2 g3 m1 m2 m3 n1 n2 b1 b2 :
  booked g1 g2 m1 m2 n1 b1 -> booked g2 g3 m2 m3 n2 b2 -> booked g1 g3 m1 m3 (n1 + n2) (b1 + b2).
Proof.
  intros [A1 A2 A3 A4 A5 A9 A10 A6 A7 A8] [B1 B2 B3 B4 B5 B9 B10 B6 B7 B8].
  split; [by rewrite B1, A1|done|congruence|lia|lia|lia| | |done|congruence].
  - rewrite B10, A10, wrap_add. f_equal. lia.
  - rewrite B6, A6, wrap_add. f_equal. lia.
Qed.

(** The space of a band for the first codeword. *)
Lemma band_space_spec s macro nodeId b dir :
  tx_ok nodeId dir -> dir <> UNKNOWN_DIRECTION -> alloc_ok (allocator_ s) macro -> used_cws s nodeId = 0 ->
  exists carried, band_space s nodeId MACRO b 0 dir (-1) false = Ok (carried, free macro b, s <| allocator_ := touch_ue (allocator_ s) nodeId |>) /\
    0 <= carried < 2 ^ 17 /\
    (forall bytes, 0 < bytes <= carried -> exists k, computeReqRbs nodeId b 0 bytes dir = Ok k /\ 1 <= k <= free macro b).
Proof.
  intros Htx Hdir Ha Hu. pose proof (free_range _ _ b Ha) as Hf.
  destruct (bytes_on nodeId b (free macro b) dir Htx Hdir Hf) as (carried & E & Hc & Hreq). exists carried. split; [|done].
  unfold band_space. rewrite Hu. change (negb (0 =? 0)) with false. cbv iota. unfold availableBytes.
  rewrite (al_available _ _ nodeId b Ha). cbn [rbind].
  rewrite swrap_small by (unfold is_sint; lia). cbn [negb Z.eqb Pos.eqb]. rewrite andb_false_r, (wrap_small 32) by (unfold is_uint; lia).
  rewrite E. cbn [rbind allocator_ set]. rewrite (al_available _ _ nodeId b (al_touch _ _ nodeId Ha)). cbn [rbind]. by rewrite touch_touch.
Qed.

Lemma book_band_spec g macro nodeId b i bytes blocks :
  alloc_ok (allocator_ (gl_sched g)) macro -> used_cws (gl_sched g) nodeId = 0 -> Forall open_limit (gl_bandLim g) ->
  limit_at (gl_bandLim g) i 0 = Ok (-1) -> 0 <= b < cell_numBands -> 0 < blocks <= free macro b -> 0 < bytes ->
  exists g' macro', book_band nodeId MACRO b 0 i bytes blocks g = Ok g' /\ booked g g' macro macro' blocks bytes.
Proof.
  intros Ha Hu Hl Hlim Hb Hbl Hby. destruct (al_add _ _ nodeId b blocks bytes Ha Hb) as (a' & Ea & Ha'); [lia|lia|].
  destruct g as [s lims toServe cwBytes cwBlocks stop]. cbn [gl_sched gl_bandLim] in *. unfold book_band. cbn [gl_sched gl_bandLim gl_toServe].
  rewrite Hu, Ea. cbn [Z.eqb rbind]. unfold lower_limit. cbn [gl_bandLim set]. rewrite Hlim. cbn [rbind].
  change (0 <? -1) with false. rewrite andb_false_r. cbn [rbind]. eexists _, _. split; [reflexivity|].
  split; try done; [|lia|lia]. eapply al_add_given; [exact Ha| |exact Ha']. lia.
Qed.

Lemma grant_band_spec nodeId queueLength dir i g macro :
  tx_ok nodeId dir -> dir <> UNKNOWN_DIRECTION -> alloc_ok (allocator_ (gl_sched g)) macro -> used_cws (gl_sched g) nodeId = 0 ->
  Forall open_limit (gl_bandLim g) -> 0 <= i < vsize (gl_bandLim g) -> 0 < queueLength -> gl_cwBlocks g = uint32 (gl_cwBlocks g) ->
  gl_cwBytes g = uint32 (gl_cwBytes g) ->
  exists g' macro' blocks bytes, grant_band nodeId MACRO 0 queueLength dir false i g = Ok g' /\ booked g g' macro macro' blocks bytes /\ bytes < 2 ^ 17.
Proof.
  intros Htx Hdir Ha Hu Hl Hi Hq Hcw Hcb. destruct (vget_is_Some _ i Hi) as [e He]. pose proof (vget_Forall _ _ _ _ Hl He) as [Hb Hlim].
  unfold grant_band. unfold vat at 1. rewrite He. cbn [rbind]. unfold vat.
  destruct Hlim as [Hlim|Hlim]; rewrite Hlim; cbn [rbind].
  2: { exists g, macro, 0, 0. split; [done|]. split; [|done]. split; rewrite ?Z.add_0_r; try done. by destruct (gl_sched g). }
  change (-1 =? -2) with false. cbv iota.
  destruct (band_space_spec _ _ nodeId (band_ e) dir Htx Hdir Ha Hu) as (carried & -> & Hc & Hreq). cbn [rbind].
  set (g1 := g <| gl_sched := _ |>). assert (Ha1 : alloc_ok (allocator_ (gl_sched g1)) macro) by (by apply al_touch).
  assert (H1 : booked g g1 macro macro 0 0) by (split; rewrite ?Z.add_0_r; done).
  assert (Hu1 : used_cws (gl_sched g1) nodeId = 0) by done. assert (Hl1 : gl_bandLim g1 = gl_bandLim g) by done. clearbody g1.
  destruct (Z.eqb_spec carried 0) as [->|Hc0].
  { rewrite Hl1. destruct (set_limit_skip _ _ Hl Hi) as (l' & -> & Hl' & Hlen). cbn [rbind]. eexists _, macro, 0, 0. split; [reflexivity|].
    split; [|done]. destruct g1, H1. by split. }
  change (0 <=? -1) with false. rewrite andb_false_r. cbn [andb].
  set (uBytes := if queueLength <? carried then queueLength else carried).
  assert (Hub : 0 < uBytes <= carried) by (unfold uBytes; destruct (Z.ltb_spec queueLength carried); lia).
  destruct (Hreq uBytes Hub) as (k & -> & Hk). cbn [rbind].
  destruct (book_band_spec g1 macro nodeId (band_ e) i uBytes k) as (g' & macro' & -> & B); try done; [by rewrite Hl1| |lia|lia|].
  { rewrite Hl1. unfold limit_at, vat. rewrite He. cbn [rbind]. by rewrite Hlim. }
  exists g', macro', k, uBytes. split; [done|]. split; [|lia]. exact (booked_trans _ _ _ _ _ _ _ _ _ _ H1 B).
Qed.

Lemma grant_bands_spec nodeId queueLength dir idxs : forall g macro,
  tx_ok nodeId dir -> dir <> UNKNOWN_DIRECTION -> alloc_ok (allocator_ (gl_sched g)) macro -> used_cws (gl_sched g) nodeId = 0 ->
  Forall open_limit (gl_bandLim g) -> Forall (fun i => 0 <= i < vsize (gl_bandLim g)) idxs -> 0 < queueLength ->
  gl_cwBlocks g = uint32 (gl_cwBlocks g) -> gl_cwBytes g = uint32 (gl_cwBytes g) ->
  exists g' macro' blocks bytes, grant_bands nodeId MACRO 0 queueLength dir false idxs g = Ok g' /\
    booked g g' macro macro' blocks bytes /\ bytes <= 2 ^ 17 * vsize idxs.
Proof.
  induction idxs as [|i idxs IH]; intros g macro Htx Hdir Ha Hu Hl Hi Hq Hcw Hcb; cbn [grant_bands].
  { exists g, macro, 0, 0. split; [done|]. split; [|done]. split; rewrite ?Z.add_0_r; try done. by destruct (gl_sched g). }
  apply Forall_cons in Hi as [Hi Hidxs].
  destruct (grant_band_spec nodeId queueLength dir i g macro) as (g1 & m1 & n1 & b1 & -> & B1 & Hb1); [done..|]. cbn [rbind].
  rewrite length_cons. destruct (gl_stop g1); [exists g1, m1, n1, b1; split_and!; [done|done|lia]|]. pose proof B1 as [A1 A2 A3 A4 A5 A9 A10 A6 A7 A8].
  destruct (IH g1 m1) as (g2 & m2 & n2 & b2 & -> & B2 & Hb2); [done|done|done|by rewrite A1|done|by rewrite A8|done|rewrite A6; apply wrap_twice|rewrite A10; apply wrap_twice|].
  exists g2, m2, (n1 + n2), (b1 + b2). split; [done|]. split; [by eapply booked_trans|lia].
Qed.

(** *** A codeword *)

Lemma sched_frame s s' c m :
  s' = s <| allocator_ := allocator_ s' |> ->
  s' <| allocatedCws_ := c |> <| se_scheduleList_ := m |> =
  s <| allocator_ := allocator_ s' |> <| allocatedCws_ := c |> <| se_scheduleList_ := m |>.
Proof. destruct s, s'; cbn. intros E. by simplify_eq. Qed.

Lemma sched_same s s' :
  s' = s <| allocator_ := allocator_ s' |> ->
  allocatedCws_ s' = allocatedCws_ s /\ se_scheduleList_ s' = se_scheduleList_ s /\
  s' = s <| allocator_ := allocator_ s' |> <| allocatedCws_ := allocatedCws_ s' |> <| se_scheduleList_ := se_scheduleList_ s' |>.
Proof. destruct s, s'; cbn. intros E. by simplify_eq. Qed.


(** What a grant leaves when it has come to the bands: the blocks it took, the buffer. *)
Lemma grant_codeword_spec cid nodeId dir s conn l lims flags macro :
  tx_ok nodeId dir -> dir <> UNKNOWN_DIRECTION -> alloc_ok (allocator_ s) macro -> used_cws s nodeId = 0 ->
  Forall open_limit lims -> vsize lims < 2 ^ 14 -> holds conn l -> 0 < total l ->
  exists g macro' blocks l',
    grant_codewords cid nodeId MACRO dir false [0]
      {| gs_sched := s; gs_conn := conn; gs_bandLim := lims; gs_flags := flags; gs_queueLength := queueOccupancy_ conn; gs_total := 0 |} = Ok g /\
    alloc_ok (allocator_ (gs_sched g)) macro' /\ totalRbs macro' = totalRbs macro /\ allocatedRbs macro' = allocatedRbs macro + blocks /\ 0 <= blocks /\
    holds (gs_conn g) l' /\ total l' <= total l /\ terminate (gs_flags g) = terminate flags /\
    gs_sched g = s <| allocator_ := allocator_ (gs_sched g) |> <| allocatedCws_ := allocatedCws_ (gs_sched g) |>
                   <| se_scheduleList_ := se_scheduleList_ (gs_sched g) |> /\
    ((eligible (gs_flags g) = false /\ blocks = 0 /\ allocatedCws_ (gs_sched g) = allocatedCws_ s /\ se_scheduleList_ (gs_sched g) = se_scheduleList_ s) \/
     (allocatedCws_ (gs_sched g) = <[nodeId := 1]> (allocatedCws_ s) /\
      se_scheduleList_ (gs_sched g) = <[(cid, 0) := uint32 (default 0 (se_scheduleList_ s !! (cid, 0)) +
        match dir with DL => 1 | _ => blocks end)]> (se_scheduleList_ s))).
Proof.
  intros Htx Hdir Ha Hu Hl Hmany Hc Hpos. pose proof (ho_bytes _ _ Hc) as Hb. destruct (ho_rep _ _ Hc) as (HQ & _ & Hocc).
  cbn [grant_codewords gs_queueLength gs_sched gs_bandLim gs_conn gs_flags gs_total].
  rewrite Hocc, (wrap_small 32 (total l)) by (unfold is_uint; lia). unfold MAC_HEADER, RLC_HEADER_UM.
  rewrite (wrap_small 32 (total l + (2 + 2))) by (unfold is_uint; lia).
  destruct (grant_bands_spec nodeId (total l + (2 + 2)) dir (seqZ 0 (vsize lims))
    {| gl_sched := s; gl_bandLim := lims; gl_toServe := total l + (2 + 2); gl_cwBytes := 0; gl_cwBlocks := 0; gl_stop := false |} macro)
    as (g & macro' & blocks & bytes & -> & [B1 B2 B3 B4 B5 B9 B10 B6 B7 B8] & Hbytes); try done; [|lia|].
  { apply Forall_forall. intros i Hi%elem_of_seqZ. cbn. lia. }
  cbn [rbind]. destruct (consume_spec (S (length (Queue_ conn))) conn l (uint32 (gl_cwBytes g - (2 + 2))) Hc) as (conn' & l' & -> & Hc' & Ht' & _);
    [rewrite HQ; lia|apply wrap_range; lia|]. cbn [rbind]. pose proof (wrap_range 32 (gl_cwBytes g - (2 + 2)) ltac:(lia)) as Hw.
  assert (Hused : used_cws (gl_sched g) nodeId = 0) by (by rewrite B1). rewrite Hused.
  change (uint32 (0 + 1)) with 1. change (1 =? MAX_CODEWORDS) with false. cbv iota.
  cbn [gl_sched] in B1. destruct (sched_same _ _ B1) as (Ecws & Elist & Eframe).
  assert (Hif : forall (b : bool) (x : result GrantState), (if b then x else x) = x) by (by intros []).
  rewrite length_seqZ, Z2Nat.id in Hbytes by lia. cbn [gl_cwBytes] in B10. rewrite Z.add_0_l, (wrap_small 32) in B10 by (unfold is_uint; lia).
  destruct (Z.ltb_spec 0 (gl_cwBytes g)).
  - eexists _, macro', blocks, l'. split; [rewrite Hif; reflexivity|]. cbn [gs_sched gs_conn gs_flags].
    split_and!; try done; [lia|destruct Hw; lia|by destruct (gl_stop g)|exact (sched_frame _ (gl_sched g) _ _ B1)|]. right. cbn. rewrite Ecws, Elist. split; [done|].
    cbn [gl_cwBlocks] in B6. rewrite Z.add_0_l in B6. destruct dir; rewrite ?B6, ?wrap_add_r; done.
  - eexists _, macro', blocks, l'. split; [reflexivity|]. cbn [gs_sched gs_conn gs_flags].
    split_and!; try done; [lia|destruct Hw; lia|by destruct (gl_stop g)|]. left. split_and!; try done. lia.
Qed.

(** ** A grant *)

Lemma all_bands_open : Forall open_limit all_bands.
Proof.
  apply Forall_forall. intros e [b [-> Hb%elem_of_seqZ]]%list_elem_of_fmap. split; [cbn; lia|]. by left.
Qed.

Context (check : Z -> Z -> result (bool * Z)) (dir0 : Direction) (known keyed : Z -> Prop) (rbs lost : Z).
Context (Hcheck : forall nodeId, exists free cw, check nodeId 0 = Ok (free, cw) /\ 0 <= cw).
Context (Hdir0 : dir0 = DL \/ dir0 = UL) (Hmany : 0 < cell_numBands < 2 ^ 14) (Hlost : 0 <= lost).
Context (Hkeyed : forall cid, known cid -> keyed cid).
Context (Hknown : forall cid, known cid -> getOmnetId amc_binder (MacCidToNodeId cid) <> 0 ->
  tx_ok (MacCidToNodeId cid) (grant_direction dir0 (MacCidToLcid cid))).

(** The states of a TTI: the blocks of the uplink schedule are those the allocator gave,
    apart from those lost before. *)
Record sched_inv (st : LteSchedulerEnb * gmap Z LteMacBuffer) : Prop := {
  si_dir : se_direction_ st.1 = dir0;
  si_alloc : exists macro, alloc_ok (allocator_ st.1) macro /\ totalRbs macro = rbs /\
    (dir0 = UL -> sum_map id (se_scheduleList_ st.1) + lost = allocatedRbs macro);
  si_list : map_Forall (fun _ n => 0 <= n) (se_scheduleList_ st.1);
  si_cws : forall k, 0 <= used_cws st.1 k;
  si_lims : emptyBandLim_ st.1 = [] \/ emptyBandLim_ st.1 = all_bands;
  si_bufs : forall cid, known cid -> exists conn l, st.2 !! cid = Some conn /\ holds conn l;
  si_keys : forall cid, is_Some (st.2 !! cid) -> keyed cid
}.

(** What a grant did to the codewords and the schedule: nothing, and then a flag is cleared, or
    the node has its codeword now and the connection its entry. *)
Definition granted (s s' : LteSchedulerEnb) (cid : Z) (f : Flags) : Prop :=
  let nodeId := MacCidToNodeId cid in
  (allocatedCws_ s' = allocatedCws_ s /\ se_scheduleList_ s' = se_scheduleList_ s /\
   (terminate f = true \/ active f = false \/ eligible f = false) /\ (0 < used_cws s nodeId -> terminate f = true)) \/
  (used_cws s nodeId = 0 /\ allocatedCws_ s' = <[nodeId := 1]> (allocatedCws_ s) /\
   exists n, se_scheduleList_ s' = <[(cid, 0) := n]> (se_scheduleList_ s)).

Lemma grant_direction_known cid : grant_direction dir0 (MacCidToLcid cid) <> UNKNOWN_DIRECTION.
Proof. unfold grant_direction. destruct Hdir0 as [->| ->]; repeat case_match; done. Qed.

(** Nothing but the allocator changes before a node is refused. *)
Lemma sched_inv_touch st macro a lims :
  sched_inv st -> (dir0 = UL -> sum_map id (se_scheduleList_ st.1) + lost = allocatedRbs macro) -> alloc_ok a macro -> totalRbs macro = rbs -> lims = [] \/ lims = all_bands ->
  sched_inv (st.1 <| emptyBandLim_ := lims |> <| allocator_ := a |>, st.2).
Proof. intros [H1 H2 H3 H4 H5 H6 H7] Hs Ha Ht Hl. split; try done. by exists macro. Qed.

Lemma sum_list_put m (k : Z * Z) n total :
  map_Forall (fun _ n => 0 <= n) m -> sum_map id m + n <= total -> total < 2 ^ 31 -> 0 <= n ->
  sum_map id (<[k := uint32 (default 0 (m !! k) + n)]> m) = sum_map id m + n /\
  map_Forall (fun _ n => 0 <= n) (<[k := uint32 (default 0 (m !! k) + n)]> m).
Proof.
  intros Hm Ht Hb Hn. assert (Hk : 0 <= default 0 (m !! k) <= sum_map id m).
  { destruct (m !! k) as [x|] eqn:E; cbn; [|split; [lia|by apply sum_map_nonneg]]. split; [exact (Hm _ _ E)|].
    exact (sum_map_lookup id _ _ _ Hm E). }
  rewrite (wrap_small 32) by (unfold is_uint; lia). split.
  - rewrite sum_map_insert. destruct (m !! k); cbn; unfold id; lia.
  - apply map_Forall_insert_2; [lia|done].
Qed.

(** The steps before the bands: on the main plane nothing is paired and no antenna is added. *)
Lemma grant_prologue s macro txParams nodeId dir :
  alloc_ok (allocator_ s) macro ->
  pair_users s txParams nodeId dir = Ok s /\ setRemoteAntenna (touch_ue (allocator_ s) nodeId) MAIN_PLANE MACRO = Ok (touch_ue (allocator_ s) nodeId).
Proof.
  intros Ha. unfold pair_users. rewrite Hmimo. split; [done|]. unfold setRemoteAntenna. cbn. by rewrite (al_planes _ _ Ha).
Qed.

Lemma tx_params cid : known cid -> getOmnetId amc_binder (MacCidToNodeId cid) <> 0 ->
  exists info, computeTxParams (MacCidToNodeId cid) (grant_direction dir0 (MacCidToLcid cid)) = Ok info.
Proof. intros Hk Hg. destruct (Hknown cid Hk Hg) as (info & E & _). by exists info. Qed.

(** The invariant after blocks have been taken, or none. *)
Lemma sched_inv_granted s s' bufs cid nodeId conn l macro macro' blocks dir :
  sched_inv (s, bufs) -> alloc_ok (allocator_ s) macro -> (dir0 = UL -> sum_map id (se_scheduleList_ s) + lost = allocatedRbs macro) ->
  alloc_ok (allocator_ s') macro' -> totalRbs macro' = rbs -> allocatedRbs macro' = allocatedRbs macro + blocks -> 0 <= blocks -> holds conn l ->
  (dir0 = UL -> dir <> DL) -> keyed cid ->
  s' = s <| allocator_ := allocator_ s' |> <| allocatedCws_ := allocatedCws_ s' |> <| se_scheduleList_ := se_scheduleList_ s' |> ->
  ((blocks = 0 /\ allocatedCws_ s' = allocatedCws_ s /\ se_scheduleList_ s' = se_scheduleList_ s) \/
   (allocatedCws_ s' = <[nodeId := 1]> (allocatedCws_ s) /\
    se_scheduleList_ s' = <[(cid, 0) := uint32 (default 0 (se_scheduleList_ s !! (cid, 0)) +
      match dir with DL => 1 | _ => blocks end)]> (se_scheduleList_ s))) ->
  sched_inv (s', <[cid := conn]> bufs).
Proof.
  intros [H1 H2 H3 H4 H5 H6 H7] Ha Hsum Ha' Etotal Egiven Hn Hl Hdir Hkey Eframe Hcase. cbn [fst snd] in *.
  pose proof (al_given _ _ Ha') as Hg'. pose proof (al_given _ _ Ha) as Hg.
  assert (Hput : dir0 = UL -> let n := match dir with DL => 1 | _ => blocks end in
    sum_map id (<[(cid, 0) := uint32 (default 0 (se_scheduleList_ s !! (cid, 0)) + n)]> (se_scheduleList_ s)) = sum_map id (se_scheduleList_ s) + blocks).
  { intros Eul n. assert (En : n = blocks) by (unfold n; specialize (Hdir Eul); by destruct dir). rewrite En.
    eapply sum_list_put; [done| |exact (proj2 Hg')|done]. specialize (Hsum Eul). lia. }
  split; cbn [fst snd].
  - by rewrite Eframe.
  - exists macro'. split; [done|]. split; [done|]. intros Eul. specialize (Hsum Eul). destruct Hcase as [(Eb & _ & ->)|(_ & ->)]; [lia|].
    rewrite (Hput Eul). lia.
  - destruct Hcase as [(_ & _ & ->)|(_ & ->)]; [done|]. apply map_Forall_insert_2; [|done]. by apply wrap_range.
  - intros k. unfold used_cws in *. destruct Hcase as [(_ & -> & _)|(-> & _)]; [done|].
    destruct (decide (nodeId = k)) as [->|Hk]; [by rewrite lookup_insert_eq|by rewrite lookup_insert_ne].
  - by rewrite Eframe.
  - intros c Hc. destruct (decide (c = cid)) as [->|Hne]; [rewrite lookup_insert_eq; by exists conn, l|].
    rewrite lookup_insert_ne by done. by apply H6.
  - intros c Hc. destruct (decide (c = cid)) as [->|Hne]; [done|]. rewrite lookup_insert_ne in Hc by done. by apply H7.
Qed.

(** What a grant does, by how it ends. *)
Lemma requestGrant_spec st cid bytes :
  sched_inv st -> known cid ->
  exists n f st', requestGrant check st cid bytes = Ok (n, f, st') /\ sched_inv st' /\ granted st.1 st'.1 cid f.
Proof.
  intros Hst Hk. unfold requestGrant, scheduleGrant. set (nodeId := MacCidToNodeId cid). set (flowId := MacCidToLcid cid).
  destruct st as [s bufs]. pose proof (si_dir _ Hst) as Edir. cbn [fst snd] in *.
  destruct (Z.eqb_spec (getOmnetId amc_binder nodeId) 0) as [|Hg].
  { cbn [rbind]. eexists _, _, _. split; [reflexivity|]. split; [done|]. left. cbn. auto. }
  rewrite Edir. destruct (tx_params cid Hk Hg) as [info Einfo]. fold nodeId flowId in Einfo. rewrite Einfo. cbn [rbind].
  destruct (si_alloc _ Hst) as (macro & Ha & Htot & Hsum). cbn [fst] in Ha, Hsum.
  set (lims := match emptyBandLim_ s with [] => s <| emptyBandLim_ := all_bands |> | _ => s end).
  assert (El : lims = s <| emptyBandLim_ := all_bands |>).
  { unfold lims. destruct (si_lims _ Hst) as [E|E]; cbn [fst] in E; rewrite E; [done|]. destruct all_bands eqn:Eb; [|by destruct s; cbn in *; subst].
    by destruct s; cbn in *; subst. }
  rewrite El. clear El lims. set (s1 := s <| emptyBandLim_ := all_bands |>). cbv beta zeta iota. change (emptyBandLim_ s1) with all_bands.
  assert (Ha1 : alloc_ok (allocator_ s1) macro) by done. destruct (grant_prologue s1 macro info nodeId (grant_direction dir0 flowId) Ha1) as [-> Eant].
  cbn [rbind getOFDMPlane]. rewrite (al_plane _ _ _ Ha1), Eant. cbn [rbind].
  pose proof (al_touch _ _ nodeId Ha1) as Ha2. destruct (al_total _ _ Ha2) as [-> _]. cbn [rbind].
  pose proof (sched_inv_touch (s, bufs) macro (touch_ue (allocator_ s1) nodeId) all_bands Hst Hsum Ha2 Htot (or_intror eq_refl)) as Hinv.
  cbn [fst snd] in Hinv. fold s1 in Hinv. set (s2 := s1 <| allocator_ := touch_ue (allocator_ s1) nodeId |>) in *.
  change (used_cws s2 nodeId) with (used_cws s nodeId). pose proof (si_cws _ Hst nodeId) as Hu. cbn [fst] in Hu.
  match goal with |- context [if ?b then _ else _] => destruct b end.
  { cbn [rbind]. eexists _, _, _. split; [reflexivity|]. split; [exact Hinv|]. left. cbn. auto. }
  destruct (Z.ltb_spec 0 (used_cws s nodeId)).
  { cbn [rbind]. eexists _, _, _. split; [reflexivity|]. split; [exact Hinv|]. left. cbn. auto. }
  destruct (Hcheck nodeId) as (free & cw & -> & Hcw). cbn [rbind].
  destruct (negb free || (numCodewords <=? cw)) eqn:Efree.
  { cbn [rbind]. eexists _, _, _. split; [reflexivity|]. split; [exact Hinv|]. left. split; [done|]. split; [done|]. split; [cbn; auto|fold nodeId; cbn [fst]; lia]. }
  apply orb_false_iff in Efree as [_ Ecw]. unfold numCodewords in *. zify_bool. replace cw with 0 by lia.
  destruct (si_bufs _ Hst cid Hk) as (conn & l & Econn & Hl). cbn [snd] in Econn. rewrite Econn.
  pose proof (ho_rep _ _ Hl) as (_ & _ & Eocc). pose proof (ho_bytes _ _ Hl). pose proof (total_nonneg _ (ho_sizes _ _ Hl)).
  destruct (Z.eqb_spec (queueOccupancy_ conn) 0) as [|Hocc].
  { cbn [rbind]. eexists _, _, _. split; [reflexivity|]. split; [exact Hinv|]. left. split; [done|]. split; [done|]. split; [cbn; auto|fold nodeId; cbn [fst]; lia]. }
  rewrite Eocc, (wrap_small 32) in Hocc by (unfold is_uint; lia). change (seqZ 0 (1 - 0)) with [0].
  destruct (grant_codeword_spec cid nodeId (grant_direction dir0 flowId) s2 conn l all_bands new_Flags macro)
    as (g & macro' & blocks & l' & -> & Ha' & Etotal & Egiven & Hn & Hl' & _ & Eterm & Eframe & Hcase);
    [by apply Hknown|apply grant_direction_known|exact Ha2|change (used_cws s nodeId = 0); lia|exact all_bands_open| |exact Hl|lia|].
  { unfold all_bands. rewrite length_map, length_seqZ. lia. }
  cbn [rbind]. eexists _, _, _. split; [reflexivity|]. split.
  - eapply (sched_inv_granted s2 (gs_sched g) bufs cid nodeId _ l' macro macro' blocks (grant_direction dir0 flowId));
      [exact Hinv|exact Ha2|exact Hsum|exact Ha'|congruence|exact Egiven|exact Hn|exact Hl'| |by apply Hkeyed|exact Eframe|].
    + intros ->. unfold grant_direction. by repeat case_match.
    + destruct Hcase as [(_ & Hc1 & Hc2 & Hc3)|Hc1]; [by left|by right].
  - destruct Hcase as [(He & _ & Ec & El)|(Ec & El)]; [left|right]; cbn [fst].
    + split; [done|]. split; [done|]. split; [auto|fold nodeId; lia].
    + fold nodeId. split; [change (used_cws s nodeId = 0); lia|]. split; [done|]. eexists. exact El.
Qed.

(** A node is busy when it has its codeword. *)
Definition node_busy (st : LteSchedulerEnb * gmap Z LteMacBuffer) (k : Z) : bool := 0 <? used_cws st.1 k.

(** The scheduler keeps what the disciplines rely on. *)
Lemma enb_grant_laws : GrantLaws (requestGrant check) sched_inv known node_busy.
Proof.
  split. intros st cid bytes Hst Hk. destruct (requestGrant_spec st cid bytes Hst Hk) as (n & f & st' & E & Hst' & Hg).
  exists n, f, st'. split; [done|]. split; [done|]. unfold node_busy, used_cws in *.
  destruct Hg as [(Ec & _ & Hf & Hb)|(Hu & Ec & _)]; unfold used_cws in *; rewrite Ec.
  - split_and!; [intros Hlt; apply Hb; lia|destruct Hf as [Hf|[Hf|Hf]]; congruence|done].
  - split_and!; [rewrite Hu; done|intros; by rewrite lookup_insert_eq|].
    intros k Hk'. destruct (decide (k = MacCidToNodeId cid)) as [->|Hne]; [by rewrite lookup_insert_eq|by rewrite lookup_insert_ne].
Qed.
End Grants.
