(* ===== verification/SchedulerEnbUl.v ===== *)
(** * The uplink scheduler of an eNB

    [LteSchedulerEnbUl] (src/simulte/src/stack/mac/scheduler/LteSchedulerEnbUl.cc): the H-ARQ process
    of the TTI of each UE, random access, retransmissions and the schedule of a TTI with the
    deficit round robin.  The H-ARQ buffers and the buffers of the buffer status reports
    belong to the MAC layer.  The MAC layer is [LteMacEnb], which is not capable of D2D. *)

From S2P Require Import Prelude.
From S2P Require Import LteCommon.
From S2P Require Import LteBinder.
From S2P Require Import MacQueue.
From S2P Require Import HarqTx.
From S2P Require Import HarqRx.
From S2P Require Import Allocation.
From S2P Require Import Amc.
From S2P Require Import SchedulerEnb.
From S2P Require Import CircularList.
From S2P Require Import Drr.
#[local] Open Scope Z_scope.

Definition SHORT_BSR : Z := 0.

Record LteSchedulerEnbUl := {
  ul_enb : LteSchedulerEnb;
  harqStatus_ : gmap Z Z;
  racStatus_ : gmap Z bool
}.

#[export] Instance schedulerenbul_eta : Eta LteSchedulerEnbUl := fun u =>
  {| ul_enb := ul_enb u; harqStatus_ := harqStatus_ u; racStatus_ := racStatus_ u |}.

Definition new_LteSchedulerEnbUl : LteSchedulerEnbUl :=
  {| ul_enb := new_LteSchedulerEnb UL; harqStatus_ := ∅; racStatus_ := ∅ |}.

Definition signalRac (u : LteSchedulerEnbUl) (nodeId : Z) : LteSchedulerEnbUl := u <| racStatus_ := <[nodeId := true]> (racStatus_ u) |>.

Definition removePendingRac (u : LteSchedulerEnbUl) (nodeId : Z) : LteSchedulerEnbUl := u <| racStatus_ := delete nodeId (racStatus_ u) |>.

Definition initHarqStatus (u : LteSchedulerEnbUl) (id acid : Z) : LteSchedulerEnbUl := u <| harqStatus_ := <[id := acid]> (harqStatus_ u) |>.

(** ** H-ARQ processes *)

(** [map::at]. *)
Definition map_at {A} (m : gmap Z A) (k : Z) : result A := match m !! k with Some x => Ok x | None => Throw "map::at" end.

(** [for (; cw < MAX_CODEWORDS; ++cw)]. *)
Fixpoint first_empty (n : nat) (status : list (Z * RxHarqPduStatus)) (cw : Z) : result (bool * Z) :=
  match n with
  | O => Ok (false, cw)
  | S n =>
      if cw <? MAX_CODEWORDS then
        let! st := vec_at status cw in
        if bool_decide (st.2 = RXHARQ_PDU_EMPTY) then Ok (true, cw) else first_empty n status (uint16 (cw + 1))
      else Ok (false, cw)
  end.

Definition ul_checkEligibility (rx : gmap Z LteHarqBufferRx) (harqStatus : gmap Z Z) (id cw : Z) : result (bool * Z) :=
  match rx !! id with
  | None => Ok (false, cw)
  | Some ulHarq =>
      let! currentAcid := map_at harqStatus id in
      let! p := rx_proc_at ulHarq currentAcid in
      let! status := rx_getProcessStatus p in
      first_empty (Z.to_nat MAX_CODEWORDS) status cw
  end.

(** The process of a UE in this TTI. *)
Definition harq_advance (harqStatus : gmap Z Z) (id : Z) (buf : LteHarqBufferRx) : result (gmap Z Z) :=
  match harqStatus !! id with
  | Some st => if numHarqProcesses_ buf =? 0 then UB else Ok (<[id := uint8 ((st + 1) mod numHarqProcesses_ buf)]> harqStatus)
  | None => Ok (<[id := 0]> harqStatus)
  end.

Fixpoint harq_advance_all (harqStatus : gmap Z Z) (rx : gmap Z LteHarqBufferRx) (ids : list Z) : result (gmap Z Z) :=
  match ids with
  | [] => Ok harqStatus
  | id :: ids' =>
      let! buf := of_option (rx !! id) in
      let! harqStatus := harq_advance harqStatus id buf in
      harq_advance_all harqStatus rx ids'
  end.

Definition updateHarqDescs (u : LteSchedulerEnbUl) (rx : gmap Z LteHarqBufferRx) : result LteSchedulerEnbUl :=
  let! harqStatus := harq_advance_all (harqStatus_ u) rx (ascending rx) in Ok (u <| harqStatus_ := harqStatus |>).

Section Uplink.
Context `{Amc} `{Cell}.

(** ** Random access *)

(** One block of the first band that has one and on which the UE can use it. *)
Fixpoint rac_bands (s : LteSchedulerEnb) (nodeId : Z) (bands : list Z) : result (bool * LteSchedulerEnb) :=
  match bands with
  | [] => Ok (false, s)
  | b :: bands' =>
      let! (n, a) := availableBlocks_on (allocator_ s) nodeId MACRO b in
      let s := s <| allocator_ := a |> in
      if 0 <? n then
        let! bytes := amc_computeBytesOnNRbs nodeId b 0 1 UL in
        if 0 <? bytes then
          let! (_, a) := addBlocks_on (allocator_ s) MACRO b nodeId 1 bytes in
          Ok (true, s <| allocator_ := a |>)
        else rac_bands s nodeId bands'
      else rac_bands s nodeId bands'
  end.

Fixpoint rac_nodes (s : LteSchedulerEnb) (nodes : list Z) : result LteSchedulerEnb :=
  match nodes with
  | [] => Ok s
  | nodeId :: nodes' =>
      let! (allocation, s) := rac_bands s nodeId (seqZ 0 cell_numBands) in
      let s := if allocation : bool then s <| se_scheduleList_ := <[(idToMacCid nodeId SHORT_BSR, 0) := 1]> (se_scheduleList_ s) |> else s in
      rac_nodes s nodes'
  end.

(** Whether no block is left. *)
Definition racschedule (u : LteSchedulerEnbUl) : result (bool * LteSchedulerEnbUl) :=
  let! s := rac_nodes (ul_enb u) (ascending (racStatus_ u)) in
  let! total := computeTotalRbs (allocator_ s) in
  Ok (total =? 0, u <| ul_enb := s |> <| racStatus_ := ∅ |>).

(** ** Retransmissions *)

(** The bands without limits, as a retransmission makes them. *)
Definition rtx_bands : list BandLimit := map new_BandLimit (seqZ 0 cell_numBands).

(** The bytes of a PDU over the bands: the band, blocks and bytes of each that was visited,
    and what is left to serve. *)
Fixpoint rtx_share (s : LteSchedulerEnb) (nodeId antenna cw toServe : Z) (bandLim : list BandLimit)
    : result (list (Z * Z * Z) * Z * LteSchedulerEnb) :=
  match bandLim with
  | [] => Ok ([], toServe, s)
  | e :: bandLim' =>
      let! limit := vat (limit_ e) cw in
      let! (available, s) := availableBytes s nodeId antenna (band_ e) cw (se_direction_ s) (-1) in
      let available := if 0 <=? limit then uint32 (if limit <? int32 available then limit else available) else available in
      let finish := negb (available <? toServe) in
      let servedBytes := if finish then toServe else available in
      let! servedBlocks := computeReqRbs nodeId (band_ e) cw servedBytes (se_direction_ s) in
      let toServe := uint32 (toServe - servedBytes) in
      if finish : bool then Ok ([(band_ e, servedBlocks, servedBytes)], toServe, s) else
      let! (rest, toServe, s) := rtx_share s nodeId antenna cw toServe bandLim' in
      Ok ((band_ e, servedBlocks, servedBytes) :: rest, toServe, s)
  end.

(** What was found is booked, unless a codeword that cannot be is already there. *)
Fixpoint rtx_book (s : LteSchedulerEnb) (nodeId antenna allocatedCw : Z) (assigned : list (Z * Z * Z)) (blocks : Z) : result (Z * LteSchedulerEnb) :=
  match assigned with
  | [] => Ok (blocks, s)
  | (b, n, bytes) :: assigned' =>
      let! s :=
        if negb (allocatedCw =? MAX_CODEWORDS) then
          let! (_, a) := addBlocks_on (allocator_ s) antenna b nodeId n bytes in Ok (s <| allocator_ := a |>)
        else Ok s in
      rtx_book s nodeId antenna allocatedCw assigned' (uint32 (blocks + n))
  end.

Definition rtx_acid (u : LteSchedulerEnbUl) (nodeId : Z) (buf : LteHarqBufferRx) : result Z :=
  let! st := map_at (harqStatus_ u) nodeId in
  if numHarqProcesses_ buf =? 0 then UB else Ok (uint8 ((st + 2) mod numHarqProcesses_ buf)).

(** As [rtxschedule] calls it: all bands, the main antenna; the process is computed anew. *)
Definition schedulePerAcidRtx (u : LteSchedulerEnbUl) (rx : gmap Z LteHarqBufferRx) (nodeId cw : Z) : result (Z * LteSchedulerEnbUl) :=
  let! buf := map_at rx nodeId in
  let! acid := rtx_acid u nodeId buf in
  let! p := rx_proc_at buf acid in
  let! st := rx_getUnitStatus p cw in
  if negb (bool_decide (st = RXHARQ_PDU_CORRUPTED)) then Ok (0, u) else
  let s := ul_enb u in
  let cid := idToMacCid nodeId SHORT_BSR in
  let allocatedCw := match se_scheduleList_ s !! (cid, uint16 (MAX_CODEWORDS - cw - 1)) with Some _ => uint16 (MAX_CODEWORDS - cw - 1) | None => 0 end in
  let! pduLength := rx_getByteLength p cw in
  let bytes := uint32 pduLength in
  let! (assigned, toServe, s) := rtx_share s nodeId MACRO cw bytes rtx_bands in
  if 0 <? toServe then Ok (0, u <| ul_enb := s |>) else
  let! (blocks, s) := rtx_book s nodeId MACRO allocatedCw assigned 0 in
  let used := match allocatedCws_ s !! nodeId with Some n => uint32 (n + 1) | None => 1 end in
  Ok (bytes, u <| ul_enb := s <| se_scheduleList_ := <[(cid, cw) := blocks]> (se_scheduleList_ s) |>
                             <| allocatedCws_ := <[nodeId := used]> (allocatedCws_ s) |> |>).

(** [for(cw = 0; (cw < MAX_CODEWORDS) && (codewords>0); ++cw)]. *)
Fixpoint rtx_codewords (u : LteSchedulerEnbUl) (rx : gmap Z LteHarqBufferRx) (nodeId : Z) (cws : list Z) (codewords : Z) : result LteSchedulerEnbUl :=
  match cws with
  | [] => Ok u
  | cw :: cws' =>
      if codewords <=? 0 then Ok u else
      let! (rtxBytes, u) := schedulePerAcidRtx u rx nodeId cw in
      rtx_codewords u rx nodeId cws' (if 0 <? rtxBytes then codewords - 1 else codewords)
  end.

(** The buffer of a node that is gone is erased under the iterator. *)
Fixpoint rtx_nodes (u : LteSchedulerEnbUl) (rx : gmap Z LteHarqBufferRx) (nodes : list Z) : result LteSchedulerEnbUl :=
  match nodes with
  | [] => Ok u
  | nodeId :: nodes' =>
      if (nodeId =? 0) || (getOmnetId amc_binder nodeId =? 0) then UB else
      let! buf := of_option (rx !! nodeId) in
      let! acid := rtx_acid u nodeId buf in
      let! p := rx_proc_at buf acid in
      let! status := rx_getProcessStatus p in
      if negb (existsb (fun st => bool_decide (st.2 = RXHARQ_PDU_CORRUPTED)) status) then rtx_nodes u rx nodes' else
      let! txParams := computeTxParams nodeId (se_direction_ (ul_enb u)) in
      let! u := rtx_codewords u rx nodeId (seqZ 0 MAX_CODEWORDS) (vsize (getLayers txParams)) in
      rtx_nodes u rx nodes'
  end.

Definition rtxschedule (u : LteSchedulerEnbUl) (rx : gmap Z LteHarqBufferRx) : result (bool * LteSchedulerEnbUl) :=
  let! (full, u) := racschedule u in
  if full : bool then Ok (true, u) else
  catch (let! u := rtx_nodes u rx (ascending rx) in
         let! total := computeTotalRbs (allocator_ (ul_enb u)) in
         Ok (total =? 0, u))
    (Throw "Exception in LteSchedulerEnbUl::rtxschedule()").

(** ** A TTI *)

(** The bytes of each connection asked for: none is a limit. *)
Definition ul_grant (rx : gmap Z LteHarqBufferRx) (harqStatus : gmap Z Z) := requestGrant (ul_checkEligibility rx harqStatus).

(** [schedule], under the deficit round robin. *)
Definition enb_schedule_ul (rx : gmap Z LteHarqBufferRx) (d : LteDrr) (u : LteSchedulerEnbUl) (bsrbuf : gmap Z LteMacBuffer)
    : result (LteDrr * LteSchedulerEnbUl * gmap Z LteMacBuffer) :=
  let u := u <| ul_enb := clear_schedule (ul_enb u) |> in
  let! (full, u) := rtxschedule u rx in
  if full : bool then Ok (d, u, bsrbuf) else
  let! d := drr_updateSchedulingInfo d (se_direction_ (ul_enb u)) (used_cws (ul_enb u)) bsrbuf in
  let! (d, st) := drr_schedule (ul_grant rx (harqStatus_ u)) amc_binder d (ul_enb u, bsrbuf) in
  Ok (d, u <| ul_enb := st.1 |>, st.2).

(** The uplink of the main loop of the MAC layer, up to the grants. *)
Definition enb_uplink (numRbUl : Z) (rx : gmap Z LteHarqBufferRx) (d : LteDrr) (u : LteSchedulerEnbUl) (bsrbuf : gmap Z LteMacBuffer)
    : result (LteDrr * LteSchedulerEnbUl * gmap Z LteMacBuffer) :=
  let u := u <| ul_enb := (ul_enb u) <| resourceBlocks_ := numRbUl |> |> in
  let! u := updateHarqDescs u rx in
  enb_schedule_ul rx d u bsrbuf.
End Uplink.

(** [LteSchedulerEnb::backlog]. *)
Definition enb_backlog (d : LteDrr) (cid : Z) : LteDrr := if cid =? 1 then d else drr_notifyActiveConnection d cid.
