(* ===== verification/SchedulerEnbUlProps.v ===== *)
(** * The uplink scheduler of an eNB: properties

    A TTI of the uplink: the H-ARQ processes, random access, retransmissions and the deficit
    round robin run without error, and the blocks of the schedule are blocks of the cell. *)

From stdpp Require Import sorting.
From S2P Require Import Prelude.
From S2P Require Import LteCommon.
From S2P Require Import LteBinder.
From S2P Require Import MacQueue.
From S2P Require Import LcgProps.
From S2P Require Import HarqTx.
From S2P Require Import HarqRx.
From S2P Require Import Allocation.
From S2P Require Import AllocationProps.
From S2P Require Import Amc.
From S2P Require Import CircularList.
From S2P Require Import SchedulerEnb.
From S2P Require Import Drr.
From S2P Require Import SchedulerEnbProps.
From S2P Require Import SchedulerEnbUl.
#[local] Open Scope Z_scope.

(** ** The H-ARQ buffers *)

(** Units of one codeword; a corrupted one holds a PDU. *)
Definition process_ready (p : LteHarqProcessRx) : Prop :=
  exists st0 st1, rx_status_ p = [st0; st1] /\ st1 <> RXHARQ_PDU_CORRUPTED /\
    (st0 = RXHARQ_PDU_CORRUPTED -> exists pkt rest, rx_pdu_ p = Some pkt :: rest /\ 0 < pkt_getByteLength pkt < 2 ^ 29).

Record buffer_ready (buf : LteHarqBufferRx) : Prop := {
  br_count : 0 < numHarqProcesses_ buf <= 256;
  br_size : vsize (rx_processes_ buf) = numHarqProcesses_ buf;
  br_units : Forall process_ready (rx_processes_ buf)
}.

(** The process of each UE is one it has. *)
Definition in_turn (harqStatus : gmap Z Z) (id : Z) (buf : LteHarqBufferRx) : Prop :=
  exists st, harqStatus !! id = Some st /\ 0 <= st < numHarqProcesses_ buf.

Lemma ascending_NoDup {A} (m : gmap Z A) : NoDup (ascending m).
Proof. unfold ascending. rewrite merge_sort_Permutation. apply NoDup_elements. Qed.

Lemma ready_process buf i : buffer_ready buf -> 0 <= i < numHarqProcesses_ buf -> exists p, rx_proc_at buf i = Ok p /\ process_ready p.
Proof.
  intros [Hc Hs Hu] Hi. destruct (vget_is_Some (rx_processes_ buf) i) as [p Hp]; [lia|]. exists p. unfold rx_proc_at. rewrite Hp. split; [done|].
  exact (vget_Forall _ _ _ _ Hu Hp).
Qed.

Lemma harq_advance_ok harqStatus id buf :
  0 < numHarqProcesses_ buf <= 256 -> exists st, harq_advance harqStatus id buf = Ok (<[id := st]> harqStatus) /\ 0 <= st < numHarqProcesses_ buf.
Proof.
  intros Hn. unfold harq_advance. destruct (harqStatus !! id) as [st|]; [|exists 0; split; [done|lia]].
  rewrite (proj2 (Z.eqb_neq _ _)) by lia. pose proof (Z.mod_pos_bound (st + 1) (numHarqProcesses_ buf)).
  eexists; split; [reflexivity|]. rewrite (wrap_small 8) by (unfold is_uint; lia). lia.
Qed.

Lemma harq_advance_all_ok rx ids : forall harqStatus,
  Forall (fun id => exists buf, rx !! id = Some buf /\ 0 < numHarqProcesses_ buf <= 256) ids -> NoDup ids ->
  exists harqStatus', harq_advance_all harqStatus rx ids = Ok harqStatus' /\
    (forall id buf, id ∈ ids -> rx !! id = Some buf -> in_turn harqStatus' id buf) /\
    (forall id, id ∉ ids -> harqStatus' !! id = harqStatus !! id).
Proof.
  induction ids as [|id ids IH]; intros harqStatus Hids Hd; cbn [harq_advance_all].
  { exists harqStatus. split; [done|]. split; [intros id buf Hin; by apply elem_of_nil in Hin|done]. }
  apply Forall_cons in Hids as [(buf & Hbuf & Hn) Hids]. apply NoDup_cons in Hd as [Hni Hd].
  rewrite Hbuf; cbn [of_option rbind]. destruct (harq_advance_ok harqStatus id buf Hn) as (st & -> & Hst). cbn [rbind].
  destruct (IH (<[id := st]> harqStatus) Hids Hd) as (hs & -> & H1 & H2). exists hs. split; [done|]. split.
  - intros k b [->|Hin]%elem_of_cons Hb; [|by apply H1]. exists st. rewrite (H2 id Hni), lookup_insert_eq. by simplify_eq.
  - intros k [Hne Hk]%not_elem_of_cons. rewrite (H2 k Hk). by rewrite lookup_insert_ne.
Qed.

Lemma updateHarqDescs_ok u rx :
  map_Forall (fun _ => buffer_ready) rx ->
  exists harqStatus, updateHarqDescs u rx = Ok (u <| harqStatus_ := harqStatus |>) /\ map_Forall (in_turn harqStatus) rx.
Proof.
  intros Hrx. unfold updateHarqDescs.
  destruct (harq_advance_all_ok rx (ascending rx) (harqStatus_ u)) as (hs & -> & H1 & _).
  - apply Forall_forall. intros id [buf Hb]%elem_of_ascending. exists buf. split; [done|]. exact (br_count _ (Hrx _ _ Hb)).
  - apply ascending_NoDup.
  - exists hs. split; [done|]. intros id buf Hb. apply (H1 id buf); [|done]. apply elem_of_ascending. by exists buf.
Qed.

(** Whether a codeword is free is always answered. *)
Lemma ul_eligible rx harqStatus id :
  map_Forall (fun _ => buffer_ready) rx -> map_Forall (in_turn harqStatus) rx ->
  exists b cw, ul_checkEligibility rx harqStatus id 0 = Ok (b, cw) /\ 0 <= cw.
Proof.
  intros Hrx Hhs. unfold ul_checkEligibility. destruct (rx !! id) as [buf|] eqn:E; [|by exists false, 0].
  destruct (Hhs _ _ E) as (st & Hst & Hi). unfold map_at. rewrite Hst. cbn [rbind].
  destruct (ready_process buf st (Hrx _ _ E) Hi) as (p & -> & st0 & st1 & Hs & _). cbn [rbind].
  unfold rx_getProcessStatus. change (Z.to_nat MAX_CODEWORDS) with 2%nat. cbn [rx_status_from]. unfold rx_getUnitStatus. rewrite !Hs.
  destruct st0, st1; eexists _, _; (split; [vm_compute; reflexivity|done]).
Qed.

(** ** Random access *)

Section Uplink.
Context `{Amc} `{Cell}.
Context (Hdl : scaled dlMcsTable_) (Hul : scaled ulMcsTable_) (Hmimo : cell_muMimo = false) (Hmany : 0 < cell_numBands < 2 ^ 14).

(** Blocks for bytes on a band. *)
Lemma al_add_blocks a macro k b blocks bytes :
  alloc_ok a macro -> 0 <= b < cell_numBands -> 0 <= blocks <= free macro b -> 0 < bytes ->
  exists a', addBlocks_on a MACRO b k blocks bytes = Ok (true, a') /\ alloc_ok a' (antenna_add macro b k blocks bytes) /\
    allocatedRbs (antenna_add macro b k blocks bytes) = allocatedRbs macro + blocks.
Proof.
  intros Ha Hb Hn Hby. destruct (al_add a macro k b blocks bytes Ha Hb Hn Hby) as (a' & E & Ha'). exists a'. split; [done|]. split; [done|].
  by eapply al_add_given.
Qed.

Lemma rac_bands_ok nodeId bands : forall s macro,
  tx_ok nodeId UL -> alloc_ok (allocator_ s) macro -> Forall (fun b => 0 <= b < cell_numBands) bands ->
  exists r s' macro', rac_bands s nodeId bands = Ok (r, s') /\ alloc_ok (allocator_ s') macro' /\
    allocatedRbs macro' = allocatedRbs macro + Z.b2z r /\ totalRbs macro' = totalRbs macro /\ s' = s <| allocator_ := allocator_ s' |>.
Proof.
  induction bands as [|b bands IH]; intros s macro Htx Ha Hb; cbn [rac_bands].
  { exists false, s, macro. split_and!; [done|done|cbn; lia|done|by destruct s]. }
  apply Forall_cons in Hb as [Hb Hbands]. rewrite (al_available _ _ nodeId b Ha). cbn [rbind].
  set (s1 := s <| allocator_ := touch_ue (allocator_ s) nodeId |>). assert (Ha1 : alloc_ok (allocator_ s1) macro) by (by apply al_touch).
  assert (Hnext : exists r s' macro', rac_bands s1 nodeId bands = Ok (r, s') /\ alloc_ok (allocator_ s') macro' /\
    allocatedRbs macro' = allocatedRbs macro + Z.b2z r /\ totalRbs macro' = totalRbs macro /\ s' = s <| allocator_ := allocator_ s' |>).
  { destruct (IH s1 macro Htx Ha1 Hbands) as (r & s' & macro' & E & A1 & A2 & A3 & A4). exists r, s', macro'. by split_and!. }
  destruct (Z.ltb_spec 0 (free macro b)); [|done].
  destruct (bytes_on Hdl Hul nodeId b 1 UL Htx) as (carried & -> & Hc & _); [done|lia|]. cbn [rbind].
  destruct (Z.ltb_spec 0 carried); [|done].
  destruct (al_add_blocks _ _ nodeId b 1 carried Ha1 Hb) as (a' & -> & Ha' & Eg); [lia|done|]. cbn [rbind].
  exists true, (s1 <| allocator_ := a' |>), (antenna_add macro b nodeId 1 carried). split_and!; done.
Qed.

(** The keys of a schedule of first codewords. *)
Definition rac_key (nodeId : Z) : Z * Z := (idToMacCid nodeId SHORT_BSR, 0).

Lemma rac_key_inj n n' : is_uint 16 n -> is_uint 16 n' -> rac_key n = rac_key n' -> n = n'.
Proof. intros Hn Hn' [= E]. by apply idToMacCid_inj in E as [E _]. Qed.

Lemma sum_list_set (m : gmap (Z * Z) Z) k n : sum_map id (<[k := n]> m) = sum_map id m + n - default 0 (m !! k).
Proof. rewrite sum_map_insert. destruct (m !! k); cbn; unfold id; lia. Qed.

Lemma rac_nodes_ok nodes : forall s macro,
  Forall (fun n => is_uint 16 n /\ tx_ok n UL) nodes -> NoDup nodes -> alloc_ok (allocator_ s) macro ->
  sum_map id (se_scheduleList_ s) = allocatedRbs macro -> map_Forall (fun _ n => 0 <= n) (se_scheduleList_ s) ->
  Forall (fun n => se_scheduleList_ s !! rac_key n = None) nodes ->
  exists s' macro', rac_nodes s nodes = Ok s' /\ alloc_ok (allocator_ s') macro' /\ sum_map id (se_scheduleList_ s') = allocatedRbs macro' /\
    map_Forall (fun _ n => 0 <= n) (se_scheduleList_ s') /\ totalRbs macro' = totalRbs macro /\ (nodes = [] -> s' = s) /\
    s' = s <| allocator_ := allocator_ s' |> <| se_scheduleList_ := se_scheduleList_ s' |>.
Proof.
  induction nodes as [|node nodes IH]; intros s macro Hn Hd Ha Hs Hp Hf; cbn [rac_nodes].
  { exists s, macro. split_and!; try done. by destruct s. }
  apply Forall_cons in Hn as [[Hu Htx] Hn]. apply NoDup_cons in Hd as [Hni Hd]. apply Forall_cons in Hf as [Hf1 Hf].
  destruct (rac_bands_ok node (seqZ 0 cell_numBands) s macro Htx Ha) as (r & s1 & macro1 & -> & Ha1 & Eg & Et & E1).
  { apply Forall_forall. intros b Hb%elem_of_seqZ. lia. }
  cbn [rbind]. set (s2 := if r then _ else s1).
  assert (E2 : s2 = s1 <| se_scheduleList_ := se_scheduleList_ s2 |>) by (unfold s2; destruct r; by destruct s1).
  assert (El : se_scheduleList_ s1 = se_scheduleList_ s) by (by rewrite E1).
  destruct (IH s2 macro1) as (s' & macro' & E & A1 & A2 & A3 & A4 & _ & A5); try done.
  - by rewrite E2.
  - unfold s2. destruct r; cbn [se_scheduleList_ set Z.b2z] in *; [|rewrite El; lia]. rewrite sum_list_set, El, Hs.
    unfold rac_key in Hf1. rewrite Hf1. cbn. lia.
  - unfold s2. destruct r; cbn; rewrite El; [|done]. apply map_Forall_insert_2; [lia|done].
  - apply Forall_forall. intros n Hin. rewrite Forall_forall in Hn, Hf. destruct (Hn n Hin) as [Hun _].
    unfold s2. destruct r; cbn; rewrite El; [|by apply Hf]. rewrite lookup_insert_ne; [by apply Hf|].
    intros Ek. apply Hni. by rewrite (rac_key_inj node n Hu Hun Ek).
  - exists s', macro'. split_and!; try done; [by rewrite A4|]. rewrite A5, E2, E1. by destruct s.
Qed.

Lemma racschedule_ok u macro :
  map_Forall (fun n _ => is_uint 16 n /\ tx_ok n UL) (racStatus_ u) -> alloc_ok (allocator_ (ul_enb u)) macro ->
  se_scheduleList_ (ul_enb u) = ∅ -> allocatedRbs macro = 0 ->
  exists r s' macro', racschedule u = Ok (r, u <| ul_enb := s' |> <| racStatus_ := ∅ |>) /\ alloc_ok (allocator_ s') macro' /\
    sum_map id (se_scheduleList_ s') = allocatedRbs macro' /\ map_Forall (fun _ n => 0 <= n) (se_scheduleList_ s') /\
    totalRbs macro' = totalRbs macro /\ (racStatus_ u = ∅ -> se_scheduleList_ s' = ∅) /\
    s' = (ul_enb u) <| allocator_ := allocator_ s' |> <| se_scheduleList_ := se_scheduleList_ s' |>.
Proof.
  intros Hr Ha He Hz. unfold racschedule.
  destruct (rac_nodes_ok (ascending (racStatus_ u)) (ul_enb u) macro) as (s' & macro' & -> & A1 & A2 & A3 & A4 & A5 & A6).
  - apply Forall_forall. intros n [b Hb]%elem_of_ascending. exact (Hr _ _ Hb).
  - apply ascending_NoDup.
  - done.
  - by rewrite He, sum_map_empty.
  - rewrite He. apply map_Forall_empty.
  - apply Forall_forall. intros n _. by rewrite He, lookup_empty.
  - cbn [rbind]. destruct (al_total _ _ A1) as [-> _]. cbn [rbind]. eexists _, s', macro'. split_and!; try done.
    intros Hnone. rewrite A5; [done|]. by rewrite Hnone.
Qed.

(** ** Retransmissions *)

Lemma available_bytes_ok s macro nodeId b dir :
  tx_ok nodeId dir -> dir <> UNKNOWN_DIRECTION -> alloc_ok (allocator_ s) macro ->
  exists carried, availableBytes s nodeId MACRO b 0 dir (-1) = Ok (carried, s <| allocator_ := touch_ue (allocator_ s) nodeId |>) /\
    0 <= carried < 2 ^ 17 /\
    (forall bytes, 0 < bytes <= carried -> exists k, computeReqRbs nodeId b 0 bytes dir = Ok k /\ 1 <= k <= free macro b).
Proof.
  intros Htx Hdir Ha. pose proof (free_range _ _ b Ha) as Hf.
  destruct (bytes_on Hdl Hul nodeId b (free macro b) dir Htx Hdir Hf) as (carried & E & Hc & Hreq). exists carried. split; [|done].
  unfold availableBytes. rewrite (al_available _ _ nodeId b Ha). cbn [rbind]. rewrite swrap_small by (unfold is_sint; lia).
  cbn [negb Z.eqb Pos.eqb]. rewrite andb_false_r, (wrap_small 32) by (unfold is_uint; lia). by rewrite E.
Qed.

(** What may be booked: the band, its blocks and the bytes they carry. *)
Definition slot_ok (macro : Antenna) (e : Z * Z * Z) : Prop :=
  let '(b, n, bytes) := e in 0 <= b < cell_numBands /\ 0 <= n <= free macro b /\ 0 <= bytes /\ (bytes = 0 -> n = 0).

Definition slot_band (e : Z * Z * Z) : Z := e.1.1.

Definition slot_blocks (l : list (Z * Z * Z)) : Z := foldr (fun e n => e.1.2 + n) 0 l.

Definition unlimited (e : BandLimit) : Prop := 0 <= band_ e < cell_numBands /\ vget (limit_ e) 0 = Some (-1).

Lemma rtx_share_ok nodeId lims : forall s macro toServe,
  tx_ok nodeId UL -> se_direction_ s = UL -> alloc_ok (allocator_ s) macro -> Forall unlimited lims -> NoDup (map band_ lims) ->
  0 <= toServe < 2 ^ 29 ->
  exists assigned left s', rtx_share s nodeId MACRO 0 toServe lims = Ok (assigned, left, s') /\ alloc_ok (allocator_ s') macro /\
    s' = s <| allocator_ := allocator_ s' |> /\ Forall (slot_ok macro) assigned /\ NoDup (map slot_band assigned) /\
    (forall b, b ∈ map slot_band assigned -> b ∈ map band_ lims).
Proof.
  induction lims as [|e lims IH]; intros s macro toServe Htx Hdir Ha Hl Hd Hs; cbn [rtx_share].
  { exists [], toServe, s. split_and!; [done|done|by destruct s|constructor|constructor|done]. }
  apply Forall_cons in Hl as [[Hb Hlim] Hl]. cbn [map] in Hd. apply NoDup_cons in Hd as [Hni Hd].
  unfold vat. rewrite Hlim. cbn [rbind]. rewrite Hdir.
  destruct (available_bytes_ok s macro nodeId (band_ e) UL Htx ltac:(done) Ha) as (carried & -> & Hc & Hreq). cbn [rbind].
  set (s1 := s <| allocator_ := touch_ue (allocator_ s) nodeId |>). change (se_direction_ s1) with (se_direction_ s). rewrite Hdir.
  change (0 <=? -1) with false. cbv iota zeta. set (served := if negb (carried <? toServe) then toServe else carried).
  assert (Hserved : 0 <= served <= carried /\ served <= toServe) by (unfold served; destruct (Z.ltb_spec carried toServe); cbn; lia).
  assert (Hk : exists k, computeReqRbs nodeId (band_ e) 0 served UL = Ok k /\ slot_ok macro (band_ e, k, served)).
  { destruct (decide (served = 0)) as [->|Hne].
    - exists 0. pose proof (free_range _ _ (band_ e) Ha). split; [done|]. split_and!; lia || done.
    - destruct (Hreq served) as (k & Ek & Hk); [lia|]. exists k. split; [done|]. split_and!; lia || done. }
  destruct Hk as (k & -> & Hslot). cbn [rbind]. rewrite (wrap_small 32) by (unfold is_uint; lia).
  destruct (carried <? toServe); cbn [negb].
  - destruct (IH s1 macro (toServe - served)) as (assigned & left & s' & -> & A1 & A2 & A3 & A4 & A5); try done; [by apply al_touch|lia|].
    cbn [rbind]. eexists _, left, s'. split; [reflexivity|]. split_and!; try done.
    + by constructor.
    + cbn [map]. constructor; [|done]. intros Hin. by apply Hni, A5.
    + cbn [map]. intros b [->|Hin]%elem_of_cons; [by left|right; by apply A5].
  - eexists _, _, s1. split; [reflexivity|]. split_and!; try done; [by apply al_touch|by apply Forall_singleton|by apply NoDup_singleton|].
    cbn [map]. intros b ->%list_elem_of_singleton. by left.
Qed.

Lemma free_other macro b k blocks bytes b' : b' <> b -> free (antenna_add macro b k blocks bytes) b' = free macro b'.
Proof. intros Hne. unfold free, band_of. cbn. by rewrite lookup_insert_ne. Qed.

Lemma add_nothing a macro k b :
  alloc_ok a macro -> 0 <= b < cell_numBands -> addBlocks_on a MACRO b k 0 0 = Ok (false, touch_ue a k).
Proof.
  intros Ha Hb. pose proof (free_range a macro b Ha) as Hfree. unfold addBlocks_on. rewrite (al_bands _ _ Ha), (proj2 (Z.leb_gt _ _)) by lia.
  cbn [getOFDMPlane]. rewrite (al_available _ _ k b (al_touch _ _ k Ha)). cbn [rbind]. rewrite !swrap_small by (unfold is_sint; lia).
  unfold int_of. rewrite (proj2 (Z.leb_le _ _)), (proj2 (Z.ltb_lt _ (2 ^ 31))) by lia. cbn [andb rbind].
  rewrite (proj2 (Z.ltb_ge _ _)) by lia. cbn. by rewrite touch_touch.
Qed.

Lemma rtx_book_ok nodeId cw assigned : forall s macro blocks,
  alloc_ok (allocator_ s) macro -> Forall (slot_ok macro) assigned -> NoDup (map slot_band assigned) -> cw <> MAX_CODEWORDS ->
  0 <= blocks <= allocatedRbs macro ->
  exists s' macro', rtx_book s nodeId MACRO cw assigned blocks = Ok (blocks + slot_blocks assigned, s') /\ alloc_ok (allocator_ s') macro' /\
    allocatedRbs macro' = allocatedRbs macro + slot_blocks assigned /\ totalRbs macro' = totalRbs macro /\ 0 <= slot_blocks assigned /\
    s' = s <| allocator_ := allocator_ s' |>.
Proof.
  induction assigned as [|[[b n] bytes] assigned IH]; intros s macro blocks Ha Hl Hd Hcw Hbl; cbn [rtx_book slot_blocks foldr].
  { exists s, macro. rewrite !Z.add_0_r. split_and!; try done. by destruct s. }
  apply Forall_cons in Hl as [(Hb & Hn & Hby & Hz) Hl]. cbn [map slot_band fst] in Hd. apply NoDup_cons in Hd as [Hni Hd].
  rewrite (proj2 (Z.eqb_neq _ _)) by done. cbn [negb fst snd]. fold (slot_blocks assigned).
  assert (Hstep : exists r a' macro', addBlocks_on (allocator_ s) MACRO b nodeId n bytes = Ok (r, a') /\ alloc_ok a' macro' /\
    allocatedRbs macro' = allocatedRbs macro + n /\ totalRbs macro' = totalRbs macro /\ (forall b', b' <> b -> free macro' b' = free macro b')).
  { destruct (decide (bytes = 0)) as [->|Hne].
    - rewrite (Hz eq_refl). exists false, (touch_ue (allocator_ s) nodeId), macro. split; [by eapply add_nothing|]. split; [by apply al_touch|]. split_and!; lia || done.
    - destruct (al_add_blocks _ _ nodeId b n bytes Ha Hb Hn) as (a' & E & Ha' & Eg); [lia|]. eexists true, a', _. split; [exact E|].
      split; [exact Ha'|]. split; [exact Eg|]. split; [done|]. intros b' Hb'. by apply free_other. }
  destruct Hstep as (r & a' & macro1 & -> & Ha' & Eg & Et & Hfree). cbn [rbind]. pose proof (al_given _ _ Ha') as [Hg Hg'].
  destruct (IH (s <| allocator_ := a' |>) macro1 (blocks + n)) as (s' & macro' & E & A1 & A2 & A3 & A4 & A5); try done.
  - apply Forall_forall. intros [[b1 n1] by1] Hin. rewrite Forall_forall in Hl. destruct (Hl _ Hin) as (L1 & L2 & L3 & L4).
    assert (b1 <> b) by (intros ->; apply Hni; exact (list_elem_of_fmap_2 slot_band _ _ Hin)).
    split; [done|]. by rewrite Hfree.
  - lia.
  - exists s', macro'. rewrite (wrap_small 32) by (unfold is_uint; lia). rewrite E. split_and!; [f_equal; f_equal; lia|done|lia|congruence|lia|done].
Qed.

(** The books of the schedule: its blocks and those lost are the blocks given. *)
Record books (s : LteSchedulerEnb) (macro : Antenna) (lost : Z) : Prop := {
  bo_dir : se_direction_ s = UL;
  bo_alloc : alloc_ok (allocator_ s) macro;
  bo_sum : sum_map id (se_scheduleList_ s) + lost = allocatedRbs macro;
  bo_list : map_Forall (fun _ n => 0 <= n) (se_scheduleList_ s);
  bo_cws : forall k, 0 <= used_cws s k;
  bo_lost : 0 <= lost
}.

(** What a retransmission may change. *)
Record rtx_step (u u' : LteSchedulerEnbUl) (nodeId : Z) (macro macro' : Antenna) (lost lost' : Z) : Prop := {
  rs_books : books (ul_enb u') macro' lost';
  rs_total : totalRbs macro' = totalRbs macro;
  rs_frame : u' = u <| ul_enb := (ul_enb u) <| allocator_ := allocator_ (ul_enb u') |> <| allocatedCws_ := allocatedCws_ (ul_enb u') |>
                                            <| se_scheduleList_ := se_scheduleList_ (ul_enb u') |> |>;
  rs_others : forall k, k <> rac_key nodeId -> se_scheduleList_ (ul_enb u') !! k = se_scheduleList_ (ul_enb u) !! k;
  rs_fresh : se_scheduleList_ (ul_enb u) !! rac_key nodeId = None -> lost' = lost
}.

Lemma rtx_step_none u nodeId macro lost : books (ul_enb u) macro lost -> rtx_step u u nodeId macro macro lost lost.
Proof. intros Hb. split; try done. by destruct u as [[] ? ?]. Qed.

Lemma used_cws_bump s nodeId :
  (forall k, 0 <= used_cws s k) ->
  forall k, 0 <= default 0 (<[nodeId := match allocatedCws_ s !! nodeId with Some n => uint32 (n + 1) | None => 1 end]> (allocatedCws_ s) !! k).
Proof.
  intros Hu k. destruct (decide (k = nodeId)) as [->|Hne]; [rewrite lookup_insert_eq; cbn|rewrite lookup_insert_ne by done; exact (Hu k)].
  destruct (allocatedCws_ s !! nodeId); [apply wrap_range|]; lia.
Qed.

Lemma mirror_codeword (m : gmap (Z * Z) Z) k cw : cw = 0 \/ cw = 1 ->
  (match m !! k with Some _ => uint16 (MAX_CODEWORDS - cw - 1) | None => 0 end) <> MAX_CODEWORDS.
Proof. intros [->| ->]; by destruct (m !! k). Qed.

Lemma rtx_bands_unlimited : Forall unlimited rtx_bands /\ NoDup (map band_ rtx_bands).
Proof.
  split.
  - apply Forall_forall. intros e [b [-> Hb%elem_of_seqZ]]%list_elem_of_fmap. split; [cbn; lia|done].
  - unfold rtx_bands. rewrite map_map. cbn. rewrite map_id. apply NoDup_seqZ.
Qed.

Section Buffers.
Context (rx : gmap Z LteHarqBufferRx) (harqStatus : gmap Z Z).
Context (Hrx : map_Forall (fun _ => buffer_ready) rx) (Hhs : map_Forall (in_turn harqStatus) rx).

(** The process that may be transmitted again. *)
Lemma rtx_process u nodeId buf :
  harqStatus_ u = harqStatus -> rx !! nodeId = Some buf ->
  exists acid p, rtx_acid u nodeId buf = Ok acid /\ rx_proc_at buf acid = Ok p /\ process_ready p.
Proof.
  intros Hu Hbuf. destruct (Hhs _ _ Hbuf) as (st & Hst & Hi). pose proof (br_count _ (Hrx _ _ Hbuf)) as Hn.
  pose proof (Z.mod_pos_bound (st + 2) (numHarqProcesses_ buf)) as Hm.
  destruct (ready_process buf ((st + 2) mod numHarqProcesses_ buf) (Hrx _ _ Hbuf)) as (p & Hp & Hr); [lia|].
  exists ((st + 2) mod numHarqProcesses_ buf), p. split; [|done]. unfold rtx_acid, map_at. rewrite Hu, Hst; cbn [rbind].
  rewrite (proj2 (Z.eqb_neq _ _)) by lia. rewrite (wrap_small 8); [done|]. unfold is_uint. lia.
Qed.

Lemma rtx_second_codeword u nodeId buf :
  harqStatus_ u = harqStatus -> rx !! nodeId = Some buf -> schedulePerAcidRtx u rx nodeId 1 = Ok (0, u).
Proof.
  intros Hu Hbuf. unfold schedulePerAcidRtx, map_at at 1. rewrite Hbuf. cbn [rbind].
  destruct (rtx_process u nodeId buf Hu Hbuf) as (acid & p & -> & Hp & st0 & st1 & Hs & Hne & _). cbn [rbind]. rewrite Hp. cbn [rbind].
  unfold rx_getUnitStatus. rewrite Hs. cbn [vec_at vget Z.leb Z.compare Z.to_nat Pos.to_nat Pos.iter_op Nat.add rbind].
  change (vec_at [st0; st1] 1) with (Ok st1). cbn [rbind]. by rewrite bool_decide_false.
Qed.

Lemma rtx_first_codeword u nodeId buf macro lost :
  harqStatus_ u = harqStatus -> rx !! nodeId = Some buf -> tx_ok nodeId UL -> books (ul_enb u) macro lost ->
  exists n u' macro' lost', schedulePerAcidRtx u rx nodeId 0 = Ok (n, u') /\ rtx_step u u' nodeId macro macro' lost lost'.
Proof.
  intros Hu Hbuf Htx Hb. unfold schedulePerAcidRtx, map_at at 1. rewrite Hbuf. cbn [rbind].
  destruct (rtx_process u nodeId buf Hu Hbuf) as (acid & p & -> & Hp & st0 & st1 & Hs & _ & Hpdu). cbn [rbind]. rewrite Hp. cbn [rbind].
  unfold rx_getUnitStatus. rewrite Hs. change (vec_at [st0; st1] 0) with (Ok st0). cbn [rbind].
  destruct (decide (st0 = RXHARQ_PDU_CORRUPTED)) as [->|Hne].
  2: { rewrite bool_decide_false by done. cbn [negb]. exists 0, u, macro, lost. split; [done|]. by apply rtx_step_none. }
  change (negb (bool_decide (RXHARQ_PDU_CORRUPTED = RXHARQ_PDU_CORRUPTED))) with false. cbv iota.
  destruct (Hpdu eq_refl) as (pkt & rest & Epdu & Hlen). unfold rx_getByteLength. rewrite Epdu.
  change (vec_at (Some pkt :: rest) 0) with (Ok (Some pkt)). cbn [rbind]. rewrite (wrap_small 32) by (unfold is_uint; lia).
  destruct Hb as [B1 B2 B3 B4 B5 B6]. destruct rtx_bands_unlimited as [Hlim Hdistinct].
  destruct (rtx_share_ok nodeId rtx_bands (ul_enb u) macro (pkt_getByteLength pkt)) as (assigned & left & s & -> & A1 & A2 & A3 & A4 & _); try done; [lia|].
  cbn [rbind]. destruct (Z.ltb_spec 0 left).
  { eexists 0, _, macro, lost. split; [reflexivity|]. split; [|done| | |done]; cbn; rewrite A2; cbn; [|by destruct u as [[] ? ?]|done].
    split; try done. }
  pose proof (al_given _ _ B2) as [Hg _].
  destruct (rtx_book_ok nodeId _ assigned s macro 0 A1 A3 A4 (mirror_codeword (se_scheduleList_ (ul_enb u)) (idToMacCid nodeId SHORT_BSR, uint16 (MAX_CODEWORDS - 0 - 1)) 0 (or_introl eq_refl)) ltac:(lia))
    as (s2 & macro2 & -> & C1 & C2 & C3 & C4 & C5). cbn [rbind].
  eexists _, _, macro2, (lost + default 0 (se_scheduleList_ (ul_enb u) !! rac_key nodeId)). split; [reflexivity|].
  assert (El : se_scheduleList_ s2 = se_scheduleList_ (ul_enb u)) by (by rewrite C5, A2).
  assert (Ec : allocatedCws_ s2 = allocatedCws_ (ul_enb u)) by (by rewrite C5, A2).
  assert (Hold : 0 <= default 0 (se_scheduleList_ (ul_enb u) !! rac_key nodeId)).
  { destruct (se_scheduleList_ (ul_enb u) !! rac_key nodeId) eqn:E; cbn; [exact (B4 _ _ E)|lia]. }
  split; cbn [ul_enb set].
  - split; cbn; rewrite ?El, ?Ec; try done.
    + by rewrite C5, A2.
    + rewrite sum_list_set. fold (rac_key nodeId). lia.
    + apply map_Forall_insert_2; [lia|done].
    + unfold used_cws. cbn. rewrite ?Ec. exact (used_cws_bump (ul_enb u) nodeId B5).
    + lia.
  - done.
  - cbn. rewrite El, Ec. rewrite C5, A2. by destruct u as [[] ? ?].
  - intros k Hk. cbn. rewrite El. by rewrite lookup_insert_ne by (intros E; by apply Hk).
  - intros ->. cbn. lia.
Qed.

(** The UEs with buffers are in the simulation. *)
Context (Hnodes : map_Forall (fun n _ => is_uint 16 n /\ n <> 0 /\ getOmnetId amc_binder n <> 0 /\ tx_ok n UL) rx).

Lemma rtx_codewords_ok u nodeId buf macro lost codewords :
  harqStatus_ u = harqStatus -> rx !! nodeId = Some buf -> tx_ok nodeId UL -> books (ul_enb u) macro lost ->
  exists u' macro' lost', rtx_codewords u rx nodeId (seqZ 0 MAX_CODEWORDS) codewords = Ok u' /\ rtx_step u u' nodeId macro macro' lost lost'.
Proof.
  intros Hu Hbuf Htx Hb. change (seqZ 0 MAX_CODEWORDS) with [0; 1]. cbn [rtx_codewords].
  destruct (codewords <=? 0); [exists u, macro, lost; split; [done|by apply rtx_step_none]|].
  destruct (rtx_first_codeword u nodeId buf macro lost Hu Hbuf Htx Hb) as (n & u' & macro' & lost' & -> & Hs). cbn [rbind].
  exists u', macro', lost'. split; [|done]. destruct (_ <=? 0); [done|].
  assert (Hu' : harqStatus_ u' = harqStatus) by (rewrite (rs_frame _ _ _ _ _ _ _ Hs); done).
  by rewrite (rtx_second_codeword u' nodeId buf Hu' Hbuf).
Qed.

Lemma rtx_nodes_ok nodes : forall u macro lost,
  harqStatus_ u = harqStatus -> Forall (fun n => is_Some (rx !! n)) nodes -> NoDup nodes -> books (ul_enb u) macro lost ->
  exists u' macro' lost', rtx_nodes u rx nodes = Ok u' /\ books (ul_enb u') macro' lost' /\ totalRbs macro' = totalRbs macro /\
    u' = u <| ul_enb := (ul_enb u) <| allocator_ := allocator_ (ul_enb u') |> <| allocatedCws_ := allocatedCws_ (ul_enb u') |>
                                   <| se_scheduleList_ := se_scheduleList_ (ul_enb u') |> |> /\
    (Forall (fun n => se_scheduleList_ (ul_enb u) !! rac_key n = None) nodes -> lost' = lost).
Proof.
  induction nodes as [|node nodes IH]; intros u macro lost Hu Hn Hd Hb; cbn [rtx_nodes].
  { exists u, macro, lost. split_and!; try done. by destruct u as [[] ? ?]. }
  apply Forall_cons in Hn as [[buf Hbuf] Hn]. apply NoDup_cons in Hd as [Hni Hd]. destruct (Hnodes _ _ Hbuf) as (Hu16 & Hne & Hg & Htx).
  rewrite !(proj2 (Z.eqb_neq _ _)) by done. rewrite Hbuf. cbn [orb of_option rbind].
  destruct (rtx_process u node buf Hu Hbuf) as (acid & p & -> & Hp & st0 & st1 & Hs & _). cbn [rbind]. rewrite Hp. cbn [rbind].
  unfold rx_getProcessStatus. change (Z.to_nat MAX_CODEWORDS) with 2%nat. cbn [rx_status_from]. unfold rx_getUnitStatus. rewrite !Hs.
  change (vec_at [st0; st1] 0) with (Ok st0). change (vec_at [st0; st1] (0 + 1)) with (Ok st1). cbn [rbind]. destruct (negb _).
  { destruct (IH u macro lost Hu Hn Hd Hb) as (u' & macro' & lost' & E & A1 & A2 & A3 & A4). exists u', macro', lost'. split_and!; try done.
    intros Hf. apply A4. by apply Forall_cons in Hf as [_ Hf]. }
  rewrite (bo_dir _ _ _ Hb). destruct Htx as (info & Einfo & Hinfo). rewrite Einfo. cbn [rbind].
  destruct (rtx_codewords_ok u node buf macro lost (vsize (getLayers info)) Hu Hbuf (ex_intro _ info (conj Einfo Hinfo)) Hb) as (u1 & macro1 & lost1 & -> & [S1 S2 S3 S4 S5]).
  cbn [rbind]. destruct (IH u1 macro1 lost1) as (u' & macro' & lost' & -> & A1 & A2 & A3 & A4); try done; [by rewrite S3|].
  exists u', macro', lost'. split_and!; try done; [congruence|rewrite A3, S3; by destruct u as [[] ? ?]|].
  intros [Hf1 Hf]%Forall_cons. rewrite A4; [by apply S5|]. apply Forall_forall. intros n Hin. rewrite Forall_forall in Hf, Hn.
  destruct (Hn n Hin) as [b Hbn]. destruct (Hnodes _ _ Hbn) as (Hun & _). rewrite S4; [by apply Hf|].
  intros E. apply Hni. by rewrite <- (rac_key_inj n node Hun Hu16 E).
Qed.

(** The books after random access and retransmissions. *)
Lemma rtxschedule_ok u macro :
  harqStatus_ u = harqStatus -> map_Forall (fun n _ => is_uint 16 n /\ tx_ok n UL) (racStatus_ u) ->
  books (ul_enb u) macro 0 -> se_scheduleList_ (ul_enb u) = ∅ -> allocatedRbs macro = 0 ->
  exists full u' macro' lost, rtxschedule u rx = Ok (full, u') /\ books (ul_enb u') macro' lost /\ totalRbs macro' = totalRbs macro /\
    u' = u <| ul_enb := ul_enb u' |> <| racStatus_ := ∅ |> /\ emptyBandLim_ (ul_enb u') = emptyBandLim_ (ul_enb u) /\
    resourceBlocks_ (ul_enb u') = resourceBlocks_ (ul_enb u) /\ (racStatus_ u = ∅ -> lost = 0).
Proof.
  intros Hu Hr [B1 B2 B3 B4 B5 B6] He Hz. unfold rtxschedule.
  destruct (racschedule_ok u macro Hr B2 He Hz) as (r & s & macro1 & -> & A1 & A2 & A3 & A4 & A5 & A6). cbn [rbind].
  set (u1 := u <| ul_enb := s |> <| racStatus_ := ∅ |>).
  assert (Hb1 : books (ul_enb u1) macro1 0).
  { split; cbn; try done; [by rewrite A6|lia|]. intros k. rewrite A6. exact (B5 k). }
  destruct r.
  { exists true, u1, macro1, 0. split_and!; try done; cbn; by rewrite A6. }
  destruct (rtx_nodes_ok (ascending rx) u1 macro1 0) as (u2 & macro2 & lost & -> & C1 & C2 & C3 & C4); try done.
  - apply Forall_forall. intros n Hn. by apply elem_of_ascending.
  - apply ascending_NoDup.
  - cbn [rbind]. destruct (al_total _ _ (bo_alloc _ _ _ C1)) as [-> _]. cbn [rbind catch]. eexists _, u2, macro2, lost. split_and!; try done.
    + congruence.
    + rewrite C3. by destruct u as [[] ? ?].
    + rewrite C3. cbn. by rewrite A6.
    + rewrite C3. cbn. by rewrite A6.
    + intros Hnone. apply C4. apply Forall_forall. intros n _. cbn. by rewrite (A5 Hnone), lookup_empty.
Qed.
End Buffers.

(** ** A TTI *)

Lemma new_tti a numRb :
  0 <= numRb < 2 ^ 31 -> numRb / cell_numBands <= 110 ->
  exists macro, alloc_ok (initAndReset a numRb cell_numBands) macro /\ allocatedRbs macro = 0 /\ totalRbs macro = numRb.
Proof.
  intros Hn Hw. exists {| totalRbs := numRb; allocatedRbs := 0; perBand := ∅ |}. split; [|done]. split; try done.
  apply initAndReset_ok; lia.
Qed.

(** Parameters with a quality for each codeword. *)
Definition params_ok (dir : Direction) (cid : Z) : Prop :=
  exists info, computeTxParams (MacCidToNodeId cid) dir = Ok info /\ (length (getLayers info) <= length (cqiVector_ info))%nat.

Lemma null_cqi_ok cqis : forall n, (n <= length cqis)%nat -> exists r, null_cqi cqis n = Ok r.
Proof.
  induction cqis as [|cqi cqis IH]; intros [|n] Hn; cbn [length] in Hn; try lia; [by exists false|by exists false|].
  destruct (IH n) as [r E]; [lia|]. exists ((cqi =? 0) || r). cbn. by rewrite E.
Qed.

Lemma drr_infos_ok dir used cids : forall d,
  Forall (params_ok dir) cids -> exists d', drr_infos d dir used cids = Ok d' /\ activeList_ d' = activeList_ d.
Proof.
  induction cids as [|cid cids IH]; intros d Hp; cbn [drr_infos]; [by exists d|]. apply Forall_cons in Hp as [(info & Ei & Hl) Hp].
  unfold drr_info. rewrite Ei. cbn [rbind]. destruct (null_cqi_ok _ _ Hl) as [r ->]. cbn [rbind].
  set (d1 := d <| drrMap_ := _ |>). destruct (IH d1 Hp) as (d' & -> & E). exists d'. split; [done|]. by rewrite E.
Qed.

Section Turns.
Context (rx : gmap Z LteHarqBufferRx) (numRbUl : Z) (known : Z -> Prop).
Context (Hrx : map_Forall (fun _ => buffer_ready) rx).
Context (Hnodes : map_Forall (fun n _ => is_uint 16 n /\ n <> 0 /\ getOmnetId amc_binder n <> 0 /\ tx_ok n UL) rx).
Context (Hrb : 0 <= numRbUl < 2 ^ 31) (Hnarrow : numRbUl / cell_numBands <= 110).
Context (Hparams : forall cid, known cid -> params_ok UL cid).
Context (Hknown : forall cid, known cid -> getOmnetId amc_binder (MacCidToNodeId cid) <> 0 ->
  tx_ok (MacCidToNodeId cid) (grant_direction UL (MacCidToLcid cid))).

(** The uplink between two TTIs. *)
Record uplink_ok (d : LteDrr) (u : LteSchedulerEnbUl) (bsrbuf : gmap Z LteMacBuffer) : Prop := {
  uo_dir : se_direction_ (ul_enb u) = UL;
  uo_lims : emptyBandLim_ (ul_enb u) = [] \/ emptyBandLim_ (ul_enb u) = all_bands;
  uo_list : circ_ok (activeList_ d);
  uo_known : Forall known (ring (activeList_ d));
  uo_bufs : forall cid, known cid -> exists conn l, bsrbuf !! cid = Some conn /\ holds conn l;
  uo_keys : forall cid, is_Some (bsrbuf !! cid) -> params_ok UL cid
}.

(** The blocks of a schedule are blocks the allocator gave, and those are blocks of the cell. *)
Definition schedule_fits (u u' : LteSchedulerEnbUl) : Prop :=
  exists macro, alloc_ok (allocator_ (ul_enb u')) macro /\ totalRbs macro = numRbUl /\
    0 <= sum_map id (se_scheduleList_ (ul_enb u')) <= allocatedRbs macro /\ allocatedRbs macro <= numRbUl /\
    (racStatus_ u = ∅ -> sum_map id (se_scheduleList_ (ul_enb u')) = allocatedRbs macro).

Lemma books_fit u u' macro lost :
  books (ul_enb u') macro lost -> totalRbs macro = numRbUl -> (racStatus_ u = ∅ -> lost = 0) -> schedule_fits u u'.
Proof.
  intros [B1 B2 B3 B4 B5 B6] Ht Hl. exists macro. pose proof (al_given _ _ B2). pose proof (sum_map_nonneg id _ B4).
  split_and!; try done; try lia. intros Hr. specialize (Hl Hr). lia.
Qed.

(** C11. An uplink TTI of an eNB under the deficit round robin ends without error, whatever
    UEs ask for random access, have failed PDUs and buffer status reports: the processes
    advance, random access and retransmissions are served and the loop over the connections
    grants what is left; the blocks of the schedule are among those the allocator gave, all
    of them unless a UE that asked for random access was there too, and never more than the
    blocks of the cell; and the next TTI can start. *)
Theorem uplink_tti d u bsrbuf :
  uplink_ok d u bsrbuf -> map_Forall (fun n _ => is_uint 16 n /\ tx_ok n UL) (racStatus_ u) ->
  exists d' u' bsrbuf', enb_uplink numRbUl rx d u bsrbuf = Ok (d', u', bsrbuf') /\
    uplink_ok d' u' bsrbuf' /\ racStatus_ u' = ∅ /\ schedule_fits u u'.
Proof.
  intros [U1 U2 U3 U4 U5 U6] Hracs. unfold enb_uplink.
  destruct (updateHarqDescs_ok (u <| ul_enb := (ul_enb u) <| resourceBlocks_ := numRbUl |> |>) rx Hrx) as (hs & -> & Hhs). cbn [rbind].
  unfold enb_schedule_ul. set (u1 := set ul_enb _ (set harqStatus_ _ _)).
  destruct (new_tti (allocator_ (ul_enb u)) numRbUl Hrb Hnarrow) as (macro0 & Ha0 & Hz & Ht).
  assert (Hb0 : books (ul_enb u1) macro0 0).
  { by split. }
  destruct (rtxschedule_ok rx hs Hrx Hhs Hnodes u1 macro0 eq_refl Hracs Hb0 eq_refl Hz) as (full & u2 & macro2 & lost & -> & Hb2 & Ht2 & E2 & El & _ & Hlost).
  cbn [rbind]. assert (Hr2 : racStatus_ u2 = ∅) by (by rewrite E2). assert (Hfit : schedule_fits u u2) by (apply (books_fit u u2 macro2 lost); [done|congruence|done]).
  pose proof Hb2 as [B1 B2 B3 B4 B5 B6].
  assert (Hlims : emptyBandLim_ (ul_enb u2) = [] \/ emptyBandLim_ (ul_enb u2) = all_bands) by (by rewrite El).
  destruct full; [exists d, u2, bsrbuf; split_and!; try done; by split|]. rewrite B1. cbn [drr_updateSchedulingInfo].
  destruct (drr_infos_ok UL (used_cws (ul_enb u2)) (ascending bsrbuf) d) as (d1 & -> & Ed).
  { apply Forall_forall. intros cid Hin%elem_of_ascending. by apply U6. }
  cbn [rbind].
  assert (Hinv : sched_inv UL known (params_ok UL) numRbUl lost (ul_enb u2, bsrbuf)).
  { split; try done. exists macro2. split; [exact B2|]. split; [congruence|by intros _]. }
  assert (Hh : harqStatus_ u2 = hs) by (by rewrite E2). rewrite Hh.
  pose proof (enb_grant_laws Hdl Hul Hmimo (ul_checkEligibility rx hs) UL known (params_ok UL) numRbUl lost
    (fun nodeId => ul_eligible rx hs nodeId Hrx Hhs) (or_intror eq_refl) Hmany B6 Hparams Hknown) as Hlaws.
  edestruct (drr_schedule_ok (ul_grant rx hs) _ known node_busy amc_binder d1 (ul_enb u2, bsrbuf)) as (d2 & st & -> & Hst & Hc & Hk); [by rewrite Ed|by rewrite Ed|exact Hinv|].
  cbn [rbind]. eexists d2, _, st.2. split; [reflexivity|]. destruct Hst as [S1 (macro & Sa & St & Ssum) S3 S4 S5 S6 S7].
  split; [by split|]. split; [done|]. exists macro. cbn [ul_enb set]. specialize (Ssum eq_refl).
  pose proof (sum_map_nonneg id _ S3). pose proof (al_given _ _ Sa). split_and!; try done; try lia. intros Hnone. specialize (Hlost Hnone). lia.
Qed.
End Turns.
End Uplink.
