(* ===== verification/SchedulerEnbDl.v ===== *)
(** * The downlink scheduler of an eNB

    [LteSchedulerEnbDl] (src/simulte/src/stack/mac/scheduler/LteSchedulerEnbDl.cc), which adds no
    member to [LteSchedulerEnb]: retransmissions of the PDUs that UEs did not acknowledge, and
    the schedule of a TTI with the deficit round robin.  The H-ARQ buffers and the virtual
    buffers belong to the MAC layer and are passed in and out.  The bands a UE may use are kept
    by the pilot (src/simulte/src/stack/mac/amc/AmcPilotAuto.cc). *)

From S2P Require Import Prelude.
From S2P Require Import LteCommon.
From S2P Require Import LteBinder.
From S2P Require Import MacQueue.
From S2P Require Import HarqTx.
From S2P Require Import HarqTxBuffer.
From S2P Require Import HarqTxFacts.
From S2P Require Import HarqTxProps.
From S2P Require Import HarqTxRun.
From S2P Require Import LcgProps.
From S2P Require Import Allocation.
From S2P Require Import AllocationProps.
From S2P Require Import Amc.
From S2P Require Import CircularList.
From S2P Require Import SchedulerEnb.
From S2P Require Import Drr.
From S2P Require Import SchedulerEnbProps.
From S2P Require Import SchedulerEnbUl.
From S2P Require Import SchedulerEnbUlProps.
#[local] Open Scope Z_scope.

(** ** Usable bands *)

Definition setUsableBands (usableBandsList : gmap Z (list Z)) (id : Z) (usableBands : list Z) : gmap Z (list Z) :=
  <[id := usableBands]> usableBandsList.

Section Downlink.
Context `{Amc} `{Cell}.

(** Those of the UE, or of its cell; all bands are usable where none were set. *)
Definition getUsableBands (usableBandsList : gmap Z (list Z)) (id : Z) : result (option (list Z)) :=
  match usableBandsList !! id with
  | Some uBands => Ok (Some uBands)
  | None =>
      if bool_decide (getNodeTypeById id = UE) then
        let! cellId := getNextHop amc_binder id in Ok (usableBandsList !! cellId)
      else Ok None
  end.

(** The limit of a band for one codeword: none, or it is skipped. *)
Definition usable_limit (usableBands : list Z) (b : Z) : BandLimit :=
  {| band_ := b; limit_ := [if existsb (Z.eqb b) usableBands then -1 else -2] |}.

(** [None] when no usable bands are known. *)
Definition getBandLimit (usableBandsList : gmap Z (list Z)) (ueId : Z) : result (option (list BandLimit)) :=
  let! usableBands := getUsableBands usableBandsList ueId in
  Ok match usableBands with Some l => Some (map (usable_limit l) (seqZ 0 cell_numBands)) | None => None end.

(** A codeword is taken to be free where there is no buffer, and where no process is empty. *)
Definition dl_checkEligibility (tx : gmap Z LteHarqBufferTx) (id cw : Z) : result (bool * Z) :=
  match tx !! id with
  | None => Ok (true, cw)
  | Some dlHarq =>
      let! freeUnits := firstAvailable dlHarq in
      if freeUnits.1 =? HARQ_NONE then Ok (true, cw) else
      match freeUnits.2 with
      | [] => Ok (false, cw)
      | cw :: _ => if MAX_CODEWORDS <? cw then Throw "LteSchedulerEnbDl::checkEligibility(): abnormal codeword id" else Ok (true, cw)
      end
  end.

(** ** A retransmission *)

Definition dl_all_bands : list BandLimit :=
  map (fun b => {| band_ := b; limit_ := limit_ (new_BandLimit b) ++ replicate (Z.to_nat MAX_CODEWORDS) (-1) |}) (seqZ 0 cell_numBands).

(** The bytes a band offers: those of its free blocks, or of the blocks the other codeword has. *)
Definition dl_space (s : LteSchedulerEnb) (nodeId antenna b cw allocatedCw limit : Z) (limitBl : bool) : result (Z * LteSchedulerEnb) :=
  let! (available, s) :=
    if negb (allocatedCw =? 0) then
      let! (n, a) := getBlocks (allocator_ s) antenna b nodeId in
      let b1 := int32 n in
      let! bytes := amc_computeBytesOnNRbs nodeId b cw (uint32 b1) (se_direction_ s) in
      Ok (bytes, s <| allocator_ := a |>)
    else availableBytes s nodeId antenna b cw (se_direction_ s) (if limitBl then limit else -1) in
  Ok (if (0 <=? limit) && negb limitBl then (if limit <? int32 available then limit else available) else available, s).

(** The bytes of a PDU over the bands: the blocks and bytes found on those that are not
    skipped (for the first codeword only), and what is left to serve. *)
Fixpoint dl_share (s : LteSchedulerEnb) (nodeId antenna cw allocatedCw : Z) (limitBl : bool) (bytes : Z) (bandLim : list BandLimit)
    : result (list (Z * Z) * Z * LteSchedulerEnb) :=
  match bandLim with
  | [] => Ok ([], bytes, s)
  | e :: bandLim' =>
      let! limit := vat (limit_ e) cw in
      if limit =? -2 then dl_share s nodeId antenna cw allocatedCw limitBl bytes bandLim' else
      let! (available, s) := dl_space s nodeId antenna (band_ e) cw allocatedCw limit limitBl in
      let allocation := if available <? bytes then available else bytes in
      let bytes := if available <? bytes then bytes - available else 0 in
      let! assigned :=
        if allocatedCw =? 0 then
          let! blocks := computeReqRbs nodeId (band_ e) cw allocation (se_direction_ s) in Ok [(blocks, allocation)]
        else Ok [] in
      if bytes =? 0 then Ok (assigned, bytes, s) else
      let! (rest, bytes, s) := dl_share s nodeId antenna cw allocatedCw limitBl bytes bandLim' in
      Ok (assigned ++ rest, bytes, s)
  end.

(** The [i]-th of what was found is booked on the [i]-th band; what the allocator answers is
    not read. *)
Fixpoint dl_book (s : LteSchedulerEnb) (nodeId antenna cw allocatedCw : Z) (bandLim : list BandLimit) (i : Z) (assigned : list (Z * Z))
    : result (list BandLimit * LteSchedulerEnb) :=
  match assigned with
  | [] => Ok (bandLim, s)
  | (blocks, bytes) :: assigned' =>
      let! s :=
        if allocatedCw =? 0 then
          let! e := vat bandLim i in
          let! (_, a) := addBlocks_on (allocator_ s) antenna (band_ e) nodeId blocks bytes in
          Ok (s <| allocator_ := a |>)
        else Ok s in
      let! bandLim := set_limit bandLim i cw (int32 bytes) in
      dl_book s nodeId antenna cw allocatedCw bandLim (i + 1) assigned'
  end.

(** [allocatedCws_.at(nodeId)++], or 1. *)
Definition count_codeword (s : LteSchedulerEnb) (nodeId : Z) : LteSchedulerEnb :=
  s <| allocatedCws_ := <[nodeId := match allocatedCws_ s !! nodeId with Some n => uint32 (n + 1) | None => 1 end]> (allocatedCws_ s) |>.

(** The bytes served, 0 if the PDU cannot be; the limits and the buffers are changed in place. *)
Definition dl_schedulePerAcidRtx (s : LteSchedulerEnb) (tx : gmap Z LteHarqBufferTx) (nodeId cw acid : Z)
    (bandLim : option (list BandLimit)) (antenna : Z) (limitBl : bool)
    : result (Z * option (list BandLimit) * LteSchedulerEnb * gmap Z LteHarqBufferTx) :=
  let! txParams := computeTxParams nodeId (se_direction_ s) in
  let codewords := vsize (getLayers txParams) in
  let remappedCw := if codewords =? 1 then 0 else cw in
  let limits := match bandLim with Some l => l | None => dl_all_bands end in
  let back := fun l => match bandLim with Some _ => Some l | None => None end in
  let! s := pair_users s txParams nodeId DL in
  let (plane, a) := getOFDMPlane (allocator_ s) nodeId in
  let! a := setRemoteAntenna a plane antenna in
  let s := s <| allocator_ := a |> in
  let! currHarq := map_at tx nodeId in
  let! len := pduLength currHarq acid cw in
  let! p := getProcess currHarq acid in
  let! _ := getProcessStatus p in
  let allocatedCw := uint16 (used_cws s nodeId) in
  let! (assigned, unserved, s) := dl_share s nodeId antenna remappedCw allocatedCw limitBl (uint32 len) limits in
  if 0 <? unserved then Ok (0, back limits, s, tx) else
  let! (limits, s) := dl_book s nodeId antenna remappedCw allocatedCw limits 0 assigned in
  let! codewords :=
    if negb (allocatedCw =? 0) then
      let n := uint32 (codewords - 1) in
      if n =? 0 then Throw "LteSchedulerEnbDl::rtxAcid(): erroneus codeword count" else Ok n
    else Ok codewords in
  let! currHarq := buf_markSelected currHarq (acid, [cw]) (uint8 codewords) in
  let! len := pduLength currHarq acid cw in
  Ok (uint32 len, back limits, count_codeword s nodeId, <[nodeId := currHarq]> tx).

(** ** All retransmissions *)

(** [allocatedCws_[nodeId]]. *)
Definition touch_cws (s : LteSchedulerEnb) (nodeId : Z) : LteSchedulerEnb :=
  s <| allocatedCws_ := <[nodeId := used_cws s nodeId]> (allocatedCws_ s) |>.

Section Retransmissions.
Variable usableBandsList : gmap Z (list Z).

(** A service ends the loop, so the other codeword of the process is left out. *)
Fixpoint dl_codewords (s : LteSchedulerEnb) (tx : gmap Z LteHarqBufferTx) (nodeId process codewords : Z) (cws : list Z)
    : result (LteSchedulerEnb * gmap Z LteHarqBufferTx) :=
  match cws with
  | [] => Ok (s, tx)
  | cw :: cws' =>
      let s := touch_cws s nodeId in
      if used_cws s nodeId =? codewords then Ok (s, tx) else
      let! currHarq := of_option (tx !! nodeId) in
      let! currProc := proc_at currHarq process in
      let! status := getUnitStatus currProc cw in
      if negb (bool_decide (status = TXHARQ_PDU_BUFFERED)) then dl_codewords s tx nodeId process codewords cws' else
      let! bandLim := getBandLimit usableBandsList nodeId in
      let! (bytes, _, s, tx) := dl_schedulePerAcidRtx s tx nodeId cw (uint8 process) bandLim MACRO false in
      if 0 <? bytes then Ok (s, tx) else dl_codewords s tx nodeId process codewords cws'
  end.

Fixpoint dl_processes (s : LteSchedulerEnb) (tx : gmap Z LteHarqBufferTx) (nodeId codewords : Z) (processes : list Z)
    : result (LteSchedulerEnb * gmap Z LteHarqBufferTx) :=
  match processes with
  | [] => Ok (s, tx)
  | process :: processes' =>
      let! currHarq := of_option (tx !! nodeId) in
      let! _ := proc_at currHarq process in
      let s := touch_cws s nodeId in
      if used_cws s nodeId =? codewords then Ok (s, tx) else
      let! (s, tx) := dl_codewords s tx nodeId process codewords (seqZ 0 codewords) in
      dl_processes s tx nodeId codewords processes'
  end.

(** The buffer of a UE that is gone is erased; the iterator is on the next buffer then, and
    moves on once more. *)
Fixpoint dl_nodes (s : LteSchedulerEnb) (tx : gmap Z LteHarqBufferTx) (nodes : list Z)
    : result (LteSchedulerEnb * gmap Z LteHarqBufferTx) :=
  match nodes with
  | [] => Ok (s, tx)
  | nodeId :: nodes' =>
      if getOmnetId amc_binder nodeId =? 0 then
        let tx := delete nodeId tx in
        match nodes' with [] => Ok (s, tx) | _ :: nodes'' => dl_nodes s tx nodes'' end
      else
        let! currHarq := of_option (tx !! nodeId) in
        let! txParams := computeTxParams nodeId (se_direction_ s) in
        let! (s, tx) := dl_processes s tx nodeId (vsize (getLayers txParams)) (seqZ 0 (numProc_ currHarq)) in
        dl_nodes s tx nodes'
  end.

(** Whether no block is left. *)
Definition dl_rtxschedule (s : LteSchedulerEnb) (tx : gmap Z LteHarqBufferTx) : result (bool * LteSchedulerEnb * gmap Z LteHarqBufferTx) :=
  let! (s, tx) := dl_nodes s tx (ascending tx) in
  let! availableBlocks := computeTotalRbs (allocator_ s) in
  Ok (availableBlocks =? 0, s, tx).

(** ** A TTI *)

(** [schedule], under the deficit round robin. *)
Definition enb_schedule_dl (tx : gmap Z LteHarqBufferTx) (d : LteDrr) (s : LteSchedulerEnb) (vbuf : gmap Z LteMacBuffer)
    : result (LteDrr * LteSchedulerEnb * gmap Z LteMacBuffer * gmap Z LteHarqBufferTx) :=
  let! (full, s, tx) := dl_rtxschedule (clear_schedule s) tx in
  if full : bool then Ok (d, s, vbuf, tx) else
  let! d := drr_updateSchedulingInfo d (se_direction_ s) (used_cws s) vbuf in
  let! (d, st) := drr_schedule (requestGrant (dl_checkEligibility tx)) amc_binder d (s, vbuf) in
  Ok (d, st.1, st.2, tx).

(** The downlink of the main loop of the MAC layer, up to the requests to RLC. *)
Definition enb_downlink (numRbDl : Z) (tx : gmap Z LteHarqBufferTx) (d : LteDrr) (s : LteSchedulerEnb) (vbuf : gmap Z LteMacBuffer)
    : result (LteDrr * LteSchedulerEnb * gmap Z LteMacBuffer * gmap Z LteHarqBufferTx) :=
  enb_schedule_dl tx d (s <| resourceBlocks_ := numRbDl |>) vbuf.
End Retransmissions.
End Downlink.

(** ** The downlink scheduler: properties

    A TTI runs without error, a UE is sent one PDU again or new data but not both, and a
    retransmission takes the blocks that carry it. *)

(** *** The H-ARQ buffers *)

(** The unit of the first codeword of one process is selected, nothing else changes. *)
Definition reselected (b : LteHarqBufferTx) (a : Z) (p : LteHarqProcessTx) (u : LteHarqUnitTx) : LteHarqBufferTx :=
  bput b a (put p 0 (u <| status_ := TXHARQ_PDU_SELECTED |>) (dropped_ p)) a (numEmptyProc_ b).

Definition retransmits (b b' : LteHarqBufferTx) : Prop :=
  exists a p u, proc_at b a = Ok p /\ unit_at p 0 = Ok u /\ status_ u = TXHARQ_PDU_BUFFERED /\ b' = reselected b a p u.

Section Buffers.
Context (m : Z) (Hm : 0 <= m < 255).

Lemma proc_marked a p u :
  proc_ok m a p -> unit_at p 0 = Ok u -> status_ u = TXHARQ_PDU_BUFFERED ->
  proc_markSelected p 0 = Ok (put p 0 (u <| status_ := TXHARQ_PDU_SELECTED |>) (dropped_ p)) /\
  unit_ok m a 0 (u <| status_ := TXHARQ_PDU_SELECTED |>).
Proof.
  intros Hp Hu Hs. destruct (holds_carries m a 0 u) as [pdu Hpdu]; [by eapply unit_at_ok|congruence|].
  destruct (proc_mark_spec m a p 0 u pdu Hp Hu Hs Hpdu) as (u' & E & Hu' & _). rewrite E.
  assert (u' = u <| status_ := TXHARQ_PDU_SELECTED |>) as ->; [|done].
  pose proof (unit_at_lookup _ _ _ Hu) as Hl. revert E. unfold proc_markSelected. case_match; [done|].
  change (unit_at (add_selected p 1) 0) with (unit_at p 0). rewrite Hu. cbn [rbind].
  unfold unit_markSelected, unit_isReady. rewrite Hs, bool_decide_eq_true_2 by done. cbn [negb rbind].
  destruct (set_unit_put (add_selected p 1) 0 u (u <| status_ := TXHARQ_PDU_SELECTED |>)) as (p1 & -> & ->); [done|].
  intros E. injection E as E _ _. apply (f_equal (fun us => us !! Z.to_nat 0)) in E. cbn [units_ add_selected set] in E.
  pose proof (lookup_lt_Some _ _ _ Hl). rewrite !list_lookup_insert_eq in E by done. by injection E as <-.
Qed.

Lemma buf_marked b a p u :
  buf_ok m b -> selectedAcid_ b = HARQ_NONE -> proc_at b a = Ok p -> unit_at p 0 = Ok u -> status_ u = TXHARQ_PDU_BUFFERED ->
  buf_markSelected b (a, [0]) 1 = Ok (reselected b a p u) /\ buf_ok m (reselected b a p u) /\ pduLength (reselected b a p u) a 0 = Ok (pduLength_ u).
Proof.
  intros Hb Hsel Hp Hu Hs. pose proof (proc_at_ok m _ _ _ Hb Hp) as Hpok. destruct (proc_marked a p u Hpok Hu Hs) as [E Hu']. split_and!.
  - unfold buf_markSelected. cbn [fst snd]. rewrite bool_decide_eq_false_2 by done. change (1 =? 0) with false. cbv iota.
    rewrite Hp. cbn [rbind]. change (1 <? vsize [0]) with false. cbn [mark_units]. rewrite E. cbn [rbind]. by rewrite (set_proc_eq b a p).
  - apply (bput_ok m b a p); [done|done|by eapply put_ok|by right|by left|done].
  - unfold pduLength, reselected. rewrite (proc_at_bput _ _ p) by done. rewrite decide_True by done. cbn [rbind]. unfold getPduLength.
    rewrite (unit_at_put m a p 0 u _ _ 0 Hpok Hu), decide_True by done. reflexivity.
Qed.

Lemma first_empty_ok b : forall n i,
  buf_ok m b -> 0 <= i -> i + Z.of_nat n <= numProc_ b ->
  exists acid, first_empty_from (processes_ b) n i = Ok acid /\ (acid = HARQ_NONE \/ 0 <= acid < numProc_ b).
Proof.
  induction n as [|n IH]; intros i Hb Hi Hn; cbn [first_empty_from]; [exists HARQ_NONE; auto|].
  pose proof (ok_plen _ _ Hb). pose proof (ok_count _ _ Hb) as Hc. unfold HARQ_NONE in Hc.
  destruct (vget_is_Some (processes_ b) i) as [p ->]; [lia|]. cbn [of_option rbind].
  destruct (proc_isEmpty p); [exists (uint8 i); split; [done|right; rewrite wrap_small by (unfold is_uint; lia); lia]|].
  apply IH; [done|lia|lia].
Qed.

(** The first available units are asked for without error. *)
Lemma first_available_ok b :
  buf_ok m b -> exists acid cws, firstAvailable b = Ok (acid, cws) /\ Forall (fun c => 0 <= c < MAX_CODEWORDS) cws.
Proof.
  intros Hb. pose proof (ok_count _ _ Hb) as Hc. unfold firstAvailable.
  assert (Hacid : exists acid, (if selectedAcid_ b =? HARQ_NONE then first_empty_from (processes_ b) (Z.to_nat (numProc_ b)) 0 else Ok (selectedAcid_ b)) = Ok acid /\
    (acid = HARQ_NONE \/ 0 <= acid < numProc_ b)).
  { destruct (Z.eqb_spec (selectedAcid_ b) HARQ_NONE); [apply first_empty_ok; [done|lia|lia]|].
    exists (selectedAcid_ b). split; [done|exact (ok_sel _ _ Hb)]. }
  destruct Hacid as (acid & -> & Hacid). cbn [rbind]. destruct (Z.eqb_spec acid HARQ_NONE); [exists acid, []; by split|].
  destruct Hacid as [|Hacid]; [done|]. unfold getEmptyUnits. destruct (proc_at_is_Ok m b acid Hb Hacid) as [p Hp]. rewrite Hp. cbn [rbind].
  pose proof (proc_at_ok m _ _ _ Hb Hp) as Hpok. rewrite (empty_where m acid p Hpok). cbn [rbind]. eexists acid, _. split; [reflexivity|].
  apply Forall_forall. by intros c [Hc' _]%where_spec.
Qed.

Lemma dl_eligible tx id :
  map_Forall (fun _ => buf_ok m) tx -> exists free cw, dl_checkEligibility tx id 0 = Ok (free, cw) /\ 0 <= cw.
Proof.
  intros Htx. unfold dl_checkEligibility. destruct (tx !! id) as [b|] eqn:E; [|by exists true, 0].
  destruct (first_available_ok b (Htx _ _ E)) as (acid & cws & -> & Hc). cbn [rbind fst snd].
  destruct (acid =? HARQ_NONE); [by exists true, 0|]. destruct cws as [|c cws]; [by exists false, 0|].
  apply Forall_cons in Hc as [Hc _]. rewrite (proj2 (Z.ltb_ge _ _)) by lia. exists true, c. split; [done|lia].
Qed.
End Buffers.

(** *** Bytes over bands *)

Section Bands.
Context `{Amc} `{Cell}.
Context (Hdl : scaled dlMcsTable_) (Hul : scaled ulMcsTable_) (Hmimo : cell_muMimo = false) (Hmany : 0 < cell_numBands < 2 ^ 14).

(** The bytes the free blocks of a band carry for a UE. *)
Definition offer (nodeId : Z) (macro : Antenna) (b : Z) : Z :=
  match amc_computeBytesOnNRbs nodeId b 0 (free macro b) DL with Ok n => n | _ => 0 end.

Definition offered (nodeId : Z) (macro : Antenna) (bands : list Z) : Z := foldr (fun b n => offer nodeId macro b + n) 0 bands.

(** Bytes over bands, in order, each taking what it can. *)
Fixpoint split_bytes (room : Z -> Z) (bytes : Z) (bands : list Z) : list Z :=
  match bands with
  | [] => []
  | b :: bands' =>
      let n := Z.min (room b) bytes in
      n :: (if bytes - n =? 0 then [] else split_bytes room (bytes - n) bands')
  end.

(** Blocks for bytes on a band: no more than are free, and they carry the bytes. *)
Definition carried_by (nodeId : Z) (macro : Antenna) (b : Z) (e : Z * Z) : Prop :=
  0 <= e.1 <= free macro b /\ 0 <= e.2 < 2 ^ 17 /\ (e.2 = 0 <-> e.1 = 0) /\
  exists carried, amc_computeBytesOnNRbs nodeId b 0 e.1 DL = Ok carried /\ e.2 <= carried.

(** The bands that are not skipped. *)
Definition open_bands (lims : list BandLimit) : list Z :=
  map band_ (filter (fun e => vget (limit_ e) 0 = Some (-1)) lims).

Lemma blocks_carry nodeId b macro a bytes :
  tx_ok nodeId DL -> alloc_ok a macro -> 0 <= bytes <= offer nodeId macro b ->
  exists k, computeReqRbs nodeId b 0 bytes DL = Ok k /\ carried_by nodeId macro b (k, bytes).
Proof.
  intros Htx Ha Hb. pose proof (free_range a macro b Ha) as Hf.
  destruct (bytes_on Hdl Hul nodeId b (free macro b) DL Htx ltac:(done) Hf) as (carried & E & Hc & Hreq).
  unfold offer in Hb. rewrite E in Hb. destruct (decide (bytes = 0)) as [->|Hne].
  { exists 0. split; [done|]. split; [cbn; lia|]. split; [cbn; lia|]. split; [done|]. exists 0. split; [reflexivity|cbn; lia]. }
  destruct (Hreq bytes) as (k & Ek & Hk); [lia|]. exists k. split; [done|]. split; [cbn; lia|]. split; [cbn; lia|]. split; [cbn; lia|].
  destruct Htx as (info & Hi & [Hv|[Hc0|(cqi & layers & Hg)]]).
  - unfold computeReqRbs in Ek. rewrite (proj2 (Z.eqb_neq _ _)) in Ek by done. rewrite Hi in Ek. cbn [rbind] in Ek. rewrite Hv in Ek.
    cbn in Ek. injection Ek as <-. lia.
  - exfalso. revert E. unfold amc_computeBytesOnNRbs, computeBitsOnNRbs. rewrite (proj2 (Z.ltb_ge _ _)), (proj2 (Z.eqb_neq (free macro b) 0)) by lia.
    rewrite Hi. cbn [rbind]. rewrite Hc0. change (0 =? 0) with true. destruct (isValid_ info); cbn -[Z.div]; intros [= E0]; change (0 / 8) with 0 in E0; lia.
  - destruct (req_rbs_spec Hdl Hul nodeId b 0 bytes DL info cqi layers Hi Hg ltac:(done)) as (k' & Ek' & _ & Hcar & _); [lia|].
    rewrite Ek in Ek'. injection Ek' as <-. apply Hcar. lia.
Qed.

Lemma offer_spec s macro nodeId b :
  tx_ok nodeId DL -> alloc_ok (allocator_ s) macro -> se_direction_ s = DL ->
  dl_space s nodeId MACRO b 0 0 (-1) false = Ok (offer nodeId macro b, s <| allocator_ := touch_ue (allocator_ s) nodeId |>) /\
  0 <= offer nodeId macro b < 2 ^ 17.
Proof.
  intros Htx Ha Hdir. unfold dl_space. change (negb (0 =? 0)) with false. cbv iota. rewrite Hdir.
  destruct (available_bytes_ok Hdl Hul s macro nodeId b DL Htx ltac:(done) Ha) as (carried & E & Hc & _).
  pose proof (free_range _ _ b Ha) as Hf. destruct (bytes_on Hdl Hul nodeId b (free macro b) DL Htx ltac:(done) Hf) as (carried' & E' & _).
  assert (carried = carried') as ->.
  { revert E. unfold availableBytes. rewrite (al_available _ _ nodeId b Ha). cbn [rbind]. rewrite swrap_small by (unfold is_sint; lia).
    change (negb (-1 =? -1)) with false. rewrite andb_false_r, (wrap_small 32) by (unfold is_uint; lia). rewrite E'. cbn [rbind]. by intros [= ->]. }
  unfold offer. rewrite E'. split; [|done]. rewrite E. cbn [rbind]. change (0 <=? -1) with false. reflexivity.
Qed.

Lemma offered_nonneg nodeId macro a bands : tx_ok nodeId DL -> alloc_ok a macro -> 0 <= offered nodeId macro bands.
Proof.
  intros Htx Ha. induction bands as [|b bands IH]; [done|].
  change (offered nodeId macro (b :: bands)) with (offer nodeId macro b + offered nodeId macro bands). enough (0 <= offer nodeId macro b) by lia.
  unfold offer. pose proof (free_range _ _ b Ha) as Hf.
  destruct (bytes_on Hdl Hul nodeId b (free macro b) DL Htx ltac:(done) Hf) as (c & -> & Hc & _). lia.
Qed.

(** What is found for a PDU is its split over the bands that are not skipped. *)
Lemma dl_share_ok nodeId macro lims : forall s bytes,
  tx_ok nodeId DL -> se_direction_ s = DL -> alloc_ok (allocator_ s) macro -> Forall open_limit lims -> 0 <= bytes ->
  exists assigned s', dl_share s nodeId MACRO 0 0 false bytes lims = Ok (assigned, Z.max 0 (bytes - offered nodeId macro (open_bands lims)), s') /\
    alloc_ok (allocator_ s') macro /\ s' = s <| allocator_ := allocator_ s' |> /\
    assigned.*2 = split_bytes (offer nodeId macro) bytes (open_bands lims) /\ (length assigned <= length (open_bands lims))%nat /\
    Forall2 (carried_by nodeId macro) (take (length assigned) (open_bands lims)) assigned.
Proof.
  induction lims as [|e lims IH]; intros s bytes Htx Hdir Ha Hl Hb; cbn [dl_share].
  { exists [], s. cbn. rewrite Z.sub_0_r, Z.max_r by done. split_and!; try done. by destruct s. }
  apply Forall_cons in Hl as [[_ Hlim] Hl]. unfold vat, open_bands. destruct Hlim as [Hlim|Hlim]; rewrite Hlim; cbn [rbind].
  2: { change (-2 =? -2) with true. cbv iota. rewrite filter_cons_False by (rewrite Hlim; done). by apply IH. }
  change (-1 =? -2) with false. cbv iota. rewrite filter_cons_True by done. cbn [map]. fold (open_bands lims).
  set (b := band_ e). destruct (offer_spec s macro nodeId b Htx Ha Hdir) as [-> Ho]. cbn [rbind]. set (s1 := s <| allocator_ := _ |>).
  assert (Ha1 : alloc_ok (allocator_ s1) macro) by (by apply al_touch). pose proof (offered_nonneg nodeId macro _ (open_bands lims) Htx Ha) as Hrest.
  set (n := Z.min (offer nodeId macro b) bytes).
  assert (En : (if offer nodeId macro b <? bytes then offer nodeId macro b else bytes) = n) by (destruct (Z.ltb_spec (offer nodeId macro b) bytes); lia).
  assert (Er : (if offer nodeId macro b <? bytes then bytes - offer nodeId macro b else 0) = bytes - n) by (destruct (Z.ltb_spec (offer nodeId macro b) bytes); lia).
  rewrite En, Er. change (se_direction_ s1) with (se_direction_ s). rewrite Hdir.
  destruct (blocks_carry nodeId b macro _ n Htx Ha) as (k & -> & Hk); [lia|]. cbn [Z.eqb rbind split_bytes offered foldr]. fold n (offered nodeId macro (open_bands lims)).
  destruct (Z.eqb_spec (bytes - n) 0).
  - exists [(k, n)], s1. split; [f_equal; f_equal; f_equal; lia|]. split; [done|]. split; [done|]. cbn. split; [done|]. split; [lia|].
    rewrite take_0. by constructor.
  - destruct (IH s1 (bytes - n)) as (assigned & s' & -> & A1 & A2 & A3 & A4 & A5); try done; [lia|]. cbn [rbind].
    exists ((k, n) :: assigned), s'. split; [f_equal; f_equal; f_equal; lia|]. split; [done|]. split; [done|]. cbn [fmap list_fmap length take].
    split; [by rewrite <- A3|]. split; [lia|]. by constructor.
Qed.

(** *** Booking *)

(** What the allocator makes of a request: it grants those that fit. *)
Definition try_add (nodeId : Z) (macro : Antenna) (e : Z * (Z * Z)) : Antenna :=
  if (e.2.1 <=? free macro e.1) && (0 <? e.2.2) then antenna_add macro e.1 nodeId e.2.1 e.2.2 else macro.

Definition book_all (nodeId : Z) (macro : Antenna) (plan : list (Z * (Z * Z))) : Antenna := fold_left (try_add nodeId) plan macro.

Lemma book_all_total nodeId plan : forall macro, totalRbs (book_all nodeId macro plan) = totalRbs macro.
Proof.
  induction plan as [|e plan IH]; intros macro; [done|]. unfold book_all in *. cbn [fold_left]. rewrite IH. unfold try_add. by case_match.
Qed.

Lemma add_refused a macro k b blocks bytes :
  alloc_ok a macro -> 0 <= b < cell_numBands -> free macro b < blocks <= 110 -> addBlocks_on a MACRO b k blocks bytes = Ok (false, touch_ue a k).
Proof.
  intros Ha Hb Hbl. pose proof (free_range a macro b Ha) as Hfree. unfold addBlocks_on. rewrite (al_bands _ _ Ha), (proj2 (Z.leb_gt _ _)) by lia.
  cbn [getOFDMPlane]. rewrite (al_available _ _ k b (al_touch _ _ k Ha)). cbn [rbind]. rewrite !swrap_small by (unfold is_sint; lia).
  unfold int_of. rewrite (proj2 (Z.leb_le _ _)), (proj2 (Z.ltb_lt _ (2 ^ 31))) by lia. cbn [andb rbind].
  rewrite (proj2 (Z.ltb_lt _ _)) by lia. by rewrite touch_touch.
Qed.

Lemma al_try a macro k b blocks bytes :
  alloc_ok a macro -> 0 <= b < cell_numBands -> 0 <= blocks <= 110 -> 0 <= bytes -> (bytes = 0 -> blocks = 0) ->
  exists r a', addBlocks_on a MACRO b k blocks bytes = Ok (r, a') /\ alloc_ok a' (try_add k macro (b, (blocks, bytes))).
Proof.
  intros Ha Hb Hbl Hby Hz. unfold try_add. cbn [fst snd]. destruct (Z.leb_spec blocks (free macro b)).
  - destruct (Z.ltb_spec 0 bytes); cbn [andb].
    + destruct (al_add a macro k b blocks bytes Ha Hb) as (a' & E & Ha'); [lia|lia|]. by exists true, a'.
    + replace bytes with 0 by lia. rewrite Hz by lia. exists false, (touch_ue a k). split; [by eapply add_nothing|by apply al_touch].
  - exists false, (touch_ue a k). split; [apply (add_refused a macro); [done|done|lia]|by apply al_touch].
Qed.

(** A band of the cell with a limit for the first codeword. *)
Definition placed (e : BandLimit) : Prop := 0 <= band_ e < cell_numBands /\ is_Some (vget (limit_ e) 0).

Lemma open_placed lims : Forall open_limit lims -> Forall placed lims.
Proof. intros Hlims. eapply Forall_impl; [exact Hlims|]. intros e [Hb Hl]. split; [done|]. destruct Hl as [->| ->]; eauto. Qed.

Lemma vset_map {A B} (f : A -> B) l i x y l' : vget l i = Some y -> f y = f x -> vset l i x = Some l' -> map f l' = map f l.
Proof.
  intros Hy Hf [Hi ->]%vset_inv. change (map f (<[Z.to_nat i:=x]> l)) with (f <$> <[Z.to_nat i:=x]> l). rewrite list_fmap_insert. apply list_insert_id.
  rewrite list_lookup_fmap. unfold vget in Hy. destruct (0 <=? i); [|done]. rewrite Hy. cbn. by rewrite Hf.
Qed.

Lemma set_limit_placed l i x :
  Forall placed l -> 0 <= i < vsize l -> exists l', set_limit l i 0 x = Ok l' /\ Forall placed l' /\ map band_ l' = map band_ l.
Proof.
  intros Hl Hi. destruct (vget_is_Some l i Hi) as [e He]. pose proof (vget_Forall _ _ _ _ Hl He) as [Hb [y Hlim]].
  unfold set_limit, vat. rewrite He. cbn [rbind]. destruct (vset_is_Some (limit_ e) 0 x (vget_Some_bounds _ _ _ Hlim)) as [ls Hls]. rewrite Hls.
  destruct (vset_is_Some l i {| band_ := band_ e; limit_ := ls |} Hi) as [l' Hl']. rewrite Hl'. exists l'. split; [done|]. split.
  - eapply vset_Forall; [exact Hl| |exact Hl']. split; [done|]. exists x. exact (vget_vset_eq _ _ _ _ Hls).
  - by eapply vset_map; [exact He| |exact Hl'].
Qed.

Lemma dl_book_ok nodeId assigned : forall s macro lims i,
  alloc_ok (allocator_ s) macro -> Forall placed lims -> 0 <= i -> i + vsize assigned <= vsize lims ->
  Forall (fun e => 0 <= e.1 <= 110 /\ 0 <= e.2 /\ (e.2 = 0 -> e.1 = 0)) assigned ->
  exists lims' s', dl_book s nodeId MACRO 0 0 lims i assigned = Ok (lims', s') /\ s' = s <| allocator_ := allocator_ s' |> /\
    alloc_ok (allocator_ s') (book_all nodeId macro (zip (drop (Z.to_nat i) (map band_ lims)) assigned)).
Proof.
  induction assigned as [|[blocks bytes] assigned IH]; intros s macro lims i Ha Hl Hi Hsize Hall; cbn [dl_book].
  { exists lims, s. rewrite zip_with_nil_r. split_and!; try done. by destruct s. }
  apply Forall_cons in Hall as [(Hbl & Hby & Hz) Hall]. rewrite length_cons in Hsize.
  destruct (vget_is_Some lims i) as [e He]; [lia|]. pose proof (vget_Forall _ _ _ _ Hl He) as [Hb _].
  unfold vat. rewrite He. cbn [Z.eqb rbind fst snd] in *.
  destruct (al_try (allocator_ s) macro nodeId (band_ e) blocks bytes Ha Hb Hbl Hby Hz) as (r & a' & -> & Ha'). cbn [rbind].
  destruct (set_limit_placed lims i (int32 bytes) Hl) as (lims' & -> & Hl' & Em); [lia|]. cbn [rbind].
  destruct (IH (s <| allocator_ := a' |>) (try_add nodeId macro (band_ e, (blocks, bytes))) lims' (i + 1)) as (lims2 & s2 & -> & E2 & A2); try done; [lia| |].
  { apply (f_equal length) in Em. rewrite !length_map in Em. lia. }
  exists lims2, s2. split; [done|]. split; [done|]. rewrite Em in A2.
  assert (Edrop : drop (Z.to_nat i) (map band_ lims) = band_ e :: drop (Z.to_nat (i + 1)) (map band_ lims)).
  { replace (Z.to_nat (i + 1)) with (S (Z.to_nat i)) by lia. apply drop_S. unfold vget in He. rewrite (proj2 (Z.leb_le 0 i)) in He by lia.
    change (map band_ lims) with (band_ <$> lims). by rewrite list_lookup_fmap, He. }
  by rewrite Edrop.
Qed.

(** *** One process *)

(** One codeword in the downlink. *)
Definition one_codeword (nodeId : Z) : Prop := exists info, computeTxParams nodeId DL = Ok info /\ vsize (getLayers info) = 1.

Lemma dl_all_bands_open : Forall open_limit dl_all_bands /\ open_bands dl_all_bands = seqZ 0 cell_numBands.
Proof.
  unfold dl_all_bands, open_bands. split.
  - apply Forall_forall. intros e [b [-> Hb%elem_of_seqZ]]%list_elem_of_fmap. split; [cbn; lia|]. by left.
  - induction (seqZ 0 cell_numBands) as [|b bands IH]; [done|]. cbn [map]. rewrite filter_cons_True by done. cbn [map]. by rewrite IH.
Qed.

Lemma process_status_ok m a p : proc_ok m a p -> exists st, getProcessStatus p = Ok st.
Proof.
  intros Hp. unfold getProcessStatus. rewrite (ok_num _ _ _ Hp). change (Z.to_nat MAX_CODEWORDS) with 2%nat. cbn [process_status_from].
  unfold getUnitStatus. destruct (unit_at_is_Ok m a p 0 Hp) as [u0 ->]; [by cbn|]. destruct (unit_at_is_Ok m a p (0 + 1) Hp) as [u1 ->]; [by cbn|].
  by eexists.
Qed.

Section Process.
Context (m : Z) (Hm : 0 <= m < 255).

Definition limits_of (lims : option (list BandLimit)) : list BandLimit := match lims with Some l => l | None => dl_all_bands end.

(** What a retransmission does, by whether the bands carry the PDU. *)
Lemma dl_rtx_spec s tx macro nodeId a b p u lims :
  tx_ok nodeId DL -> one_codeword nodeId -> se_direction_ s = DL -> alloc_ok (allocator_ s) macro -> used_cws s nodeId = 0 ->
  tx !! nodeId = Some b -> buf_ok m b -> selectedAcid_ b = HARQ_NONE -> proc_at b a = Ok p -> unit_at p 0 = Ok u ->
  status_ u = TXHARQ_PDU_BUFFERED -> Forall open_limit (limits_of lims) ->
  let bands := open_bands (limits_of lims) in let len := uint32 (pduLength_ u) in
  exists s' lims', s' = s <| allocator_ := allocator_ s' |> /\
    if len <=? offered nodeId macro bands then
      dl_schedulePerAcidRtx s tx nodeId 0 a lims MACRO false = Ok (len, lims', count_codeword s' nodeId, <[nodeId := reselected b a p u]> tx) /\
      exists assigned, assigned.*2 = split_bytes (offer nodeId macro) len bands /\
        Forall2 (carried_by nodeId macro) (take (length assigned) bands) assigned /\
        alloc_ok (allocator_ s') (book_all nodeId macro (zip (map band_ (limits_of lims)) assigned))
    else dl_schedulePerAcidRtx s tx nodeId 0 a lims MACRO false = Ok (0, lims', s', tx) /\ alloc_ok (allocator_ s') macro.
Proof.
  intros Htx (info & Hinfo & Hone) Hdir Ha Hu Hb Hbok Hsel Hp Hunit Hst Hl bands len. unfold dl_schedulePerAcidRtx. rewrite Hdir, Hinfo. cbn [rbind].
  rewrite Hone. change (1 =? 1) with true. cbv iota. fold (limits_of lims).
  destruct (grant_prologue Hmimo s macro info nodeId DL Ha) as [-> Eant]. cbn [rbind getOFDMPlane]. rewrite (al_plane _ _ _ Ha), Eant. cbn [rbind].
  set (s1 := s <| allocator_ := touch_ue (allocator_ s) nodeId |>). unfold map_at. rewrite Hb. cbn [rbind].
  assert (Eold : pduLength b a 0 = Ok (pduLength_ u)) by (unfold pduLength, getPduLength; rewrite Hp; cbn [rbind]; by rewrite Hunit).
  rewrite Eold. unfold getProcess. rewrite (proj1 (proc_at_inv _ _ _) Hp). cbn [rbind].
  destruct (process_status_ok m a p (proc_at_ok m _ _ _ Hbok Hp)) as [ps ->]. cbn [rbind].
  change (used_cws s1 nodeId) with (used_cws s nodeId). rewrite Hu. change (uint16 0) with 0. fold len.
  pose proof (wrap_range 32 (pduLength_ u) ltac:(lia)) as Hlen. fold len in Hlen. destruct Hlen as [Hlen _].
  destruct (dl_share_ok nodeId macro (limits_of lims) s1 len Htx Hdir (al_touch _ _ nodeId Ha) Hl Hlen) as (assigned & s2 & -> & A1 & A2 & A3 & A4 & A5).
  cbn [rbind]. fold bands in A3, A4, A5 |- *. destruct (Z.leb_spec len (offered nodeId macro bands)).
  2: { rewrite (proj2 (Z.ltb_lt 0 _)) by lia. exists s2. eexists. split; [by rewrite A2|]. by split. }
  rewrite (proj2 (Z.ltb_ge 0 _)) by lia.
  assert (Hbands : (length bands <= length (limits_of lims))%nat) by (unfold bands, open_bands; rewrite length_map; apply length_filter).
  destruct (dl_book_ok nodeId assigned s2 macro (limits_of lims) 0 A1 (open_placed _ Hl)) as (lims2 & s3 & -> & B1 & B2); [done|lia| |].
  { apply Forall_forall. intros e [i Hi]%list_elem_of_lookup. destruct (Forall2_lookup_r _ _ _ _ _ A5 Hi) as (bd & _ & C1 & C2 & C3 & _).
    pose proof (free_range _ _ bd Ha). split; [lia|]. split; [lia|]. apply C3. }
  cbn [rbind negb Z.eqb]. change (uint8 1) with 1. destruct (buf_marked m b a p u Hbok Hsel Hp Hunit Hst) as (-> & _ & Elen). cbn [rbind]. rewrite Elen. cbn [rbind].
  exists s3. eexists. split; [by rewrite B1, A2|]. split; [reflexivity|]. exists assigned. by split_and!.
Qed.

(** *** All retransmissions *)

Section Loops.
Context (usableBandsList : gmap Z (list Z)) (rbs : Z) (s0 : LteSchedulerEnb) (tx0 : gmap Z LteHarqBufferTx).

(** Between two TTIs what was selected has been sent. *)
Definition flushed (tx : gmap Z LteHarqBufferTx) : Prop := map_Forall (fun _ b => buf_ok m b /\ selectedAcid_ b = HARQ_NONE) tx.

(** A UE the cell serves. *)
Definition served (nodeId : Z) : Prop :=
  tx_ok nodeId DL /\ one_codeword nodeId /\ exists bands, getUsableBands usableBandsList nodeId = Ok bands.

Context (Hdir : se_direction_ s0 = DL) (Htx0 : flushed tx0).

(** While the buffers are visited: the allocator and the codewords change, and a UE with a
    codeword is the only one whose buffer may have a process selected. *)
Record dl_ok (s : LteSchedulerEnb) (tx : gmap Z LteHarqBufferTx) : Prop := {
  do_frame : s = s0 <| allocator_ := allocator_ s |> <| allocatedCws_ := allocatedCws_ s |>;
  do_alloc : exists macro, alloc_ok (allocator_ s) macro /\ totalRbs macro = rbs;
  do_cws : forall k, used_cws s k = 0 \/ used_cws s k = 1;
  do_tx : map_Forall (fun n b' => exists b, tx0 !! n = Some b /\ (b' = b \/ (used_cws s n = 1 /\ retransmits b b'))) tx
}.

Lemma used_touch s n k : used_cws (touch_cws s n) k = used_cws s k.
Proof.
  unfold used_cws at 1. cbn. destruct (decide (k = n)) as [->|Hne]; [by rewrite lookup_insert_eq|by rewrite lookup_insert_ne].
Qed.

Lemma dl_ok_touch s tx n : dl_ok s tx -> dl_ok (touch_cws s n) tx.
Proof.
  intros [H1 H2 H3 H4]. split; [rewrite H1; by destruct s0|done|intros k; rewrite used_touch; apply H3|].
  intros k b' Hb. rewrite used_touch. exact (H4 k b' Hb).
Qed.

Lemma used_counted s n k : used_cws s n = 0 -> used_cws (count_codeword s n) k = if decide (k = n) then 1 else used_cws s k.
Proof.
  intros Hn. unfold used_cws in Hn |- *. cbn. destruct (decide (k = n)) as [->|Hne]; [rewrite lookup_insert_eq|by rewrite lookup_insert_ne].
  destruct (allocatedCws_ s !! n); cbn in *; by subst.
Qed.

Lemma band_limit_ok n : served n -> exists lims, getBandLimit usableBandsList n = Ok lims /\ Forall open_limit (limits_of lims).
Proof.
  intros (_ & _ & r & E). unfold getBandLimit. rewrite E. cbn [rbind]. eexists. split; [reflexivity|].
  destruct r as [l|]; [|apply dl_all_bands_open]. apply Forall_forall. intros e [b [-> Hb%elem_of_seqZ]]%list_elem_of_fmap.
  split; [cbn; lia|]. cbn. destruct (existsb _ l); [by left|by right].
Qed.

Lemma if_same {A} (c : bool) (x : A) : (if c then x else x) = x.
Proof. by destruct c. Qed.

(** Visiting a process leaves the buffer with as many processes, and the other buffers. *)
Definition dl_visited (n : Z) (b : LteHarqBufferTx) (tx tx' : gmap Z LteHarqBufferTx) : Prop :=
  (exists b', tx' !! n = Some b' /\ numProc_ b' = numProc_ b) /\ forall k, k <> n -> tx' !! k = tx !! k.

Lemma dl_codewords_ok s tx n b process :
  dl_ok s tx -> served n -> tx !! n = Some b -> 0 <= process < numProc_ b ->
  exists s' tx', dl_codewords usableBandsList s tx n process 1 (seqZ 0 1) = Ok (s', tx') /\ dl_ok s' tx' /\ dl_visited n b tx tx'.
Proof.
  intros Hok Hn Hb Hpr. change (seqZ 0 1) with [0]. cbn [dl_codewords]. apply (dl_ok_touch _ _ n) in Hok. set (s1 := touch_cws s n) in *. clearbody s1.
  assert (Hsame : dl_visited n b tx tx) by (split; [by exists b|done]).
  destruct (Z.eqb_spec (used_cws s1 n) 1) as [|Hu]; [by exists s1, tx|]. pose proof Hok as [O1 (macro & Ha & Ht) O3 O4].
  assert (Hz : used_cws s1 n = 0) by (destruct (O3 n); congruence). destruct (O4 n b Hb) as (b0 & Hb0 & [->|[Hu' _]]); [|by rewrite Hu' in Hz].
  destruct (Htx0 n b0 Hb0) as [Hbok Hsel]. pose proof (ok_count _ _ Hbok) as Hc. unfold HARQ_NONE in Hc.
  rewrite Hb. cbn [of_option rbind]. destruct (proc_at_is_Ok m b0 process Hbok Hpr) as [p Hp]. rewrite Hp. cbn [rbind].
  destruct (unit_at_is_Ok m process p 0 (proc_at_ok m _ _ _ Hbok Hp)) as [u Hunit]; [by cbn|]. unfold getUnitStatus. rewrite Hunit. cbn [rbind].
  destruct (decide (status_ u = TXHARQ_PDU_BUFFERED)) as [Hst|Hst]; [rewrite bool_decide_eq_true_2 by done|rewrite bool_decide_eq_false_2 by done; by exists s1, tx].
  cbn [negb]. destruct (band_limit_ok n Hn) as (lims & -> & Hl). cbn [rbind]. rewrite (wrap_small 8) by (unfold is_uint; lia). destruct Hn as (Htx & Hone & _).
  destruct (dl_rtx_spec s1 tx macro n process b0 p u lims Htx Hone ltac:(by rewrite O1) Ha Hz Hb Hbok Hsel Hp Hunit Hst Hl) as (s2 & lims' & E2 & Hrest).
  set (len := uint32 (pduLength_ u)) in Hrest.
  destruct (len <=? offered n macro (open_bands (limits_of lims))).
  - destruct Hrest as (-> & assigned & _ & _ & Ha2). cbn [rbind]. eexists _, _. split; [apply if_same|]. split.
    + assert (Hu2 : forall k, used_cws s2 k = used_cws s1 k) by (intros k; by rewrite E2). split.
      * rewrite E2, O1. by destruct s0.
      * eexists. split; [exact Ha2|]. by rewrite book_all_total.
      * intros k. rewrite used_counted by (by rewrite Hu2). case_decide; [by right|rewrite Hu2; apply O3].
      * intros k b' Hk. rewrite used_counted by (by rewrite Hu2). destruct (decide (k = n)) as [->|Hne].
        -- rewrite lookup_insert_eq in Hk. injection Hk as <-. exists b0. split; [done|]. right. split; [done|]. by exists process, p, u.
        -- rewrite lookup_insert_ne in Hk by done. rewrite Hu2. exact (O4 k b' Hk).
    + split; [eexists; split; [apply lookup_insert_eq|done]|]. intros k Hk. by rewrite lookup_insert_ne.
  - destruct Hrest as (-> & Ha2). cbn [rbind]. exists s2, tx. split; [apply if_same|]. split; [|done]. split; [rewrite E2, O1; by destruct s0|by exists macro| |];
      rewrite E2; done.
Qed.

Lemma dl_processes_ok n processes : forall s tx b,
  dl_ok s tx -> served n -> tx !! n = Some b -> Forall (fun i => 0 <= i < numProc_ b) processes ->
  exists s' tx', dl_processes usableBandsList s tx n 1 processes = Ok (s', tx') /\ dl_ok s' tx' /\ dl_visited n b tx tx'.
Proof.
  induction processes as [|i processes IH]; intros s tx b Hok Hn Hb Hi; cbn [dl_processes].
  { exists s, tx. split; [done|]. split; [done|]. split; [by exists b|done]. }
  apply Forall_cons in Hi as [Hi Hrest]. rewrite Hb. cbn [of_option rbind].
  destruct (do_tx _ _ Hok n b Hb) as (b0 & Hb0 & Hcase). destruct (Htx0 n b0 Hb0) as [Hbok _].
  assert (Hp : exists p, proc_at b i = Ok p).
  { destruct Hcase as [->|[_ (a & p & u & Hp & _ & _ & ->)]]; [by apply (proc_at_is_Ok m)|]. unfold reselected in *. rewrite (proc_at_bput _ _ p) by done.
    case_decide; [by eexists|by apply (proc_at_is_Ok m)]. }
  destruct Hp as [p ->]. cbn [rbind]. apply (dl_ok_touch _ _ n) in Hok.
  destruct (used_cws (touch_cws s n) n =? 1); [eexists _, tx; split; [reflexivity|]; split; [done|]; split; [by exists b|done]|].
  destruct (dl_codewords_ok _ tx n b i Hok Hn Hb Hi) as (s1 & tx1 & -> & Hok1 & (b1 & Hb1 & Enum) & Hothers). cbn [rbind].
  destruct (IH s1 tx1 b1 Hok1 Hn Hb1) as (s2 & tx2 & -> & Hok2 & (b2 & Hb2 & Enum2) & Hothers2); [by rewrite Enum|].
  exists s2, tx2. split; [done|]. split; [done|]. split; [exists b2; split; [done|congruence]|]. intros k Hk. by rewrite Hothers2, Hothers.
Qed.

Lemma dl_nodes_ok n : forall nodes s tx,
  (length nodes <= n)%nat -> dl_ok s tx -> NoDup nodes -> Forall (fun k => is_Some (tx !! k) /\ (getOmnetId amc_binder k <> 0 -> served k)) nodes ->
  exists s' tx', dl_nodes usableBandsList s tx nodes = Ok (s', tx') /\ dl_ok s' tx' /\
    forall k, getOmnetId amc_binder k <> 0 -> is_Some (tx !! k) -> is_Some (tx' !! k).
Proof.
  induction n as [|n IH]; intros [|node nodes] s tx Hn Hok Hd Hall; cbn [length] in Hn; try lia; cbn [dl_nodes]; try (by exists s, tx).
  apply Forall_cons in Hall as [[[b Hb] Hserved] Hall]. apply NoDup_cons in Hd as [Hni Hd].
  destruct (Z.eqb_spec (getOmnetId amc_binder node) 0) as [Hgone|Hhere].
  - assert (Hdel : dl_ok s (delete node tx)) by (destruct Hok; split; try done; by apply map_Forall_delete).
    assert (Hkeep : forall k, getOmnetId amc_binder k <> 0 -> is_Some (tx !! k) -> is_Some (delete node tx !! k)).
    { intros k Hk Hs. rewrite lookup_delete_ne; [done|congruence]. }
    destruct nodes as [|node2 nodes]; [by exists s, (delete node tx)|]. cbn [length] in Hn.
    destruct (IH nodes s (delete node tx)) as (s' & tx' & E & Hok' & Hk); [lia|done|by apply NoDup_cons in Hd as [_ Hd]| |].
    + apply Forall_cons in Hall as [_ Hall]. apply Forall_forall. intros k Hin. rewrite Forall_forall in Hall. destruct (Hall k Hin) as [Hs Hsv].
      split; [|done]. rewrite lookup_delete_ne; [done|]. intros <-. apply Hni. by right.
    + exists s', tx'. split; [done|]. split; [done|]. intros k Hne Hs. by apply Hk, Hkeep.
  - rewrite Hb. cbn [of_option rbind]. pose proof (Hserved Hhere) as (_ & (info & Hinfo & Hone) & _).
    assert (Edir : se_direction_ s = DL) by (by rewrite (do_frame _ _ Hok)). rewrite Edir, Hinfo. cbn [rbind]. rewrite Hone.
    destruct (dl_processes_ok node (seqZ 0 (numProc_ b)) s tx b Hok (Hserved Hhere) Hb) as (s1 & tx1 & -> & Hok1 & (b1 & Hb1 & _) & Hothers).
    { apply Forall_forall. intros i Hi%elem_of_seqZ. lia. }
    assert (Hkeep : forall k, is_Some (tx !! k) -> is_Some (tx1 !! k)).
    { intros k Hs. destruct (decide (k = node)) as [->|Hne]; [by exists b1|by rewrite Hothers]. }
    cbn [rbind]. destruct (IH nodes s1 tx1) as (s' & tx' & E & Hok' & Hk); [lia|done|done| |].
    + apply Forall_forall. intros k Hin. rewrite Forall_forall in Hall. destruct (Hall k Hin) as [Hs Hsv]. split; [by apply Hkeep|done].
    + exists s', tx'. split; [done|]. split; [done|]. intros k Hne Hs. by apply Hk, Hkeep.
Qed.

Lemma dl_rtxschedule_ok s :
  dl_ok s tx0 -> (forall n, is_Some (tx0 !! n) -> getOmnetId amc_binder n <> 0 -> served n) ->
  exists full s' tx', dl_rtxschedule usableBandsList s tx0 = Ok (full, s', tx') /\ dl_ok s' tx' /\
    forall k, getOmnetId amc_binder k <> 0 -> is_Some (tx0 !! k) -> is_Some (tx' !! k).
Proof.
  intros Hok Hserved. unfold dl_rtxschedule.
  destruct (dl_nodes_ok (length (ascending tx0)) (ascending tx0) s tx0) as (s' & tx' & -> & Hok' & Hk); [lia|done|apply ascending_NoDup| |].
  { apply Forall_forall. intros n Hn%elem_of_ascending. split; [done|by apply Hserved]. }
  cbn [rbind]. destruct (do_alloc _ _ Hok') as (macro & Ha & _). destruct (al_total _ _ Ha) as [-> _]. cbn [rbind].
  eexists _, s', tx'. by split_and!.
Qed.
End Loops.

(** *** What is sent for a retransmission *)

(** The PDU of the unit is sent once more, and alone; the buffer is ready for the next TTI. *)
Definition sent_again (NOW : Z) (b b' : LteHarqBufferTx) : Prop :=
  exists a p u pkt b2, proc_at b a = Ok p /\ unit_at p 0 = Ok u /\ status_ u = TXHARQ_PDU_BUFFERED /\ b' = reselected b a p u /\
    sendSelectedDown NOW b' = Ok ([pkt], b2) /\ sent_for m a u 0 pkt /\ buf_ok m b2 /\ selectedAcid_ b2 = HARQ_NONE.

Lemma only_marked a p u :
  proc_ok m a p -> numSelected_ p = 0 -> unit_at p 0 = Ok u ->
  where_ unit_isMarked (units_ (put p 0 (u <| status_ := TXHARQ_PDU_SELECTED |>) (dropped_ p))) = [0].
Proof.
  intros Hp Hz Hu. destruct (two_units m a p Hp) as (u0 & u1 & E).
  assert (Hu1 : unit_at p 1 = Ok u1) by (unfold unit_at; by rewrite E).
  pose proof (none_marked m a p 1 u1 Hp Hz Hu1) as Hne. set (u' := u <| status_ := TXHARQ_PDU_SELECTED |>).
  unfold put. cbn [units_]. rewrite E. change (<[Z.to_nat 0:=u']> [u0; u1]) with [u'; u1]. unfold where_. cbn [List.filter].
  change (vget [u'; u1] 0) with (Some u'). change (vget [u'; u1] 1) with (Some u1). cbv iota. change (unit_isMarked u') with true. cbv iota.
  destruct (unit_isMarked u1) eqn:E1; [|reflexivity]. by apply marked_status in E1.
Qed.

Lemma retransmission_sent NOW b b' : buf_ok m b -> selectedAcid_ b = HARQ_NONE -> retransmits b b' -> sent_again NOW b b'.
Proof.
  intros Hb Hsel (a & p & u & Hp & Hu & Hs & ->). pose proof (proc_at_ok m _ _ _ Hb Hp) as Hpok.
  destruct (proc_marked m a p u Hpok Hu Hs) as [_ Hu']. destruct (buf_marked m b a p u Hb Hsel Hp Hu Hs) as (_ & Hb' & _).
  destruct (send_spec m Hm NOW _ Hb') as (sent & b2 & E & Hb2 & Hsel2 & _). pose proof (proc_at_bounds m _ _ _ Hb Hp) as Ha.
  pose proof (ok_count _ _ Hb) as Hc. unfold HARQ_NONE in Hc.
  assert (Hz : numSelected_ p = 0) by (apply (ok_only _ _ Hb a p); [by apply proc_at_inv|rewrite Hsel; unfold HARQ_NONE; lia]).
  set (p' := put p 0 (u <| status_ := TXHARQ_PDU_SELECTED |>) (dropped_ p)). assert (Hp' : proc_ok m a p') by (by eapply put_ok).
  assert (Hu2 : unit_at p' 0 = Ok (u <| status_ := TXHARQ_PDU_SELECTED |>)) by (unfold p'; by erewrite unit_at_put).
  destruct (send_units_spec m a Hm NOW [0] p' Hp') as (pkts & p2 & Es & _ & _ & Hall & _); [apply NoDup_singleton| |].
  { intros c ->%list_elem_of_singleton. by eexists. }
  apply Forall2_cons_inv_l in Hall as (pkt & rest & (v & Hv & Hsent) & Hrest & ->). apply Forall2_nil_inv_l in Hrest as ->.
  rewrite Hu2 in Hv. injection Hv as <-.
  assert (Ewhere : selectedUnitsIds p' = Ok [0]) by (rewrite (selected_where m a p' Hp'); f_equal; exact (only_marked a p u Hpok Hz Hu)).
  assert (Esend : exists b3, sendSelectedDown NOW (reselected b a p u) = Ok ([pkt], b3)).
  { unfold sendSelectedDown. change (selectedAcid_ (reselected b a p u)) with a. rewrite (proj2 (Z.eqb_neq _ _)) by (unfold HARQ_NONE; lia).
    assert (Hat : proc_at (reselected b a p u) a = Ok p') by (unfold reselected; rewrite (proc_at_bput _ _ p) by done; by rewrite decide_True).
    rewrite Hat. cbn [rbind]. rewrite Ewhere. cbn [rbind]. rewrite Es. cbn [rbind]. rewrite (set_proc_eq _ a p') by done. by eexists. }
  destruct Esend as [b3 Esend]. rewrite E in Esend. injection Esend as -> _. exists a, p, u, pkt, b2. by split_and!.
Qed.

(** *** A TTI *)

Section Turns.
Context (usableBandsList : gmap Z (list Z)) (numRbDl : Z) (known : Z -> Prop).
Context (Hrb : 0 <= numRbDl < 2 ^ 31) (Hnarrow : numRbDl / cell_numBands <= 110).
Context (Hparams : forall cid, known cid -> params_ok DL cid).
Context (Hknown : forall cid, known cid -> getOmnetId amc_binder (MacCidToNodeId cid) <> 0 -> tx_ok (MacCidToNodeId cid) DL).

(** The downlink between two TTIs. *)
Record downlink_ok (d : LteDrr) (s : LteSchedulerEnb) (vbuf : gmap Z LteMacBuffer) : Prop := {
  wo_dir : se_direction_ s = DL;
  wo_lims : emptyBandLim_ s = [] \/ emptyBandLim_ s = all_bands;
  wo_list : circ_ok (activeList_ d);
  wo_known : Forall known (ring (activeList_ d));
  wo_bufs : forall cid, known cid -> exists conn l, vbuf !! cid = Some conn /\ holds conn l;
  wo_keys : forall cid, is_Some (vbuf !! cid) -> params_ok DL cid
}.

(** While connections are granted: only those of UEs without a retransmission are. *)
Definition dl_inv (rtx : Z -> Z) (st : LteSchedulerEnb * gmap Z LteMacBuffer) : Prop :=
  sched_inv DL known (params_ok DL) numRbDl 0 st /\ (forall k, 0 < rtx k -> 0 < used_cws st.1 k) /\
  forall cid cw, is_Some (se_scheduleList_ st.1 !! (cid, cw)) -> cw = 0 /\ rtx (MacCidToNodeId cid) = 0.

Lemma dl_grant_laws check rtx :
  (forall k, 0 <= rtx k) -> (forall nodeId, exists free cw, check nodeId 0 = Ok (free, cw) /\ 0 <= cw) ->
  GrantLaws (requestGrant check) (dl_inv rtx) known node_busy.
Proof.
  intros Hrtx Hcheck.
  assert (Hk : forall cid, known cid -> getOmnetId amc_binder (MacCidToNodeId cid) <> 0 -> tx_ok (MacCidToNodeId cid) (grant_direction DL (MacCidToLcid cid))) by exact Hknown.
  pose proof (requestGrant_spec Hdl Hul Hmimo check DL known (params_ok DL) numRbDl 0 Hcheck (or_introl eq_refl) Hmany (Z.le_refl 0) Hparams Hk) as Hspec.
  pose proof (enb_grant_laws Hdl Hul Hmimo check DL known (params_ok DL) numRbDl 0 Hcheck (or_introl eq_refl) Hmany (Z.le_refl 0) Hparams Hk) as Hlaws.
  split. intros st cid bytes (Hst & Hused & Hlist) Hcid. destruct (Hspec st cid bytes Hst Hcid) as (n & f & st' & E & Hst' & Hg).
  destruct (grant_law st cid bytes Hst Hcid) as (n2 & f2 & st2 & E2 & _ & L1 & L2 & L3). rewrite E in E2. injection E2 as <- <- <-.
  exists n, f, st'. split; [done|]. split; [|done]. split; [done|]. split.
  - intros k Hpos. specialize (L3 k). unfold node_busy in L3. specialize (Hused k Hpos).
    rewrite (proj2 (Z.ltb_lt 0 (used_cws st.1 k)) Hused) in L3. specialize (L3 eq_refl). lia.
  - intros c cw Hin. destruct Hg as [(_ & El & _)|(Hz & _ & x & El)]; rewrite El in Hin; [by apply Hlist|].
    destruct (decide ((cid, 0) = (c, cw))) as [[= <- <-]|Hne]; [|rewrite lookup_insert_ne in Hin by done; by apply Hlist].
    split; [done|]. destruct (decide (0 < rtx (MacCidToNodeId cid))) as [Hpos|]; [|specialize (Hrtx (MacCidToNodeId cid)); lia].
    specialize (Hused _ Hpos). lia.
Qed.

(** What the retransmissions leave. *)
Lemma rtx_phase NOW tx (s : LteSchedulerEnb) :
  se_direction_ s = DL -> flushed tx -> (forall n, is_Some (tx !! n) -> getOmnetId amc_binder n <> 0 -> served usableBandsList n) ->
  exists full s2 tx2 macro, dl_rtxschedule usableBandsList (clear_schedule (s <| resourceBlocks_ := numRbDl |>)) tx = Ok (full, s2, tx2) /\
    alloc_ok (allocator_ s2) macro /\ totalRbs macro = numRbDl /\ se_direction_ s2 = DL /\ se_scheduleList_ s2 = ∅ /\ emptyBandLim_ s2 = emptyBandLim_ s /\
    (forall k, 0 <= used_cws s2 k) /\ map_Forall (fun n b' => exists b, tx !! n = Some b /\ (b' = b \/ sent_again NOW b b')) tx2 /\
    (forall n b', used_cws s2 n = 0 -> tx2 !! n = Some b' -> tx !! n = Some b') /\
    (forall nodeId, exists free cw, dl_checkEligibility tx2 nodeId 0 = Ok (free, cw) /\ 0 <= cw) /\
    (forall n, getOmnetId amc_binder n <> 0 -> is_Some (tx !! n) -> is_Some (tx2 !! n)).
Proof.
  intros Hdir Hflushed Hserved. set (s1 := clear_schedule (s <| resourceBlocks_ := numRbDl |>)).
  destruct (new_tti Hmany (allocator_ s) numRbDl Hrb Hnarrow) as (macro0 & Ha0 & _ & Ht).
  assert (Hok : dl_ok numRbDl s1 tx s1 tx).
  { split; [by destruct s|by exists macro0|intros k; left; unfold used_cws; cbn; by rewrite lookup_empty|]. intros n b Hb. exists b. split; [done|by left]. }
  destruct (dl_rtxschedule_ok usableBandsList numRbDl s1 tx Hdir Hflushed s1 Hok Hserved) as (full & s2 & tx2 & -> & [F2 (macro2 & Ha2 & Ht2) U2 T2] & Hkeep).
  exists full, s2, tx2, macro2. split; [done|]. split; [done|]. split; [done|]. split; [by rewrite F2|]. split; [by rewrite F2|]. split; [by rewrite F2|].
  split; [intros k; destruct (U2 k) as [->| ->]; lia|]. split.
  { intros n b' Hb'. destruct (T2 n b' Hb') as (b & Hb & Hcase). exists b. split; [done|]. destruct Hcase as [->|[_ Hr]]; [by left|right].
    destruct (Hflushed n b Hb) as [Hbok Hsel]. by apply retransmission_sent. }
  split. { intros n b' Hz Hb'. destruct (T2 n b' Hb') as (b & Hb & [->|[Hu _]]); [done|by rewrite Hz in Hu]. }
  split; [|done]. intros nodeId. apply (dl_eligible m). intros n b' Hb'. destruct (T2 n b' Hb') as (b & Hb & Hcase).
  destruct (Hflushed n b Hb) as [Hbok Hsel]. destruct Hcase as [->|[_ (a & p & u & Hp & Hu & Hst & ->)]]; [done|]. apply (buf_marked m b a p u Hbok Hsel Hp Hu Hst).
Qed.

(** C12. A downlink TTI of an eNB under the deficit round robin ends without error, whatever
    PDUs were not acknowledged, whatever bands UEs may use and whatever is queued: it takes no
    more blocks than the cell has; the H-ARQ buffer of a UE is either as before or sends, at the
    end of the TTI, exactly one of its unacknowledged PDUs again, with the next transmission
    number; only UEs that are not sent such a PDU are scheduled new data; no buffer of a UE that
    is there is lost; and after the buffers are flushed the next TTI can start. *)
Theorem downlink_tti NOW tx d s vbuf :
  downlink_ok d s vbuf -> flushed tx -> (forall n, is_Some (tx !! n) -> getOmnetId amc_binder n <> 0 -> served usableBandsList n) ->
  exists d' s' vbuf' tx', enb_downlink usableBandsList numRbDl tx d s vbuf = Ok (d', s', vbuf', tx') /\ downlink_ok d' s' vbuf' /\
    (exists macro, alloc_ok (allocator_ s') macro /\ totalRbs macro = numRbDl /\ 0 <= allocatedRbs macro <= numRbDl) /\
    map_Forall (fun n b' => exists b, tx !! n = Some b /\ (b' = b \/ sent_again NOW b b')) tx' /\
    (forall cid cw, is_Some (se_scheduleList_ s' !! (cid, cw)) -> cw = 0 /\
       forall b', tx' !! MacCidToNodeId cid = Some b' -> tx !! MacCidToNodeId cid = Some b') /\
    (forall n, getOmnetId amc_binder n <> 0 -> is_Some (tx !! n) -> is_Some (tx' !! n)).
Proof.
  intros [W1 W2 W3 W4 W5 W6] Hflushed Hserved. unfold enb_downlink, enb_schedule_dl.
  destruct (rtx_phase NOW tx s W1 Hflushed Hserved) as (full & s2 & tx2 & macro2 & -> & Ha2 & Ht2 & Edir & Hempty & Hlims & Hnonneg & Hsent & Hold & Hcheck & Hkeep).
  cbn [rbind].
  assert (Hfit : forall a macro, alloc_ok a macro -> totalRbs macro = numRbDl -> 0 <= allocatedRbs macro <= numRbDl).
  { intros a macro Ha Htot. pose proof (al_given _ _ Ha). lia. }
  destruct full.
  { exists d, s2, vbuf, tx2. split; [done|]. split; [split; try done; by rewrite Hlims|]. split; [exists macro2; split_and!; try done; by eapply Hfit|].
    split; [done|]. split; [|done]. intros cid cw. rewrite Hempty, lookup_empty. by intros [? ?]. }
  rewrite Edir. cbn [drr_updateSchedulingInfo].
  destruct (drr_infos_ok DL (used_cws s2) (ascending vbuf) d) as (d1 & -> & Ed).
  { apply Forall_forall. intros cid Hin%elem_of_ascending. by apply W6. }
  cbn [rbind].
  assert (Hinv : dl_inv (used_cws s2) (s2, vbuf)).
  { split; [split; cbn [fst snd]; try done|split; [done|]].
    - exists macro2. split; [done|]. split; [done|]. intros; discriminate.
    - rewrite Hempty. apply map_Forall_empty.
    - by rewrite Hlims.
    - cbn. intros cid cw. rewrite Hempty, lookup_empty. by intros [? ?]. }
  pose proof (dl_grant_laws (dl_checkEligibility tx2) (used_cws s2) Hnonneg Hcheck) as Hlaws.
  edestruct (drr_schedule_ok (requestGrant (dl_checkEligibility tx2)) _ known node_busy amc_binder d1 (s2, vbuf)) as (d2 & st & -> & Hst & Hc & Hk); [by rewrite Ed|by rewrite Ed|exact Hinv|].
  cbn [rbind]. destruct Hst as ([S1 (macro & Sa & St & _) _ _ S5 S6 S7] & _ & Slist). exists d2, st.1, st.2, tx2. split; [done|].
  split; [by split|]. split; [exists macro; split_and!; try done; by eapply Hfit|]. split; [done|]. split; [|done].
  intros cid cw Hin. destruct (Slist cid cw Hin) as [-> Hz]. split; [done|]. intros b'. by apply Hold.
Qed.
End Turns.

(** *** The blocks of a retransmission *)

Definition plan_bytes (plan : list (Z * (Z * Z))) : Z := foldr (fun e n => e.2.2 + n) 0 plan.
Definition plan_blocks (plan : list (Z * (Z * Z))) : Z := foldr (fun e n => e.2.1 + n) 0 plan.

Lemma split_total (room : Z -> Z) bands : (forall b, b ∈ bands -> 0 <= room b) -> forall bytes,
  0 <= bytes <= foldr (fun b n => room b + n) 0 bands -> foldr Z.add 0 (split_bytes room bytes bands) = bytes.
Proof.
  induction bands as [|b bands IH]; intros Hroom bytes Hb; cbn [split_bytes foldr] in *; [lia|].
  pose proof (Hroom b ltac:(by left)). destruct (Z.eqb_spec (bytes - Z.min (room b) bytes) 0); [cbn; lia|].
  rewrite IH; [lia|intros b' Hb'; apply Hroom; by right|lia].
Qed.

(** Every request of a plan on distinct bands is granted. *)
Lemma plan_given nodeId plan : forall a macro,
  alloc_ok a macro -> NoDup plan.*1 -> Forall (fun e => 0 <= e.1 < cell_numBands /\ carried_by nodeId macro e.1 e.2) plan ->
  allocatedRbs (book_all nodeId macro plan) = allocatedRbs macro + plan_blocks plan.
Proof.
  induction plan as [|[b [k bytes]] plan IH]; intros a macro Ha Hd Hall; [cbn; lia|]. cbn [fmap list_fmap fst] in Hd. apply NoDup_cons in Hd as [Hni Hd].
  apply Forall_cons in Hall as [[Hb (Hk & Hby & Hiff & _)] Hall]. cbn [fst snd] in *.
  pose proof (free_range a macro b Ha) as Hf. destruct (al_try a macro nodeId b k bytes Ha Hb) as (r & a' & _ & Ha'); [lia|lia|apply Hiff|].
  assert (Hstep : allocatedRbs (try_add nodeId macro (b, (k, bytes))) = allocatedRbs macro + k /\
    forall b', b' <> b -> free (try_add nodeId macro (b, (k, bytes))) b' = free macro b').
  { revert Ha'. unfold try_add. cbn [fst snd]. rewrite (proj2 (Z.leb_le _ _)) by lia. destruct (Z.ltb_spec 0 bytes); cbn [andb]; intros Ha'.
    - split; [eapply al_add_given; [exact Ha|exact Hk|exact Ha']|]. intros b' Hb'. by apply free_other.
    - replace k with 0 by (symmetry; apply Hiff; lia). by rewrite Z.add_0_r. }
  destruct Hstep as [Eg Hfree]. unfold book_all in *. cbn [fold_left plan_blocks foldr fst snd]. fold (plan_blocks plan).
  rewrite (IH a' _ Ha' Hd); [lia|]. apply Forall_forall. intros [b2 e2] Hin. rewrite Forall_forall in Hall. destruct (Hall _ Hin) as (Hb2 & C1 & C2 & C3 & C4).
  assert (b2 <> b) by (intros ->; apply Hni; exact (list_elem_of_fmap_2 fst _ _ Hin)). split; [done|]. split; [by rewrite Hfree|done].
Qed.

Lemma zip_take {A B} (l : list A) : forall l' : list B, zip l l' = zip (take (length l') l) l'.
Proof. induction l as [|x l IH]; intros [|y l']; cbn; try done. by rewrite <- IH. Qed.

(** C13. A PDU that waits for retransmission to a UE that may use all bands and has no codeword
    in the TTI is served exactly if the free blocks of the bands carry its bytes: then blocks are
    booked band by band, on each no more than are free and as many as carry its share of the
    bytes, the shares make up the PDU, every request is granted, the unit is selected and the
    codeword is counted; otherwise the answer is 0 and neither the buffers nor the blocks change. *)
Theorem downlink_rtx_served s tx macro nodeId a b p u :
  tx_ok nodeId DL -> one_codeword nodeId -> se_direction_ s = DL -> alloc_ok (allocator_ s) macro -> used_cws s nodeId = 0 ->
  tx !! nodeId = Some b -> buf_ok m b -> selectedAcid_ b = HARQ_NONE -> proc_at b a = Ok p -> unit_at p 0 = Ok u ->
  status_ u = TXHARQ_PDU_BUFFERED -> 0 <= pduLength_ u < 2 ^ 32 ->
  exists s' lims', s' = s <| allocator_ := allocator_ s' |> /\
    if pduLength_ u <=? offered nodeId macro (seqZ 0 cell_numBands) then
      exists plan, dl_schedulePerAcidRtx s tx nodeId 0 a None MACRO false
          = Ok (pduLength_ u, lims', count_codeword s' nodeId, <[nodeId := reselected b a p u]> tx) /\
        plan.*1 = take (length plan) (seqZ 0 cell_numBands) /\ plan_bytes plan = pduLength_ u /\
        Forall (fun e => carried_by nodeId macro e.1 e.2) plan /\
        alloc_ok (allocator_ s') (book_all nodeId macro plan) /\ allocatedRbs (book_all nodeId macro plan) = allocatedRbs macro + plan_blocks plan
    else dl_schedulePerAcidRtx s tx nodeId 0 a None MACRO false = Ok (0, lims', s', tx) /\ alloc_ok (allocator_ s') macro.
Proof.
  intros Htx Hone Hdir Ha Hu Hb Hbok Hsel Hp Hunit Hst Hlen. destruct dl_all_bands_open as [Hopen Ebands].
  destruct (dl_rtx_spec s tx macro nodeId a b p u None Htx Hone Hdir Ha Hu Hb Hbok Hsel Hp Hunit Hst Hopen) as (s' & lims' & Es & Hcase).
  cbn [limits_of] in Hcase. rewrite Ebands, (wrap_small 32) in Hcase by exact Hlen. exists s', lims'. split; [done|].
  destruct (Z.leb_spec (pduLength_ u) (offered nodeId macro (seqZ 0 cell_numBands))) as [Hle|]; [|done]. set (bands := seqZ 0 cell_numBands) in *.
  destruct Hcase as (E & assigned & Esplit & Hcar & Hbook).
  assert (Emap : map band_ dl_all_bands = bands) by (unfold dl_all_bands; rewrite map_map; cbn; apply map_id). rewrite Emap, zip_take in Hbook.
  pose proof (Forall2_length _ _ _ Hcar) as Elen. set (plan := zip (take (length assigned) bands) assigned) in *.
  assert (E1 : plan.*1 = take (length assigned) bands) by (apply fst_zip; lia). assert (E2 : plan.*2 = assigned) by (apply snd_zip; lia).
  assert (Epl : length plan = length assigned) by (by rewrite <- E2, length_fmap).
  assert (Hplan : Forall (fun e => carried_by nodeId macro e.1 e.2) plan).
  { apply Forall_forall. intros [bd e] Hin. apply list_elem_of_lookup in Hin as [i Hi]. unfold plan in Hi. apply lookup_zip_with_Some in Hi as (x & y & [= <- <-] & Hx & Hy).
    exact (Forall2_lookup_lr _ _ _ _ _ _ Hcar Hx Hy). }
  exists plan. split; [done|]. split; [by rewrite E1, Epl|]. split; [|split; [done|split; [done|]]].
  - transitivity (foldr Z.add 0 assigned.*2); [rewrite <- E2; clear; induction plan as [|e plan IH]; [done|]; cbn; by rewrite <- IH|]. rewrite Esplit.
    apply split_total; [|exact (conj (proj1 Hlen) Hle)]. intros bd _. pose proof (offered_nonneg nodeId macro _ [bd] Htx Ha) as Ho. cbn in Ho. lia.
  - apply (plan_given nodeId plan (allocator_ s)); [done|rewrite E1; eapply sublist_NoDup; [apply NoDup_seqZ|apply sublist_take]|].
    apply Forall_forall. intros e Hin. rewrite Forall_forall in Hplan. split; [|by apply Hplan].
    assert (Hin1 : e.1 ∈ take (length assigned) bands) by (rewrite <- E1; by apply list_elem_of_fmap_2).
    apply elem_of_take in Hin1 as (i & Hi & _). apply list_elem_of_lookup_2, elem_of_seqZ in Hi. lia.
Qed.
End Process.
End Bands.

(** *** What goes wrong *)

(** A UE all of whose processes are in use is found eligible, as a UE without a buffer is: it is
    granted blocks, and the MAC layer finds no process for the PDU it makes and deletes it. *)
Lemma busy_ue_eligible tx id cw b :
  tx !! id = Some b -> selectedAcid_ b = HARQ_NONE -> vsize (processes_ b) = numProc_ b -> Forall (fun p => proc_isEmpty p = false) (processes_ b) ->
  firstAvailable b = Ok (HARQ_NONE, []) /\ dl_checkEligibility tx id cw = Ok (true, cw).
Proof.
  intros Hb Hsel Hsize Hall.
  assert (Hloop : forall n i, 0 <= i -> i + Z.of_nat n <= numProc_ b -> first_empty_from (processes_ b) n i = Ok HARQ_NONE).
  { induction n as [|n IH]; intros i Hi Hn; cbn [first_empty_from]; [done|]. destruct (vget_is_Some (processes_ b) i) as [p Hp]; [lia|].
    rewrite Hp. cbn [of_option rbind]. rewrite (vget_Forall _ _ _ _ Hall Hp). apply IH; lia. }
  assert (E : firstAvailable b = Ok (HARQ_NONE, [])) by (unfold firstAvailable; rewrite Hsel; cbn [Z.eqb Pos.eqb HARQ_NONE]; rewrite Hloop by lia; done).
  split; [done|]. unfold dl_checkEligibility. by rewrite Hb, E.
Qed.
