(* ===== verification/MaxCi.v ===== *)
(** * Disciplines that serve by score

    What [LteMaxCi] and [LtePf] share: the base class [LteScheduler]
    (src/simulte/src/stack/mac/scheduler/LteScheduler.h), its descriptors in a priority queue,
    the space a UE sees and the loop that serves the queue.  Equal scores are ordered by
    random draws, which are an argument. *)

From stdpp Require Import sorting.
From S2P Require Import Prelude.
From S2P Require Import LteCommon.
From S2P Require Import LteBinder.
From S2P Require Import Allocation.
From S2P Require Import Amc.
From S2P Require Import SchedulerEnb.
From S2P Require Import Drr.
From S2P Require Import MacQueue.
From S2P Require Import Doubles.
#[local] Open Scope Z_scope.

(** [LteScheduler]: the active connections and those of a schedule in preparation. *)
Record LteScheduler := { active_set : gset Z; temp_set : gset Z }.

#[export] Instance ltescheduler_eta : Eta LteScheduler := fun m => {| active_set := active_set m; temp_set := temp_set m |}.

Definition new_LteScheduler : LteScheduler := {| active_set := ∅; temp_set := ∅ |}.

(** [activeConnectionTempSet_ = activeConnectionSet_]. *)
Definition begin_schedule (m : LteScheduler) : LteScheduler := m <| temp_set := active_set m |>.

(** [activeConnectionSet_ = activeConnectionTempSet_]. *)
Definition commit_sets (m : LteScheduler) : LteScheduler := m <| active_set := temp_set m |>.

Definition forget (m : LteScheduler) (cid : Z) : LteScheduler :=
  m <| active_set := active_set m ∖ {[cid]} |> <| temp_set := temp_set m ∖ {[cid]} |>.

Definition add_active (m : LteScheduler) (cid : Z) : LteScheduler := m <| active_set := {[cid]} ∪ active_set m |>.

Definition remove_active (m : LteScheduler) (cid : Z) : LteScheduler := m <| active_set := active_set m ∖ {[cid]} |>.

(** [LteSchedulerEnb::removeActiveConnections], over a copy of the set. *)
Definition remove_active_node (m : LteScheduler) (nodeId : Z) : LteScheduler :=
  fold_left (fun m cid => if MacCidToNodeId cid =? nodeId then remove_active m cid else m) (in_order (active_set m)) m.

(** ** The queue *)

Section Queue.
Context {Score : Type} (lt eqb : Score -> Score -> bool).
Variable draw : nat -> bool.

(** [operator<]; an equal score takes a draw. *)
Definition desc_lt (x y : Z * Score) (k : nat) : bool * nat :=
  if lt x.2 y.2 then (true, k) else if eqb x.2 y.2 then (draw k, S k) else (false, k).

(** The queue from its top: [push] goes over what is less. *)
Fixpoint score_push (x : Z * Score) (queue : list (Z * Score)) (k : nat) : list (Z * Score) * nat :=
  match queue with
  | [] => ([x], k)
  | y :: queue' =>
      let (below, k) := desc_lt y x k in
      if below then (x :: queue, k) else let (queue', k) := score_push x queue' k in (y :: queue', k)
  end.

Context {S G : Type}.
Variable grant : S -> Z -> Z -> result (Z * Flags * S).
Variable note : G -> Z -> Z -> G.

(** The loop over the queue; [note] records the bytes granted.  A connection that could be
    granted more stays on the top. *)
Fixpoint serve_scores (fuel : nat) (queue : list (Z * Score)) (m : LteScheduler) (g : G) (s : S) : result (LteScheduler * G * S) :=
  match queue with
  | [] => Ok (m, g, s)
  | current :: queue' =>
      match fuel with
      | O => UB
      | Datatypes.S fuel =>
          let! (granted, flags, s) := grant s current.1 4294967295 in
          let g := note g current.1 granted in
          if terminate flags then Ok (m, g, s) else
          let queue := if negb (active flags) || negb (eligible flags) then queue' else queue in
          let m := if negb (active flags) then m <| temp_set := temp_set m ∖ {[current.1]} |> else m in
          serve_scores fuel queue m g s
      end
  end.

(** One turn for each connection, and one for a connection that stays and ends the TTI. *)
Definition serve_fuel (queue : list (Z * Score)) : nat := Datatypes.S (length queue).
End Queue.

(** ** What a UE can use *)

Section Space.
Context `{Amc}.

(** Over the bands of an antenna; the bytes are those of the blocks so far. *)
Fixpoint space_on (s : LteSchedulerEnb) (nodeId antenna : Z) (dir : Direction) (bands : list Z) (blocks bytes : Z) : result (Z * Z * LteSchedulerEnb) :=
  match bands with
  | [] => Ok (blocks, bytes, s)
  | b :: bands' =>
      let! (n, a) := availableBlocks_on (allocator_ s) nodeId antenna b in
      let blocks := uint32 (blocks + n) in
      let! more := computeBytesOnAll nodeId b blocks dir in
      space_on (s <| allocator_ := a |>) nodeId antenna dir bands' blocks (uint32 (bytes + more))
  end.

(** The iterator over the bands is at its end after the first antenna. *)
Definition total_space (s : LteSchedulerEnb) (nodeId : Z) (info : UserTxParams) (dir : Direction) : result (Z * Z * LteSchedulerEnb) :=
  match antennaSet_ info with
  | [] => Ok (0, 0, s)
  | antenna :: _ => space_on s nodeId antenna dir (allowedBands_ info) 0 0
  end.

(** A connection of the uplink subframe may be uplink or D2D. *)
Definition score_direction (dir : Direction) (cid : Z) : Direction :=
  match dir with
  | UL => if MacCidToLcid cid =? D2D_SHORT_BSR then D2D else if MacCidToLcid cid =? D2D_MULTI_SHORT_BSR then D2D_MULTI else UL
  | _ => DL
  end.
End Space.

(** ** Maximum C/I and proportional fairness

    [LteMaxCi] and [LtePf] (src/simulte/src/stack/mac/scheduling_modules/): connections are
    served in the order of their scores, the bytes a block carries, in [LtePf] over the
    long-term rate of the connection.  Random numbers are arguments. *)

#[local] Open Scope Z_scope.

(** The state of [LtePf]. *)
Record LtePf := {
  pf_sets : LteScheduler;
  pfRate_ : gmap Z float;
  grantedBytes_ : gmap Z Z;
  pfAlpha_ : float
}.

#[export] Instance ltepf_eta : Eta LtePf := fun p =>
  {| pf_sets := pf_sets p; pfRate_ := pfRate_ p; grantedBytes_ := grantedBytes_ p; pfAlpha_ := pfAlpha_ p |}.

Definition new_LtePf (pfAlpha : float) : LtePf :=
  {| pf_sets := new_LteScheduler; pfRate_ := ∅; grantedBytes_ := ∅; pfAlpha_ := pfAlpha |}.

Definition scoreEpsilon_ : float := flit 1 1000000.

Section Disciplines.
Context `{Amc} `{Cell}.
Variable draw : nat -> bool.
Variable check : Z -> Z -> result (bool * Z).

(** A connection of a node that is not in the simulation. *)
Definition has_left (cid : Z) : bool := (MacCidToNodeId cid =? 0) || (getOmnetId amc_binder (MacCidToNodeId cid) =? 0).

(** ** Maximum C/I *)

(** The score of a connection, unless it is not to be served. *)
Definition mc_score (s : LteSchedulerEnb) (cid : Z) : result (option Z * LteSchedulerEnb) :=
  let nodeId := MacCidToNodeId cid in
  let dir := score_direction (se_direction_ s) cid in
  let! info := computeTxParams nodeId dir in
  let! cqiNull := null_cqi (cqiVector_ info) (length (getLayers info)) in
  if cqiNull : bool then Ok (None, s) else
  if used_cws s nodeId =? vsize (getLayers info) then Ok (None, s) else
  let! (blocks, bytes, s) := total_space s nodeId info dir in
  Ok (Some (if 0 <? blocks then bytes / blocks else 0), s).

Fixpoint mc_scores (cids : list Z) (m : LteScheduler) (s : LteSchedulerEnb) (queue : list (Z * Z)) (k : nat)
    : result (LteScheduler * LteSchedulerEnb * list (Z * Z)) :=
  match cids with
  | [] => Ok (m, s, queue)
  | cid :: cids' =>
      if has_left cid then mc_scores cids' (forget m cid) s queue k else
      let! (score, s) := mc_score s cid in
      match score with
      | None => mc_scores cids' m s queue k
      | Some byPs => let (queue, k) := score_push Z.ltb Z.eqb draw (cid, byPs) queue k in mc_scores cids' m s queue k
      end
  end.

Definition mc_prepareSchedule (m : LteScheduler) (st : LteSchedulerEnb * gmap Z LteMacBuffer)
    : result (LteScheduler * (LteSchedulerEnb * gmap Z LteMacBuffer)) :=
  let m := begin_schedule m in
  let! (m, s, queue) := mc_scores (in_order (temp_set m)) m st.1 [] 0 in
  let! (m, _, st) := serve_scores (requestGrant check) (fun g _ _ => g) (serve_fuel queue) queue m tt (s, st.2) in
  Ok (m, st).

Definition mc_schedule (m : LteScheduler) (st : LteSchedulerEnb * gmap Z LteMacBuffer)
    : result (LteScheduler * (LteSchedulerEnb * gmap Z LteMacBuffer)) :=
  let! (m, st) := mc_prepareSchedule m st in Ok (commit_sets m, st).

(** ** Proportional fairness *)

(** The noise on a score, within half of [scoreEpsilon_]. *)
Variable noise : nat -> float.

Definition pf_rate (p : LtePf) (cid : Z) : float := default f0 (pfRate_ p !! cid).

(** The score, and how many numbers were drawn for it. *)
Definition pf_value (rate : float) (blocks bytes : Z) (k : nat) : float * nat :=
  if fltb rate scoreEpsilon_ then (fdiv (of_int 1) scoreEpsilon_, k)
  else if 0 <? blocks then (fadd (fdiv (of_int (bytes / blocks)) rate) (noise k), S k)
  else (f0, k).

Fixpoint pf_scores (cids : list Z) (p : LtePf) (s : LteSchedulerEnb) (queue : list (Z * float)) (k : nat)
    : result (LtePf * LteSchedulerEnb * list (Z * float)) :=
  match cids with
  | [] => Ok (p, s, queue)
  | cid :: cids' =>
      if has_left cid then pf_scores cids' (p <| pf_sets := forget (pf_sets p) cid |>) s queue k else
      let nodeId := MacCidToNodeId cid in
      let dir := score_direction (se_direction_ s) cid in
      let! info := computeTxParams nodeId dir in
      if used_cws s nodeId =? vsize (getLayers info) then pf_scores cids' p s queue k else
      let! cqiNull := null_cqi (cqiVector_ info) (length (getLayers info)) in
      if cqiNull : bool then pf_scores cids' p s queue k else
      let! (blocks, bytes, s) := total_space s nodeId info dir in
      let p := p <| pfRate_ := <[cid := pf_rate p cid]> (pfRate_ p) |> in
      let (score, k) := pf_value (pf_rate p cid) blocks bytes k in
      let (queue, k) := score_push fltb feqb draw (cid, score) queue k in
      pf_scores cids' p s queue k
  end.

(** [grantedBytes_[cid] += granted]. *)
Definition add_granted (g : gmap Z Z) (cid granted : Z) : gmap Z Z := <[cid := uint32 (default 0 (g !! cid) + granted)]> g.

Definition pf_prepareSchedule (p : LtePf) (st : LteSchedulerEnb * gmap Z LteMacBuffer)
    : result (LtePf * (LteSchedulerEnb * gmap Z LteMacBuffer)) :=
  let p := p <| grantedBytes_ := ∅ |> <| pf_sets := begin_schedule (pf_sets p) |> in
  let! (p, s, queue) := pf_scores (in_order (temp_set (pf_sets p))) p st.1 [] 0 in
  let! (m, granted, st) := serve_scores (requestGrant check) add_granted (serve_fuel queue) queue (pf_sets p) (grantedBytes_ p) (s, st.2) in
  Ok (p <| pf_sets := m |> <| grantedBytes_ := granted |>, st).

(** The long-term rate follows the bytes per block of the TTI. *)
Definition pf_update (pfAlpha : float) (total : Z) (rate : float) (granted : Z) : float :=
  let shortTermRate := if 0 <? total then fdiv (of_int granted) (of_int total) else f0 in
  fadd (fmul (fsub (of_int 1) pfAlpha) rate) (fmul pfAlpha shortTermRate).

Fixpoint pf_rates (pfAlpha : float) (total : Z) (granted : gmap Z Z) (cids : list Z) (rates : gmap Z float) : gmap Z float :=
  match cids with
  | [] => rates
  | cid :: cids' =>
      let rate := pf_update pfAlpha total (default f0 (rates !! cid)) (default 0 (granted !! cid)) in
      pf_rates pfAlpha total granted cids' (<[cid := rate]> rates)
  end.

Definition pf_commitSchedule (p : LtePf) (resourceBlocks : Z) : LtePf :=
  p <| pfRate_ := pf_rates (pfAlpha_ p) resourceBlocks (grantedBytes_ p) (ascending (grantedBytes_ p)) (pfRate_ p) |>
    <| pf_sets := commit_sets (pf_sets p) |>.

Definition pf_schedule (p : LtePf) (st : LteSchedulerEnb * gmap Z LteMacBuffer)
    : result (LtePf * (LteSchedulerEnb * gmap Z LteMacBuffer)) :=
  let! (p, st) := pf_prepareSchedule p st in
  Ok (pf_commitSchedule p (resourceBlocks_ st.1), st).
End Disciplines.
