(* ===== verification/MaxCiProps.v ===== *)
(** * Disciplines that serve by score: properties

    The queue is a permutation of the connections to be served, in the order of their scores;
    the loop over it ends, and asks for the connections in that order. *)

From stdpp Require Import sorting.
From S2P Require Import Prelude.
From S2P Require Import LteCommon.
From S2P Require Import LteBinder.
From S2P Require Import MacQueue.
From S2P Require Import Allocation.
From S2P Require Import AllocationProps.
From S2P Require Import Amc.
From S2P Require Import SchedulerEnb.
From S2P Require Import Drr.
From S2P Require Import SchedulerEnbProps.
From S2P Require Import MaxCi.
From S2P Require Import LcgProps.
From S2P Require Import Doubles.
From S2P Require Import SchedulerEnbUlProps.
#[local] Open Scope Z_scope.

(** ** The queue *)

Section Push.
Context {Score : Type} (lt eqb : Score -> Score -> bool) (draw : nat -> bool).

Lemma score_push_perm x queue : forall k, (score_push lt eqb draw x queue k).1 ≡ₚ x :: queue.
Proof.
  induction queue as [|y queue IH]; intros k; [done|]. cbn [score_push]. destruct (desc_lt lt eqb draw y x k) as [[] k1]; [done|].
  specialize (IH k1). destruct (score_push lt eqb draw x queue k1) as [q k2]. cbn in *. rewrite IH. apply perm_swap.
Qed.
End Push.

(** From the highest score down. *)
Definition best_first (queue : list (Z * Z)) : Prop := StronglySorted (fun x y => y.2 <= x.2) queue.

Lemma score_push_best draw x queue : forall k, best_first queue -> best_first (score_push Z.ltb Z.eqb draw x queue k).1.
Proof.
  induction queue as [|y queue IH]; intros k Hq; [by repeat constructor|]. cbn [score_push].
  unfold best_first in Hq. apply StronglySorted_inv in Hq as [Hq Hy].
  destruct (desc_lt Z.ltb Z.eqb draw y x k) as [b k1] eqn:E. unfold desc_lt in E.
  assert (Hle : if b then y.2 <= x.2 else x.2 <= y.2).
  { destruct (Z.ltb_spec y.2 x.2); [injection E as <- _; lia|]. destruct (Z.eqb_spec y.2 x.2); injection E as <- _; [destruct (draw k); lia|lia]. }
  destruct b; cbn.
  - constructor; [by constructor|]. constructor; [done|]. eapply Forall_impl; [exact Hy|]. cbn. lia.
  - specialize (IH k1 Hq). pose proof (score_push_perm Z.ltb Z.eqb draw x queue k1) as Hp.
    destruct (score_push Z.ltb Z.eqb draw x queue k1) as [q k2]. cbn in *. constructor; [done|]. rewrite Hp. by constructor.
Qed.

(** ** Serving *)

Section Serving.
Context {Score S G : Type} (grant : S -> Z -> Z -> result (Z * Flags * S)) (note : G -> Z -> Z -> G).
Context (inv : S -> Prop) (known : Z -> Prop) (busy : S -> Z -> bool) `{!GrantLaws grant inv known busy}.

(** One turn at the top, if it is not that of a node that has its codeword. *)
Definition fresh_top (s : S) (queue : list (Z * Score)) : nat :=
  match queue with [] => 0 | x :: _ => if busy s (MacCidToNodeId x.1) then 0 else 1 end.

(** Requests for everything, one after the other, with the bytes granted and the flags. *)
Inductive asks : S -> list (Z * Score * Z * Flags) -> S -> Prop :=
| asks_none s : asks s [] s
| asks_more s x n f s1 l s' :
    grant s x.1 4294967295 = Ok (n, f, s1) -> asks s1 l s' -> asks s ((x, n, f) :: l) s'.

(** The connections of the queue are asked in turn from the top, none skipped: those that
    were asked are the first of the queue, each once, but the last of them maybe a second
    time; no request but the last ends the TTI, and a connection is left unasked only when
    the last one does. *)
Definition in_turn (queue : list (Z * Score)) (asked : list (Z * Score * Z * Flags)) : Prop :=
  exists served rest, queue = served ++ rest /\
    (asked.*1.*1 = served \/ exists x, last served = Some x /\ asked.*1.*1 = served ++ [x]) /\
    (forall i e, asked !! i = Some e -> (Datatypes.S i < length asked)%nat -> terminate e.2 = false) /\
    (rest <> [] -> exists e, last asked = Some e /\ terminate e.2 = true).

(** The connections found to have nothing to send. *)
Definition dropped (asked : list (Z * Score * Z * Flags)) (cid : Z) : Prop :=
  exists e, e ∈ asked /\ e.1.1.1 = cid /\ terminate e.2 = false /\ active e.2 = false.

Lemma dropped_cons e l cid :
  dropped (e :: l) cid <-> (e.1.1.1 = cid /\ terminate e.2 = false /\ active e.2 = false) \/ dropped l cid.
Proof.
  unfold dropped. split.
  - intros (e' & [->|He]%elem_of_cons & H); [by left|right; eauto].
  - intros [H|(e' & He & H)]; [exists e; split; [by left|done]|exists e'; split; [by right|done]].
Qed.

Lemma in_turn_head x queue asked : in_turn (x :: queue) asked -> exists n f l, asked = (x, n, f) :: l.
Proof.
  intros ([|y served] & rest & Eq & Ha & _ & Hend).
  - destruct Ha as [Ha|(? & ? & _)]; [|done]. destruct asked; [|done].
    cbn in Eq. subst rest. by destruct Hend as (? & ? & _).
  - injection Eq as <- _. destruct asked as [|[[z n] f] l]; [by destruct Ha as [?|(? & ? & ?)]|].
    exists n, f, l. by destruct Ha as [Ha|(? & _ & Ha)]; injection Ha as -> _.
Qed.

Lemma in_turn_stop x queue n f : terminate f = true -> in_turn (x :: queue) [(x, n, f)].
Proof.
  intros Ht. exists [x], queue. split_and!; [done|by left| |by eexists].
  intros i e _ Hi. cbn in Hi. lia.
Qed.

Lemma in_turn_next x queue n f asked :
  terminate f = false -> in_turn queue asked -> in_turn (x :: queue) ((x, n, f) :: asked).
Proof.
  intros Ht (served & rest & -> & Ha & Hmid & Hend). exists (x :: served), rest. split_and!; [done|..].
  - cbn. destruct Ha as [->|(y & Hy & ->)]; [by left|]. right. exists y. by destruct served.
  - intros [|i] e He Hi; [by injection He as <-|]. apply (Hmid i e He). cbn in Hi. lia.
  - intros Hr. destruct (Hend Hr) as (e & He & Hte). exists e. by destruct asked.
Qed.

(** A connection that stays on the top is asked once more, which ends the TTI. *)
Lemma in_turn_again x queue n f s1 asked s' :
  inv s1 -> known x.1 -> terminate f = false -> busy s1 (MacCidToNodeId x.1) = true ->
  asks s1 asked s' -> in_turn (x :: queue) asked -> in_turn (x :: queue) ((x, n, f) :: asked).
Proof.
  intros Hs Hk Ht Hbusy Hasks Hturn. destruct (in_turn_head _ _ _ Hturn) as (n2 & f2 & l & ->).
  inversion Hasks as [|? ? ? ? s2 ? ? Eg]; subst.
  destruct (grant_law s1 x.1 4294967295 Hs Hk) as (? & ? & ? & Eg' & _ & Hterm & _).
  rewrite Eg in Eg'. injection Eg' as <- <- <-. specialize (Hterm Hbusy).
  assert (l = []) as ->.
  { destruct Hturn as (? & ? & _ & _ & Hmid & _). destruct l as [|e l]; [done|].
    assert (Hf : terminate f2 = false) by (apply (Hmid 0%nat (x, n2, f2)); [done|cbn; lia]). congruence. }
  exists [x], queue. split_and!; [done|right; by exists x| |by eexists].
  intros [|[|i]] e He Hi; cbn in *; [by injection He as <-|lia|lia].
Qed.

Lemma in_turn_elem queue asked e : in_turn queue asked -> e ∈ asked -> e.1.1 ∈ queue.
Proof.
  intros (served & rest & -> & Ha & _ & _) He.
  assert (Hin : e.1.1 ∈ asked.*1.*1) by (by apply list_elem_of_fmap_2, list_elem_of_fmap_2).
  apply elem_of_app. left. destruct Ha as [<-|(x & Hx & Ha)]; [done|]. rewrite Ha in Hin.
  apply elem_of_app in Hin as [?|Hin]; [done|]. apply list_elem_of_singleton in Hin as ->.
  by apply last_Some_elem_of.
Qed.

(** The loop ends; it asks the connections of the queue in turn, each recorded, and takes
    out of the set those that have nothing to send. *)
Lemma serve_scores_ok fuel : forall queue m g s,
  inv s -> Forall (fun x => known x.1) queue -> (length queue + fresh_top s queue <= fuel)%nat ->
  exists m' g' s' asked, serve_scores grant note fuel queue m g s = Ok (m', g', s') /\ inv s' /\
    asks s asked s' /\ in_turn queue asked /\
    g' = fold_left (fun g e => note g e.1.1.1 e.1.2) asked g /\
    (forall cid, cid ∈ temp_set m' <-> cid ∈ temp_set m /\ ~ dropped asked cid) /\ active_set m' = active_set m.
Proof.
  assert (Hnone : forall cid, ~ dropped [] cid) by (intros cid (? & []%elem_of_nil & _)).
  induction fuel as [|fuel IH]; intros queue m g s Hs Hk Hf; destruct queue as [|x queue]; cbn [serve_scores].
  1, 3: exists m, g, s, []; split_and!; try done; [constructor|by exists [], []; split_and!; [|left|..]|naive_solver].
  { cbn in Hf. lia. }
  apply Forall_cons in Hk as [Hx Hk]. cbn [length fresh_top] in Hf.
  destruct (grant_law s x.1 4294967295 Hs Hx) as (n & f & s1 & Eg & Hs1 & Hbusy & Hbooks & _). rewrite Eg. cbn [rbind].
  destruct (terminate f) eqn:Et.
  { exists m, (note g x.1 n), s1, [(x, n, f)]. split_and!; try done; [by econstructor; [exact Eg|constructor]|by apply in_turn_stop|].
    intros cid. rewrite dropped_cons. cbn. rewrite Et. naive_solver. }
  destruct (busy s (MacCidToNodeId x.1)) eqn:Eb; [discriminate (Hbusy eq_refl)|].
  set (m1 := if negb (active f) then _ else m).
  assert (Hm1 : active_set m1 = active_set m /\ forall cid l, cid ∈ temp_set m1 /\ ~ dropped l cid <->
    cid ∈ temp_set m /\ ~ dropped ((x, n, f) :: l) cid).
  { split; [unfold m1; by destruct (active f)|]. intros cid l. rewrite dropped_cons. unfold m1.
    destruct (active f) eqn:Ea; cbn; rewrite Ea, Et; [naive_solver|set_solver]. }
  destruct Hm1 as [Hm1 Hdrop]. destruct (negb (active f) || negb (eligible f)) eqn:Epop.
  - destruct (IH queue m1 (note g x.1 n) s1 Hs1 Hk) as (m' & g' & s' & asked & -> & A1 & Aa & A2 & A3 & A4 & A5).
    { assert (fresh_top s1 queue <= 1)%nat by (destruct queue; cbn; [lia|case_match; lia]). lia. }
    exists m', g', s', ((x, n, f) :: asked). split_and!; try done; [by eapply asks_more|by apply in_turn_next| |congruence].
    intros cid. by rewrite A4.
  - apply orb_false_iff in Epop as [Ea%negb_false_iff Ee%negb_false_iff]. specialize (Hbooks eq_refl Ea Ee).
    destruct (IH (x :: queue) m1 (note g x.1 n) s1 Hs1) as (m' & g' & s' & asked & -> & A1 & Aa & A2 & A3 & A4 & A5); [by constructor|..].
    { cbn [length fresh_top]. rewrite Hbooks. lia. }
    exists m', g', s', ((x, n, f) :: asked). split_and!; try done; [by eapply asks_more|exact (in_turn_again x queue n f s1 asked s' Hs1 Hx Et Hbooks Aa A2)| |congruence].
    intros cid. by rewrite A4.
Qed.

(** What is recorded does not matter. *)
Lemma serve_scores_note fuel : forall (queue : list (Z * Score)) m g s m' g' s',
  serve_scores grant note fuel queue m g s = Ok (m', g', s') -> serve_scores grant (fun (g : unit) _ _ => g) fuel queue m tt s = Ok (m', tt, s').
Proof.
  induction fuel as [|fuel IH]; intros [|x queue] m g s m' g' s' E; cbn [serve_scores] in *; try done; try by injection E as <- _ <-.
  apply rbind_Ok_inv in E as ([[n f] s1] & -> & E). cbn [rbind]. destruct (terminate f); [by injection E as <- _ <-|]. by eapply IH.
Qed.

Lemma serve_fuel_enough s queue : (length queue + fresh_top s queue <= serve_fuel queue)%nat.
Proof. unfold serve_fuel, fresh_top. destruct queue; [lia|]. case_match; lia. Qed.
End Serving.

(** ** Maximum C/I and proportional fairness: properties

    Both disciplines end and keep the books of the scheduler.  Maximum C/I asks for grants
    from the highest score down, where a score depends on what is free when the TTI begins;
    the rates of proportional fairness follow the bytes granted. *)

#[local] Open Scope Z_scope.

Section Scores.
Context `{Amc} `{Cell}.
Context (Hdl : scaled dlMcsTable_) (Hul : scaled ulMcsTable_) (Hmany : 0 < cell_numBands < 2 ^ 14).

(** ** The space of a UE *)

(** The blocks and bytes a UE sees, from what is free. *)
Fixpoint space_ref (macro : Antenna) (nodeId : Z) (dir : Direction) (bands : list Z) (blocks bytes : Z) : result (Z * Z) :=
  match bands with
  | [] => Ok (blocks, bytes)
  | b :: bands' =>
      let! more := computeBytesOnAll nodeId b (blocks + free macro b) dir in
      space_ref macro nodeId dir bands' (blocks + free macro b) (uint32 (bytes + more))
  end.

Lemma space_on_ref nodeId dir bands : forall s macro blocks bytes r,
  alloc_ok (allocator_ s) macro -> 0 <= blocks -> blocks + 110 * vsize bands < 2 ^ 32 -> space_ref macro nodeId dir bands blocks bytes = Ok r ->
  exists a, space_on s nodeId MACRO dir bands blocks bytes = Ok (r, s <| allocator_ := a |>) /\ alloc_ok a macro.
Proof.
  induction bands as [|b bands IH]; intros s macro blocks bytes r Ha Hb Hm E; cbn [space_ref space_on] in *.
  { injection E as <-. exists (allocator_ s). split; [by destruct s|done]. }
  rewrite length_cons in Hm. pose proof (free_range _ _ b Ha). rewrite (al_available _ _ nodeId b Ha). cbn [rbind].
  rewrite (wrap_small 32) by (unfold is_uint; lia). apply rbind_Ok_inv in E as (more & Em & E). rewrite Em. cbn [rbind].
  destruct (IH (s <| allocator_ := touch_ue (allocator_ s) nodeId |>) macro (blocks + free macro b) (uint32 (bytes + more)) r) as (a & Es & Ha'); [by apply al_touch| | |exact E|]; [lia|lia|].
  exists a. split; [|done]. rewrite Es. done.
Qed.

(** Every codeword has a quality, and so a row of a table. *)
Definition codeword_ok (info : UserTxParams) (cw : Z) : Prop :=
  vget (cqiVector_ info) cw = Some 0 \/ exists cqi layers, good_params info cw cqi layers.

(** The parameters of a UE that may be scored. *)
Record scorable (info : UserTxParams) : Prop := {
  sc_cqis : (length (getLayers info) <= length (cqiVector_ info))%nat;
  sc_rows : isValid_ info = false \/ forall cw, 0 <= cw < vsize (getLayers info) -> codeword_ok info cw;
  sc_antenna : hd_error (antennaSet_ info) = None \/ hd_error (antennaSet_ info) = Some MACRO;
  sc_bands : NoDup (allowedBands_ info) /\ Forall (fun b => 0 <= b < cell_numBands) (allowedBands_ info)
}.

Lemma bits_on_cws_ok info dir blocks cws : forall bits,
  Forall (codeword_ok info) cws -> dir <> UNKNOWN_DIRECTION -> 0 < blocks <= 110 -> exists n, bits_on_cws info blocks dir cws bits = Ok n.
Proof.
  induction cws as [|cw cws IH]; intros bits Hc Hdir Hb; cbn [bits_on_cws]; [by exists bits|].
  apply Forall_cons in Hc as [[Hz|(cqi & layers & Hg)] Hc].
  - rewrite Hz. cbn [Z.eqb]. by apply IH.
  - pose proof Hg as [_ Eq Hr El _]. rewrite Eq, (proj2 (Z.eqb_neq _ _)) by lia. rewrite El.
    destruct (tbs_row_ok Hdl Hul info cw cqi layers dir Hg Hdir) as (row & -> & Hlen & _). cbn [rbind].
    destruct (vget_is_Some row (blocks - 1)) as [n ->]; [lia|]. cbn [of_option rbind]. by apply IH.
Qed.

Lemma all_bytes_ok info id b blocks dir :
  computeTxParams id dir = Ok info -> scorable info -> dir <> UNKNOWN_DIRECTION -> 0 <= blocks <= 110 ->
  exists n, computeBytesOnAll id b blocks dir = Ok n.
Proof.
  intros Ei Hs Hdir Hb. unfold computeBytesOnAll. rewrite (proj2 (Z.ltb_ge _ _)) by lia.
  destruct (Z.eqb_spec blocks 0); [by exists 0|]. rewrite Ei. cbn [rbind].
  destruct (sc_rows _ Hs) as [->|Hc]; [by exists 0|]. destruct (isValid_ info); cbn [negb]; [|by exists 0].
  destruct (bits_on_cws_ok info dir blocks (seqZ 0 (vsize (getLayers info))) 0) as [bits ->]; [|done|lia|cbn [rbind]; by eexists].
  apply Forall_forall. intros cw Hcw%elem_of_seqZ. apply Hc. lia.
Qed.

Lemma bands_few bands : NoDup bands -> Forall (fun b => 0 <= b < cell_numBands) bands -> vsize bands <= cell_numBands.
Proof.
  intros Hd Hb. assert (Hs : bands ⊆+ seqZ 0 cell_numBands).
  { apply NoDup_submseteq; [done|]. intros b Hin. apply elem_of_seqZ. rewrite Forall_forall in Hb. specialize (Hb b Hin). cbn in Hb. lia. }
  apply submseteq_length in Hs. rewrite length_seqZ in Hs. lia.
Qed.

(** The blocks of different bands are no more than the cell has. *)
Lemma space_ref_ok a macro info id dir bands : forall blocks bytes,
  alloc_ok a macro -> computeTxParams id dir = Ok info -> scorable info -> dir <> UNKNOWN_DIRECTION ->
  0 <= blocks -> blocks + totalRbs macro / cell_numBands * vsize bands <= 110 -> exists r, space_ref macro id dir bands blocks bytes = Ok r.
Proof.
  induction bands as [|b bands IH]; intros blocks bytes Ha Ei Hs Hdir H0b Hb; cbn [space_ref]; [by eexists|].
  pose proof (free_range _ _ b Ha) as Hf. rewrite length_cons in Hb.
  assert (Hle : free macro b <= totalRbs macro / cell_numBands).
  { unfold free. pose proof (antenna_at_ok _ _ _ _ (al_books _ _ Ha) (al_antenna _ _ Ha)) as Hm.
    pose proof (band_ok_nonneg _ _ (band_of_ok _ _ b (proj1 (al_books _ _ Ha)) Hm)). lia. }
  assert (0 <= totalRbs macro / cell_numBands) by lia.
  destruct (all_bytes_ok info id b (blocks + free macro b) dir Ei Hs Hdir) as [n ->]; [nia|]. cbn [rbind]. apply IH; try done; [lia|nia].
Qed.

(** ** The scores *)

(** The score of a connection on a free space, if it is to be served. *)
Definition mc_ref (s : LteSchedulerEnb) (macro : Antenna) (cid : Z) : result (option Z) :=
  let nodeId := MacCidToNodeId cid in
  let dir := score_direction (se_direction_ s) cid in
  let! info := computeTxParams nodeId dir in
  let! cqiNull := null_cqi (cqiVector_ info) (length (getLayers info)) in
  if (cqiNull : bool) || (used_cws s nodeId =? vsize (getLayers info)) then Ok None else
  let! (blocks, bytes) := match antennaSet_ info with [] => Ok (0, 0) | _ => space_ref macro nodeId dir (allowedBands_ info) 0 0 end in
  Ok (Some (if 0 <? blocks then bytes / blocks else 0)).

Definition mc_listed (s : LteSchedulerEnb) (macro : Antenna) (cid : Z) : option (Z * Z) :=
  if has_left cid then None else match mc_ref s macro cid with Ok (Some v) => Some (cid, v) | _ => None end.

(** A connection can be scored. *)
Definition cid_scorable (dir : Direction) (cid : Z) : Prop :=
  exists info, computeTxParams (MacCidToNodeId cid) (score_direction dir cid) = Ok info /\ scorable info.

Lemma score_direction_known dir cid : score_direction dir cid <> UNKNOWN_DIRECTION.
Proof. unfold score_direction. by repeat case_match. Qed.

Lemma total_space_ok s macro id info dir :
  alloc_ok (allocator_ s) macro -> totalRbs macro <= 110 -> computeTxParams id dir = Ok info -> scorable info -> dir <> UNKNOWN_DIRECTION ->
  exists r a, match antennaSet_ info with [] => Ok (0, 0) | _ => space_ref macro id dir (allowedBands_ info) 0 0 end = Ok r /\
    total_space s id info dir = Ok (r, s <| allocator_ := a |>) /\ alloc_ok a macro.
Proof.
  intros Ha Ht Ei Hs Hdir. unfold total_space. destruct (sc_antenna _ Hs) as [Hh|Hh]; destruct (antennaSet_ info) as [|antenna l]; try done.
  { exists (0, 0), (allocator_ s). split_and!; [done|by destruct s|done]. }
  injection Hh as ->. destruct (sc_bands _ Hs) as [Hd Hb]. pose proof (bands_few _ Hd Hb) as Hfew.
  pose proof (al_given _ _ Ha) as Hg. pose proof (Z.mul_div_le (totalRbs macro) cell_numBands (proj1 Hmany)) as Hq.
  assert (0 <= totalRbs macro / cell_numBands) by (apply Z.div_pos; lia).
  destruct (space_ref_ok _ macro info id dir (allowedBands_ info) 0 0 Ha Ei Hs Hdir) as [r Er]; [lia|nia|].
  destruct (space_on_ref id dir (allowedBands_ info) s macro 0 0 r Ha) as (a & Es & Ha'); [lia|lia|done|]. exists r, a. split_and!; done.
Qed.

Lemma mc_score_ref s macro cid :
  alloc_ok (allocator_ s) macro -> totalRbs macro <= 110 -> cid_scorable (se_direction_ s) cid ->
  exists v a, mc_ref s macro cid = Ok v /\ mc_score s cid = Ok (v, s <| allocator_ := a |>) /\ alloc_ok a macro.
Proof.
  intros Ha Ht (info & Ei & Hs). unfold mc_ref, mc_score. rewrite Ei. cbn [rbind].
  destruct (null_cqi_ok _ _ (sc_cqis _ Hs)) as [[] ->]; cbn [rbind orb].
  { exists None, (allocator_ s). split_and!; [done|by destruct s|done]. }
  destruct (used_cws s (MacCidToNodeId cid) =? vsize (getLayers info)).
  { exists None, (allocator_ s). split_and!; [done|by destruct s|done]. }
  destruct (total_space_ok s macro (MacCidToNodeId cid) info _ Ha Ht Ei Hs (score_direction_known _ _)) as ([blocks bytes] & a & -> & -> & Ha').
  cbn [rbind]. by eexists _, a.
Qed.

Context (draw : nat -> bool).

Lemma gone_cons c cid cids :
  has_left cid = false -> ~ (c ∈ cid :: cids /\ has_left c = true) <-> ~ (c ∈ cids /\ has_left c = true).
Proof. intros E. rewrite elem_of_cons. split; intros Hn [Hc Hl]; apply Hn; [tauto|]. destruct Hc as [->|?]; [congruence|done]. Qed.

Lemma mc_scores_ref cids : forall m s macro queue k,
  alloc_ok (allocator_ s) macro -> totalRbs macro <= 110 -> Forall (fun cid => has_left cid = true \/ cid_scorable (se_direction_ s) cid) cids ->
  exists m' a queue', mc_scores draw cids m s queue k = Ok (m', s <| allocator_ := a |>, queue') /\ alloc_ok a macro /\
    queue' ≡ₚ queue ++ omap (mc_listed s macro) cids /\ (best_first queue -> best_first queue') /\
    (forall cid, cid ∈ temp_set m' <-> cid ∈ temp_set m /\ ~ (cid ∈ cids /\ has_left cid = true)).
Proof.
  induction cids as [|cid cids IH]; intros m s macro queue k Ha Ht Hc; cbn [mc_scores omap list_omap].
  { exists m, (allocator_ s), queue. rewrite app_nil_r. split_and!; try done; [by destruct s|set_solver]. }
  apply Forall_cons in Hc as [Hcid Hc]. unfold mc_listed at 1. destruct (has_left cid) eqn:Eleft.
  { destruct (IH (forget m cid) s macro queue k Ha Ht Hc) as (m' & a & queue' & E & A1 & A2 & A3 & A4).
    exists m', a, queue'. split_and!; try done. intros c. rewrite A4, elem_of_cons. cbn. set_solver. }
  destruct Hcid as [?|Hcid]; [done|]. destruct (mc_score_ref s macro cid Ha Ht Hcid) as (v & a1 & -> & -> & Ha1). cbn [rbind].
  set (s1 := s <| allocator_ := a1 |>).
  destruct v as [byPs|].
  - pose proof (score_push_perm Z.ltb Z.eqb draw (cid, byPs) queue k) as Hp. pose proof (score_push_best draw (cid, byPs) queue k) as Hbest.
    destruct (score_push Z.ltb Z.eqb draw (cid, byPs) queue k) as [q1 k1]. cbn [fst] in *.
    destruct (IH m s1 macro q1 k1 Ha1 Ht Hc) as (m' & a & queue' & E & A1 & A2 & A3 & A4).
    exists m', a, queue'. split_and!; try done; [|naive_solver|intros c; by rewrite gone_cons]. rewrite A2, Hp. change (mc_listed s1 macro) with (mc_listed s macro).
    cbn. apply Permutation_middle.
  - destruct (IH m s1 macro queue k Ha1 Ht Hc) as (m' & a & queue' & E & A1 & A2 & A3 & A4). exists m', a, queue'. split_and!; try done. intros c. by rewrite gone_cons.
Qed.

(** ** Maximum C/I *)

Section Turns.
Context (check : Z -> Z -> result (bool * Z)) (dir0 : Direction) (known keyed : Z -> Prop) (rbs lost : Z).
Context (Hlaws : GrantLaws (requestGrant check) (sched_inv dir0 known keyed rbs lost) known node_busy) (Hrbs : rbs <= 110).

(** The active connections are of UEs that are gone, or may be scored and granted. *)
Definition all_servable (X : gset Z) : Prop :=
  forall cid, cid ∈ X -> has_left cid = true \/ (known cid /\ cid_scorable dir0 cid).

Lemma in_order_elem X cid : cid ∈ in_order X <-> cid ∈ X.
Proof. unfold in_order. by rewrite merge_sort_Permutation, elem_of_elements. Qed.

Lemma all_servable_scorable X : all_servable X -> Forall (fun cid => has_left cid = true \/ cid_scorable dir0 cid) (in_order X).
Proof. intros HX. apply Forall_forall. intros cid Hin%in_order_elem. destruct (HX cid Hin) as [?|[_ ?]]; auto. Qed.

Lemma sched_inv_alloc s bufs macro a :
  sched_inv dir0 known keyed rbs lost (s, bufs) -> alloc_ok (allocator_ s) macro -> totalRbs macro = rbs ->
  (dir0 = UL -> sum_map id (se_scheduleList_ s) + lost = allocatedRbs macro) -> alloc_ok a macro ->
  sched_inv dir0 known keyed rbs lost (s <| allocator_ := a |>, bufs).
Proof. intros [H1 H2 H3 H4 H5 H6 H7] Ha Ht Hs Ha'. split; try done. by exists macro. Qed.

(** C14. A TTI under maximum C/I ends.  Connections of UEs that are gone are forgotten; the
    rest, if they can be served, are queued from the highest score down, where the score of
    a connection is the bytes a block carries on what is free when the TTI begins, and are
    asked for grants of everything in turn from the top of the queue, none skipped and none
    but the last asked again, until the queue is empty or a request ends the TTI.  The
    connections found to have nothing to send stop being active, the others stay; nothing
    else is granted, and the books of the scheduler stay good. *)
Theorem max_ci_best_first m st :
  sched_inv dir0 known keyed rbs lost st -> all_servable (active_set m) ->
  exists m' st' macro queue a asked, mc_schedule draw check m st = Ok (m', st') /\ sched_inv dir0 known keyed rbs lost st' /\
    alloc_ok (allocator_ st.1) macro /\ queue ≡ₚ omap (mc_listed st.1 macro) (in_order (active_set m)) /\ best_first queue /\
    asks (requestGrant check) (st.1 <| allocator_ := a |>, st.2) asked st' /\ in_turn queue asked /\
    forall cid, cid ∈ active_set m' <-> cid ∈ active_set m /\ has_left cid = false /\ ~ dropped asked cid.
Proof.
  intros Hst Hm. destruct st as [s bufs]. destruct (si_alloc _ _ _ _ _ _ Hst) as (macro & Ha & Ht & Hsum). pose proof (si_dir _ _ _ _ _ _ Hst) as Edir. cbn [fst snd] in *.
  unfold mc_schedule, mc_prepareSchedule. cbn [fst snd].
  destruct (mc_scores_ref (in_order (active_set m)) (begin_schedule m) s macro [] 0 Ha) as (m1 & a & queue & E & Ha' & Hq & Hbest & Htemp);
    [lia|rewrite Edir; by apply all_servable_scorable|].
  cbn [begin_schedule temp_set set] in Htemp |- *. rewrite E. cbn [rbind].
  assert (Hsorted : best_first queue) by (apply Hbest; constructor). cbn [app] in Hq.
  assert (Hk : Forall (fun x : Z * Z => known x.1) queue).
  { rewrite Hq. apply Forall_forall. intros x (cid & Hin%in_order_elem & Ex)%list_elem_of_omap. unfold mc_listed in Ex.
    destruct (has_left cid) eqn:El; [done|]. destruct (Hm cid Hin) as [?|[Hc _]]; [congruence|].
    destruct (mc_ref s macro cid) as [[v|]| |]; try done. by injection Ex as <-. }
  destruct (serve_scores_ok (requestGrant check) (fun (g : unit) _ _ => g) _ known node_busy (serve_fuel queue) queue m1 tt (s <| allocator_ := a |>, bufs))
    as (m' & [] & st' & asked & -> & A1 & Aa & A2 & _ & A4 & _); [by eapply sched_inv_alloc|done|apply serve_fuel_enough|].
  cbn [rbind]. eexists _, st', macro, queue, a, asked. split; [reflexivity|]. split_and!; try done.
  intros cid. cbn. rewrite A4, Htemp, in_order_elem. destruct (has_left cid); naive_solver.
Qed.

(** ** Proportional fairness *)

Context (noise : nat -> float).

Lemma pf_scores_ok (Q : Z -> Prop) cids : forall p s macro queue k,
  alloc_ok (allocator_ s) macro -> totalRbs macro <= 110 -> se_direction_ s = dir0 ->
  Forall (fun cid => has_left cid = true \/ (Q cid /\ cid_scorable dir0 cid)) cids -> Forall (fun x => Q x.1) queue ->
  exists p' a queue', pf_scores draw noise cids p s queue k = Ok (p', s <| allocator_ := a |>, queue') /\ alloc_ok a macro /\
    Forall (fun x => Q x.1) queue' /\ (forall cid, pf_rate p' cid = pf_rate p cid) /\
    active_set (pf_sets p') ⊆ active_set (pf_sets p) /\ temp_set (pf_sets p') ⊆ temp_set (pf_sets p) /\
    grantedBytes_ p' = grantedBytes_ p /\ pfAlpha_ p' = pfAlpha_ p.
Proof.
  induction cids as [|cid cids IH]; intros p s macro queue k Ha Ht Hdir Hc Hq; cbn [pf_scores].
  { exists p, (allocator_ s), queue. split_and!; try done. by destruct s. }
  apply Forall_cons in Hc as [Hcid Hc]. destruct (has_left cid) eqn:El.
  { edestruct (IH (p <| pf_sets := forget (pf_sets p) cid |>) s macro queue k Ha Ht Hdir Hc Hq) as (p' & a & queue' & E & A1 & A2 & A3 & A4 & A5 & A6 & A7).
    exists p', a, queue'. split_and!; try done; cbn in A4, A5; clear -A4 A5; set_solver. }
  destruct Hcid as [?|[Hknown (info & Ei & Hs)]]; [done|]. rewrite Hdir, Ei. cbn [rbind].
  destruct (used_cws s (MacCidToNodeId cid) =? vsize (getLayers info)); [by eapply IH|].
  destruct (null_cqi_ok _ _ (sc_cqis _ Hs)) as [[] ->]; cbn [rbind]; [by eapply IH|].
  destruct (total_space_ok s macro (MacCidToNodeId cid) info _ Ha Ht Ei Hs (score_direction_known _ _)) as ([blocks bytes] & a1 & _ & -> & Ha1).
  cbn [rbind]. set (p1 := p <| pfRate_ := _ |>). destruct (pf_value noise (pf_rate p1 cid) blocks bytes k) as [score k1].
  pose proof (score_push_perm fltb feqb draw (cid, score) queue k1) as Hp. destruct (score_push fltb feqb draw (cid, score) queue k1) as [q1 k2]. cbn [fst] in Hp.
  destruct (IH p1 (s <| allocator_ := a1 |>) macro q1 k2) as (p' & a & queue' & E & A1 & A2 & A3 & A4 & A5 & A6 & A7); try done; [rewrite Hp; by constructor|].
  exists p', a, queue'. split_and!; try done. intros c. rewrite A3. unfold pf_rate, p1; cbn.
  destruct (decide (c = cid)) as [->|Hne]; [by rewrite lookup_insert_eq|by rewrite lookup_insert_ne].
Qed.

Lemma pf_rates_lookup pfAlpha total granted cids : forall rates c, NoDup cids ->
  default f0 (pf_rates pfAlpha total granted cids rates !! c) =
  if decide (c ∈ cids) then pf_update pfAlpha total (default f0 (rates !! c)) (default 0 (granted !! c)) else default f0 (rates !! c).
Proof.
  induction cids as [|cid cids IH]; intros rates c Hd; cbn [pf_rates]; [by rewrite decide_False by apply not_elem_of_nil|].
  apply NoDup_cons in Hd as [Hni Hd]. rewrite IH by done. destruct (decide (c = cid)) as [->|Hne].
  - rewrite decide_False by done. rewrite decide_True by (by left). by rewrite lookup_insert_eq.
  - rewrite lookup_insert_ne by done. destruct (decide (c ∈ cids)); [by rewrite decide_True by (by right)|].
    rewrite decide_False; [done|]. by apply not_elem_of_cons.
Qed.

(** The bytes a connection was granted, over the requests for it. *)
Definition bytes_granted (asked : list (Z * float * Z * Flags)) (cid : Z) : Z :=
  sumZ (fun e => e.1.2) (filter (fun e => e.1.1.1 = cid) asked).

Definition requested (asked : list (Z * float * Z * Flags)) (cid : Z) : Prop :=
  exists e, e ∈ asked /\ e.1.1.1 = cid.

Lemma requested_cons e l cid : requested (e :: l) cid <-> e.1.1.1 = cid \/ requested l cid.
Proof.
  unfold requested. split.
  - intros (e' & [->|He]%elem_of_cons & E); [by left|right; eauto].
  - intros [E|(e' & He & E)]; [exists e; split; [by left|done]|exists e'; split; [by right|done]].
Qed.

Lemma bytes_granted_cons e l cid :
  bytes_granted (e :: l) cid = (if decide (e.1.1.1 = cid) then e.1.2 else 0) + bytes_granted l cid.
Proof. unfold bytes_granted. rewrite filter_cons. by destruct (decide _). Qed.

Lemma bytes_granted_none asked cid : ~ requested asked cid -> bytes_granted asked cid = 0.
Proof.
  induction asked as [|e l IH]; intros Hn; [done|]. rewrite requested_cons in Hn. rewrite bytes_granted_cons.
  rewrite decide_False, IH by tauto. done.
Qed.

Lemma requested_dec asked cid : requested asked cid \/ ~ requested asked cid.
Proof.
  induction asked as [|e l IH]; [right; by intros (? & []%elem_of_nil & _)|]. rewrite requested_cons.
  destruct (decide (e.1.1.1 = cid)); tauto.
Qed.

Lemma granted_lookup asked cid : forall g,
  let g' := fold_left (fun g (e : Z * float * Z * Flags) => add_granted g e.1.1.1 e.1.2) asked g in
  (requested asked cid -> g' !! cid = Some (uint32 (default 0 (g !! cid) + bytes_granted asked cid))) /\
  (~ requested asked cid -> g' !! cid = g !! cid).
Proof.
  induction asked as [|e l IH]; intros g; cbn [fold_left]; [split; [|done]; by intros (? & []%elem_of_nil & _)|].
  destruct (IH (add_granted g e.1.1.1 e.1.2)) as [IH1 IH2]. rewrite requested_cons, bytes_granted_cons.
  destruct (decide (e.1.1.1 = cid)) as [<-|Hne].
  - assert (Eg : add_granted g e.1.1.1 e.1.2 !! e.1.1.1 = Some (uint32 (default 0 (g !! e.1.1.1) + e.1.2))) by apply lookup_insert_eq.
    rewrite Eg in IH1, IH2. split; [intros _|tauto]. destruct (requested_dec l e.1.1.1) as [Hr|Hr].
    + rewrite (IH1 Hr). cbn. f_equal. unfold wrap. rewrite Z.add_mod_idemp_l by done. f_equal. lia.
    + by rewrite (IH2 Hr), (bytes_granted_none _ _ Hr), Z.add_0_r.
  - assert (Eg : add_granted g e.1.1.1 e.1.2 !! cid = g !! cid) by (by apply lookup_insert_ne).
    rewrite Eg in IH1, IH2. rewrite Z.add_0_l. tauto.
Qed.

(** C17. A TTI under proportional fairness ends, asks only for active connections of UEs that
    are in the simulation, and keeps the books of the scheduler.  The rate of every
    connection that was asked for becomes 1 less the smoothing factor of what it was, plus
    the factor of the bytes it was granted in the TTI, over all requests for it, divided by
    the blocks of the cell; no other rate changes. *)
Theorem pf_rates_follow p st :
  sched_inv dir0 known keyed rbs lost st -> all_servable (active_set (pf_sets p)) ->
  exists p' st' a asked, pf_schedule draw check noise p st = Ok (p', st') /\ sched_inv dir0 known keyed rbs lost st' /\
    active_set (pf_sets p') ⊆ active_set (pf_sets p) /\
    asks (requestGrant check) (st.1 <| allocator_ := a |>, st.2) asked st' /\
    (forall e, e ∈ asked -> e.1.1.1 ∈ active_set (pf_sets p) /\ has_left e.1.1.1 = false) /\
    forall cid,
      (requested asked cid ->
       pf_rate p' cid =
         fadd (fmul (fsub (of_int 1) (pfAlpha_ p)) (pf_rate p cid))
              (fmul (pfAlpha_ p)
                 (if 0 <? resourceBlocks_ st'.1
                  then fdiv (of_int (bytes_granted asked cid mod 2 ^ 32)) (of_int (resourceBlocks_ st'.1))
                  else f0))) /\
      (~ requested asked cid -> pf_rate p' cid = pf_rate p cid).
Proof.
  intros Hst Hm. destruct st as [s bufs]. destruct (si_alloc _ _ _ _ _ _ Hst) as (macro & Ha & Ht & Hsum). pose proof (si_dir _ _ _ _ _ _ Hst) as Edir. cbn [fst snd] in *.
  unfold pf_schedule, pf_prepareSchedule. set (p0 := set pf_sets _ _). cbn [fst snd].
  set (Q := fun cid => known cid /\ cid ∈ active_set (pf_sets p) /\ has_left cid = false).
  destruct (pf_scores_ok Q (in_order (temp_set (pf_sets p0))) p0 s macro [] 0 Ha) as (p1 & a & queue & -> & Ha' & Hk & Hrate & Hact & Htemp & Hg & Halpha);
    [lia|done| |constructor|].
  { apply Forall_forall. intros cid Hin%in_order_elem. unfold Q. cbn in Hin. destruct (has_left cid) eqn:El; [by left|right].
    destruct (Hm cid Hin) as [?|[? ?]]; [congruence|done]. }
  cbn [rbind]. cbn in Hact, Htemp, Hg, Halpha. rewrite Forall_forall in Hk.
  destruct (serve_scores_ok (requestGrant check) add_granted _ known node_busy (serve_fuel queue) queue (pf_sets p1) (grantedBytes_ p1) (s <| allocator_ := a |>, bufs))
    as (m' & g' & st' & asked & -> & A1 & Aa & At & A2 & A4 & _); [by eapply sched_inv_alloc|apply Forall_forall; intros x Hx; apply (Hk x Hx)|apply serve_fuel_enough|].
  cbn [rbind]. eexists _, st', a, asked. split; [reflexivity|]. rewrite Hg in A2.
  split_and!; try done; [cbn; intros cid Hin%A4; apply Htemp, Hin|intros e He; by destruct (Hk _ (in_turn_elem _ _ _ At He)) as (_ & ? & ?)|].
  intros cid. set (pn := pf_commitSchedule _ _).
  assert (En : pf_rate pn cid = if decide (cid ∈ ascending g')
                then pf_update (pfAlpha_ p1) (resourceBlocks_ st'.1) (pf_rate p1 cid) (default 0 (g' !! cid))
                else pf_rate p1 cid) by (by apply pf_rates_lookup, ascending_NoDup).
  rewrite Hrate, Halpha in En. change (pf_rate p0 cid) with (pf_rate p cid) in En. rewrite En.
  destruct (granted_lookup asked cid ∅) as [G1 G2]. rewrite lookup_empty in G1, G2. cbn in A2. rewrite <- A2 in G1, G2.
  split; intros Hr.
  - rewrite decide_True by (apply elem_of_ascending; rewrite (G1 Hr); by eexists). by rewrite (G1 Hr).
  - rewrite decide_False; [done|]. intros [n Hn]%elem_of_ascending. by rewrite (G2 Hr) in Hn.
Qed.
End Turns.
End Scores.
