(* ===== verification/SchedulerDemo.v ===== *)
(** * The schedulers of an eNB: a cell

    A cell of two bands with two UEs in range, on which the theorems of the schedulers are
    applied: one asks for random access, the other has reported 300 bytes. *)

From S2P Require Import Prelude.
From S2P Require Import LteCommon.
From S2P Require Import LteBinder.
From S2P Require Import MacQueue.
From S2P Require Import HarqTx.
From S2P Require Import HarqTxBuffer.
From S2P Require Import HarqTxProps.
From S2P Require Import HarqTxRun.
From S2P Require Import HarqDemo.
From S2P Require Import HarqRx.
From S2P Require Import HarqTxFacts.
From S2P Require Import HarqLink.
From S2P Require Import MacUe.
From S2P Require Import LcgProps.
From S2P Require Import Doubles.
From S2P Require Import Allocation.
From S2P Require Import AllocationProps.
From S2P Require Import Amc.
From S2P Require Import CircularList.
From S2P Require Import SchedulerEnb.
From S2P Require Import Drr.
From S2P Require Import SchedulerEnbProps.
From S2P Require Import SchedulerEnbUl.
From S2P Require Import SchedulerEnbUlProps.
From S2P Require Import SchedulerEnbDl.
From S2P Require Import MaxCi.
From S2P Require Import MaxCiProps.
#[local] Open Scope Z_scope.

Definition demo_register (b : LteBinder) (n : Z * LteNodeType) : LteBinder := snd (fst (registerNode b n.1 n.2 1)).

(** The eNB 1 and its UEs 1025 and 1026. *)
Definition demo_cell_binder : LteBinder := fold_left demo_register [(11, ENODEB); (12, UE); (13, UE)] (new_LteBinder 2).

Definition demo_ue_params : UserTxParams :=
  {| txMode_ := TRANSMIT_DIVERSITY; ri_ := 1; cqiVector_ := [7]; allowedBands_ := [0; 1]; isValid_ := true; antennaSet_ := [0] |}.

#[local] Instance demo_amc : Amc :=
  {| amc_binder := demo_cell_binder; amc_module := fun _ => true; amc_node := 1; pilot := fun _ _ => Ok demo_ue_params;
     dlMcsTable_ := McsTable; ulMcsTable_ := McsTable |}.

#[local] Instance demo_cell : Cell := {| cell_numBands := 2; cell_muMimo := false; computeMuMimoPairing := fun nodeId _ => nodeId |}.

Lemma demo_scaled : scaled (@dlMcsTable_ demo_amc) /\ scaled (@ulMcsTable_ demo_amc).
Proof. done. Qed.

Lemma demo_bands : 0 < @cell_numBands demo_cell < 2 ^ 14.
Proof. by cbn. Qed.

Lemma demo_no_mimo : @cell_muMimo demo_cell = false.
Proof. reflexivity. Qed.

Lemma demo_good : good_params demo_ue_params 0 7 1.
Proof. split; [reflexivity|reflexivity|lia|reflexivity|by left]. Qed.

Lemma demo_tx_ok nodeId dir : nodeId = 1025 \/ nodeId = 1026 -> tx_ok nodeId dir.
Proof. intros Hn. exists demo_ue_params. split; [destruct Hn as [->| ->]; reflexivity|]. right; right. exists 7, 1. exact demo_good. Qed.

(** ** Modulation *)

Lemma req_rbs_least_witness : exists k, computeReqRbs 1025 0 0 100 UL = Ok k /\ 1 <= k <= 111.
Proof.
  destruct (req_rbs_least (proj1 demo_scaled) (proj2 demo_scaled) 1025 0 0 100 UL demo_ue_params 7 1) as (k & E & Hk & _);
    [reflexivity|exact demo_good|done|lia|]. exists k. split; [exact E|exact Hk].
Defined.

(** ** The uplink *)

Definition demo_cid : Z := idToMacCid 1025 SHORT_BSR.

Definition demo_known (cid : Z) : Prop := cid = demo_cid.

Definition demo_bsr : LteMacBuffer := match buffer_pushBack new_LteMacBuffer (300, 0) with Ok b => b | _ => new_LteMacBuffer end.

Definition demo_bsrbuf : gmap Z LteMacBuffer := {[demo_cid := demo_bsr]}.

Definition demo_rx : gmap Z LteHarqBufferRx := {[1025 := new_LteHarqBufferRx 8 1025 3]}.

Definition demo_drr : LteDrr := enb_backlog new_LteDrr demo_cid.

Definition demo_ul : LteSchedulerEnbUl := signalRac new_LteSchedulerEnbUl 1026.

Lemma demo_rx_ready : map_Forall (fun _ => buffer_ready) demo_rx.
Proof.
  apply map_Forall_singleton. split; [cbn; lia|reflexivity|]. repeat constructor; eexists _, _; (split; [reflexivity|done]).
Qed.

Lemma demo_rx_nodes : map_Forall (fun n _ => is_uint 16 n /\ n <> 0 /\ getOmnetId (@amc_binder demo_amc) n <> 0 /\ tx_ok n UL) demo_rx.
Proof.
  apply map_Forall_singleton. split; [by cbn|]. split; [done|]. split; [by vm_compute|]. apply demo_tx_ok. by left.
Qed.

Lemma demo_racs : map_Forall (fun n _ => is_uint 16 n /\ tx_ok n UL) (racStatus_ demo_ul).
Proof. apply map_Forall_insert_2; [|apply map_Forall_empty]. split; [by cbn|]. apply demo_tx_ok. by right. Qed.

Lemma demo_ue_params_ok cid : demo_known cid -> params_ok UL cid.
Proof. intros ->. exists demo_ue_params. split; [reflexivity|cbn; lia]. Qed.

Lemma demo_known_tx cid : demo_known cid -> getOmnetId (@amc_binder demo_amc) (MacCidToNodeId cid) <> 0 ->
  tx_ok (MacCidToNodeId cid) (grant_direction UL (MacCidToLcid cid)).
Proof. intros -> _. apply (demo_tx_ok 1025). by left. Qed.

Lemma demo_holds : holds demo_bsr [(300, 0)].
Proof. split; [by vm_compute|repeat constructor; cbn; lia|cbn; lia|cbn; lia]. Qed.

Lemma demo_bufs cid : demo_known cid -> exists conn l, demo_bsrbuf !! cid = Some conn /\ holds conn l.
Proof. intros ->. exists demo_bsr, [(300, 0)]. split; [reflexivity|exact demo_holds]. Qed.

Lemma demo_keys cid : is_Some (demo_bsrbuf !! cid) -> params_ok UL cid.
Proof. intros [b Hb]. unfold demo_bsrbuf in Hb. apply lookup_singleton_Some in Hb as [<- _]. by apply demo_ue_params_ok. Qed.

(** Both UEs are in the schedule. *)
Lemma uplink_tti_witness :
  exists d' u' b', enb_uplink 12 demo_rx demo_drr demo_ul demo_bsrbuf = Ok (d', u', b') /\ schedule_fits 12 demo_ul u'.
Proof.
  destruct (uplink_tti (proj1 demo_scaled) (proj2 demo_scaled) demo_no_mimo demo_bands demo_rx 12 demo_known demo_rx_ready demo_rx_nodes
    ltac:(lia) ltac:(vm_compute; done) demo_ue_params_ok demo_known_tx demo_drr demo_ul demo_bsrbuf) as (d' & u' & b' & E & _ & _ & Hf).
  - split; [reflexivity|by left|split; vm_compute; [reflexivity|reflexivity|intros _; lia]|by repeat constructor|exact demo_bufs|exact demo_keys].
  - exact demo_racs.
  - exists d', u', b'. split; [exact E|exact Hf].
Defined.

(** The schedule of that TTI: a block for random access, and 11 for the 300 bytes. *)
Example demo_schedule :
  match enb_uplink 12 demo_rx demo_drr demo_ul demo_bsrbuf with
  | Ok (_, u, _) => (map_to_list (se_scheduleList_ (ul_enb u)), racStatus_ u)
  | _ => ([], ∅)
  end = ([((demo_cid, 0), 11); ((idToMacCid 1026 SHORT_BSR, 0), 1)], ∅).
Proof. vm_compute. reflexivity. Qed.

(** *** A lost block *)

Definition demo_failed : LteHarqProcessRx :=
  (new_LteHarqProcessRx 2 3) <| rx_status_ := [RXHARQ_PDU_CORRUPTED; RXHARQ_PDU_EMPTY] |>
    <| rx_pdu_ := [Some (new_packet 0 1025 1); None] |>.

Definition demo_rx_failed : gmap Z LteHarqBufferRx :=
  match rx_set_proc (new_LteHarqBufferRx 8 1025 3) 2 demo_failed with Ok b => {[1025 := b]} | _ => ∅ end.

(** A UE with a failed PDU that asks for random access, too: the entry of the block it was
    given is overwritten, and the UE is granted one block of the two that are taken. *)
Lemma rac_block_lost :
  match enb_uplink 12 demo_rx_failed new_LteDrr (signalRac new_LteSchedulerEnbUl 1025) ∅ with
  | Ok (_, u, _) => (map_to_list (se_scheduleList_ (ul_enb u)), computeTotalRbs (allocator_ (ul_enb u)))
  | _ => ([], UB)
  end = ([((demo_cid, 0), 1)], Ok 10).
Proof. vm_compute. reflexivity. Qed.

(** The buffer of a UE that is gone is erased while the buffers are visited. *)
Lemma gone_ue_breaks_rtx : enb_uplink 12 {[1030 := new_LteHarqBufferRx 8 1030 3]} new_LteDrr new_LteSchedulerEnbUl ∅ = UB.
Proof. vm_compute. reflexivity. Qed.

(** ** The downlink *)

(** A PDU of 102 bytes for the UE 1025, sent and refused. *)
Definition demo_dl_pkt (id : Z) : Packet :=
  {| front := Some (demo_pdu id);
     tag := {| acid := 0; cw := 0; txNumber := 0; ndi := true; direction := DL; sourceId := 1; destId := 1025; deciderResult := false |} |}.

Definition sent_and_refused (acid id : Z) : list (Z * tx_op) :=
  [(0, TInsert acid 0 (demo_dl_pkt id)); (0, TSend); (4 * TTI, TFeedback (refused acid 0 id))].

Definition demo_dl_buffer : LteHarqBufferTx := after (sent_and_refused 0 10).

Definition demo_dl_tx : gmap Z LteHarqBufferTx := {[1025 := demo_dl_buffer]}.

(** Data for the UE 1026. *)
Definition demo_dl_cid : Z := idToMacCid 1026 1.

Definition demo_dl_known (cid : Z) : Prop := cid = demo_dl_cid.

Definition demo_vbuf : gmap Z LteMacBuffer := {[demo_dl_cid := demo_bsr]}.

Definition demo_dl_drr : LteDrr := enb_backlog new_LteDrr demo_dl_cid.

Lemma demo_flushed : flushed 3 demo_dl_tx.
Proof. apply map_Forall_singleton. split; [apply after_ok; vm_compute; reflexivity|reflexivity]. Qed.

Lemma demo_one_codeword nodeId : nodeId = 1025 \/ nodeId = 1026 -> one_codeword nodeId.
Proof. intros Hn. exists demo_ue_params. split; [destruct Hn as [->| ->]; reflexivity|reflexivity]. Qed.

Lemma demo_served n : is_Some (demo_dl_tx !! n) -> getOmnetId (@amc_binder demo_amc) n <> 0 -> served ∅ n.
Proof.
  intros [b Hb] _. unfold demo_dl_tx in Hb. apply lookup_singleton_Some in Hb as [<- _]. split; [apply demo_tx_ok; by left|].
  split; [apply demo_one_codeword; by left|]. by eexists.
Qed.

Lemma demo_dl_params cid : demo_dl_known cid -> params_ok DL cid.
Proof. intros ->. exists demo_ue_params. split; [reflexivity|cbn; lia]. Qed.

Lemma demo_dl_known_tx cid : demo_dl_known cid -> getOmnetId (@amc_binder demo_amc) (MacCidToNodeId cid) <> 0 -> tx_ok (MacCidToNodeId cid) DL.
Proof. intros -> _. apply (demo_tx_ok 1026). by right. Qed.

Lemma demo_downlink_ok : downlink_ok demo_dl_known demo_dl_drr (new_LteSchedulerEnb DL) demo_vbuf.
Proof.
  split; [reflexivity|by left|split; vm_compute; [reflexivity|reflexivity|intros _; lia]|by repeat constructor| |].
  - intros cid ->. exists demo_bsr, [(300, 0)]. split; [reflexivity|exact demo_holds].
  - intros cid [b Hb]. unfold demo_vbuf in Hb. apply lookup_singleton_Some in Hb as [<- _]. by apply demo_dl_params.
Qed.

Lemma downlink_tti_witness :
  exists d' s' vbuf' tx', enb_downlink ∅ 12 demo_dl_tx demo_dl_drr (new_LteSchedulerEnb DL) demo_vbuf = Ok (d', s', vbuf', tx') /\ is_Some (tx' !! 1025).
Proof.
  destruct (downlink_tti (proj1 demo_scaled) (proj2 demo_scaled) demo_no_mimo demo_bands 3 ltac:(lia) ∅ 12 demo_dl_known ltac:(lia) ltac:(vm_compute; done)
    demo_dl_params demo_dl_known_tx 0 demo_dl_tx demo_dl_drr (new_LteSchedulerEnb DL) demo_vbuf demo_downlink_ok demo_flushed demo_served)
    as (d' & s' & v' & tx' & E & _ & _ & _ & _ & Hkeep).
  exists d', s', v', tx'. split; [exact E|]. apply Hkeep; [by vm_compute|by eexists].
Defined.

(** The PDU takes four blocks and is sent again, and the UE 1026 has the rest. *)
Example demo_dl_schedule :
  match enb_downlink ∅ 12 demo_dl_tx demo_dl_drr (new_LteSchedulerEnb DL) demo_vbuf with
  | Ok (_, s, _, tx) =>
      (map_to_list (se_scheduleList_ s), computeTotalRbs (allocator_ s), (fun b => match sendSelectedDown 0 b with Ok (l, _) => map (txNumber ∘ tag) l | _ => [] end) <$> tx !! 1025)
  | _ => ([], UB, None)
  end = ([((demo_dl_cid, 0), 1)], Ok 0, Some [2]).
Proof. vm_compute. reflexivity. Qed.

(** The scheduler at the start of a downlink TTI of 12 blocks. *)
Definition demo_dl_sched : LteSchedulerEnb := clear_schedule ((new_LteSchedulerEnb DL) <| resourceBlocks_ := 12 |>).

Definition demo_dl_process : LteHarqProcessTx := match proc_at demo_dl_buffer 0 with Ok p => p | _ => new_LteHarqProcessTx 0 2 8 3 0 end.

Definition demo_dl_unit : LteHarqUnitTx := match unit_at demo_dl_process 0 with Ok u => u | _ => new_LteHarqUnitTx 0 0 3 0 end.

Lemma downlink_rtx_served_witness :
  exists s' lims' tx', dl_schedulePerAcidRtx demo_dl_sched demo_dl_tx 1025 0 0 None MACRO false = Ok (102, lims', s', tx').
Proof.
  destruct (new_tti demo_bands new_LteAllocationModule 12) as (macro & Ha & Hz & Ht); [lia|by vm_compute|].
  destruct (downlink_rtx_served (proj1 demo_scaled) (proj2 demo_scaled) demo_no_mimo 3 demo_dl_sched demo_dl_tx macro 1025 0 demo_dl_buffer demo_dl_process demo_dl_unit)
    as (s' & lims' & _ & Hcase).
  - apply demo_tx_ok. by left.
  - apply demo_one_codeword. by left.
  - reflexivity.
  - exact Ha.
  - reflexivity.
  - reflexivity.
  - apply (demo_flushed 1025). reflexivity.
  - reflexivity.
  - vm_compute. reflexivity.
  - vm_compute. reflexivity.
  - vm_compute. reflexivity.
  - vm_compute. split; [discriminate|reflexivity].
  - destruct (_ <=? _).
    + destruct Hcase as (plan & E & _). exists (count_codeword s' 1025), lims'. eexists. exact E.
    + destruct Hcase as [E _]. exfalso. revert E. vm_compute. discriminate.
Defined.

(** *** What goes wrong in the downlink *)

(** Two layers of one codeword each. *)
Definition two_codewords : UserTxParams :=
  {| txMode_ := CL_SPATIAL_MULTIPLEXING; ri_ := 2; cqiVector_ := [7; 7]; allowedBands_ := [0; 1]; isValid_ := true; antennaSet_ := [0] |}.

Definition two_codewords_amc : Amc :=
  {| amc_binder := demo_cell_binder; amc_module := fun _ => true; amc_node := 1; pilot := fun _ _ => Ok two_codewords;
     dlMcsTable_ := McsTable; ulMcsTable_ := McsTable |}.

(** PDUs of two processes wait for retransmission. *)
Definition two_waiting : LteHarqBufferTx := after (sent_and_refused 0 10 ++ sent_and_refused 1 11).

(** The status of the first unit of the first two processes, and the selected process. *)
Definition dl_status (b : LteHarqBufferTx) : result (TxHarqPduStatus * TxHarqPduStatus * Z) :=
  let! p0 := proc_at b 0 in
  let! p1 := proc_at b 1 in
  let! st0 := getUnitStatus p0 0 in
  let! st1 := getUnitStatus p1 0 in
  Ok (st0, st1, selectedAcid_ b).

(** With two codewords both PDUs are selected in one TTI.  Only the process selected last is
    sent; the other stays selected, and no later TTI sends it. *)
Lemma two_codewords_lose_process :
  (let! (_, _, tx) := @dl_rtxschedule two_codewords_amc demo_cell ∅ demo_dl_sched {[1025 := two_waiting]} in
   let! b := of_option (tx !! 1025) in
   let! selected := dl_status b in
   let! (sent, b) := sendSelectedDown 0 b in
   let! after_tti := dl_status b in
   let! (_, _, tx) := @dl_rtxschedule two_codewords_amc demo_cell ∅ demo_dl_sched {[1025 := b]} in
   let! b := of_option (tx !! 1025) in
   let! later := dl_status b in
   Ok (selected, length sent, after_tti, later)) =
  Ok ((TXHARQ_PDU_SELECTED, TXHARQ_PDU_SELECTED, 1), 1%nat, (TXHARQ_PDU_SELECTED, TXHARQ_PDU_WAITING, HARQ_NONE),
      (TXHARQ_PDU_SELECTED, TXHARQ_PDU_WAITING, HARQ_NONE)).
Proof. vm_compute. reflexivity. Qed.

(** A UE that may use band 1 only is given the blocks of band 0: the blocks found are booked by
    their place in the list, the band by its place among all bands. *)
Lemma rtx_on_wrong_band :
  (let! (_, s, _) := dl_rtxschedule (setUsableBands ∅ 1025 [1]) demo_dl_sched demo_dl_tx in
   let! (n0, _) := getBlocks (allocator_ s) MACRO 0 1025 in
   let! (n1, _) := getBlocks (allocator_ s) MACRO 1 1025 in
   Ok (n0, n1)) = Ok (4, 0).
Proof. vm_compute. reflexivity. Qed.

(** The buffer after that of a UE that is gone is not visited: nothing is sent again. *)
Lemma gone_ue_skips_next :
  (let! (_, _, tx) := dl_rtxschedule ∅ demo_dl_sched {[1024 := demo_dl_buffer; 1025 := demo_dl_buffer]} in
   let! b := of_option (tx !! 1025) in
   Ok (tx !! 1024, selectedAcid_ b)) = Ok (None, HARQ_NONE).
Proof. vm_compute. reflexivity. Qed.

(** ** The disciplines *)

Definition demo_check : Z -> Z -> result (bool * Z) := ul_checkEligibility demo_rx {[1025 := 0]}.

(** The scheduler at the start of a TTI of 12 blocks, after random access and retransmissions. *)
Definition demo_state : LteSchedulerEnb * gmap Z LteMacBuffer :=
  (clear_schedule ((new_LteSchedulerEnb UL) <| resourceBlocks_ := 12 |>), demo_bsrbuf).

Lemma demo_check_ok nodeId : exists free cw, demo_check nodeId 0 = Ok (free, cw) /\ 0 <= cw.
Proof.
  apply ul_eligible; [exact demo_rx_ready|]. apply map_Forall_singleton. exists 0. split; [reflexivity|cbn; lia].
Qed.

#[local] Instance demo_laws : GrantLaws (requestGrant demo_check) (sched_inv UL demo_known (params_ok UL) 12 0) demo_known node_busy.
Proof.
  apply enb_grant_laws; [apply demo_scaled|apply demo_scaled|exact demo_no_mimo|exact demo_check_ok|by right|exact demo_bands|lia|exact demo_ue_params_ok|exact demo_known_tx].
Qed.

Lemma demo_sched_inv : sched_inv UL demo_known (params_ok UL) 12 0 demo_state.
Proof.
  destruct (new_tti demo_bands new_LteAllocationModule 12) as (macro & Ha & Hz & Ht); [lia|by vm_compute|]. split.
  - reflexivity.
  - exists macro. split; [exact Ha|]. split; [exact Ht|]. intros _. by rewrite Hz.
  - apply map_Forall_empty.
  - intros k. unfold used_cws; cbn. by rewrite lookup_empty.
  - by left.
  - exact demo_bufs.
  - exact demo_keys.
Qed.

Lemma demo_drr_list : circ_ok (activeList_ demo_drr) /\ Forall demo_known (ring (activeList_ demo_drr)).
Proof. split; [split; vm_compute; [reflexivity|reflexivity|intros _; lia]|by repeat constructor]. Qed.

Lemma drr_schedule_terminates_witness :
  exists d' s', drr_schedule (requestGrant demo_check) demo_cell_binder demo_drr demo_state = Ok (d', s') /\ circ_ok (activeList_ d').
Proof.
  destruct (drr_schedule_terminates (requestGrant demo_check) _ demo_known node_busy demo_cell_binder demo_drr demo_state) as (d' & s' & E & _ & Hc & _);
    [apply demo_drr_list|apply demo_drr_list|exact demo_sched_inv|]. exists d', s'. split; [exact E|exact Hc].
Defined.

Lemma drr_forgets_active_witness :
  exists d' s', drr_schedule (requestGrant demo_check) demo_cell_binder demo_drr demo_state = Ok (d', s') /\ drr_removeActiveConnections d' 1025 = Ok d'.
Proof.
  destruct (drr_schedule_ok (requestGrant demo_check) _ demo_known node_busy demo_cell_binder demo_drr demo_state) as (d' & s' & E & _);
    [apply demo_drr_list|apply demo_drr_list|exact demo_sched_inv|]. exists d', s'. split; [exact E|].
  destruct (drr_forgets_active (requestGrant demo_check) demo_cell_binder demo_drr demo_state d' s') as (_ & _ & H); [reflexivity|exact E|].
  apply H.
Defined.

Definition demo_sets : LteScheduler := add_active new_LteScheduler demo_cid.

Lemma demo_scorable : scorable demo_ue_params.
Proof.
  split; [cbn; lia| | |].
  - right. intros cw Hcw. right. exists 7, 1. replace cw with 0 by (cbn in Hcw; lia). exact demo_good.
  - by right.
  - split; [apply (bool_decide_unpack _); vm_compute; exact I|]. by repeat constructor.
Qed.

Lemma demo_servable : all_servable UL demo_known (active_set demo_sets).
Proof.
  intros cid Hin. right. assert (E : cid = demo_cid) by (cbn in Hin; set_solver). split; [exact E|].
  rewrite E. exists demo_ue_params. split; [reflexivity|exact demo_scorable].
Qed.

Lemma max_ci_best_first_witness :
  exists m' st' queue asked, mc_schedule (fun _ => true) demo_check demo_sets demo_state = Ok (m', st') /\
    best_first queue /\ in_turn queue asked /\
    forall cid, cid ∈ active_set m' <-> cid ∈ active_set demo_sets /\ has_left cid = false /\ ~ dropped asked cid.
Proof.
  destruct (max_ci_best_first (proj1 demo_scaled) (proj2 demo_scaled) demo_bands (fun _ => true) demo_check UL demo_known (params_ok UL) 12 0 demo_laws ltac:(lia)
    demo_sets demo_state demo_sched_inv demo_servable) as (m' & st' & macro & queue & a & asked & E & _ & _ & _ & Hb & _ & Hs & Hact).
  exists m', st', queue, asked. split; [exact E|]. split; [exact Hb|]. split; [exact Hs|exact Hact].
Defined.

Definition demo_pf : LtePf := (new_LtePf (flit 95 100)) <| pf_sets := demo_sets |>.

Lemma pf_rates_follow_witness :
  exists p' st' asked, pf_schedule (fun _ => true) demo_check (fun _ => f0) demo_pf demo_state = Ok (p', st') /\
    (requested asked demo_cid ->
     pf_rate p' demo_cid =
       fadd (fmul (fsub (of_int 1) (flit 95 100)) f0)
            (fmul (flit 95 100)
               (if 0 <? resourceBlocks_ st'.1
                then fdiv (of_int (bytes_granted asked demo_cid mod 2 ^ 32)) (of_int (resourceBlocks_ st'.1)) else f0))) /\
    (~ requested asked demo_cid -> pf_rate p' demo_cid = f0).
Proof.
  destruct (pf_rates_follow (proj1 demo_scaled) (proj2 demo_scaled) demo_bands (fun _ => true) demo_check UL demo_known (params_ok UL) 12 0 demo_laws ltac:(lia)
    (fun _ => f0) demo_pf demo_state demo_sched_inv demo_servable) as (p' & st' & a & asked & E & _ & _ & _ & _ & Hr).
  exists p', st', asked. split; [exact E|]. exact (Hr demo_cid).
Defined.
