(* ===== verification/MacEnb.v ===== *)
(** * The MAC layer of an eNB

    [LteMacEnb] (src/simulte/src/stack/mac/layer/LteMacEnb.cc) around its schedulers:
    announcements and SDUs from RLC, the requests to RLC and the PDUs of a schedule,
    reception with buffer status reports, random access, grants and the removal of a UE.

    The two schedulers and the adaptive modulation are seen through the questions the
    layer asks them ([EnbScheduler]); what it tells them is an effect.  [handleSelfMessage],
    which runs the schedulers, is there up to the uplink schedule.  As on the UE, a packet
    is known by its identifier, and settings of the transmission are left out. *)

From Stdlib Require Import SpecFloat.
From S2P Require Import Prelude.
From S2P Require Import LteCommon.
From S2P Require Import LteBinder.
From S2P Require Import MacQueue.
From S2P Require Import MacBase.
From S2P Require Import LcgScheduler.
From S2P Require Import HarqTx.
From S2P Require Import HarqTxBuffer.
From S2P Require Import HarqRx.
From S2P Require Import MacUe.
From stdpp Require Import sorting.
From S2P Require Import MacUeUplink.
#[local] Open Scope Z_scope.

Record LteMacEnb := {
  en_nodeId_ : Z;
  en_queueSize_ : Z;
  en_maxHarqRtx : Z;
  en_mbuf_ : gmap Z LteMacQueue;
  en_conns_ : MacConnections;
  bsrbuf_ : gmap Z LteMacBuffer;
  en_harqTxBuffers_ : gmap Z LteHarqBufferTx;
  en_harqRxBuffers_ : gmap Z LteHarqBufferRx;
  scheduleListDl_ : gmap (Z * Z) Z
}.

#[export] Instance macenb_eta : Eta LteMacEnb := fun s =>
  {| en_nodeId_ := en_nodeId_ s; en_queueSize_ := en_queueSize_ s; en_maxHarqRtx := en_maxHarqRtx s;
     en_mbuf_ := en_mbuf_ s; en_conns_ := en_conns_ s; bsrbuf_ := bsrbuf_ s;
     en_harqTxBuffers_ := en_harqTxBuffers_ s; en_harqRxBuffers_ := en_harqRxBuffers_ s;
     scheduleListDl_ := scheduleListDl_ s |}.

Definition new_LteMacEnb (nodeId queueSize maxHarqRtx : Z) : LteMacEnb :=
  {| en_nodeId_ := nodeId; en_queueSize_ := queueSize; en_maxHarqRtx := maxHarqRtx; en_mbuf_ := ∅;
     en_conns_ := new_MacConnections; bsrbuf_ := ∅; en_harqTxBuffers_ := ∅; en_harqRxBuffers_ := ∅;
     scheduleListDl_ := ∅ |}.

Inductive enb_effect :=
| EnbSduRequest (ueId lcid sduSize : Z) (info : FlowControlInfo)
| EnbSduToRlc (sdu : Sdu)
| RacAnswer (dest : Z)
| GrantToPhy (dest : Z) (grant : LteSchedulingGrant)
| EnbPduToPhy (pkt : Packet)
| EnbFeedbackToPhy (fb : FeedbackPkt)
| UlBacklog (cid : Z)
| DlBacklog (cid : Z)
| SignalRac (nodeId : Z)
| RemoveActiveConnections (nodeId : Z)
| RemovePendingRac (nodeId : Z).

(** What the layer asks its schedulers and the modulation: the bytes allocated to a node on
    a band, the blocks allocated to it on an antenna and band, its antennas and layers, and
    the bytes that fit into blocks. *)
Class EnbScheduler := {
  numBands : Z;
  getBytes : Z -> Z -> Z;
  antennaSet : Z -> list Z;
  readPerUeAllocatedBlocks : Z -> Z -> Z -> Z;
  computeBytesOnNRbs : Z -> Z -> Z -> Z -> Z;
  txLayers : Z -> Z
}.

(** A sum of unsigned numbers over the bands. *)
Definition sum_bands (n : Z) (f : Z -> Z) : Z := fold_left (fun acc b => uint32 (acc + f b)) (seqZ 0 n) 0.

Section Enb.
Context `{EnbScheduler}.
Variable flow_of : Z -> FlowControlInfo.
Variable junk : Z.
Variable mac_found : Z -> bool.
Variable simtime : spec_float -> Z.

(** ** From RLC *)

(** [bufferizePacket]; a packet the queue has no room for is reported as buffered, too. *)
Definition enb_bufferizePacket (NOW : Z) (s : LteMacEnb) (p : UpperPacket) : result (bool * LteMacEnb) :=
  let pkt := up_packet p in
  if bitLength pkt <=? 1 then Ok (false, s) else
  let pkt := {| mp_id := mp_id pkt; bitLength := bitLength pkt; pkt_timestamp := NOW; am_pdu := am_pdu pkt |} in
  let lteInfo := flow_of (mp_id pkt) in
  let! cid := ctrlInfoToMacCid lteInfo in
  match up_newData p with
  | Some bytes =>
      let! c := announce (en_conns_ s) cid lteInfo (int32 (uint32 bytes), NOW) in Ok (true, s <| en_conns_ := c |>)
  | None =>
      let (_, q) := queue_pushBack (default (new_LteMacQueue (en_queueSize_ s)) (en_mbuf_ s !! cid)) pkt in
      Ok (true, s <| en_mbuf_ := <[cid := q]> (en_mbuf_ s) |>)
  end.

(** ** PDUs of the downlink *)

Definition enb_new_packet (nodeId destId codeword : Z) : Packet :=
  {| front := Some (new_pdu junk);
     tag := {| acid := 0; cw := codeword; txNumber := 0; ndi := true; direction := DL; sourceId := nodeId; destId := destId;
               deciderResult := false |} |}.

Definition queueLength (q : LteMacQueue) : Z := vsize (packets q).

(** [while (sduPerCid > 0)]: the queue must have all the SDUs still to be taken. *)
Fixpoint enb_take_sdus (n : nat) (nodeId destId codeword : Z) (q : LteMacQueue) (pkt : option Packet)
    : result (LteMacQueue * option Packet) :=
  match n with
  | O => Ok (q, pkt)
  | S n' =>
      if queueLength q <? int32 (Z.of_nat n) then Throw "Abnormal queue length detected while building MAC PDU" else
      let macPacket := default (enb_new_packet nodeId destId codeword) pkt in
      match queue_popFront q with
      | (None, _) => Throw "Abnormal queue length detected while building MAC PDU"
      | (Some sdu, q) =>
          let! (macPkt, macPacket) := removeAtFront macPacket in
          enb_take_sdus n' nodeId destId codeword q (Some (insertAtFront macPacket (mac_pushSdu macPkt (sdu_of sdu))))
      end
  end.

(** The loop over the schedule list; it ends at the first entry of the connection that
    finds the queue empty. *)
Fixpoint enb_fill_pdus (s : LteMacEnb) (cid : Z) (entries : list (Z * Z)) (mbuf : gmap Z LteMacQueue)
    (pdus : gmap (Z * Z) Packet) : result (gmap Z LteMacQueue * gmap (Z * Z) Packet) :=
  match entries with
  | [] => Ok (mbuf, pdus)
  | (destCid, codeword) :: entries' =>
      if negb (destCid =? cid) then enb_fill_pdus s cid entries' mbuf pdus else
      let! q := of_option (mbuf !! destCid) in
      if queueLength q =? 0 then Ok (mbuf, pdus) else
      let destId := MacCidToNodeId destCid in
      let sduPerCid := default 0 (scheduleListDl_ s !! (destCid, codeword)) in
      let! (q, pkt) := enb_take_sdus (Z.to_nat sduPerCid) (en_nodeId_ s) destId codeword q (pdus !! (destId, codeword)) in
      enb_fill_pdus s cid entries' (<[destCid := q]> mbuf)
        match pkt with Some pkt => <[(destId, codeword) := pkt]> pdus | None => pdus end
  end.

Fixpoint enb_store_pdus (s : LteMacEnb) (pdus : list (Z * Z * Packet)) : result LteMacEnb :=
  match pdus with
  | [] => Ok s
  | (destId, codeword, macPacket) :: pdus' =>
      let! txBuf :=
        match en_harqTxBuffers_ s !! destId with
        | Some b => Ok b
        | None => if mac_found destId
                  then Ok (new_LteHarqBufferTx ENB_TX_HARQ_PROCESSES destId (en_maxHarqRtx s) junk)
                  else UB
        end in
      let s := s <| en_harqTxBuffers_ := <[destId := txBuf]> (en_harqTxBuffers_ s) |> in
      let! txList := firstAvailable txBuf in
      let! _ := peekAtFront macPacket in
      let! s :=
        match txList.2 with
        | [] => Ok s
        | _ =>
            if txList.1 =? HARQ_NONE then Throw "LteMacBase: pduMaker sending to uncorrect void H-ARQ process. Aborting"
            else
              let! txBuf := buf_insertPdu txBuf txList.1 codeword macPacket in
              Ok (s <| en_harqTxBuffers_ := <[destId := txBuf]> (en_harqTxBuffers_ s) |>)
        end in
      enb_store_pdus s pdus'
  end.

Definition enb_macPduMake (s : LteMacEnb) (cid : Z) : result LteMacEnb :=
  let! (mbuf, pdus) := enb_fill_pdus s cid (ascending_pairs (scheduleListDl_ s)) (en_mbuf_ s) ∅ in
  enb_store_pdus (s <| en_mbuf_ := mbuf |>)
    (omap (fun k => pkt ← pdus !! k; Some (k, pkt)) (ascending_pairs pdus)).

Definition enb_handleUpperMessage (NOW : Z) (s : LteMacEnb) (p : UpperPacket) : result (LteMacEnb * list enb_effect) :=
  let lteInfo := flow_of (mp_id (up_packet p)) in
  let cid := idToMacCid (fi_destId lteInfo) (fi_lcid lteInfo) in
  let! (buffered, s) := enb_bufferizePacket NOW s p in
  match up_newData p with
  | None => if buffered then let! s := enb_macPduMake s cid in Ok (s, []) else Ok (s, [])
  | Some _ => Ok (s, [DlBacklog cid])
  end.

(** The queue size is compared as an unsigned number. *)
Fixpoint enb_request_sdus (queueSize : Z) (descs : gmap Z FlowControlInfo) (entries : list (Z * Z))
    : result (list enb_effect) :=
  match entries with
  | [] => Ok []
  | (destCid, _) :: entries' =>
      let destId := MacCidToNodeId destCid in
      let allocatedBytes := sum_bands numBands (fun b => getBytes b destId) in
      let sduSize := uint32 (allocatedBytes - MAC_HEADER) in
      if negb (queueSize =? 0) && (uint32 queueSize <? sduSize)
      then Throw "LteMacEnb::macSduRequest: configured queueSize too low - requested SDU will not fit in queue!"
      else
        let! effs := enb_request_sdus queueSize descs entries' in
        Ok (EnbSduRequest destId (MacCidToLcid destCid) sduSize (default new_FlowControlInfo (descs !! destCid)) :: effs)
  end.

Definition enb_macSduRequest (s : LteMacEnb) : result (LteMacEnb * list enb_effect) :=
  let entries := ascending_pairs (scheduleListDl_ s) in
  let! effs := enb_request_sdus (en_queueSize_ s) (connDesc_ (en_conns_ s)) entries in
  Ok (s <| en_conns_ := touch_descriptors (en_conns_ s) entries |>, effs).

(** ** Reception *)

(** The report of a UE is the only packet of the buffer of its connection 0. *)
Definition bufferizeBsr (s : LteMacEnb) (timestamp : spec_float) (size cid : Z) : result (LteMacEnb * list enb_effect) :=
  match bsrbuf_ s !! cid with
  | None =>
      if 0 <? size then
        let! bsrqueue := buffer_pushBack new_LteMacBuffer (size, simtime timestamp) in
        Ok (s <| bsrbuf_ := <[cid := bsrqueue]> (bsrbuf_ s) |>, [UlBacklog cid])
      else Ok (s, [])
  | Some bsrqueue =>
      let! bsrqueue :=
        if buffer_isEmpty bsrqueue then Ok bsrqueue else let! (_, q) := buffer_popFront bsrqueue in Ok q in
      if 0 <? size then
        let! bsrqueue := buffer_pushBack bsrqueue (size, simtime timestamp) in
        Ok (s <| bsrbuf_ := <[cid := bsrqueue]> (bsrbuf_ s) |>, [UlBacklog cid])
      else Ok (s <| bsrbuf_ := <[cid := bsrqueue]> (bsrbuf_ s) |>, [])
  end.

(** [while (macPkt->hasCe())]; a control element that is no report fails the cast. *)
Fixpoint unmake_ces (s : LteMacEnb) (src : Z) (ces : list MacControlElement) : result (LteMacEnb * list enb_effect) :=
  match ces with
  | [] => Ok (s, [])
  | MacCe _ :: _ => Throw "check_and_cast(): Cannot cast"
  | MacBsr timestamp size :: ces' =>
      let! (s, e) := bufferizeBsr s timestamp size (idToMacCid src 0) in
      let! (s, es) := unmake_ces s src ces' in
      Ok (s, e ++ es)
  end.

Definition enb_macPduUnmake (s : LteMacEnb) (pkt : Packet) : result (LteMacEnb * list enb_effect) :=
  let! (macPkt, _) := removeAtFront pkt in
  let! (s, es) := unmake_ces s (sourceId (tag pkt)) (ceList_ macPkt) in
  Ok (s, map EnbSduToRlc (sduList_ macPkt) ++ es).

Fixpoint enb_unmake_all (s : LteMacEnb) (pkts : list Packet) : result (LteMacEnb * list enb_effect) :=
  match pkts with
  | [] => Ok (s, [])
  | pkt :: pkts' =>
      let! _ := peekAtFront pkt in
      let! (s, e) := enb_macPduUnmake s pkt in
      let! (s, es) := enb_unmake_all s pkts' in
      Ok (s, e ++ es)
  end.

(** The reception part of [handleSelfMessage].  (Its loop that should purge corrupted PDUs
    starts where this one ended, and does nothing.) *)
Fixpoint enb_receive (NOW : Z) (s : LteMacEnb) (srcs : list Z) : result (LteMacEnb * list enb_effect) :=
  match srcs with
  | [] => Ok (s, [])
  | src :: srcs' =>
      let! b := of_option (en_harqRxBuffers_ s !! src) in
      let! (fbs, pkts, b) := extractCorrectPdus NOW b in
      let! (s, e) := enb_unmake_all (s <| en_harqRxBuffers_ := <[src := b]> (en_harqRxBuffers_ s) |>) pkts in
      let! (s, es) := enb_receive NOW s srcs' in
      Ok (s, map EnbFeedbackToPhy fbs ++ e ++ es)
  end.

(** All random access requests are granted. *)
Definition enb_macHandleRac (src : Z) : list enb_effect := [SignalRac src; RacAnswer src].

Definition enb_fromPhy (binder : LteBinder) (NOW : Z) (s : LteMacEnb) (p : PhyPacket) (racSrc : Z)
    : result (LteMacEnb * list enb_effect) :=
  match p with
  | HarqPkt src fb =>
      let! tx := fromPhy_harq binder (en_nodeId_ s) src fb (en_harqTxBuffers_ s) in
      Ok (s <| en_harqTxBuffers_ := tx |>, [])
  | FeedbackToMac => Ok (s, [])
  | GrantPkt _ => Ok (s, [])
  | DataPkt pkt =>
      let! rx := fromPhy_pdu NOW (en_maxHarqRtx s) pkt (en_harqRxBuffers_ s) in
      Ok (s <| en_harqRxBuffers_ := rx |>, [])
  | RacPkt _ => Ok (s, enb_macHandleRac racSrc)
  | UnknownPkt => Throw "Unknown packet type"
  end.

(** ** Grants *)

Definition granted_bytes (nodeId codeword : Z) : Z :=
  sum_bands numBands (fun b =>
    let bandAllocatedBlocks :=
      fold_left (fun acc antenna => uint32 (acc + readPerUeAllocatedBlocks nodeId antenna b)) (antennaSet nodeId) 0 in
    computeBytesOnNRbs nodeId b codeword bandAllocatedBlocks).

(** [for (; cw < codewords; ++cw)]. *)
Fixpoint grant_bytes (n : nat) (nodeId codeword codewords : Z) (v : list Z) : result (list Z) :=
  match n with
  | O => Ok v
  | S n' =>
      if codeword <? codewords then
        let! v := of_option (vset v codeword (granted_bytes nodeId codeword)) in
        grant_bytes n' nodeId (uint16 (codeword + 1)) codewords v
      else Ok v
  end.

(** One turn of [sendGrants]: the first entry, and the one taken for its other codeword,
    which is looked up under the node in place of the connection. *)
Definition grant_one (cid codeword granted : Z) (rest : gmap (Z * Z) Z) : result (gmap (Z * Z) Z * list enb_effect) :=
  let otherCw := uint16 (MAX_CODEWORDS - codeword) in
  let nodeId := MacCidToNodeId cid in
  let first := if 0 <? granted then 1 else 0 in
  let codeword := if 0 <? granted then codeword else otherCw in
  let second := match rest !! (nodeId, otherCw) with Some _ => 1 | None => 0 end in
  let rest := delete (nodeId, otherCw) rest in
  let codewords := first + second in
  if granted =? 0 then Ok (rest, [])
  else
    let! v := grant_bytes (Z.to_nat MAX_CODEWORDS + 1) nodeId codeword codewords (replicate (Z.to_nat MAX_CODEWORDS) 0) in
    Ok (rest, [GrantToPhy nodeId {| g_direction := UL; g_codewords := codewords; grantedCwBytes := v;
                                    totalGrantedBlocks := granted; g_periodic := false; g_period := 0;
                                    g_expiration := 0; g_layers := txLayers nodeId |}]).

(** [while (!scheduleList->empty())]; each turn removes an entry. *)
Fixpoint sendGrants (n : nat) (scheduleList : gmap (Z * Z) Z) : result (list enb_effect) :=
  match n, ascending_pairs scheduleList with
  | _, [] => Ok []
  | O, _ => UB
  | S n', (cid, codeword) :: _ =>
      let granted := default 0 (scheduleList !! (cid, codeword)) in
      let! (rest, e) := grant_one cid codeword granted (delete (cid, codeword) scheduleList) in
      let! es := sendGrants n' rest in
      Ok (e ++ es)
  end.

(** ** Transmission and removal *)

Fixpoint enb_flush_all (NOW : Z) (s : LteMacEnb) (dests : list Z) : result (LteMacEnb * list enb_effect) :=
  match dests with
  | [] => Ok (s, [])
  | dest :: dests' =>
      let! b := of_option (en_harqTxBuffers_ s !! dest) in
      let! (pkts, b) := sendSelectedDown NOW b in
      let! (s, es) := enb_flush_all NOW (s <| en_harqTxBuffers_ := <[dest := b]> (en_harqTxBuffers_ s) |>) dests' in
      Ok (s, map EnbPduToPhy pkts ++ es)
  end.

Definition enb_flushHarqBuffers (NOW : Z) (s : LteMacEnb) : result (LteMacEnb * list enb_effect) :=
  enb_flush_all NOW s (ascending (en_harqTxBuffers_ s)).

(** The descriptors and the entries of the traffic classes stay. *)
Definition enb_deleteQueues (s : LteMacEnb) (nodeId : Z) : LteMacEnb * list enb_effect :=
  (s <| en_mbuf_ := not_of_node nodeId (en_mbuf_ s) |>
     <| en_conns_ := (en_conns_ s) <| macBuffers_ := not_of_node nodeId (macBuffers_ (en_conns_ s)) |> |>
     <| en_harqTxBuffers_ := delete nodeId (en_harqTxBuffers_ s) |>
     <| en_harqRxBuffers_ := delete nodeId (en_harqRxBuffers_ s) |>
     <| bsrbuf_ := not_of_node nodeId (bsrbuf_ s) |>,
   [RemoveActiveConnections nodeId; RemovePendingRac nodeId]).
End Enb.

(** ** Grants of the eNB: properties

    A schedule of single codewords becomes one grant for each scheduled connection, with the
    bytes its blocks carry.  A connection scheduled on both codewords gets two grants in
    place of one, and the second, which is the one the UE keeps, has no bytes. *)

#[local] Open Scope Z_scope.

Section Grants.
Context `{EnbScheduler}.

Definition grant_with (nodeId : Z) (v : list Z) (granted : Z) : LteSchedulingGrant :=
  {| g_direction := UL; g_codewords := 1; grantedCwBytes := v; totalGrantedBlocks := granted; g_periodic := false;
     g_period := 0; g_expiration := 0; g_layers := txLayers nodeId |}.

(** What the blocks of a node carry: on every band of the cell the bytes of its blocks there,
    over all its antennas, as an unsigned sum. *)
Definition carried_bytes (nodeId : Z) : Z :=
  sumZ (fun b => computeBytesOnNRbs nodeId b 0
                   (sumZ (fun antenna => readPerUeAllocatedBlocks nodeId antenna b) (antennaSet nodeId) mod 2 ^ 32))
       (seqZ 0 numBands) mod 2 ^ 32.

Lemma granted_bytes_carried nodeId : granted_bytes nodeId 0 = carried_bytes nodeId.
Proof.
  unfold granted_bytes, sum_bands, carried_bytes. rewrite fold_left_wrap by done. unfold wrap at 1. f_equal.
  apply sumZ_ext. intros b. by rewrite fold_left_wrap by done.
Qed.

Definition single_grant (cid granted : Z) : enb_effect :=
  let nodeId := MacCidToNodeId cid in GrantToPhy nodeId (grant_with nodeId [carried_bytes nodeId; 0] granted).

(** An entry for which no other codeword is found. *)
Lemma grant_one_alone cid codeword granted rest :
  rest !! (MacCidToNodeId cid, uint16 (MAX_CODEWORDS - codeword)) = None -> 0 < granted ->
  grant_one cid codeword granted rest =
    (let! v := grant_bytes 3 (MacCidToNodeId cid) codeword 1 [0; 0] in
     Ok (rest, [GrantToPhy (MacCidToNodeId cid) (grant_with (MacCidToNodeId cid) v granted)])).
Proof.
  intros Hn Hg. unfold grant_one. rewrite Hn, delete_id by done.
  by rewrite (proj2 (Z.ltb_lt 0 granted)), (proj2 (Z.eqb_neq granted 0)) by lia.
Qed.

(** The grants of a schedule, by connection. *)
Definition grant_of (scheduleList : gmap (Z * Z) Z) (p : Z * Z) : option enb_effect :=
  match scheduleList !! p with
  | Some granted => if granted =? 0 then None else Some (single_grant p.1 granted)
  | None => None
  end.

Definition grants (scheduleList : gmap (Z * Z) Z) : list enb_effect :=
  omap (grant_of scheduleList) (ascending_pairs scheduleList).

Lemma grants_delete (m : gmap (Z * Z) Z) p (l : list (Z * Z)) : p ∉ l -> omap (grant_of (delete p m)) l = omap (grant_of m) l.
Proof.
  intros Hp. apply list_omap_ext, Forall_Forall2_diag, Forall_forall. intros q Hq. unfold grant_of.
  by rewrite lookup_delete_ne by (by intros ->).
Qed.

Definition first_codewords (scheduleList : gmap (Z * Z) Z) : Prop :=
  map_Forall (fun p n => p.2 = 0 /\ 0 <= n) scheduleList.

Lemma ascending_pairs_spec {A} (m : gmap (Z * Z) A) :
  StronglySorted pair_le (ascending_pairs m) /\ NoDup (ascending_pairs m) /\
  forall p, p ∈ ascending_pairs m <-> is_Some (m !! p).
Proof.
  unfold ascending_pairs. split; [apply StronglySorted_merge_sort; apply _|]. split.
  - rewrite merge_sort_Permutation. apply NoDup_elements.
  - intros p. by rewrite merge_sort_Permutation, elem_of_elements, elem_of_dom.
Qed.

Lemma ascending_pairs_delete {A} (m : gmap (Z * Z) A) p l :
  ascending_pairs m = p :: l -> ascending_pairs (delete p m) = l.
Proof.
  intros E. destruct (ascending_pairs_spec m) as (Hs & Hn & Hm). rewrite E in Hs, Hn, Hm.
  apply NoDup_cons in Hn as [Hp Hn]. apply ascending_pairs_unique; [by inversion Hs|done|].
  intros q. destruct (decide (q = p)) as [->|Hq].
  - rewrite lookup_delete_eq. split; [done|]. by intros [? ?].
  - rewrite lookup_delete_ne, <- Hm, elem_of_cons by congruence. tauto.
Qed.

Lemma grant_one_single cid granted rest :
  first_codewords rest -> 0 <= granted ->
  grant_one cid 0 granted rest = Ok (rest, if granted =? 0 then [] else [single_grant cid granted]).
Proof.
  intros Hr Hg. assert (Hnone : rest !! (MacCidToNodeId cid, uint16 (MAX_CODEWORDS - 0)) = None).
  { destruct (rest !! (MacCidToNodeId cid, uint16 (MAX_CODEWORDS - 0))) as [n|] eqn:E; [|done]. by apply Hr in E as [E _]. }
  destruct (Z.eqb_spec granted 0) as [->|Hne].
  - unfold grant_one. by rewrite Hnone, delete_id.
  - rewrite grant_one_alone by (done || lia). unfold single_grant. by rewrite <- granted_bytes_carried.
Qed.

Lemma sendGrants_grants (n : nat) (scheduleList : gmap (Z * Z) Z) :
  first_codewords scheduleList -> (size scheduleList <= n)%nat ->
  sendGrants n scheduleList = Ok (grants scheduleList).
Proof.
  unfold grants. remember (ascending_pairs scheduleList) as l eqn:El. symmetry in El.
  revert n scheduleList El. induction l as [|[cid codeword] l IH]; intros n m El Hm Hn; [by destruct n; cbn [sendGrants]; rewrite El|].
  assert (Hin : is_Some (m !! (cid, codeword))) by (apply ascending_pairs_spec; rewrite El; by left).
  destruct Hin as [granted Hg]. destruct (Hm _ _ Hg) as [Hcw H0]. cbn in Hcw. subst codeword.
  destruct n as [|n].
  { assert (size m = 0%nat) as Hz%map_size_empty_inv by lia. by rewrite Hz, lookup_empty in Hg. }
  pose proof (ascending_pairs_delete m (cid, 0) l El) as Ed.
  assert (Hd : first_codewords (delete (cid, 0) m)) by (by apply map_Forall_delete).
  cbn [sendGrants]. rewrite El, Hg. change (default 0 (Some granted)) with granted.
  rewrite grant_one_single by done. cbn [rbind]. rewrite (IH n (delete (cid, 0) m) Ed Hd).
  - cbn [rbind]. rewrite grants_delete by (apply (NoDup_cons_1_1 _ l); rewrite <- El; apply ascending_pairs_spec).
    change (omap (grant_of m) ((cid, 0) :: l)) with
      (match grant_of m (cid, 0) with Some y => y :: omap (grant_of m) l | None => omap (grant_of m) l end).
    unfold grant_of at 2. rewrite Hg. by destruct (granted =? 0).
  - rewrite map_size_delete, Hg. lia.
Qed.

(** The connections that are granted, in their order. *)
Definition granted_cids (m : gmap (Z * Z) Z) : list Z :=
  (filter (fun p => default 0 (m !! p) <> 0) (ascending_pairs m)).*1.

Lemma first_codeword m p : first_codewords m -> p ∈ ascending_pairs m -> p.2 = 0 /\ is_Some (m !! p).
Proof.
  intros Hm Hp%ascending_pairs_spec. split; [|done]. destruct Hp as [n Hn]. apply (Hm p n Hn).
Qed.

Lemma grants_map m :
  first_codewords m -> grants m = map (fun cid => single_grant cid (default 0 (m !! (cid, 0)))) (granted_cids m).
Proof.
  intros Hm. unfold grants, granted_cids. pose proof (fun p => first_codeword m p Hm) as Hp. revert Hp.
  induction (ascending_pairs m) as [|[cid cw] l IH]; intros Hp; [done|].
  destruct (Hp (cid, cw)) as [Hcw [n Hn]]; [by left|]. cbn in Hcw. subst cw.
  assert (IH' := IH (fun p Hin => Hp p (list_elem_of_further p _ l Hin))).
  change (omap (grant_of m) ((cid, 0) :: l)) with
    (match grant_of m (cid, 0) with Some y => y :: omap (grant_of m) l | None => omap (grant_of m) l end).
  unfold grant_of at 1. rewrite filter_cons, Hn. cbn [default from_option id].
  destruct (Z.eqb_spec n 0) as [->|Hne]; [by rewrite decide_False by tauto|].
  rewrite decide_True by done. cbn. by rewrite Hn, IH'.
Qed.

Lemma first_components_sorted (l : list (Z * Z)) :
  StronglySorted pair_le l -> NoDup l -> Forall (fun p => p.2 = 0) l -> StronglySorted Z.lt l.*1.
Proof.
  induction l as [|[a b] l IH]; intros Hs Hd Hz; [constructor|]. apply StronglySorted_inv in Hs as [Hs Hle].
  apply NoDup_cons in Hd as [Hni Hd]. apply Forall_cons in Hz as [Hb Hz]. cbn in Hb. subst b. constructor; [by apply IH|].
  apply Forall_fmap, Forall_forall. intros [c d] Hin. rewrite Forall_forall in Hle, Hz.
  specialize (Hle _ Hin). specialize (Hz _ Hin). unfold pair_le in Hle. cbn in *. subst d.
  assert (c <> a) by (by intros ->). lia.
Qed.

Lemma granted_cids_sorted m : first_codewords m -> StronglySorted Z.lt (granted_cids m).
Proof.
  intros Hm. destruct (ascending_pairs_spec m) as (Hs & Hd & _). apply first_components_sorted.
  - clear Hd. induction Hs as [|p l Hs IH Hp]; [constructor|]. rewrite filter_cons. destruct (decide _); [|done].
    constructor; [done|]. rewrite Forall_forall in Hp |- *. intros q [_ Hq]%list_elem_of_filter. by apply Hp.
  - by apply NoDup_filter.
  - apply Forall_forall. intros p [_ Hp]%list_elem_of_filter. by apply (first_codeword m p).
Qed.

Lemma granted_cids_spec m cid :
  first_codewords m -> cid ∈ granted_cids m <-> exists blocks, m !! (cid, 0) = Some blocks /\ blocks <> 0.
Proof.
  intros Hm. unfold granted_cids. rewrite list_elem_of_fmap. split.
  - intros ([c cw] & -> & [Hne Hp]%list_elem_of_filter). destruct (first_codeword m _ Hm Hp) as [Hcw [n Hn]].
    cbn in Hcw |- *. subst cw. exists n. rewrite Hn in Hne. done.
  - intros (n & Hn & Hne). exists (cid, 0). split; [done|]. apply list_elem_of_filter. rewrite Hn. split; [done|].
    apply ascending_pairs_spec. by exists n.
Qed.

(** C36. A schedule of first codewords becomes a grant for each connection scheduled with
    some blocks and for no other, in the order of the connections; the loop takes a turn for
    each entry.  A grant is one uplink codeword with the blocks scheduled, of as many bytes
    as the blocks of the node carry, summed over all antennas and all bands of the cell. *)
Theorem grants_complete (n : nat) (scheduleList : gmap (Z * Z) Z) :
  first_codewords scheduleList -> (size scheduleList <= n)%nat ->
  exists cids,
    sendGrants n scheduleList =
      Ok (map (fun cid =>
           GrantToPhy (MacCidToNodeId cid)
             {| g_direction := UL; g_codewords := 1;
                grantedCwBytes :=
                  [sumZ (fun b => computeBytesOnNRbs (MacCidToNodeId cid) b 0
                       (sumZ (fun antenna => readPerUeAllocatedBlocks (MacCidToNodeId cid) antenna b)
                          (antennaSet (MacCidToNodeId cid)) mod 2 ^ 32))
                     (seqZ 0 numBands) mod 2 ^ 32; 0];
                totalGrantedBlocks := default 0 (scheduleList !! (cid, 0));
                g_periodic := false; g_period := 0; g_expiration := 0;
                g_layers := txLayers (MacCidToNodeId cid) |}) cids) /\
    StronglySorted Z.lt cids /\
    forall cid, cid ∈ cids <-> exists blocks, scheduleList !! (cid, 0) = Some blocks /\ blocks <> 0.
Proof.
  intros Hf Hn. exists (granted_cids scheduleList). split; [|split].
  - rewrite sendGrants_grants, grants_map by done. done.
  - by apply granted_cids_sorted.
  - intros cid. by apply granted_cids_spec.
Qed.

Lemma grant_bytes_none n nodeId c v : grant_bytes n nodeId c c v = Ok v.
Proof. destruct n; cbn [grant_bytes]; [done|]. by rewrite Z.ltb_irrefl. Qed.

(** A connection scheduled on both codewords is not granted both: the entry of the other
    codeword is looked up under 2 less the codeword and under the node, so each entry makes
    a grant of its own, and the one for the second codeword has no bytes at all. *)
Theorem second_codeword_no_bytes (cid granted0 granted1 : Z) :
  0 < granted0 -> 0 < granted1 -> MacCidToNodeId cid <> cid ->
  exists g0 g1, sendGrants 2 (<[(cid, 0) := granted0]> {[(cid, 1) := granted1]}) =
      Ok [GrantToPhy (MacCidToNodeId cid) g0; GrantToPhy (MacCidToNodeId cid) g1] /\
    g_codewords g1 = 1 /\ grantedCwBytes g1 = [0; 0] /\ totalGrantedBlocks g1 = granted1.
Proof.
  intros H0 H1 Hcid.
  assert (E1 : ascending_pairs ({[(cid, 1) := granted1]} : gmap (Z * Z) Z) = [(cid, 1)]).
  { unfold ascending_pairs. by rewrite dom_singleton_L, elements_singleton. }
  assert (E0 : ascending_pairs (<[(cid, 0) := granted0]> ({[(cid, 1) := granted1]} : gmap (Z * Z) Z)) = [(cid, 0); (cid, 1)]).
  { apply ascending_pairs_unique.
    - repeat constructor; unfold pair_le; cbn; lia.
    - repeat constructor; set_solver.
    - intros p. rewrite lookup_insert_is_Some, lookup_singleton_is_Some. set_unfold. destruct (decide (p = (cid, 0))); naive_solver. }
  cbn [sendGrants]. rewrite E0, lookup_insert_eq. change (default 0 (Some granted0)) with granted0.
  rewrite delete_insert_id by (by apply lookup_singleton_ne).
  rewrite grant_one_alone by (done || by apply lookup_singleton_ne; congruence).
  change (grant_bytes 3 (MacCidToNodeId cid) 0 1 [0; 0]) with (Ok [granted_bytes (MacCidToNodeId cid) 0; 0]).
  cbn [rbind]. rewrite E1, lookup_singleton_eq, delete_singleton_eq. change (default 0 (Some granted1)) with granted1.
  rewrite grant_one_alone by (done || apply lookup_empty). rewrite grant_bytes_none. cbn [rbind].
  eexists _, _. split; [reflexivity|]. done.
Qed.
End Grants.

(** *** Two UEs *)

(** A block on each of the first two of six bands, of 15 bytes each. *)
Definition demo_scheduler : EnbScheduler :=
  {| numBands := 6; getBytes := fun _ _ => 20; antennaSet := fun _ => [0];
     readPerUeAllocatedBlocks := fun _ _ b => if b <? 2 then 1 else 0;
     computeBytesOnNRbs := fun _ _ _ blocks => 15 * blocks; txLayers := fun _ => 1 |}.

Definition demo_schedule : gmap (Z * Z) Z :=
  <[(idToMacCid 1025 1, 0) := 2]> (<[(idToMacCid 1026 1, 0) := 2]> {[(idToMacCid 1027 1, 0) := 0]}).

Lemma grants_complete_witness :
  exists cids, sendGrants (H := demo_scheduler) 3 demo_schedule =
      Ok (map (fun cid => GrantToPhy (MacCidToNodeId cid)
        {| g_direction := UL; g_codewords := 1; grantedCwBytes := [30; 0];
           totalGrantedBlocks := default 0 (demo_schedule !! (cid, 0)); g_periodic := false;
           g_period := 0; g_expiration := 0; g_layers := 1 |}) cids) /\
    forall cid, cid ∈ cids <-> exists blocks, demo_schedule !! (cid, 0) = Some blocks /\ blocks <> 0.
Proof.
  destruct (grants_complete (H := demo_scheduler) 3 demo_schedule) as (cids & E & _ & Hcids).
  - apply (bool_decide_unpack _). vm_compute. exact I.
  - vm_compute. reflexivity.
  - exists cids. split; [exact E|exact Hcids].
Defined.

Lemma second_codeword_no_bytes_witness :
  exists g0 g1, sendGrants (H := demo_scheduler) 2 (<[(67174401, 0) := 2]> {[(67174401, 1) := 2]}) =
      Ok [GrantToPhy 1025 g0; GrantToPhy 1025 g1] /\
    g_codewords g1 = 1 /\ grantedCwBytes g1 = [0; 0] /\ totalGrantedBlocks g1 = 2.
Proof. apply (second_codeword_no_bytes (H := demo_scheduler) 67174401 2 2); [lia|lia|vm_compute; discriminate]. Defined.
