(* ===== verification/MacUplink.v ===== *)
(** * The uplink of the MAC layer, end to end

    SDUs enqueued on a UE for a grant are put into a PDU, exchanged with H-ARQ over a channel
    that may corrupt it, and taken out on the eNB: they come out in order and complete, and
    the eNB knows the bytes the UE has left; or H-ARQ gave up and nothing comes out. *)

From Stdlib Require Import SpecFloat.
From S2P Require Import Prelude.
From S2P Require Import LteCommon.
From S2P Require Import LteBinder.
From S2P Require Import MacQueue.
From S2P Require Import MacBase.
From S2P Require Import LcgScheduler.
From S2P Require Import HarqTx.
From S2P Require Import HarqTxBuffer.
From S2P Require Import HarqRx.
From S2P Require Import HarqTxFacts.
From S2P Require Import HarqTxProps.
From S2P Require Import HarqTxRun.
From S2P Require Import HarqLink.
From S2P Require Import HarqSource.
From S2P Require Import MacUe.
From S2P Require Import MacEnb.
#[local] Open Scope Z_scope.

(** ** The PDU of a grant *)

(** The connections of the schedule with the packets to be sent, which are at the front of
    their queues. *)
Definition load : Type := list (Z * list MacPacket).

Definition sdus_of (L : load) : list Sdu := concat (map (fun e => map sdu_of e.2) L).

Definition occupancy (c : MacConnections) (L : load) : Z :=
  foldr (fun e n => default 0 (queueOccupancy_ <$> macBuffers_ c !! e.1) + n) 0 L.

Definition enqueued (mbuf : gmap Z LteMacQueue) (e : Z * list MacPacket) : Prop :=
  e.2 <> [] /\ exists q rest, mbuf !! e.1 = Some q /\ packets q = e.2 ++ rest.

Definition scheduled (s : LteMacUe) (e : Z * list MacPacket) : Prop :=
  ul_scheduleList_ (lcgScheduler_ s) !! (e.1, 0) = Some (vsize e.2) /\ is_Some (macBuffers_ (conns_ s) !! e.1).

Record loaded (s : LteMacUe) (L : load) : Prop := {
  ld_entries : ascending_pairs (ul_scheduleList_ (lcgScheduler_ s)) = map (fun e => (e.1, 0)) L;
  ld_distinct : NoDup (map fst L);
  ld_scheduled : Forall (scheduled s) L;
  ld_queued : Forall (enqueued (mbuf_ s)) L;
  ld_grant : is_Some (schedulingGrant_ s)
}.

(** What is left of the queues. *)
Definition taken (mbuf mbuf' : gmap Z LteMacQueue) (L : load) : Prop :=
  (forall e, e ∈ L -> exists q q', mbuf !! e.1 = Some q /\ mbuf' !! e.1 = Some q' /\ packets q = e.2 ++ packets q') /\
  forall cid, cid ∉ map fst L -> mbuf' !! cid = mbuf !! cid.

Section Uplink.
Variable junk : Z.
Variable mac_found : Z -> bool.
Variable time_dbl : Z -> spec_float.
Variable simtime : spec_float -> Z.

Definition pdu_with (sdus : list Sdu) : LteMacPdu := fold_left mac_pushSdu sdus (new_pdu junk).

Lemma push_all_spec sdus pdu :
  let p := fold_left mac_pushSdu sdus pdu in
  sduList_ p = sduList_ pdu ++ sdus /\ ceList_ p = ceList_ pdu /\ (measured pdu -> measured p).
Proof.
  revert pdu. induction sdus as [|x sdus IH]; intros pdu; cbn [fold_left]; [by rewrite app_nil_r|].
  destruct (IH (mac_pushSdu pdu x)) as (I1 & I2 & I3). split; [|split; [by rewrite I2|by intros _; apply I3]].
  rewrite I1. cbn. by rewrite <- app_assoc.
Qed.

Lemma pdu_with_spec sdus : sduList_ (pdu_with sdus) = sdus /\ ceList_ (pdu_with sdus) = [] /\ measured (pdu_with sdus).
Proof. destruct (push_all_spec sdus (new_pdu junk)) as (H1 & H2 & H3). split; [done|]. split; [done|by apply H3]. Qed.

Lemma take_sdus_spec pkts q pdu rest :
  packets q = pkts ++ rest ->
  exists q', take_sdus (length pkts) q pdu = (q', fold_left mac_pushSdu (map sdu_of pkts) pdu) /\ packets q' = rest.
Proof.
  revert q pdu. induction pkts as [|k pkts IH]; intros q pdu Hq; [by exists q|]. cbn [length take_sdus map fold_left].
  unfold queue_popFront. rewrite Hq. cbn [app]. by apply IH.
Qed.

Lemma taken_cons mbuf mbuf' cid pkts q q' L :
  mbuf !! cid = Some q -> packets q = pkts ++ packets q' -> cid ∉ map fst L ->
  taken (<[cid := q']> mbuf) mbuf' L -> taken mbuf mbuf' ((cid, pkts) :: L).
Proof.
  intros Hq Hp Hn [T1 T2]. split.
  - intros e [->|He]%elem_of_cons.
    + exists q, q'. cbn [fst snd]. rewrite (T2 cid Hn), lookup_insert_eq. done.
    + destruct (T1 e He) as (q1 & q1' & H1 & H2). exists q1, q1'. rewrite lookup_insert_ne in H1; [done|].
      intros ->. apply Hn. by apply list_elem_of_fmap_2.
  - cbn [map]. intros c [Hc Hc']%not_elem_of_cons. rewrite (T2 c Hc'). by apply lookup_insert_ne.
Qed.

(** *** Filling *)

Definition packet_with (s : LteMacUe) (sdus : list Sdu) : Packet :=
  insertAtFront (new_packet junk (ue_nodeId_ s) (ue_cellId_ s)) (pdu_with sdus).

(** The PDUs made so far. *)
Definition made (s : LteMacUe) (sdus : list Sdu) : gmap Z Packet :=
  match sdus with [] => ∅ | _ => {[0 := packet_with s sdus]} end.

Lemma made_default s sdus : default (packet_with s []) (made s sdus !! 0) = packet_with s sdus.
Proof. destruct sdus; [done|]. unfold made. by rewrite lookup_singleton_eq. Qed.

Lemma made_insert s sdus more : more <> [] ->
  <[0 := packet_with s (sdus ++ more)]> (made s sdus) = made s (sdus ++ more).
Proof.
  intros Hm. assert (E : made s (sdus ++ more) = {[0 := packet_with s (sdus ++ more)]}).
  { unfold made. destruct (sdus ++ more) eqn:E; [|done]. apply app_eq_nil in E as [_ ->]. done. }
  rewrite E. unfold made. destruct sdus; [done|]. apply insert_singleton_eq.
Qed.

Lemma made_packet s acc (g : LteSchedulingGrant) :
  match made s acc !! 0, Some g with
  | Some macPkt, _ => Ok macPkt
  | None, Some _ => Ok (new_packet junk (ue_nodeId_ s) (ue_cellId_ s))
  | None, None => UB
  end = Ok (packet_with s acc).
Proof. by destruct acc. Qed.

Lemma fill_step s cid pkts q rest vb entries mbuf acc size :
  ul_scheduleList_ (lcgScheduler_ s) !! (cid, 0) = Some (vsize pkts) -> pkts <> [] ->
  mbuf !! cid = Some q -> packets q = pkts ++ rest -> macBuffers_ (conns_ s) !! cid = Some vb ->
  is_Some (schedulingGrant_ s) ->
  exists q', packets q' = rest /\
    fill_pdus junk s ((cid, 0) :: entries) mbuf (made s acc) size =
    fill_pdus junk s entries (<[cid := q']> mbuf) (made s (acc ++ map sdu_of pkts)) (size + queueOccupancy_ vb).
Proof.
  intros Hsch Hne Hq Hp Hvb [g Hg]. assert (Hpos : 0 < vsize pkts) by (destruct pkts; [done|cbn; lia]).
  destruct (take_sdus_spec pkts q (pdu_with acc) rest Hp) as (q' & E & Hq').
  exists q'. split; [done|]. cbn [fill_pdus]. rewrite Hsch. change (default 0 (Some (vsize pkts))) with (vsize pkts).
  rewrite (proj2 (Z.eqb_neq (vsize pkts) 0)) by lia. cbn [andb]. rewrite Hg, (made_packet s acc g). cbn [rbind].
  rewrite (proj2 (Z.ltb_lt 0 (vsize pkts))), Hq, Nat2Z.id by lia.
  change (removeAtFront (packet_with s acc)) with (Ok (pdu_with acc, (packet_with s acc) <| front := None |>)).
  cbn [rbind]. rewrite E. cbn [rbind]. rewrite Hvb. cbn [of_option rbind].
  assert (more : map sdu_of pkts <> []) by (by destruct pkts). rewrite <- (made_insert s acc _ more).
  unfold packet_with, pdu_with. by rewrite fold_left_app.
Qed.

Lemma fill_pdus_spec s L mbuf acc size :
  NoDup (map fst L) -> Forall (scheduled s) L -> Forall (enqueued mbuf) L -> is_Some (schedulingGrant_ s) ->
  exists mbuf', fill_pdus junk s (map (fun e => (e.1, 0)) L) mbuf (made s acc) size =
    Ok (mbuf', made s (acc ++ sdus_of L), size + occupancy (conns_ s) L) /\ taken mbuf mbuf' L.
Proof.
  intros Hnd Hs Hq Hg. revert mbuf acc size Hnd Hq.
  induction Hs as [|[cid pkts] L [Hsch [vb Hvb]] _ IH]; intros mbuf acc size Hnd Hq.
  { exists mbuf. cbn. rewrite app_nil_r, Z.add_0_r. split; [done|]. split; [by intros e ?%elem_of_nil|done]. }
  apply NoDup_cons in Hnd as [Hn Hnd]. apply Forall_cons in Hq as [(Hne & q & rest & Hq & Hp) Hql].
  cbn [map fst snd] in *.
  destruct (fill_step s cid pkts q rest vb (map (fun e => (e.1, 0)) L) mbuf acc size) as (q' & Hq' & ->); [done..|].
  destruct (IH (<[cid := q']> mbuf) (acc ++ map sdu_of pkts) (size + queueOccupancy_ vb) Hnd) as (mbuf' & -> & Ht).
  { rewrite Forall_forall in Hql |- *. intros e He. destruct (Hql e He) as (H1 & q1 & r1 & H2 & H3). split; [done|]. exists q1, r1.
    rewrite lookup_insert_ne; [done|]. intros ->. apply Hn. by apply list_elem_of_fmap_2. }
  exists mbuf'. split; [|eapply taken_cons; [exact Hq|by rewrite Hq'|done|done]].
  unfold sdus_of, occupancy. cbn [map concat foldr fst snd]. rewrite Hvb, app_assoc. do 2 f_equal.
  change (default 0 (queueOccupancy_ <$> Some vb)) with (queueOccupancy_ vb). lia.
Qed.

(** *** Storing *)

Lemma made_list s sdus : sdus <> [] ->
  omap (fun cw => pkt ← made s sdus !! cw; Some (cw, pkt)) (ascending (made s sdus)) = [(0, packet_with s sdus)].
Proof.
  intros Hne. assert (E : made s sdus = {[0 := packet_with s sdus]}) by (by destruct sdus). rewrite E.
  unfold ascending. rewrite dom_singleton_L, elements_singleton. cbn. by rewrite lookup_singleton_eq.
Qed.

(** The PDU with the report, when one was asked for. *)
Definition reporting (NOW size : Z) (s : LteMacUe) (pdu : LteMacPdu) : LteMacPdu :=
  if bsrTriggered_ s then pushCe pdu (MacBsr (time_dbl NOW) (int32 size)) else pdu.

(** The transmit buffer towards the cell is ready for a new PDU. *)
Record tx_ready (m : Z) (s : LteMacUe) (b : LteHarqBufferTx) : Prop := {
  tr_buffer : harqTxBuffers_ s !! ue_cellId_ s = Some b;
  tr_ok : buf_ok m b;
  tr_unselected : selectedAcid_ b = HARQ_NONE;
  tr_empty : exists p, proc_at b (currentHarq_ s) = Ok p /\ proc_isEmpty p = true
}.

Lemma where_two f u0 u1 : where_ f [u0; u1] = (if f u0 then [0] else []) ++ (if f u1 then [1] else []).
Proof.
  unfold where_. cbn. change (Z.to_nat 0) with 0%nat. change (Z.to_nat 1) with 1%nat. cbn.
  by destruct (f u0), (f u1).
Qed.

Lemma empty_units m b a p :
  buf_ok m b -> proc_at b a = Ok p -> proc_isEmpty p = true -> getEmptyUnits b a = Ok (a, [0; 1]).
Proof.
  intros Hb Hp He. pose proof (proc_at_ok m _ _ _ Hb Hp) as Hpok. unfold getEmptyUnits. rewrite Hp. cbn [rbind].
  rewrite (empty_where m a p Hpok). cbn [rbind].
  destruct (two_units m a p Hpok) as (u0 & u1 & Eu). pose proof (proj1 (proc_isEmpty_spec m a p Hpok) He) as Hall.
  unfold unit_at in Hall. rewrite Eu in Hall |- *.
  assert (unit_isEmpty u0 = true /\ unit_isEmpty u1 = true) as [E0 E1]
    by (split; apply bool_decide_eq_true; [by apply (Hall 0)|by apply (Hall 1)]).
  by rewrite where_two, E0, E1.
Qed.

Lemma store_spec m NOW size s b pdu :
  0 <= m < 255 -> tx_ready m s b -> measured pdu ->
  exists s' b', store_pdus junk mac_found time_dbl NOW size s
      [(0, insertAtFront (new_packet junk (ue_nodeId_ s) (ue_cellId_ s)) pdu)] = Ok s' /\
    s' = s <| harqTxBuffers_ := <[ue_cellId_ s := b']> (harqTxBuffers_ s) |> <| bsrTriggered_ := false |> /\
    tx_at m (currentHarq_ s) TXHARQ_PDU_SELECTED 0 (stamped (reporting NOW size s pdu)) b' /\
    same_but (currentHarq_ s) b b' /\ (tx_from (ue_nodeId_ s) b -> tx_from (ue_nodeId_ s) b').
Proof.
  intros Hm [Hb Hok Hsel (p & Hp & He)] Hmeas. cbn [store_pdus]. rewrite Hb. cbn [rbind].
  change (getEmptyUnits b (currentHarq_ (s <| harqTxBuffers_ := ?x |>))) with (getEmptyUnits b (currentHarq_ s)).
  rewrite (empty_units m b (currentHarq_ s) p Hok Hp He). cbn [rbind].
  change (removeAtFront (insertAtFront ?x pdu)) with (Ok (pdu, (insertAtFront x pdu) <| front := None |>)).
  cbn [rbind snd fst].
  change (bsrTriggered_ (s <| harqTxBuffers_ := ?x |>)) with (bsrTriggered_ s).
  fold (reporting NOW size s pdu).
  set (pkt := insertAtFront (new_packet junk (ue_nodeId_ s) (ue_cellId_ s)) (reporting NOW size s pdu)).
  destruct (insert_at m (currentHarq_ s) Hm b p pkt (reporting NOW size s pdu)) as (b' & E & Htx & Hsb); try done.
  { split; [done|]. split; [done|]. split; [by right|]. unfold reporting. by destruct (bsrTriggered_ s). }
  match goal with |- context [buf_insertPdu ?b1 ?a1 ?c1 ?p1] => change (buf_insertPdu b1 a1 c1 p1) with (buf_insertPdu b (currentHarq_ s) 0 pkt) end.
  rewrite E. cbn [rbind]. eexists _, b'. split; [done|]. split.
  { unfold set; cbn. by rewrite insert_insert_eq. }
  split; [done|]. split; [done|]. intros Hfrom. exact (post_insert _ b _ 0 pkt Hfrom eq_refl b' E).
Qed.

(** ** The report on the eNB *)

(** The buffer of the reports of a connection. *)
Definition reported (e : LteMacEnb) (cid : Z) (l : list PacketInfo) : Prop :=
  match bsrbuf_ e !! cid with Some q => represents q l | None => l = [] end.

Definition report (timestamp : spec_float) (size : Z) : list PacketInfo :=
  if 0 <? size then [(size, simtime timestamp)] else [].

Lemma report_spec e cid l timestamp size :
  reported e cid l -> vsize l <= 1 ->
  exists e', bufferizeBsr simtime e timestamp size cid = Ok (e', if 0 <? size then [UlBacklog cid] else []) /\
    reported e' cid (report timestamp size).
Proof.
  unfold reported, report, bufferizeBsr. destruct (bsrbuf_ e !! cid) as [q|] eqn:Eq; intros Hr Hl.
  - assert (exists q', (if buffer_isEmpty q then Ok q else let! (_, q0) := buffer_popFront q in Ok q0) = Ok q' /\
      represents q' []) as (q' & -> & Hq').
    { destruct Hr as (H1 & H2 & H3). unfold buffer_isEmpty. rewrite H2. destruct l as [|x [|]]; cbn in Hl; [|..|lia].
      - rewrite Z.eqb_refl. by exists q.
      - rewrite (proj2 (Z.eqb_neq _ _)) by (cbn; lia). unfold buffer_popFront. rewrite H1, H2. cbn.
        eexists. split; [done|]. split; [done|]. split; [done|]. cbn. rewrite H3. cbn. rewrite wrap_sub. f_equal. lia. }
    cbn [rbind]. destruct (0 <? size); [|eexists; split; [done|]; by cbn; rewrite lookup_insert_eq].
    destruct Hq' as (H1 & H2 & H3). unfold buffer_pushBack. rewrite H2. change (vsize []) with 0. rewrite (incr_ok 0) by lia.
    eexists. split; [done|]. cbn. rewrite lookup_insert_eq. split; [cbn; by rewrite H1|]. split; [done|].
    cbn. rewrite H3, wrap_add. cbn. f_equal. lia.
  - destruct (0 <? size); [|exists e; by rewrite Eq]. eexists. split; [done|]. cbn. rewrite lookup_insert_eq.
    split; [done|]. split; [done|]. cbn. f_equal. lia.
Qed.

(** ** The uplink *)

Definition upward (effs : list enb_effect) : list Sdu :=
  omap (fun e => match e with EnbSduToRlc sdu => Some sdu | _ => None end) effs.

Lemma upward_sdus sdus rest : upward (map EnbSduToRlc sdus ++ rest) = sdus ++ upward rest.
Proof. induction sdus as [|x sdus IH]; [done|]. cbn. by rewrite <- IH. Qed.

(** What the eNB does with the packets H-ARQ hands up, when they are the PDU of the UE. *)
Lemma unmake_spec e l NOW size s pdu k a pkt :
  delivered a (stamped (reporting NOW size s pdu)) k [pkt] -> sourceId (tag pkt) = ue_nodeId_ s ->
  ceList_ pdu = [] -> reported e (idToMacCid (ue_nodeId_ s) 0) l -> vsize l <= 1 ->
  exists e' effs, enb_unmake_all simtime e [pkt] = Ok (e', effs) /\ upward effs = sduList_ pdu /\
    reported e' (idToMacCid (ue_nodeId_ s) 0)
      (if bsrTriggered_ s then report (time_dbl NOW) (int32 size) else l).
Proof.
  intros (pkt' & [= <-] & Hf & _) Hsrc Hce Hr Hl. cbn [enb_unmake_all]. unfold peekAtFront. rewrite Hf. cbn [rbind].
  unfold enb_macPduUnmake, removeAtFront, peekAtFront. rewrite Hf, Hsrc. cbn [rbind].
  unfold reporting. destruct (bsrTriggered_ s).
  - change (ceList_ (stamped (pushCe pdu ?c))) with (ceList_ pdu ++ [c]). rewrite Hce. cbn [app unmake_ces].
    destruct (report_spec e _ l (time_dbl NOW) (int32 size) Hr Hl) as (e' & -> & Hr'). cbn [rbind].
    eexists e', _. split; [done|]. split; [|done]. rewrite !app_nil_r, upward_sdus.
    change (sduList_ (stamped (pushCe pdu _))) with (sduList_ pdu). rewrite <- (app_nil_r (sduList_ pdu)) at 2. f_equal.
    by case_match.
  - change (ceList_ (stamped pdu)) with (ceList_ pdu). rewrite Hce. cbn [unmake_ces rbind].
    eexists e, _. split; [done|]. split; [|done]. by rewrite app_nil_r, upward_sdus, app_nil_r.
Qed.

(** The PDU a loaded UE makes. *)
Lemma make_spec m NOW s b L :
  0 <= m < 255 -> loaded s L -> L <> [] -> tx_ready m s b ->
  exists s' b' size, macPduMake junk mac_found time_dbl NOW s = Ok s' /\ size = occupancy (conns_ s) L /\
    harqTxBuffers_ s' = <[ue_cellId_ s := b']> (harqTxBuffers_ s) /\ bsrTriggered_ s' = false /\
    taken (mbuf_ s) (mbuf_ s') L /\
    tx_at m (currentHarq_ s) TXHARQ_PDU_SELECTED 0 (stamped (reporting NOW size s (pdu_with (sdus_of L)))) b' /\
    same_but (currentHarq_ s) b b' /\ (tx_from (ue_nodeId_ s) b -> tx_from (ue_nodeId_ s) b').
Proof.
  intros Hm [He Hd Hs Hq Hg] Hne Htx. unfold macPduMake. rewrite He.
  destruct (fill_pdus_spec s L (mbuf_ s) [] 0 Hd Hs Hq Hg) as (mbuf' & E & Ht).
  change (made s []) with (∅ : gmap Z Packet) in E. rewrite E. cbn [rbind app].
  assert (Hsd : sdus_of L <> []).
  { destruct L as [|[cid pkts] L]; [done|]. apply Forall_cons in Hq as [[Hp _] _]. by destruct pkts. }
  rewrite made_list by done.
  destruct (store_spec m NOW (0 + occupancy (conns_ s) L) (s <| mbuf_ := mbuf' |>) b (pdu_with (sdus_of L)) Hm)
    as (s' & b' & E' & -> & H1 & H2 & H3); [by destruct Htx; split|by apply pdu_with_spec|].
  eexists _, b', _. split; [exact E'|]. split; [done|]. by split_and!.
Qed.
End Uplink.

(** C10. The uplink of the MAC layer: the SDUs enqueued for a grant of the first codeword come
    out of the eNB in order and complete when the channel decodes one of the attempts
    H-ARQ allows, and not at all otherwise; in both cases the UE has the enqueued SDUs taken,
    and both H-ARQ processes are free again; when a report was due, the eNB then
    knows the bytes left in the virtual buffers of the UE. *)
Theorem uplink_mac_delivers (junk : Z) (mac_found : Z -> bool) (time_dbl : Z -> spec_float) (simtime : spec_float -> Z)
    (m layers NOW : Z) (s : LteMacUe) (e : LteMacEnb) (L : load) (b : LteHarqBufferTx) (r : LteHarqBufferRx)
    (l : list PacketInfo) (atts : list Attempt) :
  0 <= m < 255 -> 1 <= layers < 256 -> loaded s L -> L <> [] ->
  tx_ready m s b -> tx_from (ue_nodeId_ s) b ->
  at_rest m (currentHarq_ s) r -> rx_from (ue_nodeId_ s) r ->
  reported e (idToMacCid (ue_nodeId_ s) 0) l -> vsize l <= 1 ->
  Forall timed atts -> m + 1 <= vsize atts ->
  exists s' b1 up b2 r2,
    macPduMake junk mac_found time_dbl NOW s = Ok s' /\ taken (mbuf_ s) (mbuf_ s') L /\
    harqTxBuffers_ s' !! ue_cellId_ s = Some b1 /\
    exchange false layers (currentHarq_ s) atts b1 r = Ok (up, b2, r2) /\
    tx_done m (currentHarq_ s) b2 /\ at_rest m (currentHarq_ s) r2 /\
    match first_decoded (take (Z.to_nat (m + 1)) atts) with
    | Some _ =>
        exists e' effs, enb_unmake_all simtime e up = Ok (e', effs) /\ upward effs = sdus_of L /\
          reported e' (idToMacCid (ue_nodeId_ s) 0)
            (if bsrTriggered_ s then report simtime (time_dbl NOW) (int32 (occupancy (conns_ s) L)) else l)
    | None => up = []
    end.
Proof.
  intros Hm Hlay HL Hne Htx Hfrom [Hq Hr] Hrf Hrep Hl Hat Hlen.
  destruct (make_spec junk mac_found time_dbl m NOW s b L Hm HL Hne Htx) as (s' & b1 & size & E1 & -> & Eb & _ & Ht & Hs & _ & Hf).
  destruct (exchange_spec m (currentHarq_ s) layers Hm Hlay false atts 0 _ b1 r (rx_idle m (currentHarq_ s)) Hs Hq Hr)
    as (up & b2 & r2 & E2 & _ & Hdone & Hq2 & Hr2 & Hup); [done|done|lia|].
  exists s', b1, up, b2, r2. split; [done|]. split; [done|]. split; [by rewrite Eb, lookup_insert_eq|].
  split; [done|]. split; [done|]. split; [done|]. rewrite Z.sub_0_r in Hup.
  destruct (first_decoded _) as [[j x]|]; [|done].
  destruct (post_exchange (ue_nodeId_ s) false layers (currentHarq_ s) atts b1 r (Hf Hfrom) Hrf _ E2) as [Hu _].
  destruct Hup as (pkt & -> & Hpkt). apply Forall_cons in Hu as [Hsrc _].
  destruct (unmake_spec time_dbl simtime e l NOW (occupancy (conns_ s) L) s (pdu_with junk (sdus_of L)) (0 + Z.of_nat j) (currentHarq_ s) pkt)
    as (e' & effs & E & Hs' & Hr'); [by exists pkt|done|by apply pdu_with_spec|done|done|].
  exists e', effs. split; [done|]. split; [|done]. rewrite Hs'. by apply pdu_with_spec.
Qed.
