(* ===== verification/MacUplinkDemo.v ===== *)
(** * The uplink at a concrete input

    The UE of [MacUeDemo] gets a grant of 60 bytes: it asks RLC for 24 and 34 bytes, the
    SDUs come back, and the PDU is decoded at the third attempt. *)

From Stdlib Require Import SpecFloat.
From S2P Require Import Prelude.
From S2P Require Import LteCommon.
From S2P Require Import LteBinder.
From S2P Require Import MacQueue.
From S2P Require Import LcgScheduler.
From S2P Require Import LcgProps.
From S2P Require Import HarqTx.
From S2P Require Import HarqTxBuffer.
From S2P Require Import HarqRx.
From S2P Require Import HarqTxFacts.
From S2P Require Import HarqTxProps.
From S2P Require Import HarqTxRun.
From S2P Require Import HarqLink.
From S2P Require Import HarqDemo.
From S2P Require Import HarqSource.
From S2P Require Import MacUe.
From S2P Require Import MacUeUplink.
From S2P Require Import MacUeDemo.
From S2P Require Import MacEnb.
From S2P Require Import MacUplink.
#[local] Open Scope Z_scope.

(** The tags of the SDUs 1 and 2. *)
Definition uplink_flow (id : Z) : FlowControlInfo :=
  if id =? 1 then c_desc slow else c_desc quick.

Definition uplink_sdu (id bytes : Z) : UpperPacket :=
  {| up_packet := {| mp_id := id; bitLength := 8 * bytes; pkt_timestamp := 0; am_pdu := None |}; up_newData := None |}.

(** The grant is shared, and the two SDUs arrive. *)
Definition uplink_loaded : LteMacUe :=
  let s0 := uplink_ue <| schedulingGrant_ := Some (uplink_grant 60) |> <| bsrTriggered_ := true |>
                      <| currentHarq_ := 6 |> <| harqTxBuffers_ := {[ 1 := new_LteHarqBufferTx 8 1 3 0 ]} |> in
  match (let! (_, s, _) := share_grant s0 (uplink_grant 60) in
         let! (_, s) := ue_bufferizePacket uplink_flow TTI s (uplink_sdu 1 24) in
         let! (_, s) := ue_bufferizePacket uplink_flow TTI s (uplink_sdu 2 32) in Ok s) with
  | Ok s => s
  | _ => s0
  end.

Definition arrived (id bytes : Z) : MacPacket :=
  {| mp_id := id; bitLength := 8 * bytes; pkt_timestamp := TTI; am_pdu := None |}.

Definition uplink_load : load := [(c_cid slow, [arrived 1 24]); (c_cid quick, [arrived 2 32])].

Lemma uplink_is_loaded : loaded uplink_loaded uplink_load.
Proof.
  split; [by vm_compute|by apply (bool_decide_unpack _); vm_compute| | |by apply (bool_decide_unpack _); vm_compute].
  - apply Forall_cons_2; [|apply Forall_cons_2; [|constructor]]; (split; [by vm_compute|by apply (bool_decide_unpack _); vm_compute]).
  - apply Forall_cons_2; [|apply Forall_cons_2; [|constructor]];
      (split; [done|]; eexists _, []; split; vm_compute; reflexivity).
Qed.

Lemma uplink_tx_ready : tx_ready 3 uplink_loaded (new_LteHarqBufferTx 8 1 3 0).
Proof.
  split; [by vm_compute|apply new_buf_ok; unfold HARQ_NONE; lia|done|].
  eexists. split; [vm_compute; reflexivity|reflexivity].
Qed.

Definition zero_time (_ : Z) : spec_float := S754_zero false.

Lemma uplink_mac_delivers_witness :
  exists s' b1 up b2 r2 e' effs,
    macPduMake 77 (fun _ => true) zero_time (2 * TTI) uplink_loaded = Ok s' /\
    exchange false 1 6 demo_attempts b1 (new_LteHarqBufferRx 8 1025 3) = Ok (up, b2, r2) /\
    enb_unmake_all (fun _ => 0) (new_LteMacEnb 1 0 3) up = Ok (e', effs) /\
    upward effs = [{| sdu_id := 1; sdu_bytes := 24 |}; {| sdu_id := 2; sdu_bytes := 32 |}] /\
    reported e' (idToMacCid 1025 0) [(126, 0)].
Proof.
  destruct (uplink_mac_delivers 77 (fun _ => true) zero_time (fun _ => 0) 3 1 (2 * TTI) uplink_loaded
    (new_LteMacEnb 1 0 3) uplink_load (new_LteHarqBufferTx 8 1 3 0) (new_LteHarqBufferRx 8 1025 3) [] demo_attempts)
    as (s' & b1 & up & b2 & r2 & E1 & _ & _ & E2 & _ & _ & (e' & effs & E3 & E4 & E5)).
  - lia.
  - lia.
  - exact uplink_is_loaded.
  - discriminate.
  - exact uplink_tx_ready.
  - repeat constructor; discriminate.
  - apply new_at_rest; [change (currentHarq_ uplink_loaded) with 6|]; lia.
  - repeat constructor; discriminate.
  - reflexivity.
  - vm_compute. discriminate.
  - repeat apply Forall_cons_2; [..|apply Forall_nil_2]; vm_compute; discriminate.
  - vm_compute. discriminate.
  - exists s', b1, up, b2, r2, e', effs. split; [exact E1|]. split; [exact E2|]. split; [exact E3|].
    split; [rewrite E4; vm_compute; reflexivity|]. exact E5.
Defined.
