(* ===== verification/RlcWindow.v ===== *)
(** * RLC unacknowledged mode: the reordering window

    [UmRxEntity] (src/simulte/src/stack/rlc/um/entity/UmRxEntity.cc): PDUs are kept
    in a window until those before them have come, or the reordering timer says that
    they will not, and are then reassembled (RlcUm.v).  The PDU buffer is an
    [omnetpp::cArray], which is not part of this repository: it is a parameter of the
    model, the class [CArray], and what the code relies on is [CArrayLaws]. *)

From S2P Require Import Prelude TTimer RlcUm.

(** [get], [addAt] (an error if the position is used), [remove], [clear]. *)
Class CArray (X A : Type) := {
  arr_new : A;
  arr_get : A -> Z -> option X;
  arr_addAt : A -> Z -> X -> result A;
  arr_remove : A -> Z -> A;
  arr_clear : A -> A
}.

Class CArrayLaws (X A : Type) {C : CArray X A} := {
  arr_get_new i : arr_get arr_new i = None;
  arr_get_clear a i : arr_get (arr_clear a) i = None;
  arr_addAt_free a i x : 0 <= i -> arr_get a i = None ->
    exists a', arr_addAt a i x = Ok a' /\
      forall j, arr_get a' j = if decide (j = i) then Some x else arr_get a j;
  arr_addAt_used a i x y : arr_get a i = Some y -> exists e, arr_addAt a i x = Throw e;
  arr_get_remove a i j : arr_get (arr_remove a i) j = if decide (j = i) then None else arr_get a j
}.

(** [RlcUmRxWindowDesc] (src/simulte/src/stack/rlc/LteRlcDefs.h). *)
Record RlcUmRxWindowDesc := {
  firstSno_ : Z;
  firstSnoForReordering_ : Z;
  reorderingSno_ : Z;
  highestReceivedSno_ : Z;
  windowSize_ : Z
}.

#[export] Instance rxwindow_eta : Eta RlcUmRxWindowDesc := fun w =>
  {| firstSno_ := firstSno_ w; firstSnoForReordering_ := firstSnoForReordering_ w;
     reorderingSno_ := reorderingSno_ w; highestReceivedSno_ := highestReceivedSno_ w;
     windowSize_ := windowSize_ w |}.

Definition win_clear (w : RlcUmRxWindowDesc) (i : Z) : RlcUmRxWindowDesc :=
  {| firstSno_ := i; firstSnoForReordering_ := i; reorderingSno_ := i; highestReceivedSno_ := i;
     windowSize_ := windowSize_ w |}.

Definition out_of_range : string := "vector::at".

Section Entity.
Context {A : Type} {C : CArray UmPdu A}.

(** The entity; [d2dMulti] is [isD2DMultiConnection()] of its flow, [ownerIsUe] the
    node type of its owner. *)
Record UmRxEntity := {
  rxWindowDesc_ : RlcUmRxWindowDesc;
  pduBuffer_ : A;
  received_ : list bool;
  t_reordering_ : TTimer;
  timeout_ : Z;
  reasm : UmReassembly;
  init_ : bool;
  d2dMulti : bool;
  ownerIsUe : bool
}.

#[export] Instance umrx_eta : Eta UmRxEntity := fun e =>
  {| rxWindowDesc_ := rxWindowDesc_ e; pduBuffer_ := pduBuffer_ e; received_ := received_ e;
     t_reordering_ := t_reordering_ e; timeout_ := timeout_ e; reasm := reasm e;
     init_ := init_ e; d2dMulti := d2dMulti e; ownerIsUe := ownerIsUe e |}.

(** The constructor and [initialize]. *)
Definition new_UmRxEntity (rxWindowSize timeout : Z) (multi ue : bool) : UmRxEntity :=
  {| rxWindowDesc_ := {| firstSno_ := 0; firstSnoForReordering_ := 0; reorderingSno_ := 0;
                         highestReceivedSno_ := 0; windowSize_ := rxWindowSize |};
     pduBuffer_ := arr_new; received_ := replicate (Z.to_nat rxWindowSize) false;
     t_reordering_ := new_TTimer; timeout_ := timeout; reasm := new_UmReassembly;
     init_ := false; d2dMulti := multi; ownerIsUe := ue |}.

Abbreviation F e := (firstSno_ (rxWindowDesc_ e)).
Abbreviation U e := (firstSnoForReordering_ (rxWindowDesc_ e)).
Abbreviation X e := (reorderingSno_ (rxWindowDesc_ e)).
Abbreviation H e := (highestReceivedSno_ (rxWindowDesc_ e)).
Abbreviation W e := (windowSize_ (rxWindowDesc_ e)).

(** [received_.at(i)], and its assignment. *)
Definition received_at (e : UmRxEntity) (i : Z) : result bool :=
  match vget (received_ e) i with Some b => Ok b | None => Throw out_of_range end.
Definition set_received (e : UmRxEntity) (i : Z) (b : bool) : result UmRxEntity :=
  match vset (received_ e) i b with
  | Some l => Ok (e <| received_ := l |>)
  | None => Throw out_of_range
  end.

Definition reassemble (e : UmRxEntity) (index : Z) : result (UmRxEntity * list umrx_effect) :=
  let! b := received_at e index in
  if b : bool then
    match arr_get (pduBuffer_ e) index with
    | None => Throw "check_and_cast(): Cannot cast nullptr"
    | Some pdu =>
        let! (r, eff) := reassemble_pdu (reasm e) pdu in
        let! e := set_received (e <| reasm := r |> <| pduBuffer_ := arr_remove (pduBuffer_ e) index |>)
                    index false in
        Ok (e, eff)
    end
  else Ok (e, []).

(** [for (i = index; i < index + n; i++) reassemble(i)]. *)
Fixpoint reassemble_range (e : UmRxEntity) (i : Z) (n : nat) : result (UmRxEntity * list umrx_effect) :=
  match n with
  | O => Ok (e, [])
  | S n' =>
      let! (e, eff) := reassemble e i in
      let! (e, eff') := reassemble_range e (i + 1) n' in
      Ok (e, eff ++ eff')
  end.

(** The loop of [moveRxWindow], [n] rounds from [i] on. *)
Fixpoint move_loop (e : UmRxEntity) (pos i : Z) (n : nat) : result UmRxEntity :=
  match n with
  | O => Ok e
  | S n' =>
      let! buf := match arr_get (pduBuffer_ e) i with
                  | Some pdu => arr_addAt (arr_remove (pduBuffer_ e) i) (i - pos) pdu
                  | None => Ok (arr_remove (pduBuffer_ e) i)
                  end in
      let e := e <| pduBuffer_ := buf |> in
      let! b := received_at e i in
      let! e := set_received e (i - pos) b in
      let! e := set_received e i false in
      move_loop e pos (i + 1) n'
  end.

Definition moveRxWindow (e : UmRxEntity) (pos : Z) : result UmRxEntity :=
  if pos <=? 0 then Ok e
  else if W e <? pos then Throw "AmRxQueue::moveRxWindow(): positions win size"
  else
    let! e := move_loop e pos pos (Z.to_nat (W e - pos)) in
    Ok (e <| rxWindowDesc_ := (rxWindowDesc_ e) <| firstSno_ := uint32 (F e + pos) |> |>).

(** [while (shift > 0)]: with a window size of at least 1, [shift] rounds are enough;
    with 0 the loop of the code does not end. *)
Fixpoint advance (fuel : nat) (e : UmRxEntity) (tsn shift : Z) : result (UmRxEntity * list umrx_effect) :=
  if 0 <? shift then
    match fuel with
    | O => UB
    | S fuel' =>
        let p := if shift <? W e then shift else W e in
        let shift := shift - p in
        let p := if tsn <? uint32 (F e + p) then int32 (tsn - F e) else p in
        let! (e, eff) := reassemble_range e 0 (Z.to_nat p) in
        let! e := moveRxWindow e p in
        let! (e, eff') := advance fuel' e tsn shift in
        Ok (e, eff ++ eff')
    end
  else Ok (e, []).

(** The loop to the first missing number: goes over the received ones and all below
    [bound], and stops at the end of the window.  Each round moves one position of
    [received_], so its size bounds the rounds. *)
Fixpoint first_missing (fuel : nat) (e : UmRxEntity) (u bound : Z) : result Z :=
  let! b := received_at e (uint32 (u - F e)) in
  if b || (u <? bound) then
    let u := uint32 (u + 1) in
    if u =? H e then Ok u
    else match fuel with
         | O => Throw out_of_range
         | S fuel' => first_missing fuel' e u bound
         end
  else Ok u.

(** Moving [firstSnoForReordering_] and reassembling what it passes. *)
Definition deliver_upto (e : UmRxEntity) (bound : Z) : result (UmRxEntity * list umrx_effect) :=
  let old := U e in
  let! u := first_missing (length (received_ e)) e old bound in
  let e := e <| rxWindowDesc_ := (rxWindowDesc_ e) <| firstSnoForReordering_ := u |> |> in
  reassemble_range e (int32 (old - F e)) (Z.to_nat (uint32 (u - F e) - int32 (old - F e))).

Definition start_reordering (e : UmRxEntity) (NOW : Z) : UmRxEntity :=
  if U e <? H e
  then e <| t_reordering_ := timer_start (t_reordering_ e) NOW (timeout_ e) |>
         <| rxWindowDesc_ := (rxWindowDesc_ e) <| reorderingSno_ := H e |> |>
  else e.

Definition handle_t_reordering (e : UmRxEntity) (NOW : Z) : UmRxEntity :=
  let e := if busy_ (t_reordering_ e) then
             if (X e <=? U e) || (X e <? F e) || (H e <? X e)
             then e <| t_reordering_ := timer_stop (t_reordering_ e) |> else e
           else e in
  if negb (busy_ (t_reordering_ e)) then start_reordering e NOW else e.

(** The window part of [enque]: [tsn] is at or above the highest number. *)
Definition shift_window (e : UmRxEntity) (tsn : Z) : result (UmRxEntity * list umrx_effect) :=
  let old := H e in
  let e := e <| rxWindowDesc_ := (rxWindowDesc_ e) <| highestReceivedSno_ := uint32 (tsn + 1) |> |> in
  if uint32 (F e + W e) <? H e then
    let shift := int32 (H e - old) in
    let! (e, eff) := advance (Z.to_nat shift) e tsn shift in
    Ok (if U e <? F e
        then e <| rxWindowDesc_ := (rxWindowDesc_ e) <| firstSnoForReordering_ := F e |> |> else e, eff)
  else Ok (e, []).

Definition enque (e : UmRxEntity) (NOW : Z) (pdu : UmPdu) : result (UmRxEntity * list umrx_effect) :=
  let tsn := pduSequenceNumber pdu in
  let e := if negb (init_ e) && d2dMulti e
           then e <| rxWindowDesc_ := (win_clear (rxWindowDesc_ e) tsn) <| windowSize_ := 1 |> |>
                  <| init_ := true |>
           else e in
  let! dup := if (U e <=? tsn) && (tsn <? H e) then received_at e (int32 (tsn - F e)) else Ok false in
  if dup : bool then Ok (e, [])
  else if tsn <? U e then Ok (e, [])
  else
    let! (e, eff1) := if H e <=? tsn then shift_window e tsn else Ok (e, []) in
    let index := int32 (tsn - F e) in
    let! buf := arr_addAt (pduBuffer_ e) index pdu in
    let! e := set_received (e <| pduBuffer_ := buf |>) index true in
    let! next := received_at e (uint32 (U e - F e)) in
    let! (e, eff2) := if next : bool then deliver_upto e 0 else Ok (e, []) in
    Ok (handle_t_reordering e NOW, eff1 ++ eff2).

(** [handleMessage]: the message of the reordering timer. *)
Definition rx_handleMessage (e : UmRxEntity) (NOW : Z) : result (UmRxEntity * list umrx_effect) :=
  let e := e <| t_reordering_ := timer_handle (t_reordering_ e) |> in
  let! (e, eff) := deliver_upto e (X e) in
  Ok (start_reordering e NOW, eff).

(** [rlcHandleD2DModeSwitch]; [oldModeIsIM] is [oldMode == IM]. *)
Definition rx_rlcHandleD2DModeSwitch (e : UmRxEntity) (oldConnection oldModeIsIM clearBuffer : bool)
    : result (UmRxEntity * list umrx_effect) :=
  if oldConnection then
    if ownerIsUe e && oldModeIsIM then Ok (e, [])
    else if clearBuffer then
      let! (e, eff) := reassemble_range e 0 (Z.to_nat (W e)) in
      Ok (e <| pduBuffer_ := arr_clear (pduBuffer_ e) |>
            <| received_ := replicate (length (received_ e)) false |>
            <| reasm := (reasm e) <| buffered_ := None |> |>
            <| t_reordering_ := if busy_ (t_reordering_ e) then timer_stop (t_reordering_ e)
                                else t_reordering_ e |>, eff)
    else Ok (e, [])
  else
    Ok (e <| rxWindowDesc_ := win_clear (rxWindowDesc_ e) 0 |>
          <| reasm := (reasm e) <| resetFlag_ := true |> |>, []).
End Entity.

Arguments UmRxEntity A : clear implicits.
