(* ===== verification/RlcWindowFacts.v ===== *)
(** * The reordering window: what its operations do

    Each operation of [UmRxEntity] hands a list of PDUs to reassembly and changes the
    window; the lemmas here say which list and how, whatever reassembly does with
    it. *)

From S2P Require Import Prelude TTimer RlcUm RlcWindow.
From Stdlib Require Import Sorted.

Fixpoint reassemble_pdus (r : UmReassembly) (pdus : list UmPdu) : result (UmReassembly * list umrx_effect) :=
  match pdus with
  | [] => Ok (r, [])
  | p :: ps =>
      let! (r, e1) := reassemble_pdu r p in
      let! (r, e2) := reassemble_pdus r ps in
      Ok (r, e1 ++ e2)
  end.

Lemma reassemble_pdus_app r l1 l2 :
  reassemble_pdus r (l1 ++ l2) =
    let! (r, e1) := reassemble_pdus r l1 in
    let! (r, e2) := reassemble_pdus r l2 in
    Ok (r, e1 ++ e2).
Proof.
  revert r. induction l1 as [|p l1 IH]; intros r; simpl.
  - by destruct (reassemble_pdus r l2) as [[]| |].
  - destruct (reassemble_pdu r p) as [[r1 e1]| |]; simpl; [|done..]. rewrite IH.
    destruct (reassemble_pdus r1 l1) as [[r2 e2]| |]; simpl; [|done..].
    destruct (reassemble_pdus r2 l2) as [[r3 e3]| |]; simpl; [|done..]. by rewrite app_assoc.
Qed.

(** The positions [i .. i + n - 1]. *)
Fixpoint zseq (i : Z) (n : nat) : list Z :=
  match n with O => [] | S n' => i :: zseq (i + 1) n' end.

Lemma elem_of_zseq i n x : x ∈ zseq i n <-> i <= x < i + Z.of_nat n.
Proof.
  revert i. induction n as [|n IH]; intros i; simpl.
  - rewrite elem_of_nil. lia.
  - rewrite elem_of_cons, IH. lia.
Qed.

Lemma omap_ext_in {A B} (f g : A -> option B) (l : list A) :
  (forall x, x ∈ l -> f x = g x) -> omap f l = omap g l.
Proof.
  induction l as [|x l IH]; intros Hfg; [done|]. cbn. rewrite (Hfg x) by (by left).
  fold (omap f l). fold (omap g l). rewrite IH; [done|]. intros. apply Hfg. by right.
Qed.

Section Facts.
Context {A : Type} {C : CArray UmPdu A} {L : CArrayLaws UmPdu A}.
Implicit Types (e : UmRxEntity A) (out : list UmPdu).

Abbreviation F e := (firstSno_ (rxWindowDesc_ e)).
Abbreviation U e := (firstSnoForReordering_ (rxWindowDesc_ e)).
Abbreviation X e := (reorderingSno_ (rxWindowDesc_ e)).
Abbreviation H e := (highestReceivedSno_ (rxWindowDesc_ e)).
Abbreviation W e := (windowSize_ (rxWindowDesc_ e)).
Abbreviation at_ e := (arr_get (pduBuffer_ e)).

(** From [e], whatever its reassembly state, [f] hands [out] to reassembly and ends
    in [e1]. *)
Definition hands (f : UmRxEntity A -> result (UmRxEntity A * list umrx_effect)) e out e1 : Prop :=
  forall r, f (e <| reasm := r |>) =
    let! (r, eff) := reassemble_pdus r out in Ok (e1 <| reasm := r |>, eff).

Lemma hands_bind f K e out1 e1 out2 e2 :
  hands f e out1 e1 ->
  (forall r eff, K (e1 <| reasm := r |>, eff) =
     let! (r, eff') := reassemble_pdus r out2 in Ok (e2 <| reasm := r |>, eff ++ eff')) ->
  hands (fun e => rbind (f e) K) e (out1 ++ out2) e2.
Proof.
  intros Hf HK r. cbn beta. rewrite Hf, reassemble_pdus_app.
  destruct (reassemble_pdus r out1) as [[r1 eff1]| |]; cbn [rbind]; [|done..].
  rewrite HK. by destruct (reassemble_pdus r1 out2) as [[r2 eff2]| |].
Qed.

(** Nothing handed over. *)
Lemma hands_nil f e e1 :
  (forall r, f (e <| reasm := r |>) = Ok (e1 <| reasm := r |>, [])) -> hands f e [] e1.
Proof. intros Hf r. by rewrite Hf. Qed.

(** The buffer and [received_] agree. *)
Definition sync e : Prop :=
  forall j, match at_ e j with
            | Some _ => vget (received_ e) j = Some true
            | None => vget (received_ e) j <> Some true
            end.

(** What reassembling changes: neither the window nor the timer. *)
Record frame e e1 : Prop := {
  fr_win : rxWindowDesc_ e1 = rxWindowDesc_ e;
  fr_timer : t_reordering_ e1 = t_reordering_ e;
  fr_timeout : timeout_ e1 = timeout_ e;
  fr_init : init_ e1 = init_ e;
  fr_multi : d2dMulti e1 = d2dMulti e;
  fr_owner : ownerIsUe e1 = ownerIsUe e;
  fr_len : length (received_ e1) = length (received_ e)
}.

Lemma frame_refl e : frame e e.
Proof. done. Qed.

Lemma frame_trans e e1 e2 : frame e e1 -> frame e1 e2 -> frame e e2.
Proof. intros [] []. split; congruence. Qed.

Lemma received_at_sync e i :
  sync e -> 0 <= i < vsize (received_ e) -> received_at e i = Ok (bool_decide (at_ e i <> None)).
Proof.
  intros Hs Hi. specialize (Hs i). unfold received_at.
  destruct (vget_is_Some (received_ e) i) as (b & Hb); [lia|]. rewrite Hb in *.
  destruct (at_ e i); [by injection Hs as ->|]. by destruct b.
Qed.

Lemma sync_set e buf l i (o : option UmPdu) :
  sync e -> vset (received_ e) i (bool_decide (o <> None)) = Some l ->
  (forall j, arr_get buf j = if decide (j = i) then o else at_ e j) ->
  sync (e <| pduBuffer_ := buf |> <| received_ := l |>).
Proof.
  intros Hs Hv Hbuf j. cbn [pduBuffer_ received_ set]. rewrite Hbuf, (vget_vset _ _ _ _ _ Hv).
  specialize (Hs j). destruct (decide (j = i)) as [->|].
  - rewrite decide_True by done. by destruct o.
  - by rewrite decide_False by auto.
Qed.

Lemma reassemble_hands e i :
  sync e -> 0 <= i < vsize (received_ e) ->
  exists e1, hands (fun e => reassemble e i) e (option_list (at_ e i)) e1 /\ frame e e1 /\ sync e1 /\
    forall j, at_ e1 j = if decide (j = i) then None else at_ e j.
Proof.
  intros Hs Hi. pose proof (received_at_sync e i Hs Hi) as Hr.
  destruct (at_ e i) as [pdu|] eqn:Epdu.
  - destruct (vset_is_Some (received_ e) i false) as (l & Hl); [lia|].
    exists (e <| pduBuffer_ := arr_remove (pduBuffer_ e) i |> <| received_ := l |>). split_and!.
    + intros r. unfold reassemble, received_at, set_received in *. cbn [received_ pduBuffer_ reasm set].
      rewrite Hr. simpl. rewrite Epdu. destruct (reassemble_pdu r pdu) as [[r1 e1]| |]; simpl; [|done..].
      rewrite Hl. simpl. by rewrite app_nil_r.
    + split; try done. simpl. by eapply vset_size.
    + apply (sync_set e _ l i None); [done..|]. apply arr_get_remove.
    + intros j. apply arr_get_remove.
  - exists e. split_and!; [|done..|].
    + apply hands_nil. intros r. unfold reassemble, received_at in *. simpl. by rewrite Hr.
    + intros j. by destruct (decide (j = i)) as [->|].
Qed.

Lemma reassemble_range_hands n e i :
  sync e -> 0 <= i -> i + Z.of_nat n <= vsize (received_ e) ->
  exists e1, hands (fun e => reassemble_range e i n) e (omap (at_ e) (zseq i n)) e1 /\
    frame e e1 /\ sync e1 /\
    forall j, at_ e1 j = if decide (i <= j < i + Z.of_nat n) then None else at_ e j.
Proof.
  revert e i. induction n as [|n IH]; intros e i Hs Hi Hn.
  - exists e. split_and!; [by apply hands_nil|done..|]. intros j. rewrite decide_False; [done|lia].
  - destruct (reassemble_hands e i Hs) as (e1 & Hh1 & Hf1 & Hs1 & Hat1); [lia|].
    destruct (IH e1 (i + 1) Hs1) as (e2 & Hh2 & Hf2 & Hs2 & Hat2); [lia|rewrite (fr_len _ _ Hf1); lia|].
    exists e2. split_and!; [|by eapply frame_trans|done|].
    + cbn [zseq omap list_omap].
      replace (match at_ e i with Some y => y :: omap (at_ e) (zseq (i + 1) n)
               | None => omap (at_ e) (zseq (i + 1) n) end)
        with (option_list (at_ e i) ++ omap (at_ e1) (zseq (i + 1) n)).
      2:{ replace (omap (at_ e1) (zseq (i + 1) n)) with (omap (at_ e) (zseq (i + 1) n)); [by destruct (at_ e i)|].
          apply omap_ext_in. intros x ?%elem_of_zseq. rewrite Hat1, decide_False; [done|lia]. }
      eapply hands_bind; [exact Hh1|]. intros r eff. cbn beta iota. rewrite Hh2.
      destruct (reassemble_pdus r _) as [[]| |]; done.
    + intros j. rewrite Hat2, Hat1. repeat case_decide; (done || lia).
Qed.
(** ** Moving the window *)

(** In the middle of [moveRxWindow]: positions below [i - pos] are moved, those from
    [i - pos] to [i - 1] free. *)
Definition half_moved (at0 : Z -> option UmPdu) (pos i j : Z) : option UmPdu :=
  if decide (j < i - pos) then at0 (j + pos) else if decide (j < i) then None else at0 j.

Lemma sync_set_received e buf l i b :
  sync (e <| pduBuffer_ := buf |>) -> vset (received_ e) i b = Some l ->
  (match arr_get buf i with Some _ => b = true | None => b = false end) ->
  sync (e <| pduBuffer_ := buf |> <| received_ := l |>).
Proof.
  intros Hs Hv Hb j. cbn [pduBuffer_ received_ set]. specialize (Hs j). cbn [pduBuffer_ received_ set] in Hs.
  rewrite (vget_vset _ _ _ _ _ Hv). destruct (decide (i = j)) as [->|]; [|done].
  destruct (arr_get buf j); by rewrite Hb.
Qed.

Lemma move_round e at0 pos i :
  0 < pos <= i -> i < vsize (received_ e) -> sync e ->
  (forall j, at_ e j = half_moved at0 pos i j) ->
  exists e1, frame e e1 /\ sync e1 /\ (forall j, at_ e1 j = half_moved at0 pos (i + 1) j) /\
    forall r n, move_loop (e <| reasm := r |>) pos i (S n) = move_loop (e1 <| reasm := r |>) pos (i + 1) n.
Proof.
  intros Hpos Hi Hs Hat. pose proof (received_at_sync e i Hs) as Hr.
  assert (Hfree : at_ e (i - pos) = None).
  { rewrite Hat. unfold half_moved. repeat case_decide; (done || lia). }
  set (b := bool_decide (at_ e i <> None)) in *.
  destruct (vset_is_Some (received_ e) (i - pos) b) as (l1 & Hl1); [lia|].
  destruct (vset_is_Some l1 i false) as (l2 & Hl2); [rewrite (vset_size _ _ _ _ Hl1); lia|].
  assert (Hbuf : exists buf, match at_ e i with
      | Some pdu => arr_addAt (arr_remove (pduBuffer_ e) i) (i - pos) pdu
      | None => Ok (arr_remove (pduBuffer_ e) i) end = Ok buf /\
      forall j, arr_get buf j = if decide (j = i - pos) then at_ e i
                                else if decide (j = i) then None else at_ e j).
  { destruct (at_ e i) as [pdu|] eqn:E.
    - destruct (arr_addAt_free (arr_remove (pduBuffer_ e) i) (i - pos) pdu) as (buf & Hadd & Hget); [lia| |].
      + rewrite arr_get_remove. by case_decide.
      + exists buf. split; [done|]. intros j. rewrite Hget, arr_get_remove. done.
    - exists (arr_remove (pduBuffer_ e) i). split; [done|]. intros j. rewrite arr_get_remove.
      repeat case_decide; subst; try done. }
  destruct Hbuf as (buf & Hadd & Hget).
  exists (e <| pduBuffer_ := buf |> <| received_ := l2 |>). split_and!.
  - split; try done. cbn [received_ set]. by rewrite (vset_size _ _ _ _ Hl2), (vset_size _ _ _ _ Hl1).
  - intros j. cbn [pduBuffer_ received_ set]. rewrite Hget, (vget_vset _ _ _ _ _ Hl2), (vget_vset _ _ _ _ _ Hl1).
    specialize (Hs j). repeat case_decide; subst; try done; try lia.
    unfold b. by destruct (at_ e i).
  - intros j. cbn [pduBuffer_ set]. rewrite Hget, !Hat. unfold half_moved.
    repeat case_decide; subst; try done; try lia; f_equal; lia.
  - intros r n. cbn [move_loop]. unfold received_at, set_received in *.
    cbn [received_ pduBuffer_ set]. rewrite Hadd. cbn [rbind]. cbn [received_ pduBuffer_ set].
    rewrite Hr by lia. cbn [rbind]. rewrite Hl1. cbn [rbind]. cbn [received_ pduBuffer_ set].
    by rewrite Hl2.
Qed.

Lemma move_loop_spec at0 pos n e i :
  0 < pos <= i -> i + Z.of_nat n <= vsize (received_ e) -> sync e ->
  (forall j, at_ e j = half_moved at0 pos i j) ->
  exists e1, frame e e1 /\ sync e1 /\ (forall j, at_ e1 j = half_moved at0 pos (i + Z.of_nat n) j) /\
    forall r, move_loop (e <| reasm := r |>) pos i n = Ok (e1 <| reasm := r |>).
Proof.
  revert e i. induction n as [|n IH]; intros e i Hpos Hn Hs Hat.
  - exists e. split_and!; [done..| |done]. intros j. rewrite Hat. f_equal. lia.
  - destruct (move_round e at0 pos i) as (e1 & Hf & Hs1 & Hat1 & Hrun); [done|lia|done|done|].
    destruct (IH e1 (i + 1)) as (e2 & Hf2 & Hs2 & Hat2 & Hrun2); [lia|rewrite (fr_len _ _ Hf); lia|done|done|].
    exists e2. split_and!; [by eapply frame_trans|done| |].
    + intros j. rewrite Hat2. f_equal. lia.
    + intros r. by rewrite Hrun, Hrun2.
Qed.

(** The window moves by [p]; every PDU in it keeps its number. *)
Lemma moveRxWindow_spec e p :
  0 <= p <= W e -> W e <= vsize (received_ e) -> 0 <= F e -> F e + p < 2 ^ 32 -> sync e ->
  (forall j, j < p \/ W e <= j -> at_ e j = None) ->
  exists e1, (forall r, moveRxWindow (e <| reasm := r |>) p = Ok (e1 <| reasm := r |>)) /\
    frame (e <| rxWindowDesc_ := (rxWindowDesc_ e) <| firstSno_ := F e + p |> |>) e1 /\ sync e1 /\
    forall j, at_ e1 j = if decide (j < 0) then None else at_ e (j + p).
Proof.
  intros Hp HW HF0 HF Hs Hout. unfold moveRxWindow. destruct (Z.leb_spec p 0).
  - assert (p = 0) as -> by lia. exists e. split_and!; try done.
    + split; try done. cbn [rxWindowDesc_ set]. rewrite Z.add_0_r. by destruct (rxWindowDesc_ e).
    + intros j. case_decide; [apply Hout; lia|f_equal; lia].
  - destruct (move_loop_spec (at_ e) p (Z.to_nat (W e - p)) e p) as (e1 & Hf & Hs1 & Hat & Hrun);
      [lia|lia|done| |].
    { intros j. unfold half_moved. repeat case_decide; try done; rewrite (Hout j) by lia; [|done].
      symmetry. apply Hout. lia. }
    exists (e1 <| rxWindowDesc_ := (rxWindowDesc_ e) <| firstSno_ := F e + p |> |>). split_and!.
    + intros r. change (rxWindowDesc_ (e <| reasm := r |>)) with (rxWindowDesc_ e).
      rewrite (proj2 (Z.ltb_ge _ _)) by lia. rewrite Hrun. cbn [rbind].
      change (rxWindowDesc_ (e1 <| reasm := r |>)) with (rxWindowDesc_ e1).
      rewrite (fr_win _ _ Hf). by rewrite wrap_small by (unfold is_uint; lia).
    + destruct Hf. split; done.
    + intros j. apply (Hs1 j).
    + intros j. cbn [pduBuffer_ set]. rewrite Hat. unfold half_moved.
      repeat case_decide; try done; try lia;
        first [apply Hout; lia | symmetry; apply Hout; lia | rewrite (Hout j), (Hout (j + p)) by lia; done].
Qed.

(** ** The buffer by sequence number *)

Definition store e (sn : Z) : option UmPdu := at_ e (sn - F e).

(** The numbers and sizes of a window; everything stays below 2{^31}. *)
Record sized e : Prop := {
  sz_order : 0 <= F e;
  sz_window : 1 <= W e <= vsize (received_ e);
  sz_small : W e <= 2 ^ 30 /\ H e <= 2 ^ 30 /\ U e <= H e;
  sz_sync : sync e;
  sz_reach : forall sn pdu, store e sn = Some pdu -> F e <= sn < F e + W e
}.

(** [e1] is [e] with first number [f] and without the PDUs below [lo]. *)
Record advanced e (f lo : Z) e1 : Prop := {
  ad_frame : frame (e <| rxWindowDesc_ := (rxWindowDesc_ e) <| firstSno_ := f |> |>) e1;
  ad_sync : sync e1;
  ad_store : forall sn, store e1 sn = if decide (sn < lo) then None else store e sn
}.

Lemma advanced_F e f lo e1 : advanced e f lo e1 -> F e1 = f.
Proof. intros [Hf _ _]. by rewrite (fr_win _ _ Hf). Qed.

Lemma set_F_same e : e <| rxWindowDesc_ := (rxWindowDesc_ e) <| firstSno_ := F e |> |> = e.
Proof. by destruct e as [[] ? ? ? ? ? ? ? ?]. Qed.

Lemma advanced_trans e f lo e1 f' lo' e2 :
  advanced e f lo e1 -> advanced e1 f' lo' e2 -> lo <= lo' -> advanced e f' lo' e2.
Proof.
  intros [Hf1 Hs1 Hat1] [Hf2 Hs2 Hat2] Hlo. split; [|done|].
  - destruct Hf1, Hf2. simpl in *. split; simpl; try congruence. by rewrite fr_win1, fr_win0.
  - intros sn. rewrite Hat2, Hat1. repeat case_decide; (done || lia).
Qed.

Lemma sized_advanced e f lo e1 :
  sized e -> advanced e f lo e1 -> F e <= f -> f <= lo \/ f = F e -> sized e1.
Proof.
  intros [Hz1 Hz2 Hz3 _ Hz5] [[] Hs Hst] Hf Hlo. simpl in *. split; rewrite ?fr_win0, ?fr_len0; simpl; try done.
  - lia.
  - intros sn pdu. rewrite Hst. case_decide; [done|]. intros E%Hz5. lia.
Qed.

Lemma zseq_shift {B} (f : Z -> option B) d i n :
  omap (fun j => f (j + d)) (zseq i n) = omap f (zseq (i + d) n).
Proof.
  revert i. induction n as [|n IH]; intros i; [done|]. cbn [zseq omap list_omap].
  specialize (IH (i + 1)). cbn in IH. rewrite IH. by replace (i + d + 1) with (i + 1 + d) by lia.
Qed.

Lemma omap_zseq_app {B} (f : Z -> option B) i n m :
  omap f (zseq i (n + m)) = omap f (zseq i n) ++ omap f (zseq (i + Z.of_nat n) m).
Proof.
  revert i. induction n as [|n IH]; intros i.
  - by rewrite Z.add_0_r.
  - cbn [Nat.add zseq omap list_omap]. specialize (IH (i + 1)). cbn in IH. rewrite IH.
    replace (i + Z.of_nat (S n)) with (i + 1 + Z.of_nat n) by lia. by destruct (f i).
Qed.

Lemma omap_zseq_none {B} (f : Z -> option B) i n :
  (forall x, i <= x < i + Z.of_nat n -> f x = None) -> omap f (zseq i n) = [].
Proof.
  revert i. induction n as [|n IH]; intros i Hf; [done|]. cbn [zseq omap list_omap].
  rewrite (Hf i) by lia. apply IH. intros. apply Hf. lia.
Qed.

(** Reassembling the numbers from [a] to [b - 1]. *)
Lemma reassemble_sns e i a b :
  i = a - F e -> sized e -> F e <= a <= b -> b <= F e + W e ->
  (forall sn, sn < a -> store e sn = None) ->
  exists e1, hands (fun e => reassemble_range e i (Z.to_nat (b - a))) e
               (omap (store e) (zseq a (Z.to_nat (b - a)))) e1 /\
    advanced e (F e) b e1.
Proof.
  intros -> [_ Hw _ Hs _] Ha Hb Hlow.
  destruct (reassemble_range_hands (Z.to_nat (b - a)) e (a - F e)) as (e1 & Hh & Hf & Hs1 & Hat);
    [done|lia|lia|].
  exists e1. split.
  - replace (omap (store e) (zseq a (Z.to_nat (b - a))))
      with (omap (at_ e) (zseq (a - F e) (Z.to_nat (b - a)))); [exact Hh|].
    replace (a - F e) with (a + - F e) by lia. by rewrite <- zseq_shift.
  - split; [by rewrite set_F_same|done|]. intros sn. unfold store. rewrite (fr_win _ _ Hf), Hat.
    specialize (Hlow sn). unfold store in Hlow. repeat case_decide; try done; try lia.
    apply Hlow. lia.
Qed.

(** *** The loop to the first missing number *)

Lemma received_at_sn e sn :
  sized e -> F e <= sn < F e + W e -> received_at e (uint32 (sn - F e)) = Ok (bool_decide (store e sn <> None)).
Proof.
  intros [Ho Hw [? ?] Hs _] Hsn. rewrite wrap_small by (unfold is_uint; lia).
  by rewrite received_at_sync by (done || lia).
Qed.

Lemma first_missing_spec fuel e u bound :
  sized e -> F e <= u < H e -> H e <= F e + W e -> bound <= H e -> H e - u <= Z.of_nat fuel + 1 ->
  exists u1, first_missing fuel e u bound = Ok u1 /\ u <= u1 <= H e /\
    (forall sn, u <= sn < u1 -> store e sn <> None \/ sn < bound) /\
    (u1 = H e \/ store e u1 = None /\ bound <= u1).
Proof.
  intros Hz Hu HH Hbound. pose proof (sz_small _ Hz) as (Hz1 & Hz2 & Hz3). pose proof (sz_order _ Hz) as Hz4.
  revert u Hu. induction fuel as [|fuel IH]; intros u Hu Hfuel; cbn [first_missing];
    rewrite received_at_sn by (done || lia); cbn [rbind].
  all: case_bool_decide as Hst; cbn [orb].
  all: try (destruct (Z.ltb_spec u bound) as [Hb|Hb]).
  all: rewrite ?(wrap_small 32 (u + 1)) by (unfold is_uint; lia).
  all: try (destruct (Z.eqb_spec (u + 1) (H e)) as [E|E]; try lia).
  all: try (exists (u + 1); split; [done|]; split; [lia|]; split; [|by left];
            intros sn Hsn; assert (sn = u) as -> by lia; auto).
  all: try (destruct (IH (u + 1)) as (u1 & Hrun & Hu1 & Hall & Hend); [lia..|];
            exists u1; split; [done|]; split; [lia|]; split; [|done];
            intros sn Hsn; destruct (decide (sn = u)) as [->|]; [auto|apply Hall; lia]).
  all: exists u; split; [done|]; split; [lia|]; split; [intros; lia|right].
  all: split; [|done]; by destruct (store e u).
Qed.

Lemma first_missing_reasm fuel e r u bound :
  first_missing fuel (e <| reasm := r |>) u bound = first_missing fuel e u bound.
Proof.
  revert u. induction fuel as [|fuel IH]; intros u; [done|]. cbn [first_missing].
  change (received_at (e <| reasm := r |>)) with (received_at e).
  change (rxWindowDesc_ (e <| reasm := r |>)) with (rxWindowDesc_ e).
  destruct (received_at e _) as [b| |]; cbn [rbind]; [|done..]. by rewrite IH.
Qed.

Abbreviation with_U e u := (e <| rxWindowDesc_ := (rxWindowDesc_ e) <| firstSnoForReordering_ := u |> |>).

(** [u1] is the first number from [U e] on that is missing and not below [bound]. *)
Record missing_at e bound u1 : Prop := {
  ms_range : U e <= u1 <= H e;
  ms_passed : forall sn, U e <= sn < u1 -> store e sn <> None \/ sn < bound;
  ms_stop : u1 = H e \/ store e u1 = None /\ bound <= u1
}.

Lemma deliver_upto_spec e bound :
  sized e -> F e <= U e < H e -> H e <= F e + W e -> bound <= H e ->
  (forall sn, sn < U e -> store e sn = None) ->
  exists u1 e1, missing_at e bound u1 /\
    hands (fun e => deliver_upto e bound) e (omap (store e) (zseq (U e) (Z.to_nat (u1 - U e)))) e1 /\
    advanced (with_U e u1) (F e) u1 e1.
Proof.
  intros Hz Hu HH Hbound Hlow. pose proof Hz as [Hz1 Hz2 (Hz3 & Hz4 & Hz5) Hz6 Hz7].
  destruct (first_missing_spec (length (received_ e)) e (U e) bound)
    as (u1 & Hrun & Hu1 & Hall & Hend); [done..|lia|].
  assert (Hz' : sized (with_U e u1)) by (split; try done; cbn; lia).
  destruct (reassemble_sns (with_U e u1) (U e - F e) (U e) u1) as (e1 & Hh & Had); [done|done|cbn; lia|cbn; lia|done|].
  exists u1, e1. split; [done|]. split; [|done]. intros r. unfold deliver_upto.
  change (rxWindowDesc_ (e <| reasm := r |>)) with (rxWindowDesc_ e).
  change (received_ (e <| reasm := r |>)) with (received_ e).
  rewrite first_missing_reasm, Hrun. cbn [rbind].
  assert (Ei : int32 (U e - F e) = U e - F e) by (apply swrap_small; [done|unfold is_sint; lia]).
  assert (En : uint32 (u1 - F e) - (U e - F e) = u1 - U e) by (rewrite wrap_small; unfold is_uint; lia).
  transitivity (reassemble_range ((with_U e u1) <| reasm := r |>) (int32 (U e - F e))
                  (Z.to_nat (uint32 (u1 - F e) - int32 (U e - F e)))); [done|].
  rewrite Ei, En. apply (Hh r).
Qed.

Lemma seq_split {B} (f : Z -> option B) a m k :
  0 <= m <= k -> omap f (zseq a (Z.to_nat k)) =
    omap f (zseq a (Z.to_nat m)) ++ omap f (zseq (a + m) (Z.to_nat (k - m))).
Proof.
  intros Hm. replace (Z.to_nat k) with (Z.to_nat m + Z.to_nat (k - m))%nat by lia.
  rewrite omap_zseq_app. by rewrite Z2Nat.id by lia.
Qed.

Lemma advance_unfold fuel e r tsn shift p p' :
  0 < shift -> p = (if shift <? W e then shift else W e) -> p' = Z.min p (tsn - F e) ->
  0 <= F e <= tsn -> tsn < 2 ^ 30 -> 0 < p -> W e <= 2 ^ 30 ->
  advance (S fuel) (e <| reasm := r |>) tsn shift =
    let! x := reassemble_range (e <| reasm := r |>) 0 (Z.to_nat p') in
    let! e := moveRxWindow x.1 p' in
    let! (e, eff') := advance fuel e tsn (shift - p) in Ok (e, x.2 ++ eff').
Proof.
  intros Hs Hp Hp' HF Ht Hpos HW. cbn [advance]. rewrite (proj2 (Z.ltb_lt _ _)) by done.
  change (rxWindowDesc_ (e <| reasm := r |>)) with (rxWindowDesc_ e). rewrite <- Hp.
  assert (p <= W e) by (subst p; destruct (Z.ltb_spec shift (W e)); lia).
  rewrite wrap_small by (unfold is_uint; lia).
  replace (if tsn <? F e + p then int32 (tsn - F e) else p) with p'; [|].
  - by destruct (reassemble_range _ 0 (Z.to_nat p')) as [[]| |].
  - destruct (Z.ltb_spec tsn (F e + p)); [|lia]. rewrite swrap_small; [lia|done|unfold is_sint; lia].
Qed.

(** Moving the window on by [shift], but not past [tsn]. *)
Lemma advance_spec fuel e tsn shift :
  sized e -> 0 <= shift <= Z.of_nat fuel -> F e <= tsn < 2 ^ 30 -> F e + shift <= tsn + 1 ->
  exists e1,
    hands (fun e => advance fuel e tsn shift) e
      (omap (store e) (zseq (F e) (Z.to_nat (Z.min (F e + shift) tsn - F e)))) e1 /\
    advanced e (Z.min (F e + shift) tsn) (Z.min (F e + shift) tsn) e1.
Proof.
  revert e shift. induction fuel as [|fuel IH]; intros e shift Hz Hsh Ht Hst.
  all: pose proof Hz as [Hz1 Hz2 (Hz3 & Hz4 & Hz5) Hz6 Hz7].
  all: destruct (decide (0 < shift)) as [Hpos|Hpos]; [|assert (shift = 0) as -> by lia;
    exists e; rewrite Z.add_0_r, Z.min_l, Z.sub_diag by lia;
    split; [by apply hands_nil|split; [by rewrite set_F_same|done|]];
    intros sn; case_decide; [|done]; destruct (store e sn) eqn:E; [apply Hz7 in E; lia|done]].
  - lia.
  - set (p := if shift <? W e then shift else W e).
    assert (Hp : 0 < p <= W e /\ p <= shift) by (unfold p; destruct (Z.ltb_spec shift (W e)); lia).
    set (p' := Z.min p (tsn - F e)).
    destruct (reassemble_sns e 0 (F e) (F e + p')) as (e1 & Hh1 & Had1); [lia|done|lia|lia| |].
    { intros sn Hsn. destruct (store e sn) eqn:E; [apply Hz7 in E; lia|done]. }
    replace (F e + p' - F e) with p' in Hh1 by lia.
    assert (Hz1' : sized e1) by (eapply sized_advanced; [done|done|lia|by right]).
    pose proof (fr_win _ _ (ad_frame _ _ _ _ Had1)) as Hwin1. rewrite set_F_same in Hwin1.
    pose proof (fr_len _ _ (ad_frame _ _ _ _ Had1)) as Hlen1.
    destruct (moveRxWindow_spec e1 p') as (e2 & Hmove & Hf2 & Hs2 & Hat2);
      [rewrite Hwin1; lia|apply Hz1'|rewrite Hwin1; lia|rewrite Hwin1; lia|by destruct Had1| |].
    { intros j Hj. assert (E : store e1 (F e1 + j) = None).
      - destruct (store e1 (F e1 + j)) as [pdu|] eqn:E; [|done].
        pose proof (sz_reach _ Hz1' _ _ E). rewrite (ad_store _ _ _ _ Had1), Hwin1 in E.
        rewrite Hwin1 in *. case_decide; [done|lia].
      - unfold store in E. by replace (F e1 + j - F e1) with j in E by lia. }
    assert (Had2 : advanced e (F e + p') (F e + p') e2).
    { eapply (advanced_trans _ _ _ e1); [exact Had1| |reflexivity]. rewrite <- Hwin1.
      split; [done|done|]. intros sn. unfold store. rewrite (fr_win _ _ Hf2), Hat2. simpl.
      repeat case_decide; try done; try lia. f_equal. lia. }
    pose proof (advanced_F _ _ _ _ Had2) as HF2.
    assert (Hz2' : sized e2) by (eapply sized_advanced; [exact Hz|exact Had2|lia|lia]).
    destruct (IH e2 (shift - p)) as (e3 & Hh3 & Had3); [done|lia|lia|lia|].
    assert (Hmin : Z.min (F e2 + (shift - p)) tsn = Z.min (F e + shift) tsn) by lia.
    rewrite Hmin, HF2 in *. exists e3. split.
    + rewrite (seq_split (store e) (F e) p') by lia.
      replace (omap (store e) (zseq (F e + p') (Z.to_nat (Z.min (F e + shift) tsn - F e - p'))))
        with (omap (store e2) (zseq (F e + p') (Z.to_nat (Z.min (F e + shift) tsn - (F e + p'))))).
      2:{ replace (Z.min (F e + shift) tsn - (F e + p')) with (Z.min (F e + shift) tsn - F e - p') by lia.
          apply omap_ext_in. intros sn Hsn%elem_of_zseq.
          rewrite (ad_store _ _ _ _ Had2). rewrite decide_False; [done|lia]. }
      intros r. rewrite (advance_unfold fuel e r tsn shift p p') by (done || lia).
      refine (hands_bind (fun e => reassemble_range e 0 (Z.to_nat p'))
        (fun x => let! e := moveRxWindow x.1 p' in
                  let! (e, eff') := advance fuel e tsn (shift - p) in Ok (e, x.2 ++ eff')) e _ e1 _ e3 Hh1 _ r).
      intros r' eff. cbn [fst snd]. rewrite Hmove. cbn [rbind]. rewrite (Hh3 r').
      by destruct (reassemble_pdus r' _) as [[]| |].
    + eapply advanced_trans; [exact Had2|exact Had3|lia].
Qed.
End Facts.
