(* ===== verification/RlcWindowProps.v ===== *)
(** * The reordering window: invariant and properties

    The window is a store of PDUs by sequence number and a number [U] below which
    everything has been handed to reassembly or given up; every operation is
    described on that store. *)

From S2P Require Import Prelude TTimer RlcUm RlcUmProps RlcWindow RlcWindowFacts.
From Stdlib Require Import Sorted.

Section Window.
Context {A : Type} {C : CArray UmPdu A} {L : CArrayLaws UmPdu A}.
Implicit Types (e : UmRxEntity A) (out : list UmPdu).

Abbreviation F e := (firstSno_ (rxWindowDesc_ e)).
Abbreviation U e := (firstSnoForReordering_ (rxWindowDesc_ e)).
Abbreviation X e := (reorderingSno_ (rxWindowDesc_ e)).
Abbreviation H e := (highestReceivedSno_ (rxWindowDesc_ e)).
Abbreviation W e := (windowSize_ (rxWindowDesc_ e)).

Record rx_ok e : Prop := {
  ok_sized : sized e;
  ok_order : F e <= U e /\ H e <= F e + W e;
  ok_held : forall sn pdu, store e sn = Some pdu -> pduSequenceNumber pdu = sn /\ U e <= sn < H e;
  ok_timer : busy_ (t_reordering_ e) = true -> U e < X e <= H e
}.

(** Nothing is deliverable, and the timer runs exactly if there is a gap. *)
Definition settled e : Prop :=
  busy_ (t_reordering_ e) = bool_decide (U e < H e) /\ (U e = H e \/ store e (U e) = None).

(** What no operation on PDUs changes. *)
Record same_params e e1 : Prop := {
  sp_timeout : timeout_ e1 = timeout_ e;
  sp_init : init_ e1 = init_ e;
  sp_multi : d2dMulti e1 = d2dMulti e;
  sp_window : W e1 = W e
}.

Lemma same_params_trans e e1 e2 : same_params e e1 -> same_params e1 e2 -> same_params e e2.
Proof. intros [] []. split; congruence. Qed.

Lemma below_U e sn : rx_ok e -> sn < U e -> store e sn = None.
Proof.
  intros Hok Hsn. destruct (store e sn) as [pdu|] eqn:E; [|done]. apply (ok_held _ Hok) in E. lia.
Qed.

(** ** Making room for a number *)

Record slid e tsn e1 : Prop := {
  sl_first : F e <= F e1 <= tsn;
  sl_fits : H e1 <= F e1 + W e1;
  sl_U : U e1 = Z.max (U e) (F e1);
  sl_H : H e1 = Z.max (H e) (tsn + 1);
  sl_X : X e1 = X e;
  sl_timer : t_reordering_ e1 = t_reordering_ e;
  sl_params : same_params e e1;
  sl_sized : sized e1;
  sl_store : forall sn, store e1 sn = if decide (sn < F e1) then None else store e sn
}.

Lemma zseq_from_U e f :
  rx_ok e -> F e <= f ->
  omap (store e) (zseq (F e) (Z.to_nat (f - F e))) =
  omap (store e) (zseq (U e) (Z.to_nat (Z.max (U e) f - U e))).
Proof.
  intros Hok Hf. destruct (ok_order _ Hok) as [HFU _]. destruct (Z_le_gt_dec f (U e)).
  - rewrite Z.max_l, Z.sub_diag by lia. apply omap_zseq_none. intros. apply below_U; [done|lia].
  - rewrite (seq_split _ _ (U e - F e)) by lia. rewrite (omap_zseq_none (store e) (F e)).
    + simpl. rewrite Z.max_r by lia. replace (F e + (U e - F e)) with (U e) by lia.
      do 3 f_equal. lia.
    + intros. apply below_U; [done|lia].
Qed.

Abbreviation with_U e u := (e <| rxWindowDesc_ := (rxWindowDesc_ e) <| firstSnoForReordering_ := u |> |>).
Abbreviation with_H e h := (e <| rxWindowDesc_ := (rxWindowDesc_ e) <| highestReceivedSno_ := h |> |>).

Lemma shift_window_spec e tsn :
  rx_ok e -> H e <= tsn < 2 ^ 30 ->
  exists e1, hands (fun e => shift_window e tsn) e
      (omap (store e) (zseq (U e) (Z.to_nat (U e1 - U e)))) e1 /\ slid e tsn e1.
Proof.
  intros Hok Ht. pose proof Hok as [Hz [HFU HW] _ _]. pose proof Hz as [Hz1 Hz2 (Hz3 & Hz4 & Hz5) Hz6 Hz7].
  assert (Hz' : sized (with_H e (tsn + 1))) by (split; try done; cbn; lia).
  assert (E1 : uint32 (tsn + 1) = tsn + 1) by (apply wrap_small; unfold is_uint; lia).
  destruct (Z.ltb_spec (F e + W e) (tsn + 1)) as [Hs|Hs].
  - destruct (advance_spec (Z.to_nat (tsn + 1 - H e)) (with_H e (tsn + 1)) tsn (tsn + 1 - H e))
      as (e1 & Hh & Had); [done|lia|cbn; lia|cbn; lia|].
    set (f := Z.min (F e + (tsn + 1 - H e)) tsn).
    change (Z.min (F (with_H e (tsn + 1)) + (tsn + 1 - H e)) tsn) with f in *.
    pose proof (fr_win _ _ (ad_frame _ _ _ _ Had)) as Hwin. cbn in Hwin.
    set (e2 := if U e1 <? F e1 then with_U e1 (F e1) else e1).
    assert (Hw2 : rxWindowDesc_ e2 = {| firstSno_ := f; firstSnoForReordering_ := Z.max (U e) f;
       reorderingSno_ := X e; highestReceivedSno_ := tsn + 1; windowSize_ := W e |}).
    { unfold e2. rewrite Hwin. cbn. destruct (Z.ltb_spec (U e) f); cbn; rewrite ?Hwin; cbn; f_equal; lia. }
    assert (Hst2 : forall sn, store e2 sn = if decide (sn < f) then None else store e sn).
    { intros sn. etransitivity; [|exact (ad_store _ _ _ _ Had sn)]. unfold e2. by destruct (U e1 <? F e1). }
    exists e2. split.
    + assert (Hh' : hands (fun e' => advance (Z.to_nat (tsn + 1 - H e)) e' tsn (tsn + 1 - H e)) (with_H e (tsn + 1))
        (omap (store e) (zseq (F e) (Z.to_nat (f - F e)))) e1) by exact Hh.
      rewrite Hw2. cbn [firstSnoForReordering_]. rewrite <- zseq_from_U by (done || lia).
      intros r. unfold shift_window. change (rxWindowDesc_ (e <| reasm := r |>)) with (rxWindowDesc_ e).
      cbv zeta. cbn [rxWindowDesc_ firstSno_ windowSize_ highestReceivedSno_ set]. rewrite E1.
      rewrite (wrap_small 32 (F e + W e)) by (unfold is_uint; lia).
      rewrite (proj2 (Z.ltb_lt _ _)) by lia.
      rewrite (swrap_small 32 (tsn + 1 - H e)) by (done || (unfold is_sint; lia)).
      etransitivity; [exact (f_equal (fun m => rbind m _) (Hh' r))|].
      destruct (reassemble_pdus r _) as [[r1 eff]| |]; cbn [rbind]; [|done..].
      unfold e2. change (rxWindowDesc_ (e1 <| reasm := r1 |>)) with (rxWindowDesc_ e1).
      by destruct (U e1 <? F e1).
    + assert (Hlen : length (received_ e2) = length (received_ e)).
      { pose proof (fr_len _ _ (ad_frame _ _ _ _ Had)) as Hl. unfold e2. by destruct (U e1 <? F e1). }
      split; rewrite ?Hw2; cbn [firstSno_ firstSnoForReordering_ reorderingSno_ highestReceivedSno_ windowSize_];
        try lia; try done.
      * unfold e2. destruct Had as [[] _ _]. by destruct (U e1 <? F e1).
      * destruct Had as [[] _ _]. unfold e2. split; destruct (U e1 <? F e1); cbn; rewrite ?Hwin; done.
      * split; rewrite ?Hw2, ?Hlen; cbn; try lia.
        -- unfold e2. destruct Had as [_ Hs1 _]. by destruct (U e1 <? F e1).
        -- intros sn pdu. rewrite Hst2. case_decide; [done|]. intros Hsn%Hz7. lia.
  - exists (with_H e (tsn + 1)). split.
    + change (U (with_H e (tsn + 1))) with (U e). rewrite Z.sub_diag. apply hands_nil. intros r.
      unfold shift_window. cbn [rxWindowDesc_ firstSno_ windowSize_ highestReceivedSno_ set]. rewrite E1.
      rewrite (wrap_small 32 (F e + W e)) by (unfold is_uint; lia). by rewrite (proj2 (Z.ltb_ge _ _)) by lia.
    + split; try (cbn; lia); try done.
      intros sn. change (store (with_H e (tsn + 1)) sn) with (store e sn). cbn. case_decide; [|done].
      apply below_U; [done|lia].
Qed.

(** ** Buffering a PDU *)

(** The store with the PDU in it, unless it is there or too late. *)
Definition put e (pdu : UmPdu) (sn : Z) : option UmPdu :=
  if decide (sn = pduSequenceNumber pdu /\ U e <= sn)
  then match store e sn with Some p => Some p | None => Some pdu end
  else store e sn.

Lemma buffer_spec e pdu :
  sized e -> F e <= pduSequenceNumber pdu < F e + W e -> store e (pduSequenceNumber pdu) = None ->
  exists buf l,
    arr_addAt (pduBuffer_ e) (int32 (pduSequenceNumber pdu - F e)) pdu = Ok buf /\
    vset (received_ e) (int32 (pduSequenceNumber pdu - F e)) true = Some l /\
    sized (e <| pduBuffer_ := buf |> <| received_ := l |>) /\
    forall sn, store (e <| pduBuffer_ := buf |> <| received_ := l |>) sn =
      if decide (sn = pduSequenceNumber pdu) then Some pdu else store e sn.
Proof.
  intros Hz Ht Hnone. pose proof Hz as [Hz1 Hz2 (Hz3 & Hz4 & Hz5) Hz6 Hz7]. set (sn0 := pduSequenceNumber pdu) in *.
  rewrite swrap_small by (done || (unfold is_sint; lia)).
  destruct (arr_addAt_free (pduBuffer_ e) (sn0 - F e) pdu) as (buf & Hadd & Hget); [lia|done|].
  destruct (vset_is_Some (received_ e) (sn0 - F e) true) as (l & Hl); [lia|].
  assert (Hst : forall sn, store (e <| pduBuffer_ := buf |> <| received_ := l |>) sn =
      if decide (sn = sn0) then Some pdu else store e sn).
  { intros sn. unfold store. cbn. rewrite Hget. repeat case_decide; (done || lia). }
  exists buf, l. split; [done|]. split; [done|]. split; [|done]. split; cbn; try done.
  - by rewrite (vset_size _ _ _ _ Hl).
  - by apply (sync_set e buf l (sn0 - F e) (Some pdu)).
  - intros sn pdu'. change (store (e <| pduBuffer_ := buf |> <| received_ := l |>) sn = Some pdu' -> F e <= sn < F e + W e).
    rewrite Hst. case_decide; [intros _; lia|apply Hz7].
Qed.

(** What [enque] leaves of a window [e] in which it has put the PDU and from which it
    has handed over everything below [U e1]. *)
Record taken e pdu out e1 : Prop := {
  tk_ok : rx_ok e1;
  tk_params : same_params e e1;
  tk_U : U e <= U e1;
  tk_H : H e1 = if decide (U e <= pduSequenceNumber pdu)
                then Z.max (H e) (pduSequenceNumber pdu + 1) else H e;
  tk_out : out = omap (put e pdu) (zseq (U e) (Z.to_nat (U e1 - U e)));
  tk_store : forall sn, store e1 sn = if decide (sn < U e1) then None else put e pdu sn;
  tk_settled : settled e -> settled e1;
  tk_new : U e <= pduSequenceNumber pdu -> store e (pduSequenceNumber pdu) = None -> settled e1
}.

(** The timer at the end of [enque]. *)
Lemma handle_t_reordering_spec e NOW :
  sized e -> F e <= U e ->
  let e1 := handle_t_reordering e NOW in
  e1 = e <| t_reordering_ := t_reordering_ e1 |> <| rxWindowDesc_ := (rxWindowDesc_ e) <| reorderingSno_ := X e1 |> |> /\
  busy_ (t_reordering_ e1) = bool_decide (U e < H e) /\
  (busy_ (t_reordering_ e1) = true -> U e < X e1 <= H e).
Proof.
  intros [_ _ (_ & _ & HUH) _ _] HFU. unfold handle_t_reordering, start_reordering.
  assert (Hsame : e = e <| t_reordering_ := t_reordering_ e |>
    <| rxWindowDesc_ := (rxWindowDesc_ e) <| reorderingSno_ := X e |> |>).
  { by destruct e as [[] ? ? ? ? ? ? ? ?]. }
  destruct (busy_ (t_reordering_ e)) eqn:Hb.
  - destruct ((X e <=? U e) || (X e <? F e) || (H e <? X e)) eqn:Hc.
    + cbn. destruct (Z.ltb_spec (U e) (H e)); cbn.
      * split; [done|]. rewrite bool_decide_eq_true_2 by done. split; [done|]. lia.
      * split; [by destruct e as [[] ? ? ? ? ? ? ? ?]|]. by rewrite bool_decide_eq_false_2 by lia.
    + rewrite Hb. cbn. rewrite Hb. zify_bool. split; [done|].
      rewrite bool_decide_eq_true_2 by lia. split; [done|lia].
  - cbn. rewrite Hb. cbn. destruct (Z.ltb_spec (U e) (H e)); cbn; rewrite ?Hb.
    + unfold timer_start. rewrite Hb. split; [done|].
      rewrite bool_decide_eq_true_2 by done. split; [done|lia].
    + split; [done|]. by rewrite bool_decide_eq_false_2 by lia.
Qed.

Lemma handle_t_reordering_reasm e r NOW :
  handle_t_reordering (e <| reasm := r |>) NOW = (handle_t_reordering e NOW) <| reasm := r |>.
Proof.
  destruct e as [[f u x h w] buf rc t to re i m o]. unfold handle_t_reordering, start_reordering. cbn.
  destruct (busy_ t) eqn:Hb; [destruct ((x <=? u) || (x <? f) || (h <? x))|]; cbn; rewrite ?Hb; cbn; try done;
    by destruct (u <? h).
Qed.

(** [enque] after the window has room for the PDU. *)
Definition absorb (NOW : Z) (pdu : UmPdu) e (eff1 : list umrx_effect) : result (UmRxEntity A * list umrx_effect) :=
  let! buf := arr_addAt (pduBuffer_ e) (int32 (pduSequenceNumber pdu - F e)) pdu in
  let! e := set_received (e <| pduBuffer_ := buf |>) (int32 (pduSequenceNumber pdu - F e)) true in
  let! next := received_at e (uint32 (U e - F e)) in
  let! (e, eff2) := if next : bool then deliver_upto e 0 else Ok (e, []) in
  Ok (handle_t_reordering e NOW, eff1 ++ eff2).

(** Handing over what is deliverable. *)
Lemma deliver_ready e :
  sized e -> F e <= U e < H e -> H e <= F e + W e ->
  (forall sn, sn < U e -> store e sn = None) ->
  exists u1 e1, U e <= u1 <= H e /\ (u1 = H e \/ store e u1 = None) /\
    hands (fun e => let! next := received_at e (uint32 (U e - F e)) in
                    if next : bool then deliver_upto e 0 else Ok (e, [])) e
      (omap (store e) (zseq (U e) (Z.to_nat (u1 - U e)))) e1 /\
    advanced (with_U e u1) (F e) u1 e1.
Proof.
  intros Hz HU HH Hlow. pose proof Hz as [Hz1 Hz2 (Hz3 & Hz4 & Hz5) Hz6 Hz7].
  pose proof (received_at_sn e (U e) Hz) as Hr. destruct (store e (U e)) as [pdu0|] eqn:E.
  - destruct (deliver_upto_spec e 0) as (u1 & e1 & [Hu1 _ Hstop] & Hh & Had); [done..|lia|done|].
    exists u1, e1. split; [done|]. split; [destruct Hstop as [?|[? _]]; auto|]. split; [|done].
    intros r. cbn beta. change (received_at (e <| reasm := r |>)) with (received_at e).
    change (rxWindowDesc_ (e <| reasm := r |>)) with (rxWindowDesc_ e). rewrite Hr by lia.
    rewrite bool_decide_eq_true_2 by done. apply (Hh r).
  - exists (U e), e. split; [lia|]. split; [auto|]. rewrite Z.sub_diag. split.
    + apply hands_nil. intros r. change (received_at (e <| reasm := r |>)) with (received_at e).
      change (rxWindowDesc_ (e <| reasm := r |>)) with (rxWindowDesc_ e). rewrite Hr by lia.
      by rewrite bool_decide_eq_false_2 by auto.
    + split.
      * by destruct e as [[] ? ? ? ? ? ? ? ?].
      * done.
      * intros sn. change (store (with_U e (U e)) sn) with (store e sn). case_decide; [|done]. by apply Hlow.
Qed.

Lemma absorb_spec e NOW pdu :
  sized e -> F e <= U e <= pduSequenceNumber pdu -> pduSequenceNumber pdu < H e -> H e <= F e + W e ->
  store e (pduSequenceNumber pdu) = None -> (forall sn, sn < U e -> store e sn = None) ->
  (forall sn p, store e sn = Some p -> pduSequenceNumber p = sn /\ sn < H e) ->
  exists e1, settled e1 /\ rx_ok e1 /\ same_params e e1 /\ U e <= U e1 /\ H e1 = H e /\
    (forall r eff, absorb NOW pdu (e <| reasm := r |>) eff =
       let! (r, eff') := reassemble_pdus r (omap (put e pdu) (zseq (U e) (Z.to_nat (U e1 - U e)))) in
       Ok (e1 <| reasm := r |>, eff ++ eff')) /\
    forall sn, store e1 sn = if decide (sn < U e1) then None else put e pdu sn.
Proof.
  intros Hz HU Ht HH Hnone Hlow Hheld. pose proof Hz as [Hz1 Hz2 (Hz3 & Hz4 & Hz5) Hz6 Hz7].
  destruct (buffer_spec e pdu Hz) as (buf & l & Hadd & Hset & Hzb & Hstb); [lia|done|].
  set (eb := e <| pduBuffer_ := buf |> <| received_ := l |>) in *.
  assert (Hput : forall sn, store eb sn = put e pdu sn).
  { intros sn. rewrite Hstb. unfold put. repeat case_decide; subst; rewrite ?Hnone; (done || lia). }
  destruct (deliver_ready eb Hzb) as (u1 & e1 & Hu1 & Hstop & Hh & Had); [cbn; lia|cbn; lia| |].
  { intros sn Hsn. rewrite Hstb. change (U eb) with (U e) in Hsn. case_decide; [lia|by apply Hlow]. }
  change (U eb) with (U e) in *. change (H eb) with (H e) in *.
  assert (Hz1' : sized e1).
  { eapply (sized_advanced (with_U eb u1)); [|exact Had|reflexivity|by right].
    destruct Hzb as [? ? (? & ? & ?) ? ?]. split; try done. cbn in *. lia. }
  pose proof (fr_win _ _ (ad_frame _ _ _ _ Had)) as Hwin. cbn in Hwin.
  destruct (handle_t_reordering_spec e1 NOW Hz1') as (He & Hbusy & Htim); [rewrite Hwin; cbn; lia|].
  remember (handle_t_reordering e1 NOW) as e2 eqn:He2.
  assert (Hwin2 : rxWindowDesc_ e2 = {| firstSno_ := F e; firstSnoForReordering_ := u1;
    reorderingSno_ := X e2; highestReceivedSno_ := H e; windowSize_ := W e |}).
  { rewrite He at 1. cbn. by rewrite Hwin. }
  rewrite Hwin in Hbusy, Htim. cbn in Hbusy, Htim.
  assert (Hst2 : forall sn, store e2 sn = if decide (sn < u1) then None else put e pdu sn).
  { intros sn. rewrite <- Hput. etransitivity; [|exact (ad_store _ _ _ _ Had sn)].
    rewrite He. by unfold store. }
  assert (EU : U e2 = u1) by (by rewrite Hwin2). exists e2. rewrite EU. split_and!.
  - split; [by rewrite Hwin2|]. rewrite Hwin2. cbn. destruct Hstop as [?|Hs]; [by left|].
    right. rewrite Hst2, decide_False by lia. rewrite <- Hput. exact Hs.
  - split.
    + rewrite He. destruct Hz1' as [? ? (? & ? & ?) ? ?]. split; try done.
    + rewrite Hwin2. cbn. lia.
    + intros sn p. rewrite EU, Hst2, Hwin2. destruct (decide (sn < u1)); [done|]. rewrite <- Hput, Hstb.
      cbn [highestReceivedSno_]. destruct (decide _).
      * intros [= <-]. lia.
      * intros E. destruct (Hheld _ _ E). lia.
    + rewrite Hwin2. cbn. intros Hb. apply Htim in Hb. lia.
  - assert (Hf := ad_frame _ _ _ _ Had). destruct Hf. simpl in *.
    split; [rewrite He; cbn; congruence..|by rewrite Hwin2].
  - lia.
  - by rewrite Hwin2.
  - intros r eff. unfold absorb, set_received. change (rxWindowDesc_ (e <| reasm := r |>)) with (rxWindowDesc_ e).
    change (pduBuffer_ (e <| reasm := r |>)) with (pduBuffer_ e). rewrite Hadd. cbn [rbind].
    change (received_ (e <| reasm := r |> <| pduBuffer_ := buf |>)) with (received_ e). rewrite Hset. cbn [rbind].
    change (e <| reasm := r |> <| pduBuffer_ := buf |> <| received_ := l |>) with (eb <| reasm := r |>).
    specialize (Hh r). cbn beta in Hh.
    replace (omap (put e pdu) (zseq (U e) (Z.to_nat (u1 - U e))))
      with (omap (store eb) (zseq (U e) (Z.to_nat (u1 - U e)))) by (apply omap_ext_in; auto).
    destruct (received_at (eb <| reasm := r |>) _) as [b| |]; cbn [rbind] in Hh |- *.
    + rewrite Hh. destruct (reassemble_pdus r _) as [[r1 eff']| |]; cbn [rbind]; [|done..].
      by rewrite handle_t_reordering_reasm, <- He2.
    + destruct (reassemble_pdus r _) as [[r1 eff']| |]; done.
    + destruct (reassemble_pdus r _) as [[r1 eff']| |]; done.
  - done.
Qed.

(** ** [enque] *)

Lemma slide_spec e tsn :
  rx_ok e -> U e <= tsn < 2 ^ 30 ->
  exists e1, hands (fun e => if H e <=? tsn then shift_window e tsn else Ok (e, [])) e
      (omap (store e) (zseq (U e) (Z.to_nat (U e1 - U e)))) e1 /\ slid e tsn e1.
Proof.
  intros Hok Ht. pose proof Hok as [Hz [HFU HW] _ _]. pose proof Hz as [Hz1 Hz2 (Hz3 & Hz4 & Hz5) Hz6 Hz7].
  destruct (Z.leb_spec (H e) tsn) as [HH|HH].
  - destruct (shift_window_spec e tsn Hok) as (e1 & Hh & Hsl); [lia|]. exists e1. split; [|done].
    intros r. change (rxWindowDesc_ (e <| reasm := r |>)) with (rxWindowDesc_ e).
    rewrite (proj2 (Z.leb_le _ _)) by lia. apply (Hh r).
  - exists e. split.
    + rewrite Z.sub_diag. apply hands_nil. intros r.
      change (rxWindowDesc_ (e <| reasm := r |>)) with (rxWindowDesc_ e).
      by rewrite (proj2 (Z.leb_gt _ _)) by lia.
    + split; try done; try lia. intros sn. destruct (decide _); [|done]. apply below_U; [done|lia].
Qed.

Lemma enque_absorb e NOW pdu r :
  negb (init_ e) && d2dMulti e = false ->
  rx_ok e -> U e <= pduSequenceNumber pdu -> store e (pduSequenceNumber pdu) = None ->
  enque (e <| reasm := r |>) NOW pdu =
    let! x := (if H e <=? pduSequenceNumber pdu then shift_window (e <| reasm := r |>) (pduSequenceNumber pdu)
               else Ok (e <| reasm := r |>, [])) in
    absorb NOW pdu x.1 x.2.
Proof.
  intros Hi Hok Ht Hnone. pose proof Hok as [Hz [HFU HW] _ _]. pose proof Hz as [Hz1 Hz2 (Hz3 & Hz4 & Hz5) Hz6 Hz7].
  unfold enque. change (init_ (e <| reasm := r |>)) with (init_ e).
  change (d2dMulti (e <| reasm := r |>)) with (d2dMulti e). rewrite Hi. cbv iota zeta.
  change (rxWindowDesc_ (e <| reasm := r |>)) with (rxWindowDesc_ e).
  change (received_at (e <| reasm := r |>)) with (received_at e).
  rewrite (proj2 (Z.leb_le (U e) _)) by done. rewrite (proj2 (Z.ltb_ge _ (U e))) by lia. cbn [andb].
  destruct (Z.ltb_spec (pduSequenceNumber pdu) (H e)) as [Hlt|Hge].
  - rewrite (swrap_small 32) by (done || (unfold is_sint; lia)).
    rewrite (received_at_sync e) by (exact Hz6 || lia). cbn [rbind]. rewrite bool_decide_eq_false_2.
    + rewrite (proj2 (Z.leb_gt _ _)) by lia. done.
    + unfold store in Hnone. auto.
  - cbn [rbind]. rewrite (proj2 (Z.leb_le _ _)) by lia. by destruct (shift_window _ _) as [[]| |].
Qed.

(** A duplicate or late PDU is dropped. *)
Lemma enque_dropped e NOW pdu r :
  negb (init_ e) && d2dMulti e = false -> rx_ok e ->
  pduSequenceNumber pdu < U e \/ store e (pduSequenceNumber pdu) <> None ->
  enque (e <| reasm := r |>) NOW pdu = Ok (e <| reasm := r |>, []).
Proof.
  intros Hi Hok Hd. pose proof Hok as [Hz [HFU HW] Hh _]. pose proof Hz as [Hz1 Hz2 (Hz3 & Hz4 & Hz5) Hz6 Hz7].
  unfold enque. change (init_ (e <| reasm := r |>)) with (init_ e).
  change (d2dMulti (e <| reasm := r |>)) with (d2dMulti e). rewrite Hi. cbv iota zeta.
  change (rxWindowDesc_ (e <| reasm := r |>)) with (rxWindowDesc_ e).
  change (received_at (e <| reasm := r |>)) with (received_at e).
  destruct (Z_lt_ge_dec (pduSequenceNumber pdu) (U e)) as [Hlt|Hge].
  - rewrite (proj2 (Z.leb_gt (U e) _)) by lia. cbn. by rewrite (proj2 (Z.ltb_lt _ (U e))) by lia.
  - destruct Hd as [Hd|Hd]; [lia|]. destruct (store e (pduSequenceNumber pdu)) as [p|] eqn:E; [|done].
    destruct (Hh _ _ E) as [_ Hr]. rewrite (proj2 (Z.leb_le (U e) _)), (proj2 (Z.ltb_lt _ (H e))) by lia. cbn [andb].
    rewrite (swrap_small 32) by (done || (unfold is_sint; lia)).
    rewrite (received_at_sync e) by (exact Hz6 || lia). cbn [rbind].
    rewrite bool_decide_eq_true_2; [done|]. unfold store in E. by rewrite E.
Qed.

Lemma put_dropped e pdu :
  pduSequenceNumber pdu < U e \/ store e (pduSequenceNumber pdu) <> None ->
  forall sn, put e pdu sn = store e sn.
Proof.
  intros Hd sn. unfold put. case_decide as Hc; [|done]. destruct Hc as [-> Hc].
  destruct Hd; [lia|]. by destruct (store e (pduSequenceNumber pdu)).
Qed.

Lemma enque_spec e NOW pdu :
  negb (init_ e) && d2dMulti e = false -> rx_ok e -> pduSequenceNumber pdu < 2 ^ 30 ->
  exists e1 out, hands (fun e => enque e NOW pdu) e out e1 /\ taken e pdu out e1.
Proof.
  intros Hi Hok Ht. pose proof Hok as [Hz [HFU HW] Hh Htim]. pose proof Hz as [Hz1 Hz2 (Hz3 & Hz4 & Hz5) Hz6 Hz7].
  destruct (decide (pduSequenceNumber pdu < U e \/ store e (pduSequenceNumber pdu) <> None)) as [Hd|Hd].
  - exists e, []. split; [apply hands_nil; intros r; by apply enque_dropped|].
    pose proof (put_dropped e pdu Hd) as Hput. split; try done.
    + case_decide; [|done]. destruct Hd as [Hd|Hd]; [lia|].
      destruct (store e (pduSequenceNumber pdu)) as [p|] eqn:E; [|done]. apply Hh in E. lia.
    + by rewrite Z.sub_diag.
    + intros sn. rewrite Hput. destruct (decide _); [|done]. by apply below_U.
    + intros Hu Hn. destruct Hd; [lia|done].
  - assert (Hu : U e <= pduSequenceNumber pdu) by lia.
    assert (Hn : store e (pduSequenceNumber pdu) = None).
    { destruct (store e _) eqn:E; [|done]. exfalso. auto. }
    destruct (slide_spec e (pduSequenceNumber pdu) Hok) as (em & Hhm & Hsl); [lia|].
    destruct (absorb_spec em NOW pdu) as (e1 & Hset & Hok1 & Hp1 & HU1 & HH1 & Hrun & Hst1).
    + apply Hsl.
    + rewrite (sl_U _ _ _ Hsl). pose proof (sl_first _ _ _ Hsl). lia.
    + rewrite (sl_H _ _ _ Hsl). lia.
    + apply Hsl.
    + rewrite (sl_store _ _ _ Hsl). by case_decide.
    + intros sn Hsn. rewrite (sl_store _ _ _ Hsl). rewrite (sl_U _ _ _ Hsl) in Hsn. case_decide; [done|].
      apply below_U; [done|lia].
    + intros sn p. rewrite (sl_store _ _ _ Hsl), (sl_H _ _ _ Hsl). case_decide; [done|].
      intros E%Hh. lia.
    + pose proof (sl_U _ _ _ Hsl) as HUm. pose proof (sl_first _ _ _ Hsl) as HFm.
      assert (Hpm : forall sn, U em <= sn -> put em pdu sn = put e pdu sn).
      { intros sn Hsn. unfold put. rewrite (sl_store _ _ _ Hsl). repeat case_decide; (done || lia). }
      assert (Hpl : forall sn, sn < U em -> put e pdu sn = store e sn).
      { intros sn Hsn. unfold put. case_decide as Hc; [|done]. destruct Hc as [-> _]. by rewrite Hn in *; lia. }
      exists e1, (omap (store e) (zseq (U e) (Z.to_nat (U em - U e))) ++
                  omap (put em pdu) (zseq (U em) (Z.to_nat (U e1 - U em)))). split.
      * intros r. cbn beta. rewrite enque_absorb by done.
        refine (hands_bind _ (fun x => absorb NOW pdu x.1 x.2) e _ em _ e1 Hhm _ r).
        intros r' eff. apply Hrun.
      * split; try done.
        -- eapply same_params_trans; [apply Hsl|done].
        -- lia.
        -- rewrite HH1, (sl_H _ _ _ Hsl), decide_True by done. done.
        -- rewrite (seq_split (put e pdu) (U e) (U em - U e)) by lia. f_equal.
           ++ apply omap_ext_in. intros sn Hsn%elem_of_zseq. symmetry. apply Hpl. lia.
           ++ replace (U e + (U em - U e)) with (U em) by lia.
              replace (U e1 - U e - (U em - U e)) with (U e1 - U em) by lia.
              apply omap_ext_in. intros sn Hsn%elem_of_zseq. apply Hpm. lia.
        -- intros sn. rewrite Hst1. case_decide; [done|]. apply Hpm. lia.
Qed.

(** ** The reordering timer *)

Record expired e out e1 : Prop := {
  ex_ok : rx_ok e1;
  ex_params : same_params e e1;
  ex_U : X e <= U e1;
  ex_H : H e1 = H e;
  ex_out : out = omap (store e) (zseq (U e) (Z.to_nat (U e1 - U e)));
  ex_store : forall sn, store e1 sn = if decide (sn < U e1) then None else store e sn;
  ex_settled : settled e1
}.

Lemma start_reordering_reasm e r NOW :
  start_reordering (e <| reasm := r |>) NOW = (start_reordering e NOW) <| reasm := r |>.
Proof. destruct e as [[f u x h w] buf rc t to re i m o]. unfold start_reordering. cbn. by destruct (u <? h). Qed.

Lemma rx_handleMessage_spec e NOW :
  rx_ok e -> busy_ (t_reordering_ e) = true ->
  exists e1 out, hands (fun e => rx_handleMessage e NOW) e out e1 /\ expired e out e1.
Proof.
  intros Hok Hb. pose proof Hok as [Hz [HFU HW] Hh Ht]. specialize (Ht Hb).
  pose proof Hz as [Hz1 Hz2 (Hz3 & Hz4 & Hz5) Hz6 Hz7].
  set (ei := e <| t_reordering_ := timer_handle (t_reordering_ e) |>).
  assert (Hzi : sized ei) by (split; done).
  destruct (deliver_upto_spec ei (X e)) as (u1 & e1 & [Hu1 Hpass Hstop] & Hr & Had);
    [done|cbn; lia|cbn; lia|cbn; lia|intros sn Hsn; by apply (below_U e)|].
  change (U ei) with (U e) in *. change (H ei) with (H e) in *.
  pose proof (fr_win _ _ (ad_frame _ _ _ _ Had)) as Hwin. cbn in Hwin.
  pose proof (fr_timer _ _ (ad_frame _ _ _ _ Had)) as Htim. cbn in Htim.
  assert (Hz1' : sized e1).
  { eapply (sized_advanced (with_U ei u1)); [|exact Had|reflexivity|by right].
    split; try done. cbn. lia. }
  assert (Hst1 : forall sn, store e1 sn = if decide (sn < u1) then None else store e sn).
  { intros sn. exact (ad_store _ _ _ _ Had sn). }
  assert (HX : X e <= u1) by (destruct Hstop as [->|[_ ?]]; lia).
  assert (Hend : u1 = H e \/ store e u1 = None) by (destruct Hstop as [?|[? _]]; auto).
  assert (Hheld : forall sn pdu, store e1 sn = Some pdu -> pduSequenceNumber pdu = sn /\ u1 <= sn < H e).
  { intros sn pdu. rewrite Hst1. destruct (decide (sn < u1)); [done|]. intros E%Hh. lia. }
  assert (Hpar : same_params e e1).
  { destruct (ad_frame _ _ _ _ Had). split; [done..|]. by rewrite Hwin. }
  clear Had Hpass. exists (start_reordering e1 NOW), (omap (store e) (zseq (U e) (Z.to_nat (u1 - U e)))). split.
  - intros r. specialize (Hr r). cbn beta in Hr. change (store ei) with (store e) in Hr.
    transitivity (let! (e, eff) := deliver_upto (ei <| reasm := r |>) (X e) in Ok (start_reordering e NOW, eff));
      [done|]. rewrite Hr.
    destruct (reassemble_pdus r _) as [[r1 eff]| |]; cbn [rbind]; [|done..]. by rewrite start_reordering_reasm.
  - assert (Hbusy : busy_ (t_reordering_ e1) = false) by (by rewrite Htim).
    destruct e1 as [w1 b1 rc1 t1 to1 re1 i1 m1 o1]. cbn in Hwin, Hbusy. subst w1.
    unfold start_reordering. cbn. destruct (Z.ltb_spec u1 (H e)) as [Hlt|Hge].
    + unfold timer_start. rewrite Hbusy. cbn. split; try done.
      * split; [destruct Hz1'; by split|cbn; lia|exact Hheld|cbn; lia].
      * destruct Hpar. split; done.
      * cbn. split; [by rewrite bool_decide_eq_true_2|]. destruct Hend as [?|He]; [lia|right].
        change (store e u1 = None) in He. pose proof (Hst1 u1) as E. rewrite decide_False in E by lia.
        by rewrite He in E.
    + cbn. split; try done.
      * split; [done|cbn; lia|exact Hheld|cbn; by rewrite Hbusy].
      * split; [cbn; rewrite Hbusy, bool_decide_eq_false_2 by lia; done|]. left. cbn. lia.
Qed.

(** ** Runs *)

(** A PDU from the MAC, or the message of the timer (only while one is scheduled). *)
Inductive rx_event := RxPdu (NOW : Z) (pdu : UmPdu) | RxTimer (NOW : Z).

Definition rx_step e (ev : rx_event) : result (UmRxEntity A * list umrx_effect) :=
  match ev with
  | RxPdu NOW pdu => enque e NOW pdu
  | RxTimer NOW =>
      if busy_ (t_reordering_ e)
      then rx_handleMessage (e <| t_reordering_ := fired (t_reordering_ e) |>) NOW
      else Ok (e, [])
  end.

Fixpoint rx_run e (evs : list rx_event) : result (UmRxEntity A * list umrx_effect) :=
  match evs with
  | [] => Ok (e, [])
  | ev :: evs' =>
      let! (e, eff) := rx_step e ev in
      let! (e, eff') := rx_run e evs' in
      Ok (e, eff ++ eff')
  end.

Definition arrivals (evs : list rx_event) : list UmPdu :=
  omap (fun ev => match ev with RxPdu _ pdu => Some pdu | RxTimer _ => None end) evs.

(** What a run guarantees: [out] is handed over in the order of the numbers, each
    from an arrival; a number passed was handed over or never stored. *)
Record ran e evs out e1 : Prop := {
  rn_ok : rx_ok e1;
  rn_settled : settled e -> settled e1;
  rn_params : same_params e e1;
  rn_U : U e <= U e1;
  rn_sorted : StronglySorted (fun p q => pduSequenceNumber p < pduSequenceNumber q) out;
  rn_range : Forall (fun p => U e <= pduSequenceNumber p < U e1) out;
  rn_from : forall p, p ∈ out \/ store e1 (pduSequenceNumber p) = Some p ->
              p ∈ arrivals evs \/ store e (pduSequenceNumber p) = Some p;
  rn_kept : forall p, store e (pduSequenceNumber p) = Some p ->
              p ∈ out \/ store e1 (pduSequenceNumber p) = Some p
}.

Lemma omap_zseq_sorted (f : Z -> option UmPdu) a n :
  (forall sn p, f sn = Some p -> pduSequenceNumber p = sn) ->
  StronglySorted (fun p q => pduSequenceNumber p < pduSequenceNumber q) (omap f (zseq a n)) /\
  Forall (fun p => a <= pduSequenceNumber p < a + Z.of_nat n) (omap f (zseq a n)).
Proof.
  intros Hf. revert a. induction n as [|n IH]; intros a; [split; constructor|].
  destruct (IH (a + 1)) as [Hs Hr]. cbn [zseq omap list_omap].
  assert (Hr' : Forall (fun p => a <= pduSequenceNumber p < a + Z.of_nat (S n)) (omap f (zseq (a + 1) n))).
  { eapply Forall_impl; [exact Hr|]. simpl. lia. }
  destruct (f a) as [p|] eqn:E; [|done]. apply Hf in E. split.
  - constructor; [done|]. eapply Forall_impl; [exact Hr|]. simpl. lia.
  - constructor; [lia|done].
Qed.

Lemma elem_of_omap_zseq (f : Z -> option UmPdu) a n p :
  p ∈ omap f (zseq a n) <-> exists sn, a <= sn < a + Z.of_nat n /\ f sn = Some p.
Proof.
  rewrite list_elem_of_omap. split; intros (sn & H1 & H2).
  - exists sn. by rewrite elem_of_zseq in H1.
  - exists sn. by rewrite elem_of_zseq.
Qed.

Lemma put_held e pdu sn p :
  rx_ok e -> put e pdu sn = Some p ->
  pduSequenceNumber p = sn /\ (p = pdu \/ store e (pduSequenceNumber p) = Some p).
Proof.
  intros Hok. unfold put. case_decide as Hc.
  - destruct Hc as [-> Hc]. destruct (store e (pduSequenceNumber pdu)) as [q|] eqn:E; intros [= <-]; [|auto].
    destruct (ok_held _ Hok _ _ E) as [Eq _]. rewrite Eq, E. auto.
  - intros E. destruct (ok_held _ Hok _ _ E) as [Eq _]. rewrite Eq, E. auto.
Qed.

Lemma put_keeps e pdu sn p : store e sn = Some p -> put e pdu sn = Some p.
Proof. intros E. unfold put. rewrite E. by case_decide. Qed.

(** One step, as the beginning of a run. *)
Lemma handed_ran e evs f u1 out e1 :
  rx_ok e -> U e <= u1 -> U e1 = u1 -> rx_ok e1 -> same_params e e1 -> (settled e -> settled e1) ->
  out = omap f (zseq (U e) (Z.to_nat (u1 - U e))) ->
  (forall sn, store e1 sn = if decide (sn < u1) then None else f sn) ->
  (forall sn p, f sn = Some p -> pduSequenceNumber p = sn /\
     (p ∈ arrivals evs \/ store e (pduSequenceNumber p) = Some p)) ->
  (forall sn p, store e sn = Some p -> f sn = Some p) ->
  ran e evs out e1.
Proof.
  intros Hok Hu <- Hok1 Hp Hset -> Hst Hf Hkeep.
  destruct (omap_zseq_sorted f (U e) (Z.to_nat (U e1 - U e))) as [Hs Hr]; [intros sn p E; by destruct (Hf _ _ E)|].
  rewrite Z2Nat.id in Hr by lia. replace (U e + (U e1 - U e)) with (U e1) in Hr by lia.
  split; try done.
  - intros p [Hin|Hin].
    + apply elem_of_omap_zseq in Hin as (sn & _ & E). by apply Hf in E as [_ ?].
    + rewrite Hst in Hin. case_decide; [done|]. by apply Hf in Hin as [_ ?].
  - intros p E. pose proof (ok_held _ Hok _ _ E) as [_ Hb].
    destruct (Z_lt_ge_dec (pduSequenceNumber p) (U e1)).
    + left. apply elem_of_omap_zseq. exists (pduSequenceNumber p). split; [lia|auto].
    + right. rewrite Hst, decide_False by lia. auto.
Qed.

Definition fits_event (ev : rx_event) : Prop :=
  match ev with RxPdu _ pdu => pduSequenceNumber pdu < 2 ^ 30 | RxTimer _ => True end.

Lemma rx_step_spec e ev :
  negb (init_ e) && d2dMulti e = false -> rx_ok e -> fits_event ev ->
  exists e1 out, hands (fun e => rx_step e ev) e out e1 /\ ran e [ev] out e1.
Proof.
  intros Hi Hok Hev. destruct ev as [NOW pdu|NOW].
  - destruct (enque_spec e NOW pdu Hi Hok Hev) as (e1 & out & Hh & Ht). exists e1, out. split; [done|].
    eapply handed_ran; try apply Ht; try done.
    + intros sn p E. apply put_held in E as [? [->|?]]; [|by auto..]. split; [done|]. left. by left.
    + intros. by apply put_keeps.
  - destruct (busy_ (t_reordering_ e)) eqn:Hb.
    + set (ef := e <| t_reordering_ := fired (t_reordering_ e) |>).
      assert (Hokf : rx_ok ef) by (destruct Hok as [[] ? ? ?]; split; [by split|done..]).
      destruct (rx_handleMessage_spec ef NOW Hokf) as (e1 & out & Hh & Ht); [done|]. exists e1, out. split.
      * intros r. specialize (Hh r). cbn beta in Hh. rewrite <- Hh. unfold rx_step.
        change (t_reordering_ (e <| reasm := r |>)) with (t_reordering_ e). by rewrite Hb.
      * eapply (handed_ran e _ (store e) (U e1)); try apply Ht; try done.
        -- pose proof (ex_U _ _ _ Ht). pose proof (ok_timer _ Hok Hb). change (X ef) with (X e) in *. lia.
        -- destruct (ex_params _ _ _ Ht). by split.
        -- intros _. apply Ht.
        -- intros sn p E. destruct (ok_held _ Hok _ _ E) as [Eq _]. rewrite Eq. auto.
    + exists e, []. split.
      * apply hands_nil. intros r. unfold rx_step. change (t_reordering_ (e <| reasm := r |>)) with (t_reordering_ e).
        by rewrite Hb.
      * eapply (handed_ran e _ (store e) (U e)); try done.
        -- by rewrite Z.sub_diag.
        -- intros sn. case_decide; [|done]. by apply below_U.
        -- intros sn p E. destruct (ok_held _ Hok _ _ E) as [Eq _]. rewrite Eq. auto.
Qed.

Lemma sorted_app_lt (l1 l2 : list UmPdu) m :
  StronglySorted (fun p q => pduSequenceNumber p < pduSequenceNumber q) l1 ->
  StronglySorted (fun p q => pduSequenceNumber p < pduSequenceNumber q) l2 ->
  Forall (fun p => pduSequenceNumber p < m) l1 -> Forall (fun p => m <= pduSequenceNumber p) l2 ->
  StronglySorted (fun p q => pduSequenceNumber p < pduSequenceNumber q) (l1 ++ l2).
Proof.
  intros H1 H2 Hl1 Hl2. induction H1 as [|p l1 Hs IH Hp]; [done|].
  apply Forall_cons in Hl1 as [Hpm Hl1]. simpl. constructor; [by apply IH|].
  apply Forall_app. split; [done|]. eapply Forall_impl; [exact Hl2|]. simpl. lia.
Qed.

Lemma ran_trans e evs1 out1 e1 evs2 out2 e2 :
  ran e evs1 out1 e1 -> ran e1 evs2 out2 e2 -> ran e (evs1 ++ evs2) (out1 ++ out2) e2.
Proof.
  intros [Ho1 Hse1 Hp1 HU1 Hs1 Hr1 Hf1 Hk1] [Ho2 Hse2 Hp2 HU2 Hs2 Hr2 Hf2 Hk2].
  assert (Harr : arrivals (evs1 ++ evs2) = arrivals evs1 ++ arrivals evs2) by apply omap_app.
  split; try done; auto.
  - by eapply same_params_trans.
  - lia.
  - apply (sorted_app_lt _ _ (U e1)); [done..| |].
    + eapply Forall_impl; [exact Hr1|]. simpl. lia.
    + eapply Forall_impl; [exact Hr2|]. simpl. lia.
  - apply Forall_app. split.
    + eapply Forall_impl; [exact Hr1|]. simpl. lia.
    + eapply Forall_impl; [exact Hr2|]. simpl. lia.
  - intros p Hp. rewrite elem_of_app in Hp. rewrite Harr, elem_of_app. destruct Hp as [[Hp|Hp]|Hp].
    + destruct (Hf1 p); auto.
    + destruct (Hf2 p) as [?|Hst]; [by left|by left; right|]. destruct (Hf1 p); auto.
    + destruct (Hf2 p) as [?|Hst]; [by right|by left; right|]. destruct (Hf1 p); auto.
  - intros p Hp. rewrite elem_of_app. destruct (Hk1 p Hp) as [?|Hst]; [auto|]. destruct (Hk2 p Hst); auto.
Qed.

Lemma ran_nil e : rx_ok e -> ran e [] [] e.
Proof.
  intros Hok. split; [done|auto|by split|lia|constructor|constructor| |auto].
  intros q [Hq|Hq]; [by apply not_elem_of_nil in Hq|auto].
Qed.

Lemma rx_run_spec evs e :
  negb (init_ e) && d2dMulti e = false -> rx_ok e -> Forall fits_event evs ->
  exists e1 out, hands (fun e => rx_run e evs) e out e1 /\ ran e evs out e1.
Proof.
  intros Hi Hok Hev. revert e Hi Hok. induction Hev as [|ev evs Hev Hevs IH]; intros e Hi Hok.
  - exists e, []. split; [by apply hands_nil|by apply ran_nil].
  - destruct (rx_step_spec e ev Hi Hok Hev) as (e1 & out1 & Hh1 & Hr1).
    destruct (IH e1) as (e2 & out2 & Hh2 & Hr2).
    { destruct (rn_params _ _ _ _ Hr1). congruence. }
    { apply Hr1. }
    exists e2, (out1 ++ out2). split; [|by apply (ran_trans e [ev] out1 e1 evs)].
    refine (hands_bind _ _ e out1 e1 out2 e2 Hh1 _). intros r eff.
    specialize (Hh2 r). cbn beta in Hh2. fold rx_run. rewrite Hh2.
    by destruct (reassemble_pdus r out2) as [[]| |].
Qed.

Lemma new_rx_ok rxWindowSize timeout ue :
  1 <= rxWindowSize <= 2 ^ 30 ->
  rx_ok (new_UmRxEntity rxWindowSize timeout false ue) /\ settled (new_UmRxEntity rxWindowSize timeout false ue).
Proof.
  intros Hw. assert (Hn : forall sn, store (new_UmRxEntity rxWindowSize timeout false ue) sn = None)
    by (intros; apply arr_get_new).
  split; [split|].
  - split; cbn; try lia.
    + rewrite length_replicate. lia.
    + intros j. cbn. rewrite arr_get_new. intros Hv. by apply vget_replicate in Hv.
    + intros sn pdu E. by rewrite Hn in E.
  - cbn. lia.
  - intros sn pdu E. by rewrite Hn in E.
  - done.
  - split; [done|by left].
Qed.
End Window.
