(* ===== verification/RlcReorder.v ===== *)
(** * The reordering window: properties

    In-order, at-most-once reassembly over a channel that loses, duplicates and
    reorders; no accepted PDU is forgotten; and, with the transmitter of RlcUm.v, what
    PDCP receives.  The buffer is any [CArray]; [gmap_carray] is one. *)

From S2P Require Import Prelude TTimer RlcUm RlcUmProps RlcWindow RlcWindowFacts RlcWindowProps.
From Stdlib Require Import Sorted.

#[export] Instance umpdu_eq_dec : EqDecision UmPdu.
Proof. solve_decision. Defined.

(** ** A concrete array *)

#[export] Instance gmap_carray {X} : CArray X (gmap Z X) := {
  arr_new := ∅;
  arr_get a i := a !! i;
  arr_addAt a i x := match a !! i with None => Ok (<[i := x]> a) | Some _ => Throw "cArray: position already used" end;
  arr_remove a i := delete i a;
  arr_clear a := ∅
}.

#[export] Instance gmap_carray_laws {X} : CArrayLaws X (gmap Z X).
Proof.
  split.
  - intros i. apply lookup_empty.
  - intros a i. apply lookup_empty.
  - intros a i x _ E. cbn in *. rewrite E. eexists. split; [done|]. intros j. case_decide as Hj.
    + subst. apply lookup_insert_eq.
    + by apply lookup_insert_ne.
  - intros a i x y E. cbn in *. rewrite E. by eexists.
  - intros a i j. cbn. case_decide as Hj.
    + subst. apply lookup_delete_eq.
    + by apply lookup_delete_ne.
Qed.

Section Reorder.
Context {A : Type} {C : CArray UmPdu A} {L : CArrayLaws UmPdu A}.
Implicit Types (e : UmRxEntity A) (out : list UmPdu).

Abbreviation F e := (firstSno_ (rxWindowDesc_ e)).
Abbreviation U e := (firstSnoForReordering_ (rxWindowDesc_ e)).
Abbreviation X e := (reorderingSno_ (rxWindowDesc_ e)).
Abbreviation H e := (highestReceivedSno_ (rxWindowDesc_ e)).
Abbreviation W e := (windowSize_ (rxWindowDesc_ e)).

Definition sno_lt (p q : UmPdu) : Prop := pduSequenceNumber p < pduSequenceNumber q.

(** Running the window, apart from what reassembly makes of its output. *)
Definition yields (m : result (UmRxEntity A * list umrx_effect)) (r0 : UmReassembly) out e1 : Prop :=
  m = let! (r, eff) := reassemble_pdus r0 out in Ok (e1 <| reasm := r |>, eff).

Lemma hands_yields f e out e1 : hands f e out e1 -> yields (f e) (reasm e) out e1.
Proof. intros Hh. specialize (Hh (reasm e)). unfold yields. rewrite <- Hh. by destruct e. Qed.

Lemma new_run rxWindowSize timeout ue evs :
  1 <= rxWindowSize <= 2 ^ 30 -> Forall fits_event evs ->
  exists e1 out,
    yields (rx_run (new_UmRxEntity rxWindowSize timeout false ue) evs) new_UmReassembly out e1 /\
    ran (new_UmRxEntity rxWindowSize timeout false ue) evs out e1 /\ settled e1.
Proof.
  intros Hw Hev. destruct (new_rx_ok (A := A) rxWindowSize timeout ue Hw) as [Hok Hset].
  destruct (rx_run_spec evs (new_UmRxEntity rxWindowSize timeout false ue)) as (e1 & out & Hh & Hr);
    [done..|]. exists e1, out. split; [exact (hands_yields _ _ _ _ Hh)|]. split; [done|]. by apply Hr.
Qed.

Lemma new_run_from rxWindowSize timeout ue evs e0 out p :
  ran (new_UmRxEntity rxWindowSize timeout false ue) evs out e0 ->
  p ∈ out \/ store e0 (pduSequenceNumber p) = Some p -> p ∈ arrivals evs.
Proof.
  intros Hr Hp. destruct (rn_from _ _ _ _ Hr p Hp) as [?|E]; [done|].
  unfold store in E. cbn in E. by rewrite arr_get_new in E.
Qed.

(** C8. In order and at most once, whatever the channel does: for PDUs arriving in
    any order, lost or duplicated, with the reordering timer expiring at any moment,
    no index leaves the window and no buffer position is used twice; the PDUs handed
    to reassembly have strictly increasing numbers and all come from the channel; and
    the timer runs exactly while a number below the highest received is missing. *)
Theorem rx_in_order_once (rxWindowSize timeout : Z) (ue : bool) (evs : list rx_event) :
  1 <= rxWindowSize <= 2 ^ 30 -> Forall fits_event evs ->
  exists e1 out,
    yields (rx_run (new_UmRxEntity rxWindowSize timeout false ue) evs) new_UmReassembly out e1 /\
    StronglySorted sno_lt out /\ (forall p, p ∈ out -> p ∈ arrivals evs) /\
    0 <= F e1 <= U e1 /\ U e1 <= H e1 <= F e1 + rxWindowSize /\
    busy_ (t_reordering_ e1) = bool_decide (U e1 < H e1).
Proof.
  intros Hw Hev. destruct (new_run rxWindowSize timeout ue evs Hw Hev) as (e1 & out & Hy & Hr & Hs).
  exists e1, out. split; [done|]. split; [exact (rn_sorted _ _ _ _ Hr)|].
  split; [intros p Hp; by eapply new_run_from; [|left]|].
  destruct (rn_ok _ _ _ _ Hr) as [[? ? (? & ? & ?) ? ?] [? ?] _ _].
  rewrite (sp_window _ _ (rn_params _ _ _ _ Hr)) in *. cbn in *. split; [lia|]. split; [lia|]. apply Hs.
Qed.

(** Storing a new PDU: from then on it is handed over or kept. *)
Lemma enque_keeps e NOW pdu evs :
  negb (init_ e) && d2dMulti e = false -> rx_ok e -> pduSequenceNumber pdu < 2 ^ 30 -> Forall fits_event evs ->
  U e <= pduSequenceNumber pdu -> store e (pduSequenceNumber pdu) = None ->
  exists e1 out, hands (fun e => rx_run e (RxPdu NOW pdu :: evs)) e out e1 /\ rx_ok e1 /\ settled e1 /\
    (pdu ∈ out \/ store e1 (pduSequenceNumber pdu) = Some pdu).
Proof.
  intros Hi Hok Ht Hev Hu Hn. destruct (enque_spec e NOW pdu Hi Hok Ht) as (e1 & out1 & Hh1 & Htk).
  destruct (rx_run_spec evs e1) as (e2 & out2 & Hh2 & Hr2); [|apply Htk|done|].
  { destruct (tk_params _ _ _ _ Htk). congruence. }
  exists e2, (out1 ++ out2).
  split; [|split; [apply Hr2|split; [by apply (rn_settled _ _ _ _ Hr2), (tk_new _ _ _ _ Htk)|]]].
  - refine (hands_bind (fun e => enque e NOW pdu) _ e out1 e1 out2 e2 Hh1 _). intros r eff.
    specialize (Hh2 r). cbn beta in Hh2. fold (@rx_run A C). rewrite Hh2.
    by destruct (reassemble_pdus r out2) as [[]| |].
  - rewrite elem_of_app. assert (Hput : put e pdu (pduSequenceNumber pdu) = Some pdu).
    { unfold put. rewrite decide_True by done. by rewrite Hn. }
    destruct (Z_lt_ge_dec (pduSequenceNumber pdu) (U e1)) as [Hlt|Hge].
    + left. left. rewrite (tk_out _ _ _ _ Htk). apply elem_of_omap_zseq.
      exists (pduSequenceNumber pdu). split; [lia|done].
    + destruct (rn_kept _ _ _ _ Hr2 pdu); [|by left; right|by right].
      rewrite (tk_store _ _ _ _ Htk), decide_False by lia. done.
Qed.

(** The window forgets no PDU it accepts: a PDU that arrives before the window
    has passed its number, and is not a duplicate, is later handed to reassembly, or
    still stored with the reordering timer running to end the wait. *)
Theorem rx_no_pdu_lost (rxWindowSize timeout NOW : Z) (ue : bool) (evs1 evs2 : list rx_event)
    (pdu : UmPdu) (e0 : UmRxEntity A) (eff0 : list umrx_effect) :
  1 <= rxWindowSize <= 2 ^ 30 -> Forall fits_event (evs1 ++ RxPdu NOW pdu :: evs2) ->
  rx_run (new_UmRxEntity rxWindowSize timeout false ue) evs1 = Ok (e0, eff0) ->
  U e0 <= pduSequenceNumber pdu -> store e0 (pduSequenceNumber pdu) = None ->
  exists e1 out, yields (rx_run e0 (RxPdu NOW pdu :: evs2)) (reasm e0) out e1 /\
    (pdu ∈ out \/
     store e1 (pduSequenceNumber pdu) = Some pdu /\ busy_ (t_reordering_ e1) = true).
Proof.
  intros Hw Hev Hrun Hu Hn. apply Forall_app in Hev as [Hev1 [Hp Hev2]%Forall_cons].
  destruct (new_run rxWindowSize timeout ue evs1 Hw Hev1) as (em & out0 & Hy & Hr & _).
  unfold yields in Hy. rewrite Hrun in Hy.
  destruct (reassemble_pdus new_UmReassembly out0) as [[r0 eff]| |]; [|done..]. injection Hy as -> _.
  destruct (enque_keeps (em <| reasm := r0 |>) NOW pdu evs2) as (e1 & out & Hh & Hok & Hs & Hin); try done.
  { destruct (rn_params _ _ _ _ Hr). cbn in *. by rewrite sp_multi, andb_false_r. }
  { destruct (rn_ok _ _ _ _ Hr) as [[] ? ? ?]. split; [by split|done..]. }
  exists e1, out. split; [exact (hands_yields _ _ _ _ Hh)|]. destruct Hin as [?|Hin]; [by left|right].
  split; [done|]. destruct Hs as [-> _]. apply bool_decide_eq_true_2.
  destruct (ok_held _ Hok _ _ Hin). lia.
Qed.

(** ** In-order arrival *)

Definition no_gap e : Prop := rx_ok e /\ settled e /\ U e = H e /\ negb (init_ e) && d2dMulti e = false.

Lemma enque_next e NOW pdu :
  no_gap e -> pduSequenceNumber pdu = H e -> pduSequenceNumber pdu < 2 ^ 30 ->
  exists e1, hands (fun e => enque e NOW pdu) e [pdu] e1 /\ no_gap e1 /\ H e1 = H e + 1.
Proof.
  intros (Hok & Hs & HUH & Hi) Hp Ht. destruct (enque_spec e NOW pdu Hi Hok Ht) as (e1 & out & Hh & Htk).
  assert (Hn : store e (pduSequenceNumber pdu) = None).
  { destruct (store e (pduSequenceNumber pdu)) eqn:E; [|done]. apply (ok_held _ Hok) in E. lia. }
  assert (Hput : put e pdu (U e) = Some pdu).
  { unfold put. rewrite decide_True by lia. rewrite HUH, <- Hp, Hn. done. }
  pose proof (tk_H _ _ _ _ Htk) as HH. rewrite decide_True in HH by lia.
  pose proof (tk_U _ _ _ _ Htk) as HU. destruct (tk_ok _ _ _ _ Htk) as [[_ _ (_ & _ & Hle) _ _] _ _ _].
  assert (E1 : U e1 = H e1).
  { destruct (tk_settled _ _ _ _ Htk Hs) as [_ [?|E]]; [done|].
    rewrite (tk_store _ _ _ _ Htk), decide_False in E by lia.
    assert (U e1 = U e \/ U e1 = H e1) as [E1|?] by lia; [|done]. rewrite E1, Hput in E. done. }
  exists e1. split; [|split; [|lia]].
  - assert (out = [pdu]) as <-; [|done]. rewrite (tk_out _ _ _ _ Htk).
    replace (U e1 - U e) with 1 by lia. change (Z.to_nat 1) with 1%nat. cbn. by rewrite Hput.
  - split; [apply Htk|]. split; [by apply Htk|]. split; [done|]. by rewrite (sp_init _ _ (tk_params _ _ _ _ Htk)), (sp_multi _ _ (tk_params _ _ _ _ Htk)).
Qed.

Lemma rx_run_next NOW pdus e :
  no_gap e -> (forall i p, pdus !! i = Some p -> pduSequenceNumber p = H e + Z.of_nat i) ->
  H e + vsize pdus <= 2 ^ 30 ->
  exists e1, hands (fun e => rx_run e (map (RxPdu NOW) pdus)) e pdus e1 /\ no_gap e1.
Proof.
  revert e. induction pdus as [|p pdus IH]; intros e Hg Hnum Hlen; [exists e; split; [by apply hands_nil|done]|].
  simpl in Hlen. pose proof (Hnum 0%nat p eq_refl) as Hp.
  destruct (enque_next e NOW p Hg) as (e1 & Hh1 & Hg1 & HH); [lia|lia|].
  destruct (IH e1 Hg1) as (e2 & Hh2 & Hg2); [|lia|].
  { intros i q Hq. rewrite (Hnum (S i) q Hq), HH. lia. }
  exists e2. split; [|done].
  refine (hands_bind (fun e => enque e NOW p) _ e [p] e1 pdus e2 Hh1 _). intros r eff.
  transitivity (let! (e, eff') := rx_run (e1 <| reasm := r |>) (map (RxPdu NOW) pdus) in Ok (e, eff ++ eff'));
    [done|].
  specialize (Hh2 r). cbn beta in Hh2. rewrite Hh2. by destruct (reassemble_pdus r pdus) as [[]| |].
Qed.

(** Without loss or reordering the window is transparent: PDUs that arrive in
    the order of their numbers are all handed to reassembly, each on its arrival, and
    the reordering timer is left idle. *)
Theorem rx_in_order_transparent (rxWindowSize timeout NOW : Z) (ue : bool) (pdus : list UmPdu) :
  1 <= rxWindowSize <= 2 ^ 30 -> vsize pdus <= 2 ^ 30 ->
  (forall i p, pdus !! i = Some p -> pduSequenceNumber p = Z.of_nat i) ->
  exists e1,
    yields (rx_run (new_UmRxEntity rxWindowSize timeout false ue) (map (RxPdu NOW) pdus))
      new_UmReassembly pdus e1 /\
    busy_ (t_reordering_ e1) = false.
Proof.
  intros Hw Hlen Hnum. destruct (new_rx_ok (A := A) rxWindowSize timeout ue Hw) as [Hok Hset].
  destruct (rx_run_next NOW pdus (new_UmRxEntity rxWindowSize timeout false ue)) as (e1 & Hh & Hg); [done..|].
  exists e1. split; [exact (hands_yields _ _ _ _ Hh)|]. destruct Hg as (_ & [-> _] & E & _).
  apply bool_decide_eq_false_2. lia.
Qed.

(** ** The timer ends the wait *)

(** The reordering timer bounds the wait: when it expires, every stored PDU with
    a number below the one that was awaited when it started is handed to reassembly,
    the window passes that number, and the timer runs again exactly if a gap is
    left. *)
Theorem t_reordering_ends_wait (e : UmRxEntity A) (NOW : Z) :
  rx_ok e -> busy_ (t_reordering_ e) = true ->
  exists e1 out, yields (rx_handleMessage e NOW) (reasm e) out e1 /\ rx_ok e1 /\
    U e < X e <= U e1 /\
    (forall sn p, store e sn = Some p -> sn < X e -> p ∈ out) /\
    busy_ (t_reordering_ e1) = bool_decide (U e1 < H e1).
Proof.
  intros Hok Hb. destruct (rx_handleMessage_spec e NOW Hok Hb) as (e1 & out & Hh & He).
  exists e1, out. split; [exact (hands_yields _ _ _ _ Hh)|]. split; [apply He|].
  pose proof (ok_timer _ Hok Hb) as Hx. pose proof (ex_U _ _ _ He) as Hx'. split; [lia|]. split; [|apply He].
  intros sn p E Hsn. rewrite (ex_out _ _ _ He). apply elem_of_omap_zseq. exists sn. split; [|done].
  destruct (ok_held _ Hok _ _ E). lia.
Qed.

(** ** D2D mode switch *)

(** The entity at the start of a connection: an empty window from number 0. *)
Definition restarted e : Prop :=
  rx_ok e /\ settled e /\ (forall sn, store e sn = None) /\ F e = 0 /\ U e = 0 /\ H e = 0 /\
  resetFlag_ (reasm e) = true.

(** A mode switch that clears the buffers loses no stored PDU and leaves no
    trace: the entity of the old connection hands every PDU it holds to reassembly,
    in order, and is then empty with an idle timer; when it serves the new connection
    again its window restarts from number 0, and the next PDU resynchronises the loss
    counters. *)
Theorem mode_switch_clears (e : UmRxEntity A) (oldModeIsIM clear' oldMode' : bool) :
  rx_ok e -> ownerIsUe e && oldModeIsIM = false ->
  exists e1 out,
    rx_rlcHandleD2DModeSwitch e true oldModeIsIM true =
      (let! (r, eff) := reassemble_pdus (reasm e) out in
       Ok (e1 <| reasm := r <| buffered_ := None |> |>, eff)) /\
    StronglySorted sno_lt out /\ (forall sn p, store e sn = Some p -> p ∈ out) /\
    busy_ (t_reordering_ e1) = false /\
    forall r, exists e2, rx_rlcHandleD2DModeSwitch (e1 <| reasm := r |>) false oldMode' clear' = Ok (e2, []) /\
      restarted e2.
Proof.
  intros Hok Hg. pose proof Hok as [Hz [HFU HW] Hheld _]. pose proof Hz as [Hz1 Hz2 (Hz3 & Hz4 & Hz5) Hz6 Hz7].
  destruct (reassemble_range_hands (Z.to_nat (W e)) e 0 Hz6) as (em & Hh & Hf & Hs & Hat); [lia|lia|].
  assert (Hout : omap (arr_get (pduBuffer_ e)) (zseq 0 (Z.to_nat (W e))) =
                 omap (store e) (zseq (F e) (Z.to_nat (W e)))).
  { transitivity (omap (store e) (zseq (0 + F e) (Z.to_nat (W e)))); [|by rewrite Z.add_0_l].
    rewrite <- zseq_shift. apply omap_ext_in. intros x _. unfold store. f_equal. lia. }
  rewrite Hout in Hh. set (out := omap (store e) (zseq (F e) (Z.to_nat (W e)))) in *.
  set (e1 := em <| pduBuffer_ := arr_clear (pduBuffer_ em) |>
       <| received_ := replicate (length (received_ em)) false |>
       <| t_reordering_ := if busy_ (t_reordering_ em) then timer_stop (t_reordering_ em) else t_reordering_ em |>).
  exists e1, out. split_and!.
  - transitivity (let! (e, eff) := reassemble_range (e <| reasm := reasm e |>) 0 (Z.to_nat (W e)) in
      Ok (e <| pduBuffer_ := arr_clear (pduBuffer_ e) |>
            <| received_ := replicate (length (received_ e)) false |>
            <| reasm := (reasm e) <| buffered_ := None |> |>
            <| t_reordering_ := if busy_ (t_reordering_ e) then timer_stop (t_reordering_ e)
                                else t_reordering_ e |>, eff)).
    { unfold rx_rlcHandleD2DModeSwitch. rewrite Hg. by destruct e. }
    specialize (Hh (reasm e)). cbn beta in Hh. rewrite Hh.
    by destruct (reassemble_pdus (reasm e) out) as [[r eff]| |].
  - apply omap_zseq_sorted. intros sn p E. by apply (Hheld _ _ E).
  - intros sn p E. apply elem_of_omap_zseq. exists sn. split; [|done]. apply Hz7 in E. lia.
  - cbn. by destruct (busy_ (t_reordering_ em)) eqn:Eb.
  - intros r. eexists. split; [reflexivity|].
    assert (Hlen : length (received_ em) = length (received_ e)) by apply Hf.
    assert (Hwin : rxWindowDesc_ em = rxWindowDesc_ e) by apply Hf.
    assert (Hidle : busy_ (t_reordering_ e1) = false) by (cbn; by destruct (busy_ (t_reordering_ em)) eqn:Eb).
    assert (Hempty : forall i, arr_get (pduBuffer_ e1) i = None) by (intros; apply arr_get_clear).
    split; [split|split_and!]; try done.
    + split; cbn; rewrite ?Hwin, ?length_replicate, ?Hlen; try lia.
      * intros j. cbn. rewrite arr_get_clear. intros Hv. by apply vget_replicate in Hv.
      * intros sn pdu. unfold store. cbn. by rewrite arr_get_clear.
    + cbn. rewrite Hwin. lia.
    + intros sn pdu. unfold store. cbn. by rewrite arr_get_clear.
    + cbn in *. rewrite Hidle. done.
    + split; [|by left]. cbn in *. by rewrite Hidle.
    + intros sn. unfold store. cbn. by rewrite arr_get_clear.
Qed.

(** ** D2D multicast *)

(** A multicast entity once it has seen the first number [tsn]. *)
Definition multi_from (rxWindowSize timeout : Z) (ue : bool) (tsn : Z) : UmRxEntity A :=
  let e := new_UmRxEntity rxWindowSize timeout true ue in
  e <| rxWindowDesc_ := (win_clear (rxWindowDesc_ e) tsn) <| windowSize_ := 1 |> |> <| init_ := true |>.

Lemma multi_from_ok rxWindowSize timeout ue tsn :
  1 <= rxWindowSize -> 0 <= tsn <= 2 ^ 30 ->
  rx_ok (multi_from rxWindowSize timeout ue tsn) /\ settled (multi_from rxWindowSize timeout ue tsn).
Proof.
  intros Hw Ht. assert (Hn : forall sn, store (multi_from rxWindowSize timeout ue tsn) sn = None)
    by (intros; apply arr_get_new).
  split; [split|].
  - split; cbn; try lia.
    + rewrite length_replicate. lia.
    + intros j. cbn. rewrite arr_get_new. intros Hv. by apply vget_replicate in Hv.
    + intros sn pdu E. by rewrite Hn in E.
  - cbn. lia.
  - intros sn pdu E. by rewrite Hn in E.
  - done.
  - split; [cbn; by rewrite bool_decide_eq_false_2 by lia|by left].
Qed.

(** With a window of one number, a PDU newer than all before is handed over at once. *)
Lemma multi_step e NOW pdu :
  no_gap e -> W e = 1 -> pduSequenceNumber pdu < 2 ^ 30 ->
  exists e1, no_gap e1 /\ W e1 = 1 /\
    if decide (H e <= pduSequenceNumber pdu)
    then hands (fun e => enque e NOW pdu) e [pdu] e1 /\ H e1 = pduSequenceNumber pdu + 1
    else hands (fun e => enque e NOW pdu) e [] e1 /\ H e1 = H e.
Proof.
  intros (Hok & Hs & HUH & Hi) HW Ht. destruct (enque_spec e NOW pdu Hi Hok Ht) as (e1 & out & Hh & Htk).
  destruct (tk_params _ _ _ _ Htk) as [_ Hp1 Hp2 Hp3]. exists e1.
  assert (Hnone : forall sn, store e sn = None).
  { intros sn. destruct (store e sn) eqn:E; [|done]. apply (ok_held _ Hok) in E. lia. }
  pose proof (tk_ok _ _ _ _ Htk) as Hok1. pose proof Hok1 as [Hz1 Ho1 Hh1 _].
  pose proof (sz_small _ Hz1) as Hsm. pose proof (tk_U _ _ _ _ Htk) as HU. pose proof (tk_H _ _ _ _ Htk) as HH.
  pose proof (tk_settled _ _ _ _ Htk Hs) as Hs1.
  assert (E1 : U e1 = H e1).
  { destruct Hs1 as [_ [?|E]]; [done|]. rewrite (tk_store _ _ _ _ Htk), decide_False in E by lia.
    destruct (Z.eq_dec (U e1) (H e1)) as [?|Hne]; [done|]. exfalso.
    rewrite HUH in *. case_decide as Hd; [|lia].
    assert (U e1 = pduSequenceNumber pdu) as E2 by lia.
    unfold put in E. rewrite decide_True, Hnone in E by lia. done. }
  assert (Hg : no_gap e1) by (split; [done|split; [done|split; [done|by rewrite Hp1, Hp2]]]).
  split; [done|]. split; [lia|]. rewrite HUH in *. pose proof (tk_out _ _ _ _ Htk) as Hout.
  case_decide as Hd; (split; [|lia]).
  - assert (out = [pdu]) as <-; [|done]. rewrite Hout, HUH.
    rewrite (seq_split _ _ (pduSequenceNumber pdu - H e)) by lia. rewrite omap_zseq_none.
    + replace (U e1 - H e - (pduSequenceNumber pdu - H e)) with 1 by lia. change (Z.to_nat 1) with 1%nat.
      replace (H e + (pduSequenceNumber pdu - H e)) with (pduSequenceNumber pdu) by lia. cbn.
      unfold put. rewrite decide_True by lia. by rewrite Hnone.
    + intros x Hx. unfold put. rewrite decide_False by lia. done.
  - assert (out = []) as <-; [|done]. rewrite Hout, E1, HH, HUH, Z.sub_diag. done.
Qed.

(** The PDUs with a number above all before them. *)
Fixpoint newer (h : Z) (pdus : list UmPdu) : list UmPdu :=
  match pdus with
  | [] => []
  | p :: ps => if decide (h <= pduSequenceNumber p) then p :: newer (pduSequenceNumber p + 1) ps else newer h ps
  end.

Lemma multi_run NOW pdus e :
  no_gap e -> W e = 1 -> Forall (fun p => pduSequenceNumber p < 2 ^ 30) pdus ->
  exists e1, hands (fun e => rx_run e (map (RxPdu NOW) pdus)) e (newer (H e) pdus) e1 /\ no_gap e1.
Proof.
  intros Hg HW Hev. revert e Hg HW. induction Hev as [|p pdus Hp Hpdus IH]; intros e Hg HW.
  - exists e. split; [by apply hands_nil|done].
  - destruct (multi_step e NOW p Hg HW Hp) as (e1 & Hg1 & HW1 & Hstep).
    destruct (IH e1 Hg1 HW1) as (e2 & Hh2 & Hg2). exists e2. split; [|done].
    assert (Hbind : forall out1, hands (fun e => enque e NOW p) e out1 e1 ->
      hands (fun e => rx_run e (map (RxPdu NOW) (p :: pdus))) e (out1 ++ newer (H e1) pdus) e2).
    { intros out1 Hh1. refine (hands_bind (fun e => enque e NOW p) _ e _ e1 _ e2 Hh1 _). intros r eff.
      transitivity (let! (e, eff') := rx_run (e1 <| reasm := r |>) (map (RxPdu NOW) pdus) in Ok (e, eff ++ eff'));
        [done|].
      specialize (Hh2 r). cbn beta in Hh2. rewrite Hh2. by destruct (reassemble_pdus r _) as [[]| |]. }
    cbn [newer]. destruct (decide (H e <= pduSequenceNumber p)); destruct Hstep as [Hh1 HH].
    + specialize (Hbind _ Hh1). by rewrite HH in Hbind.
    + specialize (Hbind _ Hh1). by rewrite HH in Hbind.
Qed.

(** D2D multicast does not wait: the first PDU received opens the window at its
    number, and from then on every PDU newer than all before is reassembled on its
    arrival, older ones are dropped, and the reordering timer is never left running. *)
Theorem multicast_immediate (rxWindowSize timeout NOW : Z) (ue : bool) (p0 : UmPdu) (pdus : list UmPdu) :
  1 <= rxWindowSize -> 0 <= pduSequenceNumber p0 ->
  Forall (fun p => pduSequenceNumber p < 2 ^ 30) (p0 :: pdus) ->
  exists e1,
    yields (rx_run (new_UmRxEntity rxWindowSize timeout true ue) (map (RxPdu NOW) (p0 :: pdus)))
      new_UmReassembly (newer (pduSequenceNumber p0) (p0 :: pdus)) e1 /\
    busy_ (t_reordering_ e1) = false.
Proof.
  intros Hw Hp0 Hev. pose proof Hev as [Hlt _]%Forall_cons.
  destruct (multi_from_ok rxWindowSize timeout ue (pduSequenceNumber p0)) as [Hok Hs]; [done|lia|].
  set (e0 := multi_from rxWindowSize timeout ue (pduSequenceNumber p0)) in *.
  destruct (multi_run NOW (p0 :: pdus) e0) as (e1 & Hh & Hg1); [done|done|done|].
  exists e1. split.
  - specialize (Hh new_UmReassembly). exact Hh.
  - destruct Hg1 as (_ & [-> _] & E & _). apply bool_decide_eq_false_2. lia.
Qed.
End Reorder.
