(* ===== verification/RlcEndToEnd.v ===== *)
(** * RLC unacknowledged mode, end to end

    A transmitting entity, a channel that loses, duplicates and reorders its PDUs, and
    a receiving entity with its reordering window; and what the two do on concrete
    traffic. *)

From S2P Require Import Prelude TTimer RlcUm RlcUmProps RlcWindow RlcWindowFacts RlcWindowProps RlcReorder.
From Stdlib Require Import Sorted.

(** ** The PDUs a transmitter makes *)

Fixpoint um_pdus (t : UmTxEntity) (evs : list um_event) : result (UmTxEntity * list UmPdu) :=
  match evs with
  | [] => Ok (t, [])
  | EvSdu s :: evs' => um_pdus (tx_enque t s).2 evs'
  | EvGrant n _ :: evs' =>
      let! (t, effs) := rlcPduMake t n in
      let! (t, pdus) := um_pdus t evs' in
      Ok (t, option_list (pdu_of effs) ++ pdus)
  end.

(** The same events, where exactly the PDUs that fail [keep] are lost. *)
Fixpoint relabel (keep : UmPdu -> bool) (t : UmTxEntity) (evs : list um_event) : list um_event :=
  match evs with
  | [] => []
  | EvSdu s :: evs' => EvSdu s :: relabel keep (tx_enque t s).2 evs'
  | EvGrant n _ :: evs' =>
      match rlcPduMake t n with
      | Ok (t', effs) =>
          EvGrant n (match pdu_of effs with Some pdu => negb (keep pdu) | None => false end)
            :: relabel keep t' evs'
      | _ => []
      end
  end.

Lemma relabel_sdus keep t evs :
  Forall sdu_ok (event_sdus evs) -> tx_ok t -> event_sdus (relabel keep t evs) = event_sdus evs.
Proof.
  revert t. induction evs as [|[s|n l] evs IH]; intros t Hok Ht; simpl; [done|..].
  - apply Forall_cons in Hok as [Hs Hok]. cbn. f_equal. apply IH; [done|]. by apply tx_enque_ok.
  - destruct (rlcPduMake_spec t n Ht) as (t' & effs & l' & e & -> & Ht' & _). cbn. by apply IH.
Qed.

(** The PDUs are numbered in the order they are made. *)
Lemma um_pdus_spec t evs :
  Forall sdu_ok (event_sdus evs) -> tx_ok t -> 0 <= sno_ t -> sno_ t + vsize evs < 2 ^ 32 ->
  exists t' pdus, um_pdus t evs = Ok (t', pdus) /\ StronglySorted sno_lt pdus /\
    Forall (fun p => sno_ t <= pduSequenceNumber p < sno_ t + vsize evs) pdus.
Proof.
  revert t. induction evs as [|[s|n l] evs IH]; intros t Hok Ht Hs Hlen; simpl in Hlen |- *.
  - exists t, []. split; [done|]. split; constructor.
  - apply Forall_cons in Hok as [Hsdu Hok].
    assert (E : sno_ (tx_enque t s).2 = sno_ t) by (unfold tx_enque; by destruct (_ || _)).
    destruct (IH (tx_enque t s).2) as (t' & pdus & Hrun & Hsort & Hr); [done|by apply tx_enque_ok|lia|lia|].
    exists t', pdus. split; [done|]. split; [done|]. eapply Forall_impl; [exact Hr|]. simpl. lia.
  - destruct (rlcPduMake_spec t n Ht) as (t1 & effs & l' & e & Hmake & Ht1 & _ & Hsno & Hpdu).
    rewrite Hmake. cbn [rbind]. destruct (bool_decide (l' = [])) eqn:El.
    + destruct (IH t1) as (t' & pdus & Hrun & Hsort & Hr); [done|done|lia|lia|]. rewrite Hrun, Hpdu.
      cbn. exists t', pdus. split; [done|]. split; [done|]. eapply Forall_impl; [exact Hr|]. simpl. lia.
    + rewrite wrap_small in Hsno by (unfold is_uint; lia).
      destruct (IH t1) as (t' & pdus & Hrun & Hsort & Hr); [done|done|lia|lia|]. rewrite Hrun, Hpdu.
      cbn. eexists t', (_ :: pdus). split; [done|]. split; constructor; try done.
      * eapply Forall_impl; [exact Hr|]. unfold sno_lt. simpl. lia.
      * simpl. lia.
      * eapply Forall_impl; [exact Hr|]. simpl. lia.
Qed.

(** A run that loses what fails [keep] reassembles exactly the PDUs that are kept. *)
Lemma um_run_relabel keep evs st t' pdus st' :
  um_pdus (link_tx st) evs = Ok (t', pdus) ->
  um_run st (relabel keep (link_tx st) evs) = Ok st' ->
  exists eff, reassemble_pdus (link_rx st) (List.filter keep pdus) = Ok (link_rx st', eff) /\
    received st' = received st ++ delivered eff.
Proof.
  revert st pdus. induction evs as [|[s|n l] evs IH]; intros st pdus Hp Hrun; simpl in Hp, Hrun.
  - injection Hp as _ <-. injection Hrun as <-. exists []. simpl. by rewrite app_nil_r.
  - destruct (tx_enque (link_tx st) s) as [ok t] eqn:E. cbn in Hp, Hrun.
    by apply (IH {| link_tx := t; link_rx := link_rx st;
      accepted := if ok then accepted st ++ [s] else accepted st; received := received st |}).
  - destruct (rlcPduMake (link_tx st) n) as [[t effs]| |] eqn:E; cbn [rbind] in Hp; [|done..].
    cbn [um_run um_step] in Hrun. rewrite E in Hrun. cbn [rbind] in Hrun.
    destruct (um_pdus t evs) as [[t2 pdus2]| |] eqn:E2; cbn [rbind] in Hp; [|done..].
    injection Hp as -> <-. destruct (pdu_of effs) as [pdu|]; [|change (option_list None ++ pdus2) with pdus2].
    + change (List.filter keep (option_list (Some pdu) ++ pdus2)) with
        (if keep pdu then pdu :: List.filter keep pdus2 else List.filter keep pdus2).
      destruct (keep pdu); cbn [negb] in Hrun.
      * cbn [reassemble_pdus].
        destruct (reassemble_pdu (link_rx st) pdu) as [[r e]| |]; cbn [rbind] in Hrun |- *; [|done..].
        match type of Hrun with um_run ?s _ = _ => destruct (IH s pdus2 E2 Hrun) as (eff & Hr & Hrec) end. cbn in Hr, Hrec. rewrite Hr. cbn [rbind].
        exists (e ++ eff). split; [done|]. by rewrite Hrec, delivered_app, app_assoc.
      * cbn [rbind] in Hrun. match type of Hrun with um_run ?s _ = _ => destruct (IH s pdus2 E2 Hrun) as (eff & Hr & Hrec) end. by exists eff.
    + cbn [rbind] in Hrun. match type of Hrun with um_run ?s _ = _ => destruct (IH s pdus2 E2 Hrun) as (eff & Hr & Hrec) end. by exists eff.
Qed.

(** What comes out in increasing order, all of it from the PDUs sent, is what is left
    of these when the others are lost. *)
Lemma sorted_out_filter (sent out : list UmPdu) :
  StronglySorted sno_lt sent -> StronglySorted sno_lt out -> (forall p, p ∈ out -> p ∈ sent) ->
  List.filter (fun p => bool_decide (p ∈ out)) sent = out.
Proof.
  intros Hs. revert out. induction Hs as [|p sent Hs IH Hp]; intros out Ho Hin.
  - destruct out as [|q out]; [done|]. exfalso. apply (not_elem_of_nil q), Hin. by left.
  - assert (Hlater : forall q, q ∈ sent -> sno_lt p q) by (by apply Forall_forall).
    cbn [List.filter]. destruct Ho as [|q out Ho Hq].
    + rewrite bool_decide_eq_false_2 by apply not_elem_of_nil. apply IH; [constructor|].
      intros x Hx. by apply not_elem_of_nil in Hx.
    + assert (Hq' : forall x, x ∈ out -> sno_lt q x) by (by apply Forall_forall).
      destruct (decide (q = p)) as [->|Hne].
      * rewrite bool_decide_eq_true_2 by (by left). f_equal.
        transitivity (List.filter (fun x => bool_decide (x ∈ out)) sent); [|apply IH; [done|]].
        -- apply filter_ext_in. intros x Hx%list_elem_of_In. apply bool_decide_ext.
           rewrite elem_of_cons. apply Hlater in Hx. unfold sno_lt in Hx.
           split; [intros [->|?]; [lia|done]|by right].
        -- intros x Hx. pose proof (Hin x (proj2 (elem_of_cons _ _ _) (or_intror Hx))) as [Hx1|Hx1]%elem_of_cons; [subst x|done].
           apply Hq' in Hx. unfold sno_lt in Hx. lia.
      * assert (Hpout : p ∉ q :: out).
        { intros [->|Hp']%elem_of_cons; [done|]. apply Hq' in Hp'.
          pose proof (Hin q (proj2 (elem_of_cons _ _ _) (or_introl eq_refl))) as [Hqs|Hqs]%elem_of_cons; [done|]. apply Hlater in Hqs.
          unfold sno_lt in *. lia. }
        rewrite bool_decide_eq_false_2 by done. apply IH; [by constructor|].
        intros x Hx. pose proof (Hin x Hx) as [->|?]%elem_of_cons; done.
Qed.

(** The SDUs accepted are among those that came from PDCP, in order. *)
Lemma accepted_sublist evs st st' :
  um_run st evs = Ok st' -> accepted st' `sublist_of` accepted st ++ event_sdus evs.
Proof.
  revert st. induction evs as [|[s|n l] evs IH]; intros st Hrun; cbn [um_run um_step] in Hrun.
  - injection Hrun as <-. by rewrite app_nil_r.
  - destruct (tx_enque (link_tx st) s) as [ok t]. cbn [rbind] in Hrun. apply IH in Hrun. cbn in Hrun |- *.
    etransitivity; [exact Hrun|]. destruct ok.
    + by rewrite <- app_assoc.
    + apply sublist_app; [done|]. by apply sublist_cons.
  - apply rbind_Ok_inv in Hrun as (st1 & Hs & Hrun). apply IH in Hrun.
    assert (accepted st1 = accepted st) as E; [|by rewrite E in Hrun].
    apply rbind_Ok_inv in Hs as ([t effs] & _ & Hs). destruct (pdu_of effs); [|by injection Hs as <-].
    destruct l; [by injection Hs as <-|]. by apply rbind_Ok_inv in Hs as ([r e] & _ & [= <-]).
Qed.

Section EndToEnd.
Context {A : Type} {C : CArray UmPdu A} {L : CArrayLaws UmPdu A}.

(** One connection, from its SDUs to what its receiver delivers. *)
Lemma um_connection (queueSize rxWindowSize timeout : Z) (ue : bool) (sends : list um_event)
    (evs : list rx_event) :
  Forall sdu_ok (event_sdus sends) -> NoDup (map snoMainPacket (event_sdus sends)) ->
  vsize sends < 2 ^ 30 -> 1 <= rxWindowSize <= 2 ^ 30 ->
  exists t pdus, um_pdus (new_UmTxEntity queueSize) sends = Ok (t, pdus) /\
    ((forall p, p ∈ arrivals evs -> p ∈ pdus) ->
     exists (e : UmRxEntity A) eff,
       rx_run (new_UmRxEntity rxWindowSize timeout false ue) evs = Ok (e, eff) /\
       delivered eff `sublist_of` event_sdus sends).
Proof.
  intros Hok Hnd Hlen Hw.
  destruct (um_pdus_spec (new_UmTxEntity queueSize) sends) as (t & pdus & Hp & Hsort & Hr);
    [done|apply new_tx_ok|done|cbn; lia|].
  exists t, pdus. split; [done|]. intros Harr.
  assert (Hev : Forall fits_event evs).
  { apply Forall_forall. intros [NOW p|NOW] Hin; [|done]. simpl.
    assert (Hpp : p ∈ pdus). { apply Harr. apply list_elem_of_omap. by exists (RxPdu NOW p). }
    rewrite Forall_forall in Hr. apply Hr in Hpp. cbn in Hpp. lia. }
  destruct (new_run rxWindowSize timeout ue evs Hw Hev) as (e1 & out & Hy & Hran & _).
  set (keep := fun p => bool_decide (p ∈ out)).
  assert (Hout : List.filter keep pdus = out).
  { apply sorted_out_filter; [done|exact (rn_sorted _ _ _ _ Hran)|].
    intros p Hp'. apply Harr. eapply new_run_from; [exact Hran|by left]. }
  pose proof (relabel_sdus keep (new_UmTxEntity queueSize) sends Hok (new_tx_ok _)) as Hsdus.
  destruct (um_lossy_run queueSize (relabel keep (new_UmTxEntity queueSize) sends))
    as (st & popped & Hrun & Hacc & Hsub); [by rewrite Hsdus..|].
  destruct (um_run_relabel keep sends (new_link queueSize) t pdus st Hp Hrun) as (eff & Hre & Hrec).
  rewrite Hout in Hre. change (link_rx (new_link queueSize)) with new_UmReassembly in Hre.
  unfold yields in Hy. rewrite Hre in Hy. cbn [rbind] in Hy.
  eexists _, eff. split; [exact Hy|].
  apply accepted_sublist in Hrun. rewrite Hsdus in Hrun. cbn in Hrun, Hrec. rewrite Hrec in Hsub.
  etransitivity; [exact Hsub|]. etransitivity; [|exact Hrun]. rewrite Hacc.
  by apply sublist_inserts_r.
Qed.

(** C4. RLC UM end to end: SDUs with distinct numbers are queued, cut into PDUs of
    whatever sizes the MAC grants, and the PDUs reach the receiver in any order, with
    losses and duplicates, while its reordering timer expires at any moments.  Neither
    side ever fails, and PDCP receives a subsequence of the SDUs: each at most once,
    in order, and only complete ones. *)
Theorem um_end_to_end (queueSize rxWindowSize timeout : Z) (ue : bool) (sends : list um_event)
    (evs : list rx_event) :
  Forall sdu_ok (event_sdus sends) -> NoDup (map snoMainPacket (event_sdus sends)) ->
  vsize sends < 2 ^ 30 -> 1 <= rxWindowSize <= 2 ^ 30 ->
  exists t pdus, um_pdus (new_UmTxEntity queueSize) sends = Ok (t, pdus) /\
    ((forall p, p ∈ arrivals evs -> p ∈ pdus) ->
     exists (e : UmRxEntity A) eff,
       rx_run (new_UmRxEntity rxWindowSize timeout false ue) evs = Ok (e, eff) /\
       delivered eff `sublist_of` event_sdus sends).
Proof. apply um_connection. Qed.
End EndToEnd.

(** ** Concrete runs, with [gmap] as the buffer *)

Abbreviation entity := (UmRxEntity (gmap Z UmPdu)).

Definition whole_pdu (sn : Z) : UmPdu :=
  {| pduSequenceNumber := sn; framingInfo := 0;
     sduList := [({| sdu_ptr := sn; snoMainPacket := sn; lengthMainPacket := 10; sdu_bytes := 12 |}, 10)];
     chunkBytes := 14 |}.

Definition run_out (e : entity) (evs : list rx_event) : option (list Z) :=
  match rx_run e evs with Ok (_, eff) => Some (map snoMainPacket (delivered eff)) | _ => None end.

(** The window moves further than 3GPP TS 36.322 asks for: with the default 16
    numbers, after PDU 0 the arrival of PDU 16 gives up PDUs 1 to 15, which a window of
    16 below the highest number still contains; arriving next, they are dropped. *)
Theorem window_overshoots :
  run_out (new_UmRxEntity 16 1000 false true) (map (RxPdu 0) (map whole_pdu (0 :: 16 :: seqZ 1 15))) =
    Some [0; 16] /\
  run_out (new_UmRxEntity 16 1000 false true) (map (RxPdu 0) (map whole_pdu (0 :: 15 :: seqZ 1 14))) =
    Some (seqZ 0 16).
Proof. split; vm_compute; reflexivity. Qed.

(** The entity of the old connection keeps PDU 1 over a mode switch that does not clear
    the buffers, and restarts its numbers when the connection returns to it. *)
Definition switched_back (clear' : bool) : result (entity * list umrx_effect) :=
  let! (e, _) := enque (new_UmRxEntity 16 1000 false false) 0 (whole_pdu 1) in
  let! (e, _) := rx_rlcHandleD2DModeSwitch e true true clear' in
  let! (e, _) := rx_rlcHandleD2DModeSwitch e false true clear' in
  let! (e, _) := enque e 0 (whole_pdu 0) in
  enque e 0 (whole_pdu 1).

(** A mode switch without clearing is not safe: the restarted window still holds
    the old PDU, and a new one with the same number makes the buffer fail; with
    clearing the same traffic is received. *)
Theorem mode_switch_stale_pdu :
  switched_back false = Throw "cArray: position already used" /\
  (exists e eff, switched_back true = Ok (e, eff) /\ map snoMainPacket (delivered eff) = [1]).
Proof.
  split; [vm_compute; reflexivity|].
  destruct (switched_back true) as [[e eff]| |] eqn:E; [|by vm_compute in E..].
  exists e, eff. split; [done|]. vm_compute in E. injection E as <- <-. vm_compute. reflexivity.
Qed.

(** ** The properties of the window at concrete traffic *)

Definition demo_arrivals : list rx_event :=
  [RxPdu 0 (whole_pdu 1); RxPdu 1 (whole_pdu 0); RxPdu 2 (whole_pdu 1); RxPdu 3 (whole_pdu 3); RxTimer 4;
   RxPdu 5 (whole_pdu 2)].

Definition new16 : entity := new_UmRxEntity 16 1000 false true.

Lemma rx_in_order_once_witness :
  exists (e1 : entity) out,
    yields (rx_run new16 demo_arrivals) new_UmReassembly out e1 /\
    StronglySorted sno_lt out /\ (forall p, p ∈ out -> p ∈ arrivals demo_arrivals) /\
    0 <= firstSno_ (rxWindowDesc_ e1) <= firstSnoForReordering_ (rxWindowDesc_ e1) /\
    firstSnoForReordering_ (rxWindowDesc_ e1) <= highestReceivedSno_ (rxWindowDesc_ e1)
      <= firstSno_ (rxWindowDesc_ e1) + 16 /\
    busy_ (t_reordering_ e1) =
      bool_decide (firstSnoForReordering_ (rxWindowDesc_ e1) < highestReceivedSno_ (rxWindowDesc_ e1)).
Proof.
  apply (rx_in_order_once 16 1000 true demo_arrivals); [split; discriminate|].
  repeat constructor.
Defined.

Lemma rx_no_pdu_lost_witness :
  exists (e1 : entity) out, yields (rx_run new16 [RxPdu 0 (whole_pdu 1); RxPdu 1 (whole_pdu 0)]) new_UmReassembly out e1 /\
    (whole_pdu 1 ∈ out \/
     store e1 1 = Some (whole_pdu 1) /\ busy_ (t_reordering_ e1) = true).
Proof.
  refine (rx_no_pdu_lost 16 1000 0 true [] [RxPdu 1 (whole_pdu 0)] (whole_pdu 1) new16 [] _ _ eq_refl _ _);
    [split; discriminate|repeat constructor|discriminate|reflexivity].
Defined.

Lemma rx_in_order_transparent_witness :
  exists e1 : entity,
    yields (rx_run new16 (map (RxPdu 0) [whole_pdu 0; whole_pdu 1])) new_UmReassembly [whole_pdu 0; whole_pdu 1] e1 /\
    busy_ (t_reordering_ e1) = false.
Proof.
  apply (rx_in_order_transparent 16 1000 0 true [whole_pdu 0; whole_pdu 1]);
    [split; discriminate|discriminate|].
  intros [|[|[|i]]] p Hp; cbn in Hp; try discriminate Hp; injection Hp as <-; reflexivity.
Defined.

(** An entity that waits for PDU 0. *)
Definition waiting : entity := match rx_run new16 [RxPdu 0 (whole_pdu 1)] with Ok (e, _) => e | _ => new16 end.

Lemma waiting_ok : rx_ok waiting.
Proof.
  destruct (new_run (A := gmap Z UmPdu) 16 1000 true [RxPdu 0 (whole_pdu 1)]) as (e1 & out & Hy & Hr & _);
    [split; discriminate|repeat constructor|].
  assert (E : waiting = e1 <| reasm := reasm waiting |>).
  { unfold waiting. unfold yields in Hy. change (new_UmRxEntity 16 1000 false true) with new16 in Hy. rewrite Hy.
    destruct (reassemble_pdus new_UmReassembly out) as [[r eff]| |] eqn:E; [done|exfalso..];
      cbn [rbind] in Hy; by vm_compute in Hy. }
  rewrite E. destruct (rn_ok _ _ _ _ Hr) as [[] ? ? ?]. split; [by split|done..].
Qed.

Lemma t_reordering_ends_wait_witness :
  exists (e1 : entity) out, yields (rx_handleMessage waiting 1000) (reasm waiting) out e1 /\ rx_ok e1 /\
    0 < 2 <= firstSnoForReordering_ (rxWindowDesc_ e1) /\
    (forall sn p, store waiting sn = Some p -> sn < 2 -> p ∈ out) /\
    busy_ (t_reordering_ e1) =
      bool_decide (firstSnoForReordering_ (rxWindowDesc_ e1) < highestReceivedSno_ (rxWindowDesc_ e1)).
Proof. exact (t_reordering_ends_wait waiting 1000 waiting_ok eq_refl). Defined.

Lemma mode_switch_clears_witness :
  exists (e1 : entity) out,
    rx_rlcHandleD2DModeSwitch waiting true false true =
      (let! (r, eff) := reassemble_pdus (reasm waiting) out in
       Ok (e1 <| reasm := r <| buffered_ := None |> |>, eff)) /\
    StronglySorted sno_lt out /\ (forall sn p, store waiting sn = Some p -> p ∈ out) /\
    busy_ (t_reordering_ e1) = false /\
    forall r, exists e2, rx_rlcHandleD2DModeSwitch (e1 <| reasm := r |>) false true true = Ok (e2, []) /\
      restarted e2.
Proof. exact (mode_switch_clears waiting false true true waiting_ok eq_refl). Defined.

Lemma multicast_immediate_witness :
  exists e1 : entity,
    yields (rx_run (new_UmRxEntity 16 1000 true true) (map (RxPdu 0) [whole_pdu 7; whole_pdu 9; whole_pdu 8]))
      new_UmReassembly [whole_pdu 7; whole_pdu 9] e1 /\
    busy_ (t_reordering_ e1) = false.
Proof.
  apply (multicast_immediate 16 1000 0 true (whole_pdu 7) [whole_pdu 9; whole_pdu 8]);
    [discriminate|discriminate|repeat constructor].
Defined.

Definition demo_sends : list um_event :=
  [EvSdu (demo_sdu 0 100); EvSdu (demo_sdu 1 40); EvGrant 62 false; EvGrant 92 false].

Lemma um_end_to_end_witness :
  exists t pdus, um_pdus (new_UmTxEntity 0) demo_sends = Ok (t, pdus) /\
    ((forall p, p ∈ arrivals [RxTimer 0] -> p ∈ pdus) ->
     exists (e : entity) eff,
       rx_run new16 [RxTimer 0] = Ok (e, eff) /\ delivered eff `sublist_of` event_sdus demo_sends).
Proof.
  refine (um_end_to_end 0 16 1000 true demo_sends [RxTimer 0] _ _ _ _);
    [repeat constructor|apply (bool_decide_unpack _); vm_compute; exact I|reflexivity|split; discriminate].
Defined.
