(* ===== verification/RlcAm.v ===== *)
(** * RLC acknowledged mode: the transmitting queue

    [AmTxQueue] (src/simulte/src/stack/rlc/am/buffer/AmTxQueue.cc) cuts SDUs into PDUs of one
    size, keeps those of its window until the receiver has acknowledged them, sends them
    again when their timer expires, gives an SDU up after too many attempts, and asks the
    receiver to move its window (MRW).  The PDUs are those of packet/LteRlcAmPdu.cc.

    The data of a packet is a list of slices (SDU, offset, length): [peekDataAt] cuts a
    slice, [insertAtBack] joins a slice to one that it continues.  The arrays are the
    kernel's [cArray], of which this code also uses [add] and [size]. *)

From S2P Require Import Prelude LteCommon TTimer RlcWindow.
#[local] Open Scope Z_scope.

(** ** PDUs *)

Inductive LteAmType := DATA | ACK | MRW | MRW_ACK.

#[export] Instance amtype_eq_dec : EqDecision LteAmType.
Proof. solve_decision. Defined.

(** An SDU of the queue: a packet with its [LteRlcAmSdu] header in front, which carries
    [snoMainPacket]; [as_bytes] is the length of both. *)
Record AmSdu := { as_ptr : Z; as_sno : Z; as_bytes : Z; as_info : FlowControlInfo }.

Record LteRlcAmPdu := {
  amType : LteAmType;
  txNumber : Z;
  firstSn : Z;
  lastSn : Z;
  bitmap_ : list bool;
  totalFragments : Z;
  snoFragment : Z;
  pduSnoMainPacket : Z;
  chunkBits : Z
}.

#[export] Instance ampdu_eta : Eta LteRlcAmPdu := fun p =>
  {| amType := amType p; txNumber := txNumber p; firstSn := firstSn p; lastSn := lastSn p; bitmap_ := bitmap_ p;
     totalFragments := totalFragments p; snoFragment := snoFragment p; pduSnoMainPacket := pduSnoMainPacket p;
     chunkBits := chunkBits p |}.

(** A new PDU: the chunk has one byte until its length is set. *)
Definition new_LteRlcAmPdu (type : LteAmType) : LteRlcAmPdu :=
  {| amType := type; txNumber := 0; firstSn := 0; lastSn := 0; bitmap_ := []; totalFragments := 0; snoFragment := 0;
     pduSnoMainPacket := 0; chunkBits := 8 |}.

(** [firstSn] and [lastSn] are signed, [snoFragment] is not. *)
Definition isWhole (p : LteRlcAmPdu) : bool := firstSn p =? lastSn p.
Definition isFirst (p : LteRlcAmPdu) : bool := uint32 (firstSn p) =? snoFragment p.
Definition isLast (p : LteRlcAmPdu) : bool := uint32 (lastSn p) =? snoFragment p.

Abbreviation slice := (AmSdu * Z * Z)%type.

(** A packet: the PDU at its front, the data behind it, its tag. *)
Record AmPacket := { am_pdu : LteRlcAmPdu; am_data : list slice; am_tag : FlowControlInfo }.

#[export] Instance ampacket_eta : Eta AmPacket := fun p => {| am_pdu := am_pdu p; am_data := am_data p; am_tag := am_tag p |}.

Definition data_bytes (l : list slice) : Z := foldr (fun (x : slice) n => x.2 + n) 0 l.

(** [getByteLength]: whole bytes that hold the bits. *)
Definition am_getByteLength (p : AmPacket) : Z := (chunkBits (am_pdu p) + 8 * data_bytes (am_data p) + 7) / 8.

(** ** The array *)

(** [add] takes the first free index, [size] is the last used index and one. *)
Class CArrayAdd (X A : Type) {C : CArray X A} := {
  arr_add : A -> X -> A;
  arr_size : A -> Z
}.

Class CArrayAddLaws (X A : Type) {C : CArray X A} {D : CArrayAdd X A} := {
  arr_add_free a x i : 0 <= i -> arr_get a i = None -> (forall j, 0 <= j < i -> arr_get a j <> None) ->
    forall j, arr_get (arr_add a x) j = if decide (j = i) then Some x else arr_get a j;
  arr_size_bound a i : arr_get a i <> None -> i < arr_size a
}.

(** [check_and_cast<Packet *>(array.get(i))]. *)
Definition packet_at {X A} {C : CArray X A} (a : A) (i : Z) : result X :=
  match arr_get a i with Some p => Ok p | None => Throw "check_and_cast(): Cannot cast nullptr" end.

(** [vector<bool>::at] and its assignment. *)
Definition flag_at (l : list bool) (i : Z) : result bool :=
  match vget l i with Some b => Ok b | None => Throw out_of_range end.
Definition set_flag (l : list bool) (i : Z) (b : bool) : result (list bool) :=
  match vset l i b with Some l => Ok l | None => Throw out_of_range end.

(** ** Descriptors (LteRlcDefs.h) *)

Record RlcFragDesc := { sduSize_ : Z; fragUnit_ : Z; totalFragments_ : Z; fragCounter_ : Z; firstSn_ : Z }.
#[export] Instance fragdesc_eta : Eta RlcFragDesc := fun d =>
  {| sduSize_ := sduSize_ d; fragUnit_ := fragUnit_ d; totalFragments_ := totalFragments_ d; fragCounter_ := fragCounter_ d;
     firstSn_ := firstSn_ d |}.

(** [ceil((double) bytes / (double) unit)], exact for lengths below 2^53; a unit of 0 makes
    the conversion of infinity to [int] undefined. *)
Definition ceil_div (bytes unit : Z) : result Z := if unit <=? 0 then UB else Ok ((bytes + unit - 1) / unit).

Definition resetFragmentation (d : RlcFragDesc) : RlcFragDesc :=
  {| sduSize_ := 0; fragUnit_ := fragUnit_ d; totalFragments_ := 0; fragCounter_ := 0; firstSn_ := 0 |}.
Definition startFragmentation (d : RlcFragDesc) (sduSize firstFragment : Z) : result RlcFragDesc :=
  let! n := ceil_div sduSize (fragUnit_ d) in
  Ok (d <| totalFragments_ := n |> <| fragCounter_ := 0 |> <| firstSn_ := int32 firstFragment |>).
Definition addFragment (d : RlcFragDesc) : bool * RlcFragDesc :=
  let d := d <| fragCounter_ := fragCounter_ d + 1 |> in (totalFragments_ d <=? fragCounter_ d, d).

Record RlcWindowDesc := { firstSeqNum_ : Z; seqNum_ : Z; windowSize_ : Z }.
#[export] Instance windowdesc_eta : Eta RlcWindowDesc := fun w =>
  {| firstSeqNum_ := firstSeqNum_ w; seqNum_ := seqNum_ w; windowSize_ := windowSize_ w |}.
Definition new_RlcWindowDesc (size : Z) : RlcWindowDesc := {| firstSeqNum_ := 0; seqNum_ := 0; windowSize_ := uint32 size |}.

(** [seqNum_ - firstSeqNum_]. *)
Definition in_window (w : RlcWindowDesc) : Z := uint32 (seqNum_ w - firstSeqNum_ w).

Record MrwDesc := { mrwSeqNum_ : Z; lastMrw_ : Z }.
#[export] Instance mrwdesc_eta : Eta MrwDesc := fun d => {| mrwSeqNum_ := mrwSeqNum_ d; lastMrw_ := lastMrw_ d |}.

(** ** AmTxQueue *)

Section TxQueue.
Context {A : Type} {C : CArray AmPacket A} {D : CArrayAdd AmPacket A}.

Record AmTxQueue := {
  currentSdu_ : option AmSdu;
  fragmentList_ : option (list AmPacket);
  txWindowIndexList_ : list Z;
  fragDesc_ : RlcFragDesc;
  lteInfo_ : option FlowControlInfo;
  amSduQueue_ : list AmSdu;
  pduRtxQueue_ : A;
  mrwRtxQueue_ : A;
  txPduBuffer_ : list AmPacket;
  txReceived_ : list bool;
  txDiscarded_ : list bool;
  txWindowDesc_ : RlcWindowDesc;
  mrwDesc_ : MrwDesc;
  pduTimer_ : TMultiTimer;
  mrwTimer_ : TMultiTimer;
  bufferStatusTimer_ : TTimer;
  maxRtx_ : Z;
  pduRtxTimeout_ : Z;
  ctrlPduRtxTimeout_ : Z;
  bufferStatusTimeout_ : Z
}.

#[export] Instance amtx_eta : Eta AmTxQueue := fun t =>
  {| currentSdu_ := currentSdu_ t; fragmentList_ := fragmentList_ t; txWindowIndexList_ := txWindowIndexList_ t;
     fragDesc_ := fragDesc_ t; lteInfo_ := lteInfo_ t; amSduQueue_ := amSduQueue_ t; pduRtxQueue_ := pduRtxQueue_ t;
     mrwRtxQueue_ := mrwRtxQueue_ t; txPduBuffer_ := txPduBuffer_ t; txReceived_ := txReceived_ t;
     txDiscarded_ := txDiscarded_ t; txWindowDesc_ := txWindowDesc_ t; mrwDesc_ := mrwDesc_ t; pduTimer_ := pduTimer_ t;
     mrwTimer_ := mrwTimer_ t; bufferStatusTimer_ := bufferStatusTimer_ t; maxRtx_ := maxRtx_ t;
     pduRtxTimeout_ := pduRtxTimeout_ t; ctrlPduRtxTimeout_ := ctrlPduRtxTimeout_ t;
     bufferStatusTimeout_ := bufferStatusTimeout_ t |}.

(** The constructor and [initialize]: fragment size, most retransmissions, timeouts, window. *)
Definition new_AmTxQueue (fragmentSize maxRtx pduRtxTimeout ctrlPduRtxTimeout bufferStatusTimeout txWindowSize : Z) : AmTxQueue :=
  {| currentSdu_ := None; fragmentList_ := None; txWindowIndexList_ := [];
     fragDesc_ := {| sduSize_ := 0; fragUnit_ := fragmentSize; totalFragments_ := 0; fragCounter_ := 0; firstSn_ := 0 |};
     lteInfo_ := None; amSduQueue_ := []; pduRtxQueue_ := arr_new; mrwRtxQueue_ := arr_new; txPduBuffer_ := [];
     txReceived_ := replicate (Z.to_nat (uint32 txWindowSize)) false;
     txDiscarded_ := replicate (Z.to_nat (uint32 (uint32 txWindowSize + 1))) false;
     txWindowDesc_ := new_RlcWindowDesc txWindowSize; mrwDesc_ := {| mrwSeqNum_ := 0; lastMrw_ := 0 |};
     pduTimer_ := new_TMultiTimer; mrwTimer_ := new_TMultiTimer; bufferStatusTimer_ := new_TTimer;
     maxRtx_ := maxRtx; pduRtxTimeout_ := pduRtxTimeout; ctrlPduRtxTimeout_ := ctrlPduRtxTimeout;
     bufferStatusTimeout_ := bufferStatusTimeout |}.

(** What the queue asks [LteRlcAm] to do: [indicateNewDataToMac] and [sendFragmented]. *)
Inductive amtx_effect :=
| AmNewData (pkt : AmPacket)
| AmSendFragmented (pkt : AmPacket).

(** [txWindowDesc_.firstSeqNum_] and the index of a sequence number in the window. *)
Abbreviation tx_first t := (firstSeqNum_ (txWindowDesc_ t)).
Abbreviation tx_seq t := (seqNum_ (txWindowDesc_ t)).
Abbreviation tx_size t := (windowSize_ (txWindowDesc_ t)).
Definition tx_index (t : AmTxQueue) (sn : Z) : Z := int32 (sn - tx_first t).

Definition bufferPdu (t : AmTxQueue) (pkt : AmPacket) : AmTxQueue * list amtx_effect :=
  let needToTriggerMac := match txPduBuffer_ t with [] => true | _ => false end in
  (t <| txPduBuffer_ := txPduBuffer_ t ++ [pkt] |>, if needToTriggerMac : bool then [AmNewData pkt] else []).

Definition bufferControlPdu := bufferPdu.

(** [if (pduTimer_.busy(sn)) pduTimer_.remove(sn)]. *)
Definition stop_pdu_timer (t : AmTxQueue) (sn : Z) : result AmTxQueue :=
  let sn := uint32 sn in
  if multi_busy (pduTimer_ t) sn then let! m := multi_remove (pduTimer_ t) sn in Ok (t <| pduTimer_ := m |>) else Ok t.

(** ** Fragmentation *)

(** The PDU of fragment [i] of [n], and the packet it is put in front of. *)
Definition frag_pdu (frame : AmSdu) (desc : RlcFragDesc) (seqNum : Z) : LteRlcAmPdu :=
  (new_LteRlcAmPdu DATA)
    <| totalFragments := uint32 (totalFragments_ desc) |> <| snoFragment := seqNum |> <| firstSn := firstSn_ desc |>
    <| lastSn := int32 (firstSn_ desc + totalFragments_ desc - 1) |> <| pduSnoMainPacket := as_sno frame |> <| txNumber := 0 |>.

Definition fragment (frame : AmSdu) (desc : RlcFragDesc) (i offset seqNum : Z) : AmPacket :=
  let length := if i =? totalFragments_ desc - 1 then as_bytes frame - offset else fragUnit_ desc in
  {| am_pdu := frag_pdu frame desc seqNum; am_data := [(frame, offset, length)]; am_tag := as_info frame |}.

(** The loop of [fragmentFrame], [n] fragments from [i] on. *)
Fixpoint fragment_loop (frame : AmSdu) (desc : RlcFragDesc) (tmp : RlcWindowDesc) (i offset : Z) (n : nat)
    : result (list (AmPacket * Z)) :=
  match n with
  | O => Ok []
  | S n' =>
      let txWindowIndex := int32 (seqNum_ tmp - firstSeqNum_ tmp) in
      if 200 <=? txWindowIndex then Throw "Illegal i" else
      let pkt := fragment frame desc i offset (seqNum_ tmp) in
      let! rest := fragment_loop frame desc (tmp <| seqNum_ := uint32 (seqNum_ tmp + 1) |>) (i + 1) (offset + fragUnit_ desc) n' in
      Ok ((pkt, txWindowIndex) :: rest)
  end.

Definition fragmentFrame (t : AmTxQueue) (frame : AmSdu) : result (list (AmPacket * Z)) :=
  fragment_loop frame (fragDesc_ t) (txWindowDesc_ t) 0 0 (Z.to_nat (totalFragments_ (fragDesc_ t))).

(** The part of a round of [addPdus] that takes an SDU from the queue. *)
Definition take_sdu (t : AmTxQueue) : result AmTxQueue :=
  match currentSdu_ t with
  | Some _ => Ok t
  | None =>
      match amSduQueue_ t with
      | [] => Throw "cPacketQueue::pop(): Queue empty"
      | pkt :: queue =>
          let t := t <| amSduQueue_ := queue |> in
          let! nrFragments := ceil_div (as_bytes pkt) (fragUnit_ (fragDesc_ t)) in
          if uint32 (tx_seq t + nrFragments) <? uint32 (tx_first t + tx_size t) then
            let! desc := startFragmentation (fragDesc_ t) (as_bytes pkt) (tx_seq t) in
            let t := t <| fragDesc_ := desc |> <| currentSdu_ := Some pkt |> in
            let! frags := fragmentFrame t pkt in
            Ok (t <| fragmentList_ := Some frags.*1 |> <| txWindowIndexList_ := frags.*2 |> <| lteInfo_ := Some (as_info pkt) |>)
          else Ok t
      end
  end.

(** The part that puts a PDU into the window: the first of [frags], at [index]. *)
Definition add_pdu (t : AmTxQueue) (NOW : Z) (pdu : AmPacket) (frags : list AmPacket) (index : Z) (indices : list Z)
    : result (AmTxQueue * list amtx_effect) :=
  if negb (snoFragment (am_pdu pdu) =? tx_seq t) then Throw "Pdu sequence numbers must be check" else
  match arr_get (pduRtxQueue_ t) index with
  | Some _ => Throw "AmTxQueue::addPdus(): trying to add a PDU to a busy position"
  | None =>
      let! rtx := arr_addAt (pduRtxQueue_ t) index pdu in
      if 200 <=? index then Throw "Illegal i" else
      let! received := flag_at (txReceived_ t) index in
      let! discarded := if received : bool then Ok false else flag_at (txDiscarded_ t) index in
      if received || discarded then Throw "AmTxQueue::addPdus(): trying to add a PDU to a marked position" else
      let! m := multi_add (pduTimer_ t) NOW (pduRtxTimeout_ t) (tx_seq t) in
      let (all, desc) := addFragment (fragDesc_ t) in
      let over := all || match frags with [] => true | _ => false end in
      let t := t <| pduRtxQueue_ := rtx |> <| pduTimer_ := m |>
                 <| fragmentList_ := if over then None else Some frags |>
                 <| txWindowIndexList_ := if over then [] else indices |>
                 <| fragDesc_ := if over then resetFragmentation desc else desc |>
                 <| currentSdu_ := if over then None else currentSdu_ t |>
                 <| txWindowDesc_ := (txWindowDesc_ t) <| seqNum_ := uint32 (tx_seq t + 1) |> |>
                 <| bufferStatusTimer_ := timer_start (bufferStatusTimer_ t) NOW (bufferStatusTimeout_ t) |> in
      Ok (bufferPdu t pdu)
  end.

Definition no_data (t : AmTxQueue) : bool :=
  match currentSdu_ t, amSduQueue_ t, fragmentList_ t with
  | None, [], None | None, [], Some [] => true
  | _, _, _ => false
  end.

(** The loop of [addPdus]: a round either ends it or takes a position of the window. *)
Fixpoint add_loop (fuel : nat) (t : AmTxQueue) (NOW : Z) : result (AmTxQueue * list amtx_effect) :=
  if negb (in_window (txWindowDesc_ t) <? tx_size t) || no_data t then Ok (t, []) else
  let! t := take_sdu t in
  match fragmentList_ t with
  | None => Ok (t, [])
  | Some frags =>
      match frags, txWindowIndexList_ t, fuel with
      | pdu :: frags, index :: indices, S fuel' =>
          let! (t, e) := add_pdu t NOW pdu frags index indices in
          let! (t, e') := add_loop fuel' t NOW in
          Ok (t, e ++ e')
      | _, _, _ => UB
      end
  end.

Definition addPdus (t : AmTxQueue) (NOW : Z) : result (AmTxQueue * list amtx_effect) :=
  let! (t, e) := add_loop (Z.to_nat (tx_size t)) t NOW in
  match fragmentList_ t, txWindowIndexList_ t with
  | None, [] => Ok (t, e)
  | _, _ => Throw "ASSERT"
  end.

Definition am_enque (t : AmTxQueue) (NOW : Z) (sdu : AmSdu) : result (AmTxQueue * list amtx_effect) :=
  let t := t <| amSduQueue_ := amSduQueue_ t ++ [sdu] |> in
  match currentSdu_ t with
  | None => if in_window (txWindowDesc_ t) <? tx_size t then addPdus t NOW else Ok (t, [])
  | Some _ => Ok (t, [])
  end.

(** ** Control *)

(** [pdu->setChunkLength(inet::b(1))] leaves the data of the PDU in the packet. *)
Definition sendPdus (t : AmTxQueue) (size : Z) : result (AmTxQueue * list amtx_effect) :=
  match txPduBuffer_ t with
  | [] => UB
  | pkt :: rest =>
      let '(t, out) :=
        if am_getByteLength pkt <=? size then (t <| txPduBuffer_ := rest |>, pkt)
        else (t, pkt <| am_pdu := (am_pdu pkt) <| chunkBits := 1 |> |>) in
      Ok (t, AmSendFragmented out :: match txPduBuffer_ t with [] => [] | p :: _ => [AmNewData p] end)
  end.

Definition mrw_packet (t : AmTxQueue) (seqNum : Z) (info : FlowControlInfo) : AmPacket :=
  {| am_pdu := (new_LteRlcAmPdu MRW)
       <| totalFragments := 1 |> <| snoFragment := mrwSeqNum_ (mrwDesc_ t) |> <| pduSnoMainPacket := mrwSeqNum_ (mrwDesc_ t) |>
       <| chunkBits := 8 * fragUnit_ (fragDesc_ t) |> <| firstSn := 0 |> <| lastSn := seqNum |>;
     am_data := []; am_tag := info |}.

Definition sendMrw (t : AmTxQueue) (NOW seqNum : Z) : result (AmTxQueue * list amtx_effect) :=
  match lteInfo_ t with
  | None => UB
  | Some info =>
      let pktPdu := mrw_packet t seqNum info in
      let mrwSeqNum := mrwSeqNum_ (mrwDesc_ t) in
      let! rtx := arr_addAt (mrwRtxQueue_ t) (int32 mrwSeqNum) pktPdu in
      let! m := multi_add (mrwTimer_ t) NOW (ctrlPduRtxTimeout_ t) mrwSeqNum in
      let t := t <| mrwRtxQueue_ := rtx |> <| mrwTimer_ := m |>
                 <| mrwDesc_ := {| mrwSeqNum_ := uint32 (mrwSeqNum + 1); lastMrw_ := mrwSeqNum |} |> in
      Ok (bufferControlPdu t pktPdu)
  end.

(** The loop of [checkForMrw], [n] positions from [i] on: how many of them are received or
    discarded before the first that is neither. *)
Fixpoint done_prefix (t : AmTxQueue) (i : Z) (n : nat) : result nat :=
  match n with
  | O => Ok O
  | S n' =>
      let! discarded := flag_at (txDiscarded_ t) i in
      let! received := if discarded : bool then Ok true else flag_at (txReceived_ t) i in
      if discarded || received then let! k := done_prefix t (i + 1) n' in Ok (S k) else Ok O
  end.

Definition checkForMrw (t : AmTxQueue) (NOW : Z) : result (AmTxQueue * list amtx_effect) :=
  let! k := done_prefix t 0 (Z.to_nat (in_window (txWindowDesc_ t))) in
  match k with
  | O => Ok (t, [])
  | S lastPdu => sendMrw t NOW (int32 (int32 (tx_first t + Z.of_nat lastPdu) + 1))
  end.

(** The searches of [discard] for the PDUs of the same SDU, forward from [i] and backward. *)
Fixpoint discard_forward (t : AmTxQueue) (sno i : Z) (n : nat) : result AmTxQueue :=
  match n with
  | O => Ok t
  | S n' =>
      match arr_get (pduRtxQueue_ t) i with
      | None => Ok t
      | Some nextPdu =>
          if negb (sno =? pduSnoMainPacket (am_pdu nextPdu)) then Ok t else
          let! discarded := flag_at (txDiscarded_ t) i in
          let! t :=
            if discarded : bool then Ok t
            else let! l := set_flag (txDiscarded_ t) i true in stop_pdu_timer (t <| txDiscarded_ := l |>) (i + tx_first t) in
          discard_forward t sno (i + 1) n'
      end
  end.

Fixpoint discard_backward (t : AmTxQueue) (sno : Z) (n : nat) : result AmTxQueue :=
  match n with
  | O => Ok t
  | S n' =>
      let i := Z.of_nat n' in
      match arr_get (pduRtxQueue_ t) i with
      | None => Throw "AmTxBuffer::discard(): trying to get access to missing PDU"
      | Some nextPdu =>
          if negb (sno =? pduSnoMainPacket (am_pdu nextPdu)) then Ok t else
          let! discarded := flag_at (txDiscarded_ t) i in
          let! l := if discarded : bool then Ok (txDiscarded_ t) else set_flag (txDiscarded_ t) i true in
          let! t := stop_pdu_timer (t <| txDiscarded_ := l |>) (i + tx_first t) in
          discard_backward t sno n'
      end
  end.

Definition discard (t : AmTxQueue) (NOW seqNum : Z) : result (AmTxQueue * list amtx_effect) :=
  let txWindowIndex := tx_index t seqNum in
  if (txWindowIndex <? 0) || (tx_size t <=? uint32 txWindowIndex) then
    Throw "AmTxQueue::discard(): requested to discard an out of window PDU"
  else
    let! discarded := flag_at (txDiscarded_ t) txWindowIndex in
    let! l := if discarded : bool then Ok (txDiscarded_ t) else set_flag (txDiscarded_ t) txWindowIndex true in
    let t := t <| txDiscarded_ := l |> in
    let! pkt := packet_at (pduRtxQueue_ t) txWindowIndex in
    let sno := pduSnoMainPacket (am_pdu pkt) in
    let! t := stop_pdu_timer t seqNum in
    let! t := discard_forward t sno (txWindowIndex + 1) (Z.to_nat (in_window (txWindowDesc_ t) - (txWindowIndex + 1))) in
    let! t := discard_backward t sno (Z.to_nat txWindowIndex) in
    checkForMrw t NOW.

(** ** Moving the window *)

(** The three loops of [moveTxWindow]: the PDUs before [pos] leave, those behind move, the
    positions behind the last are cleared. *)
Fixpoint drop_loop (t : AmTxQueue) (i : Z) (n : nat) : result AmTxQueue :=
  match n with
  | O => Ok t
  | S n' =>
      match arr_get (pduRtxQueue_ t) i with
      | None => Throw "AmTxQueue::moveTxWindow(): encountered empty PDU"
      | Some _ =>
          let! t := stop_pdu_timer (t <| pduRtxQueue_ := arr_remove (pduRtxQueue_ t) i |>) (i + tx_first t) in
          let! r := set_flag (txReceived_ t) i false in
          let! d := set_flag (txDiscarded_ t) i false in
          drop_loop (t <| txReceived_ := r |> <| txDiscarded_ := d |>) (i + 1) n'
      end
  end.

(** [l.at(i - pos) = l.at(i); l.at(i) = false]. *)
Definition move_flag (l : list bool) (pos i : Z) : result (list bool) :=
  let! b := flag_at l i in
  let! l := set_flag l (i - pos) b in
  set_flag l i false.

Fixpoint shift_loop (t : AmTxQueue) (pos i : Z) (n : nat) : result AmTxQueue :=
  match n with
  | O => Ok t
  | S n' =>
      match arr_get (pduRtxQueue_ t) i with
      | None => Throw "AmTxQueue::moveTxWindow(): encountered empty PDU"
      | Some pdu =>
          let! rtx := arr_addAt (arr_remove (pduRtxQueue_ t) i) (i - pos) pdu in
          let! r := move_flag (txReceived_ t) pos i in
          let! d := move_flag (txDiscarded_ t) pos i in
          shift_loop (t <| pduRtxQueue_ := rtx |> <| txReceived_ := r |> <| txDiscarded_ := d |>) pos (i + 1) n'
      end
  end.

Fixpoint clear_loop (t : AmTxQueue) (i : Z) (n : nat) : result AmTxQueue :=
  match n with
  | O => Ok t
  | S n' =>
      match arr_get (pduRtxQueue_ t) i with
      | Some _ => Throw "AmTxQueue::moveTxWindow(): encountered busy PDU"
      | None =>
          let! r := set_flag (txReceived_ t) i false in
          let! d := set_flag (txDiscarded_ t) i false in
          clear_loop (t <| txReceived_ := r |> <| txDiscarded_ := d |>) (i + 1) n'
      end
  end.

Definition move_loops (t : AmTxQueue) (pos : Z) : result AmTxQueue :=
  let n := in_window (txWindowDesc_ t) in
  let! t := drop_loop t 0 (Z.to_nat pos) in
  let! t := shift_loop t pos pos (Z.to_nat (n - pos)) in
  clear_loop t (int32 n) (Z.to_nat (tx_size t - n)).

Definition moveTxWindow (t : AmTxQueue) (NOW seqNum : Z) : result (AmTxQueue * list amtx_effect) :=
  let pos := tx_index t seqNum in
  if pos <=? 0 then Ok (t, []) else
  let! t := move_loops t pos in
  addPdus (t <| txWindowDesc_ := (txWindowDesc_ t) <| firstSeqNum_ := uint32 (tx_first t + pos) |> |>) NOW.

(** ** Acknowledgements *)

Definition recvAck (t : AmTxQueue) (seqNum : Z) : result AmTxQueue :=
  let index := tx_index t seqNum in
  if index <? 0 then Ok t else
  if tx_size t <=? uint32 index then Throw "AmTxBuffer::recvAck(): ACK greater than window size" else
  let! received := flag_at (txReceived_ t) index in
  if received : bool then Ok t else
  let! t := stop_pdu_timer t (index + tx_first t) in
  let! r := set_flag (txReceived_ t) index true in
  match arr_get (pduRtxQueue_ t) index with
  | Some _ => Ok (t <| txReceived_ := r |>)
  | None => Throw "ASSERT"
  end.

(** The loop of [recvCumulativeAck], [n] positions from [i] on. *)
Fixpoint ack_loop (t : AmTxQueue) (i : Z) (n : nat) : result AmTxQueue :=
  match n with
  | O => Ok t
  | S n' =>
      let! received := flag_at (txReceived_ t) i in
      let! t :=
        if received : bool then Ok t
        else let! t := stop_pdu_timer t (i + tx_first t) in
             let! r := set_flag (txReceived_ t) i true in Ok (t <| txReceived_ := r |>) in
      ack_loop t (i + 1) n'
  end.

Definition recvCumulativeAck (t : AmTxQueue) (NOW seqNum : Z) : result (AmTxQueue * list amtx_effect) :=
  if (uint32 seqNum <? tx_first t) || (seqNum <? 0) then Ok (t, []) else
  if uint32 (tx_first t + tx_size t) <? uint32 seqNum then Throw "AmTxQueue::recvCumulativeAck(): SN exceeds window size" else
  let! t := ack_loop t 0 (Z.to_nat (uint32 (seqNum - tx_first t) + 1)) in
  checkForMrw t NOW.

Definition recvMrwAck (t : AmTxQueue) (seqNum : Z) : result AmTxQueue :=
  match arr_get (mrwRtxQueue_ t) seqNum with
  | None => Ok t
  | Some _ =>
      let t := t <| mrwRtxQueue_ := arr_remove (mrwRtxQueue_ t) seqNum |> in
      if multi_busy (mrwTimer_ t) (uint32 seqNum) then
        let! m := multi_remove (mrwTimer_ t) (uint32 seqNum) in Ok (t <| mrwTimer_ := m |>)
      else Ok t
  end.

Fixpoint bitmap_loop (t : AmTxQueue) (sn : Z) (bits : list bool) : result AmTxQueue :=
  match bits with
  | [] => Ok t
  | b :: bits' => let! t := if b : bool then recvAck t sn else Ok t in bitmap_loop t (sn + 1) bits'
  end.

Definition handleControlPacket (t : AmTxQueue) (NOW : Z) (pkt : AmPacket) : result (AmTxQueue * list amtx_effect) :=
  let pdu := am_pdu pkt in
  match amType pdu with
  | MRW_ACK =>
      let! (t, e) := moveTxWindow t NOW (int32 (snoFragment pdu)) in
      let! t := recvMrwAck t (int32 (pduSnoMainPacket pdu)) in
      Ok (t, e)
  | ACK =>
      let! (t, e) := recvCumulativeAck t NOW (lastSn pdu) in
      let! t := bitmap_loop t (firstSn pdu) (bitmap_ pdu) in
      Ok (t, e)
  | DATA | MRW => Ok (t, [])
  end.

(** ** Timers *)

Definition pduTimerHandle (t : AmTxQueue) (NOW sn : Z) : result (AmTxQueue * list amtx_effect) :=
  let index := tx_index t sn in
  let! m := multi_handle (pduTimer_ t) sn in
  let t := t <| pduTimer_ := m |> in
  if (index <? 0) || (tx_size t <=? uint32 index) then Throw "AmTxQueue::pduTimerHandle(): The PDU is out of the window" else
  match arr_get (pduRtxQueue_ t) index with
  | None => Throw "AmTxQueue::pduTimerHandle(): PDU not found"
  | Some pduPkt =>
      let! received := flag_at (txReceived_ t) index in
      if received : bool then Throw "AmTxQueue::pduTimerHandle(): The PDU has been already received" else
      let nextTxNumber := txNumber (am_pdu pduPkt) + 1 in
      if maxRtx_ t <? nextTxNumber then discard t NOW sn else
      let pduPkt := pduPkt <| am_pdu := (am_pdu pduPkt) <| txNumber := uint16 nextTxNumber |> |> in
      let rtx := arr_add (arr_remove (pduRtxQueue_ t) index) pduPkt in
      let! m := multi_add (pduTimer_ t) NOW (pduRtxTimeout_ t) (uint32 sn) in
      Ok (bufferPdu (t <| pduRtxQueue_ := rtx |> <| pduTimer_ := m |>) pduPkt)
  end.

Definition mrwTimerHandle (t : AmTxQueue) (NOW sn : Z) : result (AmTxQueue * list amtx_effect) :=
  let! m := multi_handle (mrwTimer_ t) sn in
  let t := t <| mrwTimer_ := m |> in
  match arr_get (mrwRtxQueue_ t) sn with
  | None => Throw "MRW handler: MRW not found in MRW message queue"
  | Some pktPdu =>
      let rtx := arr_remove (mrwRtxQueue_ t) sn in
      if uint32 sn <? lastMrw_ (mrwDesc_ t) then Ok (t <| mrwRtxQueue_ := rtx |>, []) else
      let! rtx := arr_addAt rtx sn pktPdu in
      let! m := multi_add (mrwTimer_ t) NOW (ctrlPduRtxTimeout_ t) (uint32 sn) in
      Ok (bufferPdu (t <| mrwRtxQueue_ := rtx |> <| mrwTimer_ := m |>) pktPdu)
  end.

(** [handleMessage]: the timer message that arrives, with its event for a multi-timer. *)
Inductive am_timer_msg := BufferT | PduT (event : Z) | MrwT (event : Z).

Definition amtx_handleMessage (t : AmTxQueue) (NOW : Z) (msg : am_timer_msg) : result (AmTxQueue * list amtx_effect) :=
  match msg with
  | BufferT =>
      let! (t, e) := checkForMrw t NOW in
      Ok (t <| bufferStatusTimer_ := timer_handle (fired (bufferStatusTimer_ t)) |>, e)
  | PduT event => pduTimerHandle t NOW (int32 event)
  | MrwT event => mrwTimerHandle t NOW (int32 event)
  end.
End TxQueue.

Arguments AmTxQueue : clear implicits.

Abbreviation tx_first t := (firstSeqNum_ (txWindowDesc_ t)).
Abbreviation tx_seq t := (seqNum_ (txWindowDesc_ t)).
Abbreviation tx_size t := (windowSize_ (txWindowDesc_ t)).
