(* ===== verification/RlcAmFacts.v ===== *)
(** * RLC acknowledged mode: the transmitting queue keeps its window

    Flags and timers, the plan of a connection (which SDU each sequence number belongs to) and
    what a round takes of a queue, by the numbers alone ([admits]), the invariant of [AmTxQueue] and what each of its operations does to it. *)

From stdpp Require Import list.
From S2P Require Import Prelude LteCommon TTimer RlcWindow RlcAm.
#[local] Open Scope Z_scope.

(** ** Flags *)

Definition flag (l : list bool) (i : Z) : bool := default false (vget l i).

Lemma flag_at_ok l i : 0 <= i < vsize l -> flag_at l i = Ok (flag l i).
Proof. intros Hi. unfold flag_at, flag. by destruct (vget_is_Some l i Hi) as [b ->]. Qed.

Lemma flag_range l i : flag l i = true -> 0 <= i < vsize l.
Proof. unfold flag. destruct (vget l i) eqn:E; [|done]. intros _. by eapply vget_Some_bounds. Qed.

Lemma set_flag_ok l i b : 0 <= i < vsize l ->
  exists l', set_flag l i b = Ok l' /\ length l' = length l /\ forall j, flag l' j = if decide (j = i) then b else flag l j.
Proof.
  intros Hi. unfold set_flag. destruct (vset_is_Some l i b Hi) as [l' E]. rewrite E. exists l'. split; [done|].
  split; [by eapply vset_size|]. intros j. unfold flag. rewrite (vget_vset _ _ j _ _ E). repeat case_decide; subst; done.
Qed.

Lemma flag_replicate n i : flag (replicate n false) i = false.
Proof. unfold flag. destruct (vget _ i) eqn:E; [|done]. by apply vget_replicate in E as ->. Qed.

Lemma flags_false l : (forall i, flag l i = false) -> l = replicate (length l) false.
Proof.
  intros Hl. symmetry. apply replicate_as_Forall. split; [done|]. apply Forall_lookup_2. intros i b Hb. specialize (Hl (Z.of_nat i)). unfold flag, vget in Hl.
  rewrite (proj2 (Z.leb_le 0 _)), Nat2Z.id, Hb in Hl by lia. by rewrite <- Hl.
Qed.

(** [set_flag] to [false] of a flag that is [false]. *)
Lemma set_false_same l i : 0 <= i < vsize l -> flag l i = false -> set_flag l i false = Ok l.
Proof.
  intros Hi Hf. unfold set_flag, vset. rewrite (proj2 (Z.leb_le 0 i)), (proj2 (Z.ltb_lt _ _)) by lia. cbn [andb]. f_equal.
  apply list_insert_id. unfold flag, vget in Hf. rewrite (proj2 (Z.leb_le 0 i)) in Hf by lia.
  destruct (l !! Z.to_nat i) as [b|] eqn:E; [by cbn in Hf; subst|]. apply lookup_ge_None in E. lia.
Qed.

Lemma move_flag_ok l pos i : 0 < pos <= i -> i < vsize l ->
  exists l', move_flag l pos i = Ok l' /\ length l' = length l /\
    forall j, flag l' j = if decide (j = i) then false else if decide (j = i - pos) then flag l i else flag l j.
Proof.
  intros Hp Hi. unfold move_flag. rewrite flag_at_ok by lia. cbn [rbind].
  destruct (set_flag_ok l (i - pos) (flag l i)) as (l1 & -> & L1 & F1); [lia|]. cbn [rbind].
  destruct (set_flag_ok l1 i false) as (l2 & -> & L2 & F2); [lia|]. exists l2. split; [done|]. split; [lia|].
  intros j. rewrite F2, F1. by repeat case_decide.
Qed.

(** ** Timers *)

(** The event is scheduled. *)
Definition timed (m : TMultiTimer) (e : Z) : Prop := multi_busy m e = true.

Lemma timed_spec m e : timed m e <-> reverseList_ m !! e <> None.
Proof. unfold timed, multi_busy. by destruct (reverseList_ m !! e). Qed.

Lemma timed_list m e : multi_ok m -> timed m e <-> exists x, x ∈ directList_ m /\ x.2 = e.
Proof.
  intros Hm. rewrite timed_spec. split.
  - destruct (reverseList_ m !! e) as [x|] eqn:E; [|done]. intros _. exists x. by apply (mo_reverse m Hm).
  - intros (x & Hx). apply (mo_reverse m Hm) in Hx. by rewrite Hx.
Qed.

Lemma new_timer_ok : multi_ok new_TMultiTimer /\ forall e, ~ timed new_TMultiTimer e.
Proof.
  split; [|intros e He%timed_spec; apply He, lookup_empty].
  split; try done; cbn; [constructor|]. intros e x. rewrite lookup_empty. split; [done|]. intros [Hx _]. by apply elem_of_nil in Hx.
Qed.

Lemma timer_add m NOW time e : multi_ok m -> ~ timed m e ->
  exists m', multi_add m NOW time e = Ok m' /\ multi_ok m' /\ forall e', timed m' e' <-> e' = e \/ timed m e'.
Proof.
  intros Hm He. destruct (multi_add_ok m NOW time e Hm) as (m' & E & Hm' & Hd).
  { destruct (reverseList_ m !! e) eqn:E; [|done]. destruct He. apply timed_spec. by rewrite E. }
  exists m'. split; [done|]. split; [done|]. intros e'. rewrite !timed_list by done. setoid_rewrite Hd. setoid_rewrite elem_of_cons. split.
  - intros (x & [->|Hx] & <-); [by left|right; eauto].
  - intros [->|(x & Hx & <-)]; eauto.
Qed.

Lemma timer_remove m e : multi_ok m -> timed m e ->
  exists m', multi_remove m e = Ok m' /\ multi_ok m' /\ forall e', timed m' e' <-> timed m e' /\ e' <> e.
Proof.
  intros Hm He. destruct (multi_remove_ok m e Hm) as (m' & E & Hm' & Hd); [by apply timed_spec|].
  exists m'. split; [done|]. split; [done|]. intros e'. rewrite !timed_list by done. setoid_rewrite Hd. split.
  - intros (x & [Hx Hne] & <-). eauto.
  - intros [(x & Hx & <-) Hne]. eauto.
Qed.

(** The message that is scheduled is that of an event; handling it takes this event away. *)
Lemma timer_fires m t e e0 : multi_ok m -> intr_ m = Some (t, e) ->
  timed m e /\ exists m', multi_handle m e0 = Ok m' /\ multi_ok m' /\ forall e', timed m' e' <-> timed m e' /\ e' <> e.
Proof.
  intros Hm Hi. rewrite (mo_intr m Hm) in Hi. destruct (directList_ m) as [|x l] eqn:Ed; [done|]. cbn in Hi. injection Hi as ->.
  split; [apply timed_list; [done|]; exists (t, e); rewrite Ed; split; [left|done]|].
  destruct (multi_handle_ok m e0 (t, e) l Hm Ed) as (m' & E & Hm' & Hd). exists m'. split; [done|]. split; [done|].
  pose proof (mo_events m Hm) as Hn. rewrite Ed in Hn. cbn in Hn. apply NoDup_cons in Hn as [Hnot Hn].
  intros e'. rewrite !timed_list, Hd, Ed by done. setoid_rewrite elem_of_cons. split.
  - intros (x & Hx & <-). split; [eauto|]. intros Ee. apply Hnot. rewrite <- Ee. apply list_elem_of_In, in_map. by apply list_elem_of_In.
  - intros [(x & [->|Hx] & <-) Hne]; [done|eauto].
Qed.

(** ** The plan of a connection *)

Section Plan.
Variable u : Z.

(** The PDUs an SDU is cut into. *)
Definition nfrags (s : AmSdu) : Z := (as_bytes s + u - 1) / u.

(** For each sequence number the SDU that it belongs to and the first number of the SDU,
    from [st] on, when the SDUs [acc] are cut one after the other. *)
Fixpoint plan_from (st : Z) (acc : list AmSdu) : list (AmSdu * Z) :=
  match acc with
  | [] => []
  | s :: acc' => replicate (Z.to_nat (nfrags s)) (s, st) ++ plan_from (st + nfrags s) acc'
  end.
Definition plan_of (acc : list AmSdu) : list (AmSdu * Z) := plan_from 0 acc.

Definition total_frags (acc : list AmSdu) : Z := foldr (fun s n => nfrags s + n) 0 acc.

(** An SDU with its header. *)
Definition sdu_ok (s : AmSdu) : Prop := RLC_HEADER_AM <= as_bytes s.

(** The PDU of number [sn] of an SDU that begins at [st], as it is first sent. *)
Definition planned (s : AmSdu) (st sn : Z) : AmPacket :=
  {| am_pdu := (new_LteRlcAmPdu DATA)
       <| totalFragments := nfrags s |> <| snoFragment := sn |> <| firstSn := st |> <| lastSn := st + nfrags s - 1 |>
       <| pduSnoMainPacket := as_sno s |>;
     am_data := [(s, (sn - st) * u, Z.min u (as_bytes s - (sn - st) * u))]; am_tag := as_info s |}.

(** What a retransmission and the empty PDU of [sendPdus] do not change. *)
Definition strip (p : AmPacket) : AmPacket := p <| am_pdu := (am_pdu p) <| txNumber := 0 |> <| chunkBits := 8 |> |>.

Context (Hu : 0 < u).

Lemma nfrags_spec s : sdu_ok s -> 0 < nfrags s /\ (nfrags s - 1) * u < as_bytes s <= nfrags s * u.
Proof.
  intros Hs. unfold sdu_ok, RLC_HEADER_AM in Hs. unfold nfrags. pose proof (Z.div_mod (as_bytes s + u - 1) u ltac:(lia)).
  pose proof (Z.mod_pos_bound (as_bytes s + u - 1) u Hu). split; [apply Z.div_str_pos; lia|nia].
Qed.

Lemma total_frags_cons s acc : total_frags (s :: acc) = nfrags s + total_frags acc.
Proof. done. Qed.

Lemma total_frags_app acc acc' : total_frags (acc ++ acc') = total_frags acc + total_frags acc'.
Proof. induction acc as [|s acc IH]; [done|]. cbn [app]. rewrite !total_frags_cons. lia. Qed.

Lemma total_frags_nonneg acc : Forall sdu_ok acc -> 0 <= total_frags acc.
Proof.
  induction 1 as [|s acc Hs _ IH]; [done|]. pose proof (nfrags_spec s Hs). rewrite total_frags_cons. lia.
Qed.

Lemma plan_from_app st acc acc' : Forall sdu_ok acc ->
  plan_from st (acc ++ acc') = plan_from st acc ++ plan_from (st + total_frags acc) acc'.
Proof.
  intros Hok. revert st. induction Hok as [|s acc Hs _ IH]; intros st; [cbn; by rewrite Z.add_0_r|].
  cbn [app plan_from]. rewrite IH, app_assoc, total_frags_cons. by rewrite Z.add_assoc.
Qed.

Lemma plan_size acc : Forall sdu_ok acc -> vsize (plan_of acc) = total_frags acc.
Proof.
  unfold plan_of. intros Hok. generalize 0 at 1. induction Hok as [|s acc Hs _ IH]; intros st; [done|]. cbn [plan_from].
  pose proof (nfrags_spec s Hs). by rewrite length_app, length_replicate, Nat2Z.inj_add, IH, Z2Nat.id, total_frags_cons by lia.
Qed.

Lemma plan_snoc acc s : Forall sdu_ok acc ->
  plan_of (acc ++ [s]) = plan_of acc ++ replicate (Z.to_nat (nfrags s)) (s, vsize (plan_of acc)).
Proof. intros Hok. unfold plan_of at 1. rewrite plan_from_app by done. cbn [plan_from]. by rewrite app_nil_r, plan_size. Qed.

Lemma vget_app {B} (l k : list B) i : vget (l ++ k) i = if decide (i < vsize l) then vget l i else vget k (i - vsize l).
Proof.
  unfold vget. destruct (Z.leb_spec 0 i), (Z.leb_spec 0 (i - vsize l)); case_decide; try lia; try done.
  - rewrite lookup_app_r by lia. f_equal. lia.
  - by rewrite lookup_app_l by lia.
Qed.

Lemma vget_replicate_eq {B} (x : B) n i : 0 <= i < Z.of_nat n -> vget (replicate n x) i = Some x.
Proof. intros Hi. unfold vget. rewrite (proj2 (Z.leb_le 0 i)) by lia. apply lookup_replicate_2. lia. Qed.

(** The numbers of an SDU are all those from its first on, and it is in the plan whole. *)
Lemma plan_entry acc sn s st : Forall sdu_ok acc -> vget (plan_of acc) sn = Some (s, st) ->
  s ∈ acc /\ sdu_ok s /\ 0 <= st <= sn /\ sn < st + nfrags s <= total_frags acc /\
  forall j, st <= j < st + nfrags s -> vget (plan_of acc) j = Some (s, st).
Proof.
  intros Hok. induction acc as [|s' acc IH] using rev_ind; intros E.
  { apply vget_Some_bounds in E. cbn in E. lia. }
  apply Forall_app in Hok as [Hok Hs']. inversion Hs' as [|? ? Hs'' _]; subst. pose proof (nfrags_spec s' Hs'') as [Hn _].
  rewrite plan_snoc, vget_app in E by done. rewrite total_frags_app, plan_snoc by done. change (total_frags [s']) with (nfrags s' + 0). pose proof (plan_size acc Hok) as Hlen.
  case_decide as Hlt.
  - destruct (IH Hok E) as (Hin & Hs & Hst & Hsn & Hall). split; [apply elem_of_app; by left|]. split; [done|]. split; [done|]. split; [lia|].
    intros j Hj. rewrite vget_app. case_decide; [by apply Hall|lia].
  - apply vget_Some_bounds in E as Hb. rewrite length_replicate in Hb. rewrite vget_replicate_eq in E by lia. injection E as <- <-.
    split; [apply elem_of_app; right; by left|]. split; [done|]. split; [lia|]. split; [lia|].
    intros j Hj. rewrite vget_app. case_decide; [lia|]. apply vget_replicate_eq. lia.
Qed.

Lemma plan_get acc sn : Forall sdu_ok acc -> 0 <= sn < total_frags acc -> exists s st, vget (plan_of acc) sn = Some (s, st).
Proof. intros Hok Hsn. destruct (vget_is_Some (plan_of acc) sn) as [[s st] E]; [by rewrite plan_size|]. eauto. Qed.

Lemma plan_extend acc acc' sn x : Forall sdu_ok acc -> vget (plan_of acc) sn = Some x -> vget (plan_of (acc ++ acc')) sn = Some x.
Proof.
  intros Hok E. unfold plan_of. rewrite plan_from_app by done. rewrite vget_app. apply vget_Some_bounds in E as Hb.
  case_decide; [done|]. unfold plan_of in Hb. lia.
Qed.

(** What a round of the transmitter takes, by the numbers alone: the next SDU needs its PDUs
    from number [sn] on to end before [stop], where the window ends.  The first one that does
    not fit is lost and ends the round.  The SDUs that are taken, and those that stay. *)
Fixpoint admits (sn stop : Z) (queue : list AmSdu) : list AmSdu * list AmSdu :=
  match queue with
  | [] => ([], [])
  | s :: queue' =>
      if stop <=? sn then ([], queue)
      else if sn + nfrags s <? stop then let (taken, rest) := admits (sn + nfrags s) stop queue' in (s :: taken, rest)
      else ([], queue')
  end.

(** There is a round when an SDU comes or the window, of [size] numbers, moves from [first]
    to [first']. *)
Definition enters (sn first first' size : Z) (queue more : list AmSdu) : list AmSdu * list AmSdu :=
  if (first <? first') || negb (bool_decide (more = [])) then admits sn (first' + size) (queue ++ more) else ([], queue).

Lemma admits_full sn stop queue : stop <= sn -> admits sn stop queue = ([], queue).
Proof. intros Hs. destruct queue as [|s queue]; [done|]. cbn [admits]. by rewrite (proj2 (Z.leb_le _ _)). Qed.

Lemma admits_sublist stop queue : forall sn, (admits sn stop queue).1 ++ (admits sn stop queue).2 `sublist_of` queue.
Proof.
  induction queue as [|s queue IH]; intros sn; cbn [admits]; [done|]. destruct (stop <=? sn); [done|]. destruct (_ <? _); [|cbn; by constructor].
  specialize (IH (sn + nfrags s)). destruct (admits _ _ queue) as [taken rest]. cbn in *. by constructor.
Qed.

Lemma enters_sublist sn first first' size queue more :
  (enters sn first first' size queue more).1 ++ (enters sn first first' size queue more).2 `sublist_of` queue ++ more.
Proof. unfold enters. destruct (_ || _); [apply admits_sublist|]. cbn. by apply sublist_inserts_r. Qed.

Lemma enters_none sn first size queue : enters sn first first size queue [] = ([], queue).
Proof. unfold enters. by rewrite Z.ltb_irrefl. Qed.
End Plan.

(** ** The window *)

#[local] Arguments total_frags : simpl never.
#[local] Arguments plan_of : simpl never.
#[local] Arguments nfrags : simpl never.

Section Tx.
Context {A : Type} {C : CArray AmPacket A} {D : CArrayAdd AmPacket A}.
Context {L : CArrayLaws AmPacket A} {LD : CArrayAddLaws AmPacket A}.
Variables (u : Z) (got : Z -> Prop) (low : Z) (other : AmPacket -> Prop).
Context (Hu : 0 < u).

(** Sequence numbers stay below a bound that leaves room for a window. *)
Definition sn_bound : Z := 2 ^ 31 - 2 ^ 10.

(** A packet the transmitter may send: a PDU of the plan, or a command to move the window
    beyond numbers that the receiver has all got. *)
Definition is_fragment (acc : list AmSdu) (sn : Z) (p : AmPacket) : Prop :=
  exists s st, vget (plan_of u acc) sn = Some (s, st) /\ strip p = planned u s st sn.
Definition is_mrw (acc : list AmSdu) (p : AmPacket) : Prop :=
  amType (am_pdu p) = MRW /\ 0 < lastSn (am_pdu p) <= total_frags u acc /\ (forall sn, 0 <= sn < lastSn (am_pdu p) -> got sn) /\
  0 <= pduSnoMainPacket (am_pdu p) < 2 ^ 31.
Definition down_ok (acc : list AmSdu) (p : AmPacket) : Prop := (exists sn, is_fragment acc sn p) \/ is_mrw acc p.

(** What waits to be sent: besides these the control packets of the queue of the same node
    that receives. *)
Definition sent_ok (acc : list AmSdu) (p : AmPacket) : Prop := down_ok acc p \/ other p.

Record window_ok (acc : list AmSdu) (maxRtx : Z) (w : RlcWindowDesc) (rtx : A) (recv disc : list bool) (m : TMultiTimer) : Prop := {
  wk_range : 0 <= firstSeqNum_ w <= seqNum_ w;
  wk_size : 0 < windowSize_ w <= 200 /\ seqNum_ w <= firstSeqNum_ w + windowSize_ w;
  wk_plan : Forall sdu_ok acc /\ seqNum_ w <= total_frags u acc < sn_bound;
  wk_slot i p : arr_get rtx i = Some p ->
    0 <= i < seqNum_ w - firstSeqNum_ w /\ is_fragment acc (firstSeqNum_ w + i) p /\ 0 <= txNumber (am_pdu p) <= maxRtx;
  wk_free i : arr_get rtx i = None -> ~ 0 <= i < seqNum_ w - firstSeqNum_ w;
  wk_recv_size : vsize recv = windowSize_ w;
  wk_recv i : flag recv i = true -> i < seqNum_ w - firstSeqNum_ w /\ got (firstSeqNum_ w + i);
  wk_disc : vsize disc = windowSize_ w + 1 /\ forall i, flag disc i = false;
  wk_timer : multi_ok m;
  wk_timed e : timed m e <-> firstSeqNum_ w <= e < seqNum_ w /\ flag recv (e - firstSeqNum_ w) = false
}.

Lemma in_window_eq acc maxRtx w rtx recv disc m : window_ok acc maxRtx w rtx recv disc m -> in_window w = seqNum_ w - firstSeqNum_ w.
Proof. intros [H1 H2 H3]. unfold in_window. apply wrap_small. unfold is_uint, sn_bound in *. lia. Qed.

Lemma is_fragment_extend acc acc' sn p : Forall sdu_ok acc -> is_fragment acc sn p -> is_fragment (acc ++ acc') sn p.
Proof. intros Hok (s & st & E & Hp). exists s, st. split; [by apply plan_extend|done]. Qed.

Lemma down_ok_extend acc acc' p : Forall sdu_ok acc -> Forall sdu_ok acc' -> down_ok acc p -> down_ok (acc ++ acc') p.
Proof.
  intros Hok Hok' [[sn Hp]|(Ht & Hl & Hg & Hs)]; [left; exists sn; by apply is_fragment_extend|right].
  pose proof (total_frags_nonneg u Hu acc' Hok'). split; [done|]. rewrite total_frags_app. split; [lia|done].
Qed.

Lemma sent_ok_extend acc acc' p : Forall sdu_ok acc -> Forall sdu_ok acc' -> sent_ok acc p -> sent_ok (acc ++ acc') p.
Proof. intros Hok Hok' [Hp|Hp]; [left; by apply down_ok_extend|by right]. Qed.

Lemma window_extend acc acc' maxRtx w rtx recv disc m : Forall sdu_ok acc' -> total_frags u (acc ++ acc') < sn_bound ->
  window_ok acc maxRtx w rtx recv disc m -> window_ok (acc ++ acc') maxRtx w rtx recv disc m.
Proof.
  intros Hok' Hb [W1 W2 [Hok W3] W4 W5 W6 W7 W8 W9 W10]. split; try done.
  - pose proof (total_frags_nonneg u Hu acc' Hok'). split; [by apply Forall_app|]. rewrite total_frags_app in *. lia.
  - intros i p Hp. destruct (W4 i p Hp) as (Hi & Hf & Ht). split; [done|]. split; [by apply is_fragment_extend|done].
Qed.

(** The rest of the invariant: the commands that wait for an acknowledgement. *)
Record mrw_ok (acc : list AmSdu) (d : MrwDesc) (rtx : A) (m : TMultiTimer) : Prop := {
  mk_num : 0 <= mrwSeqNum_ d;
  mk_slot i p : arr_get rtx i = Some p -> 0 <= i < mrwSeqNum_ d /\ down_ok acc p;
  mk_timer : multi_ok m;
  mk_timed e : timed m e <-> arr_get rtx e <> None
}.

Lemma mrw_extend acc acc' d rtx m : Forall sdu_ok acc -> Forall sdu_ok acc' -> mrw_ok acc d rtx m -> mrw_ok (acc ++ acc') d rtx m.
Proof. intros Hok Hok' [M1 M2 M3 M4]. split; try done. intros i p Hp. destruct (M2 i p Hp). split; [done|by apply down_ok_extend]. Qed.

(** Between operations no SDU is half way into the window.  [limit] bounds the PDUs of all
    SDUs accepted so far or still in the queue. *)
Record tx_ok (limit : Z) (acc : list AmSdu) (t : AmTxQueue A) : Prop := {
  tk_rest : currentSdu_ t = None /\ fragmentList_ t = None /\ txWindowIndexList_ t = [];
  tk_unit : fragUnit_ (fragDesc_ t) = u;
  tk_seq : tx_seq t = total_frags u acc;
  tk_window : window_ok acc (maxRtx_ t) (txWindowDesc_ t) (pduRtxQueue_ t) (txReceived_ t) (txDiscarded_ t) (pduTimer_ t);
  tk_mrw : mrw_ok acc (mrwDesc_ t) (mrwRtxQueue_ t) (mrwTimer_ t);
  tk_queue : Forall sdu_ok (amSduQueue_ t);
  tk_limit : total_frags u acc + total_frags u (amSduQueue_ t) <= limit < sn_bound;
  tk_info : 0 < tx_seq t -> lteInfo_ t <> None;
  tk_buf : Forall (sent_ok acc) (txPduBuffer_ t);
  tk_below sn : 0 <= sn < tx_first t -> got sn;
  tk_max : 0 <= maxRtx_ t < 2 ^ 16;
  tk_low : tx_first t <= low
}.

(** ** Putting a PDU into the window *)

Lemma frags_min s st k : sdu_ok s -> 0 <= k < nfrags u s ->
  (if k =? nfrags u s - 1 then as_bytes s - k * u else u) = Z.min u (as_bytes s - (st + k - st) * u).
Proof.
  intros Hs Hk. pose proof (nfrags_spec u Hu s Hs) as [_ Hb]. replace (st + k - st) with k by lia.
  destruct (Z.eqb_spec k (nfrags u s - 1)) as [->|Hne]; [rewrite Z.min_r by lia; done|rewrite Z.min_l; [done|nia]].
Qed.

(** The descriptor while an SDU that begins at [st] is put into the window. *)
Definition frag_desc (s : AmSdu) (st k size : Z) : RlcFragDesc :=
  {| sduSize_ := size; fragUnit_ := u; totalFragments_ := nfrags u s; fragCounter_ := k; firstSn_ := st |}.

Lemma fragment_planned s st k c size : sdu_ok s -> 0 <= st -> st + nfrags u s < sn_bound -> 0 <= k < nfrags u s ->
  fragment s (frag_desc s st c size) k (k * u) (st + k) = planned u s st (st + k).
Proof.
  intros Hs Hst Hb Hk. unfold fragment, planned, frag_pdu, frag_desc; cbn [totalFragments_ fragUnit_ firstSn_]. rewrite (frags_min s st k Hs Hk).
  unfold sn_bound in Hb. rewrite (wrap_small 32) by (unfold is_uint; lia). rewrite (swrap_small 32) by (unfold is_sint; lia).
  f_equal. by replace (st + k - st) with k by lia.
Qed.

(** The PDUs from [k] on, with their indices. *)
Definition frags_from (s : AmSdu) (st k first : Z) (n : nat) : list (AmPacket * Z) :=
  (fun j => (planned u s st (st + j), st + j - first)) <$> seqZ k (Z.of_nat n).

Lemma fragment_loop_planned s st first size n : forall k w,
  sdu_ok s -> 0 <= first <= st -> st + nfrags u s < sn_bound -> 0 <= k -> k + Z.of_nat n <= nfrags u s -> st + nfrags u s - first <= 200 ->
  firstSeqNum_ w = first -> seqNum_ w = st + k ->
  fragment_loop s (frag_desc s st 0 size) w k (k * u) n = Ok (frags_from s st k first n).
Proof.
  induction n as [|n IH]; intros k w Hs Hst Hb Hk Hn H200 Ef Es; [done|]. cbn [fragment_loop]. rewrite Es, Ef. unfold sn_bound in Hb.
  rewrite (swrap_small 32) by (unfold is_sint; lia). rewrite (proj2 (Z.leb_gt _ _)) by lia. rewrite fragment_planned by (unfold sn_bound; lia || done).
  change (fragUnit_ _) with u. replace (k * u + u) with ((k + 1) * u) by lia. rewrite IH; try done; try lia.
  - cbn [rbind]. unfold frags_from. rewrite (seqZ_cons k) by lia. rewrite fmap_cons. do 4 f_equal. lia.
  - cbn. rewrite wrap_small by (unfold is_uint; lia). lia.
Qed.

(** While an SDU [s] that begins at [st] is put into the window, [k] PDUs of it are there. *)
Record mid_ok (limit : Z) (acc : list AmSdu) (s : AmSdu) (st k : Z) (t : AmTxQueue A) : Prop := {
  md_sdu : sdu_ok s /\ 0 <= k < nfrags u s /\ 0 <= st /\ st + nfrags u s = total_frags u acc;
  md_entry j : st <= j < st + nfrags u s -> vget (plan_of u acc) j = Some (s, st);
  md_rest : currentSdu_ t = Some s /\
    fragmentList_ t = Some (frags_from s st k (tx_first t) (Z.to_nat (nfrags u s - k))).*1 /\
    txWindowIndexList_ t = (frags_from s st k (tx_first t) (Z.to_nat (nfrags u s - k))).*2;
  md_desc : exists size, fragDesc_ t = frag_desc s st k size;
  md_seq : tx_seq t = st + k;
  md_fits : st + nfrags u s < tx_first t + tx_size t;
  md_window : window_ok acc (maxRtx_ t) (txWindowDesc_ t) (pduRtxQueue_ t) (txReceived_ t) (txDiscarded_ t) (pduTimer_ t);
  md_mrw : mrw_ok acc (mrwDesc_ t) (mrwRtxQueue_ t) (mrwTimer_ t);
  md_queue : Forall sdu_ok (amSduQueue_ t);
  md_limit : total_frags u acc + total_frags u (amSduQueue_ t) <= limit < sn_bound;
  md_info : lteInfo_ t <> None;
  md_buf : Forall (sent_ok acc) (txPduBuffer_ t);
  md_below sn : 0 <= sn < tx_first t -> got sn;
  md_max : 0 <= maxRtx_ t < 2 ^ 16;
  md_low : tx_first t <= low
}.

(** What an operation that only adds PDUs leaves alone. *)
Definition same_base (t t' : AmTxQueue A) : Prop :=
  tx_first t' = tx_first t /\ tx_size t' = tx_size t /\ maxRtx_ t' = maxRtx_ t /\ mrwDesc_ t' = mrwDesc_ t.

Lemma same_base_trans t t' t'' : same_base t t' -> same_base t' t'' -> same_base t t''.
Proof. unfold same_base. intros (-> & -> & -> & ->) (-> & -> & -> & ->). done. Qed.

Lemma strip_planned s st sn : strip (planned u s st sn) = planned u s st sn.
Proof. done. Qed.

(** One more PDU of the plan at the end of the window. *)
Lemma window_add acc maxRtx w rtx recv disc m NOW time s st :
  window_ok acc maxRtx w rtx recv disc m -> seqNum_ w < firstSeqNum_ w + windowSize_ w -> 0 <= maxRtx ->
  vget (plan_of u acc) (seqNum_ w) = Some (s, st) ->
  arr_get rtx (seqNum_ w - firstSeqNum_ w) = None /\
  flag_at recv (seqNum_ w - firstSeqNum_ w) = Ok false /\ flag_at disc (seqNum_ w - firstSeqNum_ w) = Ok false /\
  exists rtx' m', arr_addAt rtx (seqNum_ w - firstSeqNum_ w) (planned u s st (seqNum_ w)) = Ok rtx' /\
    multi_add m NOW time (seqNum_ w) = Ok m' /\
    window_ok acc maxRtx (w <| seqNum_ := uint32 (seqNum_ w + 1) |>) rtx' recv disc m'.
Proof.
  intros Hw Hlt Hmax He. pose proof Hw as [W1 W2 W3 W4 W5 W6 W7 W8 W9 W10]. set (i := seqNum_ w - firstSeqNum_ w).
  assert (Hfree : arr_get rtx i = None). { destruct (arr_get rtx i) as [p|] eqn:E; [|done]. apply W4 in E as [? _]. lia. }
  assert (Hrecv : flag recv i = false). { destruct (flag recv i) eqn:E; [|done]. apply W7 in E as [? _]. lia. }
  split; [done|]. split; [rewrite flag_at_ok, Hrecv by lia; done|]. split; [rewrite flag_at_ok by lia; by rewrite (proj2 W8)|].
  assert (Hi : 0 <= i) by lia. destruct (arr_addAt_free rtx i (planned u s st (seqNum_ w)) Hi Hfree) as (rtx' & Ea & Hget).
  destruct (timer_add m NOW time (seqNum_ w) W9) as (m' & Em & Hm' & Ht); [rewrite W10; lia|].
  exists rtx', m'. split; [done|]. split; [done|]. apply vget_Some_bounds in He as Hb. rewrite plan_size in Hb by (done || apply W3).
  unfold sn_bound in W3. set (w' := set seqNum_ _ w).
  assert (Es : seqNum_ w' = seqNum_ w + 1) by (cbn; apply wrap_small; unfold is_uint; lia).
  change (firstSeqNum_ w') with (firstSeqNum_ w). change (windowSize_ w') with (windowSize_ w).
  split; rewrite ?Es; change (firstSeqNum_ w') with (firstSeqNum_ w); change (windowSize_ w') with (windowSize_ w); try done; try lia.
  - unfold sn_bound. split; [apply W3|lia].
  - intros j p. rewrite Hget. case_decide as Hj.
    + intros [= <-]. subst j. split; [lia|]. split; [|cbn; lia]. exists s, st. replace (firstSeqNum_ w + i) with (seqNum_ w) by lia. done.
    + intros Hp. destruct (W4 j p Hp) as (? & ? & ?). split; [lia|done].
  - intros j. rewrite Hget. case_decide; [done|]. intros Hn. specialize (W5 j Hn). lia.
  - intros j Hj. destruct (W7 j Hj). split; [lia|done].
  - intros e. rewrite Ht, W10. split.
    + intros [->|[? ?]]; [|split; [lia|done]]. split; [lia|]. exact Hrecv.
    + intros [? ?]. destruct (decide (e = seqNum_ w)); [by left|right; split; [lia|done]].
Qed.

Lemma is_fragment_planned acc s st sn : vget (plan_of u acc) sn = Some (s, st) -> is_fragment acc sn (planned u s st sn).
Proof. intros E. by exists s, st. Qed.

(** A round of [addPdus] within an SDU. *)
Lemma add_pdu_ok limit acc s st k t NOW : mid_ok limit acc s st k t ->
  exists pdu frags index indices t' e,
    fragmentList_ t = Some (pdu :: frags) /\ txWindowIndexList_ t = index :: indices /\
    add_pdu t NOW pdu frags index indices = Ok (t', e) /\ same_base t t' /\ amSduQueue_ t' = amSduQueue_ t /\
    if decide (k + 1 = nfrags u s) then tx_ok limit acc t' else mid_ok limit acc s st (k + 1) t'.
Proof.
  intros [(Hs & Hk & Hst & Etot) Hentry (Ecur & El & Ei) [size Ed] Eseq Hfits Hw Hm Hq Hlim Hinfo Hbuf Hbelow Hmax].
  pose proof (wk_plan _ _ _ _ _ _ _ Hw) as [_ Hplan]. pose proof (wk_range _ _ _ _ _ _ _ Hw) as Hr. pose proof (wk_size _ _ _ _ _ _ _ Hw) as [Hsz _].
  destruct (window_add acc _ _ _ _ _ _ NOW (pduRtxTimeout_ t) s st Hw) as (Hfree & Frecv & Fdisc & rtx & m & Ea & Em & Hw'); [lia|lia|apply Hentry; lia|].
  set (n := Z.to_nat (nfrags u s - (k + 1))).
  assert (En : Z.to_nat (nfrags u s - k) = S n) by lia. rewrite En in El, Ei. unfold frags_from in El, Ei.
  rewrite (seqZ_cons k) in El, Ei by lia. cbn [fmap list_fmap fst snd] in El, Ei. replace (Z.pred (Z.of_nat (S n))) with (Z.of_nat n) in El, Ei by lia.
  replace (Z.succ k) with (k + 1) in El, Ei by lia. fold (frags_from s st (k + 1) (tx_first t) n) in El, Ei.
  do 4 eexists. do 2 eexists. split; [exact El|]. split; [exact Ei|].
  unfold add_pdu.
  rewrite <- Eseq. change (snoFragment _) with (tx_seq t). rewrite Z.eqb_refl; cbn [negb]. rewrite Hfree, Ea; cbn [rbind].
  rewrite (proj2 (Z.leb_gt _ _)) by lia. rewrite Frecv; cbn [rbind]. rewrite Fdisc; cbn [rbind orb]. rewrite Em; cbn [rbind].
  rewrite Ed. unfold addFragment. change (totalFragments_ _ <=? fragCounter_ _) with (nfrags u s <=? k + 1).
  assert (Hout : is_fragment acc (st + k) (planned u s st (st + k))) by (apply is_fragment_planned, Hentry; lia).
  split; [reflexivity|]. case_decide as Hlast.
  - assert (n = 0%nat) as -> by lia. cbn [seqZ fmap]. rewrite (proj2 (Z.leb_le _ _)) by lia. cbn [orb].
    split; [done|]. split; [done|]. split; cbn; try done.
    + rewrite wrap_small by (unfold is_uint, sn_bound in *; lia). lia.
    + apply Forall_app. split; [done|]. constructor; [left; left; rewrite Eseq; eauto|done].
  - rewrite (proj2 (Z.leb_gt _ _)) by lia. assert (exists x l, (frags_from s st (k + 1) (tx_first t) n).*1 = x :: l) as (x & l & El').
    { destruct n as [|n'] eqn:En'; [lia|]. unfold frags_from. rewrite seqZ_cons by lia. cbn. eauto. }
    rewrite El'. cbn [orb]. split; [done|]. split; [done|]. split; cbn; try done; try lia.
    + split_and!; try done; lia.
    + split; [exact Ecur|]. fold n. by rewrite El'.
    + by eexists.
    + rewrite wrap_small by (unfold is_uint, sn_bound in *; lia). lia.
    + apply Forall_app. split; [done|]. constructor; [left; left; rewrite Eseq; eauto|done].
Qed.

Lemma add_loop_mid fuel t NOW s frags :
  in_window (txWindowDesc_ t) < tx_size t -> currentSdu_ t = Some s -> fragmentList_ t = Some frags ->
  add_loop fuel t NOW =
    match frags, txWindowIndexList_ t, fuel with
    | pdu :: frags, index :: indices, S fuel' =>
        let! (t, e) := add_pdu t NOW pdu frags index indices in
        let! (t, e') := add_loop fuel' t NOW in
        Ok (t, e ++ e')
    | _, _, _ => UB
    end.
Proof.
  intros Hin Hc Hl. destruct fuel as [|fuel]; cbn [add_loop]; rewrite (proj2 (Z.ltb_lt _ _)) by lia; unfold no_data, take_sdu;
    rewrite Hc; cbn [negb orb rbind]; by rewrite Hl.
Qed.

(** The rounds that put the rest of an SDU into the window. *)
Lemma add_rounds limit acc s st NOW n : forall k t, mid_ok limit acc s st k t -> Z.of_nat n = nfrags u s - k ->
  exists t1 e1, tx_ok limit acc t1 /\ same_base t t1 /\ amSduQueue_ t1 = amSduQueue_ t /\
    forall fuel, add_loop (n + fuel) t NOW = let! (t2, e2) := add_loop fuel t1 NOW in Ok (t2, e1 ++ e2).
Proof.
  induction n as [|n IH]; intros k t Ht Hn; [pose proof (md_sdu _ _ _ _ _ _ Ht); lia|].
  destruct (add_pdu_ok limit acc s st k t NOW Ht) as (pdu & frags & index & indices & t' & e & El & Ei & E & Hb & Hq & Hnext).
  pose proof (md_sdu _ _ _ _ _ _ Ht) as (_ & Hk & _). pose proof (md_fits _ _ _ _ _ _ Ht). pose proof (md_seq _ _ _ _ _ _ Ht).
  assert (Hround : forall fuel, add_loop (S fuel) t NOW = let! (t2, e2) := add_loop fuel t' NOW in Ok (t2, e ++ e2)).
  { intros fuel. rewrite (add_loop_mid _ t NOW s (pdu :: frags)); [|rewrite (in_window_eq _ _ _ _ _ _ _ (md_window _ _ _ _ _ _ Ht)); lia|apply Ht|done].
    by rewrite Ei, E. }
  case_decide as Hlast.
  - assert (n = 0%nat) as -> by lia. exists t', e. split; [done|]. split; [done|]. split; [done|]. intros fuel. apply Hround.
  - destruct (IH (k + 1) t' Hnext) as (t1 & e1 & Ht1 & Hb1 & Hq1 & Hrun); [lia|].
    exists t1, (e ++ e1). split; [done|]. split; [by eapply same_base_trans|]. split; [congruence|].
    intros fuel. cbn [Nat.add]. rewrite Hround, Hrun. destruct (add_loop fuel t1 NOW) as [[t2 e2]| |]; cbn [rbind]; [by rewrite app_assoc|done|done].
Qed.

(** Taking an SDU that fits from the queue. *)
Lemma take_fits limit acc t s queue : tx_ok limit acc t -> amSduQueue_ t = s :: queue -> tx_seq t + nfrags u s < tx_first t + tx_size t ->
  exists t1, take_sdu t = Ok t1 /\ mid_ok limit (acc ++ [s]) s (tx_seq t) 0 t1 /\ same_base t t1 /\ amSduQueue_ t1 = queue.
Proof.
  intros [(R1 & R2 & R3) Hun Hseq Hw Hm Hq Hl Hinfo Hbuf Hbelow Hmax] Eq Hfit. rewrite Eq in Hq, Hl. inversion Hq as [|? ? Hs Hq']; subst.
  pose proof (nfrags_spec u Hu s Hs) as [Hn _]. pose proof (wk_plan _ _ _ _ _ _ _ Hw) as [Hok Hplan]. pose proof (wk_range _ _ _ _ _ _ _ Hw).
  pose proof (wk_size _ _ _ _ _ _ _ Hw) as [Hsz Hsz']. rewrite total_frags_cons in Hl. pose proof (total_frags_nonneg u Hu queue Hq').
  assert (Hacc : total_frags u (acc ++ [s]) = tx_seq t + nfrags u s) by (rewrite total_frags_app, total_frags_cons; change (total_frags u []) with 0; lia).
  assert (Hok1 : Forall sdu_ok [s]) by (by constructor). unfold sn_bound in *.
  unfold take_sdu. rewrite R1, Eq. unfold ceil_div. change (fragUnit_ (fragDesc_ _)) with (fragUnit_ (fragDesc_ t)). rewrite Hun, (proj2 (Z.leb_gt _ _)) by lia. cbn [rbind].
  fold (nfrags u s). change (tx_seq (set amSduQueue_ _ t)) with (tx_seq t). change (tx_first (set amSduQueue_ _ t)) with (tx_first t). change (tx_size (set amSduQueue_ _ t)) with (tx_size t).
  rewrite !(wrap_small 32) by (unfold is_uint; lia). rewrite (proj2 (Z.ltb_lt _ _)) by lia.
  assert (Ed : startFragmentation (fragDesc_ t) (as_bytes s) (tx_seq t) = Ok (frag_desc s (tx_seq t) 0 (sduSize_ (fragDesc_ t)))).
  { unfold startFragmentation, ceil_div. rewrite Hun, (proj2 (Z.leb_gt _ _)) by lia. cbn [rbind]. fold (nfrags u s). rewrite swrap_small by (unfold is_sint; lia).
    unfold frag_desc. cbn. by rewrite Hun. }
  change (fragDesc_ (set amSduQueue_ _ t)) with (fragDesc_ t). rewrite Ed; cbn [rbind]. set (t1 := set currentSdu_ _ _).
  assert (Ef : fragmentFrame t1 s = Ok (frags_from s (tx_seq t) 0 (tx_first t) (Z.to_nat (nfrags u s)))).
  { apply (fragment_loop_planned s (tx_seq t) (tx_first t) (sduSize_ (fragDesc_ t)) (Z.to_nat (nfrags u s)) 0 (txWindowDesc_ t));
      unfold sn_bound; done || lia. }
  rewrite Ef; cbn [rbind]. eexists. split; [reflexivity|]. split; [|by split; [split|]].
  split; cbn; try done; try lia.
  - split_and!; try done; lia.
  - intros j Hj. rewrite plan_snoc by done. rewrite vget_app. pose proof (plan_size u Hu acc Hok). case_decide; [lia|].
    rewrite <- Hseq in *. rewrite H1. apply vget_replicate_eq. lia.
  - by rewrite Z.sub_0_r.
  - by eexists.
  - apply window_extend; [done| |done]. unfold sn_bound. lia.
  - by apply mrw_extend.
  - unfold sn_bound. lia.
  - eapply Forall_impl; [exact Hbuf|]. intros p. by apply sent_ok_extend.
Qed.
(** An SDU that does not fit into the rest of the window has left the queue and is lost. *)
Lemma take_lost limit acc t s queue : tx_ok limit acc t -> amSduQueue_ t = s :: queue -> tx_first t + tx_size t <= tx_seq t + nfrags u s ->
  take_sdu t = Ok (t <| amSduQueue_ := queue |>) /\ tx_ok limit acc (t <| amSduQueue_ := queue |>).
Proof.
  intros [(R1 & R2 & R3) Hun Hseq Hw Hm Hq Hl Hinfo Hbuf Hbelow Hmax] Eq Hfit. rewrite Eq in Hq, Hl. inversion Hq as [|? ? Hs Hq']; subst.
  pose proof (nfrags_spec u Hu s Hs) as [Hn _]. pose proof (wk_range _ _ _ _ _ _ _ Hw).
  pose proof (wk_size _ _ _ _ _ _ _ Hw) as [Hsz Hsz']. rewrite total_frags_cons in Hl. pose proof (total_frags_nonneg u Hu queue Hq'). unfold sn_bound in *. split.
  - unfold take_sdu. rewrite R1, Eq. unfold ceil_div. change (fragUnit_ (fragDesc_ _)) with (fragUnit_ (fragDesc_ t)). rewrite Hun, (proj2 (Z.leb_gt _ _)) by lia. cbn [rbind].
    fold (nfrags u s). change (tx_seq (set amSduQueue_ _ t)) with (tx_seq t). change (tx_first (set amSduQueue_ _ t)) with (tx_first t). change (tx_size (set amSduQueue_ _ t)) with (tx_size t).
    rewrite !(wrap_small 32) by (unfold is_uint; lia). by rewrite (proj2 (Z.ltb_ge _ _)) by lia.
  - split; cbn; try done. unfold sn_bound. lia.
Qed.

Lemma add_loop_ok limit NOW queue : forall fuel t acc,
  tx_ok limit acc t -> amSduQueue_ t = queue -> tx_size t - (tx_seq t - tx_first t) <= Z.of_nat fuel ->
  exists acc' t' e, add_loop fuel t NOW = Ok (t', e) /\ tx_ok limit (acc ++ acc') t' /\ same_base t t' /\
    admits u (total_frags u acc) (tx_first t + tx_size t) queue = (acc', amSduQueue_ t').
Proof.
  induction queue as [|s queue IH]; intros fuel t acc Ht Eq Hfuel; pose proof (tk_rest _ _ _ Ht) as (R1 & R2 & R3);
    pose proof (in_window_eq _ _ _ _ _ _ _ (tk_window _ _ _ Ht)) as Ein.
  - exists [], t, []. rewrite app_nil_r, Eq. split; [|done]. unfold add_loop. destruct fuel; unfold no_data; rewrite R1, R2, Eq; by rewrite orb_true_r.
  - destruct (decide (in_window (txWindowDesc_ t) < tx_size t)) as [Hin|Hin].
    2:{ pose proof (tk_seq _ _ _ Ht). exists [], t, []. rewrite app_nil_r, Eq, admits_full by lia. split; [|done]. destruct fuel; cbn [add_loop]; by rewrite (proj2 (Z.ltb_ge _ _)) by lia. }
    assert (Hgo : forall fuel, add_loop fuel t NOW = let! t := take_sdu t in
      match fragmentList_ t with
      | None => Ok (t, [])
      | Some frags =>
          match frags, txWindowIndexList_ t, fuel with
          | pdu :: frags, index :: indices, S fuel' =>
              let! (t, e) := add_pdu t NOW pdu frags index indices in
              let! (t, e') := add_loop fuel' t NOW in
              Ok (t, e ++ e')
          | _, _, _ => UB
          end
      end).
    { intros [|f]; cbn [add_loop]; unfold no_data; rewrite (proj2 (Z.ltb_lt _ _)), R1, Eq by lia; done. }
    cbn [admits]. rewrite <- (tk_seq _ _ _ Ht), (proj2 (Z.leb_gt _ _)) by lia.
    destruct (decide (tx_seq t + nfrags u s < tx_first t + tx_size t)) as [Hfit|Hfit].
    + destruct (take_fits limit acc t s queue Ht Eq Hfit) as (t1 & E1 & Ht1 & Hb1 & Hq1).
      destruct (add_rounds limit (acc ++ [s]) s (tx_seq t) NOW (Z.to_nat (nfrags u s)) 0 t1 Ht1) as (t2 & e2 & Ht2 & Hb2 & Hq2 & Hrun).
      { pose proof (md_sdu _ _ _ _ _ _ Ht1). lia. }
      pose proof (md_sdu _ _ _ _ _ _ Ht1) as (Hs & Hk & _ & Etot). pose proof (tk_seq _ _ _ Ht2) as E2. pose proof (tk_seq _ _ _ Ht) as E0.
      destruct Hb1 as (B1 & B2 & B3 & B4). pose proof Hb2 as (B5 & B6 & B7 & B8). pose proof (wk_range _ _ _ _ _ _ _ (tk_window _ _ _ Ht)).
      destruct (IH (fuel - Z.to_nat (nfrags u s))%nat t2 (acc ++ [s])) as (acc' & t3 & e3 & E3 & Ht3 & Hb3 & Hadm); [done|congruence|lia|].
      exists (s :: acc'), t3, (e2 ++ e3). split.
      * rewrite Hgo, E1; cbn [rbind]. pose proof (md_rest _ _ _ _ _ _ Ht1) as (C1 & C2 & C3). rewrite C2.
        rewrite <- (add_loop_mid fuel t1 NOW s _) by (first [done|pose proof (in_window_eq _ _ _ _ _ _ _ (md_window _ _ _ _ _ _ Ht1)); pose proof (md_seq _ _ _ _ _ _ Ht1); lia]).
        replace fuel with (Z.to_nat (nfrags u s) + (fuel - Z.to_nat (nfrags u s)))%nat by lia. rewrite Hrun. replace (Z.to_nat (nfrags u s) + (fuel - Z.to_nat (nfrags u s)) - Z.to_nat (nfrags u s))%nat with (fuel - Z.to_nat (nfrags u s))%nat by lia.
        by rewrite E3.
      * rewrite <- app_assoc in Ht3. split; [done|]. split.
        2:{ rewrite (proj2 (Z.ltb_lt _ _)) by lia. rewrite Etot, <- B1, <- B2, <- B5, <- B6, Hadm. done. }
        eapply same_base_trans; [|exact Hb3]. eapply same_base_trans; [|exact Hb2]. by split.
    + destruct (take_lost limit acc t s queue Ht Eq) as [E1 Ht1]; [lia|]. exists [], (t <| amSduQueue_ := queue |>), []. rewrite app_nil_r.
      split; [|split; [done|]; split; [done|by rewrite (proj2 (Z.ltb_ge _ _)) by lia]]. rewrite Hgo, E1; cbn [rbind]. change (fragmentList_ (set amSduQueue_ _ t)) with (fragmentList_ t). by rewrite R2.
Qed.

(** The outcome of an operation that may put SDUs of the queue, and [more], into the window. *)
Definition adds (limit : Z) (acc : list AmSdu) (more : list AmSdu) (t : AmTxQueue A) (o : result (AmTxQueue A * list amtx_effect)) : Prop :=
  exists acc' t' e, o = Ok (t', e) /\ tx_ok limit (acc ++ acc') t' /\ tx_size t' = tx_size t /\ maxRtx_ t' = maxRtx_ t /\ tx_first t <= tx_first t' /\
    mrwSeqNum_ (mrwDesc_ t') <= mrwSeqNum_ (mrwDesc_ t) + 1 /\
    enters u (total_frags u acc) (tx_first t) (tx_first t') (tx_size t) (amSduQueue_ t) more = (acc', amSduQueue_ t').

Lemma addPdus_ok limit acc t NOW : tx_ok limit acc t ->
  exists acc' t' e, addPdus t NOW = Ok (t', e) /\ tx_ok limit (acc ++ acc') t' /\ same_base t t' /\
    admits u (total_frags u acc) (tx_first t + tx_size t) (amSduQueue_ t) = (acc', amSduQueue_ t').
Proof.
  intros Ht. pose proof (wk_range _ _ _ _ _ _ _ (tk_window _ _ _ Ht)). pose proof (wk_size _ _ _ _ _ _ _ (tk_window _ _ _ Ht)).
  destruct (add_loop_ok limit NOW (amSduQueue_ t) (Z.to_nat (tx_size t)) t acc Ht eq_refl) as (acc' & t' & e & E & Ht' & Hb & Hq); [lia|].
  exists acc', t', e. split; [|done]. unfold addPdus. rewrite E; cbn [rbind]. by pose proof (tk_rest _ _ _ Ht') as (_ & -> & ->).
Qed.

Lemma am_enque_ok limit acc t NOW s : tx_ok limit acc t -> sdu_ok s -> limit + nfrags u s < sn_bound ->
  adds (limit + nfrags u s) acc [s] t (am_enque t NOW s).
Proof.
  intros Ht Hs Hlim. pose proof (nfrags_spec u Hu s Hs) as [Hn _]. set (t1 := t <| amSduQueue_ := amSduQueue_ t ++ [s] |>).
  assert (Ht1 : tx_ok (limit + nfrags u s) acc t1).
  { destruct Ht as [R Hun Hseq Hw Hm Hq Hl Hinfo Hbuf Hbelow Hmax]. split; cbn; try done.
    - apply Forall_app. split; [done|by constructor].
    - rewrite total_frags_app, total_frags_cons. change (total_frags u []) with 0. lia. }
  unfold am_enque. fold t1. pose proof (tk_rest _ _ _ Ht) as (R1 & _). change (currentSdu_ t1) with (currentSdu_ t). rewrite R1.
  assert (Ee : forall first', enters u (total_frags u acc) (tx_first t) first' (tx_size t) (amSduQueue_ t) [s] =
    admits u (total_frags u acc) (first' + tx_size t) (amSduQueue_ t ++ [s])) by (intros; unfold enters; by rewrite orb_true_r).
  destruct (Z.ltb_spec (in_window (txWindowDesc_ t1)) (tx_size t1)) as [Hin|Hin].
  - destruct (addPdus_ok _ acc t1 NOW Ht1) as (acc' & t' & e & E & Ht' & (B1 & B2 & B3 & B4) & Hq).
    exists acc', t', e. rewrite Ee, B1, B2, B3, B4. split_and!; try done; cbn; try lia.
  - exists [], t1, []. rewrite (in_window_eq _ _ _ _ _ _ _ (tk_window _ _ _ Ht1)), (tk_seq _ _ _ Ht1) in Hin. cbn in Hin.
    rewrite Ee, app_nil_r, admits_full by (cbn; lia). split_and!; try done; cbn; try lia.
Qed.

(** ** Sending and commands *)

Lemma tx_set_buf limit acc t l : tx_ok limit acc t -> Forall (sent_ok acc) l -> tx_ok limit acc (t <| txPduBuffer_ := l |>).
Proof. intros [R Hun Hseq Hw Hm Hq Hl Hinfo Hbuf Hbelow Hmax] Hf. by split. Qed.

Lemma tx_buffer limit acc t p : tx_ok limit acc t -> sent_ok acc p -> tx_ok limit acc (bufferPdu t p).1.
Proof. intros Ht Hp. apply tx_set_buf; [done|]. apply Forall_app. split; [apply Ht|by constructor]. Qed.

Lemma down_ok_bits acc p : down_ok acc p -> down_ok acc (p <| am_pdu := (am_pdu p) <| chunkBits := 1 |> |>).
Proof. intros [(sn & s & st & E & Hp)|Hm]; [left; exists sn, s, st; by split|by right]. Qed.

Lemma sendPdus_ok limit acc t size : (forall p, other p -> other (p <| am_pdu := (am_pdu p) <| chunkBits := 1 |> |>)) ->
  tx_ok limit acc t -> txPduBuffer_ t <> [] ->
  exists t' out e, sendPdus t size = Ok (t', AmSendFragmented out :: e) /\ tx_ok limit acc t' /\ sent_ok acc out /\
    (forall p, AmSendFragmented p ∉ e) /\ same_base t t' /\ amSduQueue_ t' = amSduQueue_ t.
Proof.
  intros Hother Ht Hne. unfold sendPdus. pose proof (tk_buf _ _ _ Ht) as Hbuf. destruct (txPduBuffer_ t) as [|pkt rest] eqn:Eb; [done|].
  inversion Hbuf as [|? ? Hp Hrest]; subst.
  assert (Hnew : forall (t : AmTxQueue A) p, AmSendFragmented p ∉ match txPduBuffer_ t with [] => [] | q :: _ => [AmNewData q] end).
  { intros t0 p Hin. destruct (txPduBuffer_ t0); [by apply elem_of_nil in Hin|]. by apply list_elem_of_singleton in Hin. }
  destruct (_ <=? _); eexists _, _, _; (split; [reflexivity|]).
  - split; [by apply tx_set_buf|]. split; [done|]. split; [apply Hnew|by split].
  - split; [done|]. split; [destruct Hp; [left; by apply down_ok_bits|right; by apply Hother]|]. split; [apply Hnew|by split].
Qed.

Lemma done_prefix_ok acc t n : window_ok acc (maxRtx_ t) (txWindowDesc_ t) (pduRtxQueue_ t) (txReceived_ t) (txDiscarded_ t) (pduTimer_ t) ->
  forall i, 0 <= i -> i + Z.of_nat n <= tx_seq t - tx_first t ->
  exists k, done_prefix t i n = Ok k /\ (k <= n)%nat /\ forall j, i <= j < i + Z.of_nat k -> flag (txReceived_ t) j = true.
Proof.
  intros Hw. pose proof (wk_size _ _ _ _ _ _ _ Hw). pose proof (wk_recv_size _ _ _ _ _ _ _ Hw). pose proof (wk_disc _ _ _ _ _ _ _ Hw) as [Hds Hd].
  induction n as [|n IH]; intros i Hi Hn; cbn [done_prefix]; [exists O; split_and!; [done|lia|lia]|].
  rewrite flag_at_ok, Hd by lia; cbn [rbind]. rewrite flag_at_ok by lia; cbn [rbind orb]. destruct (flag (txReceived_ t) i) eqn:Ef.
  - destruct (IH (i + 1)) as (k & -> & Hk & Hall); [lia|lia|]. exists (S k). split; [done|]. split; [lia|]. intros j Hj.
    destruct (decide (j = i)) as [->|]; [done|]. apply Hall. lia.
  - exists O. split_and!; [done|lia|lia].
Qed.

Lemma adds_none limit acc t t' e : tx_ok limit acc t' -> tx_size t' = tx_size t -> maxRtx_ t' = maxRtx_ t -> tx_first t' = tx_first t ->
  mrwSeqNum_ (mrwDesc_ t') <= mrwSeqNum_ (mrwDesc_ t) + 1 -> amSduQueue_ t' = amSduQueue_ t -> adds limit acc [] t (Ok (t', e)).
Proof. intros Ht ? ? Hf ? Hq. exists [], t', e. rewrite app_nil_r, Hf, enters_none, Hq. by split_and!. Qed.

Lemma sendMrw_ok limit acc t NOW sn : tx_ok limit acc t -> mrwSeqNum_ (mrwDesc_ t) < 2 ^ 31 - 1 -> 0 < sn <= tx_seq t ->
  (forall j, 0 <= j < sn -> got j) -> adds limit acc [] t (sendMrw t NOW sn).
Proof.
  intros Ht Hnum Hsn Hgot. unfold sendMrw. pose proof (tk_info _ _ _ Ht) as Hinfo. destruct (lteInfo_ t) as [info|] eqn:Ei; [|exfalso; apply Hinfo; [lia|done]].
  pose proof (tk_mrw _ _ _ Ht) as [M1 M2 M3 M4]. set (num := mrwSeqNum_ (mrwDesc_ t)) in *. rewrite swrap_small by (unfold is_sint; lia).
  assert (Hfree : arr_get (mrwRtxQueue_ t) num = None). { destruct (arr_get _ num) as [p|] eqn:E; [|done]. apply M2 in E as [? _]. lia. }
  destruct (arr_addAt_free (mrwRtxQueue_ t) num (mrw_packet t sn info) M1 Hfree) as (rtx & -> & Hget). cbn [rbind].
  destruct (timer_add (mrwTimer_ t) NOW (ctrlPduRtxTimeout_ t) num M3) as (m & -> & Hm & Htm); [rewrite M4, Hfree; congruence|]. cbn [rbind].
  assert (Hp : down_ok acc (mrw_packet t sn info)).
  { right. split; [done|]. rewrite <- (tk_seq _ _ _ Ht). split; [cbn; lia|]. split; [done|]. cbn. fold num. lia. }
  rewrite (wrap_small 32) by (unfold is_uint; lia). unfold bufferControlPdu.
  destruct Ht as [R Hun Hseq Hw Hmm Hq Hl Hi Hbuf Hbelow Hmax]. apply adds_none; try done; try (cbn; fold num; lia). split; cbn; try done.
  - split; cbn; [lia| |done|].
    + intros i p. rewrite Hget. case_decide; [intros [= <-]; split; [lia|done]|]. intros Hp'. destruct (M2 i p Hp'). split; [lia|done].
    + intros e. rewrite Htm, Hget, M4. case_decide; [|naive_solver]. split; [done|]. intros _. by left.
  - apply Forall_app. split; [done|]. constructor; [by left|done].
Qed.

Lemma checkForMrw_ok limit acc t NOW : tx_ok limit acc t -> mrwSeqNum_ (mrwDesc_ t) < 2 ^ 31 - 1 ->
  adds limit acc [] t (checkForMrw t NOW).
Proof.
  intros Ht Hnum. unfold checkForMrw. pose proof (tk_window _ _ _ Ht) as Hw. rewrite (in_window_eq _ _ _ _ _ _ _ Hw).
  pose proof (wk_range _ _ _ _ _ _ _ Hw) as Hr. pose proof (wk_plan _ _ _ _ _ _ _ Hw) as [_ Hplan]. unfold sn_bound in Hplan.
  destruct (done_prefix_ok acc t (Z.to_nat (tx_seq t - tx_first t)) Hw 0) as (k & -> & Hk & Hall); [lia|lia|]. cbn [rbind].
  destruct k as [|k]; [apply adds_none; done || lia|]. rewrite !(swrap_small 32) by (unfold is_sint; lia || rewrite swrap_small; unfold is_sint; lia).
  apply sendMrw_ok; [done|done|lia|]. intros j Hj. destruct (decide (j < tx_first t)); [apply (tk_below _ _ _ Ht); lia|].
  specialize (Hall (j - tx_first t)). apply (wk_recv _ _ _ _ _ _ _ Hw) in Hall as [_ Hg]; [|lia]. by replace (tx_first t + (j - tx_first t)) with j in Hg by lia.
Qed.

(** ** Acknowledgements *)

Definition got_below (acc : list AmSdu) : Prop := forall sn, got sn -> 0 <= sn < total_frags u acc.

Lemma stop_pdu_timer_ok (t : AmTxQueue A) sn : multi_ok (pduTimer_ t) -> is_uint 32 sn ->
  exists m, stop_pdu_timer t sn = Ok (t <| pduTimer_ := m |>) /\ multi_ok m /\ forall e, timed m e <-> timed (pduTimer_ t) e /\ e <> sn.
Proof.
  intros Hm Hsn. unfold stop_pdu_timer. rewrite wrap_small by done. destruct (multi_busy (pduTimer_ t) sn) eqn:Eb.
  - destruct (timer_remove (pduTimer_ t) sn Hm Eb) as (m & -> & Hm' & Ht). exists m. by split.
  - exists (pduTimer_ t). split; [by destruct t|]. split; [done|]. intros e. split; [|by intros [? _]].
    intros He. split; [done|]. intros ->. unfold timed in He. congruence.
Qed.

(** The first acknowledgement of a PDU of the window. *)
Lemma window_ack acc (t : AmTxQueue A) i : window_ok acc (maxRtx_ t) (txWindowDesc_ t) (pduRtxQueue_ t) (txReceived_ t) (txDiscarded_ t) (pduTimer_ t) ->
  0 <= i < tx_seq t - tx_first t -> got (tx_first t + i) ->
  exists m r, stop_pdu_timer t (i + tx_first t) = Ok (t <| pduTimer_ := m |>) /\ set_flag (txReceived_ t) i true = Ok r /\
    window_ok acc (maxRtx_ t) (txWindowDesc_ t) (pduRtxQueue_ t) r (txDiscarded_ t) m.
Proof.
  intros [W1 W2 W3 W4 W5 W6 W7 W8 W9 W10] Hi Hg. unfold sn_bound in W3.
  destruct (stop_pdu_timer_ok t (i + tx_first t) W9) as (m & Em & Hm & Ht); [unfold is_uint; lia|].
  destruct (set_flag_ok (txReceived_ t) i true) as (r & Er & Hlen & Hr); [lia|]. exists m, r. split; [done|]. split; [done|]. split; try done.
  - by rewrite Hlen.
  - intros j. rewrite Hr. case_decide; [intros _; subst; split; [lia|done]|apply W7].
  - intros e. rewrite Ht, W10, Hr. case_decide as Hd; [|split; [intros [[? ?] ?]; done|intros [? ?]; split; [done|lia]]].
    split; [intros [_ ?]; lia|by intros [_ ?]].
Qed.

Lemma tx_set_window limit acc t r m : tx_ok limit acc t ->
  window_ok acc (maxRtx_ t) (txWindowDesc_ t) (pduRtxQueue_ t) r (txDiscarded_ t) m ->
  tx_ok limit acc (t <| pduTimer_ := m |> <| txReceived_ := r |>).
Proof. intros [R Hun Hseq Hw Hm Hq Hl Hinfo Hbuf Hbelow Hmax] Hw'. by split. Qed.

Lemma recvAck_ok limit acc t sn : tx_ok limit acc t -> got_below acc -> got sn ->
  exists t', recvAck t sn = Ok t' /\ tx_ok limit acc t' /\ same_base t t' /\ amSduQueue_ t' = amSduQueue_ t.
Proof.
  intros Ht Hbelow Hg. pose proof (Hbelow sn Hg) as Hsn. rewrite <- (tk_seq _ _ _ Ht) in Hsn. pose proof (tk_window _ _ _ Ht) as Hw.
  pose proof (wk_plan _ _ _ _ _ _ _ Hw) as [_ Hplan]. unfold sn_bound in Hplan. pose proof (wk_range _ _ _ _ _ _ _ Hw). pose proof (wk_size _ _ _ _ _ _ _ Hw).
  unfold recvAck, tx_index. rewrite swrap_small by (unfold is_sint; lia). destruct (Z.ltb_spec (sn - tx_first t) 0); [exists t; by split_and!|].
  rewrite wrap_small by (unfold is_uint; lia). rewrite (proj2 (Z.leb_gt _ _)) by lia. rewrite flag_at_ok by (rewrite (wk_recv_size _ _ _ _ _ _ _ Hw); lia). cbn [rbind].
  destruct (flag _ _); [exists t; by split_and!|].
  destruct (window_ack acc t (sn - tx_first t) Hw) as (m & r & -> & Er & Hw'); [lia|by replace (tx_first t + (sn - tx_first t)) with sn by lia|].
  cbn [rbind]. change (txReceived_ (set pduTimer_ _ t)) with (txReceived_ t). rewrite Er; cbn [rbind].
  change (pduRtxQueue_ (set pduTimer_ _ t)) with (pduRtxQueue_ t). destruct (arr_get (pduRtxQueue_ t) _) eqn:Eg; [|by apply (wk_free _ _ _ _ _ _ _ Hw) in Eg; lia].
  eexists. split; [reflexivity|]. split; [by apply tx_set_window|by split].
Qed.

Lemma ack_loop_ok limit acc n : forall t i, tx_ok limit acc t -> 0 <= i -> i + Z.of_nat n <= tx_seq t - tx_first t ->
  (forall j, i <= j < i + Z.of_nat n -> got (tx_first t + j)) ->
  exists t', ack_loop t i n = Ok t' /\ tx_ok limit acc t' /\ same_base t t' /\ amSduQueue_ t' = amSduQueue_ t.
Proof.
  induction n as [|n IH]; intros t i Ht Hi Hn Hg; cbn [ack_loop]; [exists t; by split_and!|]. pose proof (tk_window _ _ _ Ht) as Hw.
  pose proof (wk_size _ _ _ _ _ _ _ Hw). rewrite flag_at_ok by (rewrite (wk_recv_size _ _ _ _ _ _ _ Hw); lia). cbn [rbind].
  destruct (flag _ _); cbn [rbind]; [apply IH; try done; [lia|lia|intros; apply Hg; lia]|].
  destruct (window_ack acc t i Hw) as (m & r & -> & Er & Hw'); [lia|apply Hg; lia|]. cbn [rbind].
  change (txReceived_ (set pduTimer_ _ t)) with (txReceived_ t). rewrite Er; cbn [rbind].
  destruct (IH (t <| pduTimer_ := m |> <| txReceived_ := r |>) (i + 1)) as (t' & -> & Ht' & Hb & Hq); [by apply tx_set_window|lia|cbn; lia|cbn; intros; apply Hg; lia|].
  exists t'. split_and!; try done.
Qed.

Lemma recvCumulativeAck_ok limit acc t NOW sn : tx_ok limit acc t -> mrwSeqNum_ (mrwDesc_ t) < 2 ^ 31 - 1 -> got_below acc ->
  -1 <= sn -> (forall j, 0 <= j <= sn -> got j) -> adds limit acc [] t (recvCumulativeAck t NOW sn).
Proof.
  intros Ht Hnum Hbelow Hsn Hg. pose proof (tk_window _ _ _ Ht) as Hw. pose proof (tk_seq _ _ _ Ht) as Hseq.
  pose proof (wk_plan _ _ _ _ _ _ _ Hw) as [_ Hplan]. unfold sn_bound in Hplan. pose proof (wk_range _ _ _ _ _ _ _ Hw). pose proof (wk_size _ _ _ _ _ _ _ Hw).
  unfold recvCumulativeAck. destruct (Z.ltb_spec sn 0); [rewrite orb_true_r; apply adds_none; done || lia|]. rewrite orb_false_r.
  assert (Hmax : sn < tx_seq t) by (rewrite Hseq; apply Hbelow, Hg; lia). rewrite !(wrap_small 32) by (unfold is_uint; lia).
  destruct (Z.ltb_spec sn (tx_first t)); [apply adds_none; done || lia|]. rewrite (proj2 (Z.ltb_ge _ _)) by lia.
  rewrite (wrap_small 32 (sn - tx_first t)) by (unfold is_uint; lia).
  destruct (ack_loop_ok limit acc (Z.to_nat (sn - tx_first t + 1)) t 0 Ht) as (t' & -> & Ht' & (B1 & B2 & B3 & B4) & Eq); [lia|lia|intros; apply Hg; lia|].
  cbn [rbind]. destruct (checkForMrw_ok limit acc t' NOW Ht') as (acc' & t2 & e & -> & Ht2 & E1 & E2 & E3 & E4 & E5); [by rewrite B4|].
  exists acc', t2, e. rewrite <- Eq, <- B1, <- B2, <- B3, <- B4. done.
Qed.

Lemma bitmap_loop_ok limit acc bits : forall t sn, tx_ok limit acc t -> got_below acc ->
  (forall i, bits !! i = Some true -> got (sn + Z.of_nat i)) ->
  exists t', bitmap_loop t sn bits = Ok t' /\ tx_ok limit acc t' /\ same_base t t' /\ amSduQueue_ t' = amSduQueue_ t.
Proof.
  induction bits as [|b bits IH]; intros t sn Ht Hbelow Hg; cbn [bitmap_loop]; [exists t; by split_and!|].
  assert (Hrest : forall i, bits !! i = Some true -> got (sn + 1 + Z.of_nat i)).
  { intros i Hi. replace (sn + 1 + Z.of_nat i) with (sn + Z.of_nat (S i)) by lia. by apply Hg. }
  destruct b; cbn [rbind]; [|by apply IH]. destruct (recvAck_ok limit acc t sn Ht Hbelow) as (t1 & -> & Ht1 & Hb1 & Hq1).
  { specialize (Hg 0%nat eq_refl). by rewrite Z.add_0_r in Hg. }
  cbn [rbind]. destruct (IH t1 (sn + 1) Ht1 Hbelow Hrest) as (t2 & -> & Ht2 & Hb2 & Hq2).
  exists t2. split_and!; try done; [by eapply same_base_trans|congruence].
Qed.

(** ** Moving the window *)

Lemma drop_loop_ok n : forall (t : AmTxQueue A) i, multi_ok (pduTimer_ t) -> 0 <= i -> 0 <= tx_first t -> tx_first t + i + Z.of_nat n < 2 ^ 31 ->
  i + Z.of_nat n <= vsize (txReceived_ t) -> i + Z.of_nat n <= vsize (txDiscarded_ t) -> (forall j, flag (txDiscarded_ t) j = false) ->
  (forall j, i <= j < i + Z.of_nat n -> arr_get (pduRtxQueue_ t) j <> None) ->
  exists a r m, drop_loop t i n = Ok (t <| pduRtxQueue_ := a |> <| txReceived_ := r |> <| pduTimer_ := m |>) /\
    (forall j, arr_get a j = if decide (i <= j < i + Z.of_nat n) then None else arr_get (pduRtxQueue_ t) j) /\
    length r = length (txReceived_ t) /\ (forall j, flag r j = if decide (i <= j < i + Z.of_nat n) then false else flag (txReceived_ t) j) /\
    multi_ok m /\ forall e, timed m e <-> timed (pduTimer_ t) e /\ ~ tx_first t + i <= e < tx_first t + i + Z.of_nat n.
Proof.
  induction n as [|n IH]; intros t i Hm Hi Hf Hb Hr Hd Hdf Hs; cbn [drop_loop].
  { exists (pduRtxQueue_ t), (txReceived_ t), (pduTimer_ t). split; [by destruct t|].
    split_and!; try done; intros j; [rewrite decide_False by lia; done..|]. split; [intros; split; [done|lia]|by intros [? _]]. }
  destruct (arr_get (pduRtxQueue_ t) i) as [p|] eqn:Eg; [|exfalso; apply (Hs i); [lia|done]].
  set (t1 := t <| pduRtxQueue_ := arr_remove (pduRtxQueue_ t) i |>).
  destruct (stop_pdu_timer_ok t1 (i + tx_first t)) as (m & -> & Hm1 & Ht1); [done|unfold is_uint; lia|]. cbn [rbind].
  change (txReceived_ (set pduTimer_ _ t1)) with (txReceived_ t). change (txDiscarded_ (set pduTimer_ _ t1)) with (txDiscarded_ t).
  destruct (set_flag_ok (txReceived_ t) i false) as (r & -> & Hlr & Hfr); [lia|]. cbn [rbind]. rewrite set_false_same by (done || lia). cbn [rbind].
  set (t2 := t1 <| pduTimer_ := m |> <| txReceived_ := r |> <| txDiscarded_ := txDiscarded_ t |>).
  destruct (IH t2 (i + 1)) as (a & r' & m' & E & Ha & Hlr' & Hr' & Hm' & Ht').
  - done.
  - lia.
  - done.
  - change (tx_first t2) with (tx_first t). lia.
  - change (txReceived_ t2) with r. lia.
  - change (txDiscarded_ t2) with (txDiscarded_ t). lia.
  - done.
  - intros j Hj. change (arr_get (arr_remove (pduRtxQueue_ t) i) j <> None). rewrite arr_get_remove, decide_False by lia. apply Hs. lia.
  - exists a, r', m'. split; [rewrite E; by destruct t|]. split.
    { intros j. rewrite Ha. change (pduRtxQueue_ t2) with (arr_remove (pduRtxQueue_ t) i). rewrite arr_get_remove. repeat case_decide; done || lia. }
    split; [rewrite Hlr'; exact Hlr|]. split; [intros j; rewrite Hr'; change (txReceived_ t2) with r; rewrite Hfr; repeat case_decide; done || lia|].
    split; [done|]. intros e. rewrite Ht'. change (pduTimer_ t2) with m. rewrite Ht1. change (pduTimer_ t1) with (pduTimer_ t). change (tx_first t2) with (tx_first t).
    split; [intros [[? ?] ?]; split; [done|lia]|intros [? ?]; split; [split; [done|lia]|lia]].
Qed.

Lemma shift_loop_ok pos n : forall (t : AmTxQueue A) i, 0 < pos <= i ->
  i + Z.of_nat n <= vsize (txReceived_ t) -> i + Z.of_nat n <= vsize (txDiscarded_ t) -> (forall j, flag (txDiscarded_ t) j = false) ->
  (forall j, i <= j < i + Z.of_nat n -> arr_get (pduRtxQueue_ t) j <> None) ->
  (forall j, i - pos <= j < i -> arr_get (pduRtxQueue_ t) j = None /\ flag (txReceived_ t) j = false) ->
  exists a r d, shift_loop t pos i n = Ok (t <| pduRtxQueue_ := a |> <| txReceived_ := r |> <| txDiscarded_ := d |>) /\
    (forall j, arr_get a j = if decide (i - pos <= j < i + Z.of_nat n - pos) then arr_get (pduRtxQueue_ t) (j + pos)
                             else if decide (i - pos <= j < i + Z.of_nat n) then None else arr_get (pduRtxQueue_ t) j) /\
    length r = length (txReceived_ t) /\
    (forall j, flag r j = if decide (i - pos <= j < i + Z.of_nat n - pos) then flag (txReceived_ t) (j + pos)
                          else if decide (i - pos <= j < i + Z.of_nat n) then false else flag (txReceived_ t) j) /\
    length d = length (txDiscarded_ t) /\ (forall j, flag d j = false).
Proof.
  induction n as [|n IH]; intros t i Hp Hr Hd Hdf Hs Hfree; cbn [shift_loop].
  { exists (pduRtxQueue_ t), (txReceived_ t), (txDiscarded_ t). split; [by destruct t|].
    split_and!; try done; intros j; (rewrite decide_False by lia; case_decide; [|done]); apply Hfree; lia. }
  destruct (arr_get (pduRtxQueue_ t) i) as [p|] eqn:Eg; [|exfalso; apply (Hs i); [lia|done]].
  destruct (Hfree (i - pos)) as [Hf1 Hf2]; [lia|].
  destruct (arr_addAt_free (arr_remove (pduRtxQueue_ t) i) (i - pos) p) as (a1 & -> & Ha1); [lia|rewrite arr_get_remove; by case_decide|]. cbn [rbind].
  destruct (move_flag_ok (txReceived_ t) pos i) as (r1 & -> & Hl1 & Hr1); [lia|lia|]. cbn [rbind].
  destruct (move_flag_ok (txDiscarded_ t) pos i) as (d1 & -> & Hl2 & Hd1); [lia|lia|]. cbn [rbind].
  set (t2 := t <| pduRtxQueue_ := a1 |> <| txReceived_ := r1 |> <| txDiscarded_ := d1 |>).
  assert (Ha : forall j, arr_get (pduRtxQueue_ t2) j = if decide (j = i - pos) then Some p else if decide (j = i) then None else arr_get (pduRtxQueue_ t) j).
  { intros j. change (pduRtxQueue_ t2) with a1. rewrite Ha1, arr_get_remove. repeat case_decide; done || lia. }
  destruct (IH t2 (i + 1)) as (a & r & d & E & Ga & Gl & Gr & Gd & Gf).
  - lia.
  - change (txReceived_ t2) with r1. lia.
  - change (txDiscarded_ t2) with d1. lia.
  - intros j. change (txDiscarded_ t2) with d1. rewrite Hd1, !Hdf. by repeat case_decide.
  - intros j Hj. rewrite Ha, !decide_False by lia. apply Hs. lia.
  - intros j Hj. rewrite Ha. change (txReceived_ t2) with r1. rewrite Hr1. rewrite decide_False by lia.
    destruct (decide (j = i)); [done|]. rewrite decide_False by lia. apply Hfree. lia.
  - exists a, r, d. split; [rewrite E; by destruct t|]. split.
    { intros j. rewrite Ga, !Ha. repeat case_decide; try done; try lia; subst; try (by rewrite Z.sub_add); try (f_equal; lia).
    }
    split; [rewrite Gl; exact Hl1|]. split; [|split; [rewrite Gd; exact Hl2|done]].
    intros j. rewrite Gr. change (txReceived_ t2) with r1. rewrite !Hr1. repeat case_decide; try done; try lia; subst; try (by rewrite Z.sub_add).
Qed.

Lemma clear_loop_same n : forall (t : AmTxQueue A) i, 0 <= i ->
  i + Z.of_nat n <= vsize (txReceived_ t) -> i + Z.of_nat n <= vsize (txDiscarded_ t) -> (forall j, flag (txDiscarded_ t) j = false) ->
  (forall j, i <= j < i + Z.of_nat n -> arr_get (pduRtxQueue_ t) j = None /\ flag (txReceived_ t) j = false) -> clear_loop t i n = Ok t.
Proof.
  induction n as [|n IH]; intros t i Hi Hr Hd Hdf Hf; cbn [clear_loop]; [done|]. destruct (Hf i) as [-> Hfi]; [lia|].
  rewrite !set_false_same by (done || lia). cbn [rbind]. replace (t <| txReceived_ := txReceived_ t |> <| txDiscarded_ := txDiscarded_ t |>) with t by (by destruct t).
  apply IH; try done; try lia. intros j Hj. apply Hf. lia.
Qed.

(** The three loops of [moveTxWindow]: the window begins at [first + pos]. *)
Lemma window_moved acc t pos : window_ok acc (maxRtx_ t) (txWindowDesc_ t) (pduRtxQueue_ t) (txReceived_ t) (txDiscarded_ t) (pduTimer_ t) ->
  0 < pos <= tx_seq t - tx_first t ->
  exists a r d m, move_loops t pos =
    Ok (t <| pduRtxQueue_ := a |> <| txReceived_ := r |> <| txDiscarded_ := d |> <| pduTimer_ := m |>) /\
    window_ok acc (maxRtx_ t) ((txWindowDesc_ t) <| firstSeqNum_ := tx_first t + pos |>) a r d m.
Proof.
  intros Hw Hpos. unfold move_loops. rewrite (in_window_eq _ _ _ _ _ _ _ Hw). destruct Hw as [W1 W2 W3 W4 W5 W6 W7 [W8 W8'] W9 W10].
  unfold sn_bound in W3. rewrite swrap_small by (unfold is_sint; lia). set (n := tx_seq t - tx_first t) in *.
  assert (Hrf : forall j, n <= j -> flag (txReceived_ t) j = false). { intros j Hj. destruct (flag _ j) eqn:E; [|done]. apply W7 in E. lia. }
  destruct (drop_loop_ok (Z.to_nat pos) t 0 W9) as (a1 & r1 & m & -> & Ha1 & Hl1 & Hr1 & Hm & Ht); [lia|lia|lia|lia|lia|done|intros j Hj E; by apply W5 in E; lia|].
  cbn [rbind]. set (t1 := t <| pduRtxQueue_ := a1 |> <| txReceived_ := r1 |> <| pduTimer_ := m |>).
  destruct (shift_loop_ok pos (Z.to_nat (n - pos)) t1 pos) as (a & r & d & -> & Ha & Hl & Hr & Hld & Hd).
  { lia. }
  { change (txReceived_ t1) with r1. lia. }
  { change (txDiscarded_ t1) with (txDiscarded_ t). lia. }
  { done. }
  { intros j Hj. change (pduRtxQueue_ t1) with a1. rewrite Ha1, decide_False by lia. intros E. apply W5 in E. lia. }
  { intros j Hj. change (pduRtxQueue_ t1) with a1. change (txReceived_ t1) with r1. rewrite Ha1, Hr1, !decide_True by lia. done. }
  change (pduRtxQueue_ t1) with a1 in Ha. change (txReceived_ t1) with r1 in Hr, Hl. change (txDiscarded_ t1) with (txDiscarded_ t) in Hld.
  assert (Ga : forall j, 0 <= j -> arr_get a j = arr_get (pduRtxQueue_ t) (j + pos)).
  { intros j Hj. rewrite Ha, !Ha1. destruct (arr_get (pduRtxQueue_ t) (j + pos)) as [q|] eqn:Eq; [apply W4 in Eq as (? & _ & _); by rewrite decide_True, decide_False by lia|].
    apply W5 in Eq. rewrite decide_False by lia. case_decide; [done|]. rewrite decide_False by lia. destruct (arr_get _ j) eqn:Ej; [|done]. apply W4 in Ej as (? & _ & _). lia. }
  assert (Gr : forall j, 0 <= j -> flag r j = flag (txReceived_ t) (j + pos)).
  { intros j Hj. rewrite Hr, !Hr1. destruct (decide (j < n - pos)); [by rewrite decide_True, decide_False by lia|]. rewrite decide_False, (Hrf (j + pos)) by lia.
    case_decide; [done|]. rewrite decide_False by lia. apply Hrf. lia. }
  exists a, r, d, m. cbn [rbind]. set (t2 := t1 <| pduRtxQueue_ := a |> <| txReceived_ := r |> <| txDiscarded_ := d |>).
  change (tx_size t2) with (tx_size t). split.
  - rewrite clear_loop_same; [by destruct t|lia|change (txReceived_ t2) with r; lia|change (txDiscarded_ t2) with d; lia|done|].
    intros j Hj. change (pduRtxQueue_ t2) with a. change (txReceived_ t2) with r. rewrite Ga, Gr by lia. split; [|apply Hrf; lia].
    destruct (arr_get _ (j + pos)) eqn:E; [|done]. apply W4 in E as (? & _). lia.
  - assert (Hneg : forall j, j < 0 -> arr_get a j = None).
    { intros j Hj. rewrite Ha, !decide_False by lia. rewrite Ha1, decide_False by lia. destruct (arr_get _ j) eqn:E; [|done]. apply W4 in E as (? & _). lia. }
    split; cbn; unfold sn_bound; try done; try lia.
    + intros i p Hp. destruct (decide (i < 0)); [by rewrite Hneg in Hp by lia|]. rewrite Ga in Hp by lia. destruct (W4 _ _ Hp) as (? & ? & ?).
      split; [lia|]. split; [|done]. by replace (tx_first t + pos + i) with (tx_first t + (i + pos)) by lia.
    + intros i Hi [? ?]. rewrite Ga in Hi by lia. apply W5 in Hi. lia.
    + intros i Hi. apply flag_range in Hi as Hb. rewrite Gr in Hi by lia. destruct (W7 _ Hi). split; [lia|]. by replace (tx_first t + pos + i) with (tx_first t + (i + pos)) by lia.
    + split; [lia|done].
    + intros e. rewrite Ht, W10. split; [intros [[? ?] ?]|intros [? ?]].
      * split; [lia|]. rewrite Gr by lia. by replace (e - (tx_first t + pos) + pos) with (e - tx_first t) by lia.
      * rewrite Gr in * by lia. replace (e - (tx_first t + pos) + pos) with (e - tx_first t) in * by lia. split; [split; [lia|done]|lia].
Qed.

Lemma moveTxWindow_ok limit acc t NOW sn : tx_ok limit acc t -> 0 <= sn <= tx_seq t -> sn <= low -> (forall j, 0 <= j < sn -> got j) ->
  adds limit acc [] t (moveTxWindow t NOW sn).
Proof.
  intros Ht Hsn Hlow Hg. pose proof (tk_window _ _ _ Ht) as Hw. pose proof (wk_plan _ _ _ _ _ _ _ Hw) as [_ Hplan]. unfold sn_bound in Hplan.
  pose proof (wk_range _ _ _ _ _ _ _ Hw). pose proof (wk_size _ _ _ _ _ _ _ Hw). unfold moveTxWindow, tx_index. rewrite swrap_small by (unfold is_sint; lia).
  destruct (Z.leb_spec (sn - tx_first t) 0); [apply adds_none; done || lia|].
  destruct (window_moved acc t (sn - tx_first t) Hw) as (a & r & d & m & -> & Hw'); [lia|]. cbn [rbind].
  set (t1 := t <| pduRtxQueue_ := a |> <| txReceived_ := r |> <| txDiscarded_ := d |> <| pduTimer_ := m |>).
  change (tx_first t1) with (tx_first t). change (txWindowDesc_ t1) with (txWindowDesc_ t). replace (tx_first t + (sn - tx_first t)) with sn in * by lia.
  rewrite wrap_small by (unfold is_uint; lia). set (t2 := t1 <| txWindowDesc_ := (txWindowDesc_ t) <| firstSeqNum_ := sn |> |>).
  assert (Ht2 : tx_ok limit acc t2) by (destruct Ht; by split).
  destruct (addPdus_ok limit acc t2 NOW Ht2) as (acc' & t' & e & E & Ht' & (B1 & B2 & B3 & B4) & Hq).
  exists acc', t', e. rewrite B1, B2, B3, B4. split_and!; try done; try (cbn; lia). unfold enters. cbn.
  rewrite (proj2 (Z.ltb_lt _ _)), app_nil_r by lia. exact Hq.
Qed.

(** ** Control packets *)

(** What the receiver may report: only what it has got. *)
Definition up_ok (p : AmPacket) : Prop :=
  match amType (am_pdu p) with
  | ACK => -1 <= lastSn (am_pdu p) /\ (forall j, 0 <= j <= lastSn (am_pdu p) -> got j) /\
           (forall i, bitmap_ (am_pdu p) !! i = Some true -> got (firstSn (am_pdu p) + Z.of_nat i))
  | MRW_ACK => 0 <= snoFragment (am_pdu p) <= low /\ (forall j, 0 <= j < snoFragment (am_pdu p) -> got j)
  | DATA | MRW => False
  end.

Lemma adds_then limit acc more t t' e f :
  adds limit acc more t (Ok (t', e)) -> (forall acc' t1, tx_ok limit (acc ++ acc') t1 -> exists t2, f t1 = Ok t2 /\ tx_ok limit (acc ++ acc') t2 /\ same_base t1 t2 /\ amSduQueue_ t2 = amSduQueue_ t1) ->
  adds limit acc more t (let! t2 := f t' in Ok (t2, e)).
Proof.
  intros (acc' & t1 & e1 & E & Ht & H1 & H2 & H3 & H4 & H5) Hf. injection E as <- <-. destruct (Hf acc' t' Ht) as (t2 & -> & Ht2 & (B1 & B2 & B3 & B4) & Eq).
  cbn [rbind]. exists acc', t2, e. rewrite B1, B2, B3, B4, Eq. done.
Qed.

Lemma recvMrwAck_ok limit acc t sn : tx_ok limit acc t ->
  exists t', recvMrwAck t (int32 sn) = Ok t' /\ tx_ok limit acc t' /\ same_base t t' /\ amSduQueue_ t' = amSduQueue_ t.
Proof.
  intros Ht. unfold recvMrwAck. destruct (arr_get (mrwRtxQueue_ t) (int32 sn)) as [p|] eqn:Eg; [|exists t; by split_and!].
  pose proof (tk_mrw _ _ _ Ht) as [M1 M2 M3 M4]. pose proof (proj1 (M2 _ _ Eg)) as Hi. set (i := int32 sn) in *.
  assert (Hir : is_uint 32 i). { pose proof (swrap_range 32 sn ltac:(lia)) as [_ Hub]. unfold is_uint. fold i in Hub. lia. }
  rewrite wrap_small by done. set (t1 := t <| mrwRtxQueue_ := arr_remove (mrwRtxQueue_ t) i |>). change (mrwTimer_ t1) with (mrwTimer_ t).
  destruct (timer_remove (mrwTimer_ t) i M3) as (m & Em & Hm & Htm); [apply M4; congruence|].
  assert (Hb : multi_busy (mrwTimer_ t) i = true) by (apply M4; congruence). rewrite Hb, Em; cbn [rbind].
  eexists. split; [reflexivity|]. split; [|by split]. destruct Ht as [R Hun Hseq Hw Hmm Hq Hl Hinfo Hbuf Hbelow Hmax]. split; try done. cbn. split; cbn; try done.
  - intros j q. rewrite arr_get_remove. case_decide; [done|apply M2].
  - intros e. rewrite Htm, M4, arr_get_remove. case_decide; naive_solver.
Qed.

Lemma got_below_extend acc acc' : Forall sdu_ok acc' -> got_below acc -> got_below (acc ++ acc').
Proof. intros Hok Hb sn Hg. rewrite total_frags_app. pose proof (total_frags_nonneg u Hu acc' Hok). specialize (Hb sn Hg). lia. Qed.

Lemma handleControlPacket_ok limit acc t NOW p : tx_ok limit acc t -> mrwSeqNum_ (mrwDesc_ t) < 2 ^ 31 - 1 -> got_below acc -> up_ok p ->
  adds limit acc [] t (handleControlPacket t NOW p).
Proof.
  intros Ht Hnum Hbelow Hp. unfold handleControlPacket, up_ok in *. pose proof (tk_window _ _ _ Ht) as Hw. pose proof (wk_plan _ _ _ _ _ _ _ Hw) as [_ Hplan]. unfold sn_bound in Hplan.
  pose proof (tk_seq _ _ _ Ht) as Hseq. destruct (amType (am_pdu p)).
  - apply adds_none; done || lia.
  - destruct Hp as (P1 & P2 & P3). pose proof (recvCumulativeAck_ok limit acc t NOW _ Ht Hnum Hbelow P1 P2) as Ha.
    pose proof Ha as (acc' & t' & e & E & Ht' & _). rewrite E in Ha |- *. cbn [rbind]. apply (adds_then _ _ _ _ t' e (fun t => bitmap_loop t (firstSn (am_pdu p)) (bitmap_ (am_pdu p))) Ha). intros acc1 t1 Ht1.
    apply bitmap_loop_ok; [done| |done]. apply got_below_extend; [|done]. pose proof (wk_plan _ _ _ _ _ _ _ (tk_window _ _ _ Ht1)) as [Hok _]. by apply Forall_app in Hok as [_ ?].
  - apply adds_none; done || lia.
  - destruct Hp as (P1 & P2).
    assert (Hsn : snoFragment (am_pdu p) <= tx_seq t). { destruct (decide (snoFragment (am_pdu p) = 0)); [pose proof (wk_range _ _ _ _ _ _ _ Hw); lia|]. specialize (Hbelow (snoFragment (am_pdu p) - 1)). specialize (Hbelow (P2 (snoFragment (am_pdu p) - 1) ltac:(lia))). lia. }
    rewrite swrap_small by (unfold is_sint; lia). pose proof (moveTxWindow_ok limit acc t NOW _ Ht (conj (proj1 P1) Hsn) (proj2 P1) P2) as Ha.
    pose proof Ha as (acc' & t' & e & E & Ht' & _). rewrite E in Ha |- *. cbn [rbind]. apply (adds_then _ _ _ _ t' e (fun t => recvMrwAck t (int32 (pduSnoMainPacket (am_pdu p)))) Ha). intros acc1 t1 Ht1. by apply recvMrwAck_ok.
Qed.

(** ** Timers *)

(** The next expiry of the timer of a PDU is that of one that may be sent again. *)
Definition may_retransmit (t : AmTxQueue A) (e : Z) : Prop :=
  forall p, arr_get (pduRtxQueue_ t) (tx_index t e) = Some p -> txNumber (am_pdu p) < maxRtx_ t.

Lemma pduTimerHandle_ok limit acc t time e NOW : tx_ok limit acc t -> intr_ (pduTimer_ t) = Some (time, e) -> may_retransmit t e ->
  adds limit acc [] t (pduTimerHandle t NOW (int32 e)).
Proof.
  intros Ht Hi Hmay. pose proof (tk_window _ _ _ Ht) as [W1 W2 W3 W4 W5 W6 W7 W8 W9 W10]. unfold sn_bound in W3. pose proof (tk_max _ _ _ Ht).
  destruct (timer_fires (pduTimer_ t) time e (int32 e) W9 Hi) as (He & m & Em & Hm & Hmt). apply W10 in He as [He Hf].
  unfold may_retransmit, tx_index in Hmay. rewrite swrap_small in Hmay by (unfold is_sint; lia).
  unfold pduTimerHandle, tx_index. rewrite Em. rewrite !(swrap_small 32 e) by (unfold is_sint; lia). rewrite swrap_small by (unfold is_sint; lia). cbn [rbind].
  set (i := e - tx_first t) in *. rewrite (wrap_small 32 i) by (unfold is_uint; lia). change (tx_size (set pduTimer_ _ t)) with (tx_size t).
  rewrite (proj2 (Z.ltb_ge _ _)), (proj2 (Z.leb_gt _ _)) by lia. cbn [orb]. change (pduRtxQueue_ (set pduTimer_ _ t)) with (pduRtxQueue_ t).
  destruct (arr_get (pduRtxQueue_ t) i) as [p|] eqn:Eg; [|apply W5 in Eg; lia]. destruct (W4 i p Eg) as (Hir & (s & st & Es & Hs) & Htx). specialize (Hmay p eq_refl).
  change (txReceived_ (set pduTimer_ _ t)) with (txReceived_ t). rewrite flag_at_ok, Hf by lia. cbn [rbind]. change (maxRtx_ (set pduTimer_ _ t)) with (maxRtx_ t).
  rewrite (proj2 (Z.ltb_ge _ _)) by lia. rewrite (wrap_small 32 e), (wrap_small 16) by (unfold is_uint; lia).
  destruct (timer_add m NOW (pduRtxTimeout_ t) e Hm) as (m' & Em' & Hm' & Hmt'); [rewrite Hmt; by intros [_ ?]|].
  change (pduTimer_ (set pduTimer_ _ t)) with m. change (pduRtxTimeout_ (set pduTimer_ _ t)) with (pduRtxTimeout_ t). rewrite Em'; cbn [rbind].
  set (p' := set am_pdu _ p).
  assert (Hget : forall j, arr_get (arr_add (arr_remove (pduRtxQueue_ t) i) p') j = if decide (j = i) then Some p' else arr_get (pduRtxQueue_ t) j).
  { intros j. rewrite (arr_add_free _ p' i); [rewrite arr_get_remove; by repeat case_decide|lia|rewrite arr_get_remove; by case_decide|].
    intros k Hk. rewrite arr_get_remove, decide_False by lia. intros E. apply W5 in E. lia. }
  assert (Hp' : is_fragment acc e p') by (exists s, st; replace e with (tx_first t + i) by lia; by split).
  unfold bufferPdu. apply adds_none; try done; try (cbn; lia).
  destruct Ht as [R Hun Hseq Hw Hmm Hq Hl Hinfo Hbuf Hbelow Hmax]. split; try done.
  - cbn. split; try done.
    + intros j q. rewrite Hget. case_decide; [intros [= <-]; subst j; split; [lia|]; split; [by replace (tx_first t + i) with e by lia|cbn; lia]|apply W4].
    + intros j. rewrite Hget. case_decide; [done|apply W5].
    + intros e'. rewrite Hmt', Hmt, W10. destruct (decide (e' = e)); [subst; tauto|tauto].
  - cbn. apply Forall_app. split; [done|]. constructor; [left; left; eauto|done].
Qed.

Lemma mrwTimerHandle_ok limit acc t time e NOW : tx_ok limit acc t -> mrwSeqNum_ (mrwDesc_ t) < 2 ^ 31 - 1 -> intr_ (mrwTimer_ t) = Some (time, e) ->
  adds limit acc [] t (mrwTimerHandle t NOW (int32 e)).
Proof.
  intros Ht Hnum Hi. pose proof (tk_mrw _ _ _ Ht) as [M1 M2 M3 M4].
  destruct (timer_fires (mrwTimer_ t) time e (int32 e) M3 Hi) as (He & m & Em & Hm & Hmt). apply M4 in He.
  destruct (arr_get (mrwRtxQueue_ t) e) as [p|] eqn:Eg; [|done]. destruct (M2 e p Eg) as [Hr Hp].
  unfold mrwTimerHandle. rewrite Em. rewrite !(swrap_small 32 e) by (unfold is_sint; lia). cbn [rbind].
  change (mrwRtxQueue_ (set mrwTimer_ _ t)) with (mrwRtxQueue_ t). rewrite Eg. rewrite !(wrap_small 32 e) by (unfold is_uint; lia).
  assert (Hrem : forall j, arr_get (arr_remove (mrwRtxQueue_ t) e) j = if decide (j = e) then None else arr_get (mrwRtxQueue_ t) j) by (intros; apply arr_get_remove).
  destruct Ht as [R Hun Hseq Hw Hmm Hq Hl Hinfo Hbuf Hbelow Hmax]. change (lastMrw_ (mrwDesc_ (set mrwTimer_ _ t))) with (lastMrw_ (mrwDesc_ t)). destruct (_ <? _).
  - apply adds_none; try done; try (cbn; lia). split; try done. cbn. split; cbn; try done.
    + intros j q. rewrite Hrem. case_decide; [done|apply M2].
    + intros e'. rewrite Hmt, Hrem, M4. case_decide; naive_solver.
  - destruct (arr_addAt_free (arr_remove (mrwRtxQueue_ t) e) e p) as (a & -> & Ha); [lia|rewrite Hrem; by case_decide|]. cbn [rbind].
    change (mrwTimer_ (set mrwTimer_ _ t)) with m. change (ctrlPduRtxTimeout_ (set mrwTimer_ _ t)) with (ctrlPduRtxTimeout_ t).
    destruct (timer_add m NOW (ctrlPduRtxTimeout_ t) e Hm) as (m' & -> & Hm' & Hmt'); [rewrite Hmt; by intros [_ ?]|]. cbn [rbind].
    unfold bufferPdu. apply adds_none; try done; try (cbn; lia). split; try done; cbn.
    + split; cbn; try done.
      * intros j q. rewrite Ha, Hrem. repeat case_decide; [intros [= <-]; subst; done|apply M2].
      * intros e'. rewrite Hmt', Hmt, Ha, Hrem, M4. repeat case_decide; subst; [rewrite Eg; naive_solver|naive_solver].
    + apply Forall_app. split; [done|]. constructor; [by left|done].
Qed.

(** ** The beginning *)

Lemma new_am_tx_ok limit maxRtx t1 t2 t3 size : 0 <= low -> 0 <= limit < sn_bound -> 0 <= maxRtx < 2 ^ 16 -> 0 < size <= 200 ->
  tx_ok limit [] (new_AmTxQueue u maxRtx t1 t2 t3 size).
Proof.
  intros Hlow Hl Hmax Hsize. destruct new_timer_ok as [T1 T2]. unfold sn_bound in *.
  assert (Es : uint32 size = size) by (apply wrap_small; unfold is_uint; lia).
  split; cbn; rewrite ?Es; try done; try lia.
  - split; cbn; rewrite ?Es; try done; try lia.
    + intros i p. by rewrite arr_get_new.
    + rewrite length_replicate. lia.
    + intros i. by rewrite flag_replicate.
    + rewrite length_replicate, (wrap_small 32 (size + 1)) by (unfold is_uint; lia). split; [lia|]. intros i. apply flag_replicate.
    + intros e. split; [by intros ?%T2|lia].
  - split; cbn; try done; intros i; [intros p|split; [by intros ?%T2|]]; by rewrite arr_get_new.
Qed.
End Tx.

(** What the receiver has got only grows, and so does what else is sent. *)
Section Monotone.
Context {A : Type} {C : CArray AmPacket A} {D : CArrayAdd AmPacket A}.
Context {L : CArrayLaws AmPacket A} {LD : CArrayAddLaws AmPacket A}.
Variables (u : Z) (got got' : Z -> Prop) (low low' : Z) (other other' : AmPacket -> Prop).
Context (Hgot : forall sn, got sn -> got' sn) (Hlow : low <= low') (Hother : forall p, other p -> other' p).

Lemma up_ok_mono p : up_ok got low p -> up_ok got' low' p.
Proof. unfold up_ok. destruct (amType (am_pdu p)); try naive_solver. intros [? ?]. split; [lia|naive_solver]. Qed.

Lemma down_ok_mono acc p : down_ok u got acc p -> down_ok u got' acc p.
Proof. intros [Hp|(Ht & Hl & Hg & Hs)]; [by left|right]. split_and!; naive_solver. Qed.

Lemma sent_ok_mono acc p : sent_ok u got other acc p -> sent_ok u got' other' acc p.
Proof. intros [Hp|Hp]; [left; by apply down_ok_mono|right; auto]. Qed.

Lemma tx_mono limit acc (t : AmTxQueue A) : tx_ok u got low other limit acc t -> tx_ok u got' low' other' limit acc t.
Proof.
  intros [R Hun Hseq Hw Hm Hq Hl Hinfo Hbuf Hbelow Hmax Hlw]. split; try done; try lia.
  - destruct Hw as [W1 W2 W3 W4 W5 W6 W7 W8 W9 W10]. split; try done. intros i Hi. destruct (W7 i Hi). auto.
  - destruct Hm as [M1 M2 M3 M4]. split; try done. intros i p Hp. destruct (M2 i p Hp). split; [done|by apply down_ok_mono].
  - eapply Forall_impl; [exact Hbuf|]. intros p. apply sent_ok_mono.
  - auto.
Qed.
End Monotone.
