(* ===== verification/RlcAmRx.v ===== *)
(** * RLC acknowledged mode: the receiving queue and the layer

    [AmRxQueue] (src/simulte/src/stack/rlc/am/buffer/AmRxQueue.cc) keeps the PDUs of its window,
    passes an SDU up when its last PDU comes, reports what it has received and moves its
    window when the transmitter asks for it.  [LteRlcAm] (stack/rlc/am/LteRlcAm.cc) has one
    queue of each kind per connection and routes packets to them.

    Statistics are left out.  [SimTime::dbl] belongs to the kernel and is a parameter. *)

From S2P Require Import Prelude Doubles LteCommon TTimer RlcWindow RlcAm.
#[local] Open Scope Z_scope.

(** [SimTime::dbl]: seconds, as a floating-point number, of a raw time. *)
Class SimTimeDbl := dbl : Z -> float.

Section RxQueue.
Context {A : Type} {C : CArray AmPacket A} {D : CArrayAdd AmPacket A} `{SimTimeDbl}.

Record AmRxQueue := {
  rxWindowDesc_ : RlcWindowDesc;
  ackReportInterval_ : Z;
  lastSentAck_ : Z;
  statusReportInterval_ : Z;
  firstSdu_ : Z;
  timer_ : TTimer;
  rxPduBuffer_ : A;
  pendingPduBuffer_ : list AmPacket;
  rxReceived_ : list bool;
  rxDiscarded_ : list bool;
  flowControlInfo_ : option FlowControlInfo
}.

#[export] Instance amrx_eta : Eta AmRxQueue := fun r =>
  {| rxWindowDesc_ := rxWindowDesc_ r; ackReportInterval_ := ackReportInterval_ r; lastSentAck_ := lastSentAck_ r;
     statusReportInterval_ := statusReportInterval_ r; firstSdu_ := firstSdu_ r; timer_ := timer_ r;
     rxPduBuffer_ := rxPduBuffer_ r; pendingPduBuffer_ := pendingPduBuffer_ r; rxReceived_ := rxReceived_ r;
     rxDiscarded_ := rxDiscarded_ r; flowControlInfo_ := flowControlInfo_ r |}.

Definition new_AmRxQueue (rxWindowSize ackReportInterval statusReportInterval : Z) : AmRxQueue :=
  {| rxWindowDesc_ := new_RlcWindowDesc rxWindowSize; ackReportInterval_ := ackReportInterval; lastSentAck_ := 0;
     statusReportInterval_ := statusReportInterval; firstSdu_ := 0; timer_ := new_TTimer; rxPduBuffer_ := arr_new;
     pendingPduBuffer_ := []; rxReceived_ := replicate (Z.to_nat (uint32 rxWindowSize)) false;
     rxDiscarded_ := replicate (Z.to_nat (uint32 rxWindowSize)) false; flowControlInfo_ := None |}.

(** What the queue asks [LteRlcAm] to do: [sendDefragmented], [bufferControlPdu] and
    [routeControlMessage]. *)
Inductive amrx_effect :=
| AmSendDefragmented (data : list slice) (tag : FlowControlInfo)
| AmBufferControl (pkt : AmPacket)
| AmRouteControl (pkt : AmPacket).

Abbreviation rx_first r := (firstSeqNum_ (rxWindowDesc_ r)).
Abbreviation rx_size r := (windowSize_ (rxWindowDesc_ r)).

(** ** Status reports *)

(** The loop of [sendStatusReport]: the number of PDUs received without a hole, and the
    flags from the first hole on. *)
Fixpoint report_loop (l : list bool) (i cumulative : Z) (hole : bool) (n : nat) : result (Z * list bool) :=
  match n with
  | O => Ok (cumulative, [])
  | S n' =>
      let! b := flag_at l i in
      if b && negb hole then report_loop l (i + 1) (cumulative + 1) hole n'
      else if (0 <? cumulative) || hole then
        let! (c, bitmap) := report_loop l (i + 1) cumulative true n' in Ok (c, b :: bitmap)
      else report_loop l (i + 1) cumulative hole n'
  end.

Definition ack_packet (r : AmRxQueue) (cumulative : Z) (bitmap : list bool) (info : FlowControlInfo) : AmPacket :=
  let pdu := (new_LteRlcAmPdu ACK) <| lastSn := int32 (rx_first r + cumulative - 1) |> <| chunkBits := 8 * RLC_HEADER_AM |> in
  let pdu := if cumulative <? rx_size r
             then pdu <| bitmap_ := bitmap |> <| firstSn := int32 (rx_first r + cumulative) |> else pdu in
  {| am_pdu := pdu; am_data := []; am_tag := info |}.

Definition sendStatusReport (r : AmRxQueue) (NOW : Z) : result (AmRxQueue * list amrx_effect) :=
  if fltb (fsub (dbl NOW) (dbl (lastSentAck_ r))) (dbl (ackReportInterval_ r)) then Ok (r, []) else
  let! first := flag_at (rxReceived_ r) 0 in
  let! (cumulative, bitmap) := report_loop (rxReceived_ r) 0 0 (negb first) (Z.to_nat (rx_size r)) in
  if (0 <? cumulative) || negb (bool_decide (bitmap = [])) then
    match flowControlInfo_ r with
    | None => UB
    | Some info => Ok (r <| lastSentAck_ := NOW |>, [AmBufferControl (ack_packet r cumulative bitmap info)])
    end
  else Ok (r, []).

(** ** Passing an SDU up *)

(** [insertAtBack] of data: a slice that continues the last one is joined to it. *)
Definition join_slice (l : list slice) (x : slice) : list slice :=
  match last l with
  | Some (s, off, len) =>
      if (as_ptr s =? as_ptr x.1.1) && (off + len =? x.1.2) then removelast l ++ [(s, off, len + x.2)] else l ++ [x]
  | None => [x]
  end.
Definition join_data (l more : list slice) : list slice := fold_left join_slice more l.

(** [defragmentFrames]: the PDUs are taken off, the data are joined; the tags are those of
    the first. *)
Definition defragmentFrames (frags : list AmPacket) : result (list slice * FlowControlInfo) :=
  match frags with
  | [] => Throw "deque::at"
  | p :: _ => Ok (fold_left (fun l f => join_data l (am_data f)) frags [], am_tag p)
  end.

(** [popAtFront<LteRlcAmSdu>]: the header is there when the data begin with its bytes. *)
Definition pop_sdu_header (l : list slice) : result (list slice) :=
  match l with
  | (s, off, len) :: l' =>
      if (off =? 0) && (RLC_HEADER_AM <=? len) then Ok ((s, RLC_HEADER_AM, len - RLC_HEADER_AM) :: l')
      else Throw "popAtFront(): no LteRlcAmSdu"
  | [] => Throw "popAtFront(): no LteRlcAmSdu"
  end.

(** The loops of [passUp] over the pending PDUs, and over the buffer from [auxIndex] on until
    [total] PDUs are there; [n] rounds are left. *)
Fixpoint take_pending (pkId : Z) (pending : list AmPacket) : result (list AmPacket) :=
  match pending with
  | [] => Ok []
  | p :: pending' =>
      if negb (pduSnoMainPacket (am_pdu p) =? pkId) then Throw "AmRxQueue::passUp(): fragment buffer has fragments for another SDU"
      else let! l := take_pending pkId pending' in Ok (p :: l)
  end.

Fixpoint take_frames (a : A) (pkId total auxIndex : Z) (frameBuff : list AmPacket) (n : nat) : result (list AmPacket) :=
  match n with
  | O => Ok frameBuff
  | S n' =>
      if total <=? vsize frameBuff then Ok frameBuff else
      let! p := packet_at a auxIndex in
      let frameBuff := if pkId =? pduSnoMainPacket (am_pdu p) then frameBuff ++ [p] else frameBuff in
      let auxIndex := if arr_size a <=? auxIndex + 1 then 0 else auxIndex + 1 in
      take_frames a pkId total auxIndex frameBuff n'
  end.

Definition gather (r : AmRxQueue) (index : Z) : result (AmRxQueue * list slice * FlowControlInfo) :=
  let! p := packet_at (rxPduBuffer_ r) index in
  let header := am_pdu p in
  if isWhole header then Ok (r, am_data p, am_tag p) else
  let pkId := pduSnoMainPacket header in
  let! (r, frameBuff) :=
    if (index =? 0) && negb (isFirst header) then
      let! l := take_pending pkId (pendingPduBuffer_ r) in Ok (r <| pendingPduBuffer_ := [] |>, l)
    else Ok (r, []) in
  let! frameBuff := take_frames (rxPduBuffer_ r) pkId (totalFragments header) index frameBuff (Z.to_nat (arr_size (rxPduBuffer_ r))) in
  let! (data, tag) := defragmentFrames frameBuff in
  Ok (r, data, tag).

(** The statistics of a packet that is neither downlink nor uplink are emitted on a module
    that is a null pointer. *)
Definition passUp (r : AmRxQueue) (NOW index : Z) : result (AmRxQueue * list amrx_effect) :=
  let! (r, data, tag) := gather r index in
  let! sdu := pop_sdu_header data in
  match fi_direction tag with
  | DL | UL => let! (r, e) := sendStatusReport r NOW in Ok (r, AmSendDefragmented sdu tag :: e)
  | _ => UB
  end.

(** ** Looking for a complete SDU *)

(** The backward search from [n] - 1 down: the first PDU of the SDU, if it is found. *)
Fixpoint search_back (r : AmRxQueue) (incomingSdu : Z) (n : nat) : result (option Z) :=
  match n with
  | O => Ok None
  | S n' =>
      let i := Z.of_nat n' in
      let! b := flag_at (rxReceived_ r) i in
      if negb b then Ok None else
      let! p := packet_at (rxPduBuffer_ r) i in
      if negb (pduSnoMainPacket (am_pdu p) =? incomingSdu) then
        Throw "AmRxQueue::checkCompleteSdu(): backward search: fragmentation error"
      else if isFirst (am_pdu p) then Ok (Some i)
      else if isLast (am_pdu p) || isWhole (am_pdu p) then
        let! _ := packet_at (rxPduBuffer_ r) (i + 1) in Throw "AmRxQueue::checkCompleteSdu(): backward search: sequence error"
      else search_back r incomingSdu n'
  end.

(** The forward search from [i] on: whether all PDUs up to the last of the SDU are there. *)
Fixpoint search_fwd (r : AmRxQueue) (incomingSdu i : Z) (n : nat) : result bool :=
  match n with
  | O => Ok false
  | S n' =>
      let! b := flag_at (rxReceived_ r) i in
      if negb b then Ok false else
      let! p := packet_at (rxPduBuffer_ r) i in
      if negb (pduSnoMainPacket (am_pdu p) =? incomingSdu) then Throw "AmRxQueue::checkCompleteSdu(): SDU numbers differ"
      else if isLast (am_pdu p) then Ok true
      else if isFirst (am_pdu p) || isWhole (am_pdu p) then
        Throw "AmRxQueue::checkCompleteSdu(): forward search: PDU sequencer error"
      else search_fwd r incomingSdu (i + 1) n'
  end.

(** Where the SDU of the PDU at [index] begins, if all before the PDU is there. *)
Definition first_index (r : AmRxQueue) (pdu : LteRlcAmPdu) (index : Z) : result (option Z) :=
  let incomingSdu := int32 (pduSnoMainPacket pdu) in
  if isFirst pdu then Ok (Some index)
  else if index =? 0 then
    if firstSdu_ r =? incomingSdu then Ok (Some index) else Throw "AmRxQueue::checkCompleteSdu(): first SDU error"
  else search_back r (pduSnoMainPacket pdu) (Z.to_nat index).

Definition checkCompleteSdu (r : AmRxQueue) (NOW index : Z) : result (AmRxQueue * list amrx_effect) :=
  let! pkt := packet_at (rxPduBuffer_ r) index in
  let pdu := am_pdu pkt in
  let r := if firstSdu_ r =? -1 then r <| firstSdu_ := int32 (pduSnoMainPacket pdu) |> else r in
  if isWhole pdu then passUp r NOW index else
  let! start := first_index r pdu index in
  match start with
  | None => Ok (r, [])
  | Some firstIndex =>
      if isLast pdu then passUp r NOW firstIndex else
      let! complete := search_fwd r (pduSnoMainPacket pdu) (index + 1) (Z.to_nat (rx_size r - (index + 1))) in
      if complete : bool then passUp r NOW firstIndex else Ok (r, [])
  end.

(** ** Moving the window *)

(** The first loop of [moveRxWindow]: PDUs that leave the window wait for the rest of their
    SDU, and are deleted with it at its last PDU. *)
Fixpoint leave_loop (r : AmRxQueue) (currentSdu i : Z) (n : nat) : AmRxQueue * Z :=
  match n with
  | O => (r, currentSdu)
  | S n' =>
      match arr_get (rxPduBuffer_ r) i with
      | None => leave_loop r (-1) (i + 1) n'
      | Some p =>
          let r := r <| rxPduBuffer_ := arr_remove (rxPduBuffer_ r) i |> in
          if isLast (am_pdu p) || isWhole (am_pdu p) then leave_loop (r <| pendingPduBuffer_ := [] |>) (-1) (i + 1) n'
          else leave_loop (r <| pendingPduBuffer_ := pendingPduBuffer_ r ++ [p] |>) (int32 (pduSnoMainPacket (am_pdu p))) (i + 1) n'
      end
  end.

Fixpoint rx_shift_loop (r : AmRxQueue) (pos i : Z) (n : nat) : result AmRxQueue :=
  match n with
  | O => Ok r
  | S n' =>
      let! a := match arr_get (rxPduBuffer_ r) i with
                | Some p => arr_addAt (arr_remove (rxPduBuffer_ r) i) (i - pos) p
                | None => Ok (arr_remove (rxPduBuffer_ r) i)
                end in
      let! rc := move_flag (rxReceived_ r) pos i in
      let! di := move_flag (rxDiscarded_ r) pos i in
      rx_shift_loop (r <| rxPduBuffer_ := a |> <| rxReceived_ := rc |> <| rxDiscarded_ := di |>) pos (i + 1) n'
  end.

Definition am_moveRxWindow (r : AmRxQueue) (seqNum : Z) : result AmRxQueue :=
  let pos := int32 (seqNum - rx_first r) in
  if pos <=? 0 then Ok r else
  if rx_size r <? uint32 pos then Throw "AmRxQueue::moveRxWindow(): positions win size" else
  let (r, currentSdu) := leave_loop r (firstSdu_ r) 0 (Z.to_nat pos) in
  let! r := rx_shift_loop r pos pos (Z.to_nat (rx_size r - pos)) in
  Ok (r <| rxWindowDesc_ := (rxWindowDesc_ r) <| firstSeqNum_ := uint32 (rx_first r + pos) |> |> <| firstSdu_ := currentSdu |>).

(** Nothing calls this, nor [discard], which is not modelled. *)
Fixpoint computeWindowShift (r : AmRxQueue) (i : Z) (n : nat) : result Z :=
  match n with
  | O => Ok 0
  | S n' =>
      let! received := flag_at (rxReceived_ r) i in
      let! over := if received : bool then Ok true else flag_at (rxDiscarded_ r) i in
      if over : bool then let! shift := computeWindowShift r (i + 1) n' in Ok (shift + 1) else Ok 0
  end.

(** ** Packets and timer *)

Definition swap_flow (orig : FlowControlInfo) : FlowControlInfo :=
  orig <| fi_sourceId := fi_destId orig |> <| fi_srcPort := fi_dstPort orig |> <| fi_srcAddr := fi_dstAddr orig |>
       <| fi_destId := fi_sourceId orig |> <| fi_dstPort := fi_srcPort orig |> <| fi_dstAddr := fi_srcAddr orig |>
       <| fi_direction := if bool_decide (fi_direction orig = DL) then UL else DL |>.

(** The branch of [enque] for a PDU with data. *)
Definition enque_data (r : AmRxQueue) (NOW : Z) (pkt : AmPacket) : result (AmRxQueue * list amrx_effect) :=
  let pdu := am_pdu pkt in
  let r := r <| timer_ := timer_start (timer_ r) NOW (statusReportInterval_ r) |> in
  let r := match flowControlInfo_ r with
           | None => r <| flowControlInfo_ := Some (swap_flow (am_tag pkt)) |>
           | Some _ => r
           end in
  let tsn := int32 (snoFragment pdu) in
  let index := int32 (tsn - rx_first r) in
  if index <? 0 then Ok (r, [])
  else if rx_size r <=? uint32 index then Throw "AmRxQueue::enque(): received PDU out of the window"
  else
    let! (r, e) :=
      if uint32 tsn =? seqNum_ (rxWindowDesc_ r) then
        Ok (r <| rxWindowDesc_ := (rxWindowDesc_ r) <| seqNum_ := uint32 (seqNum_ (rxWindowDesc_ r) + 1) |> |>, [])
      else sendStatusReport (r <| rxWindowDesc_ := (rxWindowDesc_ r) <| seqNum_ := uint32 (tsn + 1) |> |>) NOW in
    let! received := flag_at (rxReceived_ r) index in
    if received : bool then
      let! buffered := packet_at (rxPduBuffer_ r) index in
      if pduSnoMainPacket (am_pdu buffered) =? pduSnoMainPacket pdu then Ok (r, e)
      else Throw "AmRxQueue::enque(): the received PDU overlaps with an old one"
    else
      let! a := arr_addAt (rxPduBuffer_ r) index pkt in
      let! rc := set_flag (rxReceived_ r) index true in
      let! (r, e') := checkCompleteSdu (r <| rxPduBuffer_ := a |> <| rxReceived_ := rc |>) NOW index in
      Ok (r, e ++ e').

Definition mrw_ack (r : AmRxQueue) (sno : Z) (info : FlowControlInfo) : AmPacket :=
  {| am_pdu := (new_LteRlcAmPdu MRW_ACK) <| pduSnoMainPacket := sno |> <| snoFragment := rx_first r |>
                 <| chunkBits := 8 * RLC_HEADER_AM |>;
     am_data := []; am_tag := info |}.

Definition amrx_enque (r : AmRxQueue) (NOW : Z) (pkt : AmPacket) : result (AmRxQueue * list amrx_effect) :=
  match amType (am_pdu pkt) with
  | ACK | MRW_ACK => Ok (r, [AmRouteControl pkt])
  | MRW =>
      let! r := am_moveRxWindow r (lastSn (am_pdu pkt)) in
      match flowControlInfo_ r with
      | None => UB
      | Some info => Ok (r, [AmBufferControl (mrw_ack r (pduSnoMainPacket (am_pdu pkt)) info)])
      end
  | DATA => enque_data r NOW pkt
  end.

Definition amrx_handleMessage (r : AmRxQueue) (NOW : Z) : result (AmRxQueue * list amrx_effect) :=
  let r := r <| timer_ := timer_handle (fired (timer_ r)) |> in
  let! (r, e) := sendStatusReport r NOW in
  if existsb (fun i => match arr_get (rxPduBuffer_ r) (Z.of_nat i) with Some _ => true | None => false end)
       (seq 0 (Z.to_nat (rx_size r)))
  then Ok (r <| timer_ := timer_start (timer_ r) NOW (statusReportInterval_ r) |>, e)
  else Ok (r, e).
End RxQueue.
Arguments AmRxQueue : clear implicits.

Abbreviation rx_first r := (firstSeqNum_ (rxWindowDesc_ r)).
Abbreviation rx_size r := (windowSize_ (rxWindowDesc_ r)).

(** ** The layer *)

Section Layer.
Context {A : Type} {C : CArray AmPacket A} {D : CArrayAdd AmPacket A} `{SimTimeDbl}.

(** The tables of queues and what the queues of a new connection begin as, which the
    parameters of the NED modules determine. *)
Record LteRlcAm := {
  am_newTx : AmTxQueue A;
  am_newRx : AmRxQueue A;
  txBuffers_ : gmap Z (AmTxQueue A);
  rxBuffers_ : gmap Z (AmRxQueue A)
}.

#[export] Instance rlcam_eta : Eta LteRlcAm := fun s =>
  {| am_newTx := am_newTx s; am_newRx := am_newRx s; txBuffers_ := txBuffers_ s; rxBuffers_ := rxBuffers_ s |}.

(** What leaves the layer: data for PDCP, PDUs for the MAC layer, and notices of new data
    with their tag and [lengthMainPacket]. *)
Inductive rlcam_effect :=
| AmUp (data : list slice) (tag : FlowControlInfo)
| AmDown (pkt : AmPacket)
| AmNotice (tag : FlowControlInfo) (length : Z).

Definition am_getTxBuffer (s : LteRlcAm) (nodeId lcid : Z) : AmTxQueue A := default (am_newTx s) (txBuffers_ s !! idToMacCid nodeId lcid).
Definition am_getRxBuffer (s : LteRlcAm) (nodeId lcid : Z) : AmRxQueue A := default (am_newRx s) (rxBuffers_ s !! idToMacCid nodeId lcid).

Definition am_put_tx (s : LteRlcAm) (nodeId lcid : Z) (t : AmTxQueue A) : LteRlcAm :=
  s <| txBuffers_ := <[idToMacCid nodeId lcid := t]> (txBuffers_ s) |>.
Definition am_put_rx (s : LteRlcAm) (nodeId lcid : Z) (r : AmRxQueue A) : LteRlcAm :=
  s <| rxBuffers_ := <[idToMacCid nodeId lcid := r]> (rxBuffers_ s) |>.

Definition am_tx_out (e : amtx_effect) : rlcam_effect :=
  match e with
  | AmNewData pkt => AmNotice (am_tag pkt) (uint32 (am_getByteLength pkt))
  | AmSendFragmented pkt => AmDown pkt
  end.

(** A call of an operation of the transmitting queue of a connection. *)
Definition with_tx (s : LteRlcAm) (info : FlowControlInfo) (op : AmTxQueue A -> result (AmTxQueue A * list amtx_effect))
    : result (LteRlcAm * list rlcam_effect) :=
  let! nodeId := ctrlInfoToUeId info in
  let! (t, e) := op (am_getTxBuffer s nodeId (fi_lcid info)) in
  Ok (am_put_tx s nodeId (fi_lcid info) t, am_tx_out <$> e).

Definition rlcam_bufferControlPdu (s : LteRlcAm) (pkt : AmPacket) : result (LteRlcAm * list rlcam_effect) :=
  with_tx s (am_tag pkt) (fun t => Ok (bufferControlPdu t pkt)).
Definition routeControlMessage (s : LteRlcAm) (NOW : Z) (pkt : AmPacket) : result (LteRlcAm * list rlcam_effect) :=
  with_tx s (am_tag pkt) (fun t => handleControlPacket t NOW pkt).

Definition am_rx_out (s : LteRlcAm) (NOW : Z) (e : amrx_effect) : result (LteRlcAm * list rlcam_effect) :=
  match e with
  | AmSendDefragmented data tag => Ok (s, [AmUp data tag])
  | AmBufferControl pkt => rlcam_bufferControlPdu s pkt
  | AmRouteControl pkt => routeControlMessage s NOW pkt
  end.

Fixpoint am_rx_outs (s : LteRlcAm) (NOW : Z) (l : list amrx_effect) : result (LteRlcAm * list rlcam_effect) :=
  match l with
  | [] => Ok (s, [])
  | e :: l' =>
      let! (s, o) := am_rx_out s NOW e in
      let! (s, o') := am_rx_outs s NOW l' in
      Ok (s, o ++ o')
  end.

(** A packet of [bytes] bytes from PDCP; the [LteRlcAmSdu] header goes in front. *)
Definition am_sdu (ptr bytes : Z) (info : FlowControlInfo) : AmSdu :=
  {| as_ptr := ptr; as_sno := uint32 (fi_sequenceNumber info); as_bytes := bytes + RLC_HEADER_AM; as_info := info |}.
Definition am_handleUpperMessage (s : LteRlcAm) (NOW ptr bytes : Z) (info : FlowControlInfo) : result (LteRlcAm * list rlcam_effect) :=
  with_tx s info (fun t => am_enque t NOW (am_sdu ptr bytes info)).

(** From the MAC layer: a request for [size] bytes, or a PDU. *)
Definition am_handleSduRequest (s : LteRlcAm) (info : FlowControlInfo) (size : Z) : result (LteRlcAm * list rlcam_effect) :=
  with_tx s info (fun t => sendPdus t (int32 size)).
Definition am_handlePdu (s : LteRlcAm) (NOW : Z) (pkt : AmPacket) : result (LteRlcAm * list rlcam_effect) :=
  match amType (am_pdu pkt) with
  | ACK | MRW_ACK => routeControlMessage s NOW pkt
  | DATA | MRW =>
      let info := am_tag pkt in
      let! nodeId := ctrlInfoToUeId info in
      let! (r, e) := amrx_enque (am_getRxBuffer s nodeId (fi_lcid info)) NOW pkt in
      am_rx_outs (am_put_rx s nodeId (fi_lcid info) r) NOW e
  end.

Definition am_deleteQueues (s : LteRlcAm) (nodeId : Z) : LteRlcAm :=
  s <| txBuffers_ := filter (fun x => MacCidToNodeId x.1 <> nodeId) (txBuffers_ s) |>
    <| rxBuffers_ := filter (fun x => MacCidToNodeId x.1 <> nodeId) (rxBuffers_ s) |>.
End Layer.
Arguments LteRlcAm : clear implicits.
