(* ===== verification/RlcAmRxFacts.v ===== *)
(** * RLC acknowledged mode: the receiving queue keeps its window

    The invariant of [AmRxQueue] against the plan of the transmitter (RlcAmFacts.v): the
    PDUs of the window are those of the plan, an SDU is passed up whole and once, and what
    is reported has been received. *)

From stdpp Require Import list.
From S2P Require Import Prelude Doubles LteCommon TTimer RlcWindow RlcAm RlcAmFacts RlcAmRx.
#[local] Open Scope Z_scope.

#[local] Arguments total_frags : simpl never.
#[local] Arguments plan_of : simpl never.
#[local] Arguments nfrags : simpl never.

(** An SDU of a connection between a base station and a UE, with a sequence number that is
    not negative as an [int]. *)
Definition flow_ok (s : AmSdu) : Prop :=
  (fi_direction (as_info s) = DL \/ fi_direction (as_info s) = UL) /\ 0 <= as_sno s < 2 ^ 31.

(** What PDCP is given of an SDU: the packet behind the header. *)
Definition whole (s : AmSdu) : list slice * FlowControlInfo := ([(s, RLC_HEADER_AM, as_bytes s - RLC_HEADER_AM)], as_info s).

(** ** Joining the data of PDUs *)

Section Join.
Variable u : Z.
Context (Hu : 0 < u).

Lemma fragment_data acc sn p : is_fragment u acc sn p ->
  exists s st, vget (plan_of u acc) sn = Some (s, st) /\ am_data p = am_data (planned u s st sn) /\ am_tag p = as_info s /\
    amType (am_pdu p) = DATA /\ snoFragment (am_pdu p) = sn /\ firstSn (am_pdu p) = st /\ lastSn (am_pdu p) = st + nfrags u s - 1 /\
    totalFragments (am_pdu p) = nfrags u s /\ pduSnoMainPacket (am_pdu p) = as_sno s.
Proof.
  intros (s & st & E & Hs). exists s, st. unfold strip in Hs. destruct p as [[ty tx f l b t sf sno bits] data tag]. cbn in Hs.
  injection Hs as -> -> -> -> -> -> -> -> ->. by split_and!.
Qed.

Lemma join_slice_adjacent s off len len' : join_slice [(s, off, len)] (s, off + len, len') = [(s, off, len + len')].
Proof. unfold join_slice. cbn. by rewrite !Z.eqb_refl. Qed.

(** The data of the first [m] PDUs of an SDU. *)
Lemma join_fragments acc s st frames : forall m, sdu_ok s -> 0 < m <= nfrags u s -> length frames = Z.to_nat m ->
  (forall k p, frames !! k = Some p -> vget (plan_of u acc) (st + Z.of_nat k) = Some (s, st) /\ is_fragment u acc (st + Z.of_nat k) p) ->
  fold_left (fun l f => join_data l (am_data f)) frames [] = [(s, 0, Z.min (m * u) (as_bytes s))].
Proof.
  induction frames as [|p frames IH] using rev_ind; intros m Hs Hm Hlen Hall; [cbn in Hlen; lia|].
  pose proof (nfrags_spec u Hu s Hs) as [_ Hb]. rewrite length_app in Hlen. cbn in Hlen. rewrite fold_left_app. cbn [fold_left].
  assert (Hp : am_data p = [(s, (m - 1) * u, Z.min u (as_bytes s - (m - 1) * u))]).
  { destruct (Hall (length frames) p) as [E (s' & st' & E' & Hs')]; [by rewrite lookup_app_r, Nat.sub_diag by lia|].
    rewrite E in E'. injection E' as <- <-. apply (f_equal am_data) in Hs'. cbn in Hs'. rewrite Hs'.
    replace (st + Z.of_nat (length frames) - st) with (m - 1) by lia. done. }
  rewrite Hp. destruct (decide (m = 1)) as [->|Hne].
  - destruct frames; [|cbn in Hlen; lia]. cbn [join_data fold_left]. unfold join_slice; cbn [last]. replace ((1 - 1) * u) with 0 by lia. by rewrite Z.sub_0_r, Z.mul_1_l.
  - rewrite (IH (m - 1)); [|done|lia|lia|].
    + rewrite (Z.min_l ((m - 1) * u)) by nia. cbn [join_data fold_left]. replace ((m - 1) * u) with (0 + (m - 1) * u) at 2 by lia.
      rewrite join_slice_adjacent. do 3 f_equal. lia.
    + intros k q Hk. apply Hall. by apply lookup_app_l_Some.
Qed.

Lemma join_whole acc s st frames : sdu_ok s -> length frames = Z.to_nat (nfrags u s) ->
  (forall k p, frames !! k = Some p -> vget (plan_of u acc) (st + Z.of_nat k) = Some (s, st) /\ is_fragment u acc (st + Z.of_nat k) p) ->
  defragmentFrames frames = Ok ([(s, 0, as_bytes s)], as_info s).
Proof.
  intros Hs Hlen Hall. pose proof (nfrags_spec u Hu s Hs) as [Hn Hb]. unfold defragmentFrames.
  pose proof (join_fragments acc s st frames (nfrags u s) Hs ltac:(lia) Hlen Hall) as E. rewrite Z.min_r in E by lia.
  destruct frames as [|p frames]; [cbn in Hlen; lia|]. rewrite E. destruct (Hall 0%nat p eq_refl) as [E1 Hf].
  apply fragment_data in Hf as (s' & st' & E2 & _ & Et & _). rewrite E1 in E2. injection E2 as <- <-. by rewrite Et.
Qed.

Lemma pop_whole s : sdu_ok s -> pop_sdu_header [(s, 0, as_bytes s)] = Ok (whole s).1.
Proof. intros Hs. unfold pop_sdu_header. cbn. unfold sdu_ok in Hs. by rewrite (proj2 (Z.leb_le _ _)) by done. Qed.
End Join.

(** ** Status reports *)

Lemma report_hole l n : forall i c, 0 <= i -> i + Z.of_nat n <= vsize l ->
  exists bm, report_loop l i c true n = Ok (c, bm) /\ forall k b, bm !! k = Some b -> b = flag l (i + Z.of_nat k).
Proof.
  induction n as [|n IH]; intros i c Hi Hn; cbn [report_loop]; [exists []; split; [done|]; intros k b; by rewrite lookup_nil|].
  rewrite flag_at_ok by lia. cbn [rbind negb]. rewrite andb_false_r, orb_true_r. destruct (IH (i + 1) c) as (bm & -> & Hbm); [lia|lia|].
  cbn [rbind]. exists (flag l i :: bm). split; [done|]. intros [|k] b Hb; cbn in Hb; [injection Hb as <-; f_equal; lia|].
  rewrite (Hbm k b Hb). f_equal. lia.
Qed.

Lemma report_run l n : forall i, 0 <= i -> (i = 0 -> flag l 0 = true) -> i + Z.of_nat n <= vsize l ->
  exists c bm, report_loop l i i false n = Ok (c, bm) /\ i <= c <= i + Z.of_nat n /\ (forall j, i <= j < c -> flag l j = true) /\
    forall k b, bm !! k = Some b -> b = flag l (c + Z.of_nat k).
Proof.
  induction n as [|n IH]; intros i Hi H0 Hn; cbn [report_loop].
  { exists i, []. split; [done|]. split; [lia|]. split; [lia|]. intros k b. by rewrite lookup_nil. }
  rewrite flag_at_ok by lia. cbn [rbind negb]. rewrite andb_true_r, orb_false_r. destruct (flag l i) eqn:Ef.
  - destruct (IH (i + 1)) as (c & bm & -> & Hc & Hall & Hbm); [lia|lia|lia|]. exists c, bm. split; [done|]. split; [lia|]. split; [|done].
    intros j Hj. destruct (decide (j = i)) as [->|]; [done|]. apply Hall. lia.
  - assert (0 < i) by (destruct (decide (i = 0)) as [->|]; [rewrite H0 in Ef by done; done|lia]). rewrite (proj2 (Z.ltb_lt 0 i)) by lia.
    destruct (report_hole l n (i + 1) i) as (bm & -> & Hbm); [lia|lia|]. cbn [rbind]. exists i, (false :: bm). split; [done|]. split; [lia|]. split; [lia|].
    intros [|k] b Hb; cbn in Hb; [injection Hb as <-; by rewrite Z.add_0_r|]. rewrite (Hbm k b Hb). f_equal. lia.
Qed.

(** ** The invariant *)

Section Rx.
Context {A : Type} {C : CArray AmPacket A} {D : CArrayAdd AmPacket A}.
Context {L : CArrayLaws AmPacket A} {LD : CArrayAddLaws AmPacket A} `{SimTimeDbl}.
Variable u : Z.
Context (Hu : 0 < u).

(** The sequence numbers the receiver has got. *)
Definition rx_got (r : AmRxQueue A) (sn : Z) : Prop := 0 <= sn /\ (sn < rx_first r \/ flag (rxReceived_ r) (sn - rx_first r) = true).

(** The number at which the SDU that [f] is inside of begins. *)
Definition sdu_start (acc : list AmSdu) (f : Z) : Z := match vget (plan_of u acc) f with Some (_, st) => st | None => f end.

(** All PDUs of the SDU of [f] have come. *)
Definition sdu_got (acc : list AmSdu) (r : AmRxQueue A) (s : AmSdu) (st : Z) : Prop := forall j, st <= j < st + nfrags u s -> rx_got r j.

Record rx_ok (acc : list AmSdu) (r : AmRxQueue A) : Prop := {
  rk_acc : Forall sdu_ok acc /\ Forall flow_ok acc /\ total_frags u acc < sn_bound;
  rk_size : 0 < rx_size r < 2 ^ 9 /\ vsize (rxReceived_ r) = rx_size r;
  rk_disc : vsize (rxDiscarded_ r) = rx_size r;
  rk_first : 0 <= rx_first r <= total_frags u acc;
  rk_slot i p : arr_get (rxPduBuffer_ r) i = Some p -> flag (rxReceived_ r) i = true /\ is_fragment u acc (rx_first r + i) p;
  rk_have i : flag (rxReceived_ r) i = true -> arr_get (rxPduBuffer_ r) i <> None;
  rk_flow sn : rx_got r sn -> flowControlInfo_ r <> None;
  rk_inside s st : vget (plan_of u acc) (rx_first r) = Some (s, st) -> st < rx_first r -> firstSdu_ r = as_sno s;
  rk_pending : exists a, sdu_start acc (rx_first r) <= a <= rx_first r /\ vsize (pendingPduBuffer_ r) = rx_first r - a /\
    (forall k p, pendingPduBuffer_ r !! k = Some p -> is_fragment u acc (a + Z.of_nat k) p) /\
    (a = sdu_start acc (rx_first r) \/ forall s st, vget (plan_of u acc) (rx_first r) = Some (s, st) -> sdu_got acc r s st);
  rk_timer : intr_at (timer_ r) <> None -> flowControlInfo_ r <> None
}.

Lemma got_entry acc r sn : rx_ok acc r -> rx_got r sn -> exists s st, vget (plan_of u acc) sn = Some (s, st).
Proof.
  intros Hr [H0 [Hlt|Hf]]; [apply plan_get; [done|apply Hr|pose proof (rk_first _ _ Hr); lia]|].
  destruct (arr_get (rxPduBuffer_ r) (sn - rx_first r)) as [p|] eqn:E; [|by apply (rk_have _ _ Hr) in Hf].
  apply (rk_slot _ _ Hr) in E as [_ (s & st & E & _)]. replace (rx_first r + (sn - rx_first r)) with sn in E by lia. eauto.
Qed.

(** Changes that only concern reports. *)
Definition report_frame (r r' : AmRxQueue A) : Prop := exists x, r' = r <| lastSentAck_ := x |>.

Lemma report_frame_got r r' sn : report_frame r r' -> rx_got r' sn <-> rx_got r sn.
Proof. by intros [x ->]. Qed.

Lemma report_frame_ok acc r r' : report_frame r r' -> rx_ok acc r -> rx_ok acc r'.
Proof. intros [x ->] [K1 K2 K3 K4 K5 K6 K7 K8 K9]. by split. Qed.

(** What the queue asks for besides passing up: control packets that say what is true. *)
Definition controls (r : AmRxQueue A) (e : list amrx_effect) : Prop :=
  forall x, x ∈ e -> exists p, x = AmBufferControl p /\ up_ok (rx_got r) (rx_first r) p.

Lemma controls_nil r : controls r [].
Proof. intros x Hx. by apply elem_of_nil in Hx. Qed.

Lemma ack_up_ok acc r c bm info : rx_ok acc r -> 0 <= c <= rx_size r -> (forall j, 0 <= j < c -> flag (rxReceived_ r) j = true) ->
  (forall k b, bm !! k = Some b -> b = flag (rxReceived_ r) (c + Z.of_nat k)) -> up_ok (rx_got r) (rx_first r) (ack_packet r c bm info).
Proof.
  intros Hr Hc Hall Hbm. pose proof (rk_first _ _ Hr) as Hf. pose proof (rk_size _ _ Hr) as [Hsz _]. pose proof (rk_acc _ _ Hr) as (_ & _ & Hb). unfold sn_bound in Hb.
  unfold up_ok, ack_packet. rewrite !(swrap_small 32) by (unfold is_sint; lia).
  assert (Hg : forall j, 0 <= j <= rx_first r + c - 1 -> rx_got r j).
  { intros j Hj. split; [lia|]. destruct (decide (j < rx_first r)); [by left|right; apply Hall; lia]. }
  destruct (_ <? _); cbn; (split; [lia|]); (split; [exact Hg|]); intros i Hi; [|by rewrite lookup_nil in Hi]. apply Hbm in Hi.
  split; [lia|]. right. by replace (rx_first r + c + Z.of_nat i - rx_first r) with (c + Z.of_nat i) by lia.
Qed.

Lemma sendStatusReport_ok acc r NOW : rx_ok acc r -> flowControlInfo_ r <> None ->
  exists r' e, sendStatusReport r NOW = Ok (r', e) /\ report_frame r r' /\ controls r' e.
Proof.
  intros Hr Hflow. pose proof (rk_size _ _ Hr) as [Hsz Hlen]. assert (Hsame : report_frame r r) by (exists (lastSentAck_ r); by destruct r).
  unfold sendStatusReport. destruct (fltb _ _); [exists r, []; split; [done|]; split; [done|apply controls_nil]|].
  rewrite flag_at_ok by lia. cbn [rbind].
  assert (Hrep : exists c bm, report_loop (rxReceived_ r) 0 0 (negb (flag (rxReceived_ r) 0)) (Z.to_nat (rx_size r)) = Ok (c, bm) /\ 0 <= c <= rx_size r /\
    (forall j, 0 <= j < c -> flag (rxReceived_ r) j = true) /\ forall k b, bm !! k = Some b -> b = flag (rxReceived_ r) (c + Z.of_nat k)).
  { destruct (flag (rxReceived_ r) 0) eqn:E; cbn [negb].
    - destruct (report_run (rxReceived_ r) (Z.to_nat (rx_size r)) 0) as (c & bm & -> & Hc & ? & ?); [lia|done|lia|]. exists c, bm. split; [done|]. split; [lia|done].
    - destruct (report_hole (rxReceived_ r) (Z.to_nat (rx_size r)) 0 0) as (bm & -> & ?); [lia|lia|]. exists 0, bm. split; [done|]. split; [lia|]. split; [lia|done]. }
  destruct Hrep as (c & bm & -> & Hc & Hall & Hbm). cbn [rbind]. destruct (_ || _); [|exists r, []; split; [done|]; split; [done|apply controls_nil]].
  destruct (flowControlInfo_ r) as [info|]; [|done]. eexists _, _. split; [reflexivity|]. split; [by exists NOW|].
  intros x Hx%list_elem_of_singleton. exists (ack_packet r c bm info). split; [done|]. exact (ack_up_ok acc r c bm info Hr Hc Hall Hbm).
Qed.

(** ** Passing an SDU up *)

Lemma take_frames_ok (a : A) pkId total n : forall m aux acc0, total = vsize acc0 + Z.of_nat m -> (m <= n)%nat -> 0 <= aux ->
  (forall k, 0 <= k < Z.of_nat m -> exists p, arr_get a (aux + k) = Some p /\ pkId = pduSnoMainPacket (am_pdu p)) ->
  exists ps, take_frames a pkId total aux acc0 n = Ok (acc0 ++ ps) /\ length ps = m /\
    forall k p, ps !! k = Some p -> arr_get a (aux + Z.of_nat k) = Some p.
Proof.
  induction n as [|n IH]; intros m aux acc0 Ht Hm Ha Hall; cbn [take_frames].
  { assert (m = 0%nat) as -> by lia. exists []. rewrite app_nil_r. split_and!; [done|done|]. intros k p. by rewrite lookup_nil. }
  destruct m as [|m]; [rewrite (proj2 (Z.leb_le _ _)) by lia; exists []; rewrite app_nil_r; split_and!; [done|done|]; intros k p; by rewrite lookup_nil|].
  rewrite (proj2 (Z.leb_gt _ _)) by lia. destruct (Hall 0) as (p & Ep & Hp); [lia|]. rewrite Z.add_0_r in Ep. unfold packet_at. rewrite Ep; cbn [rbind].
  rewrite <- Hp, Z.eqb_refl. destruct m as [|m].
  - exists [p]. split; [|split; [done|]].
    + destruct n; cbn [take_frames]; [done|]. by rewrite (proj2 (Z.leb_le _ _)) by (rewrite length_app; cbn; lia).
    + intros [|k] q Hq; cbn in Hq; [injection Hq as <-; by rewrite Z.add_0_r|done].
  - destruct (Hall 1) as (p1 & Ep1 & _); [lia|]. assert (Hs : aux + 1 < arr_size a) by (apply arr_size_bound; by rewrite Ep1).
    rewrite (proj2 (Z.leb_gt _ _)) by lia.
    destruct (IH (S m) (aux + 1) (acc0 ++ [p])) as (ps & E & Hl & Hps); [rewrite length_app; cbn; lia|lia|lia| |].
    { intros k Hk. replace (aux + 1 + k) with (aux + (k + 1)) by lia. apply Hall. lia. }
    exists (p :: ps). rewrite E, <- app_assoc. split; [done|]. split; [cbn; lia|].
    intros [|k] q Hq; cbn in Hq; [injection Hq as <-; by rewrite Z.add_0_r|]. rewrite <- (Hps k q Hq). f_equal. lia.
Qed.

Lemma take_pending_ok pkId l : Forall (fun p => pduSnoMainPacket (am_pdu p) = pkId) l -> take_pending pkId l = Ok l.
Proof. induction 1 as [|p l Hp _ IH]; [done|]. cbn. by rewrite Hp, Z.eqb_refl, IH. Qed.

(** The PDU of a slot, in terms of its SDU. *)
Lemma slot_entry acc r i p s st : rx_ok acc r -> arr_get (rxPduBuffer_ r) i = Some p -> vget (plan_of u acc) (rx_first r + i) = Some (s, st) ->
  am_tag p = as_info s /\ pduSnoMainPacket (am_pdu p) = as_sno s /\ totalFragments (am_pdu p) = nfrags u s /\
  am_data p = am_data (planned u s st (rx_first r + i)) /\
  isFirst (am_pdu p) = (rx_first r + i =? st) /\ isLast (am_pdu p) = (rx_first r + i =? st + nfrags u s - 1) /\ isWhole (am_pdu p) = (nfrags u s =? 1).
Proof.
  intros Hr Ep E. apply (rk_slot _ _ Hr) in Ep as [_ Hf]. apply fragment_data in Hf as (s' & st' & E' & Hd & Ht & _ & Hsn & Hfst & Hlst & Htot & Hsno).
  rewrite E in E'. injection E' as <- <-. pose proof (rk_acc _ _ Hr) as (Hok & _ & Hb). destruct (plan_entry u Hu acc _ _ _ Hok E) as (_ & _ & Hst & Hend & _).
  unfold sn_bound in Hb. split_and!; try done; unfold isFirst, isLast, isWhole; rewrite ?Hsn, ?Hfst, ?Hlst, ?wrap_small by (unfold is_uint; lia);
    first [apply Z.eqb_sym | apply Bool.eq_iff_eq_true; rewrite !Z.eqb_eq; lia].
Qed.

Definition same_rx (r r' : AmRxQueue A) : Prop :=
  rxWindowDesc_ r' = rxWindowDesc_ r /\ rxReceived_ r' = rxReceived_ r /\ flowControlInfo_ r' = flowControlInfo_ r.

Lemma same_rx_got r r' sn : same_rx r r' -> rx_got r' sn <-> rx_got r sn.
Proof. unfold rx_got. by intros (-> & -> & _). Qed.

Lemma report_same r r' : report_frame r r' -> same_rx r r'.
Proof. by intros [x ->]. Qed.

Lemma clear_pending_ok acc r s st : rx_ok acc r -> vget (plan_of u acc) (rx_first r) = Some (s, st) -> sdu_got acc r s st ->
  rx_ok acc (r <| pendingPduBuffer_ := [] |>).
Proof.
  intros [K1 K2 K3 K4 K5 K6 K7 K8 K9] E Hg. split; try done. exists (rx_first r). cbn. split.
  - unfold sdu_start. rewrite E. destruct (plan_entry u Hu acc _ _ _ (proj1 K1) E) as (_ & _ & ? & _). lia.
  - split; [lia|]. split; [intros k p; by rewrite lookup_nil|]. right. intros s' st' E'. rewrite E in E'. by injection E' as <- <-.
Qed.

(** The pending PDUs are those of the SDU from its first on. *)
Definition pending_from (acc : list AmSdu) (r : AmRxQueue A) (st : Z) : Prop :=
  vsize (pendingPduBuffer_ r) = rx_first r - st /\ forall k p, pendingPduBuffer_ r !! k = Some p -> is_fragment u acc (st + Z.of_nat k) p.

Lemma gather_ok acc r i p s st : rx_ok acc r -> arr_get (rxPduBuffer_ r) i = Some p -> vget (plan_of u acc) (rx_first r + i) = Some (s, st) ->
  sdu_got acc r s st -> (rx_first r + i = st \/ i = 0 /\ st < rx_first r /\ pending_from acc r st) ->
  exists r', gather r i = Ok (r', [(s, 0, as_bytes s)], as_info s) /\ rx_ok acc r' /\ same_rx r r'.
Proof.
  intros Hr Ep E Hg Hcase. pose proof (rk_acc _ _ Hr) as (Hok & _ & Hb). destruct (plan_entry u Hu acc _ _ _ Hok E) as (_ & Hs & Hst & Hend & Hwhole).
  destruct (slot_entry acc r i p s st Hr Ep E) as (Et & Esno & Etot & Ed & Ef & El & Ew). pose proof (nfrags_spec u Hu s Hs) as [Hn Hnb].
  unfold gather, packet_at. rewrite Ep; cbn [rbind]. rewrite Ew. assert (Hi : 0 <= i) by (apply (rk_slot _ _ Hr) in Ep as [Hf _]; apply flag_range in Hf; lia).
  assert (Hslot : forall j, 0 <= j -> st <= rx_first r + j < st + nfrags u s -> exists q, arr_get (rxPduBuffer_ r) j = Some q /\ as_sno s = pduSnoMainPacket (am_pdu q)).
  { intros j Hj0 Hj. destruct (Hg (rx_first r + j) Hj) as [_ [?|Hf]]; [lia|]. replace (rx_first r + j - rx_first r) with j in Hf by lia.
    destruct (arr_get (rxPduBuffer_ r) j) as [q|] eqn:Eq; [|by apply (rk_have _ _ Hr) in Hf]. exists q. split; [done|].
    by destruct (slot_entry acc r j q s st Hr Eq (Hwhole _ Hj)) as (_ & -> & _). }
  assert (Hfrag : forall j q, arr_get (rxPduBuffer_ r) j = Some q -> is_fragment u acc (rx_first r + j) q) by (intros j q Eq; by apply (rk_slot _ _ Hr) in Eq as [_ ?]).
  destruct (Z.eqb_spec (nfrags u s) 1) as [E1|E1].
  { exists r. split; [|by split]. rewrite Ed, Et. cbn. replace (rx_first r + i - st) with 0 by lia. cbn. rewrite Z.sub_0_r, Z.min_r by lia. done. }
  rewrite Ef, Esno, Etot. destruct Hcase as [Hfirst|(-> & Hlt & Hpl & Hpf)].
  - rewrite (proj2 (Z.eqb_eq (rx_first r + i) st)) by done. cbn [negb]. rewrite andb_false_r. cbn [rbind].
    destruct (take_frames_ok (rxPduBuffer_ r) (as_sno s) (nfrags u s) (Z.to_nat (arr_size (rxPduBuffer_ r))) (Z.to_nat (nfrags u s)) i []) as (ps & -> & Hl & Hps); [cbn; lia| |done| |].
    { destruct (Hslot (i + (nfrags u s - 1))) as (q & Eq & _); [lia|lia|]. pose proof (arr_size_bound (rxPduBuffer_ r) (i + (nfrags u s - 1))). rewrite Eq in *. specialize (H0 ltac:(done)). lia. }
    { intros k Hk. apply Hslot; lia. }
    cbn [rbind app]. rewrite (join_whole u Hu acc s st ps Hs Hl); [cbn [rbind]; exists r; split; [done|by split]|].
    intros k q Hk. apply lookup_lt_Some in Hk as Hk'. split; [apply Hwhole; lia|]. replace (st + Z.of_nat k) with (rx_first r + (i + Z.of_nat k)) by lia. by apply Hfrag, Hps.
  - rewrite (proj2 (Z.eqb_neq (rx_first r + 0) st)) by lia. cbn [Z.eqb andb negb].
    assert (Hpend : forall k q, pendingPduBuffer_ r !! k = Some q -> vget (plan_of u acc) (st + Z.of_nat k) = Some (s, st) /\ is_fragment u acc (st + Z.of_nat k) q).
    { intros k q Hk. apply lookup_lt_Some in Hk as Hk'. split; [apply Hwhole; lia|by apply Hpf]. }
    rewrite take_pending_ok.
    2:{ apply Forall_lookup_2. intros k q Hk. destruct (Hpend k q Hk) as [E' Hq]. apply fragment_data in Hq as (s' & st' & E2 & _ & _ & _ & _ & _ & _ & _ & ->). rewrite E' in E2. by injection E2 as <- <-. }
    cbn [rbind]. change (rxPduBuffer_ (set pendingPduBuffer_ _ r)) with (rxPduBuffer_ r).
    destruct (take_frames_ok (rxPduBuffer_ r) (as_sno s) (nfrags u s) (Z.to_nat (arr_size (rxPduBuffer_ r))) (Z.to_nat (st + nfrags u s - rx_first r)) 0 (pendingPduBuffer_ r)) as (ps & -> & Hl & Hps); [lia| |done| |].
    { destruct (Hslot (st + nfrags u s - rx_first r - 1)) as (q & Eq & _); [lia|lia|]. pose proof (arr_size_bound (rxPduBuffer_ r) (st + nfrags u s - rx_first r - 1)). rewrite Eq in *. specialize (H0 ltac:(done)). lia. }
    { intros k Hk. apply Hslot; lia. }
    cbn [rbind]. rewrite (join_whole u Hu acc s st); [|done|rewrite length_app; lia|].
    + cbn [rbind]. eexists. split; [reflexivity|]. split; [|by split]. eapply clear_pending_ok; [done| |done]. by rewrite Z.add_0_r in E.
    + intros k q Hk. apply lookup_app_Some in Hk as [Hk|[Hk1 Hk2]]; [by apply Hpend|]. apply lookup_lt_Some in Hk2 as Hk'. split; [apply Hwhole; lia|].
      apply Hps in Hk2. apply Hfrag in Hk2. by replace (st + Z.of_nat k) with (rx_first r + (0 + Z.of_nat (k - length (pendingPduBuffer_ r)))) by lia.
Qed.

Lemma passUp_ok acc r NOW i p s st : rx_ok acc r -> arr_get (rxPduBuffer_ r) i = Some p -> vget (plan_of u acc) (rx_first r + i) = Some (s, st) ->
  sdu_got acc r s st -> (rx_first r + i = st \/ i = 0 /\ st < rx_first r /\ pending_from acc r st) ->
  exists r' e, passUp r NOW i = Ok (r', AmSendDefragmented (whole s).1 (whole s).2 :: e) /\ rx_ok acc r' /\ same_rx r r' /\ controls r' e.
Proof.
  intros Hr Ep E Hg Hcase. destruct (gather_ok acc r i p s st Hr Ep E Hg Hcase) as (r1 & Eg & Hr1 & Hs1). unfold passUp. rewrite Eg; cbn [rbind].
  pose proof (rk_acc _ _ Hr) as (Hok & Hflow & _). destruct (plan_entry u Hu acc _ _ _ Hok E) as (Hin & Hs & Hst & _). rewrite pop_whole by done; cbn [rbind].
  pose proof (proj1 (Forall_forall _ _) Hflow s Hin) as [Hdir _].
  destruct (sendStatusReport_ok acc r1 NOW Hr1) as (r2 & e & E2 & Hf2 & Hc2).
  { destruct Hs1 as (_ & _ & ->). apply (rk_flow _ _ Hr (rx_first r + i)). apply (rk_slot _ _ Hr) in Ep as [Hf _]. apply flag_range in Hf as Hb. pose proof (rk_first _ _ Hr).
    split; [lia|]. right. by replace (rx_first r + i - rx_first r) with i by lia. }
  rewrite E2. exists r2, e. split; [by destruct Hdir as [-> | ->]|]. split; [by eapply report_frame_ok|]. split; [|done].
  apply report_same in Hf2. destruct Hs1 as (? & ? & ?), Hf2 as (? & ? & ?). split_and!; congruence.
Qed.

(** ** Looking for a complete SDU *)

(** A received position inside an SDU holds one of its PDUs. *)
Lemma received_slot acc r i s st : rx_ok acc r -> flag (rxReceived_ r) i = true -> vget (plan_of u acc) (rx_first r + i) = Some (s, st) ->
  exists p, packet_at (rxPduBuffer_ r) i = Ok p /\ pduSnoMainPacket (am_pdu p) = as_sno s /\ isFirst (am_pdu p) = (rx_first r + i =? st) /\
    isLast (am_pdu p) = (rx_first r + i =? st + nfrags u s - 1) /\ isWhole (am_pdu p) = (nfrags u s =? 1) /\ rx_got r (rx_first r + i).
Proof.
  intros Hr Hf E. destruct (arr_get (rxPduBuffer_ r) i) as [p|] eqn:Ep; [|by apply (rk_have _ _ Hr) in Hf].
  destruct (slot_entry acc r i p s st Hr Ep E) as (_ & ? & _ & _ & ? & ? & ?). exists p. unfold packet_at. rewrite Ep. split_and!; try done.
  apply flag_range in Hf as Hb. pose proof (rk_first _ _ Hr). split; [lia|]. right. by replace (rx_first r + i - rx_first r) with i by lia.
Qed.

Lemma search_back_ok acc r s st i n : rx_ok acc r -> vget (plan_of u acc) (rx_first r + i) = Some (s, st) -> i < rx_size r ->
  Z.of_nat n <= i -> st < rx_first r + Z.of_nat n \/ n = 0%nat -> (forall j, Z.of_nat n <= j <= i -> rx_got r (rx_first r + j)) ->
  exists o, search_back r (as_sno s) n = Ok o /\
    forall j, o = Some j -> rx_first r + j = st /\ 0 <= j /\ forall k, st <= k <= rx_first r + i -> rx_got r k.
Proof.
  intros Hr E Hi. pose proof (rk_acc _ _ Hr) as (Hok & _ & _). destruct (plan_entry u Hu acc _ _ _ Hok E) as (_ & _ & Hst & Hend & Hwhole).
  pose proof (rk_size _ _ Hr) as [_ Hlen]. induction n as [|n IH]; intros Hn Hs Hg; cbn [search_back]; [by exists None|].
  rewrite flag_at_ok by lia. cbn [rbind]. destruct (flag (rxReceived_ r) (Z.of_nat n)) eqn:Ef; cbn [negb]; [|by exists None].
  destruct (received_slot acc r (Z.of_nat n) s st Hr Ef) as (p & Ep & Es & Ef1 & Ef2 & Ef3 & Hgn); [apply Hwhole; lia|]. rewrite Ep; cbn [rbind].
  rewrite Es, Ef1, Ef2, Ef3, Z.eqb_refl; cbn [negb]. assert (Hg' : forall j, Z.of_nat n <= j <= i -> rx_got r (rx_first r + j)).
  { intros j Hj. destruct (decide (j = Z.of_nat n)) as [->|]; [done|]. apply Hg. lia. }
  destruct (Z.eqb_spec (rx_first r + Z.of_nat n) st) as [Efirst|Hne].
  - exists (Some (Z.of_nat n)). split; [done|]. intros j [= <-]. split; [done|]. split; [lia|]. intros k Hk. replace k with (rx_first r + (k - rx_first r)) by lia. apply Hg'. lia.
  - rewrite (proj2 (Z.eqb_neq (rx_first r + Z.of_nat n) _)), (proj2 (Z.eqb_neq (nfrags u s) 1)) by lia. cbn [orb]. apply IH; [lia|lia|done].
Qed.

Lemma search_fwd_ok acc r s st i n : rx_ok acc r -> vget (plan_of u acc) (rx_first r + i) = Some (s, st) ->
  forall j, i < j -> rx_first r + j < st + nfrags u s -> j + Z.of_nat n <= rx_size r -> 0 <= i -> (forall k, i <= k < j -> rx_got r (rx_first r + k)) ->
  exists b, search_fwd r (as_sno s) j n = Ok b /\ (b = true -> forall k, rx_first r + i <= k < st + nfrags u s -> rx_got r k).
Proof.
  intros Hr E. pose proof (rk_acc _ _ Hr) as (Hok & _ & _). destruct (plan_entry u Hu acc _ _ _ Hok E) as (_ & _ & Hst & Hend & Hwhole).
  pose proof (rk_size _ _ Hr) as [_ Hlen]. induction n as [|n IH]; intros j Hj Hs Hn Hi Hg; cbn [search_fwd]; [by exists false|].
  rewrite flag_at_ok by lia. cbn [rbind]. destruct (flag (rxReceived_ r) j) eqn:Ef; cbn [negb]; [|by exists false].
  destruct (received_slot acc r j s st Hr Ef) as (p & Ep & Es & Ef1 & Ef2 & Ef3 & Hgn); [apply Hwhole; lia|]. rewrite Ep; cbn [rbind].
  rewrite Es, Ef1, Ef2, Ef3, Z.eqb_refl; cbn [negb]. assert (Hg' : forall k, i <= k < j + 1 -> rx_got r (rx_first r + k)).
  { intros k Hk. destruct (decide (k = j)) as [->|]; [done|]. apply Hg. lia. }
  destruct (Z.eqb_spec (rx_first r + j) (st + nfrags u s - 1)) as [El|Hne].
  - exists true. split; [done|]. intros _ k Hk. replace k with (rx_first r + (k - rx_first r)) by lia. apply Hg'. lia.
  - rewrite (proj2 (Z.eqb_neq (rx_first r + j) st)), (proj2 (Z.eqb_neq (nfrags u s) 1)) by lia. cbn [orb]. apply IH; [lia|lia|lia|done|done].
Qed.

(** What [checkCompleteSdu] does at a PDU of an SDU: it passes the SDU up, and then all of it
    has come, or it does nothing; an SDU of one PDU is passed up. *)
Definition passed (acc : list AmSdu) (r r' : AmRxQueue A) (s : AmSdu) (st : Z) (e : list amrx_effect) : Prop :=
  rx_ok acc r' /\ same_rx r r' /\
  ((e = [] /\ nfrags u s <> 1) \/
   exists e', e = AmSendDefragmented (whole s).1 (whole s).2 :: e' /\ controls r' e' /\ sdu_got acc r s st).

Lemma set_firstSdu_ok acc r x : rx_ok acc r -> firstSdu_ r = -1 -> rx_ok acc (r <| firstSdu_ := x |>).
Proof.
  intros [K1 K2 K3 K4 K5 K6 K7 K8 K9] E. split; try done. intros s st Es Hst. cbn. specialize (K8 s st Es Hst).
  destruct (plan_entry u Hu acc _ _ _ (proj1 K1) Es) as (Hin & _). pose proof (proj1 (Forall_forall _ _) (proj1 (proj2 K1)) s Hin) as [_ ?]. lia.
Qed.

Lemma checkCompleteSdu_ok acc r NOW i p s st : rx_ok acc r -> arr_get (rxPduBuffer_ r) i = Some p ->
  vget (plan_of u acc) (rx_first r + i) = Some (s, st) -> (st < rx_first r -> pending_from acc r st) ->
  exists r' e, checkCompleteSdu r NOW i = Ok (r', e) /\ passed acc r r' s st e.
Proof.
  intros Hr0 Ep E Hpend0. unfold checkCompleteSdu, packet_at. rewrite Ep; cbn [rbind].
  set (r1 := if firstSdu_ r =? -1 then r <| firstSdu_ := int32 (pduSnoMainPacket (am_pdu p)) |> else r).
  assert (Hr : rx_ok acc r1). { unfold r1. destruct (Z.eqb_spec (firstSdu_ r) (-1)); [by apply set_firstSdu_ok|done]. }
  assert (Hsame : same_rx r r1) by (unfold r1; by destruct (_ =? _)). assert (Hf1 : rx_first r1 = rx_first r) by (by destruct Hsame as (-> & _)).
  assert (Ep1 : arr_get (rxPduBuffer_ r1) i = Some p) by (unfold r1; by destruct (_ =? _)).
  assert (Hpend : st < rx_first r1 -> pending_from acc r1 st) by (unfold r1; by destruct (_ =? _)). rewrite <- Hf1 in E. clearbody r1. clear Hr0 Ep Hpend0.
  assert (Hpass : forall j q, arr_get (rxPduBuffer_ r1) j = Some q -> vget (plan_of u acc) (rx_first r1 + j) = Some (s, st) -> sdu_got acc r1 s st ->
    (rx_first r1 + j = st \/ j = 0 /\ st < rx_first r1 /\ pending_from acc r1 st) -> exists r' e, passUp r1 NOW j = Ok (r', e) /\ passed acc r r' s st e).
  { intros j q Eq Ej Hg Hc. destruct (passUp_ok acc r1 NOW j q s st Hr Eq Ej Hg Hc) as (r' & e & -> & Hr' & Hs' & He). eexists _, _. split; [reflexivity|].
    split; [done|]. split; [destruct Hsame as (? & ? & ?), Hs' as (? & ? & ?); split_and!; congruence|]. right. exists e. split; [done|]. split; [done|].
    intros k Hk. apply (same_rx_got r r1); auto. }
  pose proof (rk_acc _ _ Hr) as (Hok & Hflow & _). destruct (plan_entry u Hu acc _ _ _ Hok E) as (Hin & _ & Hst & Hend & Hwhole).
  pose proof (proj1 (Forall_forall _ _) Hflow s Hin) as [_ Hsno].
  destruct (slot_entry acc r1 i p s st Hr Ep1 E) as (_ & Esno & _ & _ & Ef & El & Ew). apply (rk_slot _ _ Hr) in Ep1 as Hfl. destruct Hfl as [Hfl _].
  apply flag_range in Hfl as Hi. pose proof (rk_size _ _ Hr) as [_ Hlen]. pose proof (rk_first _ _ Hr) as Hrf.
  assert (Hgi : rx_got r1 (rx_first r1 + i)) by (split; [lia|]; right; by replace (rx_first r1 + i - rx_first r1) with i by lia).
  rewrite Ew. destruct (Z.eqb_spec (nfrags u s) 1) as [E1|E1].
  { apply (Hpass i p Ep1 E); [|left; lia]. intros k Hk. by replace k with (rx_first r1 + i) by lia. }
  assert (Hnothing : passed acc r r1 s st []) by (split; [done|]; split; [done|by left]).
  assert (Hstart : exists o, first_index r1 (am_pdu p) i = Ok o /\ forall j, o = Some j ->
    (rx_first r1 + j = st \/ j = 0 /\ st < rx_first r1 /\ pending_from acc r1 st) /\ 0 <= j <= i /\ forall k, st <= k <= rx_first r1 + i -> rx_got r1 k).
  { unfold first_index. rewrite Ef, Esno. destruct (Z.eqb_spec (rx_first r1 + i) st) as [Efst|Hnf].
    { exists (Some i). split; [done|]. intros j [= <-]. split; [by left|]. split; [lia|]. intros k Hk. by replace k with (rx_first r1 + i) by lia. }
    destruct (Z.eqb_spec i 0) as [-> |Hi0].
    - rewrite Z.add_0_r in E. rewrite (rk_inside _ _ Hr s st E) by lia. rewrite swrap_small, Z.eqb_refl by (unfold is_sint; lia). exists (Some 0). split; [done|].
      intros j [= <-]. split; [right; split; [done|]; split; [lia|apply Hpend; lia]|]. split; [lia|]. intros k Hk. destruct (decide (k = rx_first r1 + 0)) as [->|]; [done|]. split; [lia|left; lia].
    - destruct (search_back_ok acc r1 s st i (Z.to_nat i) Hr E) as (o & Eo & Ho); [lia|lia| |intros j Hj; by replace j with i by lia|].
      { destruct (decide (st < rx_first r1 + i)); [left; lia|right; lia]. }
      exists o. split; [done|]. intros j Hj. destruct (Ho j Hj) as (H1 & H2 & H3). split; [by left|]. split; [lia|done]. }
  destruct Hstart as (o & -> & Ho). cbn [rbind]. destruct o as [j|]; [|by eexists _, _]. destruct (Ho j eq_refl) as (Hc & Hj & Hback).
  assert (Hall : (forall k, rx_first r1 + i <= k < st + nfrags u s -> rx_got r1 k) -> exists r' e, passUp r1 NOW j = Ok (r', e) /\ passed acc r r' s st e).
  { intros Hfwd. assert (Hg : sdu_got acc r1 s st) by (intros k Hk; destruct (decide (k <= rx_first r1 + i)); [apply Hback|apply Hfwd]; lia).
    assert (Hjs : st <= rx_first r1 + j < st + nfrags u s) by (destruct Hc as [?|(? & ? & _)]; lia).
    destruct (Hg _ Hjs) as [_ [?|Hfj]]; [lia|]. replace (rx_first r1 + j - rx_first r1) with j in Hfj by lia.
    destruct (arr_get (rxPduBuffer_ r1) j) as [q|] eqn:Eq; [|by apply (rk_have _ _ Hr) in Hfj]. apply (Hpass j q Eq); [by apply Hwhole|done|done]. }
  rewrite El. destruct (Z.eqb_spec (rx_first r1 + i) (st + nfrags u s - 1)) as [Elast|Hnl]; [apply Hall; intros k Hk; by replace k with (rx_first r1 + i) by lia|].
  rewrite Esno. destruct (search_fwd_ok acc r1 s st i (Z.to_nat (rx_size r1 - (i + 1))) Hr E (i + 1)) as (b & -> & Hb);
    [lia|lia|lia|lia|intros k Hk; by replace k with i by lia|]. cbn [rbind]. destruct b; [apply Hall; auto|by eexists _, _].
Qed.

(** ** Moving the window *)

(** The pending PDUs and [firstSdu_] when the window begins at [f]; [r] says what has come. *)
Definition pend_state (acc : list AmSdu) (r : AmRxQueue A) (f : Z) (pend : list AmPacket) (cur : Z) : Prop :=
  (exists a, sdu_start acc f <= a <= f /\ vsize pend = f - a /\ (forall k p, pend !! k = Some p -> is_fragment u acc (a + Z.of_nat k) p) /\
     (a = sdu_start acc f \/ forall s st, vget (plan_of u acc) f = Some (s, st) -> sdu_got acc r s st)) /\
  forall s st, vget (plan_of u acc) f = Some (s, st) -> st < f -> cur = as_sno s.

Lemma sdu_start_next acc f s st : Forall sdu_ok acc -> vget (plan_of u acc) f = Some (s, st) ->
  (f = st + nfrags u s - 1 -> sdu_start acc (f + 1) = f + 1 /\ forall s' st', vget (plan_of u acc) (f + 1) = Some (s', st') -> st' = f + 1) /\
  (f <> st + nfrags u s - 1 -> vget (plan_of u acc) (f + 1) = Some (s, st)).
Proof.
  intros Hok E. destruct (plan_entry u Hu acc _ _ _ Hok E) as (_ & _ & Hst & Hend & Hwhole). split; intros Hl; [|apply Hwhole; lia].
  assert (Hnext : forall s' st', vget (plan_of u acc) (f + 1) = Some (s', st') -> st' = f + 1).
  { intros s' st' E'. destruct (plan_entry u Hu acc _ _ _ Hok E') as (_ & _ & Hst' & Hend' & Hwhole'). destruct (decide (st' <= f)); [|lia].
    rewrite (Hwhole' f) in E by lia. injection E as <- <-. lia. }
  split; [|done]. unfold sdu_start. destruct (vget (plan_of u acc) (f + 1)) as [[s' st']|] eqn:E'; [|done]. by apply (Hnext s').
Qed.

(** One PDU leaves the window. *)
Lemma pend_step acc r f s st p pend cur : Forall sdu_ok acc -> Forall flow_ok acc -> vget (plan_of u acc) f = Some (s, st) -> is_fragment u acc f p ->
  pend_state acc r f pend cur ->
  if decide (f = st + nfrags u s - 1) then pend_state acc r (f + 1) [] (-1) else pend_state acc r (f + 1) (pend ++ [p]) (as_sno s).
Proof.
  intros Hok Hflow E Hp [(a & Ha & Hl & Hf & Hc) Hcur]. destruct (sdu_start_next acc f s st Hok E) as [Hlast Hin].
  destruct (plan_entry u Hu acc _ _ _ Hok E) as (_ & _ & Hst & Hend & Hwhole). case_decide as Hd.
  - destruct (Hlast Hd) as [Es Hnext]. split; [|intros s' st' E' ?; apply Hnext in E'; lia]. exists (f + 1). rewrite Es.
    split; [lia|]. split; [cbn; lia|]. split; [intros k q; by rewrite lookup_nil|by left].
  - specialize (Hin Hd). assert (Es : sdu_start acc f = st) by (unfold sdu_start; by rewrite E). assert (Es' : sdu_start acc (f + 1) = st) by (unfold sdu_start; by rewrite Hin).
    split; [|intros s' st' E' _; rewrite Hin in E'; by injection E' as <- <-]. exists a. rewrite Es', <- Es. split; [lia|]. split; [rewrite length_app; cbn; lia|]. split.
    + intros k q Hk. apply lookup_app_Some in Hk as [Hk|[Hk1 Hk2]]; [by apply Hf|]. apply list_lookup_singleton_Some in Hk2 as [Hk2 <-].
      by replace (a + Z.of_nat k) with f by lia.
    + destruct Hc as [->|Hc]; [by left|right]. intros s' st' E'. rewrite Hin in E'. injection E' as <- <-. by apply Hc.
Qed.

Lemma fragment_ends acc f p s st : Forall sdu_ok acc -> total_frags u acc < sn_bound -> is_fragment u acc f p -> vget (plan_of u acc) f = Some (s, st) ->
  isLast (am_pdu p) || isWhole (am_pdu p) = bool_decide (f = st + nfrags u s - 1) /\ pduSnoMainPacket (am_pdu p) = as_sno s.
Proof.
  intros Hok Hb Hf E. destruct (fragment_data u acc _ p Hf) as (s' & st' & E' & _ & _ & _ & Hsn & Hfst & Hlst & _ & Hsno). rewrite E in E'. injection E' as <- <-.
  destruct (plan_entry u Hu acc _ _ _ Hok E) as (_ & _ & Hst & Hend & _). unfold sn_bound in Hb. split; [|done]. unfold isLast, isWhole. rewrite Hsn, Hfst, Hlst, wrap_small by (unfold is_uint; lia).
  apply Bool.eq_iff_eq_true. rewrite orb_true_iff, !Z.eqb_eq, bool_decide_eq_true. lia.
Qed.

Lemma leave_loop_ok acc r0 n : forall (r : AmRxQueue A) cur i, Forall sdu_ok acc -> Forall flow_ok acc -> total_frags u acc < sn_bound -> 0 <= i ->
  (forall j, i <= j < i + Z.of_nat n -> exists p, arr_get (rxPduBuffer_ r) j = Some p /\ is_fragment u acc (rx_first r0 + j) p) ->
  pend_state acc r0 (rx_first r0 + i) (pendingPduBuffer_ r) cur ->
  exists b l c, leave_loop r cur i n = (r <| rxPduBuffer_ := b |> <| pendingPduBuffer_ := l |>, c) /\
    (forall j, arr_get b j = if decide (i <= j < i + Z.of_nat n) then None else arr_get (rxPduBuffer_ r) j) /\
    pend_state acc r0 (rx_first r0 + i + Z.of_nat n) l c.
Proof.
  induction n as [|n IH]; intros r cur i Hok Hflow Hb Hi Hs Hp; cbn [leave_loop].
  { exists (rxPduBuffer_ r), (pendingPduBuffer_ r), cur. split; [by destruct r|]. split; [intros j; by rewrite decide_False by lia|by rewrite Z.add_0_r]. }
  destruct (Hs i) as (p & Ep & Hf); [lia|]. rewrite Ep. pose proof Hf as (s & st & E & _). pose proof (pend_step acc r0 _ s st p _ cur Hok Hflow E Hf Hp) as Hstep.
  destruct (fragment_ends acc _ p s st Hok Hb Hf E) as [-> ->]. destruct (plan_entry u Hu acc _ _ _ Hok E) as (Hin & _).
  pose proof (proj1 (Forall_forall _ _) Hflow s Hin) as [_ Hsr]. rewrite swrap_small by (unfold is_sint; lia).
  set (r1 := r <| rxPduBuffer_ := arr_remove (rxPduBuffer_ r) i |>).
  assert (Hget : forall j, arr_get (arr_remove (rxPduBuffer_ r) i) j = if decide (j = i) then None else arr_get (rxPduBuffer_ r) j) by (intros; apply arr_get_remove).
  assert (Hrest : forall (l0 : list AmPacket) c0, pend_state acc r0 (rx_first r0 + (i + 1)) l0 c0 -> exists b l c,
    leave_loop (r1 <| pendingPduBuffer_ := l0 |>) c0 (i + 1) n = (r <| rxPduBuffer_ := b |> <| pendingPduBuffer_ := l |>, c) /\
    (forall j, arr_get b j = if decide (i <= j < i + Z.of_nat (S n)) then None else arr_get (rxPduBuffer_ r) j) /\
    pend_state acc r0 (rx_first r0 + i + Z.of_nat (S n)) l c).
  { intros l0 c0 Hp0. destruct (IH (r1 <| pendingPduBuffer_ := l0 |>) c0 (i + 1)) as (b & l & c & E' & Hgb & Hpb); [done|done|done|lia| |done|].
    { intros j Hj. change (rxPduBuffer_ (set pendingPduBuffer_ _ r1)) with (arr_remove (rxPduBuffer_ r) i). rewrite Hget, decide_False by lia. apply Hs. lia. }
    exists b, l, c. split; [rewrite E'; by destruct r|]. split.
    - intros j. rewrite Hgb. change (rxPduBuffer_ (set pendingPduBuffer_ _ r1)) with (arr_remove (rxPduBuffer_ r) i). rewrite Hget. repeat case_decide; done || lia.
    - by replace (rx_first r0 + i + Z.of_nat (S n)) with (rx_first r0 + (i + 1) + Z.of_nat n) by lia. }
  rewrite <- Z.add_assoc in Hstep. case_bool_decide as Hd; [rewrite decide_True in Hstep by done|rewrite decide_False in Hstep by done]; by apply Hrest.
Qed.

Lemma rx_shift_loop_ok pos n : forall (r : AmRxQueue A) i, 0 < pos <= i ->
  i + Z.of_nat n <= vsize (rxReceived_ r) -> i + Z.of_nat n <= vsize (rxDiscarded_ r) -> (forall j, i - pos <= j < i -> arr_get (rxPduBuffer_ r) j = None) ->
  exists b f d, rx_shift_loop r pos i n = Ok (r <| rxPduBuffer_ := b |> <| rxReceived_ := f |> <| rxDiscarded_ := d |>) /\
    (forall j, arr_get b j = if decide (i - pos <= j < i + Z.of_nat n - pos) then arr_get (rxPduBuffer_ r) (j + pos)
                             else if decide (i - pos <= j < i + Z.of_nat n) then None else arr_get (rxPduBuffer_ r) j) /\
    length f = length (rxReceived_ r) /\
    (forall j, flag f j = if decide (i - pos <= j < i + Z.of_nat n - pos) then flag (rxReceived_ r) (j + pos)
                          else if decide (i <= j < i + Z.of_nat n) then false else flag (rxReceived_ r) j) /\
    length d = length (rxDiscarded_ r).
Proof.
  induction n as [|n IH]; intros r i Hp Hr Hd Hfree; cbn [rx_shift_loop].
  { exists (rxPduBuffer_ r), (rxReceived_ r), (rxDiscarded_ r). split; [by destruct r|]. split_and!; try done; intros j; rewrite decide_False by lia;
      (case_decide; [|done]); [apply Hfree|]; lia. }
  assert (Ha : exists a1, match arr_get (rxPduBuffer_ r) i with Some p => arr_addAt (arr_remove (rxPduBuffer_ r) i) (i - pos) p | None => Ok (arr_remove (rxPduBuffer_ r) i) end = Ok a1 /\
    forall j, arr_get a1 j = if decide (j = i - pos) then arr_get (rxPduBuffer_ r) i else if decide (j = i) then None else arr_get (rxPduBuffer_ r) j).
  { destruct (arr_get (rxPduBuffer_ r) i) as [p|] eqn:Eg.
    - destruct (arr_addAt_free (arr_remove (rxPduBuffer_ r) i) (i - pos) p) as (a1 & -> & Ha1); [lia|rewrite arr_get_remove, decide_False by lia; apply Hfree; lia|].
      exists a1. split; [done|]. intros j. rewrite Ha1, arr_get_remove. by repeat case_decide.
    - eexists. split; [reflexivity|]. intros j. rewrite arr_get_remove. repeat case_decide; subst; try done; try lia. apply Hfree. lia. }
  destruct Ha as (a1 & -> & Ha1). cbn [rbind].
  destruct (move_flag_ok (rxReceived_ r) pos i) as (r1 & -> & Hl1 & Hr1); [lia|lia|]. cbn [rbind].
  destruct (move_flag_ok (rxDiscarded_ r) pos i) as (d1 & -> & Hl2 & _); [lia|lia|]. cbn [rbind].
  set (r2 := r <| rxPduBuffer_ := a1 |> <| rxReceived_ := r1 |> <| rxDiscarded_ := d1 |>).
  destruct (IH r2 (i + 1)) as (b & f & d & E & Gb & Gl & Gf & Gd).
  - lia.
  - change (rxReceived_ r2) with r1. lia.
  - change (rxDiscarded_ r2) with d1. lia.
  - intros j Hj. change (rxPduBuffer_ r2) with a1. rewrite Ha1. rewrite decide_False by lia. case_decide; [done|]. apply Hfree. lia.
  - exists b, f, d. split; [rewrite E; by destruct r|]. change (rxPduBuffer_ r2) with a1 in Gb. change (rxReceived_ r2) with r1 in Gf, Gl. change (rxDiscarded_ r2) with d1 in Gd.
    split; [|split; [by rewrite Gl|split; [|by rewrite Gd]]]; intros j.
    + rewrite Gb, !Ha1. repeat case_decide; try done; try lia; subst; by rewrite Z.sub_add.
    + rewrite Gf, !Hr1. repeat case_decide; try done; try lia; subst; try (by rewrite Z.sub_add).
Qed.

Lemma am_moveRxWindow_ok acc r sn : rx_ok acc r -> 0 <= sn <= total_frags u acc -> (forall j, 0 <= j < sn -> rx_got r j) ->
  2 * (sn - rx_first r) <= rx_size r ->
  exists r', am_moveRxWindow r sn = Ok r' /\ rx_ok acc r' /\ rx_first r' = Z.max (rx_first r) sn /\ rx_size r' = rx_size r /\
    flowControlInfo_ r' = flowControlInfo_ r /\ forall j, rx_got r' j <-> rx_got r j.
Proof.
  intros Hr Hsn Hgot Hhalf. pose proof Hr as [(Hok & Hflow & Hb) [Hsz Hlen] Hdl Hrf Hslot Hhave Hfl Hins Hpend]. unfold sn_bound in Hb.
  unfold am_moveRxWindow. rewrite swrap_small by (unfold is_sint; lia). set (pos := sn - rx_first r) in *.
  destruct (Z.leb_spec pos 0); [exists r; split; [done|]; split; [done|]; split; [lia|]; by split_and!|].
  rewrite wrap_small by (unfold is_uint; lia). rewrite (proj2 (Z.ltb_ge _ _)) by lia.
  assert (Hall : forall j, 0 <= j < pos -> flag (rxReceived_ r) j = true). { intros j Hj. destruct (Hgot (rx_first r + j)) as [_ [?|Hf]]; [lia|lia|]. by replace (rx_first r + j - rx_first r) with j in Hf by lia. }
  destruct (leave_loop_ok acc r (Z.to_nat pos) r (firstSdu_ r) 0 Hok Hflow) as (b & l & c & -> & Hgb & Hps); [unfold sn_bound; lia|lia| | |].
  { intros j Hj. destruct (arr_get (rxPduBuffer_ r) j) as [p|] eqn:Ep; [exists p; split; [done|by apply Hslot]|]. exfalso. by apply (Hhave j); [apply Hall; lia|]. }
  { rewrite Z.add_0_r. split; [exact Hpend|exact Hins]. }
  rewrite Z.add_0_r, Z2Nat.id in Hps by lia. replace (rx_first r + pos) with sn in Hps by lia. set (r1 := r <| rxPduBuffer_ := b |> <| pendingPduBuffer_ := l |>).
  change (rx_size r1) with (rx_size r).
  destruct (rx_shift_loop_ok pos (Z.to_nat (rx_size r - pos)) r1 pos) as (b2 & f & d & -> & Gb & Gl & Gf & Gd).
  { lia. } { change (rxReceived_ r1) with (rxReceived_ r). lia. } { change (rxDiscarded_ r1) with (rxDiscarded_ r). lia. }
  { intros j Hj. change (rxPduBuffer_ r1) with b. rewrite Hgb, decide_True by lia. done. }
  cbn [rbind]. change (rxPduBuffer_ r1) with b in Gb. change (rxReceived_ r1) with (rxReceived_ r) in Gl, Gf. change (rxDiscarded_ r1) with (rxDiscarded_ r) in Gd.
  assert (Hoff : forall j, rx_size r <= j \/ j < 0 -> flag (rxReceived_ r) j = false /\ arr_get (rxPduBuffer_ r) j = None).
  { intros j Hj. assert (Hff : flag (rxReceived_ r) j = false) by (destruct (flag _ j) eqn:E; [apply flag_range in E; lia|done]).
    split; [done|]. destruct (arr_get _ j) eqn:E; [|done]. apply Hslot in E as [? _]. congruence. }
  assert (Ff : forall j, 0 <= j -> flag f j = flag (rxReceived_ r) (j + pos)).
  { intros j Hj. rewrite Gf. case_decide; [done|]. rewrite (proj1 (Hoff (j + pos) ltac:(lia))). case_decide; [done|]. apply Hoff. lia. }
  assert (Fb : forall j, 0 <= j -> arr_get b2 j = arr_get (rxPduBuffer_ r) (j + pos)).
  { intros j Hj. rewrite Gb, !Hgb. case_decide; [by rewrite decide_False by lia|]. rewrite (proj2 (Hoff (j + pos) ltac:(lia))). case_decide; [done|]. rewrite decide_False by lia. apply Hoff. lia. }
  assert (Fn : forall j, j < 0 -> arr_get b2 j = None) by (intros j Hj; rewrite Gb, !decide_False by lia; rewrite Hgb, decide_False by lia; apply Hoff; lia).
  set (r15 := r1 <| rxPduBuffer_ := b2 |> <| rxReceived_ := f |> <| rxDiscarded_ := d |>). change (rx_first r15) with (rx_first r).
  rewrite wrap_small by (unfold is_uint; lia). replace (rx_first r + pos) with sn by lia. eexists. split; [reflexivity|]. set (r2 := set firstSdu_ _ _).
  assert (E1 : rx_first r2 = sn) by done.
  assert (Hg2 : forall j, rx_got r2 j <-> rx_got r j).
  { intros j. unfold rx_got. rewrite E1. change (rxReceived_ r2) with f. split; intros [Hj0 Hj]; (split; [done|]).
    - destruct (decide (j < sn)) as [Hlt|]; [by apply Hgot|]. right. destruct Hj as [?|Hj]; [lia|]. rewrite Ff in Hj by lia. by replace (j - sn + pos) with (j - rx_first r) in Hj by lia.
    - destruct (decide (j < sn)) as [Hlt|]; [by left|]. right. destruct Hj as [?|Hj]; [lia|]. rewrite Ff by lia. by replace (j - sn + pos) with (j - rx_first r) by lia. }
  split; [|split; [lia|by split_and!]].
  split; rewrite ?E1; try done.
  - split; [done|]. cbn. by rewrite Gl.
  - cbn. by rewrite Gd.
  - intros i p Hp. change (rxPduBuffer_ r2) with b2 in Hp. change (rxReceived_ r2) with f. destruct (decide (i < 0)); [by rewrite Fn in Hp by lia|].
    rewrite Fb in Hp by lia. apply Hslot in Hp as [? ?]. rewrite Ff by lia. split; [done|]. by replace (sn + i) with (rx_first r + (i + pos)) by lia.
  - intros i Hi. change (rxPduBuffer_ r2) with b2. change (rxReceived_ r2) with f in Hi. apply flag_range in Hi as Hb'. rewrite Ff in Hi by lia. rewrite Fb by lia. by apply Hhave.
  - intros j Hj. apply Hg2 in Hj. by apply Hfl in Hj.
  - apply Hps.
  - destruct Hps as [(x & Hx & Hl & Hf & Hc) _]. exists x. split; [done|]. split; [done|]. split; [done|]. destruct Hc as [?|Hc]; [by left|right].
    intros s st Es k Hk. apply Hg2. by apply (Hc s st Es).
Qed.

(** ** Packets *)

(** What was passed up: SDUs of the plan, each once, of which everything has come; among
    them all SDUs of one PDU that have come. *)
Definition outs_ok (acc : list AmSdu) (r : AmRxQueue A) (outs : list (list slice * FlowControlInfo)) : Prop :=
  exists ks : list (AmSdu * Z), outs = (fun x => whole x.1) <$> ks /\ NoDup ks.*2 /\
    (forall s st, (s, st) ∈ ks -> vget (plan_of u acc) st = Some (s, st) /\ sdu_got acc r s st) /\
    forall s st, vget (plan_of u acc) st = Some (s, st) -> nfrags u s = 1 -> rx_got r st -> (s, st) ∈ ks.

Definition ups (e : list amrx_effect) : list (list slice * FlowControlInfo) :=
  omap (fun x => match x with AmSendDefragmented d t => Some (d, t) | _ => None end) e.

Lemma ups_controls r e : controls r e -> ups e = [].
Proof.
  intros Hc. unfold ups. induction e as [|x e IH]; [done|]. destruct (Hc x) as (p & -> & _); [by left|]. cbn. apply IH. intros y Hy. apply Hc. by right.
Qed.

Lemma outs_same acc r r' outs : (forall sn, rx_got r' sn <-> rx_got r sn) -> outs_ok acc r outs -> outs_ok acc r' outs.
Proof.
  intros Hg (ks & E & Hn & Hin & Hone). exists ks. split; [done|]. split; [done|]. split.
  - intros s st Hk. destruct (Hin s st Hk) as [? Hs]. split; [done|]. intros j Hj. apply Hg. by apply Hs.
  - intros s st Es H1 Hgot. apply Hone; [done|done|by apply Hg].
Qed.

(** Every effect is one that passes an SDU up or a control packet that says what is true. *)
Definition effects_ok (r : AmRxQueue A) (e : list amrx_effect) : Prop :=
  forall x, x ∈ e -> (exists d t, x = AmSendDefragmented d t) \/ exists p, x = AmBufferControl p /\ up_ok (rx_got r) (rx_first r) p.

Lemma controls_effects r r' e : (forall sn, rx_got r sn -> rx_got r' sn) -> rx_first r <= rx_first r' -> controls r e -> effects_ok r' e.
Proof. intros Hg Hl Hc x Hx. right. destruct (Hc x Hx) as (p & -> & Hp). exists p. split; [done|by eapply up_ok_mono]. Qed.

Lemma effects_app r e e' : effects_ok r e -> effects_ok r e' -> effects_ok r (e ++ e').
Proof. intros H1 H2 x [Hx|Hx]%elem_of_app; auto. Qed.

Lemma effects_nil r : effects_ok r [].
Proof. intros x Hx. by apply elem_of_nil in Hx. Qed.

(** A PDU is put into a free position. *)
Definition inserted (r : AmRxQueue A) (a : A) (f : list bool) : AmRxQueue A := r <| rxPduBuffer_ := a |> <| rxReceived_ := f |>.

Lemma insert_ok acc r sn p : rx_ok acc r -> is_fragment u acc sn p -> rx_first r <= sn < rx_first r + rx_size r ->
  flag (rxReceived_ r) (sn - rx_first r) = false -> flowControlInfo_ r <> None ->
  exists a f, arr_addAt (rxPduBuffer_ r) (sn - rx_first r) p = Ok a /\ set_flag (rxReceived_ r) (sn - rx_first r) true = Ok f /\
    rx_ok acc (inserted r a f) /\ arr_get a (sn - rx_first r) = Some p /\ forall j, rx_got (inserted r a f) j <-> rx_got r j \/ j = sn.
Proof.
  intros Hr Hp Hsn Hf Hflow. pose proof Hr as [K1 [K2 Hlen] K3 K4 K5 K6 K7 K8 K9]. set (i := sn - rx_first r) in *.
  assert (Hfree : arr_get (rxPduBuffer_ r) i = None) by (destruct (arr_get _ i) eqn:E; [apply K5 in E as [? _]; congruence|done]).
  destruct (arr_addAt_free (rxPduBuffer_ r) i p) as (a & Ea & Ha); [lia|done|]. destruct (set_flag_ok (rxReceived_ r) i true) as (f & Ef & Hl & Hff); [lia|].
  exists a, f. split; [done|]. split; [done|].
  assert (Hg : forall j, rx_got (inserted r a f) j <-> rx_got r j \/ j = sn).
  { intros j. unfold rx_got, inserted. cbn. rewrite Hff. case_decide as Hd; [|naive_solver lia]. split; [intros _; right; lia|]. intros _. split; [lia|by right]. }
  split; [|split; [rewrite Ha; by rewrite decide_True by done|done]].
  split; try done.
  - split; [done|]. cbn. by rewrite Hl.
  - intros j q. cbn. rewrite Ha, Hff. case_decide; [intros [= <-]; split; [done|subst j; by replace (rx_first r + i) with sn by lia]|apply K5].
  - intros j. cbn. rewrite Ha, Hff. case_decide; [done|apply K6].
  - destruct K9 as (x & Hx & Hpl & Hpf & Hc). exists x. split; [done|]. split; [done|]. split; [done|]. destruct Hc as [?|Hc]; [by left|right].
    intros s st Es k Hk. apply Hg. left. by apply (Hc s st Es).
Qed.

Lemma outs_pass acc r r' sn s st outs : rx_ok acc r -> vget (plan_of u acc) sn = Some (s, st) -> ~ rx_got r sn ->
  (forall j, rx_got r' j <-> rx_got r j \/ j = sn) -> outs_ok acc r outs -> sdu_got acc r' s st -> outs_ok acc r' (outs ++ [whole s]).
Proof.
  intros Hr E Hnew Hg (ks & -> & Hn & Hin & Hone) Hall. destruct (plan_entry u Hu acc _ _ _ (proj1 (rk_acc _ _ Hr)) E) as (_ & _ & Hst & Hend & Hwhole).
  exists (ks ++ [(s, st)]). split; [by rewrite fmap_app|]. split.
  - rewrite fmap_app. apply NoDup_app. split; [done|]. split; [|apply NoDup_singleton]. intros k Hk Hk'. cbn in Hk'. apply list_elem_of_singleton in Hk' as ->.
    apply list_elem_of_fmap in Hk as ([s' st'] & -> & Hk). apply Hin in Hk as [E' Hs]. cbn in *. rewrite (Hwhole st') in E' by lia. injection E' as <-. apply Hnew, Hs. lia.
  - split.
    + intros s' st' Hk. apply elem_of_app in Hk as [Hk|Hk].
      * destruct (Hin s' st' Hk) as [? Hs]. split; [done|]. intros j Hj. apply Hg. left. by apply Hs.
      * apply list_elem_of_singleton in Hk as [= -> ->]. split; [apply Hwhole; lia|done].
    + intros s' st' E' H1 Hgot. apply Hg in Hgot as [Hgot| ->]; apply elem_of_app; [left; by apply Hone|right]. rewrite E in E'. injection E' as <- <-. by left.
Qed.

Lemma outs_more acc r r' sn s st outs : vget (plan_of u acc) sn = Some (s, st) -> nfrags u s <> 1 ->
  (forall j, rx_got r' j <-> rx_got r j \/ j = sn) -> outs_ok acc r outs -> outs_ok acc r' outs.
Proof.
  intros E Hne Hg (ks & -> & Hn & Hin & Hone). exists ks. split; [done|]. split; [done|]. split.
  - intros s' st' Hk. destruct (Hin s' st' Hk) as [? Hs]. split; [done|]. intros j Hj. apply Hg. left. by apply Hs.
  - intros s' st' E' H1 Hgot. apply Hg in Hgot as [Hgot| ->]; [by apply Hone|]. rewrite E in E'. by injection E' as <- <-.
Qed.

(** The outcome of an operation of the receiver. *)
Definition receives (acc : list AmSdu) (outs : list (list slice * FlowControlInfo)) (r : AmRxQueue A) (o : result (AmRxQueue A * list amrx_effect)) : Prop :=
  exists r' e, o = Ok (r', e) /\ rx_ok acc r' /\ outs_ok acc r' (outs ++ ups e) /\ effects_ok r' e /\
    rx_size r' = rx_size r /\ rx_first r <= rx_first r' /\ forall j, rx_got r j -> rx_got r' j.

Lemma receives_nothing acc outs r r' e : rx_ok acc r' -> outs_ok acc r outs -> controls r' e -> rx_size r' = rx_size r -> rx_first r' = rx_first r ->
  (forall j, rx_got r' j <-> rx_got r j) -> receives acc outs r (Ok (r', e)).
Proof.
  intros Hr Ho Hc Hs Hf Hg. exists r', e. rewrite (ups_controls r' e Hc), app_nil_r. split_and!; try done.
  - by eapply outs_same.
  - by eapply controls_effects.
  - lia.
  - intros j. apply Hg.
Qed.

(** The bookkeeping of [enque_data] before the PDU is looked at. *)
Lemma prepare_ok acc r NOW p : rx_ok acc r ->
  let r0 := r <| timer_ := timer_start (timer_ r) NOW (statusReportInterval_ r) |> in
  let r1 := match flowControlInfo_ r0 with None => r0 <| flowControlInfo_ := Some (swap_flow (am_tag p)) |> | Some _ => r0 end in
  rx_ok acc r1 /\ flowControlInfo_ r1 <> None /\ rxWindowDesc_ r1 = rxWindowDesc_ r /\ rxReceived_ r1 = rxReceived_ r.
Proof.
  intros [K1 K2 K3 K4 K5 K6 K7 K8 K9] r0 r1. unfold r1. change (flowControlInfo_ r0) with (flowControlInfo_ r).
  destruct (flowControlInfo_ r) eqn:E; (split; [split; try done|]).
  - intros sn _. change (flowControlInfo_ r0) with (flowControlInfo_ r). by rewrite E.
  - intros _. change (flowControlInfo_ r0) with (flowControlInfo_ r). by rewrite E.
  - change (flowControlInfo_ r0) with (flowControlInfo_ r). split; [by rewrite E|by split].
  - by split.
Qed.

Lemma set_seqNum_ok acc r x : rx_ok acc r -> rx_ok acc (r <| rxWindowDesc_ := (rxWindowDesc_ r) <| seqNum_ := x |> |>).
Proof. intros [K1 K2 K3 K4 K5 K6 K7 K8 K9]. by split. Qed.

(** What has come of the SDU that the window begins inside of waits in the pending PDUs. *)
Lemma pending_new acc r sn s st : rx_ok acc r -> vget (plan_of u acc) sn = Some (s, st) -> rx_first r <= sn -> ~ rx_got r sn ->
  st < rx_first r -> pending_from acc r st.
Proof.
  intros Hr E Hsn Hnew Hst. destruct (plan_entry u Hu acc _ _ _ (proj1 (rk_acc _ _ Hr)) E) as (_ & _ & Hst' & Hend & Hwhole).
  destruct (rk_pending _ _ Hr) as (a & Ha & Hl & Hf & Hc). assert (Ef : vget (plan_of u acc) (rx_first r) = Some (s, st)) by (apply Hwhole; lia).
  assert (a = st) as ->; [|by split]. destruct Hc as [->|Hc]; [unfold sdu_start; by rewrite Ef|]. exfalso. apply Hnew. apply (Hc s st Ef). lia.
Qed.

Lemma not_got acc r sn : rx_ok acc r -> rx_first r <= sn -> flag (rxReceived_ r) (sn - rx_first r) = false -> ~ rx_got r sn.
Proof. intros Hr Hsn Hf [_ [?|Hg]]; [lia|congruence]. Qed.

Lemma enque_data_ok acc outs r NOW sn p : rx_ok acc r -> outs_ok acc r outs -> is_fragment u acc sn p -> sn < rx_first r + rx_size r ->
  receives acc outs r (enque_data r NOW p) /\ (forall r' e, enque_data r NOW p = Ok (r', e) -> rx_got r' sn).
Proof.
  intros Hr Ho Hp Hsn. destruct (fragment_data u acc sn p Hp) as (s & st & E & _ & _ & _ & Esn & _ & _ & _ & Esno).
  pose proof (rk_acc _ _ Hr) as (Hok & _ & Hb). destruct (plan_entry u Hu acc _ _ _ Hok E) as (_ & _ & Hst & Hend & Hwhole). unfold sn_bound in Hb. pose proof (rk_first _ _ Hr). pose proof (rk_size _ _ Hr) as [Hsz Hlen].
  destruct (prepare_ok acc r NOW p Hr) as (Hr1 & Hflow & Ew & Erc). unfold enque_data. set (r1 := match flowControlInfo_ _ with Some _ => _ | None => _ end) in *. clearbody r1.
  assert (Hg1 : forall j, rx_got r1 j <-> rx_got r j) by (intros j; unfold rx_got; by rewrite Ew, Erc).
  rewrite Esn, !(swrap_small 32 sn) by (unfold is_sint; lia). rewrite Ew. rewrite swrap_small by (unfold is_sint; lia).
  destruct (Z.ltb_spec (sn - rx_first r) 0).
  { split; [apply receives_nothing; rewrite ?Ew; try done; apply controls_nil|]. intros r' e [= <- <-]. apply Hg1. split; [lia|left; lia]. }
  rewrite !wrap_small by (unfold is_uint; lia). rewrite (proj2 (Z.leb_gt _ _)) by lia.
  match goal with |- context [rbind ?m _] => assert (Hnext : exists r2 e2, m = Ok (r2, e2) /\ rx_ok acc r2 /\ controls r2 e2 /\ rx_first r2 = rx_first r /\
    rx_size r2 = rx_size r /\ rxReceived_ r2 = rxReceived_ r /\ rxPduBuffer_ r2 = rxPduBuffer_ r1 /\ flowControlInfo_ r2 <> None) end.
  { destruct (_ =? _).
    - eexists _, []. split; [reflexivity|]. rewrite <- Ew. split; [by apply set_seqNum_ok|]. split; [apply controls_nil|]. cbn. by rewrite Erc.
    - rewrite <- Ew. destruct (sendStatusReport_ok acc _ NOW (set_seqNum_ok acc r1 (uint32 (sn + 1)) Hr1)) as (r2 & e2 & -> & Hf2 & Hc2); [done|].
      exists r2, e2. split; [done|]. split; [eapply report_frame_ok; [done|by apply set_seqNum_ok]|]. split; [done|]. destruct Hf2 as [x ->]. cbn. by rewrite Erc. }
  destruct Hnext as (r2 & e2 & -> & Hr2 & Hc2 & Ef2 & Es2 & Erc2 & Ebuf2 & Hflow2). cbn [rbind].
  assert (Hg2 : forall j, rx_got r2 j <-> rx_got r j) by (intros j; unfold rx_got; by rewrite Ef2, Erc2).
  rewrite flag_at_ok by (rewrite Erc2; lia). cbn [rbind]. destruct (flag (rxReceived_ r2) (sn - rx_first r)) eqn:Efl.
  - rewrite <- Ef2 in Efl. destruct (received_slot acc r2 (sn - rx_first r2) s st Hr2 Efl) as (q & Eq & Eqs & _); [by replace (rx_first r2 + (sn - rx_first r2)) with sn by lia|].
    rewrite <- Ef2, Eq; cbn [rbind]. rewrite Eqs, Esno, Z.eqb_refl.
    split; [apply receives_nothing; try done|]. intros r' e [= <- <-]. split; [lia|by right].
  - rewrite <- Ef2 in Efl |- *. destruct (insert_ok acc r2 sn p Hr2 Hp) as (a & f & -> & Ef & Hr3 & Ea & Hg3); [lia|done|done|]. cbn [rbind]. rewrite Ef; cbn [rbind]. fold (inserted r2 a f).
    pose proof (not_got acc r2 sn Hr2 ltac:(lia) Efl) as Hnew.
    destruct (checkCompleteSdu_ok acc (inserted r2 a f) NOW (sn - rx_first r2) p s st Hr3) as (r4 & e4 & -> & Hr4 & Hs4 & Hcase); [done| | |].
    { change (rx_first (inserted r2 a f)) with (rx_first r2). by replace (rx_first r2 + (sn - rx_first r2)) with sn by lia. }
    { intros Hlt. exact (pending_new acc r2 sn s st Hr2 E ltac:(lia) Hnew Hlt). }
    cbn [rbind]. assert (Hg4 : forall j, rx_got r4 j <-> rx_got r2 j \/ j = sn) by (intros j; rewrite <- Hg3; by apply same_rx_got).
    assert (Ew4 : rx_first r4 = rx_first r /\ rx_size r4 = rx_size r) by (destruct Hs4 as (-> & _); by split).
    split; [|intros r' e [= <- <-]; apply Hg4; by right].
    assert (Ho2 : outs_ok acc r2 outs) by (by eapply outs_same).
    exists r4, (e2 ++ e4). split; [done|]. split; [done|].
    assert (Hgm : forall j, rx_got r2 j -> rx_got r4 j) by (intros j Hj; apply Hg4; by left).
    split; [|split; [|split; [lia|split; [lia|]]]].
    + unfold ups. rewrite omap_app. fold (ups e2) (ups e4). rewrite (ups_controls r2 e2 Hc2). cbn [app]. destruct Hcase as [[-> Hne]|(e' & -> & Hc' & Hall)].
      * rewrite app_nil_r. by eapply outs_more.
      * unfold ups; cbn [omap list_omap]. fold (ups e'). rewrite (ups_controls r4 e' Hc'). rewrite <- surjective_pairing. eapply (outs_pass acc r2 r4 sn s st); try done.
        intros j Hj. apply Hg4, Hg3. by apply Hall.
    + apply effects_app; [eapply controls_effects; [done|lia|done]|]. destruct Hcase as [[-> Hne]|(e' & -> & Hc' & Hall)]; [apply effects_nil|].
      intros x [->|Hx]%elem_of_cons; [left; eauto|right; by apply Hc'].
    + intros j Hj. apply Hgm. by apply Hg2.
Qed.

(** A command to move the window. *)
Lemma enque_mrw_ok acc outs r NOW p : rx_ok acc r -> outs_ok acc r outs -> is_mrw u (rx_got r) acc p ->
  2 * (total_frags u acc - rx_first r) <= rx_size r -> receives acc outs r (amrx_enque r NOW p).
Proof.
  intros Hr Ho (Ht & Hl & Hg & _) Hhalf. unfold amrx_enque. rewrite Ht.
  destruct (am_moveRxWindow_ok acc r (lastSn (am_pdu p)) Hr) as (r' & -> & Hr' & Ef & Es & Efl & Hg'); [lia|done|lia|]. cbn [rbind].
  assert (Hflow : flowControlInfo_ r' <> None) by (apply (rk_flow _ _ Hr' 0); apply Hg', Hg; lia).
  destruct (flowControlInfo_ r') as [info|]; [|done]. eexists _, _. split; [reflexivity|]. split; [done|].
  split; [cbn; rewrite app_nil_r; by eapply outs_same|]. split; [|split; [done|split; [lia|intros j; apply Hg']]].
  intros x Hx%list_elem_of_singleton. right. eexists. split; [done|]. pose proof (rk_first _ _ Hr'). cbn. split; [lia|].
  intros j Hj. split; [lia|left; lia].
Qed.

(** Any packet of the transmitter, at any time. *)
Lemma amrx_enque_ok acc outs r NOW p : rx_ok acc r -> outs_ok acc r outs -> down_ok u (rx_got r) acc p ->
  2 * (total_frags u acc - rx_first r) <= rx_size r -> receives acc outs r (amrx_enque r NOW p).
Proof.
  intros Hr Ho [[sn Hp]|Hp] Hhalf; [|by apply enque_mrw_ok]. pose proof (rk_size _ _ Hr) as [? _].
  destruct (fragment_data u acc sn p Hp) as (s & st & E & _ & _ & Et & _). unfold amrx_enque. rewrite Et.
  destruct (plan_entry u Hu acc _ _ _ (proj1 (rk_acc _ _ Hr)) E) as (_ & _ & ? & ? & _).
  apply (enque_data_ok acc outs r NOW sn p); try done. pose proof (rk_first _ _ Hr). lia.
Qed.

Lemma set_timer_ok acc r x : rx_ok acc r -> (intr_at x <> None -> flowControlInfo_ r <> None) -> rx_ok acc (r <| timer_ := x |>).
Proof. intros [K1 K2 K3 K4 K5 K6 K7 K8 K9 K10] Hx. by split. Qed.

(** The timer of reports. *)
Lemma amrx_handleMessage_ok acc outs r NOW : rx_ok acc r -> outs_ok acc r outs -> intr_at (timer_ r) <> None ->
  receives acc outs r (amrx_handleMessage r NOW).
Proof.
  intros Hr Ho Hi. pose proof (rk_timer _ _ Hr Hi) as Hflow. unfold amrx_handleMessage. set (r1 := r <| timer_ := _ |>).
  assert (Hr1 : rx_ok acc r1) by (by apply set_timer_ok). destruct (sendStatusReport_ok acc r1 NOW Hr1 Hflow) as (r2 & e & -> & Hf2 & Hc2). cbn [rbind].
  assert (Hr2 : rx_ok acc r2) by (by eapply report_frame_ok). assert (E : same_rx r r2) by (apply report_same in Hf2; exact Hf2). destruct E as (E1 & E2 & E3).
  assert (Hg : forall r3, same_rx r r3 -> forall j, rx_got r3 j <-> rx_got r j) by (intros r3 ? j; by apply same_rx_got).
  destruct (existsb _ _); apply receives_nothing; try done; try (by rewrite E1).
  - apply set_timer_ok; [done|]. by rewrite E3.
  - cbn. by rewrite E1.
  - cbn. by rewrite E1.
  - by apply Hg.
  - by apply Hg.
Qed.

(** ** A longer plan *)

Lemma vget_extend acc acc' j : Forall sdu_ok acc -> Forall sdu_ok acc' -> j < total_frags u acc ->
  vget (plan_of u (acc ++ acc')) j = vget (plan_of u acc) j.
Proof.
  intros Hok Hok' Hj. destruct (decide (0 <= j)) as [H0|H0].
  - destruct (plan_get u Hu acc j Hok) as (s & st & E); [lia|]. rewrite E. by apply plan_extend.
  - destruct (vget _ j) eqn:E1; [apply vget_Some_bounds in E1; lia|]. destruct (vget (plan_of u acc) j) eqn:E2; [apply vget_Some_bounds in E2; lia|done].
Qed.

(** What begins behind the plan begins a new SDU. *)
Lemma vget_beyond acc acc' s st : Forall sdu_ok acc -> Forall sdu_ok acc' ->
  vget (plan_of u (acc ++ acc')) (total_frags u acc) = Some (s, st) -> st = total_frags u acc.
Proof.
  intros Hok Hok' E. destruct (plan_entry u Hu (acc ++ acc') _ _ _ ltac:(by apply Forall_app) E) as (_ & _ & Hst & Hend & Hwhole).
  destruct (decide (st = total_frags u acc)) as [|Hne]; [done|]. pose proof (Hwhole (total_frags u acc - 1) ltac:(lia)) as E'.
  rewrite vget_extend in E' by (done || lia). destruct (plan_entry u Hu acc _ _ _ Hok E') as (_ & _ & _ & Hend' & _). lia.
Qed.

Lemma sdu_start_extend acc acc' f : Forall sdu_ok acc -> Forall sdu_ok acc' -> 0 <= f <= total_frags u acc ->
  sdu_start (acc ++ acc') f = sdu_start acc f.
Proof.
  intros Hok Hok' Hf. unfold sdu_start. destruct (decide (f = total_frags u acc)) as [->|]; [|by rewrite vget_extend by (done || lia)].
  assert (vget (plan_of u acc) (total_frags u acc) = None) as ->.
  { destruct (vget _ _) eqn:E; [|done]. apply vget_Some_bounds in E. rewrite plan_size in E by done. lia. }
  destruct (vget (plan_of u (acc ++ acc')) _) as [[s st]|] eqn:E; [|done]. by eapply vget_beyond.
Qed.

Lemma rx_extend acc acc' r : Forall sdu_ok acc' -> Forall flow_ok acc' -> total_frags u (acc ++ acc') < sn_bound ->
  rx_ok acc r -> rx_ok (acc ++ acc') r.
Proof.
  intros Hok' Hfl' Hb [(Hok & Hfl & _) K2 K3 K4 K5 K6 K7 K8 K9 K10]. pose proof (total_frags_nonneg u Hu acc' Hok') as Hn.
  split; try done.
  - split; [by apply Forall_app|]. split; [by apply Forall_app|done].
  - rewrite total_frags_app. lia.
  - intros i p Hp. apply K5 in Hp as [? ?]. split; [done|by apply is_fragment_extend].
  - intros s st E Hst. apply (K8 s st); [|done]. destruct (decide (rx_first r = total_frags u acc)) as [Ef|]; [|by rewrite vget_extend in E by (done || lia)].
    rewrite Ef in E. apply vget_beyond in E; [|done|done]. lia.
  - destruct K9 as (a & Ha & Hl & Hf & Hc). exists a. rewrite sdu_start_extend by done. split; [done|]. split; [done|]. split.
    + intros k p Hk. apply is_fragment_extend; try done; by apply Hf.
    + destruct Hc as [?|Hc]; [by left|]. destruct (decide (rx_first r = total_frags u acc)) as [Ef|].
      * left. assert (sdu_start acc (rx_first r) = rx_first r); [|lia]. unfold sdu_start.
        destruct (vget _ _) as [[s st]|] eqn:E; [|done]. apply vget_Some_bounds in E. rewrite plan_size in E by done. lia.
      * right. intros s st E. rewrite vget_extend in E by (done || lia). by apply Hc.
Qed.

Lemma outs_extend acc acc' r outs : Forall sdu_ok acc' -> rx_ok acc r -> outs_ok acc r outs -> outs_ok (acc ++ acc') r outs.
Proof.
  intros Hok' Hr (ks & E & Hn & Hin & Hone). pose proof (rk_acc _ _ Hr) as (Hok & _). exists ks. split; [done|]. split; [done|]. split.
  - intros s st Hk. destruct (Hin s st Hk) as [? Hs]. split; [by apply plan_extend|done].
  - intros s st Es H1 Hg. destruct (got_entry acc r st Hr Hg) as (s' & st' & E'). apply (Hone s st); [|done|done].
    rewrite <- Es. rewrite E'. symmetry. by apply plan_extend.
Qed.

Lemma rx_got_below acc r : rx_ok acc r -> got_below u (rx_got r) acc.
Proof.
  intros Hr sn Hg. destruct (got_entry acc r sn Hr Hg) as (s & st & E). apply vget_Some_bounds in E. rewrite plan_size in E; [done|done|apply Hr].
Qed.

(** ** The beginning *)

Lemma new_am_rx_ok size t1 t2 : 0 < size < 2 ^ 9 -> rx_ok [] (new_AmRxQueue size t1 t2) /\ outs_ok [] (new_AmRxQueue size t1 t2) [].
Proof.
  intros Hsize. assert (Es : uint32 size = size) by (apply wrap_small; unfold is_uint; lia).
  assert (Hg : forall sn, ~ rx_got (new_AmRxQueue (A := A) size t1 t2) sn).
  { intros sn [? [?|Hf]]; [cbn in *; lia|]. cbn in Hf. by rewrite flag_replicate in Hf. }
  split.
  - split; cbn; rewrite ?Es; try done; try lia.
    + rewrite length_replicate. lia.
    + rewrite length_replicate. lia.
    + intros i p. by rewrite arr_get_new.
    + intros i. by rewrite flag_replicate.
    + intros sn Hs. by apply Hg in Hs.
    + assert (sdu_start [] 0 = 0) as E0 by done. exists 0. cbn. rewrite E0. split; [lia|]. split; [done|]. split; [intros k p; by rewrite lookup_nil|by left].
  - exists []. split; [done|]. split; [apply NoDup_nil_2|]. split; [intros s st Hk; by apply elem_of_nil in Hk|].
    intros s st _ _ Hs. by apply Hg in Hs.
Qed.
End Rx.
