(* ===== verification/RlcAmLink.v ===== *)
(** * RLC acknowledged mode: two nodes and what is between them

    Each node has both queues of a connection, as [LteRlcAm] keeps them, and both send SDUs.
    Packets may be lost, repeated and overtaken.  As long as no PDU is given up no operation
    fails, every SDU is delivered at most once and whole, and one that fits a PDU and
    entered the window is delivered or its PDU is still waiting for an acknowledgement. *)

From stdpp Require Import list.
From S2P Require Import Prelude LteCommon TTimer RlcWindow RlcAm RlcAmFacts RlcAmRx RlcAmRxFacts.
#[local] Open Scope Z_scope.

#[local] Arguments total_frags : simpl never.
#[local] Arguments plan_of : simpl never.
#[local] Arguments nfrags : simpl never.

Section Link.
Context {A : Type} {C : CArray AmPacket A} {D : CArrayAdd AmPacket A} `{SimTimeDbl}.

(** ** Nodes *)

(** The queues of a connection at one node, the PDUs it has given the MAC layer, and what
    PDCP has been given. *)
Record AmNode := {
  nd_tx : AmTxQueue A;
  nd_rx : AmRxQueue A;
  nd_sent : list AmPacket;
  nd_out : list (list slice * FlowControlInfo)
}.

#[export] Instance amnode_eta : Eta AmNode := fun n =>
  {| nd_tx := nd_tx n; nd_rx := nd_rx n; nd_sent := nd_sent n; nd_out := nd_out n |}.

(** The PDUs among what a queue asks the layer to do; a notice of new data is for the MAC
    layer, whose requests are events. *)
Definition frames (e : list amtx_effect) : list AmPacket :=
  omap (fun x => match x with AmSendFragmented p => Some p | AmNewData _ => None end) e.

Definition node_tx (n : AmNode) (o : result (AmTxQueue A * list amtx_effect)) : result AmNode :=
  let! (t, e) := o in Ok (n <| nd_tx := t |> <| nd_sent := nd_sent n ++ frames e |>).

Definition node_effect (n : AmNode) (NOW : Z) (x : amrx_effect) : result AmNode :=
  match x with
  | AmSendDefragmented data tag => Ok (n <| nd_out := nd_out n ++ [(data, tag)] |>)
  | AmBufferControl pkt => node_tx n (Ok (bufferControlPdu (nd_tx n) pkt))
  | AmRouteControl pkt => node_tx n (handleControlPacket (nd_tx n) NOW pkt)
  end.

Fixpoint node_effects (n : AmNode) (NOW : Z) (l : list amrx_effect) : result AmNode :=
  match l with
  | [] => Ok n
  | x :: l' => let! n := node_effect n NOW x in node_effects n NOW l'
  end.

Definition node_rx (n : AmNode) (NOW : Z) (o : result (AmRxQueue A * list amrx_effect)) : result AmNode :=
  let! (r, e) := o in node_effects (n <| nd_rx := r |>) NOW e.

(** A PDU from the MAC layer. *)
Definition node_pdu (n : AmNode) (NOW : Z) (pkt : AmPacket) : result AmNode :=
  match amType (am_pdu pkt) with
  | ACK | MRW_ACK => node_tx n (handleControlPacket (nd_tx n) NOW pkt)
  | DATA | MRW => node_rx n NOW (amrx_enque (nd_rx n) NOW pkt)
  end.

(** ** Events *)

(** An SDU from PDCP, a request of the MAC layer, the timers, and the arrival of the [k]-th
    PDU that the other node has sent.  The MAC layer asks when there is something to send, a
    timer message arrives when one is scheduled. *)
Inductive am_event :=
| AmOffer (sdu : AmSdu)
| AmRequest (size : Z)
| AmBufferTimer
| AmPduTimer
| AmMrwTimer
| AmReportTimer
| AmArrive (k : nat).

Definition node_step (n peer : AmNode) (NOW : Z) (ev : am_event) : result AmNode :=
  let t := nd_tx n in
  match ev with
  | AmOffer sdu => node_tx n (am_enque t NOW sdu)
  | AmRequest size => match txPduBuffer_ t with [] => Ok n | _ => node_tx n (sendPdus t size) end
  | AmBufferTimer => match intr_at (bufferStatusTimer_ t) with None => Ok n | Some _ => node_tx n (amtx_handleMessage t NOW BufferT) end
  | AmPduTimer => match intr_ (pduTimer_ t) with None => Ok n | Some (_, e) => node_tx n (amtx_handleMessage t NOW (PduT e)) end
  | AmMrwTimer => match intr_ (mrwTimer_ t) with None => Ok n | Some (_, e) => node_tx n (amtx_handleMessage t NOW (MrwT e)) end
  | AmReportTimer => match intr_at (timer_ (nd_rx n)) with None => Ok n | Some _ => node_rx n NOW (amrx_handleMessage (nd_rx n) NOW) end
  | AmArrive k => match nd_sent peer !! k with None => Ok n | Some pkt => node_pdu n NOW pkt end
  end.

(** The two nodes; an event happens at the first or at the second, at a time. *)
Definition link_step (l : AmNode * AmNode) (x : bool * Z * am_event) : result (AmNode * AmNode) :=
  let '(first, NOW, ev) := x in
  if first : bool then let! n := node_step l.1 l.2 NOW ev in Ok (n, l.2)
  else let! n := node_step l.2 l.1 NOW ev in Ok (l.1, n).

Fixpoint link_run (l : AmNode * AmNode) (evs : list (bool * Z * am_event)) : result (AmNode * AmNode) :=
  match evs with
  | [] => Ok l
  | x :: evs' => let! l := link_step l x in link_run l evs'
  end.

(** The event makes the node give a PDU up. *)
Definition gives_up (n : AmNode) (ev : am_event) : bool :=
  match ev, intr_ (pduTimer_ (nd_tx n)) with
  | AmPduTimer, Some (_, e) =>
      match arr_get (pduRtxQueue_ (nd_tx n)) (tx_index (nd_tx n) e) with
      | Some p => maxRtx_ (nd_tx n) <? txNumber (am_pdu p) + 1
      | None => false
      end
  | _, _ => false
  end.

Fixpoint patient (l : AmNode * AmNode) (evs : list (bool * Z * am_event)) : bool :=
  match evs with
  | [] => true
  | x :: evs' =>
      negb (gives_up (if x.1.1 then l.1 else l.2) x.2) &&
      match link_step l x with Ok l => patient l evs' | _ => true end
  end.

(** The SDUs that one of the nodes is offered. *)
Definition offered (first : bool) (evs : list (bool * Z * am_event)) : list AmSdu :=
  omap (fun x => match x with (b, _, AmOffer s) => if Bool.eqb b first then Some s else None | _ => None end) evs.

(** What an event offers the node. *)
Definition offers (ev : am_event) : list AmSdu := match ev with AmOffer s => [s] | _ => [] end.

(** Where the window of the first or the second node begins. *)
Definition window_of (first : bool) (l : AmNode * AmNode) : Z := tx_first (nd_tx (if first : bool then l.1 else l.2)).

(** The SDUs that must have entered the window of a node after a run, with PDUs of [u] bytes
    and a window of [W] numbers, and those that must be waiting: only the beginnings of the
    window are read from the run. *)
Fixpoint ledger (u W : Z) (first : bool) (l : AmNode * AmNode) (evs : list (bool * Z * am_event)) (taken rest : list AmSdu)
    : list AmSdu * list AmSdu :=
  match evs with
  | [] => (taken, rest)
  | x :: evs' =>
      match link_step l x with
      | Ok l' =>
          let (new, rest) := enters u (total_frags u taken) (window_of first l) (window_of first l') W rest (offered first [x]) in
          ledger u W first l' evs' (taken ++ new) rest
      | _ => (taken, rest)
      end
  end.

Definition new_node (t : AmTxQueue A) (r : AmRxQueue A) : AmNode := {| nd_tx := t; nd_rx := r; nd_sent := []; nd_out := [] |}.
End Link.
Arguments AmNode : clear implicits.

(** ** Only [sendPdus] sends *)

Create HintDb quiet.

Section Quiet.
Context {A : Type} {C : CArray AmPacket A} {D : CArrayAdd AmPacket A}.

Definition quiet (o : result (AmTxQueue A * list amtx_effect)) : Prop :=
  match o with Ok (_, e) => frames e = [] | _ => True end.

Lemma frames_app e e' : frames (e ++ e') = frames e ++ frames e'.
Proof. apply omap_app. Qed.

Lemma quiet_bind {B} (m : result B) f : (forall x, quiet (f x)) -> quiet (rbind m f).
Proof. intros Hf. destruct m; cbn; auto. Qed.

Lemma quiet_buffer (t : AmTxQueue A) p : quiet (Ok (bufferPdu t p)).
Proof. unfold quiet, bufferPdu. by destruct (txPduBuffer_ t). Qed.

Lemma quiet_then {B} (o : result (AmTxQueue A * list amtx_effect)) (f : AmTxQueue A -> result B) (g : B -> AmTxQueue A) : quiet o ->
  quiet (let! (t, e) := o in let! x := f t in Ok (g x, e)).
Proof. destruct o as [[t e]| |]; cbn; [|done|done]. intros Hq. apply quiet_bind. by intros x. Qed.

Lemma quiet_more (o : result (AmTxQueue A * list amtx_effect)) f : quiet o -> (forall t, quiet (f t)) ->
  quiet (let! (t, e) := o in let! (t, e') := f t in Ok (t, e ++ e')).
Proof.
  destruct o as [[t e]| |]; cbn; [|done|done]. intros Hq Hf. specialize (Hf t). destruct (f t) as [[t' e']| |]; cbn in *; [|done|done].
  by rewrite frames_app, Hq, Hf.
Qed.

(** Cases of an operation whose ends are quiet. *)
Ltac quietly :=
  repeat first
    [ exact I | reflexivity | apply quiet_buffer | solve [auto 2 with quiet]
    | apply quiet_more; [solve [auto 2 with quiet]|intros ?]
    | apply (quiet_then _ _ (fun t => t)); [solve [auto 2 with quiet]|intros ?]
    | apply quiet_bind; intros ?
    | match goal with |- quiet (match ?x with _ => _ end) => destruct x end ].

Lemma add_pdu_quiet (t : AmTxQueue A) NOW p frags i indices : quiet (add_pdu t NOW p frags i indices).
Proof. unfold add_pdu. quietly. Qed.
#[local] Hint Resolve add_pdu_quiet : quiet.

Lemma add_loop_quiet fuel : forall (t : AmTxQueue A) NOW, quiet (add_loop fuel t NOW).
Proof.
  induction fuel as [|fuel IH]; intros t NOW; cbn [add_loop]; quietly.
Qed.

Lemma addPdus_quiet (t : AmTxQueue A) NOW : quiet (addPdus t NOW).
Proof.
  unfold addPdus. pose proof (add_loop_quiet (Z.to_nat (tx_size t)) t NOW) as Hq. destruct (add_loop _ t NOW) as [[t' e]| |]; cbn [rbind]; quietly.
Qed.
#[local] Hint Resolve addPdus_quiet : quiet.

Lemma am_enque_quiet (t : AmTxQueue A) NOW s : quiet (am_enque t NOW s).
Proof. unfold am_enque. quietly. Qed.

Lemma checkForMrw_quiet (t : AmTxQueue A) NOW : quiet (checkForMrw t NOW).
Proof. unfold checkForMrw, sendMrw, bufferControlPdu. quietly. Qed.
#[local] Hint Resolve checkForMrw_quiet : quiet.

Lemma moveTxWindow_quiet (t : AmTxQueue A) NOW sn : quiet (moveTxWindow t NOW sn).
Proof. unfold moveTxWindow. quietly. Qed.
#[local] Hint Resolve moveTxWindow_quiet : quiet.

Lemma recvCumulativeAck_quiet (t : AmTxQueue A) NOW sn : quiet (recvCumulativeAck t NOW sn).
Proof. unfold recvCumulativeAck. quietly. Qed.
#[local] Hint Resolve recvCumulativeAck_quiet : quiet.

Lemma handleControlPacket_quiet (t : AmTxQueue A) NOW p : quiet (handleControlPacket t NOW p).
Proof.
  unfold handleControlPacket. destruct (amType (am_pdu p)); [done| |done|].
  - apply (quiet_then _ _ (fun t => t)). auto with quiet.
  - apply (quiet_then _ _ (fun t => t)). auto with quiet.
Qed.

Lemma amtx_handleMessage_quiet (t : AmTxQueue A) NOW msg : quiet (amtx_handleMessage t NOW msg).
Proof.
  unfold amtx_handleMessage, pduTimerHandle, mrwTimerHandle. destruct msg.
  - pose proof (checkForMrw_quiet t NOW) as Hq. destruct (checkForMrw t NOW) as [[t' e]| |]; exact Hq.
  - unfold discard. quietly.
  - quietly.
Qed.
End Quiet.

(** ** The invariant *)

Section LinkFacts.
Context {A : Type} {C : CArray AmPacket A} {D : CArrayAdd AmPacket A}.
Context {L : CArrayLaws AmPacket A} {LD : CArrayAddLaws AmPacket A} `{SimTimeDbl}.
Variables (u W : Z).
Context (Hu : 0 < u).

(** What a node may report. *)
Abbreviation reports n := (up_ok (rx_got (nd_rx n)) (rx_first (nd_rx n))).

(** From [n] to [m]: [offer] are the SDUs offered to [n], [acc] those that have entered the
    window; [k] bounds the commands to move the window. *)
Record dir_ok (offer : list AmSdu) (k : Z) (acc : list AmSdu) (n m : AmNode A) : Prop := {
  dk_tx : tx_ok u (rx_got (nd_rx m)) (rx_first (nd_rx m)) (reports n) (total_frags u offer) acc (nd_tx n);
  dk_rx : rx_ok u acc (nd_rx m);
  dk_out : outs_ok u acc (nd_rx m) (nd_out m);
  dk_mrw : mrwSeqNum_ (mrwDesc_ (nd_tx n)) <= k;
  dk_offer : Forall sdu_ok offer /\ Forall flow_ok offer /\ acc ++ amSduQueue_ (nd_tx n) `sublist_of` offer;
  dk_sent : Forall (sent_ok u (rx_got (nd_rx m)) (reports n) acc) (nd_sent n);
  dk_size : tx_size (nd_tx n) = W /\ 2 * W <= rx_size (nd_rx m)
}.

(** The window of the receiver has room for what the transmitter may send. *)
Lemma dir_room offer k acc n m : dir_ok offer k acc n m -> 2 * (total_frags u acc - rx_first (nd_rx m)) <= rx_size (nd_rx m).
Proof.
  intros [Ht Hr _ _ _ _ [Hs Hw]]. pose proof (tk_low _ _ _ _ _ _ _ Ht). rewrite <- (tk_seq _ _ _ _ _ _ _ Ht).
  pose proof (wk_size _ _ _ _ _ _ _ _ _ (tk_window _ _ _ _ _ _ _ Ht)). lia.
Qed.

Lemma Forall_sublist {B} (P : B -> Prop) l k : l `sublist_of` k -> Forall P k -> Forall P l.
Proof. intros Hl Hk. apply Forall_forall. intros x Hx. apply (proj1 (Forall_forall _ _) Hk). eapply elem_of_submseteq; [exact Hx|by apply sublist_submseteq]. Qed.

(** What enters the window when [n] becomes [n'], and what then waits. *)
Definition taken (acc : list AmSdu) (n n' : AmNode A) (more : list AmSdu) : list AmSdu * list AmSdu :=
  enters u (total_frags u acc) (tx_first (nd_tx n)) (tx_first (nd_tx n')) W (amSduQueue_ (nd_tx n)) more.

(** An operation of the transmitting queue; [more] are the SDUs that it is given. *)
Lemma dir_tx offer more k acc n m o : dir_ok offer k acc n m -> Forall sdu_ok more -> Forall flow_ok more ->
  adds u (rx_got (nd_rx m)) (rx_first (nd_rx m)) (reports n) (total_frags u (offer ++ more)) acc more (nd_tx n) o -> quiet o ->
  exists n', node_tx n o = Ok n' /\ dir_ok (offer ++ more) (k + 1) (acc ++ (taken acc n n' more).1) n' m /\
    amSduQueue_ (nd_tx n') = (taken acc n n' more).2 /\
    nd_rx n' = nd_rx n /\ nd_sent n' = nd_sent n /\ nd_out n' = nd_out n.
Proof.
  intros [Ht Hr Ho Hm (Hok & Hfl & Hq) Hs [Hw1 Hw2]] Hok2 Hfl2 (acc' & t' & e & -> & Ht' & E1 & E2 & E3 & E4 & E5) Hquiet.
  unfold quiet in Hquiet. unfold node_tx; cbn [rbind]. rewrite Hquiet, app_nil_r.
  set (n' := n <| nd_tx := t' |> <| nd_sent := nd_sent n |>).
  assert (Etaken : taken acc n n' more = (acc', amSduQueue_ t')) by (unfold taken; rewrite <- Hw1; exact E5).
  exists n'. rewrite Etaken. cbn [fst snd]. split; [done|].
  assert (Hsub : (acc ++ acc') ++ amSduQueue_ t' `sublist_of` offer ++ more).
  { pose proof (enters_sublist u (total_frags u acc) (tx_first (nd_tx n)) (tx_first t') (tx_size (nd_tx n)) (amSduQueue_ (nd_tx n)) more) as Hent.
    rewrite E5 in Hent. cbn [fst snd] in Hent. rewrite <- app_assoc. transitivity (acc ++ (amSduQueue_ (nd_tx n) ++ more)); [by apply sublist_app|]. rewrite app_assoc. by apply sublist_app. }
  assert (Hok1 : Forall sdu_ok (offer ++ more) /\ Forall flow_ok (offer ++ more)) by (split; by apply Forall_app).
  assert (Hacc : Forall sdu_ok acc' /\ Forall flow_ok acc').
  { assert (Hsub' : acc' `sublist_of` offer ++ more) by (rewrite <- app_assoc in Hsub; etransitivity; [|exact Hsub]; apply sublist_inserts_l, sublist_inserts_r; done).
    split; eapply Forall_sublist; [exact Hsub'|apply Hok1|exact Hsub'|apply Hok1]. }
  destruct Hacc as [Hacc1 Hacc2]. pose proof (wk_plan _ _ _ _ _ _ _ _ _ (tk_window _ _ _ _ _ _ _ Ht')) as [_ Hb].
  split; [|done]. split.
  - exact Ht'.
  - apply rx_extend; try done. lia.
  - by apply outs_extend.
  - cbn. lia.
  - split_and!; [apply Hok1|apply Hok1|exact Hsub].
  - eapply Forall_impl; [exact Hs|]. intros p. apply sent_ok_extend; [done|apply Hr|done].
  - cbn. by rewrite E1.
Qed.

(** What the receiving queue asks for, done: SDUs go up, control packets wait to be sent. *)
Definition add_effects (n : AmNode A) (l : list AmPacket) (outs : list (list slice * FlowControlInfo)) : AmNode A :=
  n <| nd_tx := (nd_tx n) <| txPduBuffer_ := txPduBuffer_ (nd_tx n) ++ l |> |> <| nd_out := nd_out n ++ outs |>.

Lemma node_effects_ok (r : AmRxQueue A) NOW e : forall n : AmNode A, effects_ok r e ->
  exists l, node_effects n NOW e = Ok (add_effects n l (ups e)) /\ Forall (up_ok (rx_got r) (rx_first r)) l.
Proof.
  induction e as [|x e IH]; intros n He; cbn [node_effects].
  { exists []. split; [|done]. unfold add_effects. rewrite !app_nil_r. by destruct n as [[]]. }
  assert (He' : effects_ok r e) by (intros y Hy; apply He; by right).
  destruct (He x) as [(d & t & ->)|(p & -> & Hp)]; [by left| |].
  - cbn [node_effect rbind]. destruct (IH (n <| nd_out := nd_out n ++ [(d, t)] |>) He') as (l & -> & Hl). exists l. split; [|done].
    unfold add_effects. cbn. by rewrite <- app_assoc.
  - cbn [node_effect]. unfold node_tx. pose proof (quiet_buffer (nd_tx n) p) as Hq. unfold quiet, bufferControlPdu, bufferPdu in *. cbn [rbind]. rewrite Hq, app_nil_r.
    destruct (IH (n <| nd_tx := (nd_tx n) <| txPduBuffer_ := txPduBuffer_ (nd_tx n) ++ [p] |> |> <| nd_sent := nd_sent n |>) He') as (l & -> & Hl).
    exists (p :: l). split; [|by constructor]. unfold add_effects. cbn. by rewrite <- app_assoc.
Qed.

(** An operation of the receiving queue of [m]. *)
Lemma dir_receive offer offer2 k acc acc2 n m NOW o : dir_ok offer k acc n m -> dir_ok offer2 k acc2 m n ->
  receives u acc (nd_out m) (nd_rx m) o ->
  exists m', node_rx m NOW o = Ok m' /\ dir_ok offer k acc n m' /\ dir_ok offer2 k acc2 m' n /\
    tx_first (nd_tx m') = tx_first (nd_tx m) /\ amSduQueue_ (nd_tx m') = amSduQueue_ (nd_tx m).
Proof.
  intros [Ht Hr Ho Hm Hq Hs Hw] [Ht2 Hr2 Ho2 Hm2 Hq2 Hs2 Hw2] (r' & e & -> & Hr' & Ho' & He & Es & Ef & Hg).
  unfold node_rx; cbn [rbind]. destruct (node_effects_ok r' NOW e (m <| nd_rx := r' |>) He) as (l & -> & Hl). eexists. split; [reflexivity|].
  assert (Hup : forall p, reports m p -> up_ok (rx_got r') (rx_first r') p) by (intros p; by apply up_ok_mono).
  split; [|split; [|done]]; split; try done.
  - eapply tx_mono; [exact Hg|exact Ef|by intros p|exact Ht].
  - eapply Forall_impl; [exact Hs|]. intros p. by apply sent_ok_mono.
  - cbn. by rewrite Es.
  - apply tx_set_buf.
    + eapply tx_mono; [by intros|reflexivity|exact Hup|exact Ht2].
    + apply Forall_app. split; [eapply Forall_impl; [apply (tk_buf _ _ _ _ _ _ _ Ht2)|]; intros p; by apply sent_ok_mono|].
      eapply Forall_impl; [exact Hl|]. intros p Hp. by right.
  - eapply Forall_impl; [exact Hs2|]. intros p. by apply sent_ok_mono.
Qed.

Lemma dir_later offer k acc n m : dir_ok offer k acc n m -> dir_ok offer (k + 1) acc n m.
Proof. intros [Ht Hr Ho Hm Hq Hs Hw]. split; try done. lia. Qed.

(** What does not concern the receiving side. *)
Lemma dir_same offer k acc n m m' : nd_rx m' = nd_rx m -> nd_out m' = nd_out m -> dir_ok offer k acc n m -> dir_ok offer k acc n m'.
Proof. intros E1 E2 [Ht Hr Ho Hm Hq Hs Hw]. split; by rewrite ?E1, ?E2. Qed.

(** ** Steps *)

(** A step of [n]: both directions stay well-formed. *)
Definition step_ok (offer more offer2 : list AmSdu) (k : Z) (acc acc2 : list AmSdu) (n m : AmNode A) (o : result (AmNode A)) : Prop :=
  exists n', o = Ok n' /\ dir_ok (offer ++ more) (k + 1) (acc ++ (taken acc n n' more).1) n' m /\
    amSduQueue_ (nd_tx n') = (taken acc n n' more).2 /\ dir_ok offer2 (k + 1) acc2 m n'.

(** A step that leaves the window and the queue of [n]. *)
Lemma step_calm offer offer2 k acc acc2 n n' m o : o = Ok n' -> tx_first (nd_tx n') = tx_first (nd_tx n) ->
  amSduQueue_ (nd_tx n') = amSduQueue_ (nd_tx n) -> dir_ok offer (k + 1) acc n' m -> dir_ok offer2 (k + 1) acc2 m n' ->
  step_ok offer [] offer2 k acc acc2 n m o.
Proof. intros -> Ef Eq Hd Hd2. exists n'. unfold taken. rewrite Ef, enters_none. cbn [fst snd]. by rewrite !app_nil_r. Qed.

Lemma step_tx offer more offer2 k acc acc2 n m o : dir_ok offer k acc n m -> dir_ok offer2 k acc2 m n ->
  Forall sdu_ok more -> Forall flow_ok more ->
  adds u (rx_got (nd_rx m)) (rx_first (nd_rx m)) (reports n) (total_frags u (offer ++ more)) acc more (nd_tx n) o -> quiet o ->
  step_ok offer more offer2 k acc acc2 n m (node_tx n o).
Proof.
  intros Hd Hd2 Hok Hfl Ha Hq. destruct (dir_tx offer more k acc n m o Hd Hok Hfl Ha Hq) as (n' & -> & Hd' & Eq & E1 & E2 & E3).
  exists n'. split; [done|]. split; [done|]. split; [done|]. apply dir_later. by eapply dir_same.
Qed.

(** The same for one that is given no SDU. *)
Lemma step_quiet offer offer2 k acc acc2 n m o : dir_ok offer k acc n m -> dir_ok offer2 k acc2 m n ->
  adds u (rx_got (nd_rx m)) (rx_first (nd_rx m)) (reports n) (total_frags u offer) acc [] (nd_tx n) o -> quiet o ->
  step_ok offer [] offer2 k acc acc2 n m (node_tx n o).
Proof. intros Hd Hd2 Ha Hq. eapply step_tx; try done. by rewrite app_nil_r. Qed.

Lemma step_rx offer offer2 k acc acc2 n m NOW o : dir_ok offer k acc n m -> dir_ok offer2 k acc2 m n ->
  receives u acc2 (nd_out n) (nd_rx n) o -> step_ok offer [] offer2 k acc acc2 n m (node_rx n NOW o).
Proof.
  intros Hd Hd2 Ho. destruct (dir_receive offer2 offer k acc2 acc m n NOW o Hd2 Hd Ho) as (n' & -> & Hd2' & Hd' & Ef & Eq).
  eapply step_calm; try done; by apply dir_later.
Qed.

Lemma step_idle offer offer2 k acc acc2 n m : dir_ok offer k acc n m -> dir_ok offer2 k acc2 m n -> step_ok offer [] offer2 k acc acc2 n m (Ok n).
Proof. intros Hd Hd2. eapply step_calm; try done; by apply dir_later. Qed.

(** A request of the MAC layer. *)
Lemma step_send offer offer2 k acc acc2 n m size : dir_ok offer k acc n m -> dir_ok offer2 k acc2 m n -> txPduBuffer_ (nd_tx n) <> [] ->
  step_ok offer [] offer2 k acc acc2 n m (node_tx n (sendPdus (nd_tx n) size)).
Proof.
  intros Hd Hd2 Hne. pose proof Hd as [Ht Hr Ho Hm Hq Hs Hw].
  destruct (sendPdus_ok u (rx_got (nd_rx m)) (rx_first (nd_rx m)) (reports n) _ acc (nd_tx n) size ltac:(done) Ht Hne) as (t' & out & e & -> & Ht' & Hout & He & (B1 & B2 & B3 & B4) & Eq).
  assert (Ee : frames e = []). { unfold frames. clear -He. induction e as [|[p|p] e IH]; cbn; [done| |exfalso; apply (He p); by left]. apply IH. intros q Hq. apply (He q). by right. }
  unfold node_tx; cbn [rbind]. unfold frames; cbn [omap list_omap]. fold (frames e). rewrite Ee.
  eapply step_calm; [reflexivity|exact B1|exact Eq| |apply dir_later; by apply (dir_same offer2 k acc2 m n)]. apply dir_later. split; try done.
  - cbn. by rewrite B4.
  - cbn. by rewrite Eq.
  - cbn. apply Forall_app. split; [done|by constructor].
  - cbn. by rewrite B2.
Qed.

(** The timers of the transmitting queue. *)
Lemma buffer_timer_ok limit acc got low other (t : AmTxQueue A) NOW : tx_ok u got low other limit acc t -> mrwSeqNum_ (mrwDesc_ t) < 2 ^ 31 - 1 ->
  adds u got low other limit acc [] t (amtx_handleMessage t NOW BufferT).
Proof.
  intros Ht Hm. cbn [amtx_handleMessage]. destruct (checkForMrw_ok u got low other limit acc t NOW Ht Hm) as (acc' & t' & e & -> & Ht' & E1 & E2 & E3 & E4 & E5).
  cbn [rbind]. exists acc', (t' <| bufferStatusTimer_ := timer_handle (fired (bufferStatusTimer_ t')) |>), e.
  split; [done|]. split; [by destruct Ht'; split|done].
Qed.

Lemma patient_retransmits (n : AmNode A) t e : intr_ (pduTimer_ (nd_tx n)) = Some (t, e) -> gives_up n AmPduTimer = false -> may_retransmit (nd_tx n) e.
Proof.
  intros E. unfold gives_up, may_retransmit. rewrite E. intros Hg p Hp. rewrite Hp in Hg. apply Z.ltb_ge in Hg. lia.
Qed.

(** A PDU that the other node has sent. *)
Lemma step_arrive offer offer2 k acc acc2 n m NOW p : dir_ok offer k acc n m -> dir_ok offer2 k acc2 m n -> k < 2 ^ 31 - 1 -> p ∈ nd_sent m ->
  step_ok offer [] offer2 k acc acc2 n m (node_pdu n NOW p).
Proof.
  intros Hd Hd2 Hk Hp. apply (proj1 (Forall_forall _ _) (dk_sent _ _ _ _ _ Hd2)) in Hp. unfold node_pdu.
  destruct Hp as [Hp|Hp].
  - assert (Ht : amType (am_pdu p) = DATA \/ amType (am_pdu p) = MRW).
    { destruct Hp as [[sn Hp]|(Ht & _)]; [left|by right]. by apply fragment_data in Hp as (s & st & _ & _ & _ & Ht & _). }
    assert (Hr : receives u acc2 (nd_out n) (nd_rx n) (amrx_enque (nd_rx n) NOW p)).
    { apply amrx_enque_ok; [done|apply Hd2|apply Hd2|done|by eapply dir_room]. }
    destruct Ht as [-> | ->]; by eapply step_rx.
  - assert (Hc : step_ok offer [] offer2 k acc acc2 n m (node_tx n (handleControlPacket (nd_tx n) NOW p))).
    { eapply step_quiet; [done|done| |apply handleControlPacket_quiet]. pose proof (dk_mrw _ _ _ _ _ Hd).
      apply handleControlPacket_ok; [done|apply Hd|lia|apply rx_got_below; [done|apply Hd]|done]. }
    unfold up_ok in Hp. by destruct (amType (am_pdu p)).
Qed.

Lemma node_step_ok offer offer2 k acc acc2 n m NOW ev : dir_ok offer k acc n m -> dir_ok offer2 k acc2 m n -> k < 2 ^ 31 - 1 ->
  gives_up n ev = false -> Forall sdu_ok (offers ev) -> Forall flow_ok (offers ev) -> total_frags u (offer ++ offers ev) < sn_bound ->
  step_ok offer (offers ev) offer2 k acc acc2 n m (node_step n m NOW ev).
Proof.
  intros Hd Hd2 Hk Hg Hok Hfl Hb. pose proof (dk_tx _ _ _ _ _ Hd) as Ht. pose proof (dk_mrw _ _ _ _ _ Hd) as Hm.
  destruct ev as [s|size| | | | |j]; cbn [node_step offers] in *.
  - eapply step_tx; [done|done|done|done| |apply am_enque_quiet]. inversion Hok; subst. rewrite total_frags_app in *.
    change (total_frags u [s]) with (nfrags u s + 0) in *. rewrite Z.add_0_r in *. by apply am_enque_ok.
  - destruct (txPduBuffer_ (nd_tx n)) eqn:E; [by eapply step_idle|]. eapply step_send; [done|done|by rewrite E].
  - destruct (intr_at _); [|by eapply step_idle]. eapply step_quiet; [done|done| |apply amtx_handleMessage_quiet]. apply buffer_timer_ok; [done|lia].
  - destruct (intr_ _) as [[t e]|] eqn:E; [|by eapply step_idle]. eapply step_quiet; [done|done| |apply amtx_handleMessage_quiet].
    apply (pduTimerHandle_ok u _ _ _ _ acc _ t e NOW Ht E). by eapply patient_retransmits.
  - destruct (intr_ _) as [[t e]|] eqn:E; [|by eapply step_idle]. eapply step_quiet; [done|done| |apply amtx_handleMessage_quiet].
    apply (mrwTimerHandle_ok u _ _ _ _ acc _ t e NOW Ht); [lia|done].
  - destruct (intr_at _) eqn:E; [|by eapply step_idle]. eapply step_rx; [done|done|]. apply amrx_handleMessage_ok; [apply Hd2|apply Hd2|by rewrite E].
  - destruct (nd_sent m !! j) as [p|] eqn:E; [|by eapply step_idle]. eapply step_arrive; [done|done|done|]. by eapply list_elem_of_lookup_2.
Qed.

(** ** Runs *)

Lemma offered_cons b first NOW ev evs : offered b ((first, NOW, ev) :: evs) = (if Bool.eqb first b then offers ev else []) ++ offered b evs.
Proof. unfold offered. cbn. destruct ev; cbn; by destruct (Bool.eqb first b). Qed.

(** What the events still offer is in order. *)
Definition offer_ok (before : list AmSdu) (more : list AmSdu) : Prop :=
  Forall sdu_ok more /\ Forall flow_ok more /\ total_frags u (before ++ more) < sn_bound.

Lemma offer_ok_app before now more : offer_ok before (now ++ more) ->
  offer_ok (before ++ now) more /\ Forall sdu_ok now /\ Forall flow_ok now /\ total_frags u (before ++ now) < sn_bound.
Proof.
  unfold offer_ok. rewrite app_assoc, !Forall_app. intros ([? Hm] & [? ?] & Hb). split_and!; try done.
  rewrite total_frags_app in Hb. pose proof (total_frags_nonneg u Hu more Hm). lia.
Qed.

Lemma offered_one b first NOW ev : offered b [(first, NOW, ev)] = if Bool.eqb first b then offers ev else [].
Proof. rewrite offered_cons. by rewrite app_nil_r. Qed.

(** A direction with what has entered its window and what waits. *)
Definition way_ok (offer : list AmSdu) (k : Z) (log : list AmSdu * list AmSdu) (n m : AmNode A) : Prop :=
  dir_ok offer k log.1 n m /\ amSduQueue_ (nd_tx n) = log.2.

(** The ledger over one step. *)
Lemma ledger_cons b l l' x evs log : link_step l x = Ok l' ->
  ledger u W b l (x :: evs) log.1 log.2 =
    let r := enters u (total_frags u log.1) (window_of b l) (window_of b l') W log.2 (offered b [x]) in
    ledger u W b l' evs (log.1 ++ r.1) r.2.
Proof. intros E. cbn [ledger]. rewrite E. by destruct (enters _ _ _ _ _ _ _). Qed.

(** The side that does not move. *)
Lemma way_still offer k (log : list AmSdu * list AmSdu) n m sn first : way_ok offer k log n m ->
  way_ok offer k (log.1 ++ (enters u sn first first W log.2 []).1, (enters u sn first first W log.2 []).2) n m.
Proof. intros [Hd Hq]. rewrite enters_none. cbn [fst snd]. rewrite app_nil_r. by split. Qed.

Lemma link_run_ok evs : forall offL offR k (logL logR : list AmSdu * list AmSdu) (l : AmNode A * AmNode A),
  way_ok offL k logL l.1 l.2 -> way_ok offR k logR l.2 l.1 ->
  k + vsize evs < 2 ^ 31 -> patient l evs = true -> offer_ok offL (offered true evs) -> offer_ok offR (offered false evs) ->
  exists l', link_run l evs = Ok l' /\
    way_ok (offL ++ offered true evs) (k + vsize evs) (ledger u W true l evs logL.1 logL.2) l'.1 l'.2 /\
    way_ok (offR ++ offered false evs) (k + vsize evs) (ledger u W false l evs logR.1 logR.2) l'.2 l'.1.
Proof.
  induction evs as [|[[first NOW] ev] evs IH]; intros offL offR k logL logR l Hl Hr Hk Hp Ho Ho'; cbn [link_run].
  { exists l. cbn. rewrite !app_nil_r, !Z.add_0_r. destruct logL, logR. by split. }
  rewrite !offered_cons in *. cbn [length] in *. rewrite Nat2Z.inj_succ in *. cbn [patient] in Hp. apply andb_prop in Hp as [Hg Hp]. apply negb_true_iff in Hg. cbn in Hg.
  apply offer_ok_app in Ho as (Ho & O1 & O2 & O3). apply offer_ok_app in Ho' as (Ho' & O1' & O2' & O3').
  replace (k + Z.succ (vsize evs)) with (k + 1 + vsize evs) by lia. rewrite !app_assoc.
  pose proof Hl as [Dl Ql]. pose proof Hr as [Dr Qr].
  destruct (link_step l (first, NOW, ev)) as [l1| |] eqn:E; unfold link_step in E; destruct first; cbn [Bool.eqb] in *; rewrite ?app_nil_r in *.
  1: destruct (node_step_ok offL offR k logL.1 logR.1 l.1 l.2 NOW ev Dl Dr) as (n' & E' & Hl' & Hq & Hr'); [lia|done|done|done|done|].
  2: destruct (node_step_ok offR offL k logR.1 logL.1 l.2 l.1 NOW ev Dr Dl) as (n' & E' & Hr' & Hq & Hl'); [lia|done|done|done|done|].
  3, 5: destruct (node_step_ok offL offR k logL.1 logR.1 l.1 l.2 NOW ev Dl Dr) as (n' & E' & _); [lia|done|done|done|done|]; by rewrite E' in E.
  3, 4: destruct (node_step_ok offR offL k logR.1 logL.1 l.2 l.1 NOW ev Dr Dl) as (n' & E' & _); [lia|done|done|done|done|]; by rewrite E' in E.
  all: rewrite E' in E; cbn [rbind] in E; injection E as <-; unfold taken in Hq; rewrite ?Ql, ?Qr in Hq.
  - rewrite !(ledger_cons _ l (n', l.2)) by (unfold link_step; by rewrite E'). rewrite !offered_one. cbn [Bool.eqb]. cbn [rbind].
    unfold taken in Hl'. rewrite Ql in Hl'.
    apply (IH _ _ (k + 1) (logL.1 ++ _, _) (logR.1 ++ _, _) (n', l.2)); try done; [by apply way_still; split|cbn; lia].
  - rewrite !(ledger_cons _ l (l.1, n')) by (unfold link_step; by rewrite E'). rewrite !offered_one. cbn [Bool.eqb]. cbn [rbind].
    unfold taken in Hr'. rewrite Qr in Hr'.
    apply (IH _ _ (k + 1) (logL.1 ++ _, _) (logR.1 ++ _, _) (l.1, n')); try done; [by apply way_still; split|cbn; lia].
Qed.

(** ** What is delivered *)

(** The accepted SDUs with their first numbers. *)
Fixpoint starts_from (st : Z) (acc : list AmSdu) : list (AmSdu * Z) :=
  match acc with [] => [] | s :: acc => (s, st) :: starts_from (st + nfrags u s) acc end.
Definition starts (acc : list AmSdu) : list (AmSdu * Z) := starts_from 0 acc.

Lemma starts_fst acc : (starts acc).*1 = acc.
Proof. unfold starts. generalize 0. induction acc as [|s acc IH]; intros st; cbn; [done|]. by rewrite IH. Qed.

Lemma filter_starts (P : AmSdu -> Prop) `{!forall s, Decision (P s)} acc : filter P acc = (filter (fun x => P x.1) (starts acc)).*1.
Proof.
  unfold starts. generalize 0. induction acc as [|s acc IH]; intros st; cbn [starts_from]; [done|]. rewrite !filter_cons. cbn [fst]. rewrite (IH (st + nfrags u s)).
  by case_decide.
Qed.

Lemma starts_snoc acc s : starts (acc ++ [s]) = starts acc ++ [(s, total_frags u acc)].
Proof.
  unfold starts. change (total_frags u acc) with (0 + total_frags u acc). generalize 0. induction acc as [|x acc IH]; intros st; cbn.
  - change (total_frags u []) with 0. by rewrite Z.add_0_r.
  - rewrite IH, total_frags_cons. by rewrite Z.add_assoc.
Qed.

Lemma starts_spec acc s st : Forall sdu_ok acc -> (s, st) ∈ starts acc <-> vget (plan_of u acc) st = Some (s, st).
Proof.
  intros Hok. induction acc as [|x acc IH] using rev_ind.
  { split; intros Hs; [by apply elem_of_nil in Hs|]. apply vget_Some_bounds in Hs. change (plan_of u []) with (@nil (AmSdu * Z)) in Hs. cbn in Hs. lia. }
  apply Forall_app in Hok as [Hok Hx]. inversion Hx as [|? ? Hx' _]; subst. pose proof (nfrags_spec u Hu x Hx') as [Hn _].
  pose proof (plan_size u Hu acc Hok) as Hlen. rewrite starts_snoc, elem_of_app, plan_snoc, vget_app, (IH Hok) by done. rewrite list_elem_of_singleton, Hlen.
  case_decide as Hlt; split.
  - intros [?|[= -> ->]]; [done|lia].
  - by left.
  - intros [E|[= -> ->]]; [apply vget_Some_bounds in E; lia|]. apply vget_replicate_eq. lia.
  - intros E. right. apply vget_Some_bounds in E as Hb. rewrite length_replicate in Hb. rewrite vget_replicate_eq in E by lia. by injection E as <- <-.
Qed.

Lemma starts_NoDup acc : Forall sdu_ok acc -> NoDup (starts acc).*2.
Proof.
  intros Hok. induction acc as [|x acc IH] using rev_ind; [apply NoDup_nil_2|]. apply Forall_app in Hok as [Hok _].
  rewrite starts_snoc, fmap_app. apply NoDup_app. split; [by apply IH|]. split; [|apply NoDup_singleton]. intros st Hst Hx.
  apply list_elem_of_singleton in Hx as ->. apply list_elem_of_fmap in Hst as ([s st] & E & Hs). cbn in E. subst st.
  apply starts_spec in Hs; [|done]. apply vget_Some_bounds in Hs. rewrite plan_size in Hs by done. lia.
Qed.

(** The SDUs whose PDUs wait for an acknowledgement. *)
Definition waiting (acc : list AmSdu) (t : AmTxQueue A) : list (AmSdu * Z) :=
  omap (fun x => vget (plan_of u acc) x.2) (directList_ (pduTimer_ t)).

(** The PDU of number [sn] has been received, or [n] keeps it, as the plan of the SDUs has it,
    and a timer waits for its acknowledgement. *)
Definition got_or_kept (acc : list AmSdu) (n m : AmNode A) (sn : Z) : Prop :=
  rx_got (nd_rx m) sn \/
  timed (pduTimer_ (nd_tx n)) sn /\
  exists p, arr_get (pduRtxQueue_ (nd_tx n)) (sn - tx_first (nd_tx n)) = Some p /\ is_fragment u acc sn p.

(** From [n] to [m], where [log] is what the ledger says: the SDUs that were taken and those
    that wait were offered, in that order, and the latter are the queue of [n]; each PDU of the
    former has been received or is kept; they are each delivered at most once, whole, and
    nothing else is; and those of one PDU are delivered or waiting for their acknowledgement. *)
Definition delivers (offer : list AmSdu) (log : list AmSdu * list AmSdu) (n m : AmNode A) : Prop :=
  log.1 ++ log.2 `sublist_of` offer /\ amSduQueue_ (nd_tx n) = log.2 /\
  (forall sn, 0 <= sn < total_frags u log.1 -> got_or_kept log.1 n m sn) /\
  nd_out m ⊆+ whole <$> log.1 /\
  whole <$> filter (fun s => nfrags u s = 1) log.1 ⊆+ nd_out m ++ (whole <$> (waiting log.1 (nd_tx n)).*1).

(** A number that no timer waits for has been received. *)
Lemma timed_or_got offer k acc n m sn : dir_ok offer k acc n m -> 0 <= sn < total_frags u acc -> timed (pduTimer_ (nd_tx n)) sn \/ rx_got (nd_rx m) sn.
Proof.
  intros [Ht _ _ _ _ _ _] Hsn. pose proof (tk_window _ _ _ _ _ _ _ Ht) as Hw. destruct (decide (sn < tx_first (nd_tx n))); [right; apply (tk_below _ _ _ _ _ _ _ Ht); lia|].
  destruct (flag (txReceived_ (nd_tx n)) (sn - tx_first (nd_tx n))) eqn:E.
  - right. apply (wk_recv _ _ _ _ _ _ _ _ _ Hw) in E as [_ Hg]. by replace (tx_first (nd_tx n) + (sn - tx_first (nd_tx n))) with sn in Hg by lia.
  - left. apply (wk_timed _ _ _ _ _ _ _ _ _ Hw). split; [|done]. rewrite (tk_seq _ _ _ _ _ _ _ Ht). lia.
Qed.

Lemma dir_got_or_kept offer k acc n m sn : dir_ok offer k acc n m -> 0 <= sn < total_frags u acc -> got_or_kept acc n m sn.
Proof.
  intros Hd Hsn. destruct (timed_or_got offer k acc n m sn Hd Hsn) as [Htm|Hg]; [right|by left]. split; [done|].
  pose proof (tk_window _ _ _ _ _ _ _ (dk_tx _ _ _ _ _ Hd)) as Hw. apply (wk_timed _ _ _ _ _ _ _ _ _ Hw) in Htm as [Hr _].
  destruct (arr_get (pduRtxQueue_ (nd_tx n)) (sn - tx_first (nd_tx n))) as [p|] eqn:E; [|apply (wk_free _ _ _ _ _ _ _ _ _ Hw) in E; lia].
  exists p. split; [done|]. apply (wk_slot _ _ _ _ _ _ _ _ _ Hw) in E as (_ & Hf & _).
  by replace (tx_first (nd_tx n) + (sn - tx_first (nd_tx n))) with sn in Hf by lia.
Qed.

Lemma way_delivers offer k log n m : way_ok offer k log n m -> delivers offer log n m.
Proof.
  destruct log as [acc queue]. unfold way_ok, delivers. cbn [fst snd]. intros [Hd <-].
  pose proof Hd as [Ht Hr Ho _ (_ & _ & Hq) _ _]. split; [done|]. split; [done|]. split; [intros sn; by eapply dir_got_or_kept|]. destruct Ho as (ks & -> & Hn & Hin & Hone).
  pose proof (rk_acc _ _ _ Hr) as (Hok & _). assert (Ew : whole <$> acc = (fun x => whole x.1) <$> starts acc) by (rewrite <- (starts_fst acc) at 1; by rewrite <- list_fmap_compose).
  assert (Hks : NoDup ks) by (by eapply NoDup_fmap_1). split.
  - rewrite Ew. apply fmap_submseteq, NoDup_submseteq; [done|]. intros [s st] Hs. apply starts_spec; [done|]. by apply Hin.
  - rewrite filter_starts, <- !list_fmap_compose, <- fmap_app. change (compose whole fst) with (fun x : AmSdu * Z => whole x.1).
    apply fmap_submseteq, NoDup_submseteq; [eapply NoDup_filter, NoDup_fmap_1, starts_NoDup, Hok|].
    intros [s st] Hs. apply list_elem_of_filter in Hs as [Hsingle Hs]. apply starts_spec in Hs; [|done]. apply elem_of_app. destruct (plan_entry u Hu acc _ _ _ Hok Hs) as (Hacc & _ & Hst & Hend & _).
    destruct (timed_or_got offer k acc n m st Hd) as [Htm|Hg]; [lia| |].
    + right. pose proof (wk_timer _ _ _ _ _ _ _ _ _ (tk_window _ _ _ _ _ _ _ Ht)) as Hm. apply timed_list in Htm as (x & Hx & E); [|done].
      apply list_elem_of_omap. exists x. by rewrite E.
    + left. by apply Hone.
Qed.
End LinkFacts.

(** Two nodes of the same configuration: size of PDUs, retransmissions, timeouts, windows,
    intervals of reports. *)
Definition new_link {A} {C : CArray AmPacket A} (u maxRtx pduT ctrlT bufT txW rxW ackI statusI : Z) : AmNode A * AmNode A :=
  let n := new_node (new_AmTxQueue u maxRtx pduT ctrlT bufT txW) (new_AmRxQueue rxW ackI statusI) in (n, n).

Section Main.
Context {A : Type} {C : CArray AmPacket A} {D : CArrayAdd AmPacket A}.
Context {L : CArrayLaws AmPacket A} {LD : CArrayAddLaws AmPacket A} `{SimTimeDbl}.

Lemma new_dir_ok u maxRtx pduT ctrlT bufT txW rxW ackI statusI : 0 <= maxRtx < 2 ^ 16 -> 0 < txW <= 200 -> 2 * txW <= rxW < 2 ^ 9 ->
  let n := new_node (A := A) (new_AmTxQueue u maxRtx pduT ctrlT bufT txW) (new_AmRxQueue rxW ackI statusI) in
  dir_ok u txW [] 0 [] n n.
Proof.
  intros Hmax HW HrW n. destruct (new_am_rx_ok u rxW ackI statusI) as [Hr Ho]; [lia|].
  split; cbn; try done.
  - apply new_am_tx_ok; try done.
  - rewrite !wrap_small by (unfold is_uint; lia). lia.
Qed.

(** C5. Two nodes exchange SDUs over channels that lose, repeat and overtake; no PDU is given
    up.  Then no operation fails, and in each direction: what has entered the transmitter's
    window is what its window has room for, in the order of the offers, an SDU that does not
    fit being lost (the ledger, from the offers and the moves of the window alone), and what
    still waits is the rest; each PDU of an SDU that entered has been received or is kept for
    its acknowledgement; each SDU that entered is delivered at most once and whole, and
    nothing else is; each of one PDU is delivered or its PDU waits for an acknowledgement.
    The receiver's window is at least twice the transmitter's, which is at most 200.  SDUs
    have a header, a direction and a number below 2^31, and their PDUs are fewer than
    2^31 - 2^10. *)
Theorem am_link u maxRtx pduT ctrlT bufT txW rxW ackI statusI evs :
  0 < u -> 0 <= maxRtx < 2 ^ 16 -> 0 < txW <= 200 -> 2 * txW <= rxW < 2 ^ 9 ->
  (forall b, offer_ok u [] (offered b evs)) -> vsize evs < 2 ^ 31 ->
  let start := new_link (A := A) u maxRtx pduT ctrlT bufT txW rxW ackI statusI in
  patient start evs = true ->
  exists l, link_run start evs = Ok l /\
    delivers u (offered true evs) (ledger u txW true start evs [] []) l.1 l.2 /\
    delivers u (offered false evs) (ledger u txW false start evs [] []) l.2 l.1.
Proof.
  intros Hu Hmax HW HrW Hoff Hlen start Hp. pose proof (new_dir_ok u maxRtx pduT ctrlT bufT txW rxW ackI statusI Hmax HW HrW) as Hd.
  destruct (link_run_ok u txW Hu evs [] [] 0 ([], []) ([], []) start) as (l & E & Hl & Hr); try done.
  exists l. split; [exact E|]. split; by eapply way_delivers.
Qed.
End Main.
