(* ===== verification/RlcAmDemo.v ===== *)
(** * RLC acknowledged mode: an array, runs and what goes wrong

    A concrete array, two nodes that exchange SDUs over a channel that loses, repeats and
    overtakes, and runs that show where the code loses SDUs or fails. *)

From stdpp Require Import list gmap sorting.
From S2P Require Import Prelude Doubles LteCommon TTimer RlcWindow RlcReorder RlcAm RlcAmFacts RlcAmRx RlcAmRxFacts RlcAmLink.
#[local] Open Scope Z_scope.

(** ** A concrete array *)

(** The first of the [n] positions from [i] on that is free. *)
Fixpoint first_free {X} (a : gmap Z X) (i : Z) (n : nat) : Z :=
  match n with
  | O => i
  | S n' => match a !! i with None => i | Some _ => first_free a (i + 1) n' end
  end.

#[export] Instance gmap_carray_add {X} : CArrayAdd X (gmap Z X) := {
  arr_add a x := <[first_free a 0 (size a) := x]> a;
  arr_size a := map_fold (fun i _ n => Z.max n (i + 1)) 0 a
}.

Lemma first_free_spec {X} (a : gmap Z X) i n : forall k, 0 <= k -> a !! i = None -> (forall j, k <= j < i -> a !! j <> None) ->
  k <= i <= k + Z.of_nat n -> first_free a k n = i.
Proof.
  induction n as [|n IH]; intros k Hk Hi Hall Hn; cbn; [lia|]. destruct (decide (k = i)) as [->|Hne]; [by rewrite Hi|].
  destruct (a !! k) eqn:E; [|exfalso; apply (Hall k); [lia|done]]. apply IH; [lia|done| |lia]. intros j Hj. apply Hall. lia.
Qed.

Lemma used_below {X} (a : gmap Z X) i : 0 <= i -> (forall j, 0 <= j < i -> a !! j <> None) -> i <= Z.of_nat (size a).
Proof.
  intros Hi Hall. assert (Hsub : (list_to_set (seqZ 0 i) : gset Z) ⊆ dom a).
  { intros j Hj. apply elem_of_list_to_set, elem_of_seqZ in Hj. apply elem_of_dom. specialize (Hall j). destruct (a !! j); [done|]. exfalso. apply Hall; [lia|done]. }
  apply subseteq_size in Hsub. rewrite size_list_to_set, length_seqZ, size_dom in Hsub by apply NoDup_seqZ. lia.
Qed.

#[export] Instance gmap_carray_add_laws {X} : CArrayAddLaws X (gmap Z X).
Proof.
  split.
  - intros a x i Hi Hfree Hall j. cbn in *. rewrite (first_free_spec a i); [|done|done|done|pose proof (used_below a i Hi Hall); lia].
    case_decide as Hj; [subst; apply lookup_insert_eq|by apply lookup_insert_ne].
  - intros a i Hi. cbn in *. revert Hi. apply (map_fold_weak_ind (fun n a => a !! i <> None -> i < n)); [by rewrite lookup_empty|].
    intros j x m n Hj IH. destruct (decide (j = i)) as [->|Hne]; [lia|]. rewrite lookup_insert_ne by done. intros Hs. specialize (IH Hs). lia.
Qed.

(** Picoseconds. *)
#[export] Instance pico_dbl : SimTimeDbl := fun t => fdiv (of_int t) (of_int (10 ^ 12)).

(** ** Two nodes *)

Abbreviation Queue := (gmap Z AmPacket).

Definition flow (dir : Direction) (sno : Z) : FlowControlInfo :=
  new_FlowControlInfo <| fi_sourceId := 1025 |> <| fi_destId := 1 |> <| fi_direction := dir |> <| fi_sequenceNumber := sno |>.
(** A packet of [bytes] bytes with its header. *)
Definition sdu (dir : Direction) (sno bytes : Z) : AmSdu := am_sdu sno bytes (flow dir sno).

Definition demo_link : AmNode Queue * AmNode Queue := new_link 20 3 100 100 50 8 16 10 30.

(** The UE sends an SDU of one PDU and one of three, the base station sends one. *)
Definition demo_events : list (bool * Z * am_event) :=
  [(true, 1, AmOffer (sdu UL 0 10)); (true, 1, AmOffer (sdu UL 1 50)); (false, 2, AmOffer (sdu DL 0 10));
   (true, 3, AmRequest 1000); (true, 3, AmRequest 1000); (true, 3, AmRequest 1000); (true, 3, AmRequest 1000); (false, 3, AmRequest 1000);
   (false, 5, AmArrive 3); (false, 5, AmArrive 1); (false, 6, AmArrive 1); (true, 6, AmArrive 0); (false, 7, AmArrive 0);
   (true, 101, AmPduTimer); (true, 101, AmPduTimer); (true, 101, AmPduTimer); (true, 101, AmPduTimer);
   (false, 110, AmReportTimer); (false, 111, AmRequest 1000); (true, 112, AmArrive 1);
   (true, 113, AmRequest 1000); (true, 113, AmRequest 1000); (true, 113, AmRequest 1000); (true, 113, AmRequest 1000); (true, 113, AmRequest 1000);
   (false, 115, AmArrive 6); (false, 116, AmArrive 8); (false, 117, AmRequest 1000); (true, 118, AmArrive 2); (true, 120, AmBufferTimer)].

(** The SDUs that PDCP has got at a node: sequence number, offset and length. *)
Definition delivered (n : AmNode Queue) : list (list (Z * Z * Z)) :=
  map (fun x : list slice * FlowControlInfo => map (fun y : slice => (as_sno y.1.1, y.1.2, y.2)) x.1) (nd_out n).

(** Both sides get what the other sent; one PDU still waits for its acknowledgement. *)
Example demo_delivered :
  (let! l := link_run demo_link demo_events in Ok (delivered l.1, delivered l.2, (directList_ (pduTimer_ (nd_tx l.1))).*2)) =
  Ok ([[(0, 2, 10)]], [[(0, 2, 10)]; [(1, 2, 50)]], [2]).
Proof. vm_compute. reflexivity. Qed.

Lemma demo_sdu dir sno bytes : dir = DL \/ dir = UL -> 0 <= sno < 2 ^ 31 -> 0 <= bytes -> sdu_ok (sdu dir sno bytes) /\ flow_ok (sdu dir sno bytes).
Proof.
  intros Hd Hs Hb. unfold sdu_ok, flow_ok, sdu, am_sdu. cbn. rewrite wrap_small by (unfold is_uint; lia). unfold RLC_HEADER_AM. split; [lia|by split].
Qed.

(** The transmitter takes both SDUs of the UE. *)
Lemma am_link_witness :
  patient demo_link demo_events = true /\
  ledger 20 8 true demo_link demo_events [] [] = ([sdu UL 0 10; sdu UL 1 50], []) /\
  exists l, link_run demo_link demo_events = Ok l /\
    delivers 20 (offered true demo_events) (ledger 20 8 true demo_link demo_events [] []) l.1 l.2 /\
    delivers 20 (offered false demo_events) (ledger 20 8 false demo_link demo_events [] []) l.2 l.1.
Proof.
  assert (Hp : patient demo_link demo_events = true) by (vm_compute; reflexivity). split; [exact Hp|]. split; [vm_compute; reflexivity|].
  apply (am_link 20 3 100 100 50 8 16 10 30 demo_events); [lia|lia|lia|lia| |vm_compute; reflexivity|exact Hp].
  intros b. assert (Hall : Forall (fun s => sdu_ok s /\ flow_ok s) (offered b demo_events)).
  { destruct b; cbn; repeat (apply Forall_cons; split; [apply demo_sdu; [auto|lia|lia]|]); by apply Forall_nil. }
  apply Forall_and in Hall as [H1 H2]. split; [exact H1|]. split; [exact H2|]. destruct b; vm_compute; reflexivity.
Defined.

(** ** What goes wrong *)

(** The MAC layer of the first node asks; PDU [k] arrives; the second node reports; it sends
    its [k]-th PDU, which arrives. *)
Definition send (NOW : Z) : list (bool * Z * am_event) := [(true, NOW, AmRequest 1000)].
Definition arrive (NOW : Z) (k : nat) : list (bool * Z * am_event) := [(false, NOW, AmArrive k)].
Definition report (NOW : Z) : list (bool * Z * am_event) := [(false, NOW, AmReportTimer)].
Definition answer (NOW : Z) (k : nat) : list (bool * Z * am_event) := [(false, NOW, AmRequest 1000); (true, NOW, AmArrive k)].

(** One SDU of three PDUs; the last two are late and come in order behind the command to move
    the window to the second. *)
Definition stuck_events : list (bool * Z * am_event) :=
  [(true, 1, AmOffer (sdu UL 0 50))] ++ send 1 ++ arrive 1 0 ++ report 31 ++ answer 32 0 ++ send 33 ++ send 33 ++ send 33 ++
  arrive 34 3 ++ answer 35 1 ++ arrive 36 1 ++ arrive 36 2 ++ report 66 ++ answer 67 2 ++ send 68 ++ arrive 68 4 ++ answer 69 3.

(** Windows of the same size; nothing is lost or overtaken. *)
Definition equal_link : AmNode Queue * AmNode Queue := new_link 20 3 100 100 50 4 4 10 30.
Definition equal_events : list (bool * Z * am_event) :=
  [(true, 1, AmOffer (sdu UL 0 10)); (true, 1, AmOffer (sdu UL 1 10)); (true, 1, AmOffer (sdu UL 2 10))] ++
  send 1 ++ arrive 1 0 ++ send 1 ++ arrive 1 1 ++ send 1 ++ arrive 1 2 ++ report 31 ++ answer 32 0 ++ send 33 ++ arrive 33 3 ++ answer 34 1 ++
  [(true, 41, AmOffer (sdu UL 3 10)); (true, 41, AmOffer (sdu UL 4 10))] ++ send 41 ++ arrive 41 4 ++ send 41 ++ arrive 41 5.

(** All copies of the first PDU are lost; the command to move the window comes through. *)
Definition lost_events : list (bool * Z * am_event) :=
  [(true, 1, AmOffer (sdu UL 0 10))] ++ send 1 ++ [(true, 101, AmPduTimer)] ++ send 102 ++ [(true, 201, AmPduTimer)] ++ send 202 ++
  [(true, 301, AmPduTimer)] ++ send 302 ++ [(true, 401, AmPduTimer)] ++ send 402 ++ arrive 402 4.

(** Two PDUs of the first SDU are lost and given up; the window then begins inside the
    second. *)
Definition given_up_link : AmNode Queue * AmNode Queue := new_link 20 0 100 100 50 8 16 10 30.
Definition stale_events : list (bool * Z * am_event) :=
  [(true, 1, AmOffer (sdu UL 0 50))] ++ send 1 ++ arrive 1 0 ++ report 31 ++ answer 32 0 ++ send 33 ++ send 33 ++ send 34 ++
  [(true, 90, AmOffer (sdu UL 1 50)); (true, 101, AmPduTimer)] ++ send 102 ++ send 102 ++ send 102 ++ send 103 ++ arrive 103 7 ++ answer 104 1 ++
  arrive 105 4 ++ report 135 ++ answer 136 2 ++ answer 136 3 ++ send 137 ++ arrive 137 8 ++ answer 137 4 ++ arrive 138 6 ++ arrive 138 5.

(** What [am_link] asks for is needed, and what it does not promise does not hold.  An SDU of
    several PDUs may be acknowledged in full and never be delivered: the search for its first
    PDU ends where the window begins. *)
Example stuck_sdu :
  patient demo_link stuck_events = true /\ offered true stuck_events = [sdu UL 0 50] /\
  (let! l := link_run demo_link stuck_events in
   Ok (delivered l.2, tx_first (nd_tx l.1), tx_seq (nd_tx l.1), directList_ (pduTimer_ (nd_tx l.1)))) = Ok ([], 3, 3, []).
Proof. vm_compute. split_and!; reflexivity. Qed.

(** With windows of one size (the defaults are 200 and 200) a link that loses nothing fails: a
    window that moves by more than a half leaves flags of received PDUs behind. *)
Example equal_windows_fail :
  patient equal_link equal_events = true /\ link_run equal_link equal_events = Throw "check_and_cast(): Cannot cast nullptr".
Proof. vm_compute. split; reflexivity. Qed.

(** When all copies of the first PDU are lost the command to move the window makes the
    receiver read a null pointer. *)
Example lost_first_pdu_fails : link_run demo_link lost_events = UB.
Proof. vm_compute. reflexivity. Qed.

(** When PDUs of an SDU are given up, what came of it makes a later SDU fail. *)
Example given_up_sdu_fails :
  link_run given_up_link stale_events = Throw "AmRxQueue::passUp(): fragment buffer has fragments for another SDU".
Proof. vm_compute. reflexivity. Qed.

(** ** An SDU that does not fit *)

Section Dropped.
Context {A : Type} {C : CArray AmPacket A} {D : CArrayAdd AmPacket A}.
Context {L : CArrayLaws AmPacket A} {LD : CArrayAddLaws AmPacket A}.
Variables (u : Z) (got : Z -> Prop) (low : Z) (other : AmPacket -> Prop).
Context (Hu : 0 < u).

(** C37. An SDU that comes when none waits and whose PDUs do not all fit into the rest of the
    window, with one position to spare, is lost: the queue is as it was before, and no
    effect is asked for.  In particular an SDU of as many PDUs as the window is never sent. *)
Theorem am_sdu_dropped limit acc (t : AmTxQueue A) NOW s : tx_ok u got low other limit acc t -> sdu_ok s -> amSduQueue_ t = [] ->
  in_window (txWindowDesc_ t) < tx_size t -> limit + nfrags u s < sn_bound -> tx_first t + tx_size t <= tx_seq t + nfrags u s ->
  am_enque t NOW s = Ok (t, []).
Proof.
  intros Ht Hs Hq Hroom Hlim Hfull. pose proof (nfrags_spec u Hu s Hs) as [Hn _]. unfold am_enque.
  assert (Ht1 : tx_ok u got low other (limit + nfrags u s) acc (t <| amSduQueue_ := [s] |>)).
  { destruct Ht as [R Hun Hseq Hw Hm Hqu Hl Hinfo Hbuf Hbelow Hmax Hlow]. split; try done; [by constructor|].
    change (total_frags u acc + (nfrags u s + 0) <= limit + nfrags u s < sn_bound). pose proof (total_frags_nonneg u Hu _ Hqu). lia. }
  rewrite Hq. cbn [app]. destruct (take_lost u got low other Hu (limit + nfrags u s) acc (t <| amSduQueue_ := [s] |>) s [] Ht1 eq_refl Hfull) as [E _].
  pose proof (tk_rest _ _ _ _ _ _ _ Ht1) as (R1 & R2 & R3). cbn in R1, R2, R3. set (t1 := t <| amSduQueue_ := [s] |>) in *.
  change (currentSdu_ t1) with (currentSdu_ t). rewrite R1. change (txWindowDesc_ t1) with (txWindowDesc_ t). rewrite (proj2 (Z.ltb_lt _ _)) by done.
  unfold addPdus. assert (Et : t1 <| amSduQueue_ := [] |> = t) by (destruct t; cbn in *; by subst).
  assert (El : add_loop (Z.to_nat (tx_size t1)) t1 NOW = Ok (t, [])); [|rewrite El; cbn [rbind]; by rewrite R2, R3].
  assert (Ef : fragmentList_ t1 = None) by exact R2. destruct (Z.to_nat (tx_size t1)); cbn [add_loop]; change (txWindowDesc_ t1) with (txWindowDesc_ t);
    rewrite (proj2 (Z.ltb_lt _ _)) by done; unfold no_data; change (currentSdu_ t1) with (currentSdu_ t); rewrite R1; cbn [negb orb amSduQueue_];
    rewrite E; cbn [rbind]; by rewrite Et, R2.
Qed.
End Dropped.

(** A window of 8 and an SDU of 8 PDUs. *)
Lemma am_sdu_dropped_witness :
  let t := new_AmTxQueue (A := Queue) 20 3 100 100 50 8 in nfrags 20 (sdu UL 0 158) = 8 /\ am_enque t 1 (sdu UL 0 158) = Ok (t, []).
Proof.
  split; [vm_compute; reflexivity|].
  apply (am_sdu_dropped 20 (fun _ => False) 0 (fun _ => False) ltac:(lia) 0 []); [|apply demo_sdu; [auto|lia|lia]|reflexivity|vm_compute; reflexivity|vm_compute; reflexivity|vm_compute; discriminate].
  apply new_am_tx_ok; vm_compute; try discriminate; split; try discriminate; reflexivity.
Defined.
