(* ===== verification/RlcUmLayer.v ===== *)
(** * RLC unacknowledged mode: the layer

    [LteRlcUm] (src/simulte/src/stack/rlc/um/LteRlcUm.cc): the tables of transmitting
    and receiving entities, one per connection identifier, created when first needed,
    and the packets it routes to them.  Entities are those of RlcUm.v and RlcWindow.v;
    an entity is kept with the control information of the packet that created it, which
    its PDUs carry. *)

From S2P Require Import Prelude.
From S2P Require Import Family.
From S2P Require Import LteCommon.
From S2P Require Import TTimer.
From S2P Require Import RlcUm.
From S2P Require Import RlcUmProps.
From S2P Require Import RlcWindow.
From S2P Require Import RlcWindowProps.
From S2P Require Import RlcReorder.
From S2P Require Import RlcEndToEnd.
#[local] Open Scope Z_scope.

Section Layer.
Context {A : Type} {C : CArray UmPdu A}.

(** The tables; the parameters [mapAllLcidsToSingleBearer], [queueSize], [rxWindowSize]
    and [timeout]; [atEnb] is [nodeType == "ENODEB"]. *)
Record LteRlcUm := {
  mapAllLcidsToSingleBearer_ : bool;
  atEnb : bool;
  par_queueSize : Z;
  par_rxWindowSize : Z;
  par_timeout : Z;
  txEntities_ : gmap Z (UmTxEntity * FlowControlInfo);
  rxEntities_ : gmap Z (UmRxEntity A * FlowControlInfo)
}.

#[export] Instance rlcum_eta : Eta LteRlcUm := fun s =>
  {| mapAllLcidsToSingleBearer_ := mapAllLcidsToSingleBearer_ s; atEnb := atEnb s;
     par_queueSize := par_queueSize s; par_rxWindowSize := par_rxWindowSize s;
     par_timeout := par_timeout s; txEntities_ := txEntities_ s; rxEntities_ := rxEntities_ s |}.

(** What leaves the layer, with the connection it comes from: the packets of a
    transmitting entity with their tag, and the effects of a receiving entity. *)
Inductive rlc_effect :=
| RlcDown (tag : FlowControlInfo) (e : umtx_effect)
| RlcUp (e : umrx_effect).

(** The SDU made of a packet of [bytes] bytes: an [LteRlcSdu] of one byte in front. *)
Definition rlc_sdu (ptr bytes : Z) (info : FlowControlInfo) : RlcSdu :=
  {| sdu_ptr := ptr; snoMainPacket := fi_sequenceNumber info; lengthMainPacket := uint32 bytes;
     sdu_bytes := bytes + 1 |}.

Definition tx_cid (s : LteRlcUm) (info : FlowControlInfo) : result Z :=
  let! nodeId := ctrlInfoToUeId info in
  let lcid := if mapAllLcidsToSingleBearer_ s then 1 else fi_lcid info in
  Ok (idToMacCid nodeId lcid).

Definition put_tx (s : LteRlcUm) (cid : Z) (t : UmTxEntity) (flow : FlowControlInfo) : LteRlcUm :=
  s <| txEntities_ := <[cid := (t, flow)]> (txEntities_ s) |>.

Definition getTxBuffer (s : LteRlcUm) (info : FlowControlInfo)
    : result (Z * UmTxEntity * FlowControlInfo * LteRlcUm) :=
  let! cid := tx_cid s info in
  match txEntities_ s !! cid with
  | Some (t, flow) => Ok (cid, t, flow, s)
  | None =>
      let t := new_UmTxEntity (par_queueSize s) in
      Ok (cid, t, info, put_tx s cid t info)
  end.

Definition rx_cid (info : FlowControlInfo) : Z :=
  let nodeId := if bool_decide (fi_direction info = DL) then fi_destId info else fi_sourceId info in
  idToMacCid nodeId (fi_lcid info).

Definition put_rx (s : LteRlcUm) (cid : Z) (e : UmRxEntity A) (flow : FlowControlInfo) : LteRlcUm :=
  s <| rxEntities_ := <[cid := (e, flow)]> (rxEntities_ s) |>.

Definition new_rx (s : LteRlcUm) (info : FlowControlInfo) : UmRxEntity A :=
  new_UmRxEntity (par_rxWindowSize s) (par_timeout s) (bool_decide (fi_direction info = D2D_MULTI))
    (negb (atEnb s)).

Definition getRxBuffer (s : LteRlcUm) (info : FlowControlInfo)
    : Z * UmRxEntity A * FlowControlInfo * LteRlcUm :=
  let cid := rx_cid info in
  match rxEntities_ s !! cid with
  | Some (e, flow) => (cid, e, flow, s)
  | None => (cid, new_rx s info, info, put_rx s cid (new_rx s info) info)
  end.

(** New data is announced with the tag of its packet, all else carries the entity's. *)
Definition down (info flow : FlowControlInfo) (e : umtx_effect) : rlc_effect :=
  match e with
  | NotifyNewData _ | DropOverflow _ => RlcDown info e
  | SendPdu _ | SendNoData | ResumeDownstream => RlcDown flow e
  end.

Definition rlc_handleUpperMessage (s : LteRlcUm) (info : FlowControlInfo) (sdu : RlcSdu)
    : result (LteRlcUm * list (Z * rlc_effect)) :=
  let! (cid, txbuf, flow, s) := getTxBuffer s info in
  let (txbuf, eff) := handleUpperMessage txbuf sdu in
  Ok (put_tx s cid txbuf flow, map (fun e => (cid, down info flow e)) eff).

(** [handleLowerMessage]: a request of the MAC for [size] bytes. *)
Definition rlc_handleSduRequest (s : LteRlcUm) (info : FlowControlInfo) (size : Z)
    : result (LteRlcUm * list (Z * rlc_effect)) :=
  let! (cid, txbuf, flow, s) := getTxBuffer s info in
  let! (txbuf, eff) := rlcPduMake txbuf size in
  Ok (put_tx s cid txbuf flow, map (fun e => (cid, down info flow e)) eff).

(** [handleLowerMessage]: a PDU. *)
Definition rlc_handlePdu (s : LteRlcUm) (NOW : Z) (info : FlowControlInfo) (pdu : UmPdu)
    : result (LteRlcUm * list (Z * rlc_effect)) :=
  let '(cid, rxbuf, flow, s) := getRxBuffer s info in
  let! (rxbuf, eff) := enque rxbuf NOW pdu in
  Ok (put_rx s cid rxbuf flow, map (fun e => (cid, RlcUp e)) eff).

(** The message of the reordering timer of the entity of [cid]. *)
Definition rlc_timer (s : LteRlcUm) (NOW cid : Z) : result (LteRlcUm * list (Z * rlc_effect)) :=
  match rxEntities_ s !! cid with
  | None => Ok (s, [])
  | Some (e, flow) =>
      let! (e, eff) := rx_step e (RxTimer NOW) in
      Ok (put_rx s cid e flow, map (fun e => (cid, RlcUp e)) eff)
  end.

(** [deleteQueues]: at a UE all entities, at a base station those of [nodeId]. *)
Definition keep_entity {X} (s : LteRlcUm) (nodeId : Z) (m : gmap Z X) : gmap Z X :=
  filter (fun p => negb (negb (atEnb s) || (MacCidToNodeId p.1 =? nodeId)) = true) m.

Definition rlc_deleteQueues (s : LteRlcUm) (nodeId : Z) : LteRlcUm :=
  s <| txEntities_ := keep_entity s nodeId (txEntities_ s) |>
    <| rxEntities_ := keep_entity s nodeId (rxEntities_ s) |>.

(** [initialize]. *)
Definition new_LteRlcUm (single enb : bool) (queueSize rxWindowSize timeout : Z) : LteRlcUm :=
  {| mapAllLcidsToSingleBearer_ := single; atEnb := enb; par_queueSize := queueSize;
     par_rxWindowSize := rxWindowSize; par_timeout := timeout; txEntities_ := ∅; rxEntities_ := ∅ |}.

(** ** Events *)

Inductive rlc_event :=
| UpperPacket (info : FlowControlInfo) (sdu : RlcSdu)
| MacRequest (info : FlowControlInfo) (size : Z).

Definition rlc_down_step (s : LteRlcUm) (ev : rlc_event) : result (LteRlcUm * list (Z * rlc_effect)) :=
  match ev with
  | UpperPacket info sdu => rlc_handleUpperMessage s info sdu
  | MacRequest info size => rlc_handleSduRequest s info size
  end.

Inductive rlc_arrival :=
| PduArrival (NOW : Z) (info : FlowControlInfo) (pdu : UmPdu)
| TimerExpiry (NOW cid : Z).

Definition rlc_up_step (s : LteRlcUm) (ev : rlc_arrival) : result (LteRlcUm * list (Z * rlc_effect)) :=
  match ev with
  | PduArrival NOW info pdu => rlc_handlePdu s NOW info pdu
  | TimerExpiry NOW cid => rlc_timer s NOW cid
  end.
End Layer.

Arguments LteRlcUm A : clear implicits.

(** ** RLC unacknowledged mode: connections do not disturb each other

    The layer is a family of transmitting and a family of receiving entities; so what
    holds of one connection between two entities holds of all connections between two
    layers. *)

#[local] Open Scope Z_scope.

(** ** Cellular traffic *)

(** Between a UE and its base station both ends use the same connection identifier. *)
Definition cellular (info : FlowControlInfo) : Prop := fi_direction info = UL \/ fi_direction info = DL.

(** ** The transmitting side *)

Inductive tx_event := TxSdu (sdu : RlcSdu) | TxGrant (size : Z).

Definition tx_step (t : UmTxEntity) (ev : tx_event) : result (UmTxEntity * list umtx_effect) :=
  match ev with
  | TxSdu sdu => Ok (handleUpperMessage t sdu)
  | TxGrant size => rlcPduMake t size
  end.

Definition um_of (ev : tx_event) : um_event :=
  match ev with TxSdu sdu => EvSdu sdu | TxGrant n => EvGrant n false end.

Definition pdus (out : list umtx_effect) : list UmPdu :=
  omap (fun e => match e with SendPdu pdu => Some pdu | _ => None end) out.

Lemma make_holding t n t' effs :
  rlcPduMake t n = Ok (t', effs) ->
  holdingDownstreamInPackets_ t' = holdingDownstreamInPackets_ t /\ pdus effs = option_list (pdu_of effs).
Proof.
  unfold rlcPduMake. intros (f & _ & H)%rbind_Ok_inv. cbn zeta in H.
  destruct (f_len f =? 0); destruct (_ && _); injection H as <- <-; by split.
Qed.

(** One entity, as long as nothing makes it hold packets back. *)
Lemma tx_machine t evs t' out :
  holdingDownstreamInPackets_ t = false -> um_pdus t (map um_of evs) = Ok (t', out) ->
  exists effs, run_machine tx_step t evs = Ok (t', effs) /\ pdus effs = out.
Proof.
  revert t out. induction evs as [|[s|n] evs IH]; intros t out Hh Hrun; cbn in Hrun.
  - injection Hrun as <- <-. by exists [].
  - assert (Hh' : holdingDownstreamInPackets_ (tx_enque t s).2 = false) by (unfold tx_enque; by destruct (_ || _)).
    destruct (IH _ _ Hh' Hrun) as (effs & Hr & Hp).
    cbn [run_machine tx_step]. unfold handleUpperMessage. rewrite Hh.
    destruct (tx_enque t s) as [ok t1]; cbn [snd] in *.
    destruct ok; cbn [rbind]; rewrite Hr; by eexists.
  - apply rbind_Ok_inv in Hrun as ([t1 e1] & Hm & Hrun).
    apply rbind_Ok_inv in Hrun as ([t2 p2] & Hr & Hrun). injection Hrun as -> <-.
    destruct (make_holding _ _ _ _ Hm) as [Hh1 Hp1].
    destruct (IH t1 p2) as (effs & Hr2 & Hp); [congruence|done|].
    cbn [run_machine tx_step]. rewrite Hm. cbn [rbind]. rewrite Hr2. cbn [rbind].
    exists (e1 ++ effs). split; [done|]. unfold pdus in *. by rewrite omap_app, Hp1, Hp.
Qed.

Section Layer.
Context {A : Type} {C : CArray UmPdu A} {L : CArrayLaws UmPdu A}.
Implicit Types (s r : LteRlcUm A).

(** Entities of cellular connections, in the tables under their identifiers. *)
Record tx_inv (q : Z) s : Prop := {
  ti_single : mapAllLcidsToSingleBearer_ s = false;
  ti_queue : par_queueSize s = q;
  ti_flow cid t flow : txEntities_ s !! cid = Some (t, flow) -> cellular flow /\ rx_cid flow = cid
}.

Lemma tx_cid_cellular s info :
  mapAllLcidsToSingleBearer_ s = false -> cellular info -> tx_cid s info = Ok (rx_cid info).
Proof.
  intros Hs Hc. unfold tx_cid, ctrlInfoToUeId, rx_cid. rewrite Hs.
  destruct Hc as [-> | ->]; done.
Qed.

Definition tx_info (ev : rlc_event) : FlowControlInfo :=
  match ev with UpperPacket info _ | MacRequest info _ => info end.
Definition tx_route (ev : rlc_event) : Z * tx_event :=
  (rx_cid (tx_info ev), match ev with UpperPacket _ sdu => TxSdu sdu | MacRequest _ size => TxGrant size end).

Definition tx_family s : gmap Z UmTxEntity := fst <$> txEntities_ s.

(** The layer without the tags of its packets. *)
Definition untagged (p : Z * rlc_effect) : option (Z * umtx_effect) :=
  match p.2 with RlcDown _ e => Some (p.1, e) | RlcUp _ => None end.
Definition tx_fstep s (ev : rlc_event) : result (LteRlcUm A * list (Z * umtx_effect)) :=
  let! (s, out) := rlc_down_step s ev in Ok (s, omap untagged out).

Lemma untagged_down info flow cid effs :
  omap untagged (map (fun e => (cid, down info flow e)) effs) = map (pair cid) effs.
Proof. induction effs as [|e effs IH]; [done|]. cbn. rewrite IH. by destruct e. Qed.

(** The entity a packet is routed to, present or new. *)
Lemma getTxBuffer_spec q s info :
  tx_inv q s -> cellular info ->
  exists flow s1, getTxBuffer s info = Ok (rx_cid info, machine (new_UmTxEntity q) (tx_family s) (rx_cid info), flow, s1) /\
    tx_inv q s1 /\ cellular flow /\ rx_cid flow = rx_cid info /\
    forall c, c <> rx_cid info -> txEntities_ s1 !! c = txEntities_ s !! c.
Proof.
  intros Hi Hc. unfold getTxBuffer. rewrite tx_cid_cellular by (done || apply Hi). cbn [rbind].
  unfold machine, tx_family. rewrite lookup_fmap.
  destruct (txEntities_ s !! rx_cid info) as [[t flow]|] eqn:E; cbn.
  - exists flow, s. split; [done|]. split; [done|]. destruct (ti_flow _ _ Hi _ _ _ E). by repeat (split; [done|]).
  - rewrite (ti_queue _ _ Hi). exists info, (put_tx s (rx_cid info) (new_UmTxEntity q) info).
    split; [done|]. split; [|split; [done|split; [done|]]].
    + destruct Hi as [H1 H2 H3]. split; [done|done|]. intros cid t flow.
      cbn. intros [[<- [= <- <-]]|[_ ?]]%lookup_insert_Some; [done|by eapply H3].
    + intros c Hne. cbn. by rewrite lookup_insert_ne.
Qed.

Lemma put_tx_spec q s s1 cid t flow :
  tx_inv q s1 -> cellular flow -> rx_cid flow = cid ->
  (forall c, c <> cid -> txEntities_ s1 !! c = txEntities_ s !! c) ->
  tx_inv q (put_tx s1 cid t flow) /\
  machine_set (new_UmTxEntity q) (tx_family s) (tx_family (put_tx s1 cid t flow)) cid t.
Proof.
  intros Hi Hf Hc Ho. split.
  - destruct Hi as [H1 H2 H3]. split; [done|done|]. intros c t' flow'. cbn.
    intros [[<- [= <- <-]]|[_ ?]]%lookup_insert_Some; [done|by eapply H3].
  - unfold machine_set, machine, tx_family. cbn. split.
    + by rewrite lookup_fmap, lookup_insert_eq.
    + intros c Hne. by rewrite !lookup_fmap, lookup_insert_ne, Ho.
Qed.

(** What leaves carries the identifier of its connection. *)
Definition tagged (p : Z * rlc_effect) : Prop :=
  match p.2 with RlcDown tag (SendPdu _) => cellular tag /\ rx_cid tag = p.1 | _ => True end.

Lemma down_tagged cid info flow effs :
  cellular flow -> rx_cid flow = cid -> Forall tagged (map (fun e => (cid, down info flow e)) effs).
Proof.
  intros Hf Hc. apply Forall_forall. intros p Hp. apply list_elem_of_fmap in Hp as (e & -> & _).
  unfold tagged. by destruct e.
Qed.

Lemma tx_routed q s ev t' out :
  tx_inv q s -> cellular (tx_info ev) ->
  tx_step (machine (new_UmTxEntity q) (tx_family s) (tx_route ev).1) (tx_route ev).2 = Ok (t', out) ->
  exists s' effs, rlc_down_step s ev = Ok (s', effs) /\ omap untagged effs = map (pair (tx_route ev).1) out /\
    Forall tagged effs /\ tx_inv q s' /\
    machine_set (new_UmTxEntity q) (tx_family s) (tx_family s') (tx_route ev).1 t'.
Proof.
  intros Hi Hc Hstep. destruct (getTxBuffer_spec q s (tx_info ev) Hi Hc) as (flow & s1 & Hget & Hi1 & Hf & Hr & Ho).
  destruct (put_tx_spec q s s1 (rx_cid (tx_info ev)) t' flow Hi1 Hf Hr Ho) as [Hi2 Hset].
  exists (put_tx s1 (rx_cid (tx_info ev)) t' flow), (map (fun e => (rx_cid (tx_info ev), down (tx_info ev) flow e)) out).
  split; [|split; [apply untagged_down|split; [by apply down_tagged|done]]].
  destruct ev as [info sdu|info size]; cbn [tx_route tx_info fst snd tx_step] in *; cbn [rlc_down_step].
  - injection Hstep as Hstep. unfold rlc_handleUpperMessage. rewrite Hget. cbn [rbind]. by rewrite Hstep.
  - unfold rlc_handleSduRequest. rewrite Hget. cbn [rbind]. rewrite Hstep. done.
Qed.

Lemma down_step_tagged q s ev s' effs :
  tx_inv q s -> cellular (tx_info ev) -> rlc_down_step s ev = Ok (s', effs) ->
  tx_inv q s' /\ Forall tagged effs.
Proof.
  intros Hi Hc Hrun. destruct (getTxBuffer_spec q s (tx_info ev) Hi Hc) as (flow & s1 & Hget & Hi1 & Hf & Hr & Ho).
  assert (Hput : forall t, tx_inv q (put_tx s1 (rx_cid (tx_info ev)) t flow)).
  { intros t. by destruct (put_tx_spec q s s1 (rx_cid (tx_info ev)) t flow Hi1 Hf Hr Ho). }
  destruct ev as [info sdu|info size]; cbn [tx_info rlc_down_step] in *.
  - unfold rlc_handleUpperMessage in Hrun. rewrite Hget in Hrun. cbn [rbind] in Hrun.
    destruct (handleUpperMessage _ _) as [t eff]. injection Hrun as <- <-. split; [done|by apply down_tagged].
  - unfold rlc_handleSduRequest in Hrun. rewrite Hget in Hrun. cbn [rbind] in Hrun.
    apply rbind_Ok_inv in Hrun as ([t eff] & _ & [= <- <-]). split; [done|by apply down_tagged].
Qed.

Lemma down_run_tagged q s evs s' effs :
  tx_inv q s -> Forall (fun ev => cellular (tx_info ev)) evs ->
  run_family rlc_down_step s evs = Ok (s', effs) -> Forall tagged effs.
Proof.
  revert s effs. induction evs as [|ev evs IH]; intros s effs Hi Hc Hrun; cbn [run_family] in Hrun.
  - injection Hrun as _ <-. constructor.
  - apply Forall_cons in Hc as [Hc Hcs].
    apply rbind_Ok_inv in Hrun as ([s1 e1] & Hs & Hrun). apply rbind_Ok_inv in Hrun as ([s2 e2] & Hr & [= -> <-]).
    destruct (down_step_tagged q s ev s1 e1 Hi Hc Hs) as [Hi1 Ht]. apply Forall_app. split; [done|].
    by apply (IH s1).
Qed.

Lemma untagged_run s evs s' o :
  run_family tx_fstep s evs = Ok (s', o) ->
  exists effs, run_family rlc_down_step s evs = Ok (s', effs) /\ omap untagged effs = o.
Proof.
  revert s o. induction evs as [|ev evs IH]; intros s o Hrun; cbn [run_family] in Hrun |- *.
  - injection Hrun as <- <-. by exists [].
  - apply rbind_Ok_inv in Hrun as ([s1 o1] & Hs & Hrun). apply rbind_Ok_inv in Hrun as ([s2 o2] & Hr & [= <- <-]).
    unfold tx_fstep in Hs. apply rbind_Ok_inv in Hs as ([s1' e1] & -> & [= -> <-]). cbn [rbind].
    destruct (IH _ _ Hr) as (e2 & -> & <-). cbn [rbind]. exists (e1 ++ e2). split; [done|]. apply omap_app.
Qed.

(** The layer runs when each connection does, and each connection as if alone. *)
Lemma rlc_down_runs q s evs :
  tx_inv q s -> Forall (fun ev => cellular (tx_info ev)) evs ->
  (forall c, exists res, run_machine tx_step (machine (new_UmTxEntity q) (tx_family s) c)
                         (at_id c (map tx_route evs)) = Ok res) ->
  exists s' effs, run_family rlc_down_step s evs = Ok (s', effs) /\ Forall tagged effs /\
    forall c, run_machine tx_step (machine (new_UmTxEntity q) (tx_family s) c) (at_id c (map tx_route evs)) =
              Ok (machine (new_UmTxEntity q) (tx_family s') c, at_id c (omap untagged effs)).
Proof.
  intros Hi Hc Hall.
  destruct (family_runs tx_step (new_UmTxEntity q) tx_fstep tx_family tx_route (tx_inv q)
    (fun ev => cellular (tx_info ev))) with (t := s) (fs := evs) as (s' & o & Hrun & _ & Hm); [|exact Hi|exact Hc|exact Hall|].
  - intros s0 ev t' out Hi0 Hc0 Hstep.
    destruct (tx_routed q s0 ev t' out Hi0 Hc0 Hstep) as (s' & effs & Hd & Hu & _ & Hi' & Hset).
    exists s'. unfold tx_fstep. rewrite Hd. cbn [rbind]. by rewrite Hu.
  - destruct (untagged_run _ _ _ _ Hrun) as (effs & Hr & <-). exists s', effs. split; [done|].
    split; [by eapply down_run_tagged|done].
Qed.

(** ** The receiving side *)

Record rx_inv (w timeout : Z) (enb : bool) r : Prop := {
  ri_window : par_rxWindowSize r = w;
  ri_timeout : par_timeout r = timeout;
  ri_enb : atEnb r = enb
}.

Definition cell_arrival (ev : rlc_arrival) : Prop :=
  match ev with PduArrival _ info _ => cellular info | TimerExpiry _ _ => True end.

Definition rx_route (ev : rlc_arrival) : Z * rx_event :=
  match ev with
  | PduArrival NOW info pdu => (rx_cid info, RxPdu NOW pdu)
  | TimerExpiry NOW cid => (cid, RxTimer NOW)
  end.

Definition rx_family r : gmap Z (UmRxEntity A) := fst <$> rxEntities_ r.

Definition up_part (p : Z * rlc_effect) : option (Z * umrx_effect) :=
  match p.2 with RlcUp e => Some (p.1, e) | RlcDown _ _ => None end.
Definition rx_fstep r (ev : rlc_arrival) : result (LteRlcUm A * list (Z * umrx_effect)) :=
  let! (r, out) := rlc_up_step r ev in Ok (r, omap up_part out).

Lemma up_part_map cid effs : omap up_part (map (fun e => (cid, RlcUp e)) effs) = map (pair cid) effs.
Proof. induction effs as [|e effs IH]; [done|]. cbn. by rewrite IH. Qed.

Abbreviation fresh_rx w timeout enb := (new_UmRxEntity (A := A) w timeout false (negb enb)).

Lemma put_rx_set w timeout enb r r1 cid e flow :
  rx_inv w timeout enb r1 -> (forall c, c <> cid -> rxEntities_ r1 !! c = rxEntities_ r !! c) ->
  rx_inv w timeout enb (put_rx r1 cid e flow) /\
  machine_set (fresh_rx w timeout enb) (rx_family r) (rx_family (put_rx r1 cid e flow)) cid e.
Proof.
  intros [H1 H2 H3] Ho. split; [by split|]. unfold machine_set, machine, rx_family. cbn. split.
  - by rewrite lookup_fmap, lookup_insert_eq.
  - intros c Hne. by rewrite !lookup_fmap, lookup_insert_ne, Ho.
Qed.

Lemma rx_routed w timeout enb r ev e' out :
  rx_inv w timeout enb r -> cell_arrival ev ->
  rx_step (machine (fresh_rx w timeout enb) (rx_family r) (rx_route ev).1) (rx_route ev).2 = Ok (e', out) ->
  exists r', rx_fstep r ev = Ok (r', map (pair (rx_route ev).1) out) /\ rx_inv w timeout enb r' /\
    machine_set (fresh_rx w timeout enb) (rx_family r) (rx_family r') (rx_route ev).1 e'.
Proof.
  intros Hi Hc Hstep. unfold rx_fstep. destruct ev as [NOW info pdu|NOW cid]; cbn [rx_route fst snd rlc_up_step] in *.
  - unfold rlc_handlePdu, getRxBuffer. unfold machine, rx_family in Hstep. rewrite lookup_fmap in Hstep.
    cbn [rx_step] in Hstep. destruct (rxEntities_ r !! rx_cid info) as [[e flow]|] eqn:E; cbn in Hstep.
    + rewrite Hstep. cbn [rbind]. rewrite up_part_map. eexists. split; [done|]. by apply put_rx_set.
    + assert (new_rx r info = fresh_rx w timeout enb) as En.
      { unfold new_rx. destruct Hi as [-> -> ->]. by rewrite bool_decide_eq_false_2 by (by destruct Hc as [-> | ->]). }
      rewrite En, Hstep. cbn [rbind]. rewrite up_part_map. eexists. split; [done|].
      apply put_rx_set; [by destruct Hi|]. intros c Hne. cbn. by rewrite lookup_insert_ne.
  - unfold rlc_timer. unfold machine, rx_family in Hstep. rewrite lookup_fmap in Hstep.
    destruct (rxEntities_ r !! cid) as [[e flow]|] eqn:E.
    + change (rx_step e (RxTimer NOW) = Ok (e', out)) in Hstep. rewrite Hstep. cbn [rbind]. rewrite up_part_map. eexists. split; [done|]. by apply put_rx_set.
    + injection Hstep as <- <-. cbn. exists r. split; [done|]. split; [done|].
      unfold machine_set, machine, rx_family. by rewrite lookup_fmap, E.
Qed.

Lemma up_part_run r evs r' o :
  run_family rx_fstep r evs = Ok (r', o) ->
  exists effs, run_family rlc_up_step r evs = Ok (r', effs) /\ omap up_part effs = o.
Proof.
  revert r o. induction evs as [|ev evs IH]; intros r o Hrun; cbn [run_family] in Hrun |- *.
  - injection Hrun as <- <-. by exists [].
  - apply rbind_Ok_inv in Hrun as ([r1 o1] & Hs & Hrun). apply rbind_Ok_inv in Hrun as ([r2 o2] & Hr & [= <- <-]).
    unfold rx_fstep in Hs. apply rbind_Ok_inv in Hs as ([r1' e1] & -> & [= -> <-]). cbn [rbind].
    destruct (IH _ _ Hr) as (e2 & -> & <-). cbn [rbind]. exists (e1 ++ e2). split; [done|]. apply omap_app.
Qed.

Lemma run_machine_rx e evs : run_machine rx_step e evs = rx_run e evs.
Proof. revert e. induction evs as [|ev evs IH]; intros e; [done|]. cbn. destruct (rx_step e ev) as [[]| |]; [|done..]. cbn. by rewrite IH. Qed.

Lemma rlc_up_runs w timeout enb r evs :
  rx_inv w timeout enb r -> Forall cell_arrival evs ->
  (forall c, exists res, rx_run (machine (fresh_rx w timeout enb) (rx_family r) c) (at_id c (map rx_route evs)) = Ok res) ->
  exists r' effs, run_family rlc_up_step r evs = Ok (r', effs) /\
    forall c, rx_run (machine (fresh_rx w timeout enb) (rx_family r) c) (at_id c (map rx_route evs)) =
              Ok (machine (fresh_rx w timeout enb) (rx_family r') c, at_id c (omap up_part effs)).
Proof.
  intros Hi Hc Hall.
  destruct (family_runs rx_step (fresh_rx w timeout enb) rx_fstep rx_family rx_route (rx_inv w timeout enb) cell_arrival)
    with (t := r) (fs := evs) as (r' & o & Hrun & _ & Hm); [|done|done| |].
  - intros r0 ev e' out. apply rx_routed.
  - intros c. rewrite run_machine_rx. apply Hall.
  - destruct (up_part_run _ _ _ _ Hrun) as (effs & Hr & <-). exists r', effs. split; [done|].
    intros c. rewrite <- run_machine_rx. apply Hm.
Qed.
End Layer.

(** ** All connections between two layers *)

(** The SDUs that come from above for the connection [c]. *)
Definition sdus_at (c : Z) (sends : list rlc_event) : list RlcSdu :=
  omap (fun ev => match ev with TxSdu s => Some s | TxGrant _ => None end) (at_id c (map tx_route sends)).

Lemma event_sdus_um evs :
  event_sdus (map um_of evs) = omap (fun ev => match ev with TxSdu s => Some s | TxGrant _ => None end) evs.
Proof.
  unfold event_sdus. induction evs as [|ev evs IH]; [done|]. cbn. rewrite IH. by destruct ev.
Qed.

Lemma elem_of_pdus p out : p ∈ pdus out <-> SendPdu p ∈ out.
Proof.
  unfold pdus. rewrite list_elem_of_omap. split.
  - intros (e & Hin & E). destruct e; try done. by injection E as ->.
  - intros Hin. by exists (SendPdu p).
Qed.

Section EndToEnd.
Context {A : Type} {C : CArray UmPdu A} {L : CArrayLaws UmPdu A}.
Context (q w timeout : Z) (enb : bool).
Hypothesis Hw : 1 <= w <= 2 ^ 30.

(** The sender and the receiver at the start. *)
Definition sender : LteRlcUm A := new_LteRlcUm false (negb enb) q w timeout.
Definition receiver : LteRlcUm A := new_LteRlcUm false enb q w timeout.

(** What may arrive: PDUs that were sent, with their tags. *)
Definition from_air (outs : list (Z * rlc_effect)) (arr : list rlc_arrival) : Prop :=
  forall NOW info pdu, PduArrival NOW info pdu ∈ arr -> exists c, (c, RlcDown info (SendPdu pdu)) ∈ outs.

Lemma rlc_layer_delivers (sends : list rlc_event) :
  Forall (fun ev => cellular (tx_info ev)) sends ->
  (forall c, Forall sdu_ok (sdus_at c sends) /\ NoDup (map snoMainPacket (sdus_at c sends))) ->
  vsize sends < 2 ^ 30 ->
  exists s outs, run_family rlc_down_step sender sends = Ok (s, outs) /\ Forall tagged outs /\
    forall arr, from_air outs arr ->
    exists r effs, run_family rlc_up_step receiver arr = Ok (r, effs) /\
      forall c, delivered (at_id c (omap up_part effs)) `sublist_of` sdus_at c sends.
Proof.
  intros Hcell Hsdus Hlen.
  set (evs := fun c => at_id c (map tx_route sends)).
  assert (Hev : forall c, event_sdus (map um_of (evs c)) = sdus_at c sends) by (intros c; apply event_sdus_um).
  assert (Hconn : forall c rxevs, exists t ps, um_pdus (new_UmTxEntity q) (map um_of (evs c)) = Ok (t, ps) /\
    ((forall p, p ∈ arrivals rxevs -> p ∈ ps) -> exists (e : UmRxEntity A) eff,
       rx_run (new_UmRxEntity w timeout false (negb enb)) rxevs = Ok (e, eff) /\ delivered eff `sublist_of` sdus_at c sends)).
  { intros c rxevs. destruct (Hsdus c) as [Hok Hnd].
    destruct (um_connection q w timeout (negb enb) (map um_of (evs c)) rxevs) as (t & ps & Ht & Hr);
      [by rewrite Hev|by rewrite Hev| |done|rewrite Hev in Hr; by exists t, ps].
    rewrite length_map. unfold evs. pose proof (at_id_length c (map tx_route sends)) as Hl. rewrite length_map in Hl. lia. }
  assert (Hempty : forall c, machine (new_UmTxEntity q) (tx_family sender) c = new_UmTxEntity q).
  { intros c. unfold machine, tx_family. cbn. by rewrite lookup_fmap, lookup_empty. }
  destruct (rlc_down_runs q sender sends) as (s & outs & Hrun & Htag & Hm); [by split|done| |].
  { intros c. destruct (Hconn c []) as (t & ps & Ht & _).
    destruct (tx_machine (new_UmTxEntity q) (evs c) t ps eq_refl Ht) as (effs & Hr & _).
    rewrite Hempty. by eexists. }
  exists s, outs. split; [done|]. split; [done|]. intros arr Hair.
  assert (Hcid : forall NOW info pdu, PduArrival NOW info pdu ∈ arr ->
    cellular info /\ (rx_cid info, RlcDown info (SendPdu pdu)) ∈ outs).
  { intros NOW info pdu Hin. destruct (Hair _ _ _ Hin) as [c Hc].
    rewrite Forall_forall in Htag. destruct (Htag _ Hc) as [? E]. cbn in E. by rewrite E. }
  assert (Hrx : forall c, exists (e : UmRxEntity A) eff,
    rx_run (new_UmRxEntity w timeout false (negb enb)) (at_id c (map rx_route arr)) = Ok (e, eff) /\
    delivered eff `sublist_of` sdus_at c sends).
  { intros c. destruct (Hconn c (at_id c (map rx_route arr))) as (t & ps & Ht & Hr). apply Hr. clear Hr.
    destruct (tx_machine (new_UmTxEntity q) (evs c) t ps eq_refl Ht) as (effs & Hrc & <-).
    specialize (Hm c). rewrite Hempty in Hm. unfold evs in Hrc. rewrite Hrc in Hm. injection Hm as _ ->.
    intros p Hp. apply list_elem_of_omap in Hp as ([NOW pdu|NOW] & Hin & E); [|done]. injection E as ->.
    apply elem_of_at_id, list_elem_of_fmap in Hin as ([NOW' info pdu|NOW' cid] & E & Hin); [|done].
    injection E as -> -> ->. apply Hcid in Hin as [_ Hin].
    apply elem_of_pdus, elem_of_at_id, list_elem_of_omap. by exists (rx_cid info, RlcDown info (SendPdu pdu)). }
  assert (Hnew : forall c, machine (new_UmRxEntity (A := A) w timeout false (negb enb)) (rx_family receiver) c =
    new_UmRxEntity w timeout false (negb enb)).
  { intros c. unfold machine, rx_family. cbn. by rewrite lookup_fmap, lookup_empty. }
  destruct (rlc_up_runs w timeout enb receiver arr) as (r & effs & Hup & Hdel).
  - by split.
  - apply Forall_forall. intros [NOW info pdu|NOW cid] Hin; [|done]. by apply Hcid in Hin as [? _].
  - intros c. rewrite Hnew. destruct (Hrx c) as (e & eff & He & _). by eexists.
  - exists r, effs. split; [done|]. intros c. specialize (Hdel c). rewrite Hnew in Hdel.
    destruct (Hrx c) as (e & eff & He & Hs). rewrite He in Hdel. by injection Hdel as _ <-.
Qed.
End EndToEnd.
