(* ===== verification/Stack.v ===== *)
(** * PDCP and RLC between a UE and its base station

    IP packets enter the PDCP layer of one node, leave its RLC layer as PDUs of the
    sizes the MAC asks for, and reach the RLC layer of the other node as the channel
    pleases.  Each connection delivers a subsequence of its packets, in order. *)

From S2P Require Import Prelude.
From S2P Require Import Family.
From S2P Require Import LteCommon.
From S2P Require Import LteBinder.
From S2P Require Import BinderProps.
From S2P Require Import ConnectionsTable.
From S2P Require Import Pdcp.
From S2P Require Import PdcpProps.
From S2P Require Import PdcpDemo.
From S2P Require Import TTimer.
From S2P Require Import RlcUm.
From S2P Require Import RlcUmProps.
From S2P Require Import RlcWindow.
From S2P Require Import RlcWindowProps.
From S2P Require Import RlcReorder.
From S2P Require Import RlcUmLayer.
From Stdlib Require Import Sorted.
#[local] Open Scope Z_scope.

(** An IP packet, stored at an address of its own, or a request of the MAC. *)
Inductive stack_event :=
| IpPacket (ptr : Z) (pkt : DataPacket)
| MacGrant (info : FlowControlInfo) (size : Z).

Definition stack_packets (evs : list stack_event) : list DataPacket :=
  omap (fun ev => match ev with IpPacket _ pkt => Some pkt | MacGrant _ _ => None end) evs.

Section Stack.
Context {A : Type} {C : CArray UmPdu A} {L : CArrayLaws UmPdu A}.
Context (macModule : Z -> result (option LteMacRef)).

(** What PDCP sends to the gate of the UM layer enters it; what it sends elsewhere does
    not. *)
Definition stack_step (b : LteBinder) (p : LtePdcpRrc) (s : LteRlcUm A) (ev : stack_event)
    : result (LteBinder * LtePdcpRrc * LteRlcUm A * list (Z * rlc_effect)) :=
  match ev with
  | IpPacket ptr pkt =>
      let! (b, p, (gate, out)) := fromDataPort macModule b p pkt in
      match gate with
      | UM_SAP =>
          let! info := getFlowTag out in
          let! (s, eff) := rlc_handleUpperMessage s info (rlc_sdu ptr (packet_bytes out) info) in
          Ok (b, p, s, eff)
      | _ => Ok (b, p, s, [])
      end
  | MacGrant info size =>
      let! (s, eff) := rlc_handleSduRequest s info size in Ok (b, p, s, eff)
  end.

Fixpoint stack_run (b : LteBinder) (p : LtePdcpRrc) (s : LteRlcUm A) (evs : list stack_event)
    : result (LteBinder * LtePdcpRrc * LteRlcUm A * list (Z * rlc_effect)) :=
  match evs with
  | [] => Ok (b, p, s, [])
  | ev :: evs' =>
      let! (b, p, s, eff) := stack_step b p s ev in
      let! (b, p, s, effs) := stack_run b p s evs' in
      Ok (b, p, s, eff ++ effs)
  end.

(** ** What the RLC layer sees *)

(** The events of the RLC layer, given what PDCP made of the packets. *)
Fixpoint rlc_events (evs : list stack_event) (outs : list (Sap * DataPacket)) : list rlc_event :=
  match evs, outs with
  | IpPacket ptr _ :: evs', (_, out) :: outs' =>
      match flow_tag out with
      | Some info => [UpperPacket info (rlc_sdu ptr (packet_bytes out) info)]
      | None => []
      end ++ rlc_events evs' outs'
  | MacGrant info size :: evs', _ => MacRequest info size :: rlc_events evs' outs
  | _, _ => []
  end.

Definition to_um (out : Sap * DataPacket) : Prop := out.1 = UM_SAP /\ is_Some (flow_tag out.2).

Lemma stack_run_layers b p s evs b' p' outs s' effs :
  run_down macModule b p (stack_packets evs) = Ok (b', p', outs) -> Forall to_um outs ->
  run_family rlc_down_step s (rlc_events evs outs) = Ok (s', effs) ->
  stack_run b p s evs = Ok (b', p', s', effs).
Proof.
  revert b p s outs effs. induction evs as [|[ptr pkt|info size] evs IH]; intros b p s outs effs Hp Hum Hr.
  - cbn in Hp, Hr. injection Hp as -> -> <-. cbn in Hr. by injection Hr as -> <-.
  - cbn in Hp. apply rbind_Ok_inv in Hp as ([[b1 p1] [gate out]] & Hd & Hp).
    apply rbind_Ok_inv in Hp as ([[b2 p2] outs2] & Hp & [= -> -> <-]).
    apply Forall_cons in Hum as [[Hg [info Hi]] Hum]. cbn in Hg, Hi. subst gate.
    cbn [rlc_events] in Hr. rewrite Hi in Hr. cbn [app run_family rlc_down_step] in Hr.
    apply rbind_Ok_inv in Hr as ([s1 e1] & Hs & Hr). apply rbind_Ok_inv in Hr as ([s2 e2] & Hr & [= -> <-]).
    cbn [stack_run stack_step]. rewrite Hd. cbn [rbind]. unfold getFlowTag. rewrite Hi. cbn [rbind]. rewrite Hs.
    cbn [rbind]. by rewrite (IH b1 p1 s1 outs2 e2 Hp Hum Hr).
  - cbn [rlc_events run_family rlc_down_step] in Hr.
    assert (Hr' : (let! (s1, e1) := rlc_handleSduRequest s info size in
      let! (s2, e2) := run_family rlc_down_step s1 (rlc_events evs outs) in Ok (s2, e1 ++ e2)) = Ok (s', effs)).
    { by destruct outs as [|[]]. }
    clear Hr. apply rbind_Ok_inv in Hr' as ([s1 e1] & Hs & Hr). apply rbind_Ok_inv in Hr as ([s2 e2] & Hr & [= -> <-]).
    cbn [stack_run stack_step]. rewrite Hs. cbn [rbind]. by rewrite (IH b p s1 outs e2 Hp Hum Hr).
Qed.
End Stack.

(** ** Connections and their SDUs *)

Section Connections.
Context (b : LteBinder) (p : LtePdcpRrc) (cid_of : Conn -> Z).

(** The addresses of the packets of the connection [k]. *)
Definition ptrs (k : Conn) (evs : list stack_event) : list Z :=
  omap (fun ev => match ev with
    | IpPacket ptr pkt => if decide (pkt_key p pkt = Some k) then Some ptr else None
    | MacGrant _ _ => None
    end) evs.

(** A packet PDCP has sent for the connection [k], the [n]-th of it, as the UM layer
    finds it. *)
Definition handed_down (pkt : DataPacket) (k : Conn) (n : Z) (out : Sap * DataPacket) : Prop :=
  pkt_key p pkt = Some k /\ out.1 = UM_SAP /\ exists info, flow_tag out.2 = Some info /\
    fi_sequenceNumber info = n /\ cellular info /\ rx_cid info = cid_of k /\ 0 < packet_bytes out.2 < 2 ^ 31.

Fixpoint all_handed (past : list Conn) (evs : list stack_event) (keys : list Conn) (outs : list (Sap * DataPacket)) : Prop :=
  match evs, keys, outs with
  | [], [], [] => True
  | IpPacket _ pkt :: evs', k :: keys', out :: outs' =>
      handed_down pkt k (times k past) out /\ all_handed (past ++ [k]) evs' keys' outs'
  | MacGrant info _ :: evs', _, _ => cellular info /\ all_handed past evs' keys outs
  | _, _, _ => False
  end.

(** All packets of a connection identifier belong to one connection. *)
Definition separate (keys : list Conn) : Prop :=
  forall k k', k ∈ keys -> k' ∈ keys -> cid_of k = cid_of k' -> k = k'.

Lemma times_mono k past k' : times k past <= times k (past ++ [k']).
Proof. rewrite times_snoc. destruct (bool_decide _); cbn; lia. Qed.

Lemma sdus_at_cons c ev evs :
  sdus_at c (ev :: evs) =
    (if decide (rx_cid (tx_info ev) = c)
     then match ev with UpperPacket _ sdu => [sdu] | MacRequest _ _ => [] end else []) ++ sdus_at c evs.
Proof.
  unfold sdus_at, at_id. cbn. case_decide; [|done]. by destruct ev.
Qed.

(** The SDUs under the identifier of a connection: its packets, numbered upwards. *)
Lemma handed_sdus past evs keys outs k :
  all_handed past evs keys outs -> (forall k', k' ∈ keys -> cid_of k' = cid_of k -> k' = k) ->
  let sdus := sdus_at (cid_of k) (rlc_events evs outs) in
  map sdu_ptr sdus = ptrs k evs /\ Forall sdu_ok sdus /\
  StronglySorted Z.lt (map snoMainPacket sdus) /\ Forall (fun n => times k past <= n) (map snoMainPacket sdus).
Proof.
  revert past keys outs. induction evs as [|[ptr pkt|info size] evs IH]; intros past keys outs Hall Hsep; cbn zeta.
  - repeat split; constructor.
  - destruct keys as [|k0 keys]; [done|]. destruct outs as [|[g out] outs]; [done|].
    destruct Hall as [(Hk & Hg & info & Hi & Hn & Hc & Hcid & Hlen) Hall]. cbn in Hi, Hg, Hlen.
    destruct (IH _ _ _ Hall) as (H1 & H2 & H3 & H4).
    { intros k' Hk'. apply Hsep. by right. }
    cbn [rlc_events]. rewrite Hi. cbn [app]. rewrite sdus_at_cons. cbn [tx_info].
    unfold ptrs. cbn [omap list_omap]. fold (ptrs k evs). rewrite Hk, Hcid.
    destruct (decide (cid_of k0 = cid_of k)) as [E|E].
    + assert (k0 = k) as -> by (apply Hsep; [by left|done]). rewrite decide_True by done. cbn [app map].
      cbn [rlc_sdu sdu_ptr snoMainPacket]. rewrite H1, Hn. split; [done|]. split; [|split].
      * constructor; [|done]. unfold sdu_ok. cbn. rewrite wrap_small; [done|]. unfold is_uint. lia.
      * constructor; [done|]. eapply Forall_impl; [exact H4|]. intros n. cbn beta. rewrite times_snoc.
        rewrite bool_decide_eq_true_2 by done. cbn. lia.
      * constructor; [done|]. eapply Forall_impl; [exact H4|]. intros n. pose proof (times_mono k past k). cbn. lia.
    + rewrite decide_False by congruence. cbn [app]. split; [done|]. split; [done|]. split; [done|].
      eapply Forall_impl; [exact H4|]. intros n. pose proof (times_mono k past k0). cbn. lia.
  - assert (Hall' : all_handed past evs keys outs) by (destruct keys, outs; apply Hall).
    destruct (IH _ _ _ Hall' Hsep) as (H1 & H2 & H3 & H4).
    assert (E : sdus_at (cid_of k) (rlc_events (MacGrant info size :: evs) outs) = sdus_at (cid_of k) (rlc_events evs outs)).
    { transitivity (sdus_at (cid_of k) (MacRequest info size :: rlc_events evs outs)); [by destruct outs as [|[]]|].
      rewrite sdus_at_cons. by case_decide. }
    rewrite E. done.
Qed.

(** Under an identifier that no connection has there is nothing. *)
Lemma handed_none past evs keys outs c :
  all_handed past evs keys outs -> (forall k, k ∈ keys -> cid_of k <> c) ->
  sdus_at c (rlc_events evs outs) = [].
Proof.
  revert past keys outs. induction evs as [|[ptr pkt|info size] evs IH]; intros past keys outs Hall Hno.
  - done.
  - destruct keys as [|k0 keys]; [done|]. destruct outs as [|[g out] outs]; [done|].
    destruct Hall as [(Hk & Hg & info & Hi & Hn & Hc & Hcid & Hlen) Hall]. cbn in Hi.
    cbn [rlc_events]. rewrite Hi. cbn [app]. rewrite sdus_at_cons. cbn [tx_info]. rewrite Hcid, decide_False.
    + eapply IH; [done|]. intros k Hk'. apply Hno. by right.
    + apply Hno. by left.
  - assert (Hall' : all_handed past evs keys outs) by (destruct keys, outs; apply Hall).
    transitivity (sdus_at c (MacRequest info size :: rlc_events evs outs)); [by destruct outs as [|[]]|].
    rewrite sdus_at_cons. case_decide; by eapply IH.
Qed.

Lemma handed_cellular past evs keys outs :
  all_handed past evs keys outs -> Forall (fun ev => cellular (tx_info ev)) (rlc_events evs outs) /\
    Forall to_um outs /\ (length (rlc_events evs outs) <= length evs)%nat.
Proof.
  revert past keys outs. induction evs as [|[ptr pkt|info size] evs IH]; intros past keys outs Hall.
  - by destruct keys, outs.
  - destruct keys as [|k0 keys]; [done|]. destruct outs as [|[g out] outs]; [done|].
    destruct Hall as [(Hk & Hg & info & Hi & Hn & Hc & Hcid & Hlen) Hall]. cbn in Hi, Hg.
    destruct (IH _ _ _ Hall) as (H1 & H2 & H3). cbn [rlc_events]. rewrite Hi. cbn [app length].
    split; [by constructor|]. split; [|lia]. constructor; [|done]. split; [done|by eexists].
  - assert (Hall' : cellular info /\ all_handed past evs keys outs) by (destruct keys, outs; apply Hall).
    destruct Hall' as [Hc Hall']. destruct (IH _ _ _ Hall') as (H1 & H2 & H3).
    assert (E : rlc_events (MacGrant info size :: evs) outs = MacRequest info size :: rlc_events evs outs) by (by destruct outs as [|[]]).
    rewrite E. split; [by constructor|]. split; [done|]. cbn. lia.
Qed.
End Connections.

(** ** End to end *)

Lemma sorted_NoDup (l : list Z) : StronglySorted Z.lt l -> NoDup l.
Proof.
  induction 1 as [|x l Hs IH Hx]; constructor; [|done].
  intros Hin. rewrite Forall_forall in Hx. specialize (Hx x Hin). lia.
Qed.

Lemma all_handed_intro p cid_of past evs keys outs :
  length keys = length (stack_packets evs) -> length outs = length (stack_packets evs) ->
  (forall info size, MacGrant info size ∈ evs -> cellular info) ->
  (forall i pkt k out, stack_packets evs !! i = Some pkt -> keys !! i = Some k -> outs !! i = Some out ->
     handed_down p cid_of pkt k (times k (past ++ take i keys)) out) ->
  all_handed p cid_of past evs keys outs.
Proof.
  revert past keys outs. induction evs as [|[ptr pkt|info size] evs IH]; intros past keys outs Hk Ho Hg Hall.
  - by destruct keys, outs.
  - destruct keys as [|k keys]; [done|]. destruct outs as [|out outs]; [done|]. split.
    + specialize (Hall 0%nat pkt k out eq_refl eq_refl eq_refl). by rewrite app_nil_r in Hall.
    + apply IH; [by injection Hk|by injection Ho|intros; eapply Hg; by right|].
      intros i pkt' k' out' H1 H2 H3. specialize (Hall (S i) pkt' k' out' H1 H2 H3).
      cbn [take] in Hall. by rewrite <- app_assoc.
  - assert (H : cellular info /\ all_handed p cid_of past evs keys outs); [|by destruct keys, outs].
    split; [eapply Hg; by left|]. apply IH; [done|done|intros; eapply Hg; by right|done].
Qed.

(** The node a connection is named after: the UE at its end of the link. *)
Definition key_info (k : Conn) : FlowControlInfo :=
  {| fi_sourceId := 0; fi_destId := 0; fi_direction := DL; fi_d2dTxPeerId := 0; fi_d2dRxPeerId := 0;
     fi_application := UNKNOWN_APP; fi_traffic := UNKNOWN_TRAFFIC_TYPE; fi_rlcType := 0; fi_lcid := 0;
     fi_multicastGroupId := -1; fi_srcAddr := c_src k; fi_dstAddr := c_dst k; fi_srcPort := c_sport k;
     fi_dstPort := c_dport k; fi_sequenceNumber := 0; fi_headerSize := 0 |}.

Definition ue_of (b : LteBinder) (p : LtePdcpRrc) (k : Conn) : Z :=
  if bool_decide (getDirection p = DL)
  then match getDestId b p (key_info k) with Ok d => d | _ => 0 end
  else nodeId_ p.

(** All four traffic classes use the unacknowledged mode, which is the default. *)
Definition all_um (p : LtePdcpRrc) : Prop :=
  conversationalRlc p = UM /\ streamingRlc p = UM /\ interactiveRlc p = UM /\ backgroundRlc p = UM.

(** The RLC PDU lengths are [unsigned int]s used as [int]s. *)
Definition fits (p : LtePdcpRrc) (pkt : DataPacket) : Prop :=
  forall l, headerCompress p (pkt_chunks pkt) = Ok l -> 0 <= PdcpProps.bytes l < 2 ^ 31 - 2.

Lemma leaves_handed b p pkt k lcid n out tag cid_of :
  (getDirection p = UL \/ getDirection p = DL) -> all_um p -> fits p pkt -> pkt_key p pkt = Some k ->
  cid_of k = idToMacCid (ue_of b p k) lcid -> leaves b p pkt k lcid n out tag ->
  handed_down p cid_of pkt k n out.
Proof.
  intros Hdir (U1 & U2 & U3 & U4) Hfit Hk Hcid Hlv. split; [done|].
  destruct (lv_chunks _ _ _ _ _ _ _ _ Hlv) as (l & h & Hch & Hh & Hl).
  assert (Hrlc : fi_rlcType tag = UM).
  { pose proof (lv_rlc _ _ _ _ _ _ _ _ Hlv) as Hin. rewrite U1, U2, U3, U4 in Hin.
    repeat (apply elem_of_cons in Hin as [->|Hin]; [done|]). by apply not_elem_of_nil in Hin. }
  destruct (lv_gate _ _ _ _ _ _ _ _ Hlv) as [m Hg]. rewrite Hrlc in Hg. injection Hg as _ Hg.
  split; [done|]. exists tag. split; [apply Hlv|]. split; [apply Hlv|].
  pose proof (lv_direction _ _ _ _ _ _ _ _ Hlv) as Hd.
  split; [unfold cellular; by rewrite Hd|]. split.
  - rewrite Hcid. unfold rx_cid, ue_of. rewrite Hd, (lv_lcid _ _ _ _ _ _ _ _ Hlv).
    destruct Hdir as [->| ->]; cbn.
    + by rewrite (lv_source _ _ _ _ _ _ _ _ Hlv).
    + rewrite (getDestId_addr b p (key_info k) tag), (lv_dest _ _ _ _ _ _ _ _ Hlv); [done|].
      rewrite <- (lv_key _ _ _ _ _ _ _ _ Hlv). unfold conn_key. by destruct (pdcp_class p).
  - unfold packet_bytes. rewrite Hch. cbn [map foldr chunk_length]. fold (PdcpProps.bytes l).
    pose proof (Hfit l Hl). lia.
Qed.

Section EndToEnd.
Context {A : Type} {C : CArray UmPdu A} {L : CArrayLaws UmPdu A}.
Context (macModule : Z -> result (option LteMacRef)) (b : LteBinder).
Context (class : PdcpClass) (size conv stream inter back node : Z) (p : LtePdcpRrc).
Context (queueSize rxWindowSize timeout : Z).
Hypothesis Hnew : new_LtePdcpRrc class size conv stream inter back node = Ok p.
Hypothesis Hclass : class = LtePdcpRrcUe \/ class = LtePdcpRrcEnb \/ class = LtePdcpRrcEnbD2D.

(** The PDCP half: the packets leave for the UM layer, under an identifier for each
    connection. *)
Lemma pdcp_hands_over (evs : list stack_event) :
  let keys := omap (pkt_key p) (stack_packets evs) in
  all_um p -> Forall (fun pkt => (exists info, sendable b p pkt info) /\ fits p pkt) (stack_packets evs) ->
  (forall info size, MacGrant info size ∈ evs -> cellular info) ->
  Z.of_nat (distinct keys) <= TABLE_SIZE -> vsize evs < 2 ^ 30 ->
  exists p' outs cid_of, run_down macModule b p (stack_packets evs) = Ok (b, p', outs) /\
    separate cid_of keys /\ all_handed p cid_of [] evs keys outs.
Proof.
  intros keys Hum Hpk Hgr Hdist Hlen.
  assert (Hrlc : rlc_params p) by (unfold rlc_params; destruct Hum as (-> & -> & -> & ->); unfold UM; lia).
  destruct (new_pdcp_numbered class size conv stream inter back node p Hnew Hrlc) as [Hcl Hn].
  assert (Hneq : pdcp_class p <> LtePdcpRrcUeD2D) by (rewrite Hcl; by destruct Hclass as [->|[->| ->]]).
  assert (Hdir : getDirection p = UL \/ getDirection p = DL).
  { unfold getDirection. rewrite Hcl. destruct Hclass as [->|[->| ->]]; auto. }
  assert (Hall : Forall2 (fun pkt k => exists info, sendable b p pkt info /\ conn_key p info = k) (stack_packets evs) keys).
  { unfold keys. clear -Hpk. induction Hpk as [|pkt pkts [[info Hs] _] _ IH]; [constructor|].
    cbn. unfold pkt_key at 1. rewrite (sd_tag _ _ _ _ Hs). cbn. constructor; [by exists info|done]. }
  destruct (run_down_spec macModule (conn_map p) b (stack_packets evs) keys p [] ∅)
    as (p' & outs & m & Hrun & _ & Hnum & _ & Hlo & Hout); [done|intros; apply conn_key_dom|done..|].
  cbn [app] in *. set (lcid_of := fun k => default 0 (m !! k)).
  set (cid_of := fun k => idToMacCid (ue_of b p k) (lcid_of k)).
  assert (Hin : forall k, k ∈ keys -> exists l, m !! k = Some l /\ is_uint 16 l).
  { intros k Hk. apply (nb_dom _ _ _ Hnum) in Hk as [l Hl]. exists l. split; [done|].
    pose proof (nb_range _ _ _ Hnum k l Hl) as Hr. rewrite (numbered_size p' keys m Hnum) in Hr.
    unfold is_uint, TABLE_SIZE in *. lia. }
  assert (Hsep : separate cid_of keys).
  { intros k k' (l & Hl & Hu)%Hin (l' & Hl' & Hu')%Hin E. unfold cid_of, lcid_of in E. rewrite Hl, Hl' in E.
    cbn in E. apply (f_equal MacCidToLcid) in E. rewrite !MacCidToLcid_id in E by done. subst l'.
    by eapply (nb_inj _ _ _ Hnum). }
  assert (Hkl : length keys = length (stack_packets evs)) by (symmetry; by eapply Forall2_length).
  assert (Hpl : vsize keys <= vsize evs).
  { rewrite Hkl. unfold stack_packets. clear. induction evs as [|[] evs IH]; cbn; lia. }
  exists p', outs, cid_of. split; [done|]. split; [exact Hsep|].
  apply all_handed_intro; [done|congruence|done|]. intros i pkt k out Hp Hk Ho. cbn [app].
  destruct (Hout i pkt k out Hp Hk Ho) as (lc & tag & Hlc & Hlv).
  rewrite wrap_small in Hlv.
  - eapply leaves_handed; try done.
    + rewrite Forall_forall in Hpk. by destruct (Hpk pkt (list_elem_of_lookup_2 _ _ _ Hp)).
    + destruct (Forall2_lookup_lr _ _ _ _ _ _ Hall Hp Hk) as (info & Hs & <-).
      unfold pkt_key. by rewrite (sd_tag _ _ _ _ Hs).
    + unfold cid_of, lcid_of. by rewrite Hlc.
  - pose proof (count_bounds (fun k' => bool_decide (k' = k)) (take i keys)) as Hb.
    rewrite length_take in Hb. unfold is_uint, times. lia.
Qed.

(** C3. PDCP and RLC end to end, from a UE to its base station or back: IP packets of at
    most 2048 connections are numbered, compressed, cut into PDUs as the MAC asks, and
    the PDUs arrive in any order, with losses and duplicates.  Neither side fails; the
    connections have distinct identifiers, and under the identifier of a connection a
    subsequence of the packets of that connection comes out, in order; nothing comes
    out elsewhere. *)
Theorem stack_end_to_end (enb : bool) (evs : list stack_event) :
  let keys := omap (pkt_key p) (stack_packets evs) in
  all_um p -> Forall (fun pkt => (exists info, sendable b p pkt info) /\ fits p pkt) (stack_packets evs) ->
  (forall info size, MacGrant info size ∈ evs -> cellular info) ->
  Z.of_nat (distinct keys) <= TABLE_SIZE -> vsize evs < 2 ^ 30 -> 1 <= rxWindowSize <= 2 ^ 30 ->
  exists p' s outs cid_of,
    stack_run macModule b p (sender (A := A) queueSize rxWindowSize timeout enb) evs = Ok (b, p', s, outs) /\
    separate cid_of keys /\
    forall arr, from_air outs arr ->
    exists r effs, run_family rlc_up_step (receiver (A := A) queueSize rxWindowSize timeout enb) arr = Ok (r, effs) /\
      (forall k, k ∈ keys ->
         map sdu_ptr (delivered (at_id (cid_of k) (omap up_part effs))) `sublist_of` ptrs p k evs) /\
      (forall c, (forall k, k ∈ keys -> cid_of k <> c) -> delivered (at_id c (omap up_part effs)) = []).
Proof.
  intros keys Hum Hpk Hgr Hdist Hlen Hw.
  destruct (pdcp_hands_over evs Hum Hpk Hgr Hdist Hlen) as (p' & outs & cid_of & Hrun & Hsep & Hh).
  fold keys in Hsep, Hh.
  destruct (handed_cellular p cid_of [] evs keys outs Hh) as (Hcell & Huml & Hrl).
  assert (Hsd : forall c, sdus_at c (rlc_events evs outs) = [] \/
    exists k, k ∈ keys /\ cid_of k = c).
  { intros c. destruct (decide (Exists (fun k => cid_of k = c) keys)) as [He|He].
    - right. apply Exists_exists in He. destruct He as (k & ? & ?). by exists k.
    - left. apply (handed_none p cid_of [] evs keys outs c Hh). intros k Hk E. apply He, Exists_exists. by exists k. }
  assert (Hsame : forall k, k ∈ keys -> forall k', k' ∈ keys -> cid_of k' = cid_of k -> k' = k) by (intros; by apply Hsep).
  destruct (rlc_layer_delivers queueSize rxWindowSize timeout enb Hw (rlc_events evs outs) Hcell)
    as (s & effs & Hdown & _ & Hup).
  - intros c. destruct (Hsd c) as [E|(k & Hk & <-)]; [rewrite E; split; constructor|].
    destruct (handed_sdus p cid_of [] evs keys outs k Hh (Hsame k Hk)) as (_ & Hok & Hso & _). split; [done|].
    by apply sorted_NoDup.
  - lia.
  - exists p', s, effs, cid_of. split; [by eapply stack_run_layers|]. split; [done|]. intros arr Hair.
    destruct (Hup arr Hair) as (r & out & Hr & Hdel). exists r, out. split; [done|]. split.
    + intros k Hk. destruct (handed_sdus p cid_of [] evs keys outs k Hh (Hsame k Hk)) as (<- & _).
      apply fmap_sublist, Hdel.
    + intros c Hc. specialize (Hdel c). rewrite (handed_none p cid_of [] evs keys outs c Hh Hc) in Hdel.
      by apply sublist_nil_r in Hdel.
Qed.
End EndToEnd.

(** ** Two connections from the demonstration UE *)

Definition demo_evs : list stack_event :=
  [IpPacket 101 (udp_packet 5); IpPacket 102 (udp_packet 6);
   MacGrant ((PdcpDemo.demo_info 5) <| fi_direction := UL |> <| fi_sourceId := 1025 |> <| fi_destId := 1 |> <| fi_lcid := 1 |>) 50;
   IpPacket 103 (udp_packet 5)].

Lemma udp_fits port : fits demo_pdcp (udp_packet port).
Proof. intros l [= <-]. unfold PdcpProps.bytes. cbn. lia. Qed.

Lemma stack_end_to_end_witness :
  exists p' s outs cid_of,
    stack_run demo_modules demo_binder demo_pdcp (sender (A := gmap Z UmPdu) 0 16 1000 true) demo_evs =
      Ok (demo_binder, p', s, outs) /\
    separate cid_of (omap (pkt_key demo_pdcp) (stack_packets demo_evs)) /\
    forall arr, from_air outs arr ->
    exists r effs, run_family rlc_up_step (receiver (A := gmap Z UmPdu) 0 16 1000 true) arr = Ok (r, effs) /\
      (forall k, k ∈ omap (pkt_key demo_pdcp) (stack_packets demo_evs) ->
         map sdu_ptr (delivered (at_id (cid_of k) (omap up_part effs))) `sublist_of` ptrs demo_pdcp k demo_evs) /\
      (forall c, (forall k, k ∈ omap (pkt_key demo_pdcp) (stack_packets demo_evs) -> cid_of k <> c) ->
         delivered (at_id c (omap up_part effs)) = []).
Proof.
  refine (stack_end_to_end demo_modules demo_binder LtePdcpRrcUe 3 1 1 1 1 1025 demo_pdcp 0 16 1000 demo_new
    (or_introl eq_refl) true demo_evs _ _ _ _ _ _).
  - by repeat split.
  - repeat (apply Forall_cons; split; [split; [eexists; apply udp_sendable|apply udp_fits]|]). constructor.
  - intros info size Hin. unfold demo_evs in Hin. rewrite !elem_of_cons in Hin.
    destruct Hin as [E|[E|[E|[E|E]]]]; try discriminate E; [injection E as -> ->; by left|by apply not_elem_of_nil in E].
  - vm_compute. discriminate.
  - reflexivity.
  - lia.
Defined.

(** ** Relays *)

(** A relay cannot send data in unacknowledged mode: PDCP marks what it sends with
    no direction, and the RLC layer, which finds the connection by the direction, ends
    the simulation with the first packet. *)
Theorem relay_traffic_fails {A : Type} {C : CArray UmPdu A} macModule b class size conv stream inter back node p
    (s : LteRlcUm A) ptr pkt info :
  new_LtePdcpRrc class size conv stream inter back node = Ok p ->
  class = LtePdcpRrcRelayEnb \/ (exists d, class = LtePdcpRrcRelayUe d) ->
  all_um p -> sendable b p pkt info ->
  stack_step macModule b p s (IpPacket ptr pkt) = Throw "ctrlInfoToMacCid - unknown direction".
Proof.
  intros Hnew Hclass Hum Hs.
  assert (Hrlc : rlc_params p) by (unfold rlc_params; destruct Hum as (-> & -> & -> & ->); unfold UM; lia).
  destruct (new_pdcp_numbered class size conv stream inter back node p Hnew Hrlc) as [Hcl Hn].
  destruct (number_packet p [] ∅ (conn_key p info) Hn) as (p1 & l & m' & Hcid & Hc & _);
    [apply conn_key_dom|right; by rewrite map_size_empty|].
  destruct (fromDataPort_spec macModule b p pkt info l p1) as ([g out] & tag & Hrun & Hlv);
    [rewrite Hcl; by destruct Hclass as [->|[d ->]]|done..|].
  cbn [stack_step]. rewrite Hrun. cbn [rbind].
  assert (Hg : g = UM_SAP).
  { destruct (lv_gate _ _ _ _ _ _ _ _ Hlv) as [n Hg]. pose proof (lv_rlc _ _ _ _ _ _ _ _ Hlv) as Hin.
    destruct Hum as (U1 & U2 & U3 & U4). rewrite U1, U2, U3, U4 in Hin.
    repeat (apply elem_of_cons in Hin as [E|Hin]; [rewrite E in Hg; by injection Hg|]). by apply not_elem_of_nil in Hin. }
  subst g. pose proof (lv_tag _ _ _ _ _ _ _ _ Hlv) as Ht. cbn in Ht. unfold getFlowTag. rewrite Ht. cbn [rbind].
  unfold rlc_handleUpperMessage, getTxBuffer, tx_cid, ctrlInfoToUeId.
  rewrite (lv_direction _ _ _ _ _ _ _ _ Hlv). unfold getDirection. rewrite Hcl.
  by destruct Hclass as [->|[d ->]].
Qed.

Definition demo_relay : LtePdcpRrc :=
  {| pdcp_class := LtePdcpRrcRelayUe 1; headerCompressedSize_ := 3; conversationalRlc := UM; streamingRlc := UM;
     interactiveRlc := UM; backgroundRlc := UM; nodeId_ := 257; nextLcid_ := 1;
     ht_ := new_ConnectionsTable; entities_ := ∅ |}.

Lemma relay_traffic_fails_witness :
  stack_step demo_modules demo_binder demo_relay (sender (A := gmap Z UmPdu) 0 16 1000 false)
    (IpPacket 1 (udp_packet 5)) = Throw "ctrlInfoToMacCid - unknown direction".
Proof.
  refine (relay_traffic_fails demo_modules demo_binder (LtePdcpRrcRelayUe 1) 3 1 1 1 1 257 demo_relay _ 1
    (udp_packet 5) (PdcpDemo.demo_info 5) eq_refl (or_intror (ex_intro _ 1 eq_refl)) _ _).
  - by repeat split.
  - split; [done|apply dg_udp|]. intros info' _. exists 1. reflexivity.
Defined.
