(* ===== verification/X2Msg.v ===== *)
(** * Messages between base stations and their wire format

    [LteX2Message] with its information elements (src/simulte/src/x2/packet/,
    stack/handoverManager/, stack/compManager/) and [LteX2MsgSerializer].  A member a
    constructor leaves uninitialised is [None]: reading it is undefined.  Encoding and
    decoding are inverse on messages with complete elements; a copied handover command
    and a decoded plain CoMP element are not complete. *)

From S2P Require Import Prelude MemoryStream.
From S2P Require Import LteCommon.
#[local] Open Scope Z_scope.

(** [LteX2MessageType], with the numbers of the enumerators. *)
Inductive LteX2MessageType : Type :=
| X2_COMP_MSG | X2_HANDOVER_CONTROL_MSG | X2_HANDOVER_DATA_MSG | X2_UNKNOWN_MSG.

#[export] Instance x2type_eq_dec : EqDecision LteX2MessageType.
Proof. solve_decision. Defined.

Definition x2type_code (t : LteX2MessageType) : Z :=
  match t with
  | X2_COMP_MSG => 0 | X2_HANDOVER_CONTROL_MSG => 1 | X2_HANDOVER_DATA_MSG => 2 | X2_UNKNOWN_MSG => 3
  end.

(** The classes of information elements.  [X2InformationElement(type)] leaves [length_]
    uninitialised, [X2CompRequestIE] and [X2CompReplyIE] set it to 0; [length_] of a
    proportional reply grows with each [setAllowedBlocksMap].  The states of its blocks are
    of the enum [CompRbStatus], which has the enumerators [AVAILABLE_RB] (0) and
    [NOT_AVAILABLE_RB] (1) and no fixed underlying type; they are integers here, since what
    is decoded need not be one of the two ([known_status]). *)
Inductive X2InformationElement : Type :=
| X2CompRequestIE (length_ : option Z)
| X2CompReplyIE (length_ : option Z)
| X2CompProportionalRequestIE (numBlocks_ : option Z)
| X2CompProportionalReplyIE (length_ : Z) (allowedBlocksMap_ : list Z)
| X2HandoverCommandIE (startHandover_ : option bool) (ueId_ : option Z).

Definition ie_type (ie : X2InformationElement) : Z :=
  match ie with
  | X2CompRequestIE _ => 0 | X2CompReplyIE _ => 1 | X2CompProportionalRequestIE _ => 2
  | X2CompProportionalReplyIE _ _ => 3 | X2HandoverCommandIE _ _ => 4
  end.

Definition ie_getLength (ie : X2InformationElement) : result Z :=
  match ie with
  | X2CompRequestIE len | X2CompReplyIE len => of_option len
  | X2CompProportionalRequestIE _ => Ok 4
  | X2CompProportionalReplyIE len _ => Ok len
  | X2HandoverCommandIE _ _ => Ok 3
  end.

Definition new_X2HandoverCommandIE : X2InformationElement := X2HandoverCommandIE (Some false) None.
Definition setAllowedBlocksMap (len : Z) (map : list Z) : X2InformationElement :=
  X2CompProportionalReplyIE (len + vsize map) map.

(** [dup()]: the copy constructor of [X2HandoverCommandIE] copies the members of the
    base class only. *)
Definition ie_dup (ie : X2InformationElement) : X2InformationElement :=
  match ie with
  | X2HandoverCommandIE _ _ => X2HandoverCommandIE None None
  | _ => ie
  end.

(** [x2_chunkLength] is in bytes. *)
Record LteX2Message := {
  x2_type : LteX2MessageType;
  x2_sourceId : Z;
  x2_destinationId : Z;
  ieList_ : list X2InformationElement;
  msgLength_ : Z;
  x2_chunkLength : Z
}.

#[export] Instance x2msg_eta : Eta LteX2Message := fun m =>
  {| x2_type := x2_type m; x2_sourceId := x2_sourceId m; x2_destinationId := x2_destinationId m;
     ieList_ := ieList_ m; msgLength_ := msgLength_ m; x2_chunkLength := x2_chunkLength m |}.

Definition new_LteX2Message (type : LteX2MessageType) : LteX2Message :=
  {| x2_type := type; x2_sourceId := 0; x2_destinationId := 0; ieList_ := []; msgLength_ := 0;
     x2_chunkLength := 11 |}.

Definition pushIe (m : LteX2Message) (ie : X2InformationElement) : result LteX2Message :=
  let! len := ie_getLength ie in
  Ok (m <| ieList_ := ieList_ m ++ [ie] |> <| msgLength_ := msgLength_ m + len |>
        <| x2_chunkLength := x2_chunkLength m + (len + 1) |>).

(** [front()] of an empty list is undefined. *)
Definition popIe (m : LteX2Message) : result (X2InformationElement * LteX2Message) :=
  match ieList_ m with
  | [] => UB
  | ie :: ies =>
      let! len := ie_getLength ie in
      Ok (ie, m <| ieList_ := ies |> <| msgLength_ := msgLength_ m - len |>)
  end.

(** The copy constructor, a deep copy of the list. *)
Definition x2_dup (m : LteX2Message) : LteX2Message := m <| ieList_ := map ie_dup (ieList_ m) |>.

(** ** LteX2MsgSerializer *)

Definition write_statuses (stream : MemoryOutputStream) (map : list Z) : MemoryOutputStream :=
  fold_left writeByte map stream.

Definition serializeStatusMap (stream : MemoryOutputStream) (map : list Z) : MemoryOutputStream :=
  write_statuses (writeUint32Be stream (uint32 (vsize map))) map.

Definition serialize_ie (stream : MemoryOutputStream) (ie : X2InformationElement) : result MemoryOutputStream :=
  let stream := writeByte stream (ie_type ie) in
  match ie with
  | X2CompRequestIE _ | X2CompReplyIE _ => Ok stream
  | X2CompProportionalRequestIE n => let! n := of_option n in Ok (writeUint32Be stream n)
  | X2CompProportionalReplyIE _ map => Ok (serializeStatusMap stream map)
  | X2HandoverCommandIE start ueId =>
      let! start := of_option start in
      let! ueId := of_option ueId in
      Ok (writeUint16Be (writeByte stream (Z.b2z start)) ueId)
  end.

Fixpoint serialize_ies (stream : MemoryOutputStream) (ies : list X2InformationElement) : result MemoryOutputStream :=
  match ies with
  | [] => Ok stream
  | ie :: ies' => let! stream := serialize_ie stream ie in serialize_ies stream ies'
  end.

(** Stream lengths are in bits. *)
Definition serialize_x2 (stream : MemoryOutputStream) (m : LteX2Message) : result MemoryOutputStream :=
  let startPosition := o_length stream in
  match x2_type m with
  | X2_UNKNOWN_MSG => Throw "LteX2MsgSerializer::serialize of X2 message type is not implemented!"
  | _ =>
      let stream := writeByte stream (x2type_code (x2_type m)) in
      let stream := writeUint32Be stream (x2_sourceId m) in
      let stream := writeUint32Be stream (x2_destinationId m) in
      let stream := writeUint16Be stream (wrap 16 (vsize (ieList_ m))) in
      let! stream := serialize_ies stream (ieList_ m) in
      let remainders := x2_chunkLength m - (o_length stream - startPosition) / 8 in
      if remainders <? 0 then Throw "LteX2Msg length smaller than required bytes"
      else if 0 <? remainders then Throw "LteX2Msg length larger than serialized bytes"
      else Ok stream
  end.

(** A state that is an enumerator of [CompRbStatus]. *)
Definition known_status (v : Z) : bool := (v =? 0) || (v =? 1).

(** [for (int i = 0; i < size; i++) map[i] = (CompRbStatus) stream.readByte();], where
    [size] is unsigned and [i] may overflow.  The cast does not check the byte: one that is
    neither 0 nor 1 is outside the values of the enum, and the C++ standard does not say what
    the cast gives.  It is kept as it is here, as compilers do that store the enum in an
    integer. *)
Fixpoint read_statuses (stream : MemoryInputStream) (n : nat) : result (list Z * MemoryInputStream) :=
  match n with
  | O => Ok ([], stream)
  | S n' =>
      let! (b, stream) := readByte stream in
      let! (bs, stream) := read_statuses stream n' in
      Ok (b :: bs, stream)
  end.

Definition deserializeStatusMap (stream : MemoryInputStream) : result (list Z * MemoryInputStream) :=
  let! (size, stream) := readUint32Be stream in
  if 2 ^ 31 - 1 <? size then UB else read_statuses stream (Z.to_nat size).

Definition deserialize_ie (stream : MemoryInputStream) : result (X2InformationElement * MemoryInputStream) :=
  let! (ieType, stream) := readByte stream in
  if ieType =? 0 then Ok (X2CompRequestIE None, stream)
  else if ieType =? 1 then Ok (X2CompReplyIE None, stream)
  else if ieType =? 2 then
    let! (n, stream) := readUint32Be stream in Ok (X2CompProportionalRequestIE (Some n), stream)
  else if ieType =? 3 then
    let! (map, stream) := deserializeStatusMap stream in Ok (setAllowedBlocksMap 4 map, stream)
  else if ieType =? 4 then
    let! (start, stream) := readByte stream in
    let! (ueId, stream) := readUint16Be stream in
    Ok (X2HandoverCommandIE (Some (negb (start =? 0))) (Some ueId), stream)
  else Throw "LteX2MsgSerializer::serialize for X2InformationElement type not implemented!".

Fixpoint deserialize_ies (stream : MemoryInputStream) (m : LteX2Message) (n : nat)
    : result (LteX2Message * MemoryInputStream) :=
  match n with
  | O => Ok (m, stream)
  | S n' =>
      let! (ie, stream) := deserialize_ie stream in
      let! m := pushIe m ie in
      deserialize_ies stream m n'
  end.

(** The message of the type read. *)
Definition x2_of_type (type : Z) : result LteX2Message :=
  if type =? 0 then Ok (new_LteX2Message X2_COMP_MSG)
  else if type =? 1 then Ok (new_LteX2Message X2_HANDOVER_CONTROL_MSG)
  else if type =? 2 then Ok (new_LteX2Message X2_HANDOVER_DATA_MSG)
  else Throw "LteX2MsgSerializer::deserialize of X2 message type ist not implemented!".

Definition deserialize_x2 (stream : MemoryInputStream) : result (LteX2Message * MemoryInputStream) :=
  let! (type, stream) := readByte stream in
  let! m := x2_of_type type in
  let! (src, stream) := readUint32Be stream in
  let! (dst, stream) := readUint32Be stream in
  let! (nrElements, stream) := readUint16Be stream in
  deserialize_ies stream (m <| x2_sourceId := src |> <| x2_destinationId := dst |>) (Z.to_nat nrElements).

(** ** Complete messages *)

(** An element whose members have values, within their widths. *)
Definition ie_complete (ie : X2InformationElement) : Prop :=
  match ie with
  | X2CompRequestIE _ | X2CompReplyIE _ => False
  | X2CompProportionalRequestIE n => exists v, n = Some v /\ is_uint 32 v
  | X2CompProportionalReplyIE len map => len = 4 + vsize map /\ vsize map < 2 ^ 31 /\ Forall (is_uint 8) map
  | X2HandoverCommandIE start ueId => is_Some start /\ exists v, ueId = Some v /\ is_uint 16 v
  end.

Definition ie_bytes (ie : X2InformationElement) : Z :=
  match ie_getLength ie with Ok len => len + 1 | _ => 0 end.

(** The bytes of all elements, each with its type. *)
Definition ies_bytes (ies : list X2InformationElement) : Z := foldr (fun ie n => ie_bytes ie + n) 0 ies.

Record x2_complete (m : LteX2Message) : Prop := {
  xc_type : x2_type m <> X2_UNKNOWN_MSG;
  xc_source : is_uint 32 (x2_sourceId m);
  xc_destination : is_uint 32 (x2_destinationId m);
  xc_count : vsize (ieList_ m) < 2 ^ 16;
  xc_ies : Forall ie_complete (ieList_ m);
  xc_length : msgLength_ m = ies_bytes (ieList_ m) - vsize (ieList_ m);
  xc_chunk : x2_chunkLength m = 11 + ies_bytes (ieList_ m)
}.
