(* ===== verification/X2Props.v ===== *)
(** * Messages between base stations: properties

    Complete messages survive the wire; whatever is decoded is complete; a message
    with a plain CoMP element can be sent but not received. *)

From S2P Require Import Prelude MemoryStream.
From S2P Require Import LteCommon.
From S2P Require Import X2Msg.
#[local] Open Scope Z_scope.

(** ** The bytes of a message *)

Definition bytes16 : Z -> list Z := be_bytes [8; 0].
Definition bytes32 : Z -> list Z := be_bytes [24; 16; 8; 0].

Definition ie_wire (ie : X2InformationElement) : list Z :=
  ie_type ie ::
  match ie with
  | X2CompRequestIE _ | X2CompReplyIE _ => []
  | X2CompProportionalRequestIE n => bytes32 (default 0 n)
  | X2CompProportionalReplyIE _ map => bytes32 (vsize map) ++ map
  | X2HandoverCommandIE start ueId => Z.b2z (default false start) :: bytes16 (default 0 ueId)
  end.

Definition x2_wire (m : LteX2Message) : list Z :=
  x2type_code (x2_type m) :: bytes32 (x2_sourceId m) ++ bytes32 (x2_destinationId m) ++
  bytes16 (vsize (ieList_ m)) ++ concat (map ie_wire (ieList_ m)).

Lemma ie_wire_length ie : ie_complete ie -> vsize (ie_wire ie) = ie_bytes ie.
Proof.
  destruct ie as [n|n|n|len l|st ue]; cbn; try done.
  intros (-> & _). unfold ie_bytes. cbn. rewrite ?length_app. cbn. lia.
Qed.

Lemma ies_bytes_cons ie ies : ies_bytes (ie :: ies) = ie_bytes ie + ies_bytes ies.
Proof. done. Qed.

Lemma ies_wire_length ies : Forall ie_complete ies -> vsize (concat (map ie_wire ies)) = ies_bytes ies.
Proof.
  induction 1 as [|ie ies Hie _ IH]; [done|]. cbn [map concat ies_bytes foldr]. fold (ies_bytes ies).
  rewrite length_app, Nat2Z.inj_add, IH, ie_wire_length by done. done.
Qed.

Lemma x2_wire_length m : x2_complete m -> vsize (x2_wire m) = x2_chunkLength m.
Proof.
  intros Hm. rewrite (xc_chunk _ Hm), <- (ies_wire_length _ (xc_ies _ Hm)). unfold x2_wire.
  cbn [length]. rewrite !length_app. cbn [length bytes32 bytes16 be_bytes map]. lia.
Qed.

(** ** Encoding *)

Lemma write_statuses_bytes s l : o_aligned s -> Forall (is_uint 8) l -> write_statuses s l = append s l.
Proof.
  intros Hs Hl. revert s Hs. induction Hl as [|b l Hb _ IH]; intros s Hs; cbn.
  - unfold append. rewrite app_nil_r. destruct s. cbn. f_equal. lia.
  - rewrite writeByte_aligned by done. unfold write_statuses in IH. rewrite IH by (by apply append_aligned).
    by rewrite append_append, wrap_small.
Qed.

Lemma serialize_ie_bytes s ie : o_aligned s -> ie_complete ie -> serialize_ie s ie = Ok (append s (ie_wire ie)).
Proof.
  intros Hs Hie. unfold serialize_ie. rewrite writeByte_aligned by done.
  assert (Ha : o_aligned (append s [uint8 (ie_type ie)])) by (by apply append_aligned).
  destruct ie as [n|n|n|len l|st ue]; cbn [ie_complete ie_type] in *; [done|done|..].
  - destruct Hie as (v & -> & Hv). cbn [of_option rbind].
    rewrite writeUint32Be_aligned by done. by rewrite append_append.
  - destruct Hie as (_ & Hl & Hb). unfold serializeStatusMap.
    rewrite writeUint32Be_aligned, (wrap_small 32) by (done || (unfold is_uint; lia)).
    rewrite write_statuses_bytes by (first [by repeat apply append_aligned|done]). by rewrite !append_append.
  - destruct Hie as ([b ->] & v & -> & Hv). cbn [of_option rbind].
    rewrite (writeByte_aligned (append _ _)) by done. rewrite writeUint16Be_aligned by (by apply append_aligned).
    rewrite !append_append. by destruct b.
Qed.

Lemma serialize_ies_bytes s ies :
  o_aligned s -> Forall ie_complete ies -> serialize_ies s ies = Ok (append s (concat (map ie_wire ies))).
Proof.
  intros Hs Hies. revert s Hs. induction Hies as [|ie ies Hie _ IH]; intros s Hs; cbn [serialize_ies].
  - cbn. unfold append. rewrite app_nil_r. destruct s. cbn. do 2 f_equal. lia.
  - rewrite serialize_ie_bytes by done. cbn [rbind]. rewrite IH by (by apply append_aligned).
    by rewrite append_append.
Qed.

Lemma serialize_x2_bytes s m :
  o_aligned s -> x2_complete m -> serialize_x2 s m = Ok (append s (x2_wire m)).
Proof.
  intros Hs Hm. unfold serialize_x2.
  rewrite writeByte_aligned by done.
  rewrite (writeUint32Be_aligned (append s _)) by (by apply append_aligned). rewrite append_append.
  rewrite (writeUint32Be_aligned (append s _)) by (by apply append_aligned). rewrite append_append.
  rewrite (writeUint16Be_aligned (append s _)) by (by apply append_aligned). rewrite append_append.
  rewrite serialize_ies_bytes by (by apply append_aligned || apply Hm). cbn [rbind].
  rewrite append_append, (wrap_small 16) by (pose proof (xc_count _ Hm); unfold is_uint; lia).
  pose proof (x2_wire_length m Hm) as Hlen.
  assert (E : ((([uint8 (x2type_code (x2_type m))] ++ bytes32 (x2_sourceId m)) ++ bytes32 (x2_destinationId m)) ++
     bytes16 (vsize (ieList_ m))) ++ concat (map ie_wire (ieList_ m)) = x2_wire m).
  { unfold x2_wire. rewrite <- !app_assoc. by destruct (x2_type m). }
  unfold bytes32, bytes16 in E. rewrite E. cbn [append o_length].
  replace (o_length s + 8 * vsize (x2_wire m) - o_length s) with (vsize (x2_wire m) * 8) by lia.
  rewrite Z.div_mul, Hlen, Z.sub_diag by lia. pose proof (xc_type _ Hm). by destruct (x2_type m).
Qed.

(** ** Decoding *)

Lemma read_statuses_bytes s l rest :
  i_reads s (l ++ rest) ->
  exists s', read_statuses s (length l) = Ok (l, s') /\ i_reads s' rest /\
    i_isReadBeyondEnd s' = i_isReadBeyondEnd s.
Proof.
  revert s. induction l as [|b l IH]; intros s Hs; cbn [read_statuses length]; [by exists s|].
  destruct (readByte_reads _ _ _ Hs) as (s1 & -> & H1 & E1). cbn [rbind].
  destruct (IH _ H1) as (s2 & -> & H2 & E2). exists s2. split; [done|]. split; [done|congruence].
Qed.

Lemma deserialize_ie_bytes s ie rest :
  ie_complete ie -> i_reads s (ie_wire ie ++ rest) ->
  exists s', deserialize_ie s = Ok (ie, s') /\ i_reads s' rest /\ i_isReadBeyondEnd s' = i_isReadBeyondEnd s.
Proof.
  intros Hie Hs. unfold deserialize_ie. unfold ie_wire in Hs. cbn [app] in Hs.
  destruct (readByte_reads _ _ _ Hs) as (s1 & -> & H1 & E1). cbn [rbind]. clear Hs.
  destruct ie as [n|n|n|len l|st ue]; cbn [ie_complete ie_type] in *; [done|done|..].
  - destruct Hie as (v & -> & Hv). cbn [Z.eqb Pos.eqb default] in *.
    destruct (readUint32Be_reads _ _ _ H1) as (s2 & -> & H2 & E2). cbn [rbind].
    rewrite wrap_small by done. exists s2. split; [done|]. split; [done|congruence].
  - destruct Hie as (-> & Hl & Hb). cbn [Z.eqb Pos.eqb]. rewrite <- app_assoc in H1. unfold deserializeStatusMap.
    destruct (readUint32Be_reads _ _ _ H1) as (s2 & -> & H2 & E2). cbn [rbind].
    rewrite wrap_small, (proj2 (Z.ltb_ge _ _)), Nat2Z.id by (unfold is_uint; lia).
    destruct (read_statuses_bytes _ _ _ H2) as (s3 & -> & H3 & E3). exists s3. split; [done|]. split; [done|congruence].
  - destruct Hie as ([b ->] & v & -> & Hv). cbn [Z.eqb Pos.eqb default] in *. cbn [app] in H1.
    destruct (readByte_reads _ _ _ H1) as (s2 & -> & H2 & E2). cbn [rbind].
    destruct (readUint16Be_reads _ _ _ H2) as (s3 & -> & H3 & E3). cbn [rbind]. rewrite wrap_small by done.
    exists s3. split; [by destruct b|]. split; [done|congruence].
Qed.

Lemma complete_length ie : ie_complete ie -> ie_getLength ie = Ok (ie_bytes ie - 1).
Proof. destruct ie as [n|n|n|len l|st ue]; cbn; try done. intros _. unfold ie_bytes. cbn. f_equal. lia. Qed.

Lemma deserialize_ies_bytes s m ies rest :
  Forall ie_complete ies -> i_reads s (concat (map ie_wire ies) ++ rest) ->
  exists s', deserialize_ies s m (length ies) =
      Ok (m <| ieList_ := ieList_ m ++ ies |> <| msgLength_ := msgLength_ m + (ies_bytes ies - vsize ies) |>
            <| x2_chunkLength := x2_chunkLength m + ies_bytes ies |>, s') /\
    i_reads s' rest /\ i_isReadBeyondEnd s' = i_isReadBeyondEnd s.
Proof.
  intros Hies. revert s m. induction Hies as [|ie ies Hie _ IH]; intros s m Hs; cbn [deserialize_ies length].
  - exists s. split; [|done]. cbn. rewrite app_nil_r, !Z.add_0_r. by destruct m.
  - cbn [map concat] in Hs. rewrite <- app_assoc in Hs.
    destruct (deserialize_ie_bytes _ _ _ Hie Hs) as (s1 & -> & H1 & E1). cbn [rbind].
    unfold pushIe. rewrite complete_length by done. cbn [rbind].
    destruct (IH s1 (m <| ieList_ := ieList_ m ++ [ie] |> <| msgLength_ := msgLength_ m + (ie_bytes ie - 1) |>
        <| x2_chunkLength := x2_chunkLength m + (ie_bytes ie - 1 + 1) |>) H1) as (s2 & -> & H2 & E2).
    exists s2. split; [|split; [done|congruence]]. rewrite ies_bytes_cons. cbn -[ies_bytes]. rewrite <- app_assoc.
    cbn -[ies_bytes]. do 3 f_equal; lia.
Qed.

(** C31. X2 messages survive the wire: a complete message of a known type is encoded in
    exactly as many bytes as its chunk length says, and decoding them gives it back,
    without reading past the end. *)
Theorem x2_roundtrip (m : LteX2Message) :
  x2_complete m ->
  exists out, serialize_x2 empty_ostream m = Ok out /\ vsize (o_data out) = x2_chunkLength m /\
    exists s, deserialize_x2 (istream_of (o_data out)) = Ok (m, s) /\ i_isReadBeyondEnd s = false.
Proof.
  intros Hm. rewrite serialize_x2_bytes by done. eexists. split; [done|]. cbn [append empty_ostream o_data app].
  split; [by apply x2_wire_length|]. unfold deserialize_x2.
  pose proof (istream_of_reads (x2_wire m)) as Hs. unfold x2_wire at 2 in Hs.
  destruct (readByte_reads _ _ _ Hs) as (s1 & -> & H1 & E1). cbn [rbind].
  assert (Ht : x2_of_type (x2type_code (x2_type m)) = Ok (new_LteX2Message (x2_type m))).
  { pose proof (xc_type _ Hm). by destruct (x2_type m). }
  rewrite Ht. cbn [rbind].
  destruct (readUint32Be_reads _ _ _ H1) as (s2 & -> & H2 & E2). cbn [rbind].
  destruct (readUint32Be_reads _ _ _ H2) as (s3 & -> & H3 & E3). cbn [rbind].
  destruct (readUint16Be_reads _ _ _ H3) as (s4 & -> & H4 & E4). cbn [rbind].
  rewrite !wrap_small by (try apply Hm; pose proof (xc_count _ Hm); unfold is_uint; lia).
  rewrite Nat2Z.id. rewrite <- (app_nil_r (concat _)) in H4.
  destruct (deserialize_ies_bytes s4 ((new_LteX2Message (x2_type m)) <| x2_sourceId := x2_sourceId m |>
     <| x2_destinationId := x2_destinationId m |>) _ [] (xc_ies _ Hm) H4) as (s5 & -> & H5 & E5).
  exists s5. split; [|by rewrite E5, E4, E3, E2, E1]. cbn. rewrite <- (xc_length _ Hm), <- (xc_chunk _ Hm). by destruct m.
Qed.

Definition handover_message : LteX2Message :=
  {| x2_type := X2_HANDOVER_CONTROL_MSG; x2_sourceId := 1; x2_destinationId := 2;
     ieList_ := [X2HandoverCommandIE (Some true) (Some 1025)]; msgLength_ := 3; x2_chunkLength := 15 |}.

Lemma x2_roundtrip_witness :
  exists out, serialize_x2 empty_ostream handover_message = Ok out /\ vsize (o_data out) = 15 /\
    exists s, deserialize_x2 (istream_of (o_data out)) = Ok (handover_message, s) /\ i_isReadBeyondEnd s = false.
Proof.
  apply (x2_roundtrip handover_message). split; try done.
  repeat constructor; [by eexists|]. eexists. split; [reflexivity|]. split; lia.
Defined.

(** ** What can be decoded *)

Lemma read_statuses_range s n l s' :
  i_bytes s -> read_statuses s n = Ok (l, s') -> length l = n /\ Forall (is_uint 8) l /\ i_bytes s'.
Proof.
  revert s l. induction n as [|n IH]; intros s l Hs; cbn [read_statuses].
  - intros [= <- <-]. split; [done|]. split; [constructor|done].
  - intros ([b s1] & Hb & ([bs s2] & Hr & [= <- <-])%rbind_Ok_inv)%rbind_Ok_inv.
    destruct (readByte_range _ _ _ Hs Hb) as [Hb' Hs1]. destruct (IH _ _ Hs1 Hr) as (<- & Hf & Hs2).
    split; [done|]. split; [by constructor|done].
Qed.

Definition plain_comp (ie : X2InformationElement) : Prop :=
  ie = X2CompRequestIE None \/ ie = X2CompReplyIE None.

Lemma deserialize_ie_type s ie s' :
  i_bytes s -> deserialize_ie s = Ok (ie, s') -> (ie_complete ie \/ plain_comp ie) /\ i_bytes s'.
Proof.
  intros Hs. unfold deserialize_ie. intros ([t s1] & Ht & H)%rbind_Ok_inv.
  destruct (readByte_range _ _ _ Hs Ht) as [_ Hs1].
  destruct (t =? 0); [injection H as <- <-; split; [right; by left|done]|].
  destruct (t =? 1); [injection H as <- <-; split; [right; by right|done]|].
  destruct (t =? 2).
  { apply rbind_Ok_inv in H as ([n s2] & Hn & [= <- <-]). destruct (readUint32Be_range _ _ _ Hs1 Hn) as [Hn' Hs2].
    split; [left; by exists n|done]. }
  destruct (t =? 3).
  { apply rbind_Ok_inv in H as ([l s2] & Hl & [= <- <-]). unfold deserializeStatusMap in Hl.
    apply rbind_Ok_inv in Hl as ([n s3] & Hn & Hl). destruct (readUint32Be_range _ _ _ Hs1 Hn) as [Hn' Hs3].
    destruct (Z.ltb_spec (2 ^ 31 - 1) n); [done|]. destruct (read_statuses_range _ _ _ _ Hs3 Hl) as (El & Hf & Hs2).
    split; [|done]. left. cbn. unfold is_uint in Hn'. split; [done|]. split; [lia|done]. }
  destruct (t =? 4); [|done].
  apply rbind_Ok_inv in H as ([b s2] & Hb & H). apply rbind_Ok_inv in H as ([u s3] & Hu & [= <- <-]).
  destruct (readByte_range _ _ _ Hs1 Hb) as [_ Hs2]. destruct (readUint16Be_range _ _ _ Hs2 Hu) as [Hu' Hs3].
  split; [left; split; [by eexists|by exists u]|done].
Qed.

(** Only complete elements can be added to a message. *)
Lemma pushIe_complete m ie m' :
  ie_complete ie \/ plain_comp ie -> pushIe m ie = Ok m' ->
  ie_complete ie /\ m' = m <| ieList_ := ieList_ m ++ [ie] |> <| msgLength_ := msgLength_ m + (ie_bytes ie - 1) |>
    <| x2_chunkLength := x2_chunkLength m + ie_bytes ie |>.
Proof.
  intros [Hie|[->| ->]] H; try done. split; [done|]. unfold pushIe in H. rewrite complete_length in H by done.
  injection H as <-. by rewrite Z.sub_add.
Qed.

Lemma ies_bytes_app a b : ies_bytes (a ++ b) = ies_bytes a + ies_bytes b.
Proof. induction a as [|x a IH]; [done|]. cbn [app ies_bytes foldr]. fold (ies_bytes (a ++ b)) (ies_bytes a). lia. Qed.

Lemma deserialize_ies_type s m n m' s' :
  i_bytes s -> deserialize_ies s m n = Ok (m', s') ->
  exists ies, length ies = n /\ Forall ie_complete ies /\
    m' = m <| ieList_ := ieList_ m ++ ies |> <| msgLength_ := msgLength_ m + (ies_bytes ies - vsize ies) |>
           <| x2_chunkLength := x2_chunkLength m + ies_bytes ies |>.
Proof.
  revert s m. induction n as [|n IH]; intros s m Hs; cbn [deserialize_ies].
  - intros [= <- <-]. exists []. split; [done|]. split; [constructor|]. cbn. rewrite app_nil_r, !Z.add_0_r. by destruct m.
  - intros ([ie s1] & Hie & (m1 & Hp & Hr)%rbind_Ok_inv)%rbind_Ok_inv.
    destruct (deserialize_ie_type _ _ _ Hs Hie) as [Ht Hs1]. destruct (pushIe_complete _ _ _ Ht Hp) as [Hc ->].
    destruct (IH _ _ Hs1 Hr) as (ies & <- & Hf & ->). exists (ie :: ies). split; [done|]. split; [by constructor|].
    rewrite ies_bytes_cons. cbn -[ies_bytes]. rewrite <- app_assoc. cbn -[ies_bytes]. f_equal; lia.
Qed.

(** ** What was decoded is what arrived *)

(** The bytes an element is decoded from: those it is encoded in, but that any byte except 0
    starts a handover.  The states of blocks are the bytes, whatever they are. *)
Definition ie_received (ie : X2InformationElement) (bs : list Z) : Prop :=
  match ie with
  | X2HandoverCommandIE start ueId =>
      exists b, bs = [4; b] ++ bytes16 (default 0 ueId) /\ start = Some (negb (b =? 0))
  | _ => bs = ie_wire ie
  end.

Lemma read_statuses_consumes n : forall s rest l s',
  i_reads s rest -> read_statuses s n = Ok (l, s') ->
  exists rest', i_reads s' rest' /\
    (i_isReadBeyondEnd s' = false -> i_isReadBeyondEnd s = false /\ rest = l ++ rest').
Proof.
  induction n as [|n IH]; intros s rest l s' Hs; cbn [read_statuses].
  - intros [= <- <-]. by exists rest.
  - intros ([b s1] & Hb & ([bs s2] & Hr & [= <- <-])%rbind_Ok_inv)%rbind_Ok_inv.
    destruct (readByte_consumes _ _ _ _ Hs Hb) as (rest1 & H1 & E1).
    destruct (IH _ _ _ _ H1 Hr) as (rest' & H' & E'). exists rest'. split; [done|].
    intros Hend. destruct (E' Hend) as [Ha ->]. destruct (E1 Ha) as [? ->]. done.
Qed.

(** Readers one after the other. *)
Lemma consumes_step (s s1 s2 : MemoryInputStream) (rest rest1 rest2 a b : list Z) :
  (i_isReadBeyondEnd s1 = false -> i_isReadBeyondEnd s = false /\ rest = a ++ rest1) ->
  (i_isReadBeyondEnd s2 = false -> i_isReadBeyondEnd s1 = false /\ rest1 = b ++ rest2) ->
  i_isReadBeyondEnd s2 = false -> i_isReadBeyondEnd s = false /\ rest = (a ++ b) ++ rest2.
Proof. intros H1 H2 H. destruct (H2 H) as [Ha ->]. destruct (H1 Ha) as [? ->]. by rewrite app_assoc. Qed.

Lemma statusMap_consumes s rest l s' :
  i_bytes s -> i_reads s rest -> deserializeStatusMap s = Ok (l, s') ->
  exists rest', i_reads s' rest' /\
    (i_isReadBeyondEnd s' = false -> i_isReadBeyondEnd s = false /\ rest = (bytes32 (vsize l) ++ l) ++ rest').
Proof.
  intros Hi Hs. unfold deserializeStatusMap. intros ([n s1] & Hn & Hl)%rbind_Ok_inv.
  destruct (readUint32Be_range _ _ _ Hi Hn) as [Hn' _]. destruct (readUint32Be_consumes _ _ _ _ Hi Hs Hn) as (rest1 & H1 & Hi1 & E1).
  destruct (Z.ltb_spec (2 ^ 31 - 1) n); [done|]. destruct (read_statuses_range _ _ _ _ Hi1 Hl) as (El & _).
  destruct (read_statuses_consumes _ _ _ _ _ H1 Hl) as (rest' & H' & E'). exists rest'. split; [done|].
  unfold is_uint in Hn'. rewrite El, Z2Nat.id by lia. by eapply consumes_step.
Qed.

Lemma deserialize_ie_consumes s rest ie s' :
  i_bytes s -> i_reads s rest -> deserialize_ie s = Ok (ie, s') ->
  exists rest' bs, i_reads s' rest' /\
    (i_isReadBeyondEnd s' = false -> i_isReadBeyondEnd s = false /\ rest = bs ++ rest') /\ ie_received ie bs.
Proof.
  intros Hi Hs. unfold deserialize_ie. intros ([t s1] & Ht & H)%rbind_Ok_inv.
  destruct (readByte_range _ _ _ Hi Ht) as [_ Hi1]. destruct (readByte_consumes _ _ _ _ Hs Ht) as (rest1 & H1 & E1).
  change (t :: rest1) with ([t] ++ rest1) in E1.
  destruct (Z.eqb_spec t 0) as [->|_]; [injection H as <- <-; by exists rest1, [0]|].
  destruct (Z.eqb_spec t 1) as [->|_]; [injection H as <- <-; by exists rest1, [1]|].
  destruct (Z.eqb_spec t 2) as [->|_].
  { apply rbind_Ok_inv in H as ([n s2] & Hn & [= <- <-]). destruct (readUint32Be_consumes _ _ _ _ Hi1 H1 Hn) as (rest2 & H2 & _ & E2).
    exists rest2, ([2] ++ bytes32 n). split; [done|]. split; [by eapply consumes_step|done]. }
  destruct (Z.eqb_spec t 3) as [->|_].
  { apply rbind_Ok_inv in H as ([l s2] & Hl & [= <- <-]). destruct (statusMap_consumes _ _ _ _ Hi1 H1 Hl) as (rest2 & H2 & E2).
    exists rest2, ([3] ++ bytes32 (vsize l) ++ l). split; [done|]. split; [by eapply consumes_step|done]. }
  destruct (Z.eqb_spec t 4) as [->|_]; [|done].
  apply rbind_Ok_inv in H as ([b s2] & Hb & H). apply rbind_Ok_inv in H as ([u s3] & Hu & [= <- <-]).
  destruct (readByte_range _ _ _ Hi1 Hb) as [_ Hi2]. destruct (readByte_consumes _ _ _ _ H1 Hb) as (rest2 & H2 & E2).
  destruct (readUint16Be_consumes _ _ _ _ Hi2 H2 Hu) as (rest3 & H3 & _ & E3). exists rest3, (([4] ++ [b]) ++ bytes16 u).
  split; [done|]. split; [|by exists b]. eapply consumes_step; [|exact E3]. by eapply consumes_step.
Qed.

Lemma deserialize_ies_consumes n : forall s m rest m' s',
  i_bytes s -> i_reads s rest -> deserialize_ies s m n = Ok (m', s') ->
  exists rest' ies parts, i_reads s' rest' /\ ieList_ m' = ieList_ m ++ ies /\ Forall2 ie_received ies parts /\
    (i_isReadBeyondEnd s' = false -> i_isReadBeyondEnd s = false /\ rest = concat parts ++ rest').
Proof.
  induction n as [|n IH]; intros s m rest m' s' Hi Hs; cbn [deserialize_ies].
  - intros [= <- <-]. exists rest, [], []. split_and!; [done|by rewrite app_nil_r|constructor|done].
  - intros ([ie s1] & Hie & (m1 & Hp & Hr)%rbind_Ok_inv)%rbind_Ok_inv.
    destruct (deserialize_ie_type _ _ _ Hi Hie) as [_ Hi1].
    destruct (deserialize_ie_consumes _ _ _ _ Hi Hs Hie) as (rest1 & bs & H1 & E1 & Hrec).
    destruct (IH _ _ _ _ _ Hi1 H1 Hr) as (rest' & ies & parts & H' & El & Hf & E').
    exists rest', (ie :: ies), (bs :: parts). split_and!; [done| |by constructor|by eapply consumes_step].
    apply rbind_Ok_inv in Hp as (len & _ & [= <-]). rewrite El. cbn. by rewrite <- app_assoc.
Qed.

Lemma x2_of_type_inv t m0 : x2_of_type t = Ok m0 -> exists ty, ty <> X2_UNKNOWN_MSG /\ t = x2type_code ty /\ m0 = new_LteX2Message ty.
Proof.
  unfold x2_of_type. destruct (Z.eqb_spec t 0); [intros [= <-]; by exists X2_COMP_MSG|].
  destruct (Z.eqb_spec t 1); [intros [= <-]; by exists X2_HANDOVER_CONTROL_MSG|].
  destruct (Z.eqb_spec t 2); [intros [= <-]; by exists X2_HANDOVER_DATA_MSG|done].
Qed.

(** C32. Whatever bytes arrive, a message that is decoded is complete: its identifiers and
    counts fit their types and its recorded lengths are those of its elements.  When the
    decoder did not run past the end of a byte-aligned stream, the message is exactly what
    arrived: the type, the identifiers, the number of elements and the elements one after
    the other, of which only the flag of a handover command is normalised.  The states of
    resource blocks are the bytes received: the code does not check them against the two
    enumerators of their type, and neither a state is changed nor a message with an unknown
    one refused. *)
Theorem x2_decoded_complete (s : MemoryInputStream) m s' :
  i_bytes s -> deserialize_x2 s = Ok (m, s') ->
  x2_complete m /\
  forall bytes, i_reads s bytes -> i_isReadBeyondEnd s' = false ->
    exists parts rest, Forall2 ie_received (ieList_ m) parts /\ i_reads s' rest /\
      bytes = (x2type_code (x2_type m) :: bytes32 (x2_sourceId m) ++ bytes32 (x2_destinationId m) ++
               bytes16 (vsize (ieList_ m)) ++ concat parts) ++ rest.
Proof.
  intros Hs. unfold deserialize_x2.
  intros ([t s1] & Ht & (m0 & Hm0 & H)%rbind_Ok_inv)%rbind_Ok_inv.
  apply rbind_Ok_inv in H as ([src s2] & H2 & H). apply rbind_Ok_inv in H as ([dst s3] & H3 & H).
  apply rbind_Ok_inv in H as ([n s4] & H4 & H).
  destruct (readByte_range _ _ _ Hs Ht) as [_ Hs1]. destruct (readUint32Be_range _ _ _ Hs1 H2) as [Hsrc Hs2].
  destruct (readUint32Be_range _ _ _ Hs2 H3) as [Hdst Hs3]. destruct (readUint16Be_range _ _ _ Hs3 H4) as [Hn Hs4].
  destruct (deserialize_ies_type _ _ _ _ _ Hs4 H) as (ies & Hl & Hf & Em).
  destruct (x2_of_type_inv _ _ Hm0) as (ty & Hty & -> & ->). unfold is_uint in Hn.
  split; [subst m; split; cbn; try done; lia|]. intros bytes Hb Hend.
  destruct (readByte_consumes _ _ _ _ Hb Ht) as (r1 & R1 & E1). change (x2type_code ty :: r1) with ([x2type_code ty] ++ r1) in E1.
  destruct (readUint32Be_consumes _ _ _ _ Hs1 R1 H2) as (r2 & R2 & _ & E2).
  destruct (readUint32Be_consumes _ _ _ _ Hs2 R2 H3) as (r3 & R3 & _ & E3).
  destruct (readUint16Be_consumes _ _ _ _ Hs3 R3 H4) as (r4 & R4 & _ & E4).
  destruct (deserialize_ies_consumes _ _ _ _ _ _ Hs4 R4 H) as (r5 & ies' & parts & R5 & El & Hrec & E5).
  exists parts, r5. cbn in El. assert (ies' = ies) as -> by (subst m; done). rewrite El. split; [done|]. split; [done|].
  destruct (consumes_step _ _ _ _ _ _ _ _ (consumes_step _ _ _ _ _ _ _ _ (consumes_step _ _ _ _ _ _ _ _
    (consumes_step _ _ _ _ _ _ _ _ E1 E2) E3) E4) E5 Hend) as [_ ->].
  subst m. cbn [x2_type x2_sourceId x2_destinationId set ieList_ new_LteX2Message app]. rewrite Hl, Z2Nat.id by lia.
  by rewrite <- !app_assoc.
Qed.

(** A reply of the proportional CoMP manager in which the state of the second block is 7. *)
Definition odd_reply_bytes : list Z := [0; 0; 0; 0; 1; 0; 0; 0; 2; 0; 1; 3; 0; 0; 0; 2; 1; 7].

Definition odd_reply : LteX2Message :=
  {| x2_type := X2_COMP_MSG; x2_sourceId := 1; x2_destinationId := 2;
     ieList_ := [X2CompProportionalReplyIE 6 [1; 7]]; msgLength_ := 6; x2_chunkLength := 18 |}.

Lemma x2_decoded_complete_witness :
  exists s', deserialize_x2 (istream_of odd_reply_bytes) = Ok (odd_reply, s') /\ x2_complete odd_reply /\
    (exists parts rest, Forall2 ie_received (ieList_ odd_reply) parts /\ i_reads s' rest /\
      odd_reply_bytes = (0 :: bytes32 1 ++ bytes32 2 ++ bytes16 1 ++ concat parts) ++ rest) /\
    map known_status [1; 7] = [true; false].
Proof.
  set (s' := {| i_data := odd_reply_bytes; i_length := 144; i_position := 144; i_isReadBeyondEnd := false |}).
  assert (E : deserialize_x2 (istream_of odd_reply_bytes) = Ok (odd_reply, s')) by (vm_compute; reflexivity).
  destruct (x2_decoded_complete (istream_of odd_reply_bytes) odd_reply s') as [Hc Hb].
  - apply (bool_decide_unpack _). vm_compute. exact I.
  - exact E.
  - exists s'. split; [exact E|]. split; [exact Hc|]. split; [|reflexivity].
    exact (Hb odd_reply_bytes (istream_of_reads _) eq_refl).
Defined.

(** A request without block counts, as the base class of the CoMP manager sends it, is
    encoded, but the length of the decoded element is indeterminate. *)
Definition comp_message : LteX2Message :=
  {| x2_type := X2_COMP_MSG; x2_sourceId := 1; x2_destinationId := 2; ieList_ := [X2CompRequestIE (Some 0)];
     msgLength_ := 0; x2_chunkLength := 12 |}.

Example comp_message_unreadable :
  (let! out := serialize_x2 empty_ostream comp_message in deserialize_x2 (istream_of (o_data out))) = UB.
Proof. vm_compute. reflexivity. Qed.
