(* ===== verification/IP2lte.v ===== *)
(** * The interface between IP and the LTE stack

    [IP2lte] (src/simulte/src/corenetwork/lteip/IP2lte.cc): every datagram for the LTE
    stack gets a [FlowControlInfo] tag with its addresses, ports and a sequence number,
    every datagram from the stack loses its tags.  During a handover the UE holds its
    packets, the old base station tunnels them to the new one, and the new one keeps
    them apart from those of its own until the handover is complete.

    A base station without a handover manager is one whose [hasHoManager] is false.
    Interfaces, routes and link-layer tokens belong to INET and are left out. *)

From S2P Require Import Prelude.
From S2P Require Import LteCommon.
From S2P Require Import LteBinder.
From S2P Require Import Pdcp.
#[local] Open Scope Z_scope.

(** ** Datagrams *)

Record Ipv4Header := {
  ih_srcAddress : Z;
  ih_destAddress : Z;
  ih_protocolId : Z;
  ih_headerLength : Z
}.

Inductive TransportHeader : Type :=
| TcpHeader (srcPort destPort headerLength : Z)
| UdpHeader (srcPort destPort : Z).

(** A datagram: the IP header at the front, the transport header behind it if it is one
    of TCP or UDP, the header in the [TransportProtocolInd] tag, and the rest. *)
Record Datagram := {
  dg_header : Ipv4Header;
  dg_transport : option TransportHeader;
  dg_transportInd : option TransportHeader;
  dg_packet : DataPacket
}.

#[export] Instance datagram_eta : Eta Datagram := fun d =>
  {| dg_header := dg_header d; dg_transport := dg_transport d; dg_transportInd := dg_transportInd d;
     dg_packet := dg_packet d |}.

Definition dg_dest (d : Datagram) : Z := ih_destAddress (dg_header d).

Definition removeAllSimuLteTags (d : Datagram) : Datagram :=
  d <| dg_packet := (dg_packet d) <| flow_tag := None |> |>.

(** [addTagIfAbsent<FlowControlInfo>()], and what is set on it. *)
Definition add_flow (d : Datagram) (f : FlowControlInfo -> FlowControlInfo) : Datagram :=
  d <| dg_packet := (dg_packet d) <| flow_tag := Some (f (default new_FlowControlInfo (flow_tag (dg_packet d)))) |> |>.

(** ** The module *)

Record IP2lte := {
  seqNums_ : gmap (Z * Z) Z;
  hoForwarding_ : gmap Z Z;
  hoHolding_ : gset Z;
  hoFromX2_ : gmap Z (list Datagram);
  hoFromIp_ : gmap Z (list Datagram);
  ueHold_ : bool;
  ueHoldFromIp_ : list Datagram;
  hasHoManager : bool
}.

#[export] Instance ip2lte_eta : Eta IP2lte := fun s =>
  {| seqNums_ := seqNums_ s; hoForwarding_ := hoForwarding_ s; hoHolding_ := hoHolding_ s;
     hoFromX2_ := hoFromX2_ s; hoFromIp_ := hoFromIp_ s; ueHold_ := ueHold_ s;
     ueHoldFromIp_ := ueHoldFromIp_ s; hasHoManager := hasHoManager s |}.

Definition new_IP2lte (hoManager : bool) : IP2lte :=
  {| seqNums_ := ∅; hoForwarding_ := ∅; hoHolding_ := ∅; hoFromX2_ := ∅; hoFromIp_ := ∅;
     ueHold_ := false; ueHoldFromIp_ := []; hasHoManager := hoManager |}.

(** What leaves: to the stack, to IP, and through the handover manager. *)
Inductive ip_effect :=
| ToStack (d : Datagram)
| ToIp (d : Datagram)
| ForwardData (d : Datagram) (targetEnb : Z)
| HandoverCommand (ueId enb : Z) (startHo : bool).

(** [initialize]: the registration of the node, and its multicast groups. *)
Definition register_node (b : LteBinder) (omnetId : Z) (nodeType : LteNodeType) (masterId : Z)
    : result (Z * LteBinder * list binder_effect) :=
  match nodeType with
  | ENODEB => Ok (registerNode b omnetId ENODEB 0)
  | UE => Ok (registerNode b omnetId UE masterId)
  | _ => Throw "unhandled node type"
  end.

Definition registerMulticastGroups (b : LteBinder) (nodeId : Z) (addresses : list Z) : LteBinder :=
  fold_left (fun b address =>
    let mask := uint32 (Z.lnot (uint32 (Z.shiftl 255 28))) in
    registerMulticastGroup b nodeId (int32 (Z.land address mask))) addresses b.

Definition UDP_HEADER_BYTES : Z := 8.

(** [seqNums_[pair]++], where a new pair starts from 0. *)
Definition next_seq (seqs : gmap (Z * Z) Z) (pair : Z * Z) : Z * gmap (Z * Z) Z :=
  let n := default 0 (seqs !! pair) in (n, <[pair := uint32 (n + 1)]> seqs).

(** The six members set on the tag. *)
Definition set_flow (h : Ipv4Header) (srcPort dstPort seqNum headerSize : Z) (i : FlowControlInfo) : FlowControlInfo :=
  i <| fi_srcAddr := ih_srcAddress h |> <| fi_dstAddr := ih_destAddress h |> <| fi_srcPort := srcPort |>
    <| fi_dstPort := dstPort |> <| fi_sequenceNumber := seqNum |> <| fi_headerSize := headerSize |>.

(** *** The UE *)

(** The ports and the length of the transport header; a tagged header of another class
    is a null pointer. *)
Definition ue_transport (h : Ipv4Header) (t : TransportHeader) : result (Z * Z * Z) :=
  if ih_protocolId h =? IP_PROT_TCP then
    match t with TcpHeader s d l => Ok (s, d, l) | UdpHeader _ _ => UB end
  else if ih_protocolId h =? IP_PROT_UDP then
    match t with UdpHeader s d => Ok (s, d, UDP_HEADER_BYTES) | TcpHeader _ _ _ => UB end
  else Ok (0, 0, 0).

Definition toStackUe (seqs : gmap (Z * Z) Z) (d : Datagram) : result (gmap (Z * Z) Z * Datagram) :=
  match dg_transportInd d with
  | None => Throw "Transport protocol not found"
  | Some t =>
      let h := dg_header d in
      let! (srcPort, dstPort, len) := ue_transport h t in
      let (n, seqs) := next_seq seqs (ih_srcAddress h, ih_destAddress h) in
      Ok (seqs, add_flow d (set_flow h srcPort dstPort n (ih_headerLength h + len)))
  end.

Definition fromIpUe (s : IP2lte) (d : Datagram) : result (IP2lte * list ip_effect) :=
  let d := removeAllSimuLteTags d in
  if ueHold_ s then Ok (s <| ueHoldFromIp_ := ueHoldFromIp_ s ++ [d] |>, [])
  else
    let! (seqs, d) := toStackUe (seqNums_ s) d in
    Ok (s <| seqNums_ := seqs |>, [ToStack d]).

Definition toIpUe (d : Datagram) : ip_effect :=
  ToIp (d <| dg_packet := (dg_packet d) <| protocol_tag := Some IPV4 |> |>).

Definition triggerHandoverUe (s : IP2lte) : IP2lte := s <| ueHold_ := true |>.

(** The loop over the held packets. *)
Fixpoint send_held (seqs : gmap (Z * Z) Z) (q : list Datagram) : result (gmap (Z * Z) Z * list Datagram) :=
  match q with
  | [] => Ok (seqs, [])
  | d :: q' =>
      let! (seqs, d) := toStackUe seqs d in
      let! (seqs, ds) := send_held seqs q' in
      Ok (seqs, d :: ds)
  end.

Definition signalHandoverCompleteUe (s : IP2lte) : result (IP2lte * list ip_effect) :=
  let! (seqs, ds) := send_held (seqNums_ s) (ueHoldFromIp_ s) in
  Ok (s <| seqNums_ := seqs |> <| ueHoldFromIp_ := [] |> <| ueHold_ := false |>, map ToStack ds).

(** *** The base station *)

(** The transport header is looked up behind the IP header. *)
Definition enb_transport (h : Ipv4Header) (t : option TransportHeader) : result (Z * Z * Z) :=
  if ih_protocolId h =? IP_PROT_TCP then
    match t with Some (TcpHeader s d l) => Ok (s, d, l) | _ => Throw no_conversion end
  else if ih_protocolId h =? IP_PROT_UDP then
    match t with Some (UdpHeader s d) => Ok (s, d, UDP_HEADER_LENGTH) | _ => Throw no_conversion end
  else Ok (0, 0, 0).

Definition toStackEnb (b : LteBinder) (seqs : gmap (Z * Z) Z) (d : Datagram)
    : result (gmap (Z * Z) Z * Datagram) :=
  let h := dg_header d in
  let destId := getMacNodeId b (ih_destAddress h) in
  let! (srcPort, dstPort, headerSize) := enb_transport h (dg_transport d) in
  let (n, seqs) := next_seq seqs (ih_srcAddress h, ih_destAddress h) in
  let d := add_flow d (set_flow h srcPort dstPort n headerSize) in
  let! master := getNextHop b destId in
  Ok (seqs, add_flow d (fun i => i <| fi_destId := master |>)).

Definition sendTunneledPacketOnHandover (s : IP2lte) (d : Datagram) (targetEnb : Z) : list ip_effect :=
  if hasHoManager s then [ForwardData d targetEnb] else [].

(** [queues[id].push_back(d)]. *)
Definition enqueue (queues : gmap Z (list Datagram)) (id : Z) (d : Datagram) : gmap Z (list Datagram) :=
  <[id := default [] (queues !! id) ++ [d]]> queues.

Definition fromIpEnb (b : LteBinder) (s : IP2lte) (d : Datagram) : result (IP2lte * list ip_effect) :=
  let d := removeAllSimuLteTags d in
  let destId := getMacNodeId b (dg_dest d) in
  match hoForwarding_ s !! destId with
  | Some targetEnb => Ok (s, sendTunneledPacketOnHandover s d targetEnb)
  | None =>
      if bool_decide (destId ∈ hoHolding_ s) then Ok (s <| hoFromIp_ := enqueue (hoFromIp_ s) destId d |>, [])
      else
        let! (seqs, d) := toStackEnb b (seqNums_ s) d in
        Ok (s <| seqNums_ := seqs |>, [ToStack d])
  end.

Definition toIpEnb (d : Datagram) : ip_effect :=
  ToIp (d <| dg_packet := (dg_packet d) <| protocol_tag := Some IPV4 |> |>).

Definition triggerHandoverSource (s : IP2lte) (ueId targetEnb : Z) : IP2lte * list ip_effect :=
  (s <| hoForwarding_ := <[ueId := targetEnb]> (hoForwarding_ s) |>,
   if hasHoManager s then [HandoverCommand ueId targetEnb true] else []).

Definition triggerHandoverTarget (s : IP2lte) (ueId sourceEnb : Z) : IP2lte :=
  s <| hoHolding_ := {[ueId]} ∪ hoHolding_ s |>.

Definition receiveTunneledPacketOnHandover (b : LteBinder) (s : IP2lte) (d : Datagram) (sourceEnb : Z) : IP2lte :=
  s <| hoFromX2_ := enqueue (hoFromX2_ s) (getMacNodeId b (dg_dest d)) d |>.

Definition signalHandoverCompleteSource (s : IP2lte) (ueId targetEnb : Z) : IP2lte :=
  s <| hoForwarding_ := delete ueId (hoForwarding_ s) |>.

(** The queues one after the other, in the order of their keys. *)
Definition queued (queues : gmap Z (list Datagram)) : list Datagram :=
  concat (map (fun id => default [] (queues !! id)) (ascending queues)).

(** The loops of [signalHandoverCompleteTarget] empty every queue. *)
Fixpoint send_down (b : LteBinder) (seqs : gmap (Z * Z) Z) (q : list Datagram)
    : result (gmap (Z * Z) Z * list Datagram) :=
  match q with
  | [] => Ok (seqs, [])
  | d :: q' =>
      let! (seqs, d) := toStackEnb b seqs d in
      let! (seqs, ds) := send_down b seqs q' in
      Ok (seqs, d :: ds)
  end.

Definition emptied (queues : gmap Z (list Datagram)) : gmap Z (list Datagram) := (fun _ => []) <$> queues.

Definition signalHandoverCompleteTarget (b : LteBinder) (s : IP2lte) (ueId sourceEnb : Z)
    : result (IP2lte * list ip_effect) :=
  if hasHoManager s then
    let! (seqs, ds) := send_down b (seqNums_ s) (queued (hoFromX2_ s)) in
    let! (seqs, ds') := send_down b seqs (queued (hoFromIp_ s)) in
    Ok (s <| seqNums_ := seqs |> <| hoFromX2_ := emptied (hoFromX2_ s) |>
          <| hoFromIp_ := emptied (hoFromIp_ s) |> <| hoHolding_ := hoHolding_ s ∖ {[ueId]} |>,
        HandoverCommand ueId sourceEnb false :: map ToStack (ds ++ ds'))
  else Ok (s, []).

(** ** Messages *)

Inductive ip_gate : Type := UpperLayerIn | StackLte | OtherGate.

(** [handleMessage]. *)
Definition ip_handleMessage (b : LteBinder) (nodeType : LteNodeType) (s : IP2lte) (gate : ip_gate) (d : Datagram)
    : result (IP2lte * list ip_effect) :=
  match nodeType, gate with
  | ENODEB, UpperLayerIn => fromIpEnb b s d
  | ENODEB, StackLte => Ok (s, [toIpEnb (removeAllSimuLteTags d)])
  | UE, UpperLayerIn => fromIpUe s d
  | UE, StackLte => Ok (s, [toIpUe (removeAllSimuLteTags d)])
  | _, _ => Ok (s, [])
  end.

(** [finish]: a module that goes during the simulation takes its node out. *)
Definition ip_finish (macModule : Z -> result (option LteMacRef)) (b : LteBinder) (nodeId : Z) (ctxFinish : bool)
    : result (LteBinder * list binder_effect) :=
  if ctxFinish then Ok (b, []) else unregisterNode macModule b nodeId.

(** ** Events *)

Inductive ue_event :=
| UeFromIp (d : Datagram)
| UeTrigger
| UeComplete.

Definition ue_step (s : IP2lte) (ev : ue_event) : result (IP2lte * list ip_effect) :=
  match ev with
  | UeFromIp d => fromIpUe s d
  | UeTrigger => Ok (triggerHandoverUe s, [])
  | UeComplete => signalHandoverCompleteUe s
  end.

Inductive enb_event :=
| EnbFromIp (d : Datagram)
| EnbTunnel (d : Datagram) (sourceEnb : Z)
| TriggerSource (ueId targetEnb : Z)
| TriggerTarget (ueId sourceEnb : Z)
| CompleteSource (ueId targetEnb : Z)
| CompleteTarget (ueId sourceEnb : Z).

(** The binder is shared by all nodes, so it may differ from event to event. *)
Definition enb_step (s : IP2lte) (p : LteBinder * enb_event) : result (IP2lte * list ip_effect) :=
  let (b, ev) := p in
  match ev with
  | EnbFromIp d => fromIpEnb b s d
  | EnbTunnel d src => Ok (receiveTunneledPacketOnHandover b s d src, [])
  | TriggerSource ue tgt => Ok (triggerHandoverSource s ue tgt)
  | TriggerTarget ue src => Ok (triggerHandoverTarget s ue src, [])
  | CompleteSource ue tgt => Ok (signalHandoverCompleteSource s ue tgt, [])
  | CompleteTarget ue src => signalHandoverCompleteTarget b s ue src
  end.

Fixpoint run {E} (step : IP2lte -> E -> result (IP2lte * list ip_effect)) (s : IP2lte) (evs : list E)
    : result (IP2lte * list ip_effect) :=
  match evs with
  | [] => Ok (s, [])
  | ev :: evs' =>
      let! (s, eff) := step s ev in
      let! (s, effs) := run step s evs' in
      Ok (s, eff ++ effs)
  end.

(** ** The interface between IP and the LTE stack: properties

    No packet is lost, duplicated or overtaken at the interface, on the UE and on each
    of the two ways into a base station; a handover hands the packets over in order;
    packets that come through the tunnel after it are stranded. *)

#[local] Open Scope Z_scope.

Abbreviation untag := removeAllSimuLteTags.

(** ** Interleavings *)

Section Interleaving.
Context {A : Type}.
Implicit Types l k m : list A.

Inductive interleaving : list A -> list A -> list A -> Prop :=
| il_nil : interleaving [] [] []
| il_left x l k m : interleaving l k m -> interleaving (x :: l) k (x :: m)
| il_right x l k m : interleaving l k m -> interleaving l (x :: k) (x :: m).

Lemma il_left_only l : interleaving l [] l.
Proof. induction l; by constructor. Qed.

Lemma il_right_only l : interleaving [] l l.
Proof. induction l; by constructor. Qed.

Lemma il_app l k m l' k' m' :
  interleaving l k m -> interleaving l' k' m' -> interleaving (l ++ l') (k ++ k') (m ++ m').
Proof. induction 1; intros; cbn; [done|constructor; auto..]. Qed.

Lemma il_appended l k : interleaving l k (l ++ k).
Proof. rewrite <- (app_nil_r l) at 1. apply (il_app l [] l [] k k); [apply il_left_only|apply il_right_only]. Qed.

Lemma il_length l k m : interleaving l k m -> length m = (length l + length k)%nat.
Proof. induction 1; cbn; lia. Qed.
End Interleaving.

(** ** What leaves *)

Definition sent (effs : list ip_effect) : list Datagram :=
  omap (fun e => match e with ToStack d => Some d | _ => None end) effs.
Definition forwarded (effs : list ip_effect) : list Datagram :=
  omap (fun e => match e with ForwardData d _ => Some d | _ => None end) effs.

Lemma sent_app a b : sent (a ++ b) = sent a ++ sent b.
Proof. apply omap_app. Qed.
Lemma forwarded_app a b : forwarded (a ++ b) = forwarded a ++ forwarded b.
Proof. apply omap_app. Qed.
Lemma sent_map ds : sent (map ToStack ds) = ds.
Proof. induction ds as [|d ds IH]; [done|]. cbn. unfold sent in IH. by rewrite IH. Qed.
Lemma sent_command u enb start effs : sent (HandoverCommand u enb start :: effs) = sent effs.
Proof. done. Qed.
Lemma forwarded_map ds : forwarded (map ToStack ds) = [].
Proof. by induction ds. Qed.

(** ** Sequence numbers *)

Definition pair_of (d : Datagram) : Z * Z := (ih_srcAddress (dg_header d), ih_destAddress (dg_header d)).

Definition before (p : Z * Z) (past : list (Z * Z)) : Z := count (fun q => bool_decide (q = p)) past.

Lemma before_snoc p q past : before p (past ++ [q]) = before p past + Z.b2z (bool_decide (q = p)).
Proof. unfold before, count. induction past as [|x past IH]; cbn [foldr app]; [cbn; lia|]. rewrite IH. lia. Qed.

(** The tag of a packet names its flow and carries the number [n]. *)
Definition carries (n : Z) (d : Datagram) : Prop :=
  exists info, flow_tag (dg_packet d) = Some info /\ fi_sequenceNumber info = n /\
    (fi_srcAddr info, fi_dstAddr info) = pair_of d.

(** Each packet of [ds] carries the number of earlier packets between its addresses. *)
Fixpoint numbered (past : list (Z * Z)) (ds : list Datagram) : Prop :=
  match ds with
  | [] => True
  | d :: ds' => carries (uint32 (before (pair_of d) past)) d /\ numbered (past ++ [pair_of d]) ds'
  end.

Lemma numbered_app past a b :
  numbered past (a ++ b) <-> numbered past a /\ numbered (past ++ map pair_of a) b.
Proof.
  revert past. induction a as [|d a IH]; intros past; cbn; [rewrite app_nil_r; tauto|].
  rewrite IH, <- app_assoc. cbn. tauto.
Qed.

(** The counters hold the numbers of the packets so far. *)
Definition counts (seqs : gmap (Z * Z) Z) (past : list (Z * Z)) : Prop :=
  forall p, default 0 (seqs !! p) = uint32 (before p past).

Lemma counts_empty : counts ∅ [].
Proof. intros p. by rewrite lookup_empty. Qed.

Lemma next_seq_counts seqs past p :
  counts seqs past -> (next_seq seqs p).1 = uint32 (before p past) /\ counts (next_seq seqs p).2 (past ++ [p]).
Proof.
  intros Hc. split; [apply Hc|]. intros q. unfold next_seq. cbn [snd]. rewrite before_snoc.
  destruct (decide (p = q)) as [->|Hne].
  - rewrite lookup_insert_eq, bool_decide_eq_true_2 by done. cbn [default Z.b2z]. rewrite Hc.
    unfold wrap. by rewrite Zplus_mod_idemp_l.
  - rewrite lookup_insert_ne, bool_decide_eq_false_2, Z.add_0_r by done. apply Hc.
Qed.

(** What sending does to a packet: its tag is replaced. *)
Record tagging (seqs : gmap (Z * Z) Z) (d : Datagram) (seqs' : gmap (Z * Z) Z) (d' : Datagram) : Prop := {
  tg_untag : untag d' = untag d;
  tg_seqs : seqs' = (next_seq seqs (pair_of d)).2;
  tg_number : carries (next_seq seqs (pair_of d)).1 d'
}.

Lemma untag_pair d d' : untag d = untag d' -> pair_of d = pair_of d'.
Proof. intros E. apply (f_equal dg_header) in E. cbn in E. unfold pair_of. by rewrite E. Qed.

(** A list of packets, sent one after the other. *)
Inductive tagged_all : gmap (Z * Z) Z -> list Datagram -> gmap (Z * Z) Z -> list Datagram -> Prop :=
| ta_nil seqs : tagged_all seqs [] seqs []
| ta_cons seqs d seqs1 d1 ds seqs2 ds2 :
    tagging seqs d seqs1 d1 -> tagged_all seqs1 ds seqs2 ds2 -> tagged_all seqs (d :: ds) seqs2 (d1 :: ds2).

Lemma tagged_all_spec seqs ds seqs' ds' past :
  tagged_all seqs ds seqs' ds' -> counts seqs past ->
  map untag ds' = map untag ds /\ counts seqs' (past ++ map pair_of ds') /\ numbered past ds'.
Proof.
  intros Hall. revert past. induction Hall as [seqs|seqs d seqs1 d1 ds seqs2 ds2 Ht _ IH]; intros past Hc; cbn.
  - by rewrite app_nil_r.
  - destruct (next_seq_counts seqs past (pair_of d) Hc) as [Hn Hc1]. rewrite <- (tg_seqs _ _ _ _ Ht) in Hc1.
    destruct (IH _ Hc1) as (E & Hc2 & Hnum). rewrite (untag_pair _ _ (tg_untag _ _ _ _ Ht)).
    rewrite <- app_assoc in Hc2. cbn in Hc2. rewrite (tg_untag _ _ _ _ Ht), E. split; [done|]. split; [done|].
    split; [|done]. rewrite <- Hn. apply Ht.
Qed.

Lemma tagged_untag seqs ds seqs' ds' : tagged_all seqs ds seqs' ds' -> map untag ds' = map untag ds.
Proof. induction 1 as [|seqs d seqs1 d1 ds seqs2 ds2 Ht _ IH]; [done|]. cbn [map]. by rewrite IH, (tg_untag _ _ _ _ Ht). Qed.

(** ** The UE *)

(** A packet the UE can send: the transport layer left its header in a tag. *)
Definition ue_sendable (d : Datagram) : Prop :=
  exists t r, dg_transportInd d = Some t /\ ue_transport (dg_header d) t = Ok r.

Lemma toStackUe_spec seqs d : ue_sendable d -> exists seqs' d', toStackUe seqs d = Ok (seqs', d') /\ tagging seqs d seqs' d'.
Proof.
  intros (t & [[sp dp] len] & Ht & Hr). unfold toStackUe. rewrite Ht, Hr. cbn [rbind].
  eexists _, _. split; [done|]. split; [done|done|]. eexists. by repeat (split; [done|]).
Qed.

Lemma send_held_spec seqs q :
  Forall ue_sendable q -> exists seqs' ds, send_held seqs q = Ok (seqs', ds) /\ tagged_all seqs q seqs' ds.
Proof.
  intros Hq. revert seqs. induction Hq as [|d q Hd _ IH]; intros seqs; cbn [send_held].
  - eexists _, _. split; [done|constructor].
  - destruct (toStackUe_spec seqs d Hd) as (s1 & d1 & -> & Ht). cbn [rbind].
    destruct (IH s1) as (s2 & ds & -> & Hall). cbn [rbind]. eexists _, _. split; [done|by econstructor].
Qed.

Definition ue_arrivals (evs : list ue_event) : list Datagram :=
  omap (fun ev => match ev with UeFromIp d => Some d | _ => None end) evs.

Lemma ue_arrivals_cons ev evs : ue_arrivals (ev :: evs) = ue_arrivals [ev] ++ ue_arrivals evs.
Proof. apply (omap_app _ [ev] evs). Qed.

Record ue_inv (s : IP2lte) (past : list (Z * Z)) : Prop := {
  ui_counts : counts (seqNums_ s) past;
  ui_sendable : Forall ue_sendable (ueHoldFromIp_ s);
  ui_held : map untag (ueHoldFromIp_ s) = ueHoldFromIp_ s;
  ui_idle : ueHold_ s = false -> ueHoldFromIp_ s = []
}.

Lemma ue_step_spec s past ev :
  ue_inv s past -> Forall ue_sendable (ue_arrivals [ev]) ->
  exists s' effs, ue_step s ev = Ok (s', effs) /\ ue_inv s' (past ++ map pair_of (sent effs)) /\
    numbered past (sent effs) /\
    map untag (sent effs) ++ ueHoldFromIp_ s' = ueHoldFromIp_ s ++ map untag (ue_arrivals [ev]).
Proof.
  intros [H1 H2 H3 H4] Hev. destruct ev as [d| |]; cbn in Hev |- *.
  - apply Forall_cons in Hev as [Hd _]. unfold fromIpUe. destruct (ueHold_ s) eqn:Eh.
    + eexists _, _. split; [done|]. cbn. rewrite app_nil_r. split; [|done].
      split; cbn; [done|apply Forall_app; split; [done|by repeat constructor]|by rewrite map_app, H3|by rewrite Eh].
    + rewrite (H4 eq_refl). destruct (toStackUe_spec (seqNums_ s) (untag d)) as (q & d' & -> & Ht); [done|].
      cbn [rbind]. eexists _, _. split; [done|]. cbn.
      destruct (next_seq_counts _ _ (pair_of (untag d)) H1) as [Hn Hc]. rewrite <- (tg_seqs _ _ _ _ Ht) in Hc.
      rewrite (untag_pair d' _ (tg_untag _ _ _ _ Ht)). split; [|split].
      * by split; cbn; rewrite ?(H4 eq_refl).
      * split; [|done]. rewrite <- Hn. apply Ht.
      * by rewrite (tg_untag _ _ _ _ Ht), (H4 eq_refl).
  - eexists _, _. split; [done|]. cbn. rewrite !app_nil_r. split; [|done]. by split.
  - unfold signalHandoverCompleteUe. destruct (send_held_spec (seqNums_ s) _ H2) as (q & ds & -> & Hall).
    cbn [rbind]. eexists _, _. split; [done|]. rewrite sent_map. cbn.
    destruct (tagged_all_spec _ _ _ _ past Hall H1) as (E & Hc & Hnum). rewrite !app_nil_r, E. by repeat split.
Qed.

Lemma ue_run_spec s past evs :
  ue_inv s past -> Forall ue_sendable (ue_arrivals evs) ->
  exists s' effs, run ue_step s evs = Ok (s', effs) /\ ue_inv s' (past ++ map pair_of (sent effs)) /\
    numbered past (sent effs) /\
    map untag (sent effs) ++ ueHoldFromIp_ s' = ueHoldFromIp_ s ++ map untag (ue_arrivals evs).
Proof.
  revert s past. induction evs as [|ev evs IH]; intros s past Hi Hall.
  - exists s, []. cbn. by rewrite !app_nil_r.
  - rewrite ue_arrivals_cons in Hall |- *. apply Forall_app in Hall as [Hev Hall].
    destruct (ue_step_spec s past ev Hi Hev) as (s1 & e1 & Hs & Hi1 & Hn1 & E1).
    destruct (IH s1 _ Hi1 Hall) as (s2 & e2 & Hr & Hi2 & Hn2 & E2).
    cbn [run]. rewrite Hs. cbn [rbind]. rewrite Hr. cbn [rbind]. exists s2, (e1 ++ e2).
    rewrite sent_app, !map_app, !app_assoc. split; [done|].
    split; [done|]. split; [by apply numbered_app|].
    by rewrite <- app_assoc, E2, app_assoc, E1, <- app_assoc.
Qed.

(** C24. The UE loses nothing in a handover: whatever handovers start and end, the
    packets sent so far, followed by those held, are exactly the packets that came from
    IP, in order; nothing is held outside a handover, and the packets sent between two
    addresses are numbered upwards from 0. *)
Theorem ue_hold_in_order (hoManager : bool) (evs : list ue_event) :
  Forall ue_sendable (ue_arrivals evs) ->
  exists s effs, run ue_step (new_IP2lte hoManager) evs = Ok (s, effs) /\
    map untag (sent effs) ++ ueHoldFromIp_ s = map untag (ue_arrivals evs) /\
    (ueHold_ s = false -> ueHoldFromIp_ s = []) /\ numbered [] (sent effs).
Proof.
  intros Hall. destruct (ue_run_spec (new_IP2lte hoManager) [] evs) as (s & effs & Hr & Hi & Hn & E); [|done|].
  - split; [apply counts_empty|constructor|done|done].
  - exists s, effs. split; [done|]. split; [done|]. split; [apply Hi|done].
Qed.
