(* ===== verification/EnbHandover.v ===== *)
(** * The base station during handovers

    Packets reach a base station from IP and through the tunnel from another base
    station; it sends them to the UE, holds them, or forwards them.  Whatever handovers
    start and end, for every UE nothing is lost, duplicated or overtaken on either way;
    a complete handover hands the packets over in order; what comes through the tunnel
    after it stays queued. *)

From stdpp Require Import sorting.
From S2P Require Import Prelude.
From S2P Require Import LteCommon.
From S2P Require Import LteBinder.
From S2P Require Import BinderProps.
From S2P Require Import Pdcp.
From S2P Require Import IP2lte.
#[local] Open Scope Z_scope.

(** ** What events bring *)

Definition tunnel_arrivals (evs : list (LteBinder * enb_event)) : list Datagram :=
  omap (fun p => match p.2 with EnbTunnel d _ => Some d | _ => None end) evs.
Definition ip_arrivals (evs : list (LteBinder * enb_event)) : list Datagram :=
  omap (fun p => match p.2 with EnbFromIp d => Some d | _ => None end) evs.

Lemma tunnel_arrivals_cons p evs : tunnel_arrivals (p :: evs) = tunnel_arrivals [p] ++ tunnel_arrivals evs.
Proof. apply (omap_app _ [p] evs). Qed.
Lemma ip_arrivals_cons p evs : ip_arrivals (p :: evs) = ip_arrivals [p] ++ ip_arrivals evs.
Proof. apply (omap_app _ [p] evs). Qed.

Section BaseStation.
(** The binders the base station meets, and the node each of them has for an address. *)
Variable binders : LteBinder -> Prop.
Variable node_of : Z -> Z.
Hypothesis resolves : forall b address, binders b -> getMacNodeId b address = node_of address.

(** A packet the base station can send: TCP and UDP headers are where they should be,
    and the receiver is served by a base station. *)
Definition deliverable (d : Datagram) : Prop :=
  (exists r, enb_transport (dg_header d) (dg_transport d) = Ok r) /\
  forall b, binders b -> exists m, getNextHop b (node_of (dg_dest d)) = Ok m.

(** The packets for node [u], without their tags. *)
Definition for_ue (u : Z) (ds : list Datagram) : list Datagram :=
  map untag (filter (fun d => node_of (dg_dest d) = u) ds).

Lemma for_ue_app u a b : for_ue u (a ++ b) = for_ue u a ++ for_ue u b.
Proof. unfold for_ue. by rewrite filter_app, map_app. Qed.

Lemma for_ue_map u ds : for_ue u ds = filter (fun d => node_of (dg_dest d) = u) (map untag ds).
Proof.
  unfold for_ue. induction ds as [|d ds IH]; [done|]. cbn [map]. rewrite !filter_cons.
  change (dg_dest (untag d)) with (dg_dest d). case_decide; [cbn [map]; by f_equal|done].
Qed.

Lemma for_ue_untag u ds ds' : map untag ds' = map untag ds -> for_ue u ds' = for_ue u ds.
Proof. intros E. by rewrite !for_ue_map, E. Qed.

Lemma for_ue_one u d : for_ue u [untag d] = for_ue u [d].
Proof. by apply for_ue_untag. Qed.

Lemma for_ue_all u ds : Forall (fun d => node_of (dg_dest d) = u) ds -> for_ue u ds = map untag ds.
Proof.
  unfold for_ue. induction 1 as [|d ds Hd _ IH]; [done|]. rewrite filter_cons_True by done. cbn [map]. by rewrite IH.
Qed.

Lemma for_ue_none u v ds : Forall (fun d => node_of (dg_dest d) = v) ds -> u <> v -> for_ue u ds = [].
Proof.
  intros Hall Hne. unfold for_ue. induction Hall as [|d ds Hd _ IH]; [done|].
  by rewrite filter_cons_False by congruence.
Qed.

(** ** The queues *)

Definition queue (queues : gmap Z (list Datagram)) (id : Z) : list Datagram := default [] (queues !! id).

(** Each packet is in the queue of its receiver, and can be sent. *)
Definition in_place (queues : gmap Z (list Datagram)) : Prop :=
  forall id, Forall (fun d => node_of (dg_dest d) = id) (queue queues id) /\ Forall deliverable (queue queues id).

Lemma in_place_empty : in_place ∅.
Proof. intros id. unfold queue. rewrite lookup_empty. by split. Qed.

Lemma queue_enqueue queues id d v :
  queue (enqueue queues id d) v = queue queues v ++ (if decide (v = id) then [d] else []).
Proof.
  unfold queue, enqueue. case_decide as E; [subst; by rewrite lookup_insert_eq|].
  by rewrite lookup_insert_ne, app_nil_r.
Qed.

Lemma queue_emptied queues id : queue (emptied queues) id = [].
Proof. unfold queue, emptied. rewrite lookup_fmap. by destruct (queues !! id). Qed.

Lemma in_place_enqueue queues d :
  in_place queues -> deliverable d -> in_place (enqueue queues (node_of (dg_dest d)) d).
Proof.
  intros Hq Hd v. rewrite queue_enqueue. destruct (Hq v) as [H1 H2].
  split; apply Forall_app; (split; [done|]); (case_decide; [|done]); by apply Forall_singleton.
Qed.

Lemma in_place_emptied queues : in_place (emptied queues).
Proof. intros v. by rewrite queue_emptied. Qed.

Lemma for_ue_enqueue u queues d : in_place queues ->
  for_ue u (queue (enqueue queues (node_of (dg_dest d)) d) u) = for_ue u (queue queues u) ++ for_ue u [d].
Proof.
  intros Hq. rewrite queue_enqueue, for_ue_app. f_equal. case_decide as E; [done|].
  symmetry. apply (for_ue_none u (node_of (dg_dest d))); [by apply Forall_singleton|done].
Qed.

Lemma queued_deliverable queues : in_place queues -> Forall deliverable (queued queues).
Proof.
  intros Hq. unfold queued. apply Forall_concat, Forall_map, Forall_forall. intros id _. apply Hq.
Qed.

(** Emptying all queues brings each UE the packets of its own queue, in order. *)
Lemma for_ue_queued u queues : in_place queues -> for_ue u (queued queues) = for_ue u (queue queues u).
Proof.
  intros Hq. change (queued queues) with (concat (map (queue queues) (ascending queues))).
  assert (Hl : forall l, NoDup l ->
    for_ue u (concat (map (queue queues) l)) = if decide (u ∈ l) then for_ue u (queue queues u) else []).
  { induction 1 as [|v l Hv _ IH]; [done|]. cbn [map concat]. rewrite for_ue_app, IH.
    destruct (decide (u = v)) as [->|Hne].
    - rewrite decide_False, decide_True by (done || apply list_elem_of_here). apply app_nil_r.
    - rewrite (for_ue_none u v) by (apply Hq || done). cbn [app].
      apply decide_ext. rewrite elem_of_cons. tauto. }
  rewrite (Hl (ascending queues)); [|unfold ascending; rewrite merge_sort_Permutation; apply NoDup_elements].
  case_decide as E; [done|]. rewrite elem_of_ascending, <- eq_None_not_Some in E.
  unfold queue. by rewrite E.
Qed.

(** ** Sending *)

Lemma toStackEnb_spec b seqs d : binders b -> deliverable d ->
  exists seqs' d', toStackEnb b seqs d = Ok (seqs', d') /\ tagging seqs d seqs' d'.
Proof.
  intros Hb ([[[sp dp] len] Ht] & Hhop). destruct (Hhop b Hb) as [m Hm]. unfold toStackEnb.
  rewrite Ht, resolves by done. cbn [rbind next_seq]. unfold dg_dest in Hm. rewrite Hm. cbn [rbind].
  eexists _, _. split; [done|]. split; [done|done|]. eexists. by repeat (split; [done|]).
Qed.

Lemma send_down_spec b seqs q : binders b -> Forall deliverable q ->
  exists seqs' ds, send_down b seqs q = Ok (seqs', ds) /\ tagged_all seqs q seqs' ds.
Proof.
  intros Hb Hq. revert seqs. induction Hq as [|d q Hd _ IH]; intros seqs; cbn [send_down].
  - eexists _, _. split; [done|constructor].
  - destruct (toStackEnb_spec b seqs d Hb Hd) as (s1 & d1 & -> & Ht). cbn [rbind].
    destruct (IH s1) as (s2 & ds & -> & Hall). cbn [rbind]. eexists _, _. split; [done|by econstructor].
Qed.

(** ** The history of a base station *)

(** After the packets [x2] and [ip] have come and [effs] has left: the numbers, the
    queues, and the two ways to each UE.  What has left on a way, followed by what is
    queued there, is what has come; packets that left through a tunnel are those of the
    IP way that are missing from it. *)
Record history (s : IP2lte) (x2 ip : list Datagram) (effs : list ip_effect) : Prop := {
  hi_manager : hasHoManager s = true;
  hi_counts : counts (seqNums_ s) (map pair_of (sent effs));
  hi_numbered : numbered [] (sent effs);
  hi_x2 : in_place (hoFromX2_ s);
  hi_ip : in_place (hoFromIp_ s);
  hi_idle : forall u, u ∉ hoHolding_ s -> queue (hoFromIp_ s) u = [];
  hi_ways : forall u, exists sx si,
    interleaving sx si (for_ue u (sent effs)) /\
    sx ++ for_ue u (queue (hoFromX2_ s) u) = for_ue u x2 /\
    interleaving (si ++ for_ue u (queue (hoFromIp_ s) u)) (for_ue u (forwarded effs)) (for_ue u ip)
}.

Lemma history_new : history (new_IP2lte true) [] [] [].
Proof.
  split; [done|apply counts_empty|done|apply in_place_empty|apply in_place_empty|done|].
  intros u. exists [], []. by repeat constructor.
Qed.

(** Packets that are sent one after the other extend the numbering. *)
Lemma history_tagged s x2 ip effs q seqs' ds :
  history s x2 ip effs -> tagged_all (seqNums_ s) q seqs' ds ->
  counts seqs' (map pair_of (sent (effs ++ map ToStack ds))) /\ numbered [] (sent (effs ++ map ToStack ds)) /\
  (forall u, for_ue u (sent (effs ++ map ToStack ds)) = for_ue u (sent effs) ++ for_ue u q) /\
  forwarded (effs ++ map ToStack ds) = forwarded effs.
Proof.
  intros H Hall. destruct (tagged_all_spec _ _ _ _ _ Hall (hi_counts _ _ _ _ H)) as (E & Hc & Hn).
  rewrite sent_app, sent_map, forwarded_app, forwarded_map, app_nil_r, map_app.
  split; [done|]. split; [apply numbered_app; split; [apply H|done]|]. split; [|done].
  intros u. rewrite for_ue_app. f_equal. by apply for_ue_untag.
Qed.

Lemma history_forward s x2 ip effs d t :
  history s x2 ip effs -> history s x2 (ip ++ [d]) (effs ++ [ForwardData (untag d) t]).
Proof.
  intros [A1 A2 A3 A4 A5 A6 A7].
  split; rewrite ?sent_app; cbn; rewrite ?app_nil_r; try done.
  intros u. destruct (A7 u) as (sx & si & W1 & W2 & W3). exists sx, si. split; [done|]. split; [done|].
  rewrite forwarded_app, !for_ue_app, <- (for_ue_one u d), <- (app_nil_r (si ++ _)).
  apply il_app; [done|apply il_right_only].
Qed.

Lemma history_hold s x2 ip effs d :
  history s x2 ip effs -> deliverable d -> node_of (dg_dest d) ∈ hoHolding_ s ->
  history (s <| hoFromIp_ := enqueue (hoFromIp_ s) (node_of (dg_dest d)) (untag d) |>) x2 (ip ++ [d]) effs.
Proof.
  intros [A1 A2 A3 A4 A5 A6 A7] Hd Eh. split; cbn; try done; [by apply (in_place_enqueue _ (untag d))| |].
  - intros u Hu. rewrite queue_enqueue, (A6 u Hu), decide_False by (intros ->; done). done.
  - intros u. destruct (A7 u) as (sx & si & W1 & W2 & W3). exists sx, si. split; [done|]. split; [done|].
    rewrite (for_ue_enqueue u _ (untag d)), for_ue_app, for_ue_one, app_assoc by done.
    rewrite <- (app_nil_r (for_ue u (forwarded effs))). apply il_app; [done|apply il_left_only].
Qed.

Lemma history_send s x2 ip effs d seqs' d' :
  history s x2 ip effs -> node_of (dg_dest d) ∉ hoHolding_ s -> tagging (seqNums_ s) (untag d) seqs' d' ->
  history (s <| seqNums_ := seqs' |>) x2 (ip ++ [d]) (effs ++ [ToStack d']).
Proof.
  intros H Eh Ht.
  destruct (history_tagged _ _ _ _ [untag d] seqs' [d'] H) as (Hc & Hn & Hs & Hf); [by econstructor; [|constructor]|].
  destruct H as [A1 A2 A3 A4 A5 A6 A7]. cbn [map] in *. split; cbn; try done.
  intros u. destruct (A7 u) as (sx & si & W1 & W2 & W3). rewrite Hs, Hf, !for_ue_app, for_ue_one.
  exists sx, (si ++ for_ue u [d]). split; [|split; [done|]].
  - rewrite <- (app_nil_r sx). apply il_app; [done|apply il_right_only].
  - rewrite <- (app_nil_r (for_ue u (forwarded effs))). destruct (decide (u = node_of (dg_dest d))) as [->|Hne].
    + rewrite (A6 _ Eh) in W3 |- *. cbn in W3 |- *. rewrite app_nil_r in W3 |- *.
      apply il_app; [done|apply il_left_only].
    + rewrite (for_ue_none u (node_of (dg_dest d)) [d]); [|by apply Forall_singleton|done].
      by rewrite !app_nil_r.
Qed.

Lemma history_from_ip s x2 ip effs b d :
  history s x2 ip effs -> binders b -> deliverable d ->
  exists s' e, fromIpEnb b s d = Ok (s', e) /\ history s' x2 (ip ++ [d]) (effs ++ e).
Proof.
  intros H Hb Hd. unfold fromIpEnb. rewrite resolves by done. change (dg_dest (untag d)) with (dg_dest d).
  unfold sendTunneledPacketOnHandover. rewrite (hi_manager _ _ _ _ H).
  destruct (hoForwarding_ s !! node_of (dg_dest d)) as [t|]; [|case_bool_decide as Eh].
  - eexists _, _. split; [done|]. by apply history_forward.
  - eexists _, _. split; [done|]. rewrite app_nil_r. by apply history_hold.
  - destruct (toStackEnb_spec b (seqNums_ s) (untag d) Hb Hd) as (q & d' & -> & Ht). cbn [rbind].
    eexists _, _. split; [done|]. by apply history_send.
Qed.

Lemma history_tunnel s x2 ip effs b d src :
  history s x2 ip effs -> binders b -> deliverable d ->
  history (receiveTunneledPacketOnHandover b s d src) (x2 ++ [d]) ip effs.
Proof.
  intros [A1 A2 A3 A4 A5 A6 A7] Hb Hd. unfold receiveTunneledPacketOnHandover. rewrite resolves by done.
  split; cbn; try done; [by apply in_place_enqueue|].
  intros u. destruct (A7 u) as (sx & si & W1 & W2 & W3). exists sx, si. split; [done|]. split; [|done].
  by rewrite for_ue_enqueue, for_ue_app, app_assoc, W2.
Qed.

Lemma history_command s x2 ip effs ue enb start :
  history s x2 ip effs -> history s x2 ip (effs ++ [HandoverCommand ue enb start]).
Proof.
  intros [A1 A2 A3 A4 A5 A6 A7].
  by split; rewrite ?sent_app, ?forwarded_app; cbn; rewrite ?app_nil_r.
Qed.

(** Both kinds of queues go, the tunnelled packets first. *)
Lemma history_flush s x2 ip effs q ds :
  history s x2 ip effs ->
  tagged_all (seqNums_ s) (queued (hoFromX2_ s) ++ queued (hoFromIp_ s)) q ds ->
  history (s <| seqNums_ := q |> <| hoFromX2_ := emptied (hoFromX2_ s) |> <| hoFromIp_ := emptied (hoFromIp_ s) |>)
    x2 ip (effs ++ map ToStack ds).
Proof.
  intros H Hall. destruct (history_tagged _ _ _ _ _ _ _ H Hall) as (Hc & Hn & Hs & Hf).
  destruct H as [A1 A2 A3 A4 A5 A6 A7].
  split; cbn; try done; [apply in_place_emptied|apply in_place_emptied|intros; apply queue_emptied|].
  intros u. destruct (A7 u) as (sx & si & W1 & W2 & W3). rewrite Hs, Hf, !queue_emptied.
  exists (sx ++ for_ue u (queue (hoFromX2_ s) u)), (si ++ for_ue u (queue (hoFromIp_ s) u)).
  rewrite W2, !app_nil_r. split; [|done].
  rewrite for_ue_app, !for_ue_queued, <- W2 by done. apply il_app; [done|]. apply il_appended.
Qed.

Lemma history_release s x2 ip effs ue :
  history s x2 ip effs -> queue (hoFromIp_ s) ue = [] ->
  history (s <| hoHolding_ := hoHolding_ s ∖ {[ue]} |>) x2 ip effs.
Proof.
  intros [A1 A2 A3 A4 A5 A6 A7] Hq. split; cbn; try done.
  intros u Hu. destruct (decide (u = ue)) as [->|]; [done|]. apply A6. set_solver.
Qed.

Lemma tagged_all_app q ds q1 ds1 ds' q2 ds2 :
  tagged_all q ds q1 ds1 -> tagged_all q1 ds' q2 ds2 -> tagged_all q (ds ++ ds') q2 (ds1 ++ ds2).
Proof. induction 1; [done|]. intros H2. cbn. econstructor; eauto. Qed.

Lemma history_complete s x2 ip effs b ue src :
  history s x2 ip effs -> binders b ->
  exists s' e, signalHandoverCompleteTarget b s ue src = Ok (s', e) /\ history s' x2 ip (effs ++ e) /\
    forall u, queue (hoFromX2_ s') u = [] /\ queue (hoFromIp_ s') u = [].
Proof.
  intros H Hb. unfold signalHandoverCompleteTarget. rewrite (hi_manager _ _ _ _ H).
  destruct (send_down_spec b (seqNums_ s) (queued (hoFromX2_ s)) Hb) as (q1 & ds1 & -> & T1);
    [apply queued_deliverable, H|]. cbn [rbind].
  destruct (send_down_spec b q1 (queued (hoFromIp_ s)) Hb) as (q2 & ds2 & -> & T2);
    [apply queued_deliverable, H|]. cbn [rbind].
  eexists _, _. split; [done|]. split; [|intros u; split; apply queue_emptied].
  pose proof (history_command _ _ _ _ ue src false H) as H'.
  pose proof (history_flush _ _ _ _ _ _ H' (tagged_all_app _ _ _ _ _ _ _ T1 T2)) as H2.
  rewrite <- app_assoc in H2. by apply (history_release _ _ _ _ ue H2), queue_emptied.
Qed.

(** ** Any run *)

Definition good_event (p : LteBinder * enb_event) : Prop :=
  binders p.1 /\ match p.2 with EnbFromIp d | EnbTunnel d _ => deliverable d | _ => True end.

Lemma history_step s x2 ip effs p :
  history s x2 ip effs -> good_event p ->
  exists s' e, enb_step s p = Ok (s', e) /\
    history s' (x2 ++ tunnel_arrivals [p]) (ip ++ ip_arrivals [p]) (effs ++ e).
Proof.
  intros H [Hb Hd]. destruct p as [b ev]. cbn in Hb, Hd. destruct ev; cbn; rewrite ?app_nil_r.
  - by apply history_from_ip.
  - eexists _, _. split; [done|]. rewrite app_nil_r. by apply history_tunnel.
  - eexists _, _. split; [done|]. rewrite (hi_manager _ _ _ _ H). apply history_command.
    destruct H. by split.
  - eexists _, _. split; [done|]. rewrite app_nil_r. destruct H as [A1 A2 A3 A4 A5 A6 A7]. split; try done.
    cbn. intros u Hu. apply A6. set_solver.
  - eexists _, _. split; [done|]. rewrite app_nil_r. destruct H. by split.
  - destruct (history_complete _ _ _ _ b ueId sourceEnb H Hb) as (s' & e & E & H' & _). by exists s', e.
Qed.

Lemma history_run s x2 ip effs evs :
  history s x2 ip effs -> Forall good_event evs ->
  exists s' e, run enb_step s evs = Ok (s', e) /\
    history s' (x2 ++ tunnel_arrivals evs) (ip ++ ip_arrivals evs) (effs ++ e).
Proof.
  intros H Hall. revert s x2 ip effs H. induction Hall as [|p evs Hp _ IH]; intros s x2 ip effs H.
  - exists s, []. cbn. by rewrite !app_nil_r.
  - destruct (history_step _ _ _ _ p H Hp) as (s1 & e1 & Hs & H1).
    destruct (IH _ _ _ _ H1) as (s2 & e2 & Hr & H2). cbn [run]. rewrite Hs. cbn [rbind]. rewrite Hr. cbn [rbind].
    exists s2, (e1 ++ e2). split; [done|].
    by rewrite tunnel_arrivals_cons, ip_arrivals_cons, !app_assoc.
Qed.
End BaseStation.

(** C23. A base station loses nothing: whatever packets come from IP and through the
    tunnel, and whatever handovers start and end in between, for every node what it was
    sent from the tunnel, followed by what is queued, is what came through the tunnel, in
    order; the packets from IP that were not forwarded to another base station, likewise;
    nothing from IP is held outside a handover, and the packets sent are numbered. *)
Theorem enb_hold_in_order (node_of : Z -> Z) (evs : list (LteBinder * enb_event)) :
  (forall b address, b ∈ map fst evs -> getMacNodeId b address = node_of address) ->
  Forall (deliverable (fun b => b ∈ map fst evs) node_of) (tunnel_arrivals evs ++ ip_arrivals evs) ->
  exists s effs, run enb_step (new_IP2lte true) evs = Ok (s, effs) /\ numbered [] (sent effs) /\
    forall u, (u ∉ hoHolding_ s -> queue (hoFromIp_ s) u = []) /\
      exists sx si, interleaving sx si (for_ue node_of u (sent effs)) /\
        sx ++ map untag (queue (hoFromX2_ s) u) = for_ue node_of u (tunnel_arrivals evs) /\
        interleaving (si ++ map untag (queue (hoFromIp_ s) u)) (for_ue node_of u (forwarded effs))
          (for_ue node_of u (ip_arrivals evs)).
Proof.
  intros Hres Hd. set (bs := fun b => b ∈ map fst evs) in *.
  assert (Hall : Forall (good_event bs node_of) evs).
  { apply Forall_forall. intros p Hp. split; [by apply list_elem_of_fmap_2|].
    rewrite Forall_forall in Hd. destruct p as [b [d|d src| | | |]]; try done; cbn; apply Hd, elem_of_app; [right|left];
      by apply list_elem_of_omap; eexists; split; [exact Hp|]. }
  destruct (history_run bs node_of Hres _ [] [] [] evs (history_new bs node_of) Hall) as (s & effs & Hr & H).
  exists s, effs. split; [done|]. split; [apply H|]. intros u. split; [apply H|].
  destruct (hi_ways _ _ _ _ _ _ H u) as (sx & si & W1 & W2 & W3). exists sx, si.
  rewrite !for_ue_all in W2, W3 by apply H. done.
Qed.

(** ** A complete handover *)

Section Handover.
Variable b : LteBinder.
Variables u source target : Z.

(** The packets of this section are for [u]. *)
Definition for_u (d : Datagram) : Prop := getMacNodeId b (dg_dest d) = u.

Definition from_ip (d : Datagram) : LteBinder * enb_event := (b, EnbFromIp d).
Definition tunnelled (d : Datagram) : LteBinder * enb_event := (b, EnbTunnel (untag d) source).

(** The source forwards them. *)
Lemma source_forwards s ps :
  hasHoManager s = true -> hoForwarding_ s !! u = Some target -> Forall for_u ps ->
  run enb_step s (map from_ip ps) = Ok (s, map (fun d => ForwardData (untag d) target) ps).
Proof.
  intros Hm Hf. induction 1 as [|d ps Hd _ IH]; [done|].
  cbn [map run]. unfold from_ip at 1. cbn [enb_step]. unfold fromIpEnb.
  change (dg_dest (untag d)) with (dg_dest d). rewrite Hd, Hf. cbn [rbind].
  rewrite IH. cbn [rbind]. unfold sendTunneledPacketOnHandover. by rewrite Hm.
Qed.

(** The target queues both kinds. *)
Record holding (s : IP2lte) : Prop := {
  ho_held : u ∈ hoHolding_ s;
  ho_here : hoForwarding_ s !! u = None
}.

Definition with_queues (s : IP2lte) (ps qs : list Datagram) : IP2lte :=
  s <| hoFromX2_ := fold_left (fun m d => enqueue m u (untag d)) ps (hoFromX2_ s) |>
    <| hoFromIp_ := fold_left (fun m d => enqueue m u (untag d)) qs (hoFromIp_ s) |>.

Lemma target_queues s ps qs mid :
  holding s -> Forall for_u ps -> Forall for_u qs ->
  interleaving (map tunnelled ps) (map from_ip qs) mid ->
  run enb_step s mid = Ok (with_queues s ps qs, []).
Proof.
  intros Hs Hps Hqs Hil. remember (map tunnelled ps) as l eqn:El. remember (map from_ip qs) as k eqn:Ek.
  revert s ps qs Hs Hps Hqs El Ek. induction Hil as [|p l k m Hil IH|p l k m Hil IH]; intros s ps qs Hs Hps Hqs El Ek.
  - apply eq_sym, map_eq_nil in El as ->. apply eq_sym, map_eq_nil in Ek as ->. by destruct s.
  - destruct ps as [|d ps]; [done|]. injection El as -> ->. apply Forall_cons in Hps as [Hd Hps].
    cbn [run enb_step tunnelled rbind]. unfold receiveTunneledPacketOnHandover.
    change (dg_dest (untag d)) with (dg_dest d). rewrite Hd.
    rewrite (IH _ ps qs) by (done || by destruct Hs; split). done.
  - destruct qs as [|d qs]; [done|]. injection Ek as -> ->. apply Forall_cons in Hqs as [Hd Hqs].
    cbn [run enb_step from_ip]. unfold fromIpEnb.
    change (dg_dest (untag d)) with (dg_dest d). rewrite Hd, (ho_here _ Hs), bool_decide_eq_true_2 by apply Hs.
    cbn [rbind]. rewrite (IH _ ps qs) by (done || by destruct Hs; split). done.
Qed.

(** The queues hold packets for [u] only. *)
Definition only (q : list Datagram) (m : gmap Z (list Datagram)) : Prop :=
  forall v, queue m v = if decide (v = u) then q else [].

Lemma only_queued q m : only q m -> queued m = q.
Proof.
  intros Hq. change (queued m) with (concat (map (queue m) (ascending m))).
  assert (Hl : forall l, NoDup l -> concat (map (queue m) l) = if decide (u ∈ l) then q else []).
  { induction 1 as [|v l Hv _ IH]; [done|]. cbn [map concat]. rewrite IH, (Hq v). destruct (decide (v = u)) as [->|Hv'].
    - rewrite decide_False, decide_True by (done || apply list_elem_of_here). apply app_nil_r.
    - cbn [app]. apply decide_ext. rewrite elem_of_cons. intuition congruence. }
  rewrite (Hl (ascending m)); [|unfold ascending; rewrite merge_sort_Permutation; apply NoDup_elements].
  case_decide as E; [done|]. rewrite elem_of_ascending, <- eq_None_not_Some in E.
  specialize (Hq u). rewrite decide_True in Hq by done. unfold queue in Hq. by rewrite E in Hq.
Qed.

Lemma only_enqueue q m d : only q m -> only (q ++ [d]) (enqueue m u d).
Proof. intros Hq v. rewrite queue_enqueue, (Hq v). by case_decide. Qed.

Lemma only_enqueue_all q m ds :
  only q m -> only (q ++ map untag ds) (fold_left (fun m d => enqueue m u (untag d)) ds m).
Proof.
  revert q m. induction ds as [|d ds IH]; intros q m Hq; cbn; [by rewrite app_nil_r|].
  pose proof (IH _ _ (only_enqueue _ _ (untag d) Hq)) as H. by rewrite <- app_assoc in H.
Qed.

Lemma only_emptied m : only [] (emptied m).
Proof. intros v. rewrite queue_emptied. by case_decide. Qed.

Definition can_go (d : Datagram) : Prop := deliverable (fun b' => b' = b) (getMacNodeId b) d.

Lemma completes s v ps qs :
  hasHoManager s = true -> only ps (hoFromX2_ s) -> only qs (hoFromIp_ s) -> Forall can_go (ps ++ qs) ->
  exists s' ds, signalHandoverCompleteTarget b s v source = Ok (s', HandoverCommand v source false :: map ToStack ds) /\
    map untag ds = map untag (ps ++ qs) /\ hoHolding_ s' = hoHolding_ s ∖ {[v]} /\
    hoForwarding_ s' = hoForwarding_ s /\ hasHoManager s' = true /\ only [] (hoFromX2_ s') /\ only [] (hoFromIp_ s').
Proof.
  intros Hm Hx Hi Hgo. unfold signalHandoverCompleteTarget. rewrite Hm, (only_queued _ _ Hx), (only_queued _ _ Hi).
  apply Forall_app in Hgo as [G1 G2].
  assert (Hres : forall b' address, b' = b -> getMacNodeId b' address = getMacNodeId b address) by (by intros ? ? ->).
  destruct (send_down_spec _ _ Hres b (seqNums_ s) ps eq_refl G1) as (q1 & ds1 & -> & T1). cbn [rbind].
  destruct (send_down_spec _ _ Hres b q1 qs eq_refl G2) as (q2 & ds2 & -> & T2). cbn [rbind].
  eexists _, (ds1 ++ ds2). split; [done|].
  split; [|by repeat (split; [done|]); split; apply only_emptied].
  rewrite !map_app. by rewrite (tagged_untag _ _ _ _ T1), (tagged_untag _ _ _ _ T2).
Qed.
End Handover.

Lemma ip_run_app {E} (step : IP2lte -> E -> result (IP2lte * list ip_effect)) s s1 e1 evs evs' :
  run step s evs = Ok (s1, e1) ->
  run step s (evs ++ evs') = (let! (s2, e2) := run step s1 evs' in Ok (s2, e1 ++ e2)).
Proof.
  revert s e1. induction evs as [|ev evs IH]; intros s e1; cbn [run app].
  - intros [= <- <-]. by destruct (run step s evs') as [[? ?]| |].
  - destruct (step s ev) as [[s' e]| |]; try done. cbn [rbind].
    destruct (run step s' evs) as [[s2 e2]| |] eqn:Er; try done. cbn [rbind]. intros [= <- <-].
    rewrite (IH _ _ Er). destruct (run step s2 evs') as [[? ?]| |]; try done. cbn [rbind]. by rewrite app_assoc.
Qed.

(** A base station with nothing queued. *)
Definition at_rest (s : IP2lte) : Prop :=
  forall v, queue (hoFromX2_ s) v = [] /\ queue (hoFromIp_ s) v = [].

Lemma at_rest_only u s : at_rest s -> only u [] (hoFromX2_ s) /\ only u [] (hoFromIp_ s).
Proof. intros Hr. split; intros v; case_decide; apply Hr. Qed.

Lemma only_at_rest u s : only u [] (hoFromX2_ s) -> only u [] (hoFromIp_ s) -> at_rest s.
Proof. intros H1 H2 v. rewrite (H1 v), (H2 v). by case_decide. Qed.

Lemma with_queues_only u s ps qs : at_rest s ->
  only u (map untag ps) (hoFromX2_ (with_queues u s ps qs)) /\
  only u (map untag qs) (hoFromIp_ (with_queues u s ps qs)).
Proof.
  intros [H1 H2]%(at_rest_only u). split; cbn.
  - apply (only_enqueue_all u [] _ ps H1).
  - apply (only_enqueue_all u [] _ qs H2).
Qed.

Lemma map_untag_twice ds : map untag (map untag ds) = map untag ds.
Proof. rewrite map_map. by apply map_ext. Qed.

(** From the start of a handover the source forwards every packet for the UE, and the
    target, with nothing queued, sends the forwarded packets and then its own. *)
Lemma handover_source (b : LteBinder) (u target : Z) (src : IP2lte) (ps : list Datagram) :
  hasHoManager src = true -> Forall (for_u b u) ps ->
  exists src', run enb_step src ((b, TriggerSource u target) :: map (from_ip b) ps) =
    Ok (src', HandoverCommand u target true :: map (fun d => ForwardData (untag d) target) ps).
Proof.
  intros Hms Hps. cbn [run enb_step]. unfold triggerHandoverSource. rewrite Hms. cbn [rbind].
  rewrite (source_forwards b u target); [by eexists|done|apply lookup_insert_eq|done].
Qed.

Lemma handover_target (b : LteBinder) (u source : Z) (tgt : IP2lte) (ps qs : list Datagram) mid :
  hasHoManager tgt = true -> at_rest tgt -> hoForwarding_ tgt !! u = None ->
  Forall (for_u b u) (ps ++ qs) -> Forall (can_go b) (ps ++ qs) ->
  interleaving (map (tunnelled b source) ps) (map (from_ip b) qs) mid ->
  exists tgt' ds, run enb_step tgt ((b, TriggerTarget u source) :: mid ++ [(b, CompleteTarget u source)]) =
     Ok (tgt', HandoverCommand u source false :: map ToStack ds) /\
     map untag ds = map untag ps ++ map untag qs /\ u ∉ hoHolding_ tgt' /\ at_rest tgt'.
Proof.
  intros Hmt Hrest Hno [Hps Hqs]%Forall_app Hgo Hil. set (t1 := triggerHandoverTarget tgt u source).
  assert (Hh : holding u t1) by (split; [set_solver|done]).
  pose proof (ip_run_app enb_step _ _ _ mid [(b, CompleteTarget u source)]
    (target_queues b u source t1 ps qs mid Hh Hps Hqs Hil)) as Hr.
  destruct (with_queues_only u t1 ps qs Hrest) as [Hx Hi].
  destruct (completes b u source (with_queues u t1 ps qs) u _ _ Hmt Hx Hi) as (s' & ds & Hc & E & Hh' & _ & _ & Hx' & Hi').
  { rewrite <- map_app. apply Forall_map. exact Hgo. }
  exists s', ds. cbn [run enb_step rbind]. fold t1. cbn [run enb_step] in Hr. rewrite Hc in Hr. cbn [rbind] in Hr.
  rewrite Hr. cbn [rbind app]. rewrite app_nil_r. split; [done|].
  rewrite E, map_app, !map_untag_twice. split; [done|]. rewrite Hh'. split; [set_solver|].
  by apply (only_at_rest u).
Qed.

(** Handovers of two UEs towards one base station interfere: when that of [v]
    completes while [u] is still on its way, the packets held for [u] leave at once, and
    those forwarded for it before them follow only when its own handover completes. *)
Theorem other_completion_reorders (b : LteBinder) (u v source : Z) (tgt : IP2lte) (ps qs : list Datagram) :
  u <> v -> hasHoManager tgt = true -> at_rest tgt -> hoForwarding_ tgt !! u = None ->
  Forall (for_u b u) (ps ++ qs) -> Forall (can_go b) (ps ++ qs) ->
  exists tgt' effs, run enb_step tgt ((b, TriggerTarget u source) :: map (from_ip b) qs ++
     (b, CompleteTarget v source) :: map (tunnelled b source) ps ++ [(b, CompleteTarget u source)]) =
     Ok (tgt', effs) /\ map untag (sent effs) = map untag qs ++ map untag ps.
Proof.
  intros Hne Hm Hrest Hno [Hps Hqs]%Forall_app [Gps Gqs]%Forall_app.
  set (t1 := triggerHandoverTarget tgt u source).
  assert (Hh : holding u t1) by (split; [set_solver|done]).
  pose proof (target_queues b u source t1 [] qs _ Hh (Forall_nil_2 _) Hqs (il_right_only _)) as Hr1.
  destruct (with_queues_only u t1 [] qs Hrest) as [Hx Hi].
  destruct (completes b u source (with_queues u t1 [] qs) v _ _ Hm Hx Hi) as (t2 & ds & Hc & E & Hh2 & Hf2 & Hm2 & Hx2 & Hi2).
  { cbn. by apply Forall_map. }
  assert (Hh' : holding u t2) by (split; [rewrite Hh2; set_solver|by rewrite Hf2]).
  pose proof (target_queues b u source t2 ps [] _ Hh' Hps (Forall_nil_2 _) (il_left_only _)) as Hr2.
  destruct (with_queues_only u t2 ps [] (only_at_rest u t2 Hx2 Hi2)) as [Hx3 Hi3].
  destruct (completes b u source (with_queues u t2 ps []) u _ _ Hm2 Hx3 Hi3) as (t3 & ds3 & Hc3 & E3 & _).
  { rewrite app_nil_r. by apply Forall_map. }
  rewrite app_nil_r in E3. cbn [map app] in E. rewrite map_untag_twice in E, E3.
  eexists t3, _. cbn [run enb_step rbind]. fold t1. rewrite (ip_run_app _ _ _ _ _ _ Hr1).
  cbn [run enb_step]. rewrite Hc. cbn [rbind]. rewrite (ip_run_app _ _ _ _ _ _ Hr2). cbn [run enb_step].
  rewrite Hc3. cbn [rbind app]. split; [done|].
  by rewrite app_nil_r, sent_command, sent_app, sent_command, !sent_map, map_app, E, E3.
Qed.
