(* ===== verification/HandoverDemo.v ===== *)
(** * Handovers: concrete runs

    Datagrams, a UE and a base station that go through handovers; the theorems of
    [IP2lteProps] and [EnbHandover] applied to them. *)

From S2P Require Import Prelude.
From S2P Require Import LteCommon.
From S2P Require Import LteBinder.
From S2P Require Import BinderProps.
From S2P Require Import Pdcp.
From S2P Require Import IP2lte.
From S2P Require Import EnbHandover.
#[local] Open Scope Z_scope.

(** A datagram to [address], recognisable by its source port. *)
Definition udp_datagram (address port : Z) : Datagram :=
  {| dg_header := {| ih_srcAddress := 5; ih_destAddress := address; ih_protocolId := IP_PROT_UDP; ih_headerLength := 20 |};
     dg_transport := Some (UdpHeader port 80); dg_transportInd := Some (UdpHeader port 80);
     dg_packet := {| pkt_name := "udp"; pkt_chunks := []; flow_tag := None; control_info := None; protocol_tag := None |} |}.

Definition port_of (d : Datagram) : Z := match dg_transport d with Some (UdpHeader p _) => p | _ => 0 end.

(** The source port and the sequence number of each packet sent. *)
Definition sent_ports {S} (r : result (S * list ip_effect)) : list (Z * option Z) :=
  match r with
  | Ok (_, effs) => map (fun d => (port_of d, fi_sequenceNumber <$> flow_tag (dg_packet d))) (sent effs)
  | _ => []
  end.

Definition ue_demo : list ue_event :=
  [UeFromIp (udp_datagram 7 1); UeTrigger; UeFromIp (udp_datagram 7 2); UeFromIp (udp_datagram 7 3); UeComplete;
   UeFromIp (udp_datagram 7 4); UeTrigger; UeFromIp (udp_datagram 7 5)].

Example ue_demo_sent :
  sent_ports (run ue_step (new_IP2lte false) ue_demo) = [(1, Some 0); (2, Some 1); (3, Some 2); (4, Some 3)].
Proof. by vm_compute. Qed.

Lemma udp_ue_sendable address port : ue_sendable (udp_datagram address port).
Proof. by eexists _, _. Qed.

Lemma ue_demo_sendable : Forall ue_sendable (ue_arrivals ue_demo).
Proof. repeat (apply Forall_cons; split; [apply udp_ue_sendable|]). apply Forall_nil_2. Qed.

Lemma ue_hold_in_order_witness :
  exists s effs, run ue_step (new_IP2lte false) ue_demo = Ok (s, effs) /\
    map untag (sent effs) ++ ueHoldFromIp_ s = map untag (ue_arrivals ue_demo) /\
    (ueHold_ s = false -> ueHoldFromIp_ s = []) /\ numbered [] (sent effs).
Proof. exact (ue_hold_in_order false ue_demo ue_demo_sendable). Defined.

(** ** The base station *)

Definition enb_demo : list (LteBinder * enb_event) :=
  map (pair demo_binder)
    [EnbFromIp (udp_datagram 7 1); TriggerTarget 1025 2; TriggerSource 1026 2; EnbFromIp (udp_datagram 7 2);
     EnbTunnel (udp_datagram 7 3) 2; EnbFromIp (udp_datagram 8 4); CompleteTarget 1025 2; CompleteSource 1026 2;
     EnbFromIp (udp_datagram 7 5); EnbTunnel (udp_datagram 7 6) 2].

Example enb_demo_sent :
  sent_ports (run enb_step (new_IP2lte true) enb_demo) = [(1, Some 0); (3, Some 1); (2, Some 2); (5, Some 3)].
Proof. by vm_compute. Qed.

Lemma udp_can_go address port bs :
  (forall b, bs b -> b = demo_binder) -> (exists m, getNextHop demo_binder (getMacNodeId demo_binder address) = Ok m) ->
  deliverable bs (getMacNodeId demo_binder) (udp_datagram address port).
Proof. intros Hb Hm. split; [by eexists|]. by intros b ->%Hb. Qed.

Lemma enb_demo_binders b : b ∈ map fst enb_demo -> b = demo_binder.
Proof. intros H. repeat (apply elem_of_cons in H as [H|H]; [exact H|]). by apply not_elem_of_nil in H. Qed.

Lemma enb_demo_deliverable :
  Forall (deliverable (fun b => b ∈ map fst enb_demo) (getMacNodeId demo_binder))
    (tunnel_arrivals enb_demo ++ ip_arrivals enb_demo).
Proof.
  repeat (apply Forall_cons; split; [apply udp_can_go; [apply enb_demo_binders|by eexists]|]). apply Forall_nil_2.
Qed.

Lemma enb_hold_in_order_witness :
  exists s effs, run enb_step (new_IP2lte true) enb_demo = Ok (s, effs) /\ numbered [] (sent effs) /\
    forall u, (u ∉ hoHolding_ s -> queue (hoFromIp_ s) u = []) /\
      exists sx si, interleaving sx si (for_ue (getMacNodeId demo_binder) u (sent effs)) /\
        sx ++ map untag (queue (hoFromX2_ s) u) = for_ue (getMacNodeId demo_binder) u (tunnel_arrivals enb_demo) /\
        interleaving (si ++ map untag (queue (hoFromIp_ s) u)) (for_ue (getMacNodeId demo_binder) u (forwarded effs))
          (for_ue (getMacNodeId demo_binder) u (ip_arrivals enb_demo)).
Proof.
  apply (enb_hold_in_order (getMacNodeId demo_binder) enb_demo); [|exact enb_demo_deliverable].
  by intros b address ->%enb_demo_binders.
Defined.

(** ** One handover, and two at a time *)

Definition fwd : list Datagram := [udp_datagram 7 1; udp_datagram 7 2].
Definition own : list Datagram := [udp_datagram 7 3; udp_datagram 7 4].

Lemma demo_for_u : Forall (for_u demo_binder 1025) (fwd ++ own).
Proof. repeat (apply Forall_cons; split; [by vm_compute|]). apply Forall_nil_2. Qed.

Lemma demo_can_go : Forall (can_go demo_binder) (fwd ++ own).
Proof. repeat (apply Forall_cons; split; [apply udp_can_go; [done|by eexists]|]). apply Forall_nil_2. Qed.

Lemma ip_new_at_rest ho : at_rest (new_IP2lte ho).
Proof. done. Qed.

Lemma other_completion_reorders_witness :
  exists tgt' effs, run enb_step (new_IP2lte true)
    ((demo_binder, TriggerTarget 1025 1) :: map (from_ip demo_binder) own ++ (demo_binder, CompleteTarget 1026 1) ::
       map (tunnelled demo_binder 1) fwd ++ [(demo_binder, CompleteTarget 1025 1)]) = Ok (tgt', effs) /\
    map untag (sent effs) = map untag own ++ map untag fwd.
Proof.
  apply (other_completion_reorders demo_binder 1025 1026 1 (new_IP2lte true) fwd own);
    [lia|reflexivity|apply ip_new_at_rest|reflexivity|exact demo_for_u|exact demo_can_go].
Defined.
