(* ===== verification/X2Handover.v ===== *)
(** * Handovers over X2

    [LteHandoverManager] (src/simulte/src/stack/handoverManager/) turns handover commands
    and forwarded datagrams into X2 messages and back, [LteX2Manager] (x2/) routes X2
    messages between the modules of a base station and its peers, and [GtpUserX2]
    (epc/gtp/) tunnels forwarded datagrams.  The X2 applications and the transport
    below them are left out: what one manager sends to a peer, the peer gets. *)

From S2P Require Import Prelude.
From S2P Require Import LteBinder.
From S2P Require Import X2Msg.
From S2P Require Import IP2lte.
From S2P Require Import BinderProps.
From S2P Require Import EnbHandover.
From S2P Require Import HandoverDemo.
#[local] Open Scope Z_scope.

(** ** Packets *)

Record X2ControlInfo := {
  xi_sourceId : Z;
  xi_destIdList : list Z;
  xi_init : bool
}.

#[export] Instance x2info_eta : Eta X2ControlInfo := fun i =>
  {| xi_sourceId := xi_sourceId i; xi_destIdList := xi_destIdList i; xi_init := xi_init i |}.

Definition new_X2ControlInfo : X2ControlInfo := {| xi_sourceId := 0; xi_destIdList := []; xi_init := false |}.

(** An X2 message at the front, the datagram behind it, and the tag. *)
Record X2Packet := {
  xp_msg : LteX2Message;
  xp_datagram : option Datagram;
  xp_info : option X2ControlInfo
}.

#[export] Instance x2packet_eta : Eta X2Packet := fun p =>
  {| xp_msg := xp_msg p; xp_datagram := xp_datagram p; xp_info := xp_info p |}.

(** ** LteX2Manager *)

(** The tables map types and peers to gates; [x2Gates] and [dataGates] are the sizes of
    the gate vectors. *)
Record LteX2Manager := {
  x2m_nodeId_ : Z;
  dataInterfaceTable_ : gmap Z Z;
  x2InterfaceTable_ : gmap Z Z;
  x2Gates : Z;
  dataGates : Z
}.

#[export] Instance x2manager_eta : Eta LteX2Manager := fun s =>
  {| x2m_nodeId_ := x2m_nodeId_ s; dataInterfaceTable_ := dataInterfaceTable_ s;
     x2InterfaceTable_ := x2InterfaceTable_ s; x2Gates := x2Gates s; dataGates := dataGates s |}.

Inductive x2_effect :=
| ToGtp (p : X2Packet)
| ToPeer (gate : Z) (p : X2Packet)
| ToData (gate : Z) (p : X2Packet).

(** [gate(name, index)]. *)
Definition check_gate (size index : Z) : result Z :=
  if (0 <=? index) && (index <? size) then Ok index else Throw "gate(): Gate not found".

(** [initialize]: the addresses of the X2 interfaces, then the peer of each gate. *)
Definition register_x2_addresses (b : LteBinder) (nodeId : Z) (addresses : list Z) : LteBinder :=
  fold_left (fun b addr => setX2NodeId b addr nodeId) addresses b.

Fixpoint bind_peers (b : LteBinder) (table : gmap Z Z) (i : Z) (connectAddresses : list Z) : gmap Z Z :=
  match connectAddresses with
  | [] => table
  | addr :: addrs => bind_peers b (<[getX2NodeId b addr := i]> table) (i + 1) addrs
  end.

Definition new_LteX2Manager (b : LteBinder) (nodeId nDataGates : Z) (connectAddresses : list Z) : LteX2Manager :=
  {| x2m_nodeId_ := nodeId; dataInterfaceTable_ := ∅; x2InterfaceTable_ := bind_peers b ∅ 0 connectAddresses;
     x2Gates := vsize connectAddresses; dataGates := nDataGates |}.

(** [m[k]] of a [std::map] of integers. *)
Definition at_key (m : gmap Z Z) (k : Z) : Z * gmap Z Z :=
  let v := default 0 (m !! k) in (v, <[k := v]> m).

(** The message is shared with [pkt], so [removeAtFront] copies it. *)
Definition x2_address (nodeId target : Z) (p : X2Packet) : X2Packet :=
  p <| xp_msg := (x2_dup (xp_msg p)) <| x2_sourceId := nodeId |> <| x2_destinationId := target |> |>.

Fixpoint send_to_peers (s : LteX2Manager) (p : X2Packet) (destList : list Z) : result (LteX2Manager * list x2_effect) :=
  match destList with
  | [] => Ok (s, [])
  | target :: dests =>
      let pktDuplicate := x2_address (x2m_nodeId_ s) target p in
      let! (s, e) :=
        if decide (x2_type (xp_msg p) = X2_HANDOVER_DATA_MSG) then Ok (s, ToGtp pktDuplicate)
        else
          let (gateIndex, table) := at_key (x2InterfaceTable_ s) target in
          let! gate := check_gate (x2Gates s) gateIndex in
          Ok (s <| x2InterfaceTable_ := table |>, ToPeer gate pktDuplicate) in
      let! (s, effs) := send_to_peers s p dests in
      Ok (s, e :: effs)
  end.

Definition x2_fromStack (s : LteX2Manager) (arrivalGate : Z) (p : X2Packet) : result (LteX2Manager * list x2_effect) :=
  match xp_info p with
  | None => UB
  | Some x2Info =>
      if xi_init x2Info
      then Ok (s <| dataInterfaceTable_ := <[x2type_code (x2_type (xp_msg p)) := arrivalGate]> (dataInterfaceTable_ s) |>, [])
      else send_to_peers s (p <| xp_info := None |>) (xi_destIdList x2Info)
  end.

Definition x2_fromX2 (s : LteX2Manager) (p : X2Packet) : result (LteX2Manager * list x2_effect) :=
  let msgType := x2_type (xp_msg p) in
  if decide (msgType = X2_UNKNOWN_MSG) then Ok (s, [])
  else
    let (gateIndex, table) := at_key (dataInterfaceTable_ s) (x2type_code msgType) in
    let! gate := check_gate (dataGates s) gateIndex in
    Ok (s <| dataInterfaceTable_ := table |>, [ToData gate p]).

(** ** GtpUserX2 *)

Record GtpUserMsg := { gtp_teid : Z; gtp_inner : X2Packet }.

(** The peer's address and the packet for the socket. *)
Definition gtp_handleFromStack (b : LteBinder) (p : X2Packet) : Z * GtpUserMsg * LteBinder :=
  let (peerAddress, b) := getX2PeerAddress b (x2_sourceId (xp_msg p)) (x2_destinationId (xp_msg p)) in
  (peerAddress, {| gtp_teid := 0; gtp_inner := p |}, b).

Definition gtp_handleFromUdp (g : GtpUserMsg) : X2Packet := gtp_inner g.

(** ** LteHandoverManager *)

(** What [initialize] sends to the X2 manager. *)
Definition handover_registration : X2Packet :=
  {| xp_msg := new_LteX2Message X2_HANDOVER_CONTROL_MSG; xp_datagram := None;
     xp_info := Some (new_X2ControlInfo <| xi_init := true |>) |}.

Definition sendHandoverCommand (nodeId ueId enb : Z) (startHo : bool) : result X2Packet :=
  let! hoMsg := pushIe (new_LteX2Message X2_HANDOVER_CONTROL_MSG) (X2HandoverCommandIE (Some startHo) (Some ueId)) in
  Ok {| xp_msg := hoMsg; xp_datagram := None;
        xp_info := Some {| xi_sourceId := nodeId; xi_destIdList := [enb]; xi_init := false |} |}.

Definition forwardDataToTargetEnb (nodeId : Z) (d : Datagram) (targetEnb : Z) : X2Packet :=
  {| xp_msg := new_LteX2Message X2_HANDOVER_DATA_MSG; xp_datagram := Some d;
     xp_info := Some {| xi_sourceId := nodeId; xi_destIdList := [targetEnb]; xi_init := false |} |}.

(** The calls to [IP2lte]. *)
Inductive ho_call :=
| CallTriggerHandoverTarget (ueId enb : Z)
| CallHandoverCompleteSource (ueId enb : Z)
| CallReceiveTunneled (d : Datagram) (sourceEnb : Z).

Definition receiveHandoverCommand (ueId enb : Z) (startHo : bool) : ho_call :=
  if startHo then CallTriggerHandoverTarget ueId enb else CallHandoverCompleteSource ueId enb.

(** [handleX2Message] copies the message once more.  A data message without a datagram
    is one [IP2lte] finds no header in. *)
Definition handleX2Message (p : X2Packet) : result ho_call :=
  let x2msg := xp_msg p in
  match x2_type x2msg with
  | X2_HANDOVER_DATA_MSG =>
      match xp_datagram p with
      | Some d => Ok (CallReceiveTunneled d (x2_sourceId x2msg))
      | None => Throw "Returning an empty chunk is not allowed"
      end
  | X2_HANDOVER_CONTROL_MSG =>
      let! (ie, hoCommandMsg) := popIe (x2_dup x2msg) in
      match ie with
      | X2HandoverCommandIE startHandover ueId =>
          let! ueId := of_option ueId in
          let! startHandover := of_option startHandover in
          Ok (receiveHandoverCommand ueId (x2_sourceId hoCommandMsg) startHandover)
      | _ => Throw "check_and_cast(): Cannot cast to X2HandoverCommandIE"
      end
  | _ => Throw "check_and_cast(): Cannot cast to X2HandoverControlMsg"
  end.

(** The call as an event of the base station. *)
Definition call_event (c : ho_call) : enb_event :=
  match c with
  | CallTriggerHandoverTarget ueId enb => TriggerTarget ueId enb
  | CallHandoverCompleteSource ueId enb => CompleteSource ueId enb
  | CallReceiveTunneled d sourceEnb => EnbTunnel d sourceEnb
  end.

(** ** Handovers over X2: properties

    A forwarded datagram reaches the base station it is for, unchanged and with its
    sender, when the handover manager has the first gate of the X2 manager, and another
    module when it has not; a handover command is indeterminate when it arrives. *)

#[local] Open Scope Z_scope.

Lemma check_gate_in size i : 0 <= i < size -> check_gate size i = Ok i.
Proof. intros H. unfold check_gate. by rewrite (proj2 (Z.leb_le 0 i)), (proj2 (Z.ltb_lt i size)) by lia. Qed.

(** [init] messages of the modules of a base station, each from its gate. *)
Definition registration (type : LteX2MessageType) : X2Packet :=
  {| xp_msg := new_LteX2Message type; xp_datagram := None; xp_info := Some (new_X2ControlInfo <| xi_init := true |>) |}.

Fixpoint register_modules (s : LteX2Manager) (regs : list (LteX2MessageType * Z)) : result LteX2Manager :=
  match regs with
  | [] => Ok s
  | (type, gate) :: regs' =>
      let! (s, _) := x2_fromStack s gate (registration type) in register_modules s regs'
  end.

(** The gate the last registration of [type] came from. *)
Fixpoint gate_of (type : LteX2MessageType) (regs : list (LteX2MessageType * Z)) : option Z :=
  match regs with
  | [] => None
  | (type', gate) :: regs' =>
      match gate_of type regs' with
      | Some g => Some g
      | None => if decide (type' = type) then Some gate else None
      end
  end.

Lemma x2type_code_inj t t' : x2type_code t = x2type_code t' -> t = t'.
Proof. by destruct t, t'. Qed.

Lemma register_modules_spec s regs :
  exists s', register_modules s regs = Ok s' /\ dataGates s' = dataGates s /\
    forall type, dataInterfaceTable_ s' !! x2type_code type =
      match gate_of type regs with Some g => Some g | None => dataInterfaceTable_ s !! x2type_code type end.
Proof.
  revert s. induction regs as [|[t g] regs IH]; intros s; cbn [register_modules gate_of]; [by eexists|].
  cbn [x2_fromStack registration xp_info xi_init rbind set]. cbn.
  match goal with |- context[register_modules ?s1 regs] => destruct (IH s1) as (s' & -> & Hd & Ht) end.
  exists s'. split; [done|]. split; [done|]. intros type. rewrite Ht. destruct (gate_of type regs); [done|]. cbn.
  case_decide as E; [subst; apply lookup_insert_eq|].
  apply lookup_insert_ne. by intros H%x2type_code_inj.
Qed.

(** Modules register the types of the messages they handle.  A message from a peer
    goes to the gate its type was last registered from, and, when no module registered
    it, to gate 0 (and an unknown message nowhere). *)
Theorem x2_dispatch (s : LteX2Manager) (regs : list (LteX2MessageType * Z)) (p : X2Packet) :
  dataInterfaceTable_ s = ∅ -> Forall (fun r => 0 <= r.2 < dataGates s) regs -> 0 < dataGates s ->
  exists s', register_modules s regs = Ok s' /\
    if decide (x2_type (xp_msg p) = X2_UNKNOWN_MSG) then x2_fromX2 s' p = Ok (s', [])
    else exists s'', x2_fromX2 s' p = Ok (s'', [ToData (default 0 (gate_of (x2_type (xp_msg p)) regs)) p]).
Proof.
  intros He Hg H0. destruct (register_modules_spec s regs) as (s' & Hr & Hd & Ht). exists s'. split; [done|].
  unfold x2_fromX2. case_decide as Et; [done|]. specialize (Ht (x2_type (xp_msg p))).
  rewrite He, lookup_empty in Ht. unfold at_key. rewrite Ht, Hd.
  assert (Hin : 0 <= default 0 (gate_of (x2_type (xp_msg p)) regs) < dataGates s).
  { clear -Hg H0. induction Hg as [|[t g] regs Hg _ IH]; cbn; [lia|].
    destruct (gate_of _ regs); [done|]. case_decide; cbn in *; lia. }
  destruct (gate_of (x2_type (xp_msg p)) regs) as [g|]; cbn [default] in *; rewrite check_gate_in by done;
    by eexists.
Qed.

Lemma fromStack_data s gate d targetEnb :
  x2_fromStack s gate (forwardDataToTargetEnb (x2m_nodeId_ s) d targetEnb) =
  Ok (s, [ToGtp {| xp_msg := (new_LteX2Message X2_HANDOVER_DATA_MSG)
                     <| x2_sourceId := x2m_nodeId_ s |> <| x2_destinationId := targetEnb |>;
                   xp_datagram := Some d; xp_info := None |}]).
Proof. reflexivity. Qed.

(** *** The modules of a base station *)

(** What is connected to the data gates of an X2 manager, by gate: the handover manager
    and, where CoMP is enabled, the CoMP manager before it.  Each registers one type. *)
Inductive x2_module := HandoverManager | CompManager.

Definition module_type (m : x2_module) : LteX2MessageType :=
  match m with HandoverManager => X2_HANDOVER_CONTROL_MSG | CompManager => X2_COMP_MSG end.

Definition registrations (modules : list x2_module) : list (LteX2MessageType * Z) :=
  imap (fun gate m => (module_type m, Z.of_nat gate)) modules.

(** What the X2 manager sends to a data gate reaches the module of that gate; for the
    handover manager that is a call of [handleX2Message]. *)
Definition deliver (modules : list x2_module) (e : x2_effect) : option (result ho_call) :=
  match e with
  | ToData gate q =>
      match vget modules gate with
      | Some HandoverManager => Some (handleX2Message q)
      | _ => None
      end
  | _ => None
  end.

(** No module registers forwarded datagrams. *)
Lemma data_unregistered modules : gate_of X2_HANDOVER_DATA_MSG (registrations modules) = None.
Proof.
  assert (H : Forall (fun r => r.1 <> X2_HANDOVER_DATA_MSG) (registrations modules)).
  { apply Forall_lookup. intros i r. unfold registrations. rewrite list_lookup_imap.
    destruct (modules !! i) as [m|]; intros [= <-]. by destruct m. }
  induction H as [|[t g] l Ht _ IH]; [done|]. cbn [gate_of]. by rewrite IH, decide_False.
Qed.

(** A forwarded datagram, from the handover manager of [source] through the X2 manager of
    the target, which chooses the gate, to what the handover manager there is called with. *)
Definition tunnel (b : LteBinder) (source target : LteX2Manager) (modules : list x2_module) (d : Datagram) (targetEnb : Z)
    : result (Z * list x2_effect * list (result ho_call)) :=
  let! (_, sent) := x2_fromStack source 0 (forwardDataToTargetEnb (x2m_nodeId_ source) d targetEnb) in
  match sent with
  | [ToGtp p] =>
      let '(peer, g, _) := gtp_handleFromStack b p in
      let! (_, received) := x2_fromX2 target (gtp_handleFromUdp g) in
      Ok (peer, received, omap (deliver modules) received)
  | _ => UB
  end.

Lemma tunnel_spec (b : LteBinder) (source target t0 : LteX2Manager) (modules : list x2_module) d targetEnb :
  dataInterfaceTable_ t0 = ∅ -> dataGates t0 = vsize modules -> modules <> [] ->
  register_modules t0 (registrations modules) = Ok target ->
  exists p, tunnel b source target modules d targetEnb =
    Ok ((getX2PeerAddress b (x2m_nodeId_ source) targetEnb).1, [ToData 0 p],
        match modules with HandoverManager :: _ => [Ok (CallReceiveTunneled d (x2m_nodeId_ source))] | _ => [] end).
Proof.
  intros He H0 Hne Hr. destruct (register_modules_spec t0 (registrations modules)) as (s' & Hr' & Hd & Ht).
  rewrite Hr in Hr'. injection Hr' as <-. specialize (Ht X2_HANDOVER_DATA_MSG). rewrite data_unregistered, He, lookup_empty in Ht.
  unfold tunnel. rewrite fromStack_data. cbn [rbind]. unfold gtp_handleFromStack, gtp_handleFromUdp.
  cbn [getX2PeerAddress gtp_inner set xp_msg x2_sourceId x2_destinationId]. unfold x2_fromX2. cbn [xp_msg x2_type].
  rewrite decide_False by done. unfold at_key.
  assert (H1 : 0 < dataGates target) by (rewrite Hd, H0; destruct modules; [done|cbn; lia]).
  cbn in Ht |- *. rewrite Ht. cbn [default]. rewrite check_gate_in by lia. eexists. by destruct modules as [|[] ?].
Qed.

(** What the effects of the source become at the target. *)
Definition over_x2 (b : LteBinder) (source target : LteX2Manager) (modules : list x2_module) (effs : list ip_effect)
    : list (LteBinder * enb_event) :=
  concat (map (fun e =>
    match e with
    | ForwardData d targetEnb =>
        match tunnel b source target modules d targetEnb with
        | Ok (_, _, calls) => omap (fun c => match c with Ok c => Some (b, call_event c) | _ => None end) calls
        | _ => []
        end
    | _ => []
    end) effs).

Section Stations.
Context (b : LteBinder) (u targetEnb : Z) (src : IP2lte) (mgr t0 tgtMgr : LteX2Manager) (modules : list x2_module).
Hypothesis Hsrc : hasHoManager src = true.
Hypothesis Hnew : dataInterfaceTable_ t0 = ∅.
Hypothesis Hgates : dataGates t0 = vsize modules.
Hypothesis Hregister : register_modules t0 (registrations modules) = Ok tgtMgr.

Lemma over_x2_forwards ps :
  modules <> [] ->
  over_x2 b mgr tgtMgr modules (map (fun d => ForwardData (untag d) targetEnb) ps) =
  match modules with HandoverManager :: _ => map (tunnelled b (x2m_nodeId_ mgr)) ps | _ => [] end.
Proof.
  intros Hne. unfold over_x2. induction ps as [|d ps IH]; [by destruct modules as [|[] ?]|]. cbn [map concat]. rewrite IH.
  destruct (tunnel_spec b mgr tgtMgr t0 modules (untag d) targetEnb Hnew Hgates Hne Hregister) as [p ->].
  by destruct modules as [|[] ?].
Qed.

(** C7. A handover loses, duplicates and reorders nothing when the first data gate of the
    target's X2 manager is that of its handover manager: the source forwards every packet
    [ps] for the UE from the start of the handover; each crosses the X2 manager of the
    source and the tunnel, and the X2 manager of the target, where each module has
    registered its type, chooses the gate it leaves by and so the module that gets it; the
    target holds the packets and its own [qs], however they interleave, and the end of the
    handover sends the forwarded packets in order and then its own in order, and leaves
    nothing queued. *)
Theorem handover_lossless (tgt : IP2lte) (ps qs : list Datagram) :
  head modules = Some HandoverManager ->
  hasHoManager tgt = true -> at_rest tgt -> hoForwarding_ tgt !! u = None ->
  Forall (for_u b u) (ps ++ qs) -> Forall (can_go b) (ps ++ qs) ->
  exists src' effs, run enb_step src ((b, TriggerSource u targetEnb) :: map (from_ip b) ps) = Ok (src', effs) /\
    sent effs = [] /\
    forall mid, interleaving (over_x2 b mgr tgtMgr modules effs) (map (from_ip b) qs) mid ->
      exists tgt' ds, run enb_step tgt
          ((b, TriggerTarget u (x2m_nodeId_ mgr)) :: mid ++ [(b, CompleteTarget u (x2m_nodeId_ mgr))]) =
        Ok (tgt', HandoverCommand u (x2m_nodeId_ mgr) false :: map ToStack ds) /\
        map untag ds = map untag ps ++ map untag qs /\ u ∉ hoHolding_ tgt' /\ at_rest tgt'.
Proof.
  intros Hhead Hmt Hrest Hno Hu Hgo. pose proof Hu as [Hps _]%Forall_app.
  destruct (handover_source b u targetEnb src ps Hsrc Hps) as [src' Hs]. exists src'. eexists. split; [exact Hs|].
  split; [by clear; induction ps|].
  intros mid Hil. apply handover_target; [done..|].
  change (over_x2 b mgr tgtMgr modules (HandoverCommand u targetEnb true :: ?l)) with (over_x2 b mgr tgtMgr modules l) in Hil.
  rewrite over_x2_forwards in Hil by (by destruct modules). by destruct modules as [|[] ?].
Qed.

(** C38. With CoMP, forwarding loses everything: the CoMP manager has the first gate of the
    target's X2 manager, no module registers forwarded datagrams, and so the gate they
    leave by is the first.  The source gives up every packet for the UE from the start of
    the handover, and none of them is handed to the handover manager of the target. *)
Theorem forwarded_to_comp (ps : list Datagram) :
  head modules = Some CompManager -> Forall (for_u b u) ps ->
  exists src' effs, run enb_step src ((b, TriggerSource u targetEnb) :: map (from_ip b) ps) = Ok (src', effs) /\
    sent effs = [] /\ effs = HandoverCommand u targetEnb true :: map (fun d => ForwardData (untag d) targetEnb) ps /\
    over_x2 b mgr tgtMgr modules effs = [] /\
    Forall (fun d => exists peer p, tunnel b mgr tgtMgr modules (untag d) targetEnb = Ok (peer, [ToData 0 p], [])) ps.
Proof.
  intros Hhead Hps. destruct (handover_source b u targetEnb src ps Hsrc Hps) as [src' Hs]. exists src'. eexists. split; [exact Hs|].
  split; [by clear; induction ps|]. split; [done|].
  change (over_x2 b mgr tgtMgr modules (HandoverCommand u targetEnb true :: ?l)) with (over_x2 b mgr tgtMgr modules l).
  rewrite over_x2_forwards by (by destruct modules). split; [by destruct modules as [|[] ?]|].
  apply Forall_forall. intros d _.
  destruct (tunnel_spec b mgr tgtMgr t0 modules (untag d) targetEnb Hnew Hgates ltac:(by destruct modules) Hregister) as [p Hp].
  eexists _, p. rewrite Hp. by destruct modules as [|[] ?].
Qed.
End Stations.

(** A handover command arrives indeterminate: each of the two managers on its way
    copies it, a copy keeps neither the UE nor the phase, and the receiver reads both. *)
Theorem handover_command_indeterminate (s s' : LteX2Manager) (nodeId ueId enb : Z) (startHo : bool) p gate q :
  sendHandoverCommand nodeId ueId enb startHo = Ok p -> x2_fromStack s 0 p = Ok (s', [ToPeer gate q]) ->
  ieList_ (xp_msg p) = [X2HandoverCommandIE (Some startHo) (Some ueId)] /\
  ieList_ (xp_msg q) = [X2HandoverCommandIE None None] /\ handleX2Message q = UB /\ handleX2Message p = UB.
Proof.
  intros [= <-]. cbn. destruct (check_gate _ _) as [i| |]; cbn; try done. by intros [= <- <- <-].
Qed.

(** ** Concrete base stations *)

Definition x2_binder : LteBinder := setX2PeerAddress (setX2NodeId (setX2NodeId demo_binder 101 1) 102 2) 1 2 102.
Definition x2_station (nodeId : Z) (peer : Z) (nDataGates : Z) : LteX2Manager :=
  new_LteX2Manager x2_binder nodeId nDataGates [peer].

(** Station 1 without CoMP, station 2 with its CoMP manager on the first gate. *)
Definition plain : list x2_module := [HandoverManager].
Definition with_comp : list x2_module := [CompManager; HandoverManager].

Definition data_packet : X2Packet := forwardDataToTargetEnb 1 (udp_datagram 7 1) 2.

(** With CoMP, forwarded datagrams do not go to the gate of the handover manager. *)
Lemma x2_dispatch_witness :
  exists s', register_modules (x2_station 2 101 2) (registrations with_comp) = Ok s' /\
    if decide (x2_type (xp_msg data_packet) = X2_UNKNOWN_MSG) then x2_fromX2 s' data_packet = Ok (s', [])
    else exists s'', x2_fromX2 s' data_packet =
      Ok (s'', [ToData (default 0 (gate_of (x2_type (xp_msg data_packet)) (registrations with_comp))) data_packet]).
Proof.
  apply (x2_dispatch (x2_station 2 101 2) (registrations with_comp) data_packet); [reflexivity| |reflexivity].
  repeat (apply Forall_cons; split; [by vm_compute|]). apply Forall_nil_2.
Defined.

Example comp_gets_data :
  (gate_of X2_HANDOVER_CONTROL_MSG (registrations with_comp), gate_of X2_HANDOVER_DATA_MSG (registrations with_comp)) = (Some 1, None).
Proof. reflexivity. Qed.

Definition target_manager : LteX2Manager :=
  match register_modules (x2_station 2 101 1) (registrations plain) with Ok s => s | _ => x2_station 2 101 1 end.

Lemma handover_lossless_witness :
  exists src' effs, run enb_step (new_IP2lte true)
      ((demo_binder, TriggerSource 1025 2) :: map (from_ip demo_binder) fwd) = Ok (src', effs) /\
    sent effs = [] /\
    forall mid, interleaving (over_x2 demo_binder (x2_station 1 102 1) target_manager plain effs) (map (from_ip demo_binder) own) mid ->
      exists tgt' ds, run enb_step (new_IP2lte true)
          ((demo_binder, TriggerTarget 1025 1) :: mid ++ [(demo_binder, CompleteTarget 1025 1)]) =
        Ok (tgt', HandoverCommand 1025 1 false :: map ToStack ds) /\
        map untag ds = map untag fwd ++ map untag own /\ 1025 ∉ hoHolding_ tgt' /\ at_rest tgt'.
Proof.
  exact (handover_lossless demo_binder 1025 2 (new_IP2lte true) (x2_station 1 102 1)
    (x2_station 2 101 1) target_manager plain eq_refl eq_refl eq_refl eq_refl (new_IP2lte true) fwd own
    eq_refl eq_refl (ip_new_at_rest true) eq_refl demo_for_u demo_can_go).
Defined.

Definition comp_manager : LteX2Manager :=
  match register_modules (x2_station 2 101 2) (registrations with_comp) with Ok s => s | _ => x2_station 2 101 2 end.

Lemma forwarded_to_comp_witness :
  exists src' effs, run enb_step (new_IP2lte true)
      ((demo_binder, TriggerSource 1025 2) :: map (from_ip demo_binder) fwd) = Ok (src', effs) /\
    sent effs = [] /\ effs = HandoverCommand 1025 2 true :: map (fun d => ForwardData (untag d) 2) fwd /\
    over_x2 demo_binder (x2_station 1 102 1) comp_manager with_comp effs = [] /\
    Forall (fun d => exists peer p,
      tunnel demo_binder (x2_station 1 102 1) comp_manager with_comp (untag d) 2 = Ok (peer, [ToData 0 p], [])) fwd.
Proof.
  exact (forwarded_to_comp demo_binder 1025 2 (new_IP2lte true) (x2_station 1 102 1)
    (x2_station 2 101 2) comp_manager with_comp eq_refl eq_refl eq_refl eq_refl fwd
    eq_refl (proj1 (proj1 (Forall_app _ _ _) demo_for_u))).
Defined.

Definition demo_command : X2Packet :=
  match sendHandoverCommand 1 1025 2 true with Ok p => p | _ => data_packet end.

Lemma handover_command_indeterminate_witness :
  exists s' q, x2_fromStack (x2_station 1 102 1) 0 demo_command = Ok (s', [ToPeer 0 q]) /\
    ieList_ (xp_msg demo_command) = [X2HandoverCommandIE (Some true) (Some 1025)] /\
    ieList_ (xp_msg q) = [X2HandoverCommandIE None None] /\ handleX2Message q = UB /\ handleX2Message demo_command = UB.
Proof.
  assert (Hq : exists s' q, x2_fromStack (x2_station 1 102 1) 0 demo_command = Ok (s', [ToPeer 0 q]))
    by (eexists _, _; by vm_compute).
  destruct Hq as (s' & q & Hq). exists s', q. split; [exact Hq|].
  exact (handover_command_indeterminate _ _ 1 1025 2 true demo_command 0 q eq_refl Hq).
Defined.
